(* ===== verification/_CoqProject ===== *)
-Q . S2P
Prelude.v
ByteCursor.v
DnsProtocol.v
Rfc1035.v
Types.v
Arpa.v
Lru.v
Metrics.v
Cache.v
Extract.v
Pattern.v
Hostname.v
Util.v
StdText.v
Words.v
Server.v
LoopDetect.v
HashQuestions.v
DomainMatch.v
Edns0.v
RrFilter.v
FrecTable.v
Forward.v
DhcpTypes.v
DhcpOptions.v
DhcpCommon.v
Lease.v
LeaseFile.v
DhcpAlloc.v
Rfc2131.v
DhcpServer.v
Records.v
Domain.v
Helper.v
Arp.v
Auth.v
Tftp.v
TftpServer.v
TftpSpec.v
TftpDownload.v
Crypto.v
Dnssec.v
DnssecChain.v
DnssecSpec.v
DnssecOrder.v
LocalAnswer.v
LocalSpec.v
ReplyTools.v
ReplyPath.v
ReplySpec.v
Rfc3315.v
Dhcp6.v
Dhcp6Alloc.v
Dhcp6Wire.v
Dhcp6Spec.v
Slaac.v
SlaacSpec.v
Dhcp6Loop.v
Radv.v
RadvServer.v
RadvSpec.v
RadvTimers.v
RecordSet.v
ConfigText.v
Daemon.v
ConfigDns.v
ConfigRecords.v
DhcpOptTab.v
ConfigDhcp.v
RevZones.v
ConfigApply.v
ConfigDirs.v
ConfigSpec.v
ConfigLoad.v
Hosts.v
HostsSpec.v
Network.v
NetworkSpec.v
