(* ===== verification/Prelude.v ===== *)
(** * A verification of the dnsmasq-rs DNS and DHCP server

    dnsmasq-rs answers DNS queries from a cache, forwards the others to upstream
    servers chosen by domain, and hands out addresses by DHCP. This library
    translates the parts of its source (src/src) that decide what goes into the
    cache, where a query is sent, which reply is believed and who gets which
    address, and proves what those parts promise to each other.

    ** How the program is put together

    A client's datagram is parsed by rfc1035.rs over byte_cursor.rs. A query
    that the cache (cache.rs) cannot answer is hashed (hash_questions.rs), given
    EDNS0 options (edns0.rs), matched with a server (domain_match.rs over
    hostname.rs) and recorded in the table of queries in flight (forward.rs).
    The reply is checked against that table, filtered (rrfilter.rs), and its
    records are put into the cache (extract_addresses in rfc1035.rs), where
    later queries find them. loop_detect.rs watches for queries of our own
    that come back; metrics/mod.rs counts. A DHCP packet is parsed and dispatched
    by dhcp.rs, which finds the client's host entry and tags (dhcp_common.rs),
    searches for a free address, lets rfc2131.rs build the answer and records the
    lease (lease.rs), whose text form is the lease file. tftp.rs
    serves files; dnssec.rs judges replies; rfc3315.rs and dhcp6.rs serve DHCPv6,
    radv.rs advertises the ranges. option.rs reads the configuration that all
    of them run on, and network.rs decides which interfaces they serve.

    ** Which file models what

    - [Prelude]: machine integers, the [outcome] of code that can panic, byte
      strings, the hint databases and tactics, lemmas on lists and bytes.
    - [ByteCursor]: byte_cursor.rs. [DnsProtocol]: dns_protocol/mod.rs, the wire
      enumerations and the header. [Types], [Server]: the shared types of types/.
    - [Rfc1035]: names, questions, records and packets of rfc1035.rs. [Arpa]: its
      reverse names and special-use networks. [Extract]: its [extract_addresses],
      the walk along a CNAME chain and the commit into the cache.
    - [Lru]: the interface of the bounded map of the [lru] crate with its laws,
      and an instance. [Metrics]: metrics/mod.rs. [Cache]: cache.rs.
    - [Pattern], [Hostname], [Util]: pattern.rs, hostname.rs, util.rs.
    - [LoopDetect]: loop_detect.rs. [HashQuestions]: hash_questions.rs.
    - [DomainMatch]: domain_match.rs, the sorted server array and its search.
    - [Edns0]: edns0.rs. [RrFilter]: rrfilter.rs.
    - [FrecTable]: the table of queries in flight and the pool of source sockets
      of forward.rs. [Forward]: its engine, with validation and retries.
    - [DhcpTypes]: types/dhcp.rs and dhcp_protocol/mod.rs. [DhcpOptions]: option
      areas and the packet format. [DhcpCommon]: tags, option selection and host
      entries of dhcp_common.rs. [Lease], [LeaseFile]: lease.rs. [DhcpAlloc]: the
      ranges, the ping cache and the allocator of dhcp.rs. [Rfc2131]: the message
      handlers, reply options and relay of rfc2131.rs. [DhcpServer]: the
      dispatcher of dhcp.rs.
    - [StdText], [Words]: the text functions of the standard library that the
      lease file, the synthesised names, the configuration and the hosts files
      use (addresses, integers, lines, fields, words).
    - [Records]: the configured records of types/dns_records.rs. [Domain]:
      domain.rs. [Auth]: auth.rs, the authoritative server.
    - [Helper]: the events and pipe format of helper.rs. [Arp]: arp.rs.
    - [Tftp], [TftpServer]: tftp.rs, its packets and files, and its transfers.
      [TftpSpec], [TftpDownload]: what the server promises, and a whole download.
    - [Crypto], [Dnssec], [DnssecChain]: crypto.rs and dnssec.rs, record sets and
      their signatures, then keys, denial proofs and whole replies. [DnssecSpec],
      [DnssecOrder]: the chain of trust, the proofs and the canonical order.
    - [LocalAnswer]: [answer_request] of rfc1035.rs. [LocalSpec]: where its
      answers come from. [ReplyTools]: the rest of rfc1035.rs. [ReplyPath]: the
      two event handlers of forward.rs and [process_reply]. [ReplySpec]: the
      invariant of the whole loop, and who is sent what.
    - [Rfc3315], [Dhcp6]: rfc3315.rs and dhcp6.rs, the DHCPv6 messages and the
      server. [Dhcp6Alloc], [Dhcp6Wire], [Dhcp6Spec]: its allocator, its message
      format, and what a grant promises. [Slaac], [SlaacSpec]: slaac.rs, with the
      probes of lease.rs. [Dhcp6Loop]: the loop over the three events.
    - [Radv], [RadvServer]: radv.rs, advertisements and their timers. [RadvSpec],
      [RadvTimers]: the wire format, and the scan of the timers.
    - [RecordSet]: the notation to update a field of a record. [ConfigText],
      [ConfigDns], [ConfigRecords], [DhcpOptTab], [ConfigDhcp], [ConfigApply]:
      option.rs, the text of a configuration, the parsers of its directives and
      the table that applies them to the [Daemon] of types/daemon.rs.
      [ConfigDirs]: zones_d.rs, networks_d.rs and the files read again.
      [RevZones], [ConfigSpec], [ConfigLoad]: reverse zones, the invariant of an
      accepted configuration, and inclusion, directories and re-reading.
    - [Hosts]: the hosts files of cache.rs. [HostsSpec]: what a reload leaves.
    - [Network]: network.rs, the interface filter and shared listeners.
      [NetworkSpec]: the enumeration against its rule.

    ** Conventions

    A [&mut self] method is a function from the old state to the result and the
    new state; a [Result] is [Res] or a sum of its error type; a function that
    can panic (a slice out of range or off a character boundary, an overflow of
    checked arithmetic) returns [outcome], with [Panic] a value of its own, so
    that theorems say where panics cannot happen. A [u8] is a [Byte.byte], wider
    integers are [Z] with the reductions of the source written out, and strings
    are the bytes of their UTF-8 encoding. Times are integers. Hash maps are
    [gmap]s; where the source iterates over one, the order is a parameter
    ([HashOrder]) of which only that it enumerates the map is assumed.

    What is not in the repository is a parameter: the [lru] crate ([Lru]), the
    Unicode tables of the standard library ([UnicodeTables]), the unspecified
    default hasher ([Hasher]), digests and signature schemes ([CryptoLib]), files
    ([FileSystem], [World] of TFTP, the order of its table [TransferOrder]), what
    sockets, clocks and random numbers return
    ([Env] of the forwarding engine, [PacketEnv] of the DHCP server). Each class
    has an instance, used by the witnesses.

    ** What the theorems show

    - Codec: name extraction ends on every packet, stays inside it and bounds
      its result; names and packets survive writing and parsing.
    - Cache: size, key and counter invariants over every sequence of
      operations; insertion refines a finite map; transactions are atomic;
      answers never replace configuration; lookups and sweeps are exact.
    - Reply caching: rejected replies change nothing and accepted ones add only
      bounded, public records; the CNAME walk ends.
    - Server choice: the sorted array and incremental binary search find what a
      scan of ever shorter suffixes finds.
    - Forwarding: identifiers stay unique, socket counts exact and client budgets
      kept in every reachable state; a reply affects only the query it answers.
    - Rewriting: OPT replacement and record filters change exactly what they
      should, and compression pointers keep their targets.
    - Leases: the database stays consistent over all its operations, the lease
      file round trips, and the DHCP server drives the database only through
      those operations.
    - Allocation: sound, complete and terminating. Replies: an acknowledgement is
      recorded unless the database is full, and its bytes read back. Options: the
      most specific wins, codes are sent once. The relay brings replies back to their client.
    - Authoritative zones: the search ends; outsiders see only addresses a zone
      lets out; a reply is exactly what the search found, in the size the client
      announced, and refusals carry no records.
    - Events: the helper reads what the daemon wrote, and the ARP events turn
      what the script knows into what the kernel lists.
    - Synthesised names lead back to their addresses.
    - The loop: over all sequences of queries and replies the engine and the cache
      stay right together; only the clients of a query get its reply.
    - Local answers consist of configured records and of live cached ones.
    - Files: a client of the TFTP server gets every byte of the file, in order,
      and nothing outside the root is opened.
    - DNSSEC: a reply judged secure has a chain of signed keys from an anchor,
      for names and DS replies of the form [dnssec_chain_of_trust] asks for; what
      NSEC records deny is not in the zone ([nsec_denial_sound], with its two
      exclusions).
    - DHCPv6: a grant is backed by the lease, replies are well formed, addresses
      are unique, the allocator is exact, and the loop handles every event.
    - Router advertisements are read as they were built; no timer is left due.
    - Configuration: what is accepted is well formed; inclusion ends; a directory
      is one script in the order of its file names; re-reading is idempotent.
    - Hosts files: the last line of a name and of an address is served.
    - Interfaces: exactly the permitted addresses are served, with the services
      allowed, and listeners are shared by address.

    Where the code departs from what a theorem would say, the theorem states the
    condition and an [Example] beside it shows the departure: netascii with
    blocks of one byte ([netascii_stuck]), names that end in a dot and DS records
    of another name ([trailing_dot_unvalidated], [stray_ds_trusted]), the next
    name of an NSEC record ([next_name_denied]), a full lease database
    ([ack_without_record], [dhcp6_full_database_unnoticed]), an authoritative
    Rebind ([dhcp6_rebind_takes_over]), lease times of 2^30 seconds and more
    ([dhcp6_long_lease_panics]), and a directory below itself
    ([conf_dir_cycle_overflows]).

    ** Fuel

    Loops that are not structural run on fuel that is proved or seen to be
    enough: name extraction takes [NAME_FUEL] = 512 steps (a name has at most 255
    bytes and the source follows a bounded number of pointers; [extract_name_total]),
    the CNAME walk [WALK_FUEL] = 11 ([cname_walk_bounded]), glob matching the
    measure [glob_fuel] ([glob_match_correct]), binary searches the length of
    their range, scans over options or names the length of the data plus one
    (each step consumes a byte), the allocation scan the number of addresses in
    its range ([address_scan_terminates]), carry folding 3 rounds and the
    randomised shortening of lease timers 17 rounds of halving a [u16].
    The alias loop of the authoritative server takes two rounds
    ([answer_auth_terminates]), the helper's loop the length of its pipe plus
    one (each round takes a header), and the drain of ARP events one step per
    record. The inclusion of configuration files has the depth of the source
    ([inclusion_ends]); directories take a stack, and any one as deep as they are
    nested gives the same result ([conf_dir_exact]). The
    advertisement timers are scanned until none is due, which takes at most a
    round a range and one more ([radv_timers_exact]); the words of a line are
    fewer than its bytes.

    ** Not modelled

    Sockets, event loops, signals, process management, logging and kernel
    interfaces (netlink.rs, dnsmasq.rs, inotify.rs, log.rs,
    conntrack.rs, ipset.rs, nftset.rs, cmsg.rs, dump.rs, poll.rs; of helper.rs the
    process itself, of arp.rs its netlink socket), inter-process
    and HTTP interfaces (dbus.rs, ubus.rs, web_api.rs, web_ui.rs): they are I/O
    around the modelled code.    Of network.rs the sockets themselves are
    parameters, of cache.rs the text dump and query logging are left out, and
    main.rs and dnsmasq.rs, which start the daemon, turn its configuration into
    that of the components and run their event loops, are not modelled: each
    component is modelled with its own configuration as an argument, and
    [ReplySpec], [TftpSpec], [Dhcp6Loop] and [RadvTimers] model the loops. Nor is
    the optional YAML configuration (yaml_config.rs). *)

From Stdlib Require Import Strings.Byte ZArith Lia String.
From stdpp Require Import base numbers list option strings gmap.

#[local] Open Scope Z_scope.

(** ** Machine integers

    A [u8] is Rocq's [Byte.byte]; wider unsigned integers are [Z] values
    with the reductions the source performs written out. *)
Notation u8 := Byte.byte.

#[global] Instance u8_eq_dec : EqDecision u8 := Byte.byte_eq_dec.

Definition u8z (b : u8) : Z := Z.of_N (Byte.to_N b).

(** [e as u8]: keep the low eight bits. *)
Definition z8 (z : Z) : u8 :=
  match Byte.of_N (Z.to_N (z mod 256)) with
  | Some b => b
  | None => Byte.x00
  end.

Definition as_u16 (z : Z) : Z := z mod 65536.
Definition as_u32 (z : Z) : Z := z mod 4294967296.
Definition as_u64 (z : Z) : Z := z mod 18446744073709551616.

(** [usize::MAX + 1]; positions are natural numbers and only [checked_add]
    can see the bound. *)
Definition usize_bound : Z := 18446744073709551616.

Definition checked_add (a b : nat) : option nat :=
  if Z.of_nat a + Z.of_nat b <? usize_bound then Some (a + b)%nat else None.

(** [f_to_be_bytes] and [f_from_be_bytes] for an [n]-byte unsigned integer. *)
Fixpoint to_be (n : nat) (z : Z) : list u8 :=
  match n with
  | O => []
  | S n' => to_be n' (z / 256) ++ [z8 z]
  end.

Definition of_be (bs : list u8) : Z :=
  fold_left (fun acc b => acc * 256 + u8z b) bs 0.

(** ** Results and panics *)

Inductive result (A E : Type) : Type :=
| Ok (a : A)
| Err (e : E).
Arguments Ok {A E} a.
Arguments Err {A E} e.

(** A computation of the source that may panic (an index or a string slice
    out of its bounds). *)
Inductive outcome (A : Type) : Type :=
| Val (a : A)
| Panic.
Arguments Val {A} a.
Arguments Panic {A}.

Declare Scope rust_scope.
Delimit Scope rust_scope with rust.

(** The [?] operator, for [Result] and for [Option], and sequencing of
    computations that may panic. *)
Notation "'let?' x ':=' e 'in' k" :=
  (match e with Ok x => k | Err err => Err err end)
  (at level 10, x pattern, e at level 100, k at level 200)
  : rust_scope.
Notation "'let!' x ':=' e 'in' k" :=
  (match e with Some x => k | None => None end)
  (at level 10, x pattern, e at level 100, k at level 200)
  : rust_scope.
Notation "'let#' x ':=' e 'in' k" :=
  (match e with Val x => k | Panic => Panic end)
  (at level 10, x pattern, e at level 100, k at level 200)
  : rust_scope.
Open Scope rust_scope.

Definition ok_or {A E} (o : option A) (e : E) : result A E :=
  match o with Some a => Ok a | None => Err e end.
Definition ok {A E} (r : result A E) : option A :=
  match r with Ok a => Some a | Err _ => None end.

(** ** Slices *)

(** [s.get(a..b)]. *)
Definition slice {A} (s : list A) (a b : nat) : option (list A) :=
  if (a <=? b)%nat && (b <=? length s)%nat then Some (take (b - a) (drop a s)) else None.

(** ** Strings

    A Rust [str] is its UTF-8 byte sequence. *)
Notation str := (list u8).

(** String literals of the source. *)
Definition bs (s : string) : str := String.list_byte_of_string s.

Definition is_cont (b : u8) : bool := (128 <=? u8z b) && (u8z b <? 192).
Definition in_rng (lo hi : Z) (b : u8) : bool := (lo <=? u8z b) && (u8z b <=? hi).

(** [std::str::from_utf8(s).is_ok()]: the well-formed sequences of the
    Unicode standard. *)
Fixpoint utf8_valid (s : str) : bool :=
  match s with
  | [] => true
  | b0 :: s1 =>
    if u8z b0 <? 128 then utf8_valid s1
    else match s1 with
    | [] => false
    | b1 :: s2 =>
      if in_rng 194 223 b0 then is_cont b1 && utf8_valid s2
      else match s2 with
      | [] => false
      | b2 :: s3 =>
        if in_rng 224 239 b0 then
          (if u8z b0 =? 224 then in_rng 160 191 b1
           else if u8z b0 =? 237 then in_rng 128 159 b1
           else is_cont b1) && is_cont b2 && utf8_valid s3
        else match s3 with
        | [] => false
        | b3 :: s4 =>
          in_rng 240 244 b0 &&
          (if u8z b0 =? 240 then in_rng 144 191 b1
           else if u8z b0 =? 244 then in_rng 128 143 b1
           else is_cont b1) && is_cont b2 && is_cont b3 && utf8_valid s4
        end
      end
    end
  end.

(** [s.chars()] as code points, for a well-formed [s]. *)
Fixpoint chars (s : str) : list Z :=
  match s with
  | [] => []
  | b0 :: s1 =>
    if u8z b0 <? 128 then u8z b0 :: chars s1
    else match s1 with
    | [] => []
    | b1 :: s2 =>
      if u8z b0 <? 224 then
        ((u8z b0 - 192) * 64 + (u8z b1 - 128)) :: chars s2
      else match s2 with
      | [] => []
      | b2 :: s3 =>
        if u8z b0 <? 240 then
          ((u8z b0 - 224) * 4096 + (u8z b1 - 128) * 64 + (u8z b2 - 128)) :: chars s3
        else match s3 with
        | [] => []
        | b3 :: s4 =>
          ((u8z b0 - 240) * 262144 + (u8z b1 - 128) * 4096
           + (u8z b2 - 128) * 64 + (u8z b3 - 128)) :: chars s4
        end
      end
    end
  end.

(** [s.is_char_boundary(i)]. *)
Definition is_char_boundary (s : str) (i : nat) : bool :=
  (i =? 0)%nat || (i =? length s)%nat ||
  match s !! i with Some b => negb (is_cont b) | None => false end.

(** [&s[i..]] and [&s[..i]]: panic off a character boundary. *)
Definition str_from (s : str) (i : nat) : outcome str :=
  if is_char_boundary s i then Val (drop i s) else Panic.

Definition is_ascii (s : str) : Prop := Forall (fun b => u8z b < 128) s.

(** [u8::to_ascii_lowercase], [u8::to_ascii_uppercase]. *)
Definition lower8 (b : u8) : u8 := if in_rng 65 90 b then z8 (u8z b + 32) else b.

Definition to_ascii_lowercase (s : str) : str := lower8 <$> s.

(** The same on a [char]. *)
Definition char_lower (c : Z) : Z := if (65 <=? c) && (c <=? 90) then c + 32 else c.
Definition char_upper (c : Z) : Z := if (97 <=? c) && (c <=? 122) then c - 32 else c.

Definition eq_ignore_ascii_case (a b : str) : bool :=
  bool_decide (to_ascii_lowercase a = to_ascii_lowercase b).

(** [str::to_lowercase] follows the Unicode tables, which are not part of the
    repository: the documented fact the code relies on is its behaviour on
    ASCII text. *)
Class UnicodeTables : Type := {
  to_lowercase : str -> str;
  to_lowercase_ascii : forall s, is_ascii s -> to_lowercase s = to_ascii_lowercase s;
}.

(** [s.split(c)] for an ASCII character [c]: always at least one piece. *)
Fixpoint split_on (c : u8) (s : str) : list str :=
  match s with
  | [] => [[]]
  | b :: s' =>
    if decide (b = c) then [] :: split_on c s'
    else match split_on c s' with
         | [] => [[b]]
         | p :: ps => (b :: p) :: ps
         end
  end.

(** [v.join(sep)]. *)
Fixpoint join (sep : str) (l : list str) : str :=
  match l with
  | [] => []
  | [p] => p
  | p :: ps => p ++ sep ++ join sep ps
  end.

(** [s.find(c)] for an ASCII character, and [s.split_once(c)]. *)
Fixpoint find_byte (c : u8) (s : str) : option nat :=
  match s with
  | [] => None
  | b :: s' => if decide (b = c) then Some O else S <$> find_byte c s'
  end.

Definition split_once (c : u8) (s : str) : option (str * str) :=
  match find_byte c s with
  | Some i => Some (take i s, drop (S i) s)
  | None => None
  end.

Definition dot : u8 := Byte.x2e.

(** [s.strip_suffix(t)]. *)
Definition strip_suffix (t s : str) : option str :=
  if (length t <=? length s)%nat && bool_decide (drop (length s - length t) s = t)
  then Some (take (length s - length t) s) else None.

(** [s.trim_end_matches(c)] and [s.trim_start_matches(c)]. *)
Fixpoint trim_start (c : u8) (s : str) : str :=
  match s with
  | [] => []
  | b :: s' => if decide (b = c) then trim_start c s' else s
  end.
Definition trim_end (c : u8) (s : str) : str := rev (trim_start c (rev s)).

(** ** Number parsing and printing *)

Definition dec_digit (b : u8) : option Z :=
  if in_rng 48 57 b then Some (u8z b - 48) else None.

Definition hex_digit (b : u8) : option Z :=
  if in_rng 48 57 b then Some (u8z b - 48)
  else if in_rng 97 102 b then Some (u8z b - 87)
  else if in_rng 65 70 b then Some (u8z b - 55)
  else None.

(** [uN::from_str_radix]: an optional leading [+], at least one digit, and no
    overflow past [max]. *)
Fixpoint parse_digits (digit : u8 -> option Z) (radix max : Z) (acc : Z) (s : str) : option Z :=
  match s with
  | [] => Some acc
  | b :: s' =>
    let! d := digit b in
    let acc' := acc * radix + d in
    if acc' <=? max then parse_digits digit radix max acc' s' else None
  end.

Definition parse_uint (digit : u8 -> option Z) (radix max : Z) (s : str) : option Z :=
  match s with
  | [] => None
  | [b] => if decide (b = Byte.x2b) then None else parse_digits digit radix max 0 s
  | b :: s' => if decide (b = Byte.x2b) then parse_digits digit radix max 0 s'
               else parse_digits digit radix max 0 s
  end.

Definition parse_u8 : str -> option Z := parse_uint dec_digit 10 255.
Definition parse_u32 : str -> option Z := parse_uint dec_digit 10 4294967295.
Definition parse_u64 : str -> option Z := parse_uint dec_digit 10 18446744073709551615.
Definition parse_hex_u8 : str -> option Z := parse_uint hex_digit 16 255.
Definition parse_hex_u32 : str -> option Z := parse_uint hex_digit 16 4294967295.

(** [format!("{n}")] of an unsigned integer: decimal digits, at most [fuel] of
    them; twenty digits print every [u64]. *)
Fixpoint dec_digits (fuel : nat) (n : Z) (acc : str) : str :=
  match fuel with
  | O => acc
  | S f =>
    let acc' := z8 (48 + n mod 10) :: acc in
    if n <? 10 then acc' else dec_digits f (n / 10) acc'
  end.
Definition fmt_u (n : Z) : str := dec_digits 20 n [].

(** A lower-case hexadecimal digit, and [format!("{n:0w$x}")] for
    [n < 16 ^ w]. *)
Definition hex_char (d : Z) : u8 := if d <? 10 then z8 (48 + d) else z8 (87 + d).
Fixpoint fmt_hex (w : nat) (n : Z) : str :=
  match w with
  | O => []
  | S w' => fmt_hex w' (n / 16) ++ [hex_char (n mod 16)]
  end.

(** ** Automation *)

Create HintDb rust.

(** Decide a goal about one byte by running through all 256 of them. *)
Ltac byte_cases b := destruct b; vm_compute; try reflexivity; try congruence; try tauto.

(** Split on every boolean test of a hypothesis or goal. *)
Ltac case_bool :=
  match goal with
  | |- context [if ?b then _ else _] => destruct b eqn:?
  | H : context [if ?b then _ else _] |- _ => destruct b eqn:?
  end.

(** Unfold one [let?]/[let!] step of a hypothesis: name its success, close its
    failure. *)
Ltac step_in H :=
  match type of H with
  | match ?e with Ok _ => _ | Err _ => _ end = Ok _ => destruct e eqn:?; [|discriminate H]
  | match ?e with Some _ => _ | None => _ end = _ => destruct e eqn:?; [|try discriminate H]
  | (let '(_, _) := ?e in _) = _ => destruct e eqn:?
  end.

(** Evaluate the powers of constants in a goal or in every hypothesis. *)
Ltac zpow := repeat match goal with
  | |- context [Z.pow ?a ?b] =>
    let v := eval vm_compute in (Z.pow a b) in
    lazymatch v with Zpos _ => change (Z.pow a b) with v end
  | H : context [Z.pow ?a ?b] |- _ =>
    let v := eval vm_compute in (Z.pow a b) in
    lazymatch v with Zpos _ => change (Z.pow a b) with v in H end
  end.

(** Linear arithmetic with quotients and remainders. *)
Ltac dlia := Z.to_euclidean_division_equations; lia.

(** ** Bytes *)

Lemma u8z_range b : 0 <= u8z b < 256.
Proof. unfold u8z. pose proof (Byte.to_N_bounded b). lia. Qed.

Lemma u8z_z8 z : u8z (z8 z) = z mod 256.
Proof.
  unfold z8, u8z. pose proof (Z.mod_pos_bound z 256 ltac:(lia)).
  destruct (Byte.of_N (Z.to_N (z mod 256))) as [b|] eqn:E.
  - apply Byte.to_of_N in E. rewrite E. lia.
  - apply Byte.of_N_None_iff in E. lia.
Qed.

Lemma u8z_inj a b : u8z a = u8z b -> a = b.
Proof.
  unfold u8z. intros H%N2Z.inj. apply (f_equal Byte.of_N) in H.
  rewrite !Byte.of_to_N in H. congruence.
Qed.

Lemma z8_u8z b : z8 (u8z b) = b.
Proof. apply u8z_inj. rewrite u8z_z8. apply Z.mod_small, u8z_range. Qed.

Lemma u8z_z8_small z : 0 <= z < 256 -> u8z (z8 z) = z.
Proof. intros. rewrite u8z_z8. by apply Z.mod_small. Qed.

Lemma z8_congr a b : a mod 256 = b mod 256 -> z8 a = z8 b.
Proof. intros H. apply u8z_inj. by rewrite !u8z_z8. Qed.

#[global] Instance u8_countable : countable.Countable u8.
Proof.
  apply (countable.inj_countable' Byte.to_N (fun n => default Byte.x00 (Byte.of_N n))).
  intros b. by rewrite Byte.of_to_N.
Defined.

(** A boolean statement on all bytes is decided by evaluation. *)
Definition all_bytes : list u8 := z8 <$> seqZ 0 256.

Lemma elem_of_all_bytes b : b ∈ all_bytes.
Proof.
  unfold all_bytes. rewrite <- (z8_u8z b). apply list_elem_of_fmap_2, elem_of_seqZ.
  pose proof (u8z_range b). lia.
Qed.

Lemma byte_forall (P : u8 -> bool) : forallb P all_bytes = true -> forall b, P b = true.
Proof.
  rewrite forallb_forall. intros H b. apply H, list_elem_of_In, elem_of_all_bytes.
Qed.

Lemma byte_forall2 (P : u8 -> u8 -> bool) :
  forallb (fun a => forallb (P a) all_bytes) all_bytes = true -> forall a b, P a b = true.
Proof. intros H a. apply byte_forall. by apply (byte_forall (fun a => forallb (P a) all_bytes)). Qed.

(** ** Big-endian integers *)

Lemma length_to_be n z : length (to_be n z) = n.
Proof. revert z. induction n; intros; simpl; rewrite ?length_app, ?IHn; simpl; lia. Qed.

Lemma of_be_app xs b : of_be (xs ++ [b]) = of_be xs * 256 + u8z b.
Proof. unfold of_be. by rewrite fold_left_app. Qed.

Lemma of_be_range xs : 0 <= of_be xs < 256 ^ Z.of_nat (length xs).
Proof.
  induction xs as [|b xs IH] using rev_ind; [done|].
  rewrite of_be_app, length_app. simpl.
  pose proof (u8z_range b). rewrite Nat2Z.inj_add, Z.pow_add_r by lia. lia.
Qed.

Lemma of_be_to_be n z : of_be (to_be n z) = z mod 256 ^ Z.of_nat n.
Proof.
  revert z. induction n as [|n IH]; intros z; simpl to_be.
  - by rewrite Z.mod_1_r.
  - rewrite of_be_app, IH, u8z_z8, Nat2Z.inj_succ, Z.pow_succ_r by lia.
    rewrite Z.rem_mul_r by lia. lia.
Qed.

Lemma of_be_to_be_small n z : 0 <= z < 256 ^ Z.of_nat n -> of_be (to_be n z) = z.
Proof. intros. rewrite of_be_to_be. by apply Z.mod_small. Qed.

Lemma land_7 x : Z.land x 7 = x mod 8.
Proof. exact (Z.land_ones x 3 ltac:(done)). Qed.

Lemma to_be_of_be xs : to_be (length xs) (of_be xs) = xs.
Proof.
  induction xs as [|b xs IH] using rev_ind; [done|].
  rewrite length_app, Nat.add_comm. simpl. pose proof (u8z_range b).
  rewrite of_be_app, Z.div_add_l, (Z.div_small (u8z b)), Z.add_0_r, IH by lia.
  f_equal. f_equal. rewrite <- (z8_u8z b) at 2. apply z8_congr.
  rewrite Z.add_comm, Z.mod_add by lia. done.
Qed.

(** ** Slices *)

Lemma slice_mid {A} (pre mid post : list A) :
  slice (pre ++ mid ++ post) (length pre) (length pre + length mid) = Some mid.
Proof.
  unfold slice. rewrite !length_app.
  destruct (_ && _) eqn:E; [|apply andb_false_iff in E; rewrite !Nat.leb_gt in E; lia].
  f_equal. rewrite drop_app_length.
  replace (length pre + length mid - length pre)%nat with (length mid) by lia.
  apply take_app_length.
Qed.

Lemma slice_Some {A} (s : list A) a b x :
  slice s a b = Some x <->
  (a <= b <= length s)%nat /\ x = take (b - a) (drop a s).
Proof.
  unfold slice. destruct (_ && _) eqn:E.
  - apply andb_true_iff in E. rewrite !Nat.leb_le in E. split; [|intros [_ ->]]; intuition congruence.
  - apply andb_false_iff in E. rewrite !Nat.leb_gt in E. split; [discriminate | lia].
Qed.

Lemma slice_length {A} (s : list A) a b x : slice s a b = Some x -> length x = (b - a)%nat.
Proof. rewrite slice_Some. intros [? ->]. rewrite length_take, length_drop. lia. Qed.

Lemma slice_None {A} (s : list A) a b :
  slice s a b = None <-> (b < a)%nat \/ (length s < b)%nat.
Proof.
  unfold slice. destruct (_ && _) eqn:E.
  - apply andb_true_iff in E. rewrite !Nat.leb_le in E. split; [discriminate|lia].
  - apply andb_false_iff in E. rewrite !Nat.leb_gt in E. intuition.
Qed.

Lemma checked_add_Some a b c :
  checked_add a b = Some c <-> c = (a + b)%nat /\ Z.of_nat (a + b) < usize_bound.
Proof. unfold checked_add. rewrite Nat2Z.inj_add. case_bool; split; intros; intuition (congruence || lia). Qed.

(** ** Splitting and joining *)

Lemma split_on_nonnil c s : split_on c s <> [].
Proof. destruct s; simpl; [done|]. case_decide; [done|]. by destruct (split_on c s). Qed.

Lemma join_cons sep p ps : ps <> [] -> join sep (p :: ps) = p ++ sep ++ join sep ps.
Proof. by destruct ps. Qed.

Lemma join_split c s : join [c] (split_on c s) = s.
Proof.
  induction s as [|b s IH]; [done|]. simpl split_on. case_decide; subst.
  - rewrite join_cons by apply split_on_nonnil. by rewrite IH.
  - destruct (split_on c s) as [|p ps] eqn:E; [by apply split_on_nonnil in E|].
    rewrite <- IH. by destruct ps.
Qed.

Lemma split_no_sep c s : c ∉ s -> split_on c s = [s].
Proof.
  induction s as [|b s IH]; intros H; [done|]. simpl.
  rewrite decide_False by set_solver. rewrite IH by set_solver. done.
Qed.

Lemma split_app_sep c p s : c ∉ p -> split_on c (p ++ c :: s) = p :: split_on c s.
Proof.
  induction p as [|b p IH]; intros H; simpl.
  - by rewrite decide_True.
  - rewrite decide_False by set_solver. by rewrite IH by set_solver.
Qed.

Lemma split_join c ps : ps <> [] -> Forall (fun p => c ∉ p) ps -> split_on c (join [c] ps) = ps.
Proof.
  intros Hne Hf. induction Hf as [|p ps Hp Hf IH]; [done|].
  destruct ps as [|q ps]; [by apply split_no_sep|].
  rewrite join_cons by done. cbn [app]. rewrite split_app_sep by done. by rewrite IH.
Qed.

Lemma split_pieces_no_sep c s : Forall (fun p => c ∉ p) (split_on c s).
Proof.
  induction s as [|b s IH]; simpl; [constructor; [set_solver|constructor]|].
  case_decide; [constructor; [set_solver|done]|].
  destruct (split_on c s) as [|p ps]; [repeat constructor; set_solver|].
  apply Forall_cons in IH as [? ?]. constructor; [set_solver|done].
Qed.

(** ** ASCII case *)

Lemma lower8_dot b : lower8 b = dot <-> b = dot.
Proof. split; [|by intros ->]. by byte_cases b. Qed.
Lemma lower8_idem b : lower8 (lower8 b) = lower8 b.
Proof. by byte_cases b. Qed.

Lemma to_ascii_lowercase_idem s :
  to_ascii_lowercase (to_ascii_lowercase s) = to_ascii_lowercase s.
Proof.
  unfold to_ascii_lowercase. rewrite <- list_fmap_compose.
  apply list_fmap_ext. intros; apply lower8_idem.
Qed.

Lemma length_lower s : length (to_ascii_lowercase s) = length s.
Proof. apply length_fmap. Qed.

Lemma lower_app a b : to_ascii_lowercase (a ++ b) = to_ascii_lowercase a ++ to_ascii_lowercase b.
Proof. apply fmap_app. Qed.

Lemma eq_ignore_ascii_case_true a b :
  eq_ignore_ascii_case a b = true <-> to_ascii_lowercase a = to_ascii_lowercase b.
Proof. apply bool_decide_eq_true. Qed.

#[global] Instance is_ascii_dec s : Decision (is_ascii s) := _.

Lemma lower8_ascii b : u8z b < 128 -> u8z (lower8 b) < 128.
Proof. byte_cases b. Qed.

Lemma is_ascii_lower s : is_ascii s -> is_ascii (to_ascii_lowercase s).
Proof. unfold is_ascii, to_ascii_lowercase. rewrite Forall_fmap. intros H. eapply Forall_impl; [exact H|]. intros b. apply lower8_ascii. Qed.

Lemma chars_ascii s : is_ascii s -> chars s = u8z <$> s.
Proof.
  induction 1 as [|b s Hb Hs IH]; simpl; [done|].
  destruct (Z.ltb_spec (u8z b) 128); [by rewrite IH | lia].
Qed.

Lemma utf8_valid_ascii s : is_ascii s -> utf8_valid s = true.
Proof.
  induction 1 as [|b s Hb Hs IH]; simpl; [done|].
  destruct (Z.ltb_spec (u8z b) 128); [done | lia].
Qed.

Lemma char_lower_u8z b : u8z b < 128 -> char_lower (u8z b) = u8z (lower8 b).
Proof. byte_cases b. Qed.

Lemma utf8_valid_app a b : utf8_valid a = true -> utf8_valid b = true -> utf8_valid (a ++ b) = true.
Proof.
  intros Ha Hb. remember (length a) as n eqn:Hn. revert a Hn Ha.
  induction n as [n IH] using lt_wf_ind. intros a -> Ha.
  destruct a as [|b0 a]; [done|]. simpl in Ha |- *.
  destruct (u8z b0 <? 128); [eapply IH; eauto; simpl; lia|].
  destruct a as [|b1 a]; [done|]. simpl.
  destruct (in_rng 194 223 b0).
  { apply andb_true_iff in Ha as [-> Ha]. eapply IH; eauto; simpl; lia. }
  destruct a as [|b2 a]; [done|]. simpl.
  destruct (in_rng 224 239 b0).
  { apply andb_true_iff in Ha as [-> Ha]. eapply IH; eauto; simpl; lia. }
  destruct a as [|b3 a]; [done|]. simpl.
  apply andb_true_iff in Ha as [-> Ha]. eapply IH; eauto; simpl; lia.
Qed.

Lemma utf8_valid_join c ls :
  u8z c < 128 -> Forall (fun l => utf8_valid l = true) ls -> utf8_valid (join [c] ls) = true.
Proof.
  intros Hc. induction 1 as [|l ls Hl Hls IH]; [done|].
  destruct ls as [|l' ls]; [done|]. rewrite join_cons by done.
  apply utf8_valid_app; [done|]. apply utf8_valid_app; [|done].
  apply utf8_valid_ascii. by repeat constructor.
Qed.

(** Every position of an ASCII string is a character boundary. *)
Lemma str_from_ascii s i : is_ascii s -> (i <= length s)%nat -> str_from s i = Val (drop i s).
Proof.
  intros Hs Hi. unfold str_from, is_char_boundary. destruct (s !! i) as [b|] eqn:E.
  - assert (is_cont b = false) as ->; [|by rewrite !orb_true_r].
    pose proof (proj1 (Forall_lookup _ _) Hs i b E) as Hb. cbn in Hb. unfold is_cont.
    apply andb_false_iff. left. by apply Z.leb_gt.
  - apply lookup_ge_None in E. replace i with (length s) by lia. by rewrite Nat.eqb_refl, orb_true_r.
Qed.

(** ** Filters *)

Lemma filter_bool {A} (P : A -> bool) (l : list A) :
  List.filter P l = filter (fun x => P x = true) l.
Proof.
  induction l as [|x l IH]; [done|]. rewrite filter_cons. simpl.
  rewrite IH. destruct (P x); [by rewrite decide_True by done|by rewrite decide_False by done].
Qed.

Lemma filter_all {A} (P : A -> Prop) `{!forall x, Decision (P x)} (l : list A) : Forall P l -> filter P l = l.
Proof. induction 1; [done|]. rewrite filter_cons_True by done. by f_equal. Qed.

Lemma filter_iff_in {A} (P Q : A -> Prop) `{!forall x, Decision (P x), !forall x, Decision (Q x)} (l : list A) :
  (forall x, x ∈ l -> P x <-> Q x) -> filter P l = filter Q l.
Proof.
  intros Hpq. induction l as [|x l IH]; [done|]. rewrite !filter_cons, IH by set_solver.
  pose proof (Hpq x ltac:(set_solver)). by do 2 case_decide; try tauto.
Qed.

Lemma filter_length_split {A} (P : A -> bool) (l : list A) :
  (length (List.filter P l) + length (List.filter (fun x => negb (P x)) l))%nat = length l.
Proof. induction l as [|x l IH]; [done|]. cbn. destruct (P x); cbn; lia. Qed.

(** The ASCII lower-casing is a [to_lowercase] of the documented kind. *)
#[global] Instance ascii_tables : UnicodeTables := {
  to_lowercase := to_ascii_lowercase;
  to_lowercase_ascii := fun s _ => eq_refl;
}.
#[global] Remove Hints ascii_tables : typeclass_instances.
