(* ===== verification/ByteCursor.v ===== *)
(** * The checked byte cursor of src/src/byte_cursor.rs

    [ByteCursor] is the record of the source; a read returns the value and the
    advanced cursor, or [None]. A failed read of the source leaves its
    [&mut self] untouched, which here is the absence of a new cursor. *)

From Stdlib Require Import ZArith Lia.
From stdpp Require Import base numbers list option.
From S2P Require Import Prelude.

#[local] Open Scope Z_scope.

Record ByteCursor : Type := mkCursor { buf : list u8; pos : nat }.

Module Cursor.

Definition new (b : list u8) : ByteCursor := mkCursor b 0.
Definition at_ (b : list u8) (p : nat) : ByteCursor := mkCursor b p.
Definition position (c : ByteCursor) : nat := pos c.
Definition set_position (c : ByteCursor) (p : nat) : ByteCursor := mkCursor (buf c) p.
Definition remaining (c : ByteCursor) : nat := (length (buf c) - pos c)%nat.
Definition is_empty (c : ByteCursor) : bool := (length (buf c) <=? pos c)%nat.

Definition read_u8 (c : ByteCursor) : option (u8 * ByteCursor) :=
  let! b := buf c !! pos c in
  Some (b, mkCursor (buf c) (S (pos c))).

Definition peek_u8 (c : ByteCursor) : option u8 := buf c !! pos c.

Definition read_slice (c : ByteCursor) (n : nat) : option (list u8 * ByteCursor) :=
  let! e := checked_add (pos c) n in
  let! s := slice (buf c) (pos c) e in
  Some (s, mkCursor (buf c) e).

Definition read_u16_be (c : ByteCursor) : option (Z * ByteCursor) :=
  let! (bytes, c') := read_slice c 2 in Some (of_be bytes, c').

Definition read_u32_be (c : ByteCursor) : option (Z * ByteCursor) :=
  let! (bytes, c') := read_slice c 4 in Some (of_be bytes, c').

Definition advance (c : ByteCursor) (n : nat) : option ByteCursor :=
  let! e := checked_add (pos c) n in
  if (length (buf c) <? e)%nat then None else Some (mkCursor (buf c) e).

(** [&self.buf[self.pos..]] panics when the position is past the end. *)
Definition find (c : ByteCursor) (b : u8) : outcome (option nat) :=
  if (pos c <=? length (buf c))%nat then Val (find_byte b (drop (pos c) (buf c))) else Panic.

End Cursor.

(** ** Lemmas for the parsers *)

(** Buffers are shorter than the address space. *)
Definition fits (b : list u8) : Prop := Z.of_nat (length b) < usize_bound.

Lemma read_slice_inv c n s c' :
  Cursor.read_slice c n = Some (s, c') ->
  s = take n (drop (pos c) (buf c)) /\ length s = n /\
  c' = mkCursor (buf c) (pos c + n) /\ (pos c + n <= length (buf c))%nat.
Proof.
  unfold Cursor.read_slice. intros H. step_in H. step_in H. simplify_eq.
  apply checked_add_Some in Heqo as [-> ?]. apply slice_Some in Heqo0 as Hs.
  apply slice_length in Heqo0. destruct Hs as [? ->].
  rewrite Heqo0. replace (pos c + n - pos c)%nat with n by lia. repeat split; lia.
Qed.

Lemma read_slice_ok c n :
  fits (buf c) -> (pos c + n <= length (buf c))%nat ->
  Cursor.read_slice c n =
    Some (take n (drop (pos c) (buf c)), mkCursor (buf c) (pos c + n)).
Proof.
  intros Hf Hn. unfold fits in Hf. unfold Cursor.read_slice.
  rewrite (proj2 (checked_add_Some _ _ (pos c + n)%nat)) by (split; [done|lia]).
  rewrite (proj2 (slice_Some _ _ _ (take n (drop (pos c) (buf c))))); [done|].
  split; [lia|]. f_equal; lia.
Qed.

Lemma read_slice_fail c n :
  (length (buf c) < pos c + n)%nat -> Cursor.read_slice c n = None.
Proof.
  intros Hn. unfold Cursor.read_slice. destruct (checked_add _ _) as [e|] eqn:E; [|done].
  apply checked_add_Some in E as [-> _].
  by rewrite (proj2 (slice_None _ _ _)) by lia.
Qed.

(** Reading a block that stands in the buffer. *)
Lemma read_slice_mid pre mid post :
  fits (pre ++ mid ++ post) ->
  Cursor.read_slice (mkCursor (pre ++ mid ++ post) (length pre)) (length mid) =
    Some (mid, mkCursor (pre ++ mid ++ post) (length pre + length mid)).
Proof.
  intros Hf. rewrite read_slice_ok by (simpl; try done; rewrite !length_app; lia).
  simpl. by rewrite drop_app_length, take_app_length.
Qed.

Lemma read_u8_mid pre b post :
  Cursor.read_u8 (mkCursor (pre ++ b :: post) (length pre)) =
    Some (b, mkCursor (pre ++ b :: post) (S (length pre))).
Proof. unfold Cursor.read_u8. simpl. by rewrite list_lookup_middle. Qed.

Lemma read_u8_inv c b c' :
  Cursor.read_u8 c = Some (b, c') ->
  buf c !! pos c = Some b /\ c' = mkCursor (buf c) (S (pos c)) /\ (pos c < length (buf c))%nat.
Proof.
  unfold Cursor.read_u8. intros H. step_in H. simplify_eq.
  eauto using lookup_lt_Some.
Qed.

Lemma read_be_mid n pre z post :
  0 <= z < 256 ^ Z.of_nat n -> fits (pre ++ to_be n z ++ post) ->
  Cursor.read_slice (mkCursor (pre ++ to_be n z ++ post) (length pre)) n =
    Some (to_be n z, mkCursor (pre ++ to_be n z ++ post) (length pre + n))
  /\ of_be (to_be n z) = z.
Proof.
  intros Hz Hf. pose proof (read_slice_mid pre (to_be n z) post Hf) as H.
  rewrite length_to_be in H. split; [done|]. by apply of_be_to_be_small.
Qed.

Lemma read_u16_mid pre z post :
  0 <= z < 65536 -> fits (pre ++ to_be 2 z ++ post) ->
  Cursor.read_u16_be (mkCursor (pre ++ to_be 2 z ++ post) (length pre)) =
    Some (z, mkCursor (pre ++ to_be 2 z ++ post) (length pre + 2)).
Proof.
  intros Hz Hf. destruct (read_be_mid 2 pre z post) as [H E]; [exact Hz|done|].
  unfold Cursor.read_u16_be. by rewrite H, E.
Qed.

Lemma read_u32_mid pre z post :
  0 <= z < 4294967296 -> fits (pre ++ to_be 4 z ++ post) ->
  Cursor.read_u32_be (mkCursor (pre ++ to_be 4 z ++ post) (length pre)) =
    Some (z, mkCursor (pre ++ to_be 4 z ++ post) (length pre + 4)).
Proof.
  intros Hz Hf. destruct (read_be_mid 4 pre z post) as [H E]; [exact Hz|done|].
  unfold Cursor.read_u32_be. by rewrite H, E.
Qed.

(** ** Properties *)

(** [read_slice] succeeds exactly when the [n] bytes are there; it then
    returns those bytes of the buffer and moves the position by [n], never past
    the end, and [advance] accepts and refuses the same requests. *)
Theorem read_slice_spec c n :
  fits (buf c) ->
  (forall s c', Cursor.read_slice c n = Some (s, c') <->
     (pos c + n <= length (buf c))%nat /\ s = take n (drop (pos c) (buf c)) /\
     c' = mkCursor (buf c) (pos c + n)) /\
  (Cursor.advance c n = snd <$> Cursor.read_slice c n).
Proof.
  intros Hf. split.
  - intros s c'. split.
    + intros H%read_slice_inv. naive_solver.
    + intros (? & -> & ->). by apply read_slice_ok.
  - unfold Cursor.advance. destruct (decide (pos c + n <= length (buf c))%nat).
    + rewrite read_slice_ok by done. unfold fits in Hf.
      rewrite (proj2 (checked_add_Some _ _ (pos c + n)%nat)) by (split; [done|lia]).
      by rewrite (proj2 (Nat.ltb_ge _ _)) by done.
    + rewrite read_slice_fail by lia.
      destruct (checked_add _ _) as [e|] eqn:E; [|done].
      apply checked_add_Some in E as [-> _].
      by rewrite (proj2 (Nat.ltb_lt _ _)) by lia.
Qed.

Lemma read_slice_spec_witness :
  fits [Byte.x01; Byte.x02; Byte.x03] /\
  Cursor.advance (mkCursor [Byte.x01; Byte.x02; Byte.x03] 1) 2 =
    snd <$> Cursor.read_slice (mkCursor [Byte.x01; Byte.x02; Byte.x03] 1) 2.
Proof.
  split; [by vm_compute|].
  apply (read_slice_spec (mkCursor [Byte.x01; Byte.x02; Byte.x03] 1) 2). by vm_compute.
Defined.
