(* ===== verification/DnsProtocol.v ===== *)
(** * DNS protocol data of src/src/dns_protocol/mod.rs

    The wire enumerations with their conversions, and the twelve-byte message
    header with its flag accessors. *)

From Stdlib Require Import ZArith Lia.
From stdpp Require Import base numbers list option.
From S2P Require Import Prelude.

#[local] Open Scope Z_scope.

(** ** Wire enumerations *)

Inductive InvalidWireValue : Type := mkInvalidWireValue (v : Z).

Inductive Rcode : Type := NoError | FormErr | ServFail | NxDomain | NotImpl | Refused.

Definition Rcode_try_from (v : Z) : result Rcode InvalidWireValue :=
  match v with
  | 0 => Ok NoError | 1 => Ok FormErr | 2 => Ok ServFail
  | 3 => Ok NxDomain | 4 => Ok NotImpl | 5 => Ok Refused
  | _ => Err (mkInvalidWireValue v)
  end.

(** [r as u8]. *)
Definition Rcode_as (r : Rcode) : Z :=
  match r with
  | NoError => 0 | FormErr => 1 | ServFail => 2 | NxDomain => 3 | NotImpl => 4 | Refused => 5
  end.

Inductive Opcode : Type := Query | IQuery | Status | Notify | Update.

Definition Opcode_try_from (v : Z) : result Opcode InvalidWireValue :=
  match v with
  | 0 => Ok Query | 1 => Ok IQuery | 2 => Ok Status | 4 => Ok Notify | 5 => Ok Update
  | _ => Err (mkInvalidWireValue v)
  end.

Definition Opcode_as (o : Opcode) : Z :=
  match o with Query => 0 | IQuery => 1 | Status => 2 | Notify => 4 | Update => 5 end.

Inductive Class_ : Type := C_IN | C_CHAOS | C_HESIOD | C_ANY.

Definition Class_try_from (v : Z) : result Class_ InvalidWireValue :=
  match v with
  | 1 => Ok C_IN | 3 => Ok C_CHAOS | 4 => Ok C_HESIOD | 255 => Ok C_ANY
  | _ => Err (mkInvalidWireValue v)
  end.

Definition Class_as (c : Class_) : Z :=
  match c with C_IN => 1 | C_CHAOS => 3 | C_HESIOD => 4 | C_ANY => 255 end.

Inductive RrType : Type :=
| T_A | T_NS | T_MD | T_MF | T_CNAME | T_SOA | T_MB | T_MG | T_MR
| T_PTR | T_MINFO | T_MX | T_TXT | T_RP | T_AFSDB | T_RT | T_SIG | T_PX
| T_AAAA | T_NXT | T_SRV | T_NAPTR | T_KX | T_DNAME | T_OPT | T_DS | T_RRSIG
| T_NSEC | T_DNSKEY | T_NSEC3 | T_TKEY | T_TSIG | T_AXFR | T_MAILB | T_ANY | T_CAA.

Definition RrType_try_from (v : Z) : result RrType InvalidWireValue :=
  match v with
  | 1 => Ok T_A | 2 => Ok T_NS | 3 => Ok T_MD | 4 => Ok T_MF
  | 5 => Ok T_CNAME | 6 => Ok T_SOA | 7 => Ok T_MB | 8 => Ok T_MG
  | 9 => Ok T_MR | 12 => Ok T_PTR | 14 => Ok T_MINFO | 15 => Ok T_MX
  | 16 => Ok T_TXT | 17 => Ok T_RP | 18 => Ok T_AFSDB | 21 => Ok T_RT
  | 24 => Ok T_SIG | 26 => Ok T_PX | 28 => Ok T_AAAA | 30 => Ok T_NXT
  | 33 => Ok T_SRV | 35 => Ok T_NAPTR | 36 => Ok T_KX | 39 => Ok T_DNAME
  | 41 => Ok T_OPT | 43 => Ok T_DS | 46 => Ok T_RRSIG | 47 => Ok T_NSEC
  | 48 => Ok T_DNSKEY | 50 => Ok T_NSEC3 | 249 => Ok T_TKEY | 250 => Ok T_TSIG
  | 252 => Ok T_AXFR | 253 => Ok T_MAILB | 255 => Ok T_ANY | 257 => Ok T_CAA
  | _ => Err (mkInvalidWireValue v)
  end.

(** [t as u16]. *)
Definition RrType_as (t : RrType) : Z :=
  match t with
  | T_A => 1 | T_NS => 2 | T_MD => 3 | T_MF => 4 | T_CNAME => 5
  | T_SOA => 6 | T_MB => 7 | T_MG => 8 | T_MR => 9 | T_PTR => 12
  | T_MINFO => 14 | T_MX => 15 | T_TXT => 16 | T_RP => 17 | T_AFSDB => 18
  | T_RT => 21 | T_SIG => 24 | T_PX => 26 | T_AAAA => 28 | T_NXT => 30
  | T_SRV => 33 | T_NAPTR => 35 | T_KX => 36 | T_DNAME => 39 | T_OPT => 41
  | T_DS => 43 | T_RRSIG => 46 | T_NSEC => 47 | T_DNSKEY => 48 | T_NSEC3 => 50
  | T_TKEY => 249 | T_TSIG => 250 | T_AXFR => 252 | T_MAILB => 253 | T_ANY => 255
  | T_CAA => 257
  end.

Definition RrType_from_u16 (v : Z) : option RrType := ok (RrType_try_from v).

#[global] Instance RrType_eq_dec : EqDecision RrType.
Proof. solve_decision. Defined.

(** ** The message header *)

(** The size of a reply without EDNS0. *)
Definition PACKETSZ : nat := 512.

Definition HB3_QR : Z := 0x80.
Definition HB3_OPCODE : Z := 0x78.
Definition HB3_AA : Z := 0x04.
Definition HB3_TC : Z := 0x02.
Definition HB3_RD : Z := 0x01.
Definition HB4_RA : Z := 0x80.
Definition HB4_AD : Z := 0x20.
Definition HB4_CD : Z := 0x10.
Definition HB4_RCODE : Z := 0x0f.

Record DnsHeader : Type := mkHeader {
  id : Z; hb3 : u8; hb4 : u8;
  qdcount : Z; ancount : Z; nscount : Z; arcount : Z;
}.

(** [!m] on a [u8]. *)
Definition not8 (m : Z) : Z := 255 - m.

Definition with_hb3 (h : DnsHeader) (b : u8) : DnsHeader :=
  mkHeader (id h) b (hb4 h) (qdcount h) (ancount h) (nscount h) (arcount h).
Definition with_hb4 (h : DnsHeader) (b : u8) : DnsHeader :=
  mkHeader (id h) (hb3 h) b (qdcount h) (ancount h) (nscount h) (arcount h).

Definition opcode (h : DnsHeader) : Z := Z.shiftr (Z.land (u8z (hb3 h)) HB3_OPCODE) 3.
Definition set_opcode (h : DnsHeader) (code : u8) : DnsHeader :=
  with_hb3 h (z8 (Z.lor (Z.land (u8z (hb3 h)) (not8 HB3_OPCODE)) (u8z (z8 (Z.shiftl (u8z code) 3))))).
Definition rcode (h : DnsHeader) : Z := Z.land (u8z (hb4 h)) HB4_RCODE.
Definition set_rcode (h : DnsHeader) (code : u8) : DnsHeader :=
  with_hb4 h (z8 (Z.lor (Z.land (u8z (hb4 h)) (not8 HB4_RCODE)) (u8z code))).

Definition is_query (h : DnsHeader) : bool := Z.land (u8z (hb3 h)) HB3_QR =? 0.
Definition is_response (h : DnsHeader) : bool := negb (Z.land (u8z (hb3 h)) HB3_QR =? 0).
Definition is_aa (h : DnsHeader) : bool := negb (Z.land (u8z (hb3 h)) HB3_AA =? 0).
Definition is_tc (h : DnsHeader) : bool := negb (Z.land (u8z (hb3 h)) HB3_TC =? 0).
Definition is_rd (h : DnsHeader) : bool := negb (Z.land (u8z (hb3 h)) HB3_RD =? 0).
Definition is_ra (h : DnsHeader) : bool := negb (Z.land (u8z (hb4 h)) HB4_RA =? 0).
Definition is_ad (h : DnsHeader) : bool := negb (Z.land (u8z (hb4 h)) HB4_AD =? 0).
Definition is_cd (h : DnsHeader) : bool := negb (Z.land (u8z (hb4 h)) HB4_CD =? 0).

Definition from_bytes (b : list u8) : option DnsHeader :=
  match b with
  | b0 :: b1 :: b2 :: b3 :: b4 :: b5 :: b6 :: b7 :: b8 :: b9 :: b10 :: b11 :: _ =>
    Some (mkHeader (of_be [b0; b1]) b2 b3 (of_be [b4; b5]) (of_be [b6; b7])
            (of_be [b8; b9]) (of_be [b10; b11]))
  | _ => None
  end.

Definition to_bytes (h : DnsHeader) : list u8 :=
  to_be 2 (id h) ++ [hb3 h; hb4 h] ++ to_be 2 (qdcount h) ++ to_be 2 (ancount h)
    ++ to_be 2 (nscount h) ++ to_be 2 (arcount h).

(** The fields of a header are [u16]s. *)
Definition u16_ok (z : Z) : Prop := 0 <= z < 65536.
Definition header_ok (h : DnsHeader) : Prop :=
  u16_ok (id h) /\ u16_ok (qdcount h) /\ u16_ok (ancount h) /\
  u16_ok (nscount h) /\ u16_ok (arcount h).

(** ** Lemmas *)

Lemma length_to_bytes h : length (to_bytes h) = 12%nat.
Proof. unfold to_bytes. rewrite !length_app, !length_to_be. done. Qed.

Lemma from_bytes_None b : from_bytes b = None <-> (length b < 12)%nat.
Proof. do 12 (destruct b as [|? b]; [simpl; split; intros; (done || lia)|]). simpl. split; [done|lia]. Qed.

Lemma to_be_2 z : to_be 2 z = [z8 (z / 256); z8 z].
Proof. done. Qed.

Lemma of_be_2_small z : u16_ok z -> of_be [z8 (z / 256); z8 z] = z.
Proof. intros. rewrite <- to_be_2. by apply of_be_to_be_small. Qed.

Lemma from_to_bytes h rest : header_ok h -> from_bytes (to_bytes h ++ rest) = Some h.
Proof.
  intros (? & ? & ? & ? & ?). unfold to_bytes. rewrite !to_be_2. simpl.
  rewrite !of_be_2_small by done. by destruct h.
Qed.

Lemma from_bytes_ok b h : from_bytes b = Some h -> header_ok h.
Proof.
  do 12 (destruct b as [|? b]; [done|]). simpl. intros [= <-]. unfold header_ok, u16_ok.
  simpl. pose proof (fun x y => of_be_range [x; y]) as R. simpl in R. repeat split; apply R.
Qed.

Lemma to_from_bytes b h : from_bytes b = Some h -> to_bytes h = take 12 b.
Proof.
  do 12 (destruct b as [|? b]; [done|]). simpl. intros [= <-]. unfold to_bytes. cbn [id hb3 hb4 qdcount ancount nscount arcount].
  pose proof (fun x y => to_be_of_be [x; y]) as R. cbn [length] in R. rewrite !R. done.
Qed.

(** The statement of the field updates, as a test on two bytes. *)
Definition code_frame_b (h c : u8) : bool :=
  let so := u8z (z8 (Z.lor (Z.land (u8z h) (not8 HB3_OPCODE)) (u8z (z8 (Z.shiftl (u8z c) 3))))) in
  let sr := u8z (z8 (Z.lor (Z.land (u8z h) (not8 HB4_RCODE)) (u8z c))) in
  implb (u8z c <? 16)
    ((Z.shiftr (Z.land so HB3_OPCODE) 3 =? u8z c)
     && (Z.land so (not8 HB3_OPCODE) =? Z.land (u8z h) (not8 HB3_OPCODE))
     && (Z.land sr HB4_RCODE =? u8z c)
     && (Z.land sr (not8 HB4_RCODE) =? Z.land (u8z h) (not8 HB4_RCODE))).

(** ** Properties *)

(** The RR type enumeration and its wire numbers correspond one to one, and
    the same holds for response codes, opcodes and classes. *)
Theorem wire_enums_roundtrip v :
  (forall t, RrType_from_u16 v = Some t <-> RrType_as t = v) /\
  (forall r, Rcode_try_from v = Ok r <-> Rcode_as r = v) /\
  (forall o, Opcode_try_from v = Ok o <-> Opcode_as o = v) /\
  (forall c, Class_try_from v = Ok c <-> Class_as c = v).
Proof.
  unfold RrType_from_u16, RrType_try_from, Rcode_try_from, Opcode_try_from, Class_try_from, ok.
  split; [|split; [|split]]; (intros x; split; [intros H | intros <-; by destruct x]).
  all: repeat case_match; simplify_eq; done.
Qed.

(** Header serialisation round trips in both directions: parsing what
    [to_bytes] wrote gives the header back whatever follows it, parsing fails
    exactly on fewer than twelve bytes, and re-serialising a parsed header
    gives the twelve bytes it was read from. *)
Theorem header_roundtrip h b rest :
  header_ok h ->
  from_bytes (to_bytes h ++ rest) = Some h /\
  (from_bytes b = None <-> (length b < 12)%nat) /\
  (forall h', from_bytes b = Some h' -> header_ok h' /\ to_bytes h' = take 12 b).
Proof.
  intros Hh. split; [by apply from_to_bytes|]. split; [apply from_bytes_None|].
  intros h' H. split; [by eapply from_bytes_ok | by apply to_from_bytes].
Qed.

Lemma header_roundtrip_witness :
  exists h, header_ok h /\ from_bytes (to_bytes h ++ [Byte.x07]) = Some h.
Proof.
  exists (mkHeader 4660 Byte.x81 Byte.x80 1 2 0 65535). split; [vm_compute; intuition discriminate|].
  apply (header_roundtrip (mkHeader 4660 Byte.x81 Byte.x80 1 2 0 65535) [] [Byte.x07]).
  vm_compute. intuition discriminate.
Defined.

(** Storing a four-bit opcode or response code reads back as that code and
    leaves every other header bit alone. *)
Theorem set_code_frame h code :
  u8z code < 16 ->
  opcode (set_opcode h code) = u8z code /\
  Z.land (u8z (hb3 (set_opcode h code))) (not8 HB3_OPCODE) = Z.land (u8z (hb3 h)) (not8 HB3_OPCODE) /\
  rcode (set_rcode h code) = u8z code /\
  Z.land (u8z (hb4 (set_rcode h code))) (not8 HB4_RCODE) = Z.land (u8z (hb4 h)) (not8 HB4_RCODE).
Proof.
  intros Hc. destruct h as [i h3 h4 q a n r]. unfold opcode, rcode, set_opcode, set_rcode. simpl.
  pose proof (byte_forall2 (fun h c => code_frame_b h c) ltac:(by vm_compute)) as F.
  pose proof (F h3 code) as F3. pose proof (F h4 code) as F4. unfold code_frame_b in F3, F4.
  rewrite (proj2 (Z.ltb_lt _ _) Hc) in F3, F4. simpl in F3, F4.
  repeat rewrite andb_true_iff in F3, F4. rewrite !Z.eqb_eq in F3, F4. tauto.
Qed.

Lemma set_code_frame_witness :
  u8z Byte.x05 < 16 /\
  rcode (set_rcode (mkHeader 1 Byte.x81 Byte.x83 1 0 0 0) Byte.x05) = 5.
Proof.
  split; [by vm_compute|].
  apply (set_code_frame (mkHeader 1 Byte.x81 Byte.x83 1 0 0 0) Byte.x05). by vm_compute.
Defined.
