(* ===== verification/Rfc1035.v ===== *)
(** * The DNS message codec of src/src/rfc1035.rs

    Names, questions, resource records and whole packets, decoded from and
    encoded to the wire. A function of the source that moves [*offset] returns
    the new offset with its result; the offset only moves on success. *)

From Stdlib Require Import ZArith Lia String.
From stdpp Require Import base numbers list option strings.
From S2P Require Import Prelude ByteCursor DnsProtocol.

#[local] Open Scope Z_scope.

Inductive DnsError : Type :=
| PacketTooShort
| InvalidName (msg : str)
| CompressionLoop
| NameTooLong
| UnexpectedEof.

(** ** Names *)

(** The locals of the loop in [extract_name]. *)
Record name_st : Type := mkNameSt {
  ns_c : ByteCursor;
  ns_labels : list str;
  ns_end : option nat;
  ns_hops : nat;
  ns_wire : nat;
}.

(** What one iteration of the loop does: return, fail, or go round again. *)
Inductive name_step : Type :=
| NDone (name : str) (offset : nat)
| NFail (e : DnsError)
| NNext (st : name_st).

(** The reserved label types, [(b & 0xC0)] neither [0x00] nor [0xC0]. *)
Definition unknown_label (b : u8) : DnsError :=
  InvalidName (bs "unknown label type 0x" ++ fmt_hex 2 (u8z b)).

Definition label_step (st : name_st) (c : ByteCursor) (label_len : nat) : name_step :=
  match Cursor.read_slice c label_len with
  | None => NFail UnexpectedEof
  | Some (label_bytes, c') =>
    let wire_len := (ns_wire st + (label_len + 1))%nat in
    if (255 <? wire_len)%nat then NFail NameTooLong
    else if utf8_valid label_bytes then
      NNext (mkNameSt c' (ns_labels st ++ [label_bytes]) (ns_end st) (ns_hops st) wire_len)
    else NFail (InvalidName (bs "non-UTF8 label bytes"))
  end.

Definition pointer_step (st : name_st) (c : ByteCursor) (b : u8) : name_step :=
  match Cursor.read_u8 c with
  | None => NFail PacketTooShort
  | Some (lo, c') =>
    let end_offset := match ns_end st with None => Some (Cursor.position c') | e => e end in
    let hops := S (ns_hops st) in
    if (255 <? hops)%nat then NFail CompressionLoop
    else
      let ptr := Z.to_nat (Z.lor (Z.shiftl (Z.land (u8z b) 0x3F) 8) (u8z lo)) in
      if (length (buf c') <=? ptr)%nat then
        NFail (InvalidName (bs "compression pointer out of bounds"))
      else
        NNext (mkNameSt (Cursor.set_position c' ptr) (ns_labels st) end_offset hops (ns_wire st))
  end.

Definition extract_step (st : name_st) : name_step :=
  match Cursor.read_u8 (ns_c st) with
  | None => NFail UnexpectedEof
  | Some (b, c) =>
    if u8z b =? 0 then
      NDone (join [dot] (ns_labels st)) (default (Cursor.position c) (ns_end st))
    else if Z.land (u8z b) 0xC0 =? 0xC0 then pointer_step st c b
    else if Z.land (u8z b) 0xC0 =? 0x00 then label_step st c (Z.to_nat (u8z b))
    else NFail (unknown_label b)
  end.

Fixpoint extract_loop (fuel : nat) (st : name_st) : option (result (str * nat) DnsError) :=
  match fuel with
  | O => None
  | S f =>
    match extract_step st with
    | NDone n o => Some (Ok (n, o))
    | NFail e => Some (Err e)
    | NNext st' => extract_loop f st'
    end
  end.

(** Each iteration that continues follows a pointer, of which at most 255 are
    allowed, or takes a label, which adds at least 2 to a wire length capped at
    255: 512 iterations are always enough (theorem [extract_name_total]). *)
Definition NAME_FUEL : nat := 512.

Definition name_init (pkt : list u8) (offset : nat) : name_st :=
  mkNameSt (Cursor.at_ pkt offset) [] None 0 1.

Definition extract_name (pkt : list u8) (offset : nat) : result (str * nat) DnsError :=
  match extract_loop NAME_FUEL (name_init pkt offset) with
  | Some r => r
  | None => Err CompressionLoop
  end.

Definition put_u8 (b : list u8) (z : Z) : list u8 := b ++ [z8 z].
Definition put_slice (b s : list u8) : list u8 := b ++ s.
Definition put_u16 (b : list u8) (z : Z) : list u8 := b ++ to_be 2 z.
Definition put_u32 (b : list u8) (z : Z) : list u8 := b ++ to_be 4 z.

Definition write_label (b : list u8) (label : str) : list u8 :=
  put_slice (put_u8 b (Z.of_nat (length label))) label.

Definition write_name (b : list u8) (name : str) : list u8 :=
  let name := if decide (name = [dot]) then [] else name in
  if decide (name = []) then put_u8 b 0
  else put_u8 (fold_left write_label (split_on dot name) b) 0.

(** [skip_name]: every iteration that continues consumes a byte of the
    packet, so that [length pkt + 1] iterations are enough. *)
Fixpoint skip_loop (fuel : nat) (c : ByteCursor) : option (result nat DnsError) :=
  match fuel with
  | O => None
  | S f =>
    match Cursor.read_u8 c with
    | None => Some (Err UnexpectedEof)
    | Some (b, c1) =>
      if u8z b =? 0 then Some (Ok (Cursor.position c1))
      else if Z.land (u8z b) 0xC0 =? 0xC0 then
        match Cursor.read_u8 c1 with
        | None => Some (Err PacketTooShort)
        | Some (_, c2) => Some (Ok (Cursor.position c2))
        end
      else if negb (Z.land (u8z b) 0xC0 =? 0x00) then Some (Err (unknown_label b))
      else match Cursor.advance c1 (Z.to_nat (u8z b)) with
           | None => Some (Err UnexpectedEof)
           | Some c2 => skip_loop f c2
           end
    end
  end.

Definition skip_name (pkt : list u8) (offset : nat) : result nat DnsError :=
  match skip_loop (S (length pkt)) (Cursor.at_ pkt offset) with
  | Some r => r
  | None => Err UnexpectedEof
  end.

(** [hostname_issubdomain]. *)
Definition is_subdomain `{UnicodeTables} (sub domain : str) : bool :=
  let s := to_lowercase sub in
  let d := to_lowercase domain in
  bool_decide (s = d) || negb (bool_decide (strip_suffix ([dot] ++ d) s = None)).

(** ** Questions *)

Record DnsQuestion : Type := mkQuestion { q_name : str; qtype : Z; qclass : Z }.

Definition parse_question (pkt : list u8) (offset : nat) : result (DnsQuestion * nat) DnsError :=
  let? (name, offset) := extract_name pkt offset in
  let c := Cursor.at_ pkt offset in
  let? (t, c) := ok_or (Cursor.read_u16_be c) PacketTooShort in
  let? (k, c) := ok_or (Cursor.read_u16_be c) PacketTooShort in
  Ok (mkQuestion name t k, Cursor.position c).

Definition write_question (b : list u8) (q : DnsQuestion) : list u8 :=
  put_u16 (put_u16 (write_name b (q_name q)) (qtype q)) (qclass q).

(** ** Resource records *)

Record DnsRr : Type := mkRr {
  r_name : str; rtype : Z; class : Z; ttl : Z; rdata : list u8;
}.

(** The rdata kept for a record: names that may be compressed are expanded. *)
Definition decompress_rdata (pkt raw : list u8) (rtype : Z) (rdata_start : nat) : list u8 :=
  if (rtype =? 2) || (rtype =? 5) || (rtype =? 12) then
    match extract_name pkt rdata_start with
    | Ok (n, _) => write_name [] n
    | Err _ => raw
    end
  else if rtype =? 15 then
    if (2 <=? length raw)%nat then
      match extract_name pkt (rdata_start + 2) with
      | Ok (n, _) => write_name (put_u16 [] (of_be (take 2 raw))) n
      | Err _ => raw
      end
    else raw
  else if rtype =? 6 then
    match extract_name pkt rdata_start with
    | Ok (mname, pos) =>
      match extract_name pkt pos with
      | Ok (rname, pos) =>
        match slice pkt pos (pos + 20) with
        | Some fixed => put_slice (write_name (write_name [] mname) rname) fixed
        | None => raw
        end
      | Err _ => raw
      end
    | Err _ => raw
    end
  else raw.

Definition parse_rr (pkt : list u8) (offset : nat) : result (DnsRr * nat) DnsError :=
  let? (name, offset) := extract_name pkt offset in
  let c := Cursor.at_ pkt offset in
  let? (t, c) := ok_or (Cursor.read_u16_be c) PacketTooShort in
  let? (k, c) := ok_or (Cursor.read_u16_be c) PacketTooShort in
  let? (life, c) := ok_or (Cursor.read_u32_be c) PacketTooShort in
  let? (rdlen, c) := ok_or (Cursor.read_u16_be c) PacketTooShort in
  let rdata_start := Cursor.position c in
  let? (raw, c) := ok_or (Cursor.read_slice c (Z.to_nat rdlen)) UnexpectedEof in
  Ok (mkRr name t k life (decompress_rdata pkt raw t rdata_start), Cursor.position c).

Definition write_rr (b : list u8) (rr : DnsRr) : list u8 :=
  let b := write_name b (r_name rr) in
  let b := put_u16 b (rtype rr) in
  let b := put_u16 b (class rr) in
  let b := put_u32 b (ttl rr) in
  let b := put_u16 b (as_u16 (Z.of_nat (length (rdata rr)))) in
  put_slice b (rdata rr).

(** ** Packets *)

Record DnsPacket : Type := mkPacket {
  header : DnsHeader;
  questions : list DnsQuestion;
  answers : list DnsRr;
  authority : list DnsRr;
  additional : list DnsRr;
}.

(** [for _ in 0..count { v.push(item(pkt, &mut offset)?) }]. *)
Fixpoint parse_many {A} (item : nat -> result (A * nat) DnsError) (count : nat) (offset : nat)
    : result (list A * nat) DnsError :=
  match count with
  | O => Ok ([], offset)
  | S n =>
    let? (x, offset) := item offset in
    let? (xs, offset) := parse_many item n offset in
    Ok (x :: xs, offset)
  end.

Definition parse (pkt : list u8) : result DnsPacket DnsError :=
  let? h := ok_or (from_bytes pkt) PacketTooShort in
  let? (qs, offset) := parse_many (parse_question pkt) (Z.to_nat (qdcount h)) 12 in
  let? (an, offset) := parse_many (parse_rr pkt) (Z.to_nat (ancount h)) offset in
  let? (ns, offset) := parse_many (parse_rr pkt) (Z.to_nat (nscount h)) offset in
  let? (ar, offset) := parse_many (parse_rr pkt) (Z.to_nat (arcount h)) offset in
  Ok (mkPacket h qs an ns ar).

Definition with_counts (h : DnsHeader) (qd an ns ar : Z) : DnsHeader :=
  mkHeader (id h) (hb3 h) (hb4 h) qd an ns ar.

Definition write (p : DnsPacket) : list u8 :=
  let count {A} (l : list A) := as_u16 (Z.of_nat (length l)) in
  let hdr := with_counts (header p) (count (questions p)) (count (answers p))
               (count (authority p)) (count (additional p)) in
  let b := put_slice [] (to_bytes hdr) in
  let b := fold_left write_question (questions p) b in
  let b := fold_left write_rr (answers p) b in
  let b := fold_left write_rr (authority p) b in
  fold_left write_rr (additional p) b.

(** [extract_request]: the first question's name and known type. *)
Definition extract_request (pkt : list u8) : option (str * RrType) :=
  let! h := from_bytes pkt in
  if qdcount h =? 0 then None
  else
    let! (q, _) := ok (parse_question pkt 12) in
    let! t := RrType_from_u16 (qtype q) in
    Some (q_name q, t).

(** ** Well-formed names *)

Definition label_ok (l : str) : Prop := (1 <= length l <= 63)%nat /\ utf8_valid l = true.

(** A name the wire format can carry: the root, or dot-separated labels of 1
    to 63 bytes, 253 bytes at most in all (255 with the length octets). *)
Definition name_ok (n : str) : Prop :=
  n = [] \/ (Forall label_ok (split_on dot n) /\ (length n <= 253)%nat).

#[global] Instance label_ok_dec l : Decision (label_ok l).
Proof. unfold label_ok. apply _. Defined.
#[global] Instance name_ok_dec n : Decision (name_ok n).
Proof. unfold name_ok. apply _. Defined.

Lemma name_ok_eval n : bool_decide (name_ok n) = true -> name_ok n.
Proof. by rewrite bool_decide_eq_true. Qed.

(** The wire image of a list of labels, and of a name. *)
Definition enc_labels (ls : list str) : list u8 :=
  concat ((fun l => z8 (Z.of_nat (length l)) :: l) <$> ls).
Definition enc_name (n : str) : list u8 :=
  (if decide (n = []) then [] else enc_labels (split_on dot n)) ++ [Byte.x00].

(** Wire octets used by some labels. *)
Definition labels_wire (ls : list str) : nat := sum_list ((fun l => S (length l)) <$> ls).

(** ** Termination and bounds of [extract_name] *)

Definition name_measure (st : name_st) : nat := ((256 - ns_hops st) + (256 - ns_wire st))%nat.

(** What holds of the loop's locals at every iteration, started at [off]. *)
Record name_inv (pkt : list u8) (off : nat) (st : name_st) : Prop := mkNameInv {
  ni_buf : buf (ns_c st) = pkt;
  ni_hops : (ns_hops st <= 255)%nat;
  ni_wire : (ns_wire st = 1 + labels_wire (ns_labels st))%nat;
  ni_cap : (ns_wire st <= 255)%nat;
  ni_utf8 : Forall (fun l => utf8_valid l = true) (ns_labels st);
  ni_pos : ns_end st = None -> (off <= pos (ns_c st))%nat;
  ni_end : forall e, ns_end st = Some e -> (off < e <= length pkt)%nat;
}.

Lemma labels_wire_app a b : labels_wire (a ++ b) = (labels_wire a + labels_wire b)%nat.
Proof. unfold labels_wire. by rewrite fmap_app, sum_list_with_app. Qed.

Lemma length_join_labels ls : (length (join [dot] ls) = pred (labels_wire ls))%nat.
Proof.
  induction ls as [|l ls IH]; [done|]. destruct ls as [|l' ls]; [unfold labels_wire; simpl; lia|].
  rewrite join_cons by done. rewrite !length_app, IH. unfold labels_wire. simpl. lia.
Qed.

Lemma name_inv_init pkt off : name_inv pkt off (name_init pkt off).
Proof. constructor; simpl; try done; lia. Qed.

Lemma label_step_inv pkt off st c len st' :
  name_inv pkt off st -> buf c = pkt -> (ns_end st = None -> (off <= pos c)%nat) ->
  (1 <= len)%nat -> label_step st c len = NNext st' ->
  name_inv pkt off st' /\ (name_measure st' < name_measure st)%nat.
Proof.
  intros [Hb Hh Hw Hc Hu Hp He] Hcb Hcp Hlen. unfold label_step.
  destruct (Cursor.read_slice c len) as [[l c']|] eqn:R; [|done].
  apply read_slice_inv in R as (-> & Hl & -> & Hle). rewrite Hcb in *.
  destruct (255 <? _)%nat eqn:E; [done|]. apply Nat.ltb_ge in E.
  destruct (utf8_valid _) eqn:U; [|done]. intros [= <-]. unfold name_measure. simpl.
  split; [constructor; simpl; try done|lia].
  - rewrite labels_wire_app. unfold labels_wire at 2. simpl. rewrite Hl. lia.
  - apply Forall_app. by repeat constructor.
  - intros Hn. specialize (Hcp Hn). lia.
Qed.

Lemma pointer_step_inv pkt off st c b st' :
  name_inv pkt off st -> buf c = pkt -> (ns_end st = None -> (off <= pos c)%nat) ->
  pointer_step st c b = NNext st' ->
  name_inv pkt off st' /\ (name_measure st' < name_measure st)%nat.
Proof.
  intros [Hb Hh Hw Hc Hu Hp He] Hcb Hcp. unfold pointer_step.
  destruct (Cursor.read_u8 c) as [[lo c']|] eqn:R; [|done].
  apply read_u8_inv in R as (_ & -> & Hlt).
  destruct (255 <? _)%nat eqn:E; [done|]. apply Nat.ltb_ge in E.
  case_bool; [done|]. intros [= <-]. unfold name_measure. simpl in *. rewrite Hcb in *.
  split; [constructor; simpl; try done; try lia|lia].
  - by destruct (ns_end st).
  - intros e Hend. destruct (ns_end st) as [e'|]; [naive_solver|]. simplify_eq.
    specialize (Hcp eq_refl). unfold Cursor.position. simpl. lia.
Qed.

Lemma extract_step_inv pkt off st st' :
  name_inv pkt off st -> extract_step st = NNext st' ->
  name_inv pkt off st' /\ (name_measure st' < name_measure st)%nat.
Proof.
  intros Hi. pose proof Hi as [Hb _ _ _ _ Hp _]. unfold extract_step.
  destruct (Cursor.read_u8 (ns_c st)) as [[b c]|] eqn:R; [|done].
  apply read_u8_inv in R as (_ & -> & Hlt). pose proof (u8z_range b).
  destruct (u8z b =? 0) eqn:E0; [done|]. apply Z.eqb_neq in E0.
  repeat case_bool; try done.
  - apply pointer_step_inv; simpl; eauto.
  - apply label_step_inv; simpl; eauto; lia.
Qed.

Lemma extract_loop_total pkt off : forall fuel st,
  name_inv pkt off st -> (name_measure st < fuel)%nat -> exists r, extract_loop fuel st = Some r.
Proof.
  induction fuel as [|f IH]; intros st Hi Hm; [lia|]. simpl.
  destruct (extract_step st) as [| |st'] eqn:E; eauto.
  apply (extract_step_inv _ _ _ _ Hi) in E as [? ?]. apply IH; [done|lia].
Qed.

Lemma extract_loop_mono f f' st r :
  extract_loop f st = Some r -> (f <= f')%nat -> extract_loop f' st = Some r.
Proof.
  revert f' st. induction f as [|f IH]; intros f' st H Hle; [done|].
  destruct f' as [|f']; [lia|]. simpl in *. destruct (extract_step st); auto. apply IH; [done|lia].
Qed.

Lemma extract_name_loop pkt off :
  extract_loop NAME_FUEL (name_init pkt off) = Some (extract_name pkt off).
Proof.
  unfold extract_name.
  destruct (extract_loop_total pkt off NAME_FUEL (name_init pkt off)) as [r ->]; [apply name_inv_init| |done].
  unfold name_measure, NAME_FUEL. simpl. lia.
Qed.

Lemma extract_loop_bounds pkt off : forall fuel st n o,
  name_inv pkt off st -> extract_loop fuel st = Some (Ok (n, o)) ->
  (off < o <= length pkt)%nat /\ (length n <= 253)%nat /\ utf8_valid n = true.
Proof.
  induction fuel as [|f IH]; intros st n o Hi H; [done|]. simpl in H.
  destruct (extract_step st) as [n' o'| |st'] eqn:E; simplify_eq.
  - pose proof Hi as [Hb _ Hw Hc Hu Hp He]. unfold extract_step in E.
    destruct (Cursor.read_u8 (ns_c st)) as [[b c]|] eqn:R; [|done].
    apply read_u8_inv in R as (_ & -> & Hlt).
    repeat case_bool; try done;
      [| by unfold pointer_step in E; repeat case_match
       | by unfold label_step in E; repeat case_match].
    simplify_eq. split; [|split].
    + destruct (ns_end st); simpl; [by apply He|]. unfold Cursor.position. simpl.
      specialize (Hp eq_refl). lia.
    + rewrite length_join_labels. lia.
    + by apply utf8_valid_join.
  - apply (extract_step_inv _ _ _ _ Hi) in E as [? _]. by eapply IH.
Qed.

Lemma extract_name_bounds pkt off n o :
  extract_name pkt off = Ok (n, o) ->
  (off < o <= length pkt)%nat /\ (length n <= 253)%nat /\ utf8_valid n = true.
Proof.
  intros H. pose proof (extract_name_loop pkt off) as L. rewrite H in L.
  by eapply extract_loop_bounds; [apply name_inv_init|].
Qed.

(** ** Encoding and decoding *)

Lemma enc_labels_cons l ls :
  enc_labels (l :: ls) = (z8 (Z.of_nat (length l)) :: l) ++ enc_labels ls.
Proof. done. Qed.

Lemma labels_wire_cons l ls : labels_wire (l :: ls) = (S (length l) + labels_wire ls)%nat.
Proof. done. Qed.

Lemma length_labels_wire ls : (length ls <= labels_wire ls)%nat.
Proof. induction ls as [|l ls IH]; [done|]. rewrite labels_wire_cons. simpl. lia. Qed.

Lemma fold_write_label ls b : fold_left write_label ls b = b ++ enc_labels ls.
Proof.
  revert b. induction ls as [|l ls IH]; intros b; simpl; [by rewrite app_nil_r|].
  rewrite IH, enc_labels_cons. unfold write_label, put_slice, put_u8. by rewrite <- !app_assoc.
Qed.

Lemma write_name_enc b n : n <> [dot] -> write_name b n = b ++ enc_name n.
Proof.
  intros Hd. unfold write_name, enc_name. rewrite (decide_False (P := n = [dot])) by done.
  cbv zeta. case_decide; [done|]. rewrite fold_write_label. unfold put_u8. by rewrite <- app_assoc.
Qed.

Lemma name_ok_not_dot n : name_ok n -> n <> [dot].
Proof.
  intros [->|[H _]]; [done|]. intros ->.
  apply Forall_inv in H as [? _]. simpl in *. lia.
Qed.

Lemma write_name_ok b n : name_ok n -> write_name b n = b ++ enc_name n.
Proof. intros. by apply write_name_enc, name_ok_not_dot. Qed.

Lemma length_enc_labels ls : length (enc_labels ls) = labels_wire ls.
Proof.
  induction ls as [|l ls IH]; [done|].
  by rewrite enc_labels_cons, labels_wire_cons, length_app, IH.
Qed.

Lemma labels_wire_split n : labels_wire (split_on dot n) = S (length n).
Proof.
  pose proof (length_join_labels (split_on dot n)) as H. rewrite join_split in H.
  pose proof (split_on_nonnil dot n). destruct (split_on dot n); [done|].
  unfold labels_wire in *. simpl in *. lia.
Qed.

(** The first octet of a valid label is neither the root nor a pointer. *)
Lemma label_octet l : label_ok l ->
  u8z (z8 (Z.of_nat (length l))) = Z.of_nat (length l) /\
  Z.land (Z.of_nat (length l)) 0xC0 = 0.
Proof.
  intros [[H1 H2] _]. split; [apply u8z_z8_small; lia|].
  assert (forall b, implb (u8z b <? 64) (Z.land (u8z b) 0xC0 =? 0) = true) as F
    by (apply byte_forall; by vm_compute).
  specialize (F (z8 (Z.of_nat (length l)))). rewrite u8z_z8_small in F by lia.
  rewrite (proj2 (Z.ltb_lt _ _)) in F by lia. simpl in F. lia.
Qed.

Lemma extract_step_label pre l post st :
  label_ok l -> fits (pre ++ (z8 (Z.of_nat (length l)) :: l) ++ post) ->
  ns_c st = mkCursor (pre ++ (z8 (Z.of_nat (length l)) :: l) ++ post) (length pre) ->
  (ns_wire st + S (length l) <= 255)%nat ->
  extract_step st =
    NNext (mkNameSt (mkCursor (buf (ns_c st)) (length pre + S (length l)))
             (ns_labels st ++ [l]) (ns_end st) (ns_hops st) (ns_wire st + S (length l))).
Proof.
  intros Hl Hf Hc Hw. destruct (label_octet l Hl) as [Hz Hm]. destruct Hl as [[H1 H2] Hu].
  unfold extract_step. rewrite Hc. simpl app. rewrite read_u8_mid, Hz.
  rewrite (proj2 (Z.eqb_neq _ 0)) by lia. rewrite Hm. simpl. rewrite Nat2Z.id.
  unfold label_step.
  replace (pre ++ z8 (Z.of_nat (length l)) :: l ++ post)
    with ((pre ++ [z8 (Z.of_nat (length l))]) ++ l ++ post) in * by (by rewrite <- app_assoc).
  replace (S (length pre)) with (length (pre ++ [z8 (Z.of_nat (length l))]))
    by (rewrite length_app; simpl; lia).
  rewrite read_slice_mid by (by simpl app in Hf; rewrite <- app_assoc).
  rewrite (proj2 (Nat.ltb_ge _ _)) by lia. rewrite Hu, length_app. simpl.
  do 2 f_equal; [f_equal|]; lia.
Qed.

Lemma extract_loop_labels ls : forall pre post st fuel,
  Forall label_ok ls -> fits (pre ++ enc_labels ls ++ Byte.x00 :: post) ->
  ns_c st = mkCursor (pre ++ enc_labels ls ++ Byte.x00 :: post) (length pre) ->
  ns_end st = None -> (ns_wire st + labels_wire ls <= 255)%nat -> (length ls < fuel)%nat ->
  extract_loop fuel st =
    Some (Ok (join [dot] (ns_labels st ++ ls), (length pre + labels_wire ls + 1)%nat)).
Proof.
  induction ls as [|l ls IH]; intros pre post st fuel Hls Hf Hc He Hw Hfu;
    (destruct fuel as [|fuel]; [lia|]); simpl extract_loop.
  - unfold extract_step. rewrite Hc. simpl app. rewrite read_u8_mid. simpl.
    rewrite He, app_nil_r. unfold Cursor.position, labels_wire. simpl. do 3 f_equal. lia.
  - apply Forall_cons in Hls as [Hl Hls].
    rewrite enc_labels_cons, <- app_assoc in Hf, Hc. rewrite labels_wire_cons in Hw |- *.
    rewrite (extract_step_label pre l (enc_labels ls ++ Byte.x00 :: post)) by (try done; lia).
    rewrite (IH (pre ++ z8 (Z.of_nat (length l)) :: l) post); simpl; try done; try lia.
    + rewrite <- app_assoc, length_app. simpl. do 3 f_equal. lia.
    + by rewrite <- app_assoc.
    + rewrite Hc, <- app_assoc, length_app. simpl. done.
    + simpl in Hfu. lia.
Qed.

Lemma extract_name_enc pre n post :
  name_ok n -> fits (pre ++ enc_name n ++ post) ->
  extract_name (pre ++ enc_name n ++ post) (length pre) =
    Ok (n, (length pre + length (enc_name n))%nat).
Proof.
  intros Hn Hf. pose proof (extract_name_loop (pre ++ enc_name n ++ post) (length pre)) as L.
  unfold enc_name in *. rewrite <- app_assoc in *. simpl app in *.
  set (ls := if decide (n = []) then [] else split_on dot n).
  assert ((if decide (n = []) then [] else enc_labels (split_on dot n)) = enc_labels ls) as E
    by (unfold ls; by case_decide).
  assert (Forall label_ok ls /\ labels_wire ls <= 254 /\ join [dot] ls = n)%nat as (H1 & H2 & H3).
  { unfold ls. case_decide as Hnil; [subst; repeat constructor; unfold labels_wire; simpl; lia|].
    destruct Hn as [->|[Hl Hlen]]; [done|]. rewrite labels_wire_split, join_split.
    repeat split; [done|lia]. }
  rewrite E in *. rewrite (extract_loop_labels ls pre post) in L; try done.
  - simpl in L. rewrite H3 in L. injection L as <-.
    rewrite length_app, length_enc_labels. simpl. do 2 f_equal. lia.
  - simpl. lia.
  - pose proof (length_labels_wire ls). unfold NAME_FUEL. lia.
Qed.

(** ** [skip_name] agrees with [extract_name] *)

Lemma advance_read_slice c n s c' :
  Cursor.read_slice c n = Some (s, c') -> Cursor.advance c n = Some c'.
Proof.
  unfold Cursor.read_slice, Cursor.advance. intros H. step_in H. step_in H. simplify_eq.
  apply slice_Some in Heqo0 as [? _]. by rewrite (proj2 (Nat.ltb_ge _ _)) by lia.
Qed.

(** Once a pointer was followed the end offset no longer changes. *)
Lemma extract_loop_end f : forall st e n o,
  ns_end st = Some e -> extract_loop f st = Some (Ok (n, o)) -> o = e.
Proof.
  induction f as [|f IH]; intros st e n o He H; [done|]. simpl in H.
  destruct (extract_step st) as [| |st'] eqn:E; simplify_eq;
    unfold extract_step, pointer_step, label_step in E; rewrite ?He in E;
    repeat case_match; simplify_eq; try done; (by eapply IH; [|exact H]).
Qed.

Lemma skip_extract_loop f : forall st fs n o,
  ns_end st = None -> (length (buf (ns_c st)) < fs + pos (ns_c st))%nat -> (0 < fs)%nat ->
  extract_loop f st = Some (Ok (n, o)) -> skip_loop fs (ns_c st) = Some (Ok o).
Proof.
  induction f as [|f IH]; intros st fs n o He Hfs Hpos H; [done|].
  destruct fs as [|fs]; [lia|]. simpl in *.
  destruct (extract_step st) as [n' o'|e|st'] eqn:E; simplify_eq; unfold extract_step in E;
    (destruct (Cursor.read_u8 (ns_c st)) as [[b c]|] eqn:R; [|done]);
    apply read_u8_inv in R as (_ & -> & Hlt).
  - repeat case_bool; try done; simplify_eq/=; rewrite ?He; try done;
      unfold pointer_step, label_step in E; repeat case_match; done.
  - destruct (u8z b =? 0); [done|].
    destruct (Z.land (u8z b) 0xC0 =? 0xC0) eqn:Ec.
    + unfold pointer_step in E. rewrite He in E.
      destruct (Cursor.read_u8 _) as [[lo c']|]; [|done]. repeat case_bool; simplify_eq; try done.
      by apply (extract_loop_end f _ (Cursor.position c')) in H as ->.
    + destruct (Z.land (u8z b) 0xC0 =? 0x00) eqn:E0; simpl; [|done]. unfold label_step in E.
      destruct (Cursor.read_slice _ _) as [[l c']|] eqn:Rs; [|done].
      rewrite (advance_read_slice _ _ _ _ Rs). repeat case_bool; simplify_eq; try done.
      apply read_slice_inv in Rs as (_ & _ & -> & Hle). simpl in *.
      match type of H with extract_loop f ?s = _ => eapply (IH s) in H end; simpl; try done; lia.
Qed.

Lemma skip_extract pkt off n o : extract_name pkt off = Ok (n, o) -> skip_name pkt off = Ok o.
Proof.
  intros H. pose proof (extract_name_bounds _ _ _ _ H).
  pose proof (extract_name_loop pkt off) as L. rewrite H in L.
  unfold skip_name.
  pose proof (skip_extract_loop _ (name_init pkt off) (S (length pkt)) _ _ eq_refl ltac:(simpl; lia) ltac:(lia) L) as S.
  unfold name_init in S. cbn [ns_c] in S. by rewrite S.
Qed.

(** ** Questions and records *)

Definition question_ok (q : DnsQuestion) : Prop :=
  name_ok (q_name q) /\ u16_ok (qtype q) /\ u16_ok (qclass q).

(** Rdata in the self-contained form [parse_rr] keeps: a type that carries a
    compressible name carries it expanded. *)
Definition rdata_ok (t : Z) (rd : list u8) : Prop :=
  if (t =? 2) || (t =? 5) || (t =? 12) then exists n, name_ok n /\ rd = enc_name n
  else if t =? 15 then exists p n, u16_ok p /\ name_ok n /\ rd = to_be 2 p ++ enc_name n
  else if t =? 6 then
    exists m r fixed, name_ok m /\ name_ok r /\ length fixed = 20%nat /\
      rd = enc_name m ++ enc_name r ++ fixed
  else True.

Definition rr_ok (rr : DnsRr) : Prop :=
  name_ok (r_name rr) /\ u16_ok (rtype rr) /\ u16_ok (class rr) /\
  0 <= ttl rr < 4294967296 /\ (Z.of_nat (length (rdata rr)) < 65536) /\
  rdata_ok (rtype rr) (rdata rr).

(** The wire images. *)
Definition enc_question (q : DnsQuestion) : list u8 :=
  enc_name (q_name q) ++ to_be 2 (qtype q) ++ to_be 2 (qclass q).
Definition enc_rr (rr : DnsRr) : list u8 :=
  enc_name (r_name rr) ++ to_be 2 (rtype rr) ++ to_be 2 (class rr) ++ to_be 4 (ttl rr)
    ++ to_be 2 (Z.of_nat (length (rdata rr))) ++ rdata rr.

Lemma write_question_enc b q : question_ok q -> write_question b q = b ++ enc_question q.
Proof.
  intros (Hn & _). unfold write_question, enc_question, put_u16.
  rewrite write_name_ok by done. by rewrite <- !app_assoc.
Qed.

Lemma write_rr_enc b rr : rr_ok rr -> write_rr b rr = b ++ enc_rr rr.
Proof.
  intros (Hn & _ & _ & _ & Hl & _). unfold write_rr, enc_rr, put_u16, put_u32, put_slice.
  rewrite write_name_ok by done. unfold as_u16. rewrite Z.mod_small by lia.
  by rewrite <- !app_assoc.
Qed.

(** Reading a field of an encoded item: [pre] ends where the field starts. *)
Lemma read_u16_at p pre z post pkt :
  pkt = pre ++ to_be 2 z ++ post -> p = length pre -> u16_ok z -> fits pkt ->
  Cursor.read_u16_be (mkCursor pkt p) = Some (z, mkCursor pkt (p + 2)).
Proof. intros -> -> ? ?. by apply read_u16_mid. Qed.

Lemma read_u32_at p pre z post pkt :
  pkt = pre ++ to_be 4 z ++ post -> p = length pre -> 0 <= z < 4294967296 -> fits pkt ->
  Cursor.read_u32_be (mkCursor pkt p) = Some (z, mkCursor pkt (p + 4)).
Proof. intros -> -> ? ?. by apply read_u32_mid. Qed.

Lemma read_slice_at p pre m n post pkt :
  pkt = pre ++ m ++ post -> p = length pre -> n = length m -> fits pkt ->
  Cursor.read_slice (mkCursor pkt p) n = Some (m, mkCursor pkt (p + n)).
Proof. intros -> -> -> ?. by apply read_slice_mid. Qed.

Lemma extract_name_at p pre n post pkt :
  pkt = pre ++ enc_name n ++ post -> p = length pre -> name_ok n -> fits pkt ->
  extract_name pkt p = Ok (n, (p + length (enc_name n))%nat).
Proof. intros -> -> ? ?. by apply extract_name_enc. Qed.

(** Close the side conditions of the [_at] lemmas: the packet is an append of
    the parts, the position is the length of the prefix. *)
Ltac at_solve := first
  [ done
  | (subst; unfold enc_question, enc_rr; simpl; rewrite <- ?app_assoc; reflexivity)
  | (rewrite ?length_app, ?length_to_be; simpl; lia) ].

Lemma parse_question_enc pre q post :
  question_ok q -> fits (pre ++ enc_question q ++ post) ->
  parse_question (pre ++ enc_question q ++ post) (length pre) =
    Ok (q, (length pre + length (enc_question q))%nat).
Proof.
  intros (Hn & Ht & Hk) Hf. remember (pre ++ enc_question q ++ post) as pkt eqn:Hp.
  unfold parse_question.
  rewrite (extract_name_at _ pre (q_name q) (to_be 2 (qtype q) ++ to_be 2 (qclass q) ++ post))
    by at_solve.
  unfold Cursor.at_.
  rewrite (read_u16_at _ (pre ++ enc_name (q_name q)) (qtype q) (to_be 2 (qclass q) ++ post))
    by at_solve. simpl.
  rewrite (read_u16_at _ (pre ++ enc_name (q_name q) ++ to_be 2 (qtype q)) (qclass q) post)
    by at_solve. simpl.
  unfold Cursor.position, enc_question. rewrite !length_app, !length_to_be. simpl.
  destruct q. do 2 f_equal. lia.
Qed.

(** Expanding the names of already expanded rdata changes nothing. *)
Lemma decompress_rdata_ok pre rd post t :
  rdata_ok t rd -> fits (pre ++ rd ++ post) ->
  decompress_rdata (pre ++ rd ++ post) rd t (length pre) = rd.
Proof.
  unfold rdata_ok, decompress_rdata. intros Hr Hf.
  destruct (_ || _ || _).
  { destruct Hr as (n & Hn & ->). rewrite extract_name_enc by done. by rewrite write_name_ok. }
  destruct (t =? 15).
  { destruct Hr as (p & n & Hp & Hn & ->). rewrite length_app, length_to_be. simpl Nat.leb. cbv iota.
    rewrite (extract_name_at _ (pre ++ to_be 2 p) n post) by at_solve.
    rewrite write_name_ok by done. unfold put_u16. simpl app.
    by rewrite take_0, of_be_2_small. }
  destruct (t =? 6); [|done].
  destruct Hr as (m & r & f & Hm & Hn & Hfl & ->).
  rewrite (extract_name_at _ pre m (enc_name r ++ f ++ post)) by at_solve.
  rewrite (extract_name_at _ (pre ++ enc_name m) r (f ++ post)) by at_solve.
  replace (pre ++ (enc_name m ++ enc_name r ++ f) ++ post)
    with ((pre ++ enc_name m ++ enc_name r) ++ f ++ post) by at_solve.
  replace (length pre + length (enc_name m) + length (enc_name r))%nat
    with (length (pre ++ enc_name m ++ enc_name r)) by at_solve.
  rewrite <- Hfl, slice_mid. unfold put_slice. rewrite !write_name_ok by done.
  by rewrite <- app_assoc.
Qed.

Lemma parse_rr_enc pre rr post :
  rr_ok rr -> fits (pre ++ enc_rr rr ++ post) ->
  parse_rr (pre ++ enc_rr rr ++ post) (length pre) =
    Ok (rr, (length pre + length (enc_rr rr))%nat).
Proof.
  intros (Hn & Ht & Hk & Hl & Hd & Hr) Hf. remember (pre ++ enc_rr rr ++ post) as pkt eqn:Hp.
  assert (u16_ok (Z.of_nat (length (rdata rr)))) as Hd' by (unfold u16_ok; lia).
  unfold enc_rr in Hp. unfold parse_rr, Cursor.at_.
  set (nm := enc_name (r_name rr)) in *. set (T := to_be 2 (rtype rr)) in *.
  set (K := to_be 2 (class rr)) in *. set (L := to_be 4 (ttl rr)) in *.
  set (D := to_be 2 (Z.of_nat (length (rdata rr)))) in *.
  assert (length T = 2 /\ length K = 2 /\ length L = 4 /\ length D = 2)%nat as (HT & HK & HL & HD)
    by (repeat split; apply length_to_be).
  rewrite (extract_name_at _ pre (r_name rr) (T ++ K ++ L ++ D ++ rdata rr ++ post)) by at_solve.
  fold nm.
  rewrite (read_u16_at _ (pre ++ nm) (rtype rr) (K ++ L ++ D ++ rdata rr ++ post)) by at_solve.
  cbn [ok_or].
  rewrite (read_u16_at _ (pre ++ nm ++ T) (class rr) (L ++ D ++ rdata rr ++ post)) by at_solve.
  cbn [ok_or].
  rewrite (read_u32_at _ (pre ++ nm ++ T ++ K) (ttl rr) (D ++ rdata rr ++ post)) by at_solve.
  cbn [ok_or].
  rewrite (read_u16_at _ (pre ++ nm ++ T ++ K ++ L) (Z.of_nat (length (rdata rr)))
             (rdata rr ++ post)) by at_solve.
  cbn [ok_or].
  rewrite (read_slice_at _ (pre ++ nm ++ T ++ K ++ L ++ D) (rdata rr) _ post) by at_solve.
  cbn [ok_or].
  assert (decompress_rdata pkt (rdata rr) (rtype rr)
            (length (pre ++ nm ++ T ++ K ++ L ++ D)) = rdata rr) as E.
  { replace pkt with ((pre ++ nm ++ T ++ K ++ L ++ D) ++ rdata rr ++ post) in * by at_solve.
    by apply decompress_rdata_ok. }
  rewrite !length_app, HT, HK, HL, HD in E. unfold Cursor.position. cbn [pos].
  replace (length pre + length nm + 2 + 2 + 4 + 2)%nat
    with (length pre + (length nm + (2 + (2 + (4 + 2)))))%nat by lia.
  rewrite E. unfold enc_rr. fold nm T K L D. rewrite !length_app, HT, HK, HL, HD, Nat2Z.id.
  destruct rr. simpl. do 2 f_equal. lia.
Qed.

(** ** Packets *)

Lemma parse_many_enc {A} (enc : A -> list u8) (item : list u8 -> nat -> result (A * nat) DnsError)
    (okp : A -> Prop)
    (Hitem : forall pre x post, okp x -> fits (pre ++ enc x ++ post) ->
       item (pre ++ enc x ++ post) (length pre) = Ok (x, (length pre + length (enc x))%nat))
    (xs : list A) : forall pre post,
  Forall okp xs -> fits (pre ++ concat (enc <$> xs) ++ post) ->
  parse_many (item (pre ++ concat (enc <$> xs) ++ post)) (length xs) (length pre) =
    Ok (xs, length (pre ++ concat (enc <$> xs))).
Proof.
  induction xs as [|x xs IH]; intros pre post Hok Hf.
  - simpl. by rewrite app_nil_r.
  - apply Forall_cons in Hok as [Hx Hxs]. rewrite fmap_cons in *.
    cbn [concat parse_many length] in *. rewrite <- (app_assoc (enc x)) in *. rewrite Hitem by done.
    specialize (IH (pre ++ enc x) post Hxs). rewrite <- app_assoc in IH.
    rewrite <- length_app, IH by done. by rewrite <- app_assoc.
Qed.

Lemma fold_left_enc {A} (enc : A -> list u8) (wr : list u8 -> A -> list u8) (okp : A -> Prop)
    (Hwr : forall b x, okp x -> wr b x = b ++ enc x) xs : forall b,
  Forall okp xs -> fold_left wr xs b = b ++ concat (enc <$> xs).
Proof.
  induction xs as [|x xs IH]; intros b Hok; [simpl; by rewrite app_nil_r|].
  apply Forall_cons in Hok as [Hx Hxs]. cbn [fold_left]. rewrite Hwr, IH by done. by rewrite <- app_assoc.
Qed.

(** A packet the wire format can carry. *)
Record packet_ok (p : DnsPacket) : Prop := mkPacketOk {
  pk_id : u16_ok (id (header p));
  pk_qs : Forall question_ok (questions p);
  pk_an : Forall rr_ok (answers p);
  pk_ns : Forall rr_ok (authority p);
  pk_ar : Forall rr_ok (additional p);
  pk_counts : Z.of_nat (length (questions p)) < 65536 /\ Z.of_nat (length (answers p)) < 65536 /\
    Z.of_nat (length (authority p)) < 65536 /\ Z.of_nat (length (additional p)) < 65536;
}.

(** The packet with the section counts of its header made true. *)
Definition fix_counts (p : DnsPacket) : DnsPacket :=
  mkPacket (with_counts (header p) (Z.of_nat (length (questions p))) (Z.of_nat (length (answers p)))
              (Z.of_nat (length (authority p))) (Z.of_nat (length (additional p))))
    (questions p) (answers p) (authority p) (additional p).

Definition enc_packet (p : DnsPacket) : list u8 :=
  to_bytes (header (fix_counts p)) ++ concat (enc_question <$> questions p)
    ++ concat (enc_rr <$> answers p) ++ concat (enc_rr <$> authority p)
    ++ concat (enc_rr <$> additional p).

Lemma write_enc p : packet_ok p -> write p = enc_packet p.
Proof.
  intros [Hid Hq Ha Hn Hr (H1 & H2 & H3 & H4)]. unfold write, enc_packet, fix_counts, as_u16.
  cbv zeta. rewrite !Z.mod_small by lia. unfold put_slice.
  rewrite (fold_left_enc enc_question _ question_ok) by auto using write_question_enc.
  rewrite !(fold_left_enc enc_rr _ rr_ok) by auto using write_rr_enc.
  by rewrite <- !app_assoc.
Qed.

Lemma fix_counts_header_ok p : packet_ok p -> header_ok (header (fix_counts p)).
Proof.
  intros [Hid _ _ _ _ (H1 & H2 & H3 & H4)]. unfold header_ok, u16_ok in *. simpl. lia.
Qed.

Lemma parse_enc p : packet_ok p -> fits (enc_packet p) -> parse (enc_packet p) = Ok (fix_counts p).
Proof.
  intros Hp Hf. pose proof (fix_counts_header_ok p Hp) as Hh. destruct Hp as [Hid Hq Ha Hn Hr _].
  unfold parse. set (pkt := enc_packet p) in *.
  assert (from_bytes pkt = Some (header (fix_counts p))) as -> by (by apply from_to_bytes).
  cbn [ok_or]. set (h := header (fix_counts p)) in *.
  set (Q := concat (enc_question <$> questions p)). set (A := concat (enc_rr <$> answers p)).
  set (N := concat (enc_rr <$> authority p)). set (R := concat (enc_rr <$> additional p)).
  assert (pkt = to_bytes h ++ Q ++ A ++ N ++ R) as E by done.
  replace 12%nat with (length (to_bytes h)) by apply length_to_bytes.
  assert (Z.to_nat (qdcount h) = length (questions p) /\ Z.to_nat (ancount h) = length (answers p) /\
    Z.to_nat (nscount h) = length (authority p) /\ Z.to_nat (arcount h) = length (additional p))
    as (-> & -> & -> & ->) by (simpl; lia).
  pose proof (parse_many_enc enc_question parse_question question_ok parse_question_enc
    (questions p) (to_bytes h) (A ++ N ++ R) Hq) as P.
  fold Q in P. rewrite <- E in P. rewrite P by done. clear P.
  pose proof (parse_many_enc enc_rr parse_rr rr_ok parse_rr_enc
    (answers p) (to_bytes h ++ Q) (N ++ R) Ha) as P.
  fold A in P. rewrite <- !app_assoc, <- E in P. rewrite P by done. clear P.
  pose proof (parse_many_enc enc_rr parse_rr rr_ok parse_rr_enc
    (authority p) (to_bytes h ++ Q ++ A) R Hn) as P.
  fold N in P. rewrite <- !app_assoc, <- E in P. rewrite P by done. clear P.
  pose proof (parse_many_enc enc_rr parse_rr rr_ok parse_rr_enc
    (additional p) (to_bytes h ++ Q ++ A ++ N) [] Hr) as P.
  fold R in P. rewrite app_nil_r, <- !app_assoc, <- E in P. rewrite P by done. done.
Qed.

(** ** Properties *)

(** [extract_name] terminates on every input, compression loops included:
    any run with at least [NAME_FUEL] iterations ends, with the result of
    [extract_name]. *)
Theorem extract_name_total pkt off fuel :
  (NAME_FUEL <= fuel)%nat ->
  extract_loop fuel (name_init pkt off) = Some (extract_name pkt off).
Proof. intros. eapply extract_loop_mono; [apply extract_name_loop|done]. Qed.

Lemma extract_name_total_witness :
  extract_loop 600 (name_init [Byte.xc0; Byte.x00] 0) = Some (extract_name [Byte.xc0; Byte.x00] 0)
  /\ extract_name [Byte.xc0; Byte.x00] 0 = Err CompressionLoop.
Proof.
  split; [apply (extract_name_total [Byte.xc0; Byte.x00] 0 600); unfold NAME_FUEL; lia|].
  by vm_compute.
Defined.

(** C16: a name that [extract_name] accepts is valid UTF-8 of at most 253 bytes,
    the offset it hands back is past the old one and inside the packet, and
    [skip_name] on the same input succeeds with the same offset. *)
Theorem extract_name_safe pkt off n off' :
  extract_name pkt off = Ok (n, off') ->
  (off < off' <= length pkt)%nat /\ (length n <= 253)%nat /\ utf8_valid n = true /\
  skip_name pkt off = Ok off'.
Proof.
  intros H. pose proof (skip_extract _ _ _ _ H). apply extract_name_bounds in H. intuition.
Qed.

(** The wire form of "ab.c", compressed against itself. *)
Definition sample_name_pkt : list u8 :=
  [Byte.x01; Byte.x63; Byte.x00; Byte.x02; Byte.x61; Byte.x62; Byte.xc0; Byte.x00].

Lemma extract_name_safe_witness :
  extract_name sample_name_pkt 3 = Ok (bs "ab.c", 8%nat) /\ skip_name sample_name_pkt 3 = Ok 8%nat.
Proof.
  assert (extract_name sample_name_pkt 3 = Ok (bs "ab.c", 8%nat)) as E by (by vm_compute).
  split; [exact E|]. apply (extract_name_safe sample_name_pkt 3 (bs "ab.c") 8 E).
Defined.

(** A well-formed name written by [write_name] anywhere in a message is read
    back by [extract_name], with the offset just past its encoding. *)
Theorem name_roundtrip pre n post :
  name_ok n -> fits (write_name pre n ++ post) ->
  extract_name (write_name pre n ++ post) (length pre) = Ok (n, length (write_name pre n)).
Proof.
  intros Hn Hf. rewrite write_name_ok, <- app_assoc in * by done.
  rewrite extract_name_enc by done. by rewrite length_app.
Qed.

Lemma name_roundtrip_witness :
  name_ok (bs "www.example.com") /\
  extract_name (write_name [Byte.x07] (bs "www.example.com") ++ [Byte.x09]) 1 =
    Ok (bs "www.example.com", 18%nat).
Proof.
  assert (name_ok (bs "www.example.com")) as H by (apply name_ok_eval; by vm_compute).
  split; [exact H|]. apply (name_roundtrip [Byte.x07] (bs "www.example.com") [Byte.x09] H).
  by vm_compute.
Defined.

(** C15: serialising a well-formed packet and parsing the bytes gives the packet
    back, its header counts replaced by the true section lengths. *)
Theorem packet_roundtrip p :
  packet_ok p -> fits (write p) -> parse (write p) = Ok (fix_counts p).
Proof. intros Hp Hf. rewrite write_enc in * by done. by apply parse_enc. Qed.

(** A reply with a compressible record in each of its sections. *)
Definition sample_packet : DnsPacket :=
  mkPacket (mkHeader 4660 Byte.x81 Byte.x80 0 0 0 0)
    [mkQuestion (bs "example.com") 15 1]
    [mkRr (bs "example.com") 15 1 300 (to_be 2 10 ++ enc_name (bs "mx.example.com"))]
    [mkRr (bs "example.com") 2 1 600 (enc_name (bs "ns.example.com"))]
    [mkRr (bs "mx.example.com") 1 1 60 [Byte.x0a; Byte.x00; Byte.x00; Byte.x01]].

Lemma packet_roundtrip_witness :
  packet_ok sample_packet /\ parse (write sample_packet) = Ok (fix_counts sample_packet).
Proof.
  assert (packet_ok sample_packet) as H.
  { constructor; simpl; unfold u16_ok; try lia; (apply Forall_singleton || apply Forall_nil);
      unfold question_ok, rr_ok, u16_ok; simpl;
      (split; [apply name_ok_eval; by vm_compute|]); repeat (split; [lia|]); try lia;
      unfold rdata_ok; simpl.
    - exists 10, (bs "mx.example.com"). repeat split; try lia; apply name_ok_eval; by vm_compute.
    - exists (bs "ns.example.com"). split; [apply name_ok_eval; by vm_compute|done].
    - done. }
  split; [exact H|]. apply (packet_roundtrip sample_packet H). by vm_compute.
Defined.

(** A label byte that is itself a dot is not told apart from a label boundary:
    two different wire names decode to one string, and writing the string back
    changes the number of labels. *)
Lemma label_dot_ambiguous :
  extract_name [Byte.x03; Byte.x61; dot; Byte.x62; Byte.x00] 0 = Ok (bs "a.b", 5%nat) /\
  extract_name [Byte.x01; Byte.x61; Byte.x01; Byte.x62; Byte.x00] 0 = Ok (bs "a.b", 5%nat) /\
  write_name [] (bs "a.b") <> [Byte.x03; Byte.x61; dot; Byte.x62; Byte.x00].
Proof. by vm_compute. Qed.
