(* ===== verification/Types.v ===== *)
(** * Shared data types: src/src/types/{addr,constants,server,dns_records}.rs

    Addresses, the cache flag bits, upstream servers, and the subnet helpers
    of types/addr.rs. *)

From Stdlib Require Import ZArith Lia String.
From stdpp Require Import base numbers list option strings.
From S2P Require Import Prelude.

#[local] Open Scope Z_scope.

(** ** Addresses

    An address is the integer its octets spell in network order:
    [u32::from(addr)] and [u128::from(addr)]. *)
Notation Ipv4Addr := Z (only parsing).
Notation Ipv6Addr := Z (only parsing).

Definition ip4_ok (a : Ipv4Addr) : Prop := 0 <= a < 2 ^ 32.
Definition ip6_ok (a : Ipv6Addr) : Prop := 0 <= a < 2 ^ 128.

Definition octets4 (a : Ipv4Addr) : list u8 := to_be 4 a.
Definition octets6 (a : Ipv6Addr) : list u8 := to_be 16 a.

Inductive IpAddr : Type := V4 (a : Ipv4Addr) | V6 (a : Ipv6Addr).
#[global] Instance IpAddr_eq_dec : EqDecision IpAddr.
Proof. solve_decision. Defined.

Record CnameAddr : Type := mkCname { is_name_ptr : bool; target_name : option str; c_uid : Z }.
Record KeyAddr : Type := mkKey {
  k_keydata : list u8; k_keylen : Z; k_flags : Z; k_keytag : Z; k_algo : Z }.
Record DsAddr : Type := mkDs {
  d_keydata : list u8; d_keylen : Z; d_keytag : Z; d_algo : Z; d_digest : Z }.
Record LogAddr : Type := mkLog {
  l_keytag : Z; l_algo : Z; l_digest : Z; l_rcode : Z; l_ede : Z }.
Record RrBlockAddr : Type := mkRrBlock { rb_rrtype : Z; rb_rrdata : list u8 }.
Record RrDataAddr : Type := mkRrData { rd_rrtype : Z; rd_data : list u8 }.

Inductive AllAddr : Type :=
| Addr4 (a : Ipv4Addr)
| Addr6 (a : Ipv6Addr)
| Cname (c : CnameAddr)
| Key (k : KeyAddr)
| Ds (d : DsAddr)
| Log (l : LogAddr)
| RrBlock (b : RrBlockAddr)
| RrData (d : RrDataAddr).

Definition as_ipv4 (a : AllAddr) : option Ipv4Addr :=
  match a with Addr4 x => Some x | _ => None end.
Definition as_ipv6 (a : AllAddr) : option Ipv6Addr :=
  match a with Addr6 x => Some x | _ => None end.
Definition as_ip (a : AllAddr) : option IpAddr :=
  match a with Addr4 x => Some (V4 x) | Addr6 x => Some (V6 x) | _ => None end.

(** A socket address; IPv6 ones carry a flow label and a scope. *)
Inductive MySockAddr : Type :=
| SV4 (ip : Ipv4Addr) (port : Z)
| SV6 (ip : Ipv6Addr) (port flowinfo scope_id : Z).
#[global] Instance MySockAddr_eq_dec : EqDecision MySockAddr.
Proof. solve_decision. Defined.

Definition sock_ip (s : MySockAddr) : IpAddr :=
  match s with SV4 a _ => V4 a | SV6 a _ _ _ => V6 a end.

(** ** Subnets *)

Definition is_same_net (a b mask : Ipv4Addr) : bool := Z.land a mask =? Z.land b mask.

(** [!x] on a [u32]. *)
Definition not32 (x : Z) : Z := 4294967295 - x.

Definition is_same_net_prefix (a b : Ipv4Addr) (prefix : Z) : bool :=
  if prefix =? 0 then true
  else if 32 <=? prefix then a =? b
  else
    let mask := not32 (Z.shiftl 1 (32 - prefix) - 1) in
    Z.land a mask =? Z.land b mask.

(** [ab[pfbytes] >> (8 - pfbits)]; the prefix length is at most 128, so the
    byte slices are in range. *)
Definition is_same_net6 (a b : Ipv6Addr) (prefixlen : nat) : bool :=
  let ab := octets6 a in
  let bb := octets6 b in
  let pfbytes := (prefixlen / 8)%nat in
  let pfbits := (prefixlen mod 8)%nat in
  if negb (bool_decide (take pfbytes ab = take pfbytes bb)) then false
  else if (pfbits =? 0)%nat || (16 <=? pfbytes)%nat then true
  else match ab !! pfbytes, bb !! pfbytes with
       | Some x, Some y => Z.shiftr (u8z x) (8 - Z.of_nat pfbits) =? Z.shiftr (u8z y) (8 - Z.of_nat pfbits)
       | _, _ => false
       end.

(** The low 64 bits of an IPv6 address. *)
Definition addr6part (a : Ipv6Addr) : Z := of_be (drop 8 (octets6 a)).
Definition setaddr6part (a : Ipv6Addr) (host : Z) : Ipv6Addr :=
  of_be (take 8 (octets6 a) ++ to_be 8 host).

(** ** Cache flag bits *)

Definition F_IMMORTAL : Z := 2 ^ 0.
Definition F_REVERSE : Z := 2 ^ 2.
Definition F_FORWARD : Z := 2 ^ 3.
Definition F_DHCP : Z := 2 ^ 4.
Definition F_NEG : Z := 2 ^ 5.
Definition F_HOSTS : Z := 2 ^ 6.
Definition F_IPV4 : Z := 2 ^ 7.
Definition F_IPV6 : Z := 2 ^ 8.
Definition F_NXDOMAIN : Z := 2 ^ 10.
Definition F_CNAME : Z := 2 ^ 11.
Definition F_DNSKEY : Z := 2 ^ 12.
Definition F_CONFIG : Z := 2 ^ 13.
Definition F_DS : Z := 2 ^ 14.
Definition F_DNSSECOK : Z := 2 ^ 15.
Definition F_SERVER : Z := 2 ^ 18.
Definition F_NOERR : Z := 2 ^ 20.
Definition F_DNSSEC : Z := 2 ^ 22.
Definition F_KEYTAG : Z := 2 ^ 23.
Definition F_DOMAINSRV : Z := 2 ^ 28.
Definition F_RR : Z := 2 ^ 30.

Definition UID_NONE : Z := 0.

(** [flags & bits != 0]. *)
Definition has (flags bits : Z) : bool := negb (Z.land flags bits =? 0).

(** [a | b | c]. *)
Infix "∣∣" := Z.lor (at level 50, left associativity) : rust_scope.

(** ** Lemmas *)

Lemma length_octets4 a : length (octets4 a) = 4%nat.
Proof. apply length_to_be. Qed.
Lemma length_octets6 a : length (octets6 a) = 16%nat.
Proof. apply length_to_be. Qed.

Lemma octets4_of a : ip4_ok a -> of_be (octets4 a) = a.
Proof. intros H. by apply (of_be_to_be_small 4). Qed.
Lemma octets6_of a : ip6_ok a -> of_be (octets6 a) = a.
Proof. intros H. by apply (of_be_to_be_small 16). Qed.

Lemma has_lor f b c : has f (b ∣∣ c) = has f b || has f c.
Proof.
  unfold has. apply Bool.eq_iff_eq_true. rewrite orb_true_iff, !negb_true_iff, !Z.eqb_neq, Z.land_lor_distr_r, Z.lor_eq_0_iff.
  destruct (Z.eq_dec (Z.land f b) 0), (Z.eq_dec (Z.land f c) 0); tauto.
Qed.

Lemma has_bit f i : 0 <= i -> has f (2 ^ i) = Z.testbit f i.
Proof.
  intros Hi. unfold has. destruct (Z.testbit f i) eqn:E.
  - apply negb_true_iff, Z.eqb_neq. intros H. apply (f_equal (fun z => Z.testbit z i)) in H.
    rewrite Z.land_spec, E, Z.pow2_bits_true, Z.bits_0 in H by done. done.
  - apply negb_false_iff, Z.eqb_eq. apply Z.bits_inj'. intros n Hn.
    rewrite Z.land_spec, Z.bits_0. destruct (Z.eq_dec n i) as [->|].
    + by rewrite E.
    + rewrite Z.pow2_bits_false by done. apply andb_false_r.
Qed.
