(* ===== verification/Arpa.v ===== *)
(** * Reverse names and special-use addresses

    [in_arpa_name_2_addr], [private_net] and [private_net6] of
    src/src/rfc1035.rs, and the reverse-name printers [ipv4_ptr_name] and
    [ipv6_ptr_name] of src/src/cache.rs. *)

From Stdlib Require Import ZArith Lia String.
From stdpp Require Import base numbers list option strings sets.
From S2P Require Import Prelude Types.

#[local] Open Scope Z_scope.

(** ** Definitions *)

(** [collect::<Option<Vec<_>>>()]. *)
Definition collect {A B} (f : A -> option B) (l : list A) : option (list B) := mapM f l.

(** The nibble at index [i] of the 32 collected ones. *)
Definition nib (ns : list Z) (i : nat) : Z := default 0 (ns !! i).

(** The sixteen address bytes; [(hi << 4) | lo]. *)
Definition nibble_bytes (ns : list Z) : list u8 :=
  (fun i => z8 (Z.lor (Z.shiftl (nib ns (31 - i * 2)%nat) 4) (nib ns (30 - i * 2)%nat)))
    <$> seq 0 16.

Section WithUnicode.
Context `{UnicodeTables}.

Definition in_arpa_name_2_addr (name : str) : option AllAddr :=
  let lower := to_lowercase name in
  let lower := default lower (strip_suffix [dot] lower) in
  match strip_suffix (bs ".in-addr.arpa") lower with
  | Some rest =>
    let parts := split_on dot rest in
    if negb (length parts =? 4)%nat then None
    else
      let! octets := collect parse_u8 (rev parts) in
      Some (Addr4 (of_be (z8 <$> octets)))
  | None =>
    match strip_suffix (bs ".ip6.arpa") lower with
    | Some rest =>
      let! nibbles :=
        collect (fun s => if (length s =? 1)%nat then parse_hex_u8 s else None) (split_on dot rest) in
      if negb (length nibbles =? 32)%nat then None
      else Some (Addr6 (of_be (nibble_bytes nibbles)))
    | None => None
    end
  end.

End WithUnicode.

(** An octet of an address by its index in [addr.octets()]. *)
Definition oct (o : list u8) (i : nat) : Z := u8z (default Byte.x00 (o !! i)).

Definition private_net (addr : Ipv4Addr) (ban_localhost : bool) : bool :=
  let o := octets4 addr in
  if oct o 0 =? 10 then true
  else if (oct o 0 =? 172) && (Z.land (oct o 1) 0xF0 =? 0x10) then true
  else if (oct o 0 =? 192) && (oct o 1 =? 168) then true
  else if (oct o 0 =? 169) && (oct o 1 =? 254) then true
  else if ban_localhost && (oct o 0 =? 127) then true
  else false.

Definition private_net6 (addr : Ipv6Addr) (ban_localhost : bool) : bool :=
  let b := octets6 addr in
  if Z.land (oct b 0) 0xFE =? 0xFC then true
  else if (oct b 0 =? 0xFE) && (Z.land (oct b 1) 0xC0 =? 0x80) then true
  else if ban_localhost && (addr =? 1) then true
  else false.

Definition ipv4_ptr_name (addr : Ipv4Addr) : str :=
  let o := octets4 addr in
  fmt_u (oct o 3) ++ [dot] ++ fmt_u (oct o 2) ++ [dot] ++ fmt_u (oct o 1) ++ [dot]
    ++ fmt_u (oct o 0) ++ bs ".in-addr.arpa".

Definition ipv6_ptr_name (addr : Ipv6Addr) : str :=
  let nibbles := concat ((fun b =>
    [hex_char (Z.land (u8z b) 0x0F); dot; hex_char (Z.land (Z.shiftr (u8z b) 4) 0x0F); dot])
      <$> rev (octets6 addr)) in
  nibbles ++ bs "ip6.arpa".

(** ** Lemmas *)

Lemma strip_suffix_app s t : strip_suffix t (s ++ t) = Some s.
Proof.
  unfold strip_suffix. rewrite length_app.
  replace (length s + length t - length t)%nat with (length s) by lia.
  rewrite drop_app_length, take_app_length, bool_decide_true by done.
  by rewrite (proj2 (Nat.leb_le _ _)) by lia.
Qed.

Lemma strip_suffix_inv t s p : strip_suffix t s = Some p -> s = p ++ t.
Proof.
  unfold strip_suffix. destruct (_ && _) eqn:E; [|done]. intros [= <-].
  apply andb_true_iff in E as [_ E]. apply bool_decide_eq_true in E. rewrite <- E at 2.
  rewrite <- (take_drop (length s - length t) s) at 1. by rewrite E.
Qed.

(** Two texts whose last bytes differ have no common suffix. *)
Lemma strip_suffix_other s t t' :
  (length t <=? length t')%nat = true ->
  bool_decide (drop (length t' - length t) t' = t) = false -> strip_suffix t' (s ++ t) = None.
Proof.
  intros Hl%Nat.leb_le Hne%bool_decide_eq_false. destruct (strip_suffix t' (s ++ t)) as [p|] eqn:E; [|done].
  apply strip_suffix_inv in E. rewrite <- (take_drop (length t' - length t) t'), app_assoc in E.
  apply app_inj_2 in E as [_ E]; [by rewrite <- E in Hne|]. rewrite length_drop. lia.
Qed.

(** Octets in decimal: no dots, ASCII, lower case, read back as written. *)
Definition octet_text_ok (b : u8) : bool :=
  let s := fmt_u (u8z b) in
  bool_decide (parse_u8 s = Some (u8z b)) && bool_decide (not (dot ∈ s))
  && bool_decide (is_ascii s) && bool_decide (to_ascii_lowercase s = s).

Lemma octet_text b :
  parse_u8 (fmt_u (u8z b)) = Some (u8z b) /\ dot ∉ fmt_u (u8z b) /\
  is_ascii (fmt_u (u8z b)) /\ to_ascii_lowercase (fmt_u (u8z b)) = fmt_u (u8z b).
Proof.
  assert (octet_text_ok b = true) as H by (apply byte_forall; by vm_compute).
  unfold octet_text_ok in H. rewrite !andb_true_iff, !bool_decide_eq_true in H. tauto.
Qed.

(** A text that is ASCII and lower case is its own [to_lowercase]. *)
Definition lower_ascii (s : str) : Prop := is_ascii s /\ to_ascii_lowercase s = s.

Lemma lower_ascii_app a b : lower_ascii a -> lower_ascii b -> lower_ascii (a ++ b).
Proof.
  intros [? Ha] [? Hb]. split; [by apply Forall_app|]. by rewrite lower_app, Ha, Hb.
Qed.

Lemma lower_ascii_eval s :
  bool_decide (is_ascii s) && bool_decide (to_ascii_lowercase s = s) = true -> lower_ascii s.
Proof. by rewrite andb_true_iff, !bool_decide_eq_true. Qed.

Lemma lower_ascii_lowercase `{UnicodeTables} s : lower_ascii s -> to_lowercase s = s.
Proof. intros [Ha Hl]. by rewrite to_lowercase_ascii. Qed.

Lemma octets4_cases a : exists b0 b1 b2 b3, octets4 a = [b0; b1; b2; b3].
Proof. unfold octets4. simpl. eauto. Qed.

Lemma ipv4_ptr_name_parts a b0 b1 b2 b3 :
  octets4 a = [b0; b1; b2; b3] ->
  ipv4_ptr_name a =
    join [dot] [fmt_u (u8z b3); fmt_u (u8z b2); fmt_u (u8z b1); fmt_u (u8z b0)] ++ bs ".in-addr.arpa".
Proof.
  intros E. unfold ipv4_ptr_name. rewrite E. unfold oct.
  cbn [lookup list_lookup default from_option]. rewrite !join_cons by done. cbn [join].
  rewrite <- !app_assoc. done.
Qed.

Lemma lower_octet o i : lower_ascii (fmt_u (oct o i)).
Proof. unfold oct. by destruct (octet_text (default Byte.x00 (o !! i))) as (_ & _ & ? & ?). Qed.

Lemma ptr4_lower a : lower_ascii (ipv4_ptr_name a).
Proof.
  unfold ipv4_ptr_name. repeat apply lower_ascii_app; try apply lower_octet;
    apply lower_ascii_eval; by vm_compute.
Qed.

Lemma strip_dot_none s t :
  bool_decide (drop (length t - 1) t = [dot]) = false -> (1 <=? length t)%nat = true ->
  strip_suffix [dot] (s ++ t) = None.
Proof.
  intros H%bool_decide_eq_false Hl%Nat.leb_le. destruct (strip_suffix [dot] (s ++ t)) as [p|] eqn:E; [|done].
  apply strip_suffix_inv in E. rewrite <- (take_drop (length t - 1) t), app_assoc in E.
  apply app_inj_2 in E as [_ E]; [done|]. rewrite length_drop. simpl. lia.
Qed.

(** Nibbles. *)
Definition nibble_text_ok (b : u8) : bool :=
  let lo := hex_char (Z.land (u8z b) 0x0F) in
  let hi := hex_char (Z.land (Z.shiftr (u8z b) 4) 0x0F) in
  bool_decide (parse_hex_u8 [lo] = Some (Z.land (u8z b) 0x0F))
  && bool_decide (parse_hex_u8 [hi] = Some (Z.land (Z.shiftr (u8z b) 4) 0x0F))
  && bool_decide (dot <> lo) && bool_decide (dot <> hi)
  && bool_decide (is_ascii [lo; dot; hi; dot])
  && bool_decide (to_ascii_lowercase [lo; dot; hi; dot] = [lo; dot; hi; dot])
  && bool_decide (z8 (Z.lor (Z.shiftl (Z.land (Z.shiftr (u8z b) 4) 0x0F) 4) (Z.land (u8z b) 0x0F)) = b).

Lemma nibble_text b :
  let lo := Z.land (u8z b) 0x0F in
  let hi := Z.land (Z.shiftr (u8z b) 4) 0x0F in
  parse_hex_u8 [hex_char lo] = Some lo /\ parse_hex_u8 [hex_char hi] = Some hi /\
  dot <> hex_char lo /\ dot <> hex_char hi /\
  lower_ascii [hex_char lo; dot; hex_char hi; dot] /\
  z8 (Z.lor (Z.shiftl hi 4) lo) = b.
Proof.
  assert (nibble_text_ok b = true) as H by (apply byte_forall; by vm_compute).
  unfold nibble_text_ok in H. rewrite !andb_true_iff, !bool_decide_eq_true in H.
  unfold lower_ascii. tauto.
Qed.

(** The nibbles of an address, least significant first, and their texts. *)
Definition nibbles (o : list u8) : list Z :=
  concat ((fun b => [Z.land (u8z b) 0x0F; Z.land (Z.shiftr (u8z b) 4) 0x0F]) <$> rev o).

Lemma nibbles_texts bs' :
  bs' <> [] ->
  concat ((fun b =>
    [hex_char (Z.land (u8z b) 0x0F); dot; hex_char (Z.land (Z.shiftr (u8z b) 4) 0x0F); dot]) <$> bs')
  = join [dot] ((fun n => [hex_char n]) <$>
      concat ((fun b => [Z.land (u8z b) 0x0F; Z.land (Z.shiftr (u8z b) 4) 0x0F]) <$> bs')) ++ [dot].
Proof.
  induction bs' as [|b bs' IH]; intros Hne; [done|]. destruct bs' as [|b' bs']; [done|].
  rewrite !(fmap_cons _ b). cbn [concat]. rewrite IH by done. done.
Qed.

Lemma nibbles_collect bs' :
  collect (fun s => if (length s =? 1)%nat then parse_hex_u8 s else None)
    ((fun n => [hex_char n]) <$>
      concat ((fun b => [Z.land (u8z b) 0x0F; Z.land (Z.shiftr (u8z b) 4) 0x0F]) <$> bs'))
  = Some (concat ((fun b => [Z.land (u8z b) 0x0F; Z.land (Z.shiftr (u8z b) 4) 0x0F]) <$> bs')).
Proof.
  apply mapM_Some. rewrite Forall2_fmap_l. apply Forall_Forall2_diag.
  apply Forall_concat. rewrite Forall_fmap. apply Forall_true. intros b. simpl.
  destruct (nibble_text b) as (? & ? & _). by repeat constructor.
Qed.

Lemma nibble_bytes_nibbles o : length o = 16%nat -> nibble_bytes (nibbles o) = o.
Proof.
  intros Hl. do 16 (destruct o as [|? o]; [done|]). destruct o; [|done]. clear Hl.
  unfold nibble_bytes, nibbles, nib. cbn [rev app fmap list_fmap concat seq].
  cbn [Nat.mul Nat.add Nat.sub lookup list_lookup default from_option id].
  assert (forall b, z8 (Z.lor (Z.shiftl (Z.land (Z.shiftr (u8z b) 4) 0x0F) 4)
    (Z.land (u8z b) 0x0F)) = b) as N by (intros b'; apply nibble_text).
  by rewrite !N.
Qed.

Lemma ptr6_text a :
  ipv6_ptr_name a = join [dot] ((fun n => [hex_char n]) <$> nibbles (octets6 a)) ++ bs ".ip6.arpa".
Proof.
  unfold ipv6_ptr_name, nibbles. rewrite nibbles_texts.
  - by rewrite <- app_assoc.
  - intros E%(f_equal length). rewrite length_rev, length_octets6 in E. done.
Qed.

Lemma ptr6_lower a : lower_ascii (ipv6_ptr_name a).
Proof.
  unfold ipv6_ptr_name. apply lower_ascii_app; [|apply lower_ascii_eval; by vm_compute].
  induction (rev (octets6 a)) as [|b l IH]; [apply lower_ascii_eval; by vm_compute|].
  rewrite fmap_cons. cbn [concat]. apply lower_ascii_app; [apply nibble_text|done].
Qed.

Lemma nibbles_no_dot o : Forall (fun p => dot ∉ p) ((fun n => [hex_char n]) <$> nibbles o).
Proof.
  rewrite Forall_fmap. unfold nibbles. apply Forall_concat. rewrite Forall_fmap.
  apply Forall_true. intros b. destruct (nibble_text b) as (_ & _ & ? & ? & _).
  repeat constructor; simpl; set_solver.
Qed.

Lemma in_arpa_ptr4 `{UnicodeTables} a :
  ip4_ok a -> in_arpa_name_2_addr (ipv4_ptr_name a) = Some (Addr4 a).
Proof.
  intros Ha. unfold in_arpa_name_2_addr. rewrite lower_ascii_lowercase by apply ptr4_lower.
  destruct (octets4_cases a) as (b0 & b1 & b2 & b3 & E). rewrite (ipv4_ptr_name_parts _ _ _ _ _ E).
  rewrite strip_dot_none by (by vm_compute). cbn [default from_option id].
  rewrite strip_suffix_app, split_join; [|done|repeat constructor; apply octet_text].
  cbn [length Nat.eqb negb rev app]. unfold collect. cbn [mapM].
  rewrite !(proj1 (octet_text _)). cbn [mbind option_bind mret option_ret].
  rewrite !fmap_cons, fmap_nil, !z8_u8z, <- E. by rewrite octets4_of.
Qed.

Lemma in_arpa_ptr6 `{UnicodeTables} a :
  ip6_ok a -> in_arpa_name_2_addr (ipv6_ptr_name a) = Some (Addr6 a).
Proof.
  intros Ha. unfold in_arpa_name_2_addr. rewrite lower_ascii_lowercase by apply ptr6_lower.
  rewrite ptr6_text.
  rewrite strip_dot_none by (by vm_compute). cbn [default from_option id].
  rewrite strip_suffix_other by (by vm_compute).
  rewrite strip_suffix_app, split_join; [| |apply nibbles_no_dot].
  - unfold nibbles. rewrite nibbles_collect. fold (nibbles (octets6 a)).
    assert (length (nibbles (octets6 a)) = 32%nat) as -> by done.
    cbn [Nat.eqb negb]. by rewrite nibble_bytes_nibbles, octets6_of by done.
  - done.
Qed.

(** Membership in an IPv4 network [net/len], by the shared high bits. *)
Definition in_cidr4 (net : Ipv4Addr) (len : Z) (a : Ipv4Addr) : Prop :=
  a / 2 ^ (32 - len) = net / 2 ^ (32 - len).
Definition in_cidr6 (net : Ipv6Addr) (len : Z) (a : Ipv6Addr) : Prop :=
  a / 2 ^ (128 - len) = net / 2 ^ (128 - len).

(** The leading octets of an address. *)
Lemma oct_to_be n a i :
  (i < n)%nat -> oct (to_be n a) i = (a / 256 ^ (Z.of_nat (n - 1 - i))) mod 256.
Proof.
  revert a i. induction n as [|n IH]; intros a i Hi; [lia|]. simpl. unfold oct.
  destruct (decide (i = n)) as [->|].
  - rewrite <- (length_to_be n (a / 256)) at 1. rewrite list_lookup_middle by done. simpl.
    rewrite u8z_z8. replace (n - 0 - n)%nat with 0%nat by lia. by rewrite Z.div_1_r.
  - rewrite lookup_app_l by (rewrite length_to_be; lia).
    fold (oct (to_be n (a / 256)) i). rewrite IH by lia.
    rewrite Z.div_div by lia. f_equal. f_equal. rewrite <- Z.pow_succ_r by lia. f_equal. lia.
Qed.

Lemma land_mask_eq b : (Z.land (u8z b) 0xF0 =? 0x10) = (16 <=? u8z b) && (u8z b <? 32).
Proof. by byte_cases b. Qed.
Lemma land_fe_eq b : (Z.land (u8z b) 0xFE =? 0xFC) = (252 <=? u8z b) && (u8z b <? 254).
Proof. by byte_cases b. Qed.
Lemma land_c0_eq b : (Z.land (u8z b) 0xC0 =? 0x80) = (128 <=? u8z b) && (u8z b <? 192).
Proof. by byte_cases b. Qed.

(** A coarser quotient through a finer one. *)
Lemma div_coarse a p k n : n = p * k -> 0 < p -> 0 < k -> a / n = a / p / k.
Proof. intros -> ? ?. by rewrite Z.div_div by lia. Qed.

(** Two octets as quotient and remainder. *)
Lemma two_octets q : 0 <= q < 65536 ->
  exists x y, q = x * 256 + y /\ 0 <= x < 256 /\ 0 <= y < 256 /\
    (x * 256 + y) / 256 = x /\ (x * 256 + y) mod 256 = y.
Proof.
  intros H. exists (q / 256), (q mod 256).
  pose proof (Z.div_mod q 256 ltac:(lia)). pose proof (Z.mod_pos_bound q 256 ltac:(lia)).
  assert (q / 256 * 256 + q mod 256 = q) as E by lia. rewrite !E.
  repeat split; lia.
Qed.

(** Evaluate the quotients of constants in the goal. *)
Ltac zdiv_const := repeat match goal with
  | |- context [Z.div (Zpos ?a) (Zpos ?b)] =>
    let v := eval vm_compute in (Z.div (Zpos a) (Zpos b)) in
    change (Z.div (Zpos a) (Zpos b)) with v
  end.

(** ** Properties *)

(** The reverse names printed for PTR records read back as the address they
    were printed from, for every IPv4 and every IPv6 address. *)
Theorem ptr_name_roundtrip `{UnicodeTables} a4 a6 :
  ip4_ok a4 -> ip6_ok a6 ->
  in_arpa_name_2_addr (ipv4_ptr_name a4) = Some (Addr4 a4) /\
  in_arpa_name_2_addr (ipv6_ptr_name a6) = Some (Addr6 a6).
Proof. intros. split; [by apply in_arpa_ptr4 | by apply in_arpa_ptr6]. Qed.

Lemma ptr_name_roundtrip_witness :
  @in_arpa_name_2_addr ascii_tables (bs "1.1.168.192.in-addr.arpa") = Some (Addr4 3232235777) /\
  @in_arpa_name_2_addr ascii_tables (ipv6_ptr_name 1) = Some (Addr6 1).
Proof.
  change (bs "1.1.168.192.in-addr.arpa") with (ipv4_ptr_name 3232235777).
  apply (@ptr_name_roundtrip ascii_tables 3232235777 1); vm_compute; intuition discriminate.
Defined.

(** The rebind check recognises exactly the documented networks: RFC 1918,
    IPv4 link-local and (when asked) loopback; unique-local and link-local
    IPv6 and (when asked) [::1]. *)
Theorem private_net_spec a4 a6 ban :
  ip4_ok a4 -> ip6_ok a6 ->
  (private_net a4 ban = true <->
     in_cidr4 167772160 8 a4 \/ in_cidr4 2886729728 12 a4 \/ in_cidr4 3232235520 16 a4 \/
     in_cidr4 2851995648 16 a4 \/ (ban = true /\ in_cidr4 2130706432 8 a4)) /\
  (private_net6 a6 ban = true <->
     in_cidr6 (252 * 2 ^ 120) 7 a6 \/ in_cidr6 (254 * 2 ^ 120 + 128 * 2 ^ 112) 10 a6 \/
     (ban = true /\ a6 = 1)).
Proof.
  intros H4 H6. unfold ip4_ok, ip6_ok in *. unfold in_cidr4, in_cidr6. split.
  - unfold private_net, octets4.
    assert ((Z.land (oct (to_be 4 a4) 1) 0xF0 =? 0x10) =
      (16 <=? oct (to_be 4 a4) 1) && (oct (to_be 4 a4) 1 <? 32)) as -> by apply land_mask_eq.
    rewrite !oct_to_be by lia. cbn [Nat.sub Z.of_nat Pos.of_succ_nat Pos.succ]. zpow.
    rewrite (div_coarse a4 65536 256 16777216), (div_coarse a4 65536 16 1048576) by done.
    assert (0 <= a4 / 65536 < 65536) by (split; [apply Z.div_pos; lia|apply Z.div_lt_upper_bound; lia]).
    set (q := a4 / 65536) in *. clearbody q. clear -H. zdiv_const.
    destruct (two_octets q H) as (x & y & -> & Hx & Hy & E1 & E2). rewrite E1, E2, (Z.mod_small x) by lia.
    rewrite <- (Z.div_unique (x * 256 + y) 16 (x * 16 + y / 16) (y mod 16)) by dlia.
    repeat case_bool; destruct ban; simpl in *; intuition (try discriminate; try dlia).
  - unfold private_net6, octets6.
    assert ((Z.land (oct (to_be 16 a6) 0) 0xFE =? 0xFC) =
      (252 <=? oct (to_be 16 a6) 0) && (oct (to_be 16 a6) 0 <? 254)) as -> by apply land_fe_eq.
    assert ((Z.land (oct (to_be 16 a6) 1) 0xC0 =? 0x80) =
      (128 <=? oct (to_be 16 a6) 1) && (oct (to_be 16 a6) 1 <? 192)) as -> by apply land_c0_eq.
    rewrite !oct_to_be by lia. cbn [Nat.sub Z.of_nat Pos.of_succ_nat Pos.succ].
    zpow. set (p := 5192296858534827628530496329220096) in *.
    rewrite (div_coarse a6 p 256 1329227995784915872903807060280344576),
      (div_coarse a6 p 512 2658455991569831745807614120560689152),
      (div_coarse a6 p 64 332306998946228968225951765070086144) by done.
    assert (0 <= a6 / p < 65536) by (split; [apply Z.div_pos; lia|apply Z.div_lt_upper_bound; lia]).
    set (q := a6 / p) in *. clearbody q. subst p. clear H6 H4.
    assert (a6 = 1 <-> (a6 =? 1) = true) as -> by lia.
    change (252 * 1329227995784915872903807060280344576) with 334965454937798799971759379190646833152.
    change (254 * 1329227995784915872903807060280344576 + 128 * 5192296858534827628530496329220096)
      with 338288524927261089654018896841347694592. zdiv_const.
    destruct (two_octets q H) as (x & y & -> & Hx & Hy & E1 & E2). rewrite E1, E2, (Z.mod_small x) by lia.
    rewrite <- (Z.div_unique (x * 256 + y) 64 (x * 4 + y / 64) (y mod 64)) by dlia.
    rewrite <- (Z.div_unique (x * 256 + y) 512 (x / 2) (x mod 2 * 256 + y)) by dlia.
    repeat case_bool; destruct ban; simpl in *; intuition (try discriminate; try dlia).
Qed.

Lemma private_net_spec_witness :
  private_net 3232235777 true = true /\ in_cidr4 3232235520 16 3232235777.
Proof.
  assert (ip4_ok 3232235777) as H4 by (vm_compute; intuition discriminate).
  assert (ip6_ok 1) as H6 by (vm_compute; intuition discriminate).
  split; [|by vm_compute]. apply (proj1 (private_net_spec 3232235777 1 true H4 H6)). right. right. left.
  by vm_compute.
Defined.
