(* ===== verification/Lru.v ===== *)
(** * The bounded LRU map the cache is built on

    [lru::LruCache] is a third-party crate: the class [Lru] names the
    operations src/src/cache.rs calls, and its laws are the crate's documented
    behaviour, told through [lru_iter], the entries from most to least recently
    used. [list_lru] is an instance that keeps exactly that list. *)

From Stdlib Require Import ZArith Lia.
From stdpp Require Import base numbers list option sets.
From S2P Require Import Prelude.

(** ** Association lists in recency order *)

Section Assoc.
Context {K V : Type} `{EqDecision K}.

Fixpoint assoc (k : K) (l : list (K * V)) : option V :=
  match l with
  | [] => None
  | (k', v) :: l' => if decide (k' = k) then Some v else assoc k l'
  end.

Definition remove_key (k : K) (l : list (K * V)) : list (K * V) :=
  filter (fun p => p.1 <> k) l.

(** A full map drops its least recently used entry to take a new key. *)
Definition put_list (cap : nat) (k : K) (v : V) (l : list (K * V)) : list (K * V) :=
  match assoc k l with
  | Some _ => (k, v) :: remove_key k l
  | None => (k, v) :: (if (length l <? cap)%nat then l else take (cap - 1) l)
  end.

Definition touch_list (k : K) (l : list (K * V)) : list (K * V) :=
  match assoc k l with
  | Some v => (k, v) :: remove_key k l
  | None => l
  end.

Definition modify_list (k : K) (f : V -> V) (l : list (K * V)) : list (K * V) :=
  (fun p => if decide (p.1 = k) then (p.1, f p.2) else p) <$> l.

Definition keys (l : list (K * V)) : list K := fst <$> l.

Lemma assoc_None k l : assoc k l = None <-> k ∉ keys l.
Proof.
  induction l as [|[k' v] l IH]; simpl; [split; [set_solver|done]|].
  case_decide; subst; set_solver.
Qed.

Lemma assoc_Some_elem k v l : assoc k l = Some v -> (k, v) ∈ l.
Proof.
  induction l as [|[k' v'] l IH]; simpl; [done|].
  case_decide; [intros [= ->]; subst; set_solver|set_solver].
Qed.

Lemma elem_assoc k v l : NoDup (keys l) -> (k, v) ∈ l -> assoc k l = Some v.
Proof.
  induction l as [|[k' v'] l IH]; [set_solver|]. simpl. intros [Hn Hd]%NoDup_cons Hin.
  case_decide as E.
  - subst. apply elem_of_cons in Hin as [[= ->]|Hin]; [done|].
    destruct Hn. apply list_elem_of_fmap. by exists (k, v).
  - apply IH; [done|]. apply elem_of_cons in Hin as [[= ? ?]|]; [congruence|done].
Qed.

Lemma assoc_elem k v l : NoDup (keys l) -> assoc k l = Some v <-> (k, v) ∈ l.
Proof. split; [apply assoc_Some_elem | by apply elem_assoc]. Qed.

Lemma keys_remove k l x : x ∈ keys (remove_key k l) <-> x ∈ keys l /\ x <> k.
Proof.
  unfold keys, remove_key. rewrite !list_elem_of_fmap. split.
  - intros [p [-> [Hk Hp]%list_elem_of_filter]]. eauto.
  - intros [[p [-> Hp]] Hk]. exists p. split; [done|]. by apply list_elem_of_filter.
Qed.

Lemma NoDup_keys_filter (P : K * V -> Prop) `{!forall p, Decision (P p)} l :
  NoDup (keys l) -> NoDup (keys (filter P l)).
Proof.
  unfold keys. induction l as [|p l IH]; [done|]. rewrite fmap_cons, NoDup_cons. intros [Hn Hd].
  rewrite filter_cons. case_decide; [|by apply IH]. rewrite fmap_cons, NoDup_cons.
  split; [|by apply IH]. intros Hin. apply Hn. rewrite list_elem_of_fmap in *.
  destruct Hin as [q [-> [_ Hq]%list_elem_of_filter]]. eauto.
Qed.

Lemma assoc_remove_eq k l : assoc k (remove_key k l) = None.
Proof. apply assoc_None. rewrite keys_remove. tauto. Qed.

Lemma assoc_remove_ne k k' l : k <> k' -> assoc k' (remove_key k l) = assoc k' l.
Proof.
  intros Hne. induction l as [|[k0 v] l IH]; [done|]. unfold remove_key in *.
  rewrite filter_cons. simpl. case_decide as E; simpl; [by rewrite IH|].
  subst. by rewrite decide_False.
Qed.

Lemma filter_other k l : k ∉ keys l -> filter (fun p => p.1 <> k) l = l.
Proof.
  induction l as [|p l IH]; [done|]. unfold keys in *. rewrite fmap_cons, not_elem_of_cons.
  intros [? ?]. rewrite filter_cons_True by done. by rewrite IH.
Qed.

Lemma length_remove_Some k v l : NoDup (keys l) -> assoc k l = Some v ->
  length l = S (length (remove_key k l)).
Proof.
  induction l as [|[k' v'] l IH]; [done|]. unfold remove_key in *. simpl.
  intros [Hn Hd]%NoDup_cons. rewrite filter_cons. simpl. case_decide as E; intros H.
  - subst. rewrite decide_False by tauto. f_equal. f_equal. symmetry. by apply filter_other.
  - rewrite decide_True by done. simpl. f_equal. by apply IH.
Qed.

Lemma NoDup_put cap k v l : NoDup (keys l) -> NoDup (keys (put_list cap k v l)).
Proof.
  intros Hd. unfold put_list. destruct (assoc k l) eqn:E; simpl; apply NoDup_cons.
  - split; [rewrite keys_remove; tauto|by apply NoDup_keys_filter].
  - apply assoc_None in E. case_match; [done|]. unfold keys in *. rewrite fmap_take.
    split; [intros Hin; apply E; apply list_elem_of_lookup in Hin as [i Hi]; rewrite lookup_take_Some in Hi; apply list_elem_of_lookup; naive_solver|].
    rewrite <- (take_drop (cap - 1) (fst <$> l)) in Hd. by apply NoDup_app in Hd as [? _].
Qed.

Lemma NoDup_touch k l : NoDup (keys l) -> NoDup (keys (touch_list k l)).
Proof.
  intros Hd. unfold touch_list. destruct (assoc k l); simpl; [|done]. apply NoDup_cons.
  split; [rewrite keys_remove; tauto|by apply NoDup_keys_filter].
Qed.

Lemma keys_modify k f l : keys (modify_list k f l) = keys l.
Proof.
  unfold keys, modify_list. rewrite <- list_fmap_compose. apply list_fmap_ext.
  intros i [k' v] _. simpl. by case_decide.
Qed.

Lemma assoc_put_eq cap k v l : assoc k (put_list cap k v l) = Some v.
Proof. unfold put_list. destruct (assoc k l); simpl; by rewrite decide_True. Qed.

Lemma assoc_app k l l' : assoc k (l ++ l') = match assoc k l with Some v => Some v | None => assoc k l' end.
Proof. induction l as [|[k0 v] l IH]; simpl; [done|]. by case_decide. Qed.

(** Other keys keep their entry or are the evicted one. *)
Lemma assoc_put_ne cap k k' v l : k <> k' ->
  assoc k' (put_list cap k v l) = assoc k' l \/
  (assoc k' (put_list cap k v l) = None /\ assoc k l = None /\ (cap <= length l)%nat).
Proof.
  intros Hne. unfold put_list. destruct (assoc k l) eqn:E; simpl; rewrite decide_False by done.
  - left. by apply assoc_remove_ne.
  - destruct (length l <? cap)%nat eqn:Hl; [by left|]. apply Nat.ltb_ge in Hl.
    rewrite <- (take_drop (cap - 1) l) at 2. rewrite assoc_app.
    destruct (assoc k' (take (cap - 1) l)); [by left|right; split_and!; done].
Qed.

(** What a put makes of every key: the new value under its own, and at most one
    victim, the least recently used key of a full map. *)
Lemma put_victim cap k v l : NoDup (keys l) -> (1 <= cap)%nat -> (length l <= cap)%nat ->
  exists victim,
    (forall x, assoc x (put_list cap k v l) =
       if decide (k = x) then Some v else if decide (victim = Some x) then None else assoc x l) /\
    match victim with
    | None => is_Some (assoc k l) \/ (length l < cap)%nat
    | Some y => assoc k l = None /\ length l = cap /\ fst <$> last l = Some y
    end.
Proof.
  intros Hd Hc Hl. unfold put_list. destruct (assoc k l) as [v0|] eqn:E.
  - exists None. split; [|eauto]. intros x. cbn. case_decide; [done|]. by rewrite assoc_remove_ne by done.
  - destruct (length l <? cap)%nat eqn:F; [apply Nat.ltb_lt in F|apply Nat.ltb_ge in F].
    + exists None. split; [|eauto]. intros x. cbn. by case_decide.
    + destruct l as [|[y r] l' _] using rev_ind; [cbn in F; lia|]. rewrite length_app in F, Hl. cbn in F, Hl.
      assert (take (cap - 1) (l' ++ [(y, r)]) = l') as -> by (apply take_app_length'; lia).
      exists (Some y). rewrite last_snoc, length_app. cbn. split; [|split_and!; [done|lia|done]].
      unfold keys in Hd. rewrite fmap_app, NoDup_app in Hd. destruct Hd as (_ & Hd & _).
      intros x. case_decide; [done|]. rewrite assoc_app. case_decide as Hy.
      * injection Hy as <-. apply assoc_None. intros Hin. apply (Hd y); [done|]. cbn. set_solver.
      * destruct (assoc x l'); [done|]. cbn. by rewrite decide_False by congruence.
Qed.

Lemma assoc_touch k k' l : assoc k' (touch_list k l) = assoc k' l.
Proof.
  unfold touch_list. destruct (assoc k l) eqn:E; [|done]. simpl.
  case_decide; [congruence|]. by apply assoc_remove_ne.
Qed.

Lemma assoc_modify k k' f l :
  assoc k' (modify_list k f l) = (if decide (k = k') then f else Datatypes.id) <$> assoc k' l.
Proof.
  unfold modify_list. induction l as [|[k0 v] l IH]; [done|]. rewrite fmap_cons. cbn [fst snd].
  destruct (decide (k0 = k)) as [->|]; cbn [assoc].
  - destruct (decide (k = k')); [done|]. by rewrite IH.
  - destruct (decide (k0 = k')) as [->|]; [by rewrite decide_False by done|]. by rewrite IH.
Qed.

Lemma length_put cap k v l :
  NoDup (keys l) -> (1 <= cap)%nat -> (length l <= cap)%nat -> (length (put_list cap k v l) <= cap)%nat.
Proof.
  intros Hd Hc Hl. unfold put_list. destruct (assoc k l) eqn:E; simpl.
  - pose proof (length_remove_Some _ _ _ Hd E). lia.
  - destruct (length l <? cap)%nat eqn:F; [apply Nat.ltb_lt in F; lia|]. rewrite length_take. lia.
Qed.

Lemma length_touch k l : NoDup (keys l) -> length (touch_list k l) = length l.
Proof.
  intros Hd. unfold touch_list. destruct (assoc k l) eqn:E; [|done]. simpl.
  by rewrite (length_remove_Some _ _ _ Hd E).
Qed.

Lemma elem_put cap k v l p : p ∈ put_list cap k v l -> p = (k, v) \/ p ∈ l.
Proof.
  unfold put_list, remove_key. destruct (assoc k l); rewrite elem_of_cons.
  - rewrite list_elem_of_filter. tauto.
  - case_match; [done|]. intros [?|Hin]; [tauto|]. right.
    rewrite <- (take_drop (cap - 1) l). set_solver.
Qed.

Lemma elem_touch k l p : p ∈ touch_list k l -> p ∈ l.
Proof.
  unfold touch_list, remove_key. destruct (assoc k l) eqn:E; [|done].
  rewrite elem_of_cons, list_elem_of_filter. intros [->|?]; [|tauto]. by apply assoc_Some_elem.
Qed.

End Assoc.

(** ** The interface *)

Class Lru (K V : Type) `{EqDecision K} : Type := {
  lru : Type;
  lru_new : nat -> lru;
  lru_cap : lru -> nat;
  lru_iter : lru -> list (K * V);
  lru_len : lru -> nat;
  lru_put : K -> V -> lru -> lru;
  lru_peek : K -> lru -> option V;
  lru_get : K -> lru -> option V * lru;
  (** [if let Some(v) = c.peek_mut(k) { *v = f(v) }] *)
  lru_modify : K -> (V -> V) -> lru -> lru;
  lru_pop : K -> lru -> lru;
  lru_clear : lru -> lru;
  lru_nodup : forall c, NoDup (keys (lru_iter c));
  lru_len_iter : forall c, lru_len c = length (lru_iter c);
  lru_iter_new : forall n, lru_iter (lru_new n) = [];
  lru_cap_new : forall n, lru_cap (lru_new n) = n;
  lru_iter_put : forall k v c, lru_iter (lru_put k v c) = put_list (lru_cap c) k v (lru_iter c);
  lru_cap_put : forall k v c, lru_cap (lru_put k v c) = lru_cap c;
  lru_peek_iter : forall k c, lru_peek k c = assoc k (lru_iter c);
  lru_get_fst : forall k c, fst (lru_get k c) = assoc k (lru_iter c);
  lru_iter_get : forall k c, lru_iter (snd (lru_get k c)) = touch_list k (lru_iter c);
  lru_cap_get : forall k c, lru_cap (snd (lru_get k c)) = lru_cap c;
  lru_iter_modify : forall k f c, lru_iter (lru_modify k f c) = modify_list k f (lru_iter c);
  lru_cap_modify : forall k f c, lru_cap (lru_modify k f c) = lru_cap c;
  lru_iter_pop : forall k c, lru_iter (lru_pop k c) = remove_key k (lru_iter c);
  lru_cap_pop : forall k c, lru_cap (lru_pop k c) = lru_cap c;
  lru_iter_clear : forall c, lru_iter (lru_clear c) = [];
  lru_cap_clear : forall c, lru_cap (lru_clear c) = lru_cap c;
}.

Create Rewrite HintDb lru.
#[export] Hint Rewrite @lru_len_iter @lru_iter_new @lru_cap_new @lru_iter_put @lru_cap_put
  @lru_peek_iter @lru_get_fst @lru_iter_get @lru_cap_get @lru_iter_modify @lru_cap_modify
  @lru_iter_pop @lru_cap_pop @lru_iter_clear @lru_cap_clear : lru.
#[export] Hint Resolve lru_nodup : rust.

(** ** A list that satisfies it *)

Section ListLru.
Context {K V : Type} `{EqDecision K}.

Record list_cache : Type := mkListCache {
  lc_cap : nat;
  lc_items : list (K * V);
  lc_nodup : NoDup (keys lc_items);
}.

Definition lc_new (n : nat) : list_cache := mkListCache n [] NoDup_nil_2.
Definition lc_put (k : K) (v : V) (c : list_cache) : list_cache :=
  mkListCache (lc_cap c) (put_list (lc_cap c) k v (lc_items c)) (NoDup_put _ _ _ _ (lc_nodup c)).
Definition lc_get (k : K) (c : list_cache) : option V * list_cache :=
  (assoc k (lc_items c),
   mkListCache (lc_cap c) (touch_list k (lc_items c)) (NoDup_touch _ _ (lc_nodup c))).
Definition lc_modify (k : K) (f : V -> V) (c : list_cache) : list_cache :=
  mkListCache (lc_cap c) (modify_list k f (lc_items c))
    (eq_ind_r (fun l => NoDup l) (lc_nodup c) (keys_modify k f (lc_items c))).
Definition lc_pop (k : K) (c : list_cache) : list_cache :=
  mkListCache (lc_cap c) (remove_key k (lc_items c)) (NoDup_keys_filter _ _ (lc_nodup c)).
Definition lc_clear (c : list_cache) : list_cache := mkListCache (lc_cap c) [] NoDup_nil_2.

Definition list_lru : Lru K V.
Proof.
  refine {|
  lru := list_cache;
  lru_new := lc_new;
  lru_cap := lc_cap;
  lru_iter := lc_items;
  lru_len := fun c => length (lc_items c);
  lru_put := lc_put;
  lru_peek := fun k c => assoc k (lc_items c);
  lru_get := lc_get;
  lru_modify := lc_modify;
  lru_pop := lc_pop;
  lru_clear := lc_clear;
  |}.
  all: try (intros; reflexivity). intros c. apply lc_nodup.
Defined.

End ListLru.
