(* ===== verification/Metrics.v ===== *)
(** * Metric counters of src/src/metrics/mod.rs

    The global array of atomic counters is an explicit state that the
    operations of other components thread through. *)

From Stdlib Require Import ZArith Lia String.
From stdpp Require Import base numbers list option strings.
From S2P Require Import Prelude.

#[local] Open Scope Z_scope.

Inductive Metric : Type :=
| DnsCacheInserted | DnsCacheLiveFreed | DnsQueriesForwarded | DnsAuthAnswered | DnsLocalAnswered
| DnsStaleAnswered | DnsUnansweredQuery | CryptoHwm | SigFailHwm | WorkHwm
| Bootp | Pxe | Dhcpack | Dhcpdecline | Dhcpdiscover
| Dhcpinform | Dhcpnak | Dhcpoffer | Dhcprelease | Dhcprequest
| Noanswer | LeasesAllocated4 | LeasesPruned4 | LeasesAllocated6 | LeasesPruned6
| TcpConnections | Dhcpleasequery | Dhcpleaseunassigned | Dhcpleaseactive | Dhcpleaseunknown
| MetricMax.

#[global] Instance Metric_eq_dec : EqDecision Metric.
Proof. solve_decision. Defined.

(** Every metric but the sentinel. *)
Definition ALL_METRICS : list Metric :=
  [DnsCacheInserted; DnsCacheLiveFreed; DnsQueriesForwarded; DnsAuthAnswered; DnsLocalAnswered;
   DnsStaleAnswered; DnsUnansweredQuery; CryptoHwm; SigFailHwm; WorkHwm;
   Bootp; Pxe; Dhcpack; Dhcpdecline; Dhcpdiscover;
   Dhcpinform; Dhcpnak; Dhcpoffer; Dhcprelease; Dhcprequest;
   Noanswer; LeasesAllocated4; LeasesPruned4; LeasesAllocated6; LeasesPruned6;
   TcpConnections; Dhcpleasequery; Dhcpleaseunassigned; Dhcpleaseactive; Dhcpleaseunknown].

(** [m as usize]. *)
Definition metric_index (m : Metric) : nat :=
  default 30%nat (fst <$> list_find (fun x => x = m) ALL_METRICS).

(** [COUNTERS]: one [u64] for each metric. *)
Abbreviation Counters := (list Z).
Definition METRIC_COUNT : nat := metric_index MetricMax.
Definition COUNTERS : Counters := replicate METRIC_COUNT 0.

(** [fetch_add] on an atomic [u64] wraps. The sentinel is out of the array's
    range; no caller passes it. *)
Definition inc_metric (m : Metric) (g : Counters) : Counters :=
  match g !! metric_index m with
  | Some v => <[metric_index m := as_u64 (v + 1)]> g
  | None => g
  end.

Definition get_metric (m : Metric) (g : Counters) : option Z := g !! metric_index m.

Definition metric_name (m : Metric) : str :=
  match m with
  | DnsCacheInserted => bs "dns_cache_inserted"
  | DnsCacheLiveFreed => bs "dns_cache_live_freed"
  | DnsQueriesForwarded => bs "dns_queries_forwarded"
  | DnsAuthAnswered => bs "dns_auth_answered"
  | DnsLocalAnswered => bs "dns_local_answered"
  | DnsStaleAnswered => bs "dns_stale_answered"
  | DnsUnansweredQuery => bs "dns_unanswered"
  | CryptoHwm => bs "dnssec_max_crypto_use"
  | SigFailHwm => bs "dnssec_max_sig_fail"
  | WorkHwm => bs "dnssec_max_work"
  | Bootp => bs "bootp"
  | Pxe => bs "pxe"
  | Dhcpack => bs "dhcp_ack"
  | Dhcpdecline => bs "dhcp_decline"
  | Dhcpdiscover => bs "dhcp_discover"
  | Dhcpinform => bs "dhcp_inform"
  | Dhcpnak => bs "dhcp_nak"
  | Dhcpoffer => bs "dhcp_offer"
  | Dhcprelease => bs "dhcp_release"
  | Dhcprequest => bs "dhcp_request"
  | Noanswer => bs "noanswer"
  | LeasesAllocated4 => bs "leases_allocated_4"
  | LeasesPruned4 => bs "leases_pruned_4"
  | LeasesAllocated6 => bs "leases_allocated_6"
  | LeasesPruned6 => bs "leases_pruned_6"
  | TcpConnections => bs "tcp_connections"
  | Dhcpleasequery => bs "dhcp_leasequery"
  | Dhcpleaseunassigned => bs "dhcp_lease_unassigned"
  | Dhcpleaseactive => bs "dhcp_lease_actve"
  | Dhcpleaseunknown => bs "dhcp_lease_unknown"
  | MetricMax => bs "<invalid>"
  end.

(** ** Lemmas *)

Lemma metric_index_lookup m : m <> MetricMax -> ALL_METRICS !! metric_index m = Some m.
Proof. by destruct m. Qed.

Lemma metric_index_inj m m' : metric_index m = metric_index m' -> m = m'.
Proof.
  intros E. destruct (decide (m = MetricMax)) as [->|H], (decide (m' = MetricMax)) as [->|H'];
    [done| by destruct m' | by destruct m |].
  apply metric_index_lookup in H, H'. congruence.
Qed.

Lemma length_inc_metric m g : length (inc_metric m g) = length g.
Proof. unfold inc_metric. case_match; [apply length_insert|done]. Qed.

Lemma get_inc_eq m g :
  get_metric m (inc_metric m g) = (fun v => as_u64 (v + 1)) <$> get_metric m g.
Proof.
  unfold get_metric, inc_metric. destruct (g !! metric_index m) as [v|] eqn:E; [|by rewrite E].
  by rewrite list_lookup_insert_eq by eauto using lookup_lt_Some.
Qed.

Lemma get_inc_ne m m' g : m <> m' -> get_metric m' (inc_metric m g) = get_metric m' g.
Proof.
  intros Hne. unfold get_metric, inc_metric. case_match; [|done].
  rewrite list_lookup_insert_ne; [done|]. intros E%metric_index_inj. done.
Qed.

(** ** Properties *)

(** The enumerated metric list holds every metric but the sentinel exactly
    once, counters have distinct names, and incrementing one counter changes
    that counter only, by one modulo 2^64. *)
Theorem metrics_independent m m' g :
  length g = METRIC_COUNT -> m <> MetricMax ->
  (forall x, x ∈ ALL_METRICS <-> x <> MetricMax) /\ NoDup ALL_METRICS /\
  (metric_name m = metric_name m' -> m = m') /\
  get_metric m (inc_metric m g) = (fun v => as_u64 (v + 1)) <$> get_metric m g /\
  (m <> m' -> get_metric m' (inc_metric m g) = get_metric m' g).
Proof.
  intros Hg Hm. split; [|split; [|split; [|split]]].
  - intros x. split; [intros Hx ->; revert Hx|intros Hx].
    + by apply (bool_decide_eq_false (MetricMax ∈ ALL_METRICS)); vm_compute.
    + apply list_elem_of_lookup. eexists. by apply metric_index_lookup.
  - apply (bool_decide_eq_true (NoDup ALL_METRICS)). by vm_compute.
  - by destruct m, m'.
  - apply get_inc_eq.
  - apply get_inc_ne.
Qed.

Lemma metrics_independent_witness :
  get_metric DnsCacheInserted (inc_metric DnsCacheInserted COUNTERS) = Some 1 /\
  get_metric Pxe (inc_metric DnsCacheInserted COUNTERS) = Some 0.
Proof.
  assert (length COUNTERS = METRIC_COUNT) as Hl by done.
  destruct (metrics_independent DnsCacheInserted Pxe COUNTERS Hl ltac:(done)) as (_ & _ & _ & H1 & H2).
  split; [rewrite H1 | rewrite (H2 ltac:(done))]; by vm_compute.
Defined.
