(* ===== verification/Cache.v ===== *)
(** * The DNS cache of src/src/cache.rs

    Records live in a bounded LRU map keyed by lower-cased name and type bits.
    Every operation of [DnsCache] is a function on a [World]: the cache and
    the process-wide metric counters it increments. An [Instant] is an integer
    count of nanoseconds. *)

From Stdlib Require Import ZArith Lia String.
From stdpp Require Import base numbers list option gmap sets.
From S2P Require Import Prelude Types Metrics Lru.

#[local] Open Scope Z_scope.

Notation Instant := Z (only parsing).

(** [now + Duration::from_secs(s)]. *)
Definition add_secs (now : Instant) (s : Z) : Instant := now + s * 1000000000.

(** ** Data *)

Definition DNSSEC_MIN_TTL : Z := 60.

(** [next_uid]: the counter is an atomic [u32]; [fetch_add] wraps and the loop
    skips [UID_NONE]. Two rounds always suffice. *)
Fixpoint next_uid_loop (fuel : nat) (ctr : Z) : option (Z * Z) :=
  match fuel with
  | O => None
  | S f =>
    let uid := ctr in
    let ctr' := as_u32 (ctr + 1) in
    if negb (uid =? UID_NONE) then Some (uid, ctr') else next_uid_loop f ctr'
  end.
Definition next_uid (ctr : Z) : option (Z * Z) := next_uid_loop 2 ctr.

Definition TYPE_MASK : Z :=
  F_IPV4 ∣∣ F_IPV6 ∣∣ F_CNAME ∣∣ F_NEG ∣∣ F_NXDOMAIN ∣∣ F_REVERSE
  ∣∣ F_DNSKEY ∣∣ F_DS ∣∣ F_RR ∣∣ F_DNSSEC.

Definition type_flags (flags : Z) : Z := Z.land flags TYPE_MASK.

Record CacheKey : Type := mkKeyOf { ck_name : str; ck_flags : Z }.

#[global] Instance CacheKey_eq_dec : EqDecision CacheKey.
Proof. solve_decision. Defined.
#[global] Instance CacheKey_countable : Countable CacheKey.
Proof.
  apply (inj_countable' (fun k => (ck_name k, ck_flags k)) (fun p => mkKeyOf p.1 p.2)).
  by intros [].
Defined.

Record CacheRecord : Type := mkRec {
  cr_name : str;
  cr_flags : Z;
  cr_ttl : Z;
  cr_expires : Instant;
  cr_addr : option AllAddr;
  cr_rdata : option (list u8);
  cr_uid : Z;
}.

Definition with_ttl (r : CacheRecord) (ttl : Z) : CacheRecord :=
  mkRec (cr_name r) (cr_flags r) ttl (cr_expires r) (cr_addr r) (cr_rdata r) (cr_uid r).
Definition with_expires (r : CacheRecord) (e : Instant) : CacheRecord :=
  mkRec (cr_name r) (cr_flags r) (cr_ttl r) e (cr_addr r) (cr_rdata r) (cr_uid r).
Definition with_flags (r : CacheRecord) (f : Z) : CacheRecord :=
  mkRec (cr_name r) f (cr_ttl r) (cr_expires r) (cr_addr r) (cr_rdata r) (cr_uid r).

Record CacheStats : Type := mkStats {
  st_inserts : Z; st_evictions : Z; st_hits : Z; st_misses : Z; st_size : nat }.

Inductive InsertOutcome : Type :=
| Inserted | ZeroTtlDropped | BlockedSameAddr | BlockedConflict | CachingDisabled.
#[global] Instance InsertOutcome_eq_dec : EqDecision InsertOutcome.
Proof. solve_decision. Defined.

Inductive PreparedInsert : Type :=
| New (r : CacheRecord)
| SameAddr (r : CacheRecord).

(** The flag bits of configuration: [/etc/hosts], DHCP leases, options. *)
Definition STATIC : Z := F_HOSTS ∣∣ F_DHCP ∣∣ F_CONFIG.
Definition is_static (r : CacheRecord) : bool := has (cr_flags r) STATIC.

Definition record_is_expired (rec : CacheRecord) (now : Instant) : bool :=
  if has (cr_flags rec) F_IMMORTAL then false else cr_expires rec <=? now.

(** The [while let Some(pos) = rest.find('.')] loop; each round drops at least
    the dot, so the length of the name is enough fuel. *)
Fixpoint non_terminal_loop (fuel : nat) (rest : str) : list str :=
  match fuel with
  | O => []
  | S f =>
    match find_byte dot rest with
    | None => []
    | Some pos =>
      let rest' := drop (S pos) rest in
      (if bool_decide (is_Some (find_byte dot rest')) then [rest'] else [])
      ++ non_terminal_loop f rest'
    end
  end.
Definition non_terminal_names (name : str) : list str := non_terminal_loop (S (length name)) name.

Definition addr_matches (haystack : option AllAddr) (needle : AllAddr) : bool :=
  match haystack, needle with
  | Some (Addr4 a), Addr4 b => a =? b
  | Some (Addr6 a), Addr6 b => a =? b
  | _, _ => false
  end.

(** The conflict test of [prepare_insert]: both addresses, equal. *)
Definition same_addr (existing rec : option AllAddr) : bool :=
  match existing, rec with
  | Some (Addr4 ex), Some (Addr4 r) => ex =? r
  | Some (Addr6 ex), Some (Addr6 r) => ex =? r
  | _, _ => false
  end.

Definition crec_ttl (rec : CacheRecord) (now : Instant) : Z :=
  if has (cr_flags rec) F_IMMORTAL then cr_ttl rec
  else Z.min (Z.max 0 (cr_expires rec - now) / 1000000000) 4294967295.

Section Cache.
Context `{UnicodeTables} {L : Lru CacheKey CacheRecord}.

Record DnsCache : Type := mkCache {
  max_size : nat;
  records : lru;
  min_cache_ttl : Z;
  max_cache_ttl : Z;
  inserts : Z;
  evictions : Z;
  hits : Z;
  misses : Z;
  new_chain : list CacheRecord;
  insert_error : bool;
  source_registry : gmap Z str;
}.

(** The cache with the process-wide metric counters. *)
Record World : Type := mkWorld { cache : DnsCache; metrics : Counters }.

Definition set_records (rs : lru) (c : DnsCache) : DnsCache :=
  mkCache (max_size c) rs (min_cache_ttl c) (max_cache_ttl c) (inserts c) (evictions c)
    (hits c) (misses c) (new_chain c) (insert_error c) (source_registry c).
Definition set_chain (ch : list CacheRecord) (err : bool) (c : DnsCache) : DnsCache :=
  mkCache (max_size c) (records c) (min_cache_ttl c) (max_cache_ttl c) (inserts c) (evictions c)
    (hits c) (misses c) ch err (source_registry c).
Definition set_registry (g : gmap Z str) (c : DnsCache) : DnsCache :=
  mkCache (max_size c) (records c) (min_cache_ttl c) (max_cache_ttl c) (inserts c) (evictions c)
    (hits c) (misses c) (new_chain c) (insert_error c) g.
Definition set_ttl_limits (mn mx : Z) (c : DnsCache) : DnsCache :=
  mkCache (max_size c) (records c) mn mx (inserts c) (evictions c)
    (hits c) (misses c) (new_chain c) (insert_error c) (source_registry c).
(** [self.f += 1] on the [u64] statistics. *)
Definition bump (c : DnsCache) (ins ev hit miss : bool) : DnsCache :=
  let add (b : bool) (x : Z) := if b then as_u64 (x + 1) else x in
  mkCache (max_size c) (records c) (min_cache_ttl c) (max_cache_ttl c)
    (add ins (inserts c)) (add ev (evictions c)) (add hit (hits c)) (add miss (misses c))
    (new_chain c) (insert_error c) (source_registry c).
Definition on_cache (f : DnsCache -> DnsCache) (w : World) : World :=
  mkWorld (f (cache w)) (metrics w).

(** ** Construction *)

Definition new (n : nat) : DnsCache :=
  mkCache n (lru_new (Nat.max n 1)) 0 0 0 0 0 0 [] false ∅.

Definition with_ttl_limits (n : nat) (min_ttl max_ttl : Z) : DnsCache :=
  set_ttl_limits min_ttl max_ttl (new n).

Definition register_record_source (uid : Z) (source : str) (c : DnsCache) : DnsCache :=
  if uid =? UID_NONE then c else set_registry (<[uid := source]> (source_registry c)) c.

Definition record_source (uid : Z) (c : DnsCache) : str :=
  default (bs "<unknown>") (source_registry c !! uid).

(** ** Insertion *)

Definition key_of (rec : CacheRecord) : CacheKey :=
  mkKeyOf (to_lowercase (cr_name rec)) (type_flags (cr_flags rec)).
Definition key_for (name : str) (flags : Z) : CacheKey :=
  mkKeyOf (to_lowercase name) (type_flags flags).

Definition insert (rec : CacheRecord) (w : World) : World :=
  let c := cache w in
  if (max_size c =? 0)%nat then w
  else
    let was_full := (lru_len (records c) =? max_size c)%nat in
    let c1 := set_records (lru_put (key_of rec) rec (records c)) c in
    let g1 := inc_metric DnsCacheInserted (metrics w) in
    mkWorld (bump c1 true was_full false false)
      (if was_full then inc_metric DnsCacheLiveFreed g1 else g1).

(** The TTL bounds [prepare_insert] applies to a DNS answer. *)
Definition clamped_ttl (c : DnsCache) (rec : CacheRecord) : Z :=
  if has (cr_flags rec) (F_DNSKEY ∣∣ F_DS) then
    (if cr_ttl rec <? DNSSEC_MIN_TTL then DNSSEC_MIN_TTL else cr_ttl rec)
  else
    let t1 := if negb (max_cache_ttl c =? 0) && (max_cache_ttl c <? cr_ttl rec)
              then max_cache_ttl c else cr_ttl rec in
    if negb (min_cache_ttl c =? 0) && (t1 <? min_cache_ttl c) then min_cache_ttl c else t1.

(** The conflict check and the capacity check that follow the TTL rules. *)
Definition admit_record (c : DnsCache) (static : bool) (rec : CacheRecord)
  : result PreparedInsert InsertOutcome :=
  let blocked :=
    match lru_peek (key_of rec) (records c) with
    | Some existing =>
      if is_static existing && negb static
      then Some (if same_addr (cr_addr existing) (cr_addr rec)
                 then Ok (SameAddr rec) else Err BlockedConflict)
      else None
    | None => None
    end in
  match blocked with
  | Some r => r
  | None => if (max_size c =? 0)%nat then Err CachingDisabled else Ok (New rec)
  end.

Definition prepare_insert (rec : CacheRecord) (now : Instant) (c : DnsCache)
  : result PreparedInsert InsertOutcome :=
  if is_static rec then admit_record c true rec
  else
    let rec1 := with_ttl rec (clamped_ttl c rec) in
    if (cr_ttl rec1 =? 0) && negb (has (cr_flags rec1) F_IMMORTAL) then Err ZeroTtlDropped
    else admit_record c false (with_expires rec1 (add_secs now (cr_ttl rec1))).

Definition really_insert (rec : CacheRecord) (now : Instant) (w : World) : InsertOutcome * World :=
  match prepare_insert rec now (cache w) with
  | Ok (New r) => (Inserted, insert r w)
  | Ok (SameAddr _) => (BlockedSameAddr, w)
  | Err o => (o, w)
  end.

Definition start_insert (c : DnsCache) : DnsCache := set_chain [] false c.

Definition stage_insert (rec : CacheRecord) (now : Instant) (c : DnsCache)
  : option InsertOutcome * DnsCache :=
  if insert_error c then (None, c)
  else match prepare_insert rec now c with
       | Ok (New r) => (Some Inserted, set_chain (new_chain c ++ [r]) false c)
       | Ok (SameAddr _) => (Some BlockedSameAddr, c)
       | Err o => (Some o, set_chain (new_chain c) true c)
       end.

Definition is_outdated_cname_pointer (rec : CacheRecord) (c : DnsCache) : bool :=
  if negb (has (cr_flags rec) F_CNAME) then false
  else match cr_addr rec with
       | Some (Cname cn) =>
         if is_name_ptr cn then false
         else match target_name cn with
              | None => true
              | Some t =>
                let target_lower := to_lowercase t in
                negb (existsb (fun p : CacheKey * CacheRecord =>
                  bool_decide (ck_name p.1 = target_lower)
                  && negb (has (cr_flags p.2) (F_DNSKEY ∣∣ F_DS))
                  && (cr_uid p.2 =? c_uid cn)) (lru_iter (records c)))
              end
       | _ => false
       end.

(** The commit loop of [end_insert]. *)
Fixpoint commit_loop (staged : list CacheRecord) (n : nat) (w : World) : nat * World :=
  match staged with
  | [] => (n, w)
  | rec :: rest =>
    if is_outdated_cname_pointer rec (cache w) then commit_loop rest n w
    else commit_loop rest (S n) (insert rec w)
  end.

Definition end_insert (w : World) : nat * World :=
  if insert_error (cache w) then (O, on_cache (set_chain [] false) w)
  else
    let staged := new_chain (cache w) in
    commit_loop staged O (on_cache (set_chain [] false) w).

(** ** Expiry *)

(** The keys of the records that satisfy a test, most recent first, and the
    [for k in keys { records.pop(&k) }] loop. *)
Definition keys_where (P : CacheRecord -> bool) (rs : lru) : list CacheKey :=
  fst <$> List.filter (fun p => P p.2) (lru_iter rs).
Definition pop_all (ks : list CacheKey) (rs : lru) : lru :=
  fold_left (fun rs k => lru_pop k rs) ks rs.

(** The same loop when it also counts evictions. *)
Definition evict_all (ks : list CacheKey) (w : World) : World :=
  fold_left (fun w k =>
    mkWorld (bump (set_records (lru_pop k (records (cache w))) (cache w)) false true false false)
      (inc_metric DnsCacheLiveFreed (metrics w))) ks w.

Definition evict_expired (now : Instant) (w : World) : Z * World :=
  let ks := keys_where (fun r => record_is_expired r now) (records (cache w)) in
  (as_u32 (Z.of_nat (length ks)), evict_all ks w).

Definition expire_old (now : Instant) (c : DnsCache) : DnsCache :=
  set_records (pop_all (keys_where (fun r => record_is_expired r now) (records c)) (records c)) c.

(** ** Lookup *)

Definition expired_at (k : CacheKey) (now : Instant) (c : DnsCache) : bool :=
  match lru_peek k (records c) with
  | Some r => record_is_expired r now
  | None => false
  end.

(** [self.records.get(&key)]: the record becomes the most recently used. *)
Definition get (k : CacheKey) (c : DnsCache) : option CacheRecord * DnsCache :=
  let '(o, rs) := lru_get k (records c) in (o, set_records rs c).

Definition lookup_by_name (name : str) (flags : Z) (now : Instant) (c : DnsCache)
  : option CacheRecord * DnsCache :=
  let key := key_for name flags in
  if expired_at key now c then
    (None, bump (set_records (lru_pop key (records c)) c) false false false true)
  else
    let '(o, c1) := get key c in
    match o with
    | Some _ => get key (bump c1 false false true false)
    | None => (None, bump c1 false false false true)
    end.

(** One probe of [lookup_forward]: drop an expired record, stop at a live one. *)
Fixpoint probe_keys (ks : list CacheKey) (now : Instant) (c : DnsCache)
  : option CacheKey * DnsCache :=
  match ks with
  | [] => (None, c)
  | key :: rest =>
    if expired_at key now c
    then probe_keys rest now (set_records (lru_pop key (records c)) c)
    else match lru_peek key (records c) with
         | Some _ => (Some key, c)
         | None => probe_keys rest now c
         end
  end.

Definition lookup_forward (name : str) (flags : Z) (now : Instant) (c : DnsCache)
  : option CacheRecord * DnsCache :=
  let lower := to_lowercase name in
  let type_bits := type_flags flags in
  let positive := mkKeyOf lower type_bits in
  let negative := mkKeyOf lower (type_bits ∣∣ F_NEG) in
  let '(hit, c1) := probe_keys [positive; negative] now c in
  match hit with
  | Some key => get key (bump c1 false false true false)
  | None => (None, bump c1 false false false true)
  end.

Definition lookup_by_addr (addr : AllAddr) (now : Instant) (c : DnsCache)
  : option CacheRecord * DnsCache :=
  let c1 := expire_old now c in
  let found_key :=
    fst <$> List.find (fun p : CacheKey * CacheRecord => addr_matches (cr_addr p.2) addr)
              (lru_iter (records c1)) in
  match found_key with
  | Some k => get k (bump c1 false false true false)
  | None => (None, bump c1 false false false true)
  end.

Definition lookup_negative (name : str) (nxdomain : bool) (now : Instant) (c : DnsCache)
  : option CacheRecord * DnsCache :=
  let flags := if nxdomain then F_NEG ∣∣ F_NXDOMAIN else F_NEG in
  lookup_by_name name flags now c.

Definition is_nxdomain (name : str) (now : Instant) (c : DnsCache) : bool * DnsCache :=
  let '(o, c1) := lookup_negative name true now c in (bool_decide (is_Some o), c1).
Definition is_nodata (name : str) (now : Instant) (c : DnsCache) : bool * DnsCache :=
  let '(o, c1) := lookup_negative name false now c in (bool_decide (is_Some o), c1).

Definition clear (c : DnsCache) : DnsCache := set_records (lru_clear (records c)) c.
Definition len (c : DnsCache) : nat := lru_len (records c).
Definition is_empty (c : DnsCache) : bool := (lru_len (records c) =? 0)%nat.

Definition iter_live (now : Instant) (c : DnsCache) : list CacheRecord :=
  List.filter (fun r => negb (record_is_expired r now)) (snd <$> lru_iter (records c)).
Definition cache_count (now : Instant) (c : DnsCache) : nat :=
  length (List.filter (fun p => negb (record_is_expired p.2 now)) (lru_iter (records c))).

Definition stats (c : DnsCache) : CacheStats :=
  mkStats (inserts c) (evictions c) (hits c) (misses c) (lru_len (records c)).

(** The end of the multi-record lookups: one hit or one miss. *)
Definition count_matches (found : list CacheRecord) (w : World) : list CacheRecord * World :=
  (found, on_cache (fun c => match found with
                             | [] => bump c false false false true
                             | _ => bump c false false true false
                             end) w).

Definition lookup_all_by_name (name : str) (prot_mask : Z) (now : Instant) (w : World)
  : list CacheRecord * World :=
  let name_lc := to_lowercase name in
  let prot_typed := type_flags prot_mask in
  let w1 := evict_all (keys_where (fun r => record_is_expired r now) (records (cache w))) w in
  let found := snd <$> List.filter (fun p : CacheKey * CacheRecord =>
      bool_decide (to_lowercase (cr_name p.2) = name_lc)
      && has (cr_flags p.2) F_FORWARD && has (cr_flags p.2) prot_typed)
    (lru_iter (records (cache w1))) in
  count_matches found w1.

(** [swap_remove(0)] yields the first record. *)
Definition lookup_prot (name : str) (prot_mask : Z) (now : Instant) (w : World)
  : option CacheRecord * World :=
  let '(all, w1) := lookup_all_by_name name prot_mask now w in (head all, w1).

Definition lookup_all_by_addr (addr : AllAddr) (prot_mask : Z) (now : Instant) (w : World)
  : list CacheRecord * World :=
  let prot_typed := type_flags prot_mask in
  let w1 := evict_all (keys_where (fun r => has (cr_flags r) F_REVERSE && record_is_expired r now)
                         (records (cache w))) w in
  let found := snd <$> List.filter (fun p : CacheKey * CacheRecord =>
      has (cr_flags p.2) F_REVERSE && has (cr_flags p.2) prot_typed && addr_matches (cr_addr p.2) addr)
    (lru_iter (records (cache w1))) in
  count_matches found w1.

Definition remove_by_uid (uid : Z) (c : DnsCache) : Z * DnsCache :=
  if uid =? UID_NONE then (0, c)
  else
    let removable := keys_where (fun r => (cr_uid r =? uid) && is_static r) (records c) in
    (as_u32 (Z.of_nat (length removable)), set_records (pop_all removable (records c)) c).

(** ** Non-terminals *)

Definition nt_mask (source_flags : Z) : Z :=
  F_HOSTS ∣∣ F_CONFIG ∣∣ (if has source_flags F_DHCP then F_DHCP else 0).

(** The update of a placeholder that is already present. *)
Definition refresh_nt (source : CacheRecord) (existing : CacheRecord) : CacheRecord :=
  if negb (has (cr_flags source) F_IMMORTAL) then
    (if negb (has (cr_flags existing) F_IMMORTAL) && (cr_expires existing <? cr_expires source)
     then with_expires existing (cr_expires source) else existing)
  else with_flags existing (cr_flags existing ∣∣ F_IMMORTAL).

Definition NT_CLEAR : Z := F_IPV4 ∣∣ F_IPV6 ∣∣ F_CNAME ∣∣ F_RR ∣∣ F_DNSKEY ∣∣ F_DS ∣∣ F_REVERSE.

(** [!x] on a [u32] and the placeholder record. *)
Definition nt_record (source : CacheRecord) (parent : str) : CacheRecord :=
  mkRec parent (Z.land (cr_flags source ∣∣ F_FORWARD) (not32 NT_CLEAR)) 0 (cr_expires source)
    None None (cr_uid source).

Definition nt_step (source : CacheRecord) (w : World) (parent : str) : World :=
  let key := mkKeyOf parent (type_flags (F_FORWARD ∣∣ nt_mask (cr_flags source))) in
  match lru_peek key (records (cache w)) with
  | Some _ =>
    on_cache (fun c => set_records (lru_modify key (refresh_nt source) (records c)) c) w
  | None => insert (nt_record source parent) w
  end.

Definition insert_with_non_terminals (rec : CacheRecord) (w : World) : World :=
  fold_left (nt_step rec) (non_terminal_names (cr_name rec)) (insert rec w).

(** ** Users of the cache *)

Definition a_record_from_hosts (name : str) (now : Instant) (w : World) : option Ipv4Addr * World :=
  let '(recs, w1) := lookup_all_by_name name F_IPV4 now w in
  (let! r := List.find (fun r => has (cr_flags r) F_HOSTS) recs in
   let! a := cr_addr r in
   as_ipv4 a, w1).

Definition cache_find_non_terminal (name : str) (now : Instant) (c : DnsCache) : bool :=
  existsb (fun r => has (cr_flags r) F_FORWARD && negb (has (cr_flags r) F_NXDOMAIN)
                    && eq_ignore_ascii_case (cr_name r) name) (iter_live now c).

Fixpoint unhash_loop (uids : list Z) (removed : Z) (c : DnsCache) : Z * DnsCache :=
  match uids with
  | [] => (removed, c)
  | uid :: rest => let '(n, c1) := remove_by_uid uid c in unhash_loop rest (removed + n) c1
  end.
Definition cache_unhash_dhcp (now : Instant) (c : DnsCache) : Z * DnsCache :=
  let dhcp_uids := cr_uid <$> List.filter (fun r => has (cr_flags r) F_DHCP) (iter_live now c) in
  unhash_loop dhcp_uids 0 c.

End Cache.

Arguments DnsCache {L}.
Arguments World {L}.

(** ** Lemmas *)

Lemma F_type_bits :
  Z.land F_IMMORTAL TYPE_MASK = 0 /\ Z.land F_NEG TYPE_MASK = F_NEG.
Proof. by vm_compute. Qed.

Lemma type_flags_idem f : type_flags (type_flags f) = type_flags f.
Proof. unfold type_flags. by rewrite <- Z.land_assoc, Z.land_diag. Qed.

Lemma type_flags_immortal f : type_flags (f ∣∣ F_IMMORTAL) = type_flags f.
Proof.
  unfold type_flags. rewrite Z.land_lor_distr_l. destruct F_type_bits as [-> _]. apply Z.lor_0_r.
Qed.

Lemma type_flags_neg f : type_flags (type_flags f ∣∣ F_NEG) = type_flags f ∣∣ F_NEG.
Proof.
  unfold type_flags at 1. rewrite Z.land_lor_distr_l. destruct F_type_bits as [_ ->].
  f_equal. apply type_flags_idem.
Qed.

Section CacheLemmas.
Context `{UnicodeTables} {L : Lru CacheKey CacheRecord}.
Implicit Types c : DnsCache.
Implicit Types w : World.
Implicit Types rs : lru.

(** What the cache holds, most recently used first, and its finite-map view. *)
Definition entries c : list (CacheKey * CacheRecord) := lru_iter (records c).
Definition look (k : CacheKey) c : option CacheRecord := assoc k (entries c).
Definition live_at (now : Instant) (o : option CacheRecord) : option CacheRecord :=
  match o with
  | Some r => if record_is_expired r now then None else Some r
  | None => None
  end.

(** The invariant of the cache. *)
Record wf c : Prop := {
  wf_cap : lru_cap (records c) = Nat.max (max_size c) 1;
  wf_size : (length (entries c) <= max_size c)%nat;
  wf_keys : Forall (fun p => p.1 = key_of p.2) (entries c);
}.

Lemma entries_nodup c : NoDup (keys (entries c)).
Proof. apply lru_nodup. Qed.
#[local] Hint Resolve entries_nodup : rust.

Lemma iter_pop_all ks rs : lru_iter (pop_all ks rs) = filter (fun p => p.1 ∉ ks) (lru_iter rs).
Proof.
  revert rs. induction ks as [|k ks IH]; intros rs.
  - symmetry. apply filter_all, Forall_forall. set_solver.
  - unfold pop_all in *. simpl. rewrite IH, lru_iter_pop. unfold remove_key.
    rewrite list_filter_filter. apply list_filter_iff. set_solver.
Qed.

Lemma cap_pop_all ks rs : lru_cap (pop_all ks rs) = lru_cap rs.
Proof.
  revert rs. induction ks as [|k ks IH]; intros rs; [done|]. unfold pop_all in *. simpl.
  by rewrite IH, lru_cap_pop.
Qed.

(** Popping the keys of the records that satisfy a test keeps exactly the
    records that do not, in order. *)
Lemma iter_pop_where (P : CacheRecord -> bool) rs :
  lru_iter (pop_all (keys_where P rs) rs) = List.filter (fun p => negb (P p.2)) (lru_iter rs).
Proof.
  rewrite iter_pop_all, filter_bool. apply filter_iff_in.
  intros [k r] Hin. unfold keys_where. rewrite filter_bool, list_elem_of_fmap, negb_true_iff. split.
  - intros Hn. apply not_true_is_false. intros HP. apply Hn. exists (k, r). split; [done|].
    by apply list_elem_of_filter.
  - intros HP [[k' r'] [Hk [HP' Hin']%list_elem_of_filter]]. simpl in *. subst k'.
    assert (r = r'); [|congruence]. pose proof (lru_nodup rs) as Hd.
    apply (elem_assoc _ _ _ Hd) in Hin, Hin'. congruence.
Qed.

Lemma assoc_filter (P : CacheRecord -> bool) k (l : list (CacheKey * CacheRecord)) : NoDup (keys l) ->
  assoc k (List.filter (fun p => P p.2) l) =
  match assoc k l with Some r => if P r then Some r else None | None => None end.
Proof.
  intros Hd. induction l as [|[k' r] l IH]; [done|]. unfold keys in *. rewrite fmap_cons in Hd.
  apply NoDup_cons in Hd as [Hn Hd]. cbn [List.filter snd assoc].
  destruct (P r) eqn:E; cbn [assoc]; case_decide as Hk; try (by apply IH).
  - by rewrite E.
  - subst. rewrite IH by done. rewrite E.
    assert (assoc k l = None) as -> by (by apply assoc_None). done.
Qed.

Lemma look_pop_where (P : CacheRecord -> bool) k c :
  assoc k (lru_iter (pop_all (keys_where P (records c)) (records c))) =
  match look k c with Some r => if P r then None else Some r | None => None end.
Proof.
  rewrite iter_pop_where, (assoc_filter (fun r => negb (P r))) by apply lru_nodup. unfold look, entries.
  destruct (assoc k (lru_iter (records c))) as [r|]; [|done]. by destruct (P r).
Qed.

(** ** [evict_all] in terms of [pop_all] *)

Lemma evict_all_records ks w : records (cache (evict_all ks w)) = pop_all ks (records (cache w)).
Proof. revert w. induction ks as [|k ks IH]; intros w; [done|]. unfold evict_all in *. simpl. by rewrite IH. Qed.

(** A property that every single counted eviction preserves survives them all. *)
Lemma evict_all_ind (I : World -> Prop) ks w :
  (forall k w, I w -> I (mkWorld (bump (set_records (lru_pop k (records (cache w))) (cache w))
                                   false true false false)
                           (inc_metric DnsCacheLiveFreed (metrics w)))) ->
  I w -> I (evict_all ks w).
Proof. intros Hs. revert w. induction ks as [|k ks IH]; intros w Hw; [done|]. apply IH. by apply Hs. Qed.

Lemma evict_all_frame ks w :
  let c' := cache (evict_all ks w) in
  max_size c' = max_size (cache w) /\ hits c' = hits (cache w) /\ misses c' = misses (cache w) /\
  inserts c' = inserts (cache w) /\ new_chain c' = new_chain (cache w) /\
  insert_error c' = insert_error (cache w).
Proof.
  apply (evict_all_ind (fun w' => let c' := cache w' in
    max_size c' = max_size (cache w) /\ hits c' = hits (cache w) /\ misses c' = misses (cache w) /\
    inserts c' = inserts (cache w) /\ new_chain c' = new_chain (cache w) /\
    insert_error c' = insert_error (cache w))); [by intros|done].
Qed.

(** ** The invariant *)

Lemma wf_sub c rs : wf c -> lru_cap rs = lru_cap (records c) ->
  (length (lru_iter rs) <= length (entries c))%nat ->
  (forall p, p ∈ lru_iter rs -> p ∈ entries c) -> wf (set_records rs c).
Proof.
  intros [Hc Hs Hk] Ecap Elen Esub. split; simpl; [congruence|unfold entries in *; simpl; lia|].
  apply Forall_forall. intros p Hp. by apply (proj1 (Forall_forall _ _) Hk), Esub.
Qed.

Lemma wf_bump c a b d e : wf c -> wf (bump c a b d e).
Proof. by intros []. Qed.
Lemma wf_chain c ch b : wf c -> wf (set_chain ch b c).
Proof. by intros []. Qed.
Lemma wf_registry c g : wf c -> wf (set_registry g c).
Proof. by intros []. Qed.

Lemma wf_pop k c : wf c -> wf (set_records (lru_pop k (records c)) c).
Proof.
  intros Hw. apply wf_sub; [done|apply lru_cap_pop| |]; rewrite lru_iter_pop; unfold remove_key, entries.
  - apply length_filter.
  - intros p [_ ?]%list_elem_of_filter. done.
Qed.

Lemma wf_pop_all ks c : wf c -> wf (set_records (pop_all ks (records c)) c).
Proof.
  intros Hw. apply wf_sub; [done|apply cap_pop_all| |]; rewrite iter_pop_all; unfold entries.
  - apply length_filter.
  - intros p [_ ?]%list_elem_of_filter. done.
Qed.

Lemma wf_get k c : wf c -> wf (snd (get k c)).
Proof.
  intros Hw. unfold get. destruct (lru_get k (records c)) as [o rs] eqn:E. simpl.
  assert (rs = snd (lru_get k (records c))) as -> by (by rewrite E).
  apply wf_sub; [done|apply lru_cap_get| |]; rewrite lru_iter_get; unfold entries.
  - rewrite length_touch by apply lru_nodup. lia.
  - apply elem_touch.
Qed.

Lemma wf_put rec c : wf c -> max_size c <> 0%nat ->
  wf (set_records (lru_put (key_of rec) rec (records c)) c).
Proof.
  intros [Hc Hs Hk] Hn. split; simpl.
  - by rewrite lru_cap_put.
  - unfold entries. simpl. rewrite lru_iter_put, Hc, (Nat.max_l (max_size c) 1) by lia. apply length_put; [apply lru_nodup|lia|done].
  - unfold entries. simpl. rewrite lru_iter_put. apply Forall_forall. intros p [->|Hp]%elem_put; [done|].
    by apply (proj1 (Forall_forall _ _) Hk).
Qed.

Lemma wf_insert rec w : wf (cache w) -> wf (cache (insert rec w)).
Proof.
  intros Hw. unfold insert. case_bool; [done|]. apply Nat.eqb_neq in Heqb. simpl.
  apply wf_bump. by apply wf_put.
Qed.

Lemma wf_modify k f c : wf c -> (forall r, key_of (f r) = key_of r) ->
  wf (set_records (lru_modify k f (records c)) c).
Proof.
  intros [Hc Hs Hk] Hf. split; unfold entries in *; simpl.
  - by rewrite lru_cap_modify.
  - rewrite lru_iter_modify. unfold modify_list. by rewrite length_fmap.
  - rewrite lru_iter_modify. unfold modify_list. apply Forall_fmap. eapply Forall_impl; [exact Hk|].
    intros [k' r]. simpl. case_decide; simpl; [by rewrite Hf|done].
Qed.

Lemma wf_new n mn mx : wf (with_ttl_limits n mn mx).
Proof. split; unfold entries; simpl; by autorewrite with lru; simpl; try lia. Qed.

(** ** Lookup lemmas *)

Lemma get_fst k c : fst (get k c) = look k c.
Proof.
  unfold get, look, entries. rewrite <- lru_get_fst. by destruct (lru_get k (records c)).
Qed.

Lemma get_snd k c : snd (get k c) = set_records (snd (lru_get k (records c))) c.
Proof. unfold get. by destruct (lru_get k (records c)). Qed.

Lemma look_get k k' c : look k' (snd (get k c)) = look k' c.
Proof. rewrite get_snd. unfold look, entries. simpl. rewrite lru_iter_get. apply assoc_touch. Qed.

Lemma expired_at_look k now c :
  expired_at k now c = match look k c with Some r => record_is_expired r now | None => false end.
Proof. unfold expired_at. by rewrite lru_peek_iter. Qed.

Lemma look_pop k k' c :
  look k' (set_records (lru_pop k (records c)) c) = if decide (k = k') then None else look k' c.
Proof.
  unfold look, entries. simpl. rewrite lru_iter_pop. case_decide; [subst; apply assoc_remove_eq|by apply assoc_remove_ne].
Qed.

Lemma look_key k r c : wf c -> look k c = Some r -> k = key_of r.
Proof.
  intros [_ _ Hk] Hl%assoc_Some_elem. by apply (proj1 (Forall_forall _ _) Hk) in Hl.
Qed.

(** What happens to any key when a record is put. *)
Lemma look_put_eq rec c : look (key_of rec) (set_records (lru_put (key_of rec) rec (records c)) c) = Some rec.
Proof. unfold look, entries. simpl. rewrite lru_iter_put. apply assoc_put_eq. Qed.

Lemma look_insert_eq rec w : max_size (cache w) <> 0%nat ->
  look (key_of rec) (cache (insert rec w)) = Some rec.
Proof.
  intros Hn. unfold insert. rewrite (proj2 (Nat.eqb_neq _ _) Hn). simpl. apply look_put_eq.
Qed.

Lemma look_insert_ne rec w k : key_of rec <> k ->
  look k (cache (insert rec w)) = look k (cache w) \/
  (look k (cache (insert rec w)) = None /\ look (key_of rec) (cache w) = None /\
   (lru_cap (records (cache w)) <= length (entries (cache w)))%nat).
Proof.
  intros Hne. unfold insert. case_bool; [by left|]. unfold look, entries. simpl.
  rewrite lru_iter_put. by apply assoc_put_ne.
Qed.

(** A key survives an insertion, takes the inserted record, or was evicted. *)
Lemma look_insert_inv rec w k r : look k (cache (insert rec w)) = Some r ->
  look k (cache w) = Some r \/ (k = key_of rec /\ r = rec).
Proof.
  destruct (decide (key_of rec = k)) as [<-|Hne].
  - destruct (decide (max_size (cache w) = 0%nat)) as [E|E].
    + unfold insert. rewrite E. by left.
    + rewrite look_insert_eq by done. intros [= ->]. by right.
  - destruct (look_insert_ne rec w k Hne) as [->|[-> _]]; [by left|done].
Qed.

Lemma insert_frame rec w :
  let c' := cache (insert rec w) in
  max_size c' = max_size (cache w) /\ hits c' = hits (cache w) /\ misses c' = misses (cache w) /\
  new_chain c' = new_chain (cache w) /\ insert_error c' = insert_error (cache w) /\
  min_cache_ttl c' = min_cache_ttl (cache w) /\ max_cache_ttl c' = max_cache_ttl (cache w).
Proof. unfold insert. by case_bool. Qed.

(** ** Reachable states *)

Inductive op : Type :=
| OInsert (r : CacheRecord)
| OReallyInsert (r : CacheRecord) (now : Instant)
| OStart
| OStage (r : CacheRecord) (now : Instant)
| OEnd
| OEvictExpired (now : Instant)
| OExpireOld (now : Instant)
| OLookupByName (name : str) (flags : Z) (now : Instant)
| OLookupForward (name : str) (flags : Z) (now : Instant)
| OLookupByAddr (a : AllAddr) (now : Instant)
| OLookupAllByName (name : str) (prot : Z) (now : Instant)
| OLookupAllByAddr (a : AllAddr) (prot : Z) (now : Instant)
| ORemoveByUid (uid : Z)
| OInsertNT (r : CacheRecord)
| OClear
| ORegister (uid : Z) (source : str)
| OUnhashDhcp (now : Instant).

Definition run_op (o : op) w : World :=
  match o with
  | OInsert r => insert r w
  | OReallyInsert r now => snd (really_insert r now w)
  | OStart => on_cache start_insert w
  | OStage r now => on_cache (fun c => snd (stage_insert r now c)) w
  | OEnd => snd (end_insert w)
  | OEvictExpired now => snd (evict_expired now w)
  | OExpireOld now => on_cache (expire_old now) w
  | OLookupByName n f now => on_cache (fun c => snd (lookup_by_name n f now c)) w
  | OLookupForward n f now => on_cache (fun c => snd (lookup_forward n f now c)) w
  | OLookupByAddr a now => on_cache (fun c => snd (lookup_by_addr a now c)) w
  | OLookupAllByName n p now => snd (lookup_all_by_name n p now w)
  | OLookupAllByAddr a p now => snd (lookup_all_by_addr a p now w)
  | ORemoveByUid uid => on_cache (fun c => snd (remove_by_uid uid c)) w
  | OInsertNT r => insert_with_non_terminals r w
  | OClear => on_cache clear w
  | ORegister uid s => on_cache (register_record_source uid s) w
  | OUnhashDhcp now => on_cache (fun c => snd (cache_unhash_dhcp now c)) w
  end.

Inductive reachable (n : nat) (mn mx : Z) : World -> Prop :=
| reach_new : reachable n mn mx (mkWorld (with_ttl_limits n mn mx) COUNTERS)
| reach_step w o : reachable n mn mx w -> reachable n mn mx (run_op o w).

(** The metric counters and the statistics of the cache agree. *)
Definition counted w : Prop :=
  get_metric DnsCacheInserted (metrics w) = Some (inserts (cache w)) /\
  get_metric DnsCacheLiveFreed (metrics w) = Some (evictions (cache w)).

Definition inv (n : nat) (mn mx : Z) w : Prop :=
  wf (cache w) /\ max_size (cache w) = n /\ min_cache_ttl (cache w) = mn /\
  max_cache_ttl (cache w) = mx /\ counted w.

(** An update of the cache alone that respects the invariant. *)
Definition quiet (f : DnsCache -> DnsCache) : Prop :=
  forall c, wf c -> wf (f c) /\ max_size (f c) = max_size c /\ min_cache_ttl (f c) = min_cache_ttl c /\
    max_cache_ttl (f c) = max_cache_ttl c /\ inserts (f c) = inserts c /\ evictions (f c) = evictions c.

Lemma quiet_inv f n mn mx w : quiet f -> inv n mn mx w -> inv n mn mx (on_cache f w).
Proof.
  intros Hf (Hw & Hm & Hmn & Hmx & Hi & He). destruct (Hf _ Hw) as (? & ? & ? & ? & Ei & Ee).
  unfold inv, counted. simpl. rewrite Ei, Ee. repeat split; first [done|congruence|apply H0].
Qed.

Lemma quiet_compose f g : quiet f -> quiet g -> quiet (fun c => g (f c)).
Proof.
  intros Hf Hg c Hw. destruct (Hf c Hw) as (Hw1 & ? & ? & ? & ? & ?).
  destruct (Hg _ Hw1) as (? & ? & ? & ? & ? & ?). split; [done|]. repeat split; congruence.
Qed.

Lemma quiet_id : quiet (fun c => c).
Proof. by intros c. Qed.

Lemma quiet_chain ch b : quiet (set_chain ch b).
Proof. intros c Hw. split; [by apply wf_chain|done]. Qed.

Lemma quiet_bump a b : quiet (fun c => bump c false false a b).
Proof. intros c Hw. split; [by apply wf_bump|done]. Qed.

Lemma quiet_get k : quiet (fun c => snd (get k c)).
Proof. intros c Hw. split; [by apply wf_get|]. by rewrite get_snd. Qed.

Lemma quiet_pop k : quiet (fun c => set_records (lru_pop k (records c)) c).
Proof. intros c Hw. split; [by apply wf_pop|done]. Qed.

Lemma quiet_pop_all (ks : DnsCache -> list CacheKey) :
  quiet (fun c => set_records (pop_all (ks c) (records c)) c).
Proof. intros c Hw. split; [by apply wf_pop_all|done]. Qed.

Lemma quiet_clear : quiet clear.
Proof.
  intros c Hw. split; [|done]. apply wf_sub; [done|apply lru_cap_clear| |];
  rewrite lru_iter_clear; [simpl; lia|set_solver].
Qed.

Lemma quiet_expire_old now : quiet (expire_old now).
Proof. apply (quiet_pop_all (fun c => keys_where (fun r => record_is_expired r now) (records c))). Qed.

Lemma quiet_lookup_by_name name flags now : quiet (fun c => snd (lookup_by_name name flags now c)).
Proof.
  intros c Hw. unfold lookup_by_name. case_bool.
  - apply (quiet_compose _ _ (quiet_pop (key_for name flags)) (quiet_bump false true) c Hw).
  - pose proof (get_snd (key_for name flags) c) as E.
    pose proof (quiet_compose _ _ (quiet_get (key_for name flags)) (quiet_bump false true) c Hw) as Hm.
    pose proof (quiet_compose _ _ (quiet_get (key_for name flags))
      (quiet_compose _ _ (quiet_bump true false) (quiet_get (key_for name flags))) c Hw) as Hh.
    cbv beta in Hh, Hm. destruct (get (key_for name flags) c) as [[r|] c1]; [exact Hh|exact Hm].
Qed.

Lemma quiet_probe ks now : quiet (fun c => snd (probe_keys ks now c)).
Proof.
  induction ks as [|k ks IH]; [apply quiet_id|]. intros c Hw. simpl. case_bool.
  - apply (quiet_compose _ _ (quiet_pop k) IH c Hw).
  - case_match; [by apply quiet_id|by apply IH].
Qed.

Lemma quiet_lookup_forward name flags now : quiet (fun c => snd (lookup_forward name flags now c)).
Proof.
  intros c Hw. unfold lookup_forward.
  set (ks := [_; _]). pose proof (quiet_probe ks now) as Hp.
  pose proof (quiet_compose _ _ Hp (quiet_bump false true) c Hw) as Hm.
  assert (forall k, quiet (fun c => snd (get k (bump (snd (probe_keys ks now c)) false false true false)))) as Hh.
  { intros k. apply (quiet_compose _ _ Hp (quiet_compose _ _ (quiet_bump true false) (quiet_get k))). }
  cbv beta in Hm. destruct (probe_keys ks now c) as [[k|] c1] eqn:E; [specialize (Hh k c Hw); cbv beta in Hh; by rewrite E in Hh|done].
Qed.

Lemma quiet_lookup_by_addr a now : quiet (fun c => snd (lookup_by_addr a now c)).
Proof.
  intros c Hw. unfold lookup_by_addr. case_match.
  - apply (quiet_compose _ _ (quiet_expire_old now)
      (quiet_compose _ _ (quiet_bump true false) (quiet_get _)) c Hw).
  - apply (quiet_compose _ _ (quiet_expire_old now) (quiet_bump false true) c Hw).
Qed.

Lemma quiet_stage r now : quiet (fun c => snd (stage_insert r now c)).
Proof.
  intros c Hw. unfold stage_insert. case_bool; [by apply quiet_id|].
  repeat case_match; simpl; first [by apply quiet_id|by apply quiet_chain].
Qed.

Lemma quiet_remove uid : quiet (fun c => snd (remove_by_uid uid c)).
Proof.
  intros c Hw. unfold remove_by_uid. case_bool; [by apply quiet_id|].
  apply (quiet_pop_all (fun c => keys_where (fun r => (cr_uid r =? uid) && is_static r) (records c)) c Hw).
Qed.

Lemma quiet_unhash_loop uids n : quiet (fun c => snd (unhash_loop uids n c)).
Proof.
  revert n. induction uids as [|u us IH]; intros n c Hw; [by apply quiet_id|]. simpl.
  pose proof (quiet_remove u c Hw) as Hr. cbv beta in Hr. destruct (remove_by_uid u c) as [x c1].
  destruct Hr as (Hw1 & ? & ? & ? & ? & ?). destruct (IH (n + x) c1 Hw1) as (? & ? & ? & ? & ? & ?).
  simpl in *. split; [done|]. repeat split; congruence.
Qed.

Lemma inv_insert r n mn mx w : inv n mn mx w -> inv n mn mx (insert r w).
Proof.
  intros (Hw & Hm & Hmn & Hmx & Hi & He). pose proof (wf_insert r w Hw) as Hw'.
  split; [done|]. destruct (insert_frame r w) as (E1 & _ & _ & _ & _ & E2 & E3).
  repeat split; try congruence; unfold insert; case_bool; try done; simpl.
  - case_bool; rewrite ?(get_inc_ne DnsCacheLiveFreed DnsCacheInserted), get_inc_eq, Hi by done; done.
  - case_bool; rewrite ?get_inc_eq, ?(get_inc_ne DnsCacheInserted DnsCacheLiveFreed), He by done; done.
Qed.

Lemma inv_evict_all ks n mn mx w : inv n mn mx w -> inv n mn mx (evict_all ks w).
Proof.
  apply evict_all_ind. intros k w' (Hw & Hm & Hmn & Hmx & Hi & He).
  split; [apply wf_bump; by apply wf_pop|]. unfold counted. simpl.
  rewrite get_inc_eq, He, (get_inc_ne DnsCacheLiveFreed DnsCacheInserted) by done. done.
Qed.

Lemma inv_commit l k n mn mx w : inv n mn mx w -> inv n mn mx (snd (commit_loop l k w)).
Proof.
  revert k w. induction l as [|r l IH]; intros k w Hw; [done|]. simpl.
  case_bool; [by apply IH|]. apply IH. by apply inv_insert.
Qed.

Lemma key_refresh s r : key_of (refresh_nt s r) = key_of r.
Proof.
  unfold refresh_nt. repeat case_bool; try done. unfold key_of. simpl. by rewrite type_flags_immortal.
Qed.

Lemma inv_nt s l n mn mx w : inv n mn mx w -> inv n mn mx (fold_left (nt_step s) l w).
Proof.
  revert w. induction l as [|p l IH]; intros w Hw; [done|]. simpl. apply IH. unfold nt_step.
  case_match; [|by apply inv_insert]. apply quiet_inv; [|done].
  intros c0 Hc. split; [|done]. apply wf_modify; [done|]. apply key_refresh.
Qed.

Lemma inv_count_matches l n mn mx w : inv n mn mx w -> inv n mn mx (snd (count_matches l w)).
Proof. intros Hw. unfold count_matches. apply quiet_inv; [|done]. destruct l; apply quiet_bump. Qed.

(** ** Properties *)

(** C14: from an empty cache of any size and TTL limits, every sequence of cache
    operations keeps at most [max_size] records, each stored under the key its
    own name and type bits spell, never changes the limits, and keeps the
    insertion and eviction statistics equal to the process-wide metrics. *)
Theorem cache_invariant n mn mx w : reachable n mn mx w -> inv n mn mx w.
Proof.
  induction 1 as [|w o _ IH]; [split; [apply wf_new|done]|].
  destruct o; cbn [run_op].
  - by apply inv_insert.
  - unfold really_insert. repeat case_match; simpl; try done. by apply inv_insert.
  - apply quiet_inv; [apply quiet_chain|done].
  - apply quiet_inv; [apply quiet_stage|done].
  - unfold end_insert. case_bool; simpl; [|apply inv_commit]; (apply quiet_inv; [apply quiet_chain|done]).
  - by apply inv_evict_all.
  - apply quiet_inv; [apply quiet_expire_old|done].
  - apply quiet_inv; [apply quiet_lookup_by_name|done].
  - apply quiet_inv; [apply quiet_lookup_forward|done].
  - apply quiet_inv; [apply quiet_lookup_by_addr|done].
  - by apply inv_count_matches, inv_evict_all.
  - by apply inv_count_matches, inv_evict_all.
  - apply quiet_inv; [apply quiet_remove|done].
  - by apply inv_nt, inv_insert.
  - apply quiet_inv; [apply quiet_clear|done].
  - apply quiet_inv; [|done]. unfold register_record_source. intros c Hc. case_bool; [by apply quiet_id|].
    split; [by apply wf_registry|done].
  - apply quiet_inv; [|done]. intros c Hc. by apply (quiet_unhash_loop (cr_uid <$> List.filter (fun r => has (cr_flags r) F_DHCP) (iter_live now c))).
Qed.

Lemma lookup_by_name_fst name flags now c :
  fst (lookup_by_name name flags now c) = live_at now (look (key_for name flags) c).
Proof.
  unfold lookup_by_name. set (k := key_for name flags). rewrite expired_at_look.
  pose proof (get_fst k c) as Ef. pose proof (look_get k k c) as Eg.
  destruct (get k c) as [o c1]. cbn [fst snd] in Ef, Eg. subst o.
  destruct (look k c) as [r|]; cbn [live_at]; [|done]. destruct (record_is_expired r now); [done|].
  by rewrite get_fst.
Qed.

(** A lookup answers with the record under its key unless that record has
    expired; an expired record is dropped, nothing else changes for any key, and
    exactly one of the hit and miss counters advances by one. *)
Theorem lookup_by_name_spec name flags now c :
  let k := key_for name flags in
  let o := fst (lookup_by_name name flags now c) in
  let c' := snd (lookup_by_name name flags now c) in
  o = live_at now (look k c) /\
  (forall k', look k' c' = if decide (k = k') then o else look k' c) /\
  hits c' = (if o is Some _ then as_u64 (hits c + 1) else hits c) /\
  misses c' = (if o is Some _ then misses c else as_u64 (misses c + 1)).
Proof.
  cbn zeta. unfold lookup_by_name. set (k := key_for name flags). rewrite expired_at_look.
  pose proof (get_fst k c) as Ef. pose proof (get_snd k c) as Es.
  pose proof (fun k' => look_get k k' c) as Eg. destruct (get k c) as [o c1]. cbn [fst snd] in Ef, Es, Eg.
  destruct (look k c) as [r|] eqn:E; cbn [live_at].
  - destruct (record_is_expired r now); cbn [fst snd].
    + split; [done|]. split; [|done]. intros k'. rewrite <- look_pop. done.
    + subst o. rewrite get_fst. assert (look k (bump c1 false false true false) = Some r) as ->
        by (rewrite <- E; apply Eg).
      split; [done|]. split.
      * intros k'. rewrite look_get. change (look k' c1 = if decide (k = k') then Some r else look k' c).
        rewrite Eg. case_decide; congruence.
      * rewrite get_snd. by subst c1.
  - subst o. cbn [fst snd]. split; [done|]. split; [|by subst c1].
    intros k'. change (look k' c1 = if decide (k = k') then None else look k' c).
    rewrite Eg. case_decide; congruence.
Qed.

Lemma probe_spec k1 k2 now c :
  let o1 := live_at now (look k1 c) in
  let o2 := live_at now (look k2 c) in
  let '(hit, c') := probe_keys [k1; k2] now c in
  hit = (if o1 is Some _ then Some k1 else if o2 is Some _ then Some k2 else None) /\
  hits c' = hits c /\ misses c' = misses c /\
  (forall k', look k' c' = if decide (k' = k1) then o1
                           else if decide (k' = k2) then (if o1 is Some _ then look k2 c else o2) else look k' c).
Proof.
  cbn [probe_keys]. rewrite !expired_at_look, !lru_peek_iter.
  fold (entries c). fold (look k1 c). fold (look k2 c).
  destruct (look k1 c) as [r1|] eqn:E1; cbn [live_at];
    [destruct (record_is_expired r1 now) eqn:X1|].
  - fold (entries (set_records (lru_pop k1 (records c)) c)).
    set (c1 := set_records _ _). fold (look k2 c1).
    assert (forall k', look k' c1 = if decide (k1 = k') then None else look k' c) as Hp by (intros; apply look_pop).
    rewrite Hp. destruct (decide (k1 = k2)) as [<-|Hne].
    { rewrite E1. cbn. rewrite X1. split_and!; try done.
      intros k'. rewrite Hp. repeat case_decide; congruence. }
    destruct (look k2 c) as [r2|] eqn:E2; cbn [live_at]; [destruct (record_is_expired r2 now)|];
      (split_and!; [done|done|done|]); intros k'; rewrite ?look_pop; fold c1; rewrite ?Hp;
      repeat case_decide; congruence.
  - split_and!; try done. intros k'. repeat case_decide; congruence.
  - destruct (look k2 c) as [r2|] eqn:E2; cbn [live_at]; [destruct (record_is_expired r2 now)|];
      (split_and!; [done|done|done|]); intros k'; rewrite ?look_pop;
      repeat case_decide; congruence.
Qed.

(** The forward lookup answers with the live record of the queried type,
    else with the live NODATA entry of that type, counts exactly one hit or one
    miss, drops only expired records and leaves every other key alone. *)
Theorem lookup_forward_spec name flags now c :
  let pos := key_for name flags in
  let neg := mkKeyOf (to_lowercase name) (type_flags flags ∣∣ F_NEG) in
  let o := fst (lookup_forward name flags now c) in
  let c' := snd (lookup_forward name flags now c) in
  o = match live_at now (look pos c) with Some r => Some r | None => live_at now (look neg c) end /\
  neg = key_for name (type_flags flags ∣∣ F_NEG) /\
  (forall k' r, look k' c' = Some r -> look k' c = Some r) /\
  (forall k' r, look k' c = Some r -> record_is_expired r now = false -> look k' c' = Some r) /\
  hits c' = (if o is Some _ then as_u64 (hits c + 1) else hits c) /\
  misses c' = (if o is Some _ then misses c else as_u64 (misses c + 1)).
Proof.
  cbn zeta. unfold lookup_forward, key_for.
  set (pos := mkKeyOf _ (type_flags flags)). set (neg := mkKeyOf _ (_ ∣∣ F_NEG)).
  assert (neg = mkKeyOf (to_lowercase name) (type_flags (type_flags flags ∣∣ F_NEG))) as Hneg
    by (unfold neg; by rewrite type_flags_neg).
  pose proof (probe_spec pos neg now c) as Hp. cbn zeta in Hp.
  destruct (probe_keys [pos; neg] now c) as [hit c1]. destruct Hp as (-> & Hh & Hm & Hl).
  assert (forall k' r, look k' c1 = Some r -> look k' c = Some r) as Hsub.
  { intros k' r. rewrite Hl. repeat case_decide; subst; unfold live_at; repeat case_match; congruence. }
  assert (forall k' r, look k' c = Some r -> record_is_expired r now = false -> look k' c1 = Some r) as Hkeep.
  { intros k' r Hr He. rewrite Hl. repeat case_decide; subst; rewrite ?Hr; cbn; rewrite ?He; repeat case_match; congruence. }
  assert (forall k b d, look k (bump c1 false false b d) = look k c1) as Hb by done.
  destruct (live_at now (look pos c)) as [r1|] eqn:E1;
    [|destruct (live_at now (look neg c)) as [r2|] eqn:E2]; cbn [fst snd].
  - rewrite get_fst, Hb, Hl, decide_True by done. split_and!; [done|done| | |rewrite get_snd; cbn; congruence..].
    + intros k' r. rewrite look_get, Hb. apply Hsub.
    + intros k' r Hr He. rewrite look_get, Hb. by apply Hkeep.
  - assert (neg <> pos) as Hne by (intros ->; congruence).
    rewrite get_fst, Hb, Hl, decide_False, decide_True by done.
    split_and!; [done|done| | |rewrite get_snd; cbn; congruence..].
    + intros k' r. rewrite look_get, Hb. apply Hsub.
    + intros k' r Hr He. rewrite look_get, Hb. by apply Hkeep.
  - split_and!; try done; cbn; congruence.
Qed.

(** ** Validated insertion *)

Lemma admit_New c s rec r : admit_record c s rec = Ok (New r) ->
  r = rec /\ max_size c <> 0%nat /\
  forall e, look (key_of rec) c = Some e -> is_static e && negb s = false.
Proof.
  unfold admit_record. rewrite lru_peek_iter. fold (entries c). fold (look (key_of rec) c).
  destruct (look (key_of rec) c) as [e|]; [destruct (is_static e && negb s) eqn:E|].
  - case_bool; discriminate.
  - case_bool; [discriminate|]. intros [= <-]. apply Nat.eqb_neq in Heqb. split_and!; [done..|]. by intros ? [= <-].
  - case_bool; [discriminate|]. intros [= <-]. apply Nat.eqb_neq in Heqb. by split_and!.
Qed.

(** The record [prepare_insert] stores, and why it was allowed to. *)
Lemma prepare_New rec now c r : prepare_insert rec now c = Ok (New r) ->
  max_size c <> 0%nat /\
  (if is_static rec then r = rec
   else r = with_expires (with_ttl rec (clamped_ttl c rec)) (add_secs now (clamped_ttl c rec)) /\
        (clamped_ttl c rec = 0 -> has (cr_flags rec) F_IMMORTAL = true)) /\
  key_of r = key_of rec /\ is_static r = is_static rec /\
  (is_static rec = false -> forall e, look (key_of rec) c = Some e -> is_static e = false).
Proof.
  unfold prepare_insert. destruct (is_static rec) eqn:S.
  - intros (-> & Hn & _)%admit_New. by rewrite S.
  - case_bool; [discriminate|]. intros (-> & Hn & Hc)%admit_New. split; [done|]. cbn in Heqb |- *.
    split; [split; [done|]|].
    + intros E. rewrite E in Heqb. cbn in Heqb. by apply negb_false_iff in Heqb.
    + split_and!; [done|done|]. intros _ e He. specialize (Hc e He). by rewrite andb_true_r in Hc.
Qed.

Lemma really_insert_Inserted rec now w : fst (really_insert rec now w) = Inserted ->
  exists r, prepare_insert rec now (cache w) = Ok (New r) /\ snd (really_insert rec now w) = insert r w.
Proof.
  unfold really_insert. destruct (prepare_insert rec now (cache w)) as [[r|r]|e] eqn:P; try discriminate.
  - eauto.
  - cbn. intros ->. revert P. unfold prepare_insert, admit_record. repeat case_match; congruence.
Qed.

Lemma crec_ttl_after r now t : has (cr_flags r) F_IMMORTAL = false ->
  cr_expires r = add_secs now (cr_ttl r) -> 0 <= cr_ttl r < 4294967296 -> now <= t ->
  0 <= crec_ttl r t <= cr_ttl r /\
  (t < cr_expires r -> now <= t -> (cr_ttl r - crec_ttl r t) * 1000000000 < (t - now) + 1000000000).
Proof.
  intros Hi He Ht Hn. unfold crec_ttl. rewrite Hi, He. unfold add_secs.
  destruct (Z.le_ge_cases (now + cr_ttl r * 1000000000 - t) 0).
  - rewrite Z.max_l by lia. rewrite Z.div_0_l by lia. lia.
  - rewrite Z.max_r by lia. dlia.
Qed.

Lemma clamped_range c rec :
  0 <= cr_ttl rec < 4294967296 -> 0 <= min_cache_ttl c < 4294967296 -> 0 <= max_cache_ttl c < 4294967296 ->
  0 <= clamped_ttl c rec < 4294967296.
Proof. intros. unfold clamped_ttl, DNSSEC_MIN_TTL. repeat case_bool; lia. Qed.

(** An accepted DNS answer is stored with the operator's TTL limits (the
    floor wins over the ceiling) or the DNSSEC floor applied, never with a zero
    lifetime unless it is immortal; looking it up before it expires returns it
    with the remaining lifetime, which never exceeds the stored TTL, and once it
    has expired the lookup misses. *)
Theorem insert_then_lookup rec now t w :
  fst (really_insert rec now w) = Inserted -> is_static rec = false ->
  has (cr_flags rec) F_IMMORTAL = false -> now <= t ->
  0 <= cr_ttl rec < 4294967296 -> 0 <= min_cache_ttl (cache w) < 4294967296 ->
  0 <= max_cache_ttl (cache w) < 4294967296 ->
  let w' := snd (really_insert rec now w) in
  let ttl := clamped_ttl (cache w) rec in
  let o := fst (lookup_by_name (cr_name rec) (cr_flags rec) t (cache w')) in
  0 < ttl /\
  (has (cr_flags rec) (F_DNSKEY ∣∣ F_DS) = true -> ttl = Z.max DNSSEC_MIN_TTL (cr_ttl rec)) /\
  (has (cr_flags rec) (F_DNSKEY ∣∣ F_DS) = false ->
     ttl = Z.max (min_cache_ttl (cache w))
             (if decide (max_cache_ttl (cache w) = 0) then cr_ttl rec
              else Z.min (max_cache_ttl (cache w)) (cr_ttl rec))) /\
  (t < add_secs now ttl -> exists r, o = Some r /\ cr_addr r = cr_addr rec /\ cr_ttl r = ttl /\
     crec_ttl r t <= ttl /\ (ttl - crec_ttl r t) * 1000000000 < (t - now) + 1000000000) /\
  (add_secs now ttl <= t -> o = None).
Proof.
  intros Ho Hs Hi Ht Hr1 Hr2 Hr3. cbn zeta. apply really_insert_Inserted in Ho as (r & P & ->).
  apply prepare_New in P as (Hn & Hr & Hk & _ & _). rewrite Hs in Hr. destruct Hr as [Er Hz].
  pose proof (clamped_range (cache w) rec Hr1 Hr2 Hr3) as Hc. set (ttl := clamped_ttl (cache w) rec) in *.
  assert (0 < ttl) by (destruct (Z.eq_dec ttl 0) as [E|]; [rewrite Hi in Hz; by specialize (Hz E)|lia]).
  split; [done|]. split; [|split].
  - intros Hd. unfold ttl, clamped_ttl. rewrite Hd. case_bool; lia.
  - intros Hd. unfold ttl, clamped_ttl. rewrite Hd. case_decide as D.
    + rewrite D. cbn. repeat case_bool; lia.
    + rewrite (proj2 (Z.eqb_neq _ _) D). cbn. repeat case_bool; lia.
  - rewrite lookup_by_name_fst. unfold key_for. fold (key_of rec). rewrite <- Hk, look_insert_eq by done. cbn.
    unfold record_is_expired. rewrite Er. cbn. rewrite Hi. split; intros Hle.
    + rewrite (proj2 (Z.leb_gt _ _) Hle). exists r. split; [by rewrite Er|].
      destruct (crec_ttl_after r now t) as [Hb Hb']; try (rewrite Er; done); [done|].
      assert (cr_ttl r = ttl) as Et by (by rewrite Er). rewrite Et in Hb, Hb'.
      split_and!; [by rewrite Er|done|lia|]. apply Hb'; [by rewrite Er|done].
    + by rewrite (proj2 (Z.leb_le _ _) Hle).
Qed.

(** ** Transactions *)

(** One transaction of a batch of records at one instant, as
    [extract_addresses] runs it. *)
Definition stage_all (recs : list CacheRecord) (now : Instant) c : DnsCache :=
  fold_left (fun c r => snd (stage_insert r now c)) recs c.
Definition transaction (recs : list CacheRecord) (now : Instant) w : nat * World :=
  end_insert (on_cache (fun c => stage_all recs now (start_insert c)) w).

(** Validation looks at the stored records and the limits only. *)
Lemma prepare_chain rec now ch b c : prepare_insert rec now (set_chain ch b c) = prepare_insert rec now c.
Proof. done. Qed.

Definition prepared_new (now : Instant) c (rec : CacheRecord) : list CacheRecord :=
  match prepare_insert rec now c with Ok (New r) => [r] | _ => [] end.
Definition refused (now : Instant) c (rec : CacheRecord) : bool :=
  match prepare_insert rec now c with Err _ => true | _ => false end.

Lemma stage_chain rec now ch b c :
  snd (stage_insert rec now (set_chain ch b c)) =
  set_chain (if b then ch else ch ++ prepared_new now c rec) (b || refused now c rec) c.
Proof.
  unfold stage_insert, prepared_new, refused. cbn [insert_error set_chain]. rewrite prepare_chain.
  destruct b; [done|]. destruct (prepare_insert rec now c) as [[r|r]|e]; cbn; by rewrite ?app_nil_r.
Qed.

Lemma stage_all_spec recs now c ch b :
  exists ch', stage_all recs now (set_chain ch b c) = set_chain ch' (b || existsb (refused now c) recs) c /\
    (b || existsb (refused now c) recs = false -> ch' = ch ++ mjoin (prepared_new now c <$> recs)).
Proof.
  unfold stage_all. revert ch b. induction recs as [|rec recs IH]; intros ch b; cbn [fold_left existsb].
  - exists ch. rewrite orb_false_r. split; [done|]. intros _. cbn. by rewrite app_nil_r.
  - rewrite stage_chain, orb_assoc.
    destruct (IH (if b then ch else ch ++ prepared_new now c rec) (b || refused now c rec)) as (ch' & E & Hch).
    exists ch'. split; [exact E|]. intros Hb. rewrite (Hch Hb). destruct b; [done|].
    rewrite fmap_cons. cbn. by rewrite <- app_assoc.
Qed.

Definition insert_all (l : list CacheRecord) w : World := fold_left (fun w r => insert r w) l w.

(** A CNAME record that names its target. *)
Definition names_target (rec : CacheRecord) : Prop :=
  match cr_addr rec with Some (Cname cn) => is_name_ptr cn = true | _ => True end.

Lemma names_target_fresh rec c : names_target rec -> is_outdated_cname_pointer rec c = false.
Proof.
  unfold names_target, is_outdated_cname_pointer. case_bool; [done|].
  destruct (cr_addr rec) as [[]|]; try done. by intros ->.
Qed.

Lemma commit_all l n w : Forall names_target l ->
  commit_loop l n w = ((n + length l)%nat, insert_all l w).
Proof.
  intros Hl. revert n w. induction Hl as [|r l Hr Hl IH]; intros n w; cbn; [f_equal; lia|].
  rewrite names_target_fresh by done. rewrite IH. f_equal. lia.
Qed.

Lemma prepared_names now c rec : names_target rec -> Forall names_target (prepared_new now c rec).
Proof.
  unfold prepared_new. intros Hr. destruct (prepare_insert rec now c) as [[r|r]|e] eqn:P; try done.
  apply prepare_New in P as (_ & P & _). constructor; [|done].
  destruct (is_static rec); [by subst|]. destruct P as [-> _]. done.
Qed.

Lemma prepared_all_names now c recs : Forall names_target recs ->
  Forall names_target (mjoin (prepared_new now c <$> recs)).
Proof.
  induction 1 as [|r recs Hr _ IH]; [constructor|]. rewrite fmap_cons. apply Forall_app.
  split; [by apply prepared_names|done].
Qed.

Lemma transaction_run recs now w : Forall names_target recs ->
  transaction recs now w =
  if existsb (refused now (cache w)) recs then (0%nat, on_cache start_insert w)
  else
    let news := mjoin (prepared_new now (cache w) <$> recs) in
    (length news, insert_all news (on_cache start_insert w)).
Proof.
  intros Hn. unfold transaction, start_insert.
  destruct (stage_all_spec recs now (cache w) [] false) as (ch' & E & Hch). cbn [orb app] in E, Hch.
  unfold end_insert, on_cache. cbn [cache metrics]. rewrite E. cbn [insert_error set_chain new_chain].
  destruct (existsb (refused now (cache w)) recs); [done|].
  rewrite (Hch eq_refl). rewrite commit_all by (by apply prepared_all_names). done.
Qed.

(** An insert transaction is atomic. When validation refuses any record of
    the batch, the end of the transaction commits nothing: the cache and the
    counters are what they were. Otherwise all the records that are new are
    inserted, in order, and their number is returned; either way the next
    transaction starts clean. *)
Theorem transaction_atomic recs now w : Forall names_target recs ->
  transaction recs now w =
  if existsb (refused now (cache w)) recs then (0%nat, on_cache start_insert w)
  else
    let news := mjoin (prepared_new now (cache w) <$> recs) in
    (length news, insert_all news (on_cache start_insert w)).
Proof. apply transaction_run. Qed.

(** Insertions of records under other keys than [k]. *)
Lemma insert_all_other l k r w : Forall (fun x => key_of x <> k) l ->
  look k (cache (insert_all l w)) = Some r -> look k (cache w) = Some r.
Proof.
  intros Hl. revert w. induction Hl as [|x l Hx Hl IH]; intros w; [done|]. cbn. intros Hk%IH.
  apply look_insert_inv in Hk as [?|[? _]]; [done|congruence].
Qed.

Lemma length_insert rec w : lru_cap (records (cache w)) = Nat.max (max_size (cache w)) 1 ->
  (length (entries (cache (insert rec w))) <= S (length (entries (cache w))))%nat.
Proof.
  intros Hc. unfold insert. case_bool; [lia|]. unfold entries. simpl. rewrite lru_iter_put.
  unfold put_list. case_match; simpl; [|case_match; [lia|rewrite length_take; lia]].
  pose proof (length_remove_Some _ _ _ (lru_nodup (records (cache w))) H0). lia.
Qed.

Lemma insert_all_room l k r w : Forall (fun x => key_of x <> k) l -> wf (cache w) ->
  (length (entries (cache w)) + length l <= max_size (cache w))%nat ->
  look k (cache w) = Some r -> look k (cache (insert_all l w)) = Some r.
Proof.
  intros Hl. revert w. induction Hl as [|x l Hx Hl IH]; intros w Hw Hlen Hk; [done|]. cbn in *.
  pose proof (length_insert x w (wf_cap _ Hw)). apply IH.
  - by apply wf_insert.
  - destruct (insert_frame x w) as (-> & _). lia.
  - destruct (look_insert_ne x w k Hx) as [->|(_ & _ & Hf)]; [done|].
    rewrite (wf_cap _ Hw) in Hf. lia.
Qed.

Lemma prepared_keys now c recs k s : Forall (fun r => is_static r = false) recs ->
  look k c = Some s -> is_static s = true ->
  Forall (fun x => key_of x <> k) (mjoin (prepared_new now c <$> recs)).
Proof.
  intros Hr Hk Hs. induction Hr as [|r recs Hr _ IH]; [constructor|]. rewrite fmap_cons.
  apply Forall_app. split; [|done]. unfold prepared_new.
  destruct (prepare_insert r now c) as [[x|x]|e] eqn:P; try done. constructor; [|done].
  apply prepare_New in P as (_ & _ & Ek & _ & Hst). intros E. rewrite <- E, Ek in Hk.
  specialize (Hst Hr _ Hk). congruence.
Qed.

Lemma length_prepared now c recs : (length (mjoin (prepared_new now c <$> recs)) <= length recs)%nat.
Proof.
  induction recs as [|r recs IH]; [done|]. rewrite fmap_cons.
  change (length (prepared_new now c r ++ mjoin (prepared_new now c <$> recs)) <= S (length recs))%nat.
  rewrite length_app. assert (length (prepared_new now c r) <= 1)%nat; [|lia].
  unfold prepared_new. repeat case_match; cbn; lia.
Qed.

Lemma refused_static now c r s : is_static r = false -> look (key_of r) c = Some s -> is_static s = true ->
  prepared_new now c r = [] /\ (same_addr (cr_addr s) (cr_addr r) = false -> refused now c r = true).
Proof.
  intros Hr Hk Hs. unfold prepared_new, refused, prepare_insert. rewrite Hr. case_bool; [done|].
  unfold admit_record. rewrite lru_peek_iter. fold (entries c).
  set (r' := with_expires _ _). change (key_of r') with (key_of r). fold (look (key_of r) c).
  rewrite Hk, Hs. cbn. change (cr_addr r') with (cr_addr r).
  destruct (same_addr (cr_addr s) (cr_addr r)); done.
Qed.

Lemma insert_all_inv l k r w : look k (cache (insert_all l w)) = Some r ->
  look k (cache w) = Some r \/ (r ∈ l /\ k = key_of r).
Proof.
  revert w. induction l as [|x l IH]; intros w; [by left|]. cbn. intros [Hk|[Hin ->]]%IH; [|right; set_solver].
  apply look_insert_inv in Hk as [?|[-> ->]]; [by left|right; set_solver].
Qed.

(** Where a record found after a transaction comes from. *)
Lemma transaction_look recs now w k r : Forall names_target recs ->
  look k (cache (snd (transaction recs now w))) = Some r ->
  look k (cache w) = Some r \/
  exists r0, r0 ∈ recs /\ prepare_insert r0 now (cache w) = Ok (New r) /\ k = key_of r.
Proof.
  intros Hn. rewrite (transaction_run recs now w Hn). case_bool; [by left|]. cbn [snd].
  intros [?|[Hin ->]]%insert_all_inv; [by left|]. right. clear -Hin.
  induction recs as [|r0 recs IH]; [set_solver|]. rewrite fmap_cons in Hin.
  apply elem_of_app in Hin as [Hin|Hin].
  - exists r0. split; [set_solver|]. unfold prepared_new in Hin.
    destruct (prepare_insert r0 now (cache w)) as [[x|x]|?] eqn:P; [|set_solver..].
    by apply list_elem_of_singleton in Hin as ->.
  - destruct (IH Hin) as (y & ? & ? & ?). exists y. set_solver.
Qed.

(** C13: DNS answers never overwrite configuration. After a transaction of
    answers, a key that held a static record (hosts file, DHCP lease or option)
    holds that same record or none, and it is still there when the batch fits
    in the free space; an answer for its key is refused as a conflict, or
    dropped when it carries the same address. *)
Theorem static_records_protected recs now w k s :
  Forall names_target recs -> Forall (fun r => is_static r = false) recs ->
  wf (cache w) -> look k (cache w) = Some s -> is_static s = true ->
  let c' := cache (snd (transaction recs now w)) in
  (look k c' = Some s \/ look k c' = None) /\
  ((length (entries (cache w)) + length recs <= max_size (cache w))%nat -> look k c' = Some s) /\
  (forall r, r ∈ recs -> key_of r = k ->
     prepared_new now (cache w) r = [] /\
     (same_addr (cr_addr s) (cr_addr r) = false -> refused now (cache w) r = true)).
Proof.
  intros Hn Hr Hw Hk Hs. cbn zeta. rewrite (transaction_run recs now w Hn).
  pose proof (prepared_keys now (cache w) recs k s Hr Hk Hs) as Hkeys.
  assert (length (mjoin (prepared_new now (cache w) <$> recs)) <= length recs)%nat as Hlen
    by apply length_prepared.
  split_and!.
  - case_bool; [by left|]. cbn [snd]. destruct (look k (cache (insert_all _ _))) as [r|] eqn:E; [left|by right].
    apply insert_all_other in E; [|done]. change (look k (cache w) = Some r) in E. congruence.
  - intros Hroom. case_bool; [done|]. cbn [snd]. apply insert_all_room; [done|by apply wf_chain| |done].
    unfold entries in *. simpl in *. lia.
  - intros r Hin Hkr. pose proof (proj1 (Forall_forall _ _) Hr r Hin) as Hst.
    apply (refused_static now (cache w) r s); [done|by rewrite Hkr|done].
Qed.

(** Sweeping removes exactly what it should. Removing a uid takes out the
    static records that carry it, keeps every other record in its place and
    returns their number; the expiry sweep keeps exactly the live records, so
    that the cache then holds [cache_count] records. *)
Theorem sweeps_exact uid now w :
  let c := cache w in
  let of_uid (p : CacheKey * CacheRecord) := (cr_uid p.2 =? uid) && is_static p.2 in
  let '(n, c1) := remove_by_uid uid c in
  let '(m, w2) := evict_expired now w in
  (uid <> UID_NONE -> entries c1 = List.filter (fun p => negb (of_uid p)) (entries c)) /\
  (uid = UID_NONE -> c1 = c) /\
  (Z.of_nat (length (entries c)) < 4294967296 ->
     n = Z.of_nat (length (entries c)) - Z.of_nat (length (entries c1)) /\
     m = Z.of_nat (length (entries c)) - Z.of_nat (length (entries (cache w2)))) /\
  entries (cache w2) = List.filter (fun p => negb (record_is_expired p.2 now)) (entries c) /\
  len (cache w2) = cache_count now c /\ entries (expire_old now c) = entries (cache w2).
Proof.
  cbn zeta. destruct (evict_expired now w) as [m w2] eqn:E2. unfold evict_expired in E2.
  injection E2 as <- <-. unfold remove_by_uid.
  assert (forall P : CacheRecord -> bool,
    (length (keys_where P (records (cache w))) +
     length (List.filter (fun p => negb (P p.2)) (entries (cache w))))%nat = length (entries (cache w))) as Hsplit.
  { intros P. unfold keys_where. rewrite length_fmap. apply filter_length_split. }
  assert (entries (cache (evict_all (keys_where (fun r => record_is_expired r now) (records (cache w))) w)) =
    List.filter (fun p => negb (record_is_expired p.2 now)) (entries (cache w))) as He.
  { unfold entries. rewrite evict_all_records. apply iter_pop_where. }
  pose proof (Hsplit (fun r => record_is_expired r now)) as H1.
  pose proof (Hsplit (fun r => (cr_uid r =? uid) && is_static r)) as H2.
  pose proof (iter_pop_where (fun r => (cr_uid r =? uid) && is_static r) (records (cache w))) as Hr.
  cbv beta in H1, H2, Hr. destruct (uid =? UID_NONE) eqn:U; [apply Z.eqb_eq in U|apply Z.eqb_neq in U];
    (split_and!; [try done..| | | |]); try done.
  all: try (unfold len, cache_count; rewrite lru_len_iter; unfold entries in He; by rewrite He).
  all: try (rewrite He; unfold entries, expire_old; apply iter_pop_where).
  - intros Hb. rewrite He. unfold as_u32. rewrite Z.mod_small by lia. lia.
  - intros Hb. rewrite He. unfold entries at 2. cbn [records set_records]. rewrite Hr.
    unfold as_u32. rewrite !Z.mod_small by lia. unfold entries in *. lia.
Qed.

(** ** The abstract cache: a finite map that may forget *)

Definition abs c : gmap CacheKey CacheRecord := list_to_map (entries c).

Lemma abs_look c k : abs c !! k = look k c.
Proof.
  unfold abs, look. induction (entries c) as [|[k' r] l IH]; [done|].
  cbn. destruct (decide (k' = k)) as [->|Hne]; [by rewrite lookup_insert_eq|].
  rewrite lookup_insert_ne by done. exact IH.
Qed.

Lemma size_abs c : size (abs c) = length (entries c).
Proof. apply map_size_list_to_map, entries_nodup. Qed.

(** Insertion refines a finite map that may forget. The map after an
    insertion is the map before with the record under its key, less at most one
    victim; there is a victim only when the key is new and the map is full, and
    it is then the least recently used key. *)
Theorem insert_refines_map rec w : wf (cache w) -> max_size (cache w) <> 0%nat ->
  let m := abs (cache w) in
  exists victim,
    abs (cache (insert rec w)) =
      <[key_of rec := rec]> (match victim with Some v => delete v m | None => m end) /\
    match victim with
    | None => is_Some (m !! key_of rec) \/ (size m < max_size (cache w))%nat
    | Some v => m !! key_of rec = None /\ size m = max_size (cache w) /\
                fst <$> last (entries (cache w)) = Some v
    end.
Proof.
  intros Hw Hn m. set (c := cache w) in *. set (k := key_of rec).
  assert (entries (cache (insert rec w)) = put_list (max_size c) k rec (entries c)) as He.
  { unfold insert. fold c. rewrite (proj2 (Nat.eqb_neq _ _) Hn). unfold entries. simpl.
    rewrite lru_iter_put, (wf_cap _ Hw). f_equal. lia. }
  destruct (put_victim (max_size c) k rec (entries c)) as (victim & Hv & Hp);
    [apply entries_nodup|lia|apply wf_size; done|].
  exists victim. split.
  - apply map_eq. intros x. rewrite abs_look. unfold look. rewrite He, Hv. fold k.
    destruct victim as [v|]; destruct (decide (k = x)) as [->|Hne];
      rewrite ?lookup_insert_eq, ?lookup_insert_ne by done; try done.
    + destruct (decide (v = x)) as [->|]; [by rewrite decide_True, lookup_delete_eq by done|].
      rewrite decide_False, lookup_delete_ne by congruence. symmetry. apply abs_look.
    + rewrite decide_False by done. symmetry. apply abs_look.
  - unfold m. rewrite size_abs, abs_look. exact Hp.
Qed.
End CacheLemmas.

(** ** Concrete runs *)

#[local] Existing Instance ascii_tables.
#[local] Existing Instance list_lru.

Definition ex_answer (name : str) (ip ttl : Z) : CacheRecord :=
  mkRec name (F_FORWARD ∣∣ F_IPV4) ttl 0 (Some (Addr4 ip)) None UID_NONE.
Definition ex_host (name : str) (ip : Z) : CacheRecord :=
  mkRec name (F_FORWARD ∣∣ F_IPV4 ∣∣ F_HOSTS ∣∣ F_IMMORTAL) 0 0 (Some (Addr4 ip)) None 7.
Definition ex_world (n : nat) : World := mkWorld (with_ttl_limits n 0 3600) COUNTERS.
Definition ex_full : World :=
  insert (ex_host (bs "b.test") 2) (insert (ex_answer (bs "A.test") 1 300) (ex_world 2)).

Lemma cache_invariant_witness :
  inv 2 0 3600 (run_op (OInsert (ex_answer (bs "A.test") 1 300)) (ex_world 2)).
Proof. apply cache_invariant. apply reach_step, reach_new. Defined.

Lemma insert_then_lookup_witness :
  exists r, fst (lookup_by_name (bs "a.test") (F_FORWARD ∣∣ F_IPV4) 5
              (cache (snd (really_insert (ex_answer (bs "a.test") 1 7200) 3 (ex_world 2))))) = Some r /\
    cr_ttl r = 3600.
Proof.
  destruct (insert_then_lookup (ex_answer (bs "a.test") 1 7200) 3 5 (ex_world 2)) as (_ & _ & _ & Hl & _);
    try (by vm_compute).
  destruct Hl as (r & Hr & _ & Ht & _); [by vm_compute|]. exists r. split; [exact Hr|].
  rewrite Ht. by vm_compute.
Defined.

Lemma transaction_atomic_witness :
  fst (transaction [ex_answer (bs "x.test") 1 60; ex_answer (bs "b.test") 9 60] 0 ex_full) = 0%nat /\
  fst (transaction [ex_answer (bs "x.test") 1 60; ex_answer (bs "y.test") 9 60] 0 ex_full) = 2%nat.
Proof. split; rewrite transaction_atomic by (by repeat constructor); by vm_compute. Defined.

Lemma static_records_protected_witness :
  let c' := cache (snd (transaction [ex_answer (bs "x.test") 1 60] 0 ex_full)) in
  let k := key_of (ex_host (bs "b.test") 2) in
  look k c' = Some (ex_host (bs "b.test") 2) \/ look k c' = None.
Proof.
  apply (static_records_protected [ex_answer (bs "x.test") 1 60] 0 ex_full
    (key_of (ex_host (bs "b.test") 2)) (ex_host (bs "b.test") 2));
    try (by repeat constructor); try (by vm_compute).
Defined.

Lemma insert_refines_map_witness : exists victim,
  abs (cache (insert (ex_answer (bs "c.test") 3 60) ex_full)) =
    <[key_of (ex_answer (bs "c.test") 3 60) := ex_answer (bs "c.test") 3 60]>
      (match victim with Some v => delete v (abs (cache ex_full)) | None => abs (cache ex_full) end).
Proof.
  destruct (insert_refines_map (ex_answer (bs "c.test") 3 60) ex_full) as (v & Hv & _).
  - apply wf_insert, wf_insert, wf_new.
  - by vm_compute.
  - exists v. exact Hv.
Defined.

(** In a full cache the least recently used record goes, be it configuration. *)
Example full_cache_evicts_static :
  look (key_of (ex_host (bs "b.test") 2))
    (cache (insert (ex_answer (bs "d.test") 4 60) (insert (ex_answer (bs "c.test") 3 60) ex_full))) = None.
Proof. by vm_compute. Qed.

(** Replacing a record of a full cache is counted as an eviction. *)
Example replace_counts_eviction :
  evictions (cache (insert (ex_answer (bs "a.test") 8 60) ex_full)) = 1 /\
  len (cache (insert (ex_answer (bs "a.test") 8 60) ex_full)) = 2%nat.
Proof. by vm_compute. Qed.

Example next_uid_skips_none : next_uid 4294967295 = Some (4294967295, 0) /\ next_uid 0 = Some (1, 2).
Proof. by vm_compute. Qed.
