(* ===== verification/Extract.v ===== *)
(** * Cache population from upstream replies

    [extract_addresses] of src/src/rfc1035.rs with its helpers, and
    [cache_reply] of src/src/cache.rs: the walk along the CNAME chain of a
    reply, rebind protection, negative caching, and the commit of everything
    staged in one cache transaction. String slices that leave a character
    boundary panic, so the walk returns an [outcome]. *)

From Stdlib Require Import ZArith Lia String.
From stdpp Require Import base numbers list option gmap sets.
From S2P Require Import Prelude Types Metrics Lru Cache DnsProtocol ByteCursor Rfc1035 Arpa.

#[local] Open Scope Z_scope.

(** [types/network.rs]: one [--ipset] or [--nftset] option. *)
Record Ipsets : Type := mkIpsets { is_sets : list str; is_domain : str }.

Record ExtractConfig : Type := mkExtractConfig {
  xc_max_ttl : Z;
  xc_neg_ttl : Z;
  xc_check_rebind : bool;
  xc_local_rebind_ok : bool;
  xc_no_neg_cache : bool;
  xc_secure : bool;
  xc_cache_rr : list Z;
  xc_ipsets : list Ipsets;
  xc_nftsets : list Ipsets;
}.

Definition default_config : ExtractConfig := mkExtractConfig 0 0 false false false false [] [] [].

Record IpsetHit : Type := mkHit { set_name : str; hit_addr : IpAddr }.

Inductive ExtractResult : Type := Cached | RebindBlocked | BadPacket.
#[global] Instance ExtractResult_eq_dec : EqDecision ExtractResult.
Proof. solve_decision. Defined.

Record ExtractOutcome : Type := mkOutcome {
  x_result : ExtractResult; ipset_hits : list IpsetHit; nftset_hits : list IpsetHit }.

Definition CNAME_CHAIN_LIMIT : nat := 10.

Definition clamp_ttl (ttl max_ttl : Z) : Z :=
  if negb (max_ttl =? 0) && (max_ttl <? ttl) then max_ttl else ttl.

(** The longest configured domain that is [name] or a parent of it; later
    entries win ties. *)
Fixpoint find_sets_loop (setlist : list Ipsets) (name : str) (matchlen : nat) (result : option Ipsets)
  : outcome (option Ipsets) :=
  match setlist with
  | [] => Val result
  | entry :: rest =>
    let namelen := length name in
    let domainlen := length (is_domain entry) in
    if (domainlen <=? namelen)%nat then
      let matchstart := (namelen - domainlen)%nat in
      let# suffix := str_from name matchstart in
      let boundary_ok :=
        (domainlen =? 0)%nat || (namelen =? domainlen)%nat
        || bool_decide (name !! (matchstart - 1)%nat = Some dot) in
      if eq_ignore_ascii_case suffix (is_domain entry) && boundary_ok && (matchlen <=? domainlen)%nat
      then find_sets_loop rest name domainlen (Some entry)
      else find_sets_loop rest name matchlen result
    else find_sets_loop rest name matchlen result
  end.
Definition domain_find_sets (setlist : list Ipsets) (name : str) : outcome (option Ipsets) :=
  find_sets_loop setlist name 0 None.

Record SoaMatch : Type := mkSoa { soa_neg_ttl : Z; soa_owner : str; soa_rr_ttl : Z; soa_rdata : list u8 }.

Definition SOA : Z := 6.
Definition IN : Z := 1.

Section Extract.
Context `{UnicodeTables} {L : Lru CacheKey CacheRecord}.

(** The SOA whose owner covers the name has been found: read its fields. *)
Definition read_soa (rr : DnsRr) (owner : str) : option SoaMatch :=
  match extract_name (rdata rr) 0 with
  | Err _ => None
  | Ok (mname, p1) =>
    match extract_name (rdata rr) p1 with
    | Err _ => None
    | Ok (rname, pos) =>
      if (length (rdata rr) <? pos + 20)%nat then None
      else
        let minimum := of_be (take 4 (drop (pos + 16) (rdata rr))) in
        let wire := put_slice (write_name (write_name [] mname) rname) (take 20 (drop pos (rdata rr))) in
        Some (mkSoa (Z.min (ttl rr) minimum) owner (ttl rr) wire)
    end
  end.

Fixpoint find_soa (name : str) (authority : list DnsRr) : outcome (option SoaMatch) :=
  match authority with
  | [] => Val None
  | rr :: rest =>
    if negb (rtype rr =? SOA) || negb (class rr =? IN) then find_soa name rest
    else
      let owner := to_lowercase (r_name rr) in
      let soa_len := length owner in
      if (length name <? soa_len)%nat then find_soa name rest
      else
        let# suffix := str_from name (length name - soa_len) in
        if negb (eq_ignore_ascii_case suffix owner) then find_soa name rest
        else Val (read_soa rr owner)
  end.

(** The insert transaction, unless the reply has CD set or RA clear. *)
Definition commit_staged (staged : list CacheRecord) (h : DnsHeader) (now : Instant) (w : World) : World :=
  if is_cd h || negb (is_ra h) then w
  else
    let c1 := fold_left (fun c r => snd (stage_insert r now c)) staged (start_insert (cache w)) in
    snd (end_insert (mkWorld c1 (metrics w))).

Definition cached_no_hits : ExtractOutcome := mkOutcome Cached [] [].
Definition bad_no_hits : ExtractOutcome := mkOutcome BadPacket [] [].

(** ** PTR replies *)

(** The record staged for one PTR answer. *)
Definition ptr_record (target : str) (flags ttl : Z) (ip : AllAddr) (now : Instant) : CacheRecord :=
  mkRec target flags ttl (add_secs now ttl) (Some ip) None UID_NONE.

(** The loop over the answers: [None] is the early return for a bad packet. *)
Fixpoint ptr_loop (answers : list DnsRr) (qname : str) (flags : Z) (ip : AllAddr) (now : Instant)
    (cfg : ExtractConfig) (staged : list CacheRecord) (found : bool)
  : option (list CacheRecord * bool) :=
  match answers with
  | [] => Some (staged, found)
  | rr :: rest =>
    if negb (rtype rr =? 12) || negb (class rr =? 1) then ptr_loop rest qname flags ip now cfg staged found
    else if negb (eq_ignore_ascii_case (r_name rr) qname)
         then ptr_loop rest qname flags ip now cfg staged found
    else match extract_name (rdata rr) 0 with
         | Err _ => None
         | Ok (target, _) =>
           let t := clamp_ttl (ttl rr) (xc_max_ttl cfg) in
           ptr_loop rest qname flags ip now cfg (staged ++ [ptr_record target flags t ip now]) true
         end
  end.

Definition extract_ptr_answers (p : DnsPacket) (q : DnsQuestion) (qname_lower : str) (secflag : Z)
    (now : Instant) (cfg : ExtractConfig) (w : World) : ExtractOutcome * World :=
  match in_arpa_name_2_addr qname_lower with
  | Some ip_addr =>
    let addr_flag := match ip_addr with Addr4 _ => F_IPV4 | Addr6 _ => F_IPV6 | _ => 0 end in
    match ptr_loop (answers p) (q_name q) (addr_flag ∣∣ F_REVERSE ∣∣ secflag) ip_addr now cfg [] false with
    | None => (bad_no_hits, w)
    | Some (staged, found) =>
      if found then (cached_no_hits, commit_staged staged (header p) now w)
      else (cached_no_hits, w)
    end
  | None => (cached_no_hits, w)
  end.

(** ** Forward replies *)

(** The question of the walk and what it depends on. *)
Record walk_env : Type := mkWalkEnv {
  we_qtype : Z; we_addr_flag : Z; we_insert : bool; we_secflag : Z; we_nx : bool;
  we_ipset : option Ipsets; we_nftset : option Ipsets; we_now : Instant; we_cfg : ExtractConfig }.

(** The mutable locals of the walk. *)
Record walk_st : Type := mkWalk {
  ws_staged : list CacheRecord; ws_ip : list IpsetHit; ws_nft : list IpsetHit;
  ws_name : str; ws_hops : nat; ws_found : bool }.

(** How one pass over the answers ends: [continue 'cname_loop], [break
    'cname_loop] (also at the end of the answers), or a [return]. *)
Inductive pass_end : Type :=
| Restart (st : walk_st)
| Stop (st : walk_st)
| Return (r : ExtractResult) (st : walk_st).

Definition addr_flag_of (qtype : Z) (cfg : ExtractConfig) : Z * bool :=
  if qtype =? 1 then (F_IPV4, true)
  else if qtype =? 28 then (F_IPV6, true)
  else if negb (qtype =? 5)
          && ((qtype =? 33) || (qtype =? 12) || bool_decide (qtype ∈ xc_cache_rr cfg)
              || bool_decide (255 ∈ xc_cache_rr cfg))
  then (F_RR, true)
  else (0, false).

(** The address or payload of an answer of the queried type, or the early
    return. *)
Definition answer_addr (e : walk_env) (rr : DnsRr) : result AllAddr ExtractResult :=
  if we_qtype e =? 1 then
    (if (length (rdata rr) <? 4)%nat then Err BadPacket
     else
       let ip := of_be (take 4 (rdata rr)) in
       if xc_check_rebind (we_cfg e) && private_net ip (negb (xc_local_rebind_ok (we_cfg e)))
       then Err RebindBlocked else Ok (Addr4 ip))
  else if we_qtype e =? 28 then
    (if (length (rdata rr) <? 16)%nat then Err BadPacket
     else
       let ip := of_be (take 16 (rdata rr)) in
       if xc_check_rebind (we_cfg e) && private_net6 ip (negb (xc_local_rebind_ok (we_cfg e)))
       then Err RebindBlocked else Ok (Addr6 ip))
  else Ok (RrData (mkRrData (rtype rr) (rdata rr))).

Definition set_hits (set : option Ipsets) (a : AllAddr) : list IpsetHit :=
  match set, as_ip a with
  | Some s, Some ip => (fun n => mkHit n ip) <$> is_sets s
  | _, _ => []
  end.

Definition cname_record (e : walk_env) (name target : str) (ttl : Z) : CacheRecord :=
  mkRec name (F_CNAME ∣∣ F_FORWARD ∣∣ we_secflag e) ttl (add_secs (we_now e) ttl)
    (Some (Cname (mkCname true (Some target) 0))) None UID_NONE.
Definition answer_record (e : walk_env) (name : str) (a : AllAddr) (ttl : Z) : CacheRecord :=
  mkRec name (we_addr_flag e ∣∣ F_FORWARD ∣∣ we_secflag e) ttl (add_secs (we_now e) ttl)
    (Some a) None UID_NONE.

(** A CNAME answer for the current name. *)
Definition cname_step (e : walk_env) (rr : DnsRr) (st : walk_st) : pass_end :=
  let ttl := clamp_ttl (ttl rr) (xc_max_ttl (we_cfg e)) in
  if (CNAME_CHAIN_LIMIT <=? ws_hops st)%nat then Stop st
  else match extract_name (rdata rr) 0 with
       | Err _ => Return BadPacket st
       | Ok (t, _) =>
         let target := to_lowercase t in
         let staged := if we_insert e then ws_staged st ++ [cname_record e (ws_name st) target ttl]
                       else ws_staged st in
         let st1 := mkWalk staged (ws_ip st) (ws_nft st) target (S (ws_hops st)) (ws_found st) in
         if we_qtype e =? 5
         then Stop (mkWalk staged (ws_ip st) (ws_nft st) target (S (ws_hops st)) true)
         else Restart st1
       end.

(** The [for rr in &packet.answers] loop of one pass. *)
Fixpoint pass (e : walk_env) (rrs : list DnsRr) (st : walk_st) : pass_end :=
  match rrs with
  | [] => Stop st
  | rr :: rest =>
    if negb (class rr =? 1) then pass e rest st
    else if negb (eq_ignore_ascii_case (r_name rr) (ws_name st)) then pass e rest st
    else if rtype rr =? 5 then cname_step e rr st
    else if negb (rtype rr =? we_qtype e) || we_nx e then pass e rest st
    else match answer_addr e rr with
         | Err r => Return r st
         | Ok a =>
           let ttl := clamp_ttl (ttl rr) (xc_max_ttl (we_cfg e)) in
           pass e rest (mkWalk
             (if we_insert e then ws_staged st ++ [answer_record e (ws_name st) a ttl] else ws_staged st)
             (ws_ip st ++ set_hits (we_ipset e) a) (ws_nft st ++ set_hits (we_nftset e) a)
             (ws_name st) (ws_hops st) true)
         end
  end.

(** The ['cname_loop]. A pass restarts only with one more hop, at most
    [CNAME_CHAIN_LIMIT] of them: [WALK_FUEL] passes always suffice. *)
Fixpoint cname_loop (fuel : nat) (e : walk_env) (rrs : list DnsRr) (st : walk_st) : option pass_end :=
  match fuel with
  | O => None
  | S f =>
    match pass e rrs st with
    | Restart st1 => cname_loop f e rrs st1
    | r => Some r
    end
  end.
Definition WALK_FUEL : nat := 11.

(** What the walk of a reply ends with. *)
Definition walk (e : walk_env) (p : DnsPacket) (qname_lower : str) : option pass_end :=
  cname_loop WALK_FUEL e (answers p) (mkWalk [] [] [] qname_lower 0 false).

(** The records negative caching adds. *)
Definition negative_records (e : walk_env) (p : DnsPacket) (st : walk_st) : outcome (list CacheRecord) :=
  let cfg := we_cfg e in
  if negb (ws_found st) && negb (xc_no_neg_cache cfg) && (we_insert e || we_nx e) then
    let# soa := find_soa (ws_name st) (authority p) in
    let ttl := match soa with
               | Some s => Some (clamp_ttl (soa_neg_ttl s) (xc_max_ttl cfg))
               | None => if 0 <? xc_neg_ttl cfg then Some (xc_neg_ttl cfg) else None
               end in
    match ttl with
    | None => Val []
    | Some ttl =>
      let soa_recs :=
        match soa with
        | Some s =>
          let rr_ttl := clamp_ttl (soa_rr_ttl s) (xc_max_ttl cfg) in
          [mkRec (soa_owner s) (F_FORWARD ∣∣ F_RR ∣∣ F_KEYTAG ∣∣ we_secflag e) rr_ttl
             (add_secs (we_now e) rr_ttl) (Some (RrBlock (mkRrBlock 6 (soa_rdata s)))) None UID_NONE]
        | None => []
        end in
      let neg_flags := if we_nx e then F_NXDOMAIN ∣∣ F_NEG ∣∣ F_FORWARD ∣∣ we_secflag e
                       else we_addr_flag e ∣∣ F_NEG ∣∣ F_FORWARD ∣∣ we_secflag e in
      Val (soa_recs ++ [mkRec (ws_name st) neg_flags ttl (add_secs (we_now e) ttl) None None UID_NONE])
    end
  else Val [].

Definition extract_addresses (p : DnsPacket) (now : Instant) (cfg : ExtractConfig) (w : World)
  : outcome (ExtractOutcome * World) :=
  match questions p with
  | [q] =>
    if negb (qclass q =? 1) then Val (cached_no_hits, w)
    else
      let qname_lower := to_lowercase (q_name q) in
      let nx := rcode (header p) =? 3 in
      let secflag := if xc_secure cfg then F_DNSSECOK else 0 in
      if qtype q =? 12 then Val (extract_ptr_answers p q qname_lower secflag now cfg w)
      else
        let '(addr_flag, ins) := addr_flag_of (qtype q) cfg in
        let# ipset_match := domain_find_sets (xc_ipsets cfg) qname_lower in
        let# nftset_match := domain_find_sets (xc_nftsets cfg) qname_lower in
        let e := mkWalkEnv (qtype q) addr_flag ins secflag nx ipset_match nftset_match now cfg in
        match walk e p qname_lower with
        | Some (Return r st) => Val (mkOutcome r (ws_ip st) (ws_nft st), w)
        | Some (Stop st) =>
          let# neg := negative_records e p st in
          Val (mkOutcome Cached (ws_ip st) (ws_nft st),
               commit_staged (ws_staged st ++ neg) (header p) now w)
        | Some (Restart _) | None => Panic
        end
  | _ => Val (bad_no_hits, w)
  end.

Definition cache_reply (wire : list u8) (now : Instant) (cfg : ExtractConfig) (w : World)
  : outcome (ExtractOutcome * World) :=
  match parse wire with
  | Err _ => Val (bad_no_hits, w)
  | Ok p => extract_addresses p now cfg w
  end.

End Extract.

(** ** Lemmas on the walk *)

Section ExtractLemmas.
Context `{UnicodeTables} {L : Lru CacheKey CacheRecord}.
Implicit Types (e : walk_env) (st : walk_st) (w : World) (rr : DnsRr) (r : CacheRecord).

Definition st_of (x : pass_end) : walk_st :=
  match x with Restart st | Stop st | Return _ st => st end.

(** The state after an answer of the queried type. *)
Definition with_answer e rr (a : AllAddr) st : walk_st :=
  mkWalk (if we_insert e
          then ws_staged st ++ [answer_record e (ws_name st) a (clamp_ttl (ttl rr) (xc_max_ttl (we_cfg e)))]
          else ws_staged st)
    (ws_ip st ++ set_hits (we_ipset e) a) (ws_nft st ++ set_hits (we_nftset e) a)
    (ws_name st) (ws_hops st) true.

(** The state after a CNAME answer. *)
Definition with_cname e rr (target : str) (found : bool) st : walk_st :=
  mkWalk (if we_insert e
          then ws_staged st ++ [cname_record e (ws_name st) target (clamp_ttl (ttl rr) (xc_max_ttl (we_cfg e)))]
          else ws_staged st)
    (ws_ip st) (ws_nft st) target (S (ws_hops st)) found.

(** Whatever the two state updates preserve holds where a pass ends. *)
Lemma pass_ind e (I : walk_st -> Prop) rrs st :
  (forall rr a s, I s -> answer_addr e rr = Ok a -> I (with_answer e rr a s)) ->
  (forall rr t f s, I s -> (ws_hops s < CNAME_CHAIN_LIMIT)%nat -> I (with_cname e rr t f s)) ->
  I st -> I (st_of (pass e rrs st)).
Proof.
  intros Ha Hc. revert st. induction rrs as [|rr rrs IH]; intros st Hst; [done|]. cbn [pass].
  repeat (case_bool; [by apply IH|]). case_bool.
  - unfold cname_step. case_bool; [done|]. apply Nat.leb_gt in Heqb2.
    destruct (extract_name (rdata rr) 0) as [[t n]|err]; [|done].
    case_bool; cbn [st_of]; by apply Hc.
  - case_bool; [by apply IH|]. destruct (answer_addr e rr) as [a|x] eqn:E; [|done].
    apply IH. by apply Ha.
Qed.

Lemma cname_loop_ind e (I : walk_st -> Prop) fuel rrs st x :
  (forall rr a s, I s -> answer_addr e rr = Ok a -> I (with_answer e rr a s)) ->
  (forall rr t f s, I s -> (ws_hops s < CNAME_CHAIN_LIMIT)%nat -> I (with_cname e rr t f s)) ->
  I st -> cname_loop fuel e rrs st = Some x -> I (st_of x).
Proof.
  intros Ha Hc. revert st. induction fuel as [|f IH]; intros st Hst; [done|]. cbn [cname_loop].
  pose proof (pass_ind e I rrs st Ha Hc Hst) as Hp.
  destruct (pass e rrs st); cbn [st_of] in Hp; [by apply IH|by intros [= <-]..].
Qed.

(** A pass that restarts has taken one hop. *)
Lemma pass_restart e rrs st st1 : pass e rrs st = Restart st1 ->
  ws_hops st1 = S (ws_hops st) /\ (ws_hops st < CNAME_CHAIN_LIMIT)%nat.
Proof.
  revert st. induction rrs as [|rr rrs IH]; intros st; cbn [pass]; [done|].
  repeat (case_bool; [apply IH|]). case_bool.
  - unfold cname_step. case_bool; [done|]. apply Nat.leb_gt in Heqb2.
    destruct (extract_name (rdata rr) 0) as [[t n]|err]; [|done].
    case_bool; [done|]. by intros [= <-].
  - case_bool; [apply IH|]. destruct (answer_addr e rr); [|done]. intros Hr%IH. exact Hr.
Qed.

Lemma cname_loop_total e rrs fuel st : (CNAME_CHAIN_LIMIT - ws_hops st < fuel)%nat ->
  exists x, cname_loop fuel e rrs st = Some x /\ forall s, x <> Restart s.
Proof.
  revert st. induction fuel as [|f IH]; intros st Hf; [lia|]. cbn [cname_loop].
  destruct (pass e rrs st) as [s|s|r s] eqn:E; [|eauto..].
  apply pass_restart in E as [Eh Hl]. apply IH. lia.
Qed.

Lemma walk_total e p name : exists x, walk e p name = Some x /\ forall s, x <> Restart s.
Proof. apply cname_loop_total. cbn. unfold WALK_FUEL, CNAME_CHAIN_LIMIT. lia. Qed.

Lemma pass_return e rrs st res s : pass e rrs st = Return res s -> res <> Cached.
Proof.
  revert st. induction rrs as [|rr rrs IH]; intros st; cbn [pass]; [done|].
  repeat (case_bool; [apply IH|]). case_bool.
  - unfold cname_step. case_bool; [done|]. destruct (extract_name (rdata rr) 0) as [[t n]|err].
    + by case_bool.
    + by intros [= <- _].
  - case_bool; [apply IH|]. destruct (answer_addr e rr) as [a|x] eqn:E; [apply IH|].
    intros [= <- _]. revert E. unfold answer_addr. repeat case_bool; try discriminate; by intros [= <-].
Qed.

Lemma return_not_cached e p name res s : walk e p name = Some (Return res s) -> res <> Cached.
Proof.
  unfold walk. generalize (mkWalk [] [] [] name 0 false). induction WALK_FUEL as [|f IH]; intros st; [done|].
  cbn [cname_loop]. destruct (pass e (answers p) st) eqn:E; [apply IH|done|].
  intros [= -> ->]. by apply pass_return in E.
Qed.

(** Following the CNAME records of a list from a name: every record belongs to
    the name reached so far. *)
Fixpoint chain (cur : str) (l : list CacheRecord) : option str :=
  match l with
  | [] => Some cur
  | r :: l' =>
    if decide (cr_name r = cur) then
      match cr_addr r with
      | Some (Cname c) => let! t := target_name c in chain t l'
      | _ => chain cur l'
      end
    else None
  end.

Lemma chain_app cur l l' : chain cur (l ++ l') = let! mid := chain cur l in chain mid l'.
Proof.
  revert cur. induction l as [|r l IH]; intros cur; [done|]. cbn. case_decide; [|done].
  destruct (cr_addr r) as [[]|]; try apply IH. by destruct (target_name c).
Qed.

Definition is_cname_rec r : bool := match cr_addr r with Some (Cname _) => true | _ => false end.

Lemma answer_not_cname e rr a : answer_addr e rr = Ok a -> forall c, a <> Cname c.
Proof. unfold answer_addr. repeat case_bool; try discriminate; intros [= <-]; done. Qed.

(** The rebind rule on an address. *)
Definition rebind_ok (cfg : ExtractConfig) (a : option AllAddr) : Prop :=
  xc_check_rebind cfg = true ->
  match a with
  | Some (Addr4 ip) => private_net ip (negb (xc_local_rebind_ok cfg)) = false
  | Some (Addr6 ip) => private_net6 ip (negb (xc_local_rebind_ok cfg)) = false
  | _ => True
  end.

Lemma answer_rebind_ok e rr a : answer_addr e rr = Ok a -> rebind_ok (we_cfg e) (Some a).
Proof.
  unfold answer_addr. repeat case_bool; try discriminate; intros [= <-] Hr;
    rewrite ?Hr in *; cbn in *; try done.
Qed.

(** What every staged record satisfies: it is a DNS answer with a bounded TTL
    that does not break the rebind rule. *)
Record staged_ok (cfg : ExtractConfig) (forward : bool) r : Prop := {
  so_static : is_static r = false;
  so_dnssec : has (cr_flags r) (F_DNSKEY ∣∣ F_DS) = false;
  so_forward : has (cr_flags r) F_FORWARD = forward;
  so_names : names_target r;
  so_ttl : xc_max_ttl cfg <> 0 -> cr_ttl r <= Z.max (xc_max_ttl cfg) (xc_neg_ttl cfg);
  so_rebind : forward = true -> rebind_ok cfg (cr_addr r);
}.

Lemma clamp_ttl_le t m : m <> 0 -> clamp_ttl t m <= m.
Proof. intros Hm. unfold clamp_ttl. rewrite (proj2 (Z.eqb_neq _ _) Hm). cbn. case_bool; lia. Qed.

(** The flag words the walk builds. *)
Definition env_ok e : Prop :=
  (we_addr_flag e = F_IPV4 \/ we_addr_flag e = F_IPV6 \/ we_addr_flag e = F_RR \/ we_addr_flag e = 0) /\
  (we_secflag e = F_DNSSECOK \/ we_secflag e = 0).

Ltac flag_cases H :=
  let Fa := fresh in let Fs := fresh in
  destruct H as [Fa Fs]; unfold is_static; cbn [cr_flags];
  destruct Fa as [Fa|[Fa|[Fa|Fa]]], Fs as [Fs|Fs]; rewrite ?Fa, ?Fs; by vm_compute.

Lemma answer_staged_ok e rr a name : env_ok e -> answer_addr e rr = Ok a ->
  staged_ok (we_cfg e) true (answer_record e name a (clamp_ttl (ttl rr) (xc_max_ttl (we_cfg e)))).
Proof.
  intros He Ha. split; unfold answer_record; try (flag_cases He).
  - unfold names_target. cbn. destruct a as [| |c| | | | |]; try done. by destruct (answer_not_cname _ _ _ Ha c).
  - cbn. intros Hm. pose proof (clamp_ttl_le (ttl rr) _ Hm). lia.
  - intros _. by apply (answer_rebind_ok e rr).
Qed.

Lemma cname_staged_ok e rr name t : env_ok e ->
  staged_ok (we_cfg e) true (cname_record e name t (clamp_ttl (ttl rr) (xc_max_ttl (we_cfg e)))).
Proof.
  intros He. split; unfold cname_record; try (flag_cases He); try done.
  cbn. intros Hm. pose proof (clamp_ttl_le (ttl rr) _ Hm). lia.
Qed.

Lemma walk_staged_ok e p name x : env_ok e -> walk e p name = Some x ->
  Forall (staged_ok (we_cfg e) true) (ws_staged (st_of x)).
Proof.
  intros He. apply (cname_loop_ind e (fun s => Forall (staged_ok (we_cfg e) true) (ws_staged s))).
  - intros rr a s Hs Ha. cbn. case_bool; [|done]. apply Forall_app. split; [done|].
    constructor; [by apply answer_staged_ok|done].
  - intros rr t f s Hs _. cbn. case_bool; [|done]. apply Forall_app. split; [done|].
    constructor; [by apply cname_staged_ok|done].
  - constructor.
Qed.

Lemma negative_staged_ok e p st l : env_ok e -> negative_records e p st = Val l ->
  Forall (staged_ok (we_cfg e) true) l.
Proof.
  intros He. unfold negative_records. case_bool; [|by intros [= <-]].
  destruct (find_soa (ws_name st) (authority p)) as [[s|]|]; [| |done].
  - intros [= <-]. repeat constructor; try (flag_cases He); try done;
      try (cbn; intros Hm; pose proof (clamp_ttl_le (soa_rr_ttl s) _ Hm); pose proof (clamp_ttl_le (soa_neg_ttl s) _ Hm); lia).
    all: destruct (we_nx e); flag_cases He.
  - case_bool; [|by intros [= <-]]. intros [= <-]. repeat constructor; try done;
      try (cbn; intros Hm; lia).
    all: destruct (we_nx e); flag_cases He.
Qed.

(** ** From the walk to the cache *)

Lemma commit_staged_eq staged h now w :
  commit_staged staged h now w =
  if is_cd h || negb (is_ra h) then w else snd (transaction staged now w).
Proof. done. Qed.

Lemma ptr_loop_ok rrs qname flags ip now cfg staged found staged' found' :
  (forall t n, staged_ok cfg false (ptr_record n flags (clamp_ttl t (xc_max_ttl cfg)) ip now)) ->
  Forall (staged_ok cfg false) staged ->
  ptr_loop rrs qname flags ip now cfg staged found = Some (staged', found') ->
  Forall (staged_ok cfg false) staged'.
Proof.
  intros Hr. revert staged found. induction rrs as [|rr rrs IH]; intros staged found Hs; cbn [ptr_loop].
  - by intros [= <- _].
  - repeat (case_bool; [by apply IH|]). destruct (extract_name (rdata rr) 0) as [[t n]|]; [|done].
    apply IH. apply Forall_app. split; [done|]. constructor; [apply Hr|done].
Qed.

Lemma arpa_addr_cases s a : in_arpa_name_2_addr s = Some a -> exists x, a = Addr4 x \/ a = Addr6 x.
Proof. unfold in_arpa_name_2_addr. repeat case_match; try discriminate; intros [= <-]; eauto. Qed.

Lemma ptr_record_ok cfg ip sec now t n : (exists x, ip = Addr4 x \/ ip = Addr6 x) ->
  sec = F_DNSSECOK \/ sec = 0 ->
  staged_ok cfg false (ptr_record n ((match ip with Addr4 _ => F_IPV4 | Addr6 _ => F_IPV6 | _ => 0 end)
    ∣∣ F_REVERSE ∣∣ sec) (clamp_ttl t (xc_max_ttl cfg)) ip now).
Proof.
  intros [x [-> | ->]] [-> | ->]; split; try (by vm_compute); try done; cbn; intros Hm;
    pose proof (clamp_ttl_le t _ Hm); lia.
Qed.

(** Every way [extract_addresses] can end. *)
Lemma extract_inv p now cfg w o w' : extract_addresses p now cfg w = Val (o, w') ->
  (x_result o <> Cached /\ w' = w) \/
  (x_result o = Cached /\ (w' = w \/ exists fwd staged,
     Forall (staged_ok cfg fwd) staged /\ w' = commit_staged staged (header p) now w)).
Proof.
  unfold extract_addresses. destruct (questions p) as [|q [|? ?]]; try (by intros [= <- <-]; left).
  case_bool; [intros [= <- <-]; right; eauto|]. set (sec := if xc_secure cfg then F_DNSSECOK else 0).
  assert (sec = F_DNSSECOK \/ sec = 0) as Hsec by (unfold sec; destruct (xc_secure cfg); eauto).
  case_bool.
  - intros [= E]. revert E. unfold extract_ptr_answers.
    destruct (in_arpa_name_2_addr _) as [ip|] eqn:A; [|intros [= <- <-]; right; eauto].
    apply arpa_addr_cases in A. destruct (ptr_loop _ _ _ _ _ _ _ _) as [[staged found]|] eqn:P;
      [|by intros [= <- <-]; left]. apply ptr_loop_ok in P; [|intros; by apply ptr_record_ok|done].
    destruct found; intros [= <- <-]; right; eauto 8.
  - destruct (addr_flag_of (qtype q) cfg) as [af ins] eqn:Eaf.
    destruct (domain_find_sets (xc_ipsets cfg) _) as [im|]; [|done].
    destruct (domain_find_sets (xc_nftsets cfg) _) as [nm|]; [|done].
    set (e := mkWalkEnv _ _ _ _ _ _ _ _ _).
    assert (env_ok e) as He.
    { split; [|done]. cbn. unfold addr_flag_of in Eaf. repeat case_bool; injection Eaf as <- _; tauto. }
    destruct (walk e p _) as [x|] eqn:W; [|done]. pose proof (walk_staged_ok e p _ x He W) as Hx.
    pose proof (walk_total e p (to_lowercase (q_name q))) as (x' & W' & Hnr).
    assert (x' = x) as -> by congruence. destruct x as [s|s|res s]; [by destruct (Hnr s)| |].
    + destruct (negative_records e p s) as [neg|] eqn:N; [|done]. apply negative_staged_ok in N; [|done].
      intros [= <- <-]. right. split; [done|]. right. exists true, (ws_staged s ++ neg).
      split; [by apply Forall_app|done].
    + intros [= <- <-]. left. split; [|done]. cbn. apply (return_not_cached e p _ res s W).
Qed.

(** ** Properties *)

(** C5: a reply only ever adds harmless answers. A reply that is malformed or
    blocked by rebind protection, or that has CD set or RA clear, leaves the
    cache and the counters exactly as they were. Whatever a key holds after any
    other reply was there before, or is a DNS answer that took no static
    record's place, respects the TTL limits, and, for a forward record under
    rebind protection, is not a private address. *)
Theorem reply_caching_safe p now cfg w o w' :
  extract_addresses p now cfg w = Val (o, w') ->
  (x_result o <> Cached -> w' = w) /\
  (is_cd (header p) = true \/ is_ra (header p) = false -> w' = w) /\
  (forall k r, look k (cache w') = Some r ->
     look k (cache w) = Some r \/
     (is_static r = false /\ (forall s, look k (cache w) = Some s -> is_static s = false) /\
      (xc_max_ttl cfg <> 0 ->
        cr_ttl r <= Z.max (Z.max (xc_max_ttl cfg) (xc_neg_ttl cfg)) (min_cache_ttl (cache w))) /\
      cr_expires r = add_secs now (cr_ttl r) /\
      (has (cr_flags r) F_FORWARD = true -> rebind_ok cfg (cr_addr r)))).
Proof.
  intros [[Hc ->]|[Hc Hw]]%extract_inv; [by auto|]. split; [done|]. split.
  - intros Hg. destruct Hw as [->|(fwd & staged & _ & ->)]; [done|]. rewrite commit_staged_eq.
    destruct Hg as [-> | ->]; [done|]. by rewrite orb_true_r.
  - intros k r. destruct Hw as [->|(fwd & staged & Hs & ->)]; [by left|]. rewrite commit_staged_eq.
    case_bool; [by left|]. intros [?|(r0 & Hin & P & ->)]%transaction_look; [by left| |].
    + right. destruct (proj1 (Forall_forall _ _) Hs r0 Hin) as [Hst Hd Hf _ Ht Hr].
      apply prepare_New in P as (_ & E & Ek & Es & Hov). rewrite Hst in E. destruct E as [-> _].
      split_and!; [congruence| | |done|].
      * intros s. rewrite Ek. by apply Hov.
      * cbn. intros Hm. specialize (Ht Hm). unfold clamped_ttl. rewrite Hd. repeat case_bool; lia.
      * cbn. intros Hff. apply Hr. congruence.
    + eapply Forall_impl; [exact Hs|]. by intros x [].
Qed.

Lemma chain_inv e p name x : we_insert e = true -> walk e p name = Some x ->
  chain name (ws_staged (st_of x)) = Some (ws_name (st_of x)) /\
  length (List.filter is_cname_rec (ws_staged (st_of x))) = ws_hops (st_of x) /\
  (ws_hops (st_of x) <= CNAME_CHAIN_LIMIT)%nat.
Proof.
  intros Hi. apply (cname_loop_ind e (fun s =>
    chain name (ws_staged s) = Some (ws_name s) /\
    length (List.filter is_cname_rec (ws_staged s)) = ws_hops s /\ (ws_hops s <= CNAME_CHAIN_LIMIT)%nat)).
  - intros rr a s (Hc & Hn & Hl) Ha. cbn. rewrite Hi, chain_app, Hc, List.filter_app, length_app, Hn. cbn.
    rewrite decide_True by done. pose proof (answer_not_cname _ _ _ Ha) as Hnc.
    unfold is_cname_rec. cbn. destruct a; cbn; try (split_and!; [done|lia|done]). by destruct (Hnc c).
  - intros rr t f s (Hc & Hn & Hl) Hlt. cbn. rewrite Hi, chain_app, Hc, List.filter_app, length_app, Hn. cbn.
    rewrite decide_True by done. split_and!; [done|lia|lia].
  - cbn. split_and!; [done|done|lia].
Qed.

(** The walk along a reply terminates on every packet, however its CNAMEs
    loop; it follows at most [CNAME_CHAIN_LIMIT] of them, and what it stages is
    a chain: each record belongs to the name the CNAMEs before it lead to from
    the question, and the walk ends at the last of those names. *)
Theorem cname_walk_bounded e p name :
  exists x, walk e p name = Some x /\ (forall s, x <> Restart s) /\
    (we_insert e = true ->
       chain name (ws_staged (st_of x)) = Some (ws_name (st_of x)) /\
       length (List.filter is_cname_rec (ws_staged (st_of x))) = ws_hops (st_of x) /\
       (ws_hops (st_of x) <= CNAME_CHAIN_LIMIT)%nat).
Proof.
  destruct (walk_total e p name) as (x & W & Hx). exists x. split_and!; [done..|].
  intros Hi. by apply (chain_inv e p name x).
Qed.

(** ** Negative caching *)

Lemma clamped_pos c r : 0 < min_cache_ttl c -> has (cr_flags r) (F_DNSKEY ∣∣ F_DS) = false ->
  0 < clamped_ttl c r.
Proof.
  intros Hmin Hd. unfold clamped_ttl. rewrite Hd. destruct (min_cache_ttl c =? 0) eqn:E; [lia|].
  cbn. repeat case_bool; lia.
Qed.

(** A record that is not a zero-TTL one meets no obstacle in a cache without
    configuration records. *)
Lemma not_refused now c r : max_size c <> 0%nat -> 0 < min_cache_ttl c ->
  Forall (fun p => is_static p.2 = false) (entries c) ->
  is_static r = false -> has (cr_flags r) (F_DNSKEY ∣∣ F_DS) = false ->
  prepare_insert r now c =
    Ok (New (with_expires (with_ttl r (clamped_ttl c r)) (add_secs now (clamped_ttl c r)))).
Proof.
  intros Hm Hmin Hc Hr Hd. unfold prepare_insert. rewrite Hr. cbn [cr_ttl with_ttl].
  pose proof (clamped_pos c r Hmin Hd) as Ht.
  rewrite (proj2 (Z.eqb_neq _ _)) by lia. cbn [andb]. unfold admit_record.
  rewrite lru_peek_iter. fold (entries c).
  destruct (assoc _ (entries c)) as [s|] eqn:E.
  - apply assoc_Some_elem in E. apply (proj1 (Forall_forall _ _) Hc) in E. cbn in E. rewrite E. cbn.
    by rewrite (proj2 (Nat.eqb_neq _ _) Hm).
  - by rewrite (proj2 (Nat.eqb_neq _ _) Hm).
Qed.

(** The last record of an accepted batch is in the cache. *)
Lemma transaction_last recs r now w : max_size (cache w) <> 0%nat -> 0 < min_cache_ttl (cache w) ->
  Forall (fun p => is_static p.2 = false) (entries (cache w)) ->
  Forall (fun x => names_target x /\ is_static x = false /\ has (cr_flags x) (F_DNSKEY ∣∣ F_DS) = false)
    (recs ++ [r]) ->
  look (key_of r) (cache (snd (transaction (recs ++ [r]) now w))) =
    Some (with_expires (with_ttl r (clamped_ttl (cache w) r)) (add_secs now (clamped_ttl (cache w) r))).
Proof.
  intros Hm Hmin Hc Hall. rewrite (transaction_run (recs ++ [r]) now w)
    by (eapply Forall_impl; [exact Hall|]; naive_solver).
  assert (existsb (refused now (cache w)) (recs ++ [r]) = false) as ->.
  { apply not_true_is_false. rewrite existsb_exists. intros (x & Hx%list_elem_of_In & Hr).
    destruct (proj1 (Forall_forall _ _) Hall x Hx) as (_ & ? & ?). revert Hr. unfold refused.
    by rewrite not_refused. }
  cbn [snd]. rewrite fmap_app. apply Forall_app in Hall as [_ Hr].
  apply Forall_cons in Hr as [(_ & Hs & Hd) _].
  assert (mjoin (prepared_new now (cache w) <$> [r]) =
    [with_expires (with_ttl r (clamped_ttl (cache w) r)) (add_secs now (clamped_ttl (cache w) r))]) as E.
  { cbn. unfold prepared_new. by rewrite not_refused. }
  assert (forall a b : list (list CacheRecord), mjoin (a ++ b) = mjoin a ++ mjoin b) as -> by (intros; apply join_app).
  rewrite E. unfold insert_all. rewrite fold_left_app. cbn [fold_left].
  set (x := with_expires _ _). change (key_of r) with (key_of x). apply look_insert_eq.
  clear -Hm. generalize (mjoin (prepared_new now (cache w) <$> recs)). intros l.
  assert (max_size (cache (on_cache start_insert w)) <> 0%nat) as Hm' by done. revert Hm'.
  generalize (on_cache start_insert w). induction l as [|y l IH]; intros w0 Hw0; [done|]. cbn. apply IH.
  by destruct (insert_frame y w0) as (-> & _).
Qed.

Lemma find_sets_ascii sets name n res : is_ascii name -> exists x, find_sets_loop sets name n res = Val x.
Proof.
  intros Hn. revert n res. induction sets as [|s sets IH]; intros n res; cbn [find_sets_loop]; [eauto|].
  case_bool; [|apply IH]. rewrite str_from_ascii by (done || lia). case_bool; apply IH.
Qed.

Lemma find_soa_ascii name rrs : is_ascii name -> exists x, find_soa name rrs = Val x.
Proof.
  intros Hn. induction rrs as [|rr rrs IH]; cbn [find_soa]; [eauto|].
  case_bool; [done|]. case_bool; [done|]. rewrite str_from_ascii by (done || lia). case_bool; eauto.
Qed.

(** An NXDOMAIN reply without CNAMEs stages no answer. *)
Lemma pass_nx e rrs st : we_nx e = true -> Forall (fun rr => rtype rr <> 5) rrs -> pass e rrs st = Stop st.
Proof.
  intros Hnx. induction 1 as [|rr rrs Hrr _ IH]; [done|]. cbn [pass].
  rewrite (proj2 (Z.eqb_neq _ _) Hrr), Hnx, orb_true_r, IH. by repeat case_bool.
Qed.

Lemma lowercase_idem_ascii s : is_ascii s -> to_lowercase (to_lowercase s) = to_lowercase s.
Proof.
  intros Hs. rewrite !(to_lowercase_ascii s Hs), to_lowercase_ascii by (by apply is_ascii_lower).
  apply to_ascii_lowercase_idem.
Qed.

Definition nx_record e (name : str) (ttl : Z) : CacheRecord :=
  mkRec name (F_NXDOMAIN ∣∣ F_NEG ∣∣ F_FORWARD ∣∣ we_secflag e) ttl (add_secs (we_now e) ttl) None None UID_NONE.

Lemma negative_records_nx e p st : we_nx e = true -> ws_found st = false ->
  xc_no_neg_cache (we_cfg e) = false -> 0 < xc_neg_ttl (we_cfg e) -> is_ascii (ws_name st) ->
  exists pre ttl, negative_records e p st = Val (pre ++ [nx_record e (ws_name st) ttl]).
Proof.
  intros Hnx Hf Hn Ht Ha. unfold negative_records. rewrite Hf, Hn, Hnx, orb_true_r. cbn [negb andb].
  destruct (find_soa_ascii (ws_name st) (authority p) Ha) as [[s|] ->]; [eauto|].
  rewrite (proj2 (Z.ltb_lt _ _) Ht). exists []. eauto.
Qed.

(** The negative entry just written is what [is_nxdomain] finds. *)
Lemma nx_lookup e name c ttl r : we_secflag e = F_DNSSECOK \/ we_secflag e = 0 -> is_ascii name ->
  look (key_of (nx_record e (to_lowercase name) ttl)) c = Some r -> record_is_expired r (we_now e) = false ->
  fst (is_nxdomain name (we_now e) c) = true.
Proof.
  intros Hs Ha Hl He. unfold is_nxdomain, lookup_negative.
  pose proof (lookup_by_name_fst name (F_NEG ∣∣ F_NXDOMAIN) (we_now e) c) as Hk.
  destruct (lookup_by_name name (F_NEG ∣∣ F_NXDOMAIN) (we_now e) c) as [o c']. cbn in Hk |- *. subst o.
  assert (key_for name (F_NEG ∣∣ F_NXDOMAIN) = key_of (nx_record e (to_lowercase name) ttl)) as ->.
  { unfold key_for, key_of. cbn [cr_name cr_flags nx_record]. rewrite lowercase_idem_ascii by done.
    f_equal. by destruct Hs as [-> | ->]. }
  rewrite Hl. cbn. rewrite He. apply bool_decide_eq_true. eauto.
Qed.

(** Negative answers are remembered end to end. An NXDOMAIN reply without
    CNAMEs to a question of any type but PTR and CNAME, accepted by a cache
    with room, a TTL floor and no configuration records, is always processed
    without a panic and makes [is_nxdomain] true for the name in any case. *)
Theorem nxdomain_reply_cached p q now cfg w :
  questions p = [q] -> qclass q = 1 -> qtype q <> 12 -> qtype q <> 5 -> is_ascii (q_name q) ->
  rcode (header p) = 3 -> is_cd (header p) = false -> is_ra (header p) = true ->
  Forall (fun rr => rtype rr <> 5) (answers p) ->
  xc_no_neg_cache cfg = false -> 0 < xc_neg_ttl cfg ->
  max_size (cache w) <> 0%nat -> 0 < min_cache_ttl (cache w) ->
  Forall (fun x => is_static x.2 = false) (entries (cache w)) ->
  exists o w', extract_addresses p now cfg w = Val (o, w') /\ x_result o = Cached /\
    fst (is_nxdomain (q_name q) now (cache w')) = true.
Proof.
  intros Hq Hcl Ht12 Ht5 Hasc Hrc Hcd Hra Hans Hneg Hnt Hm Hmin Hst.
  unfold extract_addresses. rewrite Hq, Hcl, Hrc, (proj2 (Z.eqb_neq _ _) Ht12). cbn [negb Z.eqb Pos.eqb].
  assert (is_ascii (to_lowercase (q_name q))) as Hlow
    by (rewrite to_lowercase_ascii by done; by apply is_ascii_lower).
  destruct (addr_flag_of (qtype q) cfg) as [af ins] eqn:Eaf. unfold domain_find_sets.
  destruct (find_sets_ascii (xc_ipsets cfg) _ 0 None Hlow) as [im ->].
  destruct (find_sets_ascii (xc_nftsets cfg) _ 0 None Hlow) as [nm ->].
  set (e := mkWalkEnv _ _ _ _ _ _ _ _ _).
  unfold walk, WALK_FUEL. cbn [cname_loop]. rewrite pass_nx by done.
  assert (env_ok e) as He.
  { split; cbn; [|destruct (xc_secure cfg); tauto].
    unfold addr_flag_of in Eaf. repeat case_bool; injection Eaf as <- _; tauto. }
  set (st0 := mkWalk _ _ _ _ _ _).
  destruct (negative_records_nx e p st0) as (pre & ttl & N); [done..|]. rewrite N.
  pose proof (negative_staged_ok e p st0 _ He N) as Hok.
  eexists _, _. split; [reflexivity|]. split; [done|].
  rewrite commit_staged_eq, Hcd, Hra. cbn [orb negb app ws_staged st0].
  pose proof (transaction_last pre (nx_record e (ws_name st0) ttl) now w Hm Hmin Hst) as Hl.
  refine (nx_lookup e (q_name q) _ ttl _ (proj2 He) Hasc (Hl _) _).
  - eapply Forall_impl; [exact Hok|]. intros x [? ? _ ? _ _]. done.
  - unfold record_is_expired. cbn [cr_flags cr_expires with_expires with_ttl nx_record].
    assert (has (F_NXDOMAIN ∣∣ F_NEG ∣∣ F_FORWARD ∣∣ we_secflag e) F_IMMORTAL = false) as ->
      by (destruct He as [_ [-> | ->]]; by vm_compute).
    apply Z.leb_gt. pose proof (clamped_pos (cache w) (nx_record e (ws_name st0) ttl)) as Hp.
    unfold add_secs. change (we_now e) with now.
    assert (0 < clamped_ttl (cache w) (nx_record e (ws_name st0) ttl)); [|lia]. apply Hp; [done|].
    destruct He as [_ [Hs|Hs]]; cbn [cr_flags nx_record]; rewrite Hs; by vm_compute.
Qed.
End ExtractLemmas.

(** ** Concrete replies *)

#[local] Existing Instance ascii_tables.
#[local] Existing Instance list_lru.

Definition reply_header (rcode_bits : Z) : DnsHeader := mkHeader 1 (z8 0x80) (z8 (0x80 + rcode_bits)) 1 1 0 0.
Definition ex_reply (code : Z) (ans : list DnsRr) : DnsPacket :=
  mkPacket (reply_header code) [mkQuestion (bs "A.test") 1 1] ans [] [].
Definition ex_cname (from to : string) : DnsRr := mkRr (bs from) 5 1 60 (write_name [] (bs to)).
Definition ex_a (name : string) (ip : list Z) : DnsRr := mkRr (bs name) 1 1 60 (z8 <$> ip).
Definition rebind_config : ExtractConfig := mkExtractConfig 30 5 true false false false [] [] [].
Definition ex_cache : World := mkWorld (with_ttl_limits 8 1 0) COUNTERS.
Definition result_of (x : outcome (ExtractOutcome * World)) : option (ExtractResult * nat) :=
  match x with Val (o, w) => Some (x_result o, len (cache w)) | Panic => None end.

Lemma reply_caching_safe_witness :
  exists o w', extract_addresses (ex_reply 0 [ex_cname "a.test" "b.test"; ex_a "b.test" [192; 168; 0; 1]])
                 0 rebind_config ex_cache = Val (o, w') /\ w' = ex_cache.
Proof.
  eexists _, _. split; [reflexivity|].
  refine (proj1 (reply_caching_safe (ex_reply 0 [ex_cname "a.test" "b.test"; ex_a "b.test" [192; 168; 0; 1]])
    0 rebind_config ex_cache _ _ _) _); [reflexivity|by vm_compute].
Defined.

Lemma nxdomain_reply_cached_witness :
  exists o w', extract_addresses (ex_reply 3 []) 0 rebind_config ex_cache = Val (o, w') /\
    x_result o = Cached /\ fst (is_nxdomain (bs "A.test") 0 (cache w')) = true.
Proof.
  apply (nxdomain_reply_cached (ex_reply 3 []) (mkQuestion (bs "A.test") 1 1) 0 rebind_config ex_cache);
    try done; try lia; repeat constructor.
Defined.

(** A chain that leads to a public address is cached, a CNAME loop is cut. *)
Example chain_is_cached :
  result_of (extract_addresses (ex_reply 0 [ex_cname "a.test" "b.test"; ex_a "b.test" [93; 184; 216; 34]])
               0 rebind_config ex_cache) = Some (Cached, 2%nat).
Proof. by vm_compute. Qed.

Example cname_loop_is_cut :
  result_of (extract_addresses (ex_reply 0 [ex_cname "a.test" "a.test"]) 0 rebind_config ex_cache)
  = Some (Cached, 2%nat).
Proof. by vm_compute. Qed.

(** A SOA owner whose length ends inside a character of the query name: the
    slice of [find_soa] panics. *)
Example find_soa_panics :
  find_soa (z8 <$> [195; 169]) [mkRr (bs "x") 6 1 60 []] = Panic.
Proof. by vm_compute. Qed.
