(* ===== verification/Pattern.v ===== *)
(** * Name patterns: src/src/pattern.rs

    The linear-memory glob matcher with its restart indices, the validity
    checks on names and patterns, and label-wise matching. *)

From Stdlib Require Import ZArith Lia String.
From stdpp Require Import base numbers list option.
From S2P Require Import Prelude.

#[local] Open Scope Z_scope.

Definition star : Z := 42.

(** The [while] loop of [glob_match] on the upper-cased characters. *)
Fixpoint glob_loop (fuel : nat) (v p : list Z) (vi pi next_vi next_pi : nat) : option bool :=
  match fuel with
  | O => None
  | S f =>
    if (vi <? length v)%nat || (pi <? length p)%nat then
      let retry :=
        if negb (next_vi =? 0)%nat then glob_loop f v p next_vi next_pi next_vi next_pi else Some false in
      match p !! pi with
      | Some pc =>
        if pc =? star
        then glob_loop f v p vi (S pi) (if (vi <? length v)%nat then S vi else 0) pi
        else match v !! vi with
             | Some vc => if vc =? pc then glob_loop f v p (S vi) (S pi) next_vi next_pi else retry
             | None => retry
             end
      | None => retry
      end
    else Some true
  end.

(** Enough iterations for every value and pattern. *)
Definition glob_fuel (v p : list Z) : nat :=
  S (length p * (S (length v) * (length p + 2)) + length p + 1).

Definition glob_chars (v p : list Z) : bool :=
  default false (glob_loop (glob_fuel v p) v p 0 0 0 0).

Definition glob_match (value pattern : str) : bool :=
  glob_chars (char_upper <$> chars value) (char_upper <$> chars pattern).

Definition is_ascii_digit (c : Z) : bool := (48 <=? c) && (c <=? 57).
Definition is_ascii_alphanumeric (c : Z) : bool :=
  is_ascii_digit c || ((65 <=? c) && (c <=? 90)) || ((97 <=? c) && (c <=? 122)).

Definition hyphen : u8 := Byte.x2d.
Definition starts_with (b : u8) (s : str) : bool := bool_decide (s !! 0%nat = Some b).
Definition ends_with (b : u8) (s : str) : bool := bool_decide (reverse s !! 0%nat = Some b).

(** The checks on one label of a name; [final] for the last one. *)
Definition label_valid (final : bool) (label : str) : bool :=
  negb ((length label =? 0)%nat || (63 <? length label)%nat)
  && negb (starts_with hyphen label || ends_with hyphen label)
  && forallb (fun c => is_ascii_alphanumeric c || (c =? 45)) (chars label)
  && (negb final || (negb (forallb is_ascii_digit (chars label))
                     && negb (eq_ignore_ascii_case label (bs "local")))).

Definition is_valid_dns_name (name : str) : bool :=
  if (length name =? 0)%nat || (253 <? length name)%nat then false
  else
    let labels := split_on dot name in
    if (length labels <? 2)%nat then false
    else forallb (fun p => label_valid (p.1 =? length labels - 1)%nat p.2) (imap (fun i l => (i, l)) labels).

Definition wildcards (label : str) : nat := length (List.filter (fun c => c =? star) (chars label)).

Definition pattern_label_valid (final last_two : bool) (label : str) : bool :=
  let wildcard_count := wildcards label in
  let non_star := List.filter (fun b => negb (u8z b =? star)) label in
  negb ((length label =? 0)%nat || (63 <? length label - wildcard_count)%nat)
  && negb (starts_with hyphen label || ends_with hyphen label)
  && forallb (fun c => (c =? star) || is_ascii_alphanumeric c || (c =? 45)) (chars label)
  && negb (last_two && (0 <? wildcard_count)%nat)
  && negb (2 <? wildcard_count)%nat
  && (negb final || (negb ((wildcard_count =? 0)%nat && forallb is_ascii_digit (chars non_star))
                     && negb (eq_ignore_ascii_case non_star (bs "local")))).

Definition is_valid_dns_name_pattern (pattern : str) : bool :=
  let non_wc_len := length (List.filter (fun c => negb (c =? star)) (chars pattern)) in
  if (non_wc_len =? 0)%nat || (253 <? non_wc_len)%nat then false
  else
    let labels := split_on dot pattern in
    if (length labels <? 2)%nat then false
    else forallb (fun p => pattern_label_valid (p.1 =? length labels - 1)%nat (length labels - 2 <=? p.1)%nat p.2)
           (imap (fun i l => (i, l)) labels).

Definition is_dns_name_matching_pattern (name pattern : str) : bool :=
  let nl := split_on dot name in
  let pl := split_on dot pattern in
  if negb (length nl =? length pl)%nat then false
  else forallb (fun x => glob_match x.1 x.2) (zip nl pl).

(** ** Reference: a star stands for any sequence *)

Inductive glob : list Z -> list Z -> Prop :=
| glob_nil : glob [] []
| glob_char c v p : c <> star -> glob v p -> glob (c :: v) (c :: p)
| glob_star x v p : glob v p -> glob (x ++ v) (star :: p).

Lemma glob_nil_inv v : glob v [] -> v = [].
Proof. by inversion 1. Qed.

Lemma glob_char_inv c v p : c <> star -> glob v (c :: p) <-> exists v', v = c :: v' /\ glob v' p.
Proof.
  intros Hc. split; [|intros (v' & -> & ?); by constructor]. inversion 1; subst; [eauto|done].
Qed.

Lemma glob_star_inv v p : glob v (star :: p) <-> exists x v', v = x ++ v' /\ glob v' p.
Proof. split; [inversion 1; subst; [done|eauto]|]. intros (x & v' & -> & ?). by constructor. Qed.

(** The unfolding the loop performs at a star. *)
Lemma glob_star_step v p :
  glob v (star :: p) <-> glob v p \/ exists c v', v = c :: v' /\ glob v' (star :: p).
Proof.
  rewrite glob_star_inv. split.
  - intros ([|c x] & v' & -> & Hg); [by left|]. right. exists c, (x ++ v'). split; [done|]. by constructor.
  - intros [Hg|(c & v' & -> & Hg)]; [by exists [], v|]. apply glob_star_inv in Hg as (x & v'' & -> & Hg).
    by exists (c :: x), v''.
Qed.

Lemma glob_lits lits v p : Forall (fun c => c <> star) lits ->
  glob v (lits ++ p) <-> exists v', v = lits ++ v' /\ glob v' p.
Proof.
  intros Hl. revert v. induction Hl as [|c lits Hc Hl IH]; intros v; cbn; [naive_solver|].
  rewrite glob_char_inv by done. setoid_rewrite IH. naive_solver.
Qed.

(** An older star can be forgotten when a new one is reached. *)
Lemma glob_forget lits v p u : Forall (fun c => c <> star) lits ->
  lits ++ v = u -> glob (drop 1 u) (star :: lits ++ star :: p) -> glob v (star :: p).
Proof.
  intros Hl <- (x & v' & E & Hg)%glob_star_inv. apply glob_lits in Hg as (v'' & -> & Hg); [|done].
  assert (exists z, z ++ v'' = lits ++ v) as [z Hz].
  { destruct (lits ++ v) as [|c l] eqn:El; cbn in E.
    - destruct x, lits; try done. cbn in E. subst v''. by exists [].
    - rewrite drop_0 in E. exists (c :: x ++ lits). cbn. rewrite <- app_assoc. by rewrite E. }
  assert (length v'' <= length v)%nat as Hle.
  { apply (f_equal length) in E. rewrite length_drop, !length_app in E. lia. }
  assert (exists y, v = y ++ v'') as [y ->].
  { apply app_eq_inv in Hz as [(k & _ & ->)|(k & _ & ->)]; [eauto|].
    rewrite length_app in Hle. destruct k; [by exists []|cbn in Hle; lia]. }
  apply glob_star_inv in Hg as (x' & w & -> & Hg). rewrite app_assoc. by constructor.
Qed.

(** ** The loop against the reference *)

Section Glob.
Variables v p : list Z.

Definition stars (l : list Z) : nat := length (List.filter (fun c => c =? star) l).

Definition glob_measure (pi next_vi : nat) : nat :=
  stars (drop pi p) * (S (length v) * (length p + 2))
  + (if (next_vi =? 0)%nat then 0 else S (length v) - next_vi) * (length p + 2) + (length p - pi) + 1.

(** A pending restart: the literal characters after the star have matched from
    the character before [next_vi] on. *)
Definition pending (vi pi next_vi next_pi : nat) : Prop :=
  next_vi <> 0%nat -> (next_vi <= length v)%nat /\ exists lits, Forall (fun c => c <> star) lits /\
    drop next_pi p = star :: lits ++ drop pi p /\ drop (next_vi - 1) v = lits ++ drop vi v.

Definition glob_from (vi pi : nat) : Prop := glob (drop vi v) (drop pi p).

Lemma glob_from_star i j : p !! j = Some star ->
  glob_from i j <-> glob_from i (S j) \/ ((i < length v)%nat /\ glob_from (S i) j).
Proof.
  intros Hj. unfold glob_from. rewrite (drop_S _ _ _ Hj), glob_star_step. apply or_iff_compat_l.
  destruct (v !! i) as [c|] eqn:E.
  - rewrite (drop_S _ _ _ E). apply lookup_lt_Some in E. split; [intros (? & ? & [= <- <-] & ?); done|].
    intros [_ ?]. eauto.
  - apply lookup_ge_None in E. rewrite (drop_ge v i) by done. split; [naive_solver|lia].
Qed.

Lemma stars_drop j c : p !! j = Some c ->
  stars (drop j p) = (if c =? star then S (stars (drop (S j) p)) else stars (drop (S j) p)).
Proof. intros Hj. rewrite (drop_S _ _ _ Hj). unfold stars. cbn. by destruct (c =? star). Qed.

Lemma stars_lits lits l : Forall (fun c => c <> star) lits -> stars (lits ++ l) = stars l.
Proof.
  intros Hl. unfold stars. rewrite List.filter_app, length_app. induction Hl as [|c l' Hc _ IH]; [done|].
  cbn. by rewrite (proj2 (Z.eqb_neq _ _) Hc).
Qed.

(** What the loop is to return from a configuration. *)
Definition glob_post (vi pi next_vi next_pi : nat) (r : option bool) : Prop :=
  exists b, r = Some b /\
    (b = true <-> glob_from vi pi \/ (next_vi <> 0%nat /\ glob_from next_vi next_pi)).

(** One visit of a star, first or repeated. *)
Definition after_star (vi : nat) : nat := if (vi <? length v)%nat then S vi else 0.

Lemma measure_after_star pi vi :
  (glob_measure pi (after_star vi) =
   stars (drop pi p) * (S (length v) * (length p + 2)) + (length v - vi) * (length p + 2) + (length p - pi) + 1)%nat.
Proof. unfold glob_measure, after_star. destruct (Nat.ltb_spec vi (length v)); cbn [Nat.eqb]; [done|]. replace (length v - vi)%nat with 0%nat by lia. lia. Qed.

Lemma glob_at_star f vi pi :
  p !! pi = Some star ->
  (pending vi (S pi) (after_star vi) pi ->
     glob_post vi (S pi) (after_star vi) pi (glob_loop f v p vi (S pi) (after_star vi) pi)) ->
  exists b, glob_loop f v p vi (S pi) (after_star vi) pi = Some b /\ (b = true <-> glob_from vi pi).
Proof.
  intros Hpi IH. destruct IH as (b & -> & Hb).
  - intros Hn. unfold after_star in *. destruct (Nat.ltb_spec vi (length v)); [|done]. split; [lia|].
    exists []. cbn. split_and!; [done|by apply drop_S|by rewrite Nat.sub_0_r].
  - exists b. split; [done|]. rewrite Hb, (glob_from_star vi pi Hpi). apply or_iff_compat_l.
    unfold after_star. destruct (Nat.ltb_spec vi (length v)); [naive_solver lia|]. split; [naive_solver|lia].
Qed.

Lemma glob_loop_spec fuel vi pi next_vi next_pi :
  (glob_measure pi next_vi < fuel)%nat -> pending vi pi next_vi next_pi ->
  glob_post vi pi next_vi next_pi (glob_loop fuel v p vi pi next_vi next_pi).
Proof.
  revert vi pi next_vi next_pi. induction fuel as [fuel IH] using lt_wf_ind.
  intros vi pi next_vi next_pi Hm Hp. destruct fuel as [|f]; [lia|]. cbn [glob_loop].
  destruct ((vi <? length v)%nat || (pi <? length p)%nat) eqn:G.
  2:{ apply orb_false_iff in G as [G1%Nat.ltb_ge G2%Nat.ltb_ge]. exists true. split; [done|].
      split; [|done]. intros _. left. unfold glob_from. rewrite !drop_ge by done. constructor. }
  set (retry := if negb (next_vi =? 0)%nat then _ else _).
  assert (~ glob_from vi pi -> glob_post vi pi next_vi next_pi retry) as Hretry.
  { intros Hno. unfold retry. destruct (next_vi =? 0)%nat eqn:N; cbn [negb].
    { apply Nat.eqb_eq in N. exists false. split; [done|]. naive_solver. }
    apply Nat.eqb_neq in N. destruct (Hp N) as (Hn & lits & Hl & Ep & Ev).
    assert (p !! next_pi = Some star) as Hstar by (by rewrite <- (Nat.add_0_r next_pi), <- lookup_drop, Ep).
    pose proof (lookup_lt_Some _ _ _ Hstar) as Hlt.
    assert (stars (drop pi p) = stars (drop (S next_pi) p)) as Hs.
    { rewrite (drop_S _ _ _ Hstar) in Ep. injection Ep as Ep. by rewrite Ep, stars_lits. }
    unfold glob_measure in Hm. rewrite (proj2 (Nat.eqb_neq _ _) N), Hs in Hm.
    replace (S (length v) - next_vi)%nat with (S (length v - next_vi)) in Hm by lia.
    rewrite Nat.mul_succ_l in Hm.
    destruct f as [|f]; [lia|]. cbn [glob_loop].
    rewrite (proj2 (Nat.ltb_lt next_pi _) Hlt), orb_true_r, Hstar, Z.eqb_refl. fold (after_star next_vi).
    destruct (glob_at_star f next_vi next_pi Hstar) as (b & -> & Hb).
    - apply IH; [lia|]. rewrite measure_after_star. lia.
    - exists b. split; [done|]. rewrite Hb. naive_solver. }
  destruct (p !! pi) as [pc|] eqn:Epi.
  - pose proof (lookup_lt_Some _ _ _ Epi) as Hlt. pose proof (stars_drop pi pc Epi) as Hs.
    destruct (Z.eqb_spec pc star) as [->|Hns].
    + fold (after_star vi). destruct (glob_at_star f vi pi Epi) as (b & -> & Hb).
      * apply IH; [lia|]. rewrite measure_after_star. unfold glob_measure in Hm. rewrite Hs in Hm.
        pose proof (Nat.mul_le_mono_r (length v - vi) (length v) (length p + 2) ltac:(lia)). lia.
      * exists b. split; [done|]. rewrite Hb. split; [by left|]. intros [?|[Hn Hg]]; [done|].
        destruct (Hp Hn) as (Hle & lits & Hl & Ep & Ev). unfold glob_from in *.
        rewrite (drop_S _ _ _ Epi) in *. eapply (glob_forget lits _ _ _ Hl (eq_sym Ev)).
        rewrite drop_drop. replace (next_vi - 1 + 1)%nat with next_vi by lia. by rewrite <- Ep.
    + destruct (v !! vi) as [vc|] eqn:Evi; [destruct (Z.eqb_spec vc pc) as [->|Hne]|].
      * destruct (IH f ltac:(lia) (S vi) (S pi) next_vi next_pi) as (b & -> & Hb).
        -- unfold glob_measure in *. rewrite Hs in Hm. lia.
        -- intros Hn. destruct (Hp Hn) as (Hle & lits & Hl & Ep & Ev). split; [done|].
           exists (lits ++ [pc]). rewrite (drop_S _ _ _ Epi) in Ep. rewrite (drop_S _ _ _ Evi) in Ev.
           rewrite <- !app_assoc. split_and!; [|done|done]. apply Forall_app. split; [done|by constructor].
        -- exists b. split; [done|]. rewrite Hb. apply or_iff_compat_r. unfold glob_from.
           rewrite (drop_S _ _ _ Epi), (drop_S _ _ _ Evi), glob_char_inv by done. naive_solver.
      * apply Hretry. unfold glob_from. rewrite (drop_S _ _ _ Epi), (drop_S _ _ _ Evi), glob_char_inv by done.
        naive_solver.
      * apply Hretry. unfold glob_from. apply lookup_ge_None in Evi.
        rewrite (drop_S _ _ _ Epi), (drop_ge v), glob_char_inv by done. naive_solver.
  - apply Hretry. unfold glob_from. apply lookup_ge_None in Epi. rewrite (drop_ge p) by done.
    intros Hg%glob_nil_inv. apply (f_equal length) in Hg. rewrite length_drop in Hg. cbn in Hg.
    apply orb_true_iff in G as [G%Nat.ltb_lt|G%Nat.ltb_lt]; lia.
Qed.

Lemma stars_le l : (stars l <= length l)%nat.
Proof. unfold stars. induction l as [|c l IH]; [done|]. cbn. destruct (c =? star); cbn; lia. Qed.

Lemma glob_chars_spec : glob_chars v p = true <-> glob v p.
Proof.
  unfold glob_chars. destruct (glob_loop_spec (glob_fuel v p) 0 0 0 0) as (b & -> & Hb).
  - unfold glob_measure, glob_fuel. cbn [Nat.eqb]. rewrite drop_0, Nat.sub_0_r.
    pose proof (Nat.mul_le_mono_r (stars p) (length p) (S (length v) * (length p + 2)) (stars_le p)). lia.
  - by intros ?.
  - cbn. rewrite Hb. unfold glob_from. rewrite !drop_0. naive_solver.
Qed.

End Glob.

(** The case-insensitive view of a label the matcher compares. *)
Definition upper_chars (s : str) : list Z := char_upper <$> chars s.

(** The linear glob matcher decides the reference relation on every value
    and pattern, and a name matches a pattern exactly when they have as many
    labels and each label matches the pattern's, so that a star never crosses a
    dot. *)
Theorem glob_match_correct name pattern :
  (glob_match name pattern = true <-> glob (upper_chars name) (upper_chars pattern)) /\
  (is_dns_name_matching_pattern name pattern = true <->
   Forall2 (fun n p => glob (upper_chars n) (upper_chars p)) (split_on dot name) (split_on dot pattern)).
Proof.
  assert (forall n p, glob_match n p = true <-> glob (upper_chars n) (upper_chars p)) as Hg
    by (intros; apply glob_chars_spec).
  split; [apply Hg|]. unfold is_dns_name_matching_pattern.
  generalize (split_on dot name) (split_on dot pattern). intros nl pl.
  destruct (Nat.eqb_spec (length nl) (length pl)) as [El|Hne]; cbn [negb].
  - revert pl El. induction nl as [|n nl IH]; intros [|p pl] El; try done.
    cbn in El. cbn [zip zip_with forallb fst snd]. rewrite andb_true_iff, Hg, IH by lia.
    split; [intros [? ?]; by constructor|by inversion 1].
  - split; [done|]. intros Hf%Forall2_length. done.
Qed.
