(* ===== verification/Hostname.v ===== *)
(** * Host and domain names: src/src/hostname.rs *)

From Stdlib Require Import ZArith Lia String.
From stdpp Require Import base numbers list option.
From S2P Require Import Prelude Pattern.

#[local] Open Scope Z_scope.

Definition MAXLABEL : nat := 63.
Definition MAXDNAME : nat := 1025.

(** The loop of [hostname_order] on two character iterators. *)
Fixpoint order_chars (a b : list Z) : comparison :=
  match a, b with
  | ca :: a', cb :: b' => match ca ?= cb with Eq => order_chars a' b' | o => o end
  | [], [] => Eq
  | [], _ => Lt
  | _, [] => Gt
  end.

(** The characters the comparison sees. *)
Definition lower_chars (s : str) : list Z := char_lower <$> chars s.

Definition hostname_order (a b : str) : comparison := order_chars (lower_chars a) (lower_chars b).

Definition hostname_isequal (a b : str) : bool :=
  (length a =? length b)%nat && bool_decide (hostname_order a b = Eq).

(** The loop of [hostname_issubdomain], from the right. *)
Fixpoint sub_loop (ai bi : list Z) : option Z :=
  match ai, bi with
  | [], [] => Some 2
  | [], cb :: _ => if cb =? u8z dot then Some 1 else None
  | ca :: ai', cb :: bi' => if ca =? cb then sub_loop ai' bi' else None
  | _ :: _, [] => None
  end.

Definition hostname_issubdomain (a b : str) : option Z :=
  let a := to_ascii_lowercase a in
  let b := to_ascii_lowercase b in
  if (length b <? length a)%nat then None
  else sub_loop (reverse (chars a)) (reverse (chars b)).

Definition first_label (name : str) : str := default [] (split_on dot name !! 0%nat).

Definition is_alnum (c : Z) : bool :=
  ((97 <=? c) && (c <=? 122)) || ((65 <=? c) && (c <=? 90)) || ((48 <=? c) && (c <=? 57)).

(** The character loop of [legal_hostname] from position [i]. *)
Fixpoint legal_chars (i : nat) (cs : list Z) : bool :=
  match cs with
  | [] => true
  | c :: cs' =>
    if is_alnum c || (((c =? 45) || (c =? 95)) && (0 <? i)%nat) then legal_chars (S i) cs' else false
  end.

Definition legal_hostname (name : str) : bool :=
  if (length name =? 0)%nat || (253 <? length name)%nat then false
  else
    let label := first_label name in
    if (length label =? 0)%nat || (MAXLABEL <? length label)%nat then false
    else legal_chars 0 (chars label).

Definition canonicalise (input : str) : option str :=
  let s := trim_end dot input in
  if (length s =? 0)%nat || (253 <? length s)%nat then None
  else if forallb (fun l => negb ((length l =? 0)%nat || (MAXLABEL <? length l)%nat)) (split_on dot s)
       then Some (to_ascii_lowercase s) else None.

Inductive NameCheckResult : Type := Invalid | Valid | NeedsIdn.

Definition is_ascii_control (c : Z) : bool := (c <? 32) || (c =? 127).

(** One label of [check_name]: [None] for the early return, else the two
    flags. *)
Definition check_label (acc : option (bool * bool)) (label : str) : option (bool * bool) :=
  let! (has_idn, has_non_space) := acc in
  if (MAXLABEL <? length label)%nat then None
  else if existsb is_ascii_control (chars label) then None
  else Some (has_idn || existsb (fun c => 128 <=? c) (chars label),
             has_non_space || existsb (fun c => negb (c =? 32)) (chars label)).

Definition check_name (name : str) : NameCheckResult :=
  let trimmed := trim_end dot name in
  if (length trimmed =? 0)%nat || (MAXDNAME <? length trimmed)%nat then Invalid
  else match fold_left check_label (split_on dot trimmed) (Some (false, ends_with dot name)) with
       | None => Invalid
       | Some (has_idn, has_non_space) =>
         if negb has_non_space then Invalid
         else if has_idn || existsb (fun c => (65 <=? c) && (c <=? 90)) (chars trimmed) then NeedsIdn
         else Valid
       end.

Definition check_hostname_label (name : str) : bool :=
  let label := first_label name in
  if (length label =? 0)%nat then false
  else forallb (fun c => is_ascii_alphanumeric c || (c =? 45) || (c =? 95)) (chars label).

(** ** Lemmas *)

Lemma order_chars_refl a : order_chars a a = Eq.
Proof. induction a as [|c a IH]; [done|]. cbn. by rewrite Z.compare_refl. Qed.

Lemma order_chars_eq a b : order_chars a b = Eq <-> a = b.
Proof.
  split; [|intros ->; apply order_chars_refl]. revert b.
  induction a as [|c a IH]; intros [|d b]; cbn; try done.
  destruct (Z.compare_spec c d); try done. subst. intros ?%IH. by subst.
Qed.

Lemma order_chars_antisym a b : order_chars b a = CompOpp (order_chars a b).
Proof.
  revert b. induction a as [|c a IH]; intros [|d b]; cbn; try done.
  rewrite (Z.compare_antisym c d). destruct (c ?= d); cbn; auto.
Qed.

Lemma order_chars_trans a b c o : order_chars a b = o -> order_chars b c = o -> order_chars a c = o.
Proof.
  revert b c. induction a as [|x a IH]; intros [|y b] [|z c]; cbn; intros H1 H2; subst o; try done.
  destruct (Z.compare_spec x y), (Z.compare_spec y z); subst; try done; rewrite ?Z.compare_refl; try done.
  - by apply (IH b).
  - by rewrite (proj2 (Z.compare_lt_iff _ _)).
  - by rewrite (proj2 (Z.compare_gt_iff _ _)).
  - by rewrite (proj2 (Z.compare_lt_iff _ _)).
  - by rewrite (proj2 (Z.compare_lt_iff _ _)) by lia.
  - by rewrite (proj2 (Z.compare_gt_iff _ _)).
  - by rewrite (proj2 (Z.compare_gt_iff _ _)) by lia.
Qed.

Lemma lower_chars_ascii s : is_ascii s -> lower_chars s = u8z <$> to_ascii_lowercase s.
Proof.
  intros Hs. unfold lower_chars, to_ascii_lowercase. rewrite chars_ascii by done.
  induction Hs as [|b s Hb _ IH]; [done|]. rewrite !fmap_cons. by rewrite char_lower_u8z, IH.
Qed.

Lemma u8z_fmap_inj (a b : list u8) : u8z <$> a = u8z <$> b -> a = b.
Proof. apply list_fmap_eq_inj. intros x y. apply u8z_inj. Qed.

Lemma sub_loop_spec a b :
  (sub_loop a b = Some 2 <-> b = a) /\ (sub_loop a b = Some 1 <-> exists pre, b = a ++ u8z dot :: pre) /\
  (forall r, sub_loop a b = Some r -> r = 1 \/ r = 2).
Proof.
  revert b. induction a as [|c a IH]; intros [|d b]; cbn [sub_loop app].
  - split_and!; [done| |naive_solver]. split; [done|]. by intros [? ?].
  - destruct (Z.eqb_spec d (u8z dot)) as [->|Hne]; split_and!; try done; try naive_solver.
  - split_and!; try done. split; [done|]. by intros [? ?].
  - destruct (Z.eqb_spec c d) as [->|Hne].
    + destruct (IH b) as (H1 & H2 & H3). split_and!; [|rewrite H2; naive_solver|done]. rewrite H1. naive_solver.
    + split_and!; try done; split; try done; naive_solver.
Qed.

(** ** Properties *)

(** [hostname_order] is a total order on names up to letter case: it is
    reflexive, swapping the names swaps the answer, each answer is transitive,
    and for ASCII names it says equal exactly when they differ in case only,
    which [hostname_isequal] then agrees with. *)
Theorem hostname_order_total a b c o :
  hostname_order a a = Eq /\
  hostname_order b a = CompOpp (hostname_order a b) /\
  (hostname_order a b = o -> hostname_order b c = o -> hostname_order a c = o) /\
  (is_ascii a -> is_ascii b ->
     (hostname_order a b = Eq <-> eq_ignore_ascii_case a b = true) /\
     hostname_isequal a b = eq_ignore_ascii_case a b).
Proof.
  unfold hostname_order. split_and!;
    [apply order_chars_refl|apply order_chars_antisym|apply order_chars_trans|].
  intros Ha Hb.
  assert (order_chars (lower_chars a) (lower_chars b) = Eq <-> eq_ignore_ascii_case a b = true) as He.
  { rewrite order_chars_eq, eq_ignore_ascii_case_true, !lower_chars_ascii by done.
    split; [apply u8z_fmap_inj|by intros ->]. }
  split; [exact He|]. unfold hostname_isequal, hostname_order.
  apply eq_true_iff_eq. rewrite andb_true_iff, Nat.eqb_eq, bool_decide_eq_true, He. split; [tauto|].
  intros E. split; [|done]. apply eq_ignore_ascii_case_true, (f_equal length) in E. by rewrite !length_lower in E.
Qed.

Lemma hostname_order_total_witness :
  hostname_order (bs "A.example") (bs "a.EXAMPLE") = Eq /\
  hostname_isequal (bs "A.example") (bs "a.EXAMPLE") = true.
Proof.
  assert (is_ascii (bs "A.example") /\ is_ascii (bs "a.EXAMPLE")) as [H1 H2]
    by (split; repeat constructor).
  destruct (hostname_order_total (bs "A.example") (bs "a.EXAMPLE") [] Eq) as (_ & _ & _ & H).
  destruct (H H1 H2) as [He Hq]. split; [apply He|rewrite Hq]; by vm_compute.
Defined.

(** On ASCII names [hostname_issubdomain a b] answers [Some 2] exactly
    when [b] is [a] up to case, [Some 1] exactly when [b] is some prefix and a
    dot before [a], and [None] otherwise: a name that merely ends in the same
    characters is not a subdomain. *)
Theorem issubdomain_spec a b : is_ascii a -> is_ascii b ->
  let la := to_ascii_lowercase a in
  let lb := to_ascii_lowercase b in
  (hostname_issubdomain a b = Some 2 <-> lb = la) /\
  (hostname_issubdomain a b = Some 1 <-> exists pre, lb = pre ++ dot :: la) /\
  (hostname_issubdomain a b = None <-> lb <> la /\ ~ exists pre, lb = pre ++ dot :: la).
Proof.
  intros Ha%is_ascii_lower Hb%is_ascii_lower. cbn zeta. unfold hostname_issubdomain.
  set (la := to_ascii_lowercase a) in *. set (lb := to_ascii_lowercase b) in *.
  destruct (Nat.ltb_spec (length lb) (length la)) as [Hlt|Hle].
  - assert (lb <> la) by (intros E; rewrite E in Hlt; lia).
    assert (~ exists pre, lb = pre ++ dot :: la) by (intros [pre E]; rewrite E, length_app in Hlt; cbn in Hlt; lia).
    naive_solver.
  - rewrite !chars_ascii, <- !fmap_reverse by done.
    destruct (sub_loop_spec (u8z <$> reverse la) (u8z <$> reverse lb)) as (H2 & H1 & Hr).
    assert (sub_loop (u8z <$> reverse la) (u8z <$> reverse lb) = Some 2 <-> lb = la) as E2.
    { rewrite H2. split; [|by intros ->]. by intros E%u8z_fmap_inj%(inj reverse). }
    assert (sub_loop (u8z <$> reverse la) (u8z <$> reverse lb) = Some 1 <-> exists pre, lb = pre ++ dot :: la) as E1.
    { rewrite H1. split.
      - intros [pre E]. apply fmap_app_inv in E as (l1 & l2 & E1 & E2' & E3).
        symmetry in E2'. apply fmap_cons_inv in E2' as (d & l3 & Ed & _ & ->).
        apply u8z_inj in Ed. subst d. apply u8z_fmap_inj in E1. subst l1.
        exists (reverse l3). apply (inj reverse). rewrite E3, reverse_app, reverse_cons, reverse_involutive.
        by rewrite <- app_assoc.
      - intros [pre ->]. exists (u8z <$> reverse pre). rewrite reverse_app, reverse_cons, <- app_assoc.
        by rewrite !fmap_app. }
    split_and!; [exact E2|exact E1|]. rewrite <- E2, <- E1.
    destruct (sub_loop _ _) as [r|]; [|naive_solver]. destruct (Hr r eq_refl) as [-> | ->]; naive_solver.
Qed.

Lemma issubdomain_spec_witness :
  hostname_issubdomain (bs "example.com") (bs "WWW.Example.com") = Some 1 /\
  hostname_issubdomain (bs "example.com") (bs "badexample.com") <> Some 1.
Proof.
  split.
  - apply (issubdomain_spec (bs "example.com") (bs "WWW.Example.com")); [repeat constructor..|].
    exists (bs "www"). by vm_compute.
  - by vm_compute.
Defined.
