(* ===== verification/Util.v ===== *)
(** * Utilities: src/src/util.rs

    Hardware-address text, masked comparison, wildcards and time printing.
    Random numbers, clocks and interface names are system calls and not
    modelled. *)

From Stdlib Require Import ZArith Lia String.
From stdpp Require Import base numbers list option.
From S2P Require Import Prelude Types.

#[local] Open Scope Z_scope.

Definition rr_on_list (list : list Z) (rr : Z) : bool :=
  existsb (fun e => negb (e =? 0) && (e =? rr)) list.

Definition prettyprint_time (t : Z) : str :=
  if t =? 0xffffffff then bs "infinite"
  else
    let days := t / 86400 in
    let hours := (t / 3600) mod 24 in
    let mins := (t / 60) mod 60 in
    let secs := t mod 60 in
    let part (n : Z) (unit : str) := if 0 <? n then fmt_u n ++ unit else [] in
    let s := part days (bs "d") ++ part hours (bs "h") ++ part mins (bs "m") in
    if (0 <? secs) || (length s =? 0)%nat then s ++ fmt_u secs ++ bs "s" else s.

(** [*] ends the comparison: it matches any rest. *)
Fixpoint wild_chars (wi ti : list Z) : bool :=
  match wi, ti with
  | w :: wi', _ =>
    if w =? 42 then true
    else match ti with
         | t :: ti' => if w =? t then wild_chars wi' ti' else false
         | [] => false
         end
  | [], [] => true
  | [], _ => false
  end.
Definition wildcard_match (wildcard target : str) : bool := wild_chars (chars wildcard) (chars target).

Fixpoint wildn_chars (l : list (Z * Z)) : bool :=
  match l with
  | [] => true
  | (w, t) :: l' => if w =? 42 then true else if negb (w =? t) then false else wildn_chars l'
  end.
Definition wildcard_matchn (wildcard target : str) (n : nat) : bool :=
  wildn_chars (zip (take n (chars wildcard)) (take n (chars target))).

(** ** Hexadecimal strings *)

Definition HexParseError : Type := unit.

(** [&token[start..end]]: a panic off a character boundary. *)
Definition str_slice (s : str) (a b : nat) : outcome str :=
  if is_char_boundary s a && is_char_boundary s b then Val (take (b - a) (drop a s)) else Panic.

Definition is_hex_sep (b : u8) : bool :=
  bool_decide (b = Byte.x3a) || bool_decide (b = Byte.x2d) || bool_decide (b = Byte.x20).

(** [input.split(|c| c == ':' || c == '-' || c == ' ')]. *)
Fixpoint split_hex (s : str) : list str :=
  match s with
  | [] => [[]]
  | b :: s' =>
    if is_hex_sep b then [] :: split_hex s'
    else match split_hex s' with
         | [] => [[b]]
         | p :: ps => (b :: p) :: ps
         end
  end.

Definition at_max (maxlen : option nat) (out : list u8) : bool :=
  match maxlen with Some max => (max <=? length out)%nat | None => false end.

(** The [for j in 0..bytes_in_token] loop; the boolean says that the output
    reached its maximum, the [break 'tokens]. *)
Fixpoint hex_bytes (js : list nat) (token : str) (maxlen : option nat) (out : list u8) (mask : Z)
  : outcome (result (list u8 * Z * bool) HexParseError) :=
  match js with
  | [] => Val (Ok (out, mask, false))
  | j :: js' =>
    let start := (j * 2)%nat in
    let end_ := Nat.min (start + 2) (length token) in
    let# piece := str_slice token start end_ in
    match parse_hex_u8 piece with
    | None => Val (Err tt)
    | Some b =>
      let mask' := as_u32 (Z.shiftl mask 1) in
      let out' := out ++ [z8 b] in
      if at_max maxlen out' then Val (Ok (out', mask', true))
      else hex_bytes js' token maxlen out' mask'
    end
  end.

Fixpoint hex_tokens (tokens : list str) (maxlen : option nat) (out : list u8) (mask : Z)
  : outcome (result (list u8 * Z) HexParseError) :=
  match tokens with
  | [] => Val (Ok (out, mask))
  | token :: rest =>
    if at_max maxlen out then Val (Ok (out, mask))
    else if decide (token = bs "*") then
      hex_tokens rest maxlen (out ++ [Byte.x00]) (Z.lor (as_u32 (Z.shiftl mask 1)) 1)
    else if (length token =? 0)%nat then hex_tokens rest maxlen out mask
    else
      let# r := hex_bytes (seq 0 ((length token + 1) / 2)) token maxlen out mask in
      match r with
      | Err e => Val (Err e)
      | Ok (out', mask', true) => Val (Ok (out', mask'))
      | Ok (out', mask', false) => hex_tokens rest maxlen out' mask'
      end
  end.

Definition parse_hex (input : str) (maxlen : option nat) : outcome (result (list u8 * Z) HexParseError) :=
  hex_tokens (split_hex input) maxlen [] 0.

Definition print_mac (mac : list u8) : str :=
  match mac with
  | [] => bs "<null>"
  | _ => join (bs ":") ((fun b => fmt_hex 2 (u8z b)) <$> mac)
  end.

(** ** Addresses and byte arrays *)

Definition sockaddr_isnull (s : MySockAddr) : bool :=
  match s with SV4 a _ => a =? 0 | SV6 a _ _ _ => a =? 0 end.

(** The loop from the last common byte down. *)
Fixpoint memcmp_loop (ab : list (u8 * u8)) (m : Z) (count : nat) : nat :=
  match ab with
  | [] => count
  | (x, y) :: rest =>
    if Z.land m 1 =? 0 then
      (if decide (x = y) then memcmp_loop rest (Z.shiftr m 1) (S count) else 0%nat)
    else memcmp_loop rest (Z.shiftr m 1) count
  end.
Definition memcmp_masked (a b : list u8) (mask : Z) : nat :=
  let len := Nat.min (length a) (length b) in
  memcmp_loop (reverse (zip (take len a) (take len b))) mask 1.

Definition expand_workspace (workspace : list (list u8)) (needed : nat) : list (list u8) :=
  if (needed + 1 <=? length workspace)%nat then workspace
  else workspace ++ replicate (needed + 1 + 5 - length workspace) [].

(** ** Lemmas *)

Lemma split_hex_nonnil s : split_hex s <> [].
Proof. destruct s as [|b s]; [done|]. cbn. case_bool; [done|]. by destruct (split_hex s). Qed.

Lemma split_hex_none s : Forall (fun b => is_hex_sep b = false) s -> split_hex s = [s].
Proof. induction 1 as [|b s Hb Hs IH]; [done|]. cbn. by rewrite Hb, IH. Qed.

Lemma split_hex_app s b rest : Forall (fun b => is_hex_sep b = false) s -> is_hex_sep b = true ->
  split_hex (s ++ b :: rest) = s :: split_hex rest.
Proof. intros Hs Hb. induction Hs as [|c s Hc Hs IH]; cbn; [by rewrite Hb|]. by rewrite Hc, IH. Qed.

Lemma split_hex_join l : l <> [] -> Forall (Forall (fun b => is_hex_sep b = false)) l ->
  split_hex (join (bs ":") l) = l.
Proof.
  intros Hne Hl. induction Hl as [|t l Ht Hl IH]; [done|]. destruct l as [|t' l]; [by apply split_hex_none|].
  rewrite join_cons by done. cbn [app bs String.list_byte_of_string].
  change (bs ":" ++ join (bs ":") (t' :: l)) with (Byte.x3a :: join (bs ":") (t' :: l)).
  rewrite split_hex_app by done. by rewrite IH.
Qed.

#[global] Instance outcome_eq_dec {A} `{EqDecision A} : EqDecision (outcome A).
Proof. solve_decision. Defined.

(** The two hexadecimal digits of each byte, checked on all of them. *)
Definition hex2_ok (b : u8) : bool :=
  let t := fmt_hex 2 (u8z b) in
  (length t =? 2)%nat && forallb (fun c => negb (is_hex_sep c)) t && negb (bool_decide (t = bs "*"))
  && bool_decide (str_slice t 0 2 = Val t) && bool_decide (parse_hex_u8 t = Some (u8z b)).


Lemma hex2_all b : hex2_ok b = true.
Proof. by byte_cases b. Qed.

Lemma hex2_facts b : let t := fmt_hex 2 (u8z b) in
  length t = 2%nat /\ Forall (fun c => is_hex_sep c = false) t /\ t <> bs "*" /\
  str_slice t 0 2 = Val t /\ parse_hex_u8 t = Some (u8z b).
Proof.
  pose proof (hex2_all b) as Hb. unfold hex2_ok in Hb. cbn zeta in *.
  rewrite !andb_true_iff, Nat.eqb_eq, negb_true_iff, !bool_decide_eq_true, bool_decide_eq_false in Hb.
  destruct Hb as ((((H1 & H2) & H3) & H4) & H5). split_and!; try done.
  apply Forall_forall. intros c Hc. apply negb_true_iff. exact (proj1 (forallb_forall _ _) H2 c Hc).
Qed.

Lemma hex_tokens_mac l maxlen out :
  hex_tokens ((fun b => fmt_hex 2 (u8z b)) <$> l) maxlen out 0 =
  Val (Ok (match maxlen with Some n => out ++ take (n - length out) l | None => out ++ l end, 0)).
Proof.
  revert out. induction l as [|b l IH]; intros out.
  { destruct maxlen as [n|]; [rewrite take_nil|]; by rewrite app_nil_r. }
  rewrite fmap_cons. cbn [hex_tokens]. destruct (hex2_facts b) as (Hlen & _ & Hstar & Hs & Hp).
  destruct (at_max maxlen out) eqn:M.
  { destruct maxlen as [n|]; [|done]. apply Nat.leb_le in M. replace (n - length out)%nat with 0%nat by lia.
    by rewrite app_nil_r. }
  rewrite decide_False, Hlen by done. cbn [Nat.eqb Nat.add Nat.div Nat.divmod fst seq hex_bytes Nat.mul].
  rewrite Hlen. cbn [Nat.min]. rewrite Hs, Hp. change (as_u32 (Z.shiftl 0 1)) with 0. rewrite z8_u8z.
  destruct (at_max maxlen (out ++ [b])) eqn:M'.
  - destruct maxlen as [n|]; [|done]. apply Nat.leb_le in M'. apply Nat.leb_gt in M.
    rewrite length_app in M'. cbn in M'. replace (n - length out)%nat with 1%nat by lia. done.
  - rewrite IH. destruct maxlen as [n|]; [|by rewrite <- app_assoc].
    apply Nat.leb_gt in M, M'. rewrite length_app in *. cbn in M' |- *.
    replace (n - length out)%nat with (S (n - (length out + 1))) by lia. by rewrite <- app_assoc.
Qed.

(** ** Properties *)

(** Printing a hardware address and parsing it back gives its bytes, cut at
    the requested maximum, with no wildcard bit set. *)
Theorem mac_roundtrip mac maxlen : mac <> [] ->
  parse_hex (print_mac mac) maxlen =
  Val (Ok (match maxlen with Some n => take n mac | None => mac end, 0)).
Proof.
  intros Hne. unfold parse_hex, print_mac. destruct mac as [|b mac]; [done|].
  rewrite split_hex_join; [|done|].
  - rewrite hex_tokens_mac. cbn [length app]. destruct maxlen; [by rewrite Nat.sub_0_r|done].
  - apply Forall_fmap, Forall_forall. intros x _. apply hex2_facts.
Qed.

Lemma mac_roundtrip_witness :
  parse_hex (print_mac (z8 <$> [0; 17; 34; 255; 10; 1])) (Some 2%nat) = Val (Ok (z8 <$> [0; 17], 0)).
Proof. by rewrite mac_roundtrip. Defined.

(** The positions of a run that the mask leaves to be compared. *)
Definition unmasked (mask : Z) (k n : nat) : nat :=
  length (List.filter (fun j => negb (Z.testbit mask (Z.of_nat j))) (seq k n)).
Definition agree (mask : Z) (k : nat) (ab : list (u8 * u8)) : Prop :=
  forall i x y, ab !! i = Some (x, y) -> Z.testbit mask (Z.of_nat (k + i)) = false -> x = y.

Lemma agree_cons mask k x y ab :
  agree mask k ((x, y) :: ab) <-> (Z.testbit mask (Z.of_nat k) = false -> x = y) /\ agree mask (S k) ab.
Proof.
  unfold agree. split.
  - intros Ha. split; [intros Hk; apply (Ha 0%nat); [done|by rewrite Nat.add_0_r]|].
    intros i u v Hi Ht. apply (Ha (S i)); [done|]. by rewrite Nat.add_succ_r.
  - intros [H0 Ha] [|i] u v Hi Ht; [injection Hi as -> ->; apply H0; by rewrite Nat.add_0_r in Ht|].
    apply (Ha i); [done|]. by rewrite Nat.add_succ_r in Ht.
Qed.

Lemma low_bit m : (Z.land m 1 =? 0) = negb (Z.testbit m 0).
Proof.
  change 1 with (Z.ones 1). rewrite Z.land_ones, Z.bit0_odd by lia. change (2 ^ 1) with 2.
  rewrite Zmod_odd. by destruct (Z.odd m).
Qed.

Lemma memcmp_loop_spec mask ab k count :
  (agree mask k ab ->
     memcmp_loop ab (Z.shiftr mask (Z.of_nat k)) count = (count + unmasked mask k (length ab))%nat) /\
  (~ agree mask k ab -> memcmp_loop ab (Z.shiftr mask (Z.of_nat k)) count = 0%nat).
Proof.
  revert k count. induction ab as [|[x y] ab IH]; intros k count.
  { split; [intros _; cbn; lia|]. intros Hn. destruct Hn. intros i x y. by rewrite lookup_nil. }
  rewrite agree_cons. cbn [memcmp_loop length]. rewrite low_bit, Z.shiftr_spec, Z.add_0_l by lia.
  rewrite Z.shiftr_shiftr by lia. replace (Z.of_nat k + 1) with (Z.of_nat (S k)) by lia.
  unfold unmasked in *. cbn [seq List.filter].
  destruct (Z.testbit mask (Z.of_nat k)) eqn:T; cbn [negb].
  - destruct (IH (S k) count) as [H1 H2]. split; intros Ha; [apply H1; tauto|apply H2]. intros Hs. apply Ha. by split.
  - destruct (decide (x = y)) as [->|Hne].
    + destruct (IH (S k) (S count)) as [H1 H2]. split; intros Ha; [rewrite H1 by tauto; cbn; lia|apply H2].
      intros Hs. apply Ha. by split.
    + split; [|done]. intros [Ha _]. by destruct (Hne (Ha eq_refl)).
Qed.

(** The masked comparison looks exactly at the positions whose mask bit,
    counted from the end of the shorter array, is clear: it returns zero when
    one of those bytes differs and one more than their number otherwise. *)
Theorem memcmp_masked_spec a b mask :
  let len := Nat.min (length a) (length b) in
  let ok := forall i x y, (i < len)%nat -> a !! i = Some x -> b !! i = Some y ->
    Z.testbit mask (Z.of_nat (len - 1 - i)) = false -> x = y in
  (ok -> memcmp_masked a b mask = S (unmasked mask 0 len)) /\ (~ ok -> memcmp_masked a b mask = 0%nat).
Proof.
  cbn zeta. unfold memcmp_masked. set (len := Nat.min (length a) (length b)).
  set (z := zip (take len a) (take len b)).
  assert (length z = len) as Hz by (unfold z; rewrite length_zip, !length_take; lia).
  destruct (memcmp_loop_spec mask (reverse z) 0 1) as [H1 H2]. rewrite Z.shiftr_0_r, length_reverse, Hz in *.
  assert (agree mask 0 (reverse z) <-> forall i x y, (i < len)%nat -> a !! i = Some x -> b !! i = Some y ->
    Z.testbit mask (Z.of_nat (len - 1 - i)) = false -> x = y) as <-; [|split; [apply H1|apply H2]].
  unfold agree. split.
  - intros Ha i x y Hi Ex Ey Ht. apply (Ha (len - 1 - i)%nat); [|done].
    rewrite reverse_lookup by lia. rewrite Hz. replace (len - S (len - 1 - i))%nat with i by lia.
    unfold z. apply lookup_zip_Some. rewrite !lookup_take_lt by lia. done.
  - intros Ha i x y Hi Ht. pose proof (lookup_lt_Some _ _ _ Hi) as Hlt. rewrite length_reverse, Hz in Hlt.
    rewrite reverse_lookup in Hi by lia. rewrite Hz in Hi. unfold z in Hi.
    apply lookup_zip_Some in Hi as [Ex Ey]. rewrite lookup_take_lt in Ex, Ey by lia.
    apply (Ha (len - S i)%nat x y); [lia|done..|]. replace (len - 1 - (len - S i))%nat with i by lia. exact Ht.
Qed.

Example memcmp_example :
  memcmp_masked (z8 <$> [1; 2; 3]) (z8 <$> [1; 9; 3]) 2 = 3%nat /\ memcmp_masked (z8 <$> [1; 2; 3]) (z8 <$> [1; 9; 3]) 1 = 0%nat.
Proof. by vm_compute. Qed.

(** A sign is taken for a digit, and a multi-byte character is cut in half. *)
Example parse_hex_plus : parse_hex (bs "+5") None = Val (Ok ([Byte.x05], 0)).
Proof. by vm_compute. Qed.
Example parse_hex_panics : parse_hex (bs "a" ++ (z8 <$> [195; 169])) None = Panic.
Proof. by vm_compute. Qed.
