(* ===== verification/StdText.v ===== *)
(** * Text of the Rust standard library

    Addresses as text, lines, white space and fields: the functions of the
    standard library the lease file, the synthesised names and the parsers of
    configuration text are built from, with the facts on fields they share. *)

From Stdlib Require Import ZArith Lia String.
From stdpp Require Import base numbers list option sets.
From S2P Require Import Prelude Types Util.

#[local] Open Scope Z_scope.

(** ** Text *)

Definition space : u8 := Byte.x20.
Definition newline : u8 := Byte.x0a.

(** [format!("{ip}")]. *)
Definition fmt_ipv4 (a : Ipv4Addr) : str := join (bs ".") ((fun b => fmt_u (u8z b)) <$> octets4 a).

(** An octet of [Ipv4Addr::from_str]: up to three digits, no leading zero. *)
Definition parse_octet (s : str) : option u8 :=
  if (length s =? 0)%nat || (3 <? length s)%nat || ((1 <? length s)%nat && bool_decide (s !! 0%nat = Some Byte.x30))
  then None
  else let! v := parse_digits dec_digit 10 255 0 s in Some (z8 v).
Definition parse_ipv4 (s : str) : option Ipv4Addr :=
  let parts := split_on dot s in
  if (length parts =? 4)%nat then let! os := mapM parse_octet parts in Some (of_be os) else None.

(** [text.lines()]: the pieces at line feeds, each without a carriage return at
    its end; a final line feed ends the last line. *)
Definition strip_cr (line : str) : str :=
  if bool_decide (last line = Some Byte.x0d) then take (length line - 1) line else line.
Definition lines (text : str) : list str :=
  let pieces := split_on newline text in
  strip_cr <$> (if bool_decide (last pieces = Some []) then take (length pieces - 1) pieces else pieces).

(** [str::trim] takes away the characters with the Unicode property
    White_Space: their encodings, read forwards and backwards. *)
Definition white_1 (b : u8) : bool := in_rng 9 13 b || bool_decide (b = space).
Definition white_2 (b c : u8) : bool :=
  bool_decide (b = Byte.xc2) && (bool_decide (c = Byte.x85) || bool_decide (c = Byte.xa0)).
Definition white_3 (b c d : u8) : bool :=
  (bool_decide (b = Byte.xe1) && bool_decide (c = Byte.x9a) && bool_decide (d = Byte.x80))
  || (bool_decide (b = Byte.xe2) && bool_decide (c = Byte.x80)
      && (in_rng 128 138 d || bool_decide (d = Byte.xa8) || bool_decide (d = Byte.xa9) || bool_decide (d = Byte.xaf)))
  || (bool_decide (b = Byte.xe2) && bool_decide (c = Byte.x81) && bool_decide (d = Byte.x9f))
  || (bool_decide (b = Byte.xe3) && bool_decide (c = Byte.x80) && bool_decide (d = Byte.x80)).

Fixpoint trim_front (s : str) : str :=
  match s with
  | [] => []
  | b :: s1 =>
    if white_1 b then trim_front s1
    else match s1 with
         | [] => s
         | c :: s2 =>
           if white_2 b c then trim_front s2
           else match s2 with
                | [] => s
                | d :: s3 => if white_3 b c d then trim_front s3 else s
                end
         end
  end.
Fixpoint trim_back_rev (s : str) : str :=
  match s with
  | [] => []
  | d :: s1 =>
    if white_1 d then trim_back_rev s1
    else match s1 with
         | [] => s
         | c :: s2 =>
           if white_2 c d then trim_back_rev s2
           else match s2 with
                | [] => s
                | b :: s3 => if white_3 b c d then trim_back_rev s3 else s
                end
         end
  end.
Definition trim (s : str) : str := rev (trim_back_rev (rev (trim_front s))).

(** [s.splitn(n, c)]: at most [n] pieces, the last one unsplit. *)
Fixpoint splitn (n : nat) (c : u8) (s : str) : list str :=
  match n with
  | O => []
  | S O => [s]
  | S m => match split_once c s with
           | Some (a, b) => a :: splitn m c b
           | None => [s]
           end
  end.

(** ** Fields *)

(** A piece of a line: no separators, no white space at either end. *)
Definition field_byte (b : u8) : Prop := 33 <= u8z b < 127.
Definition field_ok (s : str) : Prop := s <> [] /\ Forall field_byte s.
#[global] Instance field_byte_dec b : Decision (field_byte b).
Proof. unfold field_byte. apply _. Defined.

Lemma field_no_sep s : field_ok s -> space ∉ s /\ newline ∉ s.
Proof. intros [_ H]. rewrite Forall_forall in H. split; intros [? ?]%H; done. Qed.

Lemma field_join sep ps : field_byte sep -> ps <> [] -> Forall field_ok ps -> field_ok (join [sep] ps).
Proof.
  intros Hs Hn. induction 1 as [|p ps [Hp1 Hp2] Hps IH]; [done|]. destruct ps as [|q ps]; [done|].
  rewrite join_cons by done. destruct IH as [_ IH]; [done|]. split; [by destruct p|].
  apply Forall_app. split; [done|]. cbn [app]. by constructor.
Qed.

Lemma parse_digits_app digit radix m acc s1 s2 :
  parse_digits digit radix m acc (s1 ++ s2) = let! v := parse_digits digit radix m acc s1 in parse_digits digit radix m v s2.
Proof.
  revert acc. induction s1 as [|b s1 IH]; intros acc; [done|]. cbn [app parse_digits]. destruct (digit b); [|done].
  case_match; [apply IH|done].
Qed.

Lemma dec_digit_char d : 0 <= d < 10 -> dec_digit (z8 (48 + d)) = Some d /\ field_byte (z8 (48 + d)) /\ z8 (48 + d) <> Byte.x2b.
Proof.
  intros Hd. pose proof (u8z_z8_small (48 + d) ltac:(lia)) as E. unfold dec_digit, in_rng, field_byte. rewrite E.
  rewrite (proj2 (Z.leb_le 48 (48 + d))), (proj2 (Z.leb_le (48 + d) 57)) by lia. cbn [andb]. split_and!; [f_equal; lia|lia|lia|].
  intros Hx. apply (f_equal u8z) in Hx. rewrite E in Hx. change (u8z Byte.x2b) with 43 in Hx. lia.
Qed.

Lemma parse_digit_last d acc m : 0 <= d < 10 -> acc * 10 + d <= m ->
  parse_digits dec_digit 10 m acc [z8 (48 + d)] = Some (acc * 10 + d).
Proof. intros Hd Hm. cbn [parse_digits]. rewrite (proj1 (dec_digit_char d Hd)). by rewrite (proj2 (Z.leb_le _ m)). Qed.

(** Printing puts the digits of [n] before the accumulator. *)
Lemma dec_digits_spec f n acc m : 0 <= n < 10 ^ Z.of_nat (S f) -> n <= m ->
  exists b ds, dec_digits (S f) n acc = b :: ds ++ acc /\ b <> Byte.x2b /\ Forall field_byte (b :: ds) /\
    parse_digits dec_digit 10 m 0 (b :: ds) = Some n.
Proof.
  revert n acc. induction f as [|f IH]; intros n acc Hn Hm;
    destruct (dec_digit_char (n mod 10)) as (Hd & Hf & Hp); [apply Z.mod_pos_bound; lia| |apply Z.mod_pos_bound; lia|];
    change (dec_digits (S ?x) n acc) with (if n <? 10 then z8 (48 + n mod 10) :: acc else dec_digits x (n / 10) ([z8 (48 + n mod 10)] ++ acc));
    (destruct (Z.ltb_spec n 10) as [Hlt|Hge];
     [exists (z8 (48 + n mod 10)), []; split_and!; [done..|by constructor|rewrite parse_digit_last; rewrite Z.mod_small by lia; [done|lia..]]|]).
  { change (10 ^ Z.of_nat 1) with 10 in Hn. lia. }
  destruct (IH (n / 10) ([z8 (48 + n mod 10)] ++ acc)) as (b & ds & E & Hb & Hds & Hv).
  { rewrite (Nat2Z.inj_succ (S f)), Z.pow_succ_r in Hn by lia. split; [apply Z.div_pos; lia|]. apply Z.div_lt_upper_bound; lia. }
  { dlia. }
  exists b, (ds ++ [z8 (48 + n mod 10)]). split_and!; [rewrite E; by rewrite <- app_assoc|done| |].
  - rewrite app_comm_cons. apply Forall_app. split; [done|]. by constructor.
  - rewrite app_comm_cons, parse_digits_app, Hv. rewrite parse_digit_last; [f_equal; dlia|apply Z.mod_pos_bound; lia|dlia].
Qed.

Lemma fmt_uint n m : 0 <= n < 2 ^ 64 -> n <= m -> field_ok (fmt_u n) /\ parse_uint dec_digit 10 m (fmt_u n) = Some n.
Proof.
  intros Hn Hm. destruct (dec_digits_spec 19 n [] m) as (b & ds & E & Hb & Hf & Hv); [|done|].
  { split; [lia|]. assert (2 ^ 64 < 10 ^ Z.of_nat 20) by (by vm_compute). lia. }
  unfold fmt_u. rewrite E, app_nil_r. split; [by split|]. unfold parse_uint. destruct ds; rewrite decide_False by done; exact Hv.
Qed.
Lemma fmt_u64 n : 0 <= n < 2 ^ 64 -> field_ok (fmt_u n) /\ parse_u64 (fmt_u n) = Some n.
Proof. intros Hn. apply fmt_uint; [done|]. zpow. lia. Qed.

(** Printed numbers are digits. *)
Definition digit_byte (b : u8) : Prop := 48 <= u8z b < 58.
Lemma dec_digits_digits f n acc : Forall digit_byte acc -> Forall digit_byte (dec_digits f n acc).
Proof.
  revert n acc. induction f as [|f IH]; intros n acc Ha; [done|]. cbn [dec_digits].
  assert (digit_byte (z8 (48 + n mod 10))) as Hd.
  { pose proof (Z.mod_pos_bound n 10). unfold digit_byte. rewrite u8z_z8, Z.mod_small; lia. }
  case_match; [by constructor|]. apply IH. by constructor.
Qed.
Lemma fmt_u_digits n : Forall digit_byte (fmt_u n).
Proof. by apply dec_digits_digits. Qed.

Definition octet_field_ok (b : u8) : bool :=
  bool_decide (parse_octet (fmt_u (u8z b)) = Some b) && bool_decide (Forall field_byte (fmt_u (u8z b)))
  && bool_decide (Forall (fun x => dot <> x) (fmt_u (u8z b))) && negb (bool_decide (fmt_u (u8z b) = [])).
Lemma octet_field b : parse_octet (fmt_u (u8z b)) = Some b /\ field_ok (fmt_u (u8z b)) /\ dot ∉ fmt_u (u8z b).
Proof.
  assert (octet_field_ok b = true) as H by (by byte_cases b). unfold octet_field_ok in H.
  rewrite !andb_true_iff, negb_true_iff, !bool_decide_eq_true, bool_decide_eq_false in H. destruct H as (((A & B) & C) & D).
  split_and!; [done| |]; [by split|]. rewrite Forall_forall in C. intros Hx. by apply (C _ Hx).
Qed.

(** Addresses are read back. *)
Lemma fmt_ipv4_spec a : ip4_ok a -> field_ok (fmt_ipv4 a) /\ parse_ipv4 (fmt_ipv4 a) = Some a.
Proof.
  intros Ha. unfold fmt_ipv4, parse_ipv4. change (bs ".") with [dot]. pose proof (length_octets4 a) as Hlen.
  assert ((fun b => fmt_u (u8z b)) <$> octets4 a <> []) as Hne by (intros E%(f_equal length); rewrite length_fmap, Hlen in E; done).
  split.
  - apply field_join; [by split; vm_compute|done|]. apply Forall_fmap, Forall_true. intros b. apply octet_field.
  - rewrite split_join, length_fmap, Hlen; [|done|apply Forall_fmap, Forall_true; intros b; apply octet_field].
    cbn [Nat.eqb]. assert (mapM parse_octet ((fun b => fmt_u (u8z b)) <$> octets4 a) = Some (octets4 a)) as ->.
    { apply mapM_Some. rewrite Forall2_fmap_l. apply Forall_Forall2_diag, Forall_true. intros b. apply octet_field. }
    by rewrite octets4_of.
Qed.

Definition hex_field_ok (b : u8) : bool :=
  bool_decide (parse_hex_u8 (fmt_hex 2 (u8z b)) = Some (u8z b)) && bool_decide (Forall field_byte (fmt_hex 2 (u8z b)))
  && bool_decide (Forall (fun x => Byte.x3a <> x) (fmt_hex 2 (u8z b))).
Lemma hex_field b : parse_hex_u8 (fmt_hex 2 (u8z b)) = Some (u8z b) /\ field_ok (fmt_hex 2 (u8z b)) /\ Byte.x3a ∉ fmt_hex 2 (u8z b).
Proof.
  assert (hex_field_ok b = true) as H by (by byte_cases b). unfold hex_field_ok in H.
  rewrite !andb_true_iff, !bool_decide_eq_true in H. destruct H as ((A & B) & C). split_and!; [done| |]; [split; [|done]|].
  - by destruct (hex2_facts b) as (Hl & _); destruct (fmt_hex 2 (u8z b)).
  - rewrite Forall_forall in C. intros Hx. by apply (C _ Hx).
Qed.

Lemma split_once_app c p s : c ∉ p -> split_once c (p ++ c :: s) = Some (p, s).
Proof.
  intros Hp. unfold split_once. assert (find_byte c (p ++ c :: s) = Some (length p)) as ->.
  { induction p as [|b p IH]; cbn; [by rewrite decide_True|]. rewrite decide_False by set_solver. by rewrite IH by set_solver. }
  f_equal. f_equal; [apply take_app_length|]. change (p ++ c :: s) with (p ++ [c] ++ s).
  rewrite app_assoc. apply drop_app_length'. rewrite length_app. cbn. lia.
Qed.

(** ** White space *)

Lemma white_1_field b : field_byte b -> white_1 b = false.
Proof. intros [? ?]. assert (forall b, negb (white_1 b) || bool_decide (u8z b < 33) = true) as A by (intros x; by byte_cases x).
  specialize (A b). rewrite bool_decide_false in A by lia. by rewrite orb_false_r, negb_true_iff in A. Qed.
Lemma white_23_field b c d : field_byte b -> white_2 b c = false /\ white_3 b c d = false /\ white_2 c b = false /\ white_3 c d b = false.
Proof.
  intros Hb. assert (forall x, 128 <= u8z x -> b <> x) as Hx by (intros x Hx ->; destruct Hb; lia).
  unfold white_2, white_3, in_rng. destruct Hb. rewrite (proj2 (Z.leb_gt 128 (u8z b))) by lia.
  repeat rewrite (bool_decide_false (b = _)) by (by apply Hx; vm_compute). rewrite ?andb_false_r. done.
Qed.

Lemma trim_front_field b s : field_byte b -> trim_front (b :: s) = b :: s.
Proof.
  intros Hb. cbn [trim_front]. rewrite white_1_field by done. destruct s as [|c s]; [done|].
  rewrite (proj1 (white_23_field b c b Hb)). destruct s as [|d s]; [done|]. by rewrite (proj1 (proj2 (white_23_field b c d Hb))).
Qed.
Lemma trim_back_field d s : field_byte d -> trim_back_rev (d :: s) = d :: s.
Proof.
  intros Hd. cbn [trim_back_rev]. rewrite white_1_field by done. destruct s as [|c s]; [done|].
  rewrite (proj1 (proj2 (proj2 (white_23_field d c d Hd)))). destruct s as [|b s]; [done|].
  by rewrite (proj2 (proj2 (proj2 (white_23_field d b c Hd)))).
Qed.
Lemma trim_field b s d : field_byte b -> field_byte d -> trim (b :: s ++ [d]) = b :: s ++ [d].
Proof.
  intros Hb Hd. unfold trim. rewrite trim_front_field, app_comm_cons, rev_app_distr by done. cbn [rev app].
  rewrite trim_back_field by done. change (d :: rev s ++ [b]) with ([d] ++ rev (b :: s)). by rewrite rev_app_distr, rev_involutive.
Qed.

(** ** IPv6 addresses

    The recursive-descent parser of [Ipv6Addr::from_str]: every reader works on
    the front of the text and a failed one leaves the text alone. *)
Fixpoint span_digits (digit : u8 -> option Z) (s : str) : str * str :=
  match s with
  | [] => ([], [])
  | b :: s' => match digit b with
               | Some _ => let '(ds, rest) := span_digits digit s' in (b :: ds, rest)
               | None => ([], s)
               end
  end.
Definition read_number (digit : u8 -> option Z) (radix : Z) (max_digits : nat) (max : Z) (allow_zero_prefix : bool) (s : str)
  : option (Z * str) :=
  let '(ds, rest) := span_digits digit s in
  if (length ds =? 0)%nat || (max_digits <? length ds)%nat
     || (negb allow_zero_prefix && (1 <? length ds)%nat && bool_decide (s !! 0%nat = Some Byte.x30))
  then None
  else let! v := parse_digits digit radix max 0 ds in Some (v, rest).

(** [read_separator]: nothing comes before the first item. *)
Definition read_sep {A} (c : u8) (first : bool) (p : str -> option (A * str)) (s : str) : option (A * str) :=
  if first then p s
  else match s with
       | b :: s' => if decide (b = c) then p s' else None
       | [] => None
       end.

Definition colon : u8 := Byte.x3a.
Definition read_octet : str -> option (Z * str) := read_number dec_digit 10 3 255 false.
Definition read_ipv4 (s : str) : option (Ipv4Addr * str) :=
  let! (a, s) := read_sep dot true read_octet s in
  let! (b, s) := read_sep dot false read_octet s in
  let! (c, s) := read_sep dot false read_octet s in
  let! (d, s) := read_sep dot false read_octet s in
  Some (((a * 256 + b) * 256 + c) * 256 + d, s).

(** Up to [n] groups; an embedded IPv4 address fills the last two of them. *)
Fixpoint read_groups (n : nat) (first : bool) (s : str) : list Z * bool * str :=
  match n with
  | O => ([], false, s)
  | S m =>
    match (if (m =? 0)%nat then None else read_sep colon first read_ipv4 s) with
    | Some (a, s') => ([a / 65536; a mod 65536], true, s')
    | None =>
      match read_sep colon first (read_number hex_digit 16 4 65535 true) s with
      | Some (g, s') => let '(gs, v4, rest) := read_groups m false s' in (g :: gs, v4, rest)
      | None => ([], false, s)
      end
    end
  end.
Definition of_groups (gs : list Z) : Ipv6Addr := fold_left (fun acc g => acc * 65536 + g) gs 0.
Definition parse_ipv6 (s : str) : option Ipv6Addr :=
  let '(hd, v4, rest) := read_groups 8 true s in
  let finish (gs : list Z) (rest : str) := if (length rest =? 0)%nat then Some (of_groups gs) else None in
  if (length hd =? 8)%nat then finish hd rest
  else if v4 then None
  else match rest with
       | c1 :: c2 :: rest =>
         if decide (c1 = colon) then
           if decide (c2 = colon) then
             let '(tl, _, rest) := read_groups (7 - length hd) true rest in
             finish (hd ++ replicate (8 - length hd - length tl) 0 ++ tl) rest
           else None
         else None
       | _ => None
       end.

Example parse_ipv6_full : parse_ipv6 (bs "fe80:0:0:0:0202:b3ff:FE1e:8329") = Some 0xfe800000000000000202b3fffe1e8329.
Proof. by vm_compute. Qed.
Example parse_ipv6_short : parse_ipv6 (bs "2001:db8::1") = Some 0x20010db8000000000000000000000001 /\ parse_ipv6 (bs "::") = Some 0
  /\ parse_ipv6 (bs "::ffff:10.0.0.1") = Some 0xffff0a000001 /\ parse_ipv6 (bs "1:2:3:4:5:6:7") = None /\ parse_ipv6 (bs "1::2::3") = None
  /\ parse_ipv6 (bs "12345::") = None.
Proof. by vm_compute. Qed.

Lemma hex_digit_char d : 0 <= d < 16 -> hex_digit (hex_char d) = Some d /\ field_byte (hex_char d) /\ hex_char d <> dot /\ hex_char d <> colon
  /\ hex_char d <> Byte.x2d.
Proof.
  intros Hd. assert (forallb (fun d => bool_decide (hex_digit (hex_char d) = Some d) && bool_decide (field_byte (hex_char d))
    && bool_decide (hex_char d <> dot) && bool_decide (hex_char d <> colon) && bool_decide (hex_char d <> Byte.x2d)) (seqZ 0 16) = true)
    as H by by vm_compute.
  rewrite forallb_forall in H. specialize (H d). rewrite <- list_elem_of_In, elem_of_seqZ, !andb_true_iff, !bool_decide_eq_true in H.
  destruct H as ((((? & ?) & ?) & ?) & ?); [lia|done].
Qed.

Lemma fmt_hex_parse w : forall n acc m, 0 <= n < 16 ^ Z.of_nat w -> 0 <= acc -> acc * 16 ^ Z.of_nat w + n <= m ->
  parse_digits hex_digit 16 m acc (fmt_hex w n) = Some (acc * 16 ^ Z.of_nat w + n).
Proof.
  induction w as [|w IH]; intros n acc m Hn Ha Hm; [cbn in *; f_equal; lia|].
  cbn [fmt_hex]. replace (Z.of_nat (S w)) with (Z.of_nat w + 1) in * by lia. rewrite Z.pow_add_r, Z.pow_1_r in * by lia.
  assert (n / 16 < 16 ^ Z.of_nat w) by (apply Z.div_lt_upper_bound; lia).
  pose proof (Z.mod_pos_bound n 16). pose proof (Z.div_mod n 16). assert (0 <= n / 16) by (apply Z.div_pos; lia).
  rewrite parse_digits_app, IH by nia. cbn [parse_digits].
  rewrite (proj1 (hex_digit_char (n mod 16) ltac:(lia))). replace ((acc * 16 ^ Z.of_nat w + n / 16) * 16 + n mod 16) with (acc * (16 ^ Z.of_nat w * 16) + n) by lia.
  by rewrite (proj2 (Z.leb_le _ _)).
Qed.

Lemma fmt_hex_chars w : forall n, 0 <= n -> length (fmt_hex w n) = w /\
  Forall (fun b => is_Some (hex_digit b) /\ field_byte b /\ b <> dot /\ b <> colon /\ b <> Byte.x2d) (fmt_hex w n).
Proof.
  induction w as [|w IH]; intros n Hn; [done|]. cbn [fmt_hex]. destruct (IH (n / 16)) as [Hl Hf]; [apply Z.div_pos; lia|].
  split; [rewrite length_app, Hl; cbn; lia|]. apply Forall_app. split; [done|]. apply Forall_singleton.
  pose proof (Z.mod_pos_bound n 16). destruct (hex_digit_char (n mod 16) ltac:(lia)) as (-> & ? & ? & ? & ?). by eauto.
Qed.

Lemma span_digits_app digit ds rest : Forall (fun b => is_Some (digit b)) ds ->
  match rest with [] => True | b :: _ => digit b = None end -> span_digits digit (ds ++ rest) = (ds, rest).
Proof.
  intros Hd Hr. induction Hd as [|b ds [v Hv] _ IH].
  - destruct rest as [|b rest]; [done|]. cbn. by rewrite Hr.
  - cbn [app span_digits]. by rewrite Hv, IH.
Qed.

(** Reading an IPv4 address passes a dot. *)
Lemma span_digits_suffix digit s : exists ds, s = ds ++ snd (span_digits digit s).
Proof.
  induction s as [|b s [ds IH]]; [by exists []|]. cbn [span_digits]. destruct (digit b).
  - destruct (span_digits digit s) as [d r]. cbn in *. exists (b :: ds). by rewrite IH at 1.
  - by exists [].
Qed.
Lemma read_number_suffix digit radix k m z s v r : read_number digit radix k m z s = Some (v, r) -> exists ds, s = ds ++ r.
Proof.
  unfold read_number. pose proof (span_digits_suffix digit s) as [ds Hs]. destruct (span_digits digit s) as [d r']. cbn in Hs.
  case_match; [done|]. destruct (parse_digits _ _ _ _ _); [|done]. intros [= _ <-]. by exists ds.
Qed.
Lemma read_ipv4_dot s a r : read_ipv4 s = Some (a, r) -> dot ∈ s.
Proof.
  unfold read_ipv4, read_sep. destruct (read_octet s) as [[v s1]|] eqn:E; [|done].
  apply read_number_suffix in E as [ds ->]. destruct s1 as [|b s1]; [done|]. destruct (decide (b = dot)) as [->|]; [|done].
  intros _. set_solver.
Qed.

Lemma read_group g rest : 0 <= g < 65536 -> match rest with [] => True | b :: _ => hex_digit b = None end ->
  read_number hex_digit 16 4 65535 true (fmt_hex 4 g ++ rest) = Some (g, rest).
Proof.
  intros Hg Hr. destruct (fmt_hex_chars 4 g ltac:(lia)) as [Hl Hf]. unfold read_number.
  rewrite span_digits_app, Hl by (done || (eapply Forall_impl; [exact Hf|]; naive_solver)). cbn [Nat.eqb Nat.ltb Nat.leb orb negb andb].
  rewrite fmt_hex_parse by (cbn; lia). f_equal.
Qed.

(** The groups after a separator, as the parser meets them. *)
Definition sep_text (first : bool) (gs : list Z) : str :=
  match gs with [] => [] | _ => (if first then [] else [colon]) ++ join [colon] (fmt_hex 4 <$> gs) end.

Lemma sep_text_no_dot first gs : Forall (fun g => 0 <= g < 65536) gs -> dot ∉ sep_text first gs.
Proof.
  intros Hg. unfold sep_text. destruct gs as [|g gs]; [set_solver|].
  assert (dot ∉ join [colon] (fmt_hex 4 <$> g :: gs)) as Hj.
  { revert Hg. generalize (g :: gs). intros l Hl. induction Hl as [|h l Hh _ IH]; [set_solver|]. rewrite fmap_cons.
    destruct (fmt_hex_chars 4 h ltac:(lia)) as [_ Hf]. rewrite Forall_forall in Hf.
    assert (dot ∉ fmt_hex 4 h) as Hd by (intros (_ & _ & H & _)%Hf; done).
    destruct l; [done|]. rewrite join_cons by done. rewrite !elem_of_app, list_elem_of_singleton. intros [?|[?|?]]; [done| |done]. done. }
  destruct first; [done|]. rewrite elem_of_app, list_elem_of_singleton. by intros [?|?].
Qed.

Lemma read_groups_text gs : forall first, Forall (fun g => 0 <= g < 65536) gs ->
  read_groups (length gs) first (sep_text first gs) = (gs, false, []).
Proof.
  induction gs as [|g gs IH]; intros first Hg; [done|]. pose proof Hg as Hg'. apply Forall_cons in Hg as [Hg Hgs].
  cbn [length read_groups].
  assert ((if (length gs =? 0)%nat then None else read_sep colon first read_ipv4 (sep_text first (g :: gs))) = None) as ->.
  { case_match; [done|]. destruct (read_sep _ _ _ _) as [[a r]|] eqn:E; [|done]. exfalso. apply (sep_text_no_dot first (g :: gs)); [done|].
    unfold read_sep in E. destruct first; [by eapply read_ipv4_dot|]. destruct (sep_text false (g :: gs)) as [|b s]; [done|].
    destruct (decide (b = colon)); [|done]. apply read_ipv4_dot in E. set_solver. }
  assert (read_sep colon first (read_number hex_digit 16 4 65535 true) (sep_text first (g :: gs)) = Some (g, sep_text false gs)) as ->.
  { transitivity (read_number hex_digit 16 4 65535 true (fmt_hex 4 g ++ sep_text false gs)).
    - unfold sep_text. rewrite fmap_cons.
      assert (join [colon] (fmt_hex 4 g :: (fmt_hex 4 <$> gs)) = fmt_hex 4 g ++ match gs with [] => [] | _ => [colon] ++ join [colon] (fmt_hex 4 <$> gs) end) as ->.
      { destruct gs; [by rewrite app_nil_r|]. by rewrite fmap_cons, join_cons. }
      by destruct first.
    - apply read_group; [done|]. by destruct gs. }
  by rewrite IH.
Qed.

Lemma parse_ipv6_full_form gs : length gs = 8%nat -> Forall (fun g => 0 <= g < 65536) gs ->
  parse_ipv6 (join [colon] (fmt_hex 4 <$> gs)) = Some (of_groups gs).
Proof.
  intros Hl Hg. unfold parse_ipv6. pose proof (read_groups_text gs true Hg) as H. rewrite Hl in H.
  unfold sep_text in H. destruct gs as [|g gs]; [done|]. cbn [app] in H. rewrite H. rewrite Hl. done.
Qed.

(** ** Printing *)

(** [format!("{n:x}")] with at least [w] digits. *)
Fixpoint hex_digits (fuel : nat) (n : Z) (acc : str) : str :=
  match fuel with
  | O => acc
  | S f =>
    let acc' := hex_char (n mod 16) :: acc in
    if n <? 16 then acc' else hex_digits f (n / 16) acc'
  end.
Definition fmt_x (w : nat) (n : Z) : str :=
  let ds := hex_digits 16 n [] in replicate (w - length ds) Byte.x30 ++ ds.

(** [format!("{n}")] of a signed integer. *)
Definition fmt_i (n : Z) : str := if n <? 0 then bs "-" ++ fmt_u (- n) else fmt_u n.

(** [format!("{addr}")] of an [Ipv6Addr]: the first longest run of at least two
    zero groups is [::]. *)
Definition groups6 (a : Ipv6Addr) : list Z := (fun i => Z.shiftr a (112 - 16 * i) mod 65536) <$> seqZ 0 8.
Fixpoint zero_run (i : nat) (gs : list Z) (cur longest : nat * nat) : nat * nat :=
  match gs with
  | [] => longest
  | g :: gs' =>
    if g =? 0 then
      let cur := if (snd cur =? 0)%nat then (i, 1%nat) else (fst cur, S (snd cur)) in
      zero_run (S i) gs' cur (if (snd longest <? snd cur)%nat then cur else longest)
    else zero_run (S i) gs' (0%nat, 0%nat) longest
  end.
Definition fmt_groups (gs : list Z) : str := join (bs ":") (fmt_x 1 <$> gs).
Definition fmt_ipv6 (a : Ipv6Addr) : str :=
  let gs := groups6 a in
  if Z.shiftr a 32 =? 65535 then bs "::ffff:" ++ fmt_ipv4 (a mod 2 ^ 32)
  else
    let '(start, n) := zero_run 0 gs (0%nat, 0%nat) (0%nat, 0%nat) in
    if (1 <? n)%nat then fmt_groups (take start gs) ++ bs "::" ++ fmt_groups (drop (start + n) gs)
    else fmt_groups gs.

Example fmt_ipv6_examples :
  fmt_ipv6 1 = bs "::1" /\ fmt_ipv6 0 = bs "::" /\ fmt_ipv6 0x20010db8000000000000000000000001 = bs "2001:db8::1" /\
  fmt_ipv6 0x20010000000000010000000000000001 = bs "2001:0:0:1::1" /\ fmt_ipv6 0xffff0a000001 = bs "::ffff:10.0.0.1" /\
  fmt_ipv6 0x00010002000300040005000600070000 = bs "1:2:3:4:5:6:7:0".
Proof. by vm_compute. Qed.

(** ** UTF-8 and substrings *)

(** [String::from_utf8_lossy]: a character cut short or malformed becomes
    U+FFFD, and decoding goes on at the first byte that does not belong to it. *)
Definition REPLACEMENT : str := [Byte.xef; Byte.xbf; Byte.xbd].
Definition second_ok (b0 b1 : u8) : bool :=
  if u8z b0 =? 224 then in_rng 160 191 b1
  else if u8z b0 =? 237 then in_rng 128 159 b1
  else if u8z b0 =? 240 then in_rng 144 191 b1
  else if u8z b0 =? 244 then in_rng 128 143 b1
  else is_cont b1.
Fixpoint utf8_lossy (s : str) : str :=
  match s with
  | [] => []
  | b0 :: s1 =>
    if u8z b0 <? 128 then b0 :: utf8_lossy s1
    else if negb (in_rng 194 244 b0) then REPLACEMENT ++ utf8_lossy s1
    else match s1 with
    | [] => REPLACEMENT
    | b1 :: s2 =>
      if negb (second_ok b0 b1) then REPLACEMENT ++ utf8_lossy s1
      else if u8z b0 <? 224 then b0 :: b1 :: utf8_lossy s2
      else match s2 with
      | [] => REPLACEMENT
      | b2 :: s3 =>
        if negb (is_cont b2) then REPLACEMENT ++ utf8_lossy s2
        else if u8z b0 <? 240 then b0 :: b1 :: b2 :: utf8_lossy s3
        else match s3 with
        | [] => REPLACEMENT
        | b3 :: s4 => if negb (is_cont b3) then REPLACEMENT ++ utf8_lossy s3 else b0 :: b1 :: b2 :: b3 :: utf8_lossy s4
        end
      end
    end
  end.

(** [expect]: the code panics if there is no value. *)
Definition expect {A} (o : option A) : outcome A := match o with Some a => Val a | None => Panic end.

(** [s.starts_with(p)] and [s.contains(sub)]. *)
Definition has_prefix (p s : str) : bool := bool_decide (take (length p) s = p).
Definition contains_str (sub s : str) : bool := existsb (fun i => has_prefix sub (drop i s)) (seq 0 (S (length s))).

Lemma utf8_lossy_valid s : utf8_valid s = true -> utf8_lossy s = s.
Proof.
  induction s as [s IH] using (induction_ltof1 _ length). unfold ltof in IH. destruct s as [|b0 s1]; [done|].
  cbn [utf8_valid utf8_lossy]. destruct (u8z b0 <? 128) eqn:E0; [intros H; f_equal; apply IH; cbn; [lia|done]|].
  destruct s1 as [|b1 s2]; [done|]. unfold second_ok, in_rng. destruct ((194 <=? u8z b0) && (u8z b0 <=? 223)) eqn:E2.
  { rewrite andb_true_iff, !Z.leb_le in E2. rewrite (proj2 (Z.leb_le 194 _)), (proj2 (Z.leb_le _ 244)) by lia. cbn [andb negb].
    rewrite !(proj2 (Z.eqb_neq (u8z b0) _)) by lia. rewrite (proj2 (Z.ltb_lt _ 224)) by lia. rewrite andb_true_iff. intros [-> H]. cbn [negb].
    do 2 f_equal. apply IH; [cbn; lia|done]. }
  destruct s2 as [|b2 s3]; [done|]. destruct ((224 <=? u8z b0) && (u8z b0 <=? 239)) eqn:E3.
  { rewrite andb_true_iff, !Z.leb_le in E3. rewrite (proj2 (Z.leb_le 194 _)), (proj2 (Z.leb_le _ 244)) by lia. cbn [andb negb].
    rewrite (proj2 (Z.ltb_ge _ 224)), (proj2 (Z.ltb_lt _ 240)) by lia. rewrite !andb_true_iff. intros [[H1 ->] H].
    destruct (Z.eqb_spec (u8z b0) 240); [lia|]. destruct (Z.eqb_spec (u8z b0) 244); [lia|].
    unfold in_rng in H1. rewrite H1. cbn [negb]. do 3 f_equal. apply IH; [cbn; lia|done]. }
  destruct s3 as [|b3 s4]; [done|]. rewrite !andb_true_iff, !Z.leb_le. intros ((((H4 & H1) & ->) & ->) & H).
  rewrite (proj2 (Z.leb_le 194 _)), (proj2 (Z.leb_le _ 244)) by lia. cbn [andb negb].
  rewrite (proj2 (Z.ltb_ge _ 224)), (proj2 (Z.ltb_ge _ 240)) by lia.
  destruct (Z.eqb_spec (u8z b0) 224); [lia|]. destruct (Z.eqb_spec (u8z b0) 237); [lia|]. unfold in_rng in H1. rewrite H1. cbn [negb].
  do 4 f_equal. apply IH; [cbn; lia|done].
Qed.

Lemma has_prefix_spec p s : has_prefix p s = true <-> exists rest, s = p ++ rest.
Proof.
  unfold has_prefix. rewrite bool_decide_eq_true. split.
  - intros H. exists (drop (length p) s). rewrite <- H at 1. by rewrite take_drop.
  - intros [rest ->]. by rewrite take_app_length.
Qed.
Lemma contains_str_spec sub s : contains_str sub s = true <-> exists a b, s = a ++ sub ++ b.
Proof.
  unfold contains_str. rewrite existsb_exists. split.
  - intros (i & _ & (rest & Hr)%has_prefix_spec). exists (take i s), rest. by rewrite <- Hr, take_drop.
  - intros (a & b & ->). exists (length a). rewrite in_seq, length_app, drop_app_length, has_prefix_spec. split; [lia|by eexists].
Qed.
