(* ===== verification/Words.v ===== *)
(** * The words of a text

    [str::split_whitespace]: the maximal pieces without characters of the
    Unicode property White_Space. *)

From Stdlib Require Import ZArith Lia String.
From stdpp Require Import base numbers list option.
From S2P Require Import Prelude Types StdText.

#[local] Open Scope Z_scope.

(** The text before the first white space, whose encodings have up to three bytes. *)
Fixpoint word (s : str) : str :=
  match s with
  | [] => []
  | b :: s1 =>
    if white_1 b || match s1 with c :: s2 => white_2 b c || match s2 with d :: _ => white_3 b c d | [] => false end | [] => false end then []
    else b :: word s1
  end.
Fixpoint words_loop (fuel : nat) (s : str) : list str :=
  match fuel with
  | O => []
  | S fuel => match trim_front s with
              | [] => []
              | t => word t :: words_loop fuel (drop (length (word t)) t)
              end
  end.
(** Every word takes a byte at least. *)
Definition split_whitespace (s : str) : list str := words_loop (S (length s)) s.

Example words_of_line : split_whitespace (bs "  10.0.0.1  a.test	b ") = [bs "10.0.0.1"; bs "a.test"; bs "b"].
Proof. by vm_compute. Qed.
