(* ===== verification/Server.v ===== *)
(** * Upstream servers: src/src/types/server.rs *)

From Stdlib Require Import ZArith Lia String.
From stdpp Require Import base numbers list option.
From S2P Require Import Prelude Types.

#[local] Open Scope Z_scope.

(** [ServFlags] is a bit set over [u16]. *)
Abbreviation ServFlags := Z (only parsing).
Definition USE_RESOLV : ServFlags := 2 ^ 0.
Definition LITERAL_ADDRESS : ServFlags := 2 ^ 1.
Definition ALL_ZEROS : ServFlags := 2 ^ 2.
Definition ADDR4 : ServFlags := 2 ^ 3.
Definition ADDR6 : ServFlags := 2 ^ 4.
Definition FOR_NODOTS : ServFlags := 2 ^ 6.
Definition FROM_DBUS : ServFlags := 2 ^ 8.
Definition MARK : ServFlags := 2 ^ 9.
Definition WILDCARD : ServFlags := 2 ^ 10.
Definition FROM_RESOLV : ServFlags := 2 ^ 11.
Definition FROM_FILE : ServFlags := 2 ^ 12.
Definition LOOP : ServFlags := 2 ^ 13.

(** [contains], [intersects], [insert], [remove] of the bit set; [!b] is taken
    on sixteen bits. *)
Definition contains (f b : ServFlags) : bool := Z.land f b =? b.
Definition intersects (f b : ServFlags) : bool := negb (Z.land f b =? 0).
Definition flag_insert (f b : ServFlags) : ServFlags := Z.lor f b.
Definition flag_remove (f b : ServFlags) : ServFlags := Z.land f (65535 - b).

Record Server : Type := mkServer {
  s_flags : ServFlags;
  s_domain : str;
  s_addr : MySockAddr;
  s_source_addr : MySockAddr;
  s_interface : str;
  s_ifindex : Z;
  s_queries : Z;
  s_failed_queries : Z;
  s_nxdomain_replies : Z;
  s_retrys : Z;
  s_query_latency : Z;
  s_mma_latency : Z;
  s_forwardtime : option Z;
  s_forwardcount : Z;
  s_tcpfd : Z;
  s_serial : Z;
  s_arrayposn : Z;
  s_last_server : Z;
  s_uid : Z;
}.

Definition with_sflags (s : Server) (f : ServFlags) : Server :=
  mkServer f (s_domain s) (s_addr s) (s_source_addr s) (s_interface s) (s_ifindex s) (s_queries s)
    (s_failed_queries s) (s_nxdomain_replies s) (s_retrys s) (s_query_latency s) (s_mma_latency s)
    (s_forwardtime s) (s_forwardcount s) (s_tcpfd s) (s_serial s) (s_arrayposn s) (s_last_server s) (s_uid s).
Definition with_sdomain (s : Server) (d : str) : Server :=
  mkServer (s_flags s) d (s_addr s) (s_source_addr s) (s_interface s) (s_ifindex s) (s_queries s)
    (s_failed_queries s) (s_nxdomain_replies s) (s_retrys s) (s_query_latency s) (s_mma_latency s)
    (s_forwardtime s) (s_forwardcount s) (s_tcpfd s) (s_serial s) (s_arrayposn s) (s_last_server s) (s_uid s).
(** The address fields [add_update_server] takes over from the new entry. *)
Definition with_saddrs (s : Server) (a src : MySockAddr) (i : str) : Server :=
  mkServer (s_flags s) (s_domain s) a src i (s_ifindex s) (s_queries s)
    (s_failed_queries s) (s_nxdomain_replies s) (s_retrys s) (s_query_latency s) (s_mma_latency s)
    (s_forwardtime s) (s_forwardcount s) (s_tcpfd s) (s_serial s) (s_arrayposn s) (s_last_server s) (s_uid s).

(** ** Lemmas *)

Lemma contains_bit f i : 0 <= i -> contains f (2 ^ i) = Z.testbit f i.
Proof.
  intros Hi. unfold contains. apply eq_true_iff_eq. rewrite Z.eqb_eq. split.
  - intros E. apply (f_equal (fun z => Z.testbit z i)) in E.
    by rewrite Z.land_spec, Z.pow2_bits_true, andb_true_r in E.
  - intros E. apply Z.bits_inj'. intros n Hn. rewrite Z.land_spec. destruct (Z.eq_dec i n) as [->|].
    + by rewrite E.
    + rewrite Z.pow2_bits_false by done. apply andb_false_r.
Qed.

Lemma insert_bit f i j : 0 <= i -> 0 <= j ->
  Z.testbit (flag_insert f (2 ^ i)) j = Z.testbit f j || (i =? j).
Proof. intros Hi Hj. unfold flag_insert. by rewrite Z.lor_spec, Z.pow2_bits_eqb. Qed.

Lemma remove_bit f i j : 0 <= i < 16 -> 0 <= j < 16 ->
  Z.testbit (flag_remove f (2 ^ i)) j = Z.testbit f j && negb (i =? j).
Proof.
  intros Hi Hj. unfold flag_remove. rewrite Z.land_spec. f_equal.
  change 65535 with (Z.ones 16).
  assert (Z.ones 16 - 2 ^ i = Z.ldiff (Z.ones 16) (2 ^ i)) as ->.
  { apply Z.sub_nocarry_ldiff. apply Z.bits_inj'. intros n Hn. rewrite Z.ldiff_spec, Z.bits_0.
    destruct (Z.eq_dec i n) as [<-|]; [|by rewrite Z.pow2_bits_false].
    rewrite Z.testbit_ones_nonneg by lia. rewrite (proj2 (Z.ltb_lt _ _)) by lia. apply andb_false_r. }
  rewrite Z.ldiff_spec, Z.testbit_ones_nonneg, Z.pow2_bits_eqb by lia.
  by rewrite (proj2 (Z.ltb_lt _ _)) by lia.
Qed.

(** Two servers that differ in a flag only. *)
Lemma with_sflags_domain s f : s_domain (with_sflags s f) = s_domain s.
Proof. done. Qed.
