(* ===== verification/LoopDetect.v ===== *)
(** * Forwarding-loop detection: src/src/loop_detect.rs

    The random query identifiers are a parameter; sending the probes is I/O. *)

From Stdlib Require Import ZArith Lia String.
From stdpp Require Import base numbers list option gmap sets.
From S2P Require Import Prelude Types ByteCursor DnsProtocol Rfc1035 Server.

#[local] Open Scope Z_scope.

Definition LOOP_TEST_DOMAIN : str := bs "test".
Definition LOOP_TEST_TYPE : Z := 16.

Definition loop_make_probe (uid id : Z) : list u8 :=
  let label := fmt_hex 8 uid in
  to_be 2 id ++ [Byte.x01; Byte.x00] ++ [Byte.x00; Byte.x01] ++ [Byte.x00; Byte.x00]
  ++ [Byte.x00; Byte.x00] ++ [Byte.x00; Byte.x00]
  ++ [z8 (Z.of_nat (length label))] ++ label
  ++ [z8 (Z.of_nat (length LOOP_TEST_DOMAIN))] ++ LOOP_TEST_DOMAIN ++ [Byte.x00]
  ++ to_be 2 LOOP_TEST_TYPE ++ to_be 2 1.

Record ProbeSend : Type := mkProbe { server_idx : nat; probe_addr : MySockAddr; packet : list u8 }.

(** [loop_send_probes] from position [idx]: the servers with LOOP cleared on the
    eligible ones, and one probe for each of those. *)
Fixpoint probes_from (ids : nat -> Z) (idx : nat) (servers : list Server) : list Server * list ProbeSend :=
  match servers with
  | [] => ([], [])
  | serv :: rest =>
    let '(rest', out) := probes_from ids (S idx) rest in
    if negb (length (s_domain serv) =? 0)%nat || contains (s_flags serv) FOR_NODOTS
    then (serv :: rest', out)
    else (with_sflags serv (flag_remove (s_flags serv) LOOP) :: rest',
          mkProbe idx (s_addr serv) (loop_make_probe (s_uid serv) (ids idx)) :: out)
  end.
Definition loop_send_probes (ids : nat -> Z) (servers : list Server) : list Server * list ProbeSend :=
  probes_from ids 0 servers.

Definition is_ascii_hexdigit (b : u8) : bool :=
  in_rng 48 57 b || in_rng 97 102 b || in_rng 65 70 b.

(** The last loop: mark the first general server with the uid. *)
Fixpoint mark_loop (uid : Z) (servers : list Server) : bool * list Server :=
  match servers with
  | [] => (false, [])
  | serv :: rest =>
    if (length (s_domain serv) =? 0)%nat && negb (contains (s_flags serv) LOOP) && (s_uid serv =? uid)
    then (true, with_sflags serv (flag_insert (s_flags serv) LOOP) :: rest)
    else let '(b, rest') := mark_loop uid rest in (b, serv :: rest')
  end.

Definition detect_loop (query : str) (qtype : Z) (servers : list Server) : bool * list Server :=
  if negb (qtype =? LOOP_TEST_TYPE) then (false, servers)
  else if negb (length query =? length LOOP_TEST_DOMAIN + 9)%nat
          || negb (bool_decide (drop 9 query = LOOP_TEST_DOMAIN)) then (false, servers)
  else if negb (forallb is_ascii_hexdigit (take 8 query)) then (false, servers)
  else match parse_hex_u32 (take 8 query) with
       | None => (false, servers)
       | Some uid => mark_loop uid servers
       end.

(** ** Hexadecimal text *)

Lemma parse_digits_snoc digit radix max acc s b :
  parse_digits digit radix max acc (s ++ [b]) =
  let! a := parse_digits digit radix max acc s in
  let! d := digit b in
  if a * radix + d <=? max then Some (a * radix + d) else None.
Proof.
  revert acc. induction s as [|c s IH]; intros acc; cbn.
  - destruct (digit b); [|done]. by case_bool.
  - destruct (digit c); [|done]. case_bool; [apply IH|done].
Qed.

Definition hex_char_ok (d : Z) : bool :=
  bool_decide (hex_digit (hex_char d) = Some d) && is_ascii_hexdigit (hex_char d)
  && negb (bool_decide (hex_char d = Byte.x2b)) && negb (bool_decide (hex_char d = dot)) && (u8z (hex_char d) <? 128).

Lemma hex_char_facts d : 0 <= d < 16 ->
  hex_digit (hex_char d) = Some d /\ is_ascii_hexdigit (hex_char d) = true /\
  hex_char d <> Byte.x2b /\ hex_char d <> dot /\ u8z (hex_char d) < 128.
Proof.
  intros Hd. assert (hex_char_ok d = true) as Hk.
  { assert (forallb hex_char_ok (seqZ 0 16) = true) as Hall by (by vm_compute).
    apply (proj1 (forallb_forall hex_char_ok (seqZ 0 16)) Hall d). apply list_elem_of_In, elem_of_seqZ. lia. }
  unfold hex_char_ok in Hk. rewrite !andb_true_iff, !negb_true_iff, bool_decide_eq_true, !bool_decide_eq_false, Z.ltb_lt in Hk.
  tauto.
Qed.

Lemma fmt_hex_facts w n : Forall (fun b => is_ascii_hexdigit b = true /\ b <> Byte.x2b /\ b <> dot /\ u8z b < 128) (fmt_hex w n).
Proof.
  revert n. induction w as [|w IH]; intros n; cbn [fmt_hex]; [constructor|].
  apply Forall_app. split; [apply IH|]. constructor; [|constructor].
  destruct (hex_char_facts (n mod 16)) as (_ & ? & ? & ? & ?); [apply Z.mod_pos_bound; lia|done].
Qed.

Lemma length_fmt_hex w n : length (fmt_hex w n) = w.
Proof. revert n. induction w as [|w IH]; intros n; cbn; [done|]. rewrite length_app, IH. cbn. lia. Qed.

Lemma parse_fmt_hex w n max : 0 <= n < 16 ^ Z.of_nat w -> n <= max ->
  parse_digits hex_digit 16 max 0 (fmt_hex w n) = Some n.
Proof.
  revert n. induction w as [|w IH]; intros n Hn Hm; cbn [fmt_hex].
  - cbn in Hn. cbn. f_equal. lia.
  - rewrite Nat2Z.inj_succ, Z.pow_succ_r in Hn by lia.
    pose proof (Z.mod_pos_bound n 16 ltac:(lia)). pose proof (Z.div_mod n 16 ltac:(lia)) as E.
    rewrite parse_digits_snoc, IH by dlia. destruct (hex_char_facts (n mod 16)) as (-> & _); [done|].
    replace (n / 16 * 16 + n mod 16) with n by lia. by rewrite (proj2 (Z.leb_le _ _) Hm).
Qed.

Lemma parse_uid uid : 0 <= uid < 2 ^ 32 -> parse_hex_u32 (fmt_hex 8 uid) = Some uid.
Proof.
  intros Hu. unfold parse_hex_u32, parse_uint.
  assert (parse_digits hex_digit 16 4294967295 0 (fmt_hex 8 uid) = Some uid) as Hp.
  { apply parse_fmt_hex; [exact Hu|]. zpow. lia. }
  pose proof (fmt_hex_facts 8 uid) as Hf. pose proof (length_fmt_hex 8 uid) as Hl.
  destruct (fmt_hex 8 uid) as [|b [|c s]]; [done|done|]. apply Forall_cons in Hf as [(_ & Hb & _) _].
  by rewrite decide_False.
Qed.

(** ** The probe as a DNS query *)

Definition probe_name (uid : Z) : str := fmt_hex 8 uid ++ dot :: LOOP_TEST_DOMAIN.

Lemma probe_labels uid : split_on dot (probe_name uid) = [fmt_hex 8 uid; LOOP_TEST_DOMAIN].
Proof.
  unfold probe_name. rewrite split_app_sep; [by rewrite split_no_sep by (by vm_compute; set_solver)|].
  intros Hin. pose proof (fmt_hex_facts 8 uid) as Hf. by apply (proj1 (Forall_forall _ _) Hf) in Hin as (_ & _ & ? & _).
Qed.

Lemma probe_name_ok uid : name_ok (probe_name uid).
Proof.
  right. rewrite probe_labels. split.
  - apply Forall_cons. split; [|apply Forall_singleton; split; [cbn; lia|done]].
    split; [rewrite length_fmt_hex; lia|]. apply utf8_valid_ascii.
    eapply Forall_impl; [apply fmt_hex_facts|]. by intros b (_ & _ & _ & ?).
  - unfold probe_name. rewrite length_app, length_fmt_hex. cbn. lia.
Qed.

Lemma probe_is_query uid id : 0 <= id < 65536 ->
  loop_make_probe uid id =
  to_bytes (mkHeader id Byte.x01 Byte.x00 1 0 0 0) ++ enc_question (mkQuestion (probe_name uid) 16 1).
Proof.
  intros _. unfold loop_make_probe, to_bytes, enc_question, enc_name. cbn [DnsProtocol.id hb3 hb4 qdcount ancount nscount arcount q_name qtype qclass].
  rewrite decide_False by (unfold probe_name; intros E; apply (f_equal length) in E; rewrite length_app, length_fmt_hex in E; cbn in E; lia).
  rewrite probe_labels. unfold enc_labels. cbn [fmap list_fmap concat]. rewrite length_fmt_hex.
  rewrite <- !app_assoc. reflexivity.
Qed.

Lemma probe_request uid id : 0 <= id < 65536 ->
  extract_request (loop_make_probe uid id) = Some (probe_name uid, T_TXT).
Proof.
  intros Hid. rewrite (probe_is_query uid id Hid). unfold extract_request.
  rewrite from_to_bytes by (split_and!; unfold u16_ok; cbn; lia). cbn [qdcount Z.eqb].
  pose proof (parse_question_enc (to_bytes (mkHeader id Byte.x01 Byte.x00 1 0 0 0))
    (mkQuestion (probe_name uid) 16 1) []) as Hp. rewrite app_nil_r in Hp.
  assert (length (to_bytes (mkHeader id Byte.x01 Byte.x00 1 0 0 0)) = 12%nat) as E12
    by (unfold to_bytes; rewrite !length_app, !length_to_be; done).
  rewrite E12 in Hp. rewrite Hp; [done| |].
  - split; [apply probe_name_ok|]. unfold u16_ok. cbn. lia.
  - unfold fits. rewrite length_app, E12. unfold enc_question, enc_name. cbn [q_name].
    rewrite !length_app, !length_to_be. case_decide; cbn [length].
    + unfold usize_bound. lia.
    + rewrite length_enc_labels, labels_wire_split. unfold probe_name. rewrite length_app, length_fmt_hex.
      unfold usize_bound. cbn. lia.
Qed.

(** ** Detection *)

Lemma detect_probe uid servers : 0 <= uid < 2 ^ 32 ->
  detect_loop (probe_name uid) LOOP_TEST_TYPE servers = mark_loop uid servers.
Proof.
  intros Hu. unfold detect_loop, probe_name. rewrite Z.eqb_refl. cbn [negb].
  assert (length (fmt_hex 8 uid) = 8%nat) as E8 by apply length_fmt_hex.
  rewrite length_app, E8. cbn [length Nat.add LOOP_TEST_DOMAIN bs Nat.eqb negb orb].
  rewrite (take_app_length' (fmt_hex 8 uid)) by done.
  replace (drop 9 (fmt_hex 8 uid ++ dot :: LOOP_TEST_DOMAIN)) with LOOP_TEST_DOMAIN.
  2:{ change 9%nat with (8 + 1)%nat. rewrite <- drop_drop. by rewrite (drop_app_length' (fmt_hex 8 uid)) by done. }
  rewrite bool_decide_true by done.
  assert (forallb is_ascii_hexdigit (fmt_hex 8 uid) = true) as ->.
  { apply forallb_forall. intros b Hb%list_elem_of_In. pose proof (fmt_hex_facts 8 uid) as Hf.
    by apply (proj1 (Forall_forall _ _) Hf) in Hb as [? _]. }
  cbn [negb]. by rewrite parse_uid.
Qed.

(** A general server that is not yet marked. *)
Definition markable (uid : Z) (s : Server) : Prop :=
  s_domain s = [] /\ contains (s_flags s) LOOP = false /\ s_uid s = uid.

Lemma mark_loop_spec uid servers : (exists s, s ∈ servers /\ markable uid s) ->
  exists j s, servers !! j = Some s /\ markable uid s /\
    (forall i s', (i < j)%nat -> servers !! i = Some s' -> ~ markable uid s') /\
    mark_loop uid servers = (true, <[j := with_sflags s (flag_insert (s_flags s) LOOP)]> servers).
Proof.
  intros Hex. induction servers as [|x servers IH]; [set_solver|]. cbn [mark_loop].
  destruct ((length (s_domain x) =? 0)%nat && negb (contains (s_flags x) LOOP) && (s_uid x =? uid)) eqn:E.
  - rewrite !andb_true_iff, negb_true_iff, Nat.eqb_eq, Z.eqb_eq in E. destruct E as [[E1 E2] E3].
    apply nil_length_inv in E1. exists 0%nat, x. split_and!; [done|by split_and!|lia|done].
  - assert (~ markable uid x) as Hx.
    { intros (E1 & E2 & E3). rewrite E1, E2, E3, Z.eqb_refl in E. done. }
    destruct IH as (j & s & Hj & Hm & Hf & ->).
    { destruct Hex as (s & [->|Hin]%elem_of_cons & Hm); [done|eauto]. }
    exists (S j), s. split_and!; [done|done| |done].
    intros [|i] s' Hi Hs'; [injection Hs' as <-; done|]. apply (Hf i); [lia|done].
Qed.

Lemma probes_from_spec ids idx servers servers' out pr :
  probes_from ids idx servers = (servers', out) -> pr ∈ out ->
  exists i s, servers' !! i = Some s /\ server_idx pr = (idx + i)%nat /\ markable (s_uid s) s /\
    packet pr = loop_make_probe (s_uid s) (ids (idx + i)%nat) /\ probe_addr pr = s_addr s.
Proof.
  revert idx servers' out. induction servers as [|x servers IH]; intros idx servers' out; cbn [probes_from].
  { intros [= <- <-]. set_solver. }
  destruct (probes_from ids (S idx) servers) as [rest out0] eqn:E.
  assert (forall o x', pr ∈ o -> o = out0 -> exists i s, (x' :: rest) !! i = Some s /\
    server_idx pr = (idx + i)%nat /\ markable (s_uid s) s /\
    packet pr = loop_make_probe (s_uid s) (ids (idx + i)%nat) /\ probe_addr pr = s_addr s) as Hrest.
  { intros o x' Hin ->. destruct (IH _ _ _ E Hin) as (i & s & ? & Hi & ? & Hp & ?). exists (S i), s.
    rewrite Nat.add_succ_r. split_and!; done. }
  destruct (negb (length (s_domain x) =? 0)%nat || contains (s_flags x) FOR_NODOTS) eqn:G; intros [= <- <-] Hin.
  - by apply (Hrest out0).
  - apply elem_of_cons in Hin as [->|Hin]; [|by apply (Hrest out0)]. apply orb_false_iff in G as [G _].
    apply negb_false_iff, Nat.eqb_eq, nil_length_inv in G. exists 0%nat. eexists. split; [done|]. cbn.
    rewrite Nat.add_0_r. split_and!; [done| |done|done]. split_and!; [done| |done].
    cbn. change LOOP with (2 ^ 13). by rewrite contains_bit, remove_bit, andb_false_r by lia.
Qed.

(** A looping probe is always recognised. After a round of probes, every
    probe sent is a well-formed TXT query that the request parser reads back,
    and if it returns as a client query [detect_loop] answers true and sets LOOP
    on exactly one server: the first general one that has the probed server's
    uid and no mark, which is the probed server when uids are distinct. *)
Theorem probe_detected ids servers servers' out pr :
  loop_send_probes ids servers = (servers', out) -> pr ∈ out ->
  (forall i, 0 <= ids i < 65536) -> Forall (fun s => 0 <= s_uid s < 2 ^ 32) servers' ->
  exists name j s, extract_request (packet pr) = Some (name, T_TXT) /\
    servers' !! j = Some s /\ markable (s_uid s) s /\ (j <= server_idx pr)%nat /\
    detect_loop name (RrType_as T_TXT) servers' =
      (true, <[j := with_sflags s (flag_insert (s_flags s) LOOP)]> servers') /\
    (NoDup (s_uid <$> servers') -> j = server_idx pr).
Proof.
  intros Hs Hin Hids Hu. destruct (probes_from_spec _ _ _ _ _ _ Hs Hin) as (i & s & Hi & Eidx & Hm & Hp & _).
  cbn [Nat.add] in Eidx, Hp. pose proof (proj1 (Forall_lookup _ _) Hu i s Hi) as Hus. cbn in Hus.
  destruct (mark_loop_spec (s_uid s) servers') as (j & t & Hj & Ht & Hfirst & Hmark).
  { exists s. split; [by apply list_elem_of_lookup_2 in Hi|done]. }
  assert (s_uid t = s_uid s) as Et by apply Ht.
  exists (probe_name (s_uid s)), j, t. rewrite Hp, Eidx. split; [by apply probe_request|].
  split; [done|]. split; [by rewrite Et|]. split.
  { destruct (le_lt_dec j i); [done|]. by destruct (Hfirst i s). }
  split; [change (RrType_as T_TXT) with LOOP_TEST_TYPE; by rewrite detect_probe|].
  intros Hnd. apply (NoDup_lookup (s_uid <$> servers') j i (s_uid s)); [done| |].
  - by rewrite list_lookup_fmap, Hj; cbn; rewrite Et.
  - by rewrite list_lookup_fmap, Hi.
Qed.

Definition ex_server (flags : ServFlags) (domain : str) (uid : Z) : Server :=
  mkServer flags domain (SV4 16843009 53) (SV4 0 0) [] 0 0 0 0 0 0 0 None 0 (-1) 0 0 (-1) uid.

Lemma probe_detected_witness :
  exists name j s, extract_request (loop_make_probe 48879 7) = Some (name, T_TXT) /\
    detect_loop name 16 [ex_server 0 (bs "corp") 3; ex_server 0 [] 48879] =
      (true, <[j := with_sflags s (flag_insert (s_flags s) LOOP)]> [ex_server 0 (bs "corp") 3; ex_server 0 [] 48879]).
Proof.
  destruct (probe_detected (fun _ => 7) [ex_server 0 (bs "corp") 3; ex_server LOOP [] 48879]
    [ex_server 0 (bs "corp") 3; ex_server 0 [] 48879] [mkProbe 1 (SV4 16843009 53) (loop_make_probe 48879 7)]
    (mkProbe 1 (SV4 16843009 53) (loop_make_probe 48879 7))) as (name & j & s & H1 & _ & _ & _ & H2 & _).
  - reflexivity.
  - set_solver.
  - intros i. lia.
  - repeat constructor; by vm_compute.
  - exists name, j, s. split; [exact H1|exact H2].
Defined.

(** The separator after the digits is not looked at. *)
Example separator_unchecked :
  fst (detect_loop (bs "0000beefXtest") 16 [ex_server 0 [] 48879]) = true.
Proof. by vm_compute. Qed.
