(* ===== verification/HashQuestions.v ===== *)
(** * Question hashing for duplicate detection: src/src/hash_questions.rs

    [DefaultHasher] makes no promise about its algorithm: it is the class
    [Hasher], and the theorems are about what is written to it. *)

From Stdlib Require Import ZArith Lia String.
From stdpp Require Import base numbers list option gmap sets.
From S2P Require Import Prelude Types ByteCursor DnsProtocol Rfc1035.

#[local] Open Scope Z_scope.

Class Hasher : Type := {
  hasher : Type;
  hasher_new : hasher;
  hash_u8 : u8 -> hasher -> hasher;
  hash_u16 : Z -> hasher -> hasher;
  hash_u64 : Z -> hasher -> hasher;
  finish : hasher -> Z;
}.

Definition DNS_HEADER_LEN : nat := 12.

Section Hash.
Context `{Hasher}.

(** The two halves are fed the same values. *)
Definition feed8 (b : u8) (h : hasher * hasher) : hasher * hasher := (hash_u8 b h.1, hash_u8 b h.2).
Definition feed16 (z : Z) (h : hasher * hasher) : hasher * hasher := (hash_u16 z h.1, hash_u16 z h.2).

(** The label [loop]: the position after the name and the hashers, or the early
    return. The position grows by at least one in every round. *)
Fixpoint name_loop (fuel : nat) (pkt : list u8) (pos : nat) (h : hasher * hasher)
  : option (nat * (hasher * hasher)) :=
  match fuel with
  | O => None
  | S f =>
    match pkt !! pos with
    | None => None
    | Some b =>
      let len := Z.to_nat (u8z b) in
      if Z.land (u8z b) 0xC0 =? 0xC0 then
        (if (length pkt <=? pos + 1)%nat then None else Some ((pos + 2)%nat, h))
      else if (len =? 0)%nat then Some ((pos + 1)%nat, h)
      else
        let pos := (pos + 1)%nat in
        if (length pkt <? pos + len)%nat then None
        else
          let label := take len (drop pos pkt) in
          let h1 := fold_left (fun h b => feed8 (lower8 b) h) label h in
          name_loop f pkt (pos + len) (feed8 dot h1)
    end
  end.

Fixpoint question_loop (qdcount : nat) (pkt : list u8) (pos : nat) (h : hasher * hasher)
  : option (hasher * hasher) :=
  match qdcount with
  | O => Some h
  | S n =>
    let! (pos, h) := name_loop (S (length pkt)) pkt pos h in
    if (length pkt <? pos + 4)%nat then None
    else
      let qtype := of_be (take 2 (drop pos pkt)) in
      let qclass := of_be (take 2 (drop (pos + 2) pkt)) in
      question_loop n pkt (pos + 4) (feed16 qclass (feed16 qtype h))
  end.

(** [u64::to_le_bytes]. *)
Definition to_le8 (z : Z) : list u8 := rev (to_be 8 z).

Definition hash_questions (pkt : list u8) : option (list u8) :=
  if (length pkt <? DNS_HEADER_LEN)%nat then None
  else
    let qdcount := Z.to_nat (of_be (take 2 (drop 4 pkt))) in
    if (qdcount =? 0)%nat then None
    else
      let h := (hash_u64 0xdeadbeef hasher_new, hash_u64 0xcafebabe hasher_new) in
      let! h := question_loop qdcount pkt DNS_HEADER_LEN h in
      Some (to_le8 (finish h.1) ++ to_le8 (finish h.2)).

(** ** What one question writes *)

Definition feed_name (n : str) (h : hasher * hasher) : hasher * hasher :=
  fold_left (fun h l => feed8 dot (fold_left (fun h b => feed8 (lower8 b) h) l h))
    (if decide (n = []) then [] else split_on dot n) h.

Definition feed_question (q : DnsQuestion) (h : hasher * hasher) : hasher * hasher :=
  feed16 (qclass q) (feed16 (qtype q) (feed_name (q_name q) h)).

Lemma label_len l : label_ok l -> Z.to_nat (u8z (z8 (Z.of_nat (length l)))) = length l /\
  (Z.land (u8z (z8 (Z.of_nat (length l)))) 0xC0 =? 0xC0) = false /\ (length l =? 0)%nat = false.
Proof.
  intros [[H1 H2] _]. rewrite u8z_z8_small by lia. split; [lia|]. split; [|by apply Nat.eqb_neq; lia].
  assert (forallb (fun n => negb (Z.land (Z.of_nat n) 0xC0 =? 0xC0)) (seq 0 64) = true) as Hall by (by vm_compute).
  apply negb_true_iff. apply (proj1 (forallb_forall _ _) Hall). apply in_seq. lia.
Qed.

Lemma name_loop_labels ls : forall pre post fuel h, Forall label_ok ls -> (length ls < fuel)%nat ->
  name_loop fuel (pre ++ enc_labels ls ++ Byte.x00 :: post) (length pre) h =
  Some ((length pre + length (enc_labels ls) + 1)%nat,
        fold_left (fun h l => feed8 dot (fold_left (fun h b => feed8 (lower8 b) h) l h)) ls h).
Proof.
  induction ls as [|l ls IH]; intros pre post fuel h Hl Hf; destruct fuel as [|fuel]; try (cbn in Hf; lia).
  - cbn [name_loop]. unfold enc_labels. cbn [fmap list_fmap concat app].
    rewrite list_lookup_middle by done. cbn. do 2 f_equal. lia.
  - apply Forall_cons in Hl as [Hl Hls]. rewrite enc_labels_cons. cbn [name_loop].
    rewrite <- !app_assoc. cbn [app]. rewrite list_lookup_middle by done.
    destruct (label_len l Hl) as (-> & -> & ->).
    replace (length pre + 1)%nat with (length (pre ++ [z8 (Z.of_nat (length l))])) by (rewrite length_app; cbn; lia).
    replace (pre ++ z8 (Z.of_nat (length l)) :: l ++ enc_labels ls ++ Byte.x00 :: post)
      with ((pre ++ [z8 (Z.of_nat (length l))]) ++ l ++ enc_labels ls ++ Byte.x00 :: post)
      by (rewrite <- app_assoc; done).
    set (pre' := pre ++ [_]). destruct (Nat.ltb_spec (length (pre' ++ l ++ enc_labels ls ++ Byte.x00 :: post)) (length pre' + length l)) as [Hlt|_].
    { rewrite !length_app in Hlt. lia. }
    rewrite drop_app_length, take_app_length.
    replace (pre' ++ l ++ enc_labels ls ++ Byte.x00 :: post) with ((pre' ++ l) ++ enc_labels ls ++ Byte.x00 :: post)
      by (by rewrite <- app_assoc).
    rewrite <- length_app, IH by (done || (cbn in Hf; lia)). f_equal. f_equal.
    unfold pre'. rewrite !length_app. cbn. rewrite length_app. lia.
Qed.

Lemma name_loop_enc pre n post h fuel : name_ok n -> (S (length n) < fuel)%nat ->
  name_loop fuel (pre ++ enc_name n ++ post) (length pre) h =
  Some ((length pre + length (enc_name n))%nat, feed_name n h).
Proof.
  intros Hn Hf. unfold enc_name, feed_name. set (ls := if decide (n = []) then [] else split_on dot n).
  assert ((if decide (n = []) then [] else enc_labels (split_on dot n)) = enc_labels ls) as ->
    by (unfold ls; by case_decide).
  rewrite <- app_assoc. cbn [app]. rewrite name_loop_labels.
  - do 2 f_equal. rewrite length_app. cbn. lia.
  - unfold ls. case_decide; [constructor|]. by destruct Hn as [|[? _]].
  - unfold ls. case_decide; [cbn; lia|]. pose proof (length_labels_wire (split_on dot n)).
    rewrite labels_wire_split in *. lia.
Qed.

Lemma question_loop_enc qs : forall pre post h, Forall question_ok qs ->
  question_loop (length qs) (pre ++ concat (enc_question <$> qs) ++ post) (length pre) h =
  Some (fold_left (fun h q => feed_question q h) qs h).
Proof.
  induction qs as [|q qs IH]; intros pre post h Hq; [done|]. apply Forall_cons in Hq as [(Hn & Ht & Hc) Hqs].
  rewrite fmap_cons. cbn [concat length question_loop].
  set (tail := concat (enc_question <$> qs) ++ post).
  set (pkt := pre ++ enc_name (q_name q) ++ to_be 2 (qtype q) ++ to_be 2 (qclass q) ++ tail).
  assert (pre ++ (enc_question q ++ concat (enc_question <$> qs)) ++ post = pkt) as ->
    by (unfold pkt, tail, enc_question at 1; by rewrite <- !app_assoc).
  assert (name_loop (S (length pkt)) pkt (length pre) h =
    Some ((length pre + length (enc_name (q_name q)))%nat, feed_name (q_name q) h)) as ->.
  { apply name_loop_enc; [done|]. unfold pkt, enc_name. rewrite !length_app, !length_to_be.
    case_decide as E; [rewrite E; cbn; lia|]. rewrite length_enc_labels, labels_wire_split. cbn. lia. }
  set (pre' := pre ++ enc_name (q_name q)).
  assert (pkt = pre' ++ to_be 2 (qtype q) ++ to_be 2 (qclass q) ++ tail) as Ep by (unfold pkt, pre'; by rewrite <- app_assoc).
  rewrite <- length_app. fold pre'. rewrite Ep.
  destruct (Nat.ltb_spec (length (pre' ++ to_be 2 (qtype q) ++ to_be 2 (qclass q) ++ tail)) (length pre' + 4)) as [Hlt|_].
  { rewrite !length_app, !length_to_be in Hlt. lia. }
  assert (take 2 (drop (length pre') (pre' ++ to_be 2 (qtype q) ++ to_be 2 (qclass q) ++ tail)) = to_be 2 (qtype q)) as ->.
  { rewrite drop_app_length. by rewrite (take_app_length' (to_be 2 (qtype q))) by (by rewrite length_to_be). }
  assert (take 2 (drop (length pre' + 2) (pre' ++ to_be 2 (qtype q) ++ to_be 2 (qclass q) ++ tail)) = to_be 2 (qclass q)) as ->.
  { rewrite <- drop_drop, drop_app_length, (drop_app_length' (to_be 2 (qtype q))) by (by rewrite length_to_be).
    by rewrite (take_app_length' (to_be 2 (qclass q))) by (by rewrite length_to_be). }
  rewrite !(of_be_to_be_small 2) by exact Ht || exact Hc.
  replace (pre' ++ to_be 2 (qtype q) ++ to_be 2 (qclass q) ++ tail)
    with ((pre' ++ to_be 2 (qtype q) ++ to_be 2 (qclass q)) ++ concat (enc_question <$> qs) ++ post)
    by (unfold tail; by rewrite <- !app_assoc).
  replace (length pre' + 4)%nat with (length (pre' ++ to_be 2 (qtype q) ++ to_be 2 (qclass q)))
    by (rewrite !length_app, !length_to_be; lia).
  by rewrite IH.
Qed.

(** Questions that differ in letter case only. *)
Definition same_question (q q' : DnsQuestion) : Prop :=
  to_ascii_lowercase (q_name q) = to_ascii_lowercase (q_name q') /\ qtype q = qtype q' /\ qclass q = qclass q'.


Lemma split_lower s : split_on dot (to_ascii_lowercase s) = to_ascii_lowercase <$> split_on dot s.
Proof.
  induction s as [|b s IH]; [done|]. unfold to_ascii_lowercase in *. rewrite fmap_cons. cbn [split_on].
  destruct (decide (b = dot)) as [->|Hne].
  - rewrite decide_True by done. by rewrite IH.
  - rewrite decide_False by (by rewrite lower8_dot). rewrite IH.
    destruct (split_on dot s) as [|p ps] eqn:E; [by apply split_on_nonnil in E|]. by rewrite !fmap_cons.
Qed.

Lemma feed_label_lower l h :
  fold_left (fun h b => feed8 (lower8 b) h) l h = fold_left (fun h b => feed8 b h) (to_ascii_lowercase l) h.
Proof. unfold to_ascii_lowercase. revert h. induction l as [|b l IH]; intros h; [done|]. rewrite fmap_cons. cbn. apply IH. Qed.

(** The name is written in lower case, each label followed by a dot. *)
Lemma feed_name_lower n h : feed_name n h =
  fold_left (fun h l => feed8 dot (fold_left (fun h b => feed8 b h) l h))
    (if decide (n = []) then [] else split_on dot (to_ascii_lowercase n)) h.
Proof.
  unfold feed_name. case_decide; [done|]. rewrite split_lower. generalize (split_on dot n) as ls. intros ls.
  revert h. induction ls as [|l ls IH]; intros h; [done|]. rewrite fmap_cons. cbn. rewrite feed_label_lower. apply IH.
Qed.

Lemma feed_question_same q q' h : same_question q q' -> feed_question q h = feed_question q' h.
Proof.
  intros (Hn & Ht & Hc). unfold feed_question. rewrite Ht, Hc, !feed_name_lower, Hn.
  assert (q_name q = [] <-> q_name q' = []) as Hnil.
  { apply (f_equal length) in Hn. rewrite !length_lower in Hn.
    split; intros E; rewrite E in Hn; [symmetry in Hn|]; by apply nil_length_inv in Hn. }
  do 2 f_equal. repeat case_decide; tauto.
Qed.

Definition wire_questions (hd : DnsHeader) (qs : list DnsQuestion) (rest : list u8) : list u8 :=
  to_bytes hd ++ concat (enc_question <$> qs) ++ rest.

Lemma hash_wire hd qs rest : header_ok hd -> qdcount hd = Z.of_nat (length qs) -> qs <> [] ->
  Forall question_ok qs ->
  hash_questions (wire_questions hd qs rest) =
  let h := fold_left (fun h q => feed_question q h) qs
             (hash_u64 0xdeadbeef hasher_new, hash_u64 0xcafebabe hasher_new) in
  Some (to_le8 (finish h.1) ++ to_le8 (finish h.2)).
Proof.
  intros Hh Hq Hne Hok. unfold hash_questions, wire_questions.
  assert (length (to_bytes hd) = 12%nat) as E12 by (unfold to_bytes; rewrite !length_app, !length_to_be; done).
  destruct (Nat.ltb_spec (length (to_bytes hd ++ concat (enc_question <$> qs) ++ rest)) DNS_HEADER_LEN) as [Hlt|_].
  { rewrite length_app, E12 in Hlt. unfold DNS_HEADER_LEN in Hlt. lia. }
  assert (of_be (take 2 (drop 4 (to_bytes hd ++ concat (enc_question <$> qs) ++ rest))) = qdcount hd) as ->.
  { set (front := to_be 2 (DnsProtocol.id hd) ++ [hb3 hd; hb4 hd]).
    set (back := to_be 2 (ancount hd) ++ to_be 2 (nscount hd) ++ to_be 2 (arcount hd)).
    assert (to_bytes hd ++ concat (enc_question <$> qs) ++ rest =
      front ++ to_be 2 (qdcount hd) ++ back ++ concat (enc_question <$> qs) ++ rest) as ->
      by (unfold to_bytes, front, back; by rewrite <- !app_assoc).
    rewrite (drop_app_length' front), (take_app_length' (to_be 2 (qdcount hd)))
      by (unfold front; by rewrite ?length_app, length_to_be).
    apply of_be_to_be_small. destruct Hh as (_ & Hqd & _). exact Hqd. }
  rewrite Hq, Nat2Z.id. destruct (Nat.eqb_spec (length qs) 0) as [E|_]; [by apply nil_length_inv in E|].
  unfold DNS_HEADER_LEN. rewrite <- E12. by rewrite question_loop_enc.
Qed.

End Hash.

(** ** The hasher that records what is written to it *)

Definition trace_hasher : Hasher := {|
  hasher := list Z;
  hasher_new := [];
  hash_u8 := fun b t => t ++ [u8z b];
  hash_u16 := fun z t => t ++ [65536 + z];
  hash_u64 := fun z t => t ++ [z];
  finish := fun t => Z.of_nat (length t);
|}.

Section Trace.
#[local] Existing Instance trace_hasher.

Lemma trace_bytes l (h : hasher * hasher) :
  fold_left (fun h b => feed8 b h) l h = (h.1 ++ (u8z <$> l), h.2 ++ (u8z <$> l)).
Proof.
  revert h. induction l as [|b l IH]; intros [x y]; cbn [fold_left]; [by rewrite !app_nil_r|].
  rewrite IH. cbn. by rewrite <- !app_assoc.
Qed.

Lemma trace_labels ls (h : hasher * hasher) :
  fold_left (fun h l => feed8 dot (fold_left (fun h b => feed8 b h) l h)) ls h =
  (h.1 ++ (u8z <$> concat ((fun l => l ++ [dot]) <$> ls)), h.2 ++ (u8z <$> concat ((fun l => l ++ [dot]) <$> ls))).
Proof.
  revert h. induction ls as [|l ls IH]; intros [x y]; cbn [fold_left]; [by rewrite !app_nil_r|].
  rewrite IH, trace_bytes, fmap_cons. cbn [concat feed8 hash_u8 trace_hasher fst snd].
  rewrite !fmap_app. cbn [fmap list_fmap]. by rewrite <- !app_assoc.
Qed.

Lemma concat_dots ls : ls <> [] -> concat ((fun l => l ++ [dot]) <$> ls) = join [dot] ls ++ [dot].
Proof.
  induction ls as [|l ls IH]; intros Hne; [done|]. rewrite fmap_cons. cbn [concat]. destruct ls as [|l' ls].
  - cbn. by rewrite app_nil_r.
  - rewrite IH, (join_cons _ l (l' :: ls)) by done. by rewrite <- !app_assoc.
Qed.

(** The trace of a name: its lower-case text and a final dot, nothing for the
    root. *)
Lemma trace_name n (h : hasher * hasher) :
  let t := if decide (n = []) then [] else u8z <$> (to_ascii_lowercase n ++ [dot]) in
  feed_name n h = (h.1 ++ t, h.2 ++ t).
Proof.
  cbn zeta. rewrite feed_name_lower, trace_labels. case_decide; [done|].
  by rewrite concat_dots, join_split by apply split_on_nonnil.
Qed.

Lemma trace_question_inj q q' : feed_question q ([], []) = feed_question q' ([], []) -> same_question q q'.
Proof.
  unfold feed_question. rewrite !trace_name. cbn [fst snd app feed16 hash_u16 trace_hasher].
  intros E. injection E as E _. rewrite <- !app_assoc in E.
  apply app_inj_2 in E as [En Eq]; [|done]. cbn [app] in Eq. injection Eq as Et Ec.
  split; [|lia].
  destruct (decide (q_name q = [])) as [E1|E1], (decide (q_name q' = [])) as [E2|E2].
  - by rewrite E1, E2.
  - symmetry in En. rewrite fmap_app in En. by apply app_nil in En as [_ ?].
  - rewrite fmap_app in En. by apply app_nil in En as [_ ?].
  - rewrite !fmap_app in En. apply app_inj_2 in En as [En _]; [|done].
    apply list_fmap_eq_inj in En; [done|]. intros x y. apply u8z_inj.
Qed.

End Trace.

(** ** Properties *)

(** The digest identifies the question up to letter case. Two packets
    whose questions are the same up to case have the same digest, whatever
    their identifiers, flags, other counts and remaining sections are, and with
    any hash function; and what is written to the hash function for one
    question is the same only for questions that are the same up to case. *)
Theorem hash_questions_canonical (H : Hasher) hd hd' qs qs' rest rest' q q' :
  header_ok hd -> header_ok hd' ->
  qdcount hd = Z.of_nat (length qs) -> qdcount hd' = Z.of_nat (length qs') ->
  qs <> [] -> Forall question_ok qs -> Forall question_ok qs' -> Forall2 same_question qs qs' ->
  hash_questions (wire_questions hd qs rest) = hash_questions (wire_questions hd' qs' rest') /\
  is_Some (hash_questions (wire_questions hd qs rest)) /\
  (@feed_question trace_hasher q ([], []) = @feed_question trace_hasher q' ([], []) <-> same_question q q').
Proof.
  intros Hh Hh' Hq Hq' Hne Hok Hok' Hsame. rewrite !hash_wire; try done.
  2:{ intros ->. by inversion Hsame; subst. }
  split; [|split].
  - assert (forall h, fold_left (fun h q => feed_question q h) qs h = fold_left (fun h q => feed_question q h) qs' h) as E.
    { clear -Hsame. induction Hsame as [|x y l l' Hxy _ IH]; intros h; [done|]. cbn.
      by rewrite (feed_question_same x y h Hxy), IH. }
    by rewrite E.
  - eauto.
  - split; [apply trace_question_inj|]. apply (@feed_question_same trace_hasher).
Qed.

Lemma hash_questions_canonical_witness :
  @hash_questions trace_hasher
    (wire_questions (mkHeader 7 Byte.x01 Byte.x00 1 0 0 0) [mkQuestion (bs "Example.COM") 1 1] []) =
  @hash_questions trace_hasher
    (wire_questions (mkHeader 9 Byte.x81 Byte.x80 1 0 0 0) [mkQuestion (bs "example.com") 1 1] [Byte.x00]).
Proof.
  apply (hash_questions_canonical trace_hasher (mkHeader 7 Byte.x01 Byte.x00 1 0 0 0)
    (mkHeader 9 Byte.x81 Byte.x80 1 0 0 0) [mkQuestion (bs "Example.COM") 1 1]
    [mkQuestion (bs "example.com") 1 1] [] [Byte.x00] (mkQuestion [] 1 1) (mkQuestion [] 1 1));
    try done; try (unfold header_ok, u16_ok; cbn; lia).
  - apply Forall_singleton. split; [apply name_ok_eval; by vm_compute|]. unfold u16_ok. cbn. lia.
  - apply Forall_singleton. split; [apply name_ok_eval; by vm_compute|]. unfold u16_ok. cbn. lia.
  - by repeat constructor.
Defined.
