(* ===== verification/DomainMatch.v ===== *)
(** * Choosing an upstream server: src/src/domain_match.rs

    The sorted server array, the suffix search with its binary search, the
    narrowing of a group by query flags, local answers, and the maintenance of
    the server list. Slices off a character boundary and indices out of range
    panic. *)

From Stdlib Require Import ZArith Lia String.
From stdpp Require Import base numbers list option gmap sets sorting.
From S2P Require Import Prelude Types Hostname Server ByteCursor DnsProtocol Rfc1035.

#[local] Open Scope Z_scope.

Definition SERV_IS_LOCAL : ServFlags := Z.lor USE_RESOLV LITERAL_ADDRESS.
Definition SERV_LOCAL_ADDRESS : ServFlags := Z.lor (Z.lor ADDR6 ADDR4) ALL_ZEROS.
Definition TYPE_FLAGS : ServFlags :=
  Z.lor (Z.lor (Z.lor (Z.lor LITERAL_ADDRESS ADDR4) ADDR6) ALL_ZEROS) USE_RESOLV.

Record ServerEntry : Type := mkEntry {
  e_domain : str;
  e_domain_len : nat;
  e_flags : ServFlags;
  e_serial : Z;
  e_index : nat;
  e_is_local : bool;
}.

Definition order_entry (qdomain : str) (entry : ServerEntry) : Z :=
  if contains (e_flags entry) FOR_NODOTS then -1
  else
    let dlen := e_domain_len entry in
    let qlen := length qdomain in
    if (qlen <? dlen)%nat then 1
    else if (dlen <? qlen)%nat then -1
    else match hostname_order qdomain (e_domain entry) with Lt => -1 | Eq => 0 | Gt => 1 end.

Definition bool_cmp (a b : bool) : comparison :=
  match a, b with false, true => Lt | true, false => Gt | _, _ => Eq end.

(** [match x { Equal => {}, ord => return ord }] followed by the rest. *)
Definition then_cmp (c : comparison) (rest : comparison) : comparison :=
  match c with Eq => rest | _ => c end.

Definition compare_entries (a b : ServerEntry) : comparison :=
  then_cmp (bool_cmp (contains (e_flags a) FOR_NODOTS) (contains (e_flags b) FOR_NODOTS)) (
  then_cmp (Nat.compare (e_domain_len b) (e_domain_len a)) (
  then_cmp (hostname_order (e_domain a) (e_domain b)) (
  then_cmp (bool_cmp (contains (e_flags a) WILDCARD) (contains (e_flags b) WILDCARD)) (
  then_cmp (Z.compare (Z.land (e_flags b) TYPE_FLAGS) (Z.land (e_flags a) TYPE_FLAGS)) (
  if negb (e_is_local a) && negb (e_is_local b) then Z.compare (e_serial a) (e_serial b) else Eq))))).

(** [Vec::sort_by]: the stable sort. *)
Fixpoint insert_by {A} (cmp : A -> A -> comparison) (x : A) (l : list A) : list A :=
  match l with
  | [] => [x]
  | y :: l' => match cmp x y with Gt => y :: insert_by cmp x l' | _ => x :: l end
  end.
Fixpoint sort_by {A} (cmp : A -> A -> comparison) (l : list A) : list A :=
  match l with
  | [] => []
  | x :: l' => insert_by cmp x (sort_by cmp l')
  end.

Record ServerArray : Type := mkArray { entries : list ServerEntry; has_wildcard : bool }.

Fixpoint upstream_entries (i : nat) (serial : Z) (servers : list Server) : list ServerEntry :=
  match servers with
  | [] => []
  | s :: rest =>
    if contains (s_flags s) LOOP then upstream_entries (S i) serial rest
    else mkEntry (s_domain s) (length (s_domain s)) (s_flags s) serial i false
         :: upstream_entries (S i) (serial + 1) rest
  end.
Fixpoint local_entries (i : nat) (servers : list Server) : list ServerEntry :=
  match servers with
  | [] => []
  | s :: rest => mkEntry (s_domain s) (length (s_domain s)) (s_flags s) 0 i true :: local_entries (S i) rest
  end.

Definition build (servers local_domains : list Server) : ServerArray :=
  let es := upstream_entries 0 0 servers ++ local_entries 0 local_domains in
  mkArray (sort_by compare_entries es)
    (existsb (fun s => contains (s_flags s) WILDCARD && negb (contains (s_flags s) LOOP)) servers
     || existsb (fun s => contains (s_flags s) WILDCARD) local_domains).

Definition same_group (arr : ServerArray) (a b : nat) : bool :=
  match entries arr !! a, entries arr !! b with
  | Some ea, Some eb =>
    if contains (e_flags ea) FOR_NODOTS then contains (e_flags eb) FOR_NODOTS
    else order_entry (e_domain ea) eb =? 0
  | _, _ => false
  end.

(** ** Narrowing a group *)

(** [while nlow > 0 && same_group(nlow - 1, nlow) { nlow -= 1 }]. *)
Fixpoint roll_back (arr : ServerArray) (n : nat) : nat :=
  match n with
  | O => O
  | S m => if same_group arr m n then roll_back arr m else n
  end.
(** [while nhigh < n - 1 && same_group(nhigh, nhigh + 1) { nhigh += 1 }]. *)
Fixpoint roll_forward (fuel : nat) (arr : ServerArray) (i : nat) : nat :=
  match fuel with
  | O => i
  | S f => if (S i <? length (entries arr))%nat && same_group arr i (S i)
           then roll_forward f arr (S i) else i
  end.

Definition flags_at (arr : ServerArray) (i : nat) : ServFlags :=
  match entries arr !! i with Some e => e_flags e | None => 0 end.

(** [(lo..hi).find(|&i| !entries[i].flags.contains(b)).unwrap_or(hi)]. *)
Fixpoint skip_flag (fuel : nat) (arr : ServerArray) (b : ServFlags) (lo hi : nat) : nat :=
  match fuel with
  | O => hi
  | S f => if (lo <? hi)%nat then (if contains (flags_at arr lo) b then skip_flag f arr b (S lo) hi else lo) else hi
  end.
Definition first_without (arr : ServerArray) (b : ServFlags) (lo hi : nat) : nat :=
  skip_flag (hi - lo) arr b lo hi.

Definition filter_servers (arr : ServerArray) (seed : nat) (flags : Z) : option (nat * nat) :=
  let n := length (entries arr) in
  if (n <=? seed)%nat then None
  else
    let nlow := roll_back arr seed in
    let nhigh := S (roll_forward n arr seed) in
    if has flags F_CONFIG then
      (if existsb (fun i => intersects (flags_at arr i) SERV_LOCAL_ADDRESS) (seq nlow (nhigh - nlow))
       then Some (nlow, nhigh) else None)
    else
      let hi := nhigh in
      let i6 := first_without arr ADDR6 nlow hi in
      if negb (has flags F_SERVER) && negb (i6 =? nlow)%nat && has flags F_IPV6 then Some (nlow, i6)
      else
      let i4 := first_without arr ADDR4 i6 hi in
      if negb (has flags F_SERVER) && negb (i4 =? i6)%nat && has flags F_IPV4 then Some (i6, i4)
      else
      let iz := first_without arr ALL_ZEROS i4 hi in
      if negb (has flags F_SERVER) && negb (iz =? i4)%nat && has flags (F_IPV4 ∣∣ F_IPV6) then Some (i4, iz)
      else
      let il := first_without arr LITERAL_ADDRESS iz hi in
      if negb (has flags (F_DOMAINSRV ∣∣ F_SERVER)) && negb (il =? iz)%nat then Some (iz, il)
      else
      let ir := first_without arr USE_RESOLV il hi in
      if negb (ir =? il)%nat then Some (il, ir)
      else if (ir <? hi)%nat then
        (if has flags F_DOMAINSRV
            && match entries arr !! ir with
               | Some e => (e_domain_len e =? 0)%nat && negb (contains (e_flags e) FOR_NODOTS)
               | None => false
               end
         then None else Some (ir, hi))
      else None.

(** ** The suffix search *)

(** [&domain[start..start + qlen]]. *)
Definition sub_domain (domain : str) (start qlen : Z) : outcome str :=
  if (0 <=? start) && (0 <=? qlen) && (start + qlen <=? Z.of_nat (length domain))
     && is_char_boundary domain (Z.to_nat start) && is_char_boundary domain (Z.to_nat (start + qlen))
  then Val (take (Z.to_nat qlen) (drop (Z.to_nat start) domain)) else Panic.

Definition len_at (arr : ServerArray) (i : nat) : nat :=
  match entries arr !! i with Some e => e_domain_len e | None => 0 end.

(** The first entry after [t] with another domain length. *)
Fixpoint next_len (fuel : nat) (arr : ServerArray) (t old_len : nat) : option nat :=
  match fuel with
  | O => None
  | S f => if (t <? length (entries arr))%nat
           then (if negb (len_at arr t =? old_len)%nat then Some (len_at arr t) else next_len f arr (S t) old_len)
           else None
  end.

(** How the binary search ends: at a matching entry, or with the number of
    characters to crop; both with the lower bound to keep. *)
Inductive search_end : Type :=
| Hit (t low : nat)
| Miss (crop : Z) (low : nat).

(** The inner [loop]; the interval shrinks in every round but the last. *)
Fixpoint bsearch (fuel : nat) (arr : ServerArray) (domain : str) (start qlen : Z) (low high : nat)
  : option (outcome search_end) :=
  match fuel with
  | O => None
  | S f =>
    let try_idx := ((low + high) / 2)%nat in
    match sub_domain domain start qlen, entries arr !! try_idx with
    | Val qdomain, Some e =>
      let rc := order_entry qdomain e in
      if rc =? 0 then Some (Val (Hit try_idx low))
      else if rc <? 0 then
        (if (high =? try_idx)%nat then Some (Val (Miss (qlen - Z.of_nat (e_domain_len e)) low))
         else bsearch f arr domain start qlen low try_idx)
      else
        (if (low =? try_idx)%nat then
           Some (Val (Miss (match next_len (length (entries arr)) arr (S try_idx) (e_domain_len e) with
                            | Some l => qlen - Z.of_nat l
                            | None => 1
                            end) low))
         else bsearch f arr domain start qlen try_idx high)
    | _, _ => Some Panic
    end
  end.

(** With wildcards: back to the first entry of the domain, then, off a label
    boundary, on to the last one, which must be a wildcard. *)
Fixpoint back_equal (arr : ServerArray) (q : str) (t : nat) : nat :=
  match t with
  | O => O
  | S m => match entries arr !! m with
           | Some e => if order_entry q e =? 0 then back_equal arr q m else t
           | None => t
           end
  end.
Fixpoint forward_equal (fuel : nat) (arr : ServerArray) (q : str) (t : nat) : nat :=
  match fuel with
  | O => t
  | S f => match entries arr !! S t with
           | Some e => if order_entry q e =? 0 then forward_equal f arr q (S t) else t
           | None => t
           end
  end.

Definition at_boundary (domain : str) (start qlen : Z) : bool :=
  (start =? 0) || (qlen =? 0) || bool_decide (domain !! Z.to_nat (start - 1) = Some dot).

Definition settle (arr : ServerArray) (domain q : str) (start qlen : Z) (found_try : nat) : nat * bool :=
  if has_wildcard arr then
    let t := back_equal arr q found_try in
    if negb (at_boundary domain start qlen) then
      let t := forward_equal (length (entries arr)) arr q t in
      (t, contains (flags_at arr t) WILDCARD)
    else (t, true)
  else (found_try, true).

(** [while qlen > 0 && start > 0 && domain_bytes[start - 1] != b'.']. *)
Fixpoint next_label (fuel : nat) (domain : str) (start qlen : Z) : Z * Z :=
  match fuel with
  | O => (start, qlen)
  | S f =>
    if (0 <? qlen) && (0 <? start) && negb (bool_decide (domain !! Z.to_nat (start - 1) = Some dot))
    then next_label f domain (start + 1) (qlen - 1) else (start, qlen)
  end.

(** The outer [while qlen >= 0]: the range found, if any, and the flags. *)
Fixpoint search_loop (fuel : nat) (arr : ServerArray) (domain : str) (start qlen : Z) (low : nat) (flags : Z)
  : option (outcome (option (nat * nat) * Z)) :=
  match fuel with
  | O => None
  | S f =>
    if qlen <? 0 then Some (Val (None, flags))
    else
      let n := length (entries arr) in
      let continue (crop : Z) (low : nat) (flags : Z) :=
        let crop := if crop =? 0 then 1 else crop in
        let '(start, qlen) :=
          if has_wildcard arr then (start + crop, qlen - crop)
          else next_label (length domain) domain (start + crop) (qlen - crop) in
        search_loop f arr domain start qlen low flags in
      match bsearch (S (S n)) arr domain start qlen low n with
      | None => None
      | Some Panic => Some Panic
      | Some (Val (Miss crop low)) => continue crop low flags
      | Some (Val (Hit found_try low)) =>
        match sub_domain domain start qlen with
        | Panic => Some Panic
        | Val q =>
          let '(t, matched) := settle arr domain q start qlen found_try in
          if matched then
            match filter_servers arr t flags with
            | Some (nl, nh) =>
              if contains (flags_at arr nl) USE_RESOLV
              then continue qlen low (flags ∣∣ F_SERVER)
              else Some (Val (Some (nl, nh), flags))
            | None => continue 1 low flags
            end
          else continue 1 low flags
        end
      end
  end.

(** The name looked up: its parent zone for a DS query. *)
Definition lookup_name (domain : str) (flags : Z) : str :=
  if has flags F_DS then
    match find_byte dot domain with Some pos => drop (S pos) domain | None => [] end
  else domain.

(** The result of the search with the fallback for names without dots. *)
Definition nodots_fallback (arr : ServerArray) (domain : str) (flags0 flags : Z) (found : option (nat * nat))
  : option (nat * nat) :=
  let n := length (entries arr) in
  let nodots := negb (bool_decide (domain = [])) && negb (bool_decide (dot ∈ domain))
                && negb (has flags0 F_DNSSECOK) in
  if nodots && contains (flags_at arr (n - 1)) FOR_NODOTS
     && match found with None => true | Some (nlow, _) => (len_at arr nlow =? 0)%nat end
  then match filter_servers arr (n - 1) flags with Some r => Some r | None => found end
  else found.

Definition lookup (arr : ServerArray) (domain : str) (flags : Z) : outcome (option (nat * nat)) :=
  if (length (entries arr) =? 0)%nat then Val None
  else
    let d := lookup_name domain flags in
    match search_loop (S (S (length d))) arr d 0 (Z.of_nat (length d)) 0 flags with
    | Some (Val (found, flags')) => Val (nodots_fallback arr d flags flags' found)
    | Some Panic | None => Panic
    end.

Definition dnssec_server (arr : ServerArray) (server_orig_idx : nat) (keyname : str) (is_ds : bool)
  : outcome (option nat) :=
  let# r := lookup arr keyname (F_SERVER ∣∣ F_DNSSECOK ∣∣ (if is_ds then F_DS else 0)) in
  match r with
  | None => Val None
  | Some (first, last) =>
    Val (Some (default first (List.find (fun i =>
      match entries arr !! i with
      | Some e => negb (e_is_local e) && (e_index e =? server_orig_idx)%nat
      | None => false
      end) (seq first (last - first)))))
  end.

(** ** Local answers *)

Definition is_local_answer (arr : ServerArray) (first : nat) (is_locally_known : bool) : Z :=
  match entries arr !! first with
  | None => 0
  | Some entry =>
    if negb (contains (e_flags entry) LITERAL_ADDRESS) then 0
    else if contains (e_flags entry) ADDR4 then F_IPV4
    else if contains (e_flags entry) ADDR6 then F_IPV6
    else if contains (e_flags entry) ALL_ZEROS then F_IPV4 ∣∣ F_IPV6
    else if intersects (flags_at arr (roll_back arr first)) SERV_LOCAL_ADDRESS || is_locally_known
         then F_NOERR else F_NXDOMAIN
  end.

(** The address an entry answers with, for one family. *)
Definition answer4 (servers : list Server) (entry : ServerEntry) : option Ipv4Addr :=
  if contains (e_flags entry) ALL_ZEROS then Some 0
  else match servers !! e_index entry with
       | Some s => match sock_ip (s_addr s) with V4 ip => Some ip | V6 _ => None end
       | None => None
       end.
Definition answer6 (servers : list Server) (entry : ServerEntry) : option Ipv6Addr :=
  if contains (e_flags entry) ALL_ZEROS then Some 0
  else match servers !! e_index entry with
       | Some s => match sock_ip (s_addr s) with V6 ip => Some ip | V4 _ => None end
       | None => None
       end.

Definition make_local_answer (arr : ServerArray) (servers : list Server) (first last : nat) (flags : Z)
    (name : str) (ttl : Z) : list DnsRr :=
  let range := seq first (last - first) in
  let rrs (rtype : Z) (f : ServerEntry -> option (list u8)) : list DnsRr :=
    omap (fun i => let! e := entries arr !! i in let! rd := f e in Some (mkRr name rtype 1 ttl rd)) range in
  (if has flags F_IPV4 then rrs 1 (fun e => octets4 <$> answer4 servers e) else [])
  ++ (if has flags F_IPV6 then rrs 28 (fun e => octets6 <$> answer6 servers e) else []).

(** ** The server list *)

Definition mark_servers (servers : list Server) (flag : ServFlags) : list Server :=
  (fun s => with_sflags s (if intersects (s_flags s) flag then flag_insert (s_flags s) MARK
                           else flag_remove (s_flags s) MARK)) <$> servers.

Definition cleanup_servers (servers : list Server) : list Server :=
  List.filter (fun s => negb (contains (s_flags s) MARK)) servers.

(** [servers.iter().position(..)]. *)
Definition position {A} (P : A -> bool) (l : list A) : option nat := fst <$> list_find (fun x => P x = true) l.

Definition add_update_server (servers : list Server) (s : Server) : list Server :=
  let domain := trim_start dot (s_domain s) in
  let s := with_sdomain s domain in
  let is_local := intersects (s_flags s) SERV_IS_LOCAL in
  let reuse := if is_local then None
               else position (fun x => contains (s_flags x) MARK && hostname_isequal (s_domain x) domain) servers in
  match reuse with
  | Some pos =>
    match servers !! pos with
    | Some old =>
      let reused := with_saddrs (with_sflags old (flag_remove (s_flags s) MARK))
                      (s_addr s) (s_source_addr s) (s_interface s) in
      delete pos servers ++ [reused]
    | None => servers ++ [s]
    end
  | None => servers ++ [s]
  end.

Definition domain_matches (query_domain server_domain : str) : outcome bool :=
  if decide (server_domain = []) then Val true
  else if hostname_isequal query_domain server_domain then Val true
  else if (length server_domain <? length query_domain)%nat then
    let split := (length query_domain - length server_domain - 1)%nat in
    if bool_decide (query_domain !! split = Some dot) then
      let# rest := str_from query_domain (S split) in
      Val (hostname_isequal rest server_domain)
    else Val false
  else Val false.

(** ** Total preorders as three-way comparisons *)

Record total_cmp {A} (cmp : A -> A -> comparison) : Prop := {
  tc_flip : forall a b, cmp b a = CompOpp (cmp a b);
  tc_eq : forall a b c, cmp a b = Eq -> cmp a c = cmp b c;
  tc_lt : forall a b c, cmp a b = Lt -> cmp b c = Lt -> cmp a c = Lt;
}.

Lemma tc_refl {A} (cmp : A -> A -> comparison) a : total_cmp cmp -> cmp a a = Eq.
Proof. intros Hc. pose proof (tc_flip _ Hc a a) as E. by destruct (cmp a a). Qed.

Lemma tc_eq_r {A} (cmp : A -> A -> comparison) a b c : total_cmp cmp -> cmp b c = Eq -> cmp a b = cmp a c.
Proof. intros Hc E. rewrite (tc_flip _ Hc b a), (tc_flip _ Hc c a). f_equal. by apply tc_eq. Qed.

Lemma tc_le_trans {A} (cmp : A -> A -> comparison) a b c :
  total_cmp cmp -> cmp a b <> Gt -> cmp b c <> Gt -> cmp a c <> Gt.
Proof.
  intros Hc Hab Hbc. destruct (cmp a b) eqn:E1; [by rewrite (tc_eq _ Hc _ _ _ E1)| |done].
  destruct (cmp b c) eqn:E2; [by rewrite <- (tc_eq_r _ a _ _ Hc E2), E1| |done].
  by rewrite (tc_lt _ Hc _ _ _ E1 E2).
Qed.

Lemma total_then {A} (c1 c2 : A -> A -> comparison) :
  total_cmp c1 -> total_cmp c2 -> total_cmp (fun a b => then_cmp (c1 a b) (c2 a b)).
Proof.
  intros H1 H2. split; unfold then_cmp.
  - intros a b. rewrite (tc_flip _ H1 a b). destruct (c1 a b); cbn; try done. apply (tc_flip _ H2).
  - intros a b c. destruct (c1 a b) eqn:E; try done. intros E2.
    by rewrite (tc_eq _ H1 _ _ c E), (tc_eq _ H2 _ _ c E2).
  - intros a b c. destruct (c1 a b) eqn:E1; [|destruct (c1 b c) eqn:E2|]; try done.
    + rewrite (tc_eq _ H1 _ _ c E1). destruct (c1 b c); try done. apply (tc_lt _ H2).
    + intros _ _. by rewrite <- (tc_eq_r _ a _ _ H1 E2), E1.
    + intros _ _. by rewrite (tc_lt _ H1 _ _ _ E1 E2).
Qed.

(** Comparison of a key. *)
Lemma total_on {A B} (f : A -> B) (cmp : B -> B -> comparison) :
  total_cmp cmp -> total_cmp (fun a b => cmp (f a) (f b)).
Proof. intros [H1 H2 H3]. split; eauto. Qed.

Lemma total_bool : total_cmp bool_cmp.
Proof. split; [intros [] []|intros [] [] []..]; done. Qed.
Lemma total_Z : total_cmp Z.compare.
Proof.
  split; intros a b.
  - apply Z.compare_antisym.
  - intros c ->%Z.compare_eq. done.
  - intros c. rewrite !Z.compare_lt_iff. lia.
Qed.
Lemma total_nat_rev : total_cmp (fun a b => Nat.compare b a).
Proof.
  split; intros a b.
  - apply Nat.compare_antisym.
  - intros c E%Nat.compare_eq. by subst.
  - intros c. rewrite !Nat.compare_lt_iff. lia.
Qed.
Lemma total_Z_rev : total_cmp (fun a b => Z.compare b a).
Proof.
  split; intros a b.
  - apply Z.compare_antisym.
  - intros c E%Z.compare_eq. by subst.
  - intros c. rewrite !Z.compare_lt_iff. lia.
Qed.
Lemma total_hostname : total_cmp hostname_order.
Proof.
  unfold hostname_order. split; intros a b.
  - apply order_chars_antisym.
  - intros c E%order_chars_eq. by rewrite E.
  - intros c. apply order_chars_trans.
Qed.

(** The sort key of an entry. *)
Definition compare_keys (a b : ServerEntry) : comparison :=
  then_cmp (bool_cmp (contains (e_flags a) FOR_NODOTS) (contains (e_flags b) FOR_NODOTS)) (
  then_cmp (Nat.compare (e_domain_len b) (e_domain_len a)) (
  then_cmp (hostname_order (e_domain a) (e_domain b)) (
  then_cmp (bool_cmp (contains (e_flags a) WILDCARD) (contains (e_flags b) WILDCARD)) (
  then_cmp (Z.compare (Z.land (e_flags b) TYPE_FLAGS) (Z.land (e_flags a) TYPE_FLAGS))
    (Z.compare (if e_is_local a then 0 else e_serial a) (if e_is_local b then 0 else e_serial b)))))).

Lemma total_keys : total_cmp compare_keys.
Proof.
  unfold compare_keys.
  apply (total_then (fun a b => bool_cmp (contains (e_flags a) FOR_NODOTS) (contains (e_flags b) FOR_NODOTS))).
  { apply (total_on (fun a => contains (e_flags a) FOR_NODOTS)), total_bool. }
  apply (total_then (fun a b => Nat.compare (e_domain_len b) (e_domain_len a))).
  { apply (total_on e_domain_len (fun a b => Nat.compare b a)), total_nat_rev. }
  apply (total_then (fun a b => hostname_order (e_domain a) (e_domain b))).
  { apply (total_on e_domain), total_hostname. }
  apply (total_then (fun a b => bool_cmp (contains (e_flags a) WILDCARD) (contains (e_flags b) WILDCARD))).
  { apply (total_on (fun a => contains (e_flags a) WILDCARD)), total_bool. }
  apply (total_then (fun a b => Z.compare (Z.land (e_flags b) TYPE_FLAGS) (Z.land (e_flags a) TYPE_FLAGS))).
  { apply (total_on (fun a => Z.land (e_flags a) TYPE_FLAGS) (fun a b => Z.compare b a)), total_Z_rev. }
  apply (total_on (fun a => if e_is_local a then 0 else e_serial a)), total_Z.
Qed.

(** Entries of the local chain are the ones whose flags say so; this is how the
    two lists given to [build] are kept apart. *)
Definition entry_ok (e : ServerEntry) : Prop :=
  e_domain_len e = length (e_domain e) /\ e_is_local e = intersects (e_flags e) SERV_IS_LOCAL.

Lemma local_of_type f g : Z.land f TYPE_FLAGS = Z.land g TYPE_FLAGS ->
  intersects f SERV_IS_LOCAL = intersects g SERV_IS_LOCAL.
Proof.
  intros E. unfold intersects. do 2 f_equal.
  assert (forall x, Z.land x SERV_IS_LOCAL = Z.land (Z.land x TYPE_FLAGS) SERV_IS_LOCAL) as Hx
    by (intros x; rewrite <- Z.land_assoc; f_equal).
  by rewrite (Hx f), (Hx g), E.
Qed.

Lemma compare_entries_keys a b : entry_ok a -> entry_ok b -> compare_entries a b = compare_keys a b.
Proof.
  intros [_ Ha] [_ Hb]. unfold compare_entries, compare_keys. do 4 f_equal. unfold then_cmp.
  destruct (Z.land (e_flags b) TYPE_FLAGS ?= Z.land (e_flags a) TYPE_FLAGS) eqn:E; try done.
  apply Z.compare_eq, local_of_type in E. rewrite Ha, Hb, E.
  by destruct (intersects (e_flags a) SERV_IS_LOCAL).
Qed.

(** ** Sorting *)

Lemma insert_by_perm {A} (cmp : A -> A -> comparison) x l : insert_by cmp x l ≡ₚ x :: l.
Proof. induction l as [|y l IH]; cbn; [done|]. destruct (cmp x y); try done. rewrite IH. apply Permutation_swap. Qed.

Lemma sort_by_perm {A} (cmp : A -> A -> comparison) l : sort_by cmp l ≡ₚ l.
Proof. induction l as [|x l IH]; cbn; [done|]. by rewrite insert_by_perm, IH. Qed.

Lemma sort_by_ext {A} (c1 c2 : A -> A -> comparison) (l : list A) :
  (forall x y, x ∈ l -> y ∈ l -> c1 x y = c2 x y) -> sort_by c1 l = sort_by c2 l.
Proof.
  induction l as [|x l IH]; intros Hc; cbn; [done|]. rewrite IH by set_solver.
  assert (forall y, y ∈ sort_by c2 l -> c1 x y = c2 x y) as Hx.
  { intros y Hy. rewrite sort_by_perm in Hy. apply Hc; set_solver. }
  revert Hx. generalize (sort_by c2 l). intros k Hx. induction k as [|y k IHk]; cbn; [done|].
  rewrite Hx by set_solver. destruct (c2 x y); try done. f_equal. apply IHk. set_solver.
Qed.

Lemma insert_by_sorted {A} (cmp : A -> A -> comparison) x l : total_cmp cmp ->
  StronglySorted (fun a b => cmp a b <> Gt) l -> StronglySorted (fun a b => cmp a b <> Gt) (insert_by cmp x l).
Proof.
  intros Hc. induction 1 as [|y l Hs IH Hf]; cbn; [repeat constructor|].
  destruct (cmp x y) eqn:E.
  1,2: constructor; [by constructor|]; constructor; [congruence|]; eapply Forall_impl; [exact Hf|];
       intros z Hz; apply (tc_le_trans _ _ y); [done|congruence|done].
  constructor; [done|]. rewrite insert_by_perm. constructor; [|done].
  rewrite (tc_flip _ Hc), E. done.
Qed.

Lemma sort_by_sorted {A} (cmp : A -> A -> comparison) l : total_cmp cmp ->
  StronglySorted (fun a b => cmp a b <> Gt) (sort_by cmp l).
Proof. intros Hc. induction l as [|x l IH]; cbn; [constructor|]. by apply insert_by_sorted. Qed.

(** The two server lists of the configuration. *)
Definition chains_ok (servers local_domains : list Server) : Prop :=
  Forall (fun s => intersects (s_flags s) SERV_IS_LOCAL = false) servers /\
  Forall (fun s => intersects (s_flags s) SERV_IS_LOCAL = true) local_domains.

Lemma upstream_ok i n servers : Forall (fun s => intersects (s_flags s) SERV_IS_LOCAL = false) servers ->
  Forall entry_ok (upstream_entries i n servers).
Proof.
  intros Hs. revert i n. induction Hs as [|s servers Hs _ IH]; intros i n; cbn; [constructor|].
  case_bool; [apply IH|]. constructor; [|apply IH]. by split.
Qed.
Lemma local_ok i servers : Forall (fun s => intersects (s_flags s) SERV_IS_LOCAL = true) servers ->
  Forall entry_ok (local_entries i servers).
Proof.
  intros Hs. revert i. induction Hs as [|s servers Hs _ IH]; intros i; cbn; constructor; [|apply IH]. by split.
Qed.

(** What the searches rely on. *)
Record array_ok (arr : ServerArray) : Prop := {
  ao_entries : Forall entry_ok (entries arr);
  ao_sorted : StronglySorted (fun a b => compare_keys a b <> Gt) (entries arr);
}.

Lemma build_ok servers locals : chains_ok servers locals -> array_ok (build servers locals).
Proof.
  intros [Hs Hl]. assert (Forall entry_ok (upstream_entries 0 0 servers ++ local_entries 0 locals)) as Hok.
  { apply Forall_app. split; [by apply upstream_ok|by apply local_ok]. }
  split; cbn; [by rewrite sort_by_perm|].
  rewrite (sort_by_ext compare_entries compare_keys); [apply sort_by_sorted, total_keys|].
  intros x y Hx Hy. apply compare_entries_keys; by apply (proj1 (Forall_forall _ _) Hok).
Qed.

Lemma sorted_impl_in {A} (R R' : A -> A -> Prop) (l : list A) :
  (forall x y, x ∈ l -> y ∈ l -> R x y -> R' x y) -> StronglySorted R l -> StronglySorted R' l.
Proof.
  intros Hi. induction 1 as [|x l Hs IH Hf]; constructor.
  - apply IH. intros y z Hy Hz. apply Hi; set_solver.
  - apply Forall_forall. intros y Hy. apply Hi; [set_solver..|]. by apply (proj1 (Forall_forall _ _) Hf).
Qed.

Lemma sorted_lookup {A} (R : A -> A -> Prop) (l : list A) i j x y :
  StronglySorted R l -> (i < j)%nat -> l !! i = Some x -> l !! j = Some y -> R x y.
Proof.
  intros Hs. revert i j. induction Hs as [|z l Hs IH Hf]; intros [|i] [|j] Hij Hx Hy; try done; try lia.
  - injection Hx as <-. cbn in Hy. by apply (proj1 (Forall_lookup _ _) Hf j).
  - apply (IH i j); [lia|done..].
Qed.

Lemma upstream_index i n servers e : e ∈ upstream_entries i n servers ->
  exists k s, e_index e = (i + k)%nat /\ servers !! k = Some s /\ e_domain e = s_domain s /\
    e_flags e = s_flags s /\ e_is_local e = false /\ contains (s_flags s) LOOP = false.
Proof.
  revert i n. induction servers as [|s servers IH]; intros i n; cbn [upstream_entries]; [set_solver|].
  destruct (contains (s_flags s) LOOP) eqn:E.
  - intros (k & t & Hk & ?)%IH. exists (S k), t. split; [lia|done].
  - intros [->|(k & t & Hk & ?)%IH]%elem_of_cons; [exists 0%nat, s; cbn; split; [lia|done]|].
    exists (S k), t. split; [lia|done].
Qed.
Lemma local_index i servers e : e ∈ local_entries i servers ->
  exists k s, e_index e = (i + k)%nat /\ servers !! k = Some s /\ e_domain e = s_domain s /\
    e_flags e = s_flags s /\ e_is_local e = true.
Proof.
  revert i. induction servers as [|s servers IH]; intros i; cbn [local_entries]; [set_solver|].
  intros [->|(k & t & Hk & ?)%IH]%elem_of_cons; [exists 0%nat, s; cbn; split; [lia|done]|].
  exists (S k), t. split; [lia|done].
Qed.

(** The comparison the server array is sorted with is a total order on
    entries whose chain agrees with their flags, and building the array sorts
    exactly the configured servers: names without dots last, longest domains
    first, each with its place in the configuration, looping servers left out. *)
Theorem build_sorts servers locals : chains_ok servers locals ->
  let arr := build servers locals in
  entries arr ≡ₚ upstream_entries 0 0 servers ++ local_entries 0 locals /\
  StronglySorted (fun a b => compare_entries a b <> Gt) (entries arr) /\
  (forall a b, a ∈ entries arr -> b ∈ entries arr -> compare_entries b a = CompOpp (compare_entries a b)) /\
  (forall i e, entries arr !! i = Some e -> exists s,
     (if e_is_local e then locals else servers) !! e_index e = Some s /\
     e_domain e = s_domain s /\ e_flags e = s_flags s /\ (e_is_local e = false -> contains (s_flags s) LOOP = false)).
Proof.
  intros Hc. cbn zeta. pose proof (build_ok _ _ Hc) as [Hok Hsort]. split_and!.
  - apply sort_by_perm.
  - eapply sorted_impl_in; [|exact Hsort]. intros x y Hx Hy. cbn.
    by rewrite compare_entries_keys by (by apply (proj1 (Forall_forall _ _) Hok)).
  - intros a b Ha Hb. rewrite !compare_entries_keys by (by apply (proj1 (Forall_forall _ _) Hok)).
    apply (tc_flip _ total_keys).
  - intros i e He%list_elem_of_lookup_2. cbn [entries build] in He. rewrite sort_by_perm in He.
    apply elem_of_app in He as [He|He].
    + apply upstream_index in He as (k & s & -> & Hk & ? & ? & -> & ?). exists s. by split_and!.
    + apply local_index in He as (k & s & -> & Hk & ? & ? & ->). exists s. by split_and!.
Qed.

(** ** The suffix search against a label-by-label scan *)

Section Search.
Variables (arr : ServerArray) (d : str).
Hypothesis Harr : array_ok arr.
Hypothesis Hnodots : Forall (fun e => contains (e_flags e) FOR_NODOTS = true -> e_domain_len e = 0%nat) (entries arr).
Hypothesis Hwild : has_wildcard arr = false.
Hypothesis Hascii : is_ascii d.
Let n := length (entries arr).

(** Settle the length tests of [order_entry]. *)
Ltac len_tests :=
  repeat match goal with
  | |- context [(?a <? ?b)%nat] => destruct (Nat.ltb_spec a b)
  | H : context [(?a <? ?b)%nat] |- _ => destruct (Nat.ltb_spec a b)
  end; try lia.

Lemma order_entry_range q e : order_entry q e = -1 \/ order_entry q e = 0 \/ order_entry q e = 1.
Proof. unfold order_entry. repeat case_bool; try tauto. destruct (hostname_order _ _); tauto. Qed.

Lemma order_entry_zero q e : order_entry q e = 0 <->
  contains (e_flags e) FOR_NODOTS = false /\ length q = e_domain_len e /\ hostname_order q (e_domain e) = Eq.
Proof.
  unfold order_entry. destruct (contains _ _); [naive_solver|].
  destruct (Nat.ltb_spec (length q) (e_domain_len e)); [naive_solver lia|].
  destruct (Nat.ltb_spec (e_domain_len e) (length q)); [naive_solver lia|].
  destruct (hostname_order q (e_domain e)); naive_solver lia.
Qed.

Lemma order_entry_pos q e : order_entry q e = 1 -> contains (e_flags e) FOR_NODOTS = false /\ (length q <= e_domain_len e)%nat.
Proof.
  unfold order_entry. destruct (contains _ _); [lia|]. intros Hr. split; [done|]. revert Hr.
  len_tests; destruct (hostname_order q (e_domain e)); lia.
Qed.

Lemma order_entry_longer q e : contains (e_flags e) FOR_NODOTS = false -> (length q < e_domain_len e)%nat -> order_entry q e = 1.
Proof. intros Hn Hl. unfold order_entry. by rewrite Hn, (proj2 (Nat.ltb_lt _ _) Hl). Qed.

Lemma order_entry_neg q e : order_entry q e = -1 ->
  contains (e_flags e) FOR_NODOTS = true \/ (contains (e_flags e) FOR_NODOTS = false /\ (e_domain_len e <= length q)%nat).
Proof.
  unfold order_entry. destruct (contains _ _); [by left|]. right. split; [done|].
  len_tests; destruct (hostname_order q (e_domain e)); lia.
Qed.

(** What sortedness says of two entries. *)
Lemma keys_facts a b : compare_keys a b <> Gt ->
  (contains (e_flags a) FOR_NODOTS = true -> contains (e_flags b) FOR_NODOTS = true) /\
  (contains (e_flags b) FOR_NODOTS = false ->
     (e_domain_len b <= e_domain_len a)%nat /\
     (e_domain_len b = e_domain_len a -> hostname_order (e_domain a) (e_domain b) <> Gt)).
Proof.
  unfold compare_keys, then_cmp at 1, bool_cmp.
  destruct (contains (e_flags a) FOR_NODOTS), (contains (e_flags b) FOR_NODOTS); intros Hc; split; try done.
  intros _. revert Hc. unfold then_cmp at 1. destruct (Nat.compare_spec (e_domain_len b) (e_domain_len a)); [|split; [lia|lia]|done].
  unfold then_cmp at 1. intros Hc. split; [lia|]. intros _ Hg. by rewrite Hg in Hc.
Qed.

(** Along the array the comparison with a query never increases. *)
Lemma order_mono q i j a b : (i <= j)%nat -> entries arr !! i = Some a -> entries arr !! j = Some b ->
  order_entry q b <= order_entry q a.
Proof.
  intros Hij Ha Hb. destruct (decide (i = j)) as [->|Hne]; [assert (a = b) as -> by congruence; lia|].
  assert (compare_keys a b <> Gt) as Hk.
  { apply (sorted_lookup (fun a b => compare_keys a b <> Gt) (entries arr) i j); [apply Harr|lia|done..]. }
  destruct (keys_facts a b Hk) as [H1 H2].
  destruct (contains (e_flags b) FOR_NODOTS) eqn:Eb.
  { assert (order_entry q b = -1) as -> by (unfold order_entry; by rewrite Eb).
    pose proof (order_entry_range q a). lia. }
  unfold order_entry. rewrite Eb.
  destruct (contains (e_flags a) FOR_NODOTS) eqn:Ea; [naive_solver|]. destruct (H2 eq_refl) as [Hle Ho].
  destruct (Nat.ltb_spec (length q) (e_domain_len a)); [len_tests; destruct (hostname_order q (e_domain b)); lia|].
  destruct (Nat.ltb_spec (length q) (e_domain_len b)); [lia|].
  destruct (Nat.ltb_spec (e_domain_len a) (length q)), (Nat.ltb_spec (e_domain_len b) (length q)); try lia.
  { destruct (hostname_order q (e_domain a)); lia. }
  specialize (Ho ltac:(lia)). pose proof total_hostname as Ht.
  destruct (hostname_order (e_domain a) (e_domain b)) eqn:E; [| |done].
  - rewrite (tc_eq_r _ q _ _ Ht E). lia.
  - destruct (hostname_order q (e_domain a)) eqn:E1.
    + by rewrite (tc_eq _ Ht _ _ (e_domain b) E1), E.
    + by rewrite (tc_lt _ Ht _ _ _ E1 E).
    + destruct (hostname_order q (e_domain b)); lia.
Qed.

Lemma sub_domain_val (s : nat) : (s <= length d)%nat ->
  sub_domain d (Z.of_nat s) (Z.of_nat (length d - s)) = Val (drop s d).
Proof.
  intros Hs. unfold sub_domain.
  assert (forall i, (i <= length d)%nat -> is_char_boundary d i = true) as Hb.
  { intros i Hi. pose proof (str_from_ascii d i Hascii Hi) as E. unfold str_from in E. by destruct (is_char_boundary d i). }
  rewrite !Hb by lia. rewrite (proj2 (Z.leb_le 0 _)), (proj2 (Z.leb_le 0 _)), (proj2 (Z.leb_le _ (Z.of_nat (length d)))) by lia.
  cbn [andb]. rewrite !Nat2Z.id. f_equal. apply take_ge. rewrite length_drop. lia.
Qed.

(** ** The binary search *)

Definition rc (q : str) (i : nat) : Z := match entries arr !! i with Some e => order_entry q e | None => -1 end.

Lemma rc_mono q i j : (i <= j)%nat -> rc q j <= rc q i.
Proof.
  intros Hij. unfold rc. destruct (entries arr !! j) as [b|] eqn:Eb.
  - destruct (lookup_lt_is_Some_2 (entries arr) i) as [a Ea]; [apply lookup_lt_Some in Eb; lia|].
    rewrite Ea. by apply (order_mono q i j).
  - destruct (entries arr !! i) as [a|]; [|lia]. pose proof (order_entry_range q a). lia.
Qed.

(** What the search may answer for a query. *)
Definition search_post (q : str) (r : search_end) : Prop :=
  match r with
  | Hit t low => rc q t = 0 /\ (low < n)%nat /\ (forall i, (i < low)%nat -> rc q i = 1)
  | Miss crop low =>
    (forall i, rc q i <> 0) /\ (low < n)%nat /\ (forall i, (i < low)%nat -> rc q i = 1) /\
    0 <= crop <= Z.max 1 (Z.of_nat (length q)) /\
    (forall i e, entries arr !! i = Some e -> contains (e_flags e) FOR_NODOTS = false ->
       Z.of_nat (length q) - crop < Z.of_nat (e_domain_len e) -> (length q <= e_domain_len e)%nat)
  end.

Lemma len_at_lookup i e : entries arr !! i = Some e -> len_at arr i = e_domain_len e.
Proof. unfold len_at. by intros ->. Qed.

Lemma next_len_spec fuel t old :
  (n - t <= fuel)%nat ->
  match next_len fuel arr t old with
  | Some l => exists u e, (t <= u)%nat /\ entries arr !! u = Some e /\ e_domain_len e = l /\ l <> old /\
      (forall v, (t <= v < u)%nat -> len_at arr v = old)
  | None => forall v, (t <= v < n)%nat -> len_at arr v = old
  end.
Proof.
  revert t. induction fuel as [|f IH]; intros t Hf; cbn [next_len]; [intros v; lia|]. fold n.
  destruct (Nat.ltb_spec t n) as [Ht|Ht]; [|intros v; lia].
  destruct (Nat.eqb_spec (len_at arr t) old) as [E|E]; cbn [negb].
  - specialize (IH (S t) ltac:(lia)). destruct (next_len f arr (S t) old) as [l|].
    + destruct IH as (u & e & Hu & He & El & Hl & Hv). exists u, e. split_and!; [lia|done..|].
      intros v Hv'. destruct (decide (v = t)) as [->|]; [done|]. apply Hv. lia.
    + intros v Hv. destruct (decide (v = t)) as [->|]; [done|]. apply IH. lia.
  - destruct (lookup_lt_is_Some_2 (entries arr) t Ht) as [e He]. rewrite (len_at_lookup t e He) in *.
    exists t, e. split_and!; [lia|done..|]. intros v; lia.
Qed.

Lemma nodots_len i e : entries arr !! i = Some e -> contains (e_flags e) FOR_NODOTS = true -> e_domain_len e = 0%nat.
Proof. intros He. exact (proj1 (Forall_lookup _ _) Hnodots i e He). Qed.

(** Domain lengths never increase along the array. *)
Lemma len_mono i j a b : (i <= j)%nat -> entries arr !! i = Some a -> entries arr !! j = Some b ->
  contains (e_flags b) FOR_NODOTS = false -> (e_domain_len b <= e_domain_len a)%nat.
Proof.
  intros Hij Ha Hb Hn. destruct (decide (i = j)) as [->|Hne]; [assert (a = b) as -> by congruence; lia|].
  apply (keys_facts a b); [|done].
  apply (sorted_lookup (fun a b => compare_keys a b <> Gt) (entries arr) i j); [apply Harr|lia|done..].
Qed.

Lemma rc_lookup q i e : entries arr !! i = Some e -> rc q i = order_entry q e.
Proof. unfold rc. by intros ->. Qed.

(** The answer when the query falls before entry [low]. *)
Lemma miss_left q low e : (low < n)%nat -> entries arr !! low = Some e -> order_entry q e = -1 ->
  (forall i, (i < low)%nat -> rc q i = 1) ->
  search_post q (Miss (Z.of_nat (length q) - Z.of_nat (e_domain_len e)) low).
Proof.
  intros Hlow He Hr Hb. assert (e_domain_len e <= length q)%nat as Hle.
  { destruct (order_entry_neg _ _ Hr) as [Hn|[_ ?]]; [rewrite (nodots_len _ _ He Hn); lia|done]. }
  split_and!; [|done|done|lia|lia|].
  - intros i Hi. destruct (le_lt_dec low i) as [Hge|Hlt]; [|rewrite Hb in Hi by done; lia].
    pose proof (rc_mono q low i Hge) as Hm. rewrite (rc_lookup q low e He), Hr in Hm. lia.
  - intros i x Hx Hn Hlt. destruct (le_lt_dec low i) as [Hge|Hl].
    + pose proof (len_mono low i e x Hge He Hx Hn). lia.
    + specialize (Hb i Hl). rewrite (rc_lookup q i x Hx) in Hb. apply (order_entry_pos q x Hb).
Qed.

(** The answer when the query falls after entry [low] and before the next. *)
Lemma miss_right q low e : (low < n)%nat -> entries arr !! low = Some e -> order_entry q e = 1 ->
  (forall i, (S low <= i)%nat -> rc q i = -1) ->
  search_post q (Miss (match next_len n arr (S low) (e_domain_len e) with
                       | Some l => Z.of_nat (length q) - Z.of_nat l | None => 1 end) low).
Proof.
  intros Hlow He Hr Ha. destruct (order_entry_pos _ _ Hr) as [Hn0 Hl0].
  assert (forall i, (i < low)%nat -> rc q i = 1) as Hb.
  { intros i Hi. pose proof (rc_mono q i low ltac:(lia)) as Hm. rewrite (rc_lookup q low e He), Hr in Hm.
    unfold rc in *. destruct (entries arr !! i) as [x|]; [|lia]. pose proof (order_entry_range q x). lia. }
  assert (forall i, rc q i <> 0) as Hz.
  { intros i. destruct (le_lt_dec (S low) i); [rewrite Ha by done; lia|].
    destruct (decide (i = low)) as [->|]; [rewrite (rc_lookup _ _ _ He); lia|]. rewrite Hb by lia. lia. }
  pose proof (next_len_spec n (S low) (e_domain_len e) ltac:(lia)) as Hs.
  destruct (next_len n arr (S low) (e_domain_len e)) as [l|].
  - destruct Hs as (u & x & Hu & Hx & Hl & Hne & Hv).
    assert (rc q u = -1) as Hru by (apply Ha; lia). rewrite (rc_lookup _ _ _ Hx) in Hru.
    assert (l <= length q)%nat as Hlq.
    { destruct (order_entry_neg _ _ Hru) as [Hn|[_ ?]]; [rewrite (nodots_len _ _ Hx Hn) in Hl; lia|lia]. }
    split_and!; [done|done|done|lia|lia|].
    intros i y Hy Hn Hlt. destruct (le_lt_dec u i) as [Hge|Hlt'].
    { pose proof (len_mono u i x y Hge Hx Hy Hn). lia. }
    destruct (le_lt_dec (S low) i) as [Hge|Hlt''].
    { specialize (Hv i ltac:(lia)). rewrite (len_at_lookup _ _ Hy) in Hv. lia. }
    pose proof (len_mono i low y e ltac:(lia) Hy He Hn0). lia.
  - split_and!; [done|done|done|lia|lia|].
    intros i y Hy Hn Hlt. lia.
Qed.

Lemma bsearch_spec (s : nat) fuel low high : (s <= length d)%nat ->
  (low < n)%nat -> (low <= high <= n)%nat -> (high - low + 1 < fuel)%nat ->
  (forall i, (i < low)%nat -> rc (drop s d) i = 1) -> (forall i, (high <= i)%nat -> rc (drop s d) i = -1) ->
  exists r, bsearch fuel arr d (Z.of_nat s) (Z.of_nat (length d - s)) low high = Some (Val r) /\
    search_post (drop s d) r.
Proof.
  intros Hs. set (q := drop s d). assert (length q = length d - s)%nat as Hq by apply length_drop.
  revert low high. induction fuel as [|f IH]; intros low high Hlow Hlh Hf Hb Ha; [lia|]. cbn [bsearch].
  rewrite sub_domain_val by done. fold q.
  assert (low <= (low + high) / 2 /\ (low + high) / 2 <= high /\ ((low + high) / 2 = high -> low = high) /\
          ((low + high) / 2 < n))%nat as (Ht1 & Ht2 & Ht3 & Ht4).
  { pose proof (Nat.div_mod_eq (low + high) 2). pose proof (Nat.mod_upper_bound (low + high) 2). lia. }
  set (t := ((low + high) / 2)%nat) in *.
  destruct (lookup_lt_is_Some_2 (entries arr) t Ht4) as [e He]. rewrite He.
  pose proof (order_entry_range q e) as Hr. pose proof (rc_lookup q t e He) as Hrc.
  destruct (Z.eqb_spec (order_entry q e) 0) as [E|E].
  { eexists. split; [done|]. split_and!; [congruence|done|done]. }
  destruct (Z.ltb_spec (order_entry q e) 0) as [L|L].
  - assert (order_entry q e = -1) as Hm by lia.
    destruct (Nat.eqb_spec high t) as [Eh|Eh].
    + assert (low = t) as Elow by lia. eexists. split; [done|]. rewrite <- Hq, Elow.
      apply miss_left; [done..|]. by rewrite <- Elow.
    + apply IH; [done|lia|lia|done|]. intros i Hi. pose proof (rc_mono q t i Hi) as Hmm.
      rewrite Hrc, Hm in Hmm. unfold rc in *. destruct (entries arr !! i) as [x|]; [|lia].
      pose proof (order_entry_range q x). lia.
  - assert (order_entry q e = 1) as Hp by lia.
    destruct (Nat.eqb_spec low t) as [El|El].
    + eexists. split; [done|]. rewrite <- Hq. fold n. rewrite <- El in He. rewrite <- El.
      apply miss_right; [done..|]. intros i Hi. apply Ha.
      pose proof (Nat.div_mod_eq (low + high) 2). pose proof (Nat.mod_upper_bound (low + high) 2). unfold t in El. lia.
    + apply IH; [done|lia|lia| |done]. intros i Hi. pose proof (rc_mono q i t ltac:(lia)) as Hmm.
      rewrite Hrc, Hp in Hmm. unfold rc in *. destruct (entries arr !! i) as [x|]; [|lia].
      pose proof (order_entry_range q x). lia.
Qed.

(** ** The group of a matching entry *)

Lemma same_group_match q i : rc q i = 0 -> rc q (S i) = 0 -> same_group arr i (S i) = true.
Proof.
  unfold rc, same_group. intros Hi Hs.
  destruct (entries arr !! i) as [a|] eqn:Ea; [|lia]. destruct (entries arr !! S i) as [b|] eqn:Eb; [|lia].
  apply order_entry_zero in Hi as (Hna & Hla & Hoa), Hs as (Hnb & Hlb & Hob). rewrite Hna.
  apply Z.eqb_eq, order_entry_zero. split_and!; [done| |].
  - destruct (proj1 (Forall_lookup _ _) (ao_entries _ Harr) i a Ea) as [E _]. lia.
  - by rewrite <- (tc_eq _ total_hostname _ _ (e_domain b) Hoa).
Qed.

Lemma roll_forward_stable f i : (n - i <= f)%nat -> roll_forward (S f) arr i = roll_forward f arr i.
Proof.
  revert i. induction f as [|f IH]; intros i Hf.
  - cbn [roll_forward]. fold n. by rewrite (proj2 (Nat.ltb_ge (S i) n)) by lia.
  - cbn [roll_forward]. fold n. destruct ((S i <? n)%nat && same_group arr i (S i)) eqn:E; [|done].
    apply andb_true_iff in E as [E%Nat.ltb_lt _]. apply (IH (S i)). lia.
Qed.

Lemma group_range q i j : (i <= j)%nat -> rc q i = 0 -> rc q j = 0 ->
  roll_back arr j = roll_back arr i /\ roll_forward n arr j = roll_forward n arr i.
Proof.
  intros Hij Hi Hj. replace j with (i + (j - i))%nat in * by lia. revert Hj. generalize (j - i)%nat. clear j Hij.
  induction n0 as [|k IH]; [by rewrite Nat.add_0_r|]. rewrite Nat.add_succ_r. intros Hj.
  assert (rc q (i + k) = 0) as Hk.
  { pose proof (rc_mono q i (i + k) ltac:(lia)). pose proof (rc_mono q (i + k) (S (i + k)) ltac:(lia)). lia. }
  destruct (IH Hk) as [E1 E2]. pose proof (same_group_match q (i + k) Hk Hj) as Hg. split.
  - rewrite <- E1. cbn [roll_back]. by rewrite Hg.
  - rewrite <- E2. assert (S (i + k) < n)%nat as Hlt.
    { unfold rc in Hj. destruct (entries arr !! S (i + k)) eqn:E; [by apply lookup_lt_Some in E|lia]. }
    assert (n = S (n - 1)) as En by lia. rewrite En at 2. cbn [roll_forward]. fold n.
    rewrite (proj2 (Nat.ltb_lt _ _) Hlt), Hg. cbn [andb]. rewrite En at 1. apply roll_forward_stable. lia.
Qed.

Lemma filter_group q i j flags : rc q i = 0 -> rc q j = 0 ->
  filter_servers arr i flags = filter_servers arr j flags.
Proof.
  intros Hi Hj.
  assert (roll_back arr j = roll_back arr i /\ roll_forward n arr j = roll_forward n arr i) as [E1 E2].
  { destruct (le_lt_dec i j); [by apply (group_range q)|]. destruct (group_range q j i) as [-> ->]; [lia|done..]. }
  assert (forall k, rc q k = 0 -> (k < n)%nat) as Hlt.
  { intros k Hk. unfold rc in Hk. destruct (entries arr !! k) eqn:E; [by apply lookup_lt_Some in E|lia]. }
  unfold filter_servers. fold n. rewrite E1, E2.
  rewrite (proj2 (Nat.leb_gt n i)) by (by apply Hlt). by rewrite (proj2 (Nat.leb_gt n j)) by (by apply Hlt).
Qed.

(** ** The reference: try every label boundary from left to right *)

Definition first_match (q : str) : option nat := position (fun e => order_entry q e =? 0) (entries arr).

Definition boundary (s : nat) : bool :=
  (s =? 0)%nat || (s =? length d)%nat || bool_decide (d !! (s - 1)%nat = Some dot).

Fixpoint scan (fuel s : nat) (flags : Z) : option (nat * nat) * Z :=
  match fuel with
  | O => (None, flags)
  | S f =>
    if (length d <? s)%nat then (None, flags)
    else if boundary s then
      match first_match (drop s d) with
      | None => scan f (S s) flags
      | Some t =>
        match filter_servers arr t flags with
        | None => scan f (S s) flags
        | Some (nl, nh) =>
          if contains (flags_at arr nl) USE_RESOLV
          then scan f (Nat.max (S s) (length d)) (flags ∣∣ F_SERVER)
          else (Some (nl, nh), flags)
        end
      end
    else scan f (S s) flags
  end.

Lemma scan_S f s flags : scan (S f) s flags =
  if (length d <? s)%nat then (None, flags)
  else if boundary s then
    match first_match (drop s d) with
    | None => scan f (S s) flags
    | Some t =>
      match filter_servers arr t flags with
      | None => scan f (S s) flags
      | Some (nl, nh) =>
        if contains (flags_at arr nl) USE_RESOLV
        then scan f (Nat.max (S s) (length d)) (flags ∣∣ F_SERVER) else (Some (nl, nh), flags)
      end
    end
  else scan f (S s) flags.
Proof. done. Qed.

Lemma scan_stable f s flags : (length d + 1 - s <= f)%nat -> scan (S f) s flags = scan f s flags.
Proof.
  revert s flags. induction f as [|f IH]; intros s flags Hf.
  - rewrite scan_S. cbn [scan]. by rewrite (proj2 (Nat.ltb_lt _ _)) by lia.
  - rewrite (scan_S (S f) s flags), (scan_S f s flags).
    destruct (Nat.ltb_spec (length d) s); [done|]. rewrite !(IH (S s)), (IH (Nat.max (S s) (length d))) by lia. done.
Qed.

Lemma scan_enough f f' s flags : (length d + 1 - s <= f)%nat -> (f <= f')%nat -> scan f' s flags = scan f s flags.
Proof. intros Hf. induction 1 as [|f' Hle IH]; [done|]. by rewrite scan_stable by lia. Qed.

(** Positions that are no boundary or match nothing can be skipped. *)
Lemma scan_skip s k f flags : (s + k <= length d + 1)%nat -> (length d + 1 - s <= f)%nat ->
  (forall x, (s <= x < s + k)%nat -> boundary x = true -> first_match (drop x d) = None) ->
  scan f s flags = scan f (s + k) flags.
Proof.
  revert s f. induction k as [|k IH]; intros s f Hk Hf Hx; [by rewrite Nat.add_0_r|].
  destruct f as [|f]; [lia|].
  assert (scan (S f) s flags = scan f (S s) flags) as ->.
  { cbn [scan]. rewrite (proj2 (Nat.ltb_ge _ _)) by lia. destruct (boundary s) eqn:B; [|done].
    by rewrite (Hx s) by (done || lia). }
  rewrite (IH (S s) f); [|lia|lia|intros x Hxx; apply Hx; lia].
  rewrite Nat.add_succ_r. cbn [Nat.add]. symmetry. apply scan_stable. lia.
Qed.

Lemma first_match_None q : (forall i, rc q i <> 0) -> first_match q = None.
Proof.
  intros Hz. unfold first_match, position. destruct (list_find _ _) as [[i e]|] eqn:E; [|done].
  apply list_find_Some in E as (He & Hm%Z.eqb_eq & _). destruct (Hz i). by rewrite (rc_lookup _ _ _ He).
Qed.

Lemma first_match_Some q t : rc q t = 0 -> exists t0, first_match q = Some t0 /\ rc q t0 = 0.
Proof.
  intros Ht. unfold first_match, position. destruct (list_find _ _) as [[i e]|] eqn:E.
  - apply list_find_Some in E as (He & Hm%Z.eqb_eq & _). exists i. split; [done|]. by rewrite (rc_lookup _ _ _ He).
  - unfold rc in Ht. destruct (entries arr !! t) as [e|] eqn:Et; [|lia]. apply list_find_None in E.
    apply (proj1 (Forall_lookup _ _) E) in Et. cbn in Et. by rewrite Ht in Et.
Qed.

(** ** The outer loop *)

Lemma next_label_spec fuel s : (1 <= s <= length d + 1)%nat -> (length d - s <= fuel)%nat ->
  exists k, (s + k <= length d + 1)%nat /\
    next_label fuel d (Z.of_nat s) (Z.of_nat (length d) - Z.of_nat s) =
      (Z.of_nat (s + k), Z.of_nat (length d) - Z.of_nat (s + k)) /\
    ((s + k <= length d)%nat -> boundary (s + k) = true) /\
    (forall x, (s <= x < s + k)%nat -> boundary x = false).
Proof.
  revert s. induction fuel as [|f IH]; intros s Hs Hf; cbn [next_label].
  { exists 0%nat. rewrite Nat.add_0_r. split_and!; [lia|done| |lia]. intros Hle. unfold boundary.
    replace s with (length d) by lia. by rewrite Nat.eqb_refl, orb_true_r. }
  replace (Z.to_nat (Z.of_nat s - 1)) with (s - 1)%nat by lia.
  destruct ((0 <? Z.of_nat (length d) - Z.of_nat s) && (0 <? Z.of_nat s) && negb (bool_decide (d !! (s - 1)%nat = Some dot))) eqn:G.
  - rewrite !andb_true_iff, negb_true_iff in G. destruct G as [[G1%Z.ltb_lt _] G3].
    destruct (IH (S s) ltac:(lia) ltac:(lia)) as (k & Hk & E & Hb & Hx). exists (S k).
    rewrite Nat.add_succ_r. split_and!; [lia| |exact Hb|].
    + change (S (s + k)) with (S s + k)%nat. rewrite <- E. f_equal; lia.
    + intros x Hxx. destruct (decide (x = s)) as [->|]; [|apply Hx; lia]. unfold boundary.
      rewrite G3, (proj2 (Nat.eqb_neq s 0)), (proj2 (Nat.eqb_neq s (length d))) by lia. done.
  - exists 0%nat. rewrite Nat.add_0_r. split_and!; [lia|done| |lia]. intros Hle. unfold boundary.
    destruct (Nat.eqb_spec s (length d)); [by rewrite orb_true_r|].
    rewrite (proj2 (Z.ltb_lt 0 (Z.of_nat s))), (proj2 (Z.ltb_lt 0 (Z.of_nat (length d) - Z.of_nat s))) in G by lia.
    cbn [andb] in G. apply negb_false_iff in G. by rewrite G, orb_true_r.
Qed.

(** The lower bound of the search stays valid for shorter suffixes. *)
Lemma low_shrinks s s' low : (s < s' <= length d)%nat -> (forall i, (i < low)%nat -> rc (drop s d) i = 1) ->
  forall i, (i < low)%nat -> rc (drop s' d) i = 1.
Proof.
  intros Hs Hl i Hi. specialize (Hl i Hi). unfold rc in *. destruct (entries arr !! i) as [e|]; [|lia].
  apply order_entry_pos in Hl as [Hn Hle]. apply order_entry_longer; [done|]. rewrite length_drop in *. lia.
Qed.

(** What the loop assumes when it looks at the suffix from [s]. *)
Definition loop_inv (s low : nat) : Prop :=
  (s <= length d + 1)%nat /\ (low < n)%nat /\
  ((s <= length d)%nat -> boundary s = true /\ forall i, (i < low)%nat -> rc (drop s d) i = 1).

(** From [s] the loop goes on to the next boundary at or after [s1], and so does
    the scan when nothing in between can match. *)
Lemma continue_spec s s1 low :
  (s < s1 <= length d + 1)%nat -> (low < n)%nat -> (forall i, (i < low)%nat -> rc (drop s d) i = 1) ->
  exists s2, next_label (length d) d (Z.of_nat s1) (Z.of_nat (length d) - Z.of_nat s1) =
      (Z.of_nat s2, Z.of_nat (length d) - Z.of_nat s2) /\
    loop_inv s2 low /\ (s < s2)%nat /\ (s1 <= s2)%nat /\
    (forall x, (s1 <= x < s2)%nat -> boundary x = false).
Proof.
  intros Hs Hlow Hl. destruct (next_label_spec (length d) s1) as (k & Hk & E & Hb & Hx); [lia..|].
  exists (s1 + k)%nat. split_and!; [exact E| |lia|lia|exact Hx]. split_and!; [lia|done|].
  intros Hle. split; [by apply Hb|]. apply (low_shrinks s); [lia|done].
Qed.

Lemma search_loop_spec fuel s low flags : loop_inv s low -> (length d + 1 - s < fuel)%nat ->
  search_loop fuel arr d (Z.of_nat s) (Z.of_nat (length d) - Z.of_nat s) low flags =
  Some (Val (scan (length d + 1 - s) s flags)).
Proof.
  revert s low flags. induction fuel as [|f IH]; intros s low flags (Hs & Hlow & Hinv) Hf; [lia|].
  cbn [search_loop]. destruct (Z.ltb_spec (Z.of_nat (length d) - Z.of_nat s) 0) as [Hneg|Hpos].
  { replace (length d + 1 - s)%nat with 0%nat by lia. done. }
  destruct (Hinv ltac:(lia)) as [Hbd Hl]. fold n. rewrite Hwild.
  replace (Z.of_nat (length d) - Z.of_nat s) with (Z.of_nat (length d - s)) by lia.
  destruct (bsearch_spec s (S (S n)) low n) as (r & -> & Hr); [lia|done|lia|lia|done| |].
  { intros i Hi. unfold rc. by rewrite (lookup_ge_None_2 (entries arr) i) by done. }
  (* the continuation from a first position [s1], as the scan sees it *)
  assert (forall s1 low' flags', (s < s1 <= length d + 1)%nat -> (low' < n)%nat ->
    (forall i, (i < low')%nat -> rc (drop s d) i = 1) ->
    (let '(start, qlen) := next_label (length d) d (Z.of_nat s1) (Z.of_nat (length d) - Z.of_nat s1) in
     search_loop f arr d start qlen low' flags') =
    Some (Val (scan (length d + 1 - s1) s1 flags'))) as Hcont.
  { intros s1 low' flags' Hs1 Hlow' Hl'. destruct (continue_spec s s1 low' Hs1 Hlow' Hl') as (s2 & E & Hi2 & ? & ? & Hx).
    rewrite E, (IH s2 low' flags' Hi2) by lia. do 2 f_equal.
    replace s2 with (s1 + (s2 - s1))%nat at 2 by lia.
    rewrite (scan_skip s1 (s2 - s1) (length d + 1 - s1)); [|destruct Hi2; lia|lia|].
    - symmetry. apply scan_enough; [lia|lia].
    - intros x Hxx Hb. by rewrite Hx in Hb by lia. }
  assert (length d + 1 - s = S (length d - s))%nat as Efuel by lia. rewrite Efuel.
  destruct r as [t low'|crop low']; cbn [search_post] in Hr.
  - destruct Hr as (Ht & Hlow' & Hl'). rewrite sub_domain_val by lia. unfold settle. rewrite Hwild.
    destruct (first_match_Some _ _ Ht) as (t0 & Em & Ht0). rewrite (filter_group _ t t0 flags Ht Ht0).
    rewrite scan_S, (proj2 (Nat.ltb_ge _ _)), Hbd, Em by lia.
    assert (forall flags', (let '(start, qlen) := next_label (length d) d (Z.of_nat s + 1) (Z.of_nat (length d - s) - 1) in
       search_loop f arr d start qlen low' flags') = Some (Val (scan (length d - s) (S s) flags'))) as Hone.
    { intros flags'. replace (Z.of_nat s + 1) with (Z.of_nat (S s)) by lia.
      replace (Z.of_nat (length d - s) - 1) with (Z.of_nat (length d) - Z.of_nat (S s)) by lia.
      rewrite (Hcont (S s) low' flags') by (done || lia). by replace (length d + 1 - S s)%nat with (length d - s)%nat by lia. }
    destruct (filter_servers arr t0 flags) as [[nl nh]|]; [|apply Hone].
    destruct (contains (flags_at arr nl) USE_RESOLV); [|done].
    destruct (Z.eqb_spec (Z.of_nat (length d - s)) 0) as [E0|E0].
    + rewrite Nat.max_l by lia. apply Hone.
    + rewrite Nat.max_r by lia. replace (Z.of_nat s + Z.of_nat (length d - s)) with (Z.of_nat (length d)) by lia.
      replace (Z.of_nat (length d - s) - Z.of_nat (length d - s)) with (Z.of_nat (length d) - Z.of_nat (length d)) by lia.
      rewrite (Hcont (length d) low' (flags ∣∣ F_SERVER)) by (done || lia). do 2 f_equal. symmetry. apply scan_enough; lia.
  - destruct Hr as (Hz & Hlow' & Hl' & Hcrop & Hlen). rewrite length_drop in Hcrop, Hlen.
    set (crop' := if crop =? 0 then 1 else crop).
    assert (1 <= crop' <= Z.max 1 (Z.of_nat (length d - s)) /\ (crop' <= crop \/ crop' = 1)) as [Hc1 Hc2]
      by (unfold crop'; destruct (Z.eqb_spec crop 0); lia).
    replace (Z.of_nat s + crop') with (Z.of_nat (s + Z.to_nat crop')) by lia.
    replace (Z.of_nat (length d - s) - crop') with (Z.of_nat (length d) - Z.of_nat (s + Z.to_nat crop')) by lia.
    rewrite (Hcont (s + Z.to_nat crop')%nat low' flags) by (done || lia). do 2 f_equal.
    rewrite <- Efuel. rewrite (scan_skip s (Z.to_nat crop') (length d + 1 - s)); [|lia|lia|].
    + symmetry. apply scan_enough; lia.
    + intros x Hx _. apply first_match_None. intros i. destruct (decide (x = s)) as [->|Hne]; [apply Hz|].
      unfold rc. destruct (entries arr !! i) as [e|] eqn:He; [|lia]. intros Hm%order_entry_zero.
      destruct Hm as (Hn & Hlx & _). rewrite length_drop in Hlx.
      pose proof (Hlen i e He Hn). lia.
Qed.

End Search.

(** C27: without wildcard domains, the binary search with its cropped suffixes
    and kept lower bound finds what the plain scan of the label boundaries
    finds: the longest suffix of the name that has a server suitable for the
    query, the servers of the default domain when that server says to use
    them. It neither panics nor loops, for any ASCII name and any array that
    [build] makes of servers whose dot-less entries have no domain. *)
Theorem lookup_longest_suffix servers locals domain flags :
  let arr := build servers locals in
  let d := lookup_name domain flags in
  chains_ok servers locals ->
  Forall (fun e => contains (e_flags e) FOR_NODOTS = true -> e_domain_len e = 0%nat) (entries arr) ->
  has_wildcard arr = false -> is_ascii domain -> entries arr <> [] ->
  let '(found, flags') := scan arr d (length d + 1) 0 flags in
  lookup arr domain flags = Val (nodots_fallback arr d flags flags' found).
Proof.
  cbn zeta. intros Hc Hnd Hw Ha Hne. set (arr := build servers locals) in *. set (d := lookup_name domain flags).
  assert (is_ascii d) as Hd.
  { unfold d, lookup_name. repeat case_match; [by apply Forall_drop|constructor|done]. }
  destruct (scan arr d (length d + 1) 0 flags) as [found flags'] eqn:E.
  assert (0 < length (entries arr))%nat as Hlen by (destruct (entries arr); [done|cbn; lia]).
  unfold lookup. fold d. rewrite (proj2 (Nat.eqb_neq _ _)) by lia.
  pose proof (search_loop_spec arr d (build_ok _ _ Hc) Hnd Hw Hd (S (S (length d))) 0 0 flags) as Hs.
  rewrite Z.sub_0_r, Nat.sub_0_r in Hs. change (Z.of_nat 0) with 0 in Hs. rewrite Hs, E; [done| |lia].
  split_and!; [lia|done|]. intros _. split; [done|lia].
Qed.

(** ** The narrowed range *)

Lemma skip_flag_spec fuel arr b lo hi : (lo <= hi)%nat -> (hi - lo <= fuel)%nat ->
  (lo <= skip_flag fuel arr b lo hi <= hi)%nat /\
  (forall i, (lo <= i < skip_flag fuel arr b lo hi)%nat -> contains (flags_at arr i) b = true) /\
  ((skip_flag fuel arr b lo hi < hi)%nat -> contains (flags_at arr (skip_flag fuel arr b lo hi)) b = false).
Proof.
  revert lo. induction fuel as [|f IH]; intros lo Hlo Hf; cbn [skip_flag].
  { split_and!; [lia|lia| |lia]. intros i Hi. lia. }
  destruct (Nat.ltb_spec lo hi); [|split_and!; [lia|lia|intros i; lia|lia]].
  destruct (contains (flags_at arr lo) b) eqn:E; [|split_and!; [lia|lia|intros i; lia|done]].
  destruct (IH (S lo)) as (H1 & H2 & H3); [lia|lia|]. split_and!; [lia|lia| |exact H3].
  intros i Hi. destruct (decide (i = lo)) as [->|]; [done|]. apply H2. lia.
Qed.

Lemma first_without_spec arr b lo hi : (lo <= hi)%nat ->
  (lo <= first_without arr b lo hi <= hi)%nat /\
  (forall i, (lo <= i < first_without arr b lo hi)%nat -> contains (flags_at arr i) b = true) /\
  ((first_without arr b lo hi < hi)%nat -> contains (flags_at arr (first_without arr b lo hi)) b = false).
Proof. intros Hlo. apply skip_flag_spec; lia. Qed.

Lemma roll_back_spec arr i : (roll_back arr i <= i)%nat /\
  forall k, (roll_back arr i <= k < i)%nat -> same_group arr k (S k) = true.
Proof.
  induction i as [|i [IH1 IH2]]; cbn [roll_back]; [split; lia|].
  destruct (same_group arr i (S i)) eqn:E; [|split; lia]. split; [lia|].
  intros k Hk. destruct (decide (k = i)) as [->|]; [done|]. apply IH2. lia.
Qed.

Lemma roll_forward_spec fuel arr i : (i < length (entries arr))%nat ->
  (i <= roll_forward fuel arr i < length (entries arr))%nat /\
  forall k, (i <= k < roll_forward fuel arr i)%nat -> same_group arr k (S k) = true.
Proof.
  revert i. induction fuel as [|f IH]; intros i Hi; cbn [roll_forward]; [split; lia|].
  destruct ((S i <? length (entries arr))%nat && same_group arr i (S i)) eqn:E; [|split; lia].
  apply andb_true_iff in E as [E1%Nat.ltb_lt E2]. destruct (IH (S i) E1) as [H1 H2]. split; [lia|].
  intros k Hk. destruct (decide (k = i)) as [->|]; [done|]. apply H2. lia.
Qed.

(** All the entries of a range carry a flag. *)
Definition all_with (arr : ServerArray) (b : ServFlags) (lo hi : nat) : Prop :=
  forall i, (lo <= i < hi)%nat -> contains (flags_at arr i) b = true.

(** Narrowing a group returns a non-empty range of entries that all belong
    to the group of the seed. Unless any local answer will do, the range is
    uniform and allowed by the query: literal IPv6 or IPv4 addresses, all-zero
    addresses or literal names only when no upstream server is required, else
    entries that defer to the default servers, else the rest of the group, which
    starts with a plain upstream server. *)
Theorem filter_servers_uniform arr seed flags lo hi :
  filter_servers arr seed flags = Some (lo, hi) ->
  (roll_back arr seed <= lo < hi)%nat /\ (hi <= S (roll_forward (length (entries arr)) arr seed))%nat /\
  (hi <= length (entries arr))%nat /\
  (forall k, (lo <= k)%nat -> (S k < hi)%nat -> same_group arr k (S k) = true) /\
  (has flags F_CONFIG = true \/
   (has flags F_SERVER = false /\ has flags F_IPV6 = true /\ all_with arr ADDR6 lo hi) \/
   (has flags F_SERVER = false /\ has flags F_IPV4 = true /\ all_with arr ADDR4 lo hi) \/
   (has flags F_SERVER = false /\ has flags (F_IPV4 ∣∣ F_IPV6) = true /\ all_with arr ALL_ZEROS lo hi) \/
   (has flags (F_DOMAINSRV ∣∣ F_SERVER) = false /\ all_with arr LITERAL_ADDRESS lo hi) \/
   all_with arr USE_RESOLV lo hi \/
   (hi = S (roll_forward (length (entries arr)) arr seed) /\ contains (flags_at arr lo) USE_RESOLV = false)).
Proof.
  unfold filter_servers. set (n := length (entries arr)). destruct (Nat.leb_spec n seed) as [|Hseed]; [done|].
  destruct (roll_back_spec arr seed) as [Hb1 Hb2]. destruct (roll_forward_spec n arr seed Hseed) as [Hf1 Hf2].
  set (nlow := roll_back arr seed) in *. set (last := roll_forward n arr seed) in *.
  assert (forall k, (nlow <= k)%nat -> (S k < S last)%nat -> same_group arr k (S k) = true) as Hgrp.
  { intros k Hk1 Hk2. destruct (le_lt_dec seed k); [apply Hf2; lia|apply Hb2; lia]. }
  destruct (has flags F_CONFIG) eqn:C.
  { destruct (existsb _ _); [|done]. intros [= <- <-]. split_and!; [lia|lia|lia|fold n; lia| |by left].
    intros k Hk1 Hk2. by apply Hgrp. }
  destruct (first_without_spec arr ADDR6 nlow (S last)) as (H61 & H62 & _); [lia|].
  set (i6 := first_without arr ADDR6 nlow (S last)) in *.
  destruct (first_without_spec arr ADDR4 i6 (S last)) as (H41 & H42 & _); [lia|].
  set (i4 := first_without arr ADDR4 i6 (S last)) in *.
  destruct (first_without_spec arr ALL_ZEROS i4 (S last)) as (Hz1 & Hz2 & _); [lia|].
  set (iz := first_without arr ALL_ZEROS i4 (S last)) in *.
  destruct (first_without_spec arr LITERAL_ADDRESS iz (S last)) as (Hl1 & Hl2 & _); [lia|].
  set (il := first_without arr LITERAL_ADDRESS iz (S last)) in *.
  destruct (first_without_spec arr USE_RESOLV il (S last)) as (Hr1 & Hr2 & Hr3); [lia|].
  set (ir := first_without arr USE_RESOLV il (S last)) in *.
  assert (forall a b, (nlow <= a)%nat -> (b <= S last)%nat ->
    forall k, (a <= k)%nat -> (S k < b)%nat -> same_group arr k (S k) = true) as Hsub
    by (intros; apply Hgrp; lia).
  assert (S last <= n)%nat as Hn by lia. intros Hres.
  repeat match type of Hres with
  | (if ?g then _ else _) = _ => destruct g eqn:?; [|]
  end; try done; injection Hres as <- <-;
  repeat match goal with
  | H : _ && _ = true |- _ => apply andb_true_iff in H as [? ?]
  | H : negb _ = true |- _ => apply negb_true_iff in H
  | H : (_ =? _)%nat = false |- _ => apply Nat.eqb_neq in H
  | H : (_ <? _)%nat = true |- _ => apply Nat.ltb_lt in H
  end.
  all: split_and!; [lia|lia|lia|fold n; lia|apply Hsub; lia|]; unfold all_with; tauto.
Qed.

(** ** Reloading the server list *)

(** The list a reload builds: mark what came from the old source, add the new
    servers, drop what is still marked. *)
Definition reload (servers news : list Server) (flag : ServFlags) : list Server :=
  cleanup_servers (fold_left add_update_server news (mark_servers servers flag)).

Definition unmarked (s : Server) : bool := negb (contains (s_flags s) MARK).

(** [s] as it ends up in the list: the flags and addresses of the new entry
    under its domain up to case and leading dots. *)
Definition carries (new s : Server) : Prop :=
  s_flags s = s_flags new /\ s_addr s = s_addr new /\ s_source_addr s = s_source_addr new /\
  s_interface s = s_interface new /\
  (s_domain s = trim_start dot (s_domain new) \/
   hostname_isequal (s_domain s) (trim_start dot (s_domain new)) = true).

Lemma remove_clear f i : 0 <= f < 65536 -> 0 <= i < 16 -> Z.testbit f i = false -> flag_remove f (2 ^ i) = f.
Proof.
  intros Hf Hi Ht. apply Z.bits_inj'. intros k Hk. destruct (Z_lt_ge_dec k 16).
  - rewrite remove_bit by lia. destruct (Z.eqb_spec i k) as [<-|]; [by rewrite Ht|]. by rewrite andb_true_r.
  - unfold flag_remove. rewrite Z.land_spec. assert (Z.testbit f k = false) as ->; [|done].
    destruct (Z.eq_dec f 0) as [->|]; [apply Z.bits_0|]. apply Z.bits_above_log2; [lia|].
    assert (Z.log2 f < 16); [|lia]. apply Z.log2_lt_pow2; [lia|]. zpow. lia.
Qed.

Lemma filter_delete_marked (P : Server -> bool) l pos x : l !! pos = Some x -> P x = false ->
  List.filter P (delete pos l) = List.filter P l.
Proof.
  intros Hx HP. rewrite <- (take_drop_middle l pos x Hx) at 2. rewrite delete_take_drop, !List.filter_app. cbn.
  by rewrite HP.
Qed.

(** One addition: a marked entry is reused at most, and the new one is last. *)
Lemma add_update_spec A D new :
  0 <= s_flags new < 65536 -> contains (s_flags new) MARK = false ->
  Forall (fun s => unmarked s = true) D ->
  exists A' x, add_update_server (A ++ D) new = A' ++ D ++ [x] /\ carries new x /\ unmarked x = true /\
    List.filter unmarked A' = List.filter unmarked A.
Proof.
  intros Hf Hm HD. unfold add_update_server. set (dom := trim_start dot (s_domain new)).
  set (reuse := if intersects _ _ then None else _).
  destruct (reuse) as [pos|] eqn:E.
  - assert (exists old, (A ++ D) !! pos = Some old /\ contains (s_flags old) MARK = true /\
      hostname_isequal (s_domain old) dom = true) as (old & Hold & Hmk & Heq).
    { unfold reuse in E. destruct (intersects _ _); [done|]. unfold position in E.
      destruct (list_find _ _) as [[i x]|] eqn:Ef; [|done]. injection E as <-.
      apply list_find_Some in Ef as (Hx & [? ?]%andb_true_iff & _). eauto. }
    assert (pos < length A)%nat as Hpos.
    { destruct (le_lt_dec (length A) pos) as [Hge|]; [|done]. rewrite lookup_app_r in Hold by done.
      apply (proj1 (Forall_lookup _ _) HD) in Hold. unfold unmarked in Hold. by rewrite Hmk in Hold. }
    rewrite Hold. rewrite lookup_app_l in Hold by done.
    exists (delete pos A), (with_saddrs (with_sflags old (flag_remove (s_flags new) MARK))
                  (s_addr new) (s_source_addr new) (s_interface new)).
    assert (flag_remove (s_flags new) MARK = s_flags new) as Hfl.
    { change MARK with (2 ^ 9) in *. rewrite contains_bit in Hm by lia. apply remove_clear; [done|lia|done]. }
    split_and!.
    + rewrite app_assoc. cbn. f_equal. rewrite !delete_take_drop, take_app_le, drop_app_le by lia. by rewrite app_assoc.
    + cbn. rewrite Hfl. split_and!; [done..|]. by right.
    + unfold unmarked. cbn. by rewrite Hfl, Hm.
    + apply (filter_delete_marked unmarked A pos old Hold). unfold unmarked. by rewrite Hmk.
  - exists A, (with_sdomain new dom). split_and!; [by rewrite <- app_assoc| |by unfold unmarked; cbn; rewrite Hm|done].
    unfold carries. cbn. split_and!; [done..|by left].
Qed.

Lemma add_all_spec news : forall A D,
  Forall (fun s => 0 <= s_flags s < 65536 /\ contains (s_flags s) MARK = false) news ->
  Forall (fun s => unmarked s = true) D ->
  exists A' xs, fold_left add_update_server news (A ++ D) = A' ++ D ++ xs /\ Forall2 carries news xs /\
    Forall (fun s => unmarked s = true) xs /\ List.filter unmarked A' = List.filter unmarked A.
Proof.
  induction news as [|s news IH]; intros A D Hn HD.
  { exists A, []. rewrite app_nil_r. by split_and!; try constructor. }
  apply Forall_cons in Hn as [[Hf Hm] Hn]. cbn [fold_left].
  destruct (add_update_spec A D s Hf Hm HD) as (A1 & x & -> & Hc & Hu & EA).
  destruct (IH A1 (D ++ [x]) Hn) as (A2 & xs & -> & Hcs & Hus & EA2).
  { apply Forall_app. by split; [|constructor]. }
  exists A2, (x :: xs). rewrite <- !app_assoc. split_and!; [done|by constructor|by constructor|congruence].
Qed.

Lemma filter_id (P : Server -> bool) l : Forall (fun s => P s = true) l -> List.filter P l = l.
Proof. induction 1 as [|x l Hx _ IH]; [done|]. cbn. by rewrite Hx, IH. Qed.

(** A reload replaces exactly the servers of its source. Afterwards the
    list holds the servers of other sources, in their order, then one entry for
    each new server, in order, with its flags, addresses and domain; nothing of
    the old source that was not configured again is left. *)
Theorem reload_replaces servers news flag :
  Forall (fun s => 0 <= s_flags s < 65536 /\ contains (s_flags s) MARK = false) news ->
  exists xs, reload servers news flag =
    mark_servers (List.filter (fun s => negb (intersects (s_flags s) flag)) servers) flag ++ xs /\
    Forall2 carries news xs.
Proof.
  intros Hn. destruct (add_all_spec news (mark_servers servers flag) [] Hn) as (A' & xs & E & Hc & Hu & EA); [done|].
  rewrite app_nil_r in E. exists xs. split; [|done]. unfold reload. rewrite E. cbn [app].
  unfold cleanup_servers. fold unmarked. change (List.filter (fun s => negb (contains (s_flags s) MARK))) with (List.filter unmarked).
  rewrite List.filter_app, EA, (filter_id unmarked xs Hu). f_equal.
  clear. induction servers as [|s servers IH]; [done|]. unfold mark_servers in *. rewrite fmap_cons. cbn [List.filter].
  assert (unmarked (with_sflags s (if intersects (s_flags s) flag then flag_insert (s_flags s) MARK
                                   else flag_remove (s_flags s) MARK)) = negb (intersects (s_flags s) flag)) as ->.
  { unfold unmarked. cbn. f_equal. change MARK with (2 ^ 9). rewrite contains_bit by lia.
    destruct (intersects (s_flags s) flag); [by rewrite insert_bit, orb_true_r by lia|].
    by rewrite remove_bit, andb_false_r by lia. }
  destruct (negb (intersects (s_flags s) flag)) eqn:Ei; [|done]. rewrite fmap_cons. by rewrite IH.
Qed.

(** ** Subdomain tests agree *)

Lemma isequal_lower a b : is_ascii a -> is_ascii b ->
  hostname_isequal a b = true <-> to_ascii_lowercase a = to_ascii_lowercase b.
Proof.
  intros Ha Hb. unfold hostname_isequal, hostname_order.
  rewrite andb_true_iff, Nat.eqb_eq, bool_decide_eq_true, order_chars_eq, !lower_chars_ascii by done. split.
  - intros [_ E]. by apply u8z_fmap_inj.
  - intros E. split; [|by rewrite E]. apply (f_equal length) in E. by rewrite !length_lower in E.
Qed.

(** On ASCII names [domain_matches] never panics and holds exactly when the
    server has no domain, or the query is the server's domain up to case, or it
    is some name and a dot before it: the cases [hostname_issubdomain] accepts. *)
Theorem domain_matches_spec q s : is_ascii q -> is_ascii s ->
  exists b, domain_matches q s = Val b /\
    (b = true <-> s = [] \/ to_ascii_lowercase q = to_ascii_lowercase s \/
                  exists pre, to_ascii_lowercase q = pre ++ dot :: to_ascii_lowercase s).
Proof.
  intros Hq Hs. unfold domain_matches. case_decide as Es; [exists true; split; [done|tauto]|].
  destruct (hostname_isequal q s) eqn:Eq.
  { apply isequal_lower in Eq; [|done..]. exists true. split; [done|tauto]. }
  assert (to_ascii_lowercase q <> to_ascii_lowercase s) as Hne.
  { intros E. apply isequal_lower in E; [congruence|done..]. }
  assert (forall pre, to_ascii_lowercase q = pre ++ dot :: to_ascii_lowercase s ->
    (length s < length q)%nat /\ length pre = (length q - length s - 1)%nat) as Hpre.
  { intros pre E. apply (f_equal length) in E. rewrite length_app in E. cbn in E. rewrite !length_lower in E. lia. }
  destruct (Nat.ltb_spec (length s) (length q)) as [Hl|Hl].
  2:{ exists false. split; [done|]. split; [done|]. intros [?|[?|[pre E]]]; [done..|]. apply Hpre in E. lia. }
  set (k := (length q - length s - 1)%nat).
  destruct (bool_decide_reflect (q !! k = Some dot)) as [Hk|Hk].
  - rewrite str_from_ascii by (done || (unfold k; lia)). eexists. split; [done|].
    rewrite isequal_lower by (done || by apply Forall_drop). split.
    + intros E. right. right. exists (to_ascii_lowercase (take k q)). rewrite <- E.
      rewrite <- (take_drop_middle q k dot Hk) at 1. rewrite lower_app. done.
    + intros [?|[?|[pre E]]]; [done..|]. pose proof (Hpre pre E) as [_ Hp]. fold k in Hp.
      rewrite <- (take_drop_middle q k dot Hk), lower_app in E.
      apply app_inj_1 in E as [_ E]; [|rewrite length_lower, length_take; unfold k in *; lia]. by injection E.
  - exists false. split; [done|]. split; [done|]. intros [?|[?|[pre E]]]; [done..|]. destruct Hk.
    pose proof (Hpre pre E) as [_ Hp]. fold k in Hp. apply (f_equal (fun l => l !! k)) in E.
    rewrite list_lookup_middle in E by done. unfold to_ascii_lowercase in E. rewrite list_lookup_fmap in E.
    destruct (q !! k) as [b|]; [|done]. cbn in E. injection E as E. f_equal. revert E. by byte_cases b.
Qed.

(** ** A concrete configuration *)

Definition ex_server (flags : ServFlags) (domain : string) (ip : Ipv4Addr) : Server :=
  mkServer flags (bs domain) (SV4 ip 53) (SV4 0 0) [] 0 0 0 0 0 0 0 None 0 (-1) 0 0 (-1) 0.
Definition ex_upstream : list Server :=
  [ex_server 0 "" 1; ex_server 0 "corp.example" 2; ex_server 0 "example" 3; ex_server LOOP "example" 4].
Definition ex_locals : list Server :=
  [ex_server (Z.lor LITERAL_ADDRESS ADDR4) "ads.example" 0; ex_server USE_RESOLV "public.corp.example" 0].

Lemma ex_chains_ok : chains_ok ex_upstream ex_locals.
Proof. split; repeat constructor. Qed.

Lemma build_sorts_witness :
  StronglySorted (fun a b => compare_entries a b <> Gt) (entries (build ex_upstream ex_locals)) /\
  e_domain <$> entries (build ex_upstream ex_locals) =
    [bs "public.corp.example"; bs "corp.example"; bs "ads.example"; bs "example"; bs ""].
Proof. split; [apply (build_sorts ex_upstream ex_locals); exact ex_chains_ok|by vm_compute]. Defined.

Lemma lookup_longest_suffix_witness :
  lookup (build ex_upstream ex_locals) (bs "www.corp.example") F_IPV4 = Val (Some (1, 2)%nat) /\
  lookup (build ex_upstream ex_locals) (bs "x.public.corp.example") F_IPV4 = Val (Some (4, 5)%nat).
Proof.
  split.
  - pose proof (lookup_longest_suffix ex_upstream ex_locals (bs "www.corp.example") F_IPV4 ex_chains_ok) as H.
    apply H; [repeat constructor; done|done|repeat constructor|done].
  - by vm_compute.
Defined.

Lemma filter_servers_uniform_witness :
  exists lo hi, filter_servers (build ex_upstream ex_locals) 2 F_IPV4 = Some (lo, hi) /\ (lo < hi)%nat.
Proof.
  exists 2%nat, 3%nat. split; [by vm_compute|].
  apply (filter_servers_uniform (build ex_upstream ex_locals) 2 F_IPV4 2 3). by vm_compute.
Defined.

Lemma reload_replaces_witness :
  exists xs, reload ex_upstream [ex_server FROM_FILE ".new.example" 9] LOOP =
    mark_servers (List.filter (fun s => negb (intersects (s_flags s) LOOP)) ex_upstream) LOOP ++ xs /\
    Forall2 carries [ex_server FROM_FILE ".new.example" 9] xs.
Proof. apply reload_replaces. repeat constructor; by vm_compute. Defined.

Lemma domain_matches_spec_witness :
  exists b, domain_matches (bs "a.Example") (bs "example") = Val b /\
    (b = true <-> bs "example" = [] \/ to_ascii_lowercase (bs "a.Example") = to_ascii_lowercase (bs "example") \/
       exists pre, to_ascii_lowercase (bs "a.Example") = pre ++ dot :: to_ascii_lowercase (bs "example")).
Proof. apply domain_matches_spec; repeat constructor. Defined.

(** Two upstream entries keep their order only by serial, and a local entry with
    the same type bits ties with both: such a mixture is not ordered
    transitively. *)
Example compare_not_transitive :
  let up n := mkEntry [] 0 0 n 0 false in
  let loc := mkEntry [] 0 0 0 0 true in
  compare_entries (up 1) loc = Eq /\ compare_entries loc (up 0) = Eq /\ compare_entries (up 1) (up 0) = Gt.
Proof. by vm_compute. Qed.
