(* ===== verification/Edns0.v ===== *)
(** * EDNS0 options: src/src/edns0.rs

    The OPT pseudo record: finding it, its options, replacing it, the client
    subnet option with its check on replies, and the options an outgoing query
    is given. *)

From Stdlib Require Import ZArith Lia String.
From stdpp Require Import base numbers list option strings.
From S2P Require Import Prelude ByteCursor DnsProtocol Rfc1035 Types Util.

#[local] Open Scope Z_scope.
#[local] Open Scope rust_scope.

Definition EDNS0_OPTION_MAC : Z := 65001.
Definition EDNS0_OPTION_CLIENT_SUBNET : Z := 8.
Definition EDNS0_OPTION_NOMDEVICEID : Z := 65073.
Definition EDNS0_OPTION_NOMCPEID : Z := 65074.
Definition EDNS0_OPTION_UMBRELLA : Z := 20292.

Record Edns0Option : Type := mkOpt { o_code : Z; o_data : list u8 }.

Record Edns0Info : Type := mkInfo {
  i_offset : nat;
  i_udp_size : Z;
  i_ext_rcode : Z;
  i_version : Z;
  i_flags : Z;
  i_options : list Edns0Option;
}.

(** [u16::from_be_bytes([pkt[p], pkt[p + 1]])], [pkt[p]] and the 32-bit read;
    the source checks the length before each use. *)
Definition be16_at (pkt : list u8) (p : nat) : Z := of_be (take 2 (drop p pkt)).
Definition be32_at (pkt : list u8) (p : nat) : Z := of_be (take 4 (drop p pkt)).
Definition u8_at (pkt : list u8) (p : nat) : Z := of_be (take 1 (drop p pkt)).

(** ** Walking a packet *)

Fixpoint skip_questions (pkt : list u8) (offset : nat) (count : nat) : result nat DnsError :=
  match count with
  | O => Ok offset
  | S n =>
    let? offset := skip_name pkt offset in
    if (length pkt <? offset + 4)%nat then Err PacketTooShort
    else skip_questions pkt (offset + 4) n
  end.

Fixpoint skip_rrs (pkt : list u8) (offset : nat) (count : nat) : result nat DnsError :=
  match count with
  | O => Ok offset
  | S n =>
    let? offset := skip_name pkt offset in
    if (length pkt <? offset + 10)%nat then Err PacketTooShort
    else
      let rdlen := Z.to_nat (be16_at pkt (offset + 8)) in
      let offset := (offset + (10 + rdlen))%nat in
      if (length pkt <? offset)%nat then Err UnexpectedEof
      else skip_rrs pkt offset n
  end.

(** [parse_opt_options]: each iteration takes at least the four bytes of an
    option's header, so that [length data + 1] iterations are enough. *)
Fixpoint parse_opt_loop (fuel : nat) (data : list u8) (pos : nat) (opts : list Edns0Option)
    : option (result (list Edns0Option) DnsError) :=
  match fuel with
  | O => None
  | S f =>
    if (pos <? length data)%nat then
      if (length data <? pos + 4)%nat then Some (Err UnexpectedEof)
      else
        let code := be16_at data pos in
        let len := Z.to_nat (be16_at data (pos + 2)) in
        let pos := (pos + 4)%nat in
        if (length data <? pos + len)%nat then Some (Err UnexpectedEof)
        else parse_opt_loop f data (pos + len) (opts ++ [mkOpt code (take len (drop pos data))])
    else Some (Ok opts)
  end.

Definition parse_opt_options (data : list u8) : result (list Edns0Option) DnsError :=
  match parse_opt_loop (S (length data)) data 0 [] with
  | Some r => r
  | None => Err UnexpectedEof
  end.

Definition build_opt_rdata (options : list Edns0Option) : list u8 :=
  fold_left (fun out opt => out ++ to_be 2 (o_code opt)
               ++ to_be 2 (as_u16 (Z.of_nat (length (o_data opt)))) ++ o_data opt) options [].

(** ** The OPT pseudo record *)

(** The loop over the additional section. *)
Fixpoint find_opt (pkt : list u8) (offset : nat) (arcount : nat) : option Edns0Info :=
  match arcount with
  | O => None
  | S n =>
    let rr_start := offset in
    let! offset := ok (skip_name pkt offset) in
    if (length pkt <? offset + 10)%nat then None
    else
      let rtype := be16_at pkt offset in
      let udp_size := be16_at pkt (offset + 2) in
      let ext_rcode := u8_at pkt (offset + 4) in
      let version := u8_at pkt (offset + 5) in
      let flags := be16_at pkt (offset + 6) in
      let rdlen := Z.to_nat (be16_at pkt (offset + 8)) in
      let offset := (offset + 10)%nat in
      if (length pkt <? offset + rdlen)%nat then None
      else if rtype =? RrType_as T_OPT then
        let! options := ok (parse_opt_options (take rdlen (drop offset pkt))) in
        Some (mkInfo rr_start udp_size ext_rcode version flags options)
      else find_opt pkt (offset + rdlen) n
  end.

Definition find_pseudoheader (pkt : list u8) : option Edns0Info :=
  let! hdr := from_bytes pkt in
  let! offset := ok (skip_questions pkt 12 (Z.to_nat (qdcount hdr))) in
  let! offset := ok (skip_rrs pkt offset (Z.to_nat (ancount hdr))) in
  let! offset := ok (skip_rrs pkt offset (Z.to_nat (nscount hdr))) in
  find_opt pkt offset (Z.to_nat (arcount hdr)).

(** [pkt[10] = (new_ar >> 8) as u8; pkt[11] = (new_ar & 0xFF) as u8], on a
    packet that is known to hold a header. *)
Definition set_arcount (pkt : list u8) (new_ar : Z) : list u8 :=
  <[11%nat := z8 (Z.land new_ar 0xFF)]> (<[10%nat := z8 (Z.shiftr new_ar 8)]> pkt).

(** The packet without the record found by [find_pseudoheader]. *)
Definition strip_opt (pkt : list u8) (info : Edns0Info) : result (list u8) DnsError :=
  let? end_offset := skip_name pkt (i_offset info) in
  if (length pkt <? end_offset + 10)%nat then Err PacketTooShort
  else
    let rdlen := Z.to_nat (be16_at pkt (end_offset + 8)) in
    let opt_end := (end_offset + 10 + rdlen)%nat in
    if (length pkt <? opt_end)%nat then Err UnexpectedEof
    else
      let stripped := take (i_offset info) pkt ++ drop opt_end pkt in
      let? hdr := ok_or (from_bytes pkt) PacketTooShort in
      Ok (set_arcount stripped (Z.max 0 (arcount hdr - 1))).

(** The appended record, and [hdr.arcount + 1], which overflows on 65535
    (a panic where overflow checks are compiled in). *)
Definition append_opt (base : list u8) (udp_size flags : Z) (options : list Edns0Option)
    : outcome (result (list u8) DnsError) :=
  let rdata := build_opt_rdata options in
  let result_ := base ++ [Byte.x00] ++ to_be 2 (RrType_as T_OPT) ++ to_be 2 udp_size
    ++ [z8 0] ++ [z8 0] ++ to_be 2 flags ++ to_be 2 (as_u16 (Z.of_nat (length rdata))) ++ rdata in
  match from_bytes result_ with
  | None => Val (Err PacketTooShort)
  | Some hdr =>
    if arcount hdr =? 65535 then Panic
    else Val (Ok (set_arcount result_ (arcount hdr + 1)))
  end.

Definition add_pseudoheader (pkt : list u8) (udp_size flags : Z) (options : list Edns0Option)
    : outcome (result (list u8) DnsError) :=
  match from_bytes pkt with
  | None => Val (Err PacketTooShort)
  | Some _ =>
    match find_pseudoheader pkt with
    | Some info =>
      match strip_opt pkt info with
      | Ok base => append_opt base udp_size flags options
      | Err e => Val (Err e)
      end
    | None => append_opt pkt udp_size flags options
    end
  end.

Definition add_do_bit (pkt : list u8) (udp_size : Z) : outcome (result (list u8) DnsError) :=
  add_pseudoheader pkt udp_size 0x8000 [].

(** ** Client subnets *)

Definition octets (a : IpAddr) : list u8 := match a with V4 x => octets4 x | V6 x => octets6 x end.

(** [from] of a zero-padded array: the first bytes of the option, the rest zero. *)
Definition padded (n : nat) (bytes : list u8) : list u8 :=
  let copy := Nat.min (length bytes) n in take copy bytes ++ replicate (n - copy) Byte.x00.

Definition parse_ecs_addr (data : list u8) : option IpAddr :=
  if (length data <? 4)%nat then None
  else
    let family := be16_at data 0 in
    let addr_bytes := drop 4 data in
    if family =? 1 then Some (V4 (of_be (padded 4 addr_bytes)))
    else if family =? 2 then Some (V6 (of_be (padded 16 addr_bytes)))
    else None.

Definition check_source_subnet (pkt : list u8) : option IpAddr :=
  let! info := find_pseudoheader pkt in
  let! (_, opt) := list_find (fun o => o_code o = EDNS0_OPTION_CLIENT_SUBNET) (i_options info) in
  parse_ecs_addr (o_data opt).

Record SubnetOpt : Type := mkSubnet {
  so_family : Z;
  so_source_netmask : Z;
  so_scope_netmask : Z;
  so_addr : list u8;
}.

Definition to_wire (o : SubnetOpt) (addr_len : nat) : list u8 :=
  let addr_len := Nat.min addr_len (length (so_addr o)) in
  to_be 2 (so_family o) ++ [z8 (so_source_netmask o)] ++ [z8 (so_scope_netmask o)] ++ take addr_len (so_addr o).

Record AddSubnetOpt : Type := mkAddSubnet { as_mask : Z; const_addr : option IpAddr }.

Definition is_v6 (a : IpAddr) : bool := match a with V6 _ => true | V4 _ => false end.

(** The configuration for the family of the source: the mask, the address to
    send if any, whether it is an IPv6 one, and whether it is constant. *)
Definition subnet_choice (source : IpAddr) (add_subnet4 add_subnet6 : option AddSubnetOpt)
    : Z * option IpAddr * bool * bool :=
  match (if is_v6 source then add_subnet6 else add_subnet4) with
  | None => (0, None, is_v6 source, false)
  | Some sub =>
    match const_addr sub with
    | Some a => (as_mask sub, Some a, is_v6 a, true)
    | None => (as_mask sub, Some source, is_v6 source, false)
    end
  end.

(** [addr[l - 1] &= 0xffu8 << (8 - (mask & 7))]. *)
Definition mask_last (mask : Z) (l : nat) (addr : list u8) : list u8 :=
  if Z.land mask 7 =? 0 then addr
  else alter (fun b => z8 (Z.land (u8z b) (u8z (z8 (Z.shiftl 0xff (8 - Z.land mask 7)))))) (l - 1)%nat addr.

(** The sixteen-byte array and the number of its bytes in use. *)
Definition subnet_addr (mask : Z) (a : IpAddr) : list u8 * nat :=
  let full := padded 16 (octets a) in
  let l := Nat.min (Z.to_nat (Z.shiftr (mask - 1) 3 + 1)) 16 in
  (mask_last mask l (take l full ++ replicate (16 - l) Byte.x00), l).

Definition calc_subnet_opt (source : IpAddr) (add_subnet4 add_subnet6 : option AddSubnetOpt)
    : SubnetOpt * bool * nat :=
  let '(source_netmask, addrp, v6, cacheable) := subnet_choice source add_subnet4 add_subnet6 in
  let family := if v6 then 2 else 1 in
  match addrp with
  | Some a =>
    if source_netmask =? 0 then (mkSubnet family source_netmask 0 (replicate 16 Byte.x00), true, O)
    else
      let '(addr, l) := subnet_addr source_netmask a in
      (mkSubnet family source_netmask 0 addr, cacheable, l)
  | None => (mkSubnet family source_netmask 0 (replicate 16 Byte.x00), true, O)
  end.

Definition build_ecs_payload (addr : IpAddr) (prefix : Z) : list u8 :=
  let sub := mkAddSubnet prefix None in
  let '(opt, _, len) := calc_subnet_opt addr (Some sub) (Some sub) in
  to_wire opt len.

Definition add_source_addr (pkt : list u8) (addr : IpAddr) (prefix : Z) : outcome (result (list u8) DnsError) :=
  let ecs_opt := mkOpt EDNS0_OPTION_CLIENT_SUBNET (build_ecs_payload addr prefix) in
  match find_pseudoheader pkt with
  | Some info =>
    let merged := List.filter (fun o => negb (o_code o =? EDNS0_OPTION_CLIENT_SUBNET)) (i_options info) in
    add_pseudoheader pkt (i_udp_size info) (i_flags info) (merged ++ [ecs_opt])
  | None => add_pseudoheader pkt 512 0 [ecs_opt]
  end.

(** One client subnet option of a reply against the one that was sent. *)
Definition ecs_matches (exp : SubnetOpt) (exp_len : nat) (data : list u8) : bool :=
  let calc_len := (exp_len + 4)%nat in
  if negb (length data =? calc_len)%nat || (length data <? 4)%nat then false
  else
    let family_ok := bool_decide (take 2 data = to_be 2 (so_family exp)) in
    let mask_ok := u8_at data 2 =? so_source_netmask exp in
    let addr_ok := bool_decide (drop 4 data = take exp_len (so_addr exp)) in
    family_ok && mask_ok && addr_ok.

(** Whether an option states a subnet of its own. *)
Definition own_ecs (data : list u8) : bool := (3 <=? length data)%nat && negb (u8_at data 2 =? 0).

Definition check_source (pkt : list u8) (peer : option IpAddr) (add_subnet4 add_subnet6 : option AddSubnetOpt) : bool :=
  match find_pseudoheader pkt with
  | None => true
  | Some info =>
    let expected := (fun p => calc_subnet_opt p add_subnet4 add_subnet6) <$> peer in
    forallb (fun opt =>
      if negb (o_code opt =? EDNS0_OPTION_CLIENT_SUBNET) then true
      else match expected with
           | Some (exp, _, exp_len) => ecs_matches exp exp_len (o_data opt)
           | None => negb (own_ecs (o_data opt))
           end) (i_options info)
  end.

(** ** Options of an outgoing query *)

Definition BASE64_CHARS : str := bs "ABCDEFGHIJKLMNOPQRSTUVWXYZabcdefghijklmnopqrstuvwxyz0123456789+/".

Definition char64 (c : Z) : u8 := default Byte.x00 (BASE64_CHARS !! Z.to_nat (Z.land c 0x3f)).

(** [u8] shifts: bits shifted out of the byte are lost. *)
Definition shl8 (z n : Z) : Z := Z.shiftl z n mod 256.

Definition encoder (a b c : u8) : list u8 :=
  [ char64 (Z.shiftr (u8z a) 2);
    char64 (Z.lor (shl8 (u8z a) 4) (Z.shiftr (u8z b) 4));
    char64 (Z.lor (shl8 (u8z b) 2) (Z.shiftr (u8z c) 6));
    char64 (u8z c) ].

(** The argument is a [[u8; 6]]. *)
Definition mac_to_base64 (mac : list u8) : str :=
  match mac with
  | [a; b; c; d; e; f] => encoder a b c ++ encoder d e f
  | _ => []
  end.

Definition edns0_needs_mac (mac_b64 mac_hex add_mac : bool) : bool := mac_b64 || mac_hex || add_mac.

Inductive UpsertMode : Type := AddIfAbsent | Replace | ReplaceOnly.

Definition has_code (code : Z) (o : Edns0Option) : bool := o_code o =? code.

Definition upsert_option (options : list Edns0Option) (code : Z) (data : option (list u8)) (mode : UpsertMode)
    : list Edns0Option :=
  let add := match data with Some d => [mkOpt code d] | None => [] end in
  let retained := List.filter (fun o => negb (has_code code o)) options in
  match mode with
  | AddIfAbsent => if existsb (has_code code) options then options else options ++ add
  | Replace => retained ++ add
  | ReplaceOnly => retained
  end.

(** The mode both hardware-address options use. *)
Definition mac_mode (found : bool) (strip_mac : bool) : option UpsertMode :=
  if found then Some (if strip_mac then Replace else AddIfAbsent)
  else if strip_mac then Some ReplaceOnly else None.

Definition upsert_mac (options : list Edns0Option) (code : Z) (found : option (list u8)) (strip_mac cacheable : bool)
    : list Edns0Option * bool :=
  let cacheable := match found with Some _ => false | None => cacheable end in
  match mac_mode (bool_decide (is_Some found)) strip_mac with
  | Some mode => (upsert_option options code found mode, cacheable)
  | None => (options, cacheable)
  end.

Definition add_mac (options : list Edns0Option) (mac : option (list u8)) (add_mac_ strip_mac cacheable : bool)
    : list Edns0Option * bool :=
  let found := if add_mac_ then (let! m := mac in if decide (m = []) then None else Some m) else None in
  upsert_mac options EDNS0_OPTION_MAC found strip_mac cacheable.

Definition add_dns_client (options : list Edns0Option) (mac : option (list u8))
    (mac_b64 mac_hex strip_mac cacheable : bool) : list Edns0Option * bool :=
  let mac6 := if mac_b64 || mac_hex then (let! m := mac in if (length m =? 6)%nat then Some m else None) else None in
  let encoded := (fun m => if mac_hex then print_mac m else mac_to_base64 m) <$> mac6 in
  upsert_mac options EDNS0_OPTION_NOMDEVICEID encoded strip_mac cacheable.

Definition add_client_subnet (options : list Edns0Option) (source : IpAddr) (client_subnet strip_ecs : bool)
    (add_subnet4 add_subnet6 : option AddSubnetOpt) (cacheable : bool) : list Edns0Option * bool :=
  if client_subnet then
    let mode := if strip_ecs then Replace else AddIfAbsent in
    let '(opt, cache, len) := calc_subnet_opt source add_subnet4 add_subnet6 in
    (upsert_option options EDNS0_OPTION_CLIENT_SUBNET (Some (to_wire opt len)) mode, cache)
  else if strip_ecs then (upsert_option options EDNS0_OPTION_CLIENT_SUBNET None ReplaceOnly, cacheable)
  else if cacheable then
    let has_own_ecs := existsb (fun o => has_code EDNS0_OPTION_CLIENT_SUBNET o && own_ecs (o_data o)) options in
    (options, negb has_own_ecs)
  else (options, cacheable).

Definition add_umbrella_opt (options : list Edns0Option) (source : IpAddr) (umbrella_devid : bool)
    (umbrella_org umbrella_asset : Z) (umbrella_device : list u8) : list Edns0Option * bool :=
  let payload := bs "ODNS" ++ [z8 1] ++ [z8 0]
    ++ (if umbrella_org =? 0 then [] else to_be 2 0x0008 ++ to_be 4 umbrella_org)
    ++ (match source with
        | V4 v4 => to_be 2 0x0010 ++ octets4 v4
        | V6 v6 => to_be 2 0x0020 ++ octets6 v6
        end)
    ++ (if umbrella_devid then to_be 2 0x0040 ++ umbrella_device else [])
    ++ (if umbrella_asset =? 0 then [] else to_be 2 0x0004 ++ to_be 4 umbrella_asset) in
  (upsert_option options EDNS0_OPTION_UMBRELLA (Some payload) Replace, false).

Record Edns0QueryConfig : Type := mkQueryConfig {
  qc_add_mac : bool; qc_strip_mac : bool; qc_mac_b64 : bool; qc_mac_hex : bool;
  qc_client_subnet : bool; qc_strip_ecs : bool;
  qc_add_subnet4 : option AddSubnetOpt; qc_add_subnet6 : option AddSubnetOpt;
  qc_dns_client_id : option str;
  qc_umbrella : bool; qc_umbrella_devid : bool; qc_umbrella_org : Z; qc_umbrella_asset : Z;
  qc_umbrella_device : list u8;
}.

Definition add_edns0_config (existing : list Edns0Option) (source : IpAddr) (mac : option (list u8))
    (cfg : Edns0QueryConfig) : list Edns0Option * bool :=
  let '(options, cacheable) := add_mac existing mac (qc_add_mac cfg) (qc_strip_mac cfg) true in
  let '(options, cacheable) :=
    add_dns_client options mac (qc_mac_b64 cfg) (qc_mac_hex cfg) (qc_strip_mac cfg) cacheable in
  let options := match qc_dns_client_id cfg with
                 | Some id => upsert_option options EDNS0_OPTION_NOMCPEID (Some id) Replace
                 | None => options
                 end in
  let '(options, cacheable) :=
    if qc_umbrella cfg
    then add_umbrella_opt options source (qc_umbrella_devid cfg) (qc_umbrella_org cfg) (qc_umbrella_asset cfg)
           (qc_umbrella_device cfg)
    else (options, cacheable) in
  add_client_subnet options source (qc_client_subnet cfg) (qc_strip_ecs cfg) (qc_add_subnet4 cfg)
    (qc_add_subnet6 cfg) cacheable.

(** ** Reading back what was written *)

Lemma be16_mid pre z rest : 0 <= z < 65536 -> be16_at (pre ++ to_be 2 z ++ rest) (length pre) = z.
Proof. intros Hz. unfold be16_at. rewrite drop_app_length, take_app_length' by (by rewrite length_to_be). by apply of_be_to_be_small. Qed.

Lemma be_at_mid n pre z post pkt p :
  pkt = pre ++ to_be n z ++ post -> p = length pre -> 0 <= z < 256 ^ Z.of_nat n ->
  of_be (take n (drop p pkt)) = z.
Proof.
  intros -> -> Hz. rewrite drop_app_length, take_app_length' by (by rewrite length_to_be).
  by apply of_be_to_be_small.
Qed.

(** The fields of a record that stands in a packet, as the walks read them. *)
Lemma rr_fields pre rr post : rr_ok rr -> fits (pre ++ enc_rr rr ++ post) ->
  let pkt := pre ++ enc_rr rr ++ post in
  let p := (length pre + length (enc_name (r_name rr)))%nat in
  skip_name pkt (length pre) = Ok p /\
  be16_at pkt p = rtype rr /\ be16_at pkt (p + 2) = class rr /\ be32_at pkt (p + 4) = ttl rr /\
  be16_at pkt (p + 8) = Z.of_nat (length (rdata rr)) /\
  take (length (rdata rr)) (drop (p + 10) pkt) = rdata rr /\
  (p + 10 + length (rdata rr) = length pre + length (enc_rr rr))%nat /\
  (length pre + length (enc_rr rr) <= length pkt)%nat.
Proof.
  intros (Hn & Ht & Hc & Htt & Hrd & _) Hf. cbn zeta.
  unfold enc_rr in *. rewrite <- !app_assoc in *.
  set (nm := enc_name (r_name rr)) in *.
  split_and!.
  - eapply skip_extract, extract_name_at; [done|done|done|done].
  - eapply (be_at_mid 2 (pre ++ nm)); [by rewrite <- app_assoc|by rewrite length_app|exact Ht].
  - eapply (be_at_mid 2 (pre ++ nm ++ to_be 2 (rtype rr))); [by rewrite <- !app_assoc| |exact Hc].
    rewrite !length_app, length_to_be. lia.
  - eapply (be_at_mid 4 (pre ++ nm ++ to_be 2 (rtype rr) ++ to_be 2 (class rr))); [by rewrite <- !app_assoc| |exact Htt].
    rewrite !length_app, !length_to_be. lia.
  - eapply (be_at_mid 2 (pre ++ nm ++ to_be 2 (rtype rr) ++ to_be 2 (class rr) ++ to_be 4 (ttl rr)));
      [by rewrite <- !app_assoc| |split; [lia|exact Hrd]].
    rewrite !length_app, !length_to_be. lia.
  - rewrite !app_assoc. rewrite <- (app_assoc _ (rdata rr)).
    rewrite drop_app_length' by (rewrite !length_app, !length_to_be; lia). by rewrite take_app_length.
  - rewrite !length_app, !length_to_be. lia.
  - rewrite !length_app, !length_to_be. lia.
Qed.

(** The type and class of a question that stands in a packet. *)
Lemma question_fields pre q post : question_ok q -> fits (pre ++ enc_question q ++ post) ->
  let pkt := pre ++ enc_question q ++ post in
  let p := (length pre + length (enc_name (q_name q)))%nat in
  skip_name pkt (length pre) = Ok p /\ be16_at pkt p = qtype q /\ be16_at pkt (p + 2) = qclass q /\
  (p + 4 = length pre + length (enc_question q))%nat /\
  (length pre + length (enc_question q) <= length pkt)%nat.
Proof.
  intros (Hn & Ht & Hc) Hf. cbn zeta. unfold enc_question in *. rewrite <- !app_assoc in *.
  set (nm := enc_name (q_name q)) in *. split_and!.
  - eapply skip_extract, extract_name_at; [done|done|done|done].
  - eapply (be_at_mid 2 (pre ++ nm)); [by rewrite <- app_assoc|by rewrite length_app|exact Ht].
  - eapply (be_at_mid 2 (pre ++ nm ++ to_be 2 (qtype q))); [by rewrite <- !app_assoc| |exact Hc].
    rewrite !length_app, length_to_be. lia.
  - rewrite !length_app, !length_to_be. lia.
  - rewrite !length_app, !length_to_be. lia.
Qed.

Lemma skip_questions_enc qs : forall pre post, Forall question_ok qs ->
  fits (pre ++ concat (enc_question <$> qs) ++ post) ->
  skip_questions (pre ++ concat (enc_question <$> qs) ++ post) (length pre) (length qs) =
    Ok (length (pre ++ concat (enc_question <$> qs))).
Proof.
  induction qs as [|q qs IH]; intros pre post Hq Hf; cbn [fmap list_fmap concat length skip_questions];
    [by rewrite app_nil_r|].
  inversion_clear Hq as [|? ? Hq1 Hq2]. cbn [fmap list_fmap concat] in Hf.
  rewrite <- (app_assoc (enc_question q)) in *.
  destruct (question_fields pre q (concat (enc_question <$> qs) ++ post)) as (-> & _ & _ & E & L); [done|done|].
  destruct (Nat.ltb_spec (length (pre ++ enc_question q ++ concat (enc_question <$> qs) ++ post))
              (length pre + length (enc_name (q_name q)) + 4)); [lia|].
  rewrite E, <- length_app, !(app_assoc pre (enc_question q)).
  rewrite app_assoc in Hf. by apply IH.
Qed.

Lemma skip_rrs_enc rrs : forall pre post, Forall rr_ok rrs ->
  fits (pre ++ concat (enc_rr <$> rrs) ++ post) ->
  skip_rrs (pre ++ concat (enc_rr <$> rrs) ++ post) (length pre) (length rrs) =
    Ok (length (pre ++ concat (enc_rr <$> rrs))).
Proof.
  induction rrs as [|rr rrs IH]; intros pre post Hq Hf; cbn [fmap list_fmap concat length skip_rrs];
    [by rewrite app_nil_r|].
  inversion_clear Hq as [|? ? Hq1 Hq2]. cbn [fmap list_fmap concat] in Hf.
  rewrite <- (app_assoc (enc_rr rr)) in *.
  destruct (rr_fields pre rr (concat (enc_rr <$> rrs) ++ post)) as (-> & _ & _ & _ & El & _ & E & L); [done|done|].
  set (pkt := pre ++ enc_rr rr ++ concat (enc_rr <$> rrs) ++ post) in *.
  set (p := (length pre + length (enc_name (r_name rr)))%nat) in *.
  destruct (Nat.ltb_spec (length pkt) (p + 10)); [lia|].
  rewrite El, Nat2Z.id.
  destruct (Nat.ltb_spec (length pkt) (p + (10 + length (rdata rr)))); [lia|].
  replace (p + (10 + length (rdata rr)))%nat with (length (pre ++ enc_rr rr)) by (rewrite length_app; lia).
  unfold pkt. rewrite !(app_assoc pre (enc_rr rr)). unfold pkt in Hf. rewrite (app_assoc pre) in Hf. by apply IH.
Qed.

(** What the search of the additional section finds, on the records. *)
Fixpoint find_in (off : nat) (rrs : list DnsRr) : option Edns0Info :=
  match rrs with
  | [] => None
  | rr :: rest =>
    if rtype rr =? RrType_as T_OPT then
      let! options := ok (parse_opt_options (rdata rr)) in
      Some (mkInfo off (class rr) (Z.shiftr (ttl rr) 24) (Z.land (Z.shiftr (ttl rr) 16) 0xFF)
              (Z.land (ttl rr) 0xFFFF) options)
    else find_in (off + length (enc_rr rr)) rest
  end.

Lemma be32_parts pkt p : (p + 4 <= length pkt)%nat ->
  u8_at pkt p = Z.shiftr (be32_at pkt p) 24 /\
  u8_at pkt (p + 1) = Z.land (Z.shiftr (be32_at pkt p) 16) 0xFF /\
  be16_at pkt (p + 2) = Z.land (be32_at pkt p) 0xFFFF.
Proof.
  intros Hl. unfold u8_at, be16_at, be32_at. rewrite <- !drop_drop.
  set (l := drop p pkt). assert (4 <= length l)%nat as Hl' by (unfold l; rewrite length_drop; lia).
  clearbody l. destruct l as [|a [|b [|c [|d l]]]]; cbn [length] in Hl'; try lia. clear.
  cbn [drop take of_be fold_left]. rewrite ?take_0. cbn [fold_left]. pose proof (u8z_range a). pose proof (u8z_range b).
  pose proof (u8z_range c). pose proof (u8z_range d).
  change 0xFF with (Z.ones 8). change 0xFFFF with (Z.ones 16).
  rewrite !Z.land_ones, !Z.shiftr_div_pow2 by lia.
  change (2 ^ 24) with 16777216. change (2 ^ 16) with 65536. change (2 ^ 8) with 256.
  match goal with |- context [?x / 16777216] => set (v := x) end.
  assert (v / 16777216 = u8z a) as -> by (symmetry; apply (Z.div_unique _ _ _ (u8z b * 65536 + u8z c * 256 + u8z d)); unfold v; lia).
  assert (v / 65536 = u8z a * 256 + u8z b) as -> by (symmetry; apply (Z.div_unique _ _ _ (u8z c * 256 + u8z d)); unfold v; lia).
  split_and!; [lia|..]; [apply (Z.mod_unique _ _ (u8z a))|apply (Z.mod_unique _ _ (u8z a * 256 + u8z b))]; unfold v; lia.
Qed.

Lemma find_opt_enc rrs : forall pre post, Forall rr_ok rrs ->
  fits (pre ++ concat (enc_rr <$> rrs) ++ post) ->
  find_opt (pre ++ concat (enc_rr <$> rrs) ++ post) (length pre) (length rrs) = find_in (length pre) rrs.
Proof.
  induction rrs as [|rr rrs IH]; intros pre post Hq Hf; cbn [fmap list_fmap concat length find_opt find_in]; [done|].
  inversion_clear Hq as [|? ? Hq1 Hq2]. cbn [fmap list_fmap concat] in Hf.
  rewrite <- (app_assoc (enc_rr rr)) in *.
  destruct (rr_fields pre rr (concat (enc_rr <$> rrs) ++ post)) as (-> & Et & Ec & Ettl & El & Erd & E & L); [done|done|].
  set (pkt := pre ++ enc_rr rr ++ concat (enc_rr <$> rrs) ++ post) in *.
  set (p := (length pre + length (enc_name (r_name rr)))%nat) in *. cbn [ok].
  destruct (Nat.ltb_spec (length pkt) (p + 10)); [lia|].
  rewrite El, Nat2Z.id, Et, Ec, Erd.
  destruct (Nat.ltb_spec (length pkt) (p + 10 + length (rdata rr))); [lia|].
  destruct (be32_parts pkt (p + 4)) as (B1 & B2 & B3); [lia|]. rewrite Ettl in B1, B2, B3.
  replace (p + 4 + 1)%nat with (p + 5)%nat in B2 by lia. replace (p + 4 + 2)%nat with (p + 6)%nat in B3 by lia.
  rewrite B1, B2, B3. case_match; [done|].
  rewrite E, <- length_app. unfold pkt. rewrite !(app_assoc pre (enc_rr rr)).
  apply IH; [done|]. unfold pkt in Hf. by rewrite (app_assoc pre) in Hf.
Qed.

(** The bytes of a packet before its additional section. *)
Definition before_additional (p : DnsPacket) : list u8 :=
  to_bytes (header (fix_counts p)) ++ concat (enc_question <$> questions p)
    ++ concat (enc_rr <$> answers p) ++ concat (enc_rr <$> authority p).

Lemma enc_packet_split p : enc_packet p = before_additional p ++ concat (enc_rr <$> additional p).
Proof. unfold enc_packet, before_additional. by rewrite <- !app_assoc. Qed.

Lemma find_pseudoheader_enc p : packet_ok p -> fits (enc_packet p) ->
  find_pseudoheader (enc_packet p) = find_in (length (before_additional p)) (additional p).
Proof.
  intros Hp Hf. unfold find_pseudoheader. unfold enc_packet at 1.
  rewrite from_to_bytes by (by apply fix_counts_header_ok). destruct Hp as [_ Hq Ha Hn Hr _].
  cbn [header fix_counts with_counts qdcount ancount nscount arcount]. rewrite !Nat2Z.id.
  rewrite <- (length_to_bytes (header (fix_counts p))).
  unfold enc_packet in *. set (hd := to_bytes (header (fix_counts p))) in *.
  rewrite skip_questions_enc by done. cbn [ok].
  rewrite (app_assoc hd) in *. rewrite skip_rrs_enc by done. cbn [ok].
  rewrite (app_assoc (hd ++ _)) in *. rewrite skip_rrs_enc by done. cbn [ok].
  rewrite (app_assoc ((hd ++ _) ++ _)) in *.
  rewrite <- (app_nil_r (concat (enc_rr <$> additional p))) in *.
  rewrite find_opt_enc by done. f_equal. unfold before_additional. fold hd. by rewrite <- !app_assoc.
Qed.

(** ** Options *)

Definition enc_opt (o : Edns0Option) : list u8 :=
  to_be 2 (o_code o) ++ to_be 2 (Z.of_nat (length (o_data o))) ++ o_data o.

Definition opt_ok (o : Edns0Option) : Prop := u16_ok (o_code o) /\ Z.of_nat (length (o_data o)) < 65536.

Lemma build_opt_rdata_enc opts : Forall opt_ok opts -> build_opt_rdata opts = concat (enc_opt <$> opts).
Proof.
  intros Hok. unfold build_opt_rdata. rewrite <- (app_nil_l (concat _)).
  generalize (@nil u8) as acc. induction Hok as [|o opts [_ Ho] _ IH]; intros acc; cbn [fold_left fmap list_fmap concat];
    [by rewrite app_nil_r|].
  rewrite IH. unfold enc_opt, as_u16. rewrite Z.mod_small by lia. by rewrite <- !app_assoc.
Qed.

Lemma parse_opt_loop_enc opts : forall pre acc fuel, Forall opt_ok opts -> (length opts < fuel)%nat ->
  parse_opt_loop fuel (pre ++ concat (enc_opt <$> opts)) (length pre) acc = Some (Ok (acc ++ opts)).
Proof.
  induction opts as [|o opts IH]; intros pre acc [|fuel] Hok Hf; cbn [length] in Hf; try lia;
    cbn [fmap list_fmap concat parse_opt_loop].
  - rewrite !app_nil_r, Nat.ltb_irrefl. done.
  - inversion_clear Hok as [|? ? [Hc Hd] Hok'].
    set (rest := concat (enc_opt <$> opts)) in *. set (data := pre ++ enc_opt o ++ rest).
    assert (length data = length pre + 4 + length (o_data o) + length rest)%nat as Hl.
    { unfold data, enc_opt. rewrite !length_app, !length_to_be. lia. }
    destruct (Nat.ltb_spec (length pre) (length data)); [|lia].
    destruct (Nat.ltb_spec (length data) (length pre + 4)); [lia|].
    assert (be16_at data (length pre) = o_code o) as ->.
    { eapply (be_at_mid 2 pre); [|done|exact Hc]. unfold data, enc_opt. by rewrite <- !app_assoc. }
    assert (be16_at data (length pre + 2) = Z.of_nat (length (o_data o))) as ->.
    { eapply (be_at_mid 2 (pre ++ to_be 2 (o_code o))); [| |split; [lia|exact Hd]].
      - unfold data, enc_opt. by rewrite <- !app_assoc.
      - rewrite length_app, length_to_be. lia. }
    rewrite Nat2Z.id. destruct (Nat.ltb_spec (length data) (length pre + 4 + length (o_data o))); [lia|].
    assert (take (length (o_data o)) (drop (length pre + 4) data) = o_data o) as ->.
    { unfold data, enc_opt. rewrite !app_assoc, <- (app_assoc _ (o_data o)).
      rewrite drop_app_length' by (rewrite !length_app, !length_to_be; lia). by rewrite take_app_length. }
    replace (length pre + 4 + length (o_data o))%nat with (length (pre ++ enc_opt o))
      by (unfold enc_opt; rewrite !length_app, !length_to_be; lia).
    unfold data. rewrite (app_assoc pre), IH by (done || lia). destruct o. by rewrite <- app_assoc.
Qed.

Lemma parse_build_options opts : Forall opt_ok opts -> parse_opt_options (build_opt_rdata opts) = Ok opts.
Proof.
  intros Hok. rewrite build_opt_rdata_enc by done. unfold parse_opt_options.
  rewrite (parse_opt_loop_enc opts []); [done|done|]. cut (length opts <= length (concat (enc_opt <$> opts)))%nat; [lia|].
  clear. induction opts as [|o opts IH]; cbn [fmap list_fmap concat length]; [lia|].
  rewrite length_app. unfold enc_opt at 1. rewrite !length_app, !length_to_be. lia.
Qed.

(** ** Replacing the pseudo record *)

Definition is_opt (rr : DnsRr) : bool := rtype rr =? RrType_as T_OPT.

Fixpoint drop_first_opt (rrs : list DnsRr) : list DnsRr :=
  match rrs with
  | [] => []
  | rr :: rest => if is_opt rr then rest else rr :: drop_first_opt rest
  end.

(** The record that carries some options. *)
Definition opt_rr (udp_size flags : Z) (opts : list Edns0Option) : DnsRr :=
  mkRr [] (RrType_as T_OPT) udp_size flags (build_opt_rdata opts).

Definition with_additional (p : DnsPacket) (rrs : list DnsRr) : DnsPacket :=
  mkPacket (header p) (questions p) (answers p) (authority p) rrs.

Definition with_opt (p : DnsPacket) (udp_size flags : Z) (opts : list Edns0Option) : DnsPacket :=
  with_additional p (drop_first_opt (additional p) ++ [opt_rr udp_size flags opts]).

Lemma set_arcount_bytes h rest n : u16_ok n ->
  set_arcount (to_bytes h ++ rest) n = to_bytes (with_counts h (qdcount h) (ancount h) (nscount h) n) ++ rest.
Proof.
  intros Hn. unfold set_arcount, to_bytes. rewrite !to_be_2.
  cbn [app insert list_insert with_counts id hb3 hb4 qdcount ancount nscount arcount].
  rewrite Z.shiftr_div_pow2 by lia. change (2 ^ 8) with 256.
  rewrite (z8_congr (Z.land n 255) n); [done|]. change 255 with (Z.ones 8). rewrite Z.land_ones by lia.
  change (2 ^ 8) with 256. by rewrite Z.mod_mod.
Qed.

(** A packet's bytes when only its additional section changes. *)
Lemma set_arcount_enc p rrs : Z.of_nat (length rrs) < 65536 ->
  set_arcount (before_additional p ++ concat (enc_rr <$> rrs)) (Z.of_nat (length rrs)) = enc_packet (with_additional p rrs).
Proof.
  intros Hl. unfold before_additional. rewrite <- app_assoc, set_arcount_bytes by (unfold u16_ok; lia).
  unfold enc_packet. cbn. by rewrite <- !app_assoc.
Qed.

Lemma find_in_Some rrs : forall off info, find_in off rrs = Some info -> exists l1 rr l2,
  rrs = l1 ++ rr :: l2 /\ is_opt rr = true /\ drop_first_opt rrs = l1 ++ l2 /\
  i_offset info = (off + length (concat (enc_rr <$> l1)))%nat.
Proof.
  induction rrs as [|rr rrs IH]; intros off info; cbn [find_in drop_first_opt]; [done|].
  change (rtype rr =? RrType_as T_OPT) with (is_opt rr). destruct (is_opt rr) eqn:E.
  - destruct (ok _); [|done]. intros [= <-]. exists [], rr, rrs.
    split_and!; [done|done|done|cbn; lia].
  - intros (l1 & rr' & l2 & Er & Ho & Ed & Ei)%IH. exists (rr :: l1), rr', l2. cbn [app fmap list_fmap concat].
    rewrite Ed, Ei, length_app, Er. split_and!; [done|done|done|lia].
Qed.

(** A pseudo record whose options can be read. *)
Definition opt_readable (rr : DnsRr) : Prop :=
  is_opt rr = true -> exists opts, parse_opt_options (rdata rr) = Ok opts.

Lemma find_in_None rrs : forall off, Forall opt_readable rrs -> find_in off rrs = None ->
  drop_first_opt rrs = rrs /\ Forall (fun rr => is_opt rr = false) rrs.
Proof.
  induction rrs as [|rr rrs IH]; intros off Hr; cbn [find_in drop_first_opt]; [done|].
  inversion_clear Hr as [|? ? H1 H2]. unfold opt_readable in H1.
  change (rtype rr =? RrType_as T_OPT) with (is_opt rr). destruct (is_opt rr) eqn:E.
  - destruct H1 as [o ->]; done.
  - intros Hn. destruct (IH _ H2 Hn) as [-> H]. split; [done|]. by constructor.
Qed.

Lemma find_in_app l1 rr : forall off, Forall (fun rr => is_opt rr = false) l1 ->
  find_in off (l1 ++ [rr]) = find_in (off + length (concat (enc_rr <$> l1))) [rr].
Proof.
  induction l1 as [|x l1 IH]; intros off H; cbn [app fmap list_fmap concat length]; [by rewrite Nat.add_0_r|].
  inversion_clear H as [|? ? Hx Hl]. cbn [find_in]. unfold is_opt in Hx. rewrite Hx.
  rewrite IH, length_app, Nat.add_assoc by done. done.
Qed.

Lemma strip_opt_enc p info : packet_ok p -> fits (enc_packet p) ->
  find_in (length (before_additional p)) (additional p) = Some info ->
  strip_opt (enc_packet p) info = Ok (enc_packet (with_additional p (drop_first_opt (additional p)))).
Proof.
  intros Hp Hf (l1 & rr & l2 & E & _ & Ed & Ei)%find_in_Some. unfold strip_opt.
  assert (length (additional p) = S (length (l1 ++ l2))) as Elen by (rewrite E, !length_app; cbn; lia).
  pose proof (pk_counts _ Hp) as (_ & _ & _ & Hc).
  pose proof (pk_ar _ Hp) as Hr. rewrite E in Hr. apply Forall_app in Hr as [_ Hr]. inversion_clear Hr as [|? ? Hrr _].
  assert (from_bytes (enc_packet p) = Some (header (fix_counts p))) as Eh.
  { unfold enc_packet. by apply from_to_bytes, fix_counts_header_ok. }
  rewrite Eh. cbn [ok_or]. cbn [header fix_counts with_counts arcount].
  rewrite Ei. rewrite <- length_app.
  set (pre := before_additional p ++ concat (enc_rr <$> l1)).
  assert (enc_packet p = pre ++ enc_rr rr ++ concat (enc_rr <$> l2)) as Ep.
  { rewrite enc_packet_split, E, fmap_app, concat_app. unfold pre. rewrite fmap_cons. cbn [concat].
    by rewrite <- app_assoc. }
  rewrite Ep in *.
  destruct (rr_fields pre rr (concat (enc_rr <$> l2))) as (-> & _ & _ & _ & El & _ & Eend & Hl); [done|done|].
  set (pkt := pre ++ enc_rr rr ++ concat (enc_rr <$> l2)) in *.
  rewrite (proj2 (Nat.ltb_ge _ _)) by lia. rewrite El, Nat2Z.id, Eend.
  rewrite (proj2 (Nat.ltb_ge _ _)) by lia.
  unfold pkt. rewrite take_app_length, <- (length_app pre), app_assoc, drop_app_length.
  replace (Z.max 0 _) with (Z.of_nat (length (l1 ++ l2))) by lia.
  rewrite Ed. unfold pre. rewrite <- app_assoc, <- concat_app, <- fmap_app. f_equal.
  apply set_arcount_enc. lia.
Qed.

Lemma to_be_4_small z : u16_ok z -> to_be 4 z = [z8 0] ++ [z8 0] ++ to_be 2 z.
Proof.
  intros Hz. unfold u16_ok in Hz. cbn [to_be app]. rewrite (Z.div_div z), (Z.div_div z) by lia.
  rewrite (Z.div_small z (256 * 256 * 256)), (Z.div_small z (256 * 256)) by lia. done.
Qed.

Lemma append_opt_enc p udp flags opts : packet_ok p -> u16_ok flags -> Z.of_nat (length (additional p)) < 65535 ->
  Z.of_nat (length (build_opt_rdata opts)) < 65536 ->
  append_opt (enc_packet p) udp flags opts =
    Val (Ok (enc_packet (with_additional p (additional p ++ [opt_rr udp flags opts])))).
Proof.
  intros Hp Hfl Hl Hd. unfold append_opt.
  assert (from_bytes (enc_packet p ++ [Byte.x00] ++ to_be 2 (RrType_as T_OPT) ++ to_be 2 udp
    ++ [z8 0] ++ [z8 0] ++ to_be 2 flags ++ to_be 2 (as_u16 (Z.of_nat (length (build_opt_rdata opts))))
    ++ build_opt_rdata opts) = Some (header (fix_counts p))) as ->.
  { unfold enc_packet at 1. rewrite <- app_assoc. by apply from_to_bytes, fix_counts_header_ok. }
  cbn [header fix_counts with_counts arcount]. rewrite (proj2 (Z.eqb_neq _ _)) by lia. do 2 f_equal.
  replace (Z.of_nat (length (additional p)) + 1) with (Z.of_nat (length (additional p ++ [opt_rr udp flags opts])))
    by (rewrite length_app; cbn; lia).
  rewrite <- set_arcount_enc by (rewrite length_app; cbn; lia). f_equal.
  rewrite enc_packet_split, fmap_app, concat_app, <- !app_assoc. do 2 f_equal. cbn [fmap list_fmap concat].
  rewrite app_nil_r. unfold opt_rr, enc_rr. cbn [r_name rtype class ttl rdata].
  unfold as_u16. rewrite Z.mod_small by lia. change (enc_name []) with [Byte.x00].
  by rewrite to_be_4_small.
Qed.

Lemma opt_rr_ok udp flags opts : u16_ok udp -> u16_ok flags ->
  Z.of_nat (length (build_opt_rdata opts)) < 65536 -> rr_ok (opt_rr udp flags opts).
Proof.
  intros Hu Hf Hl. unfold u16_ok in *. unfold rr_ok, u16_ok, opt_rr. cbn [r_name rtype class ttl rdata].
  split_and!; try done; try lia. by left.
Qed.

Lemma drop_first_opt_sub rrs : drop_first_opt rrs `sublist_of` rrs.
Proof.
  induction rrs as [|rr rrs IH]; cbn [drop_first_opt]; [done|].
  destruct (is_opt rr); [by apply sublist_cons|by apply sublist_skip].
Qed.

Lemma with_additional_ok p rrs : packet_ok p -> Forall rr_ok rrs -> Z.of_nat (length rrs) < 65536 ->
  packet_ok (with_additional p rrs).
Proof. intros [? ? ? ? ? (? & ? & ? & ?)] Hr Hl. by split. Qed.

(** Replacing the pseudo record is exact. In a packet whose pseudo records
    can be read, [add_pseudoheader] removes the first one, if any, and appends
    one with the given size, flags and options, changing nothing else and
    keeping the counts right; [find_pseudoheader] then reads back exactly what
    was given when the packet held at most one. *)
Theorem add_pseudoheader_spec p udp flags opts :
  packet_ok p -> Forall opt_readable (additional p) -> Z.of_nat (length (additional p)) < 65535 ->
  u16_ok udp -> u16_ok flags -> Forall opt_ok opts -> Z.of_nat (length (build_opt_rdata opts)) < 65536 ->
  fits (write p) -> fits (write (with_opt p udp flags opts)) ->
  add_pseudoheader (write p) udp flags opts = Val (Ok (write (with_opt p udp flags opts))) /\
  (Forall (fun rr => is_opt rr = false) (drop_first_opt (additional p)) ->
   exists off, find_pseudoheader (write (with_opt p udp flags opts)) = Some (mkInfo off udp 0 0 flags opts)).
Proof.
  intros Hp Hr Hl Hu Hfl Ho Hd Hf Hf'.
  pose proof (sublist_length _ _ (drop_first_opt_sub (additional p))) as Hdl.
  assert (Forall rr_ok (drop_first_opt (additional p))) as Hdok
    by (apply Forall_forall; intros x Hx; eapply Forall_forall; [apply (pk_ar _ Hp)|];
        eapply elem_of_sublist; [done|apply drop_first_opt_sub]).
  assert (packet_ok (with_additional p (drop_first_opt (additional p)))) as Hp1
    by (apply with_additional_ok; [done|done|lia]).
  assert (packet_ok (with_opt p udp flags opts)) as Hp2.
  { apply with_additional_ok; [done| |rewrite length_app; cbn; lia].
    apply Forall_app. split; [done|]. constructor; [by apply opt_rr_ok|done]. }
  rewrite (write_enc p) in * by assumption. rewrite (write_enc (with_opt _ _ _ _)) in * by assumption.
  split.
  - unfold add_pseudoheader.
    assert (from_bytes (enc_packet p) = Some (header (fix_counts p))) as ->
      by (unfold enc_packet; by apply from_to_bytes, fix_counts_header_ok).
    rewrite find_pseudoheader_enc by assumption. destruct (find_in _ _) as [info|] eqn:E.
    + rewrite (strip_opt_enc _ _ Hp Hf E). rewrite append_opt_enc; [reflexivity|assumption|assumption|cbn [with_additional additional]; lia|assumption].
    + destruct (find_in_None _ _ Hr E) as [En _]. rewrite append_opt_enc by assumption.
      unfold with_opt. rewrite En. reflexivity.
  - intros Hno. eexists. rewrite find_pseudoheader_enc by assumption. unfold with_opt, with_additional.
    cbn [additional]. rewrite find_in_app by assumption. cbn [find_in opt_rr rtype class ttl rdata].
    rewrite Z.eqb_refl, parse_build_options by assumption. cbn [ok].
    unfold u16_ok in Hfl. rewrite !Z.shiftr_div_pow2 by lia. change 65535 with (Z.ones 16).
    rewrite Z.land_ones, Z.mod_small by lia. rewrite !Z.div_small by lia. done.
Qed.

Definition sample_query : DnsPacket :=
  mkPacket (mkHeader 7 Byte.x01 Byte.x00 0 0 0 0) [mkQuestion (bs "a.example") 1 1] [] []
    [opt_rr 512 0 [mkOpt 10 [Byte.x01; Byte.x02]]; mkRr (bs "b") 1 1 60 [Byte.x0a; Byte.x00; Byte.x00; Byte.x01]].

Lemma sample_query_ok : packet_ok sample_query.
Proof.
  split; cbn; unfold u16_ok; try lia; repeat apply List.Forall_cons; try apply List.Forall_nil;
    unfold question_ok, rr_ok, u16_ok; cbn [q_name qtype qclass r_name rtype class ttl rdata opt_rr];
    (split; [apply name_ok_eval; by vm_compute|]); cbn; repeat (split; [lia|]); try lia; done.
Qed.

Lemma add_pseudoheader_spec_witness :
  add_pseudoheader (write sample_query) 1232 0x8000 [mkOpt 8 [Byte.x07]] =
    Val (Ok (write (with_opt sample_query 1232 0x8000 [mkOpt 8 [Byte.x07]]))) /\
  (fun i => (i_udp_size i, i_flags i, i_options i)) <$>
    find_pseudoheader (write (with_opt sample_query 1232 0x8000 [mkOpt 8 [Byte.x07]])) =
  Some (1232, 0x8000, [mkOpt 8 [Byte.x07]]).
Proof.
  destruct (add_pseudoheader_spec sample_query 1232 0x8000 [mkOpt 8 [Byte.x07]] sample_query_ok) as [H1 H2].
  - repeat constructor; intros Hopt; vm_compute in Hopt; try discriminate. eexists. vm_compute. reflexivity.
  - vm_compute. reflexivity.
  - vm_compute; intuition discriminate.
  - vm_compute; intuition discriminate.
  - repeat constructor; vm_compute; intuition discriminate.
  - vm_compute. reflexivity.
  - vm_compute. reflexivity.
  - vm_compute. reflexivity.
  - split; [exact H1|]. destruct H2 as [off ->]; [repeat constructor|]. reflexivity.
Defined.

(** The documentation of [add_do_bit] says that it sets a flag of the record
    that is there; the record's options and its other flags are lost. *)
Lemma add_do_bit_drops_options : exists pkt,
  add_do_bit (write sample_query) 512 = Val (Ok pkt) /\
  i_options <$> find_pseudoheader (write sample_query) = Some [mkOpt 10 [Byte.x01; Byte.x02]] /\
  i_options <$> find_pseudoheader pkt = Some [].
Proof. eexists. split_and!; [vm_compute; reflexivity..]. Qed.

(** ** Client subnets: what is sent and what is accepted *)

Lemma of_be_app2 xs ys : of_be (xs ++ ys) = of_be xs * 256 ^ Z.of_nat (length ys) + of_be ys.
Proof.
  induction ys as [|y ys IH] using rev_ind; [rewrite app_nil_r; cbn; lia|].
  rewrite app_assoc, !of_be_app, IH, length_app. cbn [length].
  rewrite Nat2Z.inj_add, Z.pow_add_r by lia. change (256 ^ Z.of_nat 1) with 256. lia.
Qed.

Lemma of_be_zeros n : of_be (replicate n Byte.x00) = 0.
Proof.
  induction n as [|n IH]; [done|]. replace (S n) with (n + 1)%nat by lia.
  rewrite replicate_add, of_be_app2, IH. done.
Qed.

(** Clearing the low bits of one byte. *)
Definition clear8 (r : Z) (b : u8) : u8 := z8 (Z.land (u8z b) (u8z (z8 (Z.shiftl 0xff r)))).

Lemma clear8_spec r b : 0 <= r < 8 -> u8z (clear8 r b) = u8z b / 2 ^ r * 2 ^ r.
Proof.
  intros Hr. apply Z.eqb_eq. revert b. apply (byte_forall (fun b => u8z (clear8 r b) =? u8z b / 2 ^ r * 2 ^ r)).
  assert (r = 0 \/ r = 1 \/ r = 2 \/ r = 3 \/ r = 4 \/ r = 5 \/ r = 6 \/ r = 7) as H by lia.
  destruct H as [->|[->|[->|[->|[->|[->|[->| ->]]]]]]]; vm_compute; reflexivity.
Qed.

(** Clearing the low bits of an address clears them in the byte the mask ends
    in and in all that follow. *)
Lemma clear_low_bits A b C r : 0 <= r < 8 ->
  let s := 8 * Z.of_nat (length C) + r in
  of_be (A ++ [clear8 r b] ++ replicate (length C) Byte.x00) =
  Z.shiftl (Z.shiftr (of_be (A ++ [b] ++ C)) s) s.
Proof.
  intros Hr. cbn zeta. rewrite !of_be_app2, of_be_zeros, !length_app, length_replicate. cbn [length].
  rewrite Nat.add_1_l, !Nat2Z.inj_succ, !Z.pow_succ_r by lia.
  assert (forall x, of_be [x] = u8z x) as Hone by (intros; cbn; lia). rewrite !Hone, clear8_spec by done.
  pose proof (of_be_range C) as HC. set (k := 256 ^ Z.of_nat (length C)) in *.
  set (a := of_be A). set (c := of_be C) in *. set (x := u8z b). clearbody a c x.
  rewrite Z.shiftl_mul_pow2, Z.shiftr_div_pow2 by lia.
  rewrite Z.pow_add_r, Z.pow_mul_r by lia. change (2 ^ 8) with 256. fold k.
  rewrite <- Z.div_div by lia.
  replace (a * (256 * k) + (x * k + c)) with ((a * 256 + x) * k + c) by lia.
  rewrite Z.div_add_l, (Z.div_small c) by lia.
  assert (256 = 2 ^ (8 - r) * 2 ^ r) as E by (rewrite <- Z.pow_add_r by lia; replace (8 - r + r) with 8 by lia; done).
  rewrite E at 2. set (t := 2 ^ (8 - r)). assert (0 < 2 ^ r) by (apply Z.pow_pos_nonneg; lia).
  replace (a * (t * 2 ^ r) + x + 0) with (a * t * 2 ^ r + x) by lia. rewrite Z.div_add_l by lia.
  rewrite E. fold t. ring.
Qed.

(** The address bytes of an option whose prefix ends inside the address. *)
Lemma subnet_addr_bytes mask a : let os := octets a in
  1 <= mask <= 8 * Z.of_nat (length os) ->
  exists l b, (1 <= l <= length os)%nat /\ os !! (l - 1)%nat = Some b /\ Z.of_nat l = (mask - 1) / 8 + 1 /\
    let '(addr, len) := subnet_addr mask a in
    len = l /\ length addr = 16%nat /\ take l addr = take (l - 1) os ++ [clear8 (8 * Z.of_nat l - mask) b].
Proof.
  cbn zeta. set (os := octets a). intros Hm.
  assert (length os <= 16)%nat as Hos by (unfold os; destruct a; cbn [octets]; rewrite ?length_octets4, ?length_octets6; lia).
  set (l := Z.to_nat ((mask - 1) / 8 + 1)).
  assert (Z.of_nat l = (mask - 1) / 8 + 1) as El.
  { unfold l. rewrite Z2Nat.id; [done|]. pose proof (Z.div_pos (mask - 1) 8). lia. }
  assert (1 <= l <= length os)%nat as Hl by dlia.
  destruct (lookup_lt_is_Some_2 os (l - 1)) as [b Hb]; [lia|].
  exists l, b. split_and!; try done; try lia. unfold subnet_addr. fold os.
  rewrite Z.shiftr_div_pow2 by lia. change (2 ^ 3) with 8. fold l. rewrite Nat.min_l by lia.
  assert (take l (padded 16 os) = take l os) as ->.
  { unfold padded. rewrite Nat.min_l by lia. rewrite firstn_all, take_app_le by lia. done. }
  assert (take l os = take (l - 1) os ++ [b]) as ->.
  { replace l with (S (l - 1)) at 1 by lia. by apply take_S_r. }
  assert (length (take (l - 1) os) = (l - 1)%nat) as Ht by (rewrite length_take; lia).
  assert (Z.land mask 7 = mask mod 8) as E7 by (change 7 with (Z.ones 3); rewrite Z.land_ones by lia; done).
  split; [done|]. unfold mask_last. rewrite E7. destruct (Z.eqb_spec (mask mod 8) 0) as [E0|E0].
  - split; [rewrite !length_app, length_replicate, Ht; cbn; lia|].
    rewrite take_app_length' by (rewrite length_app, Ht; cbn; lia). do 2 f_equal.
    replace (8 * Z.of_nat l - mask) with 0 by dlia. apply u8z_inj. rewrite clear8_spec by lia. rewrite Z.div_1_r. lia.
  - rewrite <- app_assoc. rewrite alter_app_r_alt by lia. rewrite Ht, Nat.sub_diag. cbn [app alter list_alter].
    split; [rewrite length_app, Ht; cbn [length]; rewrite length_replicate; lia|].
    rewrite take_app_ge by lia. rewrite Ht. replace (l - (l - 1))%nat with 1%nat by lia. cbn [take]. rewrite take_0.
    do 2 f_equal. unfold clear8. do 3 f_equal. f_equal. f_equal. dlia.
Qed.

Definition ip_ok (a : IpAddr) : Prop := match a with V4 x => ip4_ok x | V6 x => ip6_ok x end.
Definition ip_bits (a : IpAddr) : Z := match a with V4 _ => 32 | V6 _ => 128 end.

(** The address with everything after its first [m] bits cleared. *)
Definition prefix_ip (a : IpAddr) (m : Z) : IpAddr :=
  let clear x w := Z.shiftl (Z.shiftr x (w - m)) (w - m) in
  match a with V4 x => V4 (clear x 32) | V6 x => V6 (clear x 128) end.

Definition ip_of (v6 : bool) (bytes : list u8) : IpAddr :=
  if v6 then V6 (of_be (padded 16 bytes)) else V4 (of_be (padded 4 bytes)).

Lemma ip_octets a : ip_ok a ->
  length (octets a) = (if is_v6 a then 16 else 4)%nat /\ ip_bits a = 8 * Z.of_nat (length (octets a)) /\
  match a with V4 x | V6 x => of_be (octets a) = x end.
Proof.
  destruct a; cbn [octets is_v6 ip_bits ip_ok]; intros H;
    rewrite ?length_octets4, ?length_octets6, ?octets4_of, ?octets6_of by done; done.
Qed.

(** An option as it goes on the wire, for the address family and prefix. *)
Lemma parse_ecs_wire v6 m scope bytes :
  parse_ecs_addr (to_be 2 (if v6 : bool then 2 else 1) ++ [z8 m] ++ [scope] ++ bytes) = Some (ip_of v6 bytes).
Proof. by destruct v6. Qed.

Lemma padded_prefix A b C n : (length (A ++ [b] ++ C) = n)%nat ->
  padded n (A ++ [b]) = A ++ [b] ++ replicate (length C) Byte.x00.
Proof.
  intros Hn. unfold padded. rewrite !length_app in *. cbn [length] in *.
  rewrite Nat.min_l, take_ge by (rewrite ?length_app; cbn; lia). rewrite <- app_assoc. do 3 f_equal. lia.
Qed.

Lemma ecs_prefix_only a m : ip_ok a -> 0 <= m <= ip_bits a ->
  parse_ecs_addr (build_ecs_payload a m) = Some (prefix_ip a m).
Proof.
  intros Ha Hm. destruct (ip_octets a Ha) as (Hlen & Hbits & Hof).
  unfold build_ecs_payload, calc_subnet_opt, subnet_choice. cbn [const_addr as_mask].
  replace (if is_v6 a then Some (mkAddSubnet m None) else Some (mkAddSubnet m None)) with (Some (mkAddSubnet m None))
    by (by destruct (is_v6 a)).
  cbn [const_addr as_mask]. destruct (Z.eqb_spec m 0) as [->|Hm0].
  - unfold to_wire. cbn [so_family so_source_netmask so_scope_netmask so_addr Nat.min take].
    rewrite parse_ecs_wire. destruct a as [x|x]; cbn [is_v6 ip_of prefix_ip padded length Nat.min]; do 2 f_equal.
    + rewrite Z.sub_0_r, Z.shiftr_div_pow2, Z.div_small by (try apply Ha; lia). done.
    + rewrite Z.sub_0_r, Z.shiftr_div_pow2, Z.div_small by (try apply Ha; lia). done.
  - destruct (subnet_addr_bytes m a) as (l & b & Hl & Hb & El & H); [lia|].
    destruct (subnet_addr m a) as [addr len]. destruct H as (-> & Hal & Ht).
    unfold to_wire. cbn [so_family so_source_netmask so_scope_netmask so_addr].
    rewrite Nat.min_l by (rewrite Hal; destruct (is_v6 a); lia). rewrite Ht, parse_ecs_wire.
    assert (octets a = take (l - 1) (octets a) ++ [b] ++ drop l (octets a)) as Eo.
    { rewrite <- (take_drop (l - 1) (octets a)) at 1. f_equal. rewrite (drop_S _ b) by done. cbn. do 2 f_equal. lia. }
    set (A := take (l - 1) (octets a)) in *. set (C := drop l (octets a)) in *.
    assert (length C = length (octets a) - l)%nat as HC by (unfold C; by rewrite length_drop).
    assert (0 <= 8 * Z.of_nat l - m < 8) as Hr by dlia.
    pose proof (clear_low_bits A b C _ Hr) as Hclear. rewrite <- Eo in Hclear. cbn zeta in Hclear.
    replace (8 * Z.of_nat (length C) + (8 * Z.of_nat l - m)) with (ip_bits a - m) in Hclear by lia.
    assert (length (A ++ [b] ++ C) = length (octets a)) as Hlo by (by rewrite <- Eo).
    destruct a as [x|x]; cbn [is_v6 ip_of prefix_ip ip_bits] in *; do 2 f_equal;
      rewrite (padded_prefix A _ C), Hclear, Hof; try done; by rewrite <- Hlen, <- Hlo, !length_app.
Qed.

(** The sent option with the scope a server may have put in it. *)
Definition echo (o : SubnetOpt) (len : nat) (scope : u8) : list u8 :=
  to_wire (mkSubnet (so_family o) (so_source_netmask o) (u8z scope) (so_addr o)) len.

Lemma ecs_matches_spec exp len data : 0 <= so_source_netmask exp < 256 -> (len <= length (so_addr exp))%nat ->
  ecs_matches exp len data = true <-> exists scope, data = echo exp len scope.
Proof.
  intros Hm Hl. unfold ecs_matches, echo, to_wire. cbn [so_family so_source_netmask so_scope_netmask so_addr].
  rewrite Nat.min_l by done.
  assert (length (take len (so_addr exp)) = len) as Ht by (rewrite length_take; lia).
  split.
  - destruct (Nat.eqb_spec (length data) (len + 4)) as [E|]; cbn [negb orb]; [|done].
    destruct (Nat.ltb_spec (length data) 4); [done|].
    intros [[H1%bool_decide_eq_true H2%Z.eqb_eq]%andb_true_iff H3%bool_decide_eq_true]%andb_true_iff.
    destruct data as [|x [|y [|m [|s rest]]]]; cbn [length] in *; try lia.
    cbn [take drop] in H1, H3. unfold u8_at in H2. cbn [drop take of_be fold_left] in H2.
    exists s. rewrite <- H1, <- H3, <- H2. rewrite z8_u8z. cbn [app]. f_equal. f_equal. rewrite Z.add_0_l, z8_u8z. done.
  - intros [s ->]. rewrite !length_app, length_to_be, Ht. cbn [length].
    rewrite (proj2 (Nat.eqb_eq _ _)), (proj2 (Nat.ltb_ge _ _)) by lia. cbn [negb orb].
    rewrite !andb_true_iff, !bool_decide_eq_true, Z.eqb_eq, to_be_2. split_and!; [done| |done].
    unfold u8_at. cbn [app drop take of_be fold_left]. rewrite u8z_z8_small by done. lia.
Qed.

Definition subnet_cfg_ok (s : option AddSubnetOpt) : Prop :=
  match s with Some c => 0 <= as_mask c < 256 | None => True end.

Lemma subnet_addr_length m a : length (subnet_addr m a).1 = 16%nat /\ ((subnet_addr m a).2 <= 16)%nat.
Proof.
  unfold subnet_addr. cbn [fst snd]. split; [|lia]. unfold mask_last.
  assert (forall k, (k <= 16)%nat -> length (take k (padded 16 (octets a)) ++ replicate (16 - k) Byte.x00) = 16%nat) as Hk.
  { intros k Hk. rewrite length_app, length_replicate, length_take. unfold padded.
    rewrite length_app, length_replicate, length_take. destruct a; cbn [octets];
      rewrite ?length_octets4, ?length_octets6; lia. }
  destruct (Z.land m 7 =? 0); rewrite ?length_alter; apply Hk; lia.
Qed.

Lemma calc_subnet_bounds source s4 s6 opt c len : subnet_cfg_ok s4 -> subnet_cfg_ok s6 ->
  calc_subnet_opt source s4 s6 = (opt, c, len) ->
  0 <= so_source_netmask opt < 256 /\ length (so_addr opt) = 16%nat /\ (len <= 16)%nat.
Proof.
  intros H4 H6. unfold calc_subnet_opt, subnet_choice.
  assert (subnet_cfg_ok (if is_v6 source then s6 else s4)) as Hs by (by destruct (is_v6 source)).
  pose proof subnet_addr_length as Hsub.
  destruct (if is_v6 source then s6 else s4) as [[m [ca|]]|]; cbn [const_addr as_mask subnet_cfg_ok] in *.
  - destruct (m =? 0); [intros [= <- <- <-]; cbn; split_and!; lia || done|].
    destruct (subnet_addr m ca) eqn:E. pose proof (Hsub m ca) as [? ?]. rewrite E in *. intros [= <- <- <-]. done.
  - destruct (m =? 0); [intros [= <- <- <-]; cbn; split_and!; lia || done|].
    destruct (subnet_addr m source) eqn:E. pose proof (Hsub m source) as [? ?]. rewrite E in *. intros [= <- <- <-]. done.
  - intros [= <- <- <-]. cbn. split_and!; lia || done.
Qed.

(** The client subnet option reveals exactly the configured prefix: read
    back, it is the client's address with all later bits cleared. A reply is
    accepted exactly when each client subnet option in it is the option that
    was sent, the server's scope apart, and a reply without a pseudo record is
    always accepted. *)
Theorem client_subnet_spec a m pkt peer s4 s6 opt c len :
  ip_ok a -> 0 <= m <= ip_bits a -> subnet_cfg_ok s4 -> subnet_cfg_ok s6 ->
  calc_subnet_opt peer s4 s6 = (opt, c, len) ->
  parse_ecs_addr (build_ecs_payload a m) = Some (prefix_ip a m) /\
  (check_source pkt (Some peer) s4 s6 = true <->
   forall info o, find_pseudoheader pkt = Some info -> o ∈ i_options info ->
     o_code o = EDNS0_OPTION_CLIENT_SUBNET -> exists scope, o_data o = echo opt len scope).
Proof.
  intros Ha Hm H4 H6 Ec. split; [by apply ecs_prefix_only|].
  destruct (calc_subnet_bounds _ _ _ _ _ _ H4 H6 Ec) as (B1 & B2 & B3). unfold check_source.
  destruct (find_pseudoheader pkt) as [info|]; [|split; [intros _ ? ? [=]|done]].
  cbn [fmap option_fmap option_map]. rewrite Ec, forallb_forall. split.
  - intros H info' o [= <-] Ho%list_elem_of_In Hc. apply H in Ho. rewrite Hc, Z.eqb_refl in Ho. cbn [negb] in Ho.
    apply ecs_matches_spec in Ho; [done|done|lia].
  - intros H o Ho%list_elem_of_In. destruct (Z.eqb_spec (o_code o) EDNS0_OPTION_CLIENT_SUBNET) as [E|]; [|done].
    cbn [negb]. apply ecs_matches_spec; [done|lia|]. by apply (H info).
Qed.

Lemma client_subnet_spec_witness :
  let s := Some (mkAddSubnet 20 None) in
  prefix_ip (V4 3232301055) 20 = V4 3232296960 /\
  parse_ecs_addr (build_ecs_payload (V4 3232301055) 20) = Some (V4 3232296960) /\
  check_source (write (with_opt sample_query 512 0
    [mkOpt 8 (to_be 2 1 ++ [Byte.x14; Byte.x18; Byte.xc0; Byte.xa8; Byte.xf0])])) (Some (V4 3232301055)) s None = true.
Proof.
  cbn zeta. split; [reflexivity|].
  destruct (calc_subnet_opt (V4 3232301055) (Some (mkAddSubnet 20 None)) None) as [[opt c] len] eqn:E.
  destruct (client_subnet_spec (V4 3232301055) 20 (write (with_opt sample_query 512 0
    [mkOpt 8 (to_be 2 1 ++ [Byte.x14; Byte.x18; Byte.xc0; Byte.xa8; Byte.xf0])])) (V4 3232301055)
    (Some (mkAddSubnet 20 None)) None opt c len) as [H1 H2]; [vm_compute; intuition discriminate..|exact E|].
  split; [exact H1|]. apply H2. intros info o Hi Ho _. vm_compute in E. injection E as <- <- <-.
  vm_compute in Hi. injection Hi as <-. apply list_elem_of_singleton in Ho as ->.
  exists Byte.x18. reflexivity.
Defined.

(** The documentation of [add_edns0_config] says the answer is not cacheable
    once a client-dependent option was added; a constant client subnet makes it
    cacheable again although the client's hardware address is in the query. *)
Lemma cacheable_despite_mac :
  add_edns0_config [] (V4 1) (Some [Byte.x01])
    (mkQueryConfig true false false false true false (Some (mkAddSubnet 24 (Some (V4 0)))) None None
       false false 0 0 []) =
  ([mkOpt EDNS0_OPTION_MAC [Byte.x01]; mkOpt EDNS0_OPTION_CLIENT_SUBNET [Byte.x00; Byte.x01; Byte.x18; Byte.x00; Byte.x00; Byte.x00; Byte.x00]], true).
Proof. reflexivity. Qed.

(** A header that claims 65535 additional records makes the count overflow. *)
Lemma add_pseudoheader_overflow :
  add_pseudoheader (to_bytes (mkHeader 1 Byte.x01 Byte.x00 0 0 0 65535)) 512 0 [] = Panic.
Proof. reflexivity. Qed.

(** A pseudo record whose options cannot be read is not replaced: a second one
    is appended to it. *)
Lemma unreadable_opt_kept : exists pkt,
  add_pseudoheader (write (mkPacket (mkHeader 1 Byte.x01 Byte.x00 0 0 0 0) [] [] []
    [mkRr [] 41 512 0 [Byte.x00]])) 512 0 [] = Val (Ok pkt) /\
  arcount <$> from_bytes pkt = Some 2.
Proof. eexists. split; [vm_compute; reflexivity|reflexivity]. Qed.
