(* ===== verification/RrFilter.v ===== *)
(** * Removing records from a reply: src/src/rrfilter.rs

    The four passes of [filter_with] (choose the records, check that no kept
    name points into one, rewrite the compression pointers, move the kept bytes
    down) and the three filters built on them. *)

From Stdlib Require Import ZArith Lia String.
From stdpp Require Import base numbers list option gmap sets strings.
From S2P Require Import Prelude ByteCursor DnsProtocol Rfc1035 Types Edns0.

#[local] Open Scope Z_scope.

(** The body of [skip_questions_to] is that of edns0.rs's [skip_questions]. *)
Definition skip_questions_to (pkt : list u8) (offset : nat) (count : nat) : result nat DnsError :=
  skip_questions pkt offset count.

(** Byte ranges of the elided records, ascending. *)
Notation Elided := (list (nat * nat)).

(** [off - delta] does not underflow: see [shift_loop_bound]. *)
Fixpoint shift_loop (elided : Elided) (off delta : nat) : option nat :=
  match elided with
  | [] => Some (off - delta)%nat
  | (start, end_) :: rest =>
    if (off <? start)%nat then Some (off - delta)%nat
    else if (off <? end_)%nat then None
    else shift_loop rest off (delta + (end_ - start))
  end.

Definition shift_offset (elided : Elided) (off : nat) : option nat := shift_loop elided off 0.

(** The rewritten pointer. *)
Definition put_pointer (pkt : list u8) (pos shifted : nat) : list u8 :=
  <[S pos := z8 (Z.land (Z.of_nat shifted) 0xFF)]>
    (<[pos := z8 (Z.lor (u8z (z8 (Z.shiftr (Z.of_nat shifted) 8))) 0xC0)]> pkt).

(** One pass over a name: [None] is the source's [false], otherwise the packet
    and the position after the name. Every iteration that continues moves
    forward, so that [length pkt + 1] iterations are enough. *)
Fixpoint check_name_loop (fuel : nat) (pkt : list u8) (pos : nat) (elided : Elided) (fixup : bool)
    : option (option (list u8 * nat)) :=
  match fuel with
  | O => None
  | S f =>
    match pkt !! pos with
    | None => Some None
    | Some b =>
      let kind := Z.land (u8z b) 0xC0 in
      if kind =? 0xC0 then
        if (length pkt <? pos + 2)%nat then Some None
        else
          let offset := Z.to_nat (Z.lor (Z.shiftl (Z.land (u8z b) 0x3F) 8) (u8_at pkt (pos + 1))) in
          match shift_offset elided offset with
          | None => Some None
          | Some shifted => Some (Some (if fixup then put_pointer pkt pos shifted else pkt, (pos + 2)%nat))
          end
      else if kind =? 0x80 then Some None
      else if kind =? 0x40 then
        if (length pkt <? pos + 2)%nat || negb (Z.land (u8z b) 0x3F =? 1) then Some None
        else
          let count := u8_at pkt (pos + 1) in
          let pos := (pos + 2)%nat in
          let bytes := if count =? 0 then 32%nat else Z.to_nat (Z.shiftr (count - 1) 3 + 1) in
          if (length pkt <? pos + bytes)%nat then Some None
          else check_name_loop f pkt (pos + bytes) elided fixup
      else
        let len := Z.to_nat (Z.land (u8z b) 0x3F) in
        let pos := (pos + 1)%nat in
        if (length pkt <? pos + len)%nat then Some None
        else if (len =? 0)%nat then Some (Some (pkt, (pos + len)%nat))
        else check_name_loop f pkt (pos + len) elided fixup
    end
  end.

Definition check_name (pkt : list u8) (pos : nat) (elided : Elided) (fixup : bool) : option (list u8 * nat) :=
  match check_name_loop (S (length pkt)) pkt pos elided fixup with
  | Some r => r
  | None => None
  end.

Definition rrfilter_desc (rtype : Z) : list nat :=
  if bool_decide (rtype ∈ [2; 3; 4; 5; 7; 8; 9; 12; 30; 39]) then [0]%nat
  else if bool_decide (rtype ∈ [6; 14; 17]) then [0; 0]%nat
  else if bool_decide (rtype ∈ [15; 18; 21; 36]) then [2; 0]%nat
  else if rtype =? 24 then [18; 0]%nat
  else if rtype =? 26 then [2; 0; 0]%nat
  else if rtype =? 33 then [6; 0]%nat
  else [].

(** The loop over the layout of a record's rdata. *)
Fixpoint check_rdata (desc : list nat) (pkt : list u8) (rdata_pos : nat) (elided : Elided) (fixup : bool)
    : option (list u8) :=
  match desc with
  | [] => Some pkt
  | step :: rest =>
    if (step =? 0)%nat then
      let! (pkt, rdata_pos) := check_name pkt rdata_pos elided fixup in
      check_rdata rest pkt rdata_pos elided fixup
    else
      let rdata_pos := (rdata_pos + step)%nat in
      if (length pkt <? rdata_pos)%nat then None else check_rdata rest pkt rdata_pos elided fixup
  end.

(** The names of one record that is kept. *)
Definition check_rr (pkt : list u8) (rr_start pos : nat) (rtype class : Z) (elided : Elided) (fixup : bool)
    : option (list u8) :=
  let! (pkt, _) := check_name pkt rr_start elided fixup in
  if class =? 1 then check_rdata (rrfilter_desc rtype) pkt pos elided fixup else Some pkt.

Definition starts_elided (elided : Elided) (rr_start : nat) : bool :=
  existsb (fun e => (e.1 =? rr_start)%nat) elided.

Fixpoint check_rrs (total : nat) (pkt : list u8) (pos : nat) (elided : Elided) (fixup : bool) : option (list u8) :=
  match total with
  | O => Some pkt
  | S n =>
    let rr_start := pos in
    let! pos := ok (skip_name pkt pos) in
    if (length pkt <? pos + 10)%nat then None
    else
      let rtype := be16_at pkt pos in
      let class := be16_at pkt (pos + 2) in
      let rdlen := Z.to_nat (be16_at pkt (pos + 8)) in
      let pos := (pos + 10)%nat in
      let! pkt := if starts_elided elided rr_start then Some pkt
                  else check_rr pkt rr_start pos rtype class elided fixup in
      if (length pkt <? pos + rdlen)%nat then None
      else check_rrs n pkt (pos + rdlen) elided fixup
  end.

Inductive Verdict : Type := Keep | Remove | Stop.

Record Question : Type := mkFQuestion { fq_qtype : Z; fq_qclass : Z }.

(** [decide] of the three filters: index, type and class of a record. *)
Notation Decider := (nat -> Z -> Z -> Question -> Verdict).

(** Pass 1: the elided ranges and how many of each section they are. *)
Fixpoint choose (count i : nat) (decide : Decider) (q : Question) (an ns : nat) (pkt : list u8) (pos : nat)
    (elided : Elided) (chop : nat * nat * nat) : result (Elided * (nat * nat * nat)) DnsError :=
  match count with
  | O => Ok (elided, chop)
  | S n =>
    let start := pos in
    let? pos := skip_name pkt pos in
    if (length pkt <? pos + 10)%nat then Err PacketTooShort
    else
      let rtype := be16_at pkt pos in
      let class := be16_at pkt (pos + 2) in
      let rdlen := Z.to_nat (be16_at pkt (pos + 8)) in
      let pos := (pos + (10 + rdlen))%nat in
      if (length pkt <? pos)%nat then Err UnexpectedEof
      else
        match decide i rtype class q with
        | Keep => choose n (S i) decide q an ns pkt pos elided chop
        | Stop => Ok (elided, chop)
        | Remove =>
          let '(a, b, c) := chop in
          let chop := if (i <? an)%nat then (S a, b, c) else if (i <? an + ns)%nat then (a, S b, c) else (a, b, S c) in
          choose n (S i) decide q an ns pkt pos (elided ++ [(start, pos)]) chop
        end
  end.

(** The names of the questions, then those of the records. *)
Fixpoint check_questions (qdcount : nat) (work : list u8) (p : nat) (elided : Elided) (fixup : bool)
    : option (list u8 * nat) :=
  match qdcount with
  | O => Some (work, p)
  | S n =>
    let! (work, p) := check_name work p elided fixup in
    check_questions n work (p + 4) elided fixup
  end.

Definition check_pass (qdcount total : nat) (work : list u8) (elided : Elided) (fixup : bool) : option (list u8) :=
  let! (work, p) := check_questions qdcount work 12 elided fixup in
  check_rrs total work p elided fixup.

(** Pass 4: the bytes outside the elided ranges, which are ascending. *)
Fixpoint compact (elided : Elided) (work : list u8) (cursor : nat) : list u8 :=
  match elided with
  | [] => drop cursor work
  | (start, end_) :: rest => take (start - cursor) (drop cursor work) ++ compact rest work end_
  end.

(** [out[at..at + 2].copy_from_slice(&n.to_be_bytes())]. *)
Definition put_be16 (out : list u8) (at_ : nat) (n : Z) : list u8 :=
  <[S at_ := z8 n]> (<[at_ := z8 (n / 256)]> out).

Definition read_question (pkt : list u8) : result Question DnsError :=
  let? qpos := skip_name pkt 12 in
  if (length pkt <? qpos + 4)%nat then Err PacketTooShort
  else Ok (mkFQuestion (be16_at pkt qpos) (be16_at pkt (qpos + 2))).

Definition filter_with (pkt : list u8) (decide : Decider) : result (list u8 * nat) DnsError :=
  let? hdr := ok_or (from_bytes pkt) PacketTooShort in
  if negb (qdcount hdr =? 1) then Ok (pkt, O)
  else
    let qd := Z.to_nat (qdcount hdr) in
    let? pos := skip_questions_to pkt 12 qd in
    let? question := read_question pkt in
    let an := Z.to_nat (ancount hdr) in
    let ns := Z.to_nat (nscount hdr) in
    let total := (an + ns + Z.to_nat (arcount hdr))%nat in
    let? (elided, chop) := choose total 0 decide question an ns pkt pos [] (O, O, O) in
    if (length elided =? 0)%nat then Ok (pkt, O)
    else
      match (let! work := check_pass qd total pkt elided false in check_pass qd total work elided true) with
      | None => Ok (pkt, O)
      | Some work =>
        let out := compact elided work 0 in
        let '(a, b, c) := chop in
        let out := put_be16 out 6 (ancount hdr - Z.of_nat a) in
        let out := put_be16 out 8 (nscount hdr - Z.of_nat b) in
        let out := put_be16 out 10 (arcount hdr - Z.of_nat c) in
        Ok (out, length elided)
      end.

(** ** The filters *)

Definition filter_rr_types (pkt : list u8) (remove_types : list Z) : result (list u8) DnsError :=
  if (length pkt <? 12)%nat then Err PacketTooShort
  else if (length remove_types =? 0)%nat then Ok pkt
  else
    let? hdr := ok_or (from_bytes pkt) PacketTooShort in
    let additional_start := (Z.to_nat (ancount hdr) + Z.to_nat (nscount hdr))%nat in
    let? (out, _) := filter_with pkt (fun i rtype _ _ =>
      if (i <? additional_start)%nat || negb (bool_decide (rtype ∈ remove_types)) then Keep else Remove) in
    Ok out.

Definition is_dnssec_type (rtype : Z) : bool :=
  (rtype =? RrType_as T_RRSIG) || (rtype =? RrType_as T_NSEC) || (rtype =? RrType_as T_NSEC3).

Definition dnssec_decide (ancount : nat) : Decider := fun i rtype class q =>
  if negb (is_dnssec_type rtype) then Keep
  else if (i <? ancount)%nat && (rtype =? fq_qtype q) && (class =? fq_qclass q) then Keep
  else Remove.

Definition strip_dnssec_if_not_requested (pkt : list u8) : result (list u8) DnsError :=
  let requested := match find_pseudoheader pkt with
                   | Some info => negb (Z.land (i_flags info) 0x8000 =? 0)
                   | None => false
                   end in
  if requested then Ok pkt
  else
    let? hdr := ok_or (from_bytes pkt) PacketTooShort in
    let? (out, _) := filter_with pkt (dnssec_decide (Z.to_nat (ancount hdr))) in
    Ok out.

Definition conf_decide (filter_rr : list Z) (ancount : nat) : Decider := fun i rtype class q =>
  let any_query := bool_decide (RrType_as T_ANY ∈ filter_rr) in
  if (fq_qtype q =? RrType_as T_ANY) && any_query then
    let keep := negb (class =? 1) || (rtype =? RrType_as T_A) || (rtype =? RrType_as T_AAAA)
                || (rtype =? RrType_as T_MX) || (rtype =? RrType_as T_CNAME) in
    if keep then Keep else Remove
  else if (ancount <=? i)%nat then Stop
  else if (class =? 1) && bool_decide (rtype ∈ filter_rr) then Remove else Keep.

Definition filter_configured_rr_types (pkt : list u8) (filter_rr : list Z) : result (list u8 * nat) DnsError :=
  if (length pkt <? 12)%nat then Err PacketTooShort
  else if (length filter_rr =? 0)%nat then Ok (pkt, O)
  else
    let? hdr := ok_or (from_bytes pkt) PacketTooShort in
    filter_with pkt (conf_decide filter_rr (Z.to_nat (ancount hdr))).

(** ** Names without pointers *)

Lemma label_octet_land l : label_ok l ->
  let b := z8 (Z.of_nat (length l)) in
  Z.land (u8z b) 0xC0 = 0 /\ Z.to_nat (Z.land (u8z b) 0x3F) = length l.
Proof.
  intros Hl. destruct (label_octet l Hl) as [E1 E2]. cbn zeta. rewrite E1. split; [done|].
  destruct Hl as [[H1 H2] _]. change 0x3F with (Z.ones 6). rewrite Z.land_ones, Z.mod_small by lia. lia.
Qed.

Lemma check_labels_enc ls : forall pre post fuel el fx, Forall label_ok ls -> (length ls < fuel)%nat ->
  let pkt := pre ++ enc_labels ls ++ Byte.x00 :: post in
  check_name_loop fuel pkt (length pre) el fx = Some (Some (pkt, (length pre + labels_wire ls + 1)%nat)).
Proof.
  induction ls as [|l ls IH]; intros pre post [|fuel] el fx Hok Hf; cbn [length] in Hf; try lia; cbn zeta; cbn [check_name_loop].
  - change (enc_labels []) with (@nil u8). cbn [app]. rewrite list_lookup_middle by done.
    change (Z.land (u8z Byte.x00) 0xC0) with 0. change (Z.to_nat (Z.land (u8z Byte.x00) 0x3F)) with O.
    change (0 =? 0xC0) with false. change (0 =? 0x80) with false. change (0 =? 0x40) with false. cbn [orb Nat.eqb].
    rewrite (proj2 (Nat.ltb_ge _ _)) by (rewrite length_app; cbn [length]; lia). do 3 f_equal.
    unfold labels_wire. cbn. lia.
  - inversion_clear Hok as [|? ? Hl Hls]. rewrite enc_labels_cons. cbn [app].
    rewrite list_lookup_middle by done. destruct (label_octet_land l Hl) as [E1 E2]. rewrite E1, E2.
    change (0 =? 0xC0) with false. change (0 =? 0x80) with false. change (0 =? 0x40) with false. cbn [orb].
    set (b := z8 (Z.of_nat (length l))) in *.
    rewrite (proj2 (Nat.ltb_ge _ _)) by (rewrite !length_app; cbn [length]; rewrite !length_app; lia).
    destruct Hl as [[Hl1 Hl2] Hu]. rewrite (proj2 (Nat.eqb_neq _ _)) by lia.
    replace (pre ++ b :: (l ++ enc_labels ls) ++ Byte.x00 :: post)
      with ((pre ++ b :: l) ++ enc_labels ls ++ Byte.x00 :: post) by (by rewrite <- !app_assoc).
    replace (length pre + 1 + length l)%nat with (length (pre ++ b :: l)) by (rewrite length_app; cbn; lia).
    rewrite (IH (pre ++ b :: l)) by (done || lia). do 3 f_equal. rewrite length_app, labels_wire_cons. cbn [length]. lia.
Qed.

Lemma check_name_enc pre n post el fx : name_ok n ->
  check_name (pre ++ enc_name n ++ post) (length pre) el fx =
    Some (pre ++ enc_name n ++ post, (length pre + length (enc_name n))%nat).
Proof.
  intros Hn. unfold check_name, enc_name. case_decide as E.
  - rewrite app_nil_l. cbn [app]. pose proof (check_labels_enc [] pre post (S (length (pre ++ Byte.x00 :: post))) el fx) as H.
    cbn zeta in H. change (enc_labels []) with (@nil u8) in H. cbn [app] in H.
    rewrite H; [|constructor|cbn; lia]. do 3 f_equal. unfold labels_wire. cbn. lia.
  - destruct Hn as [?|[Hl _]]; [done|]. rewrite <- app_assoc. cbn [app].
    rewrite (check_labels_enc (split_on dot n)); [|done|].
    + do 2 f_equal. rewrite length_app, length_enc_labels. cbn. lia.
    + rewrite !length_app, length_enc_labels. pose proof (length_labels_wire (split_on dot n)). lia.
Qed.

(** Rdata that has the layout [rrfilter_desc] gives for its type, with names
    that are not compressed. *)
Fixpoint desc_ok (desc : list nat) (rd : list u8) : Prop :=
  match desc with
  | [] => True
  | O :: rest => exists n rd', name_ok n /\ rd = enc_name n ++ rd' /\ desc_ok rest rd'
  | step :: rest => (step <= length rd)%nat /\ desc_ok rest (drop step rd)
  end.

Definition layout_ok (rr : DnsRr) : Prop := class rr = 1 -> desc_ok (rrfilter_desc (rtype rr)) (rdata rr).

Lemma check_rdata_enc desc el fx : forall pre rd post, desc_ok desc rd ->
  check_rdata desc (pre ++ rd ++ post) (length pre) el fx = Some (pre ++ rd ++ post).
Proof.
  induction desc as [|[|step] desc IH]; intros pre rd post Hd; cbn [check_rdata desc_ok] in *; [done| |].
  - destruct Hd as (n & rd' & Hn & -> & Hd). cbn [Nat.eqb]. rewrite <- app_assoc, check_name_enc by done.
    rewrite app_assoc, <- length_app. by apply IH.
  - destruct Hd as [Hl Hd]. cbn [Nat.eqb]. rewrite (proj2 (Nat.ltb_ge _ _)) by (rewrite !length_app; lia).
    rewrite <- (take_drop (S step) rd) at 1 2. rewrite <- app_assoc, app_assoc.
    replace (length pre + S step)%nat with (length (pre ++ take (S step) rd))
      by (rewrite length_app, length_take; lia).
    by apply IH.
Qed.

Lemma enc_rr_split rr : exists fixed, length fixed = 10%nat /\ enc_rr rr = enc_name (r_name rr) ++ fixed ++ rdata rr.
Proof.
  exists (to_be 2 (rtype rr) ++ to_be 2 (class rr) ++ to_be 4 (ttl rr) ++ to_be 2 (Z.of_nat (length (rdata rr)))).
  split; [by rewrite !length_app, !length_to_be|]. unfold enc_rr. by rewrite <- !app_assoc.
Qed.

Lemma check_rr_enc pre rr post el fx : rr_ok rr -> layout_ok rr ->
  let p := (length pre + length (enc_name (r_name rr)))%nat in
  check_rr (pre ++ enc_rr rr ++ post) (length pre) (p + 10) (rtype rr) (class rr) el fx = Some (pre ++ enc_rr rr ++ post).
Proof.
  intros (Hn & _) Hly. cbn zeta. destruct (enc_rr_split rr) as (fixed & Hf & E). rewrite E.
  unfold check_rr. rewrite <- !app_assoc, check_name_enc by done.
  destruct (Z.eqb_spec (class rr) 1) as [Ec|]; [|done].
  rewrite (app_assoc pre), (app_assoc (pre ++ _)).
  replace (length pre + length (enc_name (r_name rr)) + 10)%nat
    with (length ((pre ++ enc_name (r_name rr)) ++ fixed)) by (rewrite !length_app; lia).
  by apply check_rdata_enc, Hly.
Qed.

Lemma check_rrs_enc rrs el fx : forall pre post, Forall rr_ok rrs -> Forall layout_ok rrs ->
  fits (pre ++ concat (enc_rr <$> rrs) ++ post) ->
  check_rrs (length rrs) (pre ++ concat (enc_rr <$> rrs) ++ post) (length pre) el fx =
    Some (pre ++ concat (enc_rr <$> rrs) ++ post).
Proof.
  induction rrs as [|rr rrs IH]; intros pre post Hr Hly Hf; cbn [fmap list_fmap concat length check_rrs]; [done|].
  inversion_clear Hr as [|? ? Hr1 Hr2]. inversion_clear Hly as [|? ? Hl1 Hl2]. cbn [fmap list_fmap concat] in Hf.
  rewrite <- (app_assoc (enc_rr rr)) in *.
  destruct (rr_fields pre rr (concat (enc_rr <$> rrs) ++ post)) as (-> & Et & Ec & _ & El & _ & E & L); [done|done|].
  cbn [ok]. rewrite (proj2 (Nat.ltb_ge _ _)) by lia. rewrite Et, Ec, El, Nat2Z.id, check_rr_enc by done.
  rewrite Tauto.if_same.
  rewrite (proj2 (Nat.ltb_ge _ _)) by lia. rewrite E, <- length_app, (app_assoc pre).
  apply IH; [done|done|]. by rewrite (app_assoc pre) in Hf.
Qed.

(** ** The reference filter, on records *)

(** Which of some records go; from a [Stop] on all are kept. *)
Fixpoint removed (decide : Decider) (q : Question) (i : nat) (rrs : list DnsRr) : list bool :=
  match rrs with
  | [] => []
  | rr :: rest =>
    match decide i (rtype rr) (class rr) q with
    | Keep => false :: removed decide q (S i) rest
    | Remove => true :: removed decide q (S i) rest
    | Stop => replicate (S (length rest)) false
    end
  end.

Fixpoint keep_by {A} (fl : list bool) (l : list A) : list A :=
  match fl, l with
  | b :: fl, x :: l => if b then keep_by fl l else x :: keep_by fl l
  | _, _ => []
  end.

Definition cnt (fl : list bool) : nat := length (List.filter (fun b : bool => b) fl).

(** The byte ranges of the removed records, and their number per section. *)
Fixpoint ranges (off : nat) (fl : list bool) (rrs : list DnsRr) : Elided :=
  match fl, rrs with
  | b :: fl, rr :: rrs =>
    let e := (off + length (enc_rr rr))%nat in
    if b then (off, e) :: ranges e fl rrs else ranges e fl rrs
  | _, _ => []
  end.

Fixpoint chops (an ns i : nat) (fl : list bool) (chop : nat * nat * nat) : nat * nat * nat :=
  match fl with
  | [] => chop
  | b :: fl =>
    let '(x, y, z) := chop in
    chops an ns (S i) fl
      (if b then (if (i <? an)%nat then (S x, y, z) else if (i <? an + ns)%nat then (x, S y, z) else (x, y, S z)) else chop)
  end.

Lemma length_removed decide q rrs : forall i, length (removed decide q i rrs) = length rrs.
Proof.
  induction rrs as [|rr rrs IH]; intros i; cbn [removed]; [done|].
  destruct (decide _ _ _ _); cbn [length]; [by rewrite IH..|]. by rewrite length_replicate.
Qed.

Lemma ranges_false n : forall off rrs, ranges off (replicate n false) rrs = [].
Proof. induction n as [|n IH]; intros off [|rr rrs]; cbn; auto. Qed.
Lemma chops_false an ns n : forall i c, chops an ns i (replicate n false) c = c.
Proof. induction n as [|n IH]; intros i [[x y] z]; cbn; auto. Qed.

Lemma choose_enc decide q an ns rrs : forall i pre post el chop, Forall rr_ok rrs ->
  fits (pre ++ concat (enc_rr <$> rrs) ++ post) ->
  choose (length rrs) i decide q an ns (pre ++ concat (enc_rr <$> rrs) ++ post) (length pre) el chop =
    Ok (el ++ ranges (length pre) (removed decide q i rrs) rrs, chops an ns i (removed decide q i rrs) chop).
Proof.
  induction rrs as [|rr rrs IH]; intros i pre post el chop Hr Hf; cbn [fmap list_fmap concat length choose].
  { cbn. by rewrite app_nil_r. }
  inversion_clear Hr as [|? ? Hr1 Hr2]. cbn [fmap list_fmap concat] in Hf. rewrite <- (app_assoc (enc_rr rr)) in *.
  destruct (rr_fields pre rr (concat (enc_rr <$> rrs) ++ post)) as (-> & Et & Ec & _ & El & _ & E & L); [done|done|].
  rewrite (proj2 (Nat.ltb_ge _ _)) by lia. rewrite Et, Ec, El, Nat2Z.id, Nat.add_assoc, E.
  rewrite (proj2 (Nat.ltb_ge _ _)) by lia. rewrite <- length_app, (app_assoc pre) in *.
  cbn [removed]. destruct chop as [[x y] z]. destruct (decide i (rtype rr) (class rr) q); cbn [chops ranges].
  - rewrite IH, length_app by done. done.
  - rewrite IH, length_app, <- app_assoc by done. done.
  - cbn [replicate chops ranges]. rewrite ranges_false, chops_false, app_nil_r. done.
Qed.

Lemma compact_enc rrs : forall fl pre mid, length fl = length rrs ->
  compact (ranges (length (pre ++ mid)) fl rrs) (pre ++ mid ++ concat (enc_rr <$> rrs)) (length pre) =
    mid ++ concat (enc_rr <$> keep_by fl rrs).
Proof.
  induction rrs as [|rr rrs IH]; intros [|b fl] pre mid Hl; cbn [length] in Hl; try lia;
    cbn [fmap list_fmap concat ranges keep_by].
  - cbn [compact]. by rewrite drop_app_length.
  - rewrite <- length_app. destruct b; cbn [compact].
    + rewrite drop_app_length. replace (length (pre ++ mid) - length pre)%nat with (length mid) by (rewrite length_app; lia).
      rewrite take_app_length. f_equal.
      pose proof (IH fl ((pre ++ mid) ++ enc_rr rr) []) as H. rewrite app_nil_r in H. cbn [app] in H.
      rewrite <- H by lia. by rewrite <- !app_assoc.
    + pose proof (IH fl pre (mid ++ enc_rr rr)) as H. rewrite app_assoc, <- (app_assoc mid) in H.
      cbn [fmap list_fmap concat]. rewrite H by lia. by rewrite <- app_assoc.
Qed.

Lemma length_ranges fl : forall off rrs, length fl = length rrs -> length (ranges off fl rrs) = cnt fl.
Proof.
  induction fl as [|[] fl IH]; intros off [|rr rrs] Hl; cbn [length ranges] in *; try lia; [done| |];
    unfold cnt; cbn [List.filter length]; rewrite IH by lia; done.
Qed.

Lemma chops_app an ns fl1 fl2 : forall i c,
  chops an ns i (fl1 ++ fl2) c = chops an ns (i + length fl1) fl2 (chops an ns i fl1 c).
Proof.
  induction fl1 as [|b fl1 IH]; intros i [[x y] z]; cbn [app chops length]; [by rewrite Nat.add_0_r|].
  rewrite IH. replace (i + S (length fl1))%nat with (S i + length fl1)%nat by lia. done.
Qed.

Lemma chops_section an ns fl : forall i x y z,
  ((i + length fl <= an)%nat -> chops an ns i fl (x, y, z) = (x + cnt fl, y, z)%nat) /\
  ((an <= i)%nat -> (i + length fl <= an + ns)%nat -> chops an ns i fl (x, y, z) = (x, y + cnt fl, z)%nat) /\
  ((an + ns <= i)%nat -> chops an ns i fl (x, y, z) = (x, y, z + cnt fl)%nat).
Proof.
  induction fl as [|b fl IH]; intros i x y z; cbn [chops length].
  { unfold cnt. cbn. rewrite !Nat.add_0_r. done. }
  assert (cnt (b :: fl) = ((if b then 1 else 0) + cnt fl)%nat) as -> by (unfold cnt; by destruct b).
  split_and!; intros; destruct b; destruct (Nat.ltb_spec i an), (Nat.ltb_spec i (an + ns)); try lia;
    match goal with |- chops _ _ ?j _ (?a, ?b, ?c) = _ => destruct (IH j a b c) as (K1 & K2 & K3) end;
    first [rewrite K1 by lia|rewrite K2 by lia|rewrite K3 by lia]; (apply (f_equal2 pair); [apply (f_equal2 pair)|]; lia).
Qed.

Lemma keep_by_app {A} fl1 fl2 (l1 l2 : list A) : length fl1 = length l1 ->
  keep_by (fl1 ++ fl2) (l1 ++ l2) = keep_by fl1 l1 ++ keep_by fl2 l2.
Proof.
  revert l1. induction fl1 as [|[] fl1 IH]; intros [|x l1] Hl; cbn [length app keep_by] in *; try lia;
    rewrite ?IH by lia; done.
Qed.

Lemma length_keep_by {A} fl (l : list A) : length fl = length l ->
  (length (keep_by fl l) + cnt fl = length l)%nat.
Proof.
  revert l. induction fl as [|[] fl IH]; intros [|x l] Hl; cbn [length keep_by] in *; try lia; [done| |];
    unfold cnt in *; cbn [List.filter length]; specialize (IH l); lia.
Qed.

Lemma keep_by_le {A} fl (l : list A) : (length (keep_by fl l) <= length l)%nat.
Proof. revert l. induction fl as [|[] fl IH]; intros [|x l]; cbn; try lia; specialize (IH l); lia. Qed.

Lemma keep_by_sub {A} fl (l : list A) x : x ∈ keep_by fl l -> x ∈ l.
Proof.
  revert l. induction fl as [|[] fl IH]; intros [|y l]; cbn [keep_by]; try (by intros ?%not_elem_of_nil).
  - intros H%IH. by right.
  - intros [->|H%IH]%elem_of_cons; [by left|by right].
Qed.

(** The packet without the removed records. *)
Definition all_rrs (p : DnsPacket) : list DnsRr := answers p ++ authority p ++ additional p.
Definition filtered (fl : list bool) (p : DnsPacket) : DnsPacket :=
  let an := length (answers p) in
  let ns := length (authority p) in
  mkPacket (header p) (questions p) (keep_by (take an fl) (answers p))
    (keep_by (take ns (drop an fl)) (authority p)) (keep_by (drop ns (drop an fl)) (additional p)).

Lemma put_counts h rest a b c :
  put_be16 (put_be16 (put_be16 (to_bytes h ++ rest) 6 a) 8 b) 10 c = to_bytes (with_counts h (qdcount h) a b c) ++ rest.
Proof. unfold put_be16, to_bytes. rewrite !to_be_2. reflexivity. Qed.

Lemma three_parts {A} (fl : list A) a b :
  fl = take a fl ++ take b (drop a fl) ++ drop b (drop a fl).
Proof. by rewrite (take_drop b), (take_drop a). Qed.

Lemma keep_all {A} fl (l : list A) : length fl = length l -> cnt fl = O -> keep_by fl l = l.
Proof.
  revert l. induction fl as [|[] fl IH]; intros [|x l] Hl Hc; cbn [length keep_by] in *; try lia; unfold cnt in *;
    cbn [List.filter length] in Hc; try lia; try done. by rewrite IH by lia.
Qed.

Lemma filtered_ok fl p : packet_ok p -> packet_ok (filtered fl p).
Proof.
  intros [Hi Hq Ha Hn Hr (C1 & C2 & C3 & C4)].
  assert (forall (fl : list bool) rrs, Forall rr_ok rrs -> Forall rr_ok (keep_by fl rrs)) as Hk.
  { intros f l Hl'. apply Forall_forall. intros x Hx%keep_by_sub. by eapply Forall_forall in Hl'. }
  split; cbn [filtered header questions answers authority additional]; auto.
  pose proof (keep_by_le (take (length (answers p)) fl) (answers p)).
  pose proof (keep_by_le (take (length (authority p)) (drop (length (answers p)) fl)) (authority p)).
  pose proof (keep_by_le (drop (length (authority p)) (drop (length (answers p)) fl)) (additional p)).
  split_and!; lia.
Qed.

(** The counts and bytes pass 4 ends with are those of the filtered packet. *)
Lemma enc_filtered fl p : packet_ok p -> length fl = length (all_rrs p) ->
  let pre := to_bytes (header (fix_counts p)) ++ concat (enc_question <$> questions p) in
  let out := compact (ranges (length pre) fl (all_rrs p)) (enc_packet p) 0 in
  let '(a, b, c) := chops (length (answers p)) (length (authority p)) 0 fl (O, O, O) in
  put_be16 (put_be16 (put_be16 out 6 (Z.of_nat (length (answers p)) - Z.of_nat a))
    8 (Z.of_nat (length (authority p)) - Z.of_nat b)) 10 (Z.of_nat (length (additional p)) - Z.of_nat c) =
  enc_packet (filtered fl p).
Proof.
  intros Hp Hl. cbn zeta. set (pre := to_bytes _ ++ _).
  assert (enc_packet p = [] ++ pre ++ concat (enc_rr <$> all_rrs p)) as E.
  { unfold enc_packet, pre, all_rrs. rewrite !fmap_app, !concat_app, <- !app_assoc. done. }
  pose proof (compact_enc (all_rrs p) fl [] pre Hl) as Hc. cbn [app length] in Hc. rewrite E. cbn [app]. rewrite Hc.
  unfold all_rrs in Hl. rewrite !length_app in Hl.
  set (an := length (answers p)) in *. set (ns := length (authority p)) in *.
  set (f1 := take an fl). set (f2 := take ns (drop an fl)). set (f3 := drop ns (drop an fl)).
  assert (length f1 = an) as L1 by (unfold f1; rewrite length_take; lia).
  assert (length f2 = ns) as L2 by (unfold f2; rewrite length_take, length_drop; lia).
  assert (length f3 = length (additional p)) as L3 by (unfold f3; rewrite !length_drop; lia).
  assert (chops an ns 0 fl (O, O, O) = (cnt f1, cnt f2, cnt f3)) as ->.
  { rewrite (three_parts fl an ns). fold f1 f2 f3.
    rewrite !chops_app, (proj1 (chops_section _ _ _ _ _ _ _)) by lia.
    rewrite (proj1 (proj2 (chops_section _ _ _ _ _ _ _))) by lia.
    rewrite (proj2 (proj2 (chops_section _ _ _ _ _ _ _))) by lia. done. }
  unfold pre. rewrite <- app_assoc, put_counts.
  pose proof (length_keep_by f1 (answers p) L1) as K1. pose proof (length_keep_by f2 (authority p) L2) as K2.
  pose proof (length_keep_by f3 (additional p) L3) as K3.
  unfold enc_packet, filtered. fold an ns f1 f2 f3. cbn [header questions answers authority additional].
  f_equal.
  - f_equal. unfold fix_counts, with_counts. cbn. f_equal; lia.
  - f_equal. rewrite (three_parts fl an ns). fold f1 f2 f3. unfold all_rrs.
    rewrite !keep_by_app by done. rewrite !fmap_app, !concat_app. done.
Qed.

Definition verdicts (decide : Decider) (p : DnsPacket) (q : DnsQuestion) : list bool :=
  removed decide (mkFQuestion (qtype q) (qclass q)) 0 (all_rrs p).

Lemma cnt_app a b : cnt (a ++ b) = (cnt a + cnt b)%nat.
Proof. unfold cnt. by rewrite List.filter_app, length_app. Qed.

Lemma filtered_none fl p : length fl = length (all_rrs p) -> cnt fl = O -> filtered fl p = p.
Proof.
  unfold all_rrs. rewrite !length_app. intros Hl Hc. set (an := length (answers p)) in *. set (ns := length (authority p)) in *.
  rewrite (three_parts fl an ns), !cnt_app in Hc. unfold filtered. fold an ns.
  rewrite !keep_all; [by destruct p|rewrite ?length_take, ?length_drop; lia..].
Qed.

Lemma check_pass_enc p q el fx : packet_ok p -> questions p = [q] -> Forall layout_ok (all_rrs p) ->
  fits (enc_packet p) -> check_pass 1 (length (all_rrs p)) (enc_packet p) el fx = Some (enc_packet p).
Proof.
  intros Hp Hq Hly Hf.
  assert (question_ok q) as (Hn & _) by (pose proof (pk_qs _ Hp) as H; rewrite Hq in H; by inversion_clear H).
  assert (Forall rr_ok (all_rrs p)) as Hrr by (apply Forall_app; split; [apply Hp|apply Forall_app; split; apply Hp]).
  set (hd := to_bytes (header (fix_counts p))). assert (length hd = 12)%nat as Hhd by apply length_to_bytes.
  assert (enc_packet p = hd ++ enc_question q ++ concat (enc_rr <$> all_rrs p)) as Ep.
  { unfold enc_packet, all_rrs. rewrite Hq, !fmap_app, !concat_app. cbn [fmap list_fmap concat]. by rewrite app_nil_r. }
  rewrite Ep in *. unfold check_pass. cbn [check_questions]. rewrite <- Hhd. unfold enc_question in *.
  set (t := to_be 2 (qtype q) ++ to_be 2 (qclass q)) in *.
  assert (length t = 4)%nat as Ht by (unfold t; by rewrite length_app, !length_to_be).
  rewrite <- !app_assoc, check_name_enc by done.
  replace (length hd + length (enc_name (q_name q)) + 4)%nat with (length ((hd ++ enc_name (q_name q)) ++ t))
    by (rewrite !length_app; lia).
  rewrite !(app_assoc hd), !(app_assoc (hd ++ _)) in *.
  pose proof (check_rrs_enc (all_rrs p) el fx ((hd ++ enc_name (q_name q)) ++ t) []) as H. rewrite !app_nil_r in H.
  apply H; [done|done|]. by rewrite <- !app_assoc in Hf |- *.
Qed.

Lemma filter_with_enc decide p q : packet_ok p -> questions p = [q] -> Forall layout_ok (all_rrs p) ->
  fits (enc_packet p) ->
  let fl := verdicts decide p q in
  filter_with (enc_packet p) decide = Ok (enc_packet (filtered fl p), cnt fl).
Proof.
  intros Hp Hq Hly Hf. cbn zeta. pose proof (enc_filtered (verdicts decide p q) p Hp) as Hout.
  assert (length (verdicts decide p q) = length (all_rrs p)) as Hlen by apply length_removed.
  specialize (Hout Hlen). cbn zeta in Hout. unfold filter_with.
  assert (from_bytes (enc_packet p) = Some (header (fix_counts p))) as ->
    by (unfold enc_packet; by apply from_to_bytes, fix_counts_header_ok).
  cbn [ok_or header fix_counts with_counts qdcount ancount nscount arcount]. rewrite !Nat2Z.id.
  assert (Forall question_ok [q]) as Hqs by (rewrite <- Hq; apply (pk_qs _ Hp)).
  assert (Forall rr_ok (all_rrs p)) as Hrr by (apply Forall_app; split; [apply Hp|apply Forall_app; split; apply Hp]).
  rewrite Hq in *. cbn [length]. change (negb (Z.of_nat 1 =? 1)) with false. cbn iota. change (Z.to_nat (Z.of_nat 1)) with 1%nat.
  set (hd := to_bytes (header (fix_counts p))) in *.
  assert (length hd = 12)%nat as Hhd by apply length_to_bytes.
  assert (enc_packet p = hd ++ concat (enc_question <$> [q]) ++ concat (enc_rr <$> all_rrs p)) as Ep.
  { unfold enc_packet, all_rrs. rewrite Hq, !fmap_app, !concat_app. done. }
  set (pre := hd ++ concat (enc_question <$> [q])) in *.
  assert (enc_packet p = pre ++ concat (enc_rr <$> all_rrs p) ++ []) as Ep2.
  { rewrite Ep. unfold pre. by rewrite app_nil_r, <- app_assoc. }
  rewrite Ep in Hf. unfold skip_questions_to. rewrite Ep at 1. rewrite <- Hhd at 1.
  rewrite (skip_questions_enc [q]) by done. fold pre.
  (* the question *)
  assert (read_question (enc_packet p) = Ok (mkFQuestion (qtype q) (qclass q))) as ->.
  { inversion_clear Hqs as [|? ? Hq1 _]. unfold read_question. rewrite Ep. rewrite <- Hhd.
    cbn [fmap list_fmap concat] in *. rewrite app_nil_r in *.
    destruct (question_fields hd q (concat (enc_rr <$> all_rrs p))) as (-> & -> & -> & E & L); [done|done|].
    by rewrite (proj2 (Nat.ltb_ge _ _)) by lia. }
  rewrite app_assoc in Hf. fold pre in Hf.
  replace (length (answers p) + length (authority p) + length (additional p))%nat with (length (all_rrs p))
    by (unfold all_rrs; rewrite !length_app; lia).
  rewrite Ep2 at 1. rewrite choose_enc by (rewrite ?app_nil_r; done). cbn [app].
  fold (verdicts decide p q). rewrite length_ranges by done.
  destruct (Nat.eqb_spec (cnt (verdicts decide p q)) 0) as [E0|E0]; [by rewrite E0, filtered_none|].
  assert (fits (enc_packet p)) as Hf' by (rewrite Ep, app_assoc; done).
  rewrite !(check_pass_enc p q) by done.
  destruct (chops _ _ _ _ _) as [[a b] c]. by rewrite Hout.
Qed.

(** ** The three filters on records *)

Definition keep_packet (p : DnsPacket) (Pa Pn Pr : DnsRr -> bool) : DnsPacket :=
  mkPacket (header p) (questions p) (List.filter Pa (answers p)) (List.filter Pn (authority p))
    (List.filter Pr (additional p)).

(** A decider that never stops, or stops for good where a section ends, is the
    same as one that keeps from there on. *)
Definition unstop (decide : Decider) : Decider := fun i t c q =>
  match decide i t c q with Stop => Keep | v => v end.

Lemma removed_unstop decide q rrs : forall i,
  (forall j t c j' t' c', decide j t c q = Stop -> (j <= j')%nat -> decide j' t' c' q = Stop) ->
  removed decide q i rrs = removed (unstop decide) q i rrs.
Proof.
  induction rrs as [|rr rrs IH]; intros i Hs; cbn [removed]; [done|]. unfold unstop at 1.
  destruct (decide i (rtype rr) (class rr) q) eqn:E; [by rewrite IH..|].
  cbn [replicate]. f_equal. clear IH.
  assert (forall j, (i <= j)%nat -> replicate (length rrs) false = removed (unstop decide) q j rrs) as H; [|apply H; lia].
  induction rrs as [|r rrs IH]; intros j Hj; cbn [length replicate removed]; [done|]. unfold unstop at 1.
  rewrite (Hs _ _ _ j _ _ E Hj). f_equal. apply IH. lia.
Qed.

Definition decides (decide : Decider) (q : Question) (i : nat) (rrs : list DnsRr) (P : DnsRr -> bool) : Prop :=
  forall j rr, (i <= j)%nat -> (j < i + length rrs)%nat ->
    decide j (rtype rr) (class rr) q = if P rr then Keep else Remove.

Lemma keep_removed decide q P rrs : forall i, decides decide q i rrs P ->
  keep_by (removed decide q i rrs) rrs = List.filter P rrs.
Proof.
  induction rrs as [|rr rrs IH]; intros i Hd; cbn [removed List.filter]; [done|].
  rewrite (Hd i rr) by (cbn; lia).
  assert (decides decide q (S i) rrs P) as Hd' by (intros j r ? ?; apply Hd; cbn; lia).
  destruct (P rr); cbn [keep_by]; by rewrite IH.
Qed.

Lemma removed_app decide q P l1 l2 : forall i, decides decide q i l1 P ->
  removed decide q i (l1 ++ l2) = removed decide q i l1 ++ removed decide q (i + length l1) l2.
Proof.
  induction l1 as [|rr l1 IH]; intros i Hd; cbn [app removed length]; [by rewrite Nat.add_0_r|].
  rewrite (Hd i rr) by (cbn; lia).
  assert (decides decide q (S i) l1 P) as Hd' by (intros j r ? ?; apply Hd; cbn; lia).
  replace (i + S (length l1))%nat with (S i + length l1)%nat by lia.
  destruct (P rr); cbn [app]; by rewrite IH.
Qed.

Lemma filtered_sections decide p qq Pa Pn Pr :
  let an := length (answers p) in let ns := length (authority p) in
  decides decide qq 0 (answers p) Pa -> decides decide qq an (authority p) Pn ->
  decides decide qq (an + ns) (additional p) Pr ->
  filtered (removed decide qq 0 (all_rrs p)) p = keep_packet p Pa Pn Pr.
Proof.
  cbn zeta. intros Ha Hn Hr. unfold all_rrs. rewrite (removed_app _ _ Pa), (removed_app _ _ Pn) by done.
  rewrite Nat.add_0_l. unfold filtered, keep_packet.
  rewrite take_app_length', drop_app_length' by (by rewrite length_removed).
  rewrite take_app_length', drop_app_length' by (by rewrite length_removed).
  by rewrite (keep_removed _ _ Pa), (keep_removed _ _ Pn), (keep_removed _ _ Pr).
Qed.

Definition count_removed (p : DnsPacket) (Pa Pn Pr : DnsRr -> bool) : nat :=
  length (all_rrs p) - length (all_rrs (keep_packet p Pa Pn Pr)).

Lemma filter_with_sections decide p q Pa Pn Pr :
  packet_ok p -> questions p = [q] -> Forall layout_ok (all_rrs p) -> fits (write p) ->
  let qq := mkFQuestion (qtype q) (qclass q) in
  (forall j t c j' t' c', decide j t c qq = Stop -> (j <= j')%nat -> decide j' t' c' qq = Stop) ->
  decides (unstop decide) qq 0 (answers p) Pa -> decides (unstop decide) qq (length (answers p)) (authority p) Pn ->
  decides (unstop decide) qq (length (answers p) + length (authority p)) (additional p) Pr ->
  filter_with (write p) decide = Ok (write (keep_packet p Pa Pn Pr), count_removed p Pa Pn Pr).
Proof.
  cbn zeta. intros Hp Hq Hly Hf Hs Ha Hn Hr.
  pose proof (filtered_sections _ p _ Pa Pn Pr Ha Hn Hr) as E. cbn zeta in E.
  rewrite <- (removed_unstop decide) in E by done. fold (verdicts decide p q) in E.
  assert (length (verdicts decide p q) = length (all_rrs p)) as Hl by apply length_removed.
  pose proof (filtered_ok (verdicts decide p q) p Hp) as Hok. rewrite E in Hok.
  rewrite (write_enc p), (write_enc (keep_packet _ _ _ _)) in * by done. rewrite (filter_with_enc decide p q) by done.
  rewrite E. do 2 f_equal. unfold count_removed. rewrite <- E. unfold all_rrs, filtered in *.
  cbn [answers authority additional]. rewrite !length_app in *.
  rewrite (three_parts (verdicts decide p q) (length (answers p)) (length (authority p))) at 1. rewrite !cnt_app.
  pose proof (length_keep_by (take (length (answers p)) (verdicts decide p q)) (answers p)) as K1.
  pose proof (length_keep_by (take (length (authority p)) (drop (length (answers p)) (verdicts decide p q))) (authority p)) as K2.
  pose proof (length_keep_by (drop (length (authority p)) (drop (length (answers p)) (verdicts decide p q))) (additional p)) as K3.
  rewrite !length_take, ?length_drop in *. lia.
Qed.

Definition keep_all_rrs (rr : DnsRr) : bool := true.

(** A record of the types sent only on request, and one that was asked for. *)
Definition dnssec_rr (rr : DnsRr) : bool := is_dnssec_type (rtype rr).
Definition asked_for (q : DnsQuestion) (rr : DnsRr) : bool := (rtype rr =? qtype q) && (class rr =? qclass q).

(** What an ANY query is trimmed to. *)
Definition any_keep (rr : DnsRr) : bool :=
  negb (class rr =? 1) || (rtype rr =? RrType_as T_A) || (rtype rr =? RrType_as T_AAAA)
  || (rtype rr =? RrType_as T_MX) || (rtype rr =? RrType_as T_CNAME).

Lemma write_length p : packet_ok p -> (12 <= length (write p))%nat /\ from_bytes (write p) = Some (header (fix_counts p)).
Proof.
  intros Hp. rewrite write_enc by done. unfold enc_packet. rewrite length_app, length_to_bytes.
  split; [lia|]. by apply from_to_bytes, fix_counts_header_ok.
Qed.

Lemma keep_packet_all p (Pa Pn Pr : DnsRr -> bool) :
  (forall rr, Pa rr = true) -> (forall rr, Pn rr = true) -> (forall rr, Pr rr = true) -> keep_packet p Pa Pn Pr = p.
Proof.
  assert (forall (P : DnsRr -> bool) l, (forall rr, P rr = true) -> List.filter P l = l) as H.
  { intros P l HP. induction l as [|x l IH]; cbn; [done|]. by rewrite HP, IH. }
  intros H1 H2 H3. unfold keep_packet. rewrite !H by done. by destruct p.
Qed.

Section Filters.
Context (p : DnsPacket) (q : DnsQuestion).
Context (Hp : packet_ok p) (Hq : questions p = [q]) (Hly : Forall layout_ok (all_rrs p)) (Hf : fits (write p)).

Lemma filter_rr_types_write types :
  filter_rr_types (write p) types =
    Ok (write (keep_packet p keep_all_rrs keep_all_rrs (fun rr => negb (bool_decide (rtype rr ∈ types))))).
Proof.
  destruct (write_length p Hp) as [Hl Hh]. unfold filter_rr_types. rewrite (proj2 (Nat.ltb_ge _ _)) by lia.
  destruct types as [|t types]; [by rewrite keep_packet_all|]. cbn [length Nat.eqb]. rewrite Hh.
  cbn [ok_or header fix_counts with_counts ancount nscount]. rewrite !Nat2Z.id.
  erewrite filter_with_sections; [done|done|exact Hq|done|done|..].
  - intros j t' c j' t'' c' H. case_match; done.
  - intros j rr _ Hj. unfold unstop. rewrite (proj2 (Nat.ltb_lt _ _)) by (cbn in Hj; lia). done.
  - intros j rr _ Hj. unfold unstop. rewrite (proj2 (Nat.ltb_lt _ _)) by lia. done.
  - intros j rr Hj _. unfold unstop. rewrite (proj2 (Nat.ltb_ge _ _)) by lia. cbn [orb]. by case_bool_decide.
Qed.

Lemma strip_dnssec_write :
  let do_set := match find_pseudoheader (write p) with Some i => has (i_flags i) 0x8000 | None => false end in
  strip_dnssec_if_not_requested (write p) =
    Ok (if do_set then write p
        else write (keep_packet p (fun rr => negb (dnssec_rr rr) || asked_for q rr)
                      (fun rr => negb (dnssec_rr rr)) (fun rr => negb (dnssec_rr rr)))).
Proof.
  destruct (write_length p Hp) as [Hl Hh]. cbn zeta. unfold strip_dnssec_if_not_requested.
  replace (match find_pseudoheader (write p) with Some info => negb (Z.land (i_flags info) 32768 =? 0) | None => false end)
    with (match find_pseudoheader (write p) with Some i => has (i_flags i) 0x8000 | None => false end) by done.
  destruct (match find_pseudoheader (write p) with Some i => _ | None => _ end); [done|]. rewrite Hh.
  cbn [ok_or header fix_counts with_counts ancount]. rewrite Nat2Z.id.
  erewrite filter_with_sections; [done|done|exact Hq|done|done|..]; unfold dnssec_decide, unstop, dnssec_rr, asked_for.
  - intros j t' c j' t'' c' H. destruct (negb _); [done|]. destruct (_ && _); done.
  - intros j rr _ Hj. cbn [fq_qtype fq_qclass]. rewrite (proj2 (Nat.ltb_lt _ _)) by (cbn in Hj; lia).
    destruct (is_dnssec_type (rtype rr)); [|done]. cbn. by destruct (_ && _).
  - intros j rr Hj _. rewrite (proj2 (Nat.ltb_ge _ _)) by lia. by destruct (is_dnssec_type (rtype rr)).
  - intros j rr Hj _. rewrite (proj2 (Nat.ltb_ge _ _)) by lia. by destruct (is_dnssec_type (rtype rr)).
Qed.

Lemma filter_configured_write filter_rr :
  let an_keep rr := negb ((class rr =? 1) && bool_decide (rtype rr ∈ filter_rr)) in
  filter_configured_rr_types (write p) filter_rr =
    Ok (if (qtype q =? RrType_as T_ANY) && bool_decide (RrType_as T_ANY ∈ filter_rr)
        then (write (keep_packet p any_keep any_keep any_keep), count_removed p any_keep any_keep any_keep)
        else (write (keep_packet p an_keep keep_all_rrs keep_all_rrs), count_removed p an_keep keep_all_rrs keep_all_rrs)).
Proof.
  destruct (write_length p Hp) as [Hl Hh]. cbn zeta. unfold filter_configured_rr_types.
  rewrite (proj2 (Nat.ltb_ge _ _)) by lia. destruct filter_rr as [|t ts].
  { cbn [length Nat.eqb]. rewrite bool_decide_false by (by intros ?%not_elem_of_nil). rewrite andb_false_r.
    unfold count_removed. rewrite keep_packet_all; [by rewrite Nat.sub_diag| |done|done].
    intros rr. rewrite bool_decide_false by (by intros ?%not_elem_of_nil). by rewrite andb_false_r. }
  cbn [length Nat.eqb]. rewrite Hh. cbn [ok_or header fix_counts with_counts ancount]. rewrite Nat2Z.id.
  set (ts' := t :: ts). destruct (_ && bool_decide (RrType_as T_ANY ∈ ts')) eqn:E.
  - erewrite filter_with_sections; [done|done|exact Hq|done|done|..];
      unfold conf_decide, unstop, decides; cbn [fq_qtype fq_qclass]; rewrite E.
    + intros j t' c j' t'' c' H. destruct (_ || _); done.
    + intros j rr _ _. fold (any_keep rr). by destruct (any_keep rr).
    + intros j rr _ _. fold (any_keep rr). by destruct (any_keep rr).
    + intros j rr _ _. fold (any_keep rr). by destruct (any_keep rr).
  - erewrite filter_with_sections; [done|done|exact Hq|done|done|..];
      unfold conf_decide, unstop, decides; cbn [fq_qtype fq_qclass]; rewrite E.
    + intros j t' c j' t'' c' H Hj. destruct (Nat.leb_spec (length (answers p)) j); [|by destruct ((c =? 1) && bool_decide (t' ∈ ts'))].
      by rewrite (proj2 (Nat.leb_le _ _)) by lia.
    + intros j rr _ Hj. rewrite (proj2 (Nat.leb_gt _ _)) by (cbn in Hj; lia). destruct (class rr =? 1), (bool_decide (rtype rr ∈ ts')); done.
    + intros j rr Hj _. by rewrite (proj2 (Nat.leb_le _ _)) by lia.
    + intros j rr Hj _. by rewrite (proj2 (Nat.leb_le _ _)) by lia.
Qed.

End Filters.

(** C28: the three filters remove exactly the records they document from a
    reply with one question whose names are not compressed, and what they
    return is the encoding of the smaller packet with its counts:
    [filter_rr_types] the listed types of the additional section;
    [strip_dnssec_if_not_requested] RRSIG, NSEC and NSEC3 everywhere except an
    answer that was asked for, and nothing when the DO bit is set;
    [filter_configured_rr_types] the listed types of class IN of the answers,
    or, for an ANY query with ANY listed, all but A, AAAA, MX and CNAME. *)
Theorem filters_exact p q types filter_rr :
  packet_ok p -> questions p = [q] -> Forall layout_ok (all_rrs p) -> fits (write p) ->
  let listed rr := bool_decide (rtype rr ∈ filter_rr) in
  let an_keep rr := negb ((class rr =? 1) && listed rr) in
  let do_set := match find_pseudoheader (write p) with Some i => has (i_flags i) 0x8000 | None => false end in
  filter_rr_types (write p) types =
    Ok (write (keep_packet p keep_all_rrs keep_all_rrs (fun rr => negb (bool_decide (rtype rr ∈ types))))) /\
  strip_dnssec_if_not_requested (write p) =
    Ok (if do_set then write p
        else write (keep_packet p (fun rr => negb (dnssec_rr rr) || asked_for q rr)
                      (fun rr => negb (dnssec_rr rr)) (fun rr => negb (dnssec_rr rr)))) /\
  filter_configured_rr_types (write p) filter_rr =
    Ok (if (qtype q =? RrType_as T_ANY) && bool_decide (RrType_as T_ANY ∈ filter_rr)
        then (write (keep_packet p any_keep any_keep any_keep), count_removed p any_keep any_keep any_keep)
        else (write (keep_packet p an_keep keep_all_rrs keep_all_rrs), count_removed p an_keep keep_all_rrs keep_all_rrs)).
Proof.
  intros Hp Hq Hly Hf. split_and!;
    [exact (filter_rr_types_write p q Hp Hq Hly Hf types)|exact (strip_dnssec_write p q Hp Hq Hly Hf)
    |exact (filter_configured_write p q Hp Hq Hly Hf filter_rr)].
Qed.

Definition a_rr : DnsRr := mkRr (bs "a.example") 1 1 60 [Byte.x0a; Byte.x00; Byte.x00; Byte.x01].
Definition sig_rr : DnsRr := mkRr (bs "a.example") 46 1 60 [Byte.x00; Byte.x01; Byte.x05].
Definition ns_rr : DnsRr := mkRr (bs "example") 2 1 60 (enc_name (bs "ns.example")).
Definition sample_reply : DnsPacket :=
  mkPacket (mkHeader 7 Byte.x81 Byte.x80 0 0 0 0) [mkQuestion (bs "a.example") 1 1] [a_rr; sig_rr] [ns_rr; sig_rr]
    [opt_rr 512 0 []].

Lemma sample_reply_ok : packet_ok sample_reply /\ Forall layout_ok (all_rrs sample_reply).
Proof.
  split.
  - split; cbn; unfold u16_ok; try lia; repeat apply List.Forall_cons; try apply List.Forall_nil;
      unfold question_ok, rr_ok, u16_ok; cbn [q_name qtype qclass r_name rtype class ttl rdata opt_rr a_rr sig_rr ns_rr];
      (split; [apply name_ok_eval; by vm_compute|]); cbn; repeat (split; [lia|]); try lia; try done.
    split; [by vm_compute|]. exists (bs "ns.example"). split; [apply name_ok_eval; by vm_compute|done].
  - repeat apply List.Forall_cons; try apply List.Forall_nil; try (intros _; exact I).
    intros _. exists (bs "ns.example"), []. split_and!; [apply name_ok_eval; by vm_compute|done|done].
Qed.

Lemma filters_exact_witness :
  strip_dnssec_if_not_requested (write sample_reply) =
    Ok (write (mkPacket (header sample_reply) (questions sample_reply) [a_rr] [ns_rr] [opt_rr 512 0 []])) /\
  filter_configured_rr_types (write sample_reply) [1; 46] =
    Ok (write (mkPacket (header sample_reply) (questions sample_reply) [] [ns_rr; sig_rr] [opt_rr 512 0 []]), 2%nat) /\
  filter_rr_types (write sample_reply) [41] =
    Ok (write (mkPacket (header sample_reply) (questions sample_reply) [a_rr; sig_rr] [ns_rr; sig_rr] [])).
Proof.
  destruct sample_reply_ok as [Hp Hly].
  destruct (filters_exact sample_reply (mkQuestion (bs "a.example") 1 1) [41] [1; 46] Hp eq_refl Hly) as (H1 & H2 & H3);
    [vm_compute; reflexivity|].
  rewrite H1, H2, H3. split_and!; vm_compute; reflexivity.
Defined.

(** ** Compressed packets *)

(** Ascending, disjoint, non-empty ranges between two bounds. *)
Fixpoint elided_ok (lo : nat) (el : Elided) (hi : nat) : Prop :=
  match el with
  | [] => (lo <= hi)%nat
  | (s, e) :: rest => (lo <= s)%nat /\ (s < e)%nat /\ elided_ok e rest hi
  end.

Lemma elided_ok_bounds el : forall lo hi, elided_ok lo el hi -> (lo <= hi)%nat.
Proof. induction el as [|[s e] el IH]; intros lo hi; cbn; [done|]. intros (? & ? & H%IH). lia. Qed.

Lemma elided_ok_snoc el : forall lo s e hi, elided_ok lo el s -> (s < e)%nat -> (e <= hi)%nat -> elided_ok lo (el ++ [(s, e)]) hi.
Proof.
  induction el as [|[s' e'] el IH]; intros lo s e hi; cbn; [by repeat split|]. intros (? & ? & ?) ? ?. eauto.
Qed.

Lemma elided_ok_hi el : forall lo hi hi', elided_ok lo el hi -> (hi <= hi')%nat -> elided_ok lo el hi'.
Proof. induction el as [|[s e] el IH]; intros lo hi hi'; cbn; [lia|]. intros (? & ? & ?) ?. eauto. Qed.

Lemma elided_ok_above el : forall lo hi s e, elided_ok lo el hi -> (s, e) ∈ el -> (lo <= s)%nat.
Proof.
  induction el as [|[a b] el IH]; intros lo hi s e; cbn; [by intros _ ?%not_elem_of_nil|].
  intros (? & ? & H3) [[= -> ->]|Hin]%elem_of_cons; [done|]. pose proof (IH _ _ _ _ H3 Hin). lia.
Qed.

Lemma elided_ok_lo lo lo' el hi : elided_ok lo el hi -> (lo' <= lo)%nat -> elided_ok lo' el hi.
Proof. destruct el as [|[s e] el]; cbn; [lia|]. intros (? & ? & ?) ?. repeat split; [lia|done|done]. Qed.

Lemma shift_loop_bound el : forall lo hi off delta off', elided_ok lo el hi -> (delta <= lo <= off)%nat ->
  shift_loop el off delta = Some off' -> (lo - delta <= off' <= off - delta)%nat.
Proof.
  induction el as [|[s e] el IH]; intros lo hi off delta off' Hok Hd; cbn [shift_loop elided_ok] in *; [intros [= <-]; lia|].
  destruct Hok as (H1 & H2 & H3). destruct (Nat.ltb_spec off s); [intros [= <-]; lia|].
  destruct (Nat.ltb_spec off e); [done|]. intros Hs.
  pose proof (IH e hi off (delta + (e - s))%nat off' H3 ltac:(lia) Hs). lia.
Qed.

Lemma compact_lookup el work : forall lo hi off delta off', elided_ok lo el hi -> (hi <= length work)%nat ->
  (delta <= lo <= off)%nat -> shift_loop el off delta = Some off' ->
  compact el work lo !! (off' - (lo - delta))%nat = work !! off.
Proof.
  induction el as [|[s e] el IH]; intros lo hi off delta off' Hok Hh Hd Hs; cbn [shift_loop compact elided_ok] in *.
  - injection Hs as <-. rewrite lookup_drop. f_equal. lia.
  - destruct Hok as (H1 & H2 & H3). pose proof (elided_ok_bounds _ _ _ H3).
    assert (length (take (s - lo) (drop lo work)) = s - lo)%nat as Ht by (rewrite length_take, length_drop; lia).
    destruct (Nat.ltb_spec off s) as [L|L].
    + injection Hs as <-. rewrite lookup_app_l by lia. rewrite lookup_take_lt, lookup_drop by lia. f_equal. lia.
    + destruct (Nat.ltb_spec off e); [done|].
      pose proof (shift_loop_bound el e hi off (delta + (e - s))%nat off' H3 ltac:(lia) Hs) as Hb.
      rewrite lookup_app_r by lia. rewrite Ht. rewrite <- (IH e hi off (delta + (e - s))%nat off') by (done || lia).
      f_equal. lia.
Qed.

Lemma shift_loop_None el : forall lo hi off delta, elided_ok lo el hi -> (lo <= off)%nat ->
  shift_loop el off delta = None <-> exists s e, (s, e) ∈ el /\ (s <= off < e)%nat.
Proof.
  induction el as [|[s e] el IH]; intros lo hi off delta Hok Hlo; cbn [shift_loop elided_ok] in *.
  - split; [done|]. intros (? & ? & ?%not_elem_of_nil & _). done.
  - destruct Hok as (H1 & H2 & H3).
    destruct (Nat.ltb_spec off s); [split; [done|]|destruct (Nat.ltb_spec off e)].
    + intros (s' & e' & [[= -> ->]|Hin]%elem_of_cons & Hr); [lia|].
      pose proof (elided_ok_above _ _ _ _ _ H3 Hin). lia.
    + split; [|done]. intros _. exists s, e. split; [by left|lia].
    + rewrite (IH e hi) by done. split; intros (s' & e' & Hin & Hr); exists s', e'; (split; [|done]).
      * by right.
      * apply elem_of_cons in Hin as [[= -> ->]|Hin]; [lia|done].
Qed.

(** Where a pointer at a position points to. *)
Definition pointer_at (pkt : list u8) (p : nat) : option nat :=
  let! b := pkt !! p in
  let! c := pkt !! S p in
  if Z.land (u8z b) 0xC0 =? 0xC0 then Some (Z.to_nat (Z.lor (Z.shiftl (Z.land (u8z b) 0x3F) 8) (u8z c))) else None.

(** One pointer moved to where its target goes. *)
Definition retarget (el : Elided) (w w' : list u8) : Prop :=
  exists p t t', pointer_at w p = Some t /\ shift_offset el t = Some t' /\
    w' = put_pointer w p t' /\ pointer_at w' p = Some t'.

Lemma length_put_pointer w p t : length (put_pointer w p t) = length w.
Proof. unfold put_pointer. by rewrite !length_insert. Qed.

Lemma retargets_length el w w' : rtc (retarget el) w w' -> length w' = length w.
Proof. induction 1 as [|w w1 w2 (p & t & t' & _ & _ & -> & _) _ IH]; [done|]. by rewrite IH, length_put_pointer. Qed.

Lemma pointer_bits k : 0 <= k < 64 ->
  let b := u8z (z8 (Z.lor (u8z (z8 k)) 0xC0)) in Z.land b 0xC0 = 0xC0 /\ Z.land b 0x3F = k.
Proof.
  intros Hk. cbn zeta.
  pose proof (byte_forall (fun x => implb (u8z x <? 64)
    ((Z.land (u8z (z8 (Z.lor (u8z x) 0xC0))) 0xC0 =? 0xC0) && (Z.land (u8z (z8 (Z.lor (u8z x) 0xC0))) 0x3F =? u8z x)))
    ltac:(vm_compute; reflexivity) (z8 k)) as H.
  cbn beta in H. assert (u8z (z8 k) = k) as E by (apply u8z_z8_small; lia). rewrite E in *.
  rewrite (proj2 (Z.ltb_lt _ _)) in H by lia. cbn [implb] in H.
  apply andb_true_iff in H as [H1%Z.eqb_eq H2%Z.eqb_eq]. done.
Qed.

Lemma pointer_at_put w p t : (S p < length w)%nat -> Z.of_nat t < 16384 -> pointer_at (put_pointer w p t) p = Some t.
Proof.
  intros Hp Ht. unfold pointer_at, put_pointer.
  rewrite list_lookup_insert_ne, list_lookup_insert_eq by (rewrite ?length_insert; lia).
  rewrite list_lookup_insert_eq by (rewrite ?length_insert; lia).
  rewrite Z.shiftr_div_pow2 by lia. change (2 ^ 8) with 256.
  assert (0 <= Z.of_nat t / 256 < 64) as Hk by (split; [apply Z.div_pos; lia|apply Z.div_lt_upper_bound; lia]).
  destruct (pointer_bits _ Hk) as [-> ->]. rewrite Z.eqb_refl. f_equal.
  change 0xFF with (Z.ones 8). rewrite Z.land_ones by lia. change (2 ^ 8) with 256.
  rewrite u8z_z8_small by (apply Z.mod_pos_bound; lia). rewrite Z.shiftl_mul_pow2 by lia. change (2 ^ 8) with 256.
  set (k := Z.of_nat t / 256) in *. pose proof (Z.mod_pos_bound (Z.of_nat t) 256 ltac:(lia)).
  replace (Z.lor (k * 256) (Z.of_nat t mod 256)) with (Z.of_nat t); [lia|].
  change 256 with (2 ^ 8) at 1. rewrite <- Z.shiftl_mul_pow2 by lia. symmetry. apply Z.bits_inj'. intros n Hn.
  rewrite Z.lor_spec, Z.shiftl_spec by done. change 256 with (2 ^ 8).
  destruct (Z.lt_ge_cases n 8) as [L|L].
  - rewrite Z.testbit_neg_r, Z.mod_pow2_bits_low by lia. done.
  - rewrite Z.mod_pow2_bits_high, orb_false_r by lia. unfold k. change 256 with (2 ^ 8).
    rewrite <- Z.shiftr_div_pow2, Z.shiftr_spec by lia. f_equal. lia.
Qed.

Section Retarget.
Context (el : Elided) (hi : nat) (Hel : elided_ok 0 el hi).

Lemma u8_at_lookup pkt p c : pkt !! p = Some c -> u8_at pkt p = u8z c.
Proof. intros H. unfold u8_at. rewrite (drop_S _ _ _ H). cbn [take of_be fold_left]. rewrite take_0. cbn. lia. Qed.

Lemma pointer_lt b c : Z.of_nat (Z.to_nat (Z.lor (Z.shiftl (Z.land (u8z b) 0x3F) 8) (u8z c))) < 16384.
Proof.
  pose proof (u8z_range b). pose proof (u8z_range c). change 0x3F with (Z.ones 6). rewrite Z.land_ones by lia.
  pose proof (Z.mod_pos_bound (u8z b) (2 ^ 6) ltac:(lia)). set (k := u8z b mod 2 ^ 6) in *.
  rewrite Z2Nat.id by (apply Z.lor_nonneg; split; [apply Z.shiftl_nonneg|]; lia).
  destruct (Z.lt_ge_cases 0 (Z.lor (Z.shiftl k 8) (u8z c))); [|lia].
  change 16384 with (2 ^ 14). apply Z.log2_lt_pow2; [done|]. rewrite Z.log2_lor by (try apply Z.shiftl_nonneg; lia).
  apply Z.max_lub_lt.
  - rewrite Z.shiftl_mul_pow2 by lia. destruct (Z.eq_dec k 0) as [->|]; [done|]. apply Z.log2_lt_pow2; lia.
  - destruct (Z.eq_dec (u8z c) 0) as [->|]; [done|]. apply Z.log2_lt_pow2; lia.
Qed.

Lemma check_name_loop_retarget fx fuel : forall pkt pos pkt' pos',
  check_name_loop fuel pkt pos el fx = Some (Some (pkt', pos')) ->
  if fx then rtc (retarget el) pkt pkt' else pkt' = pkt.
Proof.
  induction fuel as [|fuel IH]; intros pkt pos pkt' pos'; cbn [check_name_loop]; [done|].
  destruct (pkt !! pos) as [b|] eqn:Eb; [|done]. destruct (Z.eqb_spec (Z.land (u8z b) 0xC0) 0xC0) as [Ek|_].
  - destruct (Nat.ltb_spec (length pkt) (pos + 2)); [done|].
    destruct (lookup_lt_is_Some_2 pkt (S pos)) as [c Ec]; [lia|].
    rewrite Nat.add_1_r, (u8_at_lookup _ _ _ Ec).
    set (t := Z.to_nat (Z.lor (Z.shiftl (Z.land (u8z b) 0x3F) 8) (u8z c))).
    destruct (shift_offset el t) as [t'|] eqn:Es; [|done]. intros [= <- <-]. destruct fx; [|done].
    apply rtc_once. exists pos, t, t'. split_and!; [|done|done|].
    + unfold pointer_at. by rewrite Eb, Ec, Ek, Z.eqb_refl.
    + apply pointer_at_put; [lia|]. unfold shift_offset in Es.
      pose proof (shift_loop_bound el 0 hi t 0 t' Hel ltac:(lia) Es). pose proof (pointer_lt b c). unfold t in *. lia.
  - destruct (_ =? 0x80); [done|]. destruct (_ =? 0x40).
    + destruct (_ || _); [done|]. destruct (_ <? _)%nat; [done|]. apply IH.
    + destruct (_ <? _)%nat; [done|]. destruct (_ =? 0)%nat; [|apply IH]. intros [= <- <-]. destruct fx; [apply rtc_refl|done].
Qed.

Lemma check_name_retarget fx pkt pos pkt' pos' : check_name pkt pos el fx = Some (pkt', pos') ->
  if fx then rtc (retarget el) pkt pkt' else pkt' = pkt.
Proof.
  unfold check_name. destruct (check_name_loop _ _ _ _ _) as [r|] eqn:E; [|done]. intros ->.
  by eapply check_name_loop_retarget.
Qed.

Lemma retarget_trans (fx : bool) w1 w2 w3 :
  (if fx : bool then rtc (retarget el) w1 w2 else w2 = w1) -> (if fx then rtc (retarget el) w2 w3 else w3 = w2) ->
  if fx then rtc (retarget el) w1 w3 else w3 = w1.
Proof. destruct fx; [intros H1 H2; by etrans|]. by intros -> ->. Qed.

Lemma retarget_refl fx w : if fx : bool then rtc (retarget el) w w else w = w.
Proof. destruct fx; [apply rtc_refl|done]. Qed.

Lemma check_rdata_retarget fx desc : forall pkt pos pkt',
  check_rdata desc pkt pos el fx = Some pkt' -> if fx then rtc (retarget el) pkt pkt' else pkt' = pkt.
Proof.
  induction desc as [|step desc IH]; intros pkt pos pkt'; cbn [check_rdata]; [intros [= <-]; apply retarget_refl|].
  destruct (step =? 0)%nat; [|destruct (_ <? _)%nat; [done|apply IH]].
  destruct (check_name pkt pos el fx) as [[p1 pos1]|] eqn:E; [|done]. intros H.
  eapply retarget_trans; [by eapply check_name_retarget|by eapply IH].
Qed.

Lemma check_rrs_retarget fx total : forall pkt pos pkt',
  check_rrs total pkt pos el fx = Some pkt' -> if fx then rtc (retarget el) pkt pkt' else pkt' = pkt.
Proof.
  induction total as [|n IH]; intros pkt pos pkt'; cbn [check_rrs]; [intros [= <-]; apply retarget_refl|].
  destruct (ok (skip_name pkt pos)) as [p1|]; [|done]. destruct (_ <? _)%nat; [done|].
  destruct (if starts_elided el pos then _ else _) as [pkt1|] eqn:E; [|done].
  destruct (_ <? _)%nat; [done|]. intros H. eapply retarget_trans; [|by eapply IH].
  destruct (starts_elided el pos); [injection E as <-; apply retarget_refl|]. unfold check_rr in E.
  destruct (check_name pkt pos el fx) as [[p2 pos2]|] eqn:E2; [|done].
  eapply retarget_trans; [by eapply check_name_retarget|].
  destruct (_ =? 1); [by eapply check_rdata_retarget|injection E as <-; apply retarget_refl].
Qed.

Lemma check_pass_retarget fx qd total pkt pkt' :
  check_pass qd total pkt el fx = Some pkt' -> if fx then rtc (retarget el) pkt pkt' else pkt' = pkt.
Proof.
  unfold check_pass. generalize 12%nat as p. revert pkt. induction qd as [|n IH]; intros pkt p; cbn [check_questions].
  - apply check_rrs_retarget.
  - destruct (check_name pkt p el fx) as [[p1 pos1]|] eqn:E; [|done]. intros H.
    eapply retarget_trans; [by eapply check_name_retarget|by eapply IH].
Qed.

End Retarget.

Lemma skip_loop_ge fuel : forall c o, skip_loop fuel c = Some (Ok o) -> (pos c < o)%nat.
Proof.
  induction fuel as [|fuel IH]; intros c o; cbn [skip_loop]; [done|].
  destruct (Cursor.read_u8 c) as [[b c1]|] eqn:E; [|done]. unfold Cursor.read_u8 in E.
  destruct (buf c !! pos c); [|done]. injection E as <- <-.
  destruct (_ =? 0); [intros [= <-]; cbn; lia|]. destruct (_ =? 0xC0).
  - unfold Cursor.read_u8. cbn [buf pos]. destruct (_ !! _); [|done]. intros [= <-]. cbn. lia.
  - destruct (negb _); [done|]. unfold Cursor.advance. cbn [buf pos].
    destruct (checked_add _ _) as [e|] eqn:Ee; [|done]. apply checked_add_Some in Ee as [-> _].
    destruct (_ <? _)%nat; [done|]. intros H%IH. cbn in H. lia.
Qed.

Lemma skip_name_ge pkt off o : skip_name pkt off = Ok o -> (off < o)%nat.
Proof.
  unfold skip_name. destruct (skip_loop _ _) as [r|] eqn:E; [|done]. intros ->. by apply skip_loop_ge in E.
Qed.

Lemma skip_questions_ge count : forall pkt off o, skip_questions pkt off count = Ok o -> (off <= o)%nat.
Proof.
  induction count as [|n IH]; intros pkt off o; cbn [skip_questions]; [intros [= <-]; lia|].
  destruct (skip_name pkt off) as [o1|] eqn:E; [|done]. apply skip_name_ge in E.
  destruct (_ <? _)%nat; [done|]. intros H%IH. lia.
Qed.

Lemma choose_elided_ok decide q an ns pkt count : forall i pos el chop el' chop',
  elided_ok 12 el pos -> (pos <= length pkt)%nat \/ el = [] -> (12 <= pos)%nat ->
  choose count i decide q an ns pkt pos el chop = Ok (el', chop') ->
  el' = [] \/ elided_ok 12 el' (length pkt).
Proof.
  induction count as [|n IH]; intros i pos el chop el' chop' Hel Hpos H12; cbn [choose].
  - intros [= <- _]. destruct Hpos as [Hp| ->]; [right|by left]. by eapply elided_ok_hi.
  - destruct (skip_name pkt pos) as [p1|] eqn:E; [|done]. apply skip_name_ge in E.
    destruct (_ <? _)%nat; [done|]. destruct (Nat.ltb_spec (length pkt) (p1 + (10 + Z.to_nat (be16_at pkt (p1 + 8))))); [done|].
    destruct (decide _ _ _ _).
    + apply IH; [apply (elided_ok_hi _ _ pos); [done|lia]|left; lia|lia].
    + destruct chop as [[x y] z]. apply IH; [|left; lia|lia]. apply elided_ok_snoc; [done|lia|lia].
    + intros [= <- _]. destruct Hpos as [Hp| ->]; [right|by left]. by eapply elided_ok_hi.
Qed.

Definition elided_bytes (el : Elided) : nat := sum_list_with (fun r => r.2 - r.1)%nat el.

Lemma length_compact el work : forall lo, elided_ok lo el (length work) ->
  (length (compact el work lo) + elided_bytes el + lo = length work)%nat.
Proof.
  induction el as [|[s e] el IH]; intros lo; cbn [compact elided_ok]; unfold elided_bytes; cbn [sum_list_with fst snd].
  - rewrite length_drop. lia.
  - intros (H1 & H2 & H3). pose proof (elided_ok_bounds _ _ _ H3). apply IH in H3.
    rewrite length_app, length_take, length_drop. unfold elided_bytes in H3. lia.
Qed.

Lemma put_be16_lookup out a n i : (a + 1 < i)%nat -> put_be16 out a n !! i = out !! i.
Proof. intros H. unfold put_be16. by rewrite !list_lookup_insert_ne by lia. Qed.
Lemma length_put_be16 out a n : length (put_be16 out a n) = length out.
Proof. unfold put_be16. by rewrite !length_insert. Qed.

(** Filtering never corrupts a compressed packet. Whatever the packet and
    the decisions, the packet comes back unchanged, or: as many byte ranges as
    records reported removed, ascending, disjoint and after the header, are cut
    out of a copy in which pointers were changed only from their target to the
    place the target moves to; every other byte after the header keeps its
    value at its shifted offset; and an offset has no shifted one exactly when
    it lies in a removed record. *)
Theorem filter_retargets pkt decide out n :
  filter_with pkt decide = Ok (out, n) ->
  (n = O /\ out = pkt) \/
  exists el work, n = length el /\ (0 < n)%nat /\ elided_ok 12 el (length pkt) /\
    rtc (retarget el) pkt work /\ (length out + elided_bytes el = length pkt)%nat /\
    (forall off off', (12 <= off)%nat -> shift_offset el off = Some off' -> out !! off' = work !! off) /\
    (forall off, shift_offset el off = None <-> exists s e, (s, e) ∈ el /\ (s <= off < e)%nat).
Proof.
  unfold filter_with. destruct (from_bytes pkt) as [hdr|] eqn:Eh; [|done]. cbn [ok_or].
  destruct (negb _); [intros [= <- <-]; by left|].
  destruct (skip_questions_to _ _ _) as [p0|] eqn:E0; [|done]. apply skip_questions_ge in E0.
  destruct (read_question pkt) as [q|]; [|done].
  destruct (choose _ _ _ _ _ _ _ _ _ _) as [[el [[a b] c]]|] eqn:Ec; [|done].
  destruct (Nat.eqb_spec (length el) 0) as [|Hn]; [intros [= <- <-]; by left|].
  destruct (check_pass _ _ pkt el false) as [w1|] eqn:E1; [|intros [= <- <-]; by left].
  destruct (check_pass _ _ w1 el true) as [work|] eqn:E2; intros [= <- <-]; [right|by left].
  destruct (choose_elided_ok _ _ _ _ _ _ _ _ _ _ _ _ (E0 : elided_ok 12 [] p0) (or_intror eq_refl) E0 Ec) as [->|Hel]; [done|].
  assert (elided_ok 0 el (length pkt)) as Hel0 by (eapply elided_ok_lo; [done|lia]).
  apply (check_pass_retarget _ _ Hel0) in E1 as ->. apply (check_pass_retarget _ _ Hel0) in E2.
  pose proof (retargets_length _ _ _ E2) as Hlen. exists el, work.
  split_and!; [done|lia|done|done| | |].
  - rewrite !length_put_be16. rewrite <- Hlen in Hel0. pose proof (length_compact el work 0 Hel0). lia.
  - intros off off' Hoff Hs. pose proof (shift_loop_bound el 12 (length pkt) off 0 off' Hel ltac:(lia) Hs).
    rewrite !put_be16_lookup by lia. rewrite <- (compact_lookup el work 0 (length pkt) off 0 off' Hel0) by (done || lia).
    f_equal. lia.
  - intros off. apply (shift_loop_None el 0 (length pkt)); [done|lia].
Qed.

(** Three answers: a signature for the question's name, an address whose name
    ends in a pointer to it, and one whose name points to the second. *)
Definition compressed_reply : list u8 :=
  to_bytes (mkHeader 7 Byte.x81 Byte.x80 1 3 0 0)
  ++ [Byte.x01; Byte.x61; Byte.x00] ++ to_be 2 1 ++ to_be 2 1
  ++ [Byte.xc0; Byte.x0c] ++ to_be 2 46 ++ to_be 2 1 ++ to_be 4 60 ++ to_be 2 1 ++ [Byte.x05]
  ++ [Byte.x01; Byte.x62; Byte.xc0; Byte.x0c] ++ to_be 2 1 ++ to_be 2 1 ++ to_be 4 60 ++ to_be 2 4 ++ to_be 4 167772161
  ++ [Byte.xc0; Byte.x20] ++ to_be 2 1 ++ to_be 2 1 ++ to_be 4 60 ++ to_be 2 4 ++ to_be 4 167772162.

Lemma filter_retargets_witness : exists out,
  filter_with compressed_reply (conf_decide [46] 3) = Ok (out, 1%nat) /\
  pointer_at compressed_reply 50 = Some 32%nat /\ pointer_at out 37 = Some 19%nat /\
  (exists el work, 1%nat = length el /\ rtc (retarget el) compressed_reply work /\
     (length out + elided_bytes el = length compressed_reply)%nat).
Proof.
  eexists. split; [vm_compute; reflexivity|]. split_and!; [reflexivity|reflexivity|].
  destruct (filter_retargets compressed_reply (conf_decide [46] 3) _ 1 ltac:(vm_compute; reflexivity))
    as [[Hn _]|(el & work & H1 & _ & _ & H2 & H3 & _)]; [discriminate Hn|].
  exists el, work. split; [exact H1|]. split; [exact H2|]. exact H3.
Defined.
