(* ===== verification/FrecTable.v ===== *)
(** * In-flight queries and source sockets: [FrecTable] and [RandFdPool] of src/src/forward.rs

    The table of forwarded queries and the pool of random-port sockets they
    hold. Time is an integer number of nanoseconds; a socket is an opaque
    number; what [bind] returns and the random draws of [get_id] are arguments. *)

From Stdlib Require Import ZArith Lia.
From stdpp Require Import base numbers list option gmap sets.
From S2P Require Import Prelude Types.

#[local] Open Scope Z_scope.
#[local] Open Scope rust_scope.

Notation Instant := Z (only parsing).

(** [now.duration_since(earlier)], which is zero when [earlier] is later. *)
Definition duration_since (now earlier : Instant) : Z := Z.max 0 (now - earlier).
Definition from_secs (s : Z) : Z := s * 1000000000.

Definition FREC_NO_CACHE : Z := 4.
Definition FREC_DNSKEY_QUERY : Z := 8.
Definition FREC_DS_QUERY : Z := 16.
Definition FREC_AD_QUESTION : Z := 32.
Definition FREC_DO_QUESTION : Z := 64.
Definition FREC_HAS_PHEADER : Z := 128.
Definition FREC_CHECKING_DISABLED : Z := 2.
Definition FREC_TIMEOUT_SECS : Z := 10.
Definition DEDUP_MASK : Z :=
  FREC_CHECKING_DISABLED ∣∣ FREC_AD_QUESTION ∣∣ FREC_DO_QUESTION ∣∣ FREC_HAS_PHEADER
  ∣∣ FREC_DNSKEY_QUERY ∣∣ FREC_DS_QUERY ∣∣ FREC_NO_CACHE.

(** ** Records *)

(** [SocketAddr]; its IPv6 form has the fields of [MySockAddr]'s. *)
Notation SocketAddr := MySockAddr (only parsing).

(** Pool slots held, most recently promoted first. *)
Notation RfdList := (list nat) (only parsing).

Record FrecSrc : Type := mkSrc {
  source : option SocketAddr;
  dest : option IpAddr;
  iface : Z;
  log_id : Z;
  encode_bitmap : Z;
  fd : Z;
  orig_id : Z;
  udp_pkt_size : Z;
}.

Definition default_src : FrecSrc := mkSrc None None 0 0 0 0 0 0.

Record Frec : Type := mkFrec {
  frec_src : FrecSrc;
  extra_srcs : list FrecSrc;
  sentto : option nat;
  new_id : Z;
  forwardall : bool;
  fflags : Z;
  sent_at : Instant;
  stash : option (list u8);
  question_hash : list u8;
  rfds : RfdList;
  tried : gset nat;
  retries : Z;
  fclass : Z;
  work_counter : Z;
  validate_counter : Z;
  uid : Z;
  blocking_query : option nat;
  dependent : option nat;
}.

Definition zero_hash : list u8 := replicate 16 Byte.x00.

Definition new_free (now : Instant) : Frec :=
  mkFrec default_src [] None 0 false 0 now None zero_hash [] ∅ 0 1 0 0 0 None None.

Definition srcs (f : Frec) : list FrecSrc := frec_src f :: extra_srcs f.

Record FrecTable : Type := mkTable {
  frecs : list Frec;
  max_per_group : nat;
  frec_src_count : nat;
  next_uid : Z;
  last_full_log : option Instant;
  released_rfds : RfdList;
}.

Definition set_frecs (fs : list Frec) (t : FrecTable) : FrecTable :=
  mkTable fs (max_per_group t) (frec_src_count t) (next_uid t) (last_full_log t) (released_rfds t).

Definition table_new (n : nat) : FrecTable := mkTable [] n 0 0 None [].

Definition take_released_rfds (t : FrecTable) : RfdList * FrecTable :=
  (released_rfds t, mkTable (frecs t) (max_per_group t) (frec_src_count t) (next_uid t) (last_full_log t) []).

(** ** Freeing *)

(** The fields [free_frec] clears; the others keep their values. *)
Definition reset (f : Frec) : Frec :=
  mkFrec default_src [] None (new_id f) false 0 (sent_at f) None zero_hash [] ∅ 0 (fclass f)
    (work_counter f) (validate_counter f) (uid f) None None.

(** One call without the recursive one: the cleared record, its sockets parked
    and its duplicate clients returned to the budget. *)
Definition free_one (idx : nat) (f : Frec) (t : FrecTable) : FrecTable :=
  mkTable (<[idx := reset f]> (frecs t)) (max_per_group t)
    (frec_src_count t - length (extra_srcs f)) (next_uid t) (last_full_log t)
    (released_rfds t ++ rfds f).

(** The recursion follows [blocking_query] links, each of which it clears, so
    that one more call than there are records is enough. *)
Fixpoint free_loop (fuel : nat) (idx : nat) (t : FrecTable) : option FrecTable :=
  match fuel with
  | O => None
  | S n =>
    match frecs t !! idx with
    | None => Some t
    | Some f =>
      let t1 := free_one idx f t in
      match blocking_query f with
      | None => Some t1
      | Some bq =>
        match frecs t1 !! bq with
        | None => Some t1
        | Some fb =>
          let still_has_deps := bool_decide (is_Some (dependent fb)) && negb (bool_decide (dependent fb = Some idx)) in
          if still_has_deps then Some t1 else free_loop n bq t1
        end
      end
    end
  end.

Definition free_frec (idx : nat) (t : FrecTable) : FrecTable :=
  default t (free_loop (S (length (frecs t))) idx t).

(** ** Allocation *)

Definition in_flight (f : Frec) : bool := bool_decide (is_Some (sentto f)).

Definition emit_query_full (now : Instant) (t : FrecTable) : bool * FrecTable :=
  let quiet := match last_full_log t with
               | None => true
               | Some l => from_secs 5 <=? duration_since now l
               end in
  if quiet
  then (true, mkTable (frecs t) (max_per_group t) (frec_src_count t) (next_uid t) (Some now) (released_rfds t))
  else (false, t).

(** The scan of [get_new_frec]: a free slot, the first timed-out one, and the
    queries in flight to the server. *)
Fixpoint scan_frecs (i : nat) (fs : list Frec) (now : Instant) (server_idx : nat) (force : bool)
    (free_slot oldest_slot : option nat) (count : nat) : option nat * option nat * nat :=
  match fs with
  | [] => (free_slot, oldest_slot, count)
  | f :: rest =>
    match sentto f with
    | None =>
      let free_slot := match free_slot with None => Some i | s => s end in
      scan_frecs (S i) rest now server_idx force free_slot oldest_slot count
    | Some s =>
      let age := duration_since now (sent_at f) in
      let collectable := negb force && bool_decide (dependent f = None) in
      if collectable && (from_secs (4 * FREC_TIMEOUT_SECS) <=? age)
      then scan_frecs (S i) rest now server_idx force (Some i) oldest_slot count
      else
        let oldest_slot :=
          if collectable && (from_secs FREC_TIMEOUT_SECS <=? age)
          then match oldest_slot with None => Some i | o => o end else oldest_slot in
        let count := if bool_decide (s = server_idx) && (age <? from_secs FREC_TIMEOUT_SECS) then S count else count in
        scan_frecs (S i) rest now server_idx force free_slot oldest_slot count
    end
  end.

(** The new entry's time and uid. *)
Definition stamp (idx : nat) (now : Instant) (t : FrecTable) : FrecTable :=
  let u := next_uid t in
  mkTable (alter (fun f => mkFrec (frec_src f) (extra_srcs f) (sentto f) (new_id f) (forwardall f) (fflags f) now
             (stash f) (question_hash f) (rfds f) (tried f) (retries f) (fclass f) (work_counter f)
             (validate_counter f) u (blocking_query f) (dependent f)) idx (frecs t))
    (max_per_group t) (frec_src_count t) (as_u32 (u + 1)) (last_full_log t) (released_rfds t).

Definition get_new_frec (now : Instant) (server_idx : nat) (force : bool) (t : FrecTable) : option nat * FrecTable :=
  let '(free_slot, oldest_slot, count) := scan_frecs 0 (frecs t) now server_idx force None None 0 in
  if negb force && (max_per_group t <=? count)%nat then (None, snd (emit_query_full now t))
  else
    let target := match free_slot with Some i => Some i | None => if force then None else oldest_slot end in
    let '(idx, t1) :=
      match target with
      | Some i =>
        match frecs t !! i with
        | Some f => (i, if in_flight f then free_frec i t else t)
        | None => (i, t)
        end
      | None => (length (frecs t), set_frecs (frecs t ++ [new_free now]) t)
      end in
    (Some idx, stamp idx now t1).

(** [get_id] draws until an identifier is neither zero nor in use; [None] when
    the given draws run out. *)
Fixpoint get_id (draws : list Z) (t : FrecTable) : option Z :=
  match draws with
  | [] => None
  | id :: rest =>
    if id =? 0 then get_id rest t
    else if existsb (fun f => in_flight f && (new_id f =? id)) (frecs t) then get_id rest t
    else Some id
  end.

(** ** Lookup *)

Definition fresh (now : Instant) (f : Frec) : bool :=
  duration_since now (sent_at f) <? from_secs (4 * FREC_TIMEOUT_SECS).

(** The first query that matches, unless it is too old. *)
Definition first_match (now : Instant) (P : Frec -> bool) (t : FrecTable) : option nat :=
  let! (i, f) := list_find (fun f => P f = true) (frecs t) in
  if fresh now f then Some i else None.

Definition lookup_frec (now : Instant) (id : option Z) (flags flagmask : Z) (t : FrecTable) : option nat :=
  first_match now (fun f =>
    in_flight f && (Z.land (fflags f) flagmask =? flags)
    && match id with None => true | Some want => new_id f =? want end) t.

Definition lookup_frec_by_question (now : Instant) (hash : list u8) (fwd_flags : Z) (t : FrecTable) : option nat :=
  first_match now (fun f =>
    in_flight f && bool_decide (question_hash f = hash)
    && (Z.land (fflags f) DEDUP_MASK =? Z.land fwd_flags DEDUP_MASK)) t.

Definition with_extra (f : Frec) (s : list FrecSrc) : Frec :=
  mkFrec (frec_src f) s (sentto f) (new_id f) (forwardall f) (fflags f) (sent_at f) (stash f) (question_hash f)
    (rfds f) (tried f) (retries f) (fclass f) (work_counter f) (validate_counter f) (uid f) (blocking_query f) (dependent f).

Definition add_src (idx : nat) (src : FrecSrc) (t : FrecTable) : bool * FrecTable :=
  if (max_per_group t <=? frec_src_count t)%nat then (false, t)
  else match frecs t !! idx with
       | None => (false, t)
       | Some f =>
         (true, mkTable (<[idx := with_extra f (extra_srcs f ++ [src])]> (frecs t)) (max_per_group t)
                  (S (frec_src_count t)) (next_uid t) (last_full_log t) (released_rfds t))
       end.

Definition stale_indices (now : Instant) (timeout : Z) (fs : list Frec) : list nat :=
  fst <$> List.filter (fun p => in_flight p.2 && (timeout <? duration_since now (sent_at p.2))) (imap pair fs).

Definition expire_old (now : Instant) (timeout : Z) (t : FrecTable) : nat * FrecTable :=
  let stale := stale_indices now timeout (frecs t) in
  (length stale, fold_left (fun t idx => free_frec idx t) stale t).

Definition active_count (t : FrecTable) : nat := length (List.filter in_flight (frecs t)).

(** ** Servers *)

(** [last] is a [usize]: the first call passes [usize::MAX]. *)
Definition next_server (servers : list nat) (tried : gset nat) (last : Z) : option nat :=
  if (length servers =? 0)%nat || (length servers <=? size tried)%nat then None
  else
    let start := match list_find (fun s => Z.of_nat s = last) servers with
                 | Some (p, _) => ((p + 1) mod length servers)%nat
                 | None => O
                 end in
    let candidates := (fun i => default O (servers !! ((start + i) mod length servers)%nat)) <$> seq 0 (length servers) in
    snd <$> list_find (fun idx => idx ∉ tried) candidates.

(** ** The socket pool *)

Record RandomSocket : Type := mkSock { socket : Z; refcount : nat; server_idx_ : option nat; temporary : bool }.

Record RandFdPool : Type := mkPool {
  slots : list (option RandomSocket);
  numrrand : nat;
  randport_limit : nat;
  finger : nat;
}.

Definition RANDOM_SOCKS : nat := 75.
Definition RANDPORT_LIMIT : nat := 1.

Definition pool_new (numrrand randport_limit : nat) : RandFdPool :=
  mkPool (replicate numrrand None) numrrand (Nat.max randport_limit 1) 0.

Definition sized_for_with_fd_limit (ftabsize randport_limit max_fd : nat) : RandFdPool :=
  pool_new (Nat.max (Nat.min (ftabsize / 2) (max_fd / 3)) 1) randport_limit.

Definition slot (p : RandFdPool) (idx : nat) : option RandomSocket := mjoin (slots p !! idx).

Definition put_slot (p : RandFdPool) (idx : nat) (s : option RandomSocket) : RandFdPool :=
  mkPool (<[idx := s]> (slots p)) (numrrand p) (randport_limit p) (finger p).

(** How many sockets for the server the transaction holds, and the last one's
    position in its list. *)
Definition held_for (p : RandFdPool) (fdl : RfdList) (server_idx : nat) : nat * option nat :=
  let hits := List.filter (fun q : nat * nat => match slot p q.2 with
                                              | Some r => bool_decide (server_idx_ r = Some server_idx)
                                              | None => false
                                              end) (imap pair fdl) in
  (length hits, fst <$> last hits).

(** The slot to share, searched from the round-robin finger. *)
Definition shareable (p : RandFdPool) (fdl : RfdList) (server_idx i : nat) : bool :=
  match slot p i with
  | Some r => negb (temporary r) && (0 <? refcount r)%nat && bool_decide (server_idx_ r = Some server_idx)
  | None => false
  end && negb (bool_decide (i ∈ fdl)).

Definition find_shared (p : RandFdPool) (fdl : RfdList) (server_idx : nat) : option nat :=
  let n := length (slots p) in
  snd <$> list_find (fun i => shareable p fdl server_idx i = true) ((fun j => (j + finger p) mod n)%nat <$> seq 0 n).

Definition first_free (ss : list (option RandomSocket)) : option nat := fst <$> list_find (fun s => s = None) ss.

(** A fresh socket in a slot; [bound] is what [bind] returned. *)
Definition open_at (p : RandFdPool) (fdl : RfdList) (idx : nat) (sock : Z) (server_idx : nat) (temp : bool)
    : option Z * RfdList * RandFdPool :=
  (Some sock, fdl ++ [idx], put_slot p idx (Some (mkSock sock 1 (Some server_idx) temp))).

(** Steps 2 to 4: a free slot of the pool, a socket to share, or an overflow
    socket outside the pool. *)
Definition alloc_new (bound : option Z) (fdl : RfdList) (server_idx : nat) (p : RandFdPool)
    : option Z * RfdList * RandFdPool :=
  match first_free (take (numrrand p) (slots p)) with
  | Some idx =>
    match bound with
    | Some sock => open_at p fdl idx sock server_idx false
    | None => (None, fdl, p)
    end
  | None =>
    match find_shared p fdl server_idx with
    | Some i =>
      match slot p i with
      | Some r =>
        (Some (socket r), fdl ++ [i],
         mkPool (<[i := Some (mkSock (socket r) (S (refcount r)) (server_idx_ r) (temporary r))]> (slots p))
           (numrrand p) (randport_limit p) (i + 1))
      | None => (None, fdl, p)
      end
    | None =>
      match bound with
      | None => (None, fdl, p)
      | Some sock =>
        let '(idx, p1) := match first_free (slots p) with
                          | Some idx => (idx, p)
                          | None => (length (slots p), mkPool (slots p ++ [None]) (numrrand p) (randport_limit p) (finger p))
                          end in
        open_at p1 fdl idx sock server_idx true
      end
    end
  end.

Definition allocate (bound : option Z) (fdl : RfdList) (server_idx : nat) (p : RandFdPool)
    : option Z * RfdList * RandFdPool :=
  let '(held, last_held) := held_for p fdl server_idx in
  match last_held with
  | Some pos_ =>
    if (randport_limit p <=? held)%nat then
      let s := default O (fdl !! pos_) in
      (socket <$> slot p s, s :: delete pos_ fdl, p)
    else alloc_new bound fdl server_idx p
  | None => alloc_new bound fdl server_idx p
  end.

(** One step of the loop of [free_rfds]. *)
Definition release_slot (p : RandFdPool) (idx : nat) : RandFdPool :=
  match slot p idx with
  | None => p
  | Some r =>
    let n := (refcount r - 1)%nat in
    put_slot p idx (if temporary r || (n =? 0)%nat then None
                    else Some (mkSock (socket r) n (server_idx_ r) (temporary r)))
  end.

(** [while slots.len() > numrrand && slots.last() is a free slot { pop }],
    on the slots past the fixed pool in reverse. *)
Fixpoint trim (past : list (option RandomSocket)) : list (option RandomSocket) :=
  match past with
  | None :: rest => trim rest
  | _ => past
  end.

Definition trim_slots (p : RandFdPool) : RandFdPool :=
  mkPool (take (numrrand p) (slots p) ++ reverse (trim (reverse (drop (numrrand p) (slots p)))))
    (numrrand p) (randport_limit p) (finger p).

Definition free_rfds (fdl : RfdList) (p : RandFdPool) : RandFdPool :=
  trim_slots (fold_left release_slot fdl p).

(** ** Socket accounting *)

Definition occ (i : nat) (l : list nat) : nat := length (List.filter (Nat.eqb i) l).

Lemma occ_app i a b : occ i (a ++ b) = (occ i a + occ i b)%nat.
Proof. unfold occ. by rewrite List.filter_app, length_app. Qed.
Lemma occ_cons i x l : occ i (x :: l) = ((if decide (i = x) then 1 else 0) + occ i l)%nat.
Proof. unfold occ. cbn [List.filter]. destruct (Nat.eqb_spec i x), (decide (i = x)); done. Qed.
Lemma occ_nil i : occ i [] = O.
Proof. done. Qed.

Lemma occ_delete i (l : list nat) pos x : l !! pos = Some x -> occ i l = occ i (x :: delete pos l).
Proof.
  intros H. rewrite <- (take_drop_middle l pos x H) at 1. rewrite delete_take_drop.
  rewrite occ_cons, !occ_app, occ_cons. lia.
Qed.

Lemma occ_pos i l : i ∈ l <-> (0 < occ i l)%nat.
Proof.
  induction l as [|x l IH]; [split; [by intros ?%not_elem_of_nil|cbn; lia]|].
  rewrite occ_cons, elem_of_cons, IH. case_decide; split; intros; try lia; (by left) || (right; lia).
Qed.

(** The pool agrees with the sockets held: a slot is open exactly as long as it
    is held, its count is the number of times it is held, and an overflow
    socket has one holder. *)
Definition slot_ok (s : option RandomSocket) (n : nat) : Prop :=
  match s with
  | Some r => refcount r = n /\ (0 < n)%nat /\ (temporary r = true -> n = 1%nat)
  | None => n = O
  end.

Record pool_ok (p : RandFdPool) (held : list nat) : Prop := {
  po_len : (numrrand p <= length (slots p))%nat;
  po_slot : forall i, slot_ok (slot p i) (occ i held);
}.

Lemma slot_put p idx s i : (idx < length (slots p))%nat ->
  slot (put_slot p idx s) i = if decide (i = idx) then s else slot p i.
Proof.
  intros Hi. unfold slot, put_slot. cbn [slots]. case_decide as E.
  - subst. by rewrite list_lookup_insert_eq.
  - by rewrite list_lookup_insert_ne.
Qed.

Lemma slot_None_ge p i : (length (slots p) <= i)%nat -> slot p i = None.
Proof. intros H. unfold slot. by rewrite lookup_ge_None_2. Qed.

Lemma slot_lt p i r : slot p i = Some r -> (i < length (slots p))%nat.
Proof. intros H. destruct (Nat.lt_ge_cases i (length (slots p))); [done|]. rewrite slot_None_ge in H by done. done. Qed.

Lemma first_free_Some ss i : first_free ss = Some i -> ss !! i = Some None.
Proof.
  unfold first_free. intros H. apply fmap_Some in H as ([j s] & H & ->).
  apply list_find_Some in H as (H & -> & _). done.
Qed.

Lemma pool_ok_ext p held held' : pool_ok p held -> (forall i, occ i held = occ i held') -> pool_ok p held'.
Proof. intros [H1 H2] E. split; [done|]. intros i. rewrite <- E. apply H2. Qed.

(** Opening a fresh socket in a free slot. *)
Lemma open_at_ok p others fdl idx sock srv temp r fdl' p' :
  pool_ok p (others ++ fdl) -> slots p !! idx = Some None ->
  open_at p fdl idx sock srv temp = (r, fdl', p') -> pool_ok p' (others ++ fdl').
Proof.
  intros [Hl Hs] Hi [= <- <- <-]. assert (idx < length (slots p))%nat as Hlt by (by eapply lookup_lt_Some).
  assert (slot p idx = None) as Hn by (unfold slot; by rewrite Hi).
  split; [cbn; by rewrite length_insert|]. intros i. rewrite slot_put by done. pose proof (Hs i) as Hsi.
  rewrite !occ_app, occ_cons, occ_nil in *. case_decide as E.
  - subst. rewrite Hn in Hsi. cbn in *. lia.
  - by rewrite !Nat.add_0_r.
Qed.

Lemma held_for_last p fdl srv n pos_ : held_for p fdl srv = (n, Some pos_) ->
  exists s r, fdl !! pos_ = Some s /\ slot p s = Some r /\ server_idx_ r = Some srv.
Proof.
  unfold held_for. intros [= _ H]. apply fmap_Some in H as ([j s] & H & ->).
  apply last_Some in H as [l' H]. assert ((j, s) ∈ l' ++ [(j, s)]) as Hin by (apply elem_of_app; right; by left).
  rewrite <- H in Hin. apply list_elem_of_In, filter_In in Hin as [Hin Hp].
  apply list_elem_of_In, elem_of_lookup_imap in Hin as (j' & s' & [= -> ->] & Hl).
  cbn [fst snd] in *. destruct (slot p s') as [r|] eqn:E; [|done]. exists s', r. split_and!; [done|done|].
  by apply bool_decide_eq_true in Hp.
Qed.

(** What an allocation hands out: a socket of the server, held afterwards. *)
Definition handed_out (p : RandFdPool) (fdl : list nat) (srv : nat) (sock : Z) : Prop :=
  exists idx r, idx ∈ fdl /\ slot p idx = Some r /\ socket r = sock /\ server_idx_ r = Some srv.

Lemma open_at_out p fdl idx sock srv temp r fdl' p' : (idx < length (slots p))%nat ->
  open_at p fdl idx sock srv temp = (r, fdl', p') -> r = Some sock /\ handed_out p' fdl' srv sock.
Proof.
  intros Hlt [= <- <- <-]. split; [done|]. exists idx, (mkSock sock 1 (Some srv) temp).
  split_and!; [apply elem_of_app; right; by left| |done|done]. rewrite slot_put by done. by rewrite decide_True.
Qed.

Lemma find_shared_Some p fdl srv i : find_shared p fdl srv = Some i -> i ∉ fdl /\
  exists r, slot p i = Some r /\ temporary r = false /\ server_idx_ r = Some srv.
Proof.
  unfold find_shared. intros H. apply fmap_Some in H as ([j s] & H & ->).
  apply list_find_Some in H as (_ & H & _). unfold shareable in H. cbn [snd] in *.
  apply andb_true_iff in H as [H1 H2%negb_true_iff%bool_decide_eq_false]. split; [done|].
  destruct (slot p s) as [r|]; [|done]. exists r.
  apply andb_true_iff in H1 as [[H1%negb_true_iff _]%andb_true_iff H3%bool_decide_eq_true]. done.
Qed.

Lemma alloc_new_ok bound p others fdl srv r fdl' p' :
  pool_ok p (others ++ fdl) -> alloc_new bound fdl srv p = (r, fdl', p') ->
  pool_ok p' (others ++ fdl') /\
  match r with Some sock => handed_out p' fdl' srv sock | None => fdl' = fdl /\ p' = p end.
Proof.
  intros Hok. pose proof Hok as [Hl Hs]. unfold alloc_new. destruct (first_free (take _ _)) as [idx|] eqn:Ef.
  - apply first_free_Some in Ef. rewrite lookup_take_Some in Ef. destruct Ef as [Ef _].
    destruct bound as [sock|]; [|intros [= <- <- <-]; done]. intros H. split; [by eapply open_at_ok|].
    apply lookup_lt_Some in Ef. destruct (open_at_out _ _ _ _ _ _ _ _ _ Ef H) as [-> ?]. done.
  - clear Ef. destruct (find_shared p fdl srv) as [i|] eqn:Es.
    + apply find_shared_Some in Es as (Hni & ri & Hi & Ht & Hv). rewrite Hi. intros [= <- <- <-].
      pose proof (slot_lt _ _ _ Hi) as Hlt.
      assert (forall j s, slot (mkPool (<[i := s]> (slots p)) (numrrand p) (randport_limit p) (i + 1)) j =
        if decide (j = i) then s else slot p j) as Hsl by (intros j s; apply (slot_put p i); done).
      split; [split|].
      * cbn. by rewrite length_insert.
      * intros j. rewrite Hsl. pose proof (Hs j) as Hj. rewrite !occ_app, occ_cons, occ_nil in *. case_decide; subst.
        { rewrite Hi in Hj. cbn in *. split_and!; [lia|lia|congruence]. }
        by rewrite !Nat.add_0_r.
      * eexists i, _. split_and!; [apply elem_of_app; right; by left|rewrite Hsl; by rewrite decide_True|done|done].
    + destruct bound as [sock|]; [|intros [= <- <- <-]; done].
      destruct (first_free (slots p)) as [idx|] eqn:Ef.
      * apply first_free_Some in Ef. intros H. split; [by eapply open_at_ok|].
        apply lookup_lt_Some in Ef. destruct (open_at_out _ _ _ _ _ _ _ _ _ Ef H) as [-> ?]. done.
      * intros H. set (p1 := mkPool (slots p ++ [None]) (numrrand p) (randport_limit p) (finger p)) in *.
        assert (slots p1 !! length (slots p) = Some None) as Hn by (cbn; by rewrite list_lookup_middle).
        assert (pool_ok p1 (others ++ fdl)) as Hok1.
        { split; [cbn; rewrite length_app; lia|]. intros j. specialize (Hs j). unfold slot in *. cbn.
          destruct (Nat.lt_ge_cases j (length (slots p))); [by rewrite lookup_app_l|].
          rewrite lookup_app_r by done. rewrite (lookup_ge_None_2 (slots p)) in Hs by done.
          destruct (j - length (slots p))%nat as [|[|]]; exact Hs. }
        split; [by eapply open_at_ok|]. apply lookup_lt_Some in Hn.
        destruct (open_at_out _ _ _ _ _ _ _ _ _ Hn H) as [-> ?]. done.
Qed.

Lemma allocate_ok bound p others fdl srv r fdl' p' :
  pool_ok p (others ++ fdl) -> allocate bound fdl srv p = (r, fdl', p') ->
  pool_ok p' (others ++ fdl') /\
  match r with Some sock => handed_out p' fdl' srv sock | None => fdl' = fdl /\ p' = p end.
Proof.
  intros Hok. unfold allocate. destruct (held_for p fdl srv) as [n [pos_|]] eqn:E; [|by apply alloc_new_ok].
  destruct (_ <=? _)%nat; [|by apply alloc_new_ok].
  destruct (held_for_last _ _ _ _ _ E) as (s & rs & Hp & Hsl & Hv). rewrite Hp. cbn [default]. unfold Datatypes.id.
  rewrite Hsl. intros [= <- <- <-]. split.
  - eapply pool_ok_ext; [exact Hok|]. intros i. rewrite !occ_app. f_equal. by apply occ_delete.
  - exists s, rs. split_and!; [by left|done|done|done].
Qed.

Lemma release_slot_ok p x l : pool_ok p (x :: l) -> pool_ok (release_slot p x) l.
Proof.
  intros [Hl Hs]. unfold release_slot. pose proof (Hs x) as Hx. rewrite occ_cons, decide_True in Hx by done.
  destruct (slot p x) as [r|] eqn:E; [|cbn in Hx; lia]. cbn in Hx. destruct Hx as (Hr & _ & Ht).
  pose proof (slot_lt _ _ _ E) as Hlt. split; [cbn; by rewrite length_insert|].
  intros i. rewrite slot_put by done. pose proof (Hs i) as Hi. rewrite occ_cons in Hi. case_decide as Ei; [|done].
  subst i. rewrite Hr. cbn [Nat.add]. rewrite Nat.sub_succ, Nat.sub_0_r.
  destruct (temporary r) eqn:Et; cbn [orb].
  - specialize (Ht eq_refl). cbn. lia.
  - destruct (Nat.eqb_spec (occ x l) 0); cbn; [done|]. split_and!; [done|lia|congruence].
Qed.

Lemma release_all_ok fdl : forall p held, pool_ok p (fdl ++ held) -> pool_ok (fold_left release_slot fdl p) held.
Proof. induction fdl as [|x fdl IH]; intros p held H; cbn; [done|]. by apply IH, release_slot_ok. Qed.

Lemma trim_spec l : exists n, l = replicate n None ++ trim l.
Proof.
  induction l as [|[x|] l [n IH]]; cbn [trim]; [by exists O|by exists O|]. exists (S n). cbn. by rewrite <- IH.
Qed.

Lemma trim_slots_slot p i : slot (trim_slots p) i = slot p i.
Proof.
  unfold slot, trim_slots. cbn [slots]. set (a := take (numrrand p) (slots p)).
  destruct (trim_spec (reverse (drop (numrrand p) (slots p)))) as [n E].
  assert (drop (numrrand p) (slots p) = reverse (trim (reverse (drop (numrrand p) (slots p)))) ++ replicate n None) as E'.
  { rewrite <- (reverse_involutive (drop _ _)) at 1. rewrite E at 1. rewrite reverse_app, reverse_replicate. done. }
  set (b := reverse (trim _)) in *.
  rewrite <- (take_drop (numrrand p) (slots p)) at 1. fold a. rewrite E', app_assoc.
  destruct (Nat.lt_ge_cases i (length (a ++ b))); [by rewrite (lookup_app_l (a ++ b)) by done|].
  rewrite (lookup_ge_None_2 (a ++ b)), lookup_app_r by done.
  destruct (replicate n None !! _) eqn:Er; [|done]. apply lookup_replicate in Er as [-> _]. done.
Qed.

Lemma free_rfds_ok fdl p held : pool_ok p (fdl ++ held) -> pool_ok (free_rfds fdl p) held.
Proof.
  intros H. apply release_all_ok in H as [Hl Hs]. unfold free_rfds. set (q := fold_left release_slot fdl p) in *.
  split; [|intros i; rewrite trim_slots_slot; apply Hs].
  cbn. rewrite length_app, length_take. lia.
Qed.

Lemma pool_new_ok n lim : pool_ok (pool_new n lim) [].
Proof.
  split; [cbn; by rewrite length_replicate|]. intros i. unfold slot. cbn.
  destruct (replicate n None !! i) eqn:E; [|done]. apply lookup_replicate in E as [-> _]. done.
Qed.

(** ** The table *)

Definition held (t : FrecTable) : list nat := mjoin (rfds <$> frecs t) ++ released_rfds t.
Definition src_total (fs : list Frec) : nat := sum_list_with (fun f => length (extra_srcs f)) fs.

(** No two queries in flight share an identifier. *)
Definition ids_unique (fs : list Frec) : Prop :=
  forall i j f g, fs !! i = Some f -> fs !! j = Some g -> in_flight f = true -> in_flight g = true ->
    new_id f = new_id g -> i = j.

Record table_ok (t : FrecTable) : Prop := {
  to_srcs : frec_src_count t = src_total (frecs t);
  to_cap : (frec_src_count t <= max_per_group t)%nat;
  to_ids : ids_unique (frecs t);
  to_clean : forall i f, frecs t !! i = Some f -> in_flight f = false ->
    rfds f = [] /\ extra_srcs f = [] /\ tried f = ∅;
}.

Definition clean_frecs (fs : list Frec) : Prop :=
  forall i f, fs !! i = Some f -> in_flight f = false -> rfds f = [] /\ extra_srcs f = [] /\ tried f = ∅.

Lemma clean_insert fs i g : clean_frecs fs ->
  (in_flight g = false -> rfds g = [] /\ extra_srcs g = [] /\ tried g = ∅) -> clean_frecs (<[i := g]> fs).
Proof. intros H Hg j f [(-> & -> & _)|[_ Hj]]%list_lookup_insert_Some; [done|by eapply H]. Qed.

Lemma src_total_insert fs i f g : fs !! i = Some f ->
  (src_total (<[i := g]> fs) + length (extra_srcs f) = src_total fs + length (extra_srcs g))%nat.
Proof.
  intros H. unfold src_total. rewrite insert_take_drop by (by eapply lookup_lt_Some).
  rewrite <- (take_drop_middle fs i f H) at 3. rewrite !sum_list_with_app. cbn. lia.
Qed.

Lemma occ_rfds_insert x fs i f g : fs !! i = Some f ->
  (occ x (mjoin (rfds <$> <[i := g]> fs)) + occ x (rfds f) = occ x (mjoin (rfds <$> fs)) + occ x (rfds g))%nat.
Proof.
  intros H. rewrite insert_take_drop by (by eapply lookup_lt_Some).
  rewrite <- (take_drop_middle fs i f H) at 3. rewrite !fmap_app, !fmap_cons, !join_app. cbn [mjoin list_join].
  rewrite !occ_app. lia.
Qed.

Lemma ids_unique_insert fs i f g : fs !! i = Some f -> ids_unique fs ->
  (in_flight g = true -> in_flight f = true /\ new_id g = new_id f) -> ids_unique (<[i := g]> fs).
Proof.
  intros Hi Hu Hg a b fa fb Ha Hb La Lb E.
  apply list_lookup_insert_Some in Ha as [(-> & -> & _)|[Ha1 Ha]];
    apply list_lookup_insert_Some in Hb as [(Hb0 & -> & _)|[Hb1 Hb]]; subst; try done.
  - destruct (Hg La) as [Hf Ef]. eapply Hu; [exact Hi|exact Hb|done|done|congruence].
  - destruct (Hg Lb) as [Hf Ef]. eapply Hu; [exact Ha|exact Hi|done|done|congruence].
  - by eapply Hu.
Qed.

(** What an operation that frees queries may do to a table. *)
Record freed_some (t t' : FrecTable) : Prop := {
  fs_ok : table_ok t -> table_ok t';
  fs_held : forall x, occ x (held t') = occ x (held t);
  fs_frec : forall j, frecs t' !! j = frecs t !! j \/ frecs t' !! j = reset <$> (frecs t !! j);
  fs_max : max_per_group t' = max_per_group t;
}.

Lemma reset_idem f : reset (reset f) = reset f.
Proof. done. Qed.

Lemma freed_some_refl t : freed_some t t.
Proof. by split; auto. Qed.

Lemma freed_some_trans t1 t2 t3 : freed_some t1 t2 -> freed_some t2 t3 -> freed_some t1 t3.
Proof.
  intros [A1 A2 A3 A4] [B1 B2 B3 B4]. split; [auto|congruence| |congruence].
  intros j. destruct (A3 j) as [EA|EA], (B3 j) as [EB|EB]; rewrite EB, EA; [by left|by right|by right|right].
  by destruct (frecs t1 !! j).
Qed.

Lemma free_one_some idx f t : frecs t !! idx = Some f -> freed_some t (free_one idx f t).
Proof.
  intros Hi. split; [intros [H1 H2 H3 H4]; split| | |done].
  - cbn [free_one frec_src_count frecs]. pose proof (src_total_insert _ _ f (reset f) Hi) as E. change (extra_srcs (reset f)) with (@nil FrecSrc) in E.
    cbn [length] in E. lia.
  - cbn. lia.
  - cbn. apply (ids_unique_insert _ _ f); [done|done|]. by cbn.
  - by apply clean_insert.
  - intros x. unfold held, free_one. cbn [frecs released_rfds].
    pose proof (occ_rfds_insert x _ _ f (reset f) Hi) as E. rewrite !occ_app.
    change (rfds (reset f)) with (@nil nat) in E. rewrite occ_nil in E. lia.
  - intros j. cbn. destruct (decide (j = idx)) as [->|].
    + right. rewrite list_lookup_insert_eq by (by eapply lookup_lt_Some). by rewrite Hi.
    + left. by rewrite list_lookup_insert_ne.
Qed.

Definition blocked (fs : list Frec) : nat := length (List.filter (fun f => bool_decide (is_Some (blocking_query f))) fs).

Lemma blocked_insert fs i f g : fs !! i = Some f -> is_Some (blocking_query f) -> blocking_query g = None ->
  blocked fs = S (blocked (<[i := g]> fs)).
Proof.
  intros H Hf Hg. unfold blocked. rewrite insert_take_drop by (by eapply lookup_lt_Some).
  rewrite <- (take_drop_middle fs i f H) at 1. rewrite !List.filter_app. cbn [List.filter].
  rewrite (bool_decide_true _ Hf), Hg, bool_decide_false by (by intros [? ?]). rewrite !length_app. cbn. lia.
Qed.

Lemma free_loop_spec fuel : forall idx t, (blocked (frecs t) < fuel)%nat -> exists t',
  free_loop fuel idx t = Some t' /\ freed_some t t' /\
  forall f, frecs t !! idx = Some f -> frecs t' !! idx = Some (reset f).
Proof.
  induction fuel as [|fuel IH]; intros idx t Hf; [lia|]. cbn [free_loop].
  destruct (frecs t !! idx) as [f|] eqn:Ei; [|exists t; split_and!; [done|apply freed_some_refl|done]].
  pose proof (free_one_some _ _ _ Ei) as H1.
  assert (frecs (free_one idx f t) !! idx = Some (reset f)) as Hr
    by (cbn; by rewrite list_lookup_insert_eq by (by eapply lookup_lt_Some)).
  assert (exists t', Some (free_one idx f t) = Some t' /\ freed_some t t' /\
    forall f0, Some f = Some f0 -> frecs t' !! idx = Some (reset f0)) as Hdone
    by (eexists; split_and!; [done|done|by intros ? [= <-]]).
  destruct (blocking_query f) as [bq|] eqn:Eb; [|exact Hdone].
  destruct (frecs (free_one idx f t) !! bq) as [fb|] eqn:Ebq; [|exact Hdone].
  destruct (_ && _); [exact Hdone|]. destruct (IH bq (free_one idx f t)) as (t' & Et & Hs & Hbq).
  { pose proof (blocked_insert (frecs t) idx f (reset f) Ei) as E. rewrite Eb in E. specialize (E ltac:(by eexists) eq_refl).
    cbn [free_one frecs]. lia. }
  exists t'. split_and!; [done|by eapply freed_some_trans|]. intros f0 [= <-].
  destruct (fs_frec _ _ Hs idx) as [E|E]; rewrite E, Hr; done.
Qed.

Lemma free_frec_spec idx t : freed_some t (free_frec idx t) /\
  forall f, frecs t !! idx = Some f -> frecs (free_frec idx t) !! idx = Some (reset f).
Proof.
  unfold free_frec. destruct (free_loop_spec (S (length (frecs t))) idx t) as (t' & -> & H1 & H2).
  - unfold blocked. pose proof (List.filter_length_le (fun f => bool_decide (is_Some (blocking_query f))) (frecs t)). lia.
  - cbn. done.
Qed.

(** A slot whose bookkeeping fields alone change. *)
Lemma insert_keeps_ok t i f g fs' : frecs t !! i = Some f -> fs' = <[i := g]> (frecs t) -> table_ok t ->
  extra_srcs g = extra_srcs f -> rfds g = rfds f -> sentto g = sentto f -> new_id g = new_id f -> tried g = tried f ->
  src_total fs' = src_total (frecs t) /\ (forall x, occ x (mjoin (rfds <$> fs')) = occ x (mjoin (rfds <$> frecs t))) /\
  ids_unique fs' /\ clean_frecs fs'.
Proof.
  intros Hi -> [H1 H2 H3 H4] Ee Er Es En Et. split_and!.
  - pose proof (src_total_insert _ _ _ g Hi). rewrite Ee in *. lia.
  - intros x. pose proof (occ_rfds_insert x _ _ _ g Hi). rewrite Er in *. lia.
  - apply (ids_unique_insert _ _ f); [done|done|]. unfold in_flight. by rewrite Es, En.
  - apply clean_insert; [done|]. unfold in_flight. rewrite Es, Er, Ee, Et. by apply (H4 i).
Qed.

Lemma alter_insert {A} (h : A -> A) (l : list A) (i : nat) x : l !! i = Some x -> alter h i l = <[i := h x]> l.
Proof.
  intros H. apply list_eq. intros j. destruct (decide (i = j)) as [<-|].
  - rewrite list_lookup_alter_eq, H, list_lookup_insert_eq by (by eapply lookup_lt_Some). done.
  - by rewrite list_lookup_alter_ne, list_lookup_insert_ne.
Qed.

Lemma stamp_ok idx now t f : frecs t !! idx = Some f -> table_ok t ->
  table_ok (stamp idx now t) /\ (forall x, occ x (held (stamp idx now t)) = occ x (held t)) /\
  exists g, frecs (stamp idx now t) = <[idx := g]> (frecs t) /\ sentto g = sentto f /\ sent_at g = now /\
    rfds g = rfds f /\ extra_srcs g = extra_srcs f /\ tried g = tried f.
Proof.
  intros Hi Hok. set (g := mkFrec (frec_src f) (extra_srcs f) (sentto f) (new_id f) (forwardall f) (fflags f) now
    (stash f) (question_hash f) (rfds f) (tried f) (retries f) (fclass f) (work_counter f) (validate_counter f)
    (next_uid t) (blocking_query f) (dependent f)).
  assert (frecs (stamp idx now t) = <[idx := g]> (frecs t)) as E by (unfold stamp; cbn [frecs]; by rewrite (alter_insert _ _ _ f)).
  destruct (insert_keeps_ok t idx f g _ Hi E Hok) as (S1 & S2 & S3 & S4); try done.
  split_and!.
  - split; [change (frec_src_count t = src_total (frecs (stamp idx now t))); rewrite S1; apply Hok|apply Hok|exact S3|exact S4].
  - intros x. unfold held. rewrite !occ_app, S2. done.
  - exists g. done.
Qed.

Lemma scan_frecs_bounds now srv force fs : forall i fr ol c fr' ol' c',
  scan_frecs i fs now srv force fr ol c = (fr', ol', c') ->
  (fr' = fr \/ exists k, fr' = Some (i + k)%nat /\ (k < length fs)%nat) /\
  (ol' = ol \/ exists k, ol' = Some (i + k)%nat /\ (k < length fs)%nat).
Proof.
  induction fs as [|f fs IH]; intros i fr ol c fr' ol' c'; cbn [scan_frecs length].
  { intros [= <- <- <-]. split; by left. }
  assert (forall fr1 ol1 c1, (fr1 = fr \/ fr1 = Some i) -> (ol1 = ol \/ ol1 = Some i) ->
    scan_frecs (S i) fs now srv force fr1 ol1 c1 = (fr', ol', c') ->
    (fr' = fr \/ exists k, fr' = Some (i + k)%nat /\ (k < S (length fs))%nat) /\
    (ol' = ol \/ exists k, ol' = Some (i + k)%nat /\ (k < S (length fs))%nat)) as Hstep.
  { intros fr1 ol1 c1 Hf Ho [[->|(k & -> & Hk)] [->|(k' & -> & Hk')]]%IH; split;
      try (destruct Hf as [->| ->]; [by left|right; exists O; split; [by rewrite Nat.add_0_r|lia]]);
      try (destruct Ho as [->| ->]; [by left|right; exists O; split; [by rewrite Nat.add_0_r|lia]]);
      right; eexists; (split; [f_equal; by rewrite Nat.add_succ_comm|lia]). }
  destruct (sentto f).
  - destruct (_ && _); [apply Hstep; [by right|by left]|].
    apply Hstep; [by left|]. destruct (_ && _); [destruct ol; [by left|by right]|by left].
  - apply Hstep; [destruct fr; [by left|by right]|by left].
Qed.

Lemma emit_query_full_ok now t : let t' := snd (emit_query_full now t) in
  frecs t' = frecs t /\ max_per_group t' = max_per_group t /\ (table_ok t -> table_ok t') /\ held t' = held t.
Proof. unfold emit_query_full. case_match; cbn; split_and!; try done; intros [? ? ? ?]; by split. Qed.

Lemma grow_ok now t : table_ok t -> let t' := set_frecs (frecs t ++ [new_free now]) t in
  table_ok t' /\ (forall x, occ x (held t') = occ x (held t)) /\ frecs t' !! length (frecs t) = Some (new_free now).
Proof.
  intros [H1 H2 H3 H4]. cbn zeta. split_and!; [split| |].
  - change (frec_src_count t = src_total (frecs t ++ [new_free now])). unfold src_total in *.
    rewrite sum_list_with_app. cbn. lia.
  - done.
  - intros i j f g Hf Hg Lf Lg E. cbn in Hf, Hg.
    apply lookup_snoc_Some in Hf as [[? Hf]|[? <-]]; [|done]. apply lookup_snoc_Some in Hg as [[? Hg]|[? <-]]; [|done].
    by eapply H3.
  - intros i f Hf Lf. cbn in Hf. apply lookup_snoc_Some in Hf as [[? Hf]|[? <-]]; [by eapply H4|done].
  - intros x. unfold held, set_frecs. cbn [frecs released_rfds]. rewrite fmap_app, join_app, !occ_app.
    change (mjoin (rfds <$> [new_free now])) with (@nil nat). rewrite occ_nil. lia.
  - cbn. by rewrite list_lookup_middle.
Qed.

(** The record [get_new_frec] hands out is free and clean, stamped with the
    current time; other records are as they were or were freed. *)
Lemma get_new_frec_spec now srv force t r t' : table_ok t -> get_new_frec now srv force t = (r, t') ->
  table_ok t' /\ (forall x, occ x (held t') = occ x (held t)) /\ max_per_group t' = max_per_group t /\
  match r with
  | None => force = false /\ frecs t' = frecs t
  | Some idx => exists f, frecs t' !! idx = Some f /\ in_flight f = false /\ sent_at f = now
  end.
Proof.
  intros Hok. unfold get_new_frec. destruct (scan_frecs _ _ _ _ _ _ _ _) as [[fr ol] c] eqn:Es.
  apply scan_frecs_bounds in Es as [Hfr Hol]. destruct (negb force && _) eqn:Ef.
  { intros [= <- <-]. destruct (emit_query_full_ok now t) as (E1 & E2 & E3 & E4).
    apply andb_true_iff in Ef as [Ef%negb_true_iff _]. rewrite E4. split_and!; auto. }
  assert (forall idx t1 f, table_ok t1 -> (forall x, occ x (held t1) = occ x (held t)) -> max_per_group t1 = max_per_group t ->
    frecs t1 !! idx = Some f -> in_flight f = false -> (Some idx, stamp idx now t1) = (r, t') ->
    table_ok t' /\ (forall x, occ x (held t') = occ x (held t)) /\ max_per_group t' = max_per_group t /\
    match r with None => force = false /\ frecs t' = frecs t
    | Some idx => exists f, frecs t' !! idx = Some f /\ in_flight f = false /\ sent_at f = now end) as Hfin.
  { intros idx t1 f Hok1 Hh Hm Hi Hf [= <- <-]. destruct (stamp_ok idx now t1 f Hi Hok1) as (S1 & S2 & g & Eg & G1 & G2 & _).
    split_and!; [done|intros x; by rewrite S2, Hh|done|]. exists g. rewrite Eg.
    rewrite list_lookup_insert_eq by (by eapply lookup_lt_Some). unfold in_flight in *. by rewrite G1. }
  destruct (match fr with Some i => Some i | None => if force then None else ol end) as [i|] eqn:Et.
  - assert (exists f, frecs t !! i = Some f) as [f Hi].
    { apply lookup_lt_is_Some_2. destruct fr as [j|]; [|destruct force; [done|]].
      - injection Et as ->. destruct Hfr as [?|(k & [= ->] & ?)]; [done|lia].
      - subst ol. destruct Hol as [?|(k & [= ->] & ?)]; [done|lia]. }
    rewrite Hi. destruct (in_flight f) eqn:Elf; cbn iota.
    + destruct (free_frec_spec i t) as [[F1 F2 F3 F4] F5]. eapply (Hfin i); [by apply F1|exact F2|exact F4|by apply F5|done].
    + by eapply (Hfin i).
  - destruct (grow_ok now t Hok) as (G1 & G2 & G3). by eapply (Hfin (length (frecs t))).
Qed.

Lemma add_src_ok idx src t b t' : table_ok t -> add_src idx src t = (b, t') ->
  (forall f, frecs t !! idx = Some f -> in_flight f = true) ->
  table_ok t' /\ (forall x, occ x (held t') = occ x (held t)) /\ max_per_group t' = max_per_group t.
Proof.
  intros Hok. pose proof Hok as [H1 H2 H3 H4]. unfold add_src.
  destruct (Nat.leb_spec (max_per_group t) (frec_src_count t)); [intros [= <- <-]; done|].
  destruct (frecs t !! idx) as [f|] eqn:Ei; [|intros [= <- <-]; done]. intros [= <- <-] Hfl.
  specialize (Hfl f eq_refl). set (g := with_extra f (extra_srcs f ++ [src])). split_and!; [split| |done].
  - cbn [frec_src_count frecs]. pose proof (src_total_insert _ _ f g Ei) as E.
    change (extra_srcs g) with (extra_srcs f ++ [src]) in E. rewrite length_app in E. cbn [length] in E. lia.
  - cbn. lia.
  - apply (ids_unique_insert _ _ f); [done|done|]. done.
  - apply clean_insert; [done|]. intros Hg. change (in_flight f = false) in Hg. congruence.
  - intros x. unfold held. cbn [frecs released_rfds]. pose proof (occ_rfds_insert x _ _ f g Ei) as E.
    change (rfds g) with (rfds f) in E. rewrite !occ_app. lia.
Qed.

Lemma free_all_some idxs : forall t, freed_some t (fold_left (fun t idx => free_frec idx t) idxs t).
Proof.
  induction idxs as [|i idxs IH]; intros t; cbn; [apply freed_some_refl|].
  eapply freed_some_trans; [apply free_frec_spec|apply IH].
Qed.

Lemma get_id_spec draws t id : get_id draws t = Some id ->
  id ∈ draws /\ id <> 0 /\ forall i f, frecs t !! i = Some f -> in_flight f = true -> new_id f <> id.
Proof.
  induction draws as [|d draws IH]; cbn [get_id]; [done|].
  assert (get_id draws t = Some id -> id ∈ d :: draws /\ id <> 0 /\
    forall i f, frecs t !! i = Some f -> in_flight f = true -> new_id f <> id) as Hr.
  { intros (? & ? & ?)%IH. split_and!; [by right|done|done]. }
  destruct (Z.eqb_spec d 0); [done|]. destruct (existsb _ _) eqn:E; [done|]. intros [= <-].
  split_and!; [by left|done|]. intros i f Hi Hf Hid.
  assert (existsb (fun f => in_flight f && (new_id f =? d)) (frecs t) = true) as C; [|congruence].
  apply existsb_exists. exists f. split; [by eapply list_elem_of_In, list_elem_of_lookup_2|].
  by rewrite Hf, Hid, Z.eqb_refl.
Qed.

(** [get_id] answers as soon as one draw can be used. *)
Lemma get_id_progress draws t id : id ∈ draws -> id <> 0 ->
  (forall i f, frecs t !! i = Some f -> in_flight f = true -> new_id f <> id) -> is_Some (get_id draws t).
Proof.
  intros Hin Hz Hf. induction draws as [|d draws IH]; [by apply not_elem_of_nil in Hin|]. cbn [get_id].
  apply elem_of_cons in Hin as [<-|Hin].
  - rewrite (proj2 (Z.eqb_neq _ _) Hz). destruct (existsb _ _) eqn:E; [|by eexists]. exfalso.
    apply existsb_exists in E as (f & Hin%list_elem_of_In & [H1 H2%Z.eqb_eq]%andb_true_iff).
    apply list_elem_of_lookup in Hin as [i Hi]. by eapply Hf.
  - destruct (_ =? 0); [by apply IH|]. destruct (existsb _ _); [by apply IH|by eexists].
Qed.

Lemma first_frec_Some now P t i : first_match now P t = Some i <->
  exists f, frecs t !! i = Some f /\ P f = true /\ fresh now f = true /\
    forall j g, (j < i)%nat -> frecs t !! j = Some g -> P g = false.
Proof.
  unfold first_match. split.
  - destruct (list_find _ _) as [[j f]|] eqn:E; [|done]. apply list_find_Some in E as (H1 & H2 & H3).
    destruct (fresh now f) eqn:Ef; [|done]. intros [= <-]. exists f. split_and!; [done|done|done|].
    intros k g Hk Hg. specialize (H3 k g Hg Hk). by destruct (P g).
  - intros (f & H1 & H2 & H3 & H4). assert (list_find (fun f => P f = true) (frecs t) = Some (i, f)) as ->.
    + apply list_find_Some. split_and!; [done|done|]. intros j g Hj Hlt. by rewrite (H4 j g).
    + by rewrite H3.
Qed.

(** [next_server] picks a listed server that was not tried, and finds one
    whenever there is one and fewer servers were tried than are listed. *)
Lemma next_server_spec servers tried last :
  (forall s, next_server servers tried last = Some s -> s ∈ servers /\ s ∉ tried) /\
  (next_server servers tried last = None ->
     (length servers <= size tried)%nat \/ forall s, s ∈ servers -> s ∈ tried).
Proof.
  unfold next_server. destruct (Nat.eqb_spec (length servers) 0) as [E0|E0]; cbn [orb].
  { destruct servers; [|done]. split; [done|]. intros _. right. by intros s ?%not_elem_of_nil. }
  destruct (Nat.leb_spec (length servers) (size tried)); [split; [done|by left]|].
  set (start := match list_find _ _ with Some _ => _ | None => _ end).
  assert (forall i, (i < length servers)%nat -> exists s, servers !! i = Some s) as Hin
    by (intros i Hi; by apply lookup_lt_is_Some_2).
  split.
  - intros s Hs. apply fmap_Some in Hs as ([k s'] & Hs & ->). apply list_find_Some in Hs as (H1 & H2 & _).
    cbn. split; [|done]. apply list_lookup_fmap_Some in H1 as (i & -> & Hi).
    destruct (Hin ((start + i) mod length servers)%nat) as [s Hs]; [by apply Nat.mod_upper_bound|].
    rewrite Hs. cbn. by eapply list_elem_of_lookup_2.
  - intros Hn. apply fmap_None in Hn. rewrite list_find_None in Hn. right. intros s Hs.
    destruct (decide (s ∈ tried)) as [|Hnt]; [done|]. exfalso. apply list_elem_of_lookup in Hs as [p Hp].
    pose proof (lookup_lt_Some _ _ _ Hp) as Hlt. rewrite Forall_forall in Hn.
    apply (Hn s); [|done]. apply list_elem_of_fmap.
    set (n := length servers) in *. exists ((p + (n - start mod n)) mod n)%nat. split.
    + rewrite Nat.Div0.add_mod_idemp_r. replace ((start + (p + (n - start mod n))) mod n)%nat with p; [by rewrite Hp|].
      pose proof (Nat.mod_upper_bound start n E0). rewrite (Nat.div_mod_eq start n) at 1.
      replace (n * (start / n) + start mod n + (p + (n - start mod n)))%nat with (p + (1 + start / n) * n)%nat by lia.
      rewrite Nat.Div0.mod_add, Nat.mod_small by done. done.
    + apply elem_of_seq. split; [lia|]. apply Nat.mod_upper_bound. done.
Qed.
