(* ===== verification/Forward.v ===== *)
(** * The forwarding engine: [ForwardEngine] of src/src/forward.rs

    Queries go upstream or join one in flight; replies are validated, retried
    at another server, or delivered. The asynchronous operations are state
    passing functions of the engine and of what the outside world answers
    during the call (an [Env]): the time, the random draws, the socket [bind]
    returned, whether the datagram could be sent, the client's hardware address.
    Log lines and connection marks leave the state alone and are left out. *)

From Stdlib Require Import ZArith Lia String.
From stdpp Require Import base numbers list option gmap sets strings.
From S2P Require Import Prelude ByteCursor DnsProtocol Rfc1035 Types Metrics Server HashQuestions Edns0 FrecTable.

#[local] Open Scope Z_scope.
#[local] Open Scope rust_scope.

(** ** Stateless helpers *)

Definition EDNS_DO : Z := 0x8000.
Definition EDNS_PKTSZ : Z := 4096.

(** [skip_rr] of forward.rs's own [find_pseudoheader]: the type, class and ttl
    of a record and the offset after it. *)
Definition skip_rr (pkt : list u8) (pos : nat) : option (Z * Z * Z * nat) :=
  let! pos := ok (skip_name pkt pos) in
  let! end_ := checked_add pos 10 in
  if (length pkt <? end_)%nat then None
  else
    let rdlen := Z.to_nat (be16_at pkt (pos + 8)) in
    let! after := checked_add end_ rdlen in
    if (length pkt <? after)%nat then None
    else Some (be16_at pkt pos, be16_at pkt (pos + 2), be32_at pkt (pos + 4), after).

Fixpoint skip_qs (count : nat) (pkt : list u8) (pos : nat) : option nat :=
  match count with
  | O => Some pos
  | S n =>
    let! pos := ok (skip_name pkt pos) in
    let! pos := checked_add pos 4 in
    skip_qs n pkt pos
  end.

Fixpoint skip_n (count : nat) (pkt : list u8) (pos : nat) : option nat :=
  match count with
  | O => Some pos
  | S n => let! (_, _, _, pos) := skip_rr pkt pos in skip_n n pkt pos
  end.

(** The additional section: the last pseudo record wins. *)
Fixpoint find_last_opt (count : nat) (pkt : list u8) (pos : nat) (found : option (Z * Z)) : option (Z * Z) :=
  match count with
  | O => found
  | S n =>
    let! (rtype, class, ttl, pos) := skip_rr pkt pos in
    find_last_opt n pkt pos (if rtype =? 41 then Some (class, ttl) else found)
  end.

Definition fwd_find_pseudoheader (pkt : list u8) : option (Z * Z) :=
  if (length pkt <? DNS_HEADER_LEN)%nat then None
  else
    let count at_ := Z.to_nat (be16_at pkt at_) in
    if (count 10 =? 0)%nat then None
    else
      let! pos := skip_qs (count 4%nat) pkt DNS_HEADER_LEN in
      let! pos := skip_n (count 6%nat + count 8%nat) pkt pos in
      find_last_opt (count 10%nat) pkt pos None.

Definition fwd_flags_from_query (pkt : list u8) : Z :=
  if (length pkt <? DNS_HEADER_LEN)%nat then 0
  else
    let opt := fwd_find_pseudoheader pkt in
    let do_bit := match opt with Some (_, ttl) => has ttl EDNS_DO | None => false end in
    (match opt with Some _ => FREC_HAS_PHEADER | None => 0 end)
    ∣∣ (if do_bit || has (u8_at pkt 3) HB4_AD then FREC_AD_QUESTION else 0)
    ∣∣ (if do_bit then FREC_DO_QUESTION else 0)
    ∣∣ (if has (u8_at pkt 3) HB4_CD then FREC_CHECKING_DISABLED else 0).

Definition patch_id (pkt : list u8) (id : Z) : list u8 :=
  if (length pkt <? 2)%nat then pkt
  else <[1%nat := z8 id]> (<[0%nat := z8 (id / 256)]> pkt).

Definition is_truncated (pkt : list u8) : bool := (12 <=? length pkt)%nat && has (u8_at pkt 2) 0x02.

(** [name.len() - dlen] may fall inside a character: the slice then panics. *)
Definition domain_matches_suffix (name domain : str) : outcome bool :=
  let dlen := length domain in
  if (dlen =? 0)%nat || (length name <? dlen)%nat then Val false
  else
    let start := (length name - dlen)%nat in
    let# suffix := str_from name start in
    Val (eq_ignore_ascii_case suffix domain
         && ((length name =? dlen)%nat || bool_decide (name !! pred start = Some dot))).

(** ** Ignored addresses *)

Record BogusAddr : Type := mkBogus { ba_is6 : bool; ba_prefix : Z; ba_addr : AllAddr }.

Definition addr_in_bogus_range (addr : AllAddr) (ba : BogusAddr) : bool :=
  match addr, ba_is6 ba, ba_addr ba with
  | Addr4 ip, false, Addr4 ba_ip =>
    let prefix := Z.min 32 (Z.max 0 (ba_prefix ba)) in
    let mask := if prefix =? 0 then 0
                else if 32 <=? prefix then 4294967295
                else not32 (Z.shiftl 1 (32 - prefix) - 1) in
    Z.land ip mask =? Z.land ba_ip mask
  | Addr6 ip, true, Addr6 ba_ip =>
    let prefix := Z.to_nat (Z.min 128 (Z.max 0 (ba_prefix ba))) in
    let full := (prefix / 8)%nat in
    let rem := (prefix mod 8)%nat in
    let ib := octets6 ip in
    let bb := octets6 ba_ip in
    if negb (bool_decide (take full ib = take full bb)) then false
    else if (0 <? rem)%nat && (full <? 16)%nat then
      let mask := 255 - (Z.shiftl 1 (8 - Z.of_nat rem) - 1) in
      Z.land (u8_at ib full) mask =? Z.land (u8_at bb full) mask
    else true
  | _, _, _ => false
  end.

Definition answer_address (rr : DnsRr) : option AllAddr :=
  if negb (class rr =? 1) then None
  else if (rtype rr =? 1) && (4 <=? length (rdata rr))%nat then Some (Addr4 (of_be (take 4 (rdata rr))))
  else if (rtype rr =? 28) && (16 <=? length (rdata rr))%nat then Some (Addr6 (of_be (take 16 (rdata rr))))
  else None.

Fixpoint find_bad (rrs : list DnsRr) (ranges : list BogusAddr) : option (str * Z) :=
  match rrs with
  | [] => None
  | rr :: rest =>
    match answer_address rr with
    | Some addr => if existsb (addr_in_bogus_range addr) ranges then Some (r_name rr, ttl rr) else find_bad rest ranges
    | None => find_bad rest ranges
    end
  end.

Definition find_bad_address (p : DnsPacket) (ranges : list BogusAddr) : option (str * Z) :=
  if (length ranges =? 0)%nat then None else find_bad (answers p) ranges.

Definition check_for_ignored_address (p : DnsPacket) (ignore_addrs : list BogusAddr) : bool :=
  bool_decide (is_Some (find_bad_address p ignore_addrs)).

(** ** The engine *)

(** The configuration the engine reads. *)
Record ForwardConfig : Type := mkConfig {
  upstreams : list MySockAddr;
  server_domains : list str;
  max_retries : Z;
  timeout : Z;
  ignore_addr : list BogusAddr;
  cfg_add_mac : bool;
  cfg_strip_mac : bool;
  cfg_mac_b64 : bool;
  cfg_mac_hex : bool;
}.

Record ForwardEngine : Type := mkEngine {
  config : ForwardConfig;
  table : FrecTable;
  upstream_order : list nat;
  rfd_pool : RandFdPool;
  loop_servers : list Server;
  counters : Counters;
}.

Definition set_table (t : FrecTable) (e : ForwardEngine) : ForwardEngine :=
  mkEngine (config e) t (upstream_order e) (rfd_pool e) (loop_servers e) (counters e).
Definition set_pool (p : RandFdPool) (e : ForwardEngine) : ForwardEngine :=
  mkEngine (config e) (table e) (upstream_order e) p (loop_servers e) (counters e).
Definition count_forwarded (e : ForwardEngine) : ForwardEngine :=
  mkEngine (config e) (table e) (upstream_order e) (rfd_pool e) (loop_servers e)
    (inc_metric DnsQueriesForwarded (counters e)).

(** What the outside world answers during one call. *)
Record Env : Type := mkEnv {
  env_now : Z;
  env_draws : list Z;
  env_bound : option Z;
  env_sent : bool;
  env_mac : option (list u8);
}.

Inductive ForwardOutcome : Type := Forwarded (id : Z) | Duplicate | Refused_ | Dropped.

Record ReplyTarget : Type := mkTarget { rt_client : MySockAddr; rt_listener : Z; rt_orig_id : Z; rt_dest : option IpAddr }.

Inductive ReplyAction : Type := Deliver (targets : list ReplyTarget) (flags : Z) | Retried | Ignore.

(** [max_fd] is [open_max()]. *)
Definition engine_new (cfg : ForwardConfig) (ftabsize randport_limit max_fd : nat) (loops : list Server) (g : Counters)
    : ForwardEngine :=
  let ftabsize := Nat.max ftabsize 1 in
  mkEngine cfg (table_new ftabsize) (seq 0 (length (upstreams cfg)))
    (sized_for_with_fd_limit ftabsize randport_limit max_fd) loops g.

Definition refresh_config (cfg : ForwardConfig) (loops : list Server) (e : ForwardEngine) : ForwardEngine :=
  mkEngine cfg (table e) (seq 0 (length (upstreams cfg))) (rfd_pool e) loops (counters e).

Definition is_looping (e : ForwardEngine) (idx : nat) : bool :=
  match loop_servers e !! idx with Some s => contains (s_flags s) LOOP | None => false end.

Definition release_rfds (e : ForwardEngine) : ForwardEngine :=
  let '(freed, t) := take_released_rfds (table e) in
  let e := set_table t e in
  if (length freed =? 0)%nat then e else set_pool (free_rfds freed (rfd_pool e)) e.

(** The query with the client's hardware address in it; the lookup of the
    address is part of the environment. *)
Definition with_client_mac (e : ForwardEngine) (pkt : list u8) (client : IpAddr) (found : option (list u8))
    : outcome (list u8) :=
  let c := config e in
  let needs_mac := edns0_needs_mac (cfg_mac_b64 c) (cfg_mac_hex c) (cfg_add_mac c) in
  if negb needs_mac && negb (cfg_strip_mac c) then Val pkt
  else
    let mac := if needs_mac then found else None in
    let pseudoheader := find_pseudoheader pkt in
    let '(existing, udp_size, flags) := match pseudoheader with
                                        | Some info => (i_options info, i_udp_size info, i_flags info)
                                        | None => ([], EDNS_PKTSZ, 0)
                                        end in
    let cfg := mkQueryConfig (cfg_add_mac c) (cfg_strip_mac c) (cfg_mac_b64 c) (cfg_mac_hex c)
                 false false None None None false false 0 0 (replicate 8 Byte.x00) in
    let '(options, _) := add_edns0_config existing client mac cfg in
    if (length options =? 0)%nat && negb (bool_decide (is_Some pseudoheader)) then Val pkt
    else
      let# r := add_pseudoheader pkt udp_size flags options in
      Val (match r with Ok p => p | Err _ => pkt end).

(** The record of a query that is about to be sent. *)
Definition fill_frec (f : Frec) (server_idx : nat) (id : Z) (hash : list u8) (flags : Z) (pkt : list u8) (src : FrecSrc) : Frec :=
  mkFrec src (extra_srcs f) (Some server_idx) id (forwardall f) flags (sent_at f) (Some pkt) hash (rfds f)
    ({[server_idx]} ∪ tried f) (retries f) (fclass f) (work_counter f) (validate_counter f) (uid f)
    (blocking_query f) (dependent f).

(** The record of a query sent to another server; [u8::saturating_add]. *)
Definition retry_frec (f : Frec) (next_idx : nat) : Frec :=
  mkFrec (frec_src f) (extra_srcs f) (Some next_idx) (new_id f) (forwardall f) (fflags f) (sent_at f) (stash f)
    (question_hash f) (rfds f) ({[next_idx]} ∪ tried f) (Z.min 255 (retries f + 1)) (fclass f) (work_counter f)
    (validate_counter f) (uid f) (blocking_query f) (dependent f).

Definition with_rfds (f : Frec) (l : list nat) : Frec :=
  mkFrec (frec_src f) (extra_srcs f) (sentto f) (new_id f) (forwardall f) (fflags f) (sent_at f) (stash f)
    (question_hash f) l (tried f) (retries f) (fclass f) (work_counter f) (validate_counter f) (uid f)
    (blocking_query f) (dependent f).

Definition put_frec (idx : nat) (f : Frec) (e : ForwardEngine) : ForwardEngine :=
  set_table (set_frecs (<[idx := f]> (frecs (table e))) (table e)) e.

Definition send_upstream (env : Env) (idx server_idx : nat) (e : ForwardEngine) : bool * ForwardEngine :=
  match upstreams (config e) !! server_idx, frecs (table e) !! idx with
  | Some _, Some f =>
    match stash f with
    | None => (false, e)
    | Some _ =>
      let '(sock, l, p) := allocate (env_bound env) (rfds f) server_idx (rfd_pool e) in
      let e := put_frec idx (with_rfds f l) (set_pool p e) in
      match sock with
      | None => (false, e)
      | Some _ => (env_sent env, e)
      end
    end
  | _, _ => (false, e)
  end.

(** The datagram [send_upstream] sends. *)
Definition sent_packet (f : Frec) : option (list u8) := (fun pkt => patch_id pkt (new_id f)) <$> stash f.

Section Engine.
Context `{UnicodeTables} `{Hasher}.

Definition query_name_lower (pkt : list u8) : str :=
  match parse_question pkt 12 with Ok (q, _) => to_lowercase (q_name q) | Err _ => [] end.

(** The loop over the servers: those with the longest domain that matches. *)
Fixpoint best_servers (order : list nat) (domains : list str) (qname : str) (best_len : nat) (candidates : list nat)
    : outcome (list nat) :=
  match order with
  | [] => Val candidates
  | idx :: rest =>
    let domain := default [] (domains !! idx) in
    if (length domain =? 0)%nat then best_servers rest domains qname best_len candidates
    else
      let# m := domain_matches_suffix qname domain in
      if negb m then best_servers rest domains qname best_len candidates
      else
        let dlen := length domain in
        if (length candidates =? 0)%nat || (best_len <? dlen)%nat then best_servers rest domains qname dlen [idx]
        else if (dlen =? best_len)%nat then best_servers rest domains qname best_len (candidates ++ [idx])
        else best_servers rest domains qname best_len candidates
  end.

Definition candidate_servers (e : ForwardEngine) (pkt : list u8) : outcome (list nat) :=
  let domains := server_domains (config e) in
  if negb (existsb (fun d => negb (length d =? 0)%nat) domains) then Val (upstream_order e)
  else
    let# candidates := best_servers (upstream_order e) domains (query_name_lower pkt) 0 [] in
    if negb (length candidates =? 0)%nat then Val candidates
    else Val (List.filter (fun idx => match domains !! idx with
                                      | None => true
                                      | Some d => (length d =? 0)%nat
                                      end) (upstream_order e)).

(** The end of [join_in_flight]: the stashed query once more. *)
Definition resend (env : Env) (idx : nat) (sentto : option nat) (e : ForwardEngine) : ForwardOutcome * ForwardEngine :=
  match sentto with
  | None => (Duplicate, e)
  | Some server_idx =>
    let '(sent, e) := send_upstream env idx server_idx e in
    if sent then (Forwarded (match frecs (table e) !! idx with Some f => new_id f | None => 0 end), count_forwarded e)
    else (Duplicate, e)
  end.

Definition join_in_flight (env : Env) (idx : nat) (oid : Z) (client : MySockAddr) (listener : Z)
    (e : ForwardEngine) : ForwardOutcome * ForwardEngine :=
  match frecs (table e) !! idx with
  | None => (Dropped, e)
  | Some f =>
    let known_src := existsb (fun s => (orig_id s =? oid) && bool_decide (source s = Some client)) (srcs f) in
    let age := duration_since (env_now env) (sent_at f) in
    if known_src then resend env idx (sentto f) e
    else
      let src := mkSrc (Some client) None 0 0 0 listener oid 0 in
      let '(added, t) := add_src idx src (table e) in
      let e := set_table t e in
      if negb added then
        let e := set_table (snd (emit_query_full (env_now env) (table e))) e in
        let e := if from_secs FREC_TIMEOUT_SECS <=? age
                 then release_rfds (set_table (free_frec idx (table e)) e) else e in
        (Refused_, e)
      else if age <? from_secs 2 then (Duplicate, e)
      else resend env idx (sentto f) e
  end.

(** [None] inside the outcome: [get_id] found no identifier in the given draws. *)
Definition forward_query (env : Env) (pkt : list u8) (client : MySockAddr) (listener : Z) (dst : option IpAddr)
    (e : ForwardEngine) : outcome (option (ForwardOutcome * ForwardEngine)) :=
  if (length pkt <? 12)%nat then Val (Some (Dropped, e))
  else match hash_questions pkt with
  | None => Val (Some (Refused_, e))
  | Some qhash =>
    let oid := be16_at pkt 0 in
    let now := env_now env in
    let fwd_flags := fwd_flags_from_query pkt in
    match lookup_frec_by_question now qhash fwd_flags (table e) with
    | Some idx => Val (Some (join_in_flight env idx oid client listener e))
    | None =>
      if (length (upstreams (config e)) =? 0)%nat then Val (Some (Refused_, e))
      else
        let# candidates := candidate_servers e pkt in
        let candidates := List.filter (fun i => negb (is_looping e i)) candidates in
        match next_server candidates ∅ (usize_bound - 1) with
        | None => Val (Some (Dropped, e))
        | Some server_idx =>
          let '(idx, t) := get_new_frec now server_idx false (table e) in
          let e := release_rfds (set_table t e) in
          match idx with
          | None => Val (Some (Refused_, e))
          | Some idx =>
            match get_id (env_draws env) (table e) with
            | None => Val None
            | Some id =>
              let# stash_pkt := with_client_mac e pkt (sock_ip client) (env_mac env) in
              match frecs (table e) !! idx with
              | None => Val (Some (Dropped, e))
              | Some f =>
                let src := mkSrc (Some client) dst 0 0 0 listener oid 0 in
                let e := put_frec idx (fill_frec f server_idx id qhash fwd_flags stash_pkt src) e in
                let '(sent, e) := send_upstream env idx server_idx e in
                if sent then Val (Some (Forwarded id, count_forwarded e))
                else Val (Some (Refused_, release_rfds (set_table (free_frec idx (table e)) e)))
              end
            end
          end
        end
    end
  end.

Definition validate_reply (now : Z) (reply : list u8) (from : MySockAddr) (arrived_on : nat) (e : ForwardEngine)
    : option nat :=
  if (length reply <? 12)%nat || negb (has (u8_at reply 2) 0x80) then None
  else
    let id := be16_at reply 0 in
    let! idx := lookup_frec now (Some id) 0 0 (table e) in
    let! f := frecs (table e) !! idx in
    let! h := hash_questions reply in
    if negb (bool_decide (h = question_hash f)) then None
    else if negb (bool_decide (arrived_on ∈ rfds f)) then None
    else
      let! s := sentto f in
      if negb (bool_decide (upstreams (config e) !! s = Some from)) then None
      else Some idx.

Definition next_untried_server (idx : nat) (e : ForwardEngine) : outcome (option nat) :=
  match frecs (table e) !! idx with
  | None => Val None
  | Some f =>
    if max_retries (config e) <=? retries f then Val None
    else
      let# candidates := match stash f with
                         | Some pkt => candidate_servers e pkt
                         | None => Val (upstream_order e)
                         end in
      Val (let! s := sentto f in next_server candidates (tried f) (Z.of_nat s))
  end.

(** One target per waiting client with an address. *)
Definition targets_of (f : Frec) : list ReplyTarget :=
  omap (fun s => (fun c => mkTarget c (if fd s <? 0 then 0 else fd s) (orig_id s) (dest s)) <$> source s) (srcs f).

Definition is_ignored (reply : list u8) (e : ForwardEngine) : bool :=
  if (length (ignore_addr (config e)) =? 0)%nat || negb (Z.land (u8_at reply 3) 0x0F =? 0) then false
  else match parse reply with
       | Ok p => check_for_ignored_address p (ignore_addr (config e))
       | Err _ => false
       end.

(** Delivery ends the query. *)
Definition complete (idx : nat) (e : ForwardEngine) : ReplyAction * ForwardEngine :=
  let '(targets, flags) := match frecs (table e) !! idx with
                           | Some f => (targets_of f, fflags f)
                           | None => ([], 0)
                           end in
  (Deliver targets flags, release_rfds (set_table (free_frec idx (table e)) e)).

Definition accept_reply (env : Env) (reply : list u8) (from : MySockAddr) (arrived_on : nat) (e : ForwardEngine)
    : outcome (ReplyAction * ForwardEngine) :=
  match validate_reply (env_now env) reply from arrived_on e with
  | None => Val (Ignore, e)
  | Some idx =>
    let rcode := Z.land (u8_at reply 3) 0x0F in
    if is_ignored reply e then Val (Ignore, e)
    else if (rcode =? 2) || (rcode =? 5) then
      let# next := next_untried_server idx e in
      match next with
      | Some next_idx =>
        let e := match frecs (table e) !! idx with
                 | Some f => put_frec idx (retry_frec f next_idx) e
                 | None => e
                 end in
        let '(sent, e) := send_upstream env idx next_idx e in
        if sent then Val (Retried, count_forwarded e) else Val (complete idx e)
      | None => Val (complete idx e)
      end
    else Val (complete idx e)
  end.

Definition expire_queries (now : Z) (e : ForwardEngine) : nat * ForwardEngine :=
  let '(n, t) := expire_old now (timeout (config e)) (table e) in
  (n, release_rfds (set_table t e)).

(** A call of the engine's public operations. *)
Inductive step : ForwardEngine -> ForwardEngine -> Prop :=
| StepQuery env pkt client listener dst e out e' :
    forward_query env pkt client listener dst e = Val (Some (out, e')) -> step e e'
| StepReply env reply from arrived e act e' :
    accept_reply env reply from arrived e = Val (act, e') -> step e e'
| StepExpire now e n e' : expire_queries now e = (n, e') -> step e e'
| StepReload cfg loops e : step e (refresh_config cfg loops e).

End Engine.

(** ** Invariant of the engine *)

(** The table is consistent, the pool's counts are the sockets its queries
    hold, and no freed socket waits to be handed back between calls. *)
Record engine_ok (e : ForwardEngine) : Prop := {
  eo_table : table_ok (table e);
  eo_pool : pool_ok (rfd_pool e) (held (table e));
  eo_released : released_rfds (table e) = [];
}.

Lemma release_rfds_ok e : table_ok (table e) -> pool_ok (rfd_pool e) (held (table e)) ->
  engine_ok (release_rfds e) /\ frecs (table (release_rfds e)) = frecs (table e) /\
  config (release_rfds e) = config e.
Proof.
  intros [H1 H2 H3 H4] Hp. unfold release_rfds, take_released_rfds. cbn zeta beta iota.
  set (t := mkTable _ _ _ _ _ _). assert (table_ok t) as Ht by (by split).
  assert (pool_ok (free_rfds (released_rfds (table e)) (rfd_pool e)) (held t)) as Hf.
  { apply free_rfds_ok. eapply pool_ok_ext; [exact Hp|]. intros x. unfold held. cbn.
    rewrite app_nil_r, !occ_app. lia. }
  destruct (Nat.eqb_spec (length (released_rfds (table e))) 0) as [E|E].
  - split; [|done]. apply nil_length_inv in E. split; [done| |done]. cbn. eapply pool_ok_ext; [exact Hp|].
    intros x. unfold held. cbn. by rewrite E.
  - split; [|done]. by split.
Qed.

Lemma held_put e idx f g x : frecs (table e) !! idx = Some f ->
  (occ x (held (table (put_frec idx g e))) + occ x (rfds f) = occ x (held (table e)) + occ x (rfds g))%nat.
Proof.
  intros Hi. unfold held, put_frec. cbn [table set_table frecs set_frecs released_rfds]. rewrite !occ_app.
  pose proof (occ_rfds_insert x _ _ f g Hi). lia.
Qed.

(** A record replaced by that of a query in flight with an identifier of its own. *)
Lemma put_frec_ok e idx f g : frecs (table e) !! idx = Some f -> table_ok (table e) ->
  extra_srcs g = extra_srcs f -> in_flight g = true ->
  (forall j h, j <> idx -> frecs (table e) !! j = Some h -> in_flight h = true -> new_id h <> new_id g) ->
  table_ok (table (put_frec idx g e)).
Proof.
  intros Hi [H1 H2 H3 H4] Ee Hg Hid. split; cbn [table put_frec set_table].
  - cbn [frec_src_count set_frecs frecs]. pose proof (src_total_insert _ _ _ g Hi). rewrite Ee in *. lia.
  - exact H2.
  - intros a b fa fb Ha Hb La Lb E. cbn [frecs set_frecs] in Ha, Hb.
    apply list_lookup_insert_Some in Ha as [(<- & -> & _)|[Ha1 Ha]];
      apply list_lookup_insert_Some in Hb as [(<- & -> & _)|[Hb1 Hb]]; try done.
    + exfalso. by eapply (Hid b fb).
    + exfalso. by eapply (Hid a fa).
    + by eapply H3.
  - apply clean_insert; [exact H4|]. by rewrite Hg.
Qed.

Lemma ids_others t idx f g : table_ok t -> frecs t !! idx = Some f -> in_flight f = true -> new_id g = new_id f ->
  forall j h, j <> idx -> frecs t !! j = Some h -> in_flight h = true -> new_id h <> new_id g.
Proof. intros [_ _ H3 _] Hi Hf Eg j h Hj Hh Lh E. apply Hj. by eapply (H3 j idx h f); [..|congruence]. Qed.

Lemma engine_same e idx : engine_ok e ->
  engine_ok e /\ config e = config e /\
  forall f, frecs (table e) !! idx = Some f -> exists l, frecs (table e) !! idx = Some (with_rfds f l).
Proof. intros He. split_and!; [done|done|]. intros f Hf. exists (rfds f). rewrite Hf. by destruct f. Qed.

(** Sending keeps the accounts and changes only the sockets of the query. *)
Lemma send_upstream_ok env idx srv e b e' : engine_ok e ->
  (forall f, frecs (table e) !! idx = Some f -> in_flight f = true) ->
  send_upstream env idx srv e = (b, e') ->
  engine_ok e' /\ config e' = config e /\
  forall f, frecs (table e) !! idx = Some f -> exists l, frecs (table e') !! idx = Some (with_rfds f l).
Proof.
  intros Hok0 Hfl. pose proof Hok0 as [Ht Hp Hr]. unfold send_upstream.
  destruct (upstreams (config e) !! srv); [|intros [= <- <-]; by apply engine_same].
  destruct (frecs (table e) !! idx) as [f|] eqn:Hi; [|intros [= <- <-]; rewrite <- Hi; by apply engine_same].
  destruct (stash f) as [stashed|]; [|intros [= <- <-]; rewrite <- Hi; by apply engine_same]. specialize (Hfl f eq_refl).
  destruct (allocate _ _ _ _) as [[sock l] p] eqn:Ea.
  set (others := held (table (put_frec idx (with_rfds f []) e))).
  assert (pool_ok (rfd_pool e) (others ++ rfds f)) as Hp1.
  { eapply pool_ok_ext; [exact Hp|]. intros x. rewrite occ_app. unfold others.
    pose proof (held_put e idx f (with_rfds f []) x Hi) as E. change (rfds (with_rfds f [])) with (@nil nat) in E.
    rewrite occ_nil in E. lia. }
  destruct (allocate_ok _ _ _ _ _ _ _ _ Hp1 Ea) as [Hp2 _].
  assert (engine_ok (put_frec idx (with_rfds f l) (set_pool p e))) as Hok.
  { split; [| |exact Hr].
    - apply (put_frec_ok (set_pool p e) idx f); [done|done|done|done|]. by apply (ids_others _ _ f).
    - change (rfd_pool (put_frec idx (with_rfds f l) (set_pool p e))) with p.
      eapply pool_ok_ext; [exact Hp2|]. intros x. rewrite occ_app. unfold others.
      pose proof (held_put e idx f (with_rfds f []) x Hi) as E1. pose proof (held_put (set_pool p e) idx f (with_rfds f l) x Hi) as E2.
      change (rfds (with_rfds f [])) with (@nil nat) in E1. change (rfds (with_rfds f l)) with l in E2.
      change (held (table (set_pool p e))) with (held (table e)) in E2. rewrite occ_nil in E1. lia. }
  assert (frecs (table (put_frec idx (with_rfds f l) (set_pool p e))) !! idx = Some (with_rfds f l)) as Hl.
  { cbn. rewrite list_lookup_insert_eq; [done|]. by eapply lookup_lt_Some. }
  destruct sock; intros [= <- <-]; (split; [exact Hok|]); (split; [done|]); intros f0 [= <-]; by exists l.
Qed.

Lemma free_release_ok idx e : table_ok (table e) -> pool_ok (rfd_pool e) (held (table e)) ->
  let e' := release_rfds (set_table (free_frec idx (table e)) e) in
  engine_ok e' /\ config e' = config e /\
  forall f, frecs (table e) !! idx = Some f -> frecs (table e') !! idx = Some (reset f).
Proof.
  intros Ht Hp. cbn zeta. destruct (free_frec_spec idx (table e)) as [[F1 F2 F3 F4] F5].
  destruct (release_rfds_ok (set_table (free_frec idx (table e)) e)) as (R1 & R2 & R3).
  - by apply F1.
  - cbn. eapply pool_ok_ext; [exact Hp|]. intros x. by rewrite F2.
  - split_and!; [done|by rewrite R3|]. intros f Hf. rewrite R2. by apply F5.
Qed.

Lemma count_forwarded_ok e : engine_ok e -> engine_ok (count_forwarded e).
Proof. intros [? ? ?]. by split. Qed.

Section EngineProofs.
Context `{UnicodeTables} `{Hasher}.

(** A query found by its question is in flight. *)
Lemma lookup_question_in_flight now h fl t idx f :
  lookup_frec_by_question now h fl t = Some idx -> frecs t !! idx = Some f -> in_flight f = true.
Proof.
  intros (g & Hg & HP & _)%first_frec_Some Hf. rewrite Hf in Hg. injection Hg as <-.
  by apply andb_true_iff in HP as [[HP _]%andb_true_iff _].
Qed.

Lemma resend_ok env idx srv e out e' : engine_ok e ->
  (forall g, frecs (table e) !! idx = Some g -> in_flight g = true) -> resend env idx srv e = (out, e') -> engine_ok e'.
Proof.
  intros Hok Hfl. unfold resend. destruct srv as [srv|]; [|by intros [= <- <-]].
  destruct (send_upstream env idx srv e) as [sent e2] eqn:Es.
  destruct (send_upstream_ok _ _ _ _ _ _ Hok Hfl Es) as (H2 & _). destruct sent; intros [= <- <-]; [|done].
  by apply count_forwarded_ok.
Qed.

Lemma join_in_flight_ok env idx oid client listener e out e' : engine_ok e ->
  (forall f, frecs (table e) !! idx = Some f -> in_flight f = true) ->
  join_in_flight env idx oid client listener e = (out, e') -> engine_ok e'.
Proof.
  intros Hok Hfl. unfold join_in_flight. destruct (frecs (table e) !! idx) as [f|] eqn:Hi; [|by intros [= <- <-]].
  destruct (existsb _ _); [by apply resend_ok; [|rewrite Hi]|].
  destruct (add_src _ _ _) as [added t] eqn:Ea. pose proof Hok as [Ht Hp Hr].
  destruct (add_src_ok _ _ _ _ _ Ht Ea) as (T1 & T2 & T3); [by rewrite Hi|].
  assert (engine_ok (set_table t e)) as Hok1.
  { split; [done|cbn; eapply pool_ok_ext; [exact Hp|intros x; by rewrite T2]|].
    cbn. unfold add_src in Ea. repeat case_match; injection Ea as <- <-; done. }
  destruct added; cbn [negb].
  - destruct (_ <? _); [by intros [= <- <-]|]. apply resend_ok; [done|]. intros g Hg. cbn in Hg.
    unfold add_src in Ea. rewrite Hi in Ea. case_match; [done|]. injection Ea as <-. cbn in Hg.
    rewrite list_lookup_insert_eq in Hg by (by eapply lookup_lt_Some). injection Hg as <-. by apply (Hfl f).
  - set (e2 := set_table (snd (emit_query_full (env_now env) (table (set_table t e)))) (set_table t e)).
    assert (engine_ok e2) as Hok2.
    { destruct (emit_query_full_ok (env_now env) (table (set_table t e))) as (E1 & E2 & E3 & E4).
      split; [by apply E3, Hok1| |].
      { change (pool_ok (rfd_pool (set_table t e)) (held (emit_query_full (env_now env) (table (set_table t e))).2)).
        rewrite E4. apply Hok1. }
      cbn. unfold emit_query_full. case_match; apply Hok1. }
    case_match; intros [= <- <-]; [|done]. apply (free_release_ok idx e2); apply Hok2.
Qed.

Lemma forward_query_ok env pkt client listener dst e out e' : engine_ok e ->
  forward_query env pkt client listener dst e = Val (Some (out, e')) -> engine_ok e'.
Proof.
  intros Hok. unfold forward_query. destruct (_ <? _)%nat; [by intros [= <- <-]|].
  destruct (hash_questions pkt) as [qh|]; [|by intros [= <- <-]].
  destruct (lookup_frec_by_question _ _ _ _) as [idx|] eqn:El.
  { intros [= Hj]. eapply join_in_flight_ok; [exact Hok| |exact Hj]. intros f. by eapply lookup_question_in_flight. }
  destruct (_ =? _)%nat; [by intros [= <- <-]|]. destruct (candidate_servers e pkt) as [cands|]; [|done].
  destruct (next_server _ _ _) as [srv|]; [|by intros [= <- <-]].
  destruct (get_new_frec _ _ _ _) as [r t] eqn:Eg. pose proof Hok as [Ht Hp Hr].
  destruct (get_new_frec_spec _ _ _ _ _ _ Ht Eg) as (G1 & G2 & _ & G4).
  destruct (release_rfds_ok (set_table t e)) as (R1 & R2 & R3).
  { done. } { cbn. eapply pool_ok_ext; [exact Hp|]. intros x. by rewrite G2. }
  set (e1 := release_rfds (set_table t e)) in *. destruct r as [idx|]; [|by intros [= <- <-]].
  destruct G4 as (f & Hf & Lf & _). change (frecs (table (set_table t e))) with (frecs t) in R2.
  destruct (get_id _ _) as [id|] eqn:Ei; [|done]. apply get_id_spec in Ei as (_ & _ & Hfresh).
  destruct (with_client_mac _ _ _ _) as [sp|]; [|done]. rewrite R2, Hf.
  set (g := fill_frec f srv id qh _ sp _). set (e2 := put_frec idx g e1).
  assert (frecs (table e1) !! idx = Some f) as Hf1 by (by rewrite R2).
  assert (engine_ok e2) as Hok2.
  { split; [| |apply R1].
    - apply (put_frec_ok e1 idx f); [done|apply R1|done|done|]. intros j h _ Hj Lh. by apply (Hfresh j).
    - cbn [rfd_pool e2 put_frec set_table]. eapply pool_ok_ext; [apply R1|]. intros x.
      pose proof (held_put e1 idx f g x Hf1) as E. change (rfds g) with (rfds f) in E. unfold e2. lia. }
  destruct (send_upstream env idx srv e2) as [sent e3] eqn:Es.
  assert (forall h, frecs (table e2) !! idx = Some h -> in_flight h = true) as Hfl2.
  { intros h Hh. change (<[idx := g]> (frecs (table e1)) !! idx = Some h) in Hh.
    rewrite list_lookup_insert_eq in Hh by (by eapply lookup_lt_Some). by injection Hh as <-. }
  destruct (send_upstream_ok _ _ _ _ _ _ Hok2 Hfl2 Es) as (H3 & _).
  destruct sent; intros [= <- <-]; [by apply count_forwarded_ok|]. apply (free_release_ok idx e3); apply H3.
Qed.

Lemma validate_reply_Some now reply from arrived e idx : validate_reply now reply from arrived e = Some idx ->
  exists f s, frecs (table e) !! idx = Some f /\ in_flight f = true /\ fresh now f = true /\
    new_id f = be16_at reply 0 /\ hash_questions reply = Some (question_hash f) /\ arrived ∈ rfds f /\
    sentto f = Some s /\ upstreams (config e) !! s = Some from.
Proof.
  unfold validate_reply. destruct (_ || _); [done|]. destruct (lookup_frec _ _ _ _ _) as [i|] eqn:El; [|done].
  apply first_frec_Some in El as (f & Hf & HP & Hfr & _). rewrite Hf.
  destruct (hash_questions reply) as [h|]; [|done]. destruct (bool_decide (h = _)) eqn:Eh; [|done]. cbn [negb].
  destruct (bool_decide (arrived ∈ _)) eqn:Ea; [|done]. cbn [negb]. destruct (sentto f) as [s|] eqn:Es; [|done].
  destruct (bool_decide (_ !! s = _)) eqn:Eu; [|done]. cbn [negb]. intros [= <-].
  apply bool_decide_eq_true in Eh, Ea, Eu. subst h.
  apply andb_true_iff in HP as [[HP _]%andb_true_iff Hid%Z.eqb_eq]. exists f, s. done.
Qed.

Lemma complete_ok idx e act e' : engine_ok e -> complete idx e = (act, e') -> engine_ok e' /\ config e' = config e /\
  forall f, frecs (table e) !! idx = Some f ->
    act = Deliver (targets_of f) (fflags f) /\ frecs (table e') !! idx = Some (reset f).
Proof.
  intros [Ht Hp Hr]. unfold complete. destruct (free_release_ok idx e Ht Hp) as (H1 & H2 & H3).
  destruct (frecs (table e) !! idx) as [f|] eqn:Hi; intros [= <- <-]; (split_and!; [done|done|]).
  - intros f0 [= <-]. split; [done|by apply H3].
  - done.
Qed.

(** A server picked for a retry was not tried before and the budget allows it. *)
Lemma next_untried_Some idx e s f : frecs (table e) !! idx = Some f -> next_untried_server idx e = Val (Some s) ->
  s ∉ tried f /\ retries f < max_retries (config e).
Proof.
  intros Hi. unfold next_untried_server. rewrite Hi. destruct (Z.leb_spec (max_retries (config e)) (retries f)); [done|].
  destruct (match stash f with Some pkt => _ | None => _ end) as [c|]; [|done].
  destruct (sentto f) as [s0|]; [|done]. intros [= Hn]. apply next_server_spec in Hn as [_ Hn]. done.
Qed.

Lemma retry_frec_ok idx f s e : engine_ok e -> frecs (table e) !! idx = Some f -> in_flight f = true ->
  engine_ok (put_frec idx (retry_frec f s) e).
Proof.
  intros [Ht Hp Hr] Hi Hf. split; [| |exact Hr].
  - apply (put_frec_ok e idx f); [done|done|done|done|]. by apply (ids_others _ _ f).
  - change (rfd_pool (put_frec idx (retry_frec f s) e)) with (rfd_pool e). eapply pool_ok_ext; [exact Hp|]. intros x.
    pose proof (held_put e idx f (retry_frec f s) x Hi) as E. change (rfds (retry_frec f s)) with (rfds f) in E. lia.
Qed.

(** What an accepted reply did to the query it answers. *)
Definition reply_effect (act : ReplyAction) (f : Frec) (e e' : ForwardEngine) (idx : nat) : Prop :=
  match act with
  | Ignore => e' = e
  | Deliver targets flags =>
    targets = targets_of f /\ flags = fflags f /\
    exists g, frecs (table e') !! idx = Some g /\ in_flight g = false
  | Retried =>
    exists s g, s ∉ tried f /\ retries f < max_retries (config e) /\ frecs (table e') !! idx = Some g /\
      sentto g = Some s /\ tried g = {[s]} ∪ tried f /\ retries g = Z.min 255 (retries f + 1) /\
      new_id g = new_id f /\ srcs g = srcs f /\ question_hash g = question_hash f /\ stash g = stash f
  end.

Lemma accept_reply_spec env reply from arrived e act e' : engine_ok e ->
  accept_reply env reply from arrived e = Val (act, e') ->
  engine_ok e' /\
  ((act = Ignore /\ e' = e) \/
   exists idx f, validate_reply (env_now env) reply from arrived e = Some idx /\
     frecs (table e) !! idx = Some f /\ reply_effect act f e e' idx).
Proof.
  intros Hok. unfold accept_reply. destruct (validate_reply _ _ _ _ _) as [idx|] eqn:Ev;
    [|intros [= <- <-]; split; [done|by left]].
  destruct (validate_reply_Some _ _ _ _ _ _ Ev) as (f & s & Hi & Hfl & _).
  destruct (is_ignored reply e); [intros [= <- <-]; split; [done|by left]|].
  assert (forall e1 g, engine_ok e1 -> frecs (table e1) !! idx = Some g -> targets_of g = targets_of f -> fflags g = fflags f ->
    Val (complete idx e1) = Val (act, e') ->
    engine_ok e' /\ ((act = Ignore /\ e' = e) \/ exists idx0 f0, Some idx = Some idx0 /\
      frecs (table e) !! idx0 = Some f0 /\ reply_effect act f0 e e' idx0)) as Hfin.
  { intros e1 g Hok1 Hg Et Ef [= Hc]. destruct (complete_ok _ _ _ _ Hok1 Hc) as (H1 & _ & H2).
    destruct (H2 g Hg) as [-> Hr]. split; [done|]. right. exists idx, f. split_and!; [done|done|].
    cbn [reply_effect]. rewrite Et, Ef. split_and!; [done|done|]. by exists (reset g). }
  destruct (_ || _); [|by apply (Hfin e f)].
  destruct (next_untried_server idx e) as [[s'|]|] eqn:En; [|by apply (Hfin e f)|done].
  rewrite Hi. destruct (next_untried_Some _ _ _ _ Hi En) as [Hnt Hret].
  pose proof (retry_frec_ok idx f s' e Hok Hi Hfl) as Hok1. set (e1 := put_frec idx (retry_frec f s') e) in *.
  assert (frecs (table e1) !! idx = Some (retry_frec f s')) as H1i
    by (apply list_lookup_insert_eq; by eapply lookup_lt_Some).
  destruct (send_upstream env idx s' e1) as [sent e2] eqn:Es.
  assert (forall h, frecs (table e1) !! idx = Some h -> in_flight h = true) as Hfl1
    by (intros h Hh; rewrite H1i in Hh; by injection Hh as <-).
  destruct (send_upstream_ok _ _ _ _ _ _ Hok1 Hfl1 Es) as (Hok2 & _ & Hl).
  destruct (Hl _ H1i) as [l Hg]. destruct sent.
  - intros [= <- <-]. split; [by apply count_forwarded_ok|]. right. exists idx, f. split_and!; [done|done|].
    exists s', (with_rfds (retry_frec f s') l). done.
  - by apply (Hfin e2 (with_rfds (retry_frec f s') l)).
Qed.

Lemma step_ok e e' : engine_ok e -> step e e' -> engine_ok e'.
Proof.
  intros Hok Hst. revert Hok.
  destruct Hst as [env pkt client listener dst e0 out e1 Hs|env reply from arrived e0 act e1 Hs|now e0 n e1 Hs|cfg loops e0];
    intros Hok.
  - by eapply forward_query_ok.
  - apply (accept_reply_spec _ _ _ _ _ _ _ Hok Hs).
  - unfold expire_queries in Hs. destruct (expire_old _ _ _) as [m t] eqn:Ee. injection Hs as _ <-.
    unfold expire_old in Ee. injection Ee as _ <-. destruct (free_all_some (stale_indices now (timeout (config e0)) (frecs (table e0))) (table e0))
      as [F1 F2 F3 F4]. destruct Hok as [Ht Hp Hr].
    apply release_rfds_ok; [by apply F1|]. cbn. eapply pool_ok_ext; [exact Hp|]. intros x. by rewrite F2.
  - by destruct Hok.
Qed.

Lemma engine_new_ok cfg n lim fds loops g : engine_ok (engine_new cfg n lim fds loops g).
Proof. split; [|apply pool_new_ok|done]. split; [done|cbn; lia|by intros ? ? ? ? ?|by intros ? ?]. Qed.

Lemma reachable_ok cfg n lim fds loops g e : rtc step (engine_new cfg n lim fds loops g) e -> engine_ok e.
Proof.
  intros Hr. pose proof (engine_new_ok cfg n lim fds loops g) as Hnew. induction Hr as [|e1 e2 e3 Hs _ IH]; [done|].
  apply IH. by eapply step_ok.
Qed.

(** C2: the engine keeps its books over every sequence of queries, replies,
    expiries and reloads. No two queries in flight share a transaction
    identifier. A pool socket's count is the number of times queries hold it,
    an overflow socket has one holder, and a socket is open exactly as long as
    a query in flight holds it: none leaks and none is closed under a query.
    The clients waiting on duplicate queries are counted exactly and bounded. *)
Theorem engine_invariant cfg n lim fds loops g e :
  rtc step (engine_new cfg n lim fds loops g) e ->
  ids_unique (frecs (table e)) /\
  (forall k, slot_ok (slot (rfd_pool e) k) (occ k (mjoin (rfds <$> frecs (table e))))) /\
  (forall k, is_Some (slot (rfd_pool e) k) <->
     exists i f, frecs (table e) !! i = Some f /\ in_flight f = true /\ k ∈ rfds f) /\
  frec_src_count (table e) = sum_list_with (fun f => length (extra_srcs f)) (frecs (table e)) /\
  (frec_src_count (table e) <= max_per_group (table e))%nat.
Proof.
  intros Hreach%reachable_ok. destruct Hreach as [[H1 H2 H3 H4] [Hl Hp] Hr]. unfold held in Hp. rewrite Hr, app_nil_r in Hp.
  split_and!; [done|done| |done|done]. intros k. specialize (Hp k). split.
  - intros [r Er]. rewrite Er in Hp. destruct Hp as (_ & Hpos & _). apply occ_pos in Hpos.
    apply list_elem_of_join in Hpos as (l & Hk & Hl'). apply list_elem_of_fmap in Hl' as (f & -> & Hf).
    apply list_elem_of_lookup in Hf as [i Hi]. exists i, f. split_and!; [done| |done].
    destruct (in_flight f) eqn:E; [done|]. destruct (H4 i f Hi E) as [Hn _]. rewrite Hn in Hk. by apply not_elem_of_nil in Hk.
  - intros (i & f & Hi & _ & Hk). destruct (slot (rfd_pool e) k); [by eexists|]. exfalso. cbn in Hp.
    assert (0 < occ k (mjoin (rfds <$> frecs (table e))))%nat; [|lia]. apply occ_pos, list_elem_of_join.
    exists (rfds f). split; [done|]. apply list_elem_of_fmap. exists f. split; [done|]. by eapply list_elem_of_lookup_2.
Qed.

(** ** Queries do not wait on each other

    The engine never links a query to one it blocks, so that freeing one frees
    no other. *)

Definition unlinked (t : FrecTable) : Prop := Forall (fun f => blocking_query f = None) (frecs t).

Lemma unlinked_lookup t i f : unlinked t -> frecs t !! i = Some f -> blocking_query f = None.
Proof. intros Ht Hi. by eapply (Forall_lookup_1 _ _ _ _ Ht). Qed.
Lemma free_unlinked idx t : unlinked t ->
  free_frec idx t = match frecs t !! idx with Some f => free_one idx f t | None => t end.
Proof.
  intros Ht. unfold free_frec. cbn [free_loop]. destruct (frecs t !! idx) as [f|] eqn:Ei; [|done].
  by rewrite (unlinked_lookup _ _ _ Ht Ei).
Qed.
Lemma unlinked_free idx t : unlinked t -> unlinked (free_frec idx t).
Proof. intros Ht. rewrite free_unlinked by done. destruct (frecs t !! idx); [|done]. by apply Forall_insert. Qed.
Lemma free_others idx t j : unlinked t -> j <> idx -> frecs (free_frec idx t) !! j = frecs t !! j.
Proof. intros Ht Hj. rewrite free_unlinked by done. destruct (frecs t !! idx); [|done]. cbn. by rewrite list_lookup_insert_ne. Qed.

(** The records after [release_rfds], and after sending. *)
Lemma release_frecs e : frecs (table (release_rfds e)) = frecs (table e).
Proof. unfold release_rfds, take_released_rfds. cbv zeta beta iota. by case_match. Qed.
Lemma send_others env idx srv e b e' : send_upstream env idx srv e = (b, e') ->
  (forall j, j <> idx -> frecs (table e') !! j = frecs (table e) !! j) /\ (unlinked (table e) -> unlinked (table e')) /\
  config e' = config e /\ upstream_order e' = upstream_order e /\ loop_servers e' = loop_servers e.
Proof.
  unfold send_upstream. destruct (upstreams (config e) !! srv); [|by intros [= <- <-]].
  destruct (frecs (table e) !! idx) as [f|] eqn:Hi; [|by intros [= <- <-]]. destruct (stash f) as [stashed|]; [|by intros [= <- <-]].
  destruct (allocate _ _ _ _) as [[sock l] p]. intros Hs.
  assert (e' = put_frec idx (with_rfds f l) (set_pool p e)) as -> by (destruct sock; by injection Hs).
  split_and!; [|..]; [|intros Hu; apply Forall_insert; [done|]; exact (unlinked_lookup _ _ _ Hu Hi)|done..].
  intros j Hj. cbn. by rewrite list_lookup_insert_ne.
Qed.
Lemma unlinked_resend env idx srv e out e' : resend env idx srv e = (out, e') -> unlinked (table e) -> unlinked (table e').
Proof.
  unfold resend. destruct srv as [srv|]; [|by intros [= _ <-]]. destruct (send_upstream env idx srv e) as [sent e2] eqn:Es.
  intros Hr Hu. apply (send_others _ _ _ _ _ _ Es) in Hu. destruct sent; by injection Hr as _ <-.
Qed.
Lemma unlinked_release e : unlinked (table e) -> unlinked (table (release_rfds e)).
Proof. unfold unlinked. by rewrite release_frecs. Qed.
Lemma unlinked_emit now t : unlinked t -> unlinked (snd (emit_query_full now t)).
Proof. unfold emit_query_full. by repeat case_match. Qed.
Lemma unlinked_join env idx oid client listener e out e' : join_in_flight env idx oid client listener e = (out, e') ->
  unlinked (table e) -> unlinked (table e').
Proof.
  unfold join_in_flight. destruct (frecs (table e) !! idx) as [f|] eqn:Hi; [|by intros [= _ <-]].
  destruct (existsb _ _); [apply unlinked_resend|]. destruct (add_src _ _ _) as [added t] eqn:Ea. intros Hj Hu.
  assert (unlinked t) as Ht.
  { unfold add_src in Ea. destruct (_ <=? _)%nat; [by injection Ea as _ <-|]. rewrite Hi in Ea. injection Ea as _ <-.
    apply Forall_insert; [done|]. apply (unlinked_lookup _ _ _ Hu Hi). }
  destruct added; cbn [negb] in Hj.
  - destruct (_ <? _); [by injection Hj as _ <-|]. by eapply unlinked_resend.
  - injection Hj as _ <-. case_match; [apply unlinked_release, unlinked_free|]; by apply unlinked_emit.
Qed.
Lemma unlinked_get_new now srv force t idx t' : get_new_frec now srv force t = (idx, t') -> unlinked t -> unlinked t'.
Proof.
  unfold get_new_frec. destruct (scan_frecs _ _ _ _ _ _ _ _) as [[free oldest] count]. destruct (_ && _).
  { intros [= _ <-] Hu. by apply unlinked_emit. }
  set (target := match free with Some _ => _ | None => _ end).
  destruct (match target with Some _ => _ | None => _ end) as [i t1] eqn:E. intros [= _ <-] Hu.
  assert (unlinked t1) as H1.
  { destruct target as [k|]; [|injection E as _ <-; apply Forall_app; split; [done|by repeat constructor]].
    destruct (frecs t !! k); [|by injection E as _ <-]. injection E as _ <-. case_match; [by apply unlinked_free|done]. }
  unfold unlinked, stamp. cbn [frecs]. apply Forall_alter; [done|]. by intros f _ Hf.
Qed.
Lemma unlinked_query env pkt client listener dst e out e' : forward_query env pkt client listener dst e = Val (Some (out, e')) ->
  unlinked (table e) -> unlinked (table e').
Proof.
  unfold forward_query. destruct (_ <? _)%nat; [by intros [= _ <-]|]. destruct (hash_questions pkt) as [qh|]; [|by intros [= _ <-]].
  destruct (lookup_frec_by_question _ _ _ _) as [idx|]; [intros [= Hj]; by eapply unlinked_join|].
  destruct (_ =? _)%nat; [by intros [= _ <-]|]. destruct (candidate_servers e pkt) as [cands|]; [|done].
  destruct (next_server _ _ _) as [srv|]; [|by intros [= _ <-]]. destruct (get_new_frec _ _ _ _) as [r t] eqn:Eg.
  intros Hr Hu. apply (unlinked_get_new _ _ _ _ _ _ Eg) in Hu. revert Hr.
  assert (unlinked (table (release_rfds (set_table t e)))) as H1 by (by apply unlinked_release).
  destruct r as [idx|]; [|by intros [= _ <-]]. destruct (get_id _ _) as [id|]; [|done].
  destruct (with_client_mac _ _ _ _) as [sp|]; [|done]. destruct (frecs (table (release_rfds _)) !! idx) as [f|] eqn:Hf; [|by intros [= _ <-]].
  destruct (send_upstream _ _ _ _) as [sent e3] eqn:Es. apply send_others in Es as (_ & Es & _).
  assert (unlinked (table e3)) as H3 by (apply Es, Forall_insert; [done|]; by apply (unlinked_lookup _ _ _ H1 Hf)).
  destruct sent; intros [= _ <-]; [done|]. by apply unlinked_release, unlinked_free.
Qed.

(** An accepted reply touches one record; the servers and the order stay. *)
Definition only_record (idx : nat) (e e' : ForwardEngine) : Prop :=
  (forall j, j <> idx -> frecs (table e') !! j = frecs (table e) !! j) /\
  config e' = config e /\ upstream_order e' = upstream_order e /\ loop_servers e' = loop_servers e.
Lemma only_refl idx e : only_record idx e e.
Proof. done. Qed.
Lemma only_trans idx e1 e2 e3 : only_record idx e1 e2 -> only_record idx e2 e3 -> only_record idx e1 e3.
Proof. intros (A1 & A2 & A3 & A4) (B1 & B2 & B3 & B4). split_and!; [|congruence..]. intros j Hj. by rewrite B1, A1. Qed.
Lemma only_release idx e : only_record idx e (release_rfds e) .
Proof. split_and!; [intros j _; by rewrite release_frecs|..]; unfold release_rfds, take_released_rfds; cbv zeta beta iota; by case_match. Qed.
Lemma only_complete idx e act e' : unlinked (table e) -> complete idx e = (act, e') -> only_record idx e e' /\ unlinked (table e').
Proof.
  intros Hu. unfold complete. destruct (match frecs (table e) !! idx with Some _ => _ | None => _ end) as [targets flags]. intros [= _ <-]. split.
  - eapply only_trans; [|apply only_release]. split_and!; [|done..]. intros j Hj. by apply free_others.
  - by apply unlinked_release, unlinked_free.
Qed.
Lemma only_reply env reply from arrived e act e' idx : unlinked (table e) -> accept_reply env reply from arrived e = Val (act, e') ->
  validate_reply (env_now env) reply from arrived e = Some idx -> only_record idx e e' /\ unlinked (table e').
Proof.
  intros Hu Ha Hv. unfold accept_reply in Ha. rewrite Hv in Ha. destruct (is_ignored reply e); [by injection Ha as _ <-|].
  destruct (_ || _); [|injection Ha as Ha; by apply only_complete in Ha].
  destruct (next_untried_server idx e) as [[s'|]|]; [|injection Ha as Ha; by apply only_complete in Ha|done].
  set (e1 := match frecs (table e) !! idx with Some f => _ | None => _ end) in Ha.
  assert (only_record idx e e1 /\ unlinked (table e1)) as [H1 U1].
  { unfold e1. destruct (frecs (table e) !! idx) as [f|] eqn:Hi; [|by split]. split.
    - split_and!; [|done..]. intros j Hj. cbn. by rewrite list_lookup_insert_ne.
    - apply Forall_insert; [done|]. exact (unlinked_lookup _ _ _ Hu Hi). }
  destruct (send_upstream env idx s' e1) as [sent e2] eqn:Es. apply send_others in Es as (S1 & S2 & S3 & S4 & S5).
  assert (only_record idx e e2) as H2 by (eapply only_trans; [exact H1|done]). specialize (S2 U1).
  destruct sent; [by injection Ha as _ <-|]. injection Ha as Ha. destruct (only_complete _ _ _ _ S2 Ha) as [H3 H4]. split; [by eapply only_trans|done].
Qed.
Lemma unlinked_step e e' : step e e' -> unlinked (table e) -> unlinked (table e').
Proof.
  destruct 1 as [env pkt client listener dst e0 out e1 Hs|env reply from arrived e0 act e1 Hs|now e0 n e1 Hs|cfg loops e0]; intros Hu.
  - by eapply unlinked_query.
  - destruct (validate_reply (env_now env) reply from arrived e0) as [idx|] eqn:Ev.
    + by apply (only_reply _ _ _ _ _ _ _ _ Hu Hs Ev).
    + unfold accept_reply in Hs. rewrite Ev in Hs. by injection Hs as _ <-.
  - unfold expire_queries, expire_old in Hs. injection Hs as _ <-. apply unlinked_release. cbn [table set_table].
    generalize (stale_indices now (timeout (config e0)) (frecs (table e0))). intros l. revert Hu. generalize (table e0).
    induction l as [|i l IH]; intros t Hu; [done|]. cbn [fold_left]. by apply IH, unlinked_free.
  - done.
Qed.
Lemma reachable_unlinked cfg n lim fds loops g e : rtc step (engine_new cfg n lim fds loops g) e -> unlinked (table e).
Proof.
  intros Hr. assert (unlinked (table (engine_new cfg n lim fds loops g))) as Hn by constructor. revert Hn.
  induction Hr as [|e1 e2 e3 Hs _ IH]; [done|]. intros Hn. by eapply IH, unlinked_step.
Qed.

(** C3: in every engine that queries, replies, expiries and reloads lead to, a
    reply has an effect only on the one query it answers. Unless the
    reply is ignored, which changes nothing, there is exactly one query in
    flight with its identifier; the reply answers the same question, came in on
    a socket that query was sent from, from the server it was sent to, and the
    query is not too old. It is then delivered to all clients of the query,
    which is freed so that no second reply can be, or sent again to a server
    not tried before, within the retry budget. The record of every other query,
    with its clients, sockets and stashed packet, is the same afterwards, and
    so are the servers and their order. *)
Theorem reply_accepted cfg n lim fds loops g env reply from arrived e act e' :
  rtc step (engine_new cfg n lim fds loops g) e -> accept_reply env reply from arrived e = Val (act, e') ->
  (act = Ignore -> e' = e) /\
  (act <> Ignore -> exists idx f s,
     frecs (table e) !! idx = Some f /\ in_flight f = true /\ new_id f = be16_at reply 0 /\
     (forall j h, frecs (table e) !! j = Some h -> in_flight h = true -> new_id h = be16_at reply 0 -> j = idx) /\
     hash_questions reply = Some (question_hash f) /\ arrived ∈ rfds f /\
     sentto f = Some s /\ upstreams (config e) !! s = Some from /\ fresh (env_now env) f = true /\
     reply_effect act f e e' idx /\ only_record idx e e').
Proof.
  intros Hreach Ha. pose proof (reachable_ok _ _ _ _ _ _ _ Hreach) as Hok.
  destruct (accept_reply_spec _ _ _ _ _ _ _ Hok Ha) as [_ [[-> ->]|(idx & f & Hv & Hi & Heff)]].
  - split; [done|]. by intros [].
  - destruct (validate_reply_Some _ _ _ _ _ _ Hv) as (f' & s & Hi' & Hfl & Hfr & Hid & Hh & Har & Hs & Hu).
    rewrite Hi in Hi'. injection Hi' as <-. split; [intros ->; exact Heff|]. intros _. exists idx, f, s.
    split_and!; try done.
    + intros j h Hj Lj Ej. eapply (to_ids _ (eo_table _ Hok) j idx h f); [done..|congruence].
    + apply (only_reply _ _ _ _ _ _ _ _ (reachable_unlinked _ _ _ _ _ _ _ Hreach) Ha Hv).
Qed.

End EngineProofs.

(** ** A run *)

Module Example.
#[local] Existing Instance ascii_tables.
#[local] Existing Instance trace_hasher.

Definition cfg : ForwardConfig :=
  mkConfig [SV4 134744072 53; SV4 16843009 53] [] 2 (from_secs 10) [] false false false false.
Definition start : ForwardEngine := engine_new cfg 4 1 100 [] COUNTERS.
Definition env (now : Z) (draws : list Z) : Env := mkEnv now draws (Some 100) true None.
Definition client : MySockAddr := SV4 2130706433 5353.

Definition question_ : DnsQuestion := mkQuestion (bs "a.example") 1 1.
Definition query : list u8 := write (mkPacket (mkHeader 7 Byte.x01 Byte.x00 0 0 0 0) [question_] [] [] []).
Definition reply (id : Z) (rcode : u8) : list u8 :=
  write (mkPacket (mkHeader id Byte.x81 rcode 0 0 0 0) [question_] [] [] []).

Definition after_query : ForwardEngine :=
  match forward_query (env 0 [0; 4242]) query client 3 None start with Val (Some (_, e)) => e | _ => start end.
Definition after_servfail : ForwardEngine :=
  match accept_reply (env 1 []) (reply 4242 Byte.x82) (SV4 134744072 53) 0 after_query with Val (_, e) => e | _ => start end.

Lemma forwarded : forward_query (env 0 [0; 4242]) query client 3 None start = Val (Some (Forwarded 4242, after_query)).
Proof. vm_compute. reflexivity. Qed.

Lemma retried : accept_reply (env 1 []) (reply 4242 Byte.x82) (SV4 134744072 53) 0 after_query = Val (Retried, after_servfail).
Proof. vm_compute. reflexivity. Qed.

Lemma engine_invariant_witness :
  rtc step start after_servfail /\ slot_ok (slot (rfd_pool after_servfail) 1) 1 /\
  is_Some (slot (rfd_pool after_servfail) 1).
Proof.
  assert (rtc step start after_servfail) as Hr.
  { eapply rtc_l; [eapply StepQuery, forwarded|]. apply rtc_once. eapply StepReply, retried. }
  split; [exact Hr|]. destruct (engine_invariant cfg 4 1 100 [] COUNTERS after_servfail Hr) as (_ & Hs & _).
  specialize (Hs 1%nat). split; [exact Hs|]. vm_compute. eexists. reflexivity.
Defined.

Lemma reply_accepted_witness : exists targets e',
  accept_reply (env 2 []) (reply 4242 Byte.x80) (SV4 16843009 53) 1 after_servfail = Val (Deliver targets 0, e') /\
  targets = [mkTarget client 3 7 None] /\
  exists idx f, frecs (table after_servfail) !! idx = Some f /\ new_id f = 4242.
Proof.
  assert (rtc step (engine_new cfg 4 1 100 [] COUNTERS) after_servfail) as Hok
    by (eapply rtc_l; [eapply StepQuery, forwarded|]; apply rtc_once; eapply StepReply, retried).
  assert (exists targets e', accept_reply (env 2 []) (reply 4242 Byte.x80) (SV4 16843009 53) 1 after_servfail =
    Val (Deliver targets 0, e') /\ targets = [mkTarget client 3 7 None]) as (targets & e' & Ha & Ht).
  { eexists _, _. split; [vm_compute; reflexivity|reflexivity]. }
  exists targets, e'. split; [exact Ha|]. split; [exact Ht|].
  destruct (reply_accepted _ _ _ _ _ _ _ _ _ _ _ _ _ Hok Ha) as [_ H]. destruct H as (idx & f & s & Hi & _ & Hid & _); [discriminate|].
  exists idx, f. split; [exact Hi|]. exact Hid.
Defined.

End Example.
