(* ===== verification/DhcpTypes.v ===== *)
(** * DHCP data types: src/src/types/dhcp.rs, src/src/dhcp_protocol/mod.rs

    Protocol constants, message types, packets, leases, address ranges, host
    entries and options of the DHCP servers. Fixed-size arrays are lists whose
    length is the array's; flags are integers tested with the operations of the
    bitflags crate below. *)

From Stdlib Require Import ZArith Lia String.
From stdpp Require Import base numbers list option gmap.
From S2P Require Import Prelude Types.

#[local] Open Scope Z_scope.

(** ** Flags *)

(** [flags.contains(b)], [flags.insert(b)], [flags.remove(b)];
    [flags.intersects(b)] is [has]. *)
Definition flag_contains (f b : Z) : bool := Z.land f b =? b.
Definition flag_add (f b : Z) : Z := Z.lor f b.
Definition flag_del (f b : Z) : Z := Z.ldiff f b.

Module ConfigFlags.
Definition DISABLE : Z := 2 ^ 0.
Definition CLID : Z := 2 ^ 1.
Definition TIME : Z := 2 ^ 3.
Definition NAME : Z := 2 ^ 4.
Definition ADDR : Z := 2 ^ 5.
Definition NOCLID : Z := 2 ^ 7.
Definition FROM_ETHERS : Z := 2 ^ 8.
Definition ADDR_HOSTS : Z := 2 ^ 9.
Definition DECLINED : Z := 2 ^ 10.
Definition BANK : Z := 2 ^ 11.
Definition ADDR6 : Z := 2 ^ 12.
Definition ADDR6_HOSTS : Z := 2 ^ 14.
End ConfigFlags.

Module DhOptFlags.
Definition ADDR : Z := 2 ^ 0.
Definition STRING : Z := 2 ^ 1.
Definition ENCAPSULATE : Z := 2 ^ 2.
Definition ENCAP_MATCH : Z := 2 ^ 3.
Definition FORCE : Z := 2 ^ 4.
Definition BANK : Z := 2 ^ 5.
Definition ENCAP_DONE : Z := 2 ^ 6.
Definition MATCH : Z := 2 ^ 7.
Definition VENDOR : Z := 2 ^ 8.
Definition HEX : Z := 2 ^ 9.
Definition VENDOR_MATCH : Z := 2 ^ 10.
Definition RFC3925 : Z := 2 ^ 11.
Definition TAGOK : Z := 2 ^ 12.
Definition ADDR6 : Z := 2 ^ 13.
Definition VENDOR_PXE : Z := 2 ^ 14.
Definition PXE_OPT : Z := 2 ^ 15.
End DhOptFlags.

Module ContextFlags.
Definition STATIC : Z := 2 ^ 0.
Definition NETMASK : Z := 2 ^ 1.
Definition BRDCAST : Z := 2 ^ 2.
Definition PROXY : Z := 2 ^ 3.
Definition RA_ROUTER : Z := 2 ^ 4.
Definition RA_DONE : Z := 2 ^ 5.
Definition RA_NAME : Z := 2 ^ 6.
Definition RA_STATELESS : Z := 2 ^ 7.
Definition DHCP : Z := 2 ^ 8.
Definition DEPRECATE : Z := 2 ^ 9.
Definition TEMPLATE : Z := 2 ^ 10.
Definition CONSTRUCTED : Z := 2 ^ 11.
Definition GC : Z := 2 ^ 12.
Definition RA : Z := 2 ^ 13.
Definition CONF_USED : Z := 2 ^ 14.
Definition USED : Z := 2 ^ 15.
Definition OLD : Z := 2 ^ 16.
Definition V6 : Z := 2 ^ 17.
Definition RA_OFF_LINK : Z := 2 ^ 18.
Definition SETLEASE : Z := 2 ^ 19.
End ContextFlags.

Module LeaseFlags.
Definition NEW : Z := 2 ^ 0.
Definition CHANGED : Z := 2 ^ 1.
Definition AUX_CHANGED : Z := 2 ^ 2.
Definition AUTH_NAME : Z := 2 ^ 3.
Definition USED : Z := 2 ^ 4.
Definition NA : Z := 2 ^ 5.
Definition TA : Z := 2 ^ 6.
Definition HAVE_HWADDR : Z := 2 ^ 7.
Definition EXP_CHANGED : Z := 2 ^ 8.
End LeaseFlags.

Definition ACTION_DEL : Z := 1.
Definition ACTION_OLD : Z := 3.
Definition ACTION_ADD : Z := 4.

(** ** Protocol constants *)

Definition DHCP_SERVER_PORT : Z := 67.
Definition DHCP_CLIENT_PORT : Z := 68.
Definition DHCP_CHADDR_MAX : nat := 16.
Definition BOOTREQUEST : u8 := z8 1.
Definition BOOTREPLY : u8 := z8 2.
Definition DHCP_COOKIE : Z := 0x63825363.

Definition OPTION_PAD : u8 := z8 0.
Definition OPTION_NETMASK : u8 := z8 1.
Definition OPTION_ROUTER : u8 := z8 3.
Definition OPTION_DNSSERVER : u8 := z8 6.
Definition OPTION_HOSTNAME : u8 := z8 12.
Definition OPTION_DOMAINNAME : u8 := z8 15.
Definition OPTION_BROADCAST : u8 := z8 28.
Definition OPTION_VENDOR_CLASS_OPT : u8 := z8 43.
Definition OPTION_REQUESTED_IP : u8 := z8 50.
Definition OPTION_LEASE_TIME : u8 := z8 51.
Definition OPTION_OVERLOAD : u8 := z8 52.
Definition OPTION_MESSAGE_TYPE : u8 := z8 53.
Definition OPTION_SERVER_IDENTIFIER : u8 := z8 54.
Definition OPTION_REQUESTED_OPTIONS : u8 := z8 55.
Definition OPTION_MAXMESSAGE : u8 := z8 57.
Definition OPTION_T1 : u8 := z8 58.
Definition OPTION_T2 : u8 := z8 59.
Definition OPTION_VENDOR_ID : u8 := z8 60.
Definition OPTION_CLIENT_ID : u8 := z8 61.
Definition OPTION_SNAME : u8 := z8 66.
Definition OPTION_FILENAME : u8 := z8 67.
Definition OPTION_USER_CLASS : u8 := z8 77.
Definition OPTION_RAPID_COMMIT : u8 := z8 80.
Definition OPTION_CLIENT_FQDN : u8 := z8 81.
Definition OPTION_AGENT_ID : u8 := z8 82.
Definition OPTION_LAST_TRANSACTION : u8 := z8 91.
Definition OPTION_ARCH : u8 := z8 93.
Definition OPTION_PXE_UUID : u8 := z8 97.
Definition OPTION_SUBNET_SELECT : u8 := z8 118.
Definition OPTION_END : u8 := z8 255.
Definition SUBOPT_REMOTE_ID : u8 := z8 2.
Definition SUBOPT_SUBNET_SELECT : u8 := z8 5.
Definition SUBOPT_FLAGS : u8 := z8 10.
Definition SUBOPT_SERVER_OR : u8 := z8 11.

(** [Bootp] is not a wire value. *)
Inductive DhcpMsgType : Type :=
| Bootp
| Discover
| Offer
| Request
| Decline
| Ack
| Nak
| Release
| Inform
| ForceRenew
| LeaseQuery
| LeaseUnassigned
| LeaseUnknown
| LeaseActive.
#[global] Instance DhcpMsgType_eq_dec : EqDecision DhcpMsgType.
Proof. solve_decision. Defined.

(** [t as u8]. *)
Definition msg_type_code (t : DhcpMsgType) : u8 :=
  z8 match t with
     | Bootp => 0
     | Discover => 1
     | Offer => 2
     | Request => 3
     | Decline => 4
     | Ack => 5
     | Nak => 6
     | Release => 7
     | Inform => 8
     | ForceRenew => 9
     | LeaseQuery => 10
     | LeaseUnassigned => 11
     | LeaseUnknown => 12
     | LeaseActive => 13
     end.

Definition msg_type_from_u8 (v : u8) : option DhcpMsgType :=
  match u8z v with
  | 1 => Some Discover
  | 2 => Some Offer
  | 3 => Some Request
  | 4 => Some Decline
  | 5 => Some Ack
  | 6 => Some Nak
  | 7 => Some Release
  | 8 => Some Inform
  | 9 => Some ForceRenew
  | 10 => Some LeaseQuery
  | 11 => Some LeaseUnassigned
  | 12 => Some LeaseUnknown
  | 13 => Some LeaseActive
  | _ => None
  end.

(** The BOOTP packet. *)
Record DhcpPacket : Type := mkDhcpPacket {
  p_op : u8;
  p_htype : u8;
  p_hlen : u8;
  p_hops : u8;
  p_xid : Z;
  p_secs : Z;
  p_flags : Z;
  p_ciaddr : Ipv4Addr;
  p_yiaddr : Ipv4Addr;
  p_siaddr : Ipv4Addr;
  p_giaddr : Ipv4Addr;
  p_chaddr : list u8;
  p_sname : list u8;
  p_file : list u8;
  p_options : list u8;
}.
Definition set_p_op (v : u8) (r : DhcpPacket) : DhcpPacket :=
  mkDhcpPacket v (p_htype r) (p_hlen r) (p_hops r) (p_xid r) (p_secs r) (p_flags r) (p_ciaddr r) (p_yiaddr r)
    (p_siaddr r) (p_giaddr r) (p_chaddr r) (p_sname r) (p_file r) (p_options r).
Definition set_p_hops (v : u8) (r : DhcpPacket) : DhcpPacket :=
  mkDhcpPacket (p_op r) (p_htype r) (p_hlen r) v (p_xid r) (p_secs r) (p_flags r) (p_ciaddr r) (p_yiaddr r)
    (p_siaddr r) (p_giaddr r) (p_chaddr r) (p_sname r) (p_file r) (p_options r).
Definition set_p_giaddr (v : Ipv4Addr) (r : DhcpPacket) : DhcpPacket :=
  mkDhcpPacket (p_op r) (p_htype r) (p_hlen r) (p_hops r) (p_xid r) (p_secs r) (p_flags r) (p_ciaddr r)
    (p_yiaddr r) (p_siaddr r) v (p_chaddr r) (p_sname r) (p_file r) (p_options r).
Definition set_p_options (v : list u8) (r : DhcpPacket) : DhcpPacket :=
  mkDhcpPacket (p_op r) (p_htype r) (p_hlen r) (p_hops r) (p_xid r) (p_secs r) (p_flags r) (p_ciaddr r)
    (p_yiaddr r) (p_siaddr r) (p_giaddr r) (p_chaddr r) (p_sname r) (p_file r) v.

(** ** Tags, leases, ranges, host entries and options *)

Record DhcpNetid : Type := mkNetid { net : str }.
#[global] Instance DhcpNetid_eq_dec : EqDecision DhcpNetid.
Proof. solve_decision. Defined.

(** A point of [SystemTime]: nanoseconds since the epoch. *)
Notation SystemTime := Z (only parsing).

(** An address a client may have configured for itself. *)
Record SlaacAddress : Type := mkSlaac {
  sl_addr : Ipv6Addr;
  sl_ping_time : option SystemTime;
  sl_backoff : Z;
}.

(** A lease. *)
Record DhcpLease : Type := mkLease {
  dl_clid : option (list u8);
  dl_hostname : option str;
  dl_fqdn : option str;
  dl_old_hostname : option str;
  dl_flags : Z;
  dl_expires : option SystemTime;
  dl_hwaddr : list u8;
  dl_hwaddr_len : nat;
  dl_hwaddr_type : Z;
  dl_addr : Ipv4Addr;
  dl_giaddr : Ipv4Addr;
  dl_extradata : list u8;
  dl_last_interface : Z;
  dl_new_interface : Z;
  dl_new_prefixlen : Z;
  dl_agent_id : option (list u8);
  dl_vendorclass : option (list u8);
  dl_addr6 : Ipv6Addr;
  dl_iaid : Z;
  dl_slaac_address : list SlaacAddress;
  dl_vendorclass_count : Z;
}.
Definition set_dl_clid (v : option (list u8)) (r : DhcpLease) : DhcpLease :=
  mkLease v (dl_hostname r) (dl_fqdn r) (dl_old_hostname r) (dl_flags r) (dl_expires r) (dl_hwaddr r)
    (dl_hwaddr_len r) (dl_hwaddr_type r) (dl_addr r) (dl_giaddr r) (dl_extradata r) (dl_last_interface r)
    (dl_new_interface r) (dl_new_prefixlen r) (dl_agent_id r) (dl_vendorclass r) (dl_addr6 r) (dl_iaid r)
    (dl_slaac_address r) (dl_vendorclass_count r).
Definition set_dl_hostname (v : option str) (r : DhcpLease) : DhcpLease :=
  mkLease (dl_clid r) v (dl_fqdn r) (dl_old_hostname r) (dl_flags r) (dl_expires r) (dl_hwaddr r)
    (dl_hwaddr_len r) (dl_hwaddr_type r) (dl_addr r) (dl_giaddr r) (dl_extradata r) (dl_last_interface r)
    (dl_new_interface r) (dl_new_prefixlen r) (dl_agent_id r) (dl_vendorclass r) (dl_addr6 r) (dl_iaid r)
    (dl_slaac_address r) (dl_vendorclass_count r).
Definition set_dl_fqdn (v : option str) (r : DhcpLease) : DhcpLease :=
  mkLease (dl_clid r) (dl_hostname r) v (dl_old_hostname r) (dl_flags r) (dl_expires r) (dl_hwaddr r)
    (dl_hwaddr_len r) (dl_hwaddr_type r) (dl_addr r) (dl_giaddr r) (dl_extradata r) (dl_last_interface r)
    (dl_new_interface r) (dl_new_prefixlen r) (dl_agent_id r) (dl_vendorclass r) (dl_addr6 r) (dl_iaid r)
    (dl_slaac_address r) (dl_vendorclass_count r).
Definition set_dl_old_hostname (v : option str) (r : DhcpLease) : DhcpLease :=
  mkLease (dl_clid r) (dl_hostname r) (dl_fqdn r) v (dl_flags r) (dl_expires r) (dl_hwaddr r) (dl_hwaddr_len
    r) (dl_hwaddr_type r) (dl_addr r) (dl_giaddr r) (dl_extradata r) (dl_last_interface r) (dl_new_interface
    r) (dl_new_prefixlen r) (dl_agent_id r) (dl_vendorclass r) (dl_addr6 r) (dl_iaid r) (dl_slaac_address r)
    (dl_vendorclass_count r).
Definition set_dl_flags (v : Z) (r : DhcpLease) : DhcpLease :=
  mkLease (dl_clid r) (dl_hostname r) (dl_fqdn r) (dl_old_hostname r) v (dl_expires r) (dl_hwaddr r)
    (dl_hwaddr_len r) (dl_hwaddr_type r) (dl_addr r) (dl_giaddr r) (dl_extradata r) (dl_last_interface r)
    (dl_new_interface r) (dl_new_prefixlen r) (dl_agent_id r) (dl_vendorclass r) (dl_addr6 r) (dl_iaid r)
    (dl_slaac_address r) (dl_vendorclass_count r).
Definition set_dl_expires (v : option SystemTime) (r : DhcpLease) : DhcpLease :=
  mkLease (dl_clid r) (dl_hostname r) (dl_fqdn r) (dl_old_hostname r) (dl_flags r) v (dl_hwaddr r)
    (dl_hwaddr_len r) (dl_hwaddr_type r) (dl_addr r) (dl_giaddr r) (dl_extradata r) (dl_last_interface r)
    (dl_new_interface r) (dl_new_prefixlen r) (dl_agent_id r) (dl_vendorclass r) (dl_addr6 r) (dl_iaid r)
    (dl_slaac_address r) (dl_vendorclass_count r).
Definition set_dl_hwaddr (v : list u8) (r : DhcpLease) : DhcpLease :=
  mkLease (dl_clid r) (dl_hostname r) (dl_fqdn r) (dl_old_hostname r) (dl_flags r) (dl_expires r) v
    (dl_hwaddr_len r) (dl_hwaddr_type r) (dl_addr r) (dl_giaddr r) (dl_extradata r) (dl_last_interface r)
    (dl_new_interface r) (dl_new_prefixlen r) (dl_agent_id r) (dl_vendorclass r) (dl_addr6 r) (dl_iaid r)
    (dl_slaac_address r) (dl_vendorclass_count r).
Definition set_dl_hwaddr_len (v : nat) (r : DhcpLease) : DhcpLease :=
  mkLease (dl_clid r) (dl_hostname r) (dl_fqdn r) (dl_old_hostname r) (dl_flags r) (dl_expires r) (dl_hwaddr
    r) v (dl_hwaddr_type r) (dl_addr r) (dl_giaddr r) (dl_extradata r) (dl_last_interface r) (dl_new_interface
    r) (dl_new_prefixlen r) (dl_agent_id r) (dl_vendorclass r) (dl_addr6 r) (dl_iaid r) (dl_slaac_address r)
    (dl_vendorclass_count r).
Definition set_dl_hwaddr_type (v : Z) (r : DhcpLease) : DhcpLease :=
  mkLease (dl_clid r) (dl_hostname r) (dl_fqdn r) (dl_old_hostname r) (dl_flags r) (dl_expires r) (dl_hwaddr
    r) (dl_hwaddr_len r) v (dl_addr r) (dl_giaddr r) (dl_extradata r) (dl_last_interface r) (dl_new_interface
    r) (dl_new_prefixlen r) (dl_agent_id r) (dl_vendorclass r) (dl_addr6 r) (dl_iaid r) (dl_slaac_address r)
    (dl_vendorclass_count r).
Definition set_dl_addr (v : Ipv4Addr) (r : DhcpLease) : DhcpLease :=
  mkLease (dl_clid r) (dl_hostname r) (dl_fqdn r) (dl_old_hostname r) (dl_flags r) (dl_expires r) (dl_hwaddr
    r) (dl_hwaddr_len r) (dl_hwaddr_type r) v (dl_giaddr r) (dl_extradata r) (dl_last_interface r)
    (dl_new_interface r) (dl_new_prefixlen r) (dl_agent_id r) (dl_vendorclass r) (dl_addr6 r) (dl_iaid r)
    (dl_slaac_address r) (dl_vendorclass_count r).
Definition set_dl_last_interface (v : Z) (r : DhcpLease) : DhcpLease :=
  mkLease (dl_clid r) (dl_hostname r) (dl_fqdn r) (dl_old_hostname r) (dl_flags r) (dl_expires r) (dl_hwaddr
    r) (dl_hwaddr_len r) (dl_hwaddr_type r) (dl_addr r) (dl_giaddr r) (dl_extradata r) v (dl_new_interface r)
    (dl_new_prefixlen r) (dl_agent_id r) (dl_vendorclass r) (dl_addr6 r) (dl_iaid r) (dl_slaac_address r)
    (dl_vendorclass_count r).
Definition set_dl_agent_id (v : option (list u8)) (r : DhcpLease) : DhcpLease :=
  mkLease (dl_clid r) (dl_hostname r) (dl_fqdn r) (dl_old_hostname r) (dl_flags r) (dl_expires r) (dl_hwaddr
    r) (dl_hwaddr_len r) (dl_hwaddr_type r) (dl_addr r) (dl_giaddr r) (dl_extradata r) (dl_last_interface r)
    (dl_new_interface r) (dl_new_prefixlen r) v (dl_vendorclass r) (dl_addr6 r) (dl_iaid r) (dl_slaac_address
    r) (dl_vendorclass_count r).
Definition set_dl_vendorclass (v : option (list u8)) (r : DhcpLease) : DhcpLease :=
  mkLease (dl_clid r) (dl_hostname r) (dl_fqdn r) (dl_old_hostname r) (dl_flags r) (dl_expires r) (dl_hwaddr
    r) (dl_hwaddr_len r) (dl_hwaddr_type r) (dl_addr r) (dl_giaddr r) (dl_extradata r) (dl_last_interface r)
    (dl_new_interface r) (dl_new_prefixlen r) (dl_agent_id r) v (dl_addr6 r) (dl_iaid r) (dl_slaac_address r)
    (dl_vendorclass_count r).
Definition set_dl_addr6 (v : Ipv6Addr) (r : DhcpLease) : DhcpLease :=
  mkLease (dl_clid r) (dl_hostname r) (dl_fqdn r) (dl_old_hostname r) (dl_flags r) (dl_expires r) (dl_hwaddr
    r) (dl_hwaddr_len r) (dl_hwaddr_type r) (dl_addr r) (dl_giaddr r) (dl_extradata r) (dl_last_interface r)
    (dl_new_interface r) (dl_new_prefixlen r) (dl_agent_id r) (dl_vendorclass r) v (dl_iaid r)
    (dl_slaac_address r) (dl_vendorclass_count r).
Definition set_dl_iaid (v : Z) (r : DhcpLease) : DhcpLease :=
  mkLease (dl_clid r) (dl_hostname r) (dl_fqdn r) (dl_old_hostname r) (dl_flags r) (dl_expires r) (dl_hwaddr
    r) (dl_hwaddr_len r) (dl_hwaddr_type r) (dl_addr r) (dl_giaddr r) (dl_extradata r) (dl_last_interface r)
    (dl_new_interface r) (dl_new_prefixlen r) (dl_agent_id r) (dl_vendorclass r) (dl_addr6 r) v
    (dl_slaac_address r) (dl_vendorclass_count r).
Definition set_dl_slaac_address (v : list SlaacAddress) (r : DhcpLease) : DhcpLease :=
  mkLease (dl_clid r) (dl_hostname r) (dl_fqdn r) (dl_old_hostname r) (dl_flags r) (dl_expires r) (dl_hwaddr
    r) (dl_hwaddr_len r) (dl_hwaddr_type r) (dl_addr r) (dl_giaddr r) (dl_extradata r) (dl_last_interface r)
    (dl_new_interface r) (dl_new_prefixlen r) (dl_agent_id r) (dl_vendorclass r) (dl_addr6 r) (dl_iaid r) v
    (dl_vendorclass_count r).

Definition UNSPECIFIED : Ipv4Addr := 0.

(** [DhcpLease::default()]. *)
Definition lease_default : DhcpLease :=
  mkLease None None None None 0 None (replicate DHCP_CHADDR_MAX Byte.x00) 0 0 UNSPECIFIED UNSPECIFIED [] 0 0 0
    None None 0 0 [] 0.

(** An address range. *)
Record DhcpContext : Type := mkContext {
  cx_lease_time : Z;
  cx_addr_epoch : Z;
  cx_netmask : Ipv4Addr;
  cx_broadcast : Ipv4Addr;
  cx_local : Ipv4Addr;
  cx_router : Ipv4Addr;
  cx_start : Ipv4Addr;
  cx_end : Ipv4Addr;
  cx_flags : Z;
  cx_netid : DhcpNetid;
  cx_filter : list DhcpNetid;
  cx_start6 : Ipv6Addr;
  cx_end6 : Ipv6Addr;
  cx_local6 : Ipv6Addr;
  cx_prefix : Z;
  cx_if_index : Z;
  cx_valid : Z;
  cx_preferred : Z;
  cx_ra_time : Z;
  cx_ra_short_period_start : Z;
  cx_saved_valid : Z;
  cx_address_lost_time : Z;
}.
Definition set_cx_netmask (v : Ipv4Addr) (r : DhcpContext) : DhcpContext :=
  mkContext (cx_lease_time r) (cx_addr_epoch r) v (cx_broadcast r) (cx_local r) (cx_router r) (cx_start r)
    (cx_end r) (cx_flags r) (cx_netid r) (cx_filter r) (cx_start6 r) (cx_end6 r) (cx_local6 r) (cx_prefix r)
    (cx_if_index r) (cx_valid r) (cx_preferred r) (cx_ra_time r) (cx_ra_short_period_start r) (cx_saved_valid
    r) (cx_address_lost_time r).
Definition set_cx_broadcast (v : Ipv4Addr) (r : DhcpContext) : DhcpContext :=
  mkContext (cx_lease_time r) (cx_addr_epoch r) (cx_netmask r) v (cx_local r) (cx_router r) (cx_start r)
    (cx_end r) (cx_flags r) (cx_netid r) (cx_filter r) (cx_start6 r) (cx_end6 r) (cx_local6 r) (cx_prefix r)
    (cx_if_index r) (cx_valid r) (cx_preferred r) (cx_ra_time r) (cx_ra_short_period_start r) (cx_saved_valid
    r) (cx_address_lost_time r).
Definition set_cx_local (v : Ipv4Addr) (r : DhcpContext) : DhcpContext :=
  mkContext (cx_lease_time r) (cx_addr_epoch r) (cx_netmask r) (cx_broadcast r) v (cx_router r) (cx_start r)
    (cx_end r) (cx_flags r) (cx_netid r) (cx_filter r) (cx_start6 r) (cx_end6 r) (cx_local6 r) (cx_prefix r)
    (cx_if_index r) (cx_valid r) (cx_preferred r) (cx_ra_time r) (cx_ra_short_period_start r) (cx_saved_valid
    r) (cx_address_lost_time r).
Definition set_cx_router (v : Ipv4Addr) (r : DhcpContext) : DhcpContext :=
  mkContext (cx_lease_time r) (cx_addr_epoch r) (cx_netmask r) (cx_broadcast r) (cx_local r) v (cx_start r)
    (cx_end r) (cx_flags r) (cx_netid r) (cx_filter r) (cx_start6 r) (cx_end6 r) (cx_local6 r) (cx_prefix r)
    (cx_if_index r) (cx_valid r) (cx_preferred r) (cx_ra_time r) (cx_ra_short_period_start r) (cx_saved_valid
    r) (cx_address_lost_time r).

(** A hardware address of a host entry. *)
Record HwaddrConfig : Type := mkHwaddr {
  hc_hwaddr : list u8;
  hc_hwaddr_len : Z;
  hc_hwaddr_type : Z;
  hc_wildcard_mask : Z;
}.

(** A host entry of the configuration; only the addresses of the [Addrlist] entries in [addr6] are kept. *)
Record DhcpConfig : Type := mkConfigEntry {
  cf_flags : Z;
  cf_clid : option (list u8);
  cf_hostname : option str;
  cf_domain : option str;
  cf_netid : list DhcpNetid;
  cf_filter : list DhcpNetid;
  cf_addr : Ipv4Addr;
  cf_decline_time : option SystemTime;
  cf_lease_time : Z;
  cf_hwaddrs : list HwaddrConfig;
  cf_addr6 : list AllAddr;
}.

(** A configured option. *)
Record DhcpOpt : Type := mkDhcpOpt {
  o_opt : Z;
  o_flags : Z;
  o_val : option (list u8);
  o_netid : list DhcpNetid;
  o_encap : Z;
  o_vendor_class : option (list u8);
}.
Definition set_o_flags (v : Z) (r : DhcpOpt) : DhcpOpt :=
  mkDhcpOpt (o_opt r) v (o_val r) (o_netid r) (o_encap r) (o_vendor_class r).

(** A boot entry. *)
Record DhcpBoot : Type := mkBoot {
  b_file : option str;
  b_sname : option str;
  b_tftp_sname : option str;
  b_next_server : Ipv4Addr;
  b_netid : list DhcpNetid;
}.

(** Tag rules. *)
Record DhcpVendorRule : Type := mkVendorRule {
  vr_netid : DhcpNetid;
  vr_vendor_class : list u8;
}.

(** by user class, *)
Record DhcpUserClassRule : Type := mkUserRule {
  ur_netid : DhcpNetid;
  ur_user_class : list u8;
}.

(** by hardware address, *)
Record DhcpMacRule : Type := mkMacRule {
  mr_netid : DhcpNetid;
  mr_hwaddr : list u8;
  mr_hwaddr_len : Z;
  mr_hwaddr_type : Z;
  mr_wildcard_mask : Z;
}.

(** by relay suboption, *)
Record DhcpRelayIdRule : Type := mkRelayRule {
  rr_netid : DhcpNetid;
  rr_subopt : u8;
  rr_data : list u8;
}.

(** by client name. *)
Record DhcpMatchName : Type := mkNameRule {
  mn_netid : DhcpNetid;
  mn_name : str;
  mn_wildcard : bool;
}.

(** A delay of replies. *)
Record DhcpReplyDelay : Type := mkDelay {
  rd_delay_secs : Z;
  rd_filter : list DhcpNetid;
}.

(** A relay. *)
Record DhcpRelay : Type := mkRelay {
  ry_local_addr : AllAddr;
  ry_server_addr : AllAddr;
  ry_uplink_addr : AllAddr;
  ry_interface : option str;
  ry_iface_index : Z;
  ry_port : Z;
  ry_split_mode : Z;
  ry_warned : Z;
  ry_matchcount : Z;
}.
Definition set_ry_uplink_addr (v : AllAddr) (r : DhcpRelay) : DhcpRelay :=
  mkRelay (ry_local_addr r) (ry_server_addr r) v (ry_interface r) (ry_iface_index r) (ry_port r)
    (ry_split_mode r) (ry_warned r) (ry_matchcount r).

(** ** Lemmas *)

Lemma has_flag_add f b c : has (flag_add f b) c = has f c || has b c.
Proof.
  unfold has, flag_add. apply Bool.eq_iff_eq_true.
  rewrite orb_true_iff, !negb_true_iff, !Z.eqb_neq, Z.land_lor_distr_l, Z.lor_eq_0_iff.
  destruct (Z.eq_dec (Z.land f c) 0), (Z.eq_dec (Z.land b c) 0); tauto.
Qed.

Lemma has_flag_del f b c : has (flag_del f b) c = true -> has f c = true.
Proof.
  unfold has, flag_del. rewrite !negb_true_iff, !Z.eqb_neq. intros H E. apply H.
  apply Z.bits_inj'. intros n Hn. apply (f_equal (fun z => Z.testbit z n)) in E.
  rewrite Z.land_spec in *. rewrite Z.ldiff_spec, Z.bits_0 in *.
  destruct (Z.testbit f n), (Z.testbit b n), (Z.testbit c n); cbn in *; congruence.
Qed.

Lemma has_flag_del_other f b c : Z.land b c = 0 -> has (flag_del f b) c = has f c.
Proof.
  intros Hd. unfold has, flag_del. do 2 f_equal. apply Z.bits_inj'. intros n Hn.
  apply (f_equal (fun z => Z.testbit z n)) in Hd. rewrite Z.land_spec, Z.bits_0 in Hd.
  rewrite !Z.land_spec, Z.ldiff_spec. destruct (Z.testbit f n), (Z.testbit b n), (Z.testbit c n); cbn in *; congruence.
Qed.

Lemma msg_type_roundtrip t : t <> Bootp -> msg_type_from_u8 (msg_type_code t) = Some t.
Proof. by destruct t. Qed.
