(* ===== verification/DhcpOptions.v ===== *)
(** * DHCP options and packets: src/src/rfc2131.rs, src/src/dhcp_common.rs, src/src/dhcp.rs

    The option areas of BOOTP packets, the primitives that search and extend
    them, and the wire format of packets. A scan of an option area walks the
    area's suffixes; its fuel is the length of the area plus one, and every
    step of a scan takes at least one byte. *)

From Stdlib Require Import ZArith Lia String.
From stdpp Require Import base numbers list option gmap sets.
From S2P Require Import Prelude Types DhcpTypes.

#[local] Open Scope Z_scope.

(** [buf[i] as usize]. *)
Definition ulen (b : u8) : nat := Z.to_nat (u8z b).

(** ** Searching *)

Fixpoint find_option_loop (fuel : nat) (s : list u8) (code : u8) : option (list u8) :=
  match fuel with
  | O => None
  | S f =>
    match s with
    | [] => None
    | opt :: rest =>
      if decide (opt = OPTION_PAD) then find_option_loop f rest code
      else if decide (opt = OPTION_END) then None
      else match rest with
           | [] => None
           | len :: data =>
             if (length data <? ulen len)%nat then None
             else if decide (opt = code) then Some (take (ulen len) data)
             else find_option_loop f (drop (ulen len) data) code
           end
    end
  end.
Definition find_option (options : list u8) (code : u8) : option (list u8) :=
  find_option_loop (S (length options)) options code.

Definition get_message_type (options : list u8) : option DhcpMsgType :=
  let! data := find_option options OPTION_MESSAGE_TYPE in
  let! b := data !! 0%nat in
  msg_type_from_u8 b.

Definition find_requested_ip (options : list u8) : option Ipv4Addr :=
  let! data := find_option options OPTION_REQUESTED_IP in
  if (length data <? 4)%nat then None else Some (of_be (take 4 data)).

(** The index of the option, counted from the start of the area. *)
Fixpoint option_find1_loop (fuel : nat) (s : list u8) (i : nat) (opt_type : u8) (minsize : nat) : option nat :=
  match fuel with
  | O => None
  | S f =>
    match s with
    | [] => None
    | code :: rest =>
      if decide (code = OPTION_END) then (if decide (opt_type = OPTION_END) then Some i else None)
      else if decide (code = OPTION_PAD) then option_find1_loop f rest (S i) opt_type minsize
      else match rest with
           | [] => None
           | len :: data =>
             if (length data <? ulen len)%nat then None
             else if bool_decide (code = opt_type) && (minsize <=? ulen len)%nat then Some i
             else option_find1_loop f (drop (ulen len) data) (i + 2 + ulen len)%nat opt_type minsize
           end
    end
  end.
Definition option_find1 (buf : list u8) (opt_type : u8) (minsize : nat) : option nat :=
  option_find1_loop (S (length buf)) buf 0 opt_type minsize.

Record DhcpOptionRef : Type := mkRef { or_index : nat; or_data : list u8 }.

(** [buf[index + 1]] and the slice of the data panic past the end of the area,
    which only the search for [OPTION_END] itself can reach. *)
Definition find_dhcp_option (buf : list u8) (opt_type : u8) (minsize : nat) : outcome (option DhcpOptionRef) :=
  match option_find1 buf opt_type minsize with
  | None => Val None
  | Some index =>
    match buf !! S index with
    | None => Panic
    | Some len =>
      match slice buf (index + 2) (index + 2 + ulen len) with
      | None => Panic
      | Some data => Val (Some (mkRef index data))
      end
    end
  end.

(** [uint]: the bytes past the data read as zero. *)
Definition option_uint (r : DhcpOptionRef) (offset size : nat) : Z :=
  of_be ((fun i => default Byte.x00 (or_data r !! (offset + i)%nat)) <$> seq 0 (Nat.min size 4)).

(** [option_find]: the option area, then the fields named by the overload
    option. *)
Definition option_find (pkt : DhcpPacket) (opt_type : u8) (minsize : nat) : outcome (option DhcpOptionRef) :=
  let opts := if (4 <? length (p_options pkt))%nat then drop 4 (p_options pkt) else p_options pkt in
  let# found := find_dhcp_option opts opt_type minsize in
  match found with
  | Some r => Val (Some r)
  | None =>
    let# overload := find_dhcp_option opts OPTION_OVERLOAD 1 in
    match overload with
    | None => Val None
    | Some o =>
      let v := option_uint o 0 1 in
      let# in_file := if has v 1 then find_dhcp_option (p_file pkt) opt_type minsize else Val None in
      match in_file with
      | Some r => Val (Some r)
      | None => if has v 2 then find_dhcp_option (p_sname pkt) opt_type minsize else Val None
      end
    end
  end.

Fixpoint has_opt_loop (fuel : nat) (s : list u8) (opt : u8) : bool :=
  match fuel with
  | O => false
  | S f =>
    match s with
    | [] => false
    | c :: rest =>
      if decide (c = OPTION_END) then false
      else if decide (c = OPTION_PAD) then has_opt_loop f rest opt
      else if decide (c = opt) then true
      else match rest with
           | [] => false
           | len :: data => has_opt_loop f (drop (ulen len) data) opt
           end
    end
  end.
Definition has_opt_raw (opts : list u8) (opt : u8) : bool :=
  let s := if bool_decide (take 4 opts = to_be 4 DHCP_COOKIE) then drop 4 opts else opts in
  has_opt_loop (S (length s)) s opt.

(** [list.iter().take_while(|b| b != OPTION_END).any(|b| b == opt)]. *)
Fixpoint list_has (l : list u8) (opt : u8) : bool :=
  match l with
  | [] => false
  | b :: l' => if decide (b = OPTION_END) then false else if decide (b = opt) then true else list_has l' opt
  end.
Definition in_list (list : option (list u8)) (opt : u8) : bool :=
  match list with None => true | Some l => list_has l opt end.

(** ** Appending *)

(** [if opts.last() == Some(&OPTION_END) { opts.pop(); }]. *)
Definition pop_end (opts : list u8) : list u8 :=
  if decide (last opts = Some OPTION_END) then take (length opts - 1) opts else opts.

(** [(val >> (8 * i)) as u8] for [i] from [len - 1] down; the callers write at
    most four bytes. *)
Definition option_put (opts : list u8) (opt : u8) (val : Z) (len : nat) : list u8 :=
  pop_end opts ++ opt :: z8 (Z.of_nat len)
    :: ((fun i => z8 (Z.shiftr val (8 * Z.of_nat i))) <$> rev (seq 0 len)) ++ [OPTION_END].

Definition option_put_string (opts : list u8) (opt : u8) (s : str) (null_term : bool) : list u8 :=
  let bytes := s in
  let nul := null_term && (length s <? 255)%nat in
  let len := Nat.min (length bytes + (if nul then 1 else 0)) 255 in
  let data_len := (len - (if nul then 1 else 0))%nat in
  pop_end opts ++ opt :: z8 (Z.of_nat len) :: take (Nat.min data_len (length bytes)) bytes
    ++ (if nul then [Byte.x00] else []) ++ [OPTION_END].

Definition option_put_raw (opts : list u8) (opt : u8) (data : list u8) : list u8 :=
  let len := Nat.min (length data) 255 in
  pop_end opts ++ opt :: z8 (Z.of_nat len) :: take len data ++ [OPTION_END].

Definition append_opt (opts : list u8) (code : u8) (data : list u8) : list u8 :=
  pop_end opts ++ code :: z8 (Z.of_nat (length data)) :: data ++ [OPTION_END].

(** ** The BOOTP vendor area *)

(** The scan of [cap_vendor_area]: [i] bytes were looked at, all of them fit. *)
Fixpoint cap_loop (fuel : nat) (s : list u8) (i budget : nat) : nat :=
  match fuel with
  | O => i
  | S f =>
    match s with
    | [] => i
    | code :: rest =>
      if decide (code = OPTION_END) then i
      else if decide (code = OPTION_PAD) then
        (if (budget <? i + 1)%nat then i else cap_loop f rest (i + 1) budget)
      else match rest with
           | [] => i
           | len :: data =>
             let end_ := (i + 2 + ulen len)%nat in
             if (length data <? ulen len)%nat || (budget <? end_)%nat then i
             else cap_loop f (drop (ulen len) data) end_ budget
           end
    end
  end.
Definition cap_vendor_area (options : list u8) (max_len : nat) : list u8 :=
  take (cap_loop (S (length options)) options 0 (max_len - 1)) options ++ [OPTION_END].

(** ** Packets *)

(** [data[a..b]] of a packet that is long enough. *)
Definition field (data : list u8) (a n : nat) : list u8 := take n (drop a data).
Definition byte_at (data : list u8) (i : nat) : u8 := default Byte.x00 (data !! i).

Definition parse_dhcp_packet (data : list u8) : option DhcpPacket :=
  if (length data <? 240)%nat then None
  else if negb (of_be (field data 236 4) =? DHCP_COOKIE) then None
  else Some (mkDhcpPacket (byte_at data 0) (byte_at data 1) (byte_at data 2) (byte_at data 3)
         (of_be (field data 4 4)) (of_be (field data 8 2)) (of_be (field data 10 2))
         (of_be (field data 12 4)) (of_be (field data 16 4)) (of_be (field data 20 4)) (of_be (field data 24 4))
         (field data 28 16) (field data 44 64) (field data 108 128) (drop 240 data)).

(** The end marker unless it is there, and padding to 300 bytes. *)
Definition ended (options : list u8) : list u8 :=
  if decide (last options = Some OPTION_END) then options else options ++ [OPTION_END].
Definition pad300 (buf : list u8) : list u8 := buf ++ replicate (300 - length buf) Byte.x00.

Definition dhcp_packet_to_wire (p : DhcpPacket) : list u8 :=
  pad300 ([p_op p; p_htype p; p_hlen p; p_hops p] ++ to_be 4 (p_xid p) ++ to_be 2 (p_secs p) ++ to_be 2 (p_flags p)
    ++ octets4 (p_ciaddr p) ++ octets4 (p_yiaddr p) ++ octets4 (p_siaddr p) ++ octets4 (p_giaddr p)
    ++ p_chaddr p ++ p_sname p ++ p_file p ++ to_be 4 DHCP_COOKIE ++ ended (p_options p)).

Definition dhcp_packet_validate (data : list u8) : result unit str :=
  if (length data <? 240)%nat then Err (bs "packet too short")
  else if negb (bool_decide (byte_at data 0 = z8 1)) then Err (bs "not a BOOTREQUEST")
  else if 16 <? u8z (byte_at data 2) then Err (bs "hlen exceeds maximum")
  else if negb (of_be (field data 236 4) =? DHCP_COOKIE) then Err (bs "bad magic cookie")
  else Ok tt.

Definition is_relayed (pkt : DhcpPacket) : bool := negb (p_giaddr pkt =? UNSPECIFIED).

Definition dhcp_packet_size (pkt : DhcpPacket) : nat := Nat.max (240 + length (p_options pkt)) 300.

(** ** Lemmas on scans *)

Lemma find_option_fuel f1 f2 s code :
  (length s < f1)%nat -> (length s < f2)%nat -> find_option_loop f1 s code = find_option_loop f2 s code.
Proof.
  revert f2 s. induction f1 as [|f1 IH]; intros f2 s H1 H2; [lia|]. destruct f2 as [|f2]; [lia|]. cbn [find_option_loop].
  destruct s as [|opt rest]; [done|]. cbn [length] in *. destruct (decide _); [apply IH; lia|]. destruct (decide _); [done|].
  destruct rest as [|len data]; [done|]. cbn [length] in *. destruct (_ <? _)%nat; [done|]. destruct (decide _); [done|].
  apply IH; rewrite length_drop; lia.
Qed.

Lemma option_find1_fuel f1 f2 s i t m : (length s < f1)%nat -> (length s < f2)%nat ->
  option_find1_loop f1 s i t m = option_find1_loop f2 s i t m.
Proof.
  revert f2 s i. induction f1 as [|f1 IH]; intros f2 s i H1 H2; [lia|]. destruct f2 as [|f2]; [lia|]. cbn [option_find1_loop].
  destruct s as [|opt rest]; [done|]. cbn [length] in *. destruct (decide _); [done|]. destruct (decide _); [apply IH; lia|].
  destruct rest as [|len data]; [done|]. cbn [length] in *. destruct (_ <? _)%nat; [done|]. destruct (_ && _); [done|].
  apply IH; rewrite length_drop; lia.
Qed.

Lemma has_opt_fuel f1 f2 s opt :
  (length s < f1)%nat -> (length s < f2)%nat -> has_opt_loop f1 s opt = has_opt_loop f2 s opt.
Proof.
  revert f2 s. induction f1 as [|f1 IH]; intros f2 s H1 H2; [lia|]. destruct f2 as [|f2]; [lia|]. cbn [has_opt_loop].
  destruct s as [|c rest]; [done|]. cbn [length] in *. destruct (decide _); [done|]. destruct (decide _); [apply IH; lia|].
  destruct (decide _); [done|]. destruct rest as [|len data]; [done|]. cbn [length] in *. apply IH; rewrite length_drop; lia.
Qed.

Lemma cap_fuel f1 f2 s i b : (length s < f1)%nat -> (length s < f2)%nat -> cap_loop f1 s i b = cap_loop f2 s i b.
Proof.
  revert f2 s i. induction f1 as [|f1 IH]; intros f2 s i H1 H2; [lia|]. destruct f2 as [|f2]; [lia|]. cbn [cap_loop].
  destruct s as [|c rest]; [done|]. cbn [length] in *. destruct (decide _); [done|].
  destruct (decide _); [destruct (_ <? _)%nat; [done|apply IH; lia]|].
  destruct rest as [|len data]; [done|]. cbn [length] in *. destruct (_ || _); [done|]. apply IH; rewrite length_drop; lia.
Qed.

(** ** Well-formed option areas *)

Notation tlv := (u8 * list u8)%type.

Definition tlv_ok (e : tlv) : Prop := e.1 <> OPTION_PAD /\ e.1 <> OPTION_END /\ (length e.2 <= 255)%nat.
Definition enc_tlv (e : tlv) : list u8 := e.1 :: z8 (Z.of_nat (length e.2)) :: e.2.
Definition area (l : list tlv) : list u8 := concat (enc_tlv <$> l).
Definition tlv_get (l : list tlv) (code : u8) : option (list u8) := snd <$> List.find (fun e => bool_decide (e.1 = code)) l.

(** The area is the options of [l] with the end marker, or still empty. *)
Definition repr (opts : list u8) (l : list tlv) : Prop :=
  Forall tlv_ok l /\ (opts = area l ++ [OPTION_END] \/ (opts = [] /\ l = [])).

Lemma ulen_small n : (n <= 255)%nat -> ulen (z8 (Z.of_nat n)) = n.
Proof. intros H. unfold ulen. rewrite u8z_z8_small by lia. lia. Qed.

Lemma area_app l1 l2 : area (l1 ++ l2) = area l1 ++ area l2.
Proof. unfold area. by rewrite fmap_app, concat_app. Qed.
Lemma area_cons e l rest : area (e :: l) ++ rest = e.1 :: z8 (Z.of_nat (length e.2)) :: e.2 ++ area l ++ rest.
Proof. unfold area. cbn. by rewrite <- app_assoc. Qed.
Lemma length_enc_tlv e : length (enc_tlv e) = (2 + length e.2)%nat.
Proof. done. Qed.

Lemma tlv_get_cons e l c : tlv_get (e :: l) c = if decide (e.1 = c) then Some e.2 else tlv_get l c.
Proof. unfold tlv_get. cbn. by rewrite bool_decide_decide; destruct (decide _). Qed.

Lemma tlv_get_app l1 l2 c : tlv_get (l1 ++ l2) c = match tlv_get l1 c with Some v => Some v | None => tlv_get l2 c end.
Proof. induction l1 as [|e l1 IH]; [done|]. rewrite <- app_comm_cons, !tlv_get_cons. by destruct (decide _). Qed.

Lemma find_option_area l rest code : Forall tlv_ok l ->
  find_option (area l ++ rest) code = match tlv_get l code with Some v => Some v | None => find_option rest code end.
Proof.
  induction 1 as [|e l (Hp & He & Hl) _ IH]; [done|]. rewrite area_cons. unfold find_option at 1. cbn [find_option_loop].
  rewrite !decide_False by done. rewrite ulen_small by done. rewrite (proj2 (Nat.ltb_ge _ _)) by (rewrite length_app; lia).
  rewrite tlv_get_cons. destruct (decide (e.1 = code)) as [_|Hn].
  - by rewrite take_app_length.
  - rewrite drop_app_length. rewrite <- IH. apply find_option_fuel; cbn [length]; rewrite ?length_app; lia.
Qed.

Lemma find_option_end rest code : find_option (OPTION_END :: rest) code = None.
Proof. unfold find_option. cbn [find_option_loop]. by rewrite decide_False, decide_True by done. Qed.

Lemma find_option_repr opts l code : repr opts l -> find_option opts code = tlv_get l code.
Proof.
  intros [Hl [->|[-> ->]]]; [|done]. rewrite find_option_area, find_option_end by done. by destruct (tlv_get l code).
Qed.

Lemma pop_end_repr opts l : repr opts l -> pop_end opts = area l.
Proof.
  intros [Hl [->|[-> ->]]]; [|done]. unfold pop_end. rewrite last_snoc, decide_True by done.
  rewrite length_app. cbn. by rewrite Nat.add_sub, take_app_length.
Qed.

Lemma repr_snoc opts l e : repr opts l -> tlv_ok e -> repr (pop_end opts ++ enc_tlv e ++ [OPTION_END]) (l ++ [e]).
Proof.
  intros Hr He. rewrite (pop_end_repr _ _ Hr). destruct Hr as [Hl _]. split; [by apply Forall_app_2; [|constructor]|].
  left. rewrite area_app. unfold area at 3. cbn [fmap list_fmap concat]. by rewrite app_nil_r, <- app_assoc.
Qed.

Lemma put_bytes val len :
  ((fun i => z8 (Z.shiftr val (8 * Z.of_nat i))) <$> rev (seq 0 len)) = to_be len val.
Proof.
  revert val. induction len as [|len IH]; intros val; [done|]. cbn [seq rev to_be]. rewrite fmap_app. f_equal.
  rewrite <- IH, <- seq_shift. change (List.map S (seq 0 len)) with (S <$> seq 0 len).
    rewrite <- map_rev. change (List.map S (rev (seq 0 len))) with (S <$> rev (seq 0 len)).
    rewrite <- list_fmap_compose. apply list_fmap_ext. intros _ i _. cbn. f_equal.
    rewrite Z.shiftr_div_pow2, Z.shiftr_div_pow2 by lia. replace (8 * Z.of_nat (S i)) with (8 + 8 * Z.of_nat i) by lia.
    rewrite Z.pow_add_r by lia. change (2 ^ 8) with 256. rewrite Z.div_div by lia. done.
Qed.

Lemma option_put_repr opts l c val len : repr opts l -> c <> OPTION_PAD -> c <> OPTION_END -> (len <= 255)%nat ->
  repr (option_put opts c val len) (l ++ [(c, to_be len val)]).
Proof.
  intros Hr Hp He Hlen. unfold option_put. rewrite put_bytes.
  pose proof (repr_snoc opts l (c, to_be len val) Hr) as H. unfold enc_tlv, tlv_ok in H. cbn [fst snd] in H.
  rewrite length_to_be in H. by apply H.
Qed.

Lemma option_put_raw_repr opts l c d : repr opts l -> c <> OPTION_PAD -> c <> OPTION_END ->
  repr (option_put_raw opts c d) (l ++ [(c, take 255 d)]).
Proof.
  intros Hr Hp He. unfold option_put_raw.
  pose proof (repr_snoc opts l (c, take 255 d) Hr) as H. unfold enc_tlv, tlv_ok in H. cbn [fst snd] in H.
  rewrite length_take in H. rewrite Nat.min_comm. replace (take (Nat.min 255 (length d)) d) with (take 255 d).
  - apply H. split_and!; [done..|lia].
  - destruct (Nat.min_spec 255 (length d)) as [[? ->]|[? ->]]; [done|]. by rewrite !take_ge by lia.
Qed.

Lemma append_opt_repr opts l c d : repr opts l -> tlv_ok (c, d) -> repr (append_opt opts c d) (l ++ [(c, d)]).
Proof. intros Hr Hok. by apply repr_snoc. Qed.

(** The string with its terminator, cut at 255 bytes. *)
Definition string_data (s : str) (null_term : bool) : list u8 :=
  if null_term && (length s <? 255)%nat then s ++ [Byte.x00] else take 255 s.

Lemma option_put_string_repr opts l c s nt : repr opts l -> c <> OPTION_PAD -> c <> OPTION_END ->
  repr (option_put_string opts c s nt) (l ++ [(c, string_data s nt)]).
Proof.
  intros Hr Hp He. unfold option_put_string, string_data. destruct (nt && (length s <? 255)%nat) eqn:E.
  - apply andb_true_iff in E as [_ E%Nat.ltb_lt]. rewrite (Nat.min_l (length s + 1)), Nat.add_sub, Nat.min_id, firstn_all by lia.
    pose proof (repr_snoc opts l (c, s ++ [Byte.x00]) Hr) as H. unfold enc_tlv, tlv_ok in H. cbn [fst snd] in H.
    rewrite length_app in H. cbn [length app] in H. rewrite <- app_assoc in H. apply H. split_and!; [done..|lia].
  - pose proof (option_put_raw_repr opts l c s Hr Hp He) as H. unfold option_put_raw in H.
    rewrite Nat.add_0_r, Nat.sub_0_r, <- Nat.min_assoc, (Nat.min_comm 255), Nat.min_assoc, Nat.min_id. exact H.
Qed.

Lemma has_opt_area l opt : Forall tlv_ok l -> forall f, (length (area l ++ [OPTION_END]) < f)%nat ->
  has_opt_loop f (area l ++ [OPTION_END]) opt = bool_decide (is_Some (tlv_get l opt)).
Proof.
  induction 1 as [|e l (Hp & He & Hl) Hok IH]; intros f Hf.
  { destruct f; [lia|]. cbn. done. }
  rewrite area_cons in Hf |- *. destruct f; [lia|]. cbn [has_opt_loop length] in *. rewrite !decide_False by done.
  rewrite tlv_get_cons. destruct (decide (e.1 = opt)) as [_|Hn].
  - by rewrite bool_decide_true.
  - rewrite ulen_small, drop_app_length by done.
    rewrite !length_app in Hf. rewrite (has_opt_fuel _ (S (length (area l ++ [OPTION_END])))) by (rewrite length_app; cbn in *; lia).
    apply IH. lia.
Qed.

(** ** The vendor area: proofs *)

(** The longest run of leading options that fits in [b] bytes. *)
Fixpoint fit_prefix (b : nat) (l : list tlv) : list tlv :=
  match l with
  | [] => []
  | e :: l' => if (length (enc_tlv e) <=? b)%nat then e :: fit_prefix (b - length (enc_tlv e)) l' else []
  end.

Lemma fit_prefix_spec b l :
  fit_prefix b l `prefix_of` l /\ (length (area (fit_prefix b l)) <= b)%nat /\
  (fit_prefix b l = l \/ exists e, fit_prefix b l ++ [e] `prefix_of` l /\ (b < length (area (fit_prefix b l ++ [e])))%nat).
Proof.
  revert b. induction l as [|e l IH]; intros b; cbn [fit_prefix].
  { split_and!; [done|cbn; lia|by left]. }
  destruct (_ <=? b)%nat eqn:E.
  - apply Nat.leb_le in E. destruct (IH (b - length (enc_tlv e))%nat) as (H1 & H2 & H3).
    assert (forall k, length (area (e :: k)) = (length (enc_tlv e) + length (area k))%nat) as Hlen.
    { intros k. unfold area. cbn [fmap list_fmap concat]. by rewrite length_app. }
    split_and!; [by apply prefix_cons|rewrite Hlen; lia|].
    destruct H3 as [->|(x & Hx & Hb)]; [by left|]. right. exists x. cbn [app]. split; [by apply prefix_cons|]. rewrite Hlen. lia.
  - apply Nat.leb_gt in E. split_and!; [apply prefix_nil|cbn; lia|]. right. exists e. split; [by exists l|].
    unfold area. cbn [app fmap list_fmap concat]. by rewrite app_nil_r.
Qed.

Lemma cap_loop_area l : Forall tlv_ok l -> forall f i b, (length (area l ++ [OPTION_END]) < f)%nat -> (i <= b)%nat ->
  cap_loop f (area l ++ [OPTION_END]) i b = (i + length (area (fit_prefix (b - i) l)))%nat.
Proof.
  induction 1 as [|e l (Hp & He & Hl) Hok IH]; intros f i b Hf Hi.
  { destruct f; [lia|]. change (area [] ++ [OPTION_END]) with [OPTION_END]. cbn [cap_loop fit_prefix].
    rewrite decide_True by done. cbn. lia. }
  rewrite area_cons in Hf |- *. destruct f; [lia|]. cbn [cap_loop length] in *. rewrite !decide_False by done.
  rewrite ulen_small by done. rewrite (proj2 (Nat.ltb_ge _ _)) by (rewrite length_app; lia). cbn [orb fit_prefix].
  rewrite length_enc_tlv. destruct (b <? _)%nat eqn:E.
  - apply Nat.ltb_lt in E. rewrite (proj2 (Nat.leb_gt _ _)) by lia. cbn. lia.
  - apply Nat.ltb_ge in E. rewrite (proj2 (Nat.leb_le _ _)) by lia. rewrite drop_app_length. rewrite !length_app in Hf.
    rewrite IH by (rewrite ?length_app; lia). unfold area. cbn [fmap list_fmap concat]. rewrite length_app, length_enc_tlv.
    replace (b - (i + 2 + length e.2))%nat with (b - i - (2 + length e.2))%nat by lia. lia.
Qed.

Lemma take_area l k rest : k `prefix_of` l -> take (length (area k)) (area l ++ rest) = area k.
Proof. intros [x ->]. by rewrite area_app, <- app_assoc, take_app_length. Qed.

Lemma cap_vendor_area_eq opts l max_len : repr opts l ->
  cap_vendor_area opts max_len = area (fit_prefix (max_len - 1) l) ++ [OPTION_END].
Proof.
  intros [Hl [->|[-> ->]]]; [|done]. unfold cap_vendor_area.
  by rewrite (cap_loop_area l Hl), Nat.sub_0_r, Nat.add_0_l, take_area by (apply fit_prefix_spec || lia).
Qed.

Lemma cap_vendor_area_repr opts l max_len : repr opts l -> repr (cap_vendor_area opts max_len) (fit_prefix (max_len - 1) l).
Proof.
  intros Hr. rewrite (cap_vendor_area_eq _ _ _ Hr). split; [|by left]. destruct Hr as [Hl _].
  destruct (fit_prefix_spec (max_len - 1) l) as ([x Hx] & _). rewrite Hx in Hl. by apply Forall_app in Hl as [? _].
Qed.

(** The vendor area of a BOOTP reply is cut between options. Whatever the
    options and the limit, the result keeps the leading options unchanged, fits
    the limit with its end marker, and drops an option only when it does not
    fit behind those before it. *)
Theorem cap_vendor_area_spec opts l max_len : repr opts l -> (1 <= max_len)%nat ->
  exists kept, repr (cap_vendor_area opts max_len) kept /\ kept `prefix_of` l /\
    (length (cap_vendor_area opts max_len) <= max_len)%nat /\
    (kept = l \/ exists e, kept ++ [e] `prefix_of` l /\ (max_len < length (area (kept ++ [e])) + 1)%nat).
Proof.
  intros Hr Hm. destruct (fit_prefix_spec (max_len - 1) l) as (Hpre & Hlen & Hmax).
  exists (fit_prefix (max_len - 1) l). split_and!; [by apply cap_vendor_area_repr|done| |].
  - rewrite (cap_vendor_area_eq _ _ _ Hr), length_app. cbn. lia.
  - destruct Hmax as [?|(e & ? & ?)]; [by left|]. right. exists e. split; [done|lia].
Qed.

Lemma cap_vendor_area_spec_witness :
  repr (area [(OPTION_NETMASK, z8 <$> [255; 255; 255; 0]); (OPTION_HOSTNAME, bs "host")] ++ [OPTION_END])
    [(OPTION_NETMASK, z8 <$> [255; 255; 255; 0]); (OPTION_HOSTNAME, bs "host")] /\
  exists kept, repr (cap_vendor_area (area [(OPTION_NETMASK, z8 <$> [255; 255; 255; 0]); (OPTION_HOSTNAME, bs "host")] ++ [OPTION_END]) 11) kept.
Proof.
  assert (repr (area [(OPTION_NETMASK, z8 <$> [255; 255; 255; 0]); (OPTION_HOSTNAME, bs "host")] ++ [OPTION_END])
    [(OPTION_NETMASK, z8 <$> [255; 255; 255; 0]); (OPTION_HOSTNAME, bs "host")]) as H.
  { split; [repeat constructor; vm_compute; (done || lia)|by left]. }
  split; [exact H|]. destruct (cap_vendor_area_spec _ _ 11 H) as (kept & Hk & _); [lia|]. exists kept. exact Hk.
Defined.

(** ** Packets: the wire format round trips *)

Record dhcp_packet_ok (p : DhcpPacket) : Prop := {
  pk_xid : 0 <= p_xid p < 2 ^ 32;
  pk_secs : 0 <= p_secs p < 2 ^ 16;
  pk_flags : 0 <= p_flags p < 2 ^ 16;
  pk_addrs : ip4_ok (p_ciaddr p) /\ ip4_ok (p_yiaddr p) /\ ip4_ok (p_siaddr p) /\ ip4_ok (p_giaddr p);
  pk_arrays : length (p_chaddr p) = 16%nat /\ length (p_sname p) = 64%nat /\ length (p_file p) = 128%nat;
}.

(** A field of a buffer given by its pieces. *)
Lemma field_piece (ps : list (list u8)) rest k off n p :
  ps !! k = Some p -> length (concat (take k ps)) = off -> length p = n -> field (concat ps ++ rest) off n = p.
Proof.
  intros Hk <- <-. unfold field. rewrite <- (take_drop_middle ps k p Hk) at 2. rewrite concat_app, <- !app_assoc.
  rewrite drop_app_length. cbn [concat]. by rewrite <- app_assoc, take_app_length.
Qed.

Definition pieces (p : DhcpPacket) : list (list u8) :=
  [[p_op p; p_htype p; p_hlen p; p_hops p]; to_be 4 (p_xid p); to_be 2 (p_secs p); to_be 2 (p_flags p);
   octets4 (p_ciaddr p); octets4 (p_yiaddr p); octets4 (p_siaddr p); octets4 (p_giaddr p);
   p_chaddr p; p_sname p; p_file p; to_be 4 DHCP_COOKIE].

Lemma wire_pieces p : dhcp_packet_ok p -> exists pad,
  dhcp_packet_to_wire p = concat (pieces p) ++ ended (p_options p) ++ replicate pad Byte.x00 /\
  length (concat (pieces p)) = 240%nat /\ (300 <= length (dhcp_packet_to_wire p))%nat.
Proof.
  intros [_ _ _ _ (H1 & H2 & H3)]. eexists. split; [|split].
  - unfold dhcp_packet_to_wire, pad300, pieces. cbn [concat]. rewrite <- !app_assoc. cbn [app]. reflexivity.
  - unfold pieces. cbn [concat]. rewrite !length_app, !length_octets4, !length_to_be, H1, H2, H3. done.
  - unfold dhcp_packet_to_wire, pad300. rewrite length_app, length_replicate. lia.
Qed.

Lemma byte_at_app x rest i : (i < length x)%nat -> byte_at (x ++ rest) i = byte_at x i.
Proof. intros H. unfold byte_at. by rewrite lookup_app_l. Qed.

Lemma find_option_ended opts l rest code : repr opts l -> find_option (ended opts ++ rest) code = tlv_get l code.
Proof.
  intros Hr. assert (ended opts = area l ++ [OPTION_END]) as ->.
  { destruct Hr as [_ [->|[-> ->]]]; [|done]. unfold ended. by rewrite last_snoc, decide_True. }
  destruct Hr as [Hl _]. rewrite <- app_assoc, find_option_area by done. cbn [app]. rewrite find_option_end.
  by destruct (tlv_get l code).
Qed.

Lemma wire_field p k off n q : dhcp_packet_ok p -> pieces p !! k = Some q -> length (concat (take k (pieces p))) = off -> length q = n ->
  field (dhcp_packet_to_wire p) off n = q.
Proof. intros Hok Hk Ho Hn. destruct (wire_pieces p Hok) as (pad & -> & _). by apply (field_piece _ _ k). Qed.
Lemma wire_byte p i : dhcp_packet_ok p -> (i < 4)%nat -> byte_at (dhcp_packet_to_wire p) i = byte_at [p_op p; p_htype p; p_hlen p; p_hops p] i.
Proof.
  intros Hok Hi. destruct (wire_pieces p Hok) as (pad & -> & _). unfold pieces. cbn [concat]. rewrite <- !app_assoc. by apply byte_at_app.
Qed.
Lemma wire_cookie p : dhcp_packet_ok p -> field (dhcp_packet_to_wire p) 236 4 = to_be 4 DHCP_COOKIE.
Proof.
  intros Hok. apply (wire_field p 11%nat); [done..| |done]. destruct Hok as [_ _ _ _ (L1 & L2 & L3)]. unfold pieces. cbn [take concat].
  rewrite !length_app, !length_octets4, !length_to_be, L1, L2, L3. done.
Qed.

Lemma wire_parses p : dhcp_packet_ok p -> exists pad,
  parse_dhcp_packet (dhcp_packet_to_wire p) = Some (set_p_options (ended (p_options p) ++ replicate pad Byte.x00) p) /\
  (300 <= length (dhcp_packet_to_wire p))%nat.
Proof.
  intros Hok. destruct (wire_pieces p Hok) as (pad & Hw & Hlen & H300). exists pad. split; [|done].
  pose proof (fun k off n q => wire_field p k off n q Hok) as Hfld. pose proof (wire_cookie p Hok) as Hck.
  unfold parse_dhcp_packet. rewrite (proj2 (Nat.ltb_ge _ _)), Hck, !wire_byte by (done || lia).
  destruct Hok as [Hx Hs Hf (A1 & A2 & A3 & A4) (L1 & L2 & L3)].
  change (of_be (to_be 4 DHCP_COOKIE) =? DHCP_COOKIE) with true. cbn [negb].
  rewrite (Hfld 1%nat 4%nat 4%nat (to_be 4 (p_xid p)) eq_refl), (Hfld 2%nat 8%nat 2%nat (to_be 2 (p_secs p)) eq_refl), (Hfld 3%nat 10%nat 2%nat (to_be 2 (p_flags p)) eq_refl),
    (Hfld 4%nat 12%nat 4%nat (octets4 (p_ciaddr p)) eq_refl), (Hfld 5%nat 16%nat 4%nat (octets4 (p_yiaddr p)) eq_refl), (Hfld 6%nat 20%nat 4%nat (octets4 (p_siaddr p)) eq_refl),
    (Hfld 7%nat 24%nat 4%nat (octets4 (p_giaddr p)) eq_refl), (Hfld 8%nat 28%nat 16%nat (p_chaddr p) eq_refl), (Hfld 9%nat 44%nat 64%nat (p_sname p) eq_refl),
    (Hfld 10%nat 108%nat 128%nat (p_file p) eq_refl)
    by (unfold pieces; cbn [take concat]; rewrite ?length_app, ?length_octets4, ?length_to_be, ?L1, ?L2, ?L3; done).
  rewrite !octets4_of, !(of_be_to_be_small 2) by done.
  rewrite Hw, <- Hlen, drop_app_length. by destruct p.
Qed.

(** A serialised packet parses back field by field, with at least 300
    bytes on the wire, and every option reads the same from the parsed packet;
    a request with a legal hardware address length passes validation. *)
Theorem dhcp_packet_roundtrip p : dhcp_packet_ok p ->
  exists pad,
    parse_dhcp_packet (dhcp_packet_to_wire p) =
      Some (set_p_options (ended (p_options p) ++ replicate pad Byte.x00) p) /\
    (300 <= length (dhcp_packet_to_wire p))%nat /\
    (forall l code, repr (p_options p) l ->
       find_option (ended (p_options p) ++ replicate pad Byte.x00) code = tlv_get l code) /\
    (p_op p = BOOTREQUEST -> u8z (p_hlen p) <= 16 -> dhcp_packet_validate (dhcp_packet_to_wire p) = Ok tt).
Proof.
  intros Hok. destruct (wire_parses p Hok) as (pad & Hp & H300). exists pad. split_and!; [done|done| |].
  - intros l code Hr. by apply find_option_ended.
  - intros Hop Hh. unfold dhcp_packet_validate. rewrite (proj2 (Nat.ltb_ge _ _)), wire_cookie, !wire_byte by (done || lia).
    unfold byte_at. cbn [lookup list_lookup default id].
    rewrite Hop, bool_decide_true by done. cbn [negb]. by rewrite (proj2 (Z.ltb_ge 16 _) Hh).
Qed.

Definition sample_request : DhcpPacket :=
  mkDhcpPacket BOOTREQUEST (z8 1) (z8 6) Byte.x00 0x12345678 0 0 0 0 0 0
    ((z8 <$> [2; 0; 0; 0; 0; 1]) ++ replicate 10 Byte.x00) (replicate 64 Byte.x00) (replicate 128 Byte.x00)
    (area [(OPTION_MESSAGE_TYPE, [z8 1]); (OPTION_HOSTNAME, bs "laptop")] ++ [OPTION_END]).

Lemma dhcp_packet_roundtrip_witness :
  dhcp_packet_ok sample_request /\ exists options,
    parse_dhcp_packet (dhcp_packet_to_wire sample_request) = Some (set_p_options options sample_request) /\
    find_option options OPTION_HOSTNAME = Some (bs "laptop").
Proof.
  assert (dhcp_packet_ok sample_request) as H by (split; vm_compute; repeat split; discriminate).
  split; [exact H|]. destruct (dhcp_packet_roundtrip _ H) as (pad & Hp & _ & Ho & _). eexists. split; [exact Hp|].
  rewrite (Ho [(OPTION_MESSAGE_TYPE, [z8 1]); (OPTION_HOSTNAME, bs "laptop")]); [vm_compute; reflexivity|].
  split; [repeat constructor; vm_compute; (discriminate || lia)|left; reflexivity].
Defined.
