(* ===== verification/DhcpCommon.v ===== *)
(** * Tags, option selection and host entries: src/src/dhcp_common.rs

    Matching of tags, the [tag-if] rules, the selection of the options sent to
    a client, and the search for a client's host entry. A reference into the
    list of host entries is its index, which is what pointer equality of the
    source compares. *)

From Stdlib Require Import ZArith Lia String.
From stdpp Require Import base numbers list option gmap sets.
From S2P Require Import Prelude Types Util DhcpTypes DhcpOptions.

#[local] Open Scope Z_scope.

(** ** Tags *)

(** [s.starts_with(p)]. *)
Definition has_prefix (s p : str) : bool := bool_decide (take (length p) s = p).
Definition bang : u8 := Byte.x21.
Definition hash_ : u8 := Byte.x23.
Definition star : u8 := Byte.x2a.

Definition match_netid (tags list : list DhcpNetid) : bool :=
  existsb (fun t => existsb (fun l => bool_decide (net l = net t)) list) tags.

Definition negated (tag : str) : bool :=
  bool_decide (tag !! 0%nat = Some bang) || bool_decide (tag !! 0%nat = Some hash_).

(** One item of [check] against the pool; a negated one must not be found. *)
Definition wild_item (item : DhcpNetid) (pool : list DhcpNetid) : bool :=
  let neg := negated (net item) in
  let effective := if neg then drop 1 (net item) else net item in
  let wildcard := bool_decide (last effective = Some star) in
  let prefix := if wildcard then take (length effective - 1) effective else effective in
  let found := existsb (fun p => if wildcard then has_prefix (net p) prefix else bool_decide (net p = effective)) pool in
  if neg then negb found else found.
Definition match_netid_wild (check pool : list DhcpNetid) : bool := forallb (fun item => wild_item item pool) check.

Record TagIf : Type := mkTagIf { ti_tag : list DhcpNetid; ti_set : list DhcpNetid }.

Definition add_tag (result : list DhcpNetid) (t : DhcpNetid) : list DhcpNetid :=
  if existsb (fun r => bool_decide (net r = net t)) result then result else result ++ [t].
Definition run_tag_if (tags : list DhcpNetid) (rules : list TagIf) : list DhcpNetid :=
  fold_left (fun result rule => if match_netid_wild (ti_tag rule) result then fold_left add_tag (ti_set rule) result else result)
    rules tags.

(** ** Options for a client *)

Definition pxe_ok (opt : DhcpOpt) (pxemode : Z) : bool :=
  if flag_contains (o_flags opt) DhOptFlags.PXE_OPT then negb (pxemode =? 0) else negb (pxemode =? 2).

Definition ENCAP_MASK : Z := DhOptFlags.ENCAPSULATE ∣∣ DhOptFlags.VENDOR ∣∣ DhOptFlags.RFC3925.

Definition tagok (opt : DhcpOpt) : bool := flag_contains (o_flags opt) DhOptFlags.TAGOK.
Definition mark (opt : DhcpOpt) : DhcpOpt := set_o_flags (flag_add (o_flags opt) DhOptFlags.TAGOK) opt.
Definition unmark (opt : DhcpOpt) : DhcpOpt := set_o_flags (flag_del (o_flags opt) DhOptFlags.TAGOK) opt.
Definition untagged (opt : DhcpOpt) : bool := (length (o_netid opt) =? 0)%nat.

(** [opts.iter().filter(p).map(|o| o.opt)] as a set of codes. *)
Definition codes_of (p : DhcpOpt -> bool) (opts : list DhcpOpt) : list Z := o_opt <$> List.filter p opts.
Definition has_code (codes : list Z) (c : Z) : bool := bool_decide (c ∈ codes).

(** Phase 1: the options whose tags match. *)
Definition phase1 (tagif : list DhcpNetid) (pxemode : Z) (opt : DhcpOpt) : DhcpOpt :=
  let opt := unmark opt in
  if has (o_flags opt) ENCAP_MASK then opt
  else if negb (untagged opt) && match_netid_wild (o_netid opt) tagif && pxe_ok opt pxemode then mark opt else opt.

(** Phase 2: those that no longer match with the tags of the range, and those
    that only match with them. *)
Definition phase2_reset (tagif_ctx : list DhcpNetid) (opt : DhcpOpt) : DhcpOpt :=
  if has (o_flags opt) ENCAP_MASK then opt
  else if negb (tagok opt) then opt
  else if untagged opt || match_netid_wild (o_netid opt) tagif_ctx then opt else unmark opt.
Definition phase2_mark (codes : list Z) (tagif_ctx : list DhcpNetid) (pxemode : Z) (opt : DhcpOpt) : DhcpOpt :=
  if has (o_flags opt) (ENCAP_MASK ∣∣ DhOptFlags.TAGOK) then opt
  else if negb (untagged opt) && match_netid_wild (o_netid opt) tagif_ctx && pxe_ok opt pxemode
          && negb (has_code codes (o_opt opt)) then mark opt else opt.
Definition phase2 (context_tags : option (list DhcpNetid)) (tagif : list DhcpNetid) (rules : list TagIf) (pxemode : Z)
    (opts : list DhcpOpt) : list DhcpOpt :=
  match context_tags with
  | None => opts
  | Some ctx =>
    let tagif_ctx := run_tag_if (ctx ++ tagif) rules in
    let opts := phase2_reset tagif_ctx <$> opts in
    phase2_mark (codes_of tagok opts) tagif_ctx pxemode <$> opts
  end.

(** Phase 3: untagged options that no tagged one overrides. *)
Definition phase3_mark (codes : list Z) (pxemode : Z) (opt : DhcpOpt) : DhcpOpt :=
  if has (o_flags opt) (ENCAP_MASK ∣∣ DhOptFlags.TAGOK) then opt
  else if negb (untagged opt) then opt
  else if pxe_ok opt pxemode && negb (has_code codes (o_opt opt)) then mark opt else opt.
Definition phase3 (pxemode : Z) (opts : list DhcpOpt) : list DhcpOpt :=
  phase3_mark (codes_of (fun o => tagok o && negb (untagged o)) opts) pxemode <$> opts.

(** Phase 4: one option per code, the first. *)
Fixpoint phase4 (seen : list Z) (opts : list DhcpOpt) : list DhcpOpt :=
  match opts with
  | [] => []
  | opt :: rest =>
    if tagok opt then
      (if has_code seen (o_opt opt) then unmark opt :: phase4 seen rest else opt :: phase4 (o_opt opt :: seen) rest)
    else opt :: phase4 seen rest
  end.

Definition option_filter (tags : list DhcpNetid) (context_tags : option (list DhcpNetid)) (opts : list DhcpOpt)
    (pxemode : Z) (tag_rules : list TagIf) : list DhcpNetid * list DhcpOpt :=
  let tagif := run_tag_if tags tag_rules in
  let opts := phase1 tagif pxemode <$> opts in
  let opts := phase2 context_tags tagif tag_rules pxemode opts in
  let opts := phase3 pxemode opts in
  (tagif, phase4 [] opts).

(** [dhcp-match]: the value at any multiple of [step]. *)
Fixpoint match_scan (fuel : nat) (val data : list u8) (i step : nat) : bool :=
  match fuel with
  | O => false
  | S f =>
    if (i + length val <=? length data)%nat then
      if bool_decide (take (length val) (drop i data) = val) then true else match_scan f val data (i + step) step
    else false
  end.
Definition match_bytes (opt : DhcpOpt) (data : list u8) : bool :=
  match o_val opt with
  | None => true
  | Some val =>
    if (length val =? 0)%nat then true
    else if (length data <? length val)%nat then false
    else if flag_contains (o_flags opt) DhOptFlags.HEX then negb (memcmp_masked val data 0xFFFFFFFF =? 0)%nat
    else match_scan (S (length data)) val data 0
           (if flag_contains (o_flags opt) DhOptFlags.STRING then 1 else length val)
  end.

Definition strip_hostname (hostname : str) : str * option str :=
  match find_byte dot hostname with
  | None => (hostname, None)
  | Some pos =>
    let domain := drop (S pos) hostname in
    (take pos hostname, if (length domain =? 0)%nat then None else Some domain)
  end.

Definition build_options (opts : list DhcpOpt) : list u8 :=
  concat ((fun opt => match o_val opt with
                      | Some val => z8 (o_opt opt) :: z8 (Z.of_nat (Nat.min (length val) 255)) :: take (Nat.min (length val) 255) val
                      | None => []
                      end) <$> opts) ++ [OPTION_END].

(** ** Host entries *)

Definition hw_matches (h : HwaddrConfig) (hwaddr : list u8) (hw_type : Z) : bool :=
  (hc_hwaddr_len h =? Z.of_nat (length hwaddr)) && ((hc_hwaddr_type h =? hw_type) || (hc_hwaddr_type h =? 0)).

Definition config_has_mac (config : DhcpConfig) (hwaddr : list u8) (hw_type : Z) : bool :=
  existsb (fun h => (hc_wildcard_mask h =? 0) && hw_matches h hwaddr hw_type
                    && bool_decide (take (length hwaddr) (hc_hwaddr h) = hwaddr)) (cf_hwaddrs config).

(** The index of the first element that satisfies [p]. *)
Fixpoint find_index {A} (p : A -> bool) (l : list A) : option nat :=
  match l with
  | [] => None
  | x :: l' => if p x then Some O else S <$> find_index p l'
  end.

Definition clid_matches (config : DhcpConfig) (clid : list u8) : bool :=
  flag_contains (cf_flags config) ConfigFlags.CLID &&
  match cf_clid config with
  | None => false
  | Some cfg_clid =>
    bool_decide (cfg_clid = clid)
    || (bool_decide (clid !! 0%nat = Some Byte.x00) && (1 <? length clid)%nat
        && (length cfg_clid =? length clid - 1)%nat && bool_decide (cfg_clid = drop 1 clid))
  end.

Definition name_matches (config : DhcpConfig) (hostname : str) : bool :=
  flag_contains (cf_flags config) ConfigFlags.NAME &&
  match cf_hostname config with Some n => eq_ignore_ascii_case n hostname | None => false end.

(** The best wildcard match of one entry, and the loop over the entries: the
    index and the count of the best so far. *)
Definition wild_count (hwaddr : list u8) (hw_type : Z) (h : HwaddrConfig) : nat :=
  if negb (hc_wildcard_mask h =? 0) && hw_matches h hwaddr hw_type
  then memcmp_masked (take (length hwaddr) (hc_hwaddr h)) hwaddr (hc_wildcard_mask h) else 0%nat.
Definition wild_entry (hwaddr : list u8) (hw_type : Z) (i : nat) (best : option nat * nat) (config : DhcpConfig)
  : option nat * nat :=
  fold_left (fun best h => let count := wild_count hwaddr hw_type h in
                           if (best.2 <? count)%nat then (Some i, count) else best) (cf_hwaddrs config) best.
Fixpoint wild_loop (filter : DhcpConfig -> bool) (hwaddr : list u8) (hw_type : Z) (i : nat) (configs : list DhcpConfig)
    (best : option nat * nat) : option nat * nat :=
  match configs with
  | [] => best
  | c :: rest =>
    wild_loop filter hwaddr hw_type (S i) rest (if filter c then wild_entry hwaddr hw_type i best c else best)
  end.

Definition matches_filter (tags : list DhcpNetid) (config : DhcpConfig) : bool :=
  (length (cf_filter config) =? 0)%nat || match_netid_wild (cf_filter config) tags.

Definition or_else {A} (o : option A) (alt : option A) : option A :=
  match o with Some x => Some x | None => alt end.

Definition find_config (configs : list DhcpConfig) (clid hwaddr : option (list u8)) (hw_type : Z)
    (hostname : option str) (tags : list DhcpNetid) : option nat :=
  let ok := matches_filter tags in
  let by_clid := let! c := clid in find_index (fun config => ok config && clid_matches config c) configs in
  let by_mac := let! h := hwaddr in find_index (fun config => ok config && config_has_mac config h hw_type) configs in
  let by_hostname := let! n := hostname in find_index (fun config => ok config && name_matches config n) configs in
  let by_wildcard_mac := let! h := hwaddr in fst (wild_loop ok h hw_type 0 configs (None, 0%nat)) in
  or_else by_clid (or_else by_mac (or_else by_hostname by_wildcard_mac)).

(** The entry behind a reference. *)
Definition config_at (configs : list DhcpConfig) (r : option nat) : option DhcpConfig :=
  match r with Some i => configs !! i | None => None end.

(** ** Marks *)

Definition set_mark (b : bool) (o : DhcpOpt) : DhcpOpt := if b then mark o else unmark o.

Lemma has_TAGOK o : has (o_flags o) DhOptFlags.TAGOK = tagok o.
Proof.
  unfold tagok, flag_contains. apply eq_true_iff_eq. rewrite (has_bit _ 12) by lia. rewrite Z.eqb_eq. split.
  - intros E. apply Z.bits_inj'. intros n Hn. rewrite Z.land_spec. unfold DhOptFlags.TAGOK.
    destruct (Z.eq_dec n 12) as [->|]; [by rewrite E|]. rewrite Z.pow2_bits_false by lia. apply andb_false_r.
  - intros E. apply (f_equal (fun z => Z.testbit z 12)) in E. rewrite Z.land_spec in E. by apply andb_true_iff in E as [? _].
Qed.

Lemma tagok_set_mark b o : tagok (set_mark b o) = b.
Proof.
  rewrite <- has_TAGOK. rewrite (has_bit _ 12) by lia. destruct b; unfold set_mark, mark, unmark; destruct o as [xa xf xv xn xe xw]; cbn [set_o_flags o_flags].
  - unfold flag_add. rewrite Z.lor_spec. apply orb_true_r.
  - unfold flag_del. rewrite Z.ldiff_spec. apply andb_false_r.
Qed.

Lemma set_mark_idem b c o : set_mark b (set_mark c o) = set_mark b o.
Proof.
  destruct o as [opt f v n e vc], b, c; cbn; unfold mark, unmark, set_o_flags, flag_add, flag_del; cbn; f_equal;
    apply Z.bits_inj'; intros k Hk; rewrite ?Z.lor_spec, ?Z.ldiff_spec, ?Z.lor_spec, ?Z.ldiff_spec;
    by destruct (Z.testbit f k), (Z.testbit DhOptFlags.TAGOK k).
Qed.

Lemma has_set_mark b o m : Z.land DhOptFlags.TAGOK m = 0 -> has (o_flags (set_mark b o)) m = has (o_flags o) m.
Proof.
  intros Hm. destruct b; unfold set_mark, mark, unmark; destruct o as [xa xf xv xn xe xw]; cbn [set_o_flags o_flags].
  - rewrite has_flag_add. unfold has at 2. rewrite Hm. apply orb_false_r.
  - by apply has_flag_del_other.
Qed.

Lemma pxe_set_mark b o mode : pxe_ok (set_mark b o) mode = pxe_ok o mode.
Proof.
  unfold pxe_ok. assert (flag_contains (o_flags (set_mark b o)) DhOptFlags.PXE_OPT = flag_contains (o_flags o) DhOptFlags.PXE_OPT) as ->; [|done].
  unfold flag_contains. f_equal. apply Z.bits_inj'. intros n Hn. rewrite !Z.land_spec. unfold DhOptFlags.PXE_OPT.
  destruct (Z.eq_dec n 15) as [->|]; [|by rewrite Z.pow2_bits_false, !andb_false_r by lia]. f_equal.
  destruct b; unfold set_mark, mark, unmark; destruct o as [xa xf xv xn xe xw]; cbn [set_o_flags o_flags]; unfold flag_add, flag_del;
    rewrite ?Z.lor_spec, ?Z.ldiff_spec; change (Z.testbit DhOptFlags.TAGOK 15) with false.
  - apply orb_false_r.
  - apply andb_true_r.
Qed.

Lemma netid_set_mark b o : o_netid (set_mark b o) = o_netid o.
Proof. by destruct b. Qed.
Lemma opt_set_mark b o : o_opt (set_mark b o) = o_opt o.
Proof. by destruct b. Qed.
Lemma untagged_set_mark b o : untagged (set_mark b o) = untagged o.
Proof. unfold untagged. by rewrite netid_set_mark. Qed.

(** ** The selection of options *)

(** A tagged option for the tags [T]; an untagged one. *)
Definition fits_tags (T : list DhcpNetid) (pxemode : Z) (o : DhcpOpt) : bool :=
  negb (has (o_flags o) ENCAP_MASK) && negb (untagged o) && match_netid_wild (o_netid o) T && pxe_ok o pxemode.
Definition fits_plain (pxemode : Z) (o : DhcpOpt) : bool :=
  negb (has (o_flags o) ENCAP_MASK) && untagged o && pxe_ok o pxemode.

Lemma mark_set_mark b o : mark (set_mark b o) = set_mark true o.
Proof. exact (set_mark_idem true b o). Qed.
Lemma unmark_set_mark b o : unmark (set_mark b o) = set_mark false o.
Proof. exact (set_mark_idem false b o). Qed.

Lemma encap_tagok_set_mark b o :
  has (o_flags (set_mark b o)) (ENCAP_MASK ∣∣ DhOptFlags.TAGOK) = has (o_flags o) ENCAP_MASK || b.
Proof. by rewrite has_lor, has_TAGOK, tagok_set_mark, has_set_mark. Qed.

Lemma phase1_eq T m o : phase1 T m o = set_mark (fits_tags T m o) o.
Proof.
  unfold phase1, fits_tags. change (unmark o) with (set_mark false o).
  rewrite has_set_mark, untagged_set_mark, netid_set_mark, pxe_set_mark, mark_set_mark by done.
  by destruct (has _ _), (_ && _ && _) eqn:E; cbn; rewrite ?E.
Qed.

Lemma phase2_reset_eq T b o : has (o_flags o) ENCAP_MASK = false \/ b = false ->
  phase2_reset T (set_mark b o) = set_mark (b && (untagged o || match_netid_wild (o_netid o) T)) o.
Proof.
  intros He. unfold phase2_reset. rewrite has_set_mark, tagok_set_mark, untagged_set_mark, netid_set_mark by done.
  destruct (has _ _) eqn:E, b, (untagged o || _); cbn; try done; [by destruct He..|exact (unmark_set_mark true o)].
Qed.

Lemma phase2_mark_eq codes T m b o :
  phase2_mark codes T m (set_mark b o) = set_mark (b || (fits_tags T m o && negb (has_code codes (o_opt o)))) o.
Proof.
  unfold phase2_mark, fits_tags. rewrite encap_tagok_set_mark, untagged_set_mark, netid_set_mark, pxe_set_mark, opt_set_mark, mark_set_mark.
  destruct b; [by rewrite orb_true_r|]. destruct (has _ _); [done|]. cbn [negb orb andb]. by destruct (_ && _).
Qed.

Lemma phase3_mark_eq codes m b o :
  phase3_mark codes m (set_mark b o) = set_mark (b || (fits_plain m o && negb (has_code codes (o_opt o)))) o.
Proof.
  unfold phase3_mark, fits_plain. rewrite encap_tagok_set_mark, untagged_set_mark, pxe_set_mark, opt_set_mark, mark_set_mark.
  destruct b; [by rewrite orb_true_r|]. destruct (has _ _); [done|]. cbn [negb orb andb].
  destruct (untagged o); [|done]. cbn [negb andb]. by destruct (pxe_ok _ _ && _).
Qed.

Lemma codes_of_set_mark (p : DhcpOpt -> bool) (b : DhcpOpt -> bool) opts :
  (forall o, p (set_mark (b o) o) = b o) -> codes_of p ((fun o => set_mark (b o) o) <$> opts) = codes_of b opts.
Proof.
  intros Hp. unfold codes_of. induction opts as [|o opts IH]; [done|]. cbn. rewrite Hp. destruct (b o) eqn:E; cbn; [|done].
  f_equal. exact IH.
Qed.

Lemma elem_codes (p : DhcpOpt -> bool) opts c : c ∈ codes_of p opts <-> exists o, o ∈ opts /\ p o = true /\ o_opt o = c.
Proof.
  unfold codes_of. rewrite list_elem_of_fmap. split.
  - intros (o & -> & Ho). apply list_elem_of_In, filter_In in Ho as [Ho Hp]. exists o. split_and!; [by apply list_elem_of_In|done..].
  - intros (o & Ho & Hp & <-). exists o. split; [done|]. apply list_elem_of_In, filter_In. split; [by apply list_elem_of_In|done].
Qed.

Lemma codes_of_cons (p : DhcpOpt -> bool) o opts :
  codes_of p (o :: opts) = if p o then o_opt o :: codes_of p opts else codes_of p opts.
Proof. unfold codes_of. cbn. by destruct (p o). Qed.

Lemma phase4_spec opts seen :
  Forall2 (fun o o' => o' = o \/ (tagok o = true /\ o' = unmark o)) opts (phase4 seen opts) /\
  NoDup (codes_of tagok (phase4 seen opts)) /\
  (forall c, c ∈ codes_of tagok (phase4 seen opts) -> c ∉ seen) /\
  (forall c, c ∈ codes_of tagok opts -> c ∈ seen \/ c ∈ codes_of tagok (phase4 seen opts)).
Proof.
  revert seen. induction opts as [|o opts IH]; intros seen; cbn [phase4].
  { split_and!; [constructor|constructor|by intros c ?%not_elem_of_nil..]. }
  rewrite codes_of_cons. destruct (tagok o) eqn:Et.
  - unfold has_code. destruct (bool_decide _) eqn:Ec.
    + apply bool_decide_eq_true in Ec. destruct (IH seen) as (H1 & H2 & H3 & H4).
      rewrite !codes_of_cons, (tagok_set_mark false o : tagok (unmark o) = false). split_and!; [by constructor; [right|]|done..|].
      intros c [->|Hc]%elem_of_cons; [by left|by apply H4].
    + apply bool_decide_eq_false in Ec. destruct (IH (o_opt o :: seen)) as (H1 & H2 & H3 & H4).
      rewrite !codes_of_cons, Et. split_and!.
      * constructor; [by left|done].
      * constructor; [|done]. intros Hin%H3. apply Hin. by left.
      * intros c [->|Hc]%elem_of_cons; [done|]. apply H3 in Hc. intros ?. apply Hc. by right.
      * intros c [->|Hc]%elem_of_cons; [by right; left|]. destruct (H4 c Hc) as [[->|]%elem_of_cons|]; [by right; left|by left|by right; right].
  - destruct (IH seen) as (H1 & H2 & H3 & H4). rewrite !codes_of_cons, Et. split_and!; [|done..]. constructor; [by left|done].
Qed.

(** The tags the options are selected by. *)
Definition final_tags (ctx : option (list DhcpNetid)) (tags : list DhcpNetid) (rules : list TagIf) : list DhcpNetid :=
  let tagif := run_tag_if tags rules in
  match ctx with None => tagif | Some c => run_tag_if (c ++ tagif) rules end.

Lemma fits_tags_parts T m o : fits_tags T m o = true <->
  has (o_flags o) ENCAP_MASK = false /\ untagged o = false /\ match_netid_wild (o_netid o) T = true /\ pxe_ok o m = true.
Proof. unfold fits_tags. rewrite !andb_true_iff, !negb_true_iff. tauto. Qed.

Lemma tagged_phases ctx tags rules m opts : exists b : DhcpOpt -> bool,
  phase2 ctx (run_tag_if tags rules) rules m (phase1 (run_tag_if tags rules) m <$> opts) = (fun o => set_mark (b o) o) <$> opts /\
  (forall o, b o = true -> fits_tags (final_tags ctx tags rules) m o = true) /\
  (forall o, o ∈ opts -> fits_tags (final_tags ctx tags rules) m o = true -> o_opt o ∈ codes_of b opts).
Proof.
  unfold final_tags, phase2. set (tagif := run_tag_if tags rules). destruct ctx as [c|].
  - set (T := run_tag_if (c ++ tagif) rules).
    set (r := fun o => fits_tags tagif m o && (untagged o || match_netid_wild (o_netid o) T)).
    assert (phase2_reset T <$> (phase1 tagif m <$> opts) = (fun o => set_mark (r o) o) <$> opts) as ->.
    { rewrite <- list_fmap_compose. apply list_fmap_ext. intros _ o _. cbn. rewrite phase1_eq, phase2_reset_eq; [done|].
      destruct (fits_tags tagif m o) eqn:E; [|by right]. left. by apply fits_tags_parts in E as (? & _). }
    rewrite (codes_of_set_mark tagok r) by (intros; apply tagok_set_mark).
    assert (forall o, r o = true -> fits_tags T m o = true) as Hr.
    { intros o. unfold r. rewrite andb_true_iff, !fits_tags_parts. intros [(? & Hu & _ & ?) Hm]. rewrite Hu in Hm. done. }
    exists (fun o => r o || (fits_tags T m o && negb (has_code (codes_of r opts) (o_opt o)))). split_and!.
    + rewrite <- list_fmap_compose. apply list_fmap_ext. intros _ o _. apply phase2_mark_eq.
    + intros o. rewrite orb_true_iff, andb_true_iff. intros [?|[? _]]; [by apply Hr|done].
    + intros o Ho Hf. apply elem_codes. destruct (has_code (codes_of r opts) (o_opt o)) eqn:E.
      * apply bool_decide_eq_true, elem_codes in E as (o' & Ho' & Hr' & <-). exists o'. split_and!; [done| |done]. by rewrite Hr'.
      * exists o. split_and!; [done| |done]. cbn. rewrite Hf, E. apply orb_true_r.
  - exists (fits_tags tagif m). split_and!; [|done|].
    + apply list_fmap_ext. intros _ o _. apply phase1_eq.
    + intros o Ho Hf. apply elem_codes. by exists o.
Qed.

(** The options chosen for a client. Each code is sent at most once, and
    exactly for the codes some configured option fits; what is sent fits the
    client's tags (extended by the range's tags and the [tag-if] rules) and the
    PXE mode, and an untagged option never replaces a tagged one that fits.
    Nothing but the marks changes. *)
Theorem option_filter_spec tags ctx opts m rules T out :
  option_filter tags ctx opts m rules = (T, out) ->
  T = run_tag_if tags rules /\ NoDup (codes_of tagok out) /\
  Forall2 (fun o o' => o' = set_mark (tagok o') o /\
    (tagok o' = true ->
       fits_tags (final_tags ctx tags rules) m o = true \/
       (fits_plain m o = true /\
        forall q, q ∈ opts -> fits_tags (final_tags ctx tags rules) m q = true -> o_opt q <> o_opt o))) opts out /\
  (forall o, o ∈ opts -> fits_tags (final_tags ctx tags rules) m o = true \/ fits_plain m o = true ->
     o_opt o ∈ codes_of tagok out).
Proof.
  unfold option_filter. destruct (tagged_phases ctx tags rules m opts) as (b & -> & Hb & Hcov). intros [= <- <-].
  set (b3 := fun o => b o || (fits_plain m o && negb (has_code (codes_of b opts) (o_opt o)))).
  assert (phase3 m ((fun o => set_mark (b o) o) <$> opts) = (fun o => set_mark (b3 o) o) <$> opts) as ->.
  { unfold phase3. rewrite (codes_of_set_mark _ b).
    - rewrite <- list_fmap_compose. apply list_fmap_ext. intros _ o _. apply phase3_mark_eq.
    - intros o. rewrite tagok_set_mark, untagged_set_mark. destruct (b o) eqn:E; [|done].
      apply Hb, fits_tags_parts in E as (_ & -> & _). done. }
  destruct (phase4_spec ((fun o => set_mark (b3 o) o) <$> opts) []) as (H1 & H2 & _ & H4).
  split_and!; [done|done| |].
  - apply Forall2_fmap_l in H1. apply (Forall2_impl _ _ _ _ H1). intros o o' Ho'.
    assert (o' = set_mark (tagok o') o /\ (tagok o' = true -> b3 o = true)) as [He Ht].
    { destruct Ho' as [->|[Hm ->]]; [by rewrite tagok_set_mark|].
      by rewrite unmark_set_mark, tagok_set_mark. }
    split; [done|]. intros Hm%Ht. unfold b3 in Hm. apply orb_true_iff in Hm as [Hm|Hm]; [left; by apply Hb|].
    apply andb_true_iff in Hm as [Hp Hn]. right. split; [done|]. intros q Hq Hf Heq.
    apply negb_true_iff, bool_decide_eq_false in Hn. apply Hn. rewrite <- Heq. by apply Hcov.
  - intros o Ho Hf. assert (o_opt o ∈ codes_of b3 opts) as Hin.
    { apply elem_codes. destruct (has_code (codes_of b opts) (o_opt o)) eqn:E.
      - apply bool_decide_eq_true, elem_codes in E as (q & Hq & Hbq & <-). exists q. split_and!; [done| |done]. unfold b3. by rewrite Hbq.
      - exists o. split_and!; [done| |done]. unfold b3. rewrite E. destruct Hf as [Hf|Hf]; [|rewrite Hf; apply orb_true_r].
        exfalso. apply bool_decide_eq_false in E. apply E. by apply Hcov. }
    rewrite <- (codes_of_set_mark tagok b3) in Hin by (intros; apply tagok_set_mark).
    destruct (H4 _ Hin) as [?%not_elem_of_nil|]; done.
Qed.

Definition sample_options : list DhcpOpt :=
  [mkDhcpOpt 3 0 (Some (z8 <$> [10; 0; 0; 1])) [] 0 None;
   mkDhcpOpt 3 0 (Some (z8 <$> [10; 0; 0; 2])) [mkNetid (bs "lab")] 0 None;
   mkDhcpOpt 6 0 (Some (z8 <$> [10; 0; 0; 3])) [mkNetid (bs "!lab")] 0 None].

Lemma option_filter_spec_witness : exists T out,
  option_filter [mkNetid (bs "lab")] None sample_options 0 [] = (T, out) /\ codes_of tagok out = [3] /\
  NoDup (codes_of tagok out).
Proof.
  destruct (option_filter [mkNetid (bs "lab")] None sample_options 0 []) as [T out] eqn:E. exists T, out.
  split; [reflexivity|]. split.
  - vm_compute in E. injection E as _ <-. vm_compute. reflexivity.
  - destruct (option_filter_spec _ _ _ _ _ _ _ E) as (_ & H & _). exact H.
Defined.

(** ** The best host entry *)

Lemma find_index_Some {A} (p : A -> bool) l i : find_index p l = Some i ->
  exists x, l !! i = Some x /\ p x = true /\ forall j y, (j < i)%nat -> l !! j = Some y -> p y = false.
Proof.
  revert i. induction l as [|x l IH]; intros i; cbn; [done|]. destruct (p x) eqn:E.
  - intros [= <-]. exists x. split_and!; [done..|]. intros j y Hj. lia.
  - destruct (find_index p l) as [k|]; [|done]. intros [= <-]. destruct (IH k eq_refl) as (z & Hz & Hp & Hf). exists z.
    split_and!; [done..|]. intros [|j] y Hj; cbn; [by intros [= <-]|]. apply Hf. lia.
Qed.
Lemma find_index_None {A} (p : A -> bool) l : find_index p l = None -> forall j y, l !! j = Some y -> p y = false.
Proof.
  induction l as [|x l IH]; cbn; [done|]. destruct (p x) eqn:E; [done|]. destruct (find_index p l); [done|].
  intros _ [|j] y; cbn; [by intros [= <-]|by apply IH].
Qed.

(** The best count of an entry's wildcard addresses. *)
Definition wild_best (hwaddr : list u8) (hw_type : Z) (c : DhcpConfig) : nat :=
  foldr Nat.max 0%nat (wild_count hwaddr hw_type <$> cf_hwaddrs c).

Lemma wild_entry_spec h t i r n c :
  wild_entry h t i (r, n) c = if (n <? wild_best h t c)%nat then (Some i, wild_best h t c) else (r, n).
Proof.
  unfold wild_entry, wild_best. revert r n. induction (cf_hwaddrs c) as [|x l IH]; intros r n; [done|]. cbn [fold_left fmap list_fmap foldr snd].
  set (w := wild_count h t x). destruct (n <? w)%nat eqn:E; rewrite IH; clear IH; set (m := foldr Nat.max 0%nat _).
  - apply Nat.ltb_lt in E. destruct (Nat.max_spec w m) as [[? ->]|[? ->]].
    + by rewrite !(proj2 (Nat.ltb_lt _ _)) by lia.
    + by rewrite (proj2 (Nat.ltb_ge w m)), (proj2 (Nat.ltb_lt _ _)) by lia.
  - apply Nat.ltb_ge in E. destruct (Nat.max_spec w m) as [[? ->]|[? ->]]; [done|].
    by rewrite !(proj2 (Nat.ltb_ge _ _)) by lia.
Qed.

(** The loop ends on the first entry with the highest count. *)
Definition best_of (ok : DhcpConfig -> bool) (W : DhcpConfig -> nat) (l : list DhcpConfig) (n : nat) (k : nat) : Prop :=
  exists c, l !! k = Some c /\ ok c = true /\ W c = n /\
    (forall j d, l !! j = Some d -> ok d = true -> (W d <= n)%nat) /\
    (forall j d, (j < k)%nat -> l !! j = Some d -> ok d = true -> (W d < n)%nat).

Lemma wild_loop_spec ok h t l i0 r0 n0 r n : wild_loop ok h t i0 l (r0, n0) = (r, n) ->
  (r = r0 /\ n = n0 /\ forall j d, l !! j = Some d -> ok d = true -> (wild_best h t d <= n0)%nat) \/
  ((n0 < n)%nat /\ exists k, r = Some (i0 + k)%nat /\ best_of ok (wild_best h t) l n k).
Proof.
  revert i0 r0 n0. induction l as [|c l IH]; intros i0 r0 n0; cbn [wild_loop].
  { intros [= <- <-]. left. split_and!; [done..|]. by intros j d Hj. }
  destruct (ok c) eqn:Eo; [rewrite wild_entry_spec; destruct (n0 <? wild_best h t c)%nat eqn:Ew|]; intros H;
    destruct (IH _ _ _ H) as [(-> & -> & Hall)|(Hn & k & -> & d & Hk & Hd & HW & Hmax & Hfst)].
  - apply Nat.ltb_lt in Ew. right. split; [done|]. exists 0%nat. rewrite Nat.add_0_r. split; [done|]. exists c. split_and!; [done..| |].
    + intros [|j] d; cbn; [by intros [= <-]|apply Hall].
    + intros j d Hj. lia.
  - apply Nat.ltb_lt in Ew. right. split; [lia|]. exists (S k). split; [f_equal; lia|]. exists d. split_and!; [done..| |].
    + intros [|j] e; cbn; [intros [= <-]; lia|apply Hmax].
    + intros [|j] e Hj; cbn; [intros [= <-]; lia|apply Hfst; lia].
  - apply Nat.ltb_ge in Ew. left. split_and!; [done..|]. intros [|j] d; cbn; [by intros [= <-]|apply Hall].
  - apply Nat.ltb_ge in Ew. right. split; [done|]. exists (S k). split; [f_equal; lia|]. exists d. split_and!; [done..| |].
    + intros [|j] e; cbn; [intros [= <-]; lia|apply Hmax].
    + intros [|j] e Hj; cbn; [intros [= <-]; lia|apply Hfst; lia].
  - left. split_and!; [done..|]. intros [|j] d; cbn; [intros [= <-]; congruence|apply Hall].
  - right. split; [done|]. exists (S k). split; [f_equal; lia|]. exists d. split_and!; [done..| |].
    + intros [|j] e; cbn; [intros [= <-]; congruence|apply Hmax].
    + intros [|j] e Hj; cbn; [intros [= <-]; congruence|apply Hfst; lia].
Qed.

Lemma memcmp_loop_le ab m n : (memcmp_loop ab m n <= n + length ab)%nat.
Proof.
  revert m n. induction ab as [|[x y] ab IH]; intros m n; cbn; [lia|].
  destruct (_ =? 0); [destruct (decide _); [|lia]|]; (etransitivity; [apply IH|lia]).
Qed.

Lemma wild_best_le h t c : (wild_best h t c <= S (length h))%nat.
Proof.
  unfold wild_best. induction (cf_hwaddrs c) as [|x l IH]; cbn [fmap list_fmap foldr]; [lia|]. apply Nat.max_lub; [|done].
  unfold wild_count. destruct (_ && _); [|lia]. unfold memcmp_masked. etransitivity; [apply memcmp_loop_le|].
  rewrite length_reverse, length_zip, !length_take. lia.
Qed.

(** How strongly an entry matches the client: by client identifier, exact
    hardware address, name, or by the number of address bytes compared. *)
Definition strength (clid hwaddr : option (list u8)) (hw_type : Z) (hostname : option str) (c : DhcpConfig) : nat :=
  let n := length (default [] hwaddr) in
  if match clid with Some i => clid_matches c i | None => false end then (n + 4)%nat
  else if match hwaddr with Some h => config_has_mac c h hw_type | None => false end then (n + 3)%nat
  else if match hostname with Some s => name_matches c s | None => false end then (n + 2)%nat
  else match hwaddr with Some h => wild_best h hw_type c | None => 0%nat end.

(** An entry of the list that passes the filter. *)
Definition eligible (ok : DhcpConfig -> bool) (l : list DhcpConfig) (c : DhcpConfig) : Prop :=
  ok c = true /\ exists j, l !! j = Some c.

Lemma first_is_best ok (S' : DhcpConfig -> nat) p v l k :
  find_index (fun c => ok c && p c) l = Some k ->
  (forall c, eligible ok l c -> if p c then S' c = v else (S' c < v)%nat) -> best_of ok S' l v k.
Proof.
  intros (c & Hc & [Hok Hp]%andb_true_iff & Hf)%find_index_Some HS. exists c. split_and!; [done..| | |].
  - specialize (HS c). rewrite Hp in HS. apply HS. split; eauto.
  - intros j d Hj Hd. specialize (HS d). destruct (p d); [rewrite HS|apply Nat.lt_le_incl, HS]; (done || split; eauto).
  - intros j d Hjk Hj Hd. specialize (Hf j d Hjk Hj). rewrite Hd in Hf. cbn in Hf. specialize (HS d). rewrite Hf in HS.
    apply HS. split; eauto.
Qed.

Lemma none_eligible ok (p : DhcpConfig -> bool) l :
  find_index (fun c => ok c && p c) l = None -> forall c, eligible ok l c -> p c = false.
Proof. intros H c [Hc [j Hj]]. pose proof (find_index_None _ _ H j c Hj) as E. cbn in E. by rewrite Hc in E. Qed.

Lemma find_index_opt {A} ok (o : option A) (q : A -> DhcpConfig -> bool) l :
  match o with Some x => find_index (fun c => ok c && q x c) l | None => None end =
  find_index (fun c => ok c && match o with Some x => q x c | None => false end) l.
Proof. destruct o as [x|]; [done|]. induction l as [|c l IH]; [done|]. cbn. by rewrite andb_false_r, <- IH. Qed.

(** A client gets the host entry that matches it most strongly among those
    whose tags fit: by client identifier before hardware address before name
    before wildcard address, a wildcard that fixes more bytes before one that
    fixes fewer, and the first of several equal ones. It gets none only when no
    entry matches at all. *)
Theorem find_config_best configs clid hwaddr hw_type hostname tags :
  let S' := strength clid hwaddr hw_type hostname in
  match find_config configs clid hwaddr hw_type hostname tags with
  | Some k => exists n, (0 < n)%nat /\ best_of (matches_filter tags) S' configs n k
  | None => forall j c, configs !! j = Some c -> matches_filter tags c = true -> S' c = 0%nat
  end.
Proof.
  intros S'. unfold find_config. set (ok := matches_filter tags). set (n := length (default [] hwaddr)).
  set (p1 := fun c => match clid with Some i => clid_matches c i | None => false end).
  set (p2 := fun c => match hwaddr with Some h => config_has_mac c h hw_type | None => false end).
  set (p3 := fun c => match hostname with Some s => name_matches c s | None => false end).
  set (w := fun c => match hwaddr with Some h => wild_best h hw_type c | None => 0%nat end).
  assert (forall c, S' c = if p1 c then (n + 4)%nat else if p2 c then (n + 3)%nat else if p3 c then (n + 2)%nat else w c) as HS by done.
  assert (forall c, w c <= S n)%nat as Hw.
  { intros c. unfold w, n. destruct hwaddr as [h|]; cbn; [apply wild_best_le|lia]. }
  rewrite (find_index_opt ok clid (fun i c => clid_matches c i)), (find_index_opt ok hwaddr (fun h c => config_has_mac c h hw_type)),
    (find_index_opt ok hostname (fun s c => name_matches c s)).
  change (fun c => ok c && match clid with Some x => clid_matches c x | None => false end) with (fun c => ok c && p1 c).
  change (fun c => ok c && match hwaddr with Some x => config_has_mac c x hw_type | None => false end) with (fun c => ok c && p2 c).
  change (fun c => ok c && match hostname with Some x => name_matches c x | None => false end) with (fun c => ok c && p3 c).
  destruct (find_index (fun c => ok c && p1 c) configs) as [k|] eqn:E1; cbn [or_else].
  { exists (n + 4)%nat. split; [lia|]. apply (first_is_best ok S' p1); [done|]. intros c _. rewrite HS. specialize (Hw c).
    repeat case_bool; lia. }
  pose proof (none_eligible _ _ _ E1) as M1. destruct (find_index (fun c => ok c && p2 c) configs) as [k|] eqn:E2; cbn [or_else].
  { exists (n + 3)%nat. split; [lia|]. apply (first_is_best ok S' p2); [done|]. intros c Hc. rewrite HS, (M1 c Hc). specialize (Hw c).
    repeat case_bool; lia. }
  pose proof (none_eligible _ _ _ E2) as M2. destruct (find_index (fun c => ok c && p3 c) configs) as [k|] eqn:E3; cbn [or_else].
  { exists (n + 2)%nat. split; [lia|]. apply (first_is_best ok S' p3); [done|]. intros c Hc. rewrite HS, (M1 c Hc), (M2 c Hc).
    specialize (Hw c). repeat case_bool; lia. }
  pose proof (none_eligible _ _ _ E3) as M3.
  assert (forall j c, configs !! j = Some c -> ok c = true -> S' c = w c) as HSw.
  { intros j c Hj Hc. rewrite HS, M1, M2, M3 by (split; eauto). done. }
  destruct hwaddr as [h|]; [|intros j c Hj Hc; by rewrite (HSw j c)].
  destruct (wild_loop ok h hw_type 0 configs (None, 0%nat)) as [r m] eqn:El. cbn [fst].
  destruct (wild_loop_spec _ _ _ _ _ _ _ _ _ El) as [(-> & -> & Hall)|(Hm & k & -> & c & Hk & Hc & HW & Hmax & Hfst)].
  - intros j c Hj Hc. rewrite (HSw j c) by done. specialize (Hall j c Hj Hc). unfold w. lia.
  - exists m. split; [done|]. exists c. split_and!; [done..|by rewrite (HSw k c)| |].
    + intros j d Hj Hd. rewrite (HSw j d) by done. by apply (Hmax j).
    + intros j d Hjk Hj Hd. rewrite (HSw j d) by done. by apply (Hfst j).
Qed.
