(* ===== verification/Lease.v ===== *)
(** * The lease database: src/src/lease.rs

    The store of leases keyed by client, its index by address, the operations
    of the DHCP servers on it and the lease file. The iteration order of the
    source's hash map is left open: it is a parameter of which only that it
    enumerates the map is known. The SLAAC bookkeeping of the database is in
    another module of the source and not modelled; file and process I/O is
    reduced to the text written and the events passed to the script. *)

From Stdlib Require Import ZArith Lia String.
From stdpp Require Import base numbers list option gmap sets.
From S2P Require Import Prelude Types Hostname Util DhcpTypes DhcpOptions DhcpCommon.

#[local] Open Scope Z_scope.

(** [[u8; 16]]. *)
Notation Key := (list u8) (only parsing).

(** [HashMap] iteration: some enumeration of the entries. *)
Class HashOrder : Type := {
  iter_order : gmap Key DhcpLease -> list (Key * DhcpLease);
  iter_order_perm : forall m, iter_order m ≡ₚ map_to_list m;
}.
Definition values `{HashOrder} (m : gmap Key DhcpLease) : list DhcpLease := snd <$> iter_order m.

Definition to_key (id : list u8) : Key := take 16 id ++ replicate (16 - length id) Byte.x00.

(** [&lease.hwaddr[..lease.hwaddr_len.min(DHCP_CHADDR_MAX)]]. *)
Definition hw_bytes (l : DhcpLease) : list u8 := take (Nat.min (dl_hwaddr_len l) DHCP_CHADDR_MAX) (dl_hwaddr l).

Definition lease_key (l : DhcpLease) : Key :=
  match dl_clid l with
  | Some clid => if (length clid =? 0)%nat then to_key (hw_bytes l) else to_key clid
  | None => to_key (hw_bytes l)
  end.

Record LeaseDb : Type := mkDb {
  leases : gmap Key DhcpLease;
  addr_index : gmap Ipv4Addr Key;
  max_leases : nat;
  file_dirty : bool;
  dns_dirty : bool;
  old_leases : list DhcpLease;
}.

Definition db_new : LeaseDb := mkDb ∅ ∅ 1000 false false [].
Definition with_leases (m : gmap Key DhcpLease) (db : LeaseDb) : LeaseDb :=
  mkDb m (addr_index db) (max_leases db) (file_dirty db) (dns_dirty db) (old_leases db).
Definition with_index (ix : gmap Ipv4Addr Key) (db : LeaseDb) : LeaseDb :=
  mkDb (leases db) ix (max_leases db) (file_dirty db) (dns_dirty db) (old_leases db).
Definition with_dirty (file dns : bool) (db : LeaseDb) : LeaseDb :=
  mkDb (leases db) (addr_index db) (max_leases db) (file_dirty db || file) (dns_dirty db || dns) (old_leases db).
Definition with_old (old : list DhcpLease) (db : LeaseDb) : LeaseDb :=
  mkDb (leases db) (addr_index db) (max_leases db) (file_dirty db) (dns_dirty db) old.

(** ** The index *)

Definition index_addr (addr : Ipv4Addr) (key : Key) (db : LeaseDb) : LeaseDb :=
  if addr =? UNSPECIFIED then db else with_index (<[addr := key]> (addr_index db)) db.
Definition unindex_addr (addr : Ipv4Addr) (db : LeaseDb) : LeaseDb :=
  if addr =? UNSPECIFIED then db else with_index (delete addr (addr_index db)) db.

Definition insert_raw (key : Key) (lease : DhcpLease) (db : LeaseDb) : LeaseDb :=
  let db := match leases db !! key with
            | Some old => if dl_addr old =? dl_addr lease then db else unindex_addr (dl_addr old) db
            | None => db
            end in
  let db := index_addr (dl_addr lease) key db in
  with_leases (<[key := lease]> (leases db)) db.
Definition db_insert (lease : DhcpLease) (db : LeaseDb) : LeaseDb := insert_raw (lease_key lease) lease db.

Definition find_by_addr (addr : Ipv4Addr) (db : LeaseDb) : option DhcpLease :=
  let! key := addr_index db !! addr in leases db !! key.
Definition find_by_client_id (client_id : list u8) (db : LeaseDb) : option DhcpLease := leases db !! to_key client_id.

(** Change the lease [get_mut_by_addr] returns. *)
Definition update_by_addr (addr : Ipv4Addr) (f : DhcpLease -> DhcpLease) (db : LeaseDb) : LeaseDb :=
  match addr_index db !! addr with
  | Some key => with_leases (alter f key (leases db)) db
  | None => db
  end.

(** ** Allocation, expiry and removal *)

Definition allocate_v4 (addr : Ipv4Addr) (db : LeaseDb) : option LeaseDb :=
  if (max_leases db <=? size (leases db))%nat then None
  else
    let lease := set_dl_addr addr (set_dl_flags LeaseFlags.NEW lease_default) in
    Some (with_dirty true true (insert_raw (lease_key lease) lease db)).

(** [exp < now]. *)
Definition lease_expired (now : SystemTime) (l : DhcpLease) : bool :=
  match dl_expires l with Some exp => exp <? now | None => false end.

Definition prune `{HashOrder} (now_secs : Z) (db : LeaseDb) : list DhcpLease * LeaseDb :=
  let now := now_secs * 1000000000 in
  let pruned := List.filter (lease_expired now) (values (leases db)) in
  let ix := fold_left (fun ix l => if dl_addr l =? UNSPECIFIED then ix else delete (dl_addr l) ix) pruned (addr_index db) in
  (pruned, with_old (old_leases db ++ pruned)
             (with_index ix (with_leases (filter (fun kl => lease_expired now kl.2 = false) (leases db)) db))).

Definition remove_by_addr (addr : Ipv4Addr) (db : LeaseDb) : option DhcpLease * LeaseDb :=
  match addr_index db !! addr with
  | None => (None, db)
  | Some key =>
    let db := with_dirty true true db in
    match leases db !! key with
    | None => (None, db)
    | Some removed =>
      let db := unindex_addr addr (with_leases (delete key (leases db)) db) in
      (Some removed, with_old (old_leases db ++ [removed]) db)
    end
  end.

(** ** Setters *)

Definition set_expires (now : SystemTime) (addr : Ipv4Addr) (duration_secs : Z) (db : LeaseDb) : LeaseDb :=
  match find_by_addr addr db with
  | None => db
  | Some lease =>
    let new_expires := if duration_secs =? 0xFFFFFFFF then None else Some (now + duration_secs * 1000000000) in
    if decide (dl_expires lease = new_expires) then db
    else with_dirty true false (update_by_addr addr (fun l =>
           set_dl_flags (flag_add (dl_flags l) (LeaseFlags.AUX_CHANGED ∣∣ LeaseFlags.EXP_CHANGED)) (set_dl_expires new_expires l)) db)
  end.

(** The array of a shorter hardware address. *)
Definition padded16 (b : list u8) : list u8 := take 16 b ++ replicate (16 - length b) Byte.x00.

(** The lease with the client's hardware address; the flag says whether the
    address changed. *)
Definition store_hwaddr (hwaddr : list u8) (hw_type : Z) (l : DhcpLease) : DhcpLease * bool :=
  let l := set_dl_flags (flag_add (dl_flags l) LeaseFlags.HAVE_HWADDR) l in
  let hw_len := Nat.min (length hwaddr) DHCP_CHADDR_MAX in
  let changed := negb (dl_hwaddr_len l =? hw_len)%nat || negb (dl_hwaddr_type l =? hw_type)
                 || negb (bool_decide (take hw_len (dl_hwaddr l) = take hw_len hwaddr)) in
  if changed then
    (set_dl_flags (flag_add (dl_flags l) LeaseFlags.CHANGED)
       (set_dl_hwaddr_type hw_type (set_dl_hwaddr_len hw_len (set_dl_hwaddr (padded16 hwaddr) l))), true)
  else (l, false).

Definition set_hwaddr (addr : Ipv4Addr) (hwaddr : list u8) (hw_type : Z) (clid : option (list u8)) (force : bool)
    (db : LeaseDb) : bool * LeaseDb :=
  match addr_index db !! addr with
  | None => (false, db)
  | Some key =>
    match leases db !! key with
    | None => (false, db)
    | Some lease =>
      if negb (dl_addr lease =? addr) then (false, db)
      else
        let '(lease, hw_changed) := store_hwaddr hwaddr hw_type lease in
        let db := with_dirty hw_changed false (with_leases (<[key := lease]> (leases db)) db) in
        match clid with
        | None => (force, db)
        | Some c =>
          if decide (dl_clid lease = Some c) then (force, db)
          else
            let db := with_leases (delete key (leases db)) db in
            let lease := set_dl_flags (flag_add (dl_flags lease) LeaseFlags.AUX_CHANGED) (set_dl_clid (Some c) lease) in
            (true, insert_raw (lease_key lease) lease (with_dirty true false db))
        end
    end
  end.

(** [lease.old_hostname = lease.hostname.take()]. *)
Definition take_hostname (l : DhcpLease) : DhcpLease :=
  set_dl_hostname None (set_dl_old_hostname (dl_hostname l) l).
Definition same_name (name : str) (l : DhcpLease) : bool :=
  match dl_hostname l with Some h => hostname_isequal h name | None => false end.

Definition drop_name (l : DhcpLease) : DhcpLease :=
  set_dl_flags (flag_add (dl_flags l) LeaseFlags.CHANGED) (take_hostname l).

(** The name is taken away from the other leases first. *)
Definition drop_duplicates `{HashOrder} (addr : Ipv4Addr) (name : option str) (db : LeaseDb) : LeaseDb :=
  match name with
  | None => db
  | Some new_name =>
    let duplicates := dl_addr <$> List.filter (fun l => negb (dl_addr l =? addr) && same_name new_name l) (values (leases db)) in
    fold_left (fun db a => update_by_addr a drop_name db) duplicates db
  end.

Definition set_hostname `{HashOrder} (addr : Ipv4Addr) (name : option str) (auth : bool) (db : LeaseDb) : LeaseDb :=
  let db := drop_duplicates addr name db in
  match find_by_addr addr db with
  | None => db
  | Some lease =>
    let name_changed := match dl_hostname lease, name with
                        | Some old, Some new => negb (hostname_isequal old new)
                        | None, None => false
                        | _, _ => true
                        end in
    let rename (l : DhcpLease) :=
      if name_changed then
        set_dl_flags (flag_add (dl_flags l) LeaseFlags.CHANGED) (set_dl_hostname name (take_hostname l)) else l in
    let set_auth (l : DhcpLease) :=
      set_dl_flags ((if auth then flag_add else flag_del) (dl_flags l) LeaseFlags.AUTH_NAME) l in
    with_dirty name_changed name_changed (update_by_addr addr (fun l => set_auth (rename l)) db)
  end.

(** The new name of a lease whose host entry has one. *)
Definition rename_of (configs : list DhcpConfig) (lease : DhcpLease) : option (Ipv4Addr * str) :=
  if has (dl_flags lease) (LeaseFlags.TA ∣∣ LeaseFlags.NA) then None
  else
    let! config := config_at configs
      (find_config configs (dl_clid lease) (Some (hw_bytes lease)) (dl_hwaddr_type lease) None []) in
    if negb (flag_contains (cf_flags config) ConfigFlags.NAME) then None
    else if flag_contains (cf_flags config) ConfigFlags.ADDR && negb (cf_addr config =? dl_addr lease) then None
    else let! n := cf_hostname config in Some (dl_addr lease, n).

Definition update_from_configs `{HashOrder} (configs : list DhcpConfig) (db : LeaseDb) : LeaseDb :=
  fold_left (fun db '(a, n) => set_hostname a (Some n) true db) (omap (rename_of configs) (values (leases db))) db.

Definition set_interface (addr : Ipv4Addr) (interface : Z) (db : LeaseDb) : LeaseDb :=
  update_by_addr addr (set_dl_last_interface interface) db.

Definition set_agent_id (addr : Ipv4Addr) (agent_id : option (list u8)) (db : LeaseDb) : LeaseDb :=
  match find_by_addr addr db with
  | None => db
  | Some lease =>
    if decide (dl_agent_id lease = agent_id) then db
    else with_dirty true false (update_by_addr addr (fun l =>
           set_dl_flags (flag_add (dl_flags l) LeaseFlags.AUX_CHANGED) (set_dl_agent_id agent_id l)) db)
  end.

Definition set_vendorclass (addr : Ipv4Addr) (vendorclass : option (list u8)) (db : LeaseDb) : LeaseDb :=
  match find_by_addr addr db with
  | None => db
  | Some lease =>
    if decide (dl_vendorclass lease = vendorclass) then db
    else with_dirty true false (update_by_addr addr (fun l =>
           set_dl_flags (flag_add (dl_flags l) LeaseFlags.AUX_CHANGED) (set_dl_vendorclass vendorclass l)) db)
  end.

Definition find_max_addr `{HashOrder} (start end_ : Ipv4Addr) (db : LeaseDb) : Ipv4Addr :=
  match List.filter (fun a => (start <=? a) && (a <=? end_)) (dl_addr <$> values (leases db)) with
  | [] => start
  | a :: rest => fold_left Z.max rest a
  end.

Definition calc_fqdns (domain : str) (db : LeaseDb) : LeaseDb :=
  with_leases ((fun l => match dl_hostname l with
                         | Some hostname =>
                           set_dl_fqdn (if (length domain =? 0)%nat then None else Some (hostname ++ bs "." ++ domain)) l
                         | None => l
                         end) <$> leases db) db.

(** ** Script events *)

Record ScriptEvent : Type := mkEvent { ev_action : Z; ev_lease : DhcpLease; ev_hostname : option str }.

Definition build_script_event (lease : DhcpLease) (action : Z) (hostname_override : option str) : ScriptEvent :=
  mkEvent action lease
    (if action =? ACTION_DEL then None else or_else hostname_override (or_else (dl_fqdn lease) (dl_hostname lease))).

Definition rerun_scripts (db : LeaseDb) : LeaseDb :=
  with_dirty true false
    (with_leases ((fun l => set_dl_flags (flag_add (dl_flags l) LeaseFlags.CHANGED) l) <$> leases db) db).

(** The event of a lost name, with the name taken out of the lease. *)
Definition lost_name (l : DhcpLease) : list ScriptEvent * DhcpLease :=
  let l' := set_dl_old_hostname None l in
  (match dl_old_hostname l with
   | Some n => [build_script_event l' ACTION_OLD (Some n)]
   | None => []
   end, l').
Definition pending (leasefile_ro script_on_renewal : bool) (l : DhcpLease) : bool :=
  has (dl_flags l) (LeaseFlags.NEW ∣∣ LeaseFlags.CHANGED)
  || (flag_contains (dl_flags l) LeaseFlags.AUX_CHANGED && leasefile_ro)
  || (flag_contains (dl_flags l) LeaseFlags.EXP_CHANGED && script_on_renewal).
Definition change_event (l : DhcpLease) : ScriptEvent :=
  build_script_event l (if flag_contains (dl_flags l) LeaseFlags.NEW then ACTION_ADD else ACTION_OLD) None.
Definition clear_changes (l : DhcpLease) : DhcpLease :=
  set_dl_flags (flag_del (dl_flags l)
    (LeaseFlags.NEW ∣∣ LeaseFlags.CHANGED ∣∣ LeaseFlags.AUX_CHANGED ∣∣ LeaseFlags.EXP_CHANGED)) l.

(** The events go to the script only if there is one. *)
Definition run_lease_scripts `{HashOrder} (command : bool) (leasefile_ro script_on_renewal : bool) (db : LeaseDb)
  : list ScriptEvent * LeaseDb :=
  let p := pending leasefile_ro script_on_renewal in
  let dels := mjoin ((fun l => let '(ev, l) := lost_name l in ev ++ [build_script_event l ACTION_DEL None]) <$> old_leases db) in
  let lost := mjoin ((fun l => fst (lost_name l)) <$> values (leases db)) in
  let m := (fun l => snd (lost_name l)) <$> leases db in
  let changes := change_event <$> List.filter p (values m) in
  (if command then dels ++ lost ++ changes else [],
   with_old [] (with_leases ((fun l => if p l then clear_changes l else l) <$> m) db)).

(** ** DHCPv6 leases *)

Definition is_v6 (l : DhcpLease) : bool := has (dl_flags l) (LeaseFlags.TA ∣∣ LeaseFlags.NA).

Definition find_v6_by_clid_iaid `{HashOrder} (clid : list u8) (iaid : Z) (addr : Ipv6Addr) (db : LeaseDb) : option DhcpLease :=
  List.find (fun l => is_v6 l && (dl_iaid l =? iaid) && (dl_addr6 l =? addr) && bool_decide (dl_clid l = Some clid))
    (values (leases db)).
Definition find_v6_by_client_iaid `{HashOrder} (clid : list u8) (iaid : Z) (db : LeaseDb) : option DhcpLease :=
  List.find (fun l => is_v6 l && (dl_iaid l =? iaid) && bool_decide (dl_clid l = Some clid)) (values (leases db)).
Definition find_v6_by_addr `{HashOrder} (addr : Ipv6Addr) (db : LeaseDb) : option DhcpLease :=
  List.find (fun l => is_v6 l && (dl_addr6 l =? addr)) (values (leases db)).

Definition allocate_v6 (addr : Ipv6Addr) (lease_type : Z) (db : LeaseDb) : option LeaseDb :=
  if (max_leases db <=? size (leases db))%nat then None
  else
    let lease := set_dl_addr6 addr (set_dl_flags (LeaseFlags.NEW ∣∣ lease_type) lease_default) in
    Some (with_dirty true true (insert_raw (lease_key lease) lease db)).

Definition reset_v6_used (db : LeaseDb) : LeaseDb :=
  with_leases ((fun l => if is_v6 l then set_dl_flags (flag_del (dl_flags l) LeaseFlags.USED) l else l) <$> leases db) db.

(** The entry [find_map] stops at. *)
Definition find_key `{HashOrder} (p : DhcpLease -> bool) (db : LeaseDb) : option (Key * DhcpLease) :=
  List.find (fun kl => p kl.2) (iter_order (leases db)).

Definition bind_v6 `{HashOrder} (addr : Ipv6Addr) (clid : list u8) (iaid : Z) (lease_type : Z) (expires : option SystemTime)
    (db : LeaseDb) : option LeaseDb :=
  let start :=
    match find_key (fun l => is_v6 l && (dl_addr6 l =? addr)) db with
    | Some (k, l) => Some (l, with_leases (delete k (leases db)) db)
    | None =>
      if (max_leases db <=? size (leases db))%nat then None
      else Some (set_dl_addr6 addr (set_dl_flags (LeaseFlags.NEW ∣∣ lease_type) lease_default), db)
    end in
  let! (lease, db) := start in
  let lease := set_dl_expires expires (set_dl_iaid iaid (set_dl_clid (Some clid) lease)) in
  Some (with_dirty true true (insert_raw (lease_key lease) lease db)).

Definition remove_v6_by_clid_iaid_addr `{HashOrder} (clid : list u8) (iaid : Z) (addr : Ipv6Addr) (db : LeaseDb)
  : bool * LeaseDb :=
  match find_key (fun l => is_v6 l && (dl_iaid l =? iaid) && (dl_addr6 l =? addr) && bool_decide (dl_clid l = Some clid)) db with
  | Some (k, _) => (true, with_dirty true false (with_leases (delete k (leases db)) db))
  | None => (false, db)
  end.

(** ** The invariant *)

(** What an operation does to a lease without moving or naming it. *)
Definition mild (f : DhcpLease -> DhcpLease) : Prop := forall l,
  dl_addr (f l) = dl_addr l /\ is_v6 (f l) = is_v6 l /\ (dl_hostname (f l) = dl_hostname l \/ dl_hostname (f l) = None).

(** The index is exact: an indexed address leads to the lease with that
    address, and every lease with an address is indexed. *)
Record index_ok (m : gmap Key DhcpLease) (ix : gmap Ipv4Addr Key) : Prop := {
  ix_sound : forall a k, ix !! a = Some k -> a <> UNSPECIFIED /\ exists l, m !! k = Some l /\ dl_addr l = a;
  ix_complete : forall k l, m !! k = Some l -> dl_addr l <> UNSPECIFIED -> ix !! dl_addr l = Some k;
}.

(** Names are unique up to case, and only leases with an IPv4 address have
    one; DHCPv6 leases have no IPv4 address. *)
Record names_ok (m : gmap Key DhcpLease) : Prop := {
  nm_addr : forall k l, m !! k = Some l -> dl_hostname l <> None -> dl_addr l <> UNSPECIFIED;
  nm_unique : forall k1 k2 l1 l2 n1 n2, m !! k1 = Some l1 -> m !! k2 = Some l2 ->
    dl_hostname l1 = Some n1 -> dl_hostname l2 = Some n2 -> hostname_isequal n1 n2 = true -> k1 = k2;
  nm_v6 : forall k l, m !! k = Some l -> is_v6 l = true -> dl_addr l = UNSPECIFIED;
}.

Record db_ok (db : LeaseDb) : Prop := {
  dk_index : index_ok (leases db) (addr_index db);
  dk_names : names_ok (leases db);
  dk_size : (size (leases db) <= max_leases db)%nat;
}.

Create HintDb lease.

Lemma isequal_eq a b : hostname_isequal a b = true <-> length a = length b /\ lower_chars a = lower_chars b.
Proof. unfold hostname_isequal, hostname_order. by rewrite andb_true_iff, bool_decide_eq_true, Nat.eqb_eq, order_chars_eq. Qed.
Lemma isequal_sym a b : hostname_isequal a b = true -> hostname_isequal b a = true.
Proof. rewrite !isequal_eq. intros [? ?]. by split. Qed.
Lemma isequal_trans a b c : hostname_isequal a b = true -> hostname_isequal b c = true -> hostname_isequal a c = true.
Proof. rewrite !isequal_eq. intros [? ?] [? ?]. split; congruence. Qed.

Lemma mild_id : mild (fun l => l).
Proof. by intros l; split_and!; [| |left]. Qed.
Lemma mild_compose f g : mild f -> mild g -> mild (fun l => g (f l)).
Proof.
  intros Hf Hg l. destruct (Hf l) as (A & B & C), (Hg (f l)) as (A' & B' & C'). split_and!; [congruence..|].
  destruct C' as [-> | ->]; auto.
Qed.

(** Flags other than the DHCPv6 ones. *)
Lemma mild_add b : Z.land b (LeaseFlags.TA ∣∣ LeaseFlags.NA) = 0 -> mild (fun l => set_dl_flags (flag_add (dl_flags l) b) l).
Proof.
  intros Hb l. split_and!; [done| |by left]. unfold is_v6. cbn [dl_flags set_dl_flags]. rewrite has_flag_add.
  unfold has at 2. rewrite Hb. apply orb_false_r.
Qed.
Lemma mild_del b : Z.land b (LeaseFlags.TA ∣∣ LeaseFlags.NA) = 0 -> mild (fun l => set_dl_flags (flag_del (dl_flags l) b) l).
Proof. intros Hb l. split_and!; [done| |by left]. by apply has_flag_del_other. Qed.
#[export] Hint Resolve mild_id mild_add mild_del : lease.

Lemma index_map m ix (f : Key -> DhcpLease -> DhcpLease) m' :
  (forall k, m' !! k = f k <$> m !! k) -> (forall k l, dl_addr (f k l) = dl_addr l) -> index_ok m ix -> index_ok m' ix.
Proof.
  intros Hm Hf [H1 H2]. split.
  - intros a k Ha. destruct (H1 a k Ha) as (Hn & l & Hl & He). split; [done|]. exists (f k l). rewrite Hm, Hl, Hf. done.
  - intros k l' Hl' Hn. rewrite Hm in Hl'. destruct (m !! k) as [l|] eqn:E; [|done]. cbn in Hl'. injection Hl' as <-.
    rewrite Hf in *. by apply H2.
Qed.

Lemma names_map m (f : Key -> DhcpLease -> DhcpLease) m' :
  (forall k, m' !! k = f k <$> m !! k) -> (forall k, mild (f k)) -> names_ok m -> names_ok m'.
Proof.
  intros Hm Hf [H1 H2 H3].
  assert (forall k l', m' !! k = Some l' -> exists l, m !! k = Some l /\ dl_addr l' = dl_addr l /\ is_v6 l' = is_v6 l /\
    (forall n, dl_hostname l' = Some n -> dl_hostname l = Some n)) as Hinv.
  { intros k l' Hl'. rewrite Hm in Hl'. destruct (m !! k) as [l|] eqn:E; [|done]. cbn in Hl'. injection Hl' as <-. exists l.
    destruct (Hf k l) as (A & B & C). split_and!; [done..|]. intros n Hn. destruct C as [C|C]; congruence. }
  split.
  - intros k l' Hl' Hh. destruct (Hinv k l' Hl') as (l & Hl & -> & _ & Hn). apply (H1 k l Hl).
    destruct (dl_hostname l') as [n|]; [|done]. by rewrite (Hn n eq_refl).
  - intros k1 k2 l1' l2' n1 n2 Hl1' Hl2' Hn1 Hn2 He.
    destruct (Hinv k1 l1' Hl1') as (l1 & Hl1 & _ & _ & Hh1), (Hinv k2 l2' Hl2') as (l2 & Hl2 & _ & _ & Hh2).
    by apply (H2 k1 k2 l1 l2 n1 n2 Hl1 Hl2 (Hh1 _ Hn1) (Hh2 _ Hn2)).
  - intros k l' Hl' Hv. destruct (Hinv k l' Hl') as (l & Hl & -> & E & _). apply (H3 k l Hl). congruence.
Qed.

(** Leases changed mildly, one by one. *)
Lemma map_ok db (f : Key -> DhcpLease -> DhcpLease) m' :
  (forall k, m' !! k = f k <$> leases db !! k) -> (forall k, mild (f k)) -> db_ok db -> db_ok (with_leases m' db).
Proof.
  intros Hm Hf [H1 H2 H3]. split; cbn.
  - apply (index_map (leases db) _ f m' Hm); [|done]. intros k l. by destruct (Hf k l).
  - by apply (names_map (leases db) f m' Hm).
  - replace (size m') with (size (leases db)); [done|]. rewrite <- !size_dom. f_equal. apply set_eq. intros k.
    rewrite !elem_of_dom, Hm. by destruct (leases db !! k).
Qed.

Lemma dirty_ok a b db : db_ok db -> db_ok (with_dirty a b db).
Proof. by intros [? ? ?]. Qed.
Lemma old_ok old db : db_ok db -> db_ok (with_old old db).
Proof. by intros [? ? ?]. Qed.

Lemma fmap_ok f db : mild f -> db_ok db -> db_ok (with_leases (f <$> leases db) db).
Proof. intros Hf. apply (map_ok db (fun _ => f)); [|done]. intros k. by rewrite lookup_fmap. Qed.

Lemma alter_lookup (f : DhcpLease -> DhcpLease) (k0 : Key) (m : gmap Key DhcpLease) (k : Key) :
  alter f k0 m !! k = (if decide (k = k0) then f else fun l => l) <$> m !! k.
Proof.
  destruct (decide (k = k0)) as [->|]; [by rewrite lookup_alter_eq|]. rewrite lookup_alter_ne by done. by rewrite option_fmap_id.
Qed.

Lemma update_ok a f db : mild f -> db_ok db -> db_ok (update_by_addr a f db).
Proof.
  intros Hf Hok. unfold update_by_addr. destruct (addr_index db !! a) as [k0|]; [|done].
  apply (map_ok db (fun k => if decide (k = k0) then f else fun l => l)); [apply alter_lookup| |done].
  intros k. destruct (decide _); [done|apply mild_id].
Qed.
#[export] Hint Resolve dirty_ok old_ok fmap_ok update_ok mild_compose : lease.

(** The index outside the address about to be inserted, of which there is no
    lease. *)
Record index_except (a : Ipv4Addr) (m : gmap Key DhcpLease) (ix : gmap Ipv4Addr Key) : Prop := {
  ie_zero : ix !! UNSPECIFIED = None;
  ie_sound : forall a' k, a' <> a -> ix !! a' = Some k -> exists l, m !! k = Some l /\ dl_addr l = a';
  ie_complete : forall k l, m !! k = Some l -> dl_addr l <> UNSPECIFIED -> dl_addr l <> a /\ ix !! dl_addr l = Some k;
}.

Lemma index_ok_zero m ix : index_ok m ix -> ix !! UNSPECIFIED = None.
Proof. intros [H _]. destruct (ix !! UNSPECIFIED) as [k|] eqn:E; [|done]. by destruct (H _ _ E). Qed.

Lemma index_except_none a m ix :
  index_ok m ix -> (forall k l, m !! k = Some l -> dl_addr l = a -> a = UNSPECIFIED) -> index_except a m ix.
Proof.
  intros Hok Hn. split; [by eapply index_ok_zero| |]; destruct Hok as [H1 H2].
  - intros a' k _ Ha'. by destruct (H1 a' k Ha').
  - intros k l Hl Hz. split; [|by apply H2]. intros He. apply Hz. rewrite He. by eapply Hn.
Qed.

(** The index [insert_raw] leaves. *)
Definition raw_index (key : Key) (lease : DhcpLease) (m : gmap Key DhcpLease) (ix : gmap Ipv4Addr Key) : gmap Ipv4Addr Key :=
  let ix := match m !! key with
            | Some old => if dl_addr old =? dl_addr lease then ix
                          else if dl_addr old =? UNSPECIFIED then ix else delete (dl_addr old) ix
            | None => ix
            end in
  if dl_addr lease =? UNSPECIFIED then ix else <[dl_addr lease := key]> ix.

Lemma insert_raw_eq key lease db :
  insert_raw key lease db =
  mkDb (<[key := lease]> (leases db)) (raw_index key lease (leases db) (addr_index db)) (max_leases db) (file_dirty db)
    (dns_dirty db) (old_leases db).
Proof.
  unfold insert_raw, raw_index, index_addr, unindex_addr. destruct db as [m ix mx fd dd ol]; cbn.
  destruct (m !! key) as [old|]; cbn; [destruct (dl_addr old =? dl_addr lease); cbn;
    [|destruct (dl_addr old =? UNSPECIFIED); cbn]|]; by destruct (dl_addr lease =? UNSPECIFIED).
Qed.

Lemma raw_index_ok key lease m ix :
  index_except (dl_addr lease) m ix -> index_ok (<[key := lease]> m) (raw_index key lease m ix).
Proof.
  intros [Hz Hs Hc]. set (a := dl_addr lease) in *.
  assert (forall a', a' <> a -> raw_index key lease m ix !! a' =
    match m !! key with Some old => if decide (a' = dl_addr old) then None else ix !! a' | None => ix !! a' end) as Hix.
  { intros a' Ha'. unfold raw_index. fold a. destruct (a =? UNSPECIFIED); [|rewrite lookup_insert_ne by done]; clear -Ha' Hz;
      (destruct (m !! key) as [old|]; [|done]; destruct (Z.eqb_spec (dl_addr old) a), (Z.eqb_spec (dl_addr old) UNSPECIFIED);
       destruct (decide _); subst; rewrite ?lookup_delete_eq, ?lookup_delete_ne by done; congruence). }
  assert (a <> UNSPECIFIED -> raw_index key lease m ix !! a = Some key) as Hia.
  { intros Hn. unfold raw_index. fold a. rewrite (proj2 (Z.eqb_neq _ _)) by done. by rewrite lookup_insert_eq. }
  assert (a = UNSPECIFIED -> raw_index key lease m ix !! a = None) as Hi0.
  { intros E. unfold raw_index. fold a. rewrite E, Z.eqb_refl. destruct (m !! key) as [old|]; [|done].
    destruct (Z.eqb_spec (dl_addr old) UNSPECIFIED); [done|]. by rewrite lookup_delete_ne. }
  split.
  - intros a' k Ha'. destruct (decide (a' = a)) as [->|Hne].
    { destruct (decide (a = UNSPECIFIED)) as [E|E]; [by rewrite Hi0 in Ha'|]. rewrite Hia in Ha' by done. injection Ha' as <-.
      split; [done|]. exists lease. by rewrite lookup_insert_eq. }
    rewrite Hix in Ha' by done. assert (ix !! a' = Some k /\ forall old, m !! key = Some old -> a' <> dl_addr old) as [Hk Ho].
    { destruct (m !! key) as [old|]; [destruct (decide _); [done|]|]; split; congruence. }
    split; [by intros ->; rewrite Hz in Hk|]. destruct (Hs a' k Hne Hk) as (l & Hl & He). exists l. split; [|done].
    rewrite lookup_insert_ne; [done|]. intros <-. by apply (Ho l).
  - intros k l Hl Hn. apply lookup_insert_Some in Hl as [[<- <-]|[Hk Hl]]; [by apply Hia|].
    destruct (Hc k l Hl Hn) as [Hne Hi]. rewrite Hix by done. destruct (m !! key) as [old|] eqn:E; [|done].
    destruct (decide (dl_addr l = dl_addr old)) as [He|]; [|done]. exfalso.
    destruct (Hc key old E) as [_ Hi']; [congruence|]. rewrite <- He, Hi in Hi'. congruence.
Qed.

Lemma names_sub m m' : m' ⊆ m -> names_ok m -> names_ok m'.
Proof.
  intros Hsub [H1 H2 H3]. split.
  - intros k l Hl. apply (H1 k l). by eapply lookup_weaken.
  - intros k1 k2 l1 l2 n1 n2 Hl1 Hl2. apply (H2 k1 k2 l1 l2 n1 n2); by eapply lookup_weaken.
  - intros k l Hl. apply (H3 k l). by eapply lookup_weaken.
Qed.

Lemma names_insert m key lease : names_ok m ->
  (dl_hostname lease <> None -> dl_addr lease <> UNSPECIFIED) -> (is_v6 lease = true -> dl_addr lease = UNSPECIFIED) ->
  (forall k l n n', k <> key -> m !! k = Some l -> dl_hostname l = Some n -> dl_hostname lease = Some n' ->
     hostname_isequal n n' = false) -> names_ok (<[key := lease]> m).
Proof.
  intros [H1 H2 H3] Ha Hv Hu. split.
  - intros k l Hl. apply lookup_insert_Some in Hl as [[<- <-]|[_ Hl]]; [done|by apply (H1 k l)].
  - intros k1 k2 l1 l2 n1 n2 Hl1 Hl2 Hn1 Hn2 He. apply lookup_insert_Some in Hl1 as [[<- <-]|[Hk1 Hl1]], Hl2 as [[<- <-]|[Hk2 Hl2]].
    + done.
    + apply isequal_sym in He. by rewrite (Hu k2 l2 n2 n1) in He.
    + by rewrite (Hu k1 l1 n1 n2) in He.
    + by apply (H2 k1 k2 l1 l2 n1 n2).
  - intros k l Hl. apply lookup_insert_Some in Hl as [[<- <-]|[_ Hl]]; [done|by apply (H3 k l)].
Qed.

Lemma size_insert_le (key : Key) (l : DhcpLease) (m : gmap Key DhcpLease) : (size (<[key := l]> m) <= S (size m))%nat.
Proof. rewrite map_size_insert. case_match; unfold id; lia. Qed.

(** A new lease without a name. *)
Lemma insert_new_ok key lease db : db_ok db -> dl_hostname lease = None ->
  (is_v6 lease = true -> dl_addr lease = UNSPECIFIED) ->
  (forall k l, leases db !! k = Some l -> dl_addr l = dl_addr lease -> dl_addr lease = UNSPECIFIED) ->
  (size (leases db) < max_leases db)%nat -> db_ok (insert_raw key lease db).
Proof.
  intros [Hi Hn Hs] Hh Hv Ha Hlt. rewrite insert_raw_eq. split; cbn.
  - by apply raw_index_ok, index_except_none.
  - apply names_insert; [done|by rewrite Hh|done|]. intros ???????. congruence.
  - etransitivity; [apply size_insert_le|]. lia.
Qed.

Lemma index_delete_except key l m ix : index_ok m ix -> m !! key = Some l -> index_except (dl_addr l) (delete key m) ix.
Proof.
  intros Hok Hl. split; [by eapply index_ok_zero| |]; destruct Hok as [H1 H2].
  - intros a' k Ha' Hk. destruct (H1 a' k Hk) as (_ & l' & Hl' & <-). exists l'. split; [|done].
    rewrite lookup_delete_ne; [done|]. intros <-. congruence.
  - intros k l' Hl' Hn. apply lookup_delete_Some in Hl' as [Hk Hl']. pose proof (H2 k l' Hl' Hn) as Hi. split; [|done].
    intros He. rewrite He in Hi. rewrite (H2 key l Hl) in Hi by congruence. congruence.
Qed.

(** A lease moved to another key. *)
Lemma rekey_ok key new_key l l' db : db_ok db -> leases db !! key = Some l ->
  dl_addr l' = dl_addr l -> is_v6 l' = is_v6 l -> dl_hostname l' = dl_hostname l ->
  db_ok (insert_raw new_key l' (with_leases (delete key (leases db)) db)).
Proof.
  intros [Hi Hn Hs] Hl Ha Hv Hh. rewrite insert_raw_eq. split; cbn.
  - apply raw_index_ok. rewrite Ha. by apply index_delete_except.
  - destruct Hn as [H1 H2 H3]. apply names_insert.
    + apply (names_sub (leases db)); [apply delete_subseteq|done].
    + rewrite Hh, Ha. by apply (H1 key).
    + rewrite Hv, Ha. by apply (H3 key).
    + intros k x n n' Hk Hx Hn1 Hn2. apply lookup_delete_Some in Hx as [Hk' Hx]. rewrite Hh in Hn2.
      destruct (hostname_isequal n n') eqn:E; [|done]. exfalso. apply Hk'. symmetry. by apply (H2 k key x l n n').
  - etransitivity; [apply size_insert_le|]. rewrite map_size_delete, Hl. cbn.
    assert (size (leases db) <> 0)%nat; [|lia]. intros E%map_size_empty_inv. by rewrite E, lookup_empty in Hl.
Qed.

Lemma size_sub (m m' : gmap Key DhcpLease) : m' ⊆ m -> (size m' <= size m)%nat.
Proof. intros H. rewrite <- !size_dom. by apply subseteq_size, subseteq_dom. Qed.

Lemma index_delete key l m ix : index_ok m ix -> m !! key = Some l ->
  index_ok (delete key m) (if dl_addr l =? UNSPECIFIED then ix else delete (dl_addr l) ix).
Proof.
  intros Hok Hl. destruct (index_delete_except key l m ix Hok Hl) as [Hz Hs Hc]. split.
  - intros a k Ha. assert (ix !! a = Some k /\ (a = dl_addr l -> dl_addr l = UNSPECIFIED)) as [Hk Hne].
    { destruct (Z.eqb_spec (dl_addr l) UNSPECIFIED); [done|]. apply lookup_delete_Some in Ha as [? ?]. by split; [|intros ->]. }
    destruct (decide (a = UNSPECIFIED)) as [->|Hn]; [congruence|]. split; [done|]. apply Hs; [|done]. intros E.
    rewrite E in *. apply Hn. by rewrite Hne.
  - intros k l' Hl' Hn. destruct (Hc k l' Hl' Hn) as [Hne Hi]. destruct (_ =? _); [done|]. by rewrite lookup_delete_ne.
Qed.

Lemma delete_ok key l db : db_ok db -> leases db !! key = Some l ->
  db_ok (unindex_addr (dl_addr l) (with_leases (delete key (leases db)) db)).
Proof.
  intros [Hi Hn Hs] Hl. pose proof (index_delete key l _ _ Hi Hl) as Hd. unfold unindex_addr.
  destruct (_ =? _); (split; cbn; [done|apply (names_sub (leases db)); [apply delete_subseteq|done]|
    etransitivity; [apply size_sub, delete_subseteq|done]]).
Qed.

Section Operations.
Context `{Hord : HashOrder}.

Lemma elem_values m l : l ∈ values m <-> exists k, m !! k = Some l.
Proof.
  unfold values. rewrite list_elem_of_fmap. split.
  - intros ((k & l') & -> & Hk). exists k. apply elem_of_map_to_list. by rewrite <- iter_order_perm.
  - intros [k Hk]. exists (k, l). split; [done|]. rewrite iter_order_perm. by apply elem_of_map_to_list.
Qed.

Lemma find_by_addr_ok a l db : db_ok db ->
  find_by_addr a db = Some l <-> a <> UNSPECIFIED /\ exists k, leases db !! k = Some l /\ dl_addr l = a.
Proof.
  intros [[H1 H2] _ _]. unfold find_by_addr. split.
  - destruct (addr_index db !! a) as [k|] eqn:E; [|done]. intros Hl. destruct (H1 a k E) as (Hn & l' & Hl' & <-).
    split; [done|]. exists k. by rewrite Hl in Hl'; injection Hl' as <-.
  - intros (Hn & k & Hl & <-). by rewrite (H2 k l Hl Hn).
Qed.

Lemma allocate_v4_ok a db db' : db_ok db -> find_by_addr a db = None -> allocate_v4 a db = Some db' -> db_ok db'.
Proof.
  unfold allocate_v4. intros Hok Hf. destruct (_ <=? _)%nat eqn:E; [done|]. apply Nat.leb_gt in E. intros [= <-].
  apply dirty_ok, insert_new_ok; [done..| |done]. cbn. intros k l Hl Ha. destruct (decide (a = UNSPECIFIED)) as [|Hn]; [done|].
  exfalso. assert (find_by_addr a db = Some l) as Hs; [|congruence]. apply find_by_addr_ok; [done|]. split; [done|]. by exists k.
Qed.

Lemma allocate_v6_ok a t db db' : db_ok db -> allocate_v6 a t db = Some db' -> db_ok db'.
Proof.
  unfold allocate_v6. intros Hok. destruct (_ <=? _)%nat eqn:E; [done|]. apply Nat.leb_gt in E. intros [= <-].
  by apply dirty_ok, insert_new_ok.
Qed.

Lemma fold_index_lookup (dead : list DhcpLease) (ix : gmap Ipv4Addr Key) a :
  fold_left (fun ix l => if dl_addr l =? UNSPECIFIED then ix else delete (dl_addr l) ix) dead ix !! a =
  if bool_decide (a <> UNSPECIFIED /\ a ∈ dl_addr <$> dead) then None else ix !! a.
Proof.
  revert ix. induction dead as [|l dead IH]; intros ix; cbn [fold_left].
  { rewrite bool_decide_false; [done|]. intros [_ H]. by apply not_elem_of_nil in H. }
  rewrite IH. cbn [fmap list_fmap]. destruct (decide (a <> UNSPECIFIED /\ a ∈ dl_addr <$> dead)) as [Hin|Hni].
  - rewrite !bool_decide_true; [done| |done]. split; [by destruct Hin|]. right. by destruct Hin.
  - rewrite bool_decide_false by done. destruct (Z.eqb_spec (dl_addr l) UNSPECIFIED) as [E|E].
    + rewrite bool_decide_false; [done|]. intros [Hn [->|?]%elem_of_cons]; [done|]. by apply Hni.
    + destruct (decide (a = dl_addr l)) as [->|Hne].
      * rewrite lookup_delete_eq, bool_decide_true; [done|]. split; [done|by left].
      * rewrite lookup_delete_ne by done. rewrite bool_decide_false; [done|]. intros [Hn [?|?]%elem_of_cons]; [done|]. by apply Hni.
Qed.

Lemma prune_ok t db dead db' : db_ok db -> prune t db = (dead, db') -> db_ok db'.
Proof.
  unfold prune. intros [[H1 H2] Hn Hs] [= <- <-]. set (now := t * 1000000000). set (dead := List.filter _ _).
  assert (forall l, l ∈ dead <-> (exists k, leases db !! k = Some l) /\ lease_expired now l = true) as Hdead.
  { intros l. unfold dead. rewrite list_elem_of_In, filter_In, <- list_elem_of_In. by rewrite elem_values. }
  split; cbn; [|apply (names_sub (leases db)); [apply map_filter_subseteq|done]|
                etransitivity; [apply size_sub, map_filter_subseteq|done]].
  split.
  - intros a k Ha. rewrite fold_index_lookup in Ha. destruct (bool_decide _) eqn:E; [done|]. apply bool_decide_eq_false in E.
    destruct (H1 a k Ha) as (Hne & l & Hl & He). split; [done|]. exists l. split; [|done]. apply map_lookup_filter_Some. split; [done|].
    cbn. destruct (lease_expired now l) eqn:Ex; [|done]. exfalso. apply E. split; [done|]. apply list_elem_of_fmap. exists l.
    split; [done|]. apply Hdead. split; [by exists k|done].
  - intros k l Hl Hne. apply map_lookup_filter_Some in Hl as [Hl Hx]. cbn in Hx. rewrite fold_index_lookup, bool_decide_false.
    + by apply H2.
    + intros [_ (l2 & He & [[k2 Hk2] Hx2]%Hdead)%list_elem_of_fmap]. pose proof (H2 k l Hl Hne) as A.
      rewrite He, (H2 k2 l2 Hk2) in A by congruence. injection A as ->. congruence.
Qed.

Lemma remove_by_addr_ok a db : db_ok db -> db_ok (snd (remove_by_addr a db)).
Proof.
  intros Hok. unfold remove_by_addr. destruct (addr_index db !! a) as [k|] eqn:E; [|done]. cbn.
  destruct (leases db !! k) as [l|] eqn:El; cbn; [|by apply dirty_ok].
  destruct (ix_sound _ _ (dk_index _ Hok) a k E) as (_ & l' & Hl' & <-). rewrite El in Hl'. injection Hl' as <-.
  apply old_ok. exact (delete_ok k l (with_dirty true true db) (dirty_ok _ _ _ Hok) El).
Qed.

Lemma mild_set_expires e : mild (set_dl_expires e).
Proof. by intros l; split_and!; [..|left]. Qed.
Lemma mild_set_interface e : mild (set_dl_last_interface e).
Proof. by intros l; split_and!; [..|left]. Qed.
Lemma mild_set_agent e : mild (set_dl_agent_id e).
Proof. by intros l; split_and!; [..|left]. Qed.
Lemma mild_set_vendor e : mild (set_dl_vendorclass e).
Proof. by intros l; split_and!; [..|left]. Qed.
Lemma mild_take_hostname : mild take_hostname.
Proof. by intros l; split_and!; [..|right]. Qed.

Lemma set_expires_ok now a d db : db_ok db -> db_ok (set_expires now a d db).
Proof.
  intros Hok. unfold set_expires. destruct (find_by_addr a db); [|done]. destruct (decide _); [done|].
  apply dirty_ok, update_ok; [|done]. exact (mild_compose _ _ (mild_set_expires _) (mild_add (LeaseFlags.AUX_CHANGED ∣∣ LeaseFlags.EXP_CHANGED) eq_refl)).
Qed.
Lemma set_agent_id_ok a v db : db_ok db -> db_ok (set_agent_id a v db).
Proof.
  intros Hok. unfold set_agent_id. destruct (find_by_addr a db); [|done]. destruct (decide _); [done|].
  apply dirty_ok, update_ok; [|done]. exact (mild_compose _ _ (mild_set_agent _) (mild_add LeaseFlags.AUX_CHANGED eq_refl)).
Qed.
Lemma set_vendorclass_ok a v db : db_ok db -> db_ok (set_vendorclass a v db).
Proof.
  intros Hok. unfold set_vendorclass. destruct (find_by_addr a db); [|done]. destruct (decide _); [done|].
  apply dirty_ok, update_ok; [|done]. exact (mild_compose _ _ (mild_set_vendor _) (mild_add LeaseFlags.AUX_CHANGED eq_refl)).
Qed.

(** [store_hwaddr] keeps the address, the kind and the name. *)
Lemma store_hwaddr_keeps h t l l' b : store_hwaddr h t l = (l', b) ->
  dl_addr l' = dl_addr l /\ is_v6 l' = is_v6 l /\ dl_hostname l' = dl_hostname l /\ dl_clid l' = dl_clid l.
Proof.
  unfold store_hwaddr. intros H. destruct (mild_add LeaseFlags.HAVE_HWADDR eq_refl l) as (_ & Hv & _).
  set (l1 := set_dl_flags (flag_add (dl_flags l) LeaseFlags.HAVE_HWADDR) l) in *. destruct (_ || _); injection H as <- <-.
  - split_and!; [done| |done..]. rewrite <- Hv. exact (proj1 (proj2 (mild_add LeaseFlags.CHANGED eq_refl l1))).
  - by split_and!.
Qed.

Lemma set_hwaddr_ok a h t c force db : db_ok db -> db_ok (snd (set_hwaddr a h t c force db)).
Proof.
  intros Hok. unfold set_hwaddr. destruct (addr_index db !! a) as [key|]; [|done]. destruct (leases db !! key) as [l|] eqn:El; [|done].
  destruct (negb _); [done|]. destruct (store_hwaddr h t l) as [l1 b] eqn:Es. destruct (store_hwaddr_keeps _ _ _ _ _ Es) as (A & B & C & D).
  set (db1 := with_dirty b false (with_leases (<[key := l1]> (leases db)) db)).
  assert (db_ok db1) as Hok1.
  { apply dirty_ok. apply (map_ok db (fun k => if decide (k = key) then fun l => (store_hwaddr h t l).1 else fun l => l)); [| |done].
    - intros k. destruct (decide (k = key)) as [->|]; [by rewrite lookup_insert_eq, El; cbn; rewrite Es|].
      rewrite lookup_insert_ne by done. by rewrite option_fmap_id.
    - intros k. destruct (decide _); [|apply mild_id]. intros x. destruct (store_hwaddr h t x) as [x' b'] eqn:Ex.
      destruct (store_hwaddr_keeps _ _ _ _ _ Ex) as (? & ? & ? & _). cbn. by split_and!; [..|left]. }
  destruct c as [c|]; [|done]. destruct (decide _); [done|]. cbn [snd].
  assert (leases db1 !! key = Some l1) as Hl1 by (cbn; by rewrite lookup_insert_eq).
  set (l2 := set_dl_flags _ _).
  apply (rekey_ok key (lease_key l2) l1 l2 (with_dirty true false db1) (dirty_ok _ _ _ Hok1) Hl1); [done| |done].
  exact (proj1 (proj2 (mild_add LeaseFlags.AUX_CHANGED eq_refl (set_dl_clid (Some c) l1)))).
Qed.

Lemma mild_drop_name : mild drop_name.
Proof. exact (mild_compose _ _ mild_take_hostname (mild_add LeaseFlags.CHANGED eq_refl)). Qed.

(** Taking a name away from the leases at some addresses. *)
Lemma drop_names_spec addrs db : db_ok db ->
  let db' := fold_left (fun db a => update_by_addr a drop_name db) addrs db in
  db_ok db' /\ addr_index db' = addr_index db /\
  forall k l', leases db' !! k = Some l' -> exists l, leases db !! k = Some l /\ dl_addr l' = dl_addr l /\
    (dl_hostname l' = dl_hostname l \/ dl_hostname l' = None) /\
    (dl_addr l ∈ addrs -> dl_addr l <> UNSPECIFIED -> dl_hostname l' = None).
Proof.
  revert db. induction addrs as [|a addrs IH]; intros db Hok; cbn [fold_left].
  { split_and!; [done..|]. intros k l' Hl'. exists l'. split_and!; [done..|by left|by intros ?%not_elem_of_nil]. }
  pose proof (update_ok a drop_name db mild_drop_name Hok) as Hok1.
  destruct (IH _ Hok1) as (H1 & H2 & H3). split_and!; [done| |].
  { rewrite H2. unfold update_by_addr. by destruct (addr_index db !! a). }
  intros k l' Hl'. destruct (H3 k l' Hl') as (l1 & Hl1 & Ha1 & Hh1 & Hd1).
  assert (exists l, leases db !! k = Some l /\ dl_addr l1 = dl_addr l /\ (dl_hostname l1 = dl_hostname l \/ dl_hostname l1 = None) /\
    (dl_addr l = a -> dl_addr l <> UNSPECIFIED -> dl_hostname l1 = None)) as (l & Hl & Ha & Hh & Hd).
  { unfold update_by_addr in Hl1. destruct (addr_index db !! a) as [k0|] eqn:E; cbn in Hl1.
    - rewrite alter_lookup in Hl1. destruct (leases db !! k) as [l|] eqn:El; [|done]. cbn in Hl1. exists l. split; [done|].
      destruct (decide (k = k0)) as [->|Hk]; injection Hl1 as <-; [by split_and!; [|right|]|].
      split_and!; [done|by left|]. intros <- Hn. rewrite (ix_complete _ _ (dk_index _ Hok) k l El Hn) in E. congruence.
    - exists l1. split_and!; [done..|by left|]. intros <- Hn. by rewrite (ix_complete _ _ (dk_index _ Hok) k l1 Hl1 Hn) in E. }
  exists l. split_and!; [done|congruence|destruct Hh1 as [-> | ->]; [done|by right]|].
  intros [He|Hin]%elem_of_cons Hn.
  - destruct Hh1 as [-> |?]; [by apply Hd|done].
  - apply Hd1; by rewrite Ha.
Qed.

(** A new name for the lease at [a]. *)
Lemma rename_ok a f db l k : db_ok db -> addr_index db !! a = Some k -> leases db !! k = Some l ->
  (forall x, dl_addr (f x) = dl_addr x /\ is_v6 (f x) = is_v6 x) ->
  (forall k' l' n n', k' <> k -> leases db !! k' = Some l' -> dl_hostname l' = Some n -> dl_hostname (f l) = Some n' ->
     hostname_isequal n n' = false) -> db_ok (update_by_addr a f db).
Proof.
  intros [Hi Hn Hs] Hk Hl Hf Hu. unfold update_by_addr. rewrite Hk.
  destruct (ix_sound _ _ Hi a k Hk) as (Hne & l0 & Hl0 & Ha). rewrite Hl in Hl0. injection Hl0 as <-.
  assert (alter f k (leases db) = <[k := f l]> (leases db)) as ->.
  { apply map_eq. intros j. destruct (decide (j = k)) as [->|]; [by rewrite lookup_alter_eq, Hl, lookup_insert_eq|].
    by rewrite lookup_alter_ne, lookup_insert_ne by done. }
  split; cbn.
  - apply (index_map (leases db) _ (fun j => if decide (j = k) then f else fun x => x)); [| |done].
    + intros j. destruct (decide (j = k)) as [->|]; [by rewrite lookup_insert_eq, Hl|]. by rewrite lookup_insert_ne, option_fmap_id by done.
    + intros j x. destruct (decide _); [by destruct (Hf x)|done].
  - destruct (Hf l) as [E1 E2]. apply names_insert; [done| | |done].
    + intros _. congruence.
    + rewrite E2, E1. by apply (nm_v6 _ Hn k).
  - rewrite map_size_insert, Hl. done.
Qed.

Lemma drop_duplicates_spec a name db : db_ok db ->
  db_ok (drop_duplicates a name db) /\
  forall k l n n', name = Some n -> leases (drop_duplicates a name db) !! k = Some l -> dl_addr l <> a ->
    dl_hostname l = Some n' -> hostname_isequal n' n = false.
Proof.
  intros Hok. destruct name as [n|]; [|done]. unfold drop_duplicates. set (dups := dl_addr <$> _).
  destruct (drop_names_spec dups db Hok) as (A & B & C). split; [exact A|].
  intros k l' n0 n' [= <-] Hl' Ha Hn. destruct (C k l' Hl') as (l & Hl & Hal & Hh & Hd). destruct Hh as [Hh|Hh]; [|congruence].
  destruct (hostname_isequal n' n) eqn:E; [|done]. exfalso. assert (dl_hostname l' = None) as Hx; [|congruence]. apply Hd.
  - apply list_elem_of_fmap. exists l. split; [done|]. apply list_elem_of_In, filter_In. split.
    + apply list_elem_of_In, elem_values. by exists k.
    + apply andb_true_iff. split; [by rewrite <- Hal; apply negb_true_iff, Z.eqb_neq|]. unfold same_name. by rewrite <- Hh, Hn.
  - apply (nm_addr _ (dk_names _ Hok) k l Hl). congruence.
Qed.

Lemma set_hostname_ok a name auth db : db_ok db -> db_ok (set_hostname a name auth db).
Proof.
  intros Hok. destruct (drop_duplicates_spec a name db Hok) as [Hok1 Hfree]. unfold set_hostname. cbv zeta.
  set (db1 := drop_duplicates a name db) in *.
  clearbody db1. destruct (find_by_addr a db1) as [l|] eqn:Ef; [|done]. apply dirty_ok.
  unfold find_by_addr in Ef. destruct (addr_index db1 !! a) as [k|] eqn:Ek; [|done].
  destruct (ix_sound _ _ (dk_index _ Hok1) a k Ek) as (Hne & l0 & Hl0 & Hal). rewrite Ef in Hl0. injection Hl0 as <-.
  set (changed := match dl_hostname l, name with Some old, Some new => negb (hostname_isequal old new) | None, None => false | _, _ => true end).
  apply (rename_ok a _ db1 l k Hok1 Ek Ef).
  - intros x. assert (forall y, is_v6 (set_dl_flags ((if auth then flag_add else flag_del) (dl_flags y) LeaseFlags.AUTH_NAME) y) = is_v6 y) as Hv.
    { intros y. destruct auth; [exact (proj1 (proj2 (mild_add LeaseFlags.AUTH_NAME eq_refl y)))|exact (proj1 (proj2 (mild_del LeaseFlags.AUTH_NAME eq_refl y)))]. }
    split; [by destruct changed|]. rewrite Hv. destruct changed; [|done]. exact (proj1 (proj2 (mild_add LeaseFlags.CHANGED eq_refl x))).
  - intros k' l' n n' Hk' Hl' Hn Hn'.
    assert (dl_addr l' <> a) as Ha'.
    { intros E. pose proof (ix_complete _ _ (dk_index _ Hok1) k' l' Hl') as A. rewrite E in A. rewrite A in Ek by done. congruence. }
    cbn in Hn'. destruct changed eqn:Ec; cbn in Hn'.
    + by apply (Hfree k' l').
    + destruct (hostname_isequal n n') eqn:E; [|done]. exfalso. apply Hk'. by apply (nm_unique _ (dk_names _ Hok1) k' k l' l n n').
Qed.

Lemma update_from_configs_ok configs db : db_ok db -> db_ok (update_from_configs configs db).
Proof.
  unfold update_from_configs. generalize (omap (rename_of configs) (values (leases db))) as rs.
  intros rs. revert db. induction rs as [|[a n] rs IH]; intros db Hok; [done|]. cbn [fold_left]. by apply IH, set_hostname_ok.
Qed.

Lemma calc_fqdns_ok d db : db_ok db -> db_ok (calc_fqdns d db).
Proof. apply fmap_ok. intros l. by destruct (dl_hostname l) eqn:E; split_and!; [..|left| | |left]. Qed.
Lemma rerun_scripts_ok db : db_ok db -> db_ok (rerun_scripts db).
Proof. intros H. apply dirty_ok, fmap_ok; [|done]. by apply mild_add. Qed.
Lemma run_lease_scripts_ok c ro rn db : db_ok db -> db_ok (snd (run_lease_scripts c ro rn db)).
Proof.
  intros H. cbn. apply old_ok. rewrite <- map_fmap_compose. apply fmap_ok; [|done].
  apply (mild_compose (fun l => snd (lost_name l)) (fun l => if pending ro rn l then clear_changes l else l)).
  - by intros l; split_and!; [..|left].
  - intros l. destruct (pending ro rn l); [|apply mild_id]. by apply mild_del.
Qed.
Lemma reset_v6_used_ok db : db_ok db -> db_ok (reset_v6_used db).
Proof.
  apply fmap_ok. intros l. destruct (is_v6 l) eqn:E; [|by split_and!; [..|left]]. destruct (mild_del LeaseFlags.USED eq_refl l) as (A & B & C). split_and!; [done| |done].
  by rewrite B, E.
Qed.

Lemma find_key_Some p db k l : find_key p db = Some (k, l) -> leases db !! k = Some l /\ p l = true.
Proof.
  unfold find_key. intros [Hin Hp]%find_some. split; [|done]. apply elem_of_map_to_list. rewrite <- iter_order_perm. by apply list_elem_of_In.
Qed.

Lemma bind_v6_ok a c i t e db db' : db_ok db -> bind_v6 a c i t e db = Some db' -> db_ok db'.
Proof.
  intros Hok. unfold bind_v6. destruct (find_key _ db) as [[k l]|] eqn:E.
  - apply find_key_Some in E as [Hl Hp]. intros [= <-]. apply dirty_ok. by apply (rekey_ok k _ l).
  - destruct (_ <=? _)%nat eqn:Es; [done|]. apply Nat.leb_gt in Es. intros [= <-]. by apply dirty_ok, insert_new_ok.
Qed.

Lemma remove_v6_ok c i a db : db_ok db -> db_ok (snd (remove_v6_by_clid_iaid_addr c i a db)).
Proof.
  intros Hok. unfold remove_v6_by_clid_iaid_addr. destruct (find_key _ db) as [[k l]|] eqn:E; [|done].
  apply find_key_Some in E as [Hl Hp]. cbn. apply dirty_ok. pose proof (delete_ok k l db Hok Hl) as Hd. unfold unindex_addr in Hd.
  rewrite (nm_v6 _ (dk_names _ Hok) k l Hl) in Hd by (by repeat (apply andb_true_iff in Hp as [Hp _])). exact Hd.
Qed.
End Operations.

(** ** Runs of the database *)

Section Runs.
Context `{Hord : HashOrder}.

(** The operations of the DHCP servers; they allocate an address only when
    [find_by_addr] finds no lease of it. *)
Inductive lease_step (db : LeaseDb) : LeaseDb -> Prop :=
| StepAllocate a db' : find_by_addr a db = None -> allocate_v4 a db = Some db' -> lease_step db db'
| StepExpires now a d : lease_step db (set_expires now a d db)
| StepHwaddr a h t c force : lease_step db (snd (set_hwaddr a h t c force db))
| StepHostname a name auth : lease_step db (set_hostname a name auth db)
| StepConfigs configs : lease_step db (update_from_configs configs db)
| StepInterface a i : lease_step db (set_interface a i db)
| StepAgent a v : lease_step db (set_agent_id a v db)
| StepVendor a v : lease_step db (set_vendorclass a v db)
| StepPrune t : lease_step db (snd (prune t db))
| StepRemove a : lease_step db (snd (remove_by_addr a db))
| StepFqdns d : lease_step db (calc_fqdns d db)
| StepRerun : lease_step db (rerun_scripts db)
| StepScripts c ro rn : lease_step db (snd (run_lease_scripts c ro rn db))
| StepAllocate6 a t db' : allocate_v6 a t db = Some db' -> lease_step db db'
| StepBind6 a c i t e db' : bind_v6 a c i t e db = Some db' -> lease_step db db'
| StepRemove6 c i a : lease_step db (snd (remove_v6_by_clid_iaid_addr c i a db))
| StepReset6 : lease_step db (reset_v6_used db).

Lemma lease_step_ok db db' : lease_step db db' -> db_ok db -> db_ok db'.
Proof.
  intros [] Hok; try done.
  - by eapply allocate_v4_ok.
  - by apply set_expires_ok.
  - by apply set_hwaddr_ok.
  - by apply set_hostname_ok.
  - by apply update_from_configs_ok.
  - apply update_ok; [apply mild_set_interface|done].
  - by apply set_agent_id_ok.
  - by apply set_vendorclass_ok.
  - destruct (prune t db) as [d db1] eqn:E. by eapply prune_ok.
  - by apply remove_by_addr_ok.
  - by apply calc_fqdns_ok.
  - by apply rerun_scripts_ok.
  - by apply run_lease_scripts_ok.
  - by eapply allocate_v6_ok.
  - by eapply bind_v6_ok.
  - by apply remove_v6_ok.
  - by apply reset_v6_used_ok.
Qed.

Lemma max_insert_raw k l db : max_leases (insert_raw k l db) = max_leases db.
Proof. by rewrite insert_raw_eq. Qed.
Lemma max_update a f db : max_leases (update_by_addr a f db) = max_leases db.
Proof. unfold update_by_addr. by case_match. Qed.
Lemma max_set_hostname a n auth db : max_leases (set_hostname a n auth db) = max_leases db.
Proof.
  assert (max_leases (drop_duplicates a n db) = max_leases db) as Hd.
  { destruct n as [n|]; [|done]. unfold drop_duplicates. generalize (dl_addr <$> List.filter (fun l => negb (dl_addr l =? a) && same_name n l) (values (leases db))) as l.
    intros l. revert db. induction l as [|x l IH]; intros db; [done|]. cbn [fold_left]. by rewrite IH, max_update. }
  unfold set_hostname. cbv zeta. destruct (find_by_addr _ _); cbn [max_leases with_dirty]; by rewrite ?max_update.
Qed.

Lemma max_step db db' : lease_step db db' -> max_leases db' = max_leases db.
Proof.
  intros []; try done.
  - unfold allocate_v4 in *. case_match; [done|]. simplify_eq. cbn [max_leases with_dirty]. apply max_insert_raw.
  - unfold set_expires. repeat case_match; cbn [max_leases with_dirty]; by rewrite ?max_update.
  - unfold set_hwaddr. repeat case_match; cbn [snd max_leases with_dirty with_leases]; rewrite ?max_insert_raw; done.
  - apply max_set_hostname.
  - unfold update_from_configs. generalize (omap (rename_of configs) (values (leases db))) as rs.
    intros rs. revert db. induction rs as [|[a n] rs IH]; intros db; [done|]. cbn [fold_left]. by rewrite IH, max_set_hostname.
  - apply max_update.
  - unfold set_agent_id. repeat case_match; cbn [max_leases with_dirty]; by rewrite ?max_update.
  - unfold set_vendorclass. repeat case_match; cbn [max_leases with_dirty]; by rewrite ?max_update.
  - unfold remove_by_addr, unindex_addr. repeat case_match; done.
  - unfold allocate_v6 in *. case_match; [done|]. simplify_eq. cbn [max_leases with_dirty]. apply max_insert_raw.
  - unfold bind_v6 in *. repeat case_match; simplify_eq; cbn [max_leases with_dirty]; by rewrite max_insert_raw.
  - unfold remove_v6_by_clid_iaid_addr. repeat case_match; done.
Qed.

Definition db_empty (n : nat) : LeaseDb := mkDb ∅ ∅ n false false [].

Lemma db_empty_ok n : db_ok (db_empty n).
Proof.
  split; [split|split|]; cbn.
  - by intros a k ?%lookup_empty_Some.
  - by intros k l ?%lookup_empty_Some.
  - by intros k l ?%lookup_empty_Some.
  - by intros k1 k2 l1 l2 n1 n2 ?%lookup_empty_Some.
  - by intros k l ?%lookup_empty_Some.
  - cbn. rewrite map_size_empty. lia.
Qed.

Lemma runs_ok n db : rtc lease_step (db_empty n) db -> db_ok db /\ max_leases db = n.
Proof.
  intros Hr. pose proof (db_empty_ok n) as Hok. change n with (max_leases (db_empty n)) at 1. revert Hok.
  induction Hr as [x|x y z Hs _ IH]; intros Hok; [done|]. rewrite <- (max_step _ _ Hs). apply IH. by eapply lease_step_ok.
Qed.

(** C25: the lease database stays consistent over every sequence of operations
    of the servers. Looking an address up finds exactly the lease that holds
    it, no address is leased twice, no name is given to two leases (not even in
    another case), a DHCPv6 lease never holds an IPv4 address, and the number
    of leases stays within the limit. *)
Theorem lease_db_invariant n db : rtc lease_step (db_empty n) db ->
  (forall a l, find_by_addr a db = Some l <-> a <> UNSPECIFIED /\ exists k, leases db !! k = Some l /\ dl_addr l = a) /\
  (forall k1 k2 l1 l2, leases db !! k1 = Some l1 -> leases db !! k2 = Some l2 ->
     dl_addr l1 = dl_addr l2 -> dl_addr l1 <> UNSPECIFIED -> k1 = k2) /\
  (forall k1 k2 l1 l2 n1 n2, leases db !! k1 = Some l1 -> leases db !! k2 = Some l2 ->
     dl_hostname l1 = Some n1 -> dl_hostname l2 = Some n2 -> hostname_isequal n1 n2 = true -> k1 = k2) /\
  (forall k l, leases db !! k = Some l -> is_v6 l = true -> dl_addr l = UNSPECIFIED) /\
  (size (leases db) <= n)%nat.
Proof.
  intros [Hok <-]%runs_ok. split_and!.
  - intros a l. by apply find_by_addr_ok.
  - intros k1 k2 l1 l2 H1 H2 He Hn. destruct (dk_index _ Hok) as [_ Hc]. pose proof (Hc k1 l1 H1 Hn) as A.
    rewrite He, (Hc k2 l2 H2) in A by congruence. congruence.
  - apply (nm_unique _ (dk_names _ Hok)).
  - apply (nm_v6 _ (dk_names _ Hok)).
  - apply (dk_size _ Hok).
Qed.
End Runs.

(** A run: an address is leased, the client's hardware address and name are
    recorded. *)
Definition list_order : HashOrder := {| iter_order := map_to_list; iter_order_perm m := reflexivity (map_to_list m) |}.
Definition ex_addr : Ipv4Addr := 0x0A000005.
Definition ex_db : LeaseDb :=
  set_hostname (H := list_order) ex_addr (Some (bs "printer")) true
    (snd (set_hwaddr ex_addr [Byte.x02; Byte.x00; Byte.x00; Byte.x00; Byte.x00; Byte.x01] 1 None false
      (default db_new (allocate_v4 ex_addr (db_empty 3))))).

Lemma lease_db_invariant_witness :
  (exists l, find_by_addr ex_addr ex_db = Some l /\ dl_hostname l = Some (bs "printer")) /\ (size (leases ex_db) <= 3)%nat.
Proof.
  split; [eexists; by vm_compute|].
  assert (rtc (lease_step (Hord := list_order)) (db_empty 3) ex_db) as Hr.
  { eapply rtc_l; [apply (StepAllocate _ ex_addr); reflexivity|]. eapply rtc_l; [apply StepHwaddr|].
    apply rtc_once. exact (StepHostname (Hord := list_order) _ ex_addr (Some (bs "printer")) true). }
  exact (proj2 (proj2 (proj2 (proj2 (lease_db_invariant (Hord := list_order) 3 ex_db Hr))))).
Defined.
