(* ===== verification/LeaseFile.v ===== *)
(** * The lease file: [serialize] and [deserialize] of src/src/lease.rs

    The text format of leases and the proof that a saved database is read back.
    A point in time that the platform cannot represent makes the reader panic. *)

From Stdlib Require Import ZArith Lia String.
From stdpp Require Import base numbers list option gmap sets.
From S2P Require Import Prelude Types Hostname Util StdText DhcpTypes DhcpOptions DhcpCommon Lease.

#[local] Open Scope Z_scope.

Definition fmt_hex_colon (b : list u8) : str := join (bs ":") ((fun x => fmt_hex 2 (u8z x)) <$> b).
Definition parse_hex_colon (s : str) : option (list u8) :=
  mapM (fun h => z8 <$> parse_hex_u8 h) (split_on Byte.x3a s).

(** ** Writing *)

(** Whole seconds since the epoch; a time before it prints as zero. *)
Definition expires_secs (e : option SystemTime) : Z :=
  match e with Some t => if t <? 0 then 0 else t / 1000000000 | None => 0 end.

Definition clid_text (c : option (list u8)) : str :=
  match c with
  | Some c => if (length c =? 0)%nat then bs "*" else fmt_hex_colon c
  | None => bs "*"
  end.
Definition lease_line (l : DhcpLease) : str :=
  fmt_u (expires_secs (dl_expires l)) ++ [space] ++ fmt_ipv4 (dl_addr l) ++ [space] ++ fmt_hex_colon (hw_bytes l)
    ++ [space] ++ default (bs "*") (dl_hostname l) ++ [space] ++ clid_text (dl_clid l) ++ [newline].
Definition serialize `{HashOrder} (db : LeaseDb) : str := concat (lease_line <$> values (leases db)).

(** ** Reading *)

Inductive LeaseError : Type := ParseError (line : nat) (what : str).

(** [UNIX_EPOCH + Duration::from_secs(s)]: the seconds are a signed 64-bit
    integer. *)
Definition unix_time (s : Z) : outcome SystemTime :=
  if s <? 2 ^ 63 then Val (s * 1000000000) else Panic.

(** The lease of one line. *)
Definition parse_line (line_no : nat) (line : str) : outcome (result DhcpLease LeaseError) :=
  let fail what := Val (Err (ParseError (line_no + 1) what)) in
  match splitn 5 space line with
  | [p0; p1; p2; p3; p4] =>
    match parse_u64 p0 with
    | None => fail (bs "invalid expires")
    | Some secs =>
    match parse_ipv4 p1 with
    | None => fail (bs "invalid IP address")
    | Some ip =>
    match parse_hex_colon p2 with
    | None => fail (bs "invalid hwaddr")
    | Some hw =>
      let hostname := if decide (p3 = bs "*") then None else Some p3 in
      match (if decide (p4 = bs "*") then Some None else Some <$> parse_hex_colon p4) with
      | None => fail (bs "invalid client-id")
      | Some clid =>
        let# expires := if secs =? 0 then Val None else let# t := unix_time secs in Val (Some t) in
        Val (Ok (set_dl_clid clid (set_dl_hostname hostname (set_dl_expires expires (set_dl_hwaddr (padded16 hw)
               (set_dl_hwaddr_len (Nat.min (length hw) DHCP_CHADDR_MAX) (set_dl_hwaddr_type 1 (set_dl_addr ip lease_default))))))))
      end
    end end end
  | parts => fail (bs "expected 5 fields, got " ++ fmt_u (Z.of_nat (length parts)))
  end.

Fixpoint read_lines (line_no : nat) (ls : list str) (db : LeaseDb) : outcome (result LeaseDb LeaseError) :=
  match ls with
  | [] => Val (Ok db)
  | line :: rest =>
    let line := trim line in
    if (length line =? 0)%nat then read_lines (S line_no) rest db
    else
      let# r := parse_line line_no line in
      match r with
      | Err e => Val (Err e)
      | Ok lease => read_lines (S line_no) rest (db_insert lease db)
      end
  end.
Definition deserialize (text : str) : outcome (result LeaseDb LeaseError) := read_lines 0 (lines text) db_new.

(** ** What the file keeps of a lease *)

(** A lease the file can hold. *)
Record storable (l : DhcpLease) : Prop := {
  st_addr : ip4_ok (dl_addr l);
  st_hwaddr : length (dl_hwaddr l) = 16%nat /\ (1 <= dl_hwaddr_len l)%nat;
  st_expires : forall t, dl_expires l = Some t -> 1000000000 <= t < 2 ^ 63 * 1000000000;
  st_name : forall n, dl_hostname l = Some n -> space ∉ n /\ newline ∉ n /\ n <> bs "*";
  st_clid : dl_clid l <> Some [];
}.
(** The lease read back: its address, hardware address, name, client id, and
    the end of its time in whole seconds. *)
Definition stored (l : DhcpLease) : DhcpLease :=
  set_dl_clid (dl_clid l) (set_dl_hostname (dl_hostname l)
    (set_dl_expires ((fun t => t / 1000000000 * 1000000000) <$> dl_expires l)
      (set_dl_hwaddr (padded16 (hw_bytes l)) (set_dl_hwaddr_len (length (hw_bytes l))
        (set_dl_hwaddr_type 1 (set_dl_addr (dl_addr l) lease_default)))))).

(** ** Fields *)

Lemma fmt_hex_colon_spec l : l <> [] ->
  field_ok (fmt_hex_colon l) /\ parse_hex_colon (fmt_hex_colon l) = Some l /\ fmt_hex_colon l <> bs "*".
Proof.
  intros Hl. unfold fmt_hex_colon, parse_hex_colon. change (bs ":") with [Byte.x3a].
  assert ((fun x => fmt_hex 2 (u8z x)) <$> l <> []) as Hne by (by destruct l).
  split_and!.
  - apply field_join; [by split; vm_compute|done|]. apply Forall_fmap, Forall_true. intros b. apply hex_field.
  - rewrite split_join; [|done|apply Forall_fmap, Forall_true; intros b; apply hex_field].
    apply mapM_Some. rewrite Forall2_fmap_l. apply Forall_Forall2_diag, Forall_true. intros b.
    unfold compose. rewrite (proj1 (hex_field b)). cbn. by rewrite z8_u8z.
  - destruct l as [|b l]; [done|]. rewrite fmap_cons. destruct (hex2_facts b) as (H2 & _).
    destruct (fmt_hex 2 (u8z b)) as [|x [|y r]]; try done. destruct l; [|rewrite join_cons by done]; done.
Qed.

Lemma star_field : field_ok (bs "*").
Proof. split; [done|]. apply (bool_decide_unpack _). by vm_compute. Qed.

Lemma clid_text_spec l : storable l -> let s := clid_text (dl_clid l) in
  field_ok s /\ (if decide (s = bs "*") then Some None else Some <$> parse_hex_colon s) = Some (dl_clid l).
Proof.
  intros Hst. unfold clid_text. pose proof (st_clid _ Hst) as Hc. destruct (dl_clid l) as [[|x c]|]; [done| |].
  - cbn [length Nat.eqb]. destruct (fmt_hex_colon_spec (x :: c)) as (A & B & D); [done|]. cbn zeta. rewrite decide_False, B by done. done.
  - split; [apply star_field|done].
Qed.

Lemma length_hw_bytes l : storable l -> length (hw_bytes l) = Nat.min (dl_hwaddr_len l) 16.
Proof. intros [_ [H _] _ _ _]. unfold hw_bytes. rewrite length_take, H. change DHCP_CHADDR_MAX with 16%nat. lia. Qed.

(** ** One line *)

(** The line without its line feed, as its five fields. *)
Definition lease_fields (l : DhcpLease) : list str :=
  [fmt_u (expires_secs (dl_expires l)); fmt_ipv4 (dl_addr l); fmt_hex_colon (hw_bytes l); default (bs "*") (dl_hostname l);
   clid_text (dl_clid l)].
Lemma lease_line_fields l : lease_line l = join [space] (lease_fields l) ++ [newline].
Proof. unfold lease_line, lease_fields. cbn [join]. by rewrite <- !app_assoc. Qed.

Lemma splitn_fields a b c d e : space ∉ a -> space ∉ b -> space ∉ c -> space ∉ d ->
  splitn 5 space (join [space] [a; b; c; d; e]) = [a; b; c; d; e].
Proof. intros. cbn [join splitn app]. by do 4 (rewrite split_once_app by done; cbn [splitn app]). Qed.

Lemma hostname_field l : storable l -> let s := default (bs "*") (dl_hostname l) in
  space ∉ s /\ newline ∉ s /\ (if decide (s = bs "*") then None else Some s) = dl_hostname l.
Proof.
  intros Hst. pose proof (st_name _ Hst) as Hn. destruct (dl_hostname l) as [n|]; cbn.
  - destruct (Hn n eq_refl) as (? & ? & ?). by rewrite decide_False by done.
  - split_and!; [apply (field_no_sep _ star_field)..|done].
Qed.

Lemma hw_bytes_nonnil l : storable l -> hw_bytes l <> [].
Proof. intros Hst E%(f_equal length). rewrite length_hw_bytes in E by done. pose proof (st_hwaddr _ Hst). cbn in E. lia. Qed.

Lemma secs_range l : storable l -> 0 <= expires_secs (dl_expires l) < 2 ^ 63.
Proof.
  intros Hst. pose proof (st_expires _ Hst) as H. unfold expires_secs. destruct (dl_expires l) as [t|]; [|done].
  specialize (H t eq_refl). rewrite (proj2 (Z.ltb_ge t 0)) by lia. split; [apply Z.div_pos; lia|apply Z.div_lt_upper_bound; lia].
Qed.

(** The end of the time, to the second. *)
Lemma expires_back l : storable l -> let secs := expires_secs (dl_expires l) in
  (if secs =? 0 then Val None else let# t := unix_time secs in Val (Some t))
  = Val ((fun t => t / 1000000000 * 1000000000) <$> dl_expires l).
Proof.
  intros Hst. pose proof (secs_range l Hst) as Hr. pose proof (st_expires _ Hst) as H. unfold unix_time. cbn zeta.
  rewrite (proj2 (Z.ltb_lt _ (2 ^ 63))) by lia. unfold expires_secs in *. destruct (dl_expires l) as [t|]; [|done].
  specialize (H t eq_refl). rewrite (proj2 (Z.ltb_ge t 0)) in * by lia.
  destruct (Z.eqb_spec (t / 1000000000) 0) as [E|]; [|done]. exfalso. dlia.
Qed.

Lemma parse_line_stored n l : storable l -> parse_line n (join [space] (lease_fields l)) = Val (Ok (stored l)).
Proof.
  intros Hst. pose proof (secs_range l Hst) as Hr.
  destruct (fmt_u64 (expires_secs (dl_expires l))) as [F0 P0]; [zpow; lia|].
  destruct (fmt_ipv4_spec (dl_addr l) (st_addr _ Hst)) as [F1 P1].
  destruct (fmt_hex_colon_spec (hw_bytes l) (hw_bytes_nonnil l Hst)) as (F2 & P2 & _).
  destruct (hostname_field l Hst) as (F3 & _ & P3). destruct (clid_text_spec l Hst) as [F4 P4]. cbn zeta in *.
  unfold parse_line, lease_fields.
  rewrite splitn_fields by (done || by apply field_no_sep). rewrite P0, P1, P2, P3, P4, (expires_back l Hst). unfold stored.
  do 6 f_equal. rewrite (length_hw_bytes l Hst). change DHCP_CHADDR_MAX with 16%nat. f_equal. lia.
Qed.

(** ** Lines *)

Lemma lines_bodies (bodies : list str) :
  Forall (fun b => newline ∉ b /\ b <> [] /\ last b <> Some Byte.x0d) bodies ->
  lines (concat ((fun b => b ++ [newline]) <$> bodies)) = bodies.
Proof.
  intros H. assert (split_on newline (concat ((fun b => b ++ [newline]) <$> bodies)) = bodies ++ [[]]) as E.
  { induction H as [|b bodies (Hb & _) _ IH]; [done|]. rewrite fmap_cons. cbn [concat]. rewrite <- app_assoc. cbn [app].
    by rewrite split_app_sep, IH by done. }
  unfold lines. rewrite E, last_snoc, bool_decide_true, length_app by done. cbn [length].
  replace (length bodies + 1 - 1)%nat with (length bodies) by lia. rewrite take_app_length.
  clear E. induction H as [|b bodies (_ & _ & Hb) _ IH]; [done|]. rewrite fmap_cons, IH. unfold strip_cr. by rewrite bool_decide_false.
Qed.

(** A line begins and ends with a field. *)
Lemma body_ends l : storable l -> exists b s d, join [space] (lease_fields l) = b :: s ++ [d] /\ field_byte b /\ field_byte d.
Proof.
  intros Hst. pose proof (secs_range l Hst) as Hr. destruct (fmt_u64 (expires_secs (dl_expires l))) as [[F0 F0'] _]; [zpow; lia|].
  destruct (clid_text_spec l Hst) as [[F4 F4'] _]. unfold lease_fields. cbn [join].
  destruct (fmt_u _) as [|b f0]; [done|]. apply Forall_cons in F0' as [Hb _].
  destruct (exists_last F4) as (c & d & Ec). cbn zeta in *. rewrite Ec in *. apply Forall_app in F4' as [_ [Hd _]%Forall_cons].
  exists b, (f0 ++ [space] ++ fmt_ipv4 (dl_addr l) ++ [space] ++ fmt_hex_colon (hw_bytes l) ++ [space]
    ++ default (bs "*") (dl_hostname l) ++ [space] ++ c), d. split_and!; [|done..]. by rewrite <- !app_assoc.
Qed.

Lemma body_lines l : storable l -> let b := join [space] (lease_fields l) in
  trim b = b /\ newline ∉ b /\ b <> [] /\ last b <> Some Byte.x0d.
Proof.
  intros Hst. destruct (body_ends l Hst) as (b & s & d & E & Hb & Hd). cbn zeta. split_and!.
  - rewrite E. by apply trim_field.
  - pose proof (secs_range l Hst) as Hr. destruct (fmt_u64 (expires_secs (dl_expires l))) as [F0 _]; [zpow; lia|].
    destruct (fmt_ipv4_spec (dl_addr l) (st_addr _ Hst)) as [F1 _].
    destruct (fmt_hex_colon_spec (hw_bytes l) (hw_bytes_nonnil l Hst)) as (F2 & _).
    destruct (hostname_field l Hst) as (_ & F3 & _). destruct (clid_text_spec l Hst) as [F4 _]. cbn zeta in *.
    apply field_no_sep in F0 as [_ F0], F1 as [_ F1], F2 as [_ F2], F4 as [_ F4].
    assert (newline ∉ [space]) as Fs by (by rewrite list_elem_of_singleton).
    unfold lease_fields. cbn [join]. rewrite !not_elem_of_app. by split_and!.
  - by rewrite E.
  - rewrite E, app_comm_cons, last_snoc. intros [= ->]. destruct Hd as [Hd _]. by vm_compute in Hd.
Qed.

Lemma read_lines_stored ls n db : Forall storable ls ->
  read_lines n ((fun l => join [space] (lease_fields l)) <$> ls) db = Val (Ok (fold_left (fun db l => db_insert l db) (stored <$> ls) db)).
Proof.
  intros H. revert n db. induction H as [|l ls Hl _ IH]; intros n db; [done|]. rewrite !fmap_cons. cbn [read_lines fold_left].
  destruct (body_lines l Hl) as (Ht & _ & Hne & _). rewrite Ht, parse_line_stored by done.
  destruct (join [space] (lease_fields l)) eqn:E; [done|]. apply IH.
Qed.

Lemma deserialize_serialize_fold `{HashOrder} db : Forall storable (values (leases db)) ->
  deserialize (serialize db) = Val (Ok (fold_left (fun db l => db_insert l db) (stored <$> values (leases db)) db_new)).
Proof.
  intros Hs. unfold deserialize, serialize. generalize dependent (values (leases db)). intros ls Hs.
  assert (lease_line <$> ls = (fun b => b ++ [newline]) <$> ((fun l => join [space] (lease_fields l)) <$> ls)) as ->.
  { rewrite <- list_fmap_compose. apply list_fmap_ext. intros i l _. apply lease_line_fields. }
  rewrite lines_bodies; [by apply read_lines_stored|]. apply Forall_fmap. eapply Forall_impl; [exact Hs|]. intros l Hl. by apply body_lines.
Qed.

(** ** The database read back *)

Definition addrs_unique (m : gmap Key DhcpLease) : Prop := forall k1 k2 l1 l2,
  m !! k1 = Some l1 -> m !! k2 = Some l2 -> dl_addr l1 = dl_addr l2 -> dl_addr l1 <> UNSPECIFIED -> k1 = k2.

Lemma index_ok_unique m ix : index_ok m ix -> addrs_unique m.
Proof.
  intros [_ Hc] k1 k2 l1 l2 H1 H2 He Hn. pose proof (Hc k1 l1 H1 Hn) as A. rewrite He, (Hc k2 l2 H2) in A by congruence. congruence.
Qed.

(** Inserting the leases of a map, in any order. *)
Lemma insert_leases m ls db : addrs_unique m -> NoDup (lease_key <$> ls) ->
  Forall (fun l => m !! lease_key l = Some l /\ leases db !! lease_key l = None) ls ->
  leases db ⊆ m -> index_ok (leases db) (addr_index db) ->
  let db' := fold_left (fun db l => db_insert l db) ls db in
  index_ok (leases db') (addr_index db') /\ leases db ⊆ leases db' /\ leases db' ⊆ m /\
  forall l, l ∈ ls -> leases db' !! lease_key l = Some l.
Proof.
  intros Hu. revert db. induction ls as [|l ls IH]; intros db Hnd Hf Hsub Hok; cbn [fold_left].
  { split_and!; [done..|]. by intros l ?%not_elem_of_nil. }
  rewrite fmap_cons in Hnd. apply NoDup_cons in Hnd as [Hl Hnd]. apply Forall_cons in Hf as [[Hm Hn] Hf].
  assert (leases (db_insert l db) = <[lease_key l := l]> (leases db)) as Ei by (unfold db_insert; by rewrite insert_raw_eq).
  destruct (IH (db_insert l db)) as (A & B & C & D); [done| | | |].
  - eapply Forall_impl; [apply Forall_and; split; [exact Hf|]|].
    { apply Forall_forall. intros x Hx. instantiate (1 := fun x => lease_key x <> lease_key l). intros E. apply Hl.
      rewrite <- E. by apply list_elem_of_fmap_2. }
    intros x [[? ?] ?]. rewrite Ei, lookup_insert_ne by done. done.
  - rewrite Ei. by apply insert_subseteq_l.
  - unfold db_insert. rewrite insert_raw_eq. apply raw_index_ok, index_except_none; [done|]. intros k x Hx He.
    destruct (decide (dl_addr l = UNSPECIFIED)) as [|Hz]; [done|]. exfalso.
    rewrite (Hu k (lease_key l) x l) in Hx; [congruence|by eapply lookup_weaken|done|done|congruence].
  - rewrite Ei in B. split_and!; [done| |done|].
    + etransitivity; [|exact B]. by apply insert_subseteq.
    + intros x [-> |Hx]%elem_of_cons; [|by apply D]. eapply lookup_weaken; [|exact B]. apply lookup_insert_eq.
Qed.

Lemma stored_key l : storable l -> lease_key (stored l) = lease_key l.
Proof.
  intros Hst. assert (hw_bytes (stored l) = hw_bytes l) as E.
  { pose proof (length_hw_bytes l Hst) as Hlen. unfold hw_bytes at 1. cbn [dl_hwaddr_len dl_hwaddr stored set_dl_clid set_dl_hostname set_dl_expires set_dl_hwaddr set_dl_hwaddr_len set_dl_hwaddr_type set_dl_addr].
    change DHCP_CHADDR_MAX with 16%nat. rewrite Nat.min_l by lia. unfold padded16. rewrite (take_ge (hw_bytes l)) by lia. apply take_app_length. }
  unfold lease_key. rewrite E. done.
Qed.

Lemma forall_values `{HashOrder} (P : DhcpLease -> Prop) m : (forall k l, m !! k = Some l -> P l) -> Forall P (values m).
Proof. intros HP. apply Forall_forall. intros l [k Hk]%elem_values. by eapply HP. Qed.

Lemma values_keys `{HashOrder} m (f : DhcpLease -> Key) : (forall k l, m !! k = Some l -> f l = k) -> NoDup (f <$> values m).
Proof.
  intros Hf. unfold values. rewrite <- list_fmap_compose. rewrite iter_order_perm.
  assert ((f ∘ snd) <$> map_to_list m = fst <$> map_to_list m) as ->; [|apply NoDup_fst_map_to_list].
  apply list_fmap_ext. intros i [k l] Hi. cbn. apply Hf, elem_of_map_to_list. by eapply list_elem_of_lookup_2.
Qed.

(** C38: the lease file keeps the leases. A consistent database whose leases
    stand under their own keys and can be written (a hardware address, a name
    without blanks, an end of the lease in the range of the clock) is read back
    without an error: every client has the lease it had, with its address,
    hardware address, name, client id and end in whole seconds, and looking up
    an address finds the lease it found. *)
Theorem lease_file_roundtrip `{HashOrder} db :
  db_ok db -> (forall k l, leases db !! k = Some l -> lease_key l = k /\ storable l) ->
  exists db', deserialize (serialize db) = Val (Ok db') /\ leases db' = stored <$> leases db /\
    forall a, find_by_addr a db' = stored <$> find_by_addr a db.
Proof.
  intros Hok Hst. eexists. split; [apply deserialize_serialize_fold, forall_values; intros k l Hl; by apply (Hst k)|].
  set (m := stored <$> leases db). assert (index_ok m (addr_index db)) as Hm.
  { apply (index_map (leases db) _ (fun _ => stored)); [intros k; apply lookup_fmap|done|apply (dk_index _ Hok)]. }
  destruct (insert_leases m (stored <$> values (leases db)) db_new) as (A & _ & C & D).
  - by eapply index_ok_unique.
  - rewrite <- list_fmap_compose. apply values_keys. intros k l Hl. cbn. rewrite stored_key; by apply (Hst k).
  - apply Forall_fmap, forall_values. intros k l Hl. cbn. destruct (Hst k l Hl) as [<- Hl']. rewrite stored_key by done. split; [|done].
    unfold m. by rewrite lookup_fmap, Hl.
  - apply map_empty_subseteq.
  - exact (dk_index _ (db_empty_ok 1000)).
  - set (db' := fold_left _ _ _) in *. assert (leases db' = m) as E.
    { apply (anti_symm (⊆) _ _ C). apply map_subseteq_spec. intros k l' Hl'. unfold m in Hl'. rewrite lookup_fmap in Hl'.
      destruct (leases db !! k) as [l|] eqn:El; [|done]. injection Hl' as <-. destruct (Hst k l El) as [<- Hl].
      rewrite <- (stored_key l Hl). apply D, list_elem_of_fmap_2, elem_values. by exists (lease_key l). }
    split; [done|]. intros a. rewrite E in A. apply option_eq. intros l'. unfold find_by_addr. rewrite E.
    assert (forall k, addr_index db' !! a = Some k <-> addr_index db !! a = Some k) as Hix.
    { intros k. split; intros Hk; [destruct (ix_sound _ _ A a k Hk) as (Hn & l & Hl & <-); by apply (ix_complete _ _ Hm)|].
      destruct (ix_sound _ _ Hm a k Hk) as (Hn & l & Hl & <-); by apply (ix_complete _ _ A). }
    assert (addr_index db' !! a = addr_index db !! a) as -> by (by apply option_eq).
    destruct (addr_index db !! a) as [k|]; [|done]. unfold m. by rewrite lookup_fmap.
Qed.

Definition ex_lease : DhcpLease :=
  set_dl_hostname (Some (bs "printer")) (set_dl_expires (Some 1700000000123456789)
    (set_dl_hwaddr (padded16 [Byte.x02; Byte.x00; Byte.x00; Byte.x00; Byte.x00; Byte.x01])
      (set_dl_hwaddr_len 6 (set_dl_hwaddr_type 1 (set_dl_addr 0x0A000005 lease_default))))).
Definition ex_file_db : LeaseDb := db_insert ex_lease db_new.

Example ex_file_text : serialize (H := list_order) ex_file_db = bs "1700000000 10.0.0.5 02:00:00:00:00:01 printer *" ++ [newline].
Proof. by vm_compute. Qed.

Lemma lease_file_roundtrip_witness :
  storable ex_lease /\ exists db', deserialize (serialize (H := list_order) ex_file_db) = Val (Ok db') /\
    find_by_addr 0x0A000005 db' = Some (stored ex_lease).
Proof.
  assert (storable ex_lease) as Hst.
  { split; [by split; vm_compute|split; [done|cbn; lia]| | |done].
    - intros t [= <-]. zpow. lia.
    - intros n [= <-]. split_and!; [apply (bool_decide_unpack _); by vm_compute..|done]. }
  split; [done|]. assert (leases ex_file_db = {[lease_key ex_lease := ex_lease]}) as E by done.
  assert (forall k l, leases ex_file_db !! k = Some l -> k = lease_key ex_lease /\ l = ex_lease) as Hone.
  { intros k l. rewrite E. by intros [<- <-]%lookup_singleton_Some. }
  destruct (lease_file_roundtrip (H := list_order) ex_file_db) as (db' & A & _ & B).
  - split; [| |by vm_compute; lia].
    + unfold ex_file_db, db_insert. rewrite insert_raw_eq. apply raw_index_ok, index_except_none; [exact (dk_index _ (db_empty_ok 1000))|].
      intros k l Hl. exfalso. exact (lookup_empty_Some _ _ Hl).
    + split.
      * by intros k l [-> ->]%Hone.
      * intros k1 k2 l1 l2 n1 n2 [-> _]%Hone [-> _]%Hone. done.
      * by intros k l [-> ->]%Hone.
  - by intros k l [-> ->]%Hone.
  - exists db'. split; [exact A|]. rewrite B. by vm_compute.
Defined.

(** A lease of a client without a hardware address is written, and makes the
    file unreadable. *)
Definition ex_bare_db : LeaseDb := default db_new (allocate_v4 0x0A000006 db_new).
Example empty_hwaddr_unreadable :
  serialize (H := list_order) ex_bare_db = bs "0 10.0.0.6  * *" ++ [newline] /\
  deserialize (serialize (H := list_order) ex_bare_db) = Val (Err (ParseError 1 (bs "invalid hwaddr"))).
Proof. by split; vm_compute. Qed.

(** An end of the lease beyond the clock's range panics the reader. *)
Example far_expiry_panics : deserialize (bs "9223372036854775808 10.0.0.6 02:00 * *") = Panic.
Proof. by vm_compute. Qed.
