(* ===== verification/DhcpAlloc.v ===== *)
(** * Address ranges and allocation: src/src/dhcp.rs

    Choice of the range of an address, linking of the ranges with the interface
    a packet came in on, the cache of ping results, and the search for a free
    address. The probe that pings an address is an argument. *)

From Stdlib Require Import ZArith Lia String.
From stdpp Require Import base numbers list option gmap sets.
From S2P Require Import Prelude Types Hostname Util DhcpTypes DhcpOptions DhcpCommon Lease.

#[local] Open Scope Z_scope.

(** [u32] arithmetic that wraps around. *)
Definition wrap32 (z : Z) : Z := z mod 2 ^ 32.

Definition is_none {A} (o : option A) : bool := match o with Some _ => false | None => true end.

(** ** ICMP echo *)

(** The big-endian 16-bit words of the data, an odd last byte as a high byte. *)
Fixpoint word_sum (data : list u8) : Z :=
  match data with
  | a :: b :: rest => (u8z a * 256 + u8z b) + word_sum rest
  | [a] => u8z a * 256
  | [] => 0
  end.
(** Folding the carry; a [u32] needs two rounds. *)
Fixpoint fold_carry (fuel : nat) (sum : Z) : Z :=
  match fuel with
  | O => sum
  | S f => if Z.shiftr sum 16 =? 0 then sum else fold_carry f (Z.land sum 0xffff + Z.shiftr sum 16)
  end.
(** The words are added in a [u32], which overflows past 65536 of them. *)
Definition icmp_checksum (data : list u8) : outcome Z :=
  let sum := word_sum data in
  if 2 ^ 32 <=? sum then Panic else Val (0xffff - fold_carry 3 sum).

Definition build_icmp_echo_request (id : Z) : outcome (list u8) :=
  let pkt := [Byte.x08; Byte.x00; Byte.x00; Byte.x00] ++ to_be 2 id ++ [Byte.x00; Byte.x00] in
  let# cksum := icmp_checksum pkt in
  Val (take 2 pkt ++ to_be 2 cksum ++ drop 4 pkt).

Definition parse_icmp_echo_reply (data : list u8) (expected_id : Z) : bool :=
  match data with
  | [] => false
  | b :: _ =>
    let ihl := Z.to_nat (Z.land (u8z b) 0x0f * 4) in
    if (length data <? ihl + 8)%nat then false
    else let icmp := drop ihl data in
         bool_decide (icmp !! 0%nat = Some Byte.x00) && (of_be (take 2 (drop 6 icmp)) =? 0) && (of_be (take 2 (drop 4 icmp)) =? expected_id)
  end.

(** ** Ranges *)

Definition no_pool (c : DhcpContext) : bool := has (cx_flags c) (ContextFlags.STATIC ∣∣ ContextFlags.PROXY).
Definition in_range (c : DhcpContext) (addr : Ipv4Addr) : bool := (cx_start c <=? addr) && (addr <=? cx_end c).

Definition address_available (contexts : list DhcpContext) (addr : Ipv4Addr) : bool :=
  if existsb (fun c => addr =? cx_router c) contexts then false
  else existsb (fun c => negb (no_pool c) && in_range c addr) contexts.

Definition same_subnet (c : DhcpContext) (addr : Ipv4Addr) : bool :=
  negb (cx_netmask c =? UNSPECIFIED) && is_same_net addr (cx_start c) (cx_netmask c).

Definition narrow_context (contexts : list DhcpContext) (addr : Ipv4Addr) : option DhcpContext :=
  or_else (if address_available contexts addr then List.find (fun c => negb (no_pool c) && in_range c addr) contexts else None)
  (or_else (List.find (fun c => flag_contains (cx_flags c) ContextFlags.STATIC && same_subnet c addr) contexts)
           (List.find (fun c => negb (flag_contains (cx_flags c) ContextFlags.PROXY) && same_subnet c addr) contexts)).

Definition config_find_by_address (configs : list DhcpConfig) (addr : Ipv4Addr) : option DhcpConfig :=
  List.find (fun c => flag_contains (cf_flags c) ConfigFlags.ADDR && (cf_addr c =? addr)) configs.

Record ArrivalInterface : Type := mkArrival {
  ai_local : Ipv4Addr;
  ai_netmask : Ipv4Addr;
  ai_broadcast : Ipv4Addr;
  ai_if_index : Z;
}.

Definition guess_netmask (iface : ArrivalInterface) (c : DhcpContext) : DhcpContext :=
  if negb (flag_contains (cx_flags c) ContextFlags.NETMASK)
     && (is_same_net (ai_local iface) (cx_start c) (ai_netmask iface) || is_same_net (ai_local iface) (cx_end c) (ai_netmask iface))
  then set_cx_netmask (ai_netmask iface) c else c.
Definition on_link (iface : ArrivalInterface) (c : DhcpContext) : bool :=
  negb (cx_netmask c =? UNSPECIFIED) && is_same_net (ai_local iface) (cx_start c) (cx_netmask c)
  && is_same_net (ai_local iface) (cx_end c) (cx_netmask c).
Definition link_context (iface : ArrivalInterface) (c : DhcpContext) : DhcpContext :=
  let c := set_cx_local (ai_local iface) (set_cx_router (ai_local iface) c) in
  if flag_contains (cx_flags c) ContextFlags.BRDCAST then c
  else set_cx_broadcast (if is_same_net (ai_broadcast iface) (cx_start c) (cx_netmask c) then ai_broadcast iface
                         else Z.lor (cx_start c) (not32 (cx_netmask c))) c.
(** The contexts changed in place, and the indices of the linked ones. *)
Definition link_contexts_for_interface (contexts : list DhcpContext) (iface : ArrivalInterface) : list DhcpContext * list nat :=
  let contexts := guess_netmask iface <$> contexts in
  ((fun c => if on_link iface c then link_context iface c else c) <$> contexts,
   List.filter (fun i => match contexts !! i with Some c => on_link iface c | None => false end) (seq 0 (length contexts))).

(** ** Seeds *)

Definition sdbm_step (j : Z) (b : u8) : Z := wrap32 (wrap32 (wrap32 (u8z b + wrap32 (j * 2 ^ 6)) + wrap32 (j * 2 ^ 16)) - j).
Definition sdbm_hash (hwaddr : list u8) : Z :=
  let j := fold_left sdbm_step hwaddr 0 in if j =? 0 then 1 else j.

Definition hash_to_addr (hash epoch : Z) (start end_ : Ipv4Addr) : Ipv4Addr :=
  let range := wrap32 (wrap32 (end_ - start) + 1) in
  if range =? 0 then start else wrap32 (start + wrap32 (hash + epoch) mod range).

Definition is_allocatable_addr (addr : Ipv4Addr) : bool :=
  let first_octet := Z.land (Z.shiftr addr 24) 0xff in
  if (192 <=? first_octet) && (first_octet <=? 223)
  then let last_octet := Z.land addr 0xff in negb ((last_octet =? 0) || (last_octet =? 0xff))
  else true.

(** ** The ping cache *)

Record PingResult : Type := mkPing { pr_addr : Ipv4Addr; pr_time : SystemTime; pr_hash : Z }.
(** [PingCache { results }]. *)
Notation PingCache := (list PingResult) (only parsing).

Definition PING_CACHE_TIME : Z := 30 * 1000000000.
(** [(0.6 * (PING_CACHE_TIME_SECS / PING_WAIT_SECS)) as usize]. *)
Definition PING_MAX : nat := 6.

(** [duration_since] of a later time is zero. *)
Definition expired_ping (now : SystemTime) (r : PingResult) : bool := PING_CACHE_TIME <? Z.max 0 (now - pr_time r).

(** The scan of the cache: a fresh result of the address, or the number of
    fresh results and the last expired one. *)
Fixpoint scan_cache (now : SystemTime) (addr : Ipv4Addr) (i count : nat) (victim : option nat) (results : PingCache)
  : Z + (nat * option nat) :=
  match results with
  | [] => inr (count, victim)
  | r :: rest =>
    if expired_ping now r then scan_cache now addr (S i) count (Some i) rest
    else if pr_addr r =? addr then inl (pr_hash r)
    else scan_cache now addr (S i) (S count) victim rest
  end.

Definition ping_check (now : SystemTime) (addr : Ipv4Addr) (hash : Z) (no_ping loopback : bool) (in_use : Ipv4Addr -> bool)
    (cache : PingCache) : option Z * PingCache :=
  match scan_cache now addr 0 0 None cache with
  | inl h => (Some h, cache)
  | inr (count, victim) =>
    if (PING_MAX <=? count)%nat || no_ping || loopback then (Some hash, cache)
    else if in_use addr then (None, cache)
    else let record := mkPing addr now hash in
         (Some hash, match victim with Some i => <[i := record]> cache | None => cache ++ [record] end)
  end.

(** ** Allocation *)

Definition context_filter_item (netids : list DhcpNetid) (check : DhcpNetid) : bool :=
  if negated (net check) then negb (existsb (fun n => bool_decide (net n = drop 1 (net check))) netids)
  else existsb (fun n => bool_decide (net n = net check)) netids.
Definition context_filter_matches (filter netids : list DhcpNetid) (tagnotneeded : bool) : bool :=
  if (length filter =? 0)%nat then tagnotneeded else forallb (context_filter_item netids) filter.

Definition next_addr_wrapping (addr start end_ : Ipv4Addr) : Ipv4Addr :=
  let next := wrap32 (addr + 1) in if next =? wrap32 (end_ + 1) then start else next.

(** The number of addresses from [start] round to [end]: the loop passes each
    of them at most once. *)
Definition range_size (start end_ : Ipv4Addr) : nat := Z.to_nat (wrap32 (end_ - start) + 1).

Section Allocate.
Context (contexts : list DhcpContext) (lease_db : LeaseDb) (configs : list DhcpConfig) (hash : Z)
  (now : SystemTime) (loopback consec_addr no_ping : bool) (in_use : Ipv4Addr -> bool).

(** The tests before the ping. *)
Definition candidate (addr : Ipv4Addr) : bool :=
  negb (existsb (fun d => addr =? cx_router d) contexts) && is_allocatable_addr addr
  && is_none (find_by_addr addr lease_db) && is_none (config_find_by_address configs addr).

(** The address is taken, or the cache after the test of it. *)
Definition try_addr (addr : Ipv4Addr) (cache : PingCache) : bool * PingCache :=
  if candidate addr then
    let '(r, cache) := ping_check now addr hash no_ping loopback in_use cache in
    (match r with Some r_hash => negb consec_addr || (r_hash =? hash) | None => false end, cache)
  else (false, cache).

Fixpoint scan_range (fuel : nat) (start end_ start_addr addr : Ipv4Addr) (cache : PingCache) : option Ipv4Addr * PingCache :=
  match fuel with
  | O => (None, cache)
  | S f =>
    let '(taken, cache) := try_addr addr cache in
    if taken then (Some addr, cache)
    else let addr := next_addr_wrapping addr start end_ in
         if addr =? start_addr then (None, cache) else scan_range f start end_ start_addr addr cache
  end.
End Allocate.

Section AllocatePasses.
Context `{HashOrder}.
Context (contexts : list DhcpContext) (lease_db : LeaseDb) (configs : list DhcpConfig) (hwaddr : list u8)
  (netids : list DhcpNetid) (now : SystemTime) (loopback consec_addr no_ping : bool) (in_use : Ipv4Addr -> bool).

Definition context_eligible (tagnotneeded : bool) (c : DhcpContext) : bool :=
  negb (no_pool c) && context_filter_matches (cx_filter c) netids tagnotneeded.

Definition start_addr (c : DhcpContext) : Ipv4Addr :=
  if consec_addr then find_max_addr (cx_start c) (cx_end c) lease_db
  else hash_to_addr (sdbm_hash hwaddr) (cx_addr_epoch c) (cx_start c) (cx_end c).

Fixpoint scan_contexts (tagnotneeded : bool) (cs : list DhcpContext) (cache : PingCache) : option Ipv4Addr * PingCache :=
  match cs with
  | [] => (None, cache)
  | c :: rest =>
    if context_eligible tagnotneeded c then
      match scan_range contexts lease_db configs (sdbm_hash hwaddr) now loopback consec_addr no_ping in_use
              (range_size (cx_start c) (cx_end c)) (cx_start c) (cx_end c) (start_addr c) (start_addr c) cache with
      | (Some a, cache) => (Some a, cache)
      | (None, cache) => scan_contexts tagnotneeded rest cache
      end
    else scan_contexts tagnotneeded rest cache
  end.

(** First the ranges whose tags match, then also those without tags. *)
Definition address_allocate (cache : PingCache) : option Ipv4Addr * PingCache :=
  match scan_contexts false contexts cache with
  | (Some a, cache) => (Some a, cache)
  | (None, cache) => scan_contexts true contexts cache
  end.
End AllocatePasses.

(** A range that stands in for a configuration without ranges. *)
Definition synthetic_pool_context (start end_ : Ipv4Addr) : DhcpContext :=
  mkContext 3600 0 UNSPECIFIED UNSPECIFIED UNSPECIFIED UNSPECIFIED start end_ 0 (mkNetid []) [] 0 0 0 0 0 0 0 0 0 0 0.

(** ** The round of a range *)

(** The [i]-th address of a range, whose last one is the [width]-th. *)
Definition nth_addr (start : Ipv4Addr) (i : Z) : Ipv4Addr := wrap32 (start + i).
Definition width (start end_ : Ipv4Addr) : Z := wrap32 (end_ - start).

Lemma wrap32_range z : 0 <= wrap32 z < 2 ^ 32.
Proof. apply Z.mod_pos_bound. lia. Qed.
Lemma wrap32_small z : 0 <= z < 2 ^ 32 -> wrap32 z = z.
Proof. apply Z.mod_small. Qed.

Lemma nth_addr_inj s i j : 0 <= i < 2 ^ 32 -> 0 <= j < 2 ^ 32 -> nth_addr s i = nth_addr s j -> i = j.
Proof. unfold nth_addr, wrap32. zpow. intros. dlia. Qed.

Lemma next_addr_nth s e i : ip4_ok s -> ip4_ok e -> 0 <= i <= width s e ->
  next_addr_wrapping (nth_addr s i) s e = nth_addr s ((i + 1) mod (width s e + 1)).
Proof.
  intros Hs He Hi. unfold next_addr_wrapping. pose proof (wrap32_range (e - s)) as Hw. fold (width s e) in Hw.
  assert (wrap32 (nth_addr s i + 1) = nth_addr s (i + 1)) as -> by (unfold nth_addr, wrap32; zpow; dlia).
  assert (wrap32 (e + 1) = nth_addr s (width s e + 1)) as -> by (unfold nth_addr, width, wrap32; zpow; dlia).
  destruct (Z.eq_dec i (width s e)) as [->|Hne].
  - rewrite Z.eqb_refl, Z.mod_same by lia. unfold nth_addr. by rewrite Z.add_0_r, wrap32_small.
  - rewrite (Z.mod_small (i + 1)) by lia. destruct (Z.eqb_spec (nth_addr s (i + 1)) (nth_addr s (width s e + 1))) as [E|]; [|done].
    exfalso. unfold nth_addr, width, wrap32, ip4_ok in *. zpow. dlia.
Qed.

Lemma nth_addr_in_range s e i : ip4_ok s -> ip4_ok e -> s <= e -> 0 <= i <= width s e -> s <= nth_addr s i <= e.
Proof. unfold nth_addr, width, wrap32, ip4_ok. zpow. intros. dlia. Qed.

Lemma in_range_nth s e a : ip4_ok s -> ip4_ok e -> s <= a <= e -> exists i, 0 <= i <= width s e /\ nth_addr s i = a.
Proof. intros Hs He Ha. exists (a - s). unfold nth_addr, width, wrap32, ip4_ok in *. zpow. dlia. Qed.

Lemma hash_to_addr_nth h epoch s e : ip4_ok s -> ip4_ok e ->
  exists o, 0 <= o <= width s e /\ hash_to_addr h epoch s e = nth_addr s o.
Proof.
  intros Hs He. unfold hash_to_addr. fold (width s e). pose proof (wrap32_range (e - s)) as Hw. fold (width s e) in Hw.
  destruct (Z.eqb_spec (wrap32 (width s e + 1)) 0) as [E|E].
  - exists 0. split; [lia|]. unfold nth_addr. by rewrite Z.add_0_r, wrap32_small.
  - assert (wrap32 (width s e + 1) = width s e + 1) as ->.
    { unfold wrap32 in *. zpow. destruct (Z.eq_dec (width s e + 1) 4294967296) as [E'|]; [by rewrite E', Z.mod_same in E|].
      apply Z.mod_small. lia. }
    eexists. split; [|reflexivity]. pose proof (Z.mod_pos_bound (wrap32 (h + epoch)) (width s e + 1)). lia.
Qed.

Lemma fold_max_elem (l : list Z) a : fold_left Z.max l a ∈ a :: l.
Proof.
  revert a. induction l as [|b l IH]; intros a; cbn [fold_left]; [set_solver|]. specialize (IH (Z.max a b)).
  apply elem_of_cons in IH as [-> |]; [|set_solver]. destruct (Z.max_spec a b) as [[_ ->] | [_ ->]]; set_solver.
Qed.

Lemma find_max_addr_nth `{HashOrder} s e db : ip4_ok s -> ip4_ok e ->
  exists o, 0 <= o <= width s e /\ find_max_addr s e db = nth_addr s o.
Proof.
  intros Hs He. unfold find_max_addr. pose proof (wrap32_range (e - s)) as Hw. fold (width s e) in Hw.
  destruct (List.filter _ _) as [|a rest] eqn:E.
  - exists 0. split; [lia|]. unfold nth_addr. by rewrite Z.add_0_r, wrap32_small.
  - pose proof (fold_max_elem rest a) as Hin. rewrite <- E in Hin. apply list_elem_of_In, filter_In in Hin as [_ Hin].
    apply andb_true_iff in Hin as [H1%Z.leb_le H2%Z.leb_le]. destruct (in_range_nth s e (fold_left Z.max rest a)) as (o & Ho & <-); eauto.
Qed.

(** ** The scan *)

Section Scan.
Context (contexts : list DhcpContext) (lease_db : LeaseDb) (configs : list DhcpConfig) (hash : Z)
  (now : SystemTime) (loopback consec_addr no_ping : bool) (in_use : Ipv4Addr -> bool).
Notation try := (try_addr contexts lease_db configs hash now loopback consec_addr no_ping in_use).
Notation scan := (scan_range contexts lease_db configs hash now loopback consec_addr no_ping in_use).
Notation cand := (candidate contexts lease_db configs).

(** A result of the last half minute that says the address is free, or enough
    other pings in that time. *)
Definition pinged_enough (addr : Ipv4Addr) (cache : PingCache) : Prop :=
  (exists r, r ∈ cache /\ expired_ping now r = false /\ pr_addr r = addr) \/
  (PING_MAX <= length (List.filter (fun r => negb (expired_ping now r)) cache))%nat.

Lemma scan_cache_spec addr i count victim cache :
  match scan_cache now addr i count victim cache with
  | inl h => exists r, r ∈ cache /\ expired_ping now r = false /\ pr_addr r = addr
  | inr (n, _) => (n = count + length (List.filter (fun r => negb (expired_ping now r)) cache))%nat
  end.
Proof.
  revert i count victim. induction cache as [|r cache IH]; intros i count victim; cbn [scan_cache List.filter length]; [lia|].
  destruct (expired_ping now r) eqn:E; cbn [negb].
  - specialize (IH (S i) count (Some i)). destruct (scan_cache _ _ _ _ _ _) as [h|[n v]]; [|done]. destruct IH as (x & Hx & ?). exists x. set_solver.
  - destruct (Z.eqb_spec (pr_addr r) addr); [exists r; set_solver|]. specialize (IH (S i) (S count) victim).
    destruct (scan_cache _ _ _ _ _ _) as [h|[n' v]]; [destruct IH as (x & Hx & ?); exists x; set_solver|]. cbn [length]. lia.
Qed.

Lemma try_taken addr cache cache' : try addr cache = (true, cache') ->
  cand addr = true /\ (in_use addr = false \/ no_ping = true \/ loopback = true \/ pinged_enough addr cache').
Proof.
  unfold try_addr. destruct (cand addr); [|done]. unfold ping_check. pose proof (scan_cache_spec addr 0 0 None cache) as Hs.
  destruct (scan_cache _ _ _ _ _ _) as [h|[n v]].
  { intros [= _ <-]. split; [done|]. do 3 right. by left. }
  destruct (_ || _ || _) eqn:E; [|destruct (in_use addr); [done|auto]]. intros [= _ <-]. split; [done|].
  apply orb_true_iff in E as [[E|E]%orb_true_iff|E]; [|auto..]. apply Nat.leb_le in E. do 3 right. right. lia.
Qed.

(** A candidate is turned down only for an answer to the ping, or, with
    consecutive addresses, for a ping on another client's account. *)
Lemma try_refused addr cache cache' : try addr cache = (false, cache') -> cand addr = true -> consec_addr = false -> in_use addr = true.
Proof.
  unfold try_addr. intros H Hc Hn. rewrite Hc, Hn in H. unfold ping_check in H. destruct (scan_cache _ _ _ _ _ _) as [h|[n v]]; [done|].
  destruct (_ || _ || _); [done|]. by destruct (in_use addr).
Qed.

Context (s e : Ipv4Addr) (Hs : ip4_ok s) (He : ip4_ok e).
Let n : Z := width s e + 1.
Notation pos o k := (nth_addr s ((o + k) mod n)).

Lemma round_pos x : 0 <= x mod n <= width s e.
Proof. pose proof (wrap32_range (e - s)) as Hw. fold (width s e) in Hw. pose proof (Z.mod_pos_bound x n). lia. Qed.

Lemma next_pos o k : next_addr_wrapping (pos o k) s e = pos o (k + 1).
Proof.
  rewrite next_addr_nth by (done || apply round_pos). fold n. f_equal. pose proof (round_pos 0).
  rewrite Z.add_mod_idemp_l by lia. f_equal. lia.
Qed.

(** The round comes back to its start after all addresses and not before. *)
Lemma back_at_start o k : 0 <= o <= width s e -> 0 <= k <= width s e -> (pos o (k + 1) =? nth_addr s o) = (k =? width s e).
Proof.
  intros Ho Hk. pose proof (wrap32_range (e - s)) as Hw. fold (width s e) in Hw. pose proof (round_pos (o + (k + 1))) as Hr.
  apply Bool.eq_iff_eq_true. rewrite !Z.eqb_eq. split; intros E.
  - apply nth_addr_inj in E; [|lia..]. unfold n in *. destruct (Z.lt_ge_cases (o + (k + 1)) (width s e + 1)).
    + rewrite Z.mod_small in E; lia.
    + replace (o + (k + 1)) with (o + k - width s e + 1 * (width s e + 1)) in E by lia.
      rewrite Z.mod_add, Z.mod_small in E; lia.
  - f_equal. subst k. unfold n. rewrite Z.add_mod, Z.mod_same, Z.add_0_r, Z.mod_mod by lia. apply Z.mod_small. lia.
Qed.

Lemma scan_found fuel o addr k cache a cache' : addr = pos o k ->
  scan fuel s e (nth_addr s o) addr cache = (Some a, cache') ->
  exists j c0, a = nth_addr s j /\ 0 <= j <= width s e /\ try a c0 = (true, cache').
Proof.
  revert addr k cache. induction fuel as [|fuel IH]; intros addr k cache ->; cbn [scan_range]; [done|].
  destruct (try (pos o k) cache) as [[] c1] eqn:Et.
  - intros [= <- <-]. exists ((o + k) mod n), cache. split_and!; [done|apply round_pos..|done].
  - rewrite next_pos. destruct (_ =? _); [done|]. by apply IH with (k + 1).
Qed.

Lemma scan_exhausted fuel o k cache cache' : 0 <= o <= width s e -> 0 <= k <= width s e -> n - k <= Z.of_nat fuel ->
  scan fuel s e (nth_addr s o) (pos o k) cache = (None, cache') ->
  forall j, k <= j <= width s e -> exists c0 c1, try (pos o j) c0 = (false, c1).
Proof.
  intros Ho. revert k cache. induction fuel as [|fuel IH]; intros k cache Hk Hf; [lia|]. cbn [scan_range].
  destruct (try (pos o k) cache) as [[] c1] eqn:Et; [done|]. rewrite next_pos, back_at_start by done.
  intros Hr j Hj. destruct (Z.eq_dec j k) as [->|]; [eauto|]. rewrite (proj2 (Z.eqb_neq k (width s e))) in Hr by lia.
  apply (IH (k + 1) c1); [lia..|done|lia].
Qed.

(** More fuel than addresses changes nothing. *)
Lemma scan_fuel fuel fuel' o k cache : 0 <= o <= width s e -> 0 <= k <= width s e -> n - k <= Z.of_nat fuel -> n - k <= Z.of_nat fuel' ->
  scan fuel s e (nth_addr s o) (pos o k) cache = scan fuel' s e (nth_addr s o) (pos o k) cache.
Proof.
  intros Ho. revert fuel' k cache. induction fuel as [|fuel IH]; intros fuel' k cache Hk Hf Hf'; [lia|]. destruct fuel' as [|fuel']; [lia|].
  cbn [scan_range]. destruct (try (pos o k) cache) as [[] c1]; [done|]. rewrite next_pos, back_at_start by done.
  destruct (Z.eqb_spec k (width s e)); [done|]. apply IH; lia.
Qed.

(** Every address of the range is met. *)
Lemma round_covers o i : 0 <= o <= width s e -> 0 <= i <= width s e -> exists j, 0 <= j <= width s e /\ pos o j = nth_addr s i.
Proof.
  intros Ho Hi. pose proof (wrap32_range (e - s)) as Hw. fold (width s e) in Hw.
  exists ((i - o) mod n). split; [apply round_pos|]. f_equal. rewrite Z.add_mod_idemp_r by (unfold n; lia).
  replace (o + (i - o)) with i by lia. apply Z.mod_small. unfold n. lia.
Qed.
End Scan.

(** ** The allocator *)

Definition cx_ok (c : DhcpContext) : Prop := ip4_ok (cx_start c) /\ ip4_ok (cx_end c).

Section MayLease.
Context (contexts : list DhcpContext) (lease_db : LeaseDb) (configs : list DhcpConfig).

Lemma is_none_true {A} (o : option A) : is_none o = true <-> o = None.
Proof. by destruct o. Qed.

(** An address that may be leased: no router, no reservation, no lease. *)
Definition may_lease (a : Ipv4Addr) : Prop :=
  (forall d, d ∈ contexts -> cx_router d <> a) /\ is_allocatable_addr a = true /\ find_by_addr a lease_db = None /\
  (forall cf, cf ∈ configs -> flag_contains (cf_flags cf) ConfigFlags.ADDR = true -> cf_addr cf <> a).

Lemma config_find_None a :
  config_find_by_address configs a = None <-> forall cf, cf ∈ configs -> flag_contains (cf_flags cf) ConfigFlags.ADDR = true -> cf_addr cf <> a.
Proof.
  unfold config_find_by_address. split.
  - intros Hn cf Hin%list_elem_of_In Hf He. apply (find_none _ _ Hn) in Hin. by rewrite Hf, He, Z.eqb_refl in Hin.
  - intros Hx. destruct (List.find _ _) as [cf|] eqn:E; [|done]. apply find_some in E as [Hin%list_elem_of_In [Hf He%Z.eqb_eq]%andb_true_iff].
    by destruct (Hx cf Hin Hf).
Qed.

Lemma candidate_may_lease a : candidate contexts lease_db configs a = true <-> may_lease a.
Proof.
  unfold candidate, may_lease. rewrite !andb_true_iff, !is_none_true, config_find_None, negb_true_iff.
  assert (existsb (fun d => a =? cx_router d) contexts = false <-> forall d, d ∈ contexts -> cx_router d <> a) as ->; [|tauto].
  split.
  - intros Hx d Hd E. assert (existsb (fun d => a =? cx_router d) contexts = true) as Ht; [|congruence].
    apply existsb_exists. exists d. rewrite E, Z.eqb_refl. split; [by apply list_elem_of_In|done].
  - intros Hx. destruct (existsb _ _) eqn:E; [|done]. apply existsb_exists in E as (d & Hd & Ed%Z.eqb_eq). by destruct (Hx d); [apply list_elem_of_In|].
Qed.

End MayLease.

Section Allocator.
Context `{HashOrder}.
Context (contexts : list DhcpContext) (lease_db : LeaseDb) (configs : list DhcpConfig) (hwaddr : list u8)
  (netids : list DhcpNetid) (now : SystemTime) (loopback consec_addr no_ping : bool) (in_use : Ipv4Addr -> bool).
Notation seed := (start_addr lease_db hwaddr consec_addr).
Notation scans := (scan_contexts contexts lease_db configs hwaddr netids now loopback consec_addr no_ping in_use).
Notation allocate := (address_allocate contexts lease_db configs hwaddr netids now loopback consec_addr no_ping in_use).
Notation try := (try_addr contexts lease_db configs (sdbm_hash hwaddr) now loopback consec_addr no_ping in_use).

Lemma start_addr_nth c : cx_ok c -> exists o, 0 <= o <= width (cx_start c) (cx_end c) /\ seed c = nth_addr (cx_start c) o.
Proof. intros [? ?]. unfold start_addr. destruct consec_addr; [by apply find_max_addr_nth|by apply hash_to_addr_nth]. Qed.

Lemma nth_pos0 s e o : 0 <= o <= width s e -> nth_addr s o = nth_addr s ((o + 0) mod (width s e + 1)).
Proof. intros Ho. by rewrite Z.add_0_r, Z.mod_small by lia. Qed.

Lemma range_size_Z s e : Z.of_nat (range_size s e) = width s e + 1.
Proof. unfold range_size. pose proof (wrap32_range (e - s)). fold (width s e) in *. lia. Qed.

Lemma scans_found tag cs cache a cache' : Forall cx_ok cs -> scans tag cs cache = (Some a, cache') ->
  exists c j c0, c ∈ cs /\ context_eligible netids tag c = true /\ a = nth_addr (cx_start c) j /\ 0 <= j <= width (cx_start c) (cx_end c) /\
    try a c0 = (true, cache').
Proof.
  intros Hok. revert cache. induction Hok as [|c cs Hc Hok IH]; intros cache; cbn [scan_contexts]; [done|].
  destruct (context_eligible netids tag c) eqn:He.
  - destruct (start_addr_nth c Hc) as (o & Ho & Eo). destruct (scan_range _ _ _ _ _ _ _ _ _ _ _ _ _ _ _) as [[a0|] c1] eqn:Er.
    + intros [= <- <-]. rewrite Eo in Er. eapply scan_found in Er as (j & c0 & -> & Hj & Ht); [|apply Hc..|by apply nth_pos0].
      exists c, j, c0. split_and!; [set_solver|done..|apply Hj|apply Hj|done].
    + intros Hr. destruct (IH _ Hr) as (c' & j & c0 & ? & ?). exists c', j, c0. set_solver.
  - intros Hr. destruct (IH _ Hr) as (c' & j & c0 & ? & ?). exists c', j, c0. set_solver.
Qed.

Lemma allocate_found cache a cache' : Forall cx_ok contexts -> allocate cache = (Some a, cache') ->
  exists tag c j c0, c ∈ contexts /\ context_eligible netids tag c = true /\ a = nth_addr (cx_start c) j /\
    0 <= j <= width (cx_start c) (cx_end c) /\ try a c0 = (true, cache').
Proof.
  intros Hok. unfold address_allocate. destruct (scans false contexts cache) as [[a0|] c1] eqn:E; intros Hr.
  - injection Hr as <- <-. exists false. by eapply scans_found.
  - exists true. by eapply scans_found.
Qed.

(** A failed pass has refused every address of the eligible ranges. *)
Lemma scans_exhausted tag cs cache cache' c a : Forall cx_ok cs -> scans tag cs cache = (None, cache') ->
  c ∈ cs -> context_eligible netids tag c = true -> in_range c a = true -> exists c0 c1, try a c0 = (false, c1).
Proof.
  intros Hok. revert cache. induction Hok as [|c' cs Hc Hok IH]; intros cache; cbn [scan_contexts]; [by intros _ ?%not_elem_of_nil|].
  destruct (context_eligible netids tag c') eqn:He'.
  - destruct (start_addr_nth c' Hc) as (o & Ho & Eo). destruct (scan_range _ _ _ _ _ _ _ _ _ _ _ _ _ _ _) as [[a0|] c1] eqn:Er; [done|].
    intros Hr [-> |Hin]%elem_of_cons He Hra; [|by eapply IH]. destruct Hc as [Hs He4].
    rewrite Eo in Er. rewrite (nth_pos0 _ _ o Ho) in Er at 2. apply andb_true_iff in Hra as [H1%Z.leb_le H2%Z.leb_le].
    destruct (in_range_nth (cx_start c') (cx_end c') a) as (i & Hi & <-); [done..|].
    destruct (round_covers (cx_start c') (cx_end c') o i Ho Hi) as (j & Hj & <-).
    eapply (scan_exhausted _ _ _ _ _ _ _ _ _ _ _ Hs He4 _ o 0 cache c1); [done|lia| |done|done].
    rewrite range_size_Z. lia.
  - intros Hr [-> |Hin]%elem_of_cons He Hra; [congruence|by eapply IH].
Qed.

(** C34: an allocated address is free to give out. It lies in a range that
    hands out addresses and whose tags the client matches; it is no range's
    router, not the first or last address of a class C block, not leased and
    not reserved for a host; and it did not answer a ping, unless pings are off,
    it was pinged in the last half minute, or too many were sent in that time. *)
Theorem address_allocate_sound cache a cache' :
  Forall cx_ok contexts -> allocate cache = (Some a, cache') ->
  (exists c, c ∈ contexts /\ no_pool c = false /\ context_filter_matches (cx_filter c) netids true = true /\
     (cx_start c <= cx_end c -> cx_start c <= a <= cx_end c)) /\
  may_lease contexts lease_db configs a /\ (in_use a = false \/ no_ping = true \/ loopback = true \/ pinged_enough now a cache').
Proof.
  intros Hok (tag & c & j & c0 & Hin & He & -> & Hj & Ht)%allocate_found; [|done]. apply try_taken in Ht as [Hc Hp].
  apply candidate_may_lease in Hc. split; [|done]. unfold context_eligible in He. apply andb_true_iff in He as [Hpool%negb_true_iff Hfil].
  exists c. split_and!; [done..| |].
  - unfold context_filter_matches in *. by destruct (_ =? 0)%nat.
  - intros Hle. rewrite Forall_forall in Hok. destruct (Hok c Hin). by apply nth_addr_in_range.
Qed.

(** The allocator finds an address whenever there is one: if some address
    of an eligible range may be leased and does not answer pings, an address is
    returned, whatever the cache of pings holds (consecutive allocation, which
    also passes over addresses pinged for others, apart). *)
Theorem address_allocate_complete cache c a :
  Forall cx_ok contexts -> consec_addr = false ->
  c ∈ contexts -> no_pool c = false -> context_filter_matches (cx_filter c) netids true = true ->
  cx_start c <= a <= cx_end c -> may_lease contexts lease_db configs a -> in_use a = false ->
  exists a' cache', allocate cache = (Some a', cache').
Proof.
  intros Hok Hcon Hin Hpool Hfil Hra Hml Hu. unfold address_allocate.
  destruct (scans false contexts cache) as [[a0|] c1]; [eauto|]. destruct (scans true contexts c1) as [[a0|] c2] eqn:E; [eauto|]. exfalso.
  eapply (scans_exhausted true contexts c1 c2 c a) in E as (c3 & c4 & Ht); [|done..| |].
  - apply try_refused in Ht; [congruence|by apply candidate_may_lease|done].
  - unfold context_eligible. by rewrite Hpool, Hfil.
  - unfold in_range. by rewrite !(proj2 (Z.leb_le _ _)) by lia.
Qed.

(** The loop over a range ends: it comes back to the address it started
    from after each address of the range, also for a range written backwards,
    so a larger bound on the number of rounds gives the same result. *)
Theorem address_scan_terminates c cache fuel : cx_ok c -> (range_size (cx_start c) (cx_end c) <= fuel)%nat ->
  scan_range contexts lease_db configs (sdbm_hash hwaddr) now loopback consec_addr no_ping in_use fuel
    (cx_start c) (cx_end c) (seed c) (seed c) cache =
  scan_range contexts lease_db configs (sdbm_hash hwaddr) now loopback consec_addr no_ping in_use (range_size (cx_start c) (cx_end c))
    (cx_start c) (cx_end c) (seed c) (seed c) cache.
Proof.
  intros Hc Hf. destruct (start_addr_nth c Hc) as (o & Ho & ->). destruct Hc as [Hs He]. rewrite (nth_pos0 _ _ o Ho) at 2 4.
  apply scan_fuel; [done..|lia| |]; pose proof (range_size_Z (cx_start c) (cx_end c)); lia.
Qed.
End Allocator.

(** ** Examples *)

(** A pool of four addresses; the first one is leased, the second answers. *)
Definition pool4 : list DhcpContext := [synthetic_pool_context 0x0A000005 0x0A000008].
Definition busy (a : Ipv4Addr) : bool := a =? 0x0A000006.
Definition client_mac : list u8 := [Byte.x02; Byte.x00; Byte.x00; Byte.x00; Byte.x00; Byte.x01].

Lemma pool4_ok : Forall cx_ok pool4.
Proof. by repeat constructor; vm_compute. Qed.

Lemma address_allocate_sound_witness :
  address_allocate (H := list_order) pool4 ex_db [] client_mac [] 0 false false false busy [] =
    (Some 0x0A000008, [mkPing 0x0A000008 0 (sdbm_hash client_mac)]) /\ may_lease pool4 ex_db [] 0x0A000008.
Proof.
  split; [by vm_compute|].
  refine (proj1 (proj2 (address_allocate_sound (H := list_order) pool4 ex_db [] client_mac [] 0 false false false busy [] 0x0A000008 _ pool4_ok _))).
  by vm_compute.
Defined.

Lemma address_allocate_complete_witness : exists a cache',
  address_allocate (H := list_order) pool4 ex_db [] client_mac [] 0 false false false busy [] = (Some a, cache').
Proof.
  apply (address_allocate_complete (H := list_order) pool4 ex_db [] client_mac [] 0 false false false busy []
    (synthetic_pool_context 0x0A000005 0x0A000008) 0x0A000008); [apply pool4_ok|done|unfold pool4; set_solver|done|done|cbn; lia| |done].
  apply candidate_may_lease. by vm_compute.
Defined.

Lemma address_scan_terminates_witness :
  range_size 0x0A000005 0x0A000008 = 4%nat /\
  scan_range pool4 ex_db [] (sdbm_hash client_mac) 0 false false false (fun _ => true) 100 0x0A000005 0x0A000008
    (start_addr (H := list_order) ex_db client_mac false (synthetic_pool_context 0x0A000005 0x0A000008))
    (start_addr (H := list_order) ex_db client_mac false (synthetic_pool_context 0x0A000005 0x0A000008)) [] = (None, []).
Proof.
  split; [done|].
  etransitivity; [apply (address_scan_terminates (H := list_order) pool4 ex_db [] client_mac 0 false false false (fun _ => true)
    (synthetic_pool_context 0x0A000005 0x0A000008) [] 100)|by vm_compute]; [by split; vm_compute|by vm_compute; lia].
Defined.

(** ** The echo request *)

Lemma fold_carry_2 sum : 0 <= sum < 2 ^ 17 -> fold_carry 3 sum = if sum <? 2 ^ 16 then sum else if sum <? 131071 then sum - 2 ^ 16 + 1 else 1.
Proof.
  intros H. assert (forall x, Z.land x 0xffff = x mod 2 ^ 16) as Hl by (intros x; exact (Z.land_ones x 16 ltac:(lia))).
  cbn [fold_carry]. rewrite !Hl, !Z.shiftr_div_pow2 by lia. zpow. destruct (Z.ltb_spec sum 65536).
  - by rewrite Z.div_small by lia.
  - assert (sum / 65536 = 1) as -> by dlia. assert (sum mod 65536 = sum - 65536) as -> by dlia. cbn [Z.eqb]. destruct (Z.ltb_spec sum 131071).
    + assert ((sum - 65536 + 1) / 65536 = 0) as -> by dlia. done.
    + assert (sum = 131071) as -> by lia. done.
Qed.

(** The checksum of an echo request is right: summing the packet with its
    checksum gives zero, and an answer with the same identifier (the request
    with the type of a reply, after an IPv4 header) is recognised. *)
Theorem icmp_echo_request_valid id : 0 <= id < 2 ^ 16 -> exists pkt, build_icmp_echo_request id = Val pkt /\ length pkt = 8%nat /\
  icmp_checksum pkt = Val 0 /\
  (forall hdr id', length hdr = 20%nat -> hdr !! 0%nat = Some Byte.x45 ->
     parse_icmp_echo_reply (hdr ++ <[0%nat := Byte.x00]> pkt) id' = (id =? id')).
Proof.
  intros Hid. unfold build_icmp_echo_request, icmp_checksum. cbn [to_be app word_sum take drop].
  assert (forall z, 0 <= z < 65536 -> u8z (z8 (z / 256)) * 256 + u8z (z8 z) = z) as Hw.
  { intros z Hz. rewrite !u8z_z8. dlia. }
  rewrite Hw by (zpow; lia). change (u8z Byte.x08 * 256 + u8z Byte.x00) with 2048. change (u8z Byte.x00 * 256 + u8z Byte.x00) with 0.
  rewrite (proj2 (Z.leb_gt (2 ^ 32) _)) by (zpow; lia). eexists. split; [reflexivity|]. split; [done|].
  rewrite fold_carry_2 by (zpow; lia). zpow. split.
  - cbn [word_sum]. change (u8z Byte.x08 * 256 + u8z Byte.x00) with 2048. change (u8z Byte.x00 * 256 + u8z Byte.x00) with 0.
    set (c := 65535 - _). assert (0 <= c < 65536 /\ (2048 + (c + (id + (0 + 0))) = 65535 \/ 2048 + (c + (id + (0 + 0))) = 131070)) as [Hc Hsum].
    { unfold c. destruct (Z.ltb_spec (2048 + (0 + (id + (0 + 0)))) 65536); [lia|].
      destruct (Z.ltb_spec (2048 + (0 + (id + (0 + 0)))) 131071); lia. }
    rewrite !Hw by lia. by destruct Hsum as [-> | ->].
  - intros hdr id' Hlen Hb. destruct hdr as [|b hdr]; [done|]. injection Hb as ->. injection Hlen as Hlen.
    unfold parse_icmp_echo_reply. cbn [app]. change (Z.to_nat (Z.land (u8z Byte.x45) 15 * 4)) with (S 19). cbn [drop].
    rewrite drop_app_length' by done. cbn [length]. rewrite length_app, Hlen. cbn [length Nat.add Nat.ltb Nat.leb insert list_insert lookup list_lookup take drop].
    rewrite bool_decide_true by done. change (of_be [Byte.x00; Byte.x00] =? 0) with true. cbn [andb]. f_equal.
    change ([z8 (id / 256); z8 id]) with (to_be 2 id). by rewrite of_be_to_be_small.
Qed.
