(* ===== verification/Rfc2131.v ===== *)
(** * DHCPv4 messages: src/src/rfc2131.rs

    The answers to the messages of a client, the options put into a reply, and
    the relay. The handlers take what the dispatcher found out (the client's
    reservation, the address of the allocator) and build replies; they do not
    see the lease database. *)

From Stdlib Require Import ZArith Lia String.
From stdpp Require Import base numbers list option gmap sets.
From S2P Require Import Prelude Types Hostname Util DhcpTypes DhcpOptions DhcpCommon Lease.

#[local] Open Scope Z_scope.

Record DhcpReply : Type := mkReply {
  rp_msg_type : DhcpMsgType;
  rp_yiaddr : Ipv4Addr;
  rp_options : list u8;
  rp_siaddr : Ipv4Addr;
  rp_giaddr : Ipv4Addr;
  rp_sname : option str;
  rp_file : option str;
  rp_ciaddr_override : option Ipv4Addr;
  rp_chaddr_override : option (list u8 * u8 * u8);
}.
Definition set_rp_options (v : list u8) (r : DhcpReply) : DhcpReply :=
  mkReply (rp_msg_type r) (rp_yiaddr r) v (rp_siaddr r) (rp_giaddr r) (rp_sname r) (rp_file r) (rp_ciaddr_override r) (rp_chaddr_override r).
Definition set_rp_boot (siaddr : Ipv4Addr) (sname file : option str) (r : DhcpReply) : DhcpReply :=
  mkReply (rp_msg_type r) (rp_yiaddr r) (rp_options r) siaddr (rp_giaddr r) sname file (rp_ciaddr_override r) (rp_chaddr_override r).

(** ** Replies *)

Definition option_msg_type (t : DhcpMsgType) : list u8 := [OPTION_MESSAGE_TYPE; z8 1; msg_type_code t].

Definition in_pool (addr start end_ : Ipv4Addr) : bool := (start <=? addr) && (addr <=? end_).

Definition pick_offer_addr (pool_start pool_end : Ipv4Addr) (existing_lease : option DhcpLease)
    (static_addr scanned_addr : option Ipv4Addr) : option Ipv4Addr :=
  match static_addr with
  | Some addr => Some addr
  | None =>
    match existing_lease with
    | Some lease => if in_pool (dl_addr lease) pool_start pool_end then Some (dl_addr lease) else scanned_addr
    | None => scanned_addr
    end
  end.

Definition build_reply_options (msg_type : DhcpMsgType) (server_id : Ipv4Addr) : list u8 :=
  option_msg_type msg_type ++ [OPTION_SERVER_IDENTIFIER; z8 4] ++ octets4 server_id ++ [OPTION_END].

Definition handle_discover (pkt : DhcpPacket) (pool_start pool_end : Ipv4Addr) (existing_lease : option DhcpLease)
    (server_id : Ipv4Addr) (static_addr scanned_addr : option Ipv4Addr) : option DhcpReply :=
  let! yiaddr := pick_offer_addr pool_start pool_end existing_lease static_addr scanned_addr in
  Some (mkReply Offer yiaddr (build_reply_options Offer server_id) server_id (p_giaddr pkt) None None None None).

Definition address_in_range (requested pool_start pool_end : Ipv4Addr) (static_addr : option Ipv4Addr) (reserved_for_other : bool) : bool :=
  negb reserved_for_other && match static_addr with Some addr => requested =? addr | None => in_pool requested pool_start pool_end end.

(** The rapid-commit option goes in at the first byte 255 of the options. *)
Definition make_rapid_commit_ack (reply : DhcpReply) (server_id pool_start pool_end : Ipv4Addr) (static_addr : option Ipv4Addr)
    (reserved_for_other : bool) : option DhcpReply :=
  if negb (address_in_range (rp_yiaddr reply) pool_start pool_end static_addr reserved_for_other) then None
  else
    let options := build_reply_options Ack server_id in
    let options := match find_byte OPTION_END options with
                   | Some i => take i options ++ [OPTION_RAPID_COMMIT; z8 0] ++ drop i options
                   | None => options
                   end in
    Some (mkReply Ack (rp_yiaddr reply) options (rp_siaddr reply) (rp_giaddr reply) (rp_sname reply) (rp_file reply)
            (rp_ciaddr_override reply) (rp_chaddr_override reply)).

(** Option 50, or the client's address when it renews. *)
Definition requested_addr (pkt : DhcpPacket) : option Ipv4Addr :=
  or_else (find_requested_ip (p_options pkt)) (if p_ciaddr pkt =? UNSPECIFIED then None else Some (p_ciaddr pkt)).

Definition handle_request (pkt : DhcpPacket) (pool_start pool_end server_id : Ipv4Addr) (static_addr : option Ipv4Addr)
    (reserved_for_other : bool) : option DhcpReply :=
  let! requested := requested_addr pkt in
  if address_in_range requested pool_start pool_end static_addr reserved_for_other then
    Some (mkReply Ack (default requested static_addr) (build_reply_options Ack server_id) server_id (p_giaddr pkt) None None None None)
  else Some (mkReply Nak UNSPECIFIED (build_reply_options Nak server_id) UNSPECIFIED (p_giaddr pkt) None None None None).

Definition handle_bootp (pkt : DhcpPacket) (yiaddr server_id : Ipv4Addr) : DhcpReply :=
  mkReply Bootp yiaddr [] server_id (p_giaddr pkt) None None None None.

Definition handle_inform (pkt : DhcpPacket) (server_id : Ipv4Addr) : option DhcpReply :=
  if p_ciaddr pkt =? UNSPECIFIED then None
  else Some (mkReply Ack UNSPECIFIED (build_reply_options Ack server_id) server_id (p_giaddr pkt) None None None None).

Definition handle_release (pkt : DhcpPacket) (pool_start pool_end : Ipv4Addr) : bool := in_pool (p_ciaddr pkt) pool_start pool_end.
Definition handle_decline (pkt : DhcpPacket) (pool_start pool_end : Ipv4Addr) : bool :=
  match find_requested_ip (p_options pkt) with Some declined => in_pool declined pool_start pool_end | None => false end.

(** ** Configured options *)

(** [raw.chunks(n)]. *)
Fixpoint chunks (fuel : nat) (n : nat) (l : list u8) : list (list u8) :=
  match fuel, l with
  | S f, _ :: _ => take n l :: chunks f n (drop n l)
  | _, _ => []
  end.

Definition opt_raw (opt : DhcpOpt) : list u8 := default [] (o_val opt).
(** Whether the data is a string that gets a terminator. *)
Definition terminated (opt : DhcpOpt) (null_term : bool) : bool := flag_contains (o_flags opt) DhOptFlags.STRING && null_term.

(** The length [do_opt] computes. *)
Definition do_opt_len (opt : DhcpOpt) (null_term : bool) : nat :=
  let len := length (opt_raw opt) in if terminated opt null_term && (len <? 255)%nat then S len else len.

(** What [do_opt] leaves in a zeroed buffer of that length: zero addresses
    stand for the server's own one; a terminator may take the place of the last
    byte of a string of 255. *)
Definition local_chunk (l : Ipv4Addr) (chunk : list u8) : list u8 :=
  if decide (chunk = replicate 4 Byte.x00) then octets4 l else chunk.
Definition do_opt_data (opt : DhcpOpt) (local : option Ipv4Addr) (null_term : bool) : list u8 :=
  let raw := opt_raw opt in
  let len := do_opt_len opt null_term in
  let pad := replicate (len - length raw) Byte.x00 in
  if (len =? 0)%nat then []
  else match local with
       | Some l => if flag_contains (o_flags opt) DhOptFlags.ADDR
                   then concat (local_chunk l <$> chunks (length raw) 4 raw) ++ pad
                   else if terminated opt null_term then <[(len - 1)%nat := Byte.x00]> (raw ++ pad) else raw ++ pad
       | None => if terminated opt null_term then <[(len - 1)%nat := Byte.x00]> (raw ++ pad) else raw ++ pad
       end.

(** [haystack.windows(needle.len()).any(|w| w == needle)], for a needle that is
    not empty. *)
Definition has_window (haystack needle : list u8) : bool :=
  existsb (fun i => bool_decide (take (length needle) (drop i haystack) = needle)) (seq 0 (length haystack)).

Definition match_vendor_opt (vc_data : option (list u8)) (opt : DhcpOpt) : DhcpOpt :=
  let opt := set_o_flags (flag_del (o_flags opt) DhOptFlags.VENDOR_MATCH) opt in
  if negb (flag_contains (o_flags opt) DhOptFlags.VENDOR) then opt
  else match vc_data with
       | None => opt
       | Some haystack =>
         let needle := default [] (o_vendor_class opt) in
         if (length needle =? 0)%nat || has_window haystack needle
         then set_o_flags (flag_add (o_flags opt) DhOptFlags.VENDOR_MATCH) opt else opt
       end.
Definition match_vendor_opts (vc_data : option (list u8)) (opts : list DhcpOpt) : list DhcpOpt := match_vendor_opt vc_data <$> opts.

(** [o.opt as u8], [len as u8]. *)
Definition encap_item (null_term : bool) (o : DhcpOpt) : list u8 :=
  z8 (o_opt o) :: z8 (Z.of_nat (do_opt_len o null_term)) :: do_opt_data o None null_term.
Definition do_encap_opts (config_opts : list DhcpOpt) (encap : u8) (flag : Z) (opts : list u8) (null_term : bool) : bool * list u8 :=
  let matching := List.filter (fun o => has (o_flags o) flag) config_opts in
  if (length matching =? 0)%nat then (false, opts)
  else
    let inner := concat (encap_item null_term <$> matching) ++ [OPTION_END] in
    (true, fold_left (fun opts chunk => append_opt opts encap chunk) (chunks (length inner) 255 inner) opts).

Definition prune_vendor_opt (netid : list DhcpNetid) (opt : DhcpOpt) : DhcpOpt :=
  if flag_contains (o_flags opt) DhOptFlags.VENDOR_MATCH && negb (match_netid netid (o_netid opt))
  then set_o_flags (flag_del (o_flags opt) DhOptFlags.VENDOR_MATCH) opt else opt.
Definition prune_vendor_opts (opts : list DhcpOpt) (netid : list DhcpNetid) : bool * list DhcpOpt :=
  (existsb (fun opt => flag_contains (o_flags opt) DhOptFlags.VENDOR_MATCH && match_netid netid (o_netid opt)
                       && flag_contains (o_flags opt) DhOptFlags.FORCE) opts,
   prune_vendor_opt netid <$> opts).

Definition pxe_misc (opts : list u8) (uuid : option (list u8)) (pxevendor : option str) : list u8 :=
  let opts := append_opt opts OPTION_VENDOR_ID (default (bs "PXEClient") pxevendor) in
  match uuid with
  | Some u => if (length u =? 17)%nat then append_opt opts OPTION_PXE_UUID u else opts
  | None => opts
  end.

(** ** The options of a reply *)

Record DoOptionsConfig : Type := mkDoOptions {
  do_context : option DhcpContext;
  do_req_options : option (list u8);
  do_hostname : option str;
  do_domain : option str;
  do_netid : list DhcpNetid;
  do_subnet_addr : option Ipv4Addr;
  do_fqdn_flags : u8;
  do_null_term : bool;
  do_pxe_arch : Z;
  do_uuid : option (list u8);
  do_vendor_class : option (list u8);
  do_lease_time : Z;
  do_fuzz : Z;
  do_pxevendor : option str;
  do_config_opts : list DhcpOpt;
  do_dns_port : Z;
  do_leasequery : bool;
}.

Definition U32_MAX : Z := 4294967295.

(** [i32::from(code)] against [o.opt]; a usable value of the option. *)
Definition timer_override (code : u8) (lt t : Z) (o : DhcpOpt) : Z :=
  if o_opt o =? u8z code then
    match o_val o with
    | Some v => if (4 <=? length v)%nat then let h := of_be (take 4 v) in if (2 <? h) && (h <? lt) then h else t else t
    | None => t
    end
  else t.
(** [while fuzz > t1 / 8 { fuzz /= 2; }]: sixteen halvings bring a [u16] to 0. *)
Fixpoint fuzz_loop (fuel : nat) (fuzz t1 : Z) : Z :=
  match fuel with
  | O => fuzz
  | S f => if t1 / 8 <? fuzz then fuzz_loop f (fuzz / 2) t1 else fuzz
  end.
Definition timers (lt fuzz : Z) (config_opts : list DhcpOpt) : Z * Z :=
  let t1 := fold_left (timer_override OPTION_T1 lt) config_opts (lt / 2) in
  let t2 := fold_left (timer_override OPTION_T2 lt) config_opts (lt * 7 / 8) in
  let t1 := if t2 <=? t1 then Z.max 0 (t2 - 1) else t1 in
  let fuzz := fuzz_loop 17 fuzz t1 in
  (Z.max 0 (t1 - fuzz), Z.max 0 (t2 - fuzz)).
Definition put_timers (cfg : DoOptionsConfig) (opts : list u8) : list u8 :=
  if do_lease_time cfg =? U32_MAX then opts
  else let '(t1, t2) := timers (do_lease_time cfg) (do_fuzz cfg) (do_config_opts cfg) in
       option_put (option_put opts OPTION_T1 t1 4) OPTION_T2 t2 4.

(** An option put unless it is there already. *)
Definition put_missing (cond : bool) (code : u8) (val : Z) (opts : list u8) : list u8 :=
  if cond && negb (has_opt_raw opts code) then option_put opts code val 4 else opts.
Definition put_context (cfg : DoOptionsConfig) (opts : list u8) : list u8 :=
  match do_context cfg with
  | None => opts
  | Some ctx =>
    let asked c := in_list (do_req_options cfg) c in
    let opts := put_missing (negb (do_leasequery cfg) || asked OPTION_NETMASK) OPTION_NETMASK (cx_netmask ctx) opts in
    let opts := put_missing (negb (cx_broadcast ctx =? UNSPECIFIED) && (negb (do_leasequery cfg) || asked OPTION_BROADCAST))
                  OPTION_BROADCAST (cx_broadcast ctx) opts in
    let opts := put_missing (negb (cx_router ctx =? UNSPECIFIED) && asked OPTION_ROUTER) OPTION_ROUTER (cx_router ctx) opts in
    put_missing ((do_dns_port cfg =? 53) && asked OPTION_DNSSERVER) OPTION_DNSSERVER (cx_local ctx) opts
  end.

Definition put_names (cfg : DoOptionsConfig) (opts : list u8) : list u8 :=
  let put_name (n : option str) code opts :=
    match n with
    | Some s => if in_list (do_req_options cfg) code && negb (has_opt_raw opts code) then option_put_string opts code s (do_null_term cfg) else opts
    | None => opts
    end in
  let opts := match do_subnet_addr cfg with Some sa => option_put opts OPTION_SUBNET_SELECT sa 4 | None => opts end in
  let opts := put_name (do_domain cfg) OPTION_DOMAINNAME opts in
  let opts := put_name (do_hostname cfg) OPTION_HOSTNAME opts in
  match do_hostname cfg with
  | Some hostname =>
    if bool_decide (do_fqdn_flags cfg = Byte.x00) then opts
    else
      let fqdn := hostname ++ match do_domain cfg with Some d => bs "." ++ d | None => [] end in
      append_opt opts OPTION_CLIENT_FQDN
        ([z8 (Z.land (u8z (do_fqdn_flags cfg)) 0x0f); Byte.xff; Byte.xff] ++ fqdn ++ (if do_null_term cfg then [Byte.x00] else []))
  | None => opts
  end.

Definition skip_set : list u8 :=
  [OPTION_CLIENT_FQDN; OPTION_MAXMESSAGE; OPTION_OVERLOAD; OPTION_PAD; OPTION_END; OPTION_T1; OPTION_T2].
Definition default_set : list u8 :=
  [OPTION_NETMASK; OPTION_BROADCAST; OPTION_ROUTER; OPTION_DNSSERVER; OPTION_DOMAINNAME; OPTION_HOSTNAME].

(** Whether a configured option is sent. *)
Definition opt_wanted (cfg : DoOptionsConfig) (opt : DhcpOpt) : bool :=
  let code := z8 (o_opt opt) in
  flag_contains (o_flags opt) DhOptFlags.TAGOK
  && ((flag_contains (o_flags opt) DhOptFlags.FORCE && negb (do_leasequery cfg)) || in_list (do_req_options cfg) code)
  && negb (bool_decide (code ∈ skip_set))
  && negb (bool_decide (code = OPTION_VENDOR_ID) && negb (do_pxe_arch cfg =? -1))
  && negb ((length (opt_raw opt) =? 0)%nat && bool_decide (code ∈ default_set)).
Definition put_config_opt (cfg : DoOptionsConfig) (opts : list u8) (opt : DhcpOpt) : list u8 :=
  if opt_wanted cfg opt then
    let code := z8 (o_opt opt) in
    let nul := do_null_term cfg || bool_decide (code = OPTION_SNAME) || bool_decide (code = OPTION_FILENAME) in
    pop_end opts ++ code :: z8 (Z.of_nat (do_opt_len opt nul)) :: do_opt_data opt (cx_local <$> do_context cfg) nul ++ [OPTION_END]
  else opts.

(** The options, and the configured options with their marks. *)
Definition do_options (opts : list u8) (cfg : DoOptionsConfig) : list u8 * list DhcpOpt :=
  let opts := put_names cfg (put_context cfg (put_timers cfg opts)) in
  let config_opts := match_vendor_opts (do_vendor_class cfg) (do_config_opts cfg) in
  let opts := fold_left (put_config_opt cfg) config_opts opts in
  let '(force_encap, config_opts) := prune_vendor_opts config_opts (do_netid cfg) in
  let opts := if negb (do_leasequery cfg)
                 && (force_encap || in_list (do_req_options cfg) OPTION_VENDOR_CLASS_OPT || in_list (do_req_options cfg) OPTION_VENDOR_ID)
              then snd (do_encap_opts config_opts OPTION_VENDOR_CLASS_OPT DhOptFlags.VENDOR_MATCH opts (do_null_term cfg)) else opts in
  (if do_pxe_arch cfg =? -1 then opts else pxe_misc opts (do_uuid cfg) (do_pxevendor cfg), config_opts).

(** ** Lease queries *)

Definition calc_time (context_time : Z) (config_time requested : option Z) : Z :=
  let time := default context_time config_time in
  match requested with
  | Some req => let req := if req <? 120 then 120 else req in
                if (time =? U32_MAX) || (negb (req =? U32_MAX) && (req <? time)) then req else time
  | None => time
  end.

(** [exp.duration_since(now)] in seconds, as a [u32]; zero for a lease that
    has run out. *)
Definition remaining_secs (now : SystemTime) (lease : DhcpLease) : option Z :=
  (fun exp => if exp <? now then 0 else ((exp - now) / 1000000000) mod 2 ^ 32) <$> dl_expires lease.

Definition leasequery_times (req_options : option (list u8)) (remaining : option Z) (full : Z) (options : list u8) : list u8 :=
  let asked c := in_list req_options c in
  let options := if asked OPTION_LEASE_TIME then option_put options OPTION_LEASE_TIME (default U32_MAX remaining) 4 else options in
  match remaining with
  | None => options
  | Some r =>
    let options := if asked OPTION_T1 && (full / 2 <? r) then option_put options OPTION_T1 (r - full / 2) 4 else options in
    let options := if asked OPTION_T2 && (full / 8 <? r) then option_put options OPTION_T2 (r - full / 8) 4 else options in
    if asked OPTION_LAST_TRANSACTION && (r <? full) then option_put options OPTION_LAST_TRANSACTION (full - r) 4 else options
  end.

Definition handle_leasequery (now : SystemTime) (pkt : DhcpPacket) (reply_type : DhcpMsgType) (lease : option DhcpLease)
    (req_options : option (list u8)) (context : option DhcpContext) (filtered_tags : list DhcpNetid)
    (config_opts : list DhcpOpt) (domain : option str) (full_lease_time : Z) : DhcpReply :=
  let options := option_put [] OPTION_MESSAGE_TYPE (u8z (msg_type_code reply_type)) 1 in
  let reply options ci ch := mkReply reply_type UNSPECIFIED options UNSPECIFIED (p_giaddr pkt) None None ci ch in
  match lease with
  | None => reply options (if decide (reply_type = LeaseUnknown) then Some UNSPECIFIED else None) None
  | Some lease =>
    let options := match dl_clid lease with
                   | Some clid => if in_list req_options OPTION_CLIENT_ID then option_put_raw options OPTION_CLIENT_ID clid else options
                   | None => options
                   end in
    let options := leasequery_times req_options (remaining_secs now lease) full_lease_time options in
    let cfg := mkDoOptions context req_options (dl_hostname lease) domain filtered_tags None Byte.x00 false (-1) None
                 (dl_vendorclass lease) U32_MAX 0 None config_opts 53 true in
    let options := fst (do_options options cfg) in
    let options := match dl_agent_id lease with
                   | Some agent_id => if in_list req_options OPTION_AGENT_ID then option_put_raw options OPTION_AGENT_ID agent_id else options
                   | None => options
                   end in
    let hw_len := Nat.min (dl_hwaddr_len lease) DHCP_CHADDR_MAX in
    reply options (Some (dl_addr lease)) (Some (padded16 (hw_bytes lease), z8 (Z.of_nat hw_len), z8 (dl_hwaddr_type lease)))
  end.

(** ** Small helpers *)

Definition server_id (context_local override_addr : option Ipv4Addr) (fallback : Ipv4Addr) : Ipv4Addr :=
  let specified o := match o with Some a => if a =? UNSPECIFIED then None else Some a | None => None end in
  default fallback (or_else (specified override_addr) (specified context_local)).

Definition sanitise (data : list u8) : str := List.filter (fun b => (0x20 <=? u8z b) && (u8z b <? 0x7f)) data.

Definition extended_hwaddr (hwtype : u8) (hwaddr : list u8) (clid : option (list u8)) : list u8 :=
  match hwaddr, clid with
  | [], Some clid =>
    if (3 <? length clid)%nat then
      match clid with
      | t :: rest => if bool_decide (t = hwtype) || (bool_decide (t = z8 27) && bool_decide (hwtype = z8 24)) then rest else clid
      | [] => clid
      end
    else hwaddr
  | _, _ => hwaddr
  end.

Definition is_pxe_client (vendor_class : option (list u8)) : bool :=
  match vendor_class with Some vc => has_prefix vc (bs "PXEClient") | None => false end.

Definition find_boot (boot_configs : list DhcpBoot) (netid : option str) : option DhcpBoot :=
  or_else (let! tag := netid in List.find (fun b => existsb (fun n => bool_decide (net n = tag)) (b_netid b)) boot_configs)
          (List.find (fun b => (length (b_netid b) =? 0)%nat) boot_configs).

Definition clear_packet (pkt : DhcpPacket) : DhcpPacket :=
  mkDhcpPacket (p_op pkt) (p_htype pkt) (p_hlen pkt) (p_hops pkt) (p_xid pkt) (p_secs pkt) (p_flags pkt) (p_ciaddr pkt) (p_yiaddr pkt)
    UNSPECIFIED (p_giaddr pkt) (p_chaddr pkt) (replicate 64 Byte.x00) (replicate 128 Byte.x00) (take 4 (p_options pkt)).

(** ** Relaying *)

Definition relay_client_to_server (pkt : DhcpPacket) (relay_addr : Ipv4Addr) : bool * DhcpPacket :=
  if 16 <=? u8z (p_hops pkt) then (false, pkt)
  else
    let pkt := set_p_hops (z8 (u8z (p_hops pkt) + 1)) pkt in
    let pkt := if p_giaddr pkt =? UNSPECIFIED then set_p_giaddr relay_addr pkt else pkt in
    (true, set_p_op BOOTREQUEST pkt).

Definition relay_server_to_client (pkt : DhcpPacket) : option Ipv4Addr * DhcpPacket :=
  if p_giaddr pkt =? UNSPECIFIED then (None, pkt) else (Some (p_giaddr pkt), set_p_op BOOTREPLY pkt).

Record RelayForward : Type := mkForward { fw_dest : Ipv4Addr; fw_port : Z; fw_from : Ipv4Addr; fw_packet : DhcpPacket }.

(** [iface_index as u32] in network order. *)
Definition agent_info (local4 : Ipv4Addr) (unicast : bool) (iface_index : Z) : list u8 :=
  [SUBOPT_SUBNET_SELECT; z8 4] ++ octets4 local4 ++ [SUBOPT_SERVER_OR; z8 4] ++ octets4 local4
  ++ [SUBOPT_FLAGS; z8 1; if unicast then z8 0x80 else z8 0x00] ++ [SUBOPT_REMOTE_ID; z8 4] ++ to_be 4 iface_index.

Section Relay.
(** The lookups of an interface's addresses. *)
Context (resolve_uplink resolve_broadcast : str -> option Ipv4Addr).

(** The address a relay sends from and the packet it sends, unless the request
    is not for it; a split relay looks its uplink address up. *)
Definition relay_stamp (iface_addr : Ipv4Addr) (iface_index : Z) (pkt : DhcpPacket) (unicast : bool) (relay : DhcpRelay)
  : DhcpRelay * option (Ipv4Addr * DhcpPacket) :=
  match as_ipv4 (ry_local_addr relay) with
  | None => (relay, None)
  | Some local4 =>
    let mess := set_p_hops (z8 (u8z (p_hops pkt) + 1)) pkt in
    if (ry_split_mode relay =? 0) && negb (ry_iface_index relay =? 0) && (ry_iface_index relay =? iface_index) then
      (relay,
       if p_giaddr pkt =? UNSPECIFIED then Some (local4, set_p_giaddr local4 mess)
       else if p_giaddr pkt =? local4 then None else Some (local4, mess))
    else if negb (ry_split_mode relay =? 0) && (local4 =? iface_addr) then
      let found := match ry_interface relay with
                   | Some iface => match resolve_uplink iface with
                                   | Some a => Some (set_ry_uplink_addr (Addr4 a) relay)
                                   | None => None
                                   end
                   | None => Some relay
                   end in
      match found with
      | None => (relay, None)
      | Some relay =>
        (relay,
         let! uplink4 := as_ipv4 (ry_uplink_addr relay) in
         if p_giaddr pkt =? UNSPECIFIED then
           let mess := set_p_giaddr uplink4 mess in
           Some (uplink4, set_p_options (option_put_raw (p_options mess) OPTION_AGENT_ID (agent_info local4 unicast iface_index)) mess)
         else if p_giaddr pkt =? uplink4 then None else Some (uplink4, mess))
      end
    else (relay, None)
  end.

Definition relay_dest (relay : DhcpRelay) : option Ipv4Addr :=
  let! server4 := as_ipv4 (ry_server_addr relay) in
  if server4 =? UNSPECIFIED then (let! iface := ry_interface relay in resolve_broadcast iface) else Some server4.

Definition relay_one (iface_addr : Ipv4Addr) (iface_index : Z) (pkt : DhcpPacket) (unicast : bool) (relay : DhcpRelay)
  : DhcpRelay * list RelayForward :=
  let '(relay, stamped) := relay_stamp iface_addr iface_index pkt unicast relay in
  (relay,
   match stamped with
   | Some (from4, mess) => match relay_dest relay with
                           | Some dest => [mkForward dest (ry_port relay mod 2 ^ 16) from4 mess]
                           | None => []
                           end
   | None => []
   end).

(** The forwarded packets, and the relays with the uplinks found. *)
Definition relay_upstream4 (iface_addr : Ipv4Addr) (iface_index : Z) (pkt : DhcpPacket) (unicast : bool) (relays : list DhcpRelay)
  : list RelayForward * list DhcpRelay :=
  if negb (bool_decide (p_op pkt = BOOTREQUEST)) || (20 <? u8z (p_hops pkt)) then ([], relays)
  else let out := relay_one iface_addr iface_index pkt unicast <$> relays in (concat (snd <$> out), fst <$> out).
End Relay.

(** [remote.uint(0, 4) as i32]. *)
Definition as_i32 (z : Z) : Z := if z <? 2 ^ 31 then z else z - 2 ^ 32.

(** The agent information is cut off: the end marker takes the place of its
    code, zeros the place of its data. *)
Definition cut_agent_info (options : list u8) (idx len : nat) : list u8 :=
  let start := S idx in
  let end_ := Nat.min (start + len + 2) (length options) in
  take idx options ++ [OPTION_END] ++ replicate (end_ - start) Byte.x00 ++ drop end_ options.

(** The interface of one relay, and the options with the agent information cut
    off. *)
Definition relay_return (giaddr : Ipv4Addr) (relay : DhcpRelay) (options : list u8) : outcome (Z * list u8) :=
  if negb (ry_split_mode relay =? 0) then
    match as_ipv4 (ry_uplink_addr relay) with
    | Some uplink4 =>
      if giaddr =? uplink4 then
        let# opt := find_dhcp_option options OPTION_AGENT_ID 1 in
        match opt with
        | Some opt =>
          let# remote := find_dhcp_option (or_data opt) SUBOPT_REMOTE_ID 4 in
          Val (match remote with Some r => as_i32 (option_uint r 0 4) | None => 0 end,
               cut_agent_info options (or_index opt) (length (or_data opt)))
        | None => Val (0, options)
        end
      else Val (0, options)
    | None => Val (0, options)
    end
  else Val (match as_ipv4 (ry_local_addr relay) with
            | Some local4 => if giaddr =? local4 then ry_iface_index relay else 0
            | None => 0
            end, options).

Definition relay_matches_iface (relay : DhcpRelay) (arrival_interface : option str) : bool :=
  match ry_interface relay, arrival_interface with
  | None, _ => true
  | Some pattern, Some actual => wildcard_match pattern actual
  | Some _, None => false
  end.

Fixpoint relay_reply_loop (giaddr : Ipv4Addr) (relays : list DhcpRelay) (arrival_interface : option str) (options : list u8)
  : outcome (Z * list u8) :=
  match relays with
  | [] => Val (0, options)
  | relay :: rest =>
    let# (return_iface, options) := relay_return giaddr relay options in
    if negb (return_iface =? 0) && relay_matches_iface relay arrival_interface then Val (return_iface, options)
    else relay_reply_loop giaddr rest arrival_interface options
  end.
Definition relay_reply4 (pkt : DhcpPacket) (relays : list DhcpRelay) (arrival_interface : option str) : outcome (Z * DhcpPacket) :=
  if (p_giaddr pkt =? UNSPECIFIED) || negb (bool_decide (p_op pkt = BOOTREPLY)) then Val (0, pkt)
  else let# (i, options) := relay_reply_loop (p_giaddr pkt) relays arrival_interface (p_options pkt) in Val (i, set_p_options options pkt).

(** ** Replies are well formed: proofs *)

Create HintDb dhcp.

(** A well-formed area that begins with the options of [l]. *)
Definition carries (l : list tlv) (opts : list u8) : Prop := exists l', repr opts (l ++ l').

Lemma carries_refl opts l : repr opts l -> carries l opts.
Proof. intros Hr. exists []. by rewrite app_nil_r. Qed.
Lemma carries_snoc l opts opts' e : carries l opts -> (forall l0, repr opts l0 -> repr opts' (l0 ++ [e])) -> carries l opts'.
Proof. intros (l' & Hr) Hs. exists (l' ++ [e]). rewrite app_assoc. by apply Hs. Qed.
Lemma carries_put l c val len opts : c <> OPTION_PAD -> c <> OPTION_END -> (len <= 255)%nat -> carries l opts -> carries l (option_put opts c val len).
Proof. intros Hp He Hl Hc. eapply carries_snoc; [exact Hc|]. intros l0 Hr. by apply option_put_repr. Qed.
Lemma carries_put4 l c val opts : c <> OPTION_PAD -> c <> OPTION_END -> carries l opts -> carries l (option_put opts c val 4).
Proof. intros. apply carries_put; [done..|lia|done]. Qed.
Lemma carries_put_raw l c d opts : c <> OPTION_PAD -> c <> OPTION_END -> carries l opts -> carries l (option_put_raw opts c d).
Proof. intros Hp He Hc. eapply carries_snoc; [exact Hc|]. intros l0 Hr. by apply option_put_raw_repr. Qed.
Lemma carries_put_string l c s nt opts : c <> OPTION_PAD -> c <> OPTION_END -> carries l opts -> carries l (option_put_string opts c s nt).
Proof. intros Hp He Hc. eapply carries_snoc; [exact Hc|]. intros l0 Hr. by apply option_put_string_repr. Qed.
Lemma carries_append l c d opts : c <> OPTION_PAD -> c <> OPTION_END -> (length d <= 255)%nat -> carries l opts -> carries l (append_opt opts c d).
Proof. intros Hp He Hl Hc. eapply carries_snoc; [exact Hc|]. intros l0 Hr. by apply append_opt_repr. Qed.
Lemma carries_if l (b : bool) x y : carries l x -> carries l y -> carries l (if b then x else y).
Proof. by destruct b. Qed.
Lemma carries_fold {A} l (f : list u8 -> A -> list u8) (xs : list A) opts :
  (forall o x, x ∈ xs -> carries l o -> carries l (f o x)) -> carries l opts -> carries l (fold_left f xs opts).
Proof.
  revert opts. induction xs as [|x xs IH]; intros opts Hf Hc; [done|]. cbn [fold_left]. apply IH; [|apply Hf; [set_solver|done]].
  intros o y Hy. apply Hf. set_solver.
Qed.
Lemma carries_put_missing l b c val opts : c <> OPTION_PAD -> c <> OPTION_END -> carries l opts -> carries l (put_missing b c val opts).
Proof. intros. unfold put_missing. apply carries_if; [by apply carries_put4|done]. Qed.

#[export] Hint Resolve carries_refl carries_put4 carries_put_raw carries_put_string carries_append carries_if carries_put_missing : dhcp.

(** Go through the options that are put one after the other. *)
Ltac carry := repeat first
  [ assumption
  | apply carries_put_missing; [done|done|] | apply carries_put4; [done|done|] | apply carries_put_raw; [done|done|]
  | apply carries_put_string; [done|done|] | apply carries_if | case_match ].

Lemma carries_timers l cfg opts : carries l opts -> carries l (put_timers cfg opts).
Proof. intros Hc. unfold put_timers. carry. Qed.
Lemma carries_context l cfg opts : carries l opts -> carries l (put_context cfg opts).
Proof. intros Hc. unfold put_context. carry. Qed.
Lemma carries_names l cfg opts : do_fqdn_flags cfg = Byte.x00 -> carries l opts -> carries l (put_names cfg opts).
Proof. intros Hf Hc. unfold put_names. rewrite Hf, bool_decide_true by done. carry. Qed.

(** ** The data of a configured option *)

Lemma chunks_concat n l fuel : (0 < n)%nat -> (length l <= fuel)%nat -> concat (chunks fuel n l) = l.
Proof.
  intros Hn. revert l. induction fuel as [|fuel IH]; intros l Hl; destruct l as [|x l]; try done; [cbn in Hl; lia|].
  cbn [chunks concat]. rewrite IH; [apply take_drop|]. rewrite length_drop. cbn [length] in *. lia.
Qed.
Lemma chunks_small n l fuel : Forall (fun c => length c <= n)%nat (chunks fuel n l).
Proof.
  revert l. induction fuel as [|fuel IH]; intros l; destruct l as [|x l]; try constructor; [|apply IH]. rewrite length_take. lia.
Qed.

Lemma length_local_chunk l c : length (local_chunk l c) = length c.
Proof. unfold local_chunk. destruct (decide _) as [->|]; [apply length_octets4|done]. Qed.

Lemma length_concat_fmap {A} (f : list A -> list A) ls : (forall c, length (f c) = length c) -> length (concat (f <$> ls)) = length (concat ls).
Proof. intros Hf. induction ls as [|c ls IH]; [done|]. rewrite fmap_cons. cbn [concat]. by rewrite !length_app, Hf, IH. Qed.

Lemma length_do_opt opt local nt : length (do_opt_data opt local nt) = do_opt_len opt nt.
Proof.
  unfold do_opt_data. destruct (Nat.eqb_spec (do_opt_len opt nt) 0) as [E|E]; [done|].
  assert (length (opt_raw opt) + length (replicate (do_opt_len opt nt - length (opt_raw opt)) Byte.x00) = do_opt_len opt nt)%nat as Hl.
  { rewrite length_replicate. unfold do_opt_len. destruct (_ && _); lia. }
  assert (length (if terminated opt nt then <[(do_opt_len opt nt - 1)%nat := Byte.x00]> (opt_raw opt ++ replicate (do_opt_len opt nt - length (opt_raw opt)) Byte.x00)
    else opt_raw opt ++ replicate (do_opt_len opt nt - length (opt_raw opt)) Byte.x00) = do_opt_len opt nt) as H1.
  { destruct (terminated opt nt); rewrite ?length_insert, length_app; exact Hl. }
  destruct local as [l|]; [|exact H1]. destruct (flag_contains _ _); [|exact H1].
  rewrite length_app, length_concat_fmap, chunks_concat by (lia || apply length_local_chunk). exact Hl.
Qed.

(** Options whose data fits the length byte. *)
Definition opt_fits (o : DhcpOpt) : Prop := (length (opt_raw o) <= 255)%nat.
Lemma do_opt_len_fits o nt : opt_fits o -> (do_opt_len o nt <= 255)%nat.
Proof. unfold opt_fits, do_opt_len. intros H. destruct (_ && _) eqn:E; [|done]. apply andb_true_iff in E as [_ E%Nat.ltb_lt]. lia. Qed.

Lemma carries_config_opt l cfg o opts : opt_fits o -> carries l opts -> carries l (put_config_opt cfg opts o).
Proof.
  intros Hf Hc. unfold put_config_opt. destruct (opt_wanted cfg o) eqn:Hw; [|done].
  set (nul := do_null_term cfg || _ || _). set (local := cx_local <$> do_context cfg).
  rewrite <- (length_do_opt o local nul). unfold opt_wanted in Hw. rewrite !andb_true_iff in Hw. destruct Hw as [[[_ Hs] _] _].
  apply negb_true_iff, bool_decide_eq_false in Hs. apply (carries_snoc _ _ _ (z8 (o_opt o), do_opt_data o local nul) Hc).
  intros l0 Hr. apply (repr_snoc opts l0 (z8 (o_opt o), do_opt_data o local nul) Hr).
  unfold tlv_ok. cbn [fst snd]. rewrite length_do_opt. split_and!; [intros E; apply Hs; rewrite E; unfold skip_set; set_solver..|by apply do_opt_len_fits].
Qed.

Lemma carries_encap l config_opts flag nt opts : carries l opts -> carries l (snd (do_encap_opts config_opts OPTION_VENDOR_CLASS_OPT flag opts nt)).
Proof.
  intros Hc. unfold do_encap_opts. destruct (_ =? 0)%nat; [done|]. cbn [snd]. apply carries_fold; [|done]. intros o c Hin Ho.
  apply carries_append; [done..| |done]. pose proof (chunks_small 255 (concat (encap_item nt <$> List.filter (fun o => has (o_flags o) flag) config_opts) ++ [OPTION_END])
    (length (concat (encap_item nt <$> List.filter (fun o => has (o_flags o) flag) config_opts) ++ [OPTION_END]))) as Hs.
  rewrite Forall_forall in Hs. by apply Hs.
Qed.

(** The marks of an option do not change its data. *)
Definition same_vals (xs ys : list DhcpOpt) : Prop := o_val <$> ys = o_val <$> xs.
Lemma same_vals_fmap f xs : (forall o, o_val (f o) = o_val o) -> same_vals xs (f <$> xs).
Proof. intros Hf. unfold same_vals. rewrite <- list_fmap_compose. apply list_fmap_ext. intros _ o _. apply Hf. Qed.
#[global] Instance same_vals_trans : Transitive same_vals.
Proof. intros x y z H1 H2. unfold same_vals in *. congruence. Qed.

Lemma same_vals_fits xs ys : same_vals xs ys -> Forall opt_fits xs -> Forall opt_fits ys.
Proof.
  unfold same_vals. intros Hs Hf. set (P := fun v : option (list u8) => (length (default [] v) <= 255)%nat).
  assert (forall l, Forall opt_fits l <-> Forall P (o_val <$> l)) as HP by (intros l; symmetry; apply Forall_fmap).
  rewrite HP, Hs. by apply HP.
Qed.

Lemma match_vendor_vals vc opts : same_vals opts (match_vendor_opts vc opts).
Proof. apply same_vals_fmap. intros o. unfold match_vendor_opt. repeat case_match; done. Qed.

Lemma option_filter_vals tags ctx opts m rules : same_vals opts (snd (option_filter tags ctx opts m rules)).
Proof.
  unfold option_filter. cbn [snd]. set (x1 := phase1 _ _ <$> opts). set (x2 := phase2 _ _ _ _ _). set (x3 := phase3 _ _).
  assert (same_vals opts x1) as H1.
  { apply same_vals_fmap. intros o. unfold phase1. repeat case_match; done. }
  assert (same_vals x1 x2) as H2.
  { unfold x2, phase2. destruct ctx as [c|]; [|done]. etransitivity; apply same_vals_fmap; intros o; unfold phase2_reset, phase2_mark; repeat case_match; done. }
  assert (same_vals x2 x3) as H3.
  { apply same_vals_fmap. intros o. unfold phase3_mark. repeat case_match; done. }
  do 2 (etransitivity; [eassumption|]). etransitivity; [exact H3|].
  assert (forall xs seen, same_vals xs (phase4 seen xs)) as H4; [|apply H4]. intros xs.
  induction xs as [|o xs IH]; intros seen; [done|]. unfold same_vals in *. cbn [phase4].
  destruct (tagok o); [destruct (has_code _ _)|]; rewrite !fmap_cons, IH; done.
Qed.

(** Nothing [do_options] writes breaks the area or touches what is there. *)
Lemma carries_do_options l cfg opts : do_fqdn_flags cfg = Byte.x00 -> do_pxevendor cfg = None -> do_uuid cfg = None ->
  Forall opt_fits (do_config_opts cfg) -> carries l opts -> carries l (fst (do_options opts cfg)).
Proof.
  intros Hq Hv Hu Hf Hc. unfold do_options.
  pose proof (same_vals_fits _ _ (match_vendor_vals (do_vendor_class cfg) (do_config_opts cfg)) Hf) as Hf1.
  set (co := match_vendor_opts _ _) in *. destruct (prune_vendor_opts co (do_netid cfg)) as [force co2]. cbn [fst].
  set (opts1 := fold_left _ _ _). assert (carries l opts1) as H1.
  { apply carries_fold; [|by apply carries_names, carries_context, carries_timers].
    intros o x Hx. apply carries_config_opt. rewrite Forall_forall in Hf1. by apply Hf1. }
  set (opts2 := if negb (do_leasequery cfg) && _ then _ else _). assert (carries l opts2) as H2.
  { unfold opts2. apply carries_if; [by apply carries_encap|done]. }
  apply carries_if; [done|]. unfold pxe_misc. rewrite Hv, Hu. apply carries_append; [done..|by vm_compute; lia|done].
Qed.

(** ** The split relay *)

Lemma option_find1_area pre c d rest m : Forall tlv_ok pre -> tlv_get pre c = None -> tlv_ok (c, d) -> (m <= length d)%nat ->
  forall fuel i, (length (area pre ++ enc_tlv (c, d) ++ rest) < fuel)%nat ->
  option_find1_loop fuel (area pre ++ enc_tlv (c, d) ++ rest) i c m = Some (i + length (area pre))%nat.
Proof.
  intros Hpre Hget (Hp & He & Hl) Hm. cbn [fst snd] in *. induction Hpre as [|e pre (Ep & Ee & El) _ IH]; intros fuel i Hf.
  - destruct fuel; [lia|]. cbn [area fmap list_fmap concat app enc_tlv fst snd option_find1_loop]. rewrite !decide_False by done. rewrite ulen_small by done.
    rewrite (proj2 (Nat.ltb_ge _ _)) by (rewrite length_app; lia). rewrite bool_decide_true, (proj2 (Nat.leb_le _ _) Hm) by done. cbn. f_equal. lia.
  - rewrite tlv_get_cons in Hget. destruct (decide (e.1 = c)) as [|Hne]; [done|]. rewrite area_cons in Hf |- *. destruct fuel; [lia|].
    cbn [option_find1_loop length] in *. rewrite !decide_False by done. rewrite ulen_small by done.
    rewrite (proj2 (Nat.ltb_ge _ _)) by (rewrite length_app; lia). rewrite bool_decide_false by done. cbn [andb]. rewrite drop_app_length.
    rewrite !length_app in Hf. rewrite IH by (done || rewrite !length_app; lia). f_equal. unfold area. cbn [fmap list_fmap concat].
    rewrite length_app, length_enc_tlv. lia.
Qed.

Lemma find_dhcp_option_area pre c d rest m : Forall tlv_ok pre -> tlv_get pre c = None -> tlv_ok (c, d) -> (m <= length d)%nat ->
  find_dhcp_option (area pre ++ enc_tlv (c, d) ++ rest) c m = Val (Some (mkRef (length (area pre)) d)).
Proof.
  intros Hpre Hget Hok Hm. unfold find_dhcp_option, option_find1. rewrite option_find1_area by (done || lia). cbn [Nat.add].
  pose proof Hok as (_ & _ & Hl). cbn [fst snd] in Hl.
  rewrite lookup_app_r by lia. replace (S (length (area pre)) - length (area pre))%nat with 1%nat by lia. cbn [enc_tlv fst snd app lookup list_lookup].
  rewrite ulen_small by done. pose proof (slice_mid (area pre ++ [c; z8 (Z.of_nat (length d))]) d rest) as Hs.
  rewrite length_app in Hs. cbn [length] in Hs. rewrite <- app_assoc in Hs. cbn [app] in Hs. by rewrite Hs.
Qed.

Definition agent_tlvs (local4 : Ipv4Addr) (unicast : bool) (iface_index : Z) : list tlv :=
  [(SUBOPT_SUBNET_SELECT, octets4 local4); (SUBOPT_SERVER_OR, octets4 local4); (SUBOPT_FLAGS, [if unicast then z8 0x80 else z8 0x00])].
Lemma agent_info_tlvs a u i : agent_info a u i = area (agent_tlvs a u i) ++ enc_tlv (SUBOPT_REMOTE_ID, to_be 4 i) ++ [].
Proof. unfold agent_info, area, agent_tlvs, enc_tlv. cbn. reflexivity. Qed.

Lemma agent_remote_id a u i : 0 <= i < 2 ^ 31 ->
  exists r, find_dhcp_option (agent_info a u i) SUBOPT_REMOTE_ID 4 = Val (Some r) /\ as_i32 (option_uint r 0 4) = i.
Proof.
  intros Hi. rewrite agent_info_tlvs, find_dhcp_option_area.
  - eexists. split; [reflexivity|]. unfold option_uint. cbn [or_data]. cbn [to_be app Nat.min seq fmap list_fmap Nat.add lookup list_lookup default from_option id].
    change ([z8 (i / 256 / 256 / 256); z8 (i / 256 / 256); z8 (i / 256); z8 i]) with (to_be 4 i). rewrite of_be_to_be_small by (zpow; lia).
    unfold as_i32. by rewrite (proj2 (Z.ltb_lt _ _)) by lia.
  - repeat constructor; try done; cbn [snd length]; rewrite ?length_octets4; lia.
  - unfold agent_tlvs. by rewrite !tlv_get_cons, !decide_False by done.
  - split_and!; [done..|]. cbn [snd]. rewrite length_to_be. lia.
  - rewrite length_to_be. lia.
Qed.

Lemma cut_agent_info_find pre d rest code : Forall tlv_ok pre ->
  find_option (cut_agent_info (area pre ++ enc_tlv (OPTION_AGENT_ID, d) ++ rest) (length (area pre)) (length d)) code = tlv_get pre code.
Proof.
  intros Hpre. unfold cut_agent_info. rewrite take_app_length. cbv zeta. rewrite find_option_area by done. cbn [app]. rewrite find_option_end.
  by destruct (tlv_get pre code).
Qed.

(** A split relay brings a reply back to the client's interface. The request
    it forwards carries the agent information with the index of the interface
    it came in on; a reply with that information, to the relay's address, is
    matched, sent out on that interface, and the client no longer finds the
    agent information or anything behind it. *)
Theorem split_relay_roundtrip ru rb iface_addr iface_index pkt unicast relay f relay' l arrival :
  ry_split_mode relay <> 0 -> 0 < iface_index < 2 ^ 31 -> p_giaddr pkt = UNSPECIFIED ->
  repr (p_options pkt) l -> tlv_get l OPTION_AGENT_ID = None ->
  relay_upstream4 ru rb iface_addr iface_index pkt unicast [relay] = ([f], [relay']) ->
  relay_matches_iface relay' arrival = true ->
  exists info, find_option (p_options (fw_packet f)) OPTION_AGENT_ID = Some info /\
    forall q pre post, p_op q = BOOTREPLY -> p_giaddr q = p_giaddr (fw_packet f) -> p_giaddr q <> UNSPECIFIED ->
      repr (p_options q) (pre ++ (OPTION_AGENT_ID, info) :: post) -> tlv_get pre OPTION_AGENT_ID = None ->
      exists options', relay_reply4 q [relay'] arrival = Val (iface_index, set_p_options options' q) /\
        forall code, find_option options' code = tlv_get pre code.
Proof.
  intros Hsp Hi Hg Hrep Hno Hup Hm. unfold relay_upstream4 in Hup. destruct (_ || _); [done|]. cbn in Hup.
  destruct (relay_one _ _ _ _ _ _ _) as [r1 fs] eqn:E1. cbn in Hup. rewrite app_nil_r in Hup. injection Hup as -> ->.
  unfold relay_one in E1. destruct (relay_stamp _ _ _ _ _ _) as [r2 st] eqn:E2. injection E1 as -> Hf.
  destruct st as [[from4 mess]|]; [|done]. destruct (relay_dest _ _) as [dest|]; [|done]. injection Hf as <-. cbn [fw_packet].
  unfold relay_stamp in E2. destruct (as_ipv4 (ry_local_addr relay)) as [local4|]; [|done].
  rewrite (proj2 (Z.eqb_neq _ _) Hsp) in E2. cbn [andb negb] in E2. destruct (local4 =? iface_addr); [|done].
  destruct (match ry_interface relay with Some _ => _ | None => _ end) as [r3|] eqn:E3; [|done]. injection E2 as -> E2.
  destruct (as_ipv4 (ry_uplink_addr relay')) as [up|] eqn:Eu; [|done]. rewrite Hg, Z.eqb_refl in E2. injection E2 as <- <-.
  assert (ry_split_mode relay' <> 0) as Hsp'.
  { destruct (ry_interface relay); [destruct (ru _); [|done]|]; injection E3 as <-; done. }
  set (info := agent_info local4 unicast iface_index). cbn [p_options set_p_options set_p_giaddr set_p_hops p_giaddr].
  assert (take 255 info = info) as Htk by done.
  exists info. split.
  - pose proof (option_put_raw_repr (p_options pkt) l OPTION_AGENT_ID info Hrep) as Hr. rewrite Htk in Hr.
    rewrite (find_option_repr _ _ _ (Hr ltac:(done) ltac:(done))), tlv_get_app, Hno, tlv_get_cons. by rewrite decide_True.
  - intros q pre post Hop Hgq Hnz [Hok Ho] Hpre. unfold relay_reply4. rewrite (proj2 (Z.eqb_neq _ _) Hnz), Hop, bool_decide_true by done.
    cbn [negb orb relay_reply_loop]. unfold relay_return. rewrite (proj2 (Z.eqb_neq _ _) Hsp'), Eu, Hgq, Z.eqb_refl. cbn [negb].
    destruct Ho as [Ho|[_ Ho]]; [|by destruct pre]. apply Forall_app in Hok as [Hokp [Hok _]%Forall_cons].
    assert (p_options q = area pre ++ enc_tlv (OPTION_AGENT_ID, info) ++ area post ++ [OPTION_END]) as Eo.
    { by rewrite Ho, area_app, <- app_assoc. }
    rewrite Eo, find_dhcp_option_area by (done || (change (1 <= 21)%nat; lia)). cbn [or_data or_index].
    destruct (agent_remote_id local4 unicast iface_index) as (r & Hr & Hv); [lia|]. fold info in Hr. rewrite Hr, Hv.
    rewrite (proj2 (Z.eqb_neq iface_index 0)), Hm by lia. cbn [negb andb]. eexists. split; [reflexivity|]. intros code. by apply cut_agent_info_find.
Qed.

Definition ex_relay : DhcpRelay :=
  mkRelay (Addr4 0x0A000001) (Addr4 0xC0A80009) (Addr4 0xC0A80001) None 0 67 1 0 0.
Definition ex_relayed : RelayForward :=
  mkForward 0xC0A80009 67 0xC0A80001
    (set_p_options (option_put_raw (p_options sample_request) OPTION_AGENT_ID (agent_info 0x0A000001 false 3))
      (set_p_giaddr 0xC0A80001 (set_p_hops (z8 1) sample_request))).
Definition ex_relay_reply (info : list u8) : DhcpPacket :=
  set_p_options (area [(OPTION_MESSAGE_TYPE, [z8 2]); (OPTION_AGENT_ID, info)] ++ [OPTION_END])
    (set_p_giaddr 0xC0A80001 (set_p_op BOOTREPLY sample_request)).

Lemma split_relay_roundtrip_witness :
  relay_upstream4 (fun _ => None) (fun _ => None) 0x0A000001 3 sample_request false [ex_relay] = ([ex_relayed], [ex_relay]) /\
  exists options', relay_reply4 (ex_relay_reply (agent_info 0x0A000001 false 3)) [ex_relay] None
    = Val (3, set_p_options options' (ex_relay_reply (agent_info 0x0A000001 false 3))) /\ find_option options' OPTION_AGENT_ID = None.
Proof.
  split; [by vm_compute|].
  destruct (split_relay_roundtrip (fun _ => None) (fun _ => None) 0x0A000001 3 sample_request false ex_relay ex_relayed ex_relay
    [(OPTION_MESSAGE_TYPE, [z8 1]); (OPTION_HOSTNAME, bs "laptop")] None) as (info & Hi & Hback);
    [done|lia|done|split; [repeat constructor; vm_compute; (discriminate || lia)|left; reflexivity]|by vm_compute|by vm_compute|done|].
  assert (info = agent_info 0x0A000001 false 3) as -> by (vm_compute in Hi |- *; congruence).
  destruct (Hback (ex_relay_reply (agent_info 0x0A000001 false 3)) [(OPTION_MESSAGE_TYPE, [z8 2])] []) as (o & Ho & Hf);
    [done|done|done|split; [repeat constructor; vm_compute; (discriminate || lia)|left; reflexivity]|by vm_compute|].
  exists o. split; [exact Ho|]. rewrite Hf. by vm_compute.
Defined.
