(* ===== verification/DhcpServer.v ===== *)
(** * The DHCPv4 server: src/src/dhcp.rs

    Classification of a client, the dispatcher, the commitment of leases and
    the decoration and encoding of replies. The state is the lease database,
    the cache of pings and the contexts of the configuration, which a packet's
    arrival fills in. The counters of the metrics are left out here, and so are
    the sockets: what the server reads of the outside is [PacketEnv]. *)

From Stdlib Require Import ZArith Lia String.
From stdpp Require Import base numbers list option gmap sets.
From S2P Require Import Prelude Types Hostname Util DhcpTypes DhcpOptions DhcpCommon Lease DhcpAlloc Rfc2131.

#[local] Open Scope Z_scope.

(** The clock at its three readings and the prober of addresses. *)
Record PacketEnv : Type := mkPacketEnv {
  now_alloc : SystemTime;
  now_commit : SystemTime;
  now_query : SystemTime;
  in_use : Ipv4Addr -> bool;
}.

Record BogusAddr : Type := mkBogus { ba_is6 : bool; ba_prefix : Z; ba_addr : AllAddr }.

(** The fields the dispatcher reads; [contexts] may be narrowed to those of the
    arrival interface ([DhcpConfigView]). *)
Record DhcpServerConfig : Type := mkServerConfig {
  pool_start : Ipv4Addr;
  pool_end : Ipv4Addr;
  server_ip : Ipv4Addr;
  configs : list DhcpConfig;
  vendor_rules : list DhcpVendorRule;
  user_class_rules : list DhcpUserClassRule;
  mac_rules : list DhcpMacRule;
  relay_id_rules : list DhcpRelayIdRule;
  reply_delays : list DhcpReplyDelay;
  contexts : list DhcpContext;
  dhcp_opts : list DhcpOpt;
  boot_configs : list DhcpBoot;
  domain_suffix : option str;
  match_rules : list DhcpOpt;
  name_match_rules : list DhcpMatchName;
  tag_rules : list TagIf;
  no_ping : bool;
  consec_addr : bool;
  dhcp_ignore : list (list DhcpNetid);
  bootp_dynamic : list (list DhcpNetid);
  rapid_commit : bool;
  leasequery_addr : list BogusAddr;
  leasequery_enabled : bool;
  leasequery_source : Ipv4Addr;
}.
(** [DhcpConfigView::narrowed]. *)
Definition narrowed (cfg : DhcpServerConfig) (cs : list DhcpContext) : DhcpServerConfig :=
  mkServerConfig (pool_start cfg) (pool_end cfg) (server_ip cfg) (configs cfg) (vendor_rules cfg) (user_class_rules cfg)
    (mac_rules cfg) (relay_id_rules cfg) (reply_delays cfg) cs (dhcp_opts cfg) (boot_configs cfg) (domain_suffix cfg)
    (match_rules cfg) (name_match_rules cfg) (tag_rules cfg) (no_ping cfg) (consec_addr cfg) (dhcp_ignore cfg)
    (bootp_dynamic cfg) (rapid_commit cfg) (leasequery_addr cfg) (leasequery_enabled cfg) (leasequery_source cfg).

Record DispatchedDhcpReply : Type := mkDispatched { dd_reply : DhcpReply; dd_delay_secs : Z }.

(** ** Tags of a client *)

Fixpoint user_classes_loop (fuel : nat) (raw : list u8) : option (list (list u8)) :=
  match fuel, raw with
  | S f, len :: rest =>
    if (length rest <? ulen len)%nat then None
    else let! cs := user_classes_loop f (drop (ulen len) rest) in Some (take (ulen len) rest :: cs)
  | _, _ => Some []
  end.
Definition rfc3004_user_classes (raw : list u8) : option (list (list u8)) := user_classes_loop (length raw) raw.

Definition hw_len (pkt : DhcpPacket) : nat := Nat.min (ulen (p_hlen pkt)) DHCP_CHADDR_MAX.
Definition client_hw (pkt : DhcpPacket) : list u8 := take (hw_len pkt) (p_chaddr pkt).

Definition vendor_tags (pkt : DhcpPacket) (cfg : DhcpServerConfig) : list DhcpNetid :=
  match find_option (p_options pkt) OPTION_VENDOR_ID with
  | None => []
  | Some data => vr_netid <$> List.filter (fun rule => (length (vr_vendor_class rule) =? 0)%nat || has_window data (vr_vendor_class rule))
                   (vendor_rules cfg)
  end.

Definition user_class_matches (raw : list u8) (rule : DhcpUserClassRule) : bool :=
  let uc := ur_user_class rule in
  if (length uc =? 0)%nat then true
  else match rfc3004_user_classes raw with
       | Some classes => existsb (fun class => has_window class uc) classes
       | None => has_window raw uc
       end.
Definition user_class_tags (pkt : DhcpPacket) (cfg : DhcpServerConfig) : list DhcpNetid :=
  match find_option (p_options pkt) OPTION_USER_CLASS with
  | None => []
  | Some raw => ur_netid <$> List.filter (user_class_matches raw) (user_class_rules cfg)
  end.

Definition mac_tags (pkt : DhcpPacket) (cfg : DhcpServerConfig) : list DhcpNetid :=
  mr_netid <$> List.filter (fun rule =>
    (mr_hwaddr_len rule =? Z.of_nat (hw_len pkt))
    && ((mr_hwaddr_type rule =? u8z (p_htype pkt)) || (mr_hwaddr_type rule =? 0))
    && negb (memcmp_masked (take (hw_len pkt) (mr_hwaddr rule)) (client_hw pkt) (mr_wildcard_mask rule) =? 0)%nat) (mac_rules cfg).

Fixpoint relay_tags_loop (info : list u8) (rules : list DhcpRelayIdRule) : outcome (list DhcpNetid) :=
  match rules with
  | [] => Val []
  | rule :: rest =>
    let# opt := find_dhcp_option info (rr_subopt rule) 1 in
    let# tags := relay_tags_loop info rest in
    Val (match opt with
         | Some r => if decide (or_data r = rr_data rule) then rr_netid rule :: tags else tags
         | None => tags
         end)
  end.
Definition relay_tags (pkt : DhcpPacket) (cfg : DhcpServerConfig) : outcome (list DhcpNetid) :=
  match find_option (p_options pkt) OPTION_AGENT_ID with
  | None => Val []
  | Some info => relay_tags_loop info (relay_id_rules cfg)
  end.

(** [u8::try_from(rule.opt)]. *)
Definition match_tags (pkt : DhcpPacket) (cfg : DhcpServerConfig) : list DhcpNetid :=
  concat ((fun rule =>
    if (0 <=? o_opt rule) && (o_opt rule <? 256) then
      match find_option (p_options pkt) (z8 (o_opt rule)) with
      | Some data => if match_bytes rule data then o_netid rule else []
      | None => []
      end
    else []) <$> match_rules cfg).

(** [&name[..n]] panics inside a character. *)
Definition str_to (s : str) (i : nat) : outcome str := if is_char_boundary s i then Val (take i s) else Panic.
Definition name_matches_rule (name : str) (rule : DhcpMatchName) : outcome bool :=
  match Nat.compare (length name) (length (mn_name rule)) with
  | Lt => Val false
  | Eq => Val (hostname_isequal name (mn_name rule))
  | Gt => if mn_wildcard rule then let# p := str_to name (length (mn_name rule)) in Val (hostname_isequal p (mn_name rule)) else Val false
  end.
Fixpoint name_tags_loop (name : str) (rules : list DhcpMatchName) : outcome (list DhcpNetid) :=
  match rules with
  | [] => Val []
  | rule :: rest =>
    let# m := name_matches_rule name rule in
    let# tags := name_tags_loop name rest in
    Val (if m then mn_netid rule :: tags else tags)
  end.
Definition name_tags (hostname : option str) (cfg : DhcpServerConfig) : outcome (list DhcpNetid) :=
  match hostname with Some name => name_tags_loop name (name_match_rules cfg) | None => Val [] end.

Definition derived_tags (pkt : DhcpPacket) (cfg : DhcpServerConfig) (hostname : option str) : outcome (list DhcpNetid) :=
  let# relay := relay_tags pkt cfg in
  let# names := name_tags hostname cfg in
  Val (vendor_tags pkt cfg ++ user_class_tags pkt cfg ++ mac_tags pkt cfg ++ relay ++ match_tags pkt cfg ++ names).

Definition select_reply_delay (tags : list DhcpNetid) (cfg : DhcpServerConfig) : Z :=
  match List.find (fun rule => negb (length (rd_filter rule) =? 0)%nat && match_netid_wild (rd_filter rule) tags) (reply_delays cfg) with
  | Some rule => rd_delay_secs rule
  | None => match List.find (fun rule => (length (rd_filter rule) =? 0)%nat) (reply_delays cfg) with
            | Some rule => rd_delay_secs rule
            | None => 0
            end
  end.

(** ** Decorating a reply *)

Definition context_for_reply (cfg : DhcpServerConfig) (yiaddr : Ipv4Addr) : option DhcpContext :=
  if yiaddr =? UNSPECIFIED then head (contexts cfg) else or_else (narrow_context (contexts cfg) yiaddr) (head (contexts cfg)).

Definition requested_arch (pkt : DhcpPacket) : Z :=
  match find_option (p_options pkt) OPTION_ARCH with
  | Some raw => if (length raw <? 2)%nat then -1 else of_be (take 2 raw)
  | None => -1
  end.

(** The tags of the context, if it has any. *)
Definition context_tags (context : option DhcpContext) : option (list DhcpNetid) :=
  let! ctx := context in if (length (net (cx_netid ctx)) =? 0)%nat then None else Some [cx_netid ctx].
Definition with_config_tags (tags : list DhcpNetid) (config : option DhcpConfig) : list DhcpNetid :=
  tags ++ match config with Some c => cf_netid c | None => [] end.

Definition select_boot (boots : list DhcpBoot) (filtered_tags : list DhcpNetid) : option DhcpBoot :=
  or_else (let! tag := List.find (fun t => negb (length (net t) =? 0)%nat) filtered_tags in find_boot boots (Some (net tag)))
          (find_boot boots None).
Definition apply_boot (boot : option DhcpBoot) (reply : DhcpReply) : DhcpReply :=
  match boot with
  | Some b => set_rp_boot (if b_next_server b =? UNSPECIFIED then rp_siaddr reply else b_next_server b) (b_sname b) (b_file b) reply
  | None => reply
  end.

Definition lease_time_of (context : option DhcpContext) : Z := from_option cx_lease_time 3600 context.

Definition decorate_reply (reply : DhcpReply) (pkt : DhcpPacket) (cfg : DhcpServerConfig) (tags : list DhcpNetid)
    (config : option DhcpConfig) : DhcpReply :=
  let context := context_for_reply cfg (rp_yiaddr reply) in
  let vendor := find_option (p_options pkt) OPTION_VENDOR_ID in
  let '(filtered_tags, config_opts) :=
    option_filter (with_config_tags tags config) (context_tags context) (dhcp_opts cfg) (if is_pxe_client vendor then 1 else 0) (tag_rules cfg) in
  let reply := apply_boot (select_boot (boot_configs cfg) filtered_tags) reply in
  let lease_time := lease_time_of context in
  let is_inform := bool_decide (get_message_type (p_options pkt) = Some Inform) in
  let is_bootp := bool_decide (rp_msg_type reply = Bootp) in
  let opt_cfg := mkDoOptions context (if is_bootp then None else find_option (p_options pkt) OPTION_REQUESTED_OPTIONS)
    (let! c := config in cf_hostname c) (or_else (let! c := config in cf_domain c) (domain_suffix cfg)) filtered_tags None Byte.x00 false
    (if is_bootp then -1 else requested_arch pkt) None vendor (if is_inform || is_bootp then U32_MAX else lease_time) 0 None config_opts 53 false in
  let write_lease_time := match rp_msg_type reply with Offer => true | Ack => negb is_inform | _ => false end in
  let options := rp_options reply in
  let options := if write_lease_time then option_put options OPTION_LEASE_TIME lease_time 4 else options in
  let options := fst (do_options options opt_cfg) in
  let options := match find_option (p_options pkt) OPTION_AGENT_ID with
                 | Some info => option_put_raw options OPTION_AGENT_ID info
                 | None => options
                 end in
  set_rp_options options reply.

(** ** Encoding *)

(** [name] in a field of [n] bytes. *)
Definition name_field (n : nat) (name : option str) : list u8 :=
  let b := take n (default [] name) in b ++ replicate (n - length b) Byte.x00.

Definition dhcp_reply_to_wire (reply : DhcpReply) (request : DhcpPacket) : list u8 :=
  let '(chaddr, hlen, htype) := default (p_chaddr request, p_hlen request, p_htype request) (rp_chaddr_override reply) in
  pad300 ([BOOTREPLY; htype; hlen; Byte.x00] ++ to_be 4 (p_xid request) ++ [Byte.x00; Byte.x00] ++ [Byte.x00; Byte.x00]
    ++ octets4 (default (p_ciaddr request) (rp_ciaddr_override reply)) ++ octets4 (rp_yiaddr reply) ++ octets4 (rp_siaddr reply)
    ++ octets4 (rp_giaddr reply) ++ chaddr ++ name_field 64 (rp_sname reply) ++ name_field 128 (rp_file reply) ++ to_be 4 DHCP_COOKIE
    ++ ended (rp_options reply)).

(** [SocketAddrV4]. *)
Definition BROADCAST : Ipv4Addr := 0xFFFFFFFF.
Definition reply_dest (pkt : DhcpPacket) : Ipv4Addr * Z :=
  if negb (p_giaddr pkt =? UNSPECIFIED) then (p_giaddr pkt, DHCP_SERVER_PORT)
  else if negb (p_ciaddr pkt =? UNSPECIFIED) then (p_ciaddr pkt, DHCP_CLIENT_PORT)
  else (BROADCAST, DHCP_CLIENT_PORT).
Definition relay_reply_client_dest (pkt : DhcpPacket) : Ipv4Addr * Z :=
  (if p_ciaddr pkt =? UNSPECIFIED then BROADCAST else p_ciaddr pkt, DHCP_CLIENT_PORT).

(** ** Dispatch *)

Definition allocation_contexts (cfg : DhcpServerConfig) : list DhcpContext :=
  match contexts cfg with
  | [] => [synthetic_pool_context (pool_start cfg) (pool_end cfg)]
  | cs => cs
  end.

Section Dispatch.
Context `{HashOrder}.

Definition record_lease (now : SystemTime) (db : LeaseDb) (addr : Ipv4Addr) (pkt : DhcpPacket) (clid : option (list u8))
    (hostname : option str) (lease_time : Z) : LeaseDb :=
  match (if is_none (find_by_addr addr db) then allocate_v4 addr db else Some db) with
  | None => db
  | Some db =>
    let db := snd (set_hwaddr addr (client_hw pkt) (u8z (p_htype pkt)) clid false db) in
    let db := set_hostname addr hostname false db in
    set_expires now addr lease_time db
  end.

Definition allocate_for (env : PacketEnv) (cfg : DhcpServerConfig) (pkt : DhcpPacket) (tags : list DhcpNetid) (db : LeaseDb) (cache : PingCache)
  : option Ipv4Addr * PingCache :=
  address_allocate (allocation_contexts cfg) db (configs cfg) (client_hw pkt) tags (now_alloc env) false (consec_addr cfg)
    (no_ping cfg) (in_use env) cache.

(** An entry with the address, other than the client's own one. *)
Definition reserved_for_other (cfg : DhcpServerConfig) (config : option nat) (addr : Ipv4Addr) : bool :=
  match find_index (fun c => flag_contains (cf_flags c) ConfigFlags.ADDR && (cf_addr c =? addr)) (configs cfg) with
  | Some j => negb (bool_decide (config = Some j))
  | None => false
  end.

(** BOOTP *)

Definition bootp_file_tag (pkt : DhcpPacket) : option DhcpNetid :=
  if bool_decide (p_file pkt !! 0%nat = Some Byte.x00) then None
  else
    let s := take (default (length (p_file pkt)) (find_byte Byte.x00 (p_file pkt))) (p_file pkt) in
    if utf8_valid s then Some (mkNetid s) else None.
Definition bootp_dynamic_allowed (rules : list (list DhcpNetid)) (tags : list DhcpNetid) : bool :=
  negb (length rules =? 0)%nat && existsb (fun filter => match_netid_wild filter tags) rules.

Definition disabled_by_tags (cfg : DhcpServerConfig) (tags : list DhcpNetid) : bool :=
  existsb (fun c => flag_contains (cf_flags c) ConfigFlags.DISABLE && negb (length (cf_filter c) =? 0)%nat
                    && match_netid_wild (cf_filter c) tags) (configs cfg).

Definition bootp_tags (pkt : DhcpPacket) (tags : list DhcpNetid) (config : option DhcpConfig) : list DhcpNetid :=
  with_config_tags tags config ++ option_list (bootp_file_tag pkt) ++ [mkNetid (bs "bootp")].

(** The address of a BOOTP client: its reservation unless another client holds
    it, its lease while that is in a range, or a new one. *)
Definition bootp_addr (env : PacketEnv) (cfg : DhcpServerConfig) (pkt : DhcpPacket) (tags : list DhcpNetid) (static_addr : option Ipv4Addr)
    (lease_by_client : option DhcpLease) (db : LeaseDb) (cache : PingCache) : option Ipv4Addr * PingCache :=
  match static_addr with
  | Some addr =>
    (match find_by_addr addr db with
     | Some existing =>
       if negb (dl_hwaddr_len existing =? hw_len pkt)%nat || negb (dl_hwaddr_type existing =? u8z (p_htype pkt))
          || negb (bool_decide (take (hw_len pkt) (dl_hwaddr existing) = client_hw pkt)) then None else Some addr
     | None => Some addr
     end, cache)
  | None =>
    match lease_by_client with
    | Some l => if address_available (allocation_contexts cfg) (dl_addr l) then (Some (dl_addr l), cache)
                else allocate_for env cfg pkt tags db cache
    | None => allocate_for env cfg pkt tags db cache
    end
  end.

Definition bootp_lease_time (static_addr : option Ipv4Addr) (config : option DhcpConfig) : Z :=
  match static_addr, config with
  | Some _, Some c => if flag_contains (cf_flags c) ConfigFlags.TIME then cf_lease_time c else U32_MAX
  | _, _ => U32_MAX
  end.

Definition dispatch_bootp (env : PacketEnv) (pkt : DhcpPacket) (cfg : DhcpServerConfig) (tags : list DhcpNetid) (config : option DhcpConfig)
    (static_addr : option Ipv4Addr) (lease_by_client : option DhcpLease) (clid : option (list u8)) (hostname : option str)
    (db : LeaseDb) (cache : PingCache) : option DispatchedDhcpReply * LeaseDb * PingCache :=
  if bool_decide (p_htype pkt = Byte.x00) || bool_decide (p_hlen pkt = Byte.x00) then (None, db, cache)
  else
    let tags := bootp_tags pkt tags config in
    if disabled_by_tags cfg tags then (None, db, cache)
    else
      let '(addr, cache) := bootp_addr env cfg pkt tags static_addr lease_by_client db cache in
      match addr with
      | None => (None, db, cache)
      | Some yiaddr =>
        match narrow_context (allocation_contexts cfg) yiaddr with
        | None => (None, db, cache)
        | Some _ =>
          if is_none static_addr && negb (bootp_dynamic_allowed (bootp_dynamic cfg) tags) then (None, db, cache)
          else
            let reply := decorate_reply (handle_bootp pkt yiaddr (server_ip cfg)) pkt cfg tags config in
            let reply := set_rp_options (cap_vendor_area (rp_options reply) 64) reply in
            (Some (mkDispatched reply 0),
             record_lease (now_commit env) db yiaddr pkt clid hostname (bootp_lease_time static_addr config), cache)
        end
      end.

(** Lease queries *)

Definition leasequery_permitted (cfg : DhcpServerConfig) : bool :=
  leasequery_enabled cfg && negb (leasequery_source cfg =? UNSPECIFIED)
  && ((length (leasequery_addr cfg) =? 0)%nat
      || existsb (fun b => negb (ba_is6 b) && match as_ipv4 (ba_addr b) with
                                              | Some a => is_same_net_prefix (leasequery_source cfg) a (Z.max 0 (Z.min 32 (ba_prefix b)))
                                              | None => false
                                              end) (leasequery_addr cfg)).

Definition classify_query (contexts : list DhcpContext) (ciaddr : Ipv4Addr) (queried : option DhcpLease) : DhcpMsgType * option DhcpLease :=
  match queried with
  | Some l => if is_none (narrow_context contexts (dl_addr l)) then (LeaseUnknown, None) else (LeaseActive, Some l)
  | None => if negb (ciaddr =? UNSPECIFIED) && address_available contexts ciaddr then (LeaseUnassigned, None) else (LeaseUnknown, None)
  end.

Definition dispatch_leasequery (env : PacketEnv) (pkt : DhcpPacket) (cfg : DhcpServerConfig) (db : LeaseDb) (tags : list DhcpNetid)
    (lease_by_client : option DhcpLease) : option DispatchedDhcpReply :=
  if negb (leasequery_permitted cfg) then None
  else
    let contexts := allocation_contexts cfg in
    let queried := if p_ciaddr pkt =? UNSPECIFIED then lease_by_client else find_by_addr (p_ciaddr pkt) db in
    let '(reply_type, lease) := classify_query contexts (p_ciaddr pkt) queried in
    let req_options := find_option (p_options pkt) OPTION_REQUESTED_OPTIONS in
    let reply := match lease with
                 | Some lease =>
                   let lease_config := config_at (configs cfg) (find_config (configs cfg) (dl_clid lease) (Some (hw_bytes lease))
                                                                  (dl_hwaddr_type lease) (dl_hostname lease) tags) in
                   let context := narrow_context contexts (dl_addr lease) in
                   let '(filtered_tags, config_opts) := option_filter (with_config_tags tags lease_config) (context_tags context)
                                                          (dhcp_opts cfg) 0 (tag_rules cfg) in
                   let full := calc_time (lease_time_of context)
                                 (let! c := lease_config in if flag_contains (cf_flags c) ConfigFlags.TIME then Some (cf_lease_time c) else None)
                                 None in
                   handle_leasequery (now_query env) pkt reply_type (Some lease) req_options context filtered_tags config_opts (domain_suffix cfg) full
                 | None => handle_leasequery (now_query env) pkt reply_type None req_options None [] [] None 0
                 end in
    Some (mkDispatched reply 0).

(** The other messages *)

(** The reply to a message, and what a RELEASE or a DECLINE does. *)
Definition answer (env : PacketEnv) (pkt : DhcpPacket) (cfg : DhcpServerConfig) (msg_type : DhcpMsgType) (tags : list DhcpNetid)
    (config : option nat) (static_addr : option Ipv4Addr) (db : LeaseDb) (cache : PingCache)
  : option DhcpReply * LeaseDb * PingCache :=
  match msg_type with
  | Discover =>
    let '(scanned_addr, cache) :=
      match static_addr with
      | None => allocate_for env cfg pkt (with_config_tags tags (config_at (configs cfg) config)) db cache
      | Some _ => (None, cache)
      end in
    let offer := handle_discover pkt (pool_start cfg) (pool_end cfg) None (server_ip cfg) static_addr scanned_addr in
    (if rapid_commit cfg && negb (is_none (find_option (p_options pkt) OPTION_RAPID_COMMIT)) then
       let! r := offer in
       make_rapid_commit_ack r (server_ip cfg) (pool_start cfg) (pool_end cfg) static_addr (reserved_for_other cfg config (rp_yiaddr r))
     else offer, db, cache)
  | Request =>
    let reserved := match requested_addr pkt with Some addr => reserved_for_other cfg config addr | None => false end in
    (handle_request pkt (pool_start cfg) (pool_end cfg) (server_ip cfg) static_addr reserved, db, cache)
  | Release =>
    (None, if handle_release pkt (pool_start cfg) (pool_end cfg) then snd (remove_by_addr (p_ciaddr pkt) db) else db, cache)
  | Inform => (handle_inform pkt (server_ip cfg), db, cache)
  | Decline =>
    (None, if handle_decline pkt (pool_start cfg) (pool_end cfg)
           then match find_requested_ip (p_options pkt) with Some declined => snd (remove_by_addr declined db) | None => db end
           else db, cache)
  | _ => (None, db, cache)
  end.

(** The reply decorated, and the lease an ACK commits. *)
Definition finish (env : PacketEnv) (pkt : DhcpPacket) (cfg : DhcpServerConfig) (msg_type : DhcpMsgType) (tags : list DhcpNetid)
    (config : option DhcpConfig) (clid : option (list u8)) (hostname : option str) (reply : DhcpReply) (db : LeaseDb)
  : DispatchedDhcpReply * LeaseDb :=
  let reply := decorate_reply reply pkt cfg tags config in
  let db := if bool_decide (rp_msg_type reply = Ack) && negb (rp_yiaddr reply =? UNSPECIFIED)
               && negb (bool_decide (get_message_type (p_options pkt) = Some Inform))
            then record_lease (now_commit env) db (rp_yiaddr reply) pkt clid hostname (lease_time_of (context_for_reply cfg (rp_yiaddr reply)))
            else db in
  let delay_secs := if bool_decide (rp_msg_type reply = Offer)
                       || (bool_decide (msg_type = Discover) && bool_decide (rp_msg_type reply = Ack))
                    then select_reply_delay tags cfg else 0 in
  (mkDispatched reply delay_secs, db).

(** What the dispatcher finds out about the client first. *)
Definition client_hostname (pkt : DhcpPacket) : option str :=
  let! raw := find_option (p_options pkt) OPTION_HOSTNAME in if utf8_valid raw then Some raw else None.
Definition client_config (pkt : DhcpPacket) (cfg : DhcpServerConfig) (tags : list DhcpNetid) : option nat :=
  find_config (configs cfg) (find_option (p_options pkt) OPTION_CLIENT_ID) (Some (client_hw pkt)) (u8z (p_htype pkt)) (client_hostname pkt) tags.
Definition static_addr_of (config : option DhcpConfig) : option Ipv4Addr :=
  let! c := config in if flag_contains (cf_flags c) ConfigFlags.ADDR then Some (cf_addr c) else None.
Definition client_key (pkt : DhcpPacket) : list u8 :=
  match find_option (p_options pkt) OPTION_CLIENT_ID with
  | Some c => if (length c =? 0)%nat then client_hw pkt else c
  | None => client_hw pkt
  end.

Definition dispatch_dhcp_with_meta (env : PacketEnv) (pkt : DhcpPacket) (cfg : DhcpServerConfig) (db : LeaseDb) (cache : PingCache)
  : outcome (option DispatchedDhcpReply * LeaseDb * PingCache) :=
  let hostname := client_hostname pkt in
  let clid := find_option (p_options pkt) OPTION_CLIENT_ID in
  let# tags := derived_tags pkt cfg hostname in
  if disabled_by_tags cfg tags then Val (None, db, cache)
  else if existsb (fun entry => context_filter_matches entry tags false) (dhcp_ignore cfg) then Val (None, db, cache)
  else
    let config := client_config pkt cfg tags in
    let entry := config_at (configs cfg) config in
    if match entry with Some c => flag_contains (cf_flags c) ConfigFlags.DISABLE | None => false end then Val (None, db, cache)
    else
      let static_addr := static_addr_of entry in
      let lease_by_client := find_by_client_id (client_key pkt) db in
      match get_message_type (p_options pkt) with
      | None =>
        if negb (is_none (find_option (p_options pkt) OPTION_MESSAGE_TYPE)) then Val (None, db, cache)
        else Val (dispatch_bootp env pkt cfg tags entry static_addr lease_by_client clid hostname db cache)
      | Some msg_type =>
        if decide (msg_type = LeaseQuery) then Val (dispatch_leasequery env pkt cfg db tags lease_by_client, db, cache)
        else
          let '(reply, db, cache) := answer env pkt cfg msg_type tags config static_addr db cache in
          match reply with
          | None => Val (None, db, cache)
          | Some reply =>
            let '(d, db) := finish env pkt cfg msg_type tags entry clid hostname reply db in
            Val (Some d, db, cache)
          end
      end.

(** The contexts filled in stay in the configuration. *)
Definition dispatch_dhcp_with_arrival (env : PacketEnv) (pkt : DhcpPacket) (cfg : DhcpServerConfig) (db : LeaseDb) (cache : PingCache)
    (arrival : option ArrivalInterface) : outcome (option DispatchedDhcpReply * DhcpServerConfig * LeaseDb * PingCache) :=
  match arrival with
  | None => let# (r, db, cache) := dispatch_dhcp_with_meta env pkt cfg db cache in Val (r, cfg, db, cache)
  | Some iface =>
    let '(cs, linked) := link_contexts_for_interface (contexts cfg) iface in
    let cfg := narrowed cfg cs in
    let view := match linked with [] => cfg | _ => narrowed cfg (omap (fun i => cs !! i) linked) end in
    let# (r, db, cache) := dispatch_dhcp_with_meta env pkt view db cache in
    let db := match r with
              | Some d => if bool_decide (rp_msg_type (dd_reply d) = Ack) && negb (rp_yiaddr (dd_reply d) =? UNSPECIFIED)
                          then set_interface (rp_yiaddr (dd_reply d)) (ai_if_index iface) db else db
              | None => db
              end in
    Val (r, cfg, db, cache)
  end.

(** One packet without a prober: every address counts as free. *)
Definition null_env (now : SystemTime) : PacketEnv := mkPacketEnv now now now (fun _ => false).
Definition dispatch_dhcp (now : SystemTime) (pkt : DhcpPacket) (cfg : DhcpServerConfig) (db : LeaseDb) : outcome (option DhcpReply * LeaseDb) :=
  let# (r, db, _) := dispatch_dhcp_with_meta (null_env now) pkt cfg db [] in Val (dd_reply <$> r, db).
End Dispatch.

(** ** The effect of a packet on the leases *)

Section Effects.
Context `{Hord : HashOrder}.

Lemma steps_remove a db : rtc lease_step db (snd (remove_by_addr a db)).
Proof. apply rtc_once. apply StepRemove. Qed.

Lemma record_lease_steps now db a pkt clid hostname t : rtc lease_step db (record_lease now db a pkt clid hostname t).
Proof.
  unfold record_lease.
  assert (forall d, rtc lease_step d (set_expires now a t (set_hostname a hostname false
    (snd (set_hwaddr a (client_hw pkt) (u8z (p_htype pkt)) clid false d))))) as Hset.
  { intros d. eapply rtc_l; [exact (StepHwaddr d a (client_hw pkt) (u8z (p_htype pkt)) clid false)|].
    eapply rtc_l; [exact (StepHostname _ a hostname false)|]. apply rtc_once, StepExpires. }
  destruct (find_by_addr a db) eqn:Ef; cbn [is_none]; [apply Hset|].
  destruct (allocate_v4 a db) as [db1|] eqn:Ea; [|done]. eapply rtc_l; [by eapply StepAllocate|]. apply Hset.
Qed.

Lemma bootp_steps env pkt cfg tags config st l clid host db cache r db' cache' :
  dispatch_bootp env pkt cfg tags config st l clid host db cache = (r, db', cache') -> rtc lease_step db db'.
Proof.
  unfold dispatch_bootp. destruct (_ || _); [by intros [= _ <- _]|]. destruct (disabled_by_tags _ _); [by intros [= _ <- _]|].
  destruct (bootp_addr _ _ _ _ _ _ _ _) as [[a|] c]; [|by intros [= _ <- _]].
  destruct (narrow_context _ _); [|by intros [= _ <- _]]. destruct (_ && _); [by intros [= _ <- _]|].
  intros [= _ <- _]. apply record_lease_steps.
Qed.

Lemma answer_steps env pkt cfg t tags config st db cache r db' cache' :
  answer env pkt cfg t tags config st db cache = (r, db', cache') -> rtc lease_step db db'.
Proof.
  destruct t; cbn [answer]; try (by intros [= _ <- _]).
  - destruct (match st with Some _ => _ | None => _ end) as [sc c]. by intros [= _ <- _].
  - intros [= _ <- _]. destruct (handle_decline _ _ _); [|done]. destruct (find_requested_ip _); [apply steps_remove|done].
  - intros [= _ <- _]. destruct (handle_release _ _ _); [apply steps_remove|done].
Qed.

Lemma finish_steps env pkt cfg t tags config clid host reply db d db' :
  finish env pkt cfg t tags config clid host reply db = (d, db') -> rtc lease_step db db'.
Proof. unfold finish. intros [= _ <-]. destruct (_ && _); [apply record_lease_steps|done]. Qed.

Lemma meta_steps env pkt cfg db cache r db' cache' :
  dispatch_dhcp_with_meta env pkt cfg db cache = Val (r, db', cache') -> rtc lease_step db db'.
Proof.
  unfold dispatch_dhcp_with_meta. destruct (derived_tags _ _ _) as [tags|]; [|done].
  destruct (disabled_by_tags _ _); [by intros [= _ <- _]|]. destruct (existsb _ _); [by intros [= _ <- _]|].
  destruct (match config_at _ _ with Some _ => _ | None => _ end); [by intros [= _ <- _]|].
  destruct (get_message_type _) as [t|].
  - destruct (decide _); [by intros [= _ <- _]|].
    destruct (answer _ _ _ _ _ _ _ _ _) as [[[reply|] db1] c1] eqn:Ea; apply answer_steps in Ea; [|by intros [= _ <- _]].
    destruct (finish _ _ _ _ _ _ _ _ _ _) as [d db2] eqn:Ef. apply finish_steps in Ef. intros [= _ <- _]. by etransitivity.
  - destruct (negb _); [by intros [= _ <- _]|]. intros [= E]. by eapply bootp_steps.
Qed.

Lemma arrival_steps env pkt cfg db cache arrival r cfg' db' cache' :
  dispatch_dhcp_with_arrival env pkt cfg db cache arrival = Val (r, cfg', db', cache') -> rtc lease_step db db'.
Proof.
  unfold dispatch_dhcp_with_arrival. destruct arrival as [iface|].
  - destruct (link_contexts_for_interface _ _) as [cs linked]. cbv zeta.
    destruct (dispatch_dhcp_with_meta _ _ _ _ _) as [[[d db1] c1]|] eqn:E; [|done]. apply meta_steps in E. intros [= _ _ <- _].
    etransitivity; [exact E|]. destruct d as [d|]; [|done]. destruct (_ && _); [|done]. apply rtc_once, StepInterface.
  - destruct (dispatch_dhcp_with_meta _ _ _ _ _) as [[[d db1] c1]|] eqn:E; [|done]. apply meta_steps in E. by intros [= _ _ <- _].
Qed.

(** A packet, or one of the operations of the server's loop on the leases. *)
Inductive server_step : DhcpServerConfig * LeaseDb * PingCache -> DhcpServerConfig * LeaseDb * PingCache -> Prop :=
| PacketStep env pkt arrival r cfg db cache cfg' db' cache' :
    dispatch_dhcp_with_arrival env pkt cfg db cache arrival = Val (r, cfg', db', cache') ->
    server_step (cfg, db, cache) (cfg', db', cache')
| PruneStep cfg db cache now : server_step (cfg, db, cache) (cfg, snd (prune now db), cache)
| ScriptStep cfg db cache command ro renewal :
    server_step (cfg, db, cache) (cfg, snd (run_lease_scripts command ro renewal db), cache)
| RerunStep cfg db cache : server_step (cfg, db, cache) (cfg, rerun_scripts db, cache)
| ConfigStep cfg cfg' db cache entries : server_step (cfg, db, cache) (cfg', update_from_configs entries db, cache).

(** C7: the server drives the lease database only through its operations:
    whatever packets come in on whatever interfaces, with pings answered either
    way and leases expiring in between, each run is a run of the database in
    which an address is allocated only when no lease has it. So no two leases
    share an address or a name, and the limit on leases is kept. *)
Theorem dhcp_server_refines_leases n cfg cache cfg' db' cache' :
  rtc server_step (cfg, db_empty n, cache) (cfg', db', cache') ->
  rtc lease_step (db_empty n) db' /\ db_ok db' /\ (size (leases db') <= n)%nat.
Proof.
  intros Hr. assert (rtc lease_step (db_empty n) db') as Hs.
  { change (db_empty n) with (snd (fst (cfg, db_empty n, cache))). change db' with (snd (fst (cfg', db', cache'))).
    induction Hr as [x|x y z Hxy _ IH]; [done|]. etransitivity; [|exact IH]. destruct Hxy; cbn [fst snd].
    - by eapply arrival_steps.
    - apply rtc_once, StepPrune.
    - apply rtc_once, StepScripts.
    - apply rtc_once, StepRerun.
    - apply rtc_once, StepConfigs. }
  destruct (runs_ok n db' Hs) as [Hok Hn]. split_and!; [done..|]. rewrite <- Hn. apply (dk_size _ Hok).
Qed.
End Effects.

(** ** What a commitment leaves behind *)

Section Commit.
Context `{Hord : HashOrder}.

Lemma find_update a f db : find_by_addr a (update_by_addr a f db) = f <$> find_by_addr a db.
Proof.
  unfold find_by_addr, update_by_addr. destruct (addr_index db !! a) as [k|] eqn:E; cbn; [|by rewrite E].
  by rewrite E, lookup_alter_eq.
Qed.

Lemma find_update_ne a a' f db l : db_ok db -> a <> a' -> find_by_addr a db = Some l -> find_by_addr a (update_by_addr a' f db) = Some l.
Proof.
  intros Hok Hne. unfold find_by_addr, update_by_addr. destruct (addr_index db !! a') as [k'|] eqn:E'; [|done]. cbn.
  destruct (addr_index db !! a) as [k|] eqn:E; [|done]. intros Hl.
  rewrite lookup_alter_ne; [done|]. intros ->. destruct (ix_sound _ _ (dk_index _ Hok) a k E) as (_ & l1 & H1 & <-).
  destruct (ix_sound _ _ (dk_index _ Hok) a' k E') as (_ & l2 & H2 & <-). congruence.
Qed.

Lemma drop_duplicates_find a name db l : db_ok db -> find_by_addr a db = Some l -> find_by_addr a (drop_duplicates a name db) = Some l.
Proof.
  intros Hok Hl. destruct name as [n|]; [|done]. unfold drop_duplicates.
  assert (Forall (fun x => x <> a) (dl_addr <$> List.filter (fun l => negb (dl_addr l =? a) && same_name n l) (values (leases db)))) as Hne.
  { apply Forall_fmap, Forall_forall. intros x Hx. apply list_elem_of_In, filter_In in Hx as [_ [Hx _]%andb_true_iff].
    cbn. by apply Z.eqb_neq, negb_true_iff. }
  revert Hok Hl. generalize dependent (dl_addr <$> List.filter (fun l => negb (dl_addr l =? a) && same_name n l) (values (leases db))).
  intros addrs Hne. revert db. induction Hne as [|x addrs Hx _ IH]; intros db Hok Hl; cbn [fold_left]; [done|].
  apply IH; [apply update_ok; [apply mild_drop_name|done]|]. by apply find_update_ne.
Qed.

(** The parts of a lease the later setters leave alone. *)
Definition same_client (l l' : DhcpLease) : Prop :=
  dl_hwaddr l' = dl_hwaddr l /\ dl_hwaddr_len l' = dl_hwaddr_len l /\ dl_hwaddr_type l' = dl_hwaddr_type l /\ dl_clid l' = dl_clid l /\
  dl_addr l' = dl_addr l.
(** Equal names, up to case. *)
Definition names_agree (o1 o2 : option str) : Prop :=
  match o1, o2 with Some n1, Some n2 => n1 = n2 \/ hostname_isequal n1 n2 = true | None, None => True | _, _ => False end.

Lemma set_hostname_find a name auth db l : db_ok db -> find_by_addr a db = Some l ->
  exists l', find_by_addr a (set_hostname a name auth db) = Some l' /\ same_client l l' /\ names_agree (dl_hostname l') name.
Proof.
  intros Hok Hl. pose proof (drop_duplicates_find a name db l Hok Hl) as Hd. unfold set_hostname. cbv zeta. rewrite Hd.
  set (changed := match dl_hostname l, name with Some old, Some new => negb (hostname_isequal old new) | None, None => false | _, _ => true end).
  change (find_by_addr a (with_dirty changed changed ?d)) with (find_by_addr a d). rewrite find_update, Hd. cbn [fmap option_fmap option_map].
  eexists. split; [reflexivity|]. destruct changed eqn:Ec; cbn [dl_hostname set_dl_flags set_dl_hostname take_hostname];
    (split; [by destruct l|]).
  - unfold names_agree. destruct name; cbn; auto.
  - unfold changed in Ec. unfold names_agree. destruct (dl_hostname l), name; try done. right. by apply negb_false_iff in Ec.
Qed.

Definition expiry (now : SystemTime) (t : Z) : option SystemTime := if t =? 0xFFFFFFFF then None else Some (now + t * 1000000000).

Lemma set_expires_find now a t db l : find_by_addr a db = Some l ->
  exists l', find_by_addr a (set_expires now a t db) = Some l' /\ same_client l l' /\ dl_hostname l' = dl_hostname l /\ dl_expires l' = expiry now t.
Proof.
  intros Hl. unfold set_expires. rewrite Hl. fold (expiry now t). destruct (decide _) as [E|_].
  - exists l. by split_and!; [|split_and!| |].
  - change (find_by_addr a (with_dirty true false ?d)) with (find_by_addr a d). rewrite find_update, Hl. eexists. split; [reflexivity|].
    by split_and!; [split_and!| |].
Qed.

Lemma store_hwaddr_bytes h t l l' b : store_hwaddr h t l = (l', b) -> (length h <= 16)%nat ->
  hw_bytes l' = h /\ dl_hwaddr_type l' = t.
Proof.
  intros Hs Hlen. unfold store_hwaddr in Hs. cbv zeta in Hs.
  rewrite (Nat.min_l (length h)) in Hs by (change DHCP_CHADDR_MAX with 16%nat; lia).
  destruct (_ || _ || _) eqn:E; injection Hs as <- _; unfold hw_bytes; cbn [dl_hwaddr_len dl_hwaddr dl_hwaddr_type set_dl_flags set_dl_hwaddr_type set_dl_hwaddr_len set_dl_hwaddr].
  - change DHCP_CHADDR_MAX with 16%nat. rewrite Nat.min_l by lia. unfold padded16. rewrite (take_ge h) by lia. by rewrite take_app_length.
  - apply orb_false_iff in E as [[E1 E2]%orb_false_iff E3]. cbn in E1, E2, E3. apply negb_false_iff, Nat.eqb_eq in E1.
    apply negb_false_iff, Z.eqb_eq in E2. apply negb_false_iff, bool_decide_eq_true in E3. change DHCP_CHADDR_MAX with 16%nat.
    rewrite E1, Nat.min_l by lia. rewrite E3, firstn_all. done.
Qed.

Lemma set_hwaddr_find a h t clid force db l : db_ok db -> find_by_addr a db = Some l -> (length h <= 16)%nat ->
  exists l', find_by_addr a (snd (set_hwaddr a h t clid force db)) = Some l' /\ hw_bytes l' = h /\ dl_hwaddr_type l' = t /\
    (forall c, clid = Some c -> dl_clid l' = Some c).
Proof.
  intros Hok Hl Hlen. unfold find_by_addr in Hl. unfold set_hwaddr. destruct (addr_index db !! a) as [k|] eqn:Ek; [|done]. rewrite Hl.
  destruct (ix_sound _ _ (dk_index _ Hok) a k Ek) as (Hn & l0 & Hl0 & Ha). rewrite Hl in Hl0. injection Hl0 as <-.
  rewrite (proj2 (Z.eqb_eq _ _) Ha). cbn [negb]. destruct (store_hwaddr h t l) as [l1 b] eqn:Es.
  destruct (store_hwaddr_bytes _ _ _ _ _ Es Hlen) as [Hb Ht]. destruct (store_hwaddr_keeps _ _ _ _ _ Es) as (Ea & Ev & Eh).
  assert (find_by_addr a (with_dirty b false (with_leases (<[k := l1]> (leases db)) db)) = Some l1) as Hf.
  { unfold find_by_addr. cbn. rewrite Ek. by rewrite lookup_insert_eq. }
  destruct clid as [c|]; [|by exists l1]. destruct (decide _) as [E|E]; [exists l1; split_and!; [done..|]; intros ? [= <-]; done|].
  set (l2 := set_dl_flags _ _). exists l2. cbn [snd].
  split_and!; [|done|done|intros ? [= <-]; done]. rewrite insert_raw_eq. unfold find_by_addr, raw_index. cbn [addr_index leases].
  assert (dl_addr l2 = a) as -> by (change (dl_addr l1 = a); congruence). rewrite (proj2 (Z.eqb_neq _ _) Hn).
  by rewrite lookup_insert_eq, lookup_insert_eq.
Qed.

Lemma allocate_v4_find a db : a <> UNSPECIFIED -> (size (leases db) < max_leases db)%nat ->
  exists db1 l, allocate_v4 a db = Some db1 /\ find_by_addr a db1 = Some l.
Proof.
  intros Hn Hs. unfold allocate_v4. rewrite (proj2 (Nat.leb_gt _ _) Hs). eexists _, _. split; [reflexivity|].
  rewrite insert_raw_eq. unfold find_by_addr, raw_index. cbn [addr_index leases with_dirty].
  assert (dl_addr (set_dl_addr a (set_dl_flags LeaseFlags.NEW lease_default)) = a) as -> by done.
  rewrite (proj2 (Z.eqb_neq _ _) Hn), lookup_insert_eq, lookup_insert_eq. reflexivity.
Qed.

Lemma length_client_hw pkt : (length (client_hw pkt) <= 16)%nat.
Proof. unfold client_hw, hw_len. rewrite length_take. change DHCP_CHADDR_MAX with 16%nat. lia. Qed.

(** The lease of a client after its ACK. *)
Definition committed (now : SystemTime) (pkt : DhcpPacket) (clid : option (list u8)) (hostname : option str) (t : Z) (l : DhcpLease) : Prop :=
  hw_bytes l = client_hw pkt /\ dl_hwaddr_type l = u8z (p_htype pkt) /\ (forall c, clid = Some c -> dl_clid l = Some c) /\
  names_agree (dl_hostname l) hostname /\ dl_expires l = expiry now t.

Lemma record_lease_find now db a pkt clid hostname t : db_ok db -> a <> UNSPECIFIED ->
  find_by_addr a db <> None \/ (size (leases db) < max_leases db)%nat ->
  exists l, find_by_addr a (record_lease now db a pkt clid hostname t) = Some l /\ committed now pkt clid hostname t l.
Proof.
  intros Hok Hn Hroom. unfold record_lease.
  assert (exists db1 l0, (if is_none (find_by_addr a db) then allocate_v4 a db else Some db) = Some db1 /\ db_ok db1 /\
    find_by_addr a db1 = Some l0) as (db1 & l0 & -> & Hok1 & Hf).
  { destruct (find_by_addr a db) as [l|] eqn:E; cbn [is_none]; [by exists db, l|].
    destruct Hroom as [?|Hs]; [done|]. destruct (allocate_v4_find a db Hn Hs) as (db1 & l & Ha & Hl). exists db1, l.
    split_and!; [done| |done]. by eapply allocate_v4_ok. }
  destruct (set_hwaddr_find a (client_hw pkt) (u8z (p_htype pkt)) clid false db1 l0 Hok1 Hf (length_client_hw pkt)) as (l1 & H1 & Hb & Ht & Hc).
  pose proof (set_hwaddr_ok a (client_hw pkt) (u8z (p_htype pkt)) clid false db1 Hok1) as Hok2.
  destruct (set_hostname_find a hostname false _ l1 Hok2 H1) as (l2 & H2 & (A1 & A2 & A3 & A4 & _) & Hh).
  destruct (set_expires_find now a t _ l2 H2) as (l3 & H3 & (B1 & B2 & B3 & B4 & _) & Eh & Ee).
  exists l3. split; [done|]. unfold committed. split_and!; [|congruence|intros c Hx; rewrite B4, A4; by apply Hc|by rewrite Eh|done].
  rewrite <- Hb. unfold hw_bytes. congruence.
Qed.

Lemma record_lease_full now db a pkt clid hostname t : find_by_addr a db = None -> (max_leases db <= size (leases db))%nat ->
  record_lease now db a pkt clid hostname t = db.
Proof. intros Hn Hf. unfold record_lease, allocate_v4. rewrite Hn. cbn [is_none]. by rewrite (proj2 (Nat.leb_le _ _)). Qed.

Lemma decorate_keeps reply pkt cfg tags config :
  let r := decorate_reply reply pkt cfg tags config in
  rp_msg_type r = rp_msg_type reply /\ rp_yiaddr r = rp_yiaddr reply /\ rp_giaddr r = rp_giaddr reply /\
  rp_ciaddr_override r = rp_ciaddr_override reply /\ rp_chaddr_override r = rp_chaddr_override reply.
Proof.
  unfold decorate_reply. destruct (option_filter _ _ _ _ _) as [ft co]. cbn zeta. unfold apply_boot.
  destruct (select_boot _ _); by split_and!.
Qed.

Lemma finish_spec env pkt cfg t tags config clid host reply db d db' :
  finish env pkt cfg t tags config clid host reply db = (d, db') ->
  rp_msg_type (dd_reply d) = rp_msg_type reply /\ rp_yiaddr (dd_reply d) = rp_yiaddr reply /\
  db' = if bool_decide (rp_msg_type reply = Ack) && negb (rp_yiaddr reply =? UNSPECIFIED)
           && negb (bool_decide (get_message_type (p_options pkt) = Some Inform))
        then record_lease (now_commit env) db (rp_yiaddr reply) pkt clid host (lease_time_of (context_for_reply cfg (rp_yiaddr reply))) else db.
Proof.
  unfold finish. destruct (decorate_keeps reply pkt cfg tags config) as (Em & Ey & _). cbv zeta. rewrite Em, Ey.
  intros E. apply pair_equal_spec in E as [<- <-]. done.
Qed.

(** An acknowledged address is in range, for every message. *)
Lemma answer_ack env pkt cfg t tags config st db cache r db' cache' :
  answer env pkt cfg t tags config st db cache = (Some r, db', cache') -> rp_msg_type r = Ack -> rp_yiaddr r <> UNSPECIFIED ->
  db' = db /\ t <> Inform /\ address_in_range (rp_yiaddr r) (pool_start cfg) (pool_end cfg) st (reserved_for_other cfg config (rp_yiaddr r)) = true.
Proof.
  destruct t; cbn [answer]; try done.
  - destruct (match st with Some _ => _ | None => _ end) as [sc c]. intros [= Hr <- _] Ha Hy. split_and!; [done..|].
    unfold handle_discover in Hr. destruct (pick_offer_addr _ _ _ _ _) as [y|]; [|by destruct (_ && _)].
    destruct (rapid_commit cfg && _); [|by injection Hr as <-]. unfold make_rapid_commit_ack in Hr.
    destruct (address_in_range _ _ _ _ _) eqn:E; [|done]. injection Hr as <-. exact E.
  - intros [= Hr <- _] Ha Hy. split_and!; [done..|]. unfold handle_request in Hr. destruct (requested_addr pkt) as [q|]; [|done].
    destruct (address_in_range _ _ _ _ _) eqn:E; injection Hr as <-; [|done]. cbn [rp_yiaddr] in *.
    destruct st as [s|]; [|exact E]. unfold address_in_range in *. cbn [default from_option].
    apply andb_true_iff in E as [E1 E2]. apply Z.eqb_eq in E2. subst q. rewrite Z.eqb_refl, andb_true_r. exact E1.
  - intros [= Hr <- _] Ha Hy. unfold handle_inform in Hr. destruct (_ =? _); [done|]. by injection Hr as <-.
Qed.

Lemma leasequery_not_ack env pkt cfg db tags l d : dispatch_leasequery env pkt cfg db tags l = Some d -> rp_msg_type (dd_reply d) <> Ack.
Proof.
  unfold dispatch_leasequery. destruct (negb _); [done|]. cbv zeta.
  destruct (classify_query _ _ _) as [ty ol] eqn:Ec. intros [= <-]. cbn [dd_reply].
  assert (ty <> Ack) as Hty.
  { unfold classify_query in Ec. destruct (if p_ciaddr pkt =? UNSPECIFIED then _ else _); [destruct (is_none _)|destruct (_ && _)]; by injection Ec as <- _. }
  by destruct ol.
Qed.

Lemma bootp_not_ack env pkt cfg tags config st l clid host db cache d db' cache' :
  dispatch_bootp env pkt cfg tags config st l clid host db cache = (Some d, db', cache') -> rp_msg_type (dd_reply d) <> Ack.
Proof.
  unfold dispatch_bootp. destruct (_ || _); [done|]. destruct (disabled_by_tags _ _); [done|].
  destruct (bootp_addr _ _ _ _ _ _ _ _) as [[a|] c]; [|done]. destruct (narrow_context _ _); [|done]. destruct (_ && _); [done|].
  intros [= <- _ _]. cbn [dd_reply set_rp_options rp_msg_type].
  destruct (decorate_keeps (handle_bootp pkt a (server_ip cfg)) pkt cfg (bootp_tags pkt tags config) config) as (-> & _). done.
Qed.

(** C20: what an acknowledgement commits the server to. When the server
    acknowledges an address, the address is the client's reservation or, without
    one, in the pool, and it is not reserved for another host. When the address
    has a lease already, or the database has room for one, the lease at that
    address afterwards carries the client's hardware address, its client id, its
    name and the time of the range. In the one other case, an address without a
    lease and a full database, nothing at all is recorded: the client is told
    that it has an address, and the database is as before. *)
Theorem ack_commits_lease env pkt cfg db cache d db' cache' tags :
  db_ok db -> derived_tags pkt cfg (client_hostname pkt) = Val tags ->
  dispatch_dhcp_with_meta env pkt cfg db cache = Val (Some d, db', cache') ->
  rp_msg_type (dd_reply d) = Ack -> rp_yiaddr (dd_reply d) <> UNSPECIFIED ->
  let a := rp_yiaddr (dd_reply d) in
  let config := client_config pkt cfg tags in
  match static_addr_of (config_at (configs cfg) config) with Some s => a = s | None => pool_start cfg <= a <= pool_end cfg end /\
  reserved_for_other cfg config a = false /\
  (find_by_addr a db <> None \/ (size (leases db) < max_leases db)%nat ->
   exists l, find_by_addr a db' = Some l /\
     committed (now_commit env) pkt (find_option (p_options pkt) OPTION_CLIENT_ID) (client_hostname pkt)
       (lease_time_of (context_for_reply cfg a)) l) /\
  (find_by_addr a db = None -> (max_leases db <= size (leases db))%nat -> db' = db).
Proof.
  intros Hok Ht. unfold dispatch_dhcp_with_meta. rewrite Ht. destruct (disabled_by_tags _ _); [done|]. destruct (existsb _ _); [done|].
  destruct (match config_at _ _ with Some _ => _ | None => _ end); [done|].
  destruct (get_message_type _) as [t|] eqn:Em.
  2: { destruct (negb _); [done|]. intros [= E] Ha _. by apply bootp_not_ack in E. }
  destruct (decide _); [intros [= E _ _] Ha _; by apply leasequery_not_ack in E|].
  destruct (answer _ _ _ _ _ _ _ _ _) as [[[reply|] db1] c1] eqn:Ea; [|done].
  destruct (finish _ _ _ _ _ _ _ _ _ _) as [d0 db2] eqn:Ef. apply finish_spec in Ef as (Em' & Ey & ->).
  intros [= <- <- _]. rewrite Em', Ey. intros Hack Hy.
  destruct (answer_ack _ _ _ _ _ _ _ _ _ _ _ _ Ea Hack Hy) as (-> & Hni & Hr).
  apply andb_true_iff in Hr as [Hres%negb_true_iff Hrng]. split_and!; [|done|..].
  - destruct (static_addr_of _); [by apply Z.eqb_eq|]. unfold in_pool in Hrng. apply andb_true_iff in Hrng as [?%Z.leb_le ?%Z.leb_le]. lia.
  - intros Hroom. rewrite Hack, bool_decide_true, (proj2 (Z.eqb_neq _ _) Hy) by done.
    rewrite bool_decide_false by congruence. cbn [andb negb]. by apply record_lease_find.
  - intros Hno Hfull. destruct (_ && _); [|done]. by apply record_lease_full.
Qed.
End Commit.

(** ** Replies on the wire *)

Section Wire.
Context `{Hord : HashOrder}.

(** The reply as a packet. *)
Definition reply_packet (reply : DhcpReply) (request : DhcpPacket) : DhcpPacket :=
  let '(chaddr, hlen, htype) := default (p_chaddr request, p_hlen request, p_htype request) (rp_chaddr_override reply) in
  mkDhcpPacket BOOTREPLY htype hlen Byte.x00 (p_xid request) 0 0 (default (p_ciaddr request) (rp_ciaddr_override reply)) (rp_yiaddr reply)
    (rp_siaddr reply) (rp_giaddr reply) chaddr (name_field 64 (rp_sname reply)) (name_field 128 (rp_file reply)) (rp_options reply).

Lemma reply_wire_eq reply request : dhcp_reply_to_wire reply request = dhcp_packet_to_wire (reply_packet reply request).
Proof. unfold dhcp_reply_to_wire, reply_packet. by destruct (default _ _) as [[chaddr hlen] htype]. Qed.

Lemma build_reply_repr t server : repr (build_reply_options t server) [(OPTION_MESSAGE_TYPE, [msg_type_code t]); (OPTION_SERVER_IDENTIFIER, octets4 server)].
Proof.
  split; [|left; reflexivity]. repeat constructor; try done; cbn [snd length]; rewrite ?length_octets4; lia.
Qed.

Lemma find_byte_app c p s : c ∉ p -> find_byte c (p ++ c :: s) = Some (length p).
Proof.
  induction p as [|b p IH]; intros Hp; cbn; [by rewrite decide_True|]. rewrite decide_False by set_solver. by rewrite IH by set_solver.
Qed.

(** Without a byte 255 in the server's address the option ends up behind the
    server identifier. *)
Lemma rapid_commit_repr reply server ps pe st res r : OPTION_END ∉ octets4 server ->
  make_rapid_commit_ack reply server ps pe st res = Some r ->
  rp_msg_type r = Ack /\
  repr (rp_options r) [(OPTION_MESSAGE_TYPE, [msg_type_code Ack]); (OPTION_SERVER_IDENTIFIER, octets4 server); (OPTION_RAPID_COMMIT, [])].
Proof.
  intros Hs. unfold make_rapid_commit_ack. destruct (negb _); [done|]. cbv zeta.
  set (pre := option_msg_type Ack ++ [OPTION_SERVER_IDENTIFIER; z8 4] ++ octets4 server).
  assert (build_reply_options Ack server = pre ++ [OPTION_END]) as -> by (unfold pre, build_reply_options; by rewrite <- !app_assoc).
  assert (OPTION_END ∉ pre) as Hn.
  { unfold pre. rewrite !not_elem_of_app. split_and!; [| |done]; by apply (bool_decide_unpack _); vm_compute. }
  assert (area [(OPTION_MESSAGE_TYPE, [msg_type_code Ack]); (OPTION_SERVER_IDENTIFIER, octets4 server); (OPTION_RAPID_COMMIT, [])]
    = pre ++ [OPTION_RAPID_COMMIT; z8 0]) as Ea by done.
  clearbody pre. rewrite find_byte_app by done. intros [= <-]. split; [done|]. cbn [rp_options]. rewrite take_app_length, drop_app_length.
  split; [repeat constructor; try done; cbn [snd length]; rewrite ?length_octets4; lia|]. left. rewrite Ea. by rewrite <- !app_assoc.
Qed.

Lemma carries_decorate l reply pkt cfg tags config : Forall opt_fits (dhcp_opts cfg) ->
  carries l (rp_options reply) -> carries l (rp_options (decorate_reply reply pkt cfg tags config)).
Proof.
  intros Hf Hc. unfold decorate_reply.
  pose proof (option_filter_vals (with_config_tags tags config) (context_tags (context_for_reply cfg (rp_yiaddr reply))) (dhcp_opts cfg)
    (if is_pxe_client (find_option (p_options pkt) OPTION_VENDOR_ID) then 1 else 0) (tag_rules cfg)) as Hv.
  destruct (option_filter _ _ _ _ _) as [ft co]. cbn [snd] in Hv. pose proof (same_vals_fits _ _ Hv Hf) as Hf1. cbv zeta.
  set (r1 := apply_boot _ _). assert (rp_options r1 = rp_options reply) as Er by (unfold r1, apply_boot; by destruct (select_boot _ _)).
  set (ocfg := mkDoOptions _ _ _ _ _ _ _ _ _ _ _ _ _ _ _ _ _). cbn [rp_options set_rp_options].
  assert (carries l (fst (do_options (if match rp_msg_type r1 with Offer => true
      | Ack => negb (bool_decide (get_message_type (p_options pkt) = Some Inform)) | _ => false end
    then option_put (rp_options r1) OPTION_LEASE_TIME (lease_time_of (context_for_reply cfg (rp_yiaddr reply))) 4 else rp_options r1) ocfg))) as H1.
  { apply carries_do_options; [done..|]. rewrite Er. apply carries_if; [by apply carries_put4|done]. }
  destruct (find_option _ OPTION_AGENT_ID); [by apply carries_put_raw|exact H1].
Qed.

(** The options every reply of a kind begins with. *)
Definition reply_head (cfg : DhcpServerConfig) (reply : DhcpReply) : list tlv :=
  match rp_msg_type reply with
  | Bootp => []
  | LeaseUnknown | LeaseUnassigned | LeaseActive => [(OPTION_MESSAGE_TYPE, [msg_type_code (rp_msg_type reply)])]
  | t => [(OPTION_MESSAGE_TYPE, [msg_type_code t]); (OPTION_SERVER_IDENTIFIER, octets4 (server_ip cfg))]
  end.
Definition rapid_ok (cfg : DhcpServerConfig) : Prop := rapid_commit cfg = true -> OPTION_END ∉ octets4 (server_ip cfg).

Lemma answer_head env pkt cfg t tags config st db cache r db' cache' : rapid_ok cfg ->
  answer env pkt cfg t tags config st db cache = (Some r, db', cache') ->
  rp_msg_type r ∈ [Offer; Ack; Nak] /\ carries (reply_head cfg r) (rp_options r).
Proof.
  intros Hrap.
  assert (forall t y si gi, t ∈ [Offer; Ack; Nak] -> let r := mkReply t y (build_reply_options t (server_ip cfg)) si gi None None None None in
    rp_msg_type r ∈ [Offer; Ack; Nak] /\ carries (reply_head cfg r) (rp_options r)) as Hbuild.
  { intros t' y si gi Ht'. split; [done|]. apply carries_refl. cbn [rp_options]. unfold reply_head. cbn [rp_msg_type].
    rewrite !elem_of_cons in Ht'. destruct Ht' as [-> |[-> |[-> |?%not_elem_of_nil]]]; [apply build_reply_repr..|done]. }
  destruct t; cbn [answer]; try done.
  - destruct (match st with Some _ => _ | None => _ end) as [sc c]. intros [= Hr _ _]. unfold handle_discover in Hr.
    destruct (pick_offer_addr _ _ _ _ _) as [y|]; [|by destruct (_ && _)]. destruct (rapid_commit cfg) eqn:Erc; cbn [andb] in Hr.
    + destruct (negb _); [|injection Hr as <-; apply Hbuild; set_solver]. apply rapid_commit_repr in Hr as [Et Hr]; [|by apply Hrap].
      unfold reply_head. rewrite Et. split; [set_solver|]. by exists [(OPTION_RAPID_COMMIT, [])].
    + injection Hr as <-. apply Hbuild. set_solver.
  - intros [= Hr _ _]. unfold handle_request in Hr. destruct (requested_addr pkt); [|done].
    destruct (address_in_range _ _ _ _ _); injection Hr as <-; apply Hbuild; set_solver.
  - intros [= Hr _ _]. unfold handle_inform in Hr. destruct (_ =? _); [done|]. injection Hr as <-. apply Hbuild. set_solver.
Qed.

Lemma carries_leasequery now pkt t l req ctx tags co dom full : Forall opt_fits co ->
  carries [(OPTION_MESSAGE_TYPE, [msg_type_code t])] (rp_options (handle_leasequery now pkt t l req ctx tags co dom full)).
Proof.
  intros Hf. assert (carries [(OPTION_MESSAGE_TYPE, [msg_type_code t])] (option_put [] OPTION_MESSAGE_TYPE (u8z (msg_type_code t)) 1)) as H0.
  { apply carries_refl. pose proof (option_put_repr [] [] OPTION_MESSAGE_TYPE (u8z (msg_type_code t)) 1) as Hp. cbn [to_be app] in Hp.
    rewrite z8_u8z in Hp. apply Hp; [split; [constructor|by right]|done|done|lia]. }
  unfold handle_leasequery. destruct l as [l|]; [|exact H0]. cbv zeta. cbn [rp_options].
  match goal with |- context [do_options ?x ?y] => assert (carries [(OPTION_MESSAGE_TYPE, [msg_type_code t])] (fst (do_options x y))) as H1 end.
  { apply carries_do_options; [done..|]. unfold leasequery_times. carry. }
  destruct (dl_agent_id l); [|exact H1]. apply carries_if; [by apply carries_put_raw|exact H1].
Qed.

(** A reply with its head, of a kind the server sends, and short if BOOTP. *)
Definition reply_shape (cfg : DhcpServerConfig) (r : DhcpReply) : Prop :=
  carries (reply_head cfg r) (rp_options r) /\
  rp_msg_type r ∈ [Bootp; Offer; Ack; Nak; LeaseUnassigned; LeaseUnknown; LeaseActive] /\
  (rp_msg_type r = Bootp -> (length (rp_options r) <= 64)%nat).

Lemma leasequery_shape env pkt cfg db tags l d : Forall opt_fits (dhcp_opts cfg) ->
  dispatch_leasequery env pkt cfg db tags l = Some d -> reply_shape cfg (dd_reply d).
Proof.
  intros Hfit. unfold dispatch_leasequery. destruct (negb _); [done|]. cbv zeta.
  destruct (classify_query _ _ _) as [ty ol] eqn:Ec. assert (ty ∈ [LeaseUnassigned; LeaseUnknown; LeaseActive]) as Hty.
  { unfold classify_query in Ec. destruct (if p_ciaddr pkt =? UNSPECIFIED then _ else _); [destruct (is_none _)|destruct (_ && _)];
      injection Ec as <- _; set_solver. }
  assert (forall r, rp_msg_type r = ty -> carries [(OPTION_MESSAGE_TYPE, [msg_type_code ty])] (rp_options r) -> reply_shape cfg r) as Hq.
  { intros r Er Hc. unfold reply_shape, reply_head. rewrite Er. rewrite !elem_of_cons in Hty.
    destruct Hty as [-> |[-> |[-> |?%not_elem_of_nil]]]; [| | |done]; (split_and!; [exact Hc|set_solver|done]). }
  intros E. apply (f_equal (default (mkDispatched (handle_bootp pkt 0 0) 0))) in E. cbn [default from_option id] in E. rewrite <- E. cbn [dd_reply].
  destruct ol as [l'|]; [|apply Hq; [done|by apply carries_leasequery]].
  match goal with |- context [option_filter ?a ?b ?c ?x ?y] => pose proof (option_filter_vals a b c x y) as Hv; destruct (option_filter a b c x y) as [ft co] end.
  apply Hq; [done|]. apply carries_leasequery. by eapply same_vals_fits.
Qed.

Lemma bootp_shape env pkt cfg tags config st l clid host db cache d db' cache' : Forall opt_fits (dhcp_opts cfg) ->
  dispatch_bootp env pkt cfg tags config st l clid host db cache = (Some d, db', cache') -> reply_shape cfg (dd_reply d).
Proof.
  intros Hfit E. unfold dispatch_bootp in E. destruct (_ || _); [done|].
  destruct (disabled_by_tags _ _); [done|]. destruct (bootp_addr _ _ _ _ _ _ _ _) as [[a|] c]; [|done].
  destruct (narrow_context _ _); [|done]. destruct (_ && _); [done|].
  pose proof (carries_decorate [] (handle_bootp pkt a (server_ip cfg)) pkt cfg (bootp_tags pkt tags config) config Hfit) as Hd.
  destruct (decorate_keeps (handle_bootp pkt a (server_ip cfg)) pkt cfg (bootp_tags pkt tags config) config) as (Em & _).
  set (rd := decorate_reply _ _ _ _ _) in *. clearbody rd. injection E as <- _ _. cbn [dd_reply].
  destruct Hd as [l' Hl]; [apply carries_refl; split; [constructor|by right]|]. unfold reply_shape, reply_head.
  cbn [rp_msg_type rp_options set_rp_options]. rewrite Em. cbn [rp_msg_type handle_bootp].
  split_and!; [eexists; by apply cap_vendor_area_repr|set_solver|]. intros _.
  rewrite (cap_vendor_area_eq _ _ 64 Hl), length_app. destruct (fit_prefix_spec (64 - 1) ([] ++ l')) as (_ & Hlen & _). cbn [length]. lia.
Qed.

Lemma dispatch_shape env pkt cfg db cache d db' cache' : rapid_ok cfg -> Forall opt_fits (dhcp_opts cfg) ->
  dispatch_dhcp_with_meta env pkt cfg db cache = Val (Some d, db', cache') -> reply_shape cfg (dd_reply d).
Proof.
  intros Hrap Hfit. unfold dispatch_dhcp_with_meta. destruct (derived_tags _ _ _) as [tags|]; [|done].
  destruct (disabled_by_tags _ _); [done|]. destruct (existsb _ _); [done|].
  destruct (match config_at _ _ with Some _ => _ | None => _ end); [done|].
  set (entry := config_at _ _). destruct (get_message_type (p_options pkt)) as [t|].
  - destruct (decide _); [intros [= E _ _]; by eapply leasequery_shape|].
    destruct (answer _ _ _ _ _ _ _ _ _) as [[[reply|] db1] c1] eqn:Ea; [|done]. apply answer_head in Ea as [Ht Hc]; [|done].
    unfold finish. cbv zeta. destruct (decorate_keeps reply pkt cfg tags entry) as (Em & _).
    pose proof (carries_decorate _ reply pkt cfg tags entry Hfit Hc) as Hd. set (rd := decorate_reply _ _ _ _ _) in *. clearbody rd.
    intros [= <- _ _]. cbn [dd_reply]. unfold reply_shape, reply_head in *. rewrite Em in *. rewrite !elem_of_cons in Ht.
    destruct Ht as [Ht|[Ht|[Ht|?%not_elem_of_nil]]]; [| | |done]; rewrite Ht in *; (split_and!; [exact Hd|set_solver|done]).
  - destruct (negb _); [done|]. intros [= E]. by eapply bootp_shape.
Qed.

(** A client can read what the server sends. Every reply goes out as a
    packet of at least 300 bytes that parses back: a BOOTP reply with the
    request's transaction id, the address given and a well-formed option area
    that says of which kind the reply is and, for offers and acknowledgements,
    which server it is from; a BOOTP answer keeps its options to 64 bytes. The
    configured options must fit their length byte, and with rapid commit no
    byte of the server's address may be 255. *)
Theorem dhcp_reply_readable env pkt cfg db cache d db' cache' :
  rapid_ok cfg -> Forall opt_fits (dhcp_opts cfg) ->
  dispatch_dhcp_with_meta env pkt cfg db cache = Val (Some d, db', cache') ->
  dhcp_packet_ok (reply_packet (dd_reply d) pkt) ->
  exists p l, parse_dhcp_packet (dhcp_reply_to_wire (dd_reply d) pkt) = Some p /\
    (300 <= length (dhcp_reply_to_wire (dd_reply d) pkt))%nat /\
    p_op p = BOOTREPLY /\ p_xid p = p_xid pkt /\ p_yiaddr p = rp_yiaddr (dd_reply d) /\ p_giaddr p = rp_giaddr (dd_reply d) /\
    repr (rp_options (dd_reply d)) l /\ (forall code, find_option (p_options p) code = tlv_get l code) /\
    (rp_msg_type (dd_reply d) <> Bootp -> get_message_type (p_options p) = Some (rp_msg_type (dd_reply d))) /\
    (rp_msg_type (dd_reply d) ∈ [Offer; Ack; Nak] -> find_option (p_options p) OPTION_SERVER_IDENTIFIER = Some (octets4 (server_ip cfg))) /\
    (rp_msg_type (dd_reply d) = Bootp -> (length (rp_options (dd_reply d)) <= 64)%nat).
Proof.
  intros Hrap Hfit Hd Hok. destruct (dispatch_shape _ _ _ _ _ _ _ _ Hrap Hfit Hd) as ([l' Hr] & Hty & H64).
  destruct (wire_parses _ Hok) as (pad & Hp & H300). rewrite reply_wire_eq. set (r := dd_reply d) in *.
  assert (forall code, find_option (ended (p_options (reply_packet r pkt)) ++ replicate pad Byte.x00) code = tlv_get (reply_head cfg r ++ l') code) as Hf.
  { intros code. apply find_option_ended. unfold reply_packet. by destruct (default _ _) as [[? ?] ?]. }
  eexists _, (reply_head cfg r ++ l'). split; [exact Hp|]. split; [exact H300|].
  assert (p_op (reply_packet r pkt) = BOOTREPLY /\ p_xid (reply_packet r pkt) = p_xid pkt /\ p_yiaddr (reply_packet r pkt) = rp_yiaddr r /\
    p_giaddr (reply_packet r pkt) = rp_giaddr r) as (E1 & E2 & E3 & E4).
  { unfold reply_packet. by destruct (default _ _) as [[? ?] ?]. }
  split_and!; [exact E1|exact E2|exact E3|exact E4|exact Hr|exact Hf| | |exact H64].
  - intros Hnb. unfold get_message_type. cbn [p_options set_p_options]. rewrite Hf. unfold reply_head. rewrite !elem_of_cons in Hty.
    by destruct Hty as [E|[E|[E|[E|[E|[E|[E|?%not_elem_of_nil]]]]]]]; rewrite ?E in *.
  - intros Ht. cbn [p_options set_p_options]. rewrite Hf. unfold reply_head. rewrite !elem_of_cons in Ht.
    destruct Ht as [E|[E|[E|?%not_elem_of_nil]]]; [| | |done]; rewrite E; done.
Qed.
End Wire.

(** ** Examples *)

(** A server at 10.0.0.1 with the addresses 10.0.0.5 to 10.0.0.8. *)
Definition ex_cfg : DhcpServerConfig :=
  mkServerConfig 0x0A000005 0x0A000008 0x0A000001 [] [] [] [] [] [] [] [] [] None [] [] [] true false [] [] false [] false 0.
(** A message of the client with the hardware address 02:00:00:00:00:[n]. *)
Definition ex_msg (n : Z) (options : list tlv) : DhcpPacket :=
  mkDhcpPacket BOOTREQUEST (z8 1) (z8 6) Byte.x00 0x12345678 0 0 0 0 0 0
    ((z8 <$> [2; 0; 0; 0; 0; n]) ++ replicate 10 Byte.x00) (replicate 64 Byte.x00) (replicate 128 Byte.x00) (area options ++ [OPTION_END]).
Definition ex_request (n : Z) (addr : Ipv4Addr) : DhcpPacket :=
  ex_msg n [(OPTION_MESSAGE_TYPE, [z8 3]); (OPTION_REQUESTED_IP, octets4 addr); (OPTION_HOSTNAME, bs "laptop")].
Definition ex_env : PacketEnv := null_env 0.
Definition run_one (pkt : DhcpPacket) (cfg : DhcpServerConfig) (db : LeaseDb) : outcome (option DispatchedDhcpReply * LeaseDb * PingCache) :=
  dispatch_dhcp_with_meta (H := list_order) ex_env pkt cfg db [].
Definition reply_of (o : outcome (option DispatchedDhcpReply * LeaseDb * PingCache)) : option DhcpReply :=
  match o with Val (Some d, _, _) => Some (dd_reply d) | _ => None end.
Definition db_of (o : outcome (option DispatchedDhcpReply * LeaseDb * PingCache)) : LeaseDb :=
  match o with Val (_, db, _) => db | Panic => db_new end.
Definition ex_ack : outcome (option DispatchedDhcpReply * LeaseDb * PingCache) := run_one (ex_request 1 0x0A000006) ex_cfg (db_empty 4).
Definition ex_dispatched : DispatchedDhcpReply :=
  match ex_ack with Val (Some d, _, _) => d | _ => mkDispatched (handle_bootp sample_request 0 0) 0 end.

Example ex_acked : rp_msg_type <$> reply_of ex_ack = Some Ack /\ rp_yiaddr <$> reply_of ex_ack = Some 0x0A000006.
Proof. by split; vm_compute. Qed.

Lemma ex_ack_eq : ex_ack = Val (Some ex_dispatched, db_of ex_ack, []).
Proof. by vm_compute. Qed.

Lemma dhcp_server_refines_leases_witness : rtc (lease_step (Hord := list_order)) (db_empty 4) (db_of ex_ack) /\ db_ok (db_of ex_ack).
Proof.
  assert (rtc (server_step (Hord := list_order)) (ex_cfg, db_empty 4, []) (ex_cfg, db_of ex_ack, [])) as Hr.
  { apply rtc_once, (PacketStep (Hord := list_order) ex_env (ex_request 1 0x0A000006) None (Some ex_dispatched)).
    unfold dispatch_dhcp_with_arrival. change (dispatch_dhcp_with_meta _ _ _ _ _) with ex_ack. by rewrite ex_ack_eq. }
  destruct (dhcp_server_refines_leases (Hord := list_order) 4 _ _ _ _ _ Hr) as (A & B & _). exact (conj A B).
Defined.

Lemma ack_commits_lease_witness : exists l, find_by_addr 0x0A000006 (db_of ex_ack) = Some l /\ hw_bytes l = z8 <$> [2; 0; 0; 0; 0; 1].
Proof.
  destruct (ack_commits_lease (Hord := list_order) ex_env (ex_request 1 0x0A000006) ex_cfg (db_empty 4) [] ex_dispatched (db_of ex_ack) [] [])
    as (_ & _ & Hl & _); [apply db_empty_ok|by vm_compute|exact ex_ack_eq|by vm_compute|by vm_compute|].
  destruct Hl as (l & Hl & Hb & _); [right; vm_compute; lia|]. exists l. split; [exact Hl|]. rewrite Hb. by vm_compute.
Defined.

Lemma dhcp_reply_readable_witness : exists p, parse_dhcp_packet (dhcp_reply_to_wire (dd_reply ex_dispatched) (ex_request 1 0x0A000006)) = Some p /\
  get_message_type (p_options p) = Some Ack /\ find_option (p_options p) OPTION_SERVER_IDENTIFIER = Some (octets4 0x0A000001).
Proof.
  destruct (dhcp_reply_readable (Hord := list_order) ex_env (ex_request 1 0x0A000006) ex_cfg (db_empty 4) [] ex_dispatched (db_of ex_ack) [])
    as (p & l & Hp & _ & _ & _ & _ & _ & _ & _ & Hm & Hs & _).
  - intros ?. done.
  - constructor.
  - exact ex_ack_eq.
  - split; vm_compute; repeat split; discriminate.
  - exists p. split; [exact Hp|]. assert (rp_msg_type (dd_reply ex_dispatched) = Ack) as E by (by vm_compute). rewrite E in Hm, Hs.
    split; [by apply Hm|]. apply Hs. set_solver.
Defined.

(** A full database: the address is acknowledged and not recorded. *)
Example ack_without_record :
  let o := run_one (ex_request 1 0x0A000006) ex_cfg (db_empty 0) in
  rp_msg_type <$> reply_of o = Some Ack /\ rp_yiaddr <$> reply_of o = Some 0x0A000006 /\ size (leases (db_of o)) = 0%nat.
Proof. by split_and!; vm_compute. Qed.

(** Two clients without a client id: their leases share the key of an empty
    hardware address, under which [allocate_v4] files a new lease, so the
    second acknowledgement removes the lease of the first client. *)
Example second_ack_evicts_first :
  let db1 := db_of ex_ack in
  let db2 := db_of (run_one (ex_request 2 0x0A000007) ex_cfg db1) in
  negb (is_none (find_by_addr 0x0A000006 db1)) = true /\
  rp_msg_type <$> reply_of (run_one (ex_request 2 0x0A000007) ex_cfg db1) = Some Ack /\
  is_none (find_by_addr 0x0A000006 db2) = true /\ size (leases db2) = 1%nat.
Proof. by split_and!; vm_compute. Qed.

(** A request for the leased address of another client is acknowledged, and
    the lease changes hands. *)
Example request_takes_over_lease :
  let db2 := db_of (run_one (ex_request 2 0x0A000006) ex_cfg (db_of ex_ack)) in
  rp_msg_type <$> reply_of (run_one (ex_request 2 0x0A000006) ex_cfg (db_of ex_ack)) = Some Ack /\
  hw_bytes <$> find_by_addr 0x0A000006 (db_of ex_ack) = Some (z8 <$> [2; 0; 0; 0; 0; 1]) /\
  hw_bytes <$> find_by_addr 0x0A000006 db2 = Some (z8 <$> [2; 0; 0; 0; 0; 2]).
Proof. by split_and!; vm_compute. Qed.

(** The rapid-commit option breaks the server identifier of a server whose
    address has a byte 255. *)
Example rapid_commit_breaks_server_id :
  let reply := mkReply Offer 0x0A00FF05 [] 0x0A00FF01 0 None None None None in
  match make_rapid_commit_ack reply 0x0A00FF01 0x0A00FF05 0x0A00FF08 None false with
  | Some r => find_option (rp_options r) OPTION_SERVER_IDENTIFIER = Some (z8 <$> [10; 0; 80; 0])
  | None => False
  end.
Proof. by vm_compute. Qed.

(** A host name whose first character takes two bytes, against a wildcard rule
    of one byte, panics the server. *)
Example name_rule_panics :
  derived_tags (ex_msg 1 [(OPTION_HOSTNAME, [Byte.xc3; Byte.xa9; Byte.x31])])
    (mkServerConfig 0 0 0 [] [] [] [] [] [] [] [] [] None [] [mkNameRule (mkNetid (bs "tag")) (bs "x") true] [] false false [] [] false [] false 0)
    (Some [Byte.xc3; Byte.xa9; Byte.x31]) = Panic.
Proof. by vm_compute. Qed.
