(* ===== verification/Records.v ===== *)
(** * Configured records: src/src/types/dns_records.rs

    The records of the configuration the daemon answers from itself. *)

From Stdlib Require Import ZArith Lia String.
From stdpp Require Import base numbers list option.
From S2P Require Import Prelude Types.

#[local] Open Scope Z_scope.

Record MxSrvRecord : Type := mkMxSrv {
  mx_name : str; mx_target : str; mx_is_srv : bool; mx_srv_port : Z; mx_priority : Z; mx_weight : Z; mx_offset : Z }.

Record Naptr : Type := mkNaptr {
  na_name : str; na_replace : str; na_regexp : str; na_services : str; na_flags : str; na_order : Z; na_pref : Z }.

Record TxtRecord : Type := mkTxt { txt_name : str; txt_txt : list u8; txt_class : Z; txt_stat : Z }.

Record PtrRecord : Type := mkPtr { ptr_name : str; ptr_ptr : str }.

(** The [Cname] of the source. *)
Record CnameRec : Type := mkCnameRec { cn_ttl : Z; cn_flag : Z; cn_alias : str; cn_target : str }.

Definition ADDRLIST_LITERAL : Z := 1.
Definition ADDRLIST_IPV6 : Z := 2.
Definition ADDRLIST_REVONLY : Z := 4.
Definition ADDRLIST_PREFIX : Z := 8.
Definition ADDRLIST_WILDCARD : Z := 16.
Definition ADDRLIST_DECLINED : Z := 32.
Record Addrlist : Type := mkAddrlist { al_addr : AllAddr; al_flags : Z; al_prefixlen : Z; al_decline_time : option Z }.

Record AuthNameEntry : Type := mkAuthName { an_name : str; an_flags : Z }.
Record AuthZone : Type := mkAuthZone {
  az_domain : str; az_interface_names : list AuthNameEntry; az_subnet : list Addrlist; az_exclude : list Addrlist }.

Record HostRecord : Type := mkHost {
  hr_ttl : Z; hr_flags : Z; hr_names : list str; hr_addr4 : option Ipv4Addr; hr_addr6 : option Ipv6Addr }.

Record InterfaceName : Type := mkIntName {
  in_name : str; in_intr : str; in_flags : Z; in_proto4 : option Ipv4Addr; in_proto6 : option Ipv6Addr; in_addrs : list Addrlist }.

(** An interface name or address of the command line: src/src/types/network.rs. *)
Record Iname : Type := mkIname { ina_name : option str; ina_addr : option MySockAddr; ina_flags : Z }.

Record Doctor : Type := mkDoctor { do_in : Ipv4Addr; do_end : Ipv4Addr; do_out : Ipv4Addr; do_mask : Ipv4Addr }.
(** The names the clients with a connection mark may ask for: src/src/types/network.rs. *)
Record Allowlist : Type := mkAllow { al_mark : Z; al_mask : Z; al_patterns : list str }.
