(* ===== verification/Domain.v ===== *)
(** * Synthesised names: src/src/domain.rs

    Names made from addresses and addresses read from such names
    ([--synth-domain]), and the domain of an address ([--domain]). Cutting a
    prefix off a name panics off a character boundary, and so does the
    difference of a range that ends before it starts. *)

From Stdlib Require Import ZArith Lia String.
From stdpp Require Import base numbers list option sets.
From S2P Require Import Prelude Types Records Util StdText.

#[local] Open Scope Z_scope.

(** ** Data *)

Record CondDomain : Type := mkCondDomain {
  cd_domain : str; cd_prefix : option str; cd_interface : option str; cd_al : list Addrlist;
  cd_start : Ipv4Addr; cd_end : Ipv4Addr; cd_start6 : Ipv6Addr; cd_end6 : Ipv6Addr;
  cd_is6 : bool; cd_indexed : bool; cd_prefixlen : Z }.

(** ** Ranges *)

Definition ipv4_in_range (addr start end_ : Ipv4Addr) : bool := (start <=? addr) && (addr <=? end_).
Definition ipv6_low64 (addr : Ipv6Addr) : Z := of_be (drop 8 (octets6 addr)).
Definition ipv6_set_low64 (base : Ipv6Addr) (low : Z) : Ipv6Addr := of_be (take 8 (octets6 base) ++ to_be 8 low).
Definition ipv6_in_range (addr start end_ : Ipv6Addr) : bool :=
  (ipv6_low64 start <=? ipv6_low64 addr) && (ipv6_low64 addr <=? ipv6_low64 end_).

(** ** From names to addresses *)

(** [name.split_at(p.len())]. *)
Definition strip_prefix (name : str) (prefix : option str) : outcome (option str) :=
  match prefix with
  | None => Val (Some name)
  | Some p =>
    if (length name <? length p)%nat then Val None
    else if is_char_boundary name (length p) then
      Val (if eq_ignore_ascii_case (take (length p) name) p then Some (drop (length p) name) else None)
    else Panic
  end.

(** [s.replace(a, b)] for two ASCII characters. *)
Definition replace_byte (a b : u8) (s : str) : str := (fun x => if decide (x = a) then b else x) <$> s.
Definition dash : u8 := Byte.x2d.

(** The index of a name counts from the start of the range. *)
Definition index_addr_of (idx start end_ : Z) : outcome (option Z) :=
  if end_ <? start then Panic else Val (if idx <=? end_ - start then Some (start + idx) else None).

Definition try_synth_ipv4 (name : str) (c : CondDomain) : outcome (option Ipv4Addr) :=
  let# tail := strip_prefix name (cd_prefix c) in
  match (let! t := tail in split_once dot t) with
  | None => Val None
  | Some (label, rest) =>
    if negb (eq_ignore_ascii_case rest (cd_domain c)) then Val None
    else if cd_indexed c then
      match parse_u32 label with
      | Some idx => index_addr_of idx (cd_start c) (cd_end c)
      | None => Val None
      end
    else Val (let! addr := parse_ipv4 (replace_byte dash dot label) in
              if ipv4_in_range addr (cd_start c) (cd_end c) then Some addr else None)
  end.

Definition try_synth_ipv6 (name : str) (c : CondDomain) : outcome (option Ipv6Addr) :=
  let# tail := strip_prefix name (cd_prefix c) in
  match (let! t := tail in split_once dot t) with
  | None => Val None
  | Some (label, rest) =>
    if negb (eq_ignore_ascii_case rest (cd_domain c)) then Val None
    else if cd_indexed c then
      match parse_u64 label with
      | Some idx =>
        let# low := index_addr_of idx (ipv6_low64 (cd_start6 c)) (ipv6_low64 (cd_end6 c)) in
        Val (ipv6_set_low64 (cd_start6 c) <$> low)
      | None => Val None
      end
    else Val (let! addr := parse_ipv6 (replace_byte dash colon label) in
              if ipv6_in_range addr (cd_start6 c) (cd_end6 c) then Some addr else None)
  end.

(** The first domain of the right family that knows the name. *)
Fixpoint first_synth (is6 : bool) (try_synth : CondDomain -> outcome (option Z)) (domains : list CondDomain) : outcome (option Z) :=
  match domains with
  | [] => Val None
  | c :: rest =>
    if negb (Bool.eqb (cd_is6 c) is6) then first_synth is6 try_synth rest
    else let# r := try_synth c in
         match r with Some a => Val (Some a) | None => first_synth is6 try_synth rest end
  end.
Definition synthesize_ipv4 (name : str) : list CondDomain -> outcome (option Ipv4Addr) := first_synth false (try_synth_ipv4 name).
Definition synthesize_ipv6 (name : str) : list CondDomain -> outcome (option Ipv6Addr) := first_synth true (try_synth_ipv6 name).

(** ** From addresses to names *)

Definition synth_name (c : CondDomain) (label : str) : str := default [] (cd_prefix c) ++ label ++ [dot] ++ cd_domain c.

Definition rev_label4 (addr : Ipv4Addr) (c : CondDomain) : str :=
  if cd_indexed c then fmt_u (addr - cd_start c) else replace_byte dot dash (fmt_ipv4 addr).
Definition rev_synth_ipv4 (addr : Ipv4Addr) (domains : list CondDomain) : option str :=
  let! c := List.find (fun c => negb (cd_is6 c) && ipv4_in_range addr (cd_start c) (cd_end c)) domains in
  Some (synth_name c (rev_label4 addr c)).

(** Eight groups of four digits. *)
Fixpoint octet_pairs (o : list u8) : list str :=
  match o with
  | a :: b :: rest => (fmt_hex 2 (u8z a) ++ fmt_hex 2 (u8z b)) :: octet_pairs rest
  | _ => []
  end.
Definition rev_label6 (addr : Ipv6Addr) (c : CondDomain) : str :=
  if cd_indexed c then fmt_u (ipv6_low64 addr - ipv6_low64 (cd_start6 c)) else join [dash] (octet_pairs (octets6 addr)).
Definition rev_synth_ipv6 (addr : Ipv6Addr) (domains : list CondDomain) : option str :=
  let! c := List.find (fun c => cd_is6 c && ipv6_in_range addr (cd_start6 c) (cd_end6 c)) domains in
  Some (synth_name c (rev_label6 addr c)).

(** ** The domain of an address *)

Definition clamp (x lo hi : Z) : Z := Z.max lo (Z.min x hi).

Definition match_domain (addr : Ipv4Addr) (c : CondDomain) : bool :=
  match cd_interface c with
  | Some _ => existsb (fun al => negb (has (al_flags al) ADDRLIST_IPV6) &&
      match as_ipv4 (al_addr al) with Some a => is_same_net_prefix addr a (clamp (al_prefixlen al) 0 32) | None => false end) (cd_al c)
  | None => if negb (cd_is6 c) then ipv4_in_range addr (cd_start c) (cd_end c) else false
  end.
Definition search_domain (addr : Ipv4Addr) (domains : list CondDomain) : option CondDomain := List.find (match_domain addr) domains.
Definition get_domain (addr : Ipv4Addr) (domains : list CondDomain) (dflt : str) : str :=
  match search_domain addr domains with Some c => cd_domain c | None => dflt end.

Definition match_domain6 (addr : Ipv6Addr) (c : CondDomain) : bool :=
  match cd_interface c with
  | Some _ => existsb (fun al => has (al_flags al) ADDRLIST_IPV6 &&
      match as_ipv6 (al_addr al) with Some a => is_same_net6 addr a (Z.to_nat (clamp (al_prefixlen al) 0 128)) | None => false end) (cd_al c)
  | None =>
    if cd_is6 c then
      if 64 <=? cd_prefixlen c then
        is_same_net6 addr (cd_start6 c) 64 && (ipv6_low64 (cd_start6 c) <=? ipv6_low64 addr) && (ipv6_low64 addr <=? ipv6_low64 (cd_end6 c))
      else is_same_net6 addr (cd_start6 c) (Z.to_nat (cd_prefixlen c))
    else false
  end.
Definition search_domain6 (addr : Ipv6Addr) (domains : list CondDomain) : option CondDomain := List.find (match_domain6 addr) domains.
Definition get_domain6 (addr : Ipv6Addr) (domains : list CondDomain) (dflt : str) : str :=
  match search_domain6 addr domains with Some c => cd_domain c | None => dflt end.

(** ** Texts *)

Lemma replace_byte_back a b s : b ∉ s -> replace_byte b a (replace_byte a b s) = s.
Proof.
  intros Hb. induction s as [|x s IH]; [done|]. unfold replace_byte in *. rewrite !fmap_cons, IH by set_solver. f_equal.
  destruct (decide (x = a)) as [->|]; [by rewrite decide_True|]. by rewrite decide_False by set_solver.
Qed.
Lemma replace_byte_none a b s : a ∉ s -> replace_byte a b s = s.
Proof.
  intros Ha. induction s as [|x s IH]; [done|]. unfold replace_byte in *. rewrite fmap_cons, IH by set_solver.
  by rewrite decide_False by set_solver.
Qed.
Lemma replace_join a b ps : Forall (fun p => a ∉ p) ps -> replace_byte a b (join [a] ps) = join [b] ps.
Proof.
  induction 1 as [|p ps Hp Hps IH]; [done|]. destruct ps as [|q ps]; [by apply replace_byte_none|].
  rewrite !(join_cons _ p) by done. unfold replace_byte in *. rewrite !fmap_app, IH. f_equal; [by apply replace_byte_none|].
  cbn. by rewrite decide_True.
Qed.

Lemma digits_no_dot s : Forall digit_byte s -> dot ∉ s /\ dash ∉ s /\ is_ascii s.
Proof.
  intros H. unfold is_ascii. split_and!; [| |by eapply Forall_impl; [exact H|]; cbn; unfold digit_byte; lia];
    rewrite Forall_forall in H; intros [? ?]%H; done.
Qed.
Lemma ipv4_no_dash a : dash ∉ fmt_ipv4 a.
Proof.
  unfold fmt_ipv4. change (bs ".") with [dot]. induction (octets4 a) as [|b l IH]; [set_solver|]. rewrite fmap_cons.
  destruct (digits_no_dot _ (fmt_u_digits (u8z b))) as (_ & Hd & _). destruct l; [done|]. rewrite join_cons by done.
  rewrite !elem_of_app, list_elem_of_singleton. by intros [?|[?|?]].
Qed.
Lemma dashed_no_dot s : dot ∉ replace_byte dot dash s.
Proof.
  unfold replace_byte. rewrite list_elem_of_fmap. intros (x & Hx & _). destruct (decide (x = dot)); done.
Qed.
Lemma dashed_ascii s : is_ascii s -> is_ascii (replace_byte dot dash s).
Proof.
  intros Hs. apply Forall_fmap. eapply Forall_impl; [exact Hs|]. intros x Hx. cbn. case_decide; [done|done].
Qed.

Lemma lower_no_dot a b : to_ascii_lowercase a = to_ascii_lowercase b -> dot ∉ b -> dot ∉ a.
Proof.
  intros E Hb Ha. apply Hb. assert (dot ∈ to_ascii_lowercase b) as (x & Hx & ?)%list_elem_of_fmap.
  { rewrite <- E. apply list_elem_of_fmap. exists dot. done. }
  symmetry in Hx. rewrite lower8_dot in Hx. by subst x.
Qed.

Lemma boundary_ascii s i : is_ascii s -> (i <= length s)%nat -> is_char_boundary s i = true.
Proof. intros Hs Hi. pose proof (str_from_ascii s i Hs Hi) as E. unfold str_from in E. by destruct (is_char_boundary s i). Qed.

(** ** The prefix and the domain of a name *)

(** Cutting a prefix off leaves the domain behind the first dot alone. *)
Lemma strip_prefix_split pre dom prefix : is_ascii (pre ++ dot :: dom) -> dot ∉ pre -> dot ∉ default [] prefix ->
  strip_prefix (pre ++ dot :: dom) prefix = Val None \/
  exists pre', strip_prefix (pre ++ dot :: dom) prefix = Val (Some (pre' ++ dot :: dom)) /\ dot ∉ pre'.
Proof.
  intros Ha Hpre Hp. destruct prefix as [p|]; [|by right; exists pre]. cbn [default strip_prefix] in *.
  case_match eqn:El; [by left|]. apply Nat.ltb_ge in El. rewrite boundary_ascii by done.
  destruct (eq_ignore_ascii_case _ p) eqn:E; [|by left]. right. apply eq_ignore_ascii_case_true in E.
  assert (length p <= length pre)%nat as Hl.
  { apply Nat.nlt_ge. intros Hlt. apply (lower_no_dot _ _ E) in Hp. apply Hp.
    rewrite take_app_ge by lia. apply elem_of_app. right. destruct (length p - length pre)%nat eqn:Hd; [lia|]. cbn. set_solver. }
  exists (drop (length p) pre). split.
  - by rewrite drop_app_le by done.
  - intros Hin. apply Hpre. rewrite <- (take_drop (length p) pre). set_solver.
Qed.
Lemma strip_own_prefix prefix rest : is_ascii (default [] prefix ++ rest) ->
  strip_prefix (default [] prefix ++ rest) prefix = Val (Some rest).
Proof.
  intros Ha. destruct prefix as [p|]; [|done]. change (default [] (Some p)) with p in *. cbn [strip_prefix].
  assert (length (p ++ rest) <? length p = false)%nat as -> by (apply Nat.ltb_ge; rewrite length_app; lia).
  rewrite boundary_ascii by (done || (rewrite length_app; lia)). rewrite take_app_length, drop_app_length.
  assert (eq_ignore_ascii_case p p = true) as -> by (by apply eq_ignore_ascii_case_true). done.
Qed.

(** What a configured domain has to look like. *)
Record cond_ok (c : CondDomain) : Prop := {
  co_prefix : dot ∉ default [] (cd_prefix c);
  co_prefix_ascii : is_ascii (default [] (cd_prefix c));
  co_domain_ascii : is_ascii (cd_domain c);
  co_start : ip4_ok (cd_start c);
  co_end : ip4_ok (cd_end c);
}.

(** ** Round trip *)

Definition distinct_domains (is6 : bool) (ds : list CondDomain) : Prop :=
  NoDup ((fun c => to_ascii_lowercase (cd_domain c)) <$> List.filter (fun c => Bool.eqb (cd_is6 c) is6) ds).

(** A label that can be looked up again: no dot, plain characters. *)
Definition label_text (l : str) : Prop := dot ∉ l /\ is_ascii l.

Lemma synth_name_ascii c l : cond_ok c -> is_ascii l -> is_ascii (synth_name c l).
Proof.
  intros [_ Hp Hd _ _] Hl. unfold synth_name, is_ascii in *. rewrite !Forall_app. split_and!; try done. by apply Forall_singleton.
Qed.

(** A name of one domain is unknown to a domain with another name. *)
Lemma split_other c c' l : cond_ok c -> cond_ok c' -> label_text l -> to_ascii_lowercase (cd_domain c) <> to_ascii_lowercase (cd_domain c') ->
  exists t, strip_prefix (synth_name c l) (cd_prefix c') = Val t /\
    forall label rest, (let! x := t in split_once dot x) = Some (label, rest) -> eq_ignore_ascii_case rest (cd_domain c') = false.
Proof.
  intros Hc Hc' [Hd Ha] Hne. pose proof (synth_name_ascii c l Hc Ha) as Has. unfold synth_name in *.
  change ([dot] ++ cd_domain c) with (dot :: cd_domain c) in *. rewrite app_assoc in *.
  destruct (strip_prefix_split (default [] (cd_prefix c) ++ l) (cd_domain c) (cd_prefix c')) as [->|(pre' & -> & Hpre)]; [done| |apply Hc'| |].
  - pose proof (co_prefix _ Hc). set_solver.
  - by exists None.
  - exists (Some (pre' ++ dot :: cd_domain c)). split; [done|]. intros label rest. rewrite split_once_app by done. intros [= _ <-].
    apply not_true_iff_false. by rewrite eq_ignore_ascii_case_true.
Qed.
Lemma try_other4 c c' l : cond_ok c -> cond_ok c' -> label_text l -> to_ascii_lowercase (cd_domain c) <> to_ascii_lowercase (cd_domain c') ->
  try_synth_ipv4 (synth_name c l) c' = Val None.
Proof.
  intros Hc Hc' Hl Hne. destruct (split_other c c' l Hc Hc' Hl Hne) as (t & E & H). unfold try_synth_ipv4. rewrite E.
  destruct (match t with Some x => _ | None => _ end) as [[label rest]|] eqn:Es; [|done]. by rewrite (H _ _ eq_refl).
Qed.
Lemma try_other6 c c' l : cond_ok c -> cond_ok c' -> label_text l -> to_ascii_lowercase (cd_domain c) <> to_ascii_lowercase (cd_domain c') ->
  try_synth_ipv6 (synth_name c l) c' = Val None.
Proof.
  intros Hc Hc' Hl Hne. destruct (split_other c c' l Hc Hc' Hl Hne) as (t & E & H). unfold try_synth_ipv6. rewrite E.
  destruct (match t with Some x => _ | None => _ end) as [[label rest]|] eqn:Es; [|done]. by rewrite (H _ _ eq_refl).
Qed.

(** A domain splits the names it makes where it joined them. *)
Lemma split_own c l : cond_ok c -> label_text l ->
  strip_prefix (synth_name c l) (cd_prefix c) = Val (Some (l ++ dot :: cd_domain c)) /\
  split_once dot (l ++ dot :: cd_domain c) = Some (l, cd_domain c) /\ eq_ignore_ascii_case (cd_domain c) (cd_domain c) = true.
Proof.
  intros Hc [Hd Ha]. split_and!; [|by apply split_once_app|by apply eq_ignore_ascii_case_true].
  apply strip_own_prefix. by apply synth_name_ascii.
Qed.

Lemma index_addr_of_back a s e : s <= a <= e -> index_addr_of (a - s) s e = Val (Some a).
Proof.
  intros H. unfold index_addr_of. rewrite (proj2 (Z.ltb_ge _ _)), (proj2 (Z.leb_le _ _)) by lia. do 2 f_equal. lia.
Qed.

Lemma try_own4 a c : cond_ok c -> ip4_ok a -> ipv4_in_range a (cd_start c) (cd_end c) = true ->
  label_text (rev_label4 a c) /\ try_synth_ipv4 (synth_name c (rev_label4 a c)) c = Val (Some a).
Proof.
  intros Hc Ha Hr. pose proof Hr as Hr'. unfold ipv4_in_range in Hr. rewrite andb_true_iff, !Z.leb_le in Hr.
  destruct (fmt_ipv4_spec a Ha) as [[_ Hf] Hp].
  assert (label_text (rev_label4 a c)) as Hl.
  { unfold rev_label4. destruct (cd_indexed c).
    - destruct (digits_no_dot _ (fmt_u_digits (a - cd_start c))) as (? & _ & ?). done.
    - split; [apply dashed_no_dot|]. apply dashed_ascii. eapply Forall_impl; [exact Hf|]. intros x [_ ?]. lia. }
  split; [done|]. unfold try_synth_ipv4. destruct (split_own c _ Hc Hl) as (-> & -> & ->). cbn [negb]. unfold rev_label4.
  destruct (cd_indexed c).
  - pose proof (co_start _ Hc) as Hs. unfold ip4_ok in *. zpow.
    destruct (fmt_uint (a - cd_start c) 4294967295) as [_ E]; [zpow; lia..|]. unfold parse_u32. rewrite E. by apply index_addr_of_back.
  - rewrite replace_byte_back by apply ipv4_no_dash. by rewrite Hp, Hr'.
Qed.

(** ** IPv6 *)

(** The groups of an address from its octets. *)
Fixpoint pair_groups (o : list u8) : list Z :=
  match o with
  | a :: b :: rest => (u8z a * 256 + u8z b) :: pair_groups rest
  | _ => []
  end.

Lemma fmt_hex_4 a b : 0 <= a < 256 -> 0 <= b < 256 -> fmt_hex 4 (a * 256 + b) = fmt_hex 2 a ++ fmt_hex 2 b.
Proof.
  intros Ha Hb. cbn [fmt_hex app]. assert ((a * 256 + b) / 16 / 16 = a) as -> by dlia.
  assert ((a * 256 + b) / 16 mod 16 = b / 16 mod 16) as -> by dlia. by assert ((a * 256 + b) mod 16 = b mod 16) as -> by dlia.
Qed.
Lemma pairs_ind (P : list u8 -> Prop) : P [] -> (forall a, P [a]) -> (forall a b l, P l -> P (a :: b :: l)) -> forall l, P l.
Proof.
  intros H0 H1 H2 l. enough (P l /\ forall a, P (a :: l)) by tauto. induction l as [|b l [IH1 IH2]]; [by split|]. split; [apply IH2|].
  intros a. by apply H2.
Qed.
Lemma octet_pairs_groups o : octet_pairs o = fmt_hex 4 <$> pair_groups o.
Proof.
  induction o as [|a|a b o IH] using pairs_ind; [done..|]. cbn [octet_pairs pair_groups]. rewrite fmap_cons, IH, fmt_hex_4; [done|apply u8z_range..].
Qed.
Lemma pair_groups_range o : Forall (fun g => 0 <= g < 65536) (pair_groups o).
Proof.
  induction o as [|a|a b o IH] using pairs_ind; [constructor..|]. constructor; [|done]. pose proof (u8z_range a). pose proof (u8z_range b). lia.
Qed.
Lemma pair_groups_length o : length (pair_groups o) = (length o / 2)%nat.
Proof.
  induction o as [|a|a b o IH] using pairs_ind; [done..|]. cbn [pair_groups length]. rewrite IH.
  replace (S (S (length o))) with (length o + 1 * 2)%nat by lia. rewrite Nat.div_add by lia. lia.
Qed.
Lemma pair_groups_value o acc : Nat.even (length o) = true ->
  fold_left (fun acc g => acc * 65536 + g) (pair_groups o) acc = fold_left (fun acc b => acc * 256 + u8z b) o acc.
Proof.
  revert acc. induction o as [|a|a b o IH] using pairs_ind; intros acc He; [done..|].
  cbn [pair_groups fold_left]. rewrite IH by done. f_equal. lia.
Qed.

Lemma hex_pieces gs : Forall (fun g => 0 <= g < 65536) gs -> Forall (fun p => dash ∉ p /\ label_text p) (fmt_hex 4 <$> gs).
Proof.
  intros Hr. apply Forall_fmap. eapply Forall_impl; [exact Hr|]. intros g [Hg _]. destruct (fmt_hex_chars 4 g ltac:(lia)) as [_ Hf].
  rewrite Forall_forall in Hf. unfold compose, label_text, is_ascii. rewrite Forall_forall. split_and!; [by intros H%Hf; naive_solver..|].
  intros x Hx%Hf. destruct Hx as (_ & [_ ?] & _). lia.
Qed.
Lemma join_label ps : Forall label_text ps -> label_text (join [dash] ps).
Proof.
  unfold label_text, is_ascii. induction 1 as [|p ps (Hd & Ha) Hps [IH1 IH2]]; [by split; [set_solver|constructor]|]. destruct ps; [done|].
  rewrite join_cons by done. rewrite !elem_of_app, list_elem_of_singleton, !Forall_app, Forall_singleton. split; [by intros [?|[?|?]]|].
  split_and!; [done|by vm_compute|done].
Qed.
Lemma hex_label_groups gs : length gs = 8%nat -> Forall (fun g => 0 <= g < 65536) gs -> let l := join [dash] (fmt_hex 4 <$> gs) in
  label_text l /\ parse_ipv6 (replace_byte dash colon l) = Some (of_groups gs).
Proof.
  intros Hl Hr. pose proof (hex_pieces gs Hr) as Hp. split.
  - apply join_label. eapply Forall_impl; [exact Hp|]. by intros p [_ ?].
  - rewrite replace_join by (eapply Forall_impl; [exact Hp|]; by intros p [? _]). by apply parse_ipv6_full_form.
Qed.
Lemma hex_label_spec addr : ip6_ok addr -> let l := join [dash] (octet_pairs (octets6 addr)) in
  label_text l /\ parse_ipv6 (replace_byte dash colon l) = Some addr.
Proof.
  intros Ha l. pose proof (octets6_of addr Ha) as Ho. pose proof (length_octets6 addr) as Hl. subst l. revert Ho Hl.
  generalize (octets6 addr) as o. intros o Ho Hl. rewrite octet_pairs_groups.
  destruct (hex_label_groups (pair_groups o)) as [A B]; [by rewrite pair_groups_length, Hl|apply pair_groups_range|].
  split; [exact A|]. rewrite B, <- Ho. f_equal. apply pair_groups_value. by rewrite Hl.
Qed.

Lemma low64_range a : 0 <= ipv6_low64 a < 2 ^ 64.
Proof.
  unfold ipv6_low64. pose proof (of_be_range (drop 8 (octets6 a))) as H. rewrite length_drop, length_octets6 in H. done.
Qed.
Lemma set_low64_same a s : ip6_ok a -> is_same_net6 a s 64 = true -> ipv6_set_low64 s (ipv6_low64 a) = a.
Proof.
  intros Ha Hs. unfold is_same_net6 in Hs. change (64 / 8)%nat with 8%nat in Hs. change (64 mod 8)%nat with 0%nat in Hs.
  case_match eqn:E; [done|]. rewrite negb_false_iff, bool_decide_eq_true in E. unfold ipv6_set_low64, ipv6_low64. rewrite <- E.
  pose proof (to_be_of_be (drop 8 (octets6 a))) as Hb. rewrite length_drop, length_octets6 in Hb. change (16 - 8)%nat with 8%nat in Hb.
  rewrite Hb, take_drop. by apply octets6_of.
Qed.

Lemma try_own6 a c : cond_ok c -> ip6_ok a -> ipv6_in_range a (cd_start6 c) (cd_end6 c) = true ->
  (cd_indexed c = true -> is_same_net6 a (cd_start6 c) 64 = true) ->
  label_text (rev_label6 a c) /\ try_synth_ipv6 (synth_name c (rev_label6 a c)) c = Val (Some a).
Proof.
  intros Hc Ha Hr Hnet. pose proof Hr as Hr'. unfold ipv6_in_range in Hr. rewrite andb_true_iff, !Z.leb_le in Hr.
  destruct (hex_label_spec a Ha) as [Ht Hp].
  assert (label_text (rev_label6 a c)) as Hl.
  { unfold rev_label6. destruct (cd_indexed c); [|done].
    destruct (digits_no_dot _ (fmt_u_digits (ipv6_low64 a - ipv6_low64 (cd_start6 c)))) as (? & _ & ?). done. }
  split; [done|]. unfold try_synth_ipv6. destruct (split_own c _ Hc Hl) as (-> & -> & ->). cbn [negb]. unfold rev_label6.
  destruct (cd_indexed c).
  - pose proof (low64_range a). pose proof (low64_range (cd_start6 c)).
    destruct (fmt_u64 (ipv6_low64 a - ipv6_low64 (cd_start6 c))) as [_ ->]; [lia|].
    rewrite index_addr_of_back by lia. change (Val (Some (ipv6_set_low64 (cd_start6 c) (ipv6_low64 a))) = Val (Some a)).
    by rewrite set_low64_same by auto.
  - by rewrite Hp, Hr'.
Qed.

Lemma find_ext {A} (f g : A -> bool) l : (forall x, f x = g x) -> List.find f l = List.find g l.
Proof. intros H. induction l as [|x l IH]; [done|]. cbn. by rewrite H, IH. Qed.

(** The first domain that claims an address is the first that knows its name. *)
Lemma first_synth_found is6 (P : CondDomain -> bool) try_synth ds c a :
  List.find (fun c => Bool.eqb (cd_is6 c) is6 && P c) ds = Some c -> distinct_domains is6 ds ->
  try_synth c = Val (Some a) ->
  (forall c', c' ∈ ds -> to_ascii_lowercase (cd_domain c) <> to_ascii_lowercase (cd_domain c') -> try_synth c' = Val None) ->
  first_synth is6 try_synth ds = Val (Some a).
Proof.
  intros Hf Hd Hown Hother. induction ds as [|c0 ds IH]; [done|]. cbn [List.find first_synth] in *.
  unfold distinct_domains in Hd. cbn [List.filter] in Hd. destruct (Bool.eqb (cd_is6 c0) is6) eqn:E6; cbn [andb negb] in *.
  - rewrite fmap_cons, NoDup_cons in Hd. destruct Hd as [Hni Hd]. destruct (P c0); [injection Hf as ->; by rewrite Hown|].
    rewrite Hother; [|set_solver|].
    + apply IH; [done..|]. intros c' Hc'. apply Hother. set_solver.
    + apply find_some in Hf as [Hin Hc]. apply andb_true_iff in Hc as [Hc _]. intros E. apply Hni. rewrite <- E.
      apply list_elem_of_fmap. exists c. split; [done|]. apply list_elem_of_In, filter_In. done.
  - apply IH; [done..|]. intros c' Hc'. apply Hother. set_solver.
Qed.

(** Names made from addresses lead back to them. With well-formed domains
    whose names differ within a family, the name that reverse synthesis gives
    an IPv4 address is synthesised to the same address, in dotted and in
    indexed form; so is the name of an IPv6 address, in indexed form for
    addresses in the network of the domain. *)
Theorem synth_roundtrip ds : Forall cond_ok ds ->
  (forall addr name, ip4_ok addr -> distinct_domains false ds ->
     rev_synth_ipv4 addr ds = Some name -> synthesize_ipv4 name ds = Val (Some addr)) /\
  (forall addr name, ip6_ok addr -> distinct_domains true ds ->
     (forall c, c ∈ ds -> cd_indexed c = true -> ipv6_in_range addr (cd_start6 c) (cd_end6 c) = true -> is_same_net6 addr (cd_start6 c) 64 = true) ->
     rev_synth_ipv6 addr ds = Some name -> synthesize_ipv6 name ds = Val (Some addr)).
Proof.
  intros Hok. rewrite Forall_forall in Hok. split.
  - intros addr name Ha Hd Hr. unfold rev_synth_ipv4 in Hr. destruct (List.find _ ds) as [c|] eqn:Ef; [|done]. injection Hr as <-.
    pose proof (find_some _ _ Ef) as [Hin Hc]. apply list_elem_of_In in Hin. apply andb_true_iff in Hc as [_ Hc].
    destruct (try_own4 addr c (Hok _ Hin) Ha Hc) as [Hl Ht].
    apply (first_synth_found false (fun c => ipv4_in_range addr (cd_start c) (cd_end c)) _ _ c); [|done..|].
    + rewrite <- Ef. apply find_ext. intros x. by destruct (cd_is6 x).
    + intros c' Hc' Hne. apply try_other4; auto.
  - intros addr name Ha Hd Hnet Hr. unfold rev_synth_ipv6 in Hr. destruct (List.find _ ds) as [c|] eqn:Ef; [|done]. injection Hr as <-.
    pose proof (find_some _ _ Ef) as [Hin Hc]. apply list_elem_of_In in Hin. apply andb_true_iff in Hc as [_ Hc].
    destruct (try_own6 addr c (Hok _ Hin) Ha Hc) as [Hl Ht]; [auto|].
    apply (first_synth_found true (fun c => ipv6_in_range addr (cd_start6 c) (cd_end6 c)) _ _ c); [|done..|].
    + rewrite <- Ef. apply find_ext. intros x. by destruct (cd_is6 x).
    + intros c' Hc' Hne. apply try_other6; auto.
Qed.

(** ** Examples *)

Definition ex_dashed : CondDomain :=
  mkCondDomain (bs "example.com") (Some (bs "ip-")) None [] 0x0A000000 0x0A0000FF 0x20010db8000000000000000000000000 0x20010db800000000000000000000ffff false false 0.
Definition ex_indexed6 : CondDomain :=
  mkCondDomain (bs "six.example.com") None None [] 0 0 0x20010db8000000000000000000000010 0x20010db800000000000000000000001f true true 64.

Lemma synth_roundtrip_witness :
  rev_synth_ipv4 0x0A000007 [ex_indexed6; ex_dashed] = Some (bs "ip-10-0-0-7.example.com") /\
  synthesize_ipv4 (bs "ip-10-0-0-7.example.com") [ex_indexed6; ex_dashed] = Val (Some 0x0A000007) /\
  rev_synth_ipv6 0x20010db8000000000000000000000015 [ex_indexed6; ex_dashed] = Some (bs "5.six.example.com") /\
  synthesize_ipv6 (bs "5.six.example.com") [ex_indexed6; ex_dashed] = Val (Some 0x20010db8000000000000000000000015).
Proof.
  assert (Forall cond_ok [ex_indexed6; ex_dashed]) as Hok.
  { repeat constructor; try (by vm_compute); (apply (bool_decide_unpack _); by vm_compute). }
  destruct (synth_roundtrip _ Hok) as [H4 H6]. split_and!; [by vm_compute| |by vm_compute|].
  - apply H4; [by vm_compute|apply (bool_decide_unpack _); by vm_compute|by vm_compute].
  - apply H6; [by vm_compute|apply (bool_decide_unpack _); by vm_compute| |by vm_compute].
    intros c [->|[->|[]%not_elem_of_nil]%elem_of_cons]%elem_of_cons _ _; by vm_compute.
Defined.

(** The range test of IPv6 looks at the low half only: an address of another
    network gets a name, and in indexed form the name belongs to another
    address. *)
Example indexed_name_of_foreign_network :
  rev_synth_ipv6 0xfd000000000000000000000000000015 [ex_indexed6] = Some (bs "5.six.example.com") /\
  match_domain6 0xfd000000000000000000000000000015 ex_indexed6 = false /\
  synthesize_ipv6 (bs "5.six.example.com") [ex_indexed6] <> Val (Some 0xfd000000000000000000000000000015).
Proof. by vm_compute. Qed.

(** A prefix whose length falls into a character of the query name. *)
Example prefix_panics : synthesize_ipv4 ([Byte.x61; Byte.xc3; Byte.xa9] ++ bs ".example.com")
  [mkCondDomain (bs "example.com") (Some (bs "ip")) None [] 0 1 0 0 false false 0] = Panic.
Proof. by vm_compute. Qed.
