(* ===== verification/Helper.v ===== *)
(** * Events for the script helper: src/src/helper.rs

    The wire format of the pipe to the helper process, the events the daemon
    queues, the helper's loop over the bytes of the pipe and the arguments and
    environment of the script. The pipe is the list of the bytes written to
    it; forking, privileges and running the script are not modelled. *)

From Stdlib Require Import ZArith Lia String.
From stdpp Require Import base numbers list option sets.
From S2P Require Import Prelude ByteCursor Types Pattern Hostname Util StdText DhcpTypes.

#[local] Open Scope Z_scope.

(** ** Standard library *)

(** [iN::from_be_bytes]. *)
Definition of_be_signed (b : list u8) : Z :=
  let m := 256 ^ Z.of_nat (length b) in if of_be b <? m / 2 then of_be b else of_be b - m.

(** ** Events *)

Definition ACTION_OLD_HOSTNAME : Z := 2.
Definition ACTION_TFTP : Z := 5.
Definition ACTION_ARP : Z := 6.
Definition ACTION_ARP_DEL : Z := 7.
Definition ACTION_RELAY_SNOOP : Z := 8.
Definition IF_NAMESIZE : nat := 16.

Inductive HelperError : Type := Truncated | UnsupportedVersion (v : u8).

Record ScriptData : Type := mkScript {
  sd_action : Z; sd_flags : Z; sd_hwaddr_type : Z; sd_hwaddr : list u8;
  sd_addr : Ipv4Addr; sd_giaddr : Ipv4Addr; sd_addr6 : Ipv6Addr;
  sd_remaining_time : Z; sd_expires : Z; sd_iaid : Z; sd_vendorclass_count : Z; sd_file_len : Z;
  sd_interface : str; sd_clid : list u8; sd_hostname : option str; sd_extradata : list u8 }.

Record HeaderFields : Type := mkHeaderFields {
  hf_action : Z; hf_flags : Z; hf_hwaddr_type : Z; hf_hwaddr : list u8;
  hf_clid_len : nat; hf_hostname_len : nat; hf_ed_len : nat;
  hf_addr : Ipv4Addr; hf_giaddr : Ipv4Addr; hf_addr6 : Ipv6Addr;
  hf_remaining_time : Z; hf_expires : Z; hf_iaid : Z; hf_vendorclass_count : Z; hf_file_len : Z; hf_interface : str }.

Definition WIRE_VERSION : u8 := Byte.x01.
Definition HEADER_LEN : nat := 104.

(** A buffer of [n] bytes with [b] at its front. *)
Definition fixed (n : nat) (b : list u8) : list u8 := b ++ replicate (n - length b) Byte.x00.
Definition hostname_bytes (h : option str) : list u8 := match h with Some h => h ++ [Byte.x00] | None => [] end.

Definition encode_header (d : ScriptData) : list u8 :=
  let hwaddr_len := Nat.min (length (sd_hwaddr d)) DHCP_CHADDR_MAX in
  let iface_len := Nat.min (length (sd_interface d)) (IF_NAMESIZE - 1) in
  [WIRE_VERSION] ++ to_be 4 (sd_action d) ++ to_be 4 (sd_flags d) ++ to_be 2 (sd_hwaddr_type d)
  ++ [z8 (Z.of_nat hwaddr_len)] ++ fixed DHCP_CHADDR_MAX (take hwaddr_len (sd_hwaddr d))
  ++ to_be 2 (Z.of_nat (length (sd_clid d))) ++ to_be 2 (Z.of_nat (length (hostname_bytes (sd_hostname d))))
  ++ to_be 4 (Z.of_nat (length (sd_extradata d)))
  ++ octets4 (sd_addr d) ++ octets4 (sd_giaddr d) ++ octets6 (sd_addr6 d)
  ++ to_be 4 (sd_remaining_time d) ++ to_be 8 (sd_expires d) ++ to_be 4 (sd_iaid d) ++ to_be 4 (sd_vendorclass_count d)
  ++ to_be 8 (sd_file_len d) ++ fixed IF_NAMESIZE (take iface_len (sd_interface d)).
Definition encode (d : ScriptData) : list u8 :=
  encode_header d ++ sd_clid d ++ hostname_bytes (sd_hostname d) ++ sd_extradata d.

(** The bytes before the first NUL. *)
Definition until_nul (b : list u8) : list u8 := take (default (length b) (find_byte Byte.x00 b)) b.

Definition decode_header (bytes : list u8) : outcome (result (HeaderFields * nat) HelperError) :=
  if (length bytes <? HEADER_LEN)%nat then Val (Err Truncated)
  else
    let c := Cursor.new bytes in
    let# (version, c) := expect (Cursor.read_u8 c) in
    if negb (bool_decide (version = WIRE_VERSION)) then Val (Err (UnsupportedVersion version))
    else
      let# (action, c) := expect (Cursor.read_u32_be c) in
      let# (flags, c) := expect (Cursor.read_u32_be c) in
      let# (hwaddr_type, c) := expect (Cursor.read_u16_be c) in
      let# (hwaddr_len, c) := expect (Cursor.read_u8 c) in
      let# (hwaddr_raw, c) := expect (Cursor.read_slice c DHCP_CHADDR_MAX) in
      let hwaddr := take (Nat.min (Z.to_nat (u8z hwaddr_len)) DHCP_CHADDR_MAX) hwaddr_raw in
      let# (clid_len, c) := expect (Cursor.read_u16_be c) in
      let# (hostname_len, c) := expect (Cursor.read_u16_be c) in
      let# (ed_len, c) := expect (Cursor.read_u32_be c) in
      let# (addr, c) := expect (Cursor.read_slice c 4) in
      let# (giaddr, c) := expect (Cursor.read_slice c 4) in
      let# (addr6, c) := expect (Cursor.read_slice c 16) in
      let# (remaining_time, c) := expect (Cursor.read_u32_be c) in
      let# (expires, c) := expect (Cursor.read_slice c 8) in
      let# (iaid, c) := expect (Cursor.read_u32_be c) in
      let# (vendorclass_count, c) := expect (Cursor.read_slice c 4) in
      let# (file_len, c) := expect (Cursor.read_slice c 8) in
      let# (interface_raw, c) := expect (Cursor.read_slice c IF_NAMESIZE) in
      Val (Ok (mkHeaderFields action flags hwaddr_type hwaddr (Z.to_nat clid_len) (Z.to_nat hostname_len) (Z.to_nat ed_len)
                 (of_be addr) (of_be giaddr) (of_be addr6) remaining_time (of_be_signed expires) iaid
                 (of_be_signed vendorclass_count) (of_be file_len) (utf8_lossy (until_nul interface_raw)),
               (Z.to_nat clid_len + Z.to_nat hostname_len + Z.to_nat ed_len)%nat)).

Definition from_header_and_blob (h : HeaderFields) (blob : list u8) : result ScriptData HelperError :=
  if negb (length blob =? hf_clid_len h + hf_hostname_len h + hf_ed_len h)%nat then Err Truncated
  else
    let clid := take (hf_clid_len h) blob in
    let hostname_raw := take (hf_hostname_len h) (drop (hf_clid_len h) blob) in
    let hostname := if (length hostname_raw =? 0)%nat then None else Some (utf8_lossy (until_nul hostname_raw)) in
    let extradata := drop (hf_clid_len h + hf_hostname_len h) blob in
    Ok (mkScript (hf_action h) (hf_flags h) (hf_hwaddr_type h) (hf_hwaddr h) (hf_addr h) (hf_giaddr h) (hf_addr6 h)
          (hf_remaining_time h) (hf_expires h) (hf_iaid h) (hf_vendorclass_count h) (hf_file_len h) (hf_interface h)
          clid hostname extradata).

Definition decode (bytes : list u8) : outcome (result ScriptData HelperError) :=
  if (length bytes <? HEADER_LEN)%nat then Val (Err Truncated)
  else
    let# r := decode_header (take HEADER_LEN bytes) in
    Val (let? (header, blob_len) := r in
         let blob := drop HEADER_LEN bytes in
         if negb (length blob =? blob_len)%nat then Err Truncated else from_header_and_blob header blob).

(** ** The events the daemon queues *)

Definition AF_INET : Z := 2.
Definition AF_INET6 : Z := 10.
Definition ARPHRD_ETHER : Z := 1.

Definition secs_since (t from : SystemTime) : option Z := if t <? from then None else Some ((t - from) / 1000000000).

Definition for_lease (action : Z) (lease : DhcpLease) (hostname : option str) (now : SystemTime) : ScriptData :=
  mkScript action (dl_flags lease) (as_u16 (dl_hwaddr_type lease))
    (take (Nat.min (dl_hwaddr_len lease) DHCP_CHADDR_MAX) (dl_hwaddr lease))
    (dl_addr lease) (dl_giaddr lease) (dl_addr6 lease)
    (match dl_expires lease with Some e => default 0 (as_u32 <$> secs_since e now) | None => 0 end)
    (default 0 (let! e := dl_expires lease in secs_since e 0))
    (dl_iaid lease) (dl_vendorclass_count lease) 0 [] (default [] (dl_clid lease)) hostname (dl_extradata lease).

(** The family goes into the flags. *)
Definition with_ip (addr : IpAddr) (d : ScriptData) : ScriptData :=
  let put flags a4 a6 :=
    mkScript (sd_action d) flags (sd_hwaddr_type d) (sd_hwaddr d) a4 (sd_giaddr d) a6 (sd_remaining_time d) (sd_expires d) (sd_iaid d)
      (sd_vendorclass_count d) (sd_file_len d) (sd_interface d) (sd_clid d) (sd_hostname d) (sd_extradata d) in
  match addr with V4 a => put AF_INET a (sd_addr6 d) | V6 a => put AF_INET6 (sd_addr d) a end.

Definition for_arp (is_del : bool) (mac : list u8) (addr : IpAddr) : ScriptData :=
  with_ip addr (mkScript (if is_del then ACTION_ARP_DEL else ACTION_ARP) 0 ARPHRD_ETHER mac 0 0 0 0 0 0 0 0 [] [] None []).
Definition for_tftp (filename : str) (file_len : Z) (peer : IpAddr) : ScriptData :=
  with_ip peer (mkScript ACTION_TFTP 0 0 [] 0 0 0 0 0 0 0 file_len [] [] (Some filename) []).
Definition for_relay_snoop (client : Ipv6Addr) (if_index : Z) (prefix : Ipv6Addr) (prefix_len : u8) (interface : str) : ScriptData :=
  mkScript ACTION_RELAY_SNOOP 0 0 [] 0 0 client 0 0 0 0 0 interface [] (Some (fmt_ipv6 prefix ++ bs "/" ++ fmt_u (u8z prefix_len))) [].

(** ** The helper's loop *)

Definition action_str (action : Z) : option str :=
  if action =? ACTION_DEL then Some (bs "del")
  else if action =? ACTION_ADD then Some (bs "add")
  else if (action =? ACTION_OLD) || (action =? ACTION_OLD_HOSTNAME) then Some (bs "old")
  else if action =? ACTION_TFTP then Some (bs "tftp")
  else if action =? ACTION_ARP then Some (bs "arp-add")
  else if action =? ACTION_ARP_DEL then Some (bs "arp-del")
  else if action =? ACTION_RELAY_SNOOP then Some (bs "relay-snoop")
  else None.

(** What the loop runs, with a command configured, for the bytes of the pipe
    up to its end; each round takes a header off the pipe. *)
Fixpoint helper_loop (fuel : nat) (pipe : list u8) : outcome (list (str * ScriptData)) :=
  match fuel with
  | O => Val []
  | S f =>
    if (length pipe <? HEADER_LEN)%nat then Val []
    else
      let# r := decode_header (take HEADER_LEN pipe) in
      let rest := drop HEADER_LEN pipe in
      match r with
      | Err _ => helper_loop f rest
      | Ok (header, blob_len) =>
        if negb (blob_len =? 0)%nat && (length rest <? blob_len)%nat then Val []
        else match from_header_and_blob header (take blob_len rest) with
             | Err _ => helper_loop f (drop blob_len rest)
             | Ok data =>
               let# later := helper_loop f (drop blob_len rest) in
               Val (match action_str (sd_action data) with Some a => (a, data) :: later | None => later end)
             end
      end
  end.
Definition run_helper_loop (pipe : list u8) : outcome (list (str * ScriptData)) := helper_loop (S (length pipe)) pipe.

(** ** The script's arguments and environment *)

Definition is6 (d : ScriptData) : bool :=
  if (sd_action d =? ACTION_TFTP) || (sd_action d =? ACTION_ARP) || (sd_action d =? ACTION_ARP_DEL) then negb (sd_flags d =? AF_INET)
  else if sd_action d =? ACTION_RELAY_SNOOP then true
  else has (sd_flags d) (LeaseFlags.TA ∣∣ LeaseFlags.NA).

Definition format_mac (hwaddr : list u8) : str := join (bs ":") ((fun b => fmt_hex 2 (u8z b)) <$> hwaddr).
Definition format_client_id (clid : list u8) : str := format_mac clid.
Definition format_hwaddr_field (d : ScriptData) : str :=
  (if negb (sd_hwaddr_type d =? ARPHRD_ETHER) || (length (sd_hwaddr d) =? 0)%nat then fmt_x 2 (sd_hwaddr_type d) ++ bs "-" else [])
  ++ format_mac (sd_hwaddr d).
Definition hostname_and_domain (d : ScriptData) : option str * option str :=
  match sd_hostname d with
  | None => (None, None)
  | Some raw =>
    if (sd_action d =? ACTION_TFTP) || (sd_action d =? ACTION_RELAY_SNOOP) then (Some raw, None)
    else if negb (legal_hostname raw) then (None, None)
    else match split_once dot raw with Some (h, dom) => (Some h, Some dom) | None => (Some raw, None) end
  end.

Definition grab_extradata (buf : list u8) : option (str * list u8) :=
  let! null_pos := find_byte Byte.x00 buf in
  Some (if utf8_valid (take null_pos buf) then take null_pos buf else [], drop (S null_pos) buf).
Definition grab_env (name : str) (st : list (str * str) * list u8) : list (str * str) * list u8 :=
  let '(env, buf) := st in
  match grab_extradata buf with
  | Some (val, rest) => (env ++ [(name, val)], rest)
  | None => (env, [])
  end.
Fixpoint user_classes (fuel i : nat) (st : list (str * str) * list u8) : list (str * str) :=
  match fuel with
  | O => fst st
  | S f => match grab_extradata (snd st) with
           | Some (val, rest) => user_classes f (S i) (fst st ++ [(bs "DNSMASQ_USER_CLASS" ++ fmt_u (Z.of_nat i), val)], rest)
           | None => fst st
           end
  end.
Definition set_extradata_env (env : list (str * str)) (extradata : list u8) (is6 : bool) : list (str * str) :=
  let grab (on : bool) name st := if on then grab_env (bs name) st else st in
  let st := (env, extradata) in
  let st := grab (negb is6) "DNSMASQ_VENDOR_CLASS"%string st in
  let st := grab true "DNSMASQ_SUPPLIED_HOSTNAME"%string st in
  let st := grab (negb is6) "DNSMASQ_CPEWAN_OUI"%string st in
  let st := grab (negb is6) "DNSMASQ_CPEWAN_SERIAL"%string st in
  let st := grab (negb is6) "DNSMASQ_CPEWAN_CLASS"%string st in
  let st := grab (negb is6) "DNSMASQ_CIRCUIT_ID"%string st in
  let st := grab (negb is6) "DNSMASQ_SUBSCRIBER_ID"%string st in
  let st := grab (negb is6) "DNSMASQ_REMOTE_ID"%string st in
  let st := grab true "DNSMASQ_REQUESTED_OPTIONS"%string st in
  let st := grab true "DNSMASQ_MUD_URL"%string st in
  let st := grab true "DNSMASQ_TAGS"%string st in
  let st := grab is6 "DNSMASQ_RELAY_ADDRESS"%string st in
  user_classes (length (snd st)) 0 st.

Record ScriptCall : Type := mkCall { sc_args : list str; sc_env : list (str * str) }.

(** [run_script_child] up to the point where the script is started. *)
Definition script_call (action_str : str) (d : ScriptData) (log_dhcp : bool) : ScriptCall :=
  let v6 := is6 d in
  let '(hostname, domain) := hostname_and_domain d in
  let second_field := if sd_action d =? ACTION_TFTP then fmt_u (sd_file_len d) else format_hwaddr_field d in
  let addr_field := if v6 then fmt_ipv6 (sd_addr6 d) else fmt_ipv4 (sd_addr d) in
  let args := [action_str; second_field; addr_field] ++ option_list hostname in
  let var (on : bool) name (val : str) : list (str * str) := if on then [(bs name, val)] else [] in
  let lease_event := negb ((sd_action d =? ACTION_TFTP) || (sd_action d =? ACTION_ARP) || (sd_action d =? ACTION_ARP_DEL)
                           || (sd_action d =? ACTION_RELAY_SNOOP)) in
  let env :=
    if lease_event then
      let env := var (negb v6 && negb (length (sd_clid d) =? 0)%nat) "DNSMASQ_CLIENT_ID"%string (format_client_id (sd_clid d))
        ++ var (negb (length (sd_interface d) =? 0)%nat) "DNSMASQ_INTERFACE"%string (sd_interface d)
        ++ var true "DNSMASQ_LEASE_EXPIRES"%string (fmt_i (sd_expires d))
        ++ match domain with Some dom => [(bs "DNSMASQ_DOMAIN", dom)] | None => [] end
        ++ var (length (sd_extradata d) =? 0)%nat "DNSMASQ_DATA_MISSING"%string (bs "1") in
      set_extradata_env env (sd_extradata d) v6
        ++ var (negb v6 && negb (sd_giaddr d =? 0)) "DNSMASQ_RELAY_ADDRESS"%string (fmt_ipv4 (sd_giaddr d))
        ++ var (negb (sd_action d =? ACTION_DEL) && negb (sd_remaining_time d =? 0)) "DNSMASQ_TIME_REMAINING"%string (fmt_u (sd_remaining_time d))
        ++ (if sd_action d =? ACTION_OLD_HOSTNAME then match hostname with Some h => [(bs "DNSMASQ_OLD_HOSTNAME", h)] | None => [] end else [])
        ++ var log_dhcp "DNSMASQ_LOG_DHCP"%string (bs "1")
    else [] in
  mkCall args env.

(** ** Reading back a header *)

(** The cursor between what has been read and what is left. *)
Definition between (pre rest : list u8) : ByteCursor := mkCursor (pre ++ rest) (length pre).

Lemma between_slice pre mid rest n : length mid = n -> fits (pre ++ mid ++ rest) ->
  expect (Cursor.read_slice (between pre (mid ++ rest)) n) = Val (mid, between (pre ++ mid) rest).
Proof.
  intros <- Hf. unfold between. rewrite read_slice_mid by done. cbn [expect]. by rewrite <- app_assoc, length_app.
Qed.
Lemma between_u8 pre b rest : expect (Cursor.read_u8 (between pre ([b] ++ rest))) = Val (b, between (pre ++ [b]) rest).
Proof.
  unfold between. cbn [app]. rewrite read_u8_mid. cbn [expect]. rewrite <- app_assoc, length_app. cbn [length app].
  by rewrite Nat.add_1_r.
Qed.
Lemma between_u16 pre z rest : 0 <= z < 65536 -> fits (pre ++ to_be 2 z ++ rest) ->
  expect (Cursor.read_u16_be (between pre (to_be 2 z ++ rest))) = Val (z, between (pre ++ to_be 2 z) rest).
Proof.
  intros Hz Hf. unfold between. rewrite read_u16_mid by done. cbn [expect]. by rewrite <- app_assoc, length_app, length_to_be.
Qed.
Lemma between_u32 pre z rest : 0 <= z < 4294967296 -> fits (pre ++ to_be 4 z ++ rest) ->
  expect (Cursor.read_u32_be (between pre (to_be 4 z ++ rest))) = Val (z, between (pre ++ to_be 4 z) rest).
Proof.
  intros Hz Hf. unfold between. rewrite read_u32_mid by done. cbn [expect]. by rewrite <- app_assoc, length_app, length_to_be.
Qed.

Lemma of_be_signed_to_be n z : (0 < n)%nat -> - (256 ^ Z.of_nat n / 2) <= z < 256 ^ Z.of_nat n / 2 -> of_be_signed (to_be n z) = z.
Proof.
  intros Hn Hz. unfold of_be_signed. rewrite length_to_be, of_be_to_be.
  assert (256 ^ Z.of_nat n = 2 * (256 ^ Z.of_nat n / 2)) as He.
  { apply Z_div_exact_full_2; [done|]. destruct n; [lia|]. rewrite Nat2Z.inj_succ, Z.pow_succ_r by lia.
    change 256 with (128 * 2). rewrite Z.mul_shuffle0. apply Z_mod_mult. }
  set (h := 256 ^ Z.of_nat n / 2) in *. rewrite He. destruct (Z_lt_le_dec z 0).
  - rewrite <- (Z_mod_plus_full z 1 (2 * h)), Z.mod_small by lia. rewrite (proj2 (Z.ltb_ge _ _)) by lia. lia.
  - rewrite Z.mod_small by lia. by rewrite (proj2 (Z.ltb_lt _ _)) by lia.
Qed.

Lemma until_nul_fixed b n : Byte.x00 ∉ b -> (length b < n)%nat -> until_nul (fixed n b) = b.
Proof.
  intros Hb Hn. unfold until_nul, fixed. destruct (n - length b)%nat as [|k] eqn:Hk; [lia|]. cbn [replicate].
  pose proof (split_once_app Byte.x00 b (replicate k Byte.x00) Hb) as H. unfold split_once in H.
  destruct (find_byte Byte.x00 _) as [i|] eqn:Ei; [|done]. injection H as H1 H2. cbn. by rewrite H1.
Qed.
Lemma length_fixed n b : (length b <= n)%nat -> length (fixed n b) = n.
Proof. intros. unfold fixed. rewrite length_app, length_replicate. lia. Qed.

(** ** Round trip *)

Definition text_ok (s : str) : Prop := utf8_valid s = true /\ Byte.x00 ∉ s.

(** An event whose fields have the widths of the wire format. *)
Record script_ok (d : ScriptData) : Prop := {
  so_action : 0 <= sd_action d < 2 ^ 32;
  so_flags : 0 <= sd_flags d < 2 ^ 32;
  so_type : 0 <= sd_hwaddr_type d < 2 ^ 16;
  so_hwaddr : (length (sd_hwaddr d) <= 16)%nat;
  so_addr : ip4_ok (sd_addr d);
  so_giaddr : ip4_ok (sd_giaddr d);
  so_addr6 : ip6_ok (sd_addr6 d);
  so_remaining : 0 <= sd_remaining_time d < 2 ^ 32;
  so_expires : - 2 ^ 63 <= sd_expires d < 2 ^ 63;
  so_iaid : 0 <= sd_iaid d < 2 ^ 32;
  so_count : - 2 ^ 31 <= sd_vendorclass_count d < 2 ^ 31;
  so_file : 0 <= sd_file_len d < 2 ^ 64;
  so_interface : text_ok (sd_interface d) /\ (length (sd_interface d) < 16)%nat;
  so_clid : Z.of_nat (length (sd_clid d)) < 2 ^ 16;
  so_hostname : forall h, sd_hostname d = Some h -> text_ok h /\ Z.of_nat (length h) + 1 < 2 ^ 16;
  so_extra : Z.of_nat (length (sd_extradata d)) < 2 ^ 32;
}.

Definition header_of (d : ScriptData) : HeaderFields :=
  mkHeaderFields (sd_action d) (sd_flags d) (sd_hwaddr_type d) (sd_hwaddr d) (length (sd_clid d))
    (length (hostname_bytes (sd_hostname d))) (length (sd_extradata d)) (sd_addr d) (sd_giaddr d) (sd_addr6 d) (sd_remaining_time d)
    (sd_expires d) (sd_iaid d) (sd_vendorclass_count d) (sd_file_len d) (sd_interface d).
Definition blob_of (d : ScriptData) : list u8 := sd_clid d ++ hostname_bytes (sd_hostname d) ++ sd_extradata d.

Lemma encode_header_length d : script_ok d -> length (encode_header d) = HEADER_LEN.
Proof.
  intros Hd. unfold encode_header, octets4, octets6. rewrite !length_app, !length_to_be, !length_fixed; [done|..];
    rewrite length_take; unfold DHCP_CHADDR_MAX, IF_NAMESIZE; lia.
Qed.
Lemma hostname_bytes_length d : script_ok d -> Z.of_nat (length (hostname_bytes (sd_hostname d))) < 2 ^ 16.
Proof.
  intros Hd. destruct (sd_hostname d) as [h|] eqn:E; [|done]. destruct (so_hostname d Hd h E) as [_ H]. cbn. rewrite length_app. cbn. lia.
Qed.

Ltac small_fits := unfold fits, octets4, octets6;
  repeat first [rewrite length_app | rewrite length_to_be | rewrite length_fixed by (rewrite ?length_take; unfold DHCP_CHADDR_MAX, IF_NAMESIZE; lia)];
  unfold DHCP_CHADDR_MAX, IF_NAMESIZE, usize_bound; cbn [length]; lia.
Ltac part_length :=
  lazymatch goal with
  | |- length (octets4 _) = _ => apply length_octets4
  | |- length (octets6 _) = _ => apply length_octets6
  | |- length (to_be _ _) = _ => apply length_to_be
  | |- length (fixed _ _) = _ => apply length_fixed; rewrite length_take; unfold DHCP_CHADDR_MAX, IF_NAMESIZE; lia
  end.
Ltac read_next :=
  lazymatch goal with
  | |- context [expect (Cursor.read_u8 (between ?p ([?b] ++ ?r)))] => rewrite (between_u8 p b r)
  | |- context [expect (Cursor.read_u16_be (between ?p (to_be 2 ?z ++ ?r)))] => rewrite (between_u16 p z r) by first [lia | small_fits]
  | |- context [expect (Cursor.read_u32_be (between ?p (to_be 4 ?z ++ ?r)))] => rewrite (between_u32 p z r) by first [lia | small_fits]
  | |- context [expect (Cursor.read_slice (between ?p (?m ++ ?r)) ?n)] =>
    rewrite (between_slice p m r n) by first [part_length | small_fits]
  end; cbv beta iota zeta.

Lemma decode_header_encode d : script_ok d -> decode_header (encode_header d) = Val (Ok (header_of d, length (blob_of d))).
Proof.
  intros Hd. pose proof (encode_header_length d Hd) as Hlen. pose proof (hostname_bytes_length d Hd) as Hh.
  unfold decode_header. rewrite Hlen. cbn [Nat.ltb Nat.leb HEADER_LEN]. destruct Hd. zpow.
  change (Cursor.new (encode_header d)) with (between [] (encode_header d)). unfold encode_header. cbv zeta.
  read_next. rewrite bool_decide_true by done. cbn [negb]. do 16 read_next.
  rewrite <- (app_nil_r (fixed IF_NAMESIZE (take (length (sd_interface d) `min` (IF_NAMESIZE - 1))%nat _))).
  read_next. clear Hlen.
  assert (length (sd_hwaddr d) `min` DHCP_CHADDR_MAX = length (sd_hwaddr d))%nat as -> by (unfold DHCP_CHADDR_MAX; lia).
  assert (length (sd_interface d) `min` (IF_NAMESIZE - 1) = length (sd_interface d))%nat as -> by (unfold IF_NAMESIZE; lia).
  rewrite !firstn_all, u8z_z8_small, !Nat2Z.id by lia.
  assert (take (length (sd_hwaddr d) `min` DHCP_CHADDR_MAX) (fixed DHCP_CHADDR_MAX (sd_hwaddr d)) = sd_hwaddr d) as ->.
  { unfold fixed. rewrite Nat.min_l, take_app_length by (unfold DHCP_CHADDR_MAX; lia). done. }
  destruct so_interface0 as [[Hu Hn] Hl]. rewrite until_nul_fixed, utf8_lossy_valid by done.
  rewrite !octets4_of, octets6_of, (of_be_to_be_small 8), !of_be_signed_to_be by (try done; zpow; lia).
  unfold header_of, blob_of. rewrite !length_app. do 3 f_equal. lia.
Qed.

Lemma from_header_blob d : script_ok d -> from_header_and_blob (header_of d) (blob_of d) = Ok d.
Proof.
  intros Hd. unfold from_header_and_blob, blob_of, header_of. cbn [hf_clid_len hf_hostname_len hf_ed_len].
  rewrite !length_app, Nat.add_assoc, Nat.eqb_refl. cbn [negb]. rewrite take_app_length, drop_app_length, take_app_length.
  rewrite (app_assoc (sd_clid d)), drop_app_length' by (by rewrite length_app).
  assert ((if (length (hostname_bytes (sd_hostname d)) =? 0)%nat then None else Some (utf8_lossy (until_nul (hostname_bytes (sd_hostname d))))) = sd_hostname d) as ->.
  { destruct (sd_hostname d) as [h|] eqn:E; [|done]. destruct (so_hostname d Hd h E) as [[Hu Hn] _]. unfold hostname_bytes.
    rewrite length_app. cbn [length]. rewrite Nat.add_1_r. cbn [Nat.eqb]. f_equal.
    pose proof (until_nul_fixed h (S (length h)) Hn ltac:(lia)) as Hf. unfold fixed in Hf.
    replace (S (length h) - length h)%nat with 1%nat in Hf by lia. cbn [replicate] in Hf. by rewrite Hf, utf8_lossy_valid. }
  by destruct d.
Qed.

Lemma decode_encode d : script_ok d -> decode (encode d) = Val (Ok d).
Proof.
  intros Hd. pose proof (encode_header_length d Hd) as Hl. unfold decode, encode. fold (blob_of d).
  assert (length (encode_header d ++ blob_of d) <? HEADER_LEN = false)%nat as -> by (apply Nat.ltb_ge; rewrite length_app; lia).
  rewrite <- Hl, take_app_length, drop_app_length, decode_header_encode by done. cbv beta iota.
  rewrite Nat.eqb_refl. cbn [negb]. by rewrite from_header_blob.
Qed.

(** ** No panic *)

Lemma slice_reads b p n : fits b -> (p + n <= length b)%nat -> exists s, length s = n /\
  Cursor.read_slice (mkCursor b p) n = Some (s, mkCursor b (p + n)).
Proof.
  intros Hf Hl. eexists. split; [|by rewrite read_slice_ok]. cbn [buf pos]. rewrite length_take, length_drop. lia.
Qed.
Ltac read_any :=
  lazymatch goal with
  | |- context [Cursor.read_u8 (mkCursor ?b ?p)] =>
    let x := fresh in destruct (lookup_lt_is_Some_2 b p ltac:(lia)) as [x Hx]; unfold Cursor.read_u8 at 1; cbn [buf pos]; rewrite Hx; clear Hx
  | |- context [Cursor.read_u16_be (mkCursor ?b ?p)] =>
    let x := fresh in destruct (slice_reads b p 2 ltac:(assumption) ltac:(lia)) as (x & _ & Hx); unfold Cursor.read_u16_be at 1; rewrite Hx; clear Hx
  | |- context [Cursor.read_u32_be (mkCursor ?b ?p)] =>
    let x := fresh in destruct (slice_reads b p 4 ltac:(assumption) ltac:(lia)) as (x & _ & Hx); unfold Cursor.read_u32_be at 1; rewrite Hx; clear Hx
  | |- context [Cursor.read_slice (mkCursor ?b ?p) ?n] =>
    let x := fresh in destruct (slice_reads b p n ltac:(assumption) ltac:(unfold DHCP_CHADDR_MAX, IF_NAMESIZE; lia)) as (x & _ & Hx); rewrite Hx; clear Hx
  end; cbn [expect]; cbv beta iota zeta.
Lemma decode_header_total bytes : fits bytes -> exists r, decode_header bytes = Val r.
Proof.
  intros Hf. unfold decode_header. destruct (Nat.ltb_spec (length bytes) HEADER_LEN) as [|Hl]; [by eauto|]. unfold HEADER_LEN in Hl.
  unfold Cursor.new. cbv zeta. read_any. destruct (negb _); [by eauto|]. do 5 read_any. change DHCP_CHADDR_MAX with 16%nat in *.
  do 12 read_any. by eauto.
Qed.

Lemma fits_take b n : fits b -> fits (take n b).
Proof. unfold fits. intros H. rewrite length_take. lia. Qed.
Lemma fits_drop b n : fits b -> fits (drop n b).
Proof. unfold fits. intros H. rewrite length_drop. lia. Qed.

Lemma helper_loop_total fuel : forall pipe, fits pipe -> exists evs, helper_loop fuel pipe = Val evs.
Proof.
  induction fuel as [|fuel IH]; intros pipe Hf; [by eexists|]. cbn [helper_loop]. case_match; [by eexists|].
  destruct (decode_header_total (take HEADER_LEN pipe)) as [[[h n]|e] ->]; [by apply fits_take| |]; cbv beta iota zeta.
  - case_match; [by eexists|]. destruct (IH (drop n (drop HEADER_LEN pipe))) as [evs E]; [by apply fits_drop, fits_drop|].
    case_match; [|by eauto]. rewrite E. by eexists.
  - apply IH. by apply fits_drop.
Qed.

Definition runs (d : ScriptData) : option (str * ScriptData) := (fun a => (a, d)) <$> action_str (sd_action d).

Lemma helper_loop_events ds : forall fuel, Forall script_ok ds -> (length ds < fuel)%nat ->
  helper_loop fuel (concat (encode <$> ds)) = Val (omap runs ds).
Proof.
  induction ds as [|d ds IH]; intros fuel Hds Hfuel; (destruct fuel as [|fuel]; [cbn in Hfuel; lia|]); [done|].
  apply Forall_cons in Hds as [Hd Hds]. pose proof (encode_header_length d Hd) as Hl. rewrite fmap_cons. cbn [concat helper_loop].
  set (rest := concat (encode <$> ds)) in *. unfold encode. fold (blob_of d). rewrite <- app_assoc.
  assert (length (encode_header d ++ blob_of d ++ rest) <? HEADER_LEN = false)%nat as -> by (apply Nat.ltb_ge; rewrite length_app; lia).
  rewrite <- Hl, take_app_length, drop_app_length, decode_header_encode by done. cbv beta iota zeta.
  assert (length (blob_of d ++ rest) <? length (blob_of d) = false)%nat as -> by (apply Nat.ltb_ge; rewrite length_app; lia).
  rewrite andb_false_r, take_app_length, drop_app_length, from_header_blob by done. subst rest.
  rewrite IH by (done || (cbn in Hfuel; lia)). cbn [omap list_omap]. unfold runs. by destruct (action_str (sd_action d)).
Qed.

(** The pipe to the script helper keeps the events. Whatever sequence of
    events with fields of the wire's widths the daemon writes, the helper
    reads the same events in the same order and runs the script for each one
    that has an action name; a single event decodes to itself; and no bytes on
    the pipe make the helper panic. *)
Theorem helper_pipe_roundtrip ds : Forall script_ok ds ->
  run_helper_loop (concat (encode <$> ds)) = Val (omap runs ds) /\
  Forall (fun d => decode (encode d) = Val (Ok d)) ds /\
  (forall pipe, fits pipe -> exists evs, run_helper_loop pipe = Val evs).
Proof.
  intros Hds. split_and!.
  - apply helper_loop_events; [done|]. enough (length ds <= length (concat (encode <$> ds)))%nat by lia.
    induction Hds as [|d ds Hd _ IH]; [done|]. rewrite fmap_cons. cbn [concat length]. rewrite length_app.
    assert (HEADER_LEN <= length (encode d))%nat by (unfold encode; rewrite length_app, encode_header_length by done; lia).
    unfold HEADER_LEN in *. lia.
  - eapply Forall_impl; [exact Hds|]. apply decode_encode.
  - intros pipe Hf. by apply helper_loop_total.
Qed.

(** ** Examples *)

Definition ex_arp_event : ScriptData := for_arp false (bs "abcdef") (V4 0x0A000007).
Definition ex_tftp_event : ScriptData := for_tftp (bs "boot.img") 1024 (V6 1).

Lemma ex_text_ok : text_ok (bs "boot.img") /\ text_ok [].
Proof. split; (split; [by vm_compute|apply (bool_decide_unpack _); by vm_compute]). Qed.
Lemma ex_events_ok : Forall script_ok [ex_arp_event; ex_tftp_event].
Proof.
  destruct ex_text_ok as [T1 T2]. apply Forall_cons; split; [|apply Forall_singleton]; constructor;
    first [exact (conj T2 (Nat.lt_0_succ 15)) | (intros h H; first [discriminate H | injection H as <-; split; [exact T1|by vm_compute]])
           | (apply (bool_decide_unpack _); by vm_compute) | by vm_compute].
Qed.

Lemma helper_pipe_roundtrip_witness :
  run_helper_loop (encode ex_arp_event ++ encode ex_tftp_event) = Val [(bs "arp-add", ex_arp_event); (bs "tftp", ex_tftp_event)].
Proof. apply (helper_pipe_roundtrip [ex_arp_event; ex_tftp_event]). exact ex_events_ok. Defined.

(** The environment of a lease event. *)
Example lease_call :
  script_call (bs "add") (mkScript ACTION_ADD 0 1 (bs "abc") 0x0A000007 0 0 3600 1700000000 0 0 0 [] [] (Some (bs "pc.example.org")) (bs "v" ++ [Byte.x00])) false
  = mkCall [bs "add"; bs "61:62:63"; bs "10.0.0.7"; bs "pc"]
      [(bs "DNSMASQ_LEASE_EXPIRES", bs "1700000000"); (bs "DNSMASQ_DOMAIN", bs "example.org"); (bs "DNSMASQ_VENDOR_CLASS", bs "v");
       (bs "DNSMASQ_TIME_REMAINING", bs "3600")].
Proof. by vm_compute. Qed.
