(* ===== verification/Arp.v ===== *)
(** * The ARP cache: src/src/arp.rs

    Hardware addresses of clients, refreshed from the kernel's neighbour
    table, and the events for the script. The refresh that asks the kernel is
    an argument; the kernel's answer is the list of the entries passed to
    [filter_mac]. *)

From Stdlib Require Import ZArith Lia String.
From stdpp Require Import base numbers list option sets.
From S2P Require Import Prelude Types DhcpTypes Helper.

#[local] Open Scope Z_scope.

(** ** Data *)

Definition REFRESH_INTERVAL : Z := 90.

Inductive ArpStatus : Type := Mark | Found | New | Empty.
#[global] Instance ArpStatus_eq_dec : EqDecision ArpStatus.
Proof. solve_decision. Defined.

Record ArpRecord : Type := mkArp { ar_status : ArpStatus; ar_hwaddr : list u8; ar_addr : IpAddr }.

#[global] Instance ArpRecord_eq_dec : EqDecision ArpRecord.
Proof. solve_decision. Defined.

Inductive ArpAction : Type := Add (addr : IpAddr) (hwaddr : list u8) | Del (addr : IpAddr) (hwaddr : list u8).

Record ArpCache : Type := mkArpCache { active : list ArpRecord; old : list ArpRecord; last_refresh : Z }.

Definition arp_new : ArpCache := mkArpCache [] [] 0.
Definition is_stale (now : Z) (c : ArpCache) : bool := REFRESH_INTERVAL <=? Z.max 0 (now - last_refresh c).

(** ** Refresh *)

Definition with_status (s : ArpStatus) (r : ArpRecord) : ArpRecord := mkArp s (ar_hwaddr r) (ar_addr r).
Definition mark (r : ArpRecord) : ArpRecord := if decide (ar_status r = Empty) then r else with_status Mark r.
Definition begin_refresh (now : Z) (c : ArpCache) : ArpCache := mkArpCache (mark <$> active c) (old c) now.

(** The loop over the records: the list with the record of the entry changed,
    or nothing if none takes the entry. *)
Fixpoint confirm (addr : IpAddr) (hwaddr : list u8) (rs : list ArpRecord) : option (list ArpRecord) :=
  match rs with
  | [] => None
  | r :: rest =>
    if negb (bool_decide (ar_addr r = addr)) || bool_decide (ar_status r = New) then (r ::.) <$> confirm addr hwaddr rest
    else if bool_decide (ar_status r = Empty) then Some (mkArp New hwaddr (ar_addr r) :: rest)
    else if bool_decide (ar_hwaddr r = hwaddr) then Some (with_status Found r :: rest)
    else (r ::.) <$> confirm addr hwaddr rest
  end.
Definition filter_mac (addr : IpAddr) (hwaddr : list u8) (c : ArpCache) : bool * ArpCache :=
  if (DHCP_CHADDR_MAX <? length hwaddr)%nat then (false, c)
  else (true, mkArpCache (default (active c ++ [mkArp New hwaddr addr]) (confirm addr hwaddr (active c))) (old c) (last_refresh c)).

Definition is_marked (r : ArpRecord) : bool := bool_decide (ar_status r = Mark).
Definition finish_refresh (c : ArpCache) : ArpCache :=
  mkArpCache (List.filter (fun r => negb (is_marked r)) (active c)) (old c ++ List.filter is_marked (active c)) (last_refresh c).

(** The entries of the neighbour table, in the order the kernel lists them. *)
Definition kernel_enumerate_into (entries : list (IpAddr * list u8)) (c : ArpCache) : ArpCache :=
  fold_left (fun c e => snd (filter_mac (fst e) (snd e) c)) entries c.

(** ** Lookup *)

Definition find_mac_cached (addr : IpAddr) (lazy : bool) (c : ArpCache) : option (list u8) :=
  ar_hwaddr <$> List.find (fun r => bool_decide (ar_addr r = addr) && (negb (bool_decide (ar_status r = Empty)) || lazy)
                                    && negb (length (ar_hwaddr r) =? 0)%nat) (active c).

Definition add_empty (addr : IpAddr) (c : ArpCache) : ArpCache :=
  if existsb (fun r => bool_decide (ar_addr r = addr)) (active c) then c
  else mkArpCache (active c ++ [mkArp Empty [] addr]) (old c) (last_refresh c).

Definition refresh (now : Z) (enumerate : ArpCache -> ArpCache) (c : ArpCache) : ArpCache :=
  finish_refresh (enumerate (begin_refresh now c)).

(** The loop of the source runs at most twice: the second time after a refresh. *)
Definition find_mac (addr : IpAddr) (lazy : bool) (now : Z) (can_query_kernel : bool) (enumerate : ArpCache -> ArpCache) (c : ArpCache)
  : option (list u8) * ArpCache :=
  let cached (lazy : bool) (c : ArpCache) :=
    if negb (is_stale now c) || negb can_query_kernel then find_mac_cached addr lazy c else None in
  match cached lazy c with
  | Some mac => (Some mac, c)
  | None =>
    if negb can_query_kernel then (None, c)
    else
      let c := refresh now enumerate c in
      match cached true c with
      | Some mac => (Some mac, c)
      | None => (None, add_empty addr c)
      end
  end.

Definition refresh_if_stale (now : Z) (enumerate : ArpCache -> ArpCache) (c : ArpCache) : ArpCache :=
  if is_stale now c then refresh now enumerate c else c.

(** ** Script events *)

Fixpoint announce (rs : list ArpRecord) : option (ArpAction * list ArpRecord) :=
  match rs with
  | [] => None
  | r :: rest =>
    if decide (ar_status r = New) then Some (Add (ar_addr r) (ar_hwaddr r), with_status Found r :: rest)
    else let! (a, rest) := announce rest in Some (a, r :: rest)
  end.
Definition do_arp_script_run (c : ArpCache) : option (ArpAction * ArpCache) :=
  match old c with
  | r :: rest => Some (Del (ar_addr r) (ar_hwaddr r), mkArpCache (active c) rest (last_refresh c))
  | [] => let! (a, rs) := announce (active c) in Some (a, mkArpCache rs [] (last_refresh c))
  end.

(** Up to [n] events. *)
Fixpoint drain (n : nat) (c : ArpCache) : list ArpAction * ArpCache :=
  match n with
  | O => ([], c)
  | S m => match do_arp_script_run c with
           | Some (a, c') => let '(evs, c'') := drain m c' in (a :: evs, c'')
           | None => ([], c)
           end
  end.
Definition script_event (a : ArpAction) : ScriptData :=
  match a with Add addr hw => for_arp false hw addr | Del addr hw => for_arp true hw addr end.

(** The loop that sends events has no bound of its own: each of them takes a
    record out of the queue or makes a new one old. The other loop stops after
    100001 events. *)
Definition DRAIN_LIMIT : Z := 100000.
Definition drain_arp_script_events (script_arp_enabled : bool) (c : ArpCache) : list ScriptData * ArpCache :=
  if negb script_arp_enabled then ([], snd (drain (Z.to_nat (DRAIN_LIMIT + 1)) c))
  else let '(evs, c) := drain (S (length (old c) + length (active c))) c in (script_event <$> evs, c).

Definition arp_len (c : ArpCache) : nat := length (active c).
Definition old_len (c : ArpCache) : nat := length (old c).

(** ** One entry of the kernel *)

(** The records an entry passes over. *)
Definition passed (addr : IpAddr) (hwaddr : list u8) (r : ArpRecord) : Prop :=
  ar_addr r = addr -> ar_status r = New \/ (ar_status r <> Empty /\ ar_hwaddr r <> hwaddr).
(** The record an entry changes, and what it becomes. *)
Definition confirmed (addr : IpAddr) (hwaddr : list u8) (r r' : ArpRecord) : Prop :=
  ar_addr r = addr /\ ar_status r <> New /\
  ((ar_status r = Empty /\ r' = mkArp New hwaddr addr) \/
   (ar_status r <> Empty /\ ar_hwaddr r = hwaddr /\ r' = mkArp Found hwaddr addr)).

Lemma confirm_spec addr hw rs :
  match confirm addr hw rs with
  | Some rs' => exists l1 r r' l2, rs = l1 ++ r :: l2 /\ rs' = l1 ++ r' :: l2 /\ confirmed addr hw r r' /\ Forall (passed addr hw) l1
  | None => Forall (passed addr hw) rs
  end.
Proof.
  induction rs as [|r rs IH]; [constructor|]. cbn [confirm].
  assert (passed addr hw r -> match (r ::.) <$> confirm addr hw rs with
    | Some rs' => exists l1 r0 r' l2, r :: rs = l1 ++ r0 :: l2 /\ rs' = l1 ++ r' :: l2 /\ confirmed addr hw r0 r' /\ Forall (passed addr hw) l1
    | None => Forall (passed addr hw) (r :: rs) end) as Hskip.
  { intros Hr. destruct (confirm addr hw rs) as [rs'|]; cbn [fmap option_fmap option_map]; [|by constructor].
    destruct IH as (l1 & r0 & r' & l2 & -> & -> & Hc & Hl). exists (r :: l1), r0, r', l2. by split_and!; [..|constructor]. }
  destruct (bool_decide_reflect (ar_addr r = addr)) as [Ha|Ha]; cbn [negb orb]; [|apply Hskip; intros ?; done].
  destruct (bool_decide_reflect (ar_status r = New)) as [Hn|Hn]; [apply Hskip; by left|].
  destruct (bool_decide_reflect (ar_status r = Empty)) as [He|He].
  { exists [], r, (mkArp New hw addr), rs. rewrite Ha. split_and!; [done..| |constructor]. by split_and!; [..|left]. }
  destruct (bool_decide_reflect (ar_hwaddr r = hw)) as [Hh|Hh]; [|apply Hskip; by right].
  exists [], r, (mkArp Found hw addr), rs. unfold with_status. rewrite Ha, Hh. split_and!; [done..| |constructor]. by split_and!; [..|right].
Qed.

(** ** A refresh *)

Definition entry_of (r : ArpRecord) : IpAddr * list u8 := (ar_addr r, ar_hwaddr r).
Definition confirmed_now (r : ArpRecord) : Prop := ar_status r = Found \/ ar_status r = New.
Definition arp_wf (rs : list ArpRecord) : Prop := Forall (fun r => ar_status r = Empty -> ar_hwaddr r = []) rs.

(** Between the start and the end of a refresh: what has been confirmed is what
    the kernel has listed so far. *)
Record refreshing (seen : list (IpAddr * list u8)) (rs : list ArpRecord) : Prop := {
  rf_sound : forall r, r ∈ rs -> confirmed_now r -> entry_of r ∈ seen;
  rf_complete : forall e, e ∈ seen -> exists r, r ∈ rs /\ entry_of r = e /\ confirmed_now r;
  rf_wf : arp_wf rs;
}.

Lemma refreshing_begin c now : arp_wf (active c) -> refreshing [] (active (begin_refresh now c)).
Proof.
  intros Hwf. assert (forall r, r ∈ mark <$> active c -> exists r0, r0 ∈ active c /\ r = mark r0) as Hin.
  { intros r (r0 & -> & Hr)%list_elem_of_fmap. by eauto. }
  constructor; cbn [active begin_refresh].
  - intros r (r0 & _ & ->)%Hin Hc. unfold mark, confirmed_now in Hc. case_decide; [by destruct Hc; congruence|]. by destruct Hc.
  - by intros e []%not_elem_of_nil.
  - apply Forall_fmap. eapply Forall_impl; [exact Hwf|]. intros r H. cbn. unfold mark. by case_decide.
Qed.

Lemma refreshing_step seen rs addr hw : refreshing seen rs ->
  refreshing (seen ++ [(addr, hw)]) (default (rs ++ [mkArp New hw addr]) (confirm addr hw rs)).
Proof.
  intros [Hs Hc Hwf]. pose proof (confirm_spec addr hw rs) as Hsp. unfold arp_wf in *. destruct (confirm addr hw rs) as [rs'|]; cbn [default from_option id].
  - destruct Hsp as (l1 & r & r' & l2 & -> & -> & (Ha & Hn & Hr) & _). apply Forall_app in Hwf as [Hw1 Hw2]. apply Forall_cons in Hw2 as [Hwr Hw2].
    assert (entry_of r' = (addr, hw) /\ confirmed_now r') as [He' Hc'].
    { unfold confirmed_now. destruct Hr as [[_ ->]|(_ & _ & ->)]; by eauto. }
    constructor.
    + intros x Hx Hcx. destruct (decide (x = r')) as [->|Hne]; [rewrite He'; set_solver|]. rewrite elem_of_app. left. apply Hs; [|done]. set_solver.
    + intros e [He|He%list_elem_of_singleton]%elem_of_app; [|by exists r'; subst; split_and!; [set_solver|..]].
      destruct (Hc e He) as (x & Hx & Hex & Hcx). destruct (decide (x = r)) as [->|Hne]; [|exists x; split_and!; [set_solver|done..]].
      exists r'. split_and!; [set_solver| |done]. rewrite He', <- Hex. unfold entry_of. destruct Hr as [[Hr _]|(_ & Hr & _)]; [destruct Hcx; congruence|by subst].
    + apply Forall_app. split; [done|]. constructor; [|done]. destruct Hr as [[_ ->]|(_ & _ & ->)]; done.
  - constructor.
    + intros x [Hx| ->%list_elem_of_singleton]%elem_of_app Hcx; rewrite elem_of_app; [left; by apply Hs|right]. by apply list_elem_of_singleton.
    + intros e [He|He%list_elem_of_singleton]%elem_of_app.
      * destruct (Hc e He) as (x & Hx & ?). exists x. split; [set_solver|done].
      * exists (mkArp New hw addr). split_and!; [set_solver|done|by right].
    + apply Forall_app. split; [done|]. by constructor.
Qed.

(** The entries the cache has room for. *)
Definition listed (entries : list (IpAddr * list u8)) : list (IpAddr * list u8) :=
  List.filter (fun e => (length (snd e) <=? DHCP_CHADDR_MAX)%nat) entries.

Lemma refreshing_enumerate entries : forall seen c, refreshing seen (active c) ->
  refreshing (seen ++ listed entries) (active (kernel_enumerate_into entries c)) /\
  last_refresh (kernel_enumerate_into entries c) = last_refresh c /\ old (kernel_enumerate_into entries c) = old c.
Proof.
  induction entries as [|[a h] entries IH]; intros seen c Hr; [by rewrite app_nil_r|].
  change (kernel_enumerate_into ((a, h) :: entries) c) with (kernel_enumerate_into entries (snd (filter_mac a h c))).
  unfold filter_mac. cbn [listed List.filter snd]. fold (listed entries). rewrite Nat.leb_antisym.
  destruct (DHCP_CHADDR_MAX <? length h)%nat; cbn [snd negb]; [by apply IH|].
  change ((a, h) :: listed entries) with ([(a, h)] ++ listed entries). rewrite app_assoc.
  match goal with |- context [kernel_enumerate_into entries ?c'] => destruct (IH (seen ++ [(a, h)]) c') as (A & B & D) end; [|done].
  by apply refreshing_step.
Qed.

(** After a refresh the cache holds what the kernel listed, and negative
    entries. *)
Lemma refresh_spec now entries c : arp_wf (active c) ->
  let c' := refresh now (kernel_enumerate_into entries) c in
  (forall r, r ∈ active c' -> ar_status r <> Empty -> entry_of r ∈ listed entries) /\
  (forall e, e ∈ listed entries -> exists r, r ∈ active c' /\ entry_of r = e /\ ar_status r <> Empty) /\
  arp_wf (active c') /\ last_refresh c' = now.
Proof.
  intros Hwf c'. destruct (refreshing_enumerate entries [] _ (refreshing_begin c now Hwf)) as ([Hs Hc Hw] & Hl & _). cbn [app] in *.
  assert (forall r, r ∈ active c' <-> r ∈ active (kernel_enumerate_into entries (begin_refresh now c)) /\ ar_status r <> Mark) as Hin.
  { intros r. unfold c', refresh, finish_refresh. cbn [active]. rewrite !list_elem_of_In, filter_In, negb_true_iff. unfold is_marked.
    by rewrite bool_decide_eq_false. }
  split_and!.
  - intros r [Hr Hm]%Hin He. apply Hs; [done|]. unfold confirmed_now. destruct (ar_status r); tauto.
  - intros e (r & Hr & He & Hcf)%Hc. exists r. split_and!; [|done|by destruct Hcf; congruence]. apply Hin. split; [done|]. by destruct Hcf; congruence.
  - unfold arp_wf in *. rewrite Forall_forall in Hw |- *. intros r [Hr _]%Hin. by apply Hw.
  - done.
Qed.

Lemma find_mac_cached_spec addr c : arp_wf (active c) ->
  match find_mac_cached addr true c with
  | Some mac => mac <> [] /\ exists r, r ∈ active c /\ entry_of r = (addr, mac) /\ ar_status r <> Empty
  | None => forall r, r ∈ active c -> ar_addr r = addr -> ar_hwaddr r = []
  end.
Proof.
  intros Hwf. unfold find_mac_cached. destruct (List.find _ (active c)) as [r|] eqn:E; cbn [fmap option_fmap option_map].
  - apply find_some in E as [Hin Hr]. rewrite !andb_true_iff, negb_true_iff, bool_decide_eq_true, Nat.eqb_neq in Hr. destruct Hr as [[Ha _] Hl].
    apply list_elem_of_In in Hin. unfold arp_wf in Hwf. rewrite Forall_forall in Hwf. split; [by destruct (ar_hwaddr r)|].
    exists r. split_and!; [done|by unfold entry_of; rewrite Ha|]. intros He. apply (Hwf r Hin) in He. by rewrite He in Hl.
  - intros r Hr Ha. apply list_elem_of_In in Hr. apply (find_none _ _ E) in Hr. rewrite orb_true_r, andb_true_r, bool_decide_true in Hr by done.
    cbn in Hr. rewrite negb_false_iff, Nat.eqb_eq in Hr. by apply length_zero_iff_nil.
Qed.

Lemma add_empty_wf addr c : arp_wf (active c) -> arp_wf (active (add_empty addr c)) /\
  exists r, r ∈ active (add_empty addr c) /\ ar_addr r = addr.
Proof.
  intros Hwf. unfold add_empty. destruct (existsb _ (active c)) eqn:E.
  - apply existsb_exists in E as (r & Hr & Ha). rewrite bool_decide_eq_true in Ha. split; [done|]. exists r. by rewrite list_elem_of_In.
  - cbn [active]. split; [apply Forall_app; split; [done|by constructor]|]. exists (mkArp Empty [] addr). set_solver.
Qed.

(** A lookup of a hardware address is answered by the cache while it is
    fresh; otherwise the neighbour table is read once, the answer is an address
    the kernel listed for the client, and there is none only if the kernel
    listed none: then the client is remembered, so that it is not asked for
    again until the next refresh. *)
Theorem find_mac_spec addr lazy now entries c : arp_wf (active c) -> 
  let '(r, c') := find_mac addr lazy now true (kernel_enumerate_into entries) c in
  (is_stale now c = false -> forall mac, find_mac_cached addr lazy c = Some mac -> r = Some mac /\ c' = c) /\
  (is_stale now c = true \/ find_mac_cached addr lazy c = None ->
   last_refresh c' = now /\ is_stale now c' = false /\ (exists rec, rec ∈ active c' /\ ar_addr rec = addr) /\
   match r with
   | Some mac => mac <> [] /\ (addr, mac) ∈ listed entries
   | None => forall mac, (addr, mac) ∈ listed entries -> mac = []
   end) /\
  arp_wf (active c').
Proof.
  intros Hwf. unfold find_mac. rewrite !orb_false_r. set (hit := if negb (is_stale now c) then find_mac_cached addr lazy c else None).
  destruct (refresh_spec now entries c Hwf) as (Hs & Hc & Hwf' & Hl). set (c1 := refresh now (kernel_enumerate_into entries) c) in *. cbv zeta.
  assert (is_stale now c1 = false) as Hfresh.
  { unfold is_stale. rewrite Hl, Z.sub_diag. done. }
  destruct hit as [mac|] eqn:Ehit; cbn [negb].
  { subst hit. destruct (is_stale now c); [done|]. cbn [negb] in Ehit. split_and!; [|by intros [?|?]; congruence|done].
    intros _ m Hm. split; [congruence|done]. }
  rewrite Hfresh. cbn [negb]. pose proof (find_mac_cached_spec addr c1 Hwf') as Hf. destruct (find_mac_cached addr true c1) as [mac|].
  - destruct Hf as (Hne & r & Hr & He & Hst). split_and!; [intros Hn m Hm; subst hit; rewrite Hn in Ehit; cbn in Ehit; congruence| |done].
    intros _. split_and!; [done..|exists r; split; [done|by injection He]|done|]. rewrite <- He. by apply Hs.
  - destruct (add_empty_wf addr c1 Hwf') as [Hw Hex]. assert (last_refresh (add_empty addr c1) = now) as Hl'.
    { unfold add_empty. by case_match. }
    split_and!; [intros Hn m Hm; subst hit; rewrite Hn in Ehit; cbn in Ehit; congruence| |done].
    intros _. split_and!; [done|unfold is_stale in *; by rewrite Hl'; rewrite Hl in Hfresh|done|].
    intros mac (r & Hr & He & _)%Hc. injection He as Ha <-. by apply Hf.
Qed.

(** ** Events *)

Definition is_new (r : ArpRecord) : bool := bool_decide (ar_status r = New).
Definition settle_all (r : ArpRecord) : ArpRecord := if is_new r then with_status Found r else r.
Definition add_event (r : ArpRecord) : ArpAction := Add (ar_addr r) (ar_hwaddr r).
Definition del_event (r : ArpRecord) : ArpAction := Del (ar_addr r) (ar_hwaddr r).

Lemma announce_spec rs :
  match announce rs with
  | Some (a, rs') => exists l1 r l2, rs = l1 ++ r :: l2 /\ Forall (fun x => is_new x = false) l1 /\ is_new r = true /\
      a = add_event r /\ rs' = l1 ++ with_status Found r :: l2
  | None => Forall (fun x => is_new x = false) rs
  end.
Proof.
  induction rs as [|r rs IH]; [constructor|]. cbn [announce]. destruct (decide (ar_status r = New)) as [Hn|Hn].
  - exists [], r, rs. unfold is_new. rewrite bool_decide_true by done. by split_and!; [..|constructor|].
  - assert (is_new r = false) by (unfold is_new; by rewrite bool_decide_false).
    destruct (announce rs) as [[a rs']|]; [|by constructor]. destruct IH as (l1 & r0 & l2 & -> & Hl & Hr & -> & ->).
    exists (r :: l1), r0, l2. split_and!; [done|by constructor|done..].
Qed.

Lemma settle_old rs : Forall (fun x => is_new x = false) rs -> settle_all <$> rs = rs.
Proof. induction 1 as [|r rs Hr _ IH]; [done|]. rewrite fmap_cons, IH. unfold settle_all. by rewrite Hr. Qed.
Lemma filter_new_old rs : Forall (fun x => is_new x = false) rs -> List.filter is_new rs = [].
Proof. induction 1 as [|r rs Hr _ IH]; [done|]. cbn. by rewrite Hr. Qed.

(** Draining reports the queue of deletions, then the new records, and leaves
    nothing to report. *)
Lemma drain_all n : forall c, (length (old c) + length (List.filter is_new (active c)) < n)%nat ->
  drain n c = ((del_event <$> old c) ++ (add_event <$> List.filter is_new (active c)), mkArpCache (settle_all <$> active c) [] (last_refresh c)).
Proof.
  induction n as [|n IH]; intros [rs os t] Hn; [lia|]. cbn [drain]. unfold do_arp_script_run. cbn [old active last_refresh] in *. destruct os as [|r os].
  - pose proof (announce_spec rs) as Hs. destruct (announce rs) as [[a rs']|].
    + destruct Hs as (l1 & r & l2 & -> & Hl & Hr & -> & ->). assert (is_new (with_status Found r) = false) as Hf by done.
      rewrite List.filter_app, (filter_new_old l1) in Hn by done. cbn [List.filter app] in Hn. rewrite Hr in Hn. cbn [length] in Hn.
      cbv beta iota. rewrite IH; cbn [active old last_refresh]; rewrite !List.filter_app, !(filter_new_old l1) by done; cbn [List.filter app]; rewrite Hf; [|cbn; lia].
      rewrite Hr. cbn [fmap list_fmap app]. f_equal. rewrite !fmap_app, !fmap_cons. unfold settle_all at 2 5. by rewrite Hf, Hr.
    + cbn [fmap list_fmap app]. by rewrite filter_new_old, settle_old.
  - rewrite IH by (cbn [active old length] in *; lia). done.
Qed.

(** ** The script follows the neighbour table *)

(** A cache with nothing to report, one record for each address. *)
Record tidy (c : ArpCache) : Prop := {
  td_old : old c = [];
  td_status : Forall (fun r => ar_status r = Found \/ ar_status r = Empty) (active c);
  td_unique : NoDup (ar_addr <$> active c);
}.
(** What the script has been told and not taken back. *)
Definition known (c : ArpCache) : list (IpAddr * list u8) := entry_of <$> List.filter (fun r => bool_decide (ar_status r = Found)) (active c).

Lemma NoDup_fmap_inj_on {A B} (f : A -> B) l x y : NoDup (f <$> l) -> x ∈ l -> y ∈ l -> f x = f y -> x = y.
Proof.
  intros Hn Hx Hy E. apply list_elem_of_lookup in Hx as [i Hi]. apply list_elem_of_lookup in Hy as [j Hj].
  assert (i = j) as ->; [|congruence]. eapply (NoDup_lookup (f <$> l)); [done|by rewrite list_lookup_fmap, Hi|by rewrite list_lookup_fmap, Hj, E].
Qed.
Lemma find_app {A} (f : A -> bool) l1 l2 :
  List.find f (l1 ++ l2) = match List.find f l1 with Some x => Some x | None => List.find f l2 end.
Proof. induction l1 as [|x l1 IH]; [done|]. cbn. by destruct (f x). Qed.

Section Cycle.
Context (rs : list ArpRecord).
Hypothesis rs_status : Forall (fun r => ar_status r = Mark \/ ar_status r = Empty) rs.
Hypothesis rs_unique : NoDup (ar_addr <$> rs).

(** The record a marked or empty one has become once [seen] was listed. *)
Definition updated (seen : list (IpAddr * list u8)) (r : ArpRecord) : ArpRecord :=
  if decide (ar_status r = Empty)
  then match List.find (fun e => bool_decide (fst e = ar_addr r)) seen with Some e => mkArp New (snd e) (ar_addr r) | None => r end
  else if decide (entry_of r ∈ seen) then with_status Found r else r.
(** The entries that get a record of their own. *)
Definition unmatched (e : IpAddr * list u8) : bool :=
  negb (existsb (fun r => bool_decide (ar_addr r = fst e) && (bool_decide (ar_status r = Empty) || bool_decide (ar_hwaddr r = snd e))) rs).
Definition new_record (e : IpAddr * list u8) : ArpRecord := mkArp New (snd e) (fst e).
Definition after (seen : list (IpAddr * list u8)) : list ArpRecord := (updated seen <$> rs) ++ (new_record <$> List.filter unmatched seen).

Lemma updated_addr seen r : ar_addr (updated seen r) = ar_addr r.
Proof. unfold updated. case_decide; [by case_match|]. by case_decide. Qed.

Lemma updated_other seen a h r : ar_addr r <> a -> updated (seen ++ [(a, h)]) r = updated seen r.
Proof.
  intros Hne. unfold updated. rewrite find_app.
  assert (List.find (fun e => bool_decide (e.1 = ar_addr r)) [(a, h)] = None) as -> by (cbn; by rewrite bool_decide_false by congruence).
  case_decide; [by destruct (List.find _ seen)|]. rewrite (decide_ext (entry_of r ∈ seen ++ [(a, h)]) (entry_of r ∈ seen)); [done|].
  rewrite elem_of_app, list_elem_of_singleton. split; [intros [?|E]; [done|by injection E]|by left].
Qed.
Lemma updated_seen seen h r : ar_addr r ∉ seen.*1 ->
  updated seen r = r /\
  updated (seen ++ [(ar_addr r, h)]) r =
    if decide (ar_status r = Empty) then mkArp New h (ar_addr r) else if decide (ar_hwaddr r = h) then with_status Found r else r.
Proof.
  intros Hni. unfold updated. rewrite find_app.
  assert (List.find (fun e => bool_decide (e.1 = ar_addr r)) seen = None) as ->.
  { destruct (List.find _ seen) as [e|] eqn:E; [|done]. apply find_some in E as [Hin He]. rewrite bool_decide_eq_true in He. exfalso. apply Hni.
    rewrite <- He. apply list_elem_of_fmap. exists e. by rewrite list_elem_of_In. }
  assert (entry_of r ∉ seen) by (intros H; apply Hni, list_elem_of_fmap; by exists (entry_of r)).
  cbn [List.find fst snd]. rewrite bool_decide_true by done. split; [case_decide; [done|]; by rewrite decide_False|].
  case_decide; [done|]. apply decide_ext. rewrite elem_of_app, list_elem_of_singleton. unfold entry_of in *. split; [|by intros ->; right].
  intros [?|E]; [done|]. by injection E.
Qed.

Lemma unmatched_false e r : r ∈ rs -> ar_addr r = fst e -> ar_status r = Empty \/ ar_hwaddr r = snd e -> unmatched e = false.
Proof.
  intros Hr Ha Hx. unfold unmatched. apply negb_false_iff, existsb_exists. exists r. rewrite <- list_elem_of_In, bool_decide_true by done.
  split; [done|]. cbn. apply orb_true_iff. rewrite !bool_decide_eq_true. done.
Qed.
Lemma unmatched_true e : (forall r, r ∈ rs -> ar_addr r = fst e -> ar_status r <> Empty /\ ar_hwaddr r <> snd e) -> unmatched e = true.
Proof.
  intros H. unfold unmatched. apply negb_true_iff, not_true_iff_false. rewrite existsb_exists. intros (r & Hr & Hx).
  rewrite <- list_elem_of_In in Hr. rewrite andb_true_iff, orb_true_iff, !bool_decide_eq_true in Hx. destruct Hx as [Ha Hx].
  destruct (H r Hr Ha). tauto.
Qed.

Lemma confirm_skip addr hw l1 l2 : Forall (fun r => ar_addr r <> addr) l1 -> confirm addr hw (l1 ++ l2) = (l1 ++.) <$> confirm addr hw l2.
Proof.
  induction 1 as [|r l1 Hr _ IH]; cbn [app confirm]; [by destruct (confirm addr hw l2)|].
  rewrite bool_decide_false by done. cbn [negb orb]. rewrite IH. by destruct (confirm addr hw l2).
Qed.
Lemma confirm_none l addr hw : Forall (fun r => ar_addr r <> addr) l -> confirm addr hw l = None.
Proof. intros H. by rewrite <- (app_nil_r l), confirm_skip. Qed.

(** One more entry, of an address that has not been listed yet. *)
Lemma after_snoc seen a h : a ∉ seen.*1 ->
  default (after seen ++ [mkArp New h a]) (confirm a h (after seen)) = after (seen ++ [(a, h)]).
Proof.
  intros Hni. unfold after. rewrite List.filter_app, fmap_app. cbn [List.filter].
  assert (Forall (fun x => ar_addr x <> a) (new_record <$> List.filter unmatched seen)) as Hnew.
  { rewrite Forall_forall. intros x (e & -> & He)%list_elem_of_fmap. apply list_elem_of_In, filter_In in He as [He _].
    rewrite <- list_elem_of_In in He. intros E. apply Hni, list_elem_of_fmap. by exists e. }
  set (news := new_record <$> List.filter unmatched seen) in *.
  assert (forall l, Forall (fun r => ar_addr r <> a) l ->
    updated (seen ++ [(a, h)]) <$> l = updated seen <$> l /\ Forall (fun r => ar_addr r <> a) (updated seen <$> l)) as Hsame.
  { intros l Hl. rewrite Forall_fmap. induction Hl as [|r l Hr _ [IH1 IH2]]; [done|]. rewrite !fmap_cons, IH1, updated_other by done.
    split; [done|]. constructor; [by unfold compose; rewrite updated_addr|done]. }
  destruct (decide (a ∈ ar_addr <$> rs)) as [Hin|Hout].
  - apply list_elem_of_fmap in Hin as (r & -> & Hr). apply list_elem_of_split in Hr as (l1 & l2 & Hrs).
    assert (Forall (fun x => ar_addr x <> ar_addr r) l1 /\ Forall (fun x => ar_addr x <> ar_addr r) l2) as [Hl1 Hl2].
    { pose proof rs_unique as Hu. rewrite Hrs, fmap_app, fmap_cons in Hu. apply NoDup_app in Hu as (_ & Hu1 & Hu2). apply NoDup_cons in Hu2 as [Hu2 _].
      rewrite !Forall_forall. split; intros x Hx E; [apply (Hu1 (ar_addr r)); [|by left]|apply Hu2]; rewrite <- E; by apply list_elem_of_fmap_2. }
    assert (r ∈ rs) as Hr by (rewrite Hrs; set_solver). destruct (updated_seen seen h r Hni) as [Hu Hu'].
    destruct (Hsame l1 Hl1) as [E1 S1]. destruct (Hsame l2 Hl2) as [E2 S2].
    assert (updated seen <$> rs = (updated seen <$> l1) ++ r :: (updated seen <$> l2)) as -> by (by rewrite Hrs, fmap_app, fmap_cons, Hu).
    assert (updated (seen ++ [(ar_addr r, h)]) <$> rs = (updated seen <$> l1) ++ updated (seen ++ [(ar_addr r, h)]) r :: (updated seen <$> l2)) as ->
      by (by rewrite Hrs, fmap_app, fmap_cons, E1, E2).
    rewrite <- !app_assoc, confirm_skip by done. cbn [app confirm]. rewrite Hu', bool_decide_true by done.
    rewrite Forall_forall in rs_status. destruct (rs_status r Hr) as [Hs|Hs]; rewrite !Hs; cbn [negb orb].
    + rewrite !(bool_decide_false (Mark = _)), decide_False by done. destruct (decide (ar_hwaddr r = h)) as [Hh|Hh].
      * rewrite bool_decide_true, (unmatched_false _ r) by (done || by right). cbn. by rewrite app_nil_r.
      * rewrite bool_decide_false by done. rewrite (confirm_none (_ ++ news)) by (by apply Forall_app). cbn [fmap option_fmap option_map default from_option id].
        rewrite unmatched_true; [done|]. intros x Hx Hxa. rewrite Hrs in Hx.
        assert (x = r) as -> by (rewrite Forall_forall in Hl1, Hl2; apply elem_of_app in Hx as [?%Hl1|[?|?%Hl2]%elem_of_cons]; done).
        by rewrite Hs.
    + rewrite (bool_decide_false (Empty = New)), (bool_decide_true (Empty = Empty)), decide_True, (unmatched_false _ r) by (done || by left).
      cbn. by rewrite app_nil_r.
  - assert (Forall (fun r => ar_addr r <> a) rs) as Hrs.
    { rewrite Forall_forall. intros r Hr E. apply Hout, list_elem_of_fmap. by exists r. }
    destruct (Hsame rs Hrs) as [-> S]. rewrite confirm_none by (by apply Forall_app). cbn [default from_option id].
    rewrite unmatched_true; [by rewrite <- app_assoc|]. intros r Hr E. rewrite Forall_forall in Hrs. by apply Hrs in Hr.
Qed.
End Cycle.

Lemma listed_all es : Forall (fun e => (length (snd e) <= 16)%nat) es -> listed es = es.
Proof.
  unfold listed. induction 1 as [|e es He _ IH]; [done|]. cbn [List.filter]. rewrite IH.
  by rewrite (proj2 (Nat.leb_le _ _)) by (unfold DHCP_CHADDR_MAX; lia).
Qed.

Section Tracks.
Context (c : ArpCache) (now : Z) (entries : list (IpAddr * list u8)).
Hypothesis c_tidy : tidy c.
Hypothesis entries_unique : NoDup entries.*1.
Hypothesis entries_fit : Forall (fun e => (length (snd e) <= 16)%nat) entries.

Let rs : list ArpRecord := mark <$> active c.

Lemma marked_status : Forall (fun r => ar_status r = Mark \/ ar_status r = Empty) rs.
Proof. apply Forall_fmap, Forall_true. intros r. unfold compose, mark. case_decide; [by right|by left]. Qed.
Lemma marked_unique : NoDup (ar_addr <$> rs).
Proof.
  unfold rs. rewrite <- list_fmap_compose. rewrite (list_fmap_ext _ ar_addr); [apply (td_unique _ c_tidy)|].
  intros i r _. unfold compose, mark. by case_decide.
Qed.
Lemma marked_known e : e ∈ known c <-> exists r, r ∈ rs /\ ar_status r = Mark /\ entry_of r = e.
Proof.
  unfold known, rs. rewrite list_elem_of_fmap. split.
  - intros (r & -> & Hr). apply list_elem_of_In, filter_In in Hr as [Hr Hs]. rewrite bool_decide_eq_true in Hs. rewrite <- list_elem_of_In in Hr.
    exists (mark r). split; [by apply list_elem_of_fmap_2|]. unfold mark. by rewrite decide_False by congruence.
  - intros (r & (r0 & -> & Hr)%list_elem_of_fmap & Hs & <-). pose proof (td_status _ c_tidy) as Ht. rewrite Forall_forall in Ht.
    unfold mark in *. destruct (decide (ar_status r0 = Empty)) as [He|He]; [congruence|]. destruct (Ht r0 Hr) as [Hf|]; [|done].
    exists r0. split; [done|]. apply list_elem_of_In, filter_In. by rewrite <- list_elem_of_In, bool_decide_eq_true.
Qed.

Lemma enumerate_after es : (exists more, entries = es ++ more) ->
  kernel_enumerate_into es (begin_refresh now c) = mkArpCache (after rs es) [] now.
Proof.
  induction es as [|[a h] es IH] using rev_ind; intros [more Hes].
  - unfold after, kernel_enumerate_into, begin_refresh. cbn [fold_left List.filter fmap list_fmap]. rewrite (td_old _ c_tidy), app_nil_r. f_equal.
    symmetry. transitivity (id <$> rs); [|apply list_fmap_id]. apply list_fmap_ext. intros i r Hi. unfold updated. cbn. case_decide; [done|].
    by rewrite decide_False by apply not_elem_of_nil.
  - unfold kernel_enumerate_into in *. rewrite fold_left_app, IH by (exists ([(a, h)] ++ more); by rewrite app_assoc). cbn [fold_left fst snd].
    assert ((a, h) ∈ entries) as Hin by (rewrite Hes; set_solver). pose proof entries_fit as Hfit. rewrite Forall_forall in Hfit. apply Hfit in Hin. cbn in Hin.
    unfold filter_mac. rewrite (proj2 (Nat.ltb_ge _ _)) by (unfold DHCP_CHADDR_MAX; lia). cbn [snd active old last_refresh].
    f_equal. apply after_snoc; [apply marked_status|apply marked_unique|]. intros Hn. pose proof entries_unique as Hu.
    rewrite Hes, !fmap_app in Hu. apply NoDup_app in Hu as (Hu & _). apply NoDup_app in Hu as (_ & Hu & _). apply (Hu a Hn). cbn. set_solver.
Qed.

Lemma tidy_wf : arp_wf (active c) -> forall e,
  e ∈ entries <-> exists r, r ∈ after rs entries /\ (ar_status r = Found \/ ar_status r = New) /\ entry_of r = e.
Proof.
  intros Hwf e. destruct (refreshing_enumerate entries [] _ (refreshing_begin c now Hwf)) as ([Hs Hc _] & _). cbn [app] in *.
  rewrite listed_all in * by done. rewrite (enumerate_after entries) in * by (exists []; by rewrite app_nil_r). cbn [active] in *. split.
  - intros (r & Hr & He & Hcf)%Hc. by exists r.
  - intros (r & Hr & Hcf & <-). by apply Hs.
Qed.

Lemma after_mark e : (exists r, r ∈ after rs entries /\ ar_status r = Mark /\ entry_of r = e) <-> e ∈ known c /\ e ∉ entries.
Proof.
  rewrite marked_known. unfold after. split.
  - intros (r & [Hr|Hr]%elem_of_app & Hm & He); [|by apply list_elem_of_fmap in Hr as (? & -> & _)].
    apply list_elem_of_fmap in Hr as (r0 & -> & Hr). unfold updated in *. destruct (decide (ar_status r0 = Empty)); [by case_match; [|congruence]|].
    destruct (decide (entry_of r0 ∈ entries)); [done|]. split; [by exists r0|by subst].
  - intros [(r & Hr & Hm & He) Hni]. exists r. split_and!; [|done..]. apply elem_of_app. left. apply list_elem_of_fmap. exists r. split; [|done].
    unfold updated. rewrite decide_False by congruence. by rewrite decide_False by (by rewrite He).
Qed.
Lemma after_new e : arp_wf (active c) ->
  (exists r, r ∈ after rs entries /\ ar_status r = New /\ entry_of r = e) <-> e ∈ entries /\ e ∉ known c.
Proof.
  intros Hwf. rewrite marked_known. split.
  - intros (r & Hr & Hn & He). split; [apply (tidy_wf Hwf); by eauto|]. intros (r1 & Hr1 & Hm & He1). unfold after in Hr.
    apply elem_of_app in Hr as [(r0 & -> & Hr)%list_elem_of_fmap|(e0 & -> & Hr)%list_elem_of_fmap].
    + assert (ar_status r0 = Empty) as Hem.
      { destruct (decide (ar_status r0 = Empty)) as [|H]; [done|]. unfold updated in Hn. rewrite decide_False in Hn by done.
        pose proof marked_status as Hst. rewrite Forall_forall in Hst. destruct (Hst r0 Hr) as [Hst'|]; [|done]. case_decide; cbn in Hn; congruence. }
      assert (r0 = r1) as ->; [|congruence]. apply (NoDup_fmap_inj_on ar_addr rs); [apply marked_unique|done..|].
      rewrite <- He1 in He. injection He as He _. by rewrite updated_addr in He.
    + apply list_elem_of_In, filter_In in Hr as [_ Hr]. rewrite (unmatched_false rs e0 r1) in Hr; [done|done|..];
        rewrite <- He1 in He; injection He as He1' He2'; [done|by right].
  - intros [He Hk]. apply (tidy_wf Hwf) in He as (r & Hr & [Hs|Hs] & He); [|by exists r]. exfalso. apply Hk. unfold after in Hr.
    apply elem_of_app in Hr as [(r0 & -> & Hr)%list_elem_of_fmap|(e0 & -> & _)%list_elem_of_fmap]; [|done].
    exists r0. unfold updated in *. destruct (decide (ar_status r0 = Empty)); [by case_match; [|congruence]|].
    pose proof marked_status as Hst. rewrite Forall_forall in Hst. destruct (Hst r0 Hr); [|done]. case_decide; done.
Qed.
End Tracks.

Lemma nodup_filter_fmap {A B} (f : A -> B) (P : A -> bool) l : NoDup (f <$> l) -> NoDup (f <$> List.filter P l).
Proof.
  induction l as [|x l IH]; [done|]. rewrite fmap_cons, NoDup_cons. intros [Hx Hl]. cbn [List.filter]. destruct (P x); [|auto].
  rewrite fmap_cons, NoDup_cons. split; [|auto]. intros (y & Hy & Hin)%list_elem_of_fmap. apply Hx. rewrite Hy. apply list_elem_of_fmap_2.
  apply list_elem_of_In, filter_In in Hin as [Hin _]. by apply list_elem_of_In.
Qed.

(** At the end of the cycle each address has one record again. *)
Lemma kept_unique c entries : tidy c -> NoDup entries.*1 ->
  NoDup (ar_addr <$> List.filter (fun r => negb (is_marked r)) (after (mark <$> active c) entries)).
Proof.
  intros Ht Hu. unfold after. rewrite List.filter_app, fmap_app, NoDup_app. split_and!.
  - apply nodup_filter_fmap. rewrite <- list_fmap_compose. rewrite (list_fmap_ext _ ar_addr); [by apply marked_unique|].
    intros i r _. apply updated_addr.
  - intros a (x & Hax & Hx)%list_elem_of_fmap (y & Hay & Hy)%list_elem_of_fmap.
    apply list_elem_of_In, filter_In in Hx as [Hx Hm]. rewrite <- list_elem_of_In in Hx. apply list_elem_of_fmap in Hx as (r & -> & Hr).
    apply list_elem_of_In, filter_In in Hy as [Hy _]. rewrite <- list_elem_of_In in Hy. apply list_elem_of_fmap in Hy as (e & -> & He).
    apply list_elem_of_In, filter_In in He as [He Hun]. rewrite <- list_elem_of_In in He. rewrite updated_addr in Hax. cbn in Hay.
    destruct (decide (ar_status r = Empty)) as [Hs|Hs]; [rewrite (unmatched_false _ e r) in Hun; [done|done|congruence|by left]|].
    unfold is_marked, updated in Hm. rewrite decide_False in Hm by done. pose proof (marked_status c) as Hst. rewrite Forall_forall in Hst.
    destruct (Hst r Hr) as [Hst'|]; [|done]. destruct (decide (entry_of r ∈ entries)) as [Hin|Hni].
    + assert (entry_of r = e) as Hre by (apply (NoDup_fmap_inj_on fst entries); [done..|cbn; congruence]).
      rewrite (unmatched_false _ e r) in Hun; [done|done|congruence|right; by rewrite <- Hre].
    + by rewrite bool_decide_true in Hm.
  - apply nodup_filter_fmap. rewrite <- list_fmap_compose. change (ar_addr ∘ new_record) with (fst : IpAddr * list u8 -> IpAddr). by apply nodup_filter_fmap.
Qed.

(** The script's view follows the kernel's neighbour table. Start from a
    cache with nothing left to report; after a refresh from a table that lists
    each address once, the events sent to the script are exactly the deletion
    of what it knew and the kernel no longer lists and the addition of what
    the kernel lists and it did not know. All of them are sent in one call;
    then nothing is left to report and what the script knows is the table. *)
Theorem arp_script_tracks c now entries : tidy c -> arp_wf (active c) -> NoDup entries.*1 ->
  Forall (fun e => (length (snd e) <= 16)%nat) entries ->
  exists evs, let '(sent, c') := drain_arp_script_events true (refresh now (kernel_enumerate_into entries) c) in
  sent = script_event <$> evs /\
  (forall a h, Del a h ∈ evs <-> (a, h) ∈ known c /\ (a, h) ∉ entries) /\
  (forall a h, Add a h ∈ evs <-> (a, h) ∈ entries /\ (a, h) ∉ known c) /\
  tidy c' /\ arp_wf (active c') /\ (forall e, e ∈ known c' <-> e ∈ entries).
Proof.
  intros Ht Hwf Hu Hfit. destruct (refresh_spec now entries c Hwf) as (_ & _ & Hwf' & _). revert Hwf'.
  unfold drain_arp_script_events, refresh. cbn [negb].
  rewrite (enumerate_after c now entries Ht Hu Hfit entries) by (exists []; by rewrite app_nil_r). unfold finish_refresh. cbn [active old last_refresh app].
  set (rs := after (mark <$> active c) entries). intros Hwf'. rewrite drain_all; cbn [active old last_refresh].
  2:{ pose proof (filter_length_le is_new (List.filter (fun r => negb (is_marked r)) rs)). lia. }
  assert (forall r, r ∈ List.filter (fun r => negb (is_marked r)) rs <-> r ∈ rs /\ ar_status r <> Mark) as Hkept.
  { intros r. rewrite !list_elem_of_In, filter_In, negb_true_iff. unfold is_marked. by rewrite bool_decide_eq_false. }
  eexists. split; [reflexivity|]. split_and!.
  - intros a h. rewrite <- (after_mark c entries Ht). rewrite elem_of_app, !list_elem_of_fmap. fold rs. split.
    + intros [(r & [= -> ->] & Hr)|(r & ? & _)]; [|done]. apply list_elem_of_In, filter_In in Hr as [Hr Hm]. unfold is_marked in Hm.
      rewrite bool_decide_eq_true in Hm. rewrite <- list_elem_of_In in Hr. by exists r.
    + intros (r & Hr & Hm & [= <- <-]). left. exists r. split; [done|]. apply list_elem_of_In, filter_In. rewrite <- list_elem_of_In.
      unfold is_marked. by rewrite bool_decide_eq_true.
  - intros a h. rewrite <- (after_new c now entries Ht Hu Hfit _ Hwf). rewrite elem_of_app, !list_elem_of_fmap. fold rs. split.
    + intros [(r & ? & _)|(r & [= -> ->] & Hr)]; [done|]. apply list_elem_of_In, filter_In in Hr as [Hr Hn]. unfold is_new in Hn.
      rewrite bool_decide_eq_true in Hn. rewrite <- list_elem_of_In in Hr. apply Hkept in Hr as [Hr _]. by exists r.
    + intros (r & Hr & Hn & [= <- <-]). right. exists r. split; [done|]. apply list_elem_of_In, filter_In. rewrite <- list_elem_of_In.
      unfold is_new. rewrite bool_decide_eq_true. split; [|done]. apply Hkept. by rewrite Hn.
  - constructor; cbn [active old]; [done| |].
    + apply Forall_fmap, Forall_forall. intros r [_ Hm]%Hkept. unfold compose, settle_all, is_new. case_bool_decide; [by left|].
      destruct (ar_status r); tauto.
    + rewrite <- list_fmap_compose. rewrite (list_fmap_ext _ ar_addr); [by apply kept_unique|]. intros i r _. unfold compose, settle_all. by case_match.
  - unfold arp_wf in *. apply Forall_fmap. eapply Forall_impl; [exact Hwf'|]. intros r Hr. unfold compose, settle_all. by case_match.
  - intros e. rewrite (tidy_wf c now entries Ht Hu Hfit Hwf). fold rs. unfold known. cbn [active]. rewrite list_elem_of_fmap. split.
    + intros (x & -> & Hx). apply list_elem_of_In, filter_In in Hx as [Hx Hf]. rewrite bool_decide_eq_true in Hf. rewrite <- list_elem_of_In in Hx.
      apply list_elem_of_fmap in Hx as (r & -> & [Hr _]%Hkept). exists r. split; [done|]. unfold settle_all, is_new in *. case_bool_decide; [by split; [right|]|].
      by split; [left|].
    + intros (r & Hr & Hs & <-). exists (settle_all r). unfold settle_all, is_new in *. split; [by case_match|]. apply list_elem_of_In, filter_In.
      rewrite <- list_elem_of_In, bool_decide_eq_true. split; [apply (list_elem_of_fmap_2 settle_all), Hkept; split; [done|by destruct Hs; congruence]|].
      case_bool_decide; [done|]. by destruct Hs.
Qed.

(** ** Examples *)

Definition ex_mac : list u8 := bs "abcdef".
Definition ex_known : ArpCache := mkArpCache [mkArp Found ex_mac (V4 1); mkArp Empty [] (V4 2)] [] 50.

Lemma find_mac_spec_witness :
  fst (find_mac (V4 2) false 100 true (kernel_enumerate_into [(V4 2, ex_mac)]) ex_known) = Some ex_mac /\
  (V4 2, ex_mac) ∈ listed [(V4 2, ex_mac)].
Proof.
  assert (arp_wf (active ex_known)) as Hwf by (repeat constructor; done).
  pose proof (find_mac_spec (V4 2) false 100 [(V4 2, ex_mac)] ex_known Hwf) as H.
  destruct (find_mac (V4 2) false 100 true (kernel_enumerate_into [(V4 2, ex_mac)]) ex_known) as [r c'] eqn:E.
  assert (r = Some ex_mac) as -> by (change r with (fst (r, c')); rewrite <- E; by vm_compute).
  destruct H as (_ & H & _). destruct H as (_ & _ & _ & _ & H); [by right|]. done.
Defined.

Lemma arp_script_tracks_witness :
  exists evs, fst (drain_arp_script_events true (refresh 200 (kernel_enumerate_into [(V4 2, ex_mac)]) ex_known)) = script_event <$> evs /\
    Del (V4 1) ex_mac ∈ evs /\ Add (V4 2) ex_mac ∈ evs.
Proof.
  destruct (arp_script_tracks ex_known 200 [(V4 2, ex_mac)]) as (evs & H).
  - constructor; [done|repeat constructor; by eauto|]. apply (bool_decide_unpack _). by vm_compute.
  - repeat constructor; done.
  - apply (bool_decide_unpack _). by vm_compute.
  - apply Forall_singleton, (bool_decide_unpack _). by vm_compute.
  - exists evs. destruct (drain_arp_script_events _ _) as [sent c']. destruct H as (-> & Hd & Ha & _). split_and!; [done|..].
    + apply Hd. split; apply (bool_decide_unpack _); by vm_compute.
    + apply Ha. split; apply (bool_decide_unpack _); by vm_compute.
Defined.

(** A refresh marks new records too: one that was not reported before it is
    confirmed as found and never reported. *)
Example unreported_record_confirmed :
  let c := kernel_enumerate_into [(V4 1, ex_mac)] (begin_refresh 100 arp_new) in
  let '(evs, c') := drain 10 (refresh 200 (kernel_enumerate_into [(V4 1, ex_mac)]) (finish_refresh c)) in
  evs = [] /\ known c' = [(V4 1, ex_mac)].
Proof. by vm_compute. Qed.

(** ... and one that has gone is reported as deleted without having been added. *)
Example unreported_record_deleted :
  let c := kernel_enumerate_into [(V4 1, ex_mac)] (begin_refresh 100 arp_new) in
  fst (drain 10 (refresh 200 (kernel_enumerate_into []) (finish_refresh c))) = [Del (V4 1) ex_mac].
Proof. by vm_compute. Qed.
