(* ===== verification/Auth.v ===== *)
(** * Authoritative answers: src/src/auth.rs

    The answer to a query for a zone the daemon is authoritative for. The
    configuration is [AuthConfig]; the MX and SRV records are part of the state
    because a query rotates them, and the cache is, because a lookup expires
    records. The search restarts at the target of a CNAME; the loop runs on
    fuel and its result is [None] when the fuel is used up. A name cut inside a
    character panics. *)

From Stdlib Require Import ZArith Lia String.
From stdpp Require Import base numbers list option sets.
From S2P Require Import Prelude ByteCursor DnsProtocol Rfc1035 Types Arpa Lru Metrics Cache StdText Records.

#[local] Open Scope Z_scope.

(** ** Zones *)

Definition in_zone (name zone_name : str) : outcome (option (option nat)) :=
  let name := trim_end dot name in
  let zone := trim_end dot zone_name in
  let namelen := length name in
  let zonelen := length zone in
  if (namelen <? zonelen)%nat then Val None
  else
    let# suffix := str_from name (namelen - zonelen) in
    Val (if negb (eq_ignore_ascii_case suffix zone) then None
         else if (namelen =? zonelen)%nat then Some None
         else let cut := (namelen - zonelen - 1)%nat in
              if bool_decide (name !! cut = Some dot) then Some (Some cut) else None).

(** [(a >> (8 * k)) & mask] byte by byte: the loop over the sixteen octets. *)
Fixpoint same_prefix (a b : list u8) (remaining : Z) : bool :=
  match a, b with
  | x :: a', y :: b' =>
    if remaining =? 0 then true
    else if 8 <=? remaining then bool_decide (x = y) && same_prefix a' b' (remaining - 8)
    else let mask := Z.shiftl 255 (8 - remaining) mod 256 in Z.land (u8z x) mask =? Z.land (u8z y) mask
  | _, _ => true
  end.
(** [prefix_len as usize]. *)
Definition is_same_net6_inline (a b : Ipv6Addr) (prefix_len : Z) : bool := same_prefix (octets6 a) (octets6 b) (as_u64 prefix_len).

Definition clamp32 (p : Z) : Z := Z.max 0 (Z.min p 32).
Definition addrlist_covers (addr : AllAddr) (entry : Addrlist) : bool :=
  match al_addr entry, addr with
  | Addr4 net, Addr4 a =>
    if has (al_flags entry) ADDRLIST_IPV6 then false
    else let prefix := clamp32 (al_prefixlen entry) in
         let mask := if prefix =? 0 then 0 else as_u32 (Z.shiftl (not32 0) (32 - prefix)) in
         Z.land a mask =? Z.land net mask
  | Addr6 net, Addr6 a => has (al_flags entry) ADDRLIST_IPV6 && is_same_net6_inline a net (al_prefixlen entry)
  | _, _ => false
  end.
(** The index of the source, as the entry it points to. *)
Definition find_addrlist (list : list Addrlist) (addr : AllAddr) : option Addrlist := List.find (addrlist_covers addr) list.
Definition find_subnet (zone : AuthZone) (addr : AllAddr) : bool := negb (bool_decide (find_addrlist (az_subnet zone) addr = None)).
Definition find_exclude (zone : AuthZone) (addr : AllAddr) : bool := negb (bool_decide (find_addrlist (az_exclude zone) addr = None)).
Definition filter_zone (zone : AuthZone) (addr : AllAddr) : bool :=
  if find_exclude zone addr then false
  else if (length (az_subnet zone) =? 0)%nat then true
  else find_subnet zone addr.

Definition addr_flag (addr : AllAddr) : Z := match addr with Addr4 _ => F_IPV4 | Addr6 _ => F_IPV6 | _ => 0 end.
Definition addrlist_matches_addr (al : Addrlist) (addr : AllAddr) : bool :=
  match al_addr al, addr with
  | Addr4 a, Addr4 b => negb (has (al_flags al) ADDRLIST_IPV6) && (a =? b)
  | Addr6 a, Addr6 b => has (al_flags al) ADDRLIST_IPV6 && (a =? b)
  | _, _ => false
  end.

(** The nibbles from bit [i] down in steps of four; indexing the sixteen octets
    panics past the end. *)
Fixpoint nibble_labels (fuel : nat) (bytes : list u8) (i : Z) : outcome str :=
  match fuel with
  | O => Val []
  | S f =>
    if i <? 0 then Val []
    else match bytes !! Z.to_nat (Z.shiftr i 3) with
         | None => Panic
         | Some dig =>
           let nib := if Z.testbit i 2 then Z.land (u8z dig) 15 else Z.shiftr (u8z dig) 4 in
           let# rest := nibble_labels f bytes (i - 4) in Val (fmt_x 1 nib ++ [dot] ++ rest)
         end
  end.
Definition reverse_zone_name (subnet : Addrlist) : outcome str :=
  match al_addr subnet with
  | Addr4 ip =>
    let o (i : nat) := fmt_u (u8z (default Byte.x00 (octets4 ip !! i))) ++ [dot] in
    Val ((if 24 <=? al_prefixlen subnet then o 2%nat else []) ++ (if 16 <=? al_prefixlen subnet then o 1%nat else [])
         ++ o 0%nat ++ bs "in-addr.arpa")
  | Addr6 ip =>
    let# labels := nibble_labels (Z.to_nat (al_prefixlen subnet)) (octets6 ip) (al_prefixlen subnet - 1) in
    Val (labels ++ bs "ip6.arpa")
  | _ => Val []
  end.

(** ** Configuration *)

Record AuthConfig : Type := mkAuthConfig {
  ac_zones : list AuthZone; ac_naptr : list Naptr; ac_rr : list TxtRecord; ac_txt : list TxtRecord;
  ac_int_names : list InterfaceName; ac_cnames : list CnameRec; ac_peers : list Iname; ac_interface : bool;
  ac_authserver : str; ac_hostmaster : str; ac_secondaries : list str;
  ac_soa_sn : Z; ac_soa_refresh : Z; ac_soa_retry : Z; ac_soa_expiry : Z; ac_ttl : Z;
  ac_dhcp_fqdn : bool; ac_edns_pktsz : Z }.

(** ** Records *)

Definition char_string (s : str) : list u8 := z8 (Z.of_nat (Nat.min (length s) 255)) :: take 255 s.
Definition make_rr (owner : str) (t : RrType) (ttl : Z) (rdata : list u8) : DnsRr := mkRr owner (RrType_as t) 1 ttl rdata.
Definition make_soa_rr (authname : str) (cfg : AuthConfig) : DnsRr :=
  make_rr authname T_SOA (ac_ttl cfg)
    (write_name (write_name [] (ac_authserver cfg)) (ac_hostmaster cfg)
     ++ mjoin (to_be 4 <$> [ac_soa_sn cfg; ac_soa_refresh cfg; ac_soa_retry cfg; ac_soa_expiry cfg; ac_ttl cfg])).
Definition make_ns_rr (owner target : str) (ttl : Z) : DnsRr := make_rr owner T_NS ttl (write_name [] target).
Definition make_ptr_rr (owner target : str) (ttl : Z) : DnsRr := make_rr owner T_PTR ttl (write_name [] target).
Definition make_cname_rr (owner target : str) (ttl : Z) : DnsRr := make_rr owner T_CNAME ttl (write_name [] target).
Definition make_mx_rr (owner : str) (rec : MxSrvRecord) (ttl : Z) : DnsRr :=
  make_rr owner T_MX ttl (write_name (to_be 2 (mx_priority rec)) (mx_target rec)).
Definition make_srv_rr (owner : str) (rec : MxSrvRecord) (ttl : Z) : DnsRr :=
  make_rr owner T_SRV ttl (write_name (to_be 2 (mx_priority rec) ++ to_be 2 (mx_weight rec) ++ to_be 2 (mx_srv_port rec)) (mx_target rec)).
Definition make_naptr_rr (owner : str) (na : Naptr) (ttl : Z) : DnsRr :=
  make_rr owner T_NAPTR ttl (to_be 2 (na_order na) ++ to_be 2 (na_pref na) ++ char_string (na_flags na) ++ char_string (na_services na)
    ++ char_string (na_regexp na) ++ write_name [] (na_replace na)).

(** [data.chunks(255)], each behind its length. *)
Fixpoint txt_chunks (fuel : nat) (data : list u8) : list u8 :=
  match fuel with
  | O => []
  | S f => match data with
           | [] => []
           | _ => let chunk := take 255 data in z8 (Z.of_nat (length chunk)) :: chunk ++ txt_chunks f (drop 255 data)
           end
  end.
Definition make_txt_like_rr (owner : str) (t : Z) (data : list u8) (ttl : Z) : DnsRr :=
  mkRr owner t 1 ttl (if (length data =? 0)%nat then [Byte.x00] else txt_chunks (length data) data).
Definition make_addr_rr (owner : str) (t : Z) (addr : AllAddr) (ttl : Z) : option DnsRr :=
  match addr with
  | Addr4 ip => Some (mkRr owner t 1 ttl (octets4 ip))
  | Addr6 ip => Some (mkRr owner t 1 ttl (octets6 ip))
  | _ => None
  end.
Definition append_domain_if_bare (n domain : str) : str :=
  if bool_decide (dot ∈ n) then n else n ++ [dot] ++ domain.

(** ** Answers *)

(** The first result of a list. *)
Fixpoint list_find_map {A B} (f : A -> option B) (l : list A) : option B :=
  match l with
  | [] => None
  | x :: rest => match f x with Some y => Some y | None => list_find_map f rest end
  end.

Section Answer.
Context `{UnicodeTables} {L : Lru CacheKey CacheRecord}.
Context (cfg : AuthConfig) (local_query : bool) (now : Instant).

Definition issubdomain_rc (name domain : str) : Z :=
  if eq_ignore_ascii_case name domain then 2 else if is_subdomain name domain then 1 else 0.

(** One configured list: whether it knows the name or a name above it, and the
    records it has for the name itself. *)
Definition from_list {A} (name : str) (name_of : A -> str) (rrs : A -> list DnsRr) (l : list A) : bool * list DnsRr :=
  (existsb (fun x => negb (issubdomain_rc name (name_of x) =? 0)) l,
   mjoin ((fun x => if issubdomain_rc name (name_of x) =? 2 then rrs x else []) <$> l)).
Definition also (x y : bool * list DnsRr) : bool * list DnsRr := (fst x || fst y, snd x ++ snd y).
Infix "+++" := also (at level 60, right associativity).

Definition want (qtype : Z) (t : RrType) : bool := bool_decide (RrType_from_u16 qtype = Some t).

(** An address the zone lets out. *)
Definition visible (zone : AuthZone) (addr : AllAddr) : bool := local_query || filter_zone zone addr.

Definition int_name_rrs (zone : AuthZone) (name : str) (qtype flag : Z) (intr : InterfaceName) : list DnsRr :=
  if flag =? 0 then []
  else mjoin ((fun al =>
    let is6 := has (al_flags al) ADDRLIST_IPV6 in
    if negb (RrType_as (if is6 then T_AAAA else T_A) =? qtype) then []
    else if has (al_flags al) ADDRLIST_REVONLY then []
    else if negb (visible zone (al_addr al)) then []
    else option_list (make_addr_rr name qtype (al_addr al) (ac_ttl cfg))) <$> in_addrs intr).

(** The lists in the order of the source: MX, SRV, other types, TXT, NAPTR and
    interface names. *)
Definition from_config (zone : AuthZone) (name : str) (qtype flag : Z) (mxnames : list MxSrvRecord) : bool * list DnsRr :=
  let ttl := ac_ttl cfg in
  from_list name mx_name (fun r => if want qtype T_MX then [make_mx_rr name r ttl] else []) (List.filter (fun r => negb (mx_is_srv r)) mxnames)
  +++ from_list name mx_name (fun r => if want qtype T_SRV then [make_srv_rr name r ttl] else []) (List.filter mx_is_srv mxnames)
  +++ from_list name txt_name (fun t => if txt_class t =? qtype then [make_txt_like_rr name (txt_class t) (txt_txt t) ttl] else []) (ac_rr cfg)
  +++ from_list name txt_name (fun t => if want qtype T_TXT then [make_txt_like_rr name (RrType_as T_TXT) (txt_txt t) ttl] else [])
        (List.filter (fun t => txt_class t =? 1) (ac_txt cfg))
  +++ from_list name na_name (fun n => if want qtype T_NAPTR then [make_naptr_rr name n ttl] else []) (ac_naptr cfg)
  +++ from_list name in_name (int_name_rrs zone name qtype flag) (ac_int_names cfg).

(** The first SRV record at or above the name goes to the end of the list. *)
Fixpoint take_first_srv (name : str) (l : list MxSrvRecord) : option (MxSrvRecord * list MxSrvRecord) :=
  match l with
  | [] => None
  | r :: rest =>
    if mx_is_srv r && negb (issubdomain_rc name (mx_name r) =? 0) then Some (r, rest)
    else let! (x, rest') := take_first_srv name rest in Some (x, r :: rest')
  end.
Definition rotate_srv (name : str) (mxnames : list MxSrvRecord) : list MxSrvRecord :=
  match take_first_srv name mxnames with Some (r, rest) => rest ++ [r] | None => mxnames end.

(** Cached addresses of DHCP clients and hosts files. *)
Definition from_cache (zone : AuthZone) (owner : str) (qtype flag : Z) (wanted : CacheRecord -> bool) (recs : list CacheRecord)
  : bool * list DnsRr :=
  let recs := List.filter wanted recs in
  (negb (length recs =? 0)%nat,
   mjoin ((fun cr => if negb (has (cr_flags cr) flag) then []
                     else match cr_addr cr with
                          | Some addr => if visible zone addr then option_list (make_addr_rr owner qtype addr (ac_ttl cfg)) else []
                          | None => []
                          end) <$> recs)).

(** The alias with the longest match, wildcards at a dot; the first wildcard
    that matches is the only one considered. *)
Record cname_search : Type := mkSearch { se_wclen : nat; se_wildcard : bool; se_candidate : option CnameRec }.
Definition wildcard_matches (name suffix : str) : bool :=
  existsb (fun i => bool_decide (name !! i = Some dot) && eq_ignore_ascii_case (drop i name) suffix) (seq 0 (length name)).
Definition search_cname (name : str) (s : cname_search) (c : CnameRec) : cname_search :=
  match cn_alias c with
  | Byte.x2a :: suffix =>
    if wildcard_matches name suffix && (se_wclen s <? length suffix)%nat && negb (se_wildcard s)
    then mkSearch (length suffix) true (Some c) else s
  | alias =>
    if eq_ignore_ascii_case alias name && (se_wclen s <? length alias)%nat then mkSearch (length alias) (se_wildcard s) (Some c) else s
  end.
Definition find_cname (name : str) : option CnameRec := se_candidate (fold_left (search_cname name) (ac_cnames cfg) (mkSearch 0 false None)).

(** The state of the search. *)
Record Search : Type := mkSt {
  st_found : bool; st_nxdomain : bool; st_auth : bool; st_soa : bool; st_ns : bool; st_axfr : bool; st_out_of_zone : bool;
  st_zone : option AuthZone; st_subnet : option Addrlist; st_flag : Z; st_answers : list DnsRr; st_mx : list MxSrvRecord; st_world : World }.
Definition put_found (b : bool) (s : Search) : Search :=
  mkSt b (st_nxdomain s) (st_auth s) (st_soa s) (st_ns s) (st_axfr s) (st_out_of_zone s) (st_zone s) (st_subnet s) (st_flag s) (st_answers s) (st_mx s) (st_world s).
Definition put_zone (z : AuthZone) (sub : option Addrlist) (s : Search) : Search :=
  mkSt (st_found s) (st_nxdomain s) (st_auth s) (st_soa s) (st_ns s) (st_axfr s) (st_out_of_zone s) (Some z) sub (st_flag s) (st_answers s) (st_mx s) (st_world s).
Definition put_outside (s : Search) : Search :=
  mkSt (st_found s) (st_nxdomain s) false (st_soa s) (st_ns s) (st_axfr s) true (st_zone s) (st_subnet s) (st_flag s) (st_answers s) (st_mx s) (st_world s).
Definition put_sections (au so ns ax : bool) (s : Search) : Search :=
  mkSt (st_found s) (st_nxdomain s) (st_auth s || au) (st_soa s || so) (st_ns s || ns) (st_axfr s || ax) (st_out_of_zone s) (st_zone s) (st_subnet s) (st_flag s)
    (st_answers s) (st_mx s) (st_world s).
Definition put_flag (f : Z) (s : Search) : Search :=
  mkSt (st_found s) (st_nxdomain s) (st_auth s) (st_soa s) (st_ns s) (st_axfr s) (st_out_of_zone s) (st_zone s) (st_subnet s) f (st_answers s) (st_mx s) (st_world s).
Definition put_state (mx : list MxSrvRecord) (w : World) (s : Search) : Search :=
  mkSt (st_found s) (st_nxdomain s) (st_auth s) (st_soa s) (st_ns s) (st_axfr s) (st_out_of_zone s) (st_zone s) (st_subnet s) (st_flag s) (st_answers s) mx w.
(** Something was seen, and these records answer the query. *)
Definition put_answers (x : bool * list DnsRr) (s : Search) : Search :=
  mkSt (st_found s) (st_nxdomain s && negb (fst x)) (st_auth s) (st_soa s) (st_ns s) (st_axfr s) (st_out_of_zone s) (st_zone s) (st_subnet s) (st_flag s)
    (st_answers s ++ snd x) (st_mx s) (st_world s).

(** *** Reverse names *)

Definition zone_holds (zone : option AuthZone) (name : str) : outcome bool :=
  match zone with
  | None => Val false
  | Some z => let# r := in_zone name (az_domain z) in Val (negb (bool_decide (r = None)))
  end.
(** [local_query || zone.is_some_and(...)]. *)
Definition in_view (zone : option AuthZone) (name : str) : outcome bool := if local_query then Val true else zone_holds zone name.

Definition first_piece (name : str) : str := default name (head (split_on dot name)).

(** The PTR answers of the cache. *)
Fixpoint ptr_from_cache (qname : str) (zone : option AuthZone) (recs : list CacheRecord) : outcome (list DnsRr) :=
  match recs with
  | [] => Val []
  | cr :: rest =>
    let# here :=
      (if has (cr_flags cr) F_DHCP && negb (ac_dhcp_fqdn cfg) then
         let bare := first_piece (cr_name cr) in
         Val [make_ptr_rr qname (match zone with Some z => append_domain_if_bare bare (az_domain z) | None => bare end) (ac_ttl cfg)]
       else if has (cr_flags cr) (F_DHCP ∣∣ F_HOSTS) then
         let# v := in_view zone (cr_name cr) in
         Val (if v then [make_ptr_rr qname (cr_name cr) (ac_ttl cfg)] else [])
       else Val []) in
    let# later := ptr_from_cache qname zone rest in
    Val (here ++ later)
  end.

(** The state after the reverse part, and whether the search is over. *)
Definition reverse_part (qname name : str) (qtype : Z) (s : Search) : outcome (Search * bool) :=
  if negb (want qtype T_PTR || want qtype T_SOA || want qtype T_NS) then Val (s, false)
  else match in_arpa_name_2_addr name with
  | None => Val (s, false)
  | Some addr =>
    let s := put_flag (addr_flag addr) s in
    let '(s, over) :=
      (if local_query then (s, false)
       else match list_find_map (fun z => (fun sub => (z, sub)) <$> find_addrlist (az_subnet z) addr) (ac_zones cfg) with
            | None => (put_outside s, true)
            | Some (z, sub) =>
              let s := put_zone z (Some sub) s in
              (if want qtype T_SOA then put_found true (put_sections false true false false s)
               else if want qtype T_NS then put_found true (put_sections false false true false s) else s, false)
            end) in
    if over || negb (want qtype T_PTR) then Val (s, over)
    else
      let# intr_rrs :=
        (match List.find (fun i => existsb (fun al => addrlist_matches_addr al addr) (in_addrs i)) (ac_int_names cfg) with
         | None => Val []
         | Some i => let# v := in_view (st_zone s) (in_name i) in
                     Val (if v then [make_ptr_rr qname (in_name i) (ac_ttl cfg)] else [])
         end) in
      let '(recs, w) := lookup_all_by_addr addr (st_flag s) now (st_world s) in
      let# cache_rrs := ptr_from_cache qname (st_zone s) recs in
      let rrs := intr_rrs ++ cache_rrs in
      let hit := negb (length rrs =? 0)%nat in
      Val (put_found (st_found s || hit) (put_answers (hit, rrs) (put_state (st_mx s) w s)), true)
  end.

(** *** Forward names *)

(** The first zone the name is in, with the place where it is cut. *)
Fixpoint select_zone (name : str) (zones : list AuthZone) : outcome (option (AuthZone * option nat)) :=
  match zones with
  | [] => Val None
  | z :: rest =>
    let# r := in_zone name (az_domain z) in
    match r with Some cut => Val (Some (z, cut)) | None => select_zone name rest end
  end.

Definition axfr_authorized (peer : IpAddr) : bool :=
  match ac_peers cfg with
  | [] => negb (length (ac_secondaries cfg) =? 0)%nat
  | ps => existsb (fun p => bool_decide (sock_ip <$> ina_addr p = Some peer)) ps
  end.

(** One round of the loop: the query is dropped, the search is over, or it goes
    on with the target of an alias. *)
Inductive round : Type := Dropped (s : Search) | Over (s : Search) | Again (s : Search) (name : str).

Definition apex_part (qtype : Z) (s : Search) : Search :=
  let s := put_answers (true, []) s in
  if want qtype T_SOA then put_sections true true false false s
  else if want qtype T_AXFR then put_sections true true true true s
  else if want qtype T_NS then put_sections true false true false s else s.

Definition bare_part (zone : AuthZone) (name : str) (cut : option nat) (qtype : Z) (s : Search) : Search :=
  match cut with
  | Some c =>
    let stripped := take c name in
    if negb (ac_dhcp_fqdn cfg) && negb (bool_decide (dot ∈ stripped)) then
      let '(recs, w) := lookup_all_by_name stripped (F_IPV4 ∣∣ F_IPV6) now (st_world s) in
      put_answers (from_cache zone stripped qtype (st_flag s) (fun cr => has (cr_flags cr) F_DHCP) recs) (put_state (st_mx s) w s)
    else s
  | None => s
  end.
Definition cached_part (zone : AuthZone) (name : str) (cut : option nat) (qtype : Z) (s : Search) : Search :=
  let s := bare_part zone name cut qtype s in
  let '(recs, w) := lookup_all_by_name name (F_IPV4 ∣∣ F_IPV6) now (st_world s) in
  put_answers (from_cache zone name qtype (st_flag s)
                 (fun cr => has (cr_flags cr) F_HOSTS || (has (cr_flags cr) F_DHCP && ac_dhcp_fqdn cfg)) recs) (put_state (st_mx s) w s).

Definition end_round (zone : AuthZone) (name : str) (s : Search) : round :=
  if st_nxdomain s then
    match find_cname name with
    | Some c =>
      let target := append_domain_if_bare (cn_target c) (az_domain zone) in
      Again (put_found true (put_answers (false, [make_cname_rr name target (ac_ttl cfg)]) s)) target
    | None => Over (put_answers (cache_find_non_terminal name now (cache (st_world s)), []) s)
    end
  else Over s.

Definition forward_round (name : str) (qtype : Z) (peer : IpAddr) (s : Search) : outcome round :=
  let# sel := (if st_found s then Val (Some (st_zone s, None))
               else let# r := select_zone name (ac_zones cfg) in Val ((fun '(z, c) => (Some z, c)) <$> r)) in
  match sel with
  | None => Val (Over (put_outside s))
  | Some (None, _) => Panic
  | Some (Some zone, cut) =>
    let s := put_zone zone (st_subnet s) s in
    let flag := if want qtype T_A then F_IPV4 else if want qtype T_AAAA then F_IPV6 else st_flag s in
    let answers := from_config zone name qtype flag (st_mx s) in
    let s := put_answers answers (put_state (rotate_srv name (st_mx s)) (st_world s) (put_flag flag s)) in
    if bool_decide (cut = None) && negb (want qtype T_SOA) && want qtype T_AXFR && negb (axfr_authorized peer) then Val (Dropped s)
    else
      let s := if bool_decide (cut = None) then apex_part qtype s else s in
      let s := cached_part zone name cut qtype s in
      Val (end_round zone name s)
  end.

(** The state at the end, and whether the query is answered at all. *)
Fixpoint forward_loop (fuel : nat) (name : str) (qtype : Z) (peer : IpAddr) (s : Search) : option (outcome (Search * bool)) :=
  match fuel with
  | O => None
  | S f =>
    match forward_round name qtype peer s with
    | Panic => Some Panic
    | Val (Dropped s) => Some (Val (s, false))
    | Val (Over s) => Some (Val (s, true))
    | Val (Again s target) => forward_loop f target qtype peer s
    end
  end.

(** *** The authority section *)

(** A record of the section goes to the answers when it was asked for. *)
Definition file_rr (asked : bool) (rr : DnsRr) (p : list DnsRr * list DnsRr) : list DnsRr * list DnsRr :=
  if asked then (fst p ++ [rr], snd p) else (fst p, snd p ++ [rr]).

(** The records of a list whose names are in the zone. *)
Fixpoint zone_dump {A} (zone : AuthZone) (name_of : A -> str) (rrs : A -> list DnsRr) (l : list A) : outcome (list DnsRr) :=
  match l with
  | [] => Val []
  | x :: rest =>
    let# r := in_zone (name_of x) (az_domain zone) in
    let# later := zone_dump zone name_of rrs rest in
    Val ((if bool_decide (r = None) then [] else rrs x) ++ later)
  end.

Definition int_name_dump (zone : AuthZone) (intr : InterfaceName) : list DnsRr :=
  let family (six : bool) :=
    mjoin ((fun al => if Bool.eqb (has (al_flags al) ADDRLIST_IPV6) six && visible zone (al_addr al)
                      then option_list (make_addr_rr (in_name intr) (RrType_as (if six then T_AAAA else T_A)) (al_addr al) (ac_ttl cfg))
                      else []) <$> in_addrs intr) in
  family false ++ family true.

Fixpoint cache_dump (zone : AuthZone) (recs : list CacheRecord) : outcome (list DnsRr) :=
  match recs with
  | [] => Val []
  | cr :: rest =>
    let f := cr_flags cr in
    let# here :=
      (match cr_addr cr with
       | Some addr =>
         if negb (has f (F_IPV4 ∣∣ F_IPV6)) || has f (F_NEG ∣∣ F_NXDOMAIN) || negb (has f F_FORWARD) then Val []
         else
           let rtype := RrType_as (if has f F_IPV6 then T_AAAA else T_A) in
           let bare := if has f F_DHCP && negb (ac_dhcp_fqdn cfg) && negb (bool_decide (dot ∈ cr_name cr)) && visible zone addr
                       then option_list (make_addr_rr (append_domain_if_bare (cr_name cr) (az_domain zone)) rtype addr (ac_ttl cfg)) else [] in
           if has f F_HOSTS || (has f F_DHCP && ac_dhcp_fqdn cfg) then
             let# r := in_zone (cr_name cr) (az_domain zone) in
             Val (bare ++ if negb (bool_decide (r = None)) && visible zone addr
                          then option_list (make_addr_rr (cr_name cr) rtype addr (ac_ttl cfg)) else [])
           else Val bare
       | None => Val []
       end) in
    let# later := cache_dump zone rest in
    Val (here ++ later)
  end.

Definition build_auth_section (zone : AuthZone) (subnet : option Addrlist) (mxnames : list MxSrvRecord) (c : DnsCache)
    (axfr soa ns : bool) (answers : list DnsRr) : outcome (list DnsRr * list DnsRr) :=
  let# authname := (match subnet with Some s => reverse_zone_name s | None => Val (az_domain zone) end) in
  let ttl := ac_ttl cfg in
  let p := (answers, []) in
  let p := if ((length (fst p) =? 0)%nat && negb ns) || soa then file_rr soa (make_soa_rr authname cfg) p else p in
  let p := if negb (length (fst p) =? 0)%nat || ns then
             let p := if ac_interface cfg then file_rr ns (make_ns_rr authname (ac_authserver cfg) ttl) p else p in
             if bool_decide (subnet = None)
             then fold_left (fun p secondary => file_rr ns (make_ns_rr authname secondary ttl) p) (ac_secondaries cfg) p else p
           else p in
  if negb axfr then Val p
  else
    let# mxs := zone_dump zone mx_name (fun r => [if mx_is_srv r then make_srv_rr (mx_name r) r ttl else make_mx_rr (mx_name r) r ttl]) mxnames in
    let# rrs := zone_dump zone txt_name (fun t => [make_txt_like_rr (txt_name t) (txt_class t) (txt_txt t) ttl]) (ac_rr cfg) in
    let# txts := zone_dump zone txt_name (fun t => [make_txt_like_rr (txt_name t) (RrType_as T_TXT) (txt_txt t) ttl])
                   (List.filter (fun t => txt_class t =? 1) (ac_txt cfg)) in
    let# naptrs := zone_dump zone na_name (fun n => [make_naptr_rr (na_name n) n ttl]) (ac_naptr cfg) in
    let# ints := zone_dump zone in_name (int_name_dump zone) (ac_int_names cfg) in
    let# cnames := zone_dump zone cn_alias (fun c => [make_cname_rr (cn_alias c) (append_domain_if_bare (cn_target c) (az_domain zone)) ttl]) (ac_cnames cfg) in
    let# cached := cache_dump zone (iter_live now c) in
    Val (fst p ++ mxs ++ rrs ++ txts ++ naptrs ++ ints ++ cnames ++ cached ++ [make_soa_rr authname cfg], snd p).

(** *** The reply *)


Definition reply_header (query : DnsHeader) (auth : bool) : DnsHeader :=
  let b3 := Z.lor (Z.land (u8z (hb3 query)) (not8 (Z.lor HB3_AA HB3_TC))) HB3_QR in
  let b4 := if local_query then Z.lor (u8z (hb4 query)) HB4_RA else Z.land (u8z (hb4 query)) (not8 HB4_RA) in
  mkHeader (id query) (z8 (if auth then Z.lor b3 HB3_AA else b3)) (z8 (Z.land b4 (not8 HB4_AD))) 1 0 0 0.

Definition size_limit (query : DnsPacket) : nat :=
  if existsb (fun rr => rtype rr =? 41) (additional query) then Z.to_nat (ac_edns_pktsz cfg) else PACKETSZ.

(** The header, truncation and response code. *)
Definition finish_reply (query : DnsPacket) (question : DnsQuestion) (s : Search) (notimp : bool) (ans auth : list DnsRr) : DnsPacket :=
  let hdr := reply_header (header query) (st_auth s) in
  let too_long := (size_limit query <? length (write (mkPacket hdr [question] ans auth [])))%nat in
  let hdr := if too_long then with_hb3 hdr (z8 (Z.lor (u8z (hb3 hdr)) HB3_TC)) else hdr in
  let ans := if too_long then [] else ans in
  let auth := if too_long then [] else auth in
  let count {A} (l : list A) := as_u16 (Z.of_nat (length l)) in
  let hdr := set_rcode hdr (if (st_auth s || local_query) && st_nxdomain s then Byte.x03 else Byte.x00) in
  if (negb local_query && st_out_of_zone s) || notimp then
    mkPacket (with_counts (set_rcode hdr (if st_out_of_zone s then Byte.x05 else Byte.x04)) (qdcount hdr) 0 0 0) [question] [] [] []
  else mkPacket (with_counts hdr (qdcount hdr) (count ans) (count auth) 0) [question] ans auth [].

Definition initial (mxnames : list MxSrvRecord) (w : World) : Search :=
  mkSt false true (negb local_query) false false false false None None 0 [] mxnames w.

Definition query_name (q : DnsQuestion) : str :=
  let name := to_lowercase (q_name q) in default name (strip_suffix [dot] name).

(** The two parts of the search. *)
Definition search (fuel : nat) (q : DnsQuestion) (peer : IpAddr) (s : Search) : option (outcome (Search * bool)) :=
  let name := query_name q in
  match reverse_part (q_name q) name (qtype q) s with
  | Panic => Some Panic
  | Val (s, true) => Some (Val (s, true))
  | Val (s, false) => forward_loop fuel name (qtype q) peer s
  end.

(** The reply, with the rotated records and the cache. *)
Definition auth_reply (query : DnsPacket) (q : DnsQuestion) (s : Search) (notimp answered : bool)
  : outcome (option DnsPacket * list MxSrvRecord * World) :=
  if negb answered then Val (None, st_mx s, st_world s)
  else
    let# (ans, auth) :=
      (match (if st_auth s then st_zone s else None) with
       | Some z => build_auth_section z (st_subnet s) (st_mx s) (cache (st_world s)) (st_axfr s) (st_soa s) (st_ns s) (st_answers s)
       | None => Val (st_answers s, [])
       end) in
    Val (Some (finish_reply query q s notimp ans auth), st_mx s, st_world s).

Definition answer_auth (fuel : nat) (query : DnsPacket) (mxnames : list MxSrvRecord) (w : World) (peer : IpAddr)
  : option (outcome (option DnsPacket * list MxSrvRecord * World)) :=
  match questions query with
  | [q] =>
    let s := initial mxnames w in
    if negb (opcode (header query) =? 0) then Some (auth_reply query q s true true)
    else if negb (qclass q =? 1) then Some (auth_reply query q (put_outside s) false true)
    else match search fuel q peer s with
         | None => None
         | Some Panic => Some Panic
         | Some (Val (s, answered)) => Some (auth_reply query q s false answered)
         end
  | _ => Some (Val (None, mxnames, w))
  end.
End Answer.

(** ** Termination *)

Section Rounds.
Context `{UnicodeTables} {L : Lru CacheKey CacheRecord}.
Context (cfg : AuthConfig) (local_query : bool) (now : Instant).

Lemma put_answers_nx x (s : Search) : st_nxdomain s = false -> st_nxdomain (put_answers x s) = false.
Proof. intros Hn. cbn. by rewrite Hn. Qed.
Lemma apex_part_nx t (s : Search) : st_nxdomain (apex_part t s) = false.
Proof. unfold apex_part. cbn [fst]. repeat case_match; cbn; apply andb_false_r. Qed.
Lemma cached_part_nx zone name cut t (s : Search) : st_nxdomain s = false -> st_nxdomain (cached_part cfg local_query now zone name cut t s) = false.
Proof.
  intros Hn. unfold cached_part. cbv zeta. destruct (lookup_all_by_name name _ _ _) as [recs w]. apply put_answers_nx. cbn [put_state st_nxdomain].
  unfold bare_part. destruct cut as [c|]; [|done]. cbv zeta. destruct (_ && _); [|done].
  destruct (lookup_all_by_name (take c name) _ _ _) as [recs' w']. by apply put_answers_nx.
Qed.

(** Once an alias has been followed the name counts as the apex of the zone,
    which always exists: there is no second alias. *)
Lemma found_round name t peer (s s' : Search) target : st_found s = true -> forward_round cfg local_query now name t peer s <> Val (Again s' target).
Proof.
  intros Hf. unfold forward_round. rewrite Hf. destruct (st_zone s) as [zone|]; [|done]. cbv zeta. rewrite bool_decide_true by done.
  destruct (_ && _ && _ && _); [done|]. unfold end_round. rewrite cached_part_nx by apply apex_part_nx. discriminate.
Qed.
Lemma again_found name t peer (s s' : Search) target : forward_round cfg local_query now name t peer s = Val (Again s' target) -> st_found s' = true.
Proof.
  unfold forward_round. destruct (if st_found s then _ else _) as [sel|]; [|done]. destruct sel as [[[zone|] cut]|]; [|done..]. cbv zeta.
  destruct (_ && _ && _ && _); [done|]. unfold end_round. destruct (st_nxdomain _); [|done]. destruct (find_cname cfg name); [|done]. by intros [= <- _].
Qed.

Lemma forward_loop_two n name t peer (s : Search) : exists r, forward_loop cfg local_query now (S (S n)) name t peer s = Some r /\
  forward_loop cfg local_query now 2 name t peer s = Some r.
Proof.
  cbn [forward_loop]. destruct (forward_round cfg local_query now name t peer s) as [[]|] eqn:E1; [by eauto..| |by eauto].
  apply again_found in E1. destruct (forward_round cfg local_query now name0 t peer s0) as [[]|] eqn:E2; [by eauto..| |by eauto].
  by apply found_round in E2.
Qed.
End Rounds.

(** The search of an authoritative answer ends after two rounds: however
    the configured aliases point at each other, at most one of them is
    followed, so the loop of the source returns on every query, and more
    rounds would change nothing. *)
Theorem answer_auth_terminates `{UnicodeTables} {L : Lru CacheKey CacheRecord} cfg local_query now query mxnames w peer n :
  exists r, answer_auth cfg local_query now (2 + n) query mxnames w peer = Some r /\
    answer_auth cfg local_query now 2 query mxnames w peer = Some r.
Proof.
  unfold answer_auth. destruct (questions query) as [|q [|q' qs]]; [by eauto| |by eauto]. cbv zeta. case_match; [by eauto|]. case_match; [by eauto|].
  unfold search. destruct (reverse_part _ _ _ _ _ _ _) as [[s' []]|]; [by eauto| |by eauto].
  destruct (forward_loop_two cfg local_query now n (query_name q) (qtype q) peer s') as (r & E1 & E2).
  change (2 + n)%nat with (S (S n)). rewrite E1, E2. destruct r as [[s'' a]|]; by eauto.
Qed.

(** ** The reply *)

Lemma write_name_app b n : write_name b n = b ++ write_name [] n.
Proof.
  unfold write_name. destruct (decide ((if decide (n = [dot]) then [] else n) = [])); unfold put_u8; [done|].
  rewrite !fold_write_label. cbn [app]. by rewrite <- app_assoc.
Qed.
Lemma write_question_app b q : write_question b q = b ++ write_question [] q.
Proof. unfold write_question, put_u16. rewrite (write_name_app b). by rewrite <- !app_assoc. Qed.
Lemma write_rr_app b rr : write_rr b rr = b ++ write_rr [] rr.
Proof. unfold write_rr, put_u16, put_u32, put_slice. rewrite (write_name_app b). by rewrite <- !app_assoc. Qed.
Lemma fold_app {A} (f : list u8 -> A -> list u8) l b : (forall b x, f b x = b ++ f [] x) -> fold_left f l b = b ++ fold_left f l [].
Proof.
  intros Hf. revert b. induction l as [|x l IH]; intros b; cbn [fold_left]; [by rewrite app_nil_r|].
  rewrite IH, (IH (f [] x)), Hf. by rewrite app_assoc.
Qed.

(** The size of a packet does not depend on its header. *)
Lemma length_write h h' qs an ns ar : length (write (mkPacket h qs an ns ar)) = length (write (mkPacket h' qs an ns ar)).
Proof.
  unfold write. cbn [header questions answers authority additional]. unfold put_slice.
  rewrite !(fold_app write_question qs (_ ++ _)) by apply write_question_app.
  rewrite !(fold_app write_rr an (_ ++ _)), !(fold_app write_rr ns (_ ++ _)), !(fold_app write_rr ar (_ ++ _)) by apply write_rr_app.
  rewrite !length_app, !length_to_bytes. done.
Qed.

Lemma set_rcode_rcode h c : u8z c < 16 -> rcode (set_rcode h c) = u8z c.
Proof. intros Hc. by apply set_code_frame. Qed.

(** The bits of a reply's header. *)
Definition header_bits_ok (b3 b4 : u8) : bool :=
  forallb (fun lq : bool => forallb (fun au : bool =>
    let h := reply_header lq (mkHeader 0 b3 b4 1 0 0 0) au in
    is_response h && negb (is_tc h) && Bool.eqb (is_aa h) au && Bool.eqb (is_ra h) lq && negb (is_ad h) && (opcode h =? opcode (mkHeader 0 b3 b4 1 0 0 0)))
    [true; false]) [true; false].
Lemma header_bits b3 b4 : header_bits_ok b3 b4 = true.
Proof. apply (byte_forall2 header_bits_ok). by vm_compute. Qed.
Lemma reply_header_bits lq h au : let r := reply_header lq h au in
  is_response r = true /\ is_aa r = au /\ is_ra r = lq /\ is_ad r = false /\ opcode r = opcode h /\ is_tc r = false.
Proof.
  intros r. pose proof (header_bits (hb3 h) (hb4 h)) as Hb. unfold header_bits_ok in Hb. rewrite forallb_forall in Hb.
  specialize (Hb lq). rewrite forallb_forall in Hb. assert (In lq [true; false] /\ In au [true; false]) as [H1 H2] by (destruct lq, au; cbn; tauto).
  specialize (Hb H1 au H2). cbv zeta in Hb. rewrite !andb_true_iff, !negb_true_iff, !eqb_true_iff, Z.eqb_eq in Hb.
  destruct Hb as (((((A & T) & B) & C) & D) & E). done.
Qed.
Lemma set_rcode_bits h c : u8z c < 16 -> let r := set_rcode h c in
  rcode r = u8z c /\ is_response r = is_response h /\ is_aa r = is_aa h /\ is_tc r = is_tc h /\ is_ra r = is_ra h /\ is_ad r = is_ad h /\
  opcode r = opcode h /\ id r = id h /\ qdcount r = qdcount h.
Proof.
  intros Hc r. destruct (set_code_frame h c Hc) as (_ & _ & Hr & Hf). split_and!; [done..| | |done|done|done].
  - unfold is_ra, r. change HB4_RA with (Z.land (not8 HB4_RCODE) HB4_RA). by rewrite !Z.land_assoc, Hf.
  - unfold is_ad, r. change HB4_AD with (Z.land (not8 HB4_RCODE) HB4_AD). by rewrite !Z.land_assoc, Hf.
Qed.
Definition tc_bits_ok (b : u8) : bool :=
  let t := u8z (z8 (Z.lor (u8z b) HB3_TC)) in
  (Z.land t HB3_QR =? Z.land (u8z b) HB3_QR) && (Z.land t HB3_AA =? Z.land (u8z b) HB3_AA) && (Z.land t HB3_OPCODE =? Z.land (u8z b) HB3_OPCODE)
  && negb (Z.land t HB3_TC =? 0).
Lemma put_tc_bits h : let r := with_hb3 h (z8 (Z.lor (u8z (hb3 h)) HB3_TC)) in
  is_response r = is_response h /\ is_aa r = is_aa h /\ opcode r = opcode h /\ is_tc r = true.
Proof.
  assert (tc_bits_ok (hb3 h) = true) as Hb by (destruct h as [? b3 ? ? ? ? ?]; cbn [hb3]; by byte_cases b3).
  unfold tc_bits_ok in Hb. cbv zeta in Hb. rewrite !andb_true_iff, !Z.eqb_eq in Hb. destruct Hb as [[[A B] C] D].
  unfold is_response, is_aa, is_tc, opcode. cbn [hb3 with_hb3]. by rewrite A, B, C, D.
Qed.

(** *** Where a search ends *)

(** The state a query leads to, and whether it is one the daemon implements. *)
Definition concluded `{UnicodeTables} {L : Lru CacheKey CacheRecord} (cfg : AuthConfig) (lq : bool) (now : Instant) (query : DnsPacket)
    (mxnames : list MxSrvRecord) (w : World) (peer : IpAddr) (q : DnsQuestion) (s : Search) (notimp : bool) : Prop :=
  if opcode (header query) =? 0 then
    notimp = false /\ if qclass q =? 1 then search cfg lq now 2 q peer (initial lq mxnames w) = Some (Val (s, true)) else s = put_outside (initial lq mxnames w)
  else notimp = true /\ s = initial lq mxnames w.
(** The records it found, in the two sections of the reply. *)
Definition found_records `{UnicodeTables} {L : Lru CacheKey CacheRecord} (cfg : AuthConfig) (lq : bool) (now : Instant) (s : Search) : outcome (list DnsRr * list DnsRr) :=
  match (if st_auth s then st_zone s else None) with
  | Some z => build_auth_section cfg lq now z (st_subnet s) (st_mx s) (cache (st_world s)) (st_axfr s) (st_soa s) (st_ns s) (st_answers s)
  | None => Val (st_answers s, [])
  end.

Definition asks_apex (qtype : Z) : bool := want qtype T_SOA || want qtype T_AXFR || want qtype T_NS.
(** An external query is answered with authority unless its name is outside; a
    local one only when it asks for the data of a zone. *)
Definition authority_ok (lq : bool) (qtype : Z) `{UnicodeTables} {L : Lru CacheKey CacheRecord} (s : Search) : Prop :=
  if lq then st_auth s = true -> asks_apex qtype = true else st_auth s = negb (st_out_of_zone s).

Section Authority.
Context `{UnicodeTables} {L : Lru CacheKey CacheRecord} (cfg : AuthConfig) (lq : bool) (now : Instant) (t : Z).
Definition inside (s : Search) : Prop := authority_ok lq t s /\ st_out_of_zone s = false.

Lemma inside_same (s s' : Search) : st_auth s' = st_auth s -> st_out_of_zone s' = st_out_of_zone s -> inside s -> inside s'.
Proof. unfold inside, authority_ok. intros -> ->. done. Qed.
Lemma outside_ok (s : Search) : authority_ok lq t (put_outside s).
Proof. unfold authority_ok. by destruct lq. Qed.
Lemma sections_inside au so ns ax (s : Search) : (au = true -> asks_apex t = true) -> inside s -> inside (put_sections au so ns ax s).
Proof.
  intros Ha [Hs Ho]. split; [|done]. unfold authority_ok in *. cbn [put_sections st_auth st_out_of_zone]. destruct lq.
  - intros [Hx|Hx]%orb_true_iff; auto.
  - by rewrite Hs, Ho.
Qed.
Lemma apex_inside (s : Search) : inside s -> inside (apex_part t s).
Proof.
  intros Hs. unfold apex_part. assert (inside (put_answers (true, []) s)) as H1 by done.
  destruct (want t T_SOA) eqn:E1; [|destruct (want t T_AXFR) eqn:E2; [|destruct (want t T_NS) eqn:E3; [|done]]];
    (apply sections_inside; [|done]); intros _; unfold asks_apex; rewrite ?E1, ?E2, ?E3; cbn [orb]; by rewrite ?orb_true_r.
Qed.
Lemma cached_inside zone name cut (s : Search) : inside s -> inside (cached_part cfg lq now zone name cut t s).
Proof.
  intros Hs. unfold cached_part. cbv zeta. destruct (lookup_all_by_name name _ _ _) as [recs w]. apply (inside_same (bare_part cfg lq now zone name cut t s)); [done..|].
  unfold bare_part. destruct cut as [c|]; [|done]. cbv zeta. destruct (_ && _); [|done].
  by destruct (lookup_all_by_name (take c name) _ _ _) as [recs' w'].
Qed.
Lemma round_inside name peer (s : Search) r : inside s -> forward_round cfg lq now name t peer s = Val r ->
  match r with Dropped _ => True | Over s' => authority_ok lq t s' | Again s' _ => inside s' end.
Proof.
  intros Hs. unfold forward_round. destruct (if st_found s then _ else _) as [sel|]; [|done].
  destruct sel as [[[zone|] cut]|]; [|done|intros [= <-]; apply outside_ok]. cbv zeta.
  destruct (_ && _ && _ && _); [by intros [= <-]|]. set (s1 := put_answers _ (put_state _ _ _)).
  assert (inside s1) as H1 by exact Hs. set (s2 := if bool_decide (cut = None) then apex_part t s1 else s1).
  assert (inside s2) as H2 by (unfold s2; case_match; [by apply apex_inside|done]).
  pose proof (cached_inside zone name cut s2 H2) as H3. intros [= <-]. unfold end_round. destruct (st_nxdomain _); [|apply H3].
  destruct (find_cname cfg name); [exact H3|apply H3].
Qed.
Lemma loop_inside fuel : forall name peer (s s' : Search), inside s -> forward_loop cfg lq now fuel name t peer s = Some (Val (s', true)) -> authority_ok lq t s'.
Proof.
  induction fuel as [|fuel IH]; intros name peer s s' Hs; cbn [forward_loop]; [done|].
  destruct (forward_round cfg lq now name t peer s) as [r|] eqn:E; [|done]. apply round_inside in E; [|done].
  destruct r as [s1|s1|s1 target]; [done|by intros [= <-]|by apply IH].
Qed.
Lemma reverse_inside qname name (s s' : Search) over : inside s -> reverse_part cfg lq now qname name t s = Val (s', over) ->
  if over then authority_ok lq t s' else inside s'.
Proof.
  intros Hs. unfold reverse_part. destruct (negb _); [by intros [= <- <-]|]. destruct (in_arpa_name_2_addr name) as [addr|]; [|by intros [= <- <-]].
  cbv zeta. set (s0 := put_flag (addr_flag addr) s). assert (inside s0) as H0 by exact Hs.
  destruct (if lq then _ else _) as [s1 o1] eqn:E1. intros Hr.
  assert (if o1 then authority_ok lq t s1 else inside s1) as H1.
  { destruct lq eqn:Elq; [by injection E1 as <- <-|]. destruct (list_find_map _ _) as [[z sub]|]; injection E1 as <- <-.
    - assert (inside (put_zone z (Some sub) s0)) as Hz by exact H0. destruct (want t T_SOA); [by apply inside_same with (put_zone z (Some sub) s0); [cbn; by rewrite orb_false_r|..]|].
      destruct (want t T_NS); [by apply inside_same with (put_zone z (Some sub) s0); [cbn; by rewrite orb_false_r|..]|done].
    - reflexivity. }
  destruct (o1 || negb (want t T_PTR)) eqn:Eo; [injection Hr as <- <-; by destruct o1|]. apply orb_false_iff in Eo as [-> _].
  destruct (match List.find _ _ with Some _ => _ | None => _ end) as [irs|]; [|done]. destruct (lookup_all_by_addr _ _ _ _) as [recs w].
  destruct (ptr_from_cache _ _ _ _ _) as [crs|]; [|done]. injection Hr as <- <-. apply H1.
Qed.
Lemma concluded_ok query mxnames w peer q (s : Search) notimp : concluded cfg lq now query mxnames w peer q s notimp -> t = qtype q ->
  authority_ok lq t s.
Proof.
  assert (inside (initial lq mxnames w)) as H0 by (unfold inside, authority_ok; by destruct lq).
  unfold concluded. intros Hc Ht. destruct (opcode _ =? 0); [|destruct Hc as [_ ->]; apply H0]. destruct Hc as [_ Hc].
  destruct (qclass q =? 1); [|subst s; apply outside_ok]. unfold search in Hc. rewrite <- Ht in Hc. cbv zeta in Hc.
  destruct (reverse_part _ _ _ _ _ _ _) as [[s1 o]|] eqn:Er; [|done]. apply reverse_inside in Er; [|exact H0].
  destruct o; [by injection Hc as <-|by eapply loop_inside].
Qed.
End Authority.

(** *** The whole reply *)

(** The reply to a query whose search ended in [s] with the records [ans] and
    [auth]: whether they are refused, and whether they fit. *)
Definition refuses `{UnicodeTables} {L : Lru CacheKey CacheRecord} (lq : bool) (s : Search) (notimp : bool) : bool := negb lq && st_out_of_zone s || notimp.
Definition fits (cfg : AuthConfig) (query : DnsPacket) (q : DnsQuestion) (ans auth : list DnsRr) (h : DnsHeader) : bool :=
  (length (write (mkPacket h [q] ans auth [])) <=? size_limit cfg query)%nat.
Definition reply_code `{UnicodeTables} {L : Lru CacheKey CacheRecord} (lq : bool) (s : Search) (notimp : bool) : Z :=
  if refuses lq s notimp then (if st_out_of_zone s then 5 else 4) else if (st_auth s || lq) && st_nxdomain s then 3 else 0.
Record reply_exact `{UnicodeTables} {L : Lru CacheKey CacheRecord} (cfg : AuthConfig) (lq : bool) (query : DnsPacket) (q : DnsQuestion) (s : Search) (notimp : bool)
    (ans auth : list DnsRr) (p : DnsPacket) : Prop := {
  fr_id : id (header p) = id (header query);
  fr_bits : is_response (header p) = true /\ is_ra (header p) = lq /\ is_ad (header p) = false /\ opcode (header p) = opcode (header query);
  fr_question : questions p = [q] /\ qdcount (header p) = 1 /\ additional p = [] /\ arcount (header p) = 0;
  fr_counts : ancount (header p) = as_u16 (Z.of_nat (length (answers p))) /\ nscount (header p) = as_u16 (Z.of_nat (length (authority p)));
  fr_aa : is_aa (header p) = st_auth s;
  fr_rcode : rcode (header p) = reply_code lq s notimp;
  fr_tc : is_tc (header p) = negb (fits cfg query q ans auth (header p));
  fr_records : (answers p, authority p) = if refuses lq s notimp || is_tc (header p) then ([], []) else (ans, auth);
}.

Section Frame.
Context `{UnicodeTables} {L : Lru CacheKey CacheRecord} (cfg : AuthConfig) (lq : bool).

Lemma finish_reply_answers query q (s : Search) notimp ans auth :
  answers (finish_reply cfg lq query q s notimp ans auth) = [] \/ answers (finish_reply cfg lq query q s notimp ans auth) = ans.
Proof. unfold finish_reply. cbv zeta. destruct (_ || notimp); cbn [answers]; [by left|]. destruct (_ <? _)%nat; [by left|by right]. Qed.
Lemma finish_reply_exact query q (s : Search) notimp ans auth :
  reply_exact cfg lq query q s notimp ans auth (finish_reply cfg lq query q s notimp ans auth).
Proof.
  unfold finish_reply. cbv zeta. set (h0 := reply_header lq (header query) (st_auth s)).
  assert (forall h, fits cfg query q ans auth h = negb (size_limit cfg query <? length (write (mkPacket h0 [q] ans auth [])))%nat) as Hfit.
  { intros h. unfold fits. rewrite (length_write h h0), Nat.leb_antisym. done. }
  set (long := (size_limit cfg query <? length (write (mkPacket h0 [q] ans auth [])))%nat) in *.
  set (h1 := if long then with_hb3 h0 _ else h0). set (c := if (st_auth s || lq) && st_nxdomain s then Byte.x03 else Byte.x00).
  destruct (reply_header_bits lq (header query) (st_auth s)) as (A1 & A2 & A3 & A4 & A5 & A6). fold h0 in A1, A2, A3, A4, A5, A6.
  assert (is_response h1 = true /\ is_aa h1 = st_auth s /\ is_ra h1 = lq /\ is_ad h1 = false /\ opcode h1 = opcode (header query) /\
    id h1 = id (header query) /\ qdcount h1 = 1 /\ is_tc h1 = long) as (B1 & B2 & B3 & B4 & B5 & B6 & B7 & B8).
  { unfold h1. destruct long; [|done]. destruct (put_tc_bits h0) as (-> & -> & -> & ->). done. }
  assert (u8z c < 16) as Hc by (unfold c; by case_match). destruct (set_rcode_bits h1 c Hc) as (C0 & C1 & C2 & CT & C3 & C4 & C5 & C6 & C7).
  fold (refuses lq s notimp). destruct (refuses lq s notimp) eqn:Er.
  - set (c' := if st_out_of_zone s then Byte.x05 else Byte.x04). assert (u8z c' < 16) as Hc' by (unfold c'; by case_match).
    destruct (set_rcode_bits (set_rcode h1 c) c' Hc') as (D0 & D1 & D2 & DT & D3 & D4 & D5 & D6 & D7).
    constructor; cbn [header questions answers authority additional]; rewrite ?Er; [cbn; congruence| |done|done|..];
      unfold reply_code, is_response, is_aa, is_ra, is_ad, is_tc, rcode, opcode, with_counts in *; cbn [hb3 hb4 orb] in *; rewrite ?Er, ?Hfit, ?negb_involutive.
    1: split_and!; congruence. all: try congruence. rewrite D0. unfold c'. by destruct (st_out_of_zone s).
  - constructor; cbn [header questions answers authority additional]; rewrite ?Er; [cbn; congruence| |done|done|..];
      unfold reply_code, is_response, is_aa, is_ra, is_ad, is_tc, rcode, opcode, with_counts in *; cbn [hb3 hb4 orb] in *; rewrite ?Er, ?Hfit, ?negb_involutive.
    1: split_and!; congruence. all: try congruence.
    + rewrite C0. unfold c. by destruct ((st_auth s || lq) && st_nxdomain s).
    + rewrite CT, B8. by destruct long.
Qed.
End Frame.

(** C40: every reply of the authoritative server is determined by the state [s]
    its search ends in and the records [ans] and [auth] found there. It has the
    identifier, question and operation of the query and is marked as a response
    that offers recursion to local clients only. Its code is 4 for other
    operations, 5 for an external query outside all zones, 3 when the name does
    not exist and 0 otherwise. If the records fit the packet size the client
    announced they are all there, unless the query was refused, and the TC bit
    is clear; if not, the bit is set and there are none; the counts are those
    of the records. The AA bit is the authority of the search: for an external
    query it is set exactly unless the code is 5, and for a local one only if
    SOA, NS or a transfer was asked for. *)
Theorem auth_reply_exact `{UnicodeTables} {L : Lru CacheKey CacheRecord} cfg lq now query mxnames w peer p mx' w' :
  answer_auth cfg lq now 2 query mxnames w peer = Some (Val (Some p, mx', w')) ->
  exists q s notimp ans auth, questions query = [q] /\ concluded cfg lq now query mxnames w peer q s notimp /\
    found_records cfg lq now s = Val (ans, auth) /\ reply_exact cfg lq query q s notimp ans auth p /\
    (if lq then is_aa (header p) = true -> asks_apex (qtype q) = true else is_aa (header p) = negb (rcode (header p) =? 5)).
Proof.
  unfold answer_auth. destruct (questions query) as [|q [|q' qs]]; [done| |done]. cbv zeta.
  assert (forall (s : Search) notimp answered, concluded cfg lq now query mxnames w peer q s notimp ->
    Some (auth_reply cfg lq now query q s notimp answered) = Some (Val (Some p, mx', w')) ->
    exists q0 s notimp ans auth, [q] = [q0] /\ concluded cfg lq now query mxnames w peer q0 s notimp /\ found_records cfg lq now s = Val (ans, auth) /\
      reply_exact cfg lq query q0 s notimp ans auth p /\
      (if lq then is_aa (header p) = true -> asks_apex (qtype q0) = true else is_aa (header p) = negb (rcode (header p) =? 5))) as Hr.
  { intros s notimp answered Hc Hs. unfold auth_reply in Hs. destruct answered; [|done]. cbn [negb] in Hs. fold (found_records cfg lq now s) in Hs.
    destruct (found_records cfg lq now s) as [[ans auth]|] eqn:Ef; [|done]. injection Hs as <- _ _.
    pose proof (finish_reply_exact cfg lq query q s notimp ans auth) as Hp. exists q, s, notimp, ans, auth. split_and!; [done..|].
    pose proof (concluded_ok cfg lq now (qtype q) query mxnames w peer q s notimp Hc eq_refl) as Ha. unfold authority_ok in Ha.
    rewrite (fr_aa _ _ _ _ _ _ _ _ _ Hp), (fr_rcode _ _ _ _ _ _ _ _ _ Hp). unfold reply_code, refuses. destruct lq; [done|]. rewrite Ha. cbn [negb andb].
    destruct (st_out_of_zone s), notimp; cbn [orb andb negb]; try done. by destruct (st_nxdomain s). }
  destruct (opcode (header query) =? 0) eqn:Eo; cbn [negb]; [|apply (Hr _ true true); unfold concluded; by rewrite Eo].
  destruct (qclass q =? 1) eqn:Ec; cbn [negb]; [|apply (Hr _ false true); unfold concluded; by rewrite Eo, Ec].
  destruct (search _ _ _ _ _ _ _) as [[[s []]|]|] eqn:Es; [apply (Hr _ false true); unfold concluded; by rewrite Eo, Ec|done..].
Qed.

(** A refusal: the given code and no records. *)
Definition refused_with (code : Z) (p : DnsPacket) : Prop := rcode (header p) = code /\ answers p = [] /\ authority p = [].

Section Errors.
Context `{UnicodeTables} {L : Lru CacheKey CacheRecord} (cfg : AuthConfig) (now : Instant).

Lemma finish_refused query q (s : Search) notimp ans auth : st_out_of_zone s = true \/ notimp = true ->
  refused_with (if st_out_of_zone s then 5 else 4) (finish_reply cfg false query q s notimp ans auth).
Proof.
  intros Hs. unfold finish_reply. cbv zeta. cbn [negb andb].
  assert (st_out_of_zone s || notimp = true) as -> by (destruct Hs as [-> | ->]; [done|apply orb_true_r]).
  unfold refused_with. cbn [header answers authority]. split; [|done].
  change (rcode (with_counts ?h _ _ _ _)) with (rcode h). rewrite set_rcode_rcode by (by case_match). by case_match.
Qed.

(** A query at the apex of a zone, and what it asks for. *)
Definition reverse_types (qtype : Z) : bool := want qtype T_PTR || want qtype T_SOA || want qtype T_NS.
(** The name is looked for among the forward names, and is in no zone. *)
Definition forward_outside (q : DnsQuestion) : Prop :=
  (reverse_types (qtype q) = false \/ in_arpa_name_2_addr (query_name q) = None) /\ select_zone (query_name q) (ac_zones cfg) = Val None.
(** The name is that of an address no zone has a subnet for. *)
Definition reverse_outside (q : DnsQuestion) : Prop :=
  reverse_types (qtype q) = true /\ exists addr, in_arpa_name_2_addr (query_name q) = Some addr /\
    Forall (fun z => Forall (fun a => addrlist_covers addr a = false) (az_subnet z)) (ac_zones cfg).

Lemma no_subnet addr : Forall (fun z => Forall (fun a => addrlist_covers addr a = false) (az_subnet z)) (ac_zones cfg) ->
  list_find_map (fun z => (fun sub => (z, sub)) <$> find_addrlist (az_subnet z) addr) (ac_zones cfg) = None.
Proof.
  intros Hz. induction Hz as [|z zs Hz _ IH]; [done|]. cbn [list_find_map]. assert (find_addrlist (az_subnet z) addr = None) as ->; [|done].
  unfold find_addrlist. destruct (List.find _ _) as [a|] eqn:E; [|done]. apply find_some in E as [Hin Ha].
  rewrite Forall_forall in Hz. rewrite Hz in Ha; [done|by apply list_elem_of_In].
Qed.
Lemma axfr_not_reverse t : want t T_AXFR = true -> reverse_types t = false.
Proof. unfold reverse_types, want. intros Hx%bool_decide_eq_true. rewrite Hx. done. Qed.
Lemma forward_search q peer (s : Search) : reverse_types (qtype q) = false \/ in_arpa_name_2_addr (query_name q) = None ->
  search cfg false now 2 q peer s = forward_loop cfg false now 2 (query_name q) (qtype q) peer s.
Proof.
  intros Hf. unfold search, reverse_part. cbv zeta. fold (reverse_types (qtype q)). destruct Hf as [-> | ->]; [done|]. by destruct (reverse_types _).
Qed.

(** C39: which external queries the daemon is not authoritative for, and that
    they get no records. Without exactly one question there is no reply. An
    operation other than a query is answered with NOTIMP, a class other than
    IN, a forward name in no zone and the reverse name of an address in the
    subnets of no zone with REFUSED, and in all these cases the records and
    the cache are as before. A zone transfer at the apex for a peer that is not allowed it
    is dropped without a reply; the cache is as before and the SRV records of
    the name are rotated, as for every query inside a zone. *)
Theorem auth_errors query mxnames w peer :
  let run := answer_auth cfg false now 2 query mxnames w peer in
  let refused_by code := exists p, run = Some (Val (Some p, mxnames, w)) /\ refused_with code p in
  (length (questions query) <> 1%nat -> run = Some (Val (None, mxnames, w))) /\
  (forall q, questions query = [q] ->
   (opcode (header query) <> 0 -> refused_by 4) /\
   (opcode (header query) = 0 -> qclass q <> 1 -> refused_by 5) /\
   (opcode (header query) = 0 -> qclass q = 1 -> forward_outside q \/ reverse_outside q -> refused_by 5) /\
   (forall z, opcode (header query) = 0 -> qclass q = 1 -> select_zone (query_name q) (ac_zones cfg) = Val (Some (z, None)) ->
      want (qtype q) T_AXFR = true -> axfr_authorized cfg peer = false -> run = Some (Val (None, rotate_srv (query_name q) mxnames, w)))).
Proof.
  cbv zeta. split.
  { intros Hl. unfold answer_auth. by destruct (questions query) as [|q [|q' qs]]. }
  intros q Hq. split_and!.
  - intros Ho. unfold answer_auth. rewrite Hq, (proj2 (Z.eqb_neq _ _)) by done. cbn [negb]. eexists. split; [reflexivity|].
    apply (finish_refused query q (initial false mxnames w)). by right.
  - intros Ho Hc. unfold answer_auth. rewrite Hq, Ho, (proj2 (Z.eqb_neq (qclass q) 1)) by done. cbn [negb Z.eqb]. eexists. split; [reflexivity|].
    apply (finish_refused query q (put_outside (initial false mxnames w))). by left.
  - intros Ho Hc [[Hf Hz]|(Ht & addr & Ha & Hz)]; unfold answer_auth; rewrite Hq, Ho, Hc; cbn [negb Z.eqb Pos.eqb].
    + rewrite forward_search by done. cbn [forward_loop]. unfold forward_round. cbn [initial st_found]. rewrite Hz. cbv beta iota.
      cbn [fmap option_fmap option_map]. eexists. split; [reflexivity|]. apply (finish_refused query q (put_outside (initial false mxnames w))). by left.
    + unfold search, reverse_part. cbv zeta. fold (reverse_types (qtype q)). rewrite Ht, Ha. cbn [negb]. rewrite no_subnet by done. cbn [orb].
      eexists. split; [reflexivity|]. apply (finish_refused query q (put_outside (put_flag (addr_flag addr) (initial false mxnames w)))). by left.
  - intros z Ho Hc Hz Hx Hp. unfold answer_auth. rewrite Hq, Ho, Hc. cbn [negb Z.eqb Pos.eqb]. rewrite forward_search by (left; by apply axfr_not_reverse).
    cbn [forward_loop]. unfold forward_round. cbn [initial st_found]. rewrite Hz. cbv beta iota. cbn [fmap option_fmap option_map]. cbv zeta.
    assert (want (qtype q) T_SOA = false) as Hs by (pose proof (axfr_not_reverse _ Hx) as Hr; by apply orb_false_iff in Hr as [[_ Hr]%orb_false_iff _]).
    rewrite bool_decide_true, Hs, Hx, Hp by done. reflexivity.
Qed.
End Errors.

(** ** Which addresses get out *)

(** None of the zone's exclusions covers the address and, if the zone lists
    subnets, one of them does. *)
Definition admits (z : AuthZone) (a : AllAddr) : Prop :=
  Forall (fun e => addrlist_covers a e = false) (az_exclude z) /\
  (az_subnet z = [] \/ Exists (fun e => addrlist_covers a e = true) (az_subnet z)).

Section Filtered.
Context `{UnicodeTables} {L : Lru CacheKey CacheRecord} (cfg : AuthConfig) (now : Instant).
(** Records of other types configured by number are not addresses. *)
Hypothesis rr_types : Forall (fun t => txt_class t <> 1 /\ txt_class t <> 28) (ac_rr cfg).

Lemma filter_zone_spec z a : filter_zone z a = true -> admits z a.
Proof.
  unfold filter_zone, find_exclude, find_subnet, find_addrlist. destruct (List.find _ (az_exclude z)) eqn:Ee; [done|]. cbn [negb bool_decide].
  intros Hs. split; [apply Forall_forall; intros e He; eapply find_none; [exact Ee|by apply list_elem_of_In]|].
  destruct (az_subnet z) as [|e0 es] eqn:Ez; [by left|right]. cbn [length Nat.eqb] in Hs.
  destruct (List.find (addrlist_covers a) (e0 :: es)) as [e|] eqn:Ef; [|done]. apply find_some in Ef as [Hi Hc].
  apply Exists_exists. exists e. split; [by apply list_elem_of_In|done].
Qed.
(** An address record shows an address that some zone lets out. *)
Definition let_out (rr : DnsRr) : Prop :=
  rtype rr = RrType_as T_A \/ rtype rr = RrType_as T_AAAA ->
  exists z a, z ∈ ac_zones cfg /\ admits z a /\ make_addr_rr (r_name rr) (rtype rr) a (ttl rr) = Some rr.

Lemma let_out_addr z owner t a ttl : z ∈ ac_zones cfg -> visible false z a = true -> Forall let_out (option_list (make_addr_rr owner t a ttl)).
Proof.
  intros Hz Hv. destruct (make_addr_rr owner t a ttl) as [rr|] eqn:E; [|constructor]. apply Forall_singleton. intros _. exists z, a.
  split_and!; [done|by apply filter_zone_spec|]. destruct a; try done; injection E as <-; done.
Qed.
Lemma forall_mjoin {A} (P : A -> Prop) (ls : list (list A)) : Forall (Forall P) ls -> Forall P (mjoin ls).
Proof. induction 1 as [|l ls Hl _ IH]; [constructor|]. cbn. apply Forall_app. done. Qed.
Lemma from_list_out {A} name (name_of : A -> str) rrs l : Forall (fun x => Forall let_out (rrs x)) l -> Forall let_out (snd (from_list name name_of rrs l)).
Proof.
  intros Hl. cbn. apply forall_mjoin, Forall_fmap. eapply Forall_impl; [exact Hl|]. intros x Hx. cbn. case_match; [done|constructor].
Qed.

Lemma let_out_one rr : rtype rr <> 1 -> rtype rr <> 28 -> Forall let_out [rr].
Proof. intros H1 H2. apply Forall_singleton. intros [Ht|Ht]; cbn in Ht; congruence. Qed.
Ltac out_type := first [apply Forall_nil; exact I | apply let_out_one; discriminate].

Lemma from_config_out zone name t flag mx : zone ∈ ac_zones cfg -> Forall let_out (snd (from_config cfg false zone name t flag mx)).
Proof.
  intros Hz. unfold from_config. cbn [also snd]. rewrite !Forall_app. split_and!; apply from_list_out.
  - apply Forall_true. intros r. case_match; out_type.
  - apply Forall_true. intros r. case_match; out_type.
  - eapply Forall_impl; [exact rr_types|]. intros x [H1 H2]. case_match; [|out_type]. by apply let_out_one.
  - apply Forall_true. intros r. case_match; out_type.
  - apply Forall_true. intros r. case_match; out_type.
  - apply Forall_true. intros r. unfold int_name_rrs. case_match; [constructor|]. apply forall_mjoin, Forall_fmap, Forall_true. intros al. cbv beta zeta.
    unfold compose. destruct (negb (RrType_as _ =? t)); [constructor|]. destruct (has _ ADDRLIST_REVONLY); [constructor|].
    destruct (visible false zone (al_addr al)) eqn:E; [|constructor]. by apply (let_out_addr zone).
Qed.
Lemma from_cache_out zone owner t flag wanted recs : zone ∈ ac_zones cfg -> Forall let_out (snd (from_cache cfg false zone owner t flag wanted recs)).
Proof.
  intros Hz. unfold from_cache. cbn [snd]. apply forall_mjoin, Forall_fmap, Forall_true. intros cr. unfold compose. case_match; [constructor|].
  destruct (cr_addr cr); [|constructor]. destruct (visible false zone a) eqn:E; [|constructor]. by apply (let_out_addr zone).
Qed.

Lemma select_zone_elem name zones z c : select_zone name zones = Val (Some (z, c)) -> z ∈ zones.
Proof.
  induction zones as [|z0 zones IH]; [done|]. cbn [select_zone]. destruct (in_zone name (az_domain z0)) as [[r|]|]; [|intros E%IH; set_solver|done].
  intros [= -> _]. set_solver.
Qed.
Lemma list_find_map_elem {A B} (f : A -> option B) l y : list_find_map f l = Some y -> exists x, x ∈ l /\ f x = Some y.
Proof.
  induction l as [|x l IH]; [done|]. cbn. destruct (f x) eqn:E; [intros [= <-]; exists x; set_solver|]. intros (x' & ? & ?)%IH. exists x'. set_solver.
Qed.

(** The state of the search shows nothing that is not let out. *)
Record quiet (s : Search) : Prop := {
  qt_zone : forall z, st_zone s = Some z -> z ∈ ac_zones cfg;
  qt_answers : Forall let_out (st_answers s);
}.
Lemma quiet_answers x (s : Search) : quiet s -> Forall let_out (snd x) -> quiet (put_answers x s).
Proof. intros [Hz Ha] Hx. constructor; [done|]. cbn. by apply Forall_app. Qed.
Lemma quiet_same (s s' : Search) : quiet s -> st_zone s' = st_zone s -> st_answers s' = st_answers s -> quiet s'.
Proof. intros [Hz Ha] E1 E2. constructor; by rewrite ?E1, ?E2. Qed.

Lemma quiet_found b (s : Search) : quiet s -> quiet (put_found b s).
Proof. intros Hq. by apply (quiet_same s). Qed.
Lemma quiet_sections a b c d (s : Search) : quiet s -> quiet (put_sections a b c d s).
Proof. intros Hq. by apply (quiet_same s). Qed.

Lemma ptr_from_cache_out qname zone recs rrs : ptr_from_cache cfg false qname zone recs = Val rrs -> Forall let_out rrs.
Proof.
  revert rrs. induction recs as [|cr recs IH]; intros rrs; cbn [ptr_from_cache]; [intros [= <-]; constructor|].
  match goal with |- context [let# here := ?e in _] => assert (forall here, e = Val here -> Forall let_out here) as Hh; [|destruct e as [here|]] end.
  - intros here. case_match; [intros [= <-]; out_type|]. case_match; [|intros [= <-]; constructor].
    destruct (in_view false zone (cr_name cr)) as [[]|]; [intros [= <-]; out_type|intros [= <-]; constructor|done].
  - destruct (ptr_from_cache cfg false qname zone recs) as [later|]; [|done]. intros [= <-]. apply Forall_app. by auto.
  - done.
Qed.

Lemma reverse_part_quiet qname name t (s s' : Search) over : quiet s -> reverse_part cfg false now qname name t s = Val (s', over) -> quiet s'.
Proof.
  intros Hq. unfold reverse_part. destruct (negb (_ || _)); [by intros [= <- _]|]. destruct (in_arpa_name_2_addr name) as [addr|]; [|by intros [= <- _]].
  cbv zeta. set (s1 := put_flag (addr_flag addr) s). assert (quiet s1) as Hq1 by (by apply (quiet_same s)). clearbody s1. clear Hq s.
  match goal with |- (let '(_, _) := ?e in _) = _ -> _ => assert (quiet (fst e)) as Hq2; [|destruct e as [s2 o]] end.
  { destruct (list_find_map _ (ac_zones cfg)) as [[z sub]|] eqn:E; [|by apply (quiet_same s1)].
    apply list_find_map_elem in E as (z' & Hz & E). destruct (find_addrlist _ _); [|done]. injection E as -> _.
    assert (quiet (put_zone z (Some sub) s1)) as Hp by (constructor; [by intros ? [= <-]|apply Hq1]).
    cbn [fst]. repeat case_match; by auto using quiet_found, quiet_sections. }
  cbn [fst] in Hq2. destruct (o || negb _); [by intros [= <- _]|].
  match goal with |- (let# intr_rrs := ?e in _) = _ -> _ => assert (forall l, e = Val l -> Forall let_out l) as Hi; [|destruct e as [irs|]; [|done]] end.
  { intros l. case_match; [|intros [= <-]; constructor]. destruct (in_view false _ _) as [[]|]; [|by intros [= <-]; constructor|done]. intros [= <-]. out_type. }
  destruct (lookup_all_by_addr _ _ _ _) as [recs w]. destruct (ptr_from_cache cfg false qname (st_zone s2) recs) as [crs|] eqn:Ec; [|done].
  intros [= <- _]. apply quiet_found, quiet_answers; [by apply (quiet_same s2)|]. cbn [snd]. apply Forall_app. split; [by apply Hi|].
  by eapply ptr_from_cache_out.
Qed.

Lemma cached_part_quiet zone name cut t (s : Search) : zone ∈ ac_zones cfg -> quiet s -> quiet (cached_part cfg false now zone name cut t s).
Proof.
  intros Hz Hq. unfold cached_part. assert (quiet (bare_part cfg false now zone name cut t s)) as Hq1.
  { unfold bare_part. destruct cut as [c|]; [|done]. cbv zeta. destruct (_ && _); [|done].
    destruct (lookup_all_by_name (take c name) _ _ _) as [recs w]. apply quiet_answers; [by apply (quiet_same s)|by apply from_cache_out]. }
  set (s1 := bare_part _ _ _ _ _ _ _ _) in *. clearbody s1. cbv zeta. destruct (lookup_all_by_name name _ _ _) as [recs w].
  apply quiet_answers; [by apply (quiet_same s1)|by apply from_cache_out].
Qed.

Definition quiet_round (r : round) : Prop := match r with Dropped s | Over s | Again s _ => quiet s end.
Lemma forward_round_quiet name t peer (s : Search) r : quiet s -> forward_round cfg false now name t peer s = Val r -> quiet_round r.
Proof.
  intros Hq. unfold forward_round.
  match goal with |- (let# sel := ?e in _) = _ -> _ => assert (forall z c, e = Val (Some (Some z, c)) -> z ∈ ac_zones cfg) as Hz; [|destruct e as [sel|]; [|done]] end.
  { intros z c. destruct (st_found s); [intros [= E _]; by apply Hq|]. destruct (select_zone name (ac_zones cfg)) as [[[z' c']|]|] eqn:E; [|done..].
    intros [= -> _]. by eapply select_zone_elem. }
  destruct sel as [[[zone|] cut]|]; [|done|intros [= <-]; by apply (quiet_same s)]. specialize (Hz zone cut eq_refl). cbv zeta.
  set (flag := if want t T_A then _ else _).
  match goal with |- context [put_answers (from_config _ _ _ _ _ _ _) ?x] => assert (quiet (put_answers (from_config cfg false zone name t flag (st_mx (put_zone zone (st_subnet s) s))) x)) as Hq1 end.
  { apply quiet_answers; [|by apply from_config_out]. constructor; [by intros ? [= <-]|apply Hq]. }
  set (s1 := put_answers _ _) in *. clearbody s1. destruct (_ && _ && _ && _); [by intros [= <-]|]. intros [= <-].
  assert (quiet (if bool_decide (cut = None) then apex_part t s1 else s1)) as Hq2.
  { case_match; [|done]. unfold apex_part. assert (quiet (put_answers (true, []) s1)) by (apply quiet_answers; [done|constructor]).
    repeat case_match; by auto using quiet_sections. }
  apply (cached_part_quiet zone name cut t _ Hz) in Hq2. set (s2 := cached_part _ _ _ _ _ _ _ _) in *. clearbody s2. unfold end_round.
  destruct (st_nxdomain s2); [|done]. destruct (find_cname cfg name); cbn [quiet_round]; [|by apply quiet_answers; [|constructor]].
  apply quiet_found, quiet_answers; [done|]. cbn [snd]. out_type.
Qed.
Lemma forward_loop_quiet fuel : forall name t peer (s s' : Search) a, quiet s -> forward_loop cfg false now fuel name t peer s = Some (Val (s', a)) -> quiet s'.
Proof.
  induction fuel as [|fuel IH]; intros name t peer s s' a Hq; [done|]. cbn [forward_loop].
  destruct (forward_round cfg false now name t peer s) as [r|] eqn:E; [|done]. apply forward_round_quiet in E; [|done].
  destruct r; cbn in E; [by intros [= <- _]..|]. by apply IH.
Qed.

Lemma zone_dump_out {A} zone (name_of : A -> str) rrs l out : Forall (fun x => Forall let_out (rrs x)) l ->
  zone_dump zone name_of rrs l = Val out -> Forall let_out out.
Proof.
  intros Hl. revert out. induction Hl as [|x l Hx _ IH]; intros out; cbn [zone_dump]; [intros [= <-]; constructor|].
  destruct (in_zone (name_of x) (az_domain zone)); [|done]. destruct (zone_dump zone name_of rrs l); [|done]. intros [= <-].
  apply Forall_app. split; [by case_match; [constructor|]|by apply IH].
Qed.
Lemma int_name_dump_out zone intr : zone ∈ ac_zones cfg -> Forall let_out (int_name_dump cfg false zone intr).
Proof.
  intros Hz. unfold int_name_dump. cbv zeta. apply Forall_app. split; apply forall_mjoin, Forall_fmap, Forall_true; intros al; unfold compose;
    (destruct (Bool.eqb _ _); [|constructor]); cbn [andb]; (destruct (visible false zone (al_addr al)) eqn:E; [|constructor]); by apply (let_out_addr zone).
Qed.
Lemma cache_dump_out zone recs out : zone ∈ ac_zones cfg -> cache_dump cfg false zone recs = Val out -> Forall let_out out.
Proof.
  intros Hz. revert out. induction recs as [|cr recs IH]; intros out; cbn [cache_dump]; [intros [= <-]; constructor|]. cbv zeta.
  match goal with |- (let# here := ?e in _) = _ -> _ => assert (forall l, e = Val l -> Forall let_out l) as Hh; [|destruct e as [here|]; [|done]] end.
  - intros l. destruct (cr_addr cr) as [addr|]; [|intros [= <-]; constructor]. destruct (_ || _ || _); [intros [= <-]; constructor|].
    match goal with |- context [Val ?b] => assert (Forall let_out b) as Hb end.
    { destruct (visible false zone addr) eqn:E; rewrite ?andb_false_r; [|constructor]. case_match; [|constructor]. by apply (let_out_addr zone). }
    destruct (_ || _); [|by intros [= <-]]. destruct (in_zone (cr_name cr) (az_domain zone)); [|done]. intros [= <-]. apply Forall_app. split; [done|].
    destruct (filter_zone zone addr) eqn:E; rewrite ?andb_false_r; [|constructor].
    destruct (negb (bool_decide (a = None))); cbn [andb]; [by apply (let_out_addr zone)|constructor].
  - destruct (cache_dump cfg false zone recs); [|done]. intros [= <-]. apply Forall_app. split; [by apply Hh|by apply IH].
Qed.

Lemma file_rr_out asked rr p : rtype rr <> 1 -> rtype rr <> 28 -> Forall let_out (fst p) -> Forall let_out (fst (file_rr asked rr p)).
Proof. intros H1 H2 Hp. unfold file_rr. case_match; [|done]. cbn [fst]. apply Forall_app. split; [done|by apply let_out_one]. Qed.
Lemma fold_file_rr_out ns (mk : str -> DnsRr) l p : (forall x, rtype (mk x) = 2) -> Forall let_out (fst p) ->
  Forall let_out (fst (fold_left (fun p x => file_rr ns (mk x) p) l p)).
Proof.
  intros Hm. revert p. induction l as [|x l IH]; intros p Hp; [done|]. cbn [fold_left]. apply IH. apply file_rr_out; [by rewrite Hm..|done].
Qed.

Lemma build_auth_section_out zone subnet mx c axfr soa ns ans out auth : zone ∈ ac_zones cfg -> Forall let_out ans ->
  build_auth_section cfg false now zone subnet mx c axfr soa ns ans = Val (out, auth) -> Forall let_out out.
Proof.
  intros Hz Ha. unfold build_auth_section. destruct (match subnet with Some _ => _ | None => _ end) as [authname|]; [|done]. cbv zeta.
  set (p1 := if (_ && _) || soa then _ else _).
  assert (Forall let_out (fst p1)) as H1 by (unfold p1; case_match; [by apply file_rr_out|done]). clearbody p1.
  set (p2 := if negb _ || ns then _ else _). assert (Forall let_out (fst p2)) as H2.
  { unfold p2. case_match; [|done]. set (p3 := if ac_interface cfg then _ else p1).
    assert (Forall let_out (fst p3)) by (unfold p3; case_match; [by apply file_rr_out|done]). case_match; [|done]. by apply fold_file_rr_out. }
  clearbody p2. destruct (negb axfr); [intros [= E]; by rewrite E in H2|].
  destruct (zone_dump zone mx_name _ mx) as [l1|] eqn:E1; [|done]. destruct (zone_dump zone txt_name _ (ac_rr cfg)) as [l2|] eqn:E2; [|done].
  destruct (zone_dump zone txt_name _ (List.filter _ _)) as [l3|] eqn:E3; [|done]. destruct (zone_dump zone na_name _ _) as [l4|] eqn:E4; [|done].
  destruct (zone_dump zone in_name _ _) as [l5|] eqn:E5; [|done]. destruct (zone_dump zone cn_alias _ _) as [l6|] eqn:E6; [|done].
  destruct (cache_dump cfg false zone _) as [l7|] eqn:E7; [|done]. intros [= <- _].
  apply zone_dump_out in E1; [|apply Forall_true; intros r; case_match; out_type].
  apply zone_dump_out in E2; [|eapply Forall_impl; [exact rr_types|]; intros x [? ?]; by apply let_out_one].
  apply zone_dump_out in E3; [|apply Forall_true; intros r; out_type]. apply zone_dump_out in E4; [|apply Forall_true; intros r; out_type].
  apply zone_dump_out in E5; [|apply Forall_true; intros r; by apply int_name_dump_out]. apply zone_dump_out in E6; [|apply Forall_true; intros r; out_type].
  apply cache_dump_out in E7; [|done]. rewrite !Forall_app. split_and!; try done. out_type.
Qed.

(** C23: the authoritative server tells outsiders only the addresses its zones
    let out. In a reply to a query that is not local, zone transfers included,
    every A and AAAA record in the answer carries an address that some zone
    does not exclude and, if the zone lists subnets, that is in one of them. *)
Theorem auth_answers_filtered query mxnames w peer p mx' w' :
  answer_auth cfg false now 2 query mxnames w peer = Some (Val (Some p, mx', w')) ->
  Forall let_out (answers p).
Proof.
  unfold answer_auth. destruct (questions query) as [|q [|q' qs]]; [done| |done]. cbv zeta.
  assert (forall (s : Search) notimp answered, quiet s -> Some (auth_reply cfg false now query q s notimp answered) = Some (Val (Some p, mx', w')) ->
    Forall let_out (answers p)) as Hr.
  { intros s notimp answered Hq Hs. unfold auth_reply in Hs. destruct answered; [|done]. cbn [negb] in Hs.
    destruct (match (if st_auth s then st_zone s else None) with Some _ => _ | None => _ end) as [[ans auth]|] eqn:E; [|done].
    assert (Forall let_out ans) as Ha.
    { destruct (if st_auth s then st_zone s else None) as [z|] eqn:Ez; [|injection E as <- _; apply Hq].
      eapply build_auth_section_out; [|apply Hq|exact E]. destruct (st_auth s); [by apply Hq|done]. }
    injection Hs as <- _ _. by destruct (finish_reply_answers cfg false query q s notimp ans auth) as [-> | ->]; [constructor|]. }
  assert (quiet (initial false mxnames w)) as Hi by (constructor; [done|constructor]).
  destruct (negb (opcode _ =? 0)); [by apply Hr|]. destruct (negb (qclass q =? 1)); [by apply Hr, (quiet_same _ _ Hi)|]. unfold search.
  destruct (reverse_part _ _ _ _ _ _ _) as [[s []]|] eqn:E; [|apply reverse_part_quiet in E; [|done]|done]; [apply reverse_part_quiet in E; [by apply Hr|done]|].
  destruct (forward_loop _ _ _ _ _ _ _ _) as [[[s' a]|]|] eqn:El; [|done..]. apply forward_loop_quiet in El; [|done]. by apply Hr.
Qed.
End Filtered.

(** ** Concrete queries *)

#[local] Existing Instance ascii_tables.
#[local] Existing Instance list_lru.

Definition ex_zone : AuthZone := mkAuthZone (bs "example.com") [] [mkAddrlist (Addr4 3221225984) 0 24 None] [].
Definition ex_auth : AuthConfig :=
  mkAuthConfig [ex_zone] [] [] [mkTxt (bs "note.example.com") (bs "hello") 1 0]
    [mkIntName (bs "gw.example.com") (bs "eth0") 3 None None
       [mkAddrlist (Addr4 3221225985) 0 24 None; mkAddrlist (Addr4 167772161) 0 8 None]]
    [mkCnameRec 60 0 (bs "www.example.com") (bs "gw.example.com")] [] true
    (bs "ns.example.com") (bs "root.example.com") [] 1 1200 180 1209600 600 false 4096.
Definition ex_auth_world : World := mkWorld (with_ttl_limits 8 0 0) COUNTERS.
Definition ex_query (op : Z) (name : str) (t : RrType) (class : Z) : DnsPacket :=
  mkPacket (mkHeader 7 (z8 (8 * op)) (z8 0) 1 0 0 0) [mkQuestion name (RrType_as t) class] [] [] [].
Definition ex_ask (lq : bool) (query : DnsPacket) := answer_auth ex_auth lq 0 2 query [] ex_auth_world (V4 1).
(** The owners and data of the answer, with the answer code. *)
Definition ex_show (lq : bool) (query : DnsPacket) : option (Z * list (str * Z * list Z)) :=
  match ex_ask lq query with
  | Some (Val (Some p, _, _)) => Some (rcode (header p), (fun r => (r_name r, rtype r, u8z <$> rdata r)) <$> answers p)
  | _ => None
  end.

(** The interface has two addresses; outsiders see the one of the zone. *)
Example interface_addresses :
  ex_show false (ex_query 0 (bs "gw.example.com") T_A 1) = Some (0, [(bs "gw.example.com", 1, [192; 0; 2; 1])]) /\
  ex_show true (ex_query 0 (bs "gw.example.com") T_A 1) =
    Some (0, [(bs "gw.example.com", 1, [192; 0; 2; 1]); (bs "gw.example.com", 1, [10; 0; 0; 1])]).
Proof. by vm_compute. Qed.
(** An alias is followed to the configured name. *)
Example alias_followed :
  option_map (fun p => List.map fst (snd p)) (ex_show false (ex_query 0 (bs "www.example.com") T_A 1)) =
  Some [(bs "www.example.com", 5); (bs "gw.example.com", 1)].
Proof. by vm_compute. Qed.
(** The cut of [in_zone] ends inside the two bytes of the first character. *)
Example in_zone_panics : in_zone ((z8 <$> [195; 169]) ++ bs "xample.com") (bs "example.com") = Panic.
Proof. by vm_compute. Qed.

Definition ex_reply_packet (query : DnsPacket) : DnsPacket :=
  match ex_ask false query with Some (Val (Some p, _, _)) => p | _ => query end.

Lemma auth_reply_exact_witness :
  exists q s ans auth, found_records ex_auth false 0 s = Val (ans, auth) /\
    reply_exact ex_auth false (ex_query 0 (bs "www.example.com") T_A 1) q s false ans auth (ex_reply_packet (ex_query 0 (bs "www.example.com") T_A 1)).
Proof.
  edestruct (auth_reply_exact ex_auth false 0 (ex_query 0 (bs "www.example.com") T_A 1) [] ex_auth_world (V4 1)) as (q & s & notimp & ans & auth & _ & Hc & Hf & Hr & _).
  { vm_compute. reflexivity. }
  destruct Hc as [-> _]. exists q, s, ans, auth. split; [exact Hf|exact Hr].
Defined.

Lemma auth_answers_filtered_witness :
  Forall (let_out ex_auth) (answers (ex_reply_packet (ex_query 0 (bs "gw.example.com") T_A 1))) /\
  length (answers (ex_reply_packet (ex_query 0 (bs "gw.example.com") T_A 1))) = 1%nat.
Proof.
  split; [|by vm_compute].
  eapply (auth_answers_filtered ex_auth 0 (List.Forall_nil _) (ex_query 0 (bs "gw.example.com") T_A 1) [] ex_auth_world (V4 1)).
  vm_compute. reflexivity.
Defined.

Lemma auth_errors_witness :
  (exists p, ex_ask false (ex_query 0 (bs "other.test") T_A 1) = Some (Val (Some p, [], ex_auth_world)) /\ refused_with 5 p) /\
  (exists p, ex_ask false (ex_query 0 (bs "1.0.0.11.in-addr.arpa") T_PTR 1) = Some (Val (Some p, [], ex_auth_world)) /\ refused_with 5 p).
Proof.
  split.
  - destruct (auth_errors ex_auth 0 (ex_query 0 (bs "other.test") T_A 1) [] ex_auth_world (V4 1)) as [_ He].
    destruct (He _ eq_refl) as (_ & _ & Hn & _). apply (Hn eq_refl eq_refl). left. split; [by left|]. vm_compute. reflexivity.
  - destruct (auth_errors ex_auth 0 (ex_query 0 (bs "1.0.0.11.in-addr.arpa") T_PTR 1) [] ex_auth_world (V4 1)) as [_ He].
    destruct (He _ eq_refl) as (_ & _ & Hn & _). apply (Hn eq_refl eq_refl). right. split; [done|]. eexists. split; [vm_compute; reflexivity|].
    repeat constructor.
Defined.
