(* ===== verification/Tftp.v ===== *)
(** * TFTP messages, options and paths: src/src/tftp.rs

    The packets of the protocol, the options of a read request, the path a
    request names and the check that opens it. What the file system answers is
    a [FileSystem]; texts of operating-system errors come from it. *)

From Stdlib Require Import ZArith Lia String.
From stdpp Require Import base numbers list option gmap sets.
From S2P Require Import Prelude ByteCursor Types StdText.

#[local] Open Scope Z_scope.

(** ** Codes *)

Inductive TftpOpcode : Type := Rrq | Wrq | DataOp | AckOp | ErrorOp | OackOp.
Definition opcode_u16 (o : TftpOpcode) : Z :=
  match o with Rrq => 1 | Wrq => 2 | DataOp => 3 | AckOp => 4 | ErrorOp => 5 | OackOp => 6 end.

Inductive TftpError : Type :=
| NotDefined | FileNotFound | AccessViolation | DiskFull | IllegalOp | UnknownTransferId | FileAlreadyExists.
Definition error_u16 (e : TftpError) : Z :=
  match e with
  | NotDefined => 0 | FileNotFound => 1 | AccessViolation => 2 | DiskFull => 3 | IllegalOp => 4
  | UnknownTransferId => 5 | FileAlreadyExists => 6
  end.

Inductive TftpParseError : Type := TooShort | InvalidOpcode (op : Z) | MissingNull.

(** ** Packets *)

Definition read_cstring (c : ByteCursor) : outcome (result (str * ByteCursor) TftpParseError) :=
  let# found := Cursor.find c Byte.x00 in
  match found with
  | None => Val (Err MissingNull)
  | Some end_ =>
    let# (bytes, c) := expect (Cursor.read_slice c end_) in
    let# c := expect (Cursor.advance c 1) in
    Val (Ok (utf8_lossy bytes, c))
  end.

(** Every option takes two terminators off the packet: the length of the packet
    is fuel enough. *)
Fixpoint read_options (fuel : nat) (c : ByteCursor) : outcome (result (list (str * str)) TftpParseError) :=
  match fuel with
  | O => Val (Ok [])
  | S f =>
    if Cursor.is_empty c then Val (Ok [])
    else
      let# key := read_cstring c in
      match key with
      | Err e => Val (Err e)
      | Ok (k, c) =>
        let# val := read_cstring c in
        match val with
        | Err e => Val (Err e)
        | Ok (v, c) => let# rest := read_options f c in Val (let? l := rest in Ok ((k, v) :: l))
        end
      end
  end.

Definition parse_rrq (pkt : list u8) : outcome (result (str * str * list (str * str)) TftpParseError) :=
  if (length pkt <? 4)%nat then Val (Err TooShort)
  else
    let# (opcode, c) := expect (Cursor.read_u16_be (Cursor.new pkt)) in
    if negb (opcode =? opcode_u16 Rrq) && negb (opcode =? opcode_u16 Wrq) then Val (Err (InvalidOpcode opcode))
    else
      let# filename := read_cstring c in
      match filename with
      | Err e => Val (Err e)
      | Ok (filename, c) =>
        let# mode := read_cstring c in
        match mode with
        | Err e => Val (Err e)
        | Ok (mode, c) => let# options := read_options (length pkt) c in Val (let? options := options in Ok (filename, mode, options))
        end
      end.

Definition build_data (block : Z) (data : list u8) : list u8 := to_be 2 (opcode_u16 DataOp) ++ to_be 2 block ++ data.
Definition parse_data (pkt : list u8) : result (Z * list u8) TftpParseError :=
  if (length pkt <? 4)%nat then Err TooShort
  else
    let opcode := of_be (take 2 pkt) in
    if negb (opcode =? opcode_u16 DataOp) then Err (InvalidOpcode opcode)
    else Ok (of_be (take 2 (drop 2 pkt)), drop 4 pkt).
Definition build_ack (block : Z) : list u8 := to_be 2 (opcode_u16 AckOp) ++ to_be 2 block.
Definition build_error (code : TftpError) (msg : str) : list u8 :=
  to_be 2 (opcode_u16 ErrorOp) ++ to_be 2 (error_u16 code) ++ msg ++ [Byte.x00].
Definition build_oack (options : list (str * str)) : list u8 :=
  to_be 2 (opcode_u16 OackOp) ++ mjoin ((fun '(k, v) => k ++ [Byte.x00] ++ v ++ [Byte.x00]) <$> options).

(** ** Names and messages *)

Definition backslash : u8 := Byte.x5c.
Definition slash : u8 := Byte.x2f.

Definition sanitize_filename (name : str) : option str :=
  if bool_decide (Byte.x00 ∈ name) then None
  else
    let name := (fun b => if decide (b = backslash) then slash else b) <$> name in
    if has_prefix [slash] name then None
    else if existsb (fun component => bool_decide (component = bs "..")) (split_on slash name) then None
    else match name with [] => None | _ => Some name end.

(** The string, and the position behind its terminator. *)
Definition next_cstring (buf : list u8) (pos : nat) : option (list u8) * nat :=
  if (length buf <=? pos)%nat then (None, pos)
  else match find_byte Byte.x00 (drop pos buf) with
       | None | Some O => (None, pos)
       | Some n => (Some (take n (drop pos buf)), (pos + n + 1)%nat)
       end.

(** Only printable characters, which are single bytes, are kept. *)
Definition tftp_sanitise (input : str) : str := List.filter (in_rng 32 126) input.

Definition TFTP_MAX_MESSAGE : nat := 500.
Definition tftp_err_packet (code : TftpError) (message : str) : list u8 :=
  let clean := tftp_sanitise message in
  build_error code (if (TFTP_MAX_MESSAGE <? length clean)%nat then take TFTP_MAX_MESSAGE clean else clean).
Definition tftp_err_oops (filename err : str) : list u8 :=
  tftp_err_packet NotDefined (bs "cannot read " ++ tftp_sanitise filename ++ bs ": " ++ err).

(** ** Options *)

Definition MAXDNAME : Z := 1025.
Definition RRFIXEDSZ : Z := 10.
Definition packet_buff_sz (edns_pktsz : Z) : Z := edns_pktsz + MAXDNAME + RRFIXEDSZ.
Definition TFTP_MAX_WINDOW : Z := 32.
Definition TFTP_TRANSFER_TIME_SECS : Z := 120.
Definition TFTP_MAX_CONNECTIONS_DEFAULT : Z := 50.

Record RequestOptions : Type := mkOptions {
  ro_blocksize : Z; ro_opt_blocksize : bool; ro_opt_transize : bool; ro_opt_timeout : bool; ro_opt_windowsize : bool;
  ro_timeout : Z; ro_windowsize : Z }.
Definition default_options : RequestOptions := mkOptions 512 false false false false 2 1.

Definition I64_MAX : Z := 9223372036854775807.
(** The digits at the front; multiplication and addition saturate. *)
Fixpoint atoi_digits (val : Z) (s : str) : Z :=
  match s with
  | [] => val
  | b :: rest =>
    match dec_digit b with
    | Some d => atoi_digits (Z.min I64_MAX (Z.min I64_MAX (val * 10) + d)) rest
    | None => val
    end
  end.
Definition atoi_like (s : str) : Z :=
  match trim_front s with
  | Byte.x2d :: rest => - atoi_digits 0 rest
  | Byte.x2b :: rest => atoi_digits 0 rest
  | rest => atoi_digits 0 rest
  end.
Definition atoi_as_c_uint (s : str) : Z := as_u32 (atoi_like s).

Definition put_blocksize (v : Z) (o : RequestOptions) : RequestOptions :=
  mkOptions v true (ro_opt_transize o) (ro_opt_timeout o) (ro_opt_windowsize o) (ro_timeout o) (ro_windowsize o).
Definition put_transize (o : RequestOptions) : RequestOptions :=
  mkOptions (ro_blocksize o) (ro_opt_blocksize o) true (ro_opt_timeout o) (ro_opt_windowsize o) (ro_timeout o) (ro_windowsize o).
Definition put_timeout (v : Z) (o : RequestOptions) : RequestOptions :=
  mkOptions (ro_blocksize o) (ro_opt_blocksize o) (ro_opt_transize o) true (ro_opt_windowsize o) v (ro_windowsize o).
Definition put_windowsize (v : Z) (o : RequestOptions) : RequestOptions :=
  mkOptions (ro_blocksize o) (ro_opt_blocksize o) (ro_opt_transize o) (ro_opt_timeout o) true (ro_timeout o) v.

Definition clamp_blocksize (v : Z) (family_v4 : bool) (mtu : option Z) (packet_buff_sz : Z) : Z :=
  let overhead := if family_v4 then 32 else 52 in
  let v := if v <? 1 then 1 else v in
  let buff_max := as_u32 (as_u32 packet_buff_sz - 4) in
  let v := if buff_max <? v then buff_max else v in
  match mtu with
  | Some mtu =>
    if negb (mtu =? 0) then
      let mtu_max := as_u32 (as_u32 mtu - overhead) in
      if mtu_max <? v then mtu_max else v
    else v
  | None => v
  end.

Definition request_option (netascii family_v4 : bool) (mtu : option Z) (no_blocksize_option : bool) (packet_buff_sz : Z)
    (o : RequestOptions) (option : str * str) : RequestOptions :=
  let '(key, value) := option in
  let named s := bool_decide (to_ascii_lowercase key = s) in
  if named (bs "blksize") && negb no_blocksize_option then put_blocksize (clamp_blocksize (atoi_as_c_uint value) family_v4 mtu packet_buff_sz) o
  else if named (bs "tsize") && negb netascii then put_transize o
  else if named (bs "timeout") then put_timeout (Z.min (atoi_as_c_uint value) 255) o
  else if named (bs "windowsize") && negb netascii then
    let v := atoi_as_c_uint value in
    let v := if v <? 1 then 1 else v in
    put_windowsize (if TFTP_MAX_WINDOW <? v then TFTP_MAX_WINDOW else v) o
  else o.
Definition parse_request_options (options : list (str * str)) (netascii family_v4 : bool) (mtu : option Z) (no_blocksize_option : bool)
    (packet_buff_sz : Z) : RequestOptions :=
  fold_left (request_option netascii family_v4 mtu no_blocksize_option packet_buff_sz) options default_options.
Definition any_option_negotiated (o : RequestOptions) : bool :=
  ro_opt_blocksize o || ro_opt_transize o || ro_opt_timeout o || ro_opt_windowsize o.

(** ** The file system *)

(** [(st_dev, st_ino)]. *)
Definition FileId : Type := Z * Z.
Record Metadata : Type := mkMeta { md_id : FileId; md_mode : Z; md_uid : Z; md_len : Z }.

(** What opening a path gives: an error, or the metadata of the open file or
    the error of asking for it. *)
Inductive OpenResult : Type := OpenNotFound | OpenDenied | OpenFailed (err : str) | Opened (meta : result Metadata str).

(** The file system of one moment. [fs_seek] is the error of a seek, if any;
    [fs_read] what [read_exact] of so many bytes at a position gives and, when
    it fails, the position it leaves. *)
Record FileSystem : Type := mkFs {
  fs_dir_exists : str -> bool;
  fs_open : str -> OpenResult;
  fs_euid : Z;
  fs_seek : FileId -> Z -> option str;
  fs_read : FileId -> Z -> nat -> result (list u8) (str * Z) }.

(** ** Paths *)

Record PathParts : Type := mkParts {
  pp_prefix : option str; pp_lowercase : bool; pp_apref_ip : bool; pp_apref_mac : bool; pp_client_addr_str : str;
  pp_client_mac : option (list u8) }.

Definition ends_in_slash (s : str) : bool := bool_decide (last s = Some slash).

(** A directory of the client's own, if it exists. *)
Definition enter_if_exists (fs : FileSystem) (dir namebuff : str) : str :=
  if fs_dir_exists fs (namebuff ++ dir) then namebuff ++ dir else namebuff.

Definition root_of (prefix : str) : str :=
  (if has_prefix [slash] prefix then [] else [slash]) ++ prefix ++ (if ends_in_slash prefix then [] else [slash]).

Definition normalize_filename (lowercase : bool) (filename_raw : str) : str :=
  (fun b => let b := if decide (b = backslash) then slash else b in if lowercase then lower8 b else b) <$> filename_raw.

Definition build_tftp_path (fs : FileSystem) (filename_raw : str) (parts : PathParts) : str :=
  let filename := normalize_filename (pp_lowercase parts) filename_raw in
  match pp_prefix parts with
  | Some prefix =>
    let namebuff := root_of prefix in
    let namebuff := if pp_apref_ip parts then enter_if_exists fs (pp_client_addr_str parts ++ [slash]) namebuff else namebuff in
    let namebuff :=
      if pp_apref_mac parts then
        match pp_client_mac parts with
        | Some mac => enter_if_exists fs (join (bs "-") ((fun b => fmt_hex 2 (u8z b)) <$> mac) ++ [slash]) namebuff
        | None => namebuff
        end
      else namebuff in
    if has_prefix [slash] filename then
      if has_prefix namebuff filename then filename else namebuff ++ drop 1 filename
    else namebuff ++ filename
  | None => if has_prefix [slash] filename then filename else [slash] ++ filename
  end.

(** ** Opening a file *)

(** An open file: [tf_posn] is where the code believes the file position is,
    [tf_fdpos] where it is. *)
Record TftpFile : Type := mkFile { tf_id : FileId; tf_size : Z; tf_filename : str; tf_posn : Z; tf_fdpos : Z }.
Inductive TftpOpenError : Type := NotFound | Perm | Oops (err : str).

(** The files shared between transfers, by reference. *)
Notation Files := (gmap nat TftpFile) (only parsing).

Definition same_file (id : FileId) (namebuff : str) (f : TftpFile) : bool :=
  bool_decide (tf_id f = id) && bool_decide (tf_filename f = namebuff).

(** An open file of a transfer, or a new one. *)
Definition share_file (files : Files) (shared : list nat) (meta : Metadata) (namebuff : str) : nat * Files :=
  match List.find (fun r => match files !! r with Some f => same_file (md_id meta) namebuff f | None => false end) shared with
  | Some r => (r, files)
  | None =>
    let r := fresh (dom files) in
    (r, <[r := mkFile (md_id meta) (md_len meta) namebuff 0 0]> files)
  end.

Definition open_tftp_file (fs : FileSystem) (namebuff : str) (prefix_set secure : bool) (shared : list nat) (files : Files)
  : result (nat * Files) TftpOpenError :=
  if prefix_set && contains_str (bs "/../") namebuff then Err Perm
  else
    match fs_open fs namebuff with
    | OpenNotFound => Err NotFound
    | OpenDenied => Err Perm
    | OpenFailed e => Err (Oops e)
    | Opened (Err e) => Err (Oops e)
    | Opened (Ok meta) =>
      if fs_euid fs =? 0 then
        if Z.land (md_mode meta) 4 =? 0 then Err Perm else Ok (share_file files shared meta namebuff)
      else if secure && negb (fs_euid fs =? md_uid meta) then Err Perm
      else Ok (share_file files shared meta namebuff)
    end.
