(* ===== verification/TftpServer.v ===== *)
(** * TFTP transfers: src/src/tftp.rs

    Reading blocks, the acknowledgement state machine, requests and the loop
    over datagrams and ticks. Open files are shared between transfers: they
    live in a store and a transfer holds a reference. What happens outside is
    a [World] per event. Tasks that forward datagrams and logging are left out. *)

From Stdlib Require Import ZArith Lia String.
From stdpp Require Import base numbers list option gmap sets.
From S2P Require Import Prelude Types StdText Tftp.

#[local] Open Scope Z_scope.

(** ** Transfers *)

(** The fields set when the request is accepted and never changed. *)
Record Session : Type := mkSession {
  ss_peer : MySockAddr; ss_source_addr : IpAddr; ss_if_index : Z; ss_single_port : bool; ss_file : nat;
  ss_netascii : bool; ss_options : RequestOptions }.

Record TftpTransfer : Type := mkTransfer {
  t_session : Session; t_backoff : Z; t_start : option Z; t_retransmit : Z;
  t_block : Z; t_lastack : Z; t_ackprev : Z; t_block_hi : Z;
  t_offset : Z; t_expansion : Z; t_carrylf : bool; t_lastcarrylf : bool; t_prefetch : option (Z * list u8) }.
Definition blocksize (t : TftpTransfer) : Z := ro_blocksize (ss_options (t_session t)).
Definition windowsize (t : TftpTransfer) : Z := ro_windowsize (ss_options (t_session t)).
Definition netascii (t : TftpTransfer) : bool := ss_netascii (t_session t).

Definition transfer_new (s : Session) (now : Z) : TftpTransfer := mkTransfer s 1 (Some now) now 1 0 0 0 0 0 false false None.

Definition put_block (b : Z) (t : TftpTransfer) : TftpTransfer :=
  mkTransfer (t_session t) (t_backoff t) (t_start t) (t_retransmit t) b (t_lastack t) (t_ackprev t) (t_block_hi t)
    (t_offset t) (t_expansion t) (t_carrylf t) (t_lastcarrylf t) (t_prefetch t).
Definition put_offset (o : Z) (t : TftpTransfer) : TftpTransfer :=
  mkTransfer (t_session t) (t_backoff t) (t_start t) (t_retransmit t) (t_block t) (t_lastack t) (t_ackprev t) (t_block_hi t)
    o (t_expansion t) (t_carrylf t) (t_lastcarrylf t) (t_prefetch t).
Definition put_prefetch (p : option (Z * list u8)) (t : TftpTransfer) : TftpTransfer :=
  mkTransfer (t_session t) (t_backoff t) (t_start t) (t_retransmit t) (t_block t) (t_lastack t) (t_ackprev t) (t_block_hi t)
    (t_offset t) (t_expansion t) (t_carrylf t) (t_lastcarrylf t) p.
Definition put_expansion (e : Z) (c : bool) (t : TftpTransfer) : TftpTransfer :=
  mkTransfer (t_session t) (t_backoff t) (t_start t) (t_retransmit t) (t_block t) (t_lastack t) (t_ackprev t) (t_block_hi t)
    (t_offset t) e c (t_lastcarrylf t) (t_prefetch t).
(** The retransmission timer and its back-off. *)
Definition put_timer (r b : Z) (t : TftpTransfer) : TftpTransfer :=
  mkTransfer (t_session t) b (t_start t) r (t_block t) (t_lastack t) (t_ackprev t) (t_block_hi t)
    (t_offset t) (t_expansion t) (t_carrylf t) (t_lastcarrylf t) (t_prefetch t).
Definition put_start (s : option Z) (t : TftpTransfer) : TftpTransfer :=
  mkTransfer (t_session t) (t_backoff t) s (t_retransmit t) (t_block t) (t_lastack t) (t_ackprev t) (t_block_hi t)
    (t_offset t) (t_expansion t) (t_carrylf t) (t_lastcarrylf t) (t_prefetch t).

(** ** Netascii *)

Definition CR : u8 := Byte.x0d.

(** The loop of [netascii_expand] over a buffer. *)
Fixpoint expand_loop (fuel bsize : nat) (lastcarrylf : bool) (i size : nat) (buf : list u8) (expansion : Z) (carrylf : bool)
  : outcome (list u8 * nat * Z * bool) :=
  match fuel with
  | O => Val (buf, size, expansion, carrylf)
  | S f =>
    if (size <=? i)%nat then Val (buf, size, expansion, carrylf)
    else match buf !! i with
    | None => Panic
    | Some b =>
      if bool_decide (b = newline) && (negb (i =? 0)%nat || negb lastcarrylf) then
        let full := (size =? bsize)%nat in
        let carrylf := if full then (i =? size - 1)%nat || carrylf else carrylf in
        let size := if full then size else S size in
        if (size <=? length buf)%nat then
          let buf := take (S i) buf ++ take (size - 1 - i) (drop i buf) ++ drop size buf in
          expand_loop f bsize lastcarrylf (i + 2) size (<[i := CR]> buf) (expansion + 1) carrylf
        else Panic
      else expand_loop f bsize lastcarrylf (i + 1) size buf expansion carrylf
    end
  end.
Definition netascii_expand (raw : list u8) (bsize : nat) (lastcarrylf : bool) : outcome (list u8 * Z * bool) :=
  let cap := Nat.max bsize (length raw) in
  let buf := raw ++ replicate (cap - length raw) Byte.x00 in
  let# (buf, size, expansion, carrylf) := expand_loop (S cap) bsize lastcarrylf 0 (length raw) buf 0 false in
  Val (take size buf, expansion, carrylf).

(** ** Blocks *)

Inductive GetBlockResult : Type := Oack (pkt : list u8) | Data (pkt : list u8) | Done.

#[global] Instance TftpFile_inhabited : Inhabited TftpFile := populate (mkFile (0, 0) 0 [] 0 0).

Definition oack_options (o : RequestOptions) (size : Z) : list (str * str) :=
  (if ro_opt_blocksize o then [(bs "blksize", fmt_u (ro_blocksize o))] else []) ++
  (if ro_opt_transize o then [(bs "tsize", fmt_u size)] else []) ++
  (if ro_opt_timeout o then [(bs "timeout", fmt_u (ro_timeout o))] else []) ++
  (if ro_opt_windowsize o then [(bs "windowsize", fmt_u (ro_windowsize o))] else []).

(** The bytes of the file at an offset; the seek is left out where the position
    is believed to be right. *)
Definition read_file (fs : FileSystem) (f : TftpFile) (offset : Z) (want : nat) : result (list u8) str * TftpFile :=
  if (want =? 0)%nat then (Ok [], f)
  else
    match (if tf_posn f =? offset then None else fs_seek fs (tf_id f) offset) with
    | Some e => (Err e, f)
    | None =>
      let pos := if tf_posn f =? offset then tf_fdpos f else offset in
      match fs_read fs (tf_id f) pos want with
      | Ok b => (Ok b, mkFile (tf_id f) (tf_size f) (tf_filename f) (offset + Z.of_nat want) (pos + Z.of_nat want))
      | Err (e, p) => (Err e, mkFile (tf_id f) (tf_size f) (tf_filename f) (tf_posn f) p)
      end
    end.

Definition prefetched (t : TftpTransfer) : option (list u8) :=
  match t_prefetch t with Some (off, data) => if off =? t_offset t then Some data else None | None => None end.

Definition get_block (fs : FileSystem) (files : Files) (t : TftpTransfer) : outcome (result GetBlockResult str * Files * TftpTransfer) :=
  let r := ss_file (t_session t) in
  let f := files !!! r in
  if t_block t =? 0 then Val (Ok (Oack (build_oack (oack_options (ss_options (t_session t)) (tf_size f)))), files, t)
  else
    let t := if netascii t then t else put_offset ((t_block t - 1) * blocksize t) t in
    if tf_size f <? t_offset t then Val (Ok Done, files, t)
    else match prefetched t with
    | Some data => Val (Ok (Data (build_data (as_u16 (t_block t)) data)), files, t)
    | None =>
      let t := put_prefetch None t in
      let want := Z.to_nat (Z.min (tf_size f - t_offset t) (blocksize t)) in
      let '(res, f) := read_file fs f (t_offset t) want in
      let files := <[r := f]> files in
      match res with
      | Err e => Val (Err e, files, t)
      | Ok raw =>
        let# (data, t) :=
          (if netascii t then
             let# (expanded, expansion, carrylf) := netascii_expand raw (Z.to_nat (blocksize t)) (t_lastcarrylf t) in
             Val (expanded, put_expansion expansion carrylf t)
           else Val (raw, t)) in
        Val (Ok (Data (build_data (as_u16 (t_block t)) data)), files, put_prefetch (Some (t_offset t, data)) t)
      end
    end.

(** ** Acknowledgements *)

Inductive TftpHandleResult : Type := AckAdvance (lastack : Z) | AckIgnored | ErrorReceived (code : Z) (message : str) | InvalidPacket.

(** [x + 1] on a [u32]. *)
Definition succ32 (x : Z) : outcome Z := if x =? 4294967295 then Panic else Val (x + 1).

(** The high half of the block number: a step from the top quarter to the
    bottom one wraps, the opposite step goes back. *)
Definition next_block_hi (new ackprev block_hi : Z) : outcome Z :=
  if (new <=? 0x4000) && (0xc000 <=? ackprev) then succ32 block_hi
  else if (0xc000 <=? new) && (ackprev <=? 0x4000) && negb (block_hi =? 0) then Val (block_hi - 1)
  else Val block_hi.

Definition handle_tftp_packet (t : TftpTransfer) (packet : list u8) (now : Z) : outcome (TftpHandleResult * TftpTransfer) :=
  if (length packet <? 4)%nat then Val (InvalidPacket, t)
  else
    let opcode := of_be (take 2 packet) in
    let arg := of_be (take 2 (drop 2 packet)) in
    if opcode =? 4 then
      let# hi := next_block_hi arg (t_ackprev t) (t_block_hi t) in
      let block := as_u32 (Z.shiftl hi 16) + arg in
      if (t_lastack t <=? block) && (block <=? t_block t) then
        let# lastack := succ32 block in
        let moves := netascii t && negb (block =? 0) in
        Val (AckAdvance lastack,
             mkTransfer (t_session t) 0 (Some now) now (t_block t) lastack arg hi
               (if moves then t_offset t + (blocksize t - t_expansion t) else t_offset t) (t_expansion t) (t_carrylf t)
               (if moves then t_carrylf t else t_lastcarrylf t) (t_prefetch t))
      else
        Val (AckIgnored,
             mkTransfer (t_session t) (t_backoff t) (t_start t) (t_retransmit t) (t_block t) (t_lastack t) arg hi
               (t_offset t) (t_expansion t) (t_carrylf t) (t_lastcarrylf t) (t_prefetch t))
    else if opcode =? 5 then
      let rest := drop 4 packet in
      let msg := tftp_sanitise (utf8_lossy (take (default (length rest) (find_byte Byte.x00 rest)) rest)) in
      Val (ErrorReceived arg msg, put_start None t)
    else Val (InvalidPacket, t).

(** ** Sending *)

Record Sent : Type := mkSent { s_to : MySockAddr; s_from : IpAddr; s_if_index : Z; s_bytes : list u8 }.
Definition send_packet_to (s : Session) (peer : MySockAddr) (pkt : list u8) : Sent := mkSent peer (ss_source_addr s) (ss_if_index s) pkt.
Definition send_packet (t : TftpTransfer) (pkt : list u8) : Sent := send_packet_to (t_session t) (ss_peer (t_session t)) pkt.

(** The rounds of [send_window] that are left: whether the connection ends,
    whether with an error, and what was sent. *)
Fixpoint send_blocks (n : nat) (first : bool) (fs : FileSystem) (files : Files) (t : TftpTransfer)
  : outcome (bool * bool * Files * TftpTransfer * list Sent) :=
  match n with
  | O => Val (false, false, files, t, [])
  | S m =>
    let# (res, files, t) := get_block fs files t in
    match res with
    | Ok Done => Val (first, false, files, t, [])
    | Ok (Oack pkt) | Ok (Data pkt) =>
      let# b := succ32 (t_block t) in
      let# (endcon, error, files', t', sent) := send_blocks m false fs files (put_block b t) in
      Val (endcon, error, files', t', send_packet t pkt :: sent)
    | Err e => Val (true, true, files, t, [send_packet t (tftp_err_oops (tf_filename (files !!! ss_file (t_session t))) e)])
    end
  end.
Definition send_window (fs : FileSystem) (files : Files) (t : TftpTransfer) : outcome (bool * bool * Files * TftpTransfer * list Sent) :=
  send_blocks (Z.to_nat (if negb (t_block t =? 0) then windowsize t else 1)) true fs files t.

Definition NANOS : Z := 1000000000.
(** The next deadline counts from the last one. *)
Definition schedule_retransmit (t : TftpTransfer) : TftpTransfer :=
  let shift := Z.min (t_backoff t / 2) 20 in
  put_timer (t_retransmit t + ro_timeout (ss_options (t_session t)) * NANOS + Z.shiftl 1 shift * NANOS)
    (Z.min 4294967295 (t_backoff t + 1)) t.

(** A window after the last acknowledged block; unless the connection ends, the
    next block is read ahead. *)
Definition send_next (fs : FileSystem) (files : Files) (t : TftpTransfer) : outcome (bool * bool * Files * TftpTransfer * list Sent) :=
  let# (endcon, error, files, t, sent) := send_window fs files (put_block (t_lastack t) (schedule_retransmit t)) in
  if endcon then Val (endcon, error, files, t, sent)
  else let# (_, files, t) := get_block fs files t in Val (endcon, error, files, t, sent).

(** Whether the transfer is finished. *)
Definition process_transfer_packet (fs : FileSystem) (now : Z) (files : Files) (t : TftpTransfer) (data : list u8)
  : outcome (bool * Files * TftpTransfer * list Sent) :=
  let# (res, t) := handle_tftp_packet t data now in
  match res with
  | AckAdvance _ => let# (endcon, _, files, t, sent) := send_next fs files t in Val (endcon, files, t, sent)
  | AckIgnored | InvalidPacket => Val (false, files, t, [])
  | ErrorReceived _ _ => Val (true, files, t, [])
  end.

(** ** The server *)

Record TftpListenerHandle : Type := mkListener { li_addr : MySockAddr; li_iface : option str; li_mtu : option Z }.
Record RecvMeta : Type := mkRecv { rm_src : MySockAddr; rm_dest : option IpAddr; rm_if_index : Z }.

Record TftpConfig : Type := mkTftpConfig {
  tc_prefix : option str; tc_secure : bool; tc_no_blocksize_option : bool; tc_lowercase : bool; tc_single_port : bool;
  tc_apref_ip : bool; tc_apref_mac : bool; tc_max_transfers : Z; tc_mtu_override : Z; tc_start_port : Z; tc_end_port : Z;
  tc_interfaces : list str; tc_packet_buff_sz : Z }.
Definition effective_max (c : TftpConfig) : Z := if 0 <? tc_max_transfers c then tc_max_transfers c else TFTP_MAX_CONNECTIONS_DEFAULT.

Inductive BindResult : Type := Bound | AddrInUse | BindFailed.

(** The outside world during one event. *)
Record World : Type := mkWorld {
  en_fs : FileSystem; en_now : Z; en_bind : IpAddr -> Z -> BindResult; en_indextoname : Z -> option str; en_interface_mtu : str -> option Z }.

(** [iface_name_matches] of src/src/network.rs. *)
Definition iface_name_matches (name pattern : str) : bool :=
  match strip_suffix (bs "*") pattern with
  | Some prefix => has_prefix prefix name
  | None => bool_decide (name = pattern)
  end.

Definition resolve_request_interface (env : World) (l : TftpListenerHandle) (m : RecvMeta) : option str * option Z :=
  match li_iface l with
  | Some _ => (li_iface l, li_mtu l)
  | None =>
    if rm_if_index m =? 0 then (None, None)
    else match en_indextoname env (rm_if_index m) with
         | Some name => (Some name, en_interface_mtu env name)
         | None => (None, None)
         end
  end.

(** The ports from [port] up to [end_port], while they are in use. *)
Fixpoint bind_port (fuel : nat) (env : World) (source : IpAddr) (port end_port : Z) : bool :=
  match en_bind env source port, fuel with
  | Bound, _ => true
  | AddrInUse, S f => if port <? end_port then bind_port f env source (port + 1) end_port else false
  | _, _ => false
  end.
Definition bind_transfer_socket (env : World) (source : IpAddr) (c : TftpConfig) : bool :=
  bind_port (Z.to_nat (tc_end_port c - tc_start_port c)) env source (tc_start_port c)
    (if tc_start_port c =? 0 then 0 else tc_end_port c).

Record TftpRuntime : Type := mkRuntime { rt_transfers : gmap Z TftpTransfer; rt_next_id : Z; rt_files : Files }.
Definition runtime_new : TftpRuntime := mkRuntime ∅ 1 ∅.

(** [HashMap] iteration. *)
Class TransferOrder : Type := {
  transfer_order : gmap Z TftpTransfer -> list (Z * TftpTransfer);
  transfer_order_perm : forall m, transfer_order m ≡ₚ map_to_list m;
}.

Definition ip_text (a : IpAddr) : str := match a with V4 a => fmt_ipv4 a | V6 a => fmt_ipv6 a end.
(** [SocketAddr] as text. *)
Definition sockaddr_text (a : MySockAddr) : str :=
  match a with
  | SV4 ip port => fmt_ipv4 ip ++ bs ":" ++ fmt_u port
  | SV6 ip port _ scope => bs "[" ++ fmt_ipv6 ip ++ (if scope =? 0 then [] else bs "%" ++ fmt_u scope) ++ bs "]:" ++ fmt_u port
  end.
Definition is_ipv4 (a : MySockAddr) : bool := match a with SV4 _ _ => true | SV6 _ _ _ _ => false end.

Definition request_path (env : World) (c : TftpConfig) (filename client : str) : str :=
  build_tftp_path (en_fs env) filename (mkParts (tc_prefix c) (tc_lowercase c) (tc_apref_ip c) (tc_apref_mac c) client None).

(** The MTU for the block size: a configured one overrides a larger one. *)
Definition request_mtu (c : TftpConfig) (iface_mtu : option Z) : option Z :=
  let mtu := default 0 iface_mtu in
  let mtu := if negb (tc_mtu_override c =? 0) && ((mtu =? 0) || (tc_mtu_override c <? mtu)) then tc_mtu_override c else mtu in
  if mtu =? 0 then None else Some mtu.

Section Server.
Context {O : TransferOrder} (c : TftpConfig) (env : World).

(** A new transfer with the negotiated options; its first packet. *)
Definition start_transfer (s : Session) (files : Files) : outcome (result GetBlockResult str * Files * TftpTransfer) :=
  let t := transfer_new s (en_now env) in
  let t := if any_option_negotiated (ss_options s) then put_block 0 t else t in
  let t := mkTransfer s (t_backoff t) (t_start t) (en_now env + Z.max (ro_timeout (ss_options s)) 1 * NANOS) (t_block t) (t_block t)
             (t_ackprev t) (t_block_hi t) (t_offset t) (t_expansion t) (t_carrylf t) (t_lastcarrylf t) (t_prefetch t) in
  get_block (en_fs env) files t.

(** A read request whose mode is known. *)
Definition serve_request (l : TftpListenerHandle) (m : RecvMeta) (source : IpAddr) (filename : str) (ascii : bool)
    (options : list (str * str)) (rt : TftpRuntime) : outcome (TftpRuntime * list Sent) :=
  let peer := rm_src m in
  let client := ip_text (sock_ip peer) in
  let reply pkt := [mkSent peer source (rm_if_index m) pkt] in
  let '(iface_name, iface_mtu) := resolve_request_interface env l m in
  let refused := match iface_name with
                 | Some name => negb (length (tc_interfaces c) =? 0)%nat && negb (existsb (iface_name_matches name) (tc_interfaces c))
                 | None => false
                 end in
  if refused then Val (rt, [])
  else
    let opts := parse_request_options options ascii (is_ipv4 peer) (request_mtu c iface_mtu) (tc_no_blocksize_option c) (tc_packet_buff_sz c) in
    let namebuff := request_path env c filename client in
    let shared := (fun e => ss_file (t_session (snd e))) <$> transfer_order (rt_transfers rt) in
    match open_tftp_file (en_fs env) namebuff (negb (bool_decide (tc_prefix c = None))) (tc_secure c) shared (rt_files rt) with
    | Err NotFound => Val (rt, reply (tftp_err_packet FileNotFound (bs "file " ++ namebuff ++ bs " not found for " ++ client)))
    | Err Perm => Val (rt, reply (tftp_err_packet AccessViolation (bs "cannot access " ++ namebuff ++ bs ": Permission denied")))
    | Err (Oops e) => Val (rt, reply (tftp_err_oops namebuff e))
    | Ok (file, files) =>
      if effective_max c <=? Z.of_nat (size (rt_transfers rt)) then Val (mkRuntime (rt_transfers rt) (rt_next_id rt) files, [])
      else
        let# (res, files, t) := start_transfer (mkSession peer source (rm_if_index m) (tc_single_port c) file ascii opts) files in
        match res with
        | Ok Done => Val (mkRuntime (rt_transfers rt) (rt_next_id rt) files, [])
        | Err e =>
          Val (mkRuntime (rt_transfers rt) (rt_next_id rt) files, [send_packet t (tftp_err_oops (tf_filename (files !!! file)) e)])
        | Ok (Oack pkt) | Ok (Data pkt) =>
          Val (mkRuntime (<[rt_next_id rt := t]> (rt_transfers rt)) (rt_next_id rt + 1) files, [send_packet t pkt])
        end
    end.

Definition handle_new_request (l : TftpListenerHandle) (m : RecvMeta) (data : list u8) (rt : TftpRuntime)
  : outcome (TftpRuntime * list Sent) :=
  let opcode := of_be (take 2 data) in
  if (length data <? 2)%nat || (negb (opcode =? opcode_u16 Wrq) && negb (opcode =? opcode_u16 Rrq)) then Val (rt, [])
  else
    let source := default (sock_ip (li_addr l)) (rm_dest m) in
    let client := ip_text (sock_ip (rm_src m)) in
    let reply pkt := [mkSent (rm_src m) source (rm_if_index m) pkt] in
    if negb (tc_single_port c) && negb (bind_transfer_socket env source c) then Val (rt, [])
    else if opcode =? opcode_u16 Wrq then Val (rt, reply (tftp_err_packet IllegalOp (bs "unsupported write request from " ++ client)))
    else
      let# parsed := parse_rrq data in
      match parsed with
      | Err _ => Val (rt, [])
      | Ok (filename, mode, options) =>
        if (length filename =? 0)%nat then Val (rt, reply (tftp_err_packet IllegalOp (bs "empty filename in request from " ++ client)))
        else if eq_ignore_ascii_case mode (bs "netascii") then serve_request l m source filename true options rt
        else if eq_ignore_ascii_case mode (bs "octet") then serve_request l m source filename false options rt
        else Val (rt, reply (tftp_err_packet IllegalOp (bs "unsupported request from " ++ client)))
      end.

(** A packet for a transfer: it leaves the table when it is finished. *)
Definition transfer_packet (id : Z) (t : TftpTransfer) (data : list u8) (rt : TftpRuntime) : outcome (TftpRuntime * list Sent) :=
  let# (finished, files, t, sent) := process_transfer_packet (en_fs env) (en_now env) (rt_files rt) t data in
  Val (mkRuntime (if finished then delete id (rt_transfers rt) else <[id := t]> (rt_transfers rt)) (rt_next_id rt) files, sent).

Definition handle_listener_datagram (l : TftpListenerHandle) (m : RecvMeta) (data : list u8) (rt : TftpRuntime)
  : outcome (TftpRuntime * list Sent) :=
  if tc_single_port c && (2 <=? length data)%nat then
    match List.find (fun e => bool_decide (ss_peer (t_session (snd e)) = rm_src m)) (transfer_order (rt_transfers rt)) with
    | Some (id, t) =>
      if of_be (take 2 data) =? opcode_u16 Rrq
      then handle_new_request l m data (mkRuntime (delete id (rt_transfers rt)) (rt_next_id rt) (rt_files rt))
      else transfer_packet id t data rt
    | None =>
      if effective_max c <=? Z.of_nat (size (rt_transfers rt)) then Val (rt, []) else handle_new_request l m data rt
    end
  else handle_new_request l m data rt.

(** One transfer at a tick: whether it ends. *)
Definition sweep_transfer (files : Files) (t : TftpTransfer) : outcome (bool * Files * TftpTransfer * list Sent) :=
  match t_start t with
  | None => Val (true, files, t, [])
  | Some start =>
    if TFTP_TRANSFER_TIME_SECS * NANOS <? en_now env - start then
      let# (_, files, t) := get_block (en_fs env) files t in Val (true, files, t, [])
    else if t_retransmit t <=? en_now env then
      let# (endcon, _, files, t, sent) := send_next (en_fs env) files t in Val (endcon, files, t, sent)
    else Val (false, files, t, [])
  end.

Fixpoint sweep_loop (l : list (Z * TftpTransfer)) (rt : TftpRuntime) : outcome (TftpRuntime * list Sent) :=
  match l with
  | [] => Val (rt, [])
  | (id, t) :: rest =>
    let# (ended, files, t, sent) := sweep_transfer (rt_files rt) t in
    let# (rt, later) := sweep_loop rest (mkRuntime (if ended then delete id (rt_transfers rt) else <[id := t]> (rt_transfers rt)) (rt_next_id rt) files) in
    Val (rt, sent ++ later)
  end.
Definition sweep_transfers (rt : TftpRuntime) : outcome (TftpRuntime * list Sent) := sweep_loop (transfer_order (rt_transfers rt)) rt.

Inductive TftpEvent : Type :=
| Listener (l : TftpListenerHandle) (m : RecvMeta) (data : list u8)
| Transfer (id : Z) (peer : MySockAddr) (data : list u8)
| Tick.

(** One turn of [run_tftp_loop]. *)
Definition tftp_event (ev : TftpEvent) (rt : TftpRuntime) : outcome (TftpRuntime * list Sent) :=
  match ev with
  | Listener l m data => handle_listener_datagram l m data rt
  | Transfer id peer data =>
    match rt_transfers rt !! id with
    | None => Val (rt, [])
    | Some t =>
      if negb (bool_decide (peer = ss_peer (t_session t))) then
        Val (rt, [send_packet_to (t_session t) peer
                    (tftp_err_packet UnknownTransferId (bs "ignoring packet from " ++ sockaddr_text peer ++ bs " (TID mismatch)"))])
      else transfer_packet id t data rt
    end
  | Tick => sweep_transfers rt
  end.
End Server.
