(* ===== verification/TftpSpec.v ===== *)
(** * What the TFTP server delivers

    The blocks of a transfer are the blocks of the file, or of the file with
    its line ends converted; the invariant of the running server; and a whole
    download by a client that acknowledges what it receives. *)

From Stdlib Require Import ZArith Lia String.
From stdpp Require Import base numbers list option gmap sets.
From S2P Require Import Prelude Types StdText Tftp TftpServer.

#[local] Open Scope Z_scope.

(** ** Netascii

    A line feed becomes CR LF; [cr] says that the CR of the first byte has been
    sent already. *)

Fixpoint crlf (cr : bool) (s : list u8) : list u8 :=
  match s with
  | [] => []
  | b :: rest => (if bool_decide (b = newline) && negb cr then [CR; b] else [b]) ++ crlf false rest
  end.

(** What fits into [n] bytes, the number of bytes inserted and whether the last
    of them is a CR without its LF. *)
Fixpoint emit (n : nat) (cr : bool) (r : list u8) : list u8 * nat * bool :=
  match n, r with
  | O, _ | _, [] => ([], O, false)
  | S n', b :: rest =>
    if bool_decide (b = newline) && negb cr then
      match n' with
      | O => ([CR], 1%nat, true)
      | S n'' => let '(o, e, c) := emit n'' false rest in (CR :: b :: o, S e, c)
      end
    else let '(o, e, c) := emit n' false rest in (b :: o, e, c)
  end.

Lemma emit_ind (P : nat -> bool -> list u8 -> Prop) :
  (forall cr r, P O cr r) -> (forall n cr, P n cr []) ->
  (forall cr b r, bool_decide (b = newline) && negb cr = true -> P 1%nat cr (b :: r)) ->
  (forall n cr b r, bool_decide (b = newline) && negb cr = true -> P n false r -> P (S (S n)) cr (b :: r)) ->
  (forall n cr b r, bool_decide (b = newline) && negb cr = false -> P n false r -> P (S n) cr (b :: r)) ->
  forall n cr r, P n cr r.
Proof.
  intros H0 Hn H1 H2 H3 n. induction n as [n IH] using lt_wf_ind. intros cr r.
  destruct n as [|n]; [apply H0|]. destruct r as [|b r]; [apply Hn|].
  destruct (bool_decide (b = newline) && negb cr) eqn:E; [|by apply H3; [|apply IH; lia]].
  destruct n as [|n]; [by apply H1|]. apply H2; [done|]. apply IH. lia.
Qed.

Lemma emit_take n cr r : forall m, (n <= m)%nat -> emit n cr (take m r) = emit n cr r.
Proof.
  induction n, cr, r as [|n cr|cr b r E|n cr b r E IH|n cr b r E IH] using emit_ind; intros m Hm;
    [done|by rewrite take_nil| | |]; (destruct m as [|m]; [lia|]); cbn [take emit]; rewrite E; [done|..]; rewrite IH by lia; done.
Qed.

Lemma emit_spec n cr r : let '(o, e, c) := emit n cr r in
  o = take n (crlf cr r) /\ (e <= n)%nat /\
  (length o = n -> (0 < n)%nat \/ cr = false -> drop n (crlf cr r) = crlf c (drop (n - e) r) /\ (n - e <= length r)%nat) /\
  (length o < n -> c = false /\ (length r + e = length o)%nat)%nat.
Proof.
  induction n, cr, r as [cr r|n cr|cr b r E|n cr b r E IH|n cr b r E IH] using emit_ind; cbn [emit crlf].
  - split_and!; [done|lia| |by intros ?%Nat.nlt_0_r]. intros _ [? | -> ]; [lia|]. split; [done|lia].
  - rewrite take_nil, drop_nil. assert (emit n cr [] = ([], 0%nat, false)) as -> by (by destruct n).
    split_and!; [done|lia| |done]. cbn [length]. intros <- _. split; [done|lia].
  - rewrite E. cbn [app take length drop Nat.sub]. apply andb_true_iff in E as [->%bool_decide_eq_true _]. split_and!; [done|lia| |by intros ?%Nat.lt_irrefl].
    intros _ _. split; [done|cbn; lia].
  - rewrite E. destruct (emit n false r) as [[o e] c]. destruct IH as (-> & He & Hf & Hs). cbn [app take]. split_and!; [done|lia| |].
    + cbn [length]. intros Hl _. cbn [drop]. replace (S (S n) - S e)%nat with (S (n - e))%nat by lia. cbn [drop length].
      destruct Hf as [-> ?]; [lia|by right|]. split; [done|lia].
    + cbn [length]. intros Hl. destruct Hs as [-> ?]; [lia|]. split; [done|lia].
  - rewrite E. destruct (emit n false r) as [[o e] c]. destruct IH as (-> & He & Hf & Hs). cbn [app take]. split_and!; [done|lia| |].
    + cbn [length]. intros Hl _. cbn [drop]. replace (S n - e)%nat with (S (n - e))%nat by lia. cbn [drop length].
      destruct Hf as [-> ?]; [lia|by right|]. split; [done|lia].
    + cbn [length]. intros Hl. destruct Hs as [-> ?]; [lia|]. split; [done|lia].
Qed.

(** Shifting the buffer makes room for the CR. *)
Lemma shift_insert (buf pre : list u8) size size' tl : let i := length pre in
  take size buf = pre ++ tl -> (i < size <= size')%nat -> (size' <= S size)%nat -> (size' <= length buf)%nat ->
  let buf' := <[i := CR]> (take (S i) buf ++ take (size' - 1 - i) (drop i buf) ++ drop size' buf) in
  length buf' = length buf /\ take size' buf' = pre ++ CR :: take (size' - 1 - i) tl.
Proof.
  intros i Ht Hi Hs Hl buf'. assert (take i buf = pre) as Hp.
  { transitivity (take i (take size buf)); [rewrite take_take; f_equal; lia|]. rewrite Ht. apply take_app_length. }
  assert (take (size' - 1 - i) (drop i buf) = take (size' - 1 - i) tl) as Hd.
  { transitivity (take (size' - 1 - i) (drop i (take size buf))); [|by rewrite Ht; unfold i; rewrite drop_app_length].
    rewrite skipn_firstn_comm, take_take. f_equal. lia. }
  split; [unfold buf'; rewrite length_insert, !length_app, !length_take, !length_drop; lia|].
  assert (exists b, take (S i) buf = pre ++ [b]) as [b Hb].
  { destruct (lookup_lt_is_Some_2 buf i) as [b Hb]; [lia|]. exists b. rewrite (take_S_r _ _ b) by done. by rewrite Hp. }
  unfold buf'. rewrite Hb, <- app_assoc. unfold i at 1. rewrite <- (Nat.add_0_r (length pre)), insert_app_r. cbn [insert list_insert app].
  rewrite app_comm_cons, app_assoc, take_app_length'; [by rewrite Hd|].
  rewrite length_app. cbn [length]. rewrite length_take, length_drop. fold i. lia.
Qed.

(** What the loop writes from position [length pre] on, with [pre] behind it and
    [r] in front, is what [emit] says. *)
Definition loop_emits (bsize : nat) (last : bool) (fuel : nat) : Prop := forall pre r buf expansion,
  let i := length pre in
  let size := Nat.min bsize (i + length r) in
  (i <= bsize)%nat -> (bsize - i < fuel)%nat -> length buf = bsize -> take size buf = pre ++ take (bsize - i) r ->
  exists buf' size', let '(o, e, c) := emit (bsize - i) ((i =? 0)%nat && last) r in
    expand_loop fuel bsize last i size buf expansion false = Val (buf', size', expansion + Z.of_nat e, c) /\ take size' buf' = pre ++ o.

Lemma expand_plain bsize last fuel pre b r buf expansion n : loop_emits bsize last fuel ->
  (bsize - length pre = S n)%nat -> (n < fuel)%nat -> length buf = bsize ->
  take (Nat.min bsize (length pre + S (length r))) buf = pre ++ b :: take n r ->
  exists buf' size', let '(o, e, c) := emit n false r in
    expand_loop fuel bsize last (length pre + 1) (Nat.min bsize (length pre + S (length r))) buf expansion false
      = Val (buf', size', expansion + Z.of_nat e, c) /\ take size' buf' = pre ++ b :: o.
Proof.
  intros IH En Hf Hb Ht. destruct (IH (pre ++ [b]) r buf expansion) as (buf' & size' & He);
    rewrite ?length_app; cbn [length]; [lia..| |].
  - replace (Nat.min bsize (length pre + 1 + length r)) with (Nat.min bsize (length pre + S (length r))) by lia.
    replace (bsize - (length pre + 1))%nat with n by lia. by rewrite <- app_assoc.
  - exists buf', size'. rewrite length_app in He. cbn [length] in He.
    replace (Nat.min bsize (length pre + 1 + length r)) with (Nat.min bsize (length pre + S (length r))) in He by lia.
    replace (bsize - (length pre + 1))%nat with n in He by lia.
    replace (length pre + 1 =? 0)%nat with false in He by (symmetry; apply Nat.eqb_neq; lia). cbn [andb] in He.
    destruct (emit n false r) as [[o e] c]. by rewrite <- app_assoc in He.
Qed.

(** An inserted CR with room for its LF. *)
Lemma expand_insert bsize last fuel pre b r buf expansion n size size' : loop_emits bsize last fuel -> let i := length pre in
  size = Nat.min bsize (i + S (length r)) -> size' = (if (size =? bsize)%nat then size else S size) ->
  (bsize - i = S (S n))%nat -> (n < fuel)%nat -> length buf = bsize -> take size buf = pre ++ b :: take (S n) r ->
  exists buf' size'', let '(o, e, c) := emit n false r in
    expand_loop fuel bsize last (i + 2) size' (<[i := CR]> (take (S i) buf ++ take (size' - 1 - i) (drop i buf) ++ drop size' buf))
      (expansion + 1) false = Val (buf', size'', expansion + Z.of_nat (S e), c) /\ take size'' buf' = pre ++ CR :: b :: o.
Proof.
  intros IH i Hs Hs' En Hf Hb Ht.
  assert (size' = Nat.min bsize (i + 2 + length r)) as Hm by (rewrite Hs'; destruct (Nat.eqb_spec size bsize); lia).
  assert (i < size <= size' /\ size' <= S size /\ size' <= bsize)%nat as (Hs1 & Hs2 & Hs3) by (rewrite Hs'; destruct (Nat.eqb_spec size bsize); lia).
  destruct (shift_insert buf pre size size' _ Ht Hs1 Hs2) as [Hl1 Hl2]; [lia|]. fold i in Hl1, Hl2. cbv zeta in Hl1, Hl2.
  set (buf1 := <[i := CR]> _) in *. destruct (IH (pre ++ [CR; b]) r buf1 (expansion + 1)) as (buf' & size'' & He);
    rewrite ?length_app; cbn [length]; fold i; [lia..| |].
  { rewrite <- Hm, Hl2, <- app_assoc. cbn [app]. replace (size' - 1 - i)%nat with (S (size' - 2 - i)) by lia. cbn [take]. rewrite take_take.
    do 3 f_equal. replace (bsize - (i + 2))%nat with n by lia. destruct (decide (length r <= n)%nat); [by rewrite !take_ge by lia|f_equal; lia]. }
  exists buf', size''. rewrite length_app in He. cbn [length] in He. fold i in He. rewrite <- Hm in He.
  replace (bsize - (i + 2))%nat with n in He by lia. replace (i + 2 =? 0)%nat with false in He by (symmetry; apply Nat.eqb_neq; lia). cbn [andb] in He.
  destruct (emit n false r) as [[o e] c]. rewrite <- app_assoc in He. cbn [app] in He. destruct He as [-> ->].
  split; [|done]. do 3 f_equal; lia.
Qed.

Lemma expand_loop_emit bsize last fuel : loop_emits bsize last fuel.
Proof.
  induction fuel as [|fuel IH]; intros pre r buf expansion i size Hi Hf Hb Ht; [lia|]. cbn [expand_loop].
  destruct (Nat.leb_spec size i) as [Hd|Hd].
  { exists buf, size. assert (bsize - i = 0 \/ r = [])%nat as Hr by (destruct r; [by right|left; cbn [length] in *; lia]).
    assert (emit (bsize - i) ((i =? 0)%nat && last) r = ([], 0%nat, false)) as -> by (by destruct Hr as [-> | ->]; [|destruct (bsize - i)%nat]).
    rewrite Z.add_0_r, app_nil_r. split; [done|]. rewrite Ht. by destruct Hr as [-> | ->]; rewrite ?take_nil, app_nil_r. }
  destruct r as [|b r]; [cbn [length] in *; lia|]. destruct (bsize - i)%nat as [|n] eqn:En; [lia|]. cbn [take] in Ht. cbn [length] in *.
  assert (buf !! i = Some b) as ->.
  { rewrite <- (lookup_take_lt buf size) by lia. rewrite Ht, lookup_app_r by done. by rewrite Nat.sub_diag. }
  cbn [emit]. replace (negb (i =? 0)%nat || negb last) with (negb ((i =? 0)%nat && last)) by (by destruct (i =? 0)%nat).
  destruct (bool_decide (b = newline) && negb ((i =? 0)%nat && last)) eqn:Eb.
  2: { destruct (expand_plain bsize last fuel pre b r buf expansion n IH En ltac:(lia) Hb Ht) as (buf' & size' & He). exists buf', size'.
       by destruct (emit n false r) as [[o e] c]. }
  rewrite (proj2 (Nat.leb_le (if (size =? bsize)%nat then size else S size) _)) by (destruct (Nat.eqb_spec size bsize); lia).
  destruct n as [|n].
  - destruct (shift_insert buf pre size size _ Ht) as [_ Hl]; [lia..|]. fold i in Hl. cbv zeta in Hl.
    assert (size = bsize /\ i = bsize - 1)%nat as [E1 E2] by lia. rewrite (proj2 (Nat.eqb_eq size bsize)), (proj2 (Nat.eqb_eq i (size - 1))) by lia.
    eexists _, size. split; [|by rewrite Hl; replace (size - 1 - i)%nat with 0%nat by lia].
    destruct fuel; cbn [expand_loop orb]; [done|]. by rewrite (proj2 (Nat.leb_le size (i + 2))) by lia.
  - destruct (expand_insert bsize last fuel pre b r buf expansion n size _ IH eq_refl eq_refl En ltac:(lia) Hb Ht) as (buf' & size'' & He).
    exists buf', size''. replace (if (size =? bsize)%nat then (i =? size - 1)%nat || false else false) with false.
    2: { destruct (Nat.eqb_spec size bsize); [|done]. rewrite orb_false_r. symmetry. apply Nat.eqb_neq. lia. }
    destruct (emit n false r) as [[o e] c]. exact He.
Qed.

Lemma netascii_expand_emit raw bsize last : (length raw <= bsize)%nat ->
  netascii_expand raw bsize last = let '(o, e, c) := emit bsize last raw in Val (o, Z.of_nat e, c).
Proof.
  intros Hl. unfold netascii_expand. rewrite Nat.max_l by done.
  destruct (expand_loop_emit bsize last (S bsize) [] raw (raw ++ replicate (bsize - length raw) Byte.x00) 0) as (buf' & size' & He);
    cbn [length] in *; [lia|lia|rewrite length_app, length_replicate; lia| |].
  { rewrite Nat.sub_0_r, Nat.add_0_l, Nat.min_r by done. rewrite take_app_length. cbn. by rewrite take_ge by done. }
  rewrite Nat.add_0_l, Nat.min_r, Nat.sub_0_r in He by done. cbn [Nat.eqb andb] in He.
  destruct (emit bsize last raw) as [[o e] c]. destruct He as [-> ->]. done.
Qed.

(** One block of a netascii transfer: the next [bsize] bytes of what is left of
    the converted file, and what is left after it. *)
Lemma netascii_block content offset last bsize : (0 < bsize)%nat ->
  exists e c, netascii_expand (take bsize (drop offset content)) bsize last = Val (take bsize (crlf last (drop offset content)), Z.of_nat e, c) /\
    (e <= bsize)%nat /\
    ((bsize <= length (crlf last (drop offset content)))%nat ->
     drop bsize (crlf last (drop offset content)) = crlf c (drop (offset + (bsize - e)) content) /\ (bsize - e <= length (drop offset content))%nat) /\
    ((length (crlf last (drop offset content)) < bsize)%nat -> (length (drop offset content) < bsize - e)%nat).
Proof.
  intros Hb. rewrite netascii_expand_emit by (rewrite length_take; lia). rewrite emit_take by done.
  pose proof (emit_spec bsize last (drop offset content)) as He. destruct (emit _ _ _) as [[o e] c]. destruct He as (-> & He & Hf & Hs).
  rewrite length_take in *. exists e, c. split_and!; [done|done| |].
  - intros Hl. destruct Hf as [Hf ?]; [lia|by left|]. rewrite Hf, drop_drop. split; [|done]. do 2 f_equal. 
  - intros Hl. destruct Hs as [_ ?]; [lia|]. lia.
Qed.

Lemma netascii_expand_total s bsize last :
  exists d e c, netascii_expand (take bsize s) bsize last = Val (d, Z.of_nat e, c) /\ (e <= bsize)%nat.
Proof.
  rewrite netascii_expand_emit by (rewrite length_take; lia). pose proof (emit_spec bsize last (take bsize s)) as He.
  destruct (emit _ _ _) as [[o e] c]. exists o, e, c. by split; [|apply He].
Qed.

Lemma emit_half n cr r : let '(_, e, _) := emit n cr r in (2 * e <= S n)%nat.
Proof.
  induction n, cr, r as [cr r|n cr|cr b r E|n cr b r E IH|n cr b r E IH] using emit_ind; cbn [emit]; rewrite ?E; [cbn; lia|destruct n; cbn; lia|cbn; lia|..];
    destruct (emit n false r) as [[o e] c]; lia.
Qed.

(** ** Blocks of a file that does not change *)

Section Deliver.
Context (content : FileId -> list u8).

(** Reading gives the bytes of the file. *)
Record stable (fs : FileSystem) : Prop := {
  st_seek : forall id pos, fs_seek fs id pos = None;
  st_read : forall id pos n, 0 <= pos -> (Z.to_nat pos + n <= length (content id))%nat ->
    fs_read fs id pos n = Ok (take n (drop (Z.to_nat pos) (content id)));
}.
(** The position the code remembers is the position of the file. *)
Definition file_ok (f : TftpFile) : Prop := tf_size f = Z.of_nat (length (content (tf_id f))) /\ tf_fdpos f = tf_posn f.
Definition files_ok (files : Files) : Prop := forall r f, files !! r = Some f -> file_ok f.
Definition file_name (f : TftpFile) : FileId * str := (tf_id f, tf_filename f).
Definition same_names (files files' : Files) : Prop := forall r, file_name <$> files !! r = file_name <$> files' !! r.

Lemma read_file_ok fs f offset bsize : stable fs -> file_ok f -> 0 <= offset <= tf_size f -> 0 <= bsize ->
  exists f', read_file fs f offset (Z.to_nat (Z.min (tf_size f - offset) bsize))
      = (Ok (take (Z.to_nat bsize) (drop (Z.to_nat offset) (content (tf_id f)))), f') /\ file_ok f' /\ file_name f' = file_name f.
Proof.
  intros [Hs Hr] [Hz Hp] Ho Hb. unfold read_file. set (n := Z.to_nat (Z.min _ _)).
  assert (take (Z.to_nat bsize) (drop (Z.to_nat offset) (content (tf_id f))) = take n (drop (Z.to_nat offset) (content (tf_id f)))) as ->.
  { unfold n. destruct (Z.min_spec (tf_size f - offset) bsize) as [[? ->]|[? ->]]; [|done].
    rewrite !take_ge; [done|rewrite length_drop; lia..]. }
  destruct (Nat.eqb_spec n 0) as [->|Hn]; [by exists f|]. rewrite Hs, Hp.
  replace (if tf_posn f =? offset then None else None) with (@None str) by (by destruct (tf_posn f =? offset)).
  replace (if tf_posn f =? offset then tf_posn f else offset) with offset by (by destruct (Z.eqb_spec (tf_posn f) offset)).
  rewrite Hr by (unfold n in *; lia). eexists. split; [done|]. done.
Qed.

(** The bytes the client is to receive. *)
Definition stream (ascii : bool) (s : list u8) : list u8 := if ascii then crlf false s else s.
(** Block [k] of them, from 1. *)
Definition chunk (bsize k : Z) (s : list u8) : list u8 := take (Z.to_nat bsize) (drop (Z.to_nat ((k - 1) * bsize)) s).
Definition zlen {A} (l : list A) : Z := Z.of_nat (length l).

(** A netascii transfer stands where block [k] begins, or behind the end. *)
Definition positioned (t : TftpTransfer) (k : Z) (s : list u8) : Prop := netascii t = true -> 0 <= t_offset t /\
  ((k - 1) * blocksize t <= zlen (crlf false s) ->
     t_offset t <= zlen s /\ crlf (t_lastcarrylf t) (drop (Z.to_nat (t_offset t)) s) = drop (Z.to_nat ((k - 1) * blocksize t)) (crlf false s)) /\
  (zlen (crlf false s) < (k - 1) * blocksize t -> zlen s < t_offset t).

(** The bytes read ahead are those of their offset. *)
Definition expands (t : TftpTransfer) (s data : list u8) : Prop :=
  netascii_expand (take (Z.to_nat (blocksize t)) (drop (Z.to_nat (t_offset t)) s)) (Z.to_nat (blocksize t)) (t_lastcarrylf t)
    = Val (data, t_expansion t, t_carrylf t).
Definition cached (t : TftpTransfer) (s : list u8) : Prop := forall off data, t_prefetch t = Some (off, data) -> 0 <= off /\
  if netascii t then off <= t_offset t /\ (off = t_offset t -> expands t s data)
  else data = take (Z.to_nat (blocksize t)) (drop (Z.to_nat off) s).

(** What [get_block] leaves alone. *)
Definition same_session (t t' : TftpTransfer) : Prop :=
  t_session t' = t_session t /\ t_backoff t' = t_backoff t /\ t_start t' = t_start t /\ t_retransmit t' = t_retransmit t /\
  t_block t' = t_block t /\ t_lastack t' = t_lastack t /\ t_ackprev t' = t_ackprev t /\ t_block_hi t' = t_block_hi t /\
  t_lastcarrylf t' = t_lastcarrylf t /\ (netascii t = true -> t_offset t' = t_offset t).

Definition block_result (t : TftpTransfer) (k : Z) (s : list u8) : GetBlockResult :=
  let s' := stream (netascii t) s in
  if (k - 1) * blocksize t <=? zlen s' then Data (build_data (as_u16 (t_block t)) (chunk (blocksize t) k s')) else Done.

Record got_block (fs : FileSystem) (files : Files) (t : TftpTransfer) (k : Z) (f : TftpFile) (files' : Files) (t' : TftpTransfer) : Prop := {
  gb_result : get_block fs files t = Val (Ok (block_result t k (content (tf_id f))), files', t');
  gb_files : files_ok files';
  gb_names : same_names files files';
  gb_session : same_session t t';
  gb_cached : cached t' (content (tf_id f));
  gb_expands : netascii t = true -> (k - 1) * blocksize t <= zlen (crlf false (content (tf_id f))) ->
    expands t' (content (tf_id f)) (chunk (blocksize t) k (crlf false (content (tf_id f))));
}.

Lemma same_names_refl files : same_names files files.
Proof. by intros r. Qed.
Lemma same_names_insert files r f f' : files !! r = Some f -> file_name f' = file_name f -> same_names files (<[r := f']> files).
Proof.
  intros Hr Hf r0. destruct (decide (r0 = r)) as [->|Hn]; [|by rewrite lookup_insert_ne].
  rewrite lookup_insert_eq, Hr. cbn. by rewrite Hf.
Qed.
Lemma files_ok_insert files r f : files_ok files -> file_ok f -> files_ok (<[r := f]> files).
Proof. intros Hf Hok r0 f0. rewrite lookup_insert_Some. intros [[_ <-]|[_ H]]; [done|by eapply Hf]. Qed.
Lemma same_session_refl t : same_session t t.
Proof. by repeat split. Qed.

Lemma cached_octet t s : netascii t = false ->
  cached t s <-> forall off data, t_prefetch t = Some (off, data) -> 0 <= off /\ data = take (Z.to_nat (blocksize t)) (drop (Z.to_nat off) s).
Proof. intros Ha. unfold cached. by rewrite Ha. Qed.

Lemma positioned_chunk t k s : netascii t = true -> 0 < blocksize t -> positioned t k s -> (k - 1) * blocksize t <= zlen (crlf false s) ->
  t_offset t <= zlen s /\ 0 <= t_offset t /\ exists e c,
  netascii_expand (take (Z.to_nat (blocksize t)) (drop (Z.to_nat (t_offset t)) s)) (Z.to_nat (blocksize t)) (t_lastcarrylf t)
    = Val (chunk (blocksize t) k (crlf false s), e, c).
Proof.
  intros Ha Hb Hp Hk. destruct (Hp Ha) as (H0 & H1 & _). destruct (H1 Hk) as [Hz Hc].
  destruct (netascii_block s (Z.to_nat (t_offset t)) (t_lastcarrylf t) (Z.to_nat (blocksize t))) as (e & c & He & _); [lia|].
  split_and!; [done|done|]. eexists _, c. rewrite He, Hc. done.
Qed.

Lemma get_block_octet fs files t k f : stable fs -> files_ok files -> files !! ss_file (t_session t) = Some f -> 0 <= blocksize t -> 1 <= k ->
  t_block t = k -> netascii t = false -> cached t (content (tf_id f)) -> exists files' t', got_block fs files t k f files' t'.
Proof.
  intros Hst Hf Hr Hb Hk Ht Ha Hc. pose proof (Hf _ _ Hr) as Hok.
  assert (0 <= (k - 1) * blocksize t) as Ho by nia. set (t1 := put_offset ((k - 1) * blocksize t) t).
  assert (get_block fs files t = (if tf_size f <? t_offset t1 then Val (Ok Done, files, t1) else match prefetched t1 with
    | Some data => Val (Ok (Data (build_data (as_u16 k) data)), files, t1)
    | None => let '(res, f) := read_file fs f (t_offset t1) (Z.to_nat (Z.min (tf_size f - t_offset t1) (blocksize t))) in
       match res with
       | Err e => Val (Err e, <[ss_file (t_session t) := f]> files, put_prefetch None t1)
       | Ok raw => Val (Ok (Data (build_data (as_u16 k) raw)), <[ss_file (t_session t) := f]> files, put_prefetch (Some (t_offset t1, raw)) (put_prefetch None t1))
       end end)) as Hg.
  { unfold get_block. rewrite Ht, Ha. rewrite (proj2 (Z.eqb_neq k 0)) by lia. rewrite (lookup_total_correct _ _ _ Hr). fold t1.
    destruct (tf_size f <? t_offset t1); [done|]. replace (t_block t1) with k by (by cbn). destruct (prefetched t1); [done|].
    cbv zeta. change (t_offset (put_prefetch None t1)) with (t_offset t1). change (blocksize (put_prefetch None t1)) with (blocksize t).
    change (netascii (put_prefetch None t1)) with (netascii t). rewrite Ha. change (t_block (put_prefetch None t1)) with (t_block t). rewrite Ht.
    by destruct (read_file _ _ _ _) as [[|] ?]. }
  assert (same_session t t1) as Hs1 by (unfold t1; repeat split; congruence). destruct Hok as [Hz Hp]. rewrite cached_octet in Hc by done.
  assert (cached t1 (content (tf_id f))) as Hc1 by (apply cached_octet; done).
  destruct (Z.ltb_spec (tf_size f) (t_offset t1)) as [Hd|Hd].
  { exists files, t1. split; [|done|apply same_names_refl|done|done|congruence].
    unfold block_result. rewrite Ha. unfold stream, zlen. rewrite (proj2 (Z.leb_gt _ _)) by (rewrite <- Hz; exact Hd). done. }
  assert (block_result t k (content (tf_id f)) = Data (build_data (as_u16 k) (chunk (blocksize t) k (content (tf_id f))))) as Hres.
  { unfold block_result. rewrite Ha, Ht. unfold stream, zlen. by rewrite (proj2 (Z.leb_le _ _)) by (rewrite <- Hz; exact Hd). }
  destruct (prefetched t1) as [data|] eqn:Ep.
  - exists files, t1. split; [|done|apply same_names_refl|done|done|congruence].
    rewrite Hg, Hres. do 6 f_equal. unfold prefetched in Ep. destruct (t_prefetch t1) as [[off d]|] eqn:E; [|done].
    destruct (Z.eqb_spec off (t_offset t1)) as [->|]; [|done]. injection Ep as ->. by apply Hc in E as [_ E].
  - destruct (read_file_ok fs f (t_offset t1) (blocksize t)) as (f' & Er & Hok' & Hn'); [done|done| |lia|]; [split; [done|lia]|].
    rewrite Er in Hg. eexists _, _. split; [rewrite Hg, Hres; reflexivity|by apply files_ok_insert|by eapply same_names_insert|done| |congruence].
    apply cached_octet; [done|]. by intros off d [= <- <-].
Qed.
(** The same for a netascii transfer that stands at block [k], whatever number it bears. *)
Lemma get_block_ascii fs files t k f : stable fs -> files_ok files -> files !! ss_file (t_session t) = Some f -> 0 < blocksize t ->
  1 <= t_block t -> netascii t = true -> cached t (content (tf_id f)) -> positioned t k (content (tf_id f)) ->
  exists files' t', got_block fs files t k f files' t'.
Proof.
  intros Hst Hf Hr Hb Hk Ha Hc Hp. pose proof (Hf _ _ Hr) as Hok. pose proof (proj1 Hok) as Hz. set (s := content (tf_id f)) in *.
  destruct (Z_lt_le_dec (zlen (crlf false s)) ((k - 1) * blocksize t)) as [Hd|Hd].
  { destruct (Hp Ha) as (_ & _ & H2). specialize (H2 Hd). exists files, t. split; [|done|apply same_names_refl|apply same_session_refl|done|intros _ Hx; fold s in Hx; lia].
    unfold get_block, block_result. rewrite Ha, (proj2 (Z.eqb_neq (t_block t) 0)) by lia. rewrite (lookup_total_correct _ _ _ Hr).
    rewrite (proj2 (Z.ltb_lt _ _)) by (rewrite Hz; exact H2). by rewrite (proj2 (Z.leb_gt _ _)). }
  assert (block_result t k s = Data (build_data (as_u16 (t_block t)) (chunk (blocksize t) k (crlf false s)))) as Hres.
  { unfold block_result. rewrite Ha. unfold stream. by rewrite (proj2 (Z.leb_le _ _)). }
  destruct (positioned_chunk t k s Ha Hb Hp Hd) as (Ho & Ho0 & e & c & He).
  assert (get_block fs files t = match prefetched t with
    | Some data => Val (Ok (Data (build_data (as_u16 (t_block t)) data)), files, t)
    | None => let '(res, f) := read_file fs f (t_offset t) (Z.to_nat (Z.min (tf_size f - t_offset t) (blocksize t))) in
       match res with
       | Err e => Val (Err e, <[ss_file (t_session t) := f]> files, put_prefetch None t)
       | Ok raw => let# (d, e, c) := netascii_expand raw (Z.to_nat (blocksize t)) (t_lastcarrylf t) in
           Val (Ok (Data (build_data (as_u16 (t_block t)) d)), <[ss_file (t_session t) := f]> files,
                put_prefetch (Some (t_offset t, d)) (put_expansion e c (put_prefetch None t)))
       end end) as Hg.
  { unfold get_block. rewrite Ha, (proj2 (Z.eqb_neq (t_block t) 0)) by lia. rewrite (lookup_total_correct _ _ _ Hr).
    rewrite (proj2 (Z.ltb_ge _ _)) by (rewrite Hz; exact Ho). destruct (prefetched t); [done|]. cbv zeta.
    change (netascii (put_prefetch None t)) with (netascii t). rewrite Ha. change (t_block (put_prefetch None t)) with (t_block t).
    change (blocksize (put_prefetch None t)) with (blocksize t). change (t_lastcarrylf (put_prefetch None t)) with (t_lastcarrylf t).
    change (t_offset (put_prefetch None t)) with (t_offset t).
    destruct (read_file _ _ _ _) as [[raw|] f']; [|done]. destruct (netascii_expand raw _ _) as [[[d e'] c']|]; reflexivity. }
  destruct (prefetched t) as [data|] eqn:Ep.
  - unfold prefetched in Ep. destruct (t_prefetch t) as [[off d]|] eqn:E; [|done].
    destruct (Z.eqb_spec off (t_offset t)) as [->|]; [|done]. injection Ep as ->. destruct (Hc _ _ E) as [_ Hx]. rewrite Ha in Hx.
    destruct Hx as [_ Hx]. specialize (Hx eq_refl). assert (data = chunk (blocksize t) k (crlf false s)) as ->.
    { unfold expands in Hx. rewrite He in Hx. by injection Hx. }
    exists files, t. split; [rewrite Hg; fold s; by rewrite Hres|done|apply same_names_refl|apply same_session_refl|done|done].
  - destruct (read_file_ok fs f (t_offset t) (blocksize t)) as (f' & Er & Hok' & Hn'); [done|done|split; [done|by rewrite Hz]|lia|].
    fold s in Er. rewrite Er, He in Hg. eexists _, _.
    split; [rewrite Hg; fold s; rewrite Hres; reflexivity|by apply files_ok_insert|by eapply same_names_insert|done| |].
    + intros off d [= <- <-]. split; [done|]. change (netascii (put_prefetch _ _)) with (netascii t). rewrite Ha. done.
    + intros _ _. exact He.
Qed.

Lemma get_block_spec fs files t k f : stable fs -> files_ok files -> files !! ss_file (t_session t) = Some f -> 0 < blocksize t -> 1 <= k ->
  t_block t = k -> cached t (content (tf_id f)) -> positioned t k (content (tf_id f)) -> exists files' t', got_block fs files t k f files' t'.
Proof. intros. destruct (netascii t) eqn:Ha; [eapply get_block_ascii; by auto with lia|eapply get_block_octet; by auto with lia]. Qed.
(** ** Any transfer of the running server *)

Record transfer_ok (files : Files) (t : TftpTransfer) : Prop := {
  to_nums : 0 <= blocksize t /\ 0 <= t_block t /\ 0 <= t_lastack t /\
    (netascii t = true -> 0 <= t_offset t /\ 0 <= t_expansion t <= blocksize t);
  to_file : exists f, files !! ss_file (t_session t) = Some f /\ (netascii t = false -> cached t (content (tf_id f)));
}.

Definition opcode_of (p : list u8) : Z := of_be (take 2 p).
(** A data packet of an octet transfer is a block of its file. *)
Definition exact (files : Files) (s : Session) (p : list u8) : Prop :=
  opcode_of p = opcode_u16 DataOp -> exists f, files !! ss_file s = Some f /\ (ss_netascii s = false ->
    exists k, 1 <= k /\ p = build_data (as_u16 k) (chunk (ro_blocksize (ss_options s)) k (content (tf_id f)))).
Definition packet_of (r : GetBlockResult) : list u8 := match r with Oack p | Data p => p | Done => [] end.

Lemma lookup_names files files' r f : same_names files files' -> files !! r = Some f ->
  exists f', files' !! r = Some f' /\ tf_id f' = tf_id f /\ tf_filename f' = tf_filename f.
Proof.
  intros Hn Hr. specialize (Hn r). rewrite Hr in Hn. cbn in Hn. destruct (files' !! r) as [f'|]; [|done].
  exists f'. injection Hn as ? ?. by split_and!.
Qed.
Lemma exact_names files files' s p : same_names files files' -> exact files s p -> exact files' s p.
Proof.
  intros Hn He Ho. destruct (He Ho) as (f & Hf & Hk). destruct (lookup_names _ _ _ _ Hn Hf) as (f' & Hf' & Hi & _).
  exists f'. by rewrite Hi.
Qed.
Lemma transfer_ok_names files files' t : same_names files files' -> transfer_ok files t -> transfer_ok files' t.
Proof.
  intros Hn [Hnum (f & Hf & Hc)]. split; [done|]. destruct (lookup_names _ _ _ _ Hn Hf) as (f' & Hf' & Hi & _). exists f'. by rewrite Hi.
Qed.
Lemma same_names_trans a b c : same_names a b -> same_names b c -> same_names a c.
Proof. intros H1 H2 r. by rewrite (H1 r). Qed.

Record got_any (files : Files) (t : TftpTransfer) (res : GetBlockResult) (files' : Files) (t' : TftpTransfer) : Prop := {
  ga_files : files_ok files';
  ga_names : same_names files files';
  ga_ok : transfer_ok files' t';
  ga_session : same_session t t';
  ga_exact : exact files' (t_session t) (packet_of res);
}.
Lemma get_block_ascii_any fs files t f : stable fs -> files_ok files -> transfer_ok files t -> files !! ss_file (t_session t) = Some f ->
  netascii t = true -> t_block t <> 0 ->
  exists res files' t', get_block fs files t = Val (Ok res, files', t') /\ got_any files t res files' t'.
Proof.
  intros Hst Hf [(Hn1 & Hn2 & Hn3 & Hn4) Hfile] Hr Ha Hk. destruct (Hn4 Ha) as [Hn5 Hn6]. pose proof (Hf _ _ Hr) as Hok. unfold get_block.
  rewrite (proj2 (Z.eqb_neq _ _)), Ha, (lookup_total_correct _ _ _ Hr) by done.
  assert (forall files' f' p, files' !! ss_file (t_session t) = Some f' -> exact files' (t_session t) p) as Hex.
  { intros files' f' p Hf' _. exists f'. split; [done|]. unfold netascii in Ha. congruence. }
  assert (forall files' f' t', files' !! ss_file (t_session t) = Some f' -> same_session t t' ->
    0 <= t_expansion t' <= blocksize t -> transfer_ok files' t') as Hto.
  { intros files' f' t' Hf' (Es & _ & _ & _ & Eb & El & _ & _ & _ & Eo) He. specialize (Eo Ha).
    split; [unfold blocksize in *; rewrite Es, Eo, Eb, El; by auto|]. exists f'. unfold netascii in *. rewrite Es. split; [done|congruence]. }
  destruct (Z.ltb_spec (tf_size f) (t_offset t)) as [Hd|Hd].
  { exists Done, files, t. split; [done|]. split; [done|apply same_names_refl|done|apply same_session_refl|by eapply Hex]. }
  destruct (prefetched t) as [data|].
  { eexists _, files, t. split; [reflexivity|]. split; [done|apply same_names_refl|done|apply same_session_refl|by eapply Hex]. }
  cbv zeta. change (netascii (put_prefetch None t)) with (netascii t). rewrite Ha.
  change (blocksize (put_prefetch None t)) with (blocksize t). change (t_offset (put_prefetch None t)) with (t_offset t).
  change (t_lastcarrylf (put_prefetch None t)) with (t_lastcarrylf t).
  destruct (read_file_ok fs f (t_offset t) (blocksize t)) as (f' & Er & Hok' & Hn'); [done|done|lia|lia|]. rewrite Er.
  destruct (netascii_expand_total (drop (Z.to_nat (t_offset t)) (content (tf_id f))) (Z.to_nat (blocksize t)) (t_lastcarrylf t)) as (d & e & cr & He & Hle).
  rewrite He. eexists _, _, _. split; [reflexivity|]. split; [by apply files_ok_insert|by eapply same_names_insert| |done|eapply Hex; apply lookup_insert_eq].
  eapply Hto; [apply lookup_insert_eq|done|]. cbn. lia.
Qed.

Lemma not_data_exact files s p : opcode_of p <> 3 -> exact files s p.
Proof. by intros Hp ?. Qed.
Lemma get_block_any fs files t : stable fs -> files_ok files -> transfer_ok files t ->
  exists res files' t', get_block fs files t = Val (Ok res, files', t') /\ got_any files t res files' t'.
Proof.
  intros Hst Hf Hok. destruct (to_file _ _ Hok) as (f & Hr & Hc). destruct (Z.eq_dec (t_block t) 0) as [Hk|Hk].
  { unfold get_block. rewrite Hk. cbn [Z.eqb]. eexists _, files, t. split; [reflexivity|].
    split; [done|apply same_names_refl|done|apply same_session_refl|by apply not_data_exact]. }
  destruct (netascii t) eqn:Ha; [by eapply get_block_ascii_any|]. destruct Hok as [Hnum _].
  destruct (get_block_octet fs files t (t_block t) f) as (files' & t' & [Hg Hf' Hn Hs Hca _]); [done..|lia|lia|done|done|by apply Hc|].
  eexists _, files', t'. split; [exact Hg|]. destruct (lookup_names _ _ _ _ Hn Hr) as (f' & Hr' & Hi & _).
  split; [done|done| |done|].
  - destruct Hs as (Es & _ & _ & _ & Eb & El & _). unfold netascii in *.
    split; [unfold blocksize, netascii in *; rewrite Es, Eb, El; intuition congruence|]. exists f'. unfold netascii. by rewrite Es, Hi.
  - intros Ho. exists f'. split; [done|]. intros _. unfold block_result, stream in *. rewrite Ha in *. destruct (_ <=? _); [|done].
    exists (t_block t). rewrite Hi. split; [lia|done].
Qed.

(** *** What a call of the server does to one transfer *)

Definition sent_ok (files : Files) (s : Session) (x : Sent) : Prop := s_to x = ss_peer s /\ exact files s (s_bytes x).
Record sends (files : Files) (t : TftpTransfer) (files' : Files) (t' : TftpTransfer) (sent : list Sent) : Prop := {
  sn_files : files_ok files';
  sn_names : same_names files files';
  sn_ok : transfer_ok files' t';
  sn_session : t_session t' = t_session t;
  sn_sent : Forall (sent_ok files' (t_session t)) sent;
}.

Lemma sends_refl files t : files_ok files -> transfer_ok files t -> sends files t files t [].
Proof. intros. by split; [|apply same_names_refl|..|constructor]. Qed.
Lemma sent_ok_names files files' s l : same_names files files' -> Forall (sent_ok files s) l -> Forall (sent_ok files' s) l.
Proof. intros Hn Hl. eapply Forall_impl; [exact Hl|]. intros x [? He]. split; [done|by eapply exact_names]. Qed.
Lemma sends_trans files t files1 t1 sent1 files2 t2 sent2 :
  sends files t files1 t1 sent1 -> sends files1 t1 files2 t2 sent2 -> sends files t files2 t2 (sent1 ++ sent2).
Proof.
  intros [F1 N1 O1 S1 P1] [F2 N2 O2 S2 P2]. split; [done|by eapply same_names_trans|done|congruence|].
  apply Forall_app. split; [by eapply sent_ok_names|by rewrite <- S1].
Qed.
Lemma sends_got files t res files' t' sent : got_any files t res files' t' ->
  (forall x, x ∈ sent -> s_to x = ss_peer (t_session t) /\ s_bytes x = packet_of res) -> sends files t files' t' sent.
Proof.
  intros [F N O S E] Hs. split; [done..|by destruct S|]. apply Forall_forall. intros x Hx. destruct (Hs x Hx) as [H1 H2]. split; [done|by rewrite H2].
Qed.
(** Fields a transfer's claims do not depend on. *)
Lemma transfer_ok_block files t b : transfer_ok files t -> 0 <= b -> transfer_ok files (put_block b t).
Proof. intros [(H1 & H2 & H3 & H4) Hf] Hb. by split. Qed.
Lemma sends_block files t b : files_ok files -> transfer_ok files t -> 0 <= b -> sends files t files (put_block b t) [].
Proof. intros. split; [done|apply same_names_refl|by apply transfer_ok_block|done|constructor]. Qed.

Lemma succ32_Val x y : succ32 x = Val y -> y = x + 1.
Proof. unfold succ32. case_match; [done|]. by intros [= <-]. Qed.

Lemma send_blocks_ok fs n : stable fs -> forall first files t e err files' t' sent, files_ok files -> transfer_ok files t ->
  send_blocks n first fs files t = Val (e, err, files', t', sent) -> err = false /\ sends files t files' t' sent.
Proof.
  intros Hst. induction n as [|n IH]; intros first files t e err files' t' sent Hf Hok; cbn [send_blocks].
  { intros [= <- <- <- <- <-]. split; [done|by apply sends_refl]. }
  destruct (get_block_any fs files t Hst Hf Hok) as (res & f1 & t1 & -> & Hg). cbv iota beta.
  assert (forall pkt, packet_of res = pkt -> (let# b := succ32 (t_block t1) in
      let# (endcon, error, files', t', sent) := send_blocks n false fs f1 (put_block b t1) in
      Val (endcon, error, files', t', send_packet t1 pkt :: sent)) = Val (e, err, files', t', sent) -> err = false /\ sends files t files' t' sent) as Hrec.
  { intros pkt Hp. destruct (succ32 (t_block t1)) as [b|] eqn:Eb; [|done]. apply succ32_Val in Eb.
    destruct (send_blocks n _ _ _ _) as [[[[[? ?] ?] ?] sent1]|] eqn:E; [|done]. intros [= <- <- <- <- <-].
    destruct (ga_ok _ _ _ _ _ Hg) as [(? & ? & ? & ?) ?]. apply IH in E; [|apply Hg|apply transfer_ok_block; [apply Hg|lia]]. destruct E as [-> E].
    split; [done|]. apply (sends_trans files t f1 (put_block b t1) [send_packet t1 pkt]); [|done].
    assert (sends files t f1 t1 [send_packet t1 pkt]) as Hsend.
    { eapply sends_got; [exact Hg|]. intros x ->%list_elem_of_singleton. cbn. destruct (ga_session _ _ _ _ _ Hg) as [-> _]. by subst pkt. }
    apply (sends_trans files t f1 t1 [send_packet t1 pkt] f1 (put_block b t1) [] Hsend). apply sends_block; [apply Hg|apply Hg|lia]. }
  destruct res; [by apply Hrec|by apply Hrec|]. intros [= <- <- <- <- <-]. split; [done|]. eapply sends_got; [exact Hg|]. by intros x ?%elem_of_nil.
Qed.
Lemma cached_same t t' s : t_session t' = t_session t -> t_prefetch t' = t_prefetch t -> netascii t = false -> cached t s -> cached t' s.
Proof.
  intros Es Ep Ha Hc. assert (netascii t' = false) as Ha' by (unfold netascii in *; by rewrite Es). rewrite cached_octet in * by done.
  unfold blocksize in *. by rewrite Es, Ep.
Qed.
(** A change that keeps the session and what was read ahead. *)
Lemma transfer_ok_change files t t' : transfer_ok files t -> t_session t' = t_session t -> t_prefetch t' = t_prefetch t ->
  0 <= t_block t' -> 0 <= t_lastack t' -> (netascii t = true -> 0 <= t_offset t' /\ 0 <= t_expansion t' <= blocksize t) -> transfer_ok files t'.
Proof.
  intros [(H1 & _ & _ & _) (f & Hr & Hc)] Es Ep Hb Hl Ha. split.
  - unfold blocksize, netascii in *. rewrite Es. by split_and!.
  - exists f. unfold netascii. rewrite Es. split; [done|]. intros Ho. apply (cached_same t); [done..|by apply Hc].
Qed.

Lemma schedule_ok files t : transfer_ok files t -> transfer_ok files (put_block (t_lastack t) (schedule_retransmit t)).
Proof. intros Hok. destruct (to_nums _ _ Hok) as (? & ? & ? & ?). by apply (transfer_ok_change files t). Qed.

Lemma send_next_ok fs files t e err files' t' sent : stable fs -> files_ok files -> transfer_ok files t ->
  send_next fs files t = Val (e, err, files', t', sent) -> err = false /\ sends files t files' t' sent.
Proof.
  intros Hst Hf Hok. unfold send_next, send_window. set (t0 := put_block _ _). assert (transfer_ok files t0) as Hok0 by by apply schedule_ok.
  destruct (send_blocks _ _ _ _ _) as [[[[[e1 err1] f1] t1] sent1]|] eqn:E; [|done]. apply send_blocks_ok in E as [-> Hs]; [|done..].
  assert (sends files t f1 t1 sent1) as Hs1.
  { apply (sends_trans files t files t0 [] f1 t1 sent1); [|done]. by split; [|apply same_names_refl|..|constructor]. }
  destruct e1; [by intros [= <- <- <- <- <-]|].
  destruct (get_block_any fs f1 t1 Hst) as (res & f2 & t2 & -> & Hg); [apply Hs1..|]. intros [= <- <- <- <- <-]. split; [done|].
  rewrite <- (app_nil_r sent1). eapply sends_trans; [exact Hs1|]. eapply sends_got; [exact Hg|]. by intros x ?%elem_of_nil.
Qed.

Lemma handle_ok files t packet now res t' : transfer_ok files t -> handle_tftp_packet t packet now = Val (res, t') ->
  transfer_ok files t' /\ t_session t' = t_session t.
Proof.
  intros Hok. destruct (to_nums _ _ Hok) as (H1 & H2 & H3 & H4). unfold handle_tftp_packet. case_match; [by intros [= <- <-]|].
  cbv zeta. destruct (of_be (take 2 packet) =? 4).
  - destruct (next_block_hi _ _ _) as [hi|]; [|done]. set (block := as_u32 _ + _). destruct (_ && _).
    + destruct (succ32 block) as [l|] eqn:El; [|done]. apply succ32_Val in El. intros [= <- <-]. split; [|done].
      assert (0 <= block) by (unfold block, as_u32; pose proof (of_be_range (take 2 (drop 2 packet))); pose proof (Z.mod_pos_bound (Z.shiftl hi 16) 4294967296); lia).
      apply (transfer_ok_change files t); [done..|cbn; lia|]. intros Ha. destruct (H4 Ha). cbn. split; [case_match; lia|done].
    + intros [= <- <-]. split; [|done]. by apply (transfer_ok_change files t).
  - destruct (_ =? 5); intros [= <- <-]; [|done]. split; [|done]. by apply (transfer_ok_change files t).
Qed.

Lemma process_ok fs now files t data e files' t' sent : stable fs -> files_ok files -> transfer_ok files t ->
  process_transfer_packet fs now files t data = Val (e, files', t', sent) -> sends files t files' t' sent.
Proof.
  intros Hst Hf Hok. unfold process_transfer_packet. destruct (handle_tftp_packet t data now) as [[res t1]|] eqn:E; [|done].
  apply (handle_ok files) in E as [Hok1 Es]; [|done]. assert (sends files t files t1 []) as Hs1 by (by split; [|apply same_names_refl|..|constructor]).
  destruct res; [|by intros [= <- <- <- <-]..].
  destruct (send_next _ _ _) as [[[[[e1 err1] f1] t2] sent1]|] eqn:E; [|done]. apply send_next_ok in E as [_ Hs]; [|done..].
  intros [= <- <- <- <-]. by apply (sends_trans files t files t1 [] f1 t2 sent1).
Qed.

Lemma sweep_transfer_ok env files t e files' t' sent : stable (en_fs env) -> files_ok files -> transfer_ok files t ->
  sweep_transfer env files t = Val (e, files', t', sent) -> sends files t files' t' sent.
Proof.
  intros Hst Hf Hok. unfold sweep_transfer. destruct (t_start t); [|by intros [= <- <- <- <-]; apply sends_refl].
  destruct (_ <? _).
  { destruct (get_block_any (en_fs env) files t Hst Hf Hok) as (res & f1 & t1 & -> & Hg). intros [= <- <- <- <-].
    eapply sends_got; [exact Hg|]. by intros x ?%elem_of_nil. }
  destruct (_ <=? _); [|by intros [= <- <- <- <-]; apply sends_refl].
  destruct (send_next _ _ _) as [[[[[e1 err1] f1] t2] sent1]|] eqn:E; [|done]. apply send_next_ok in E as [_ Hs]; [|done..].
  by intros [= <- <- <- <-].
Qed.
End Deliver.

(** ** The running server *)

Lemma root_prefix_path fs raw parts prefix : pp_prefix parts = Some prefix ->
  has_prefix (root_of prefix) (build_tftp_path fs raw parts) = true.
Proof.
  intros Hp. unfold build_tftp_path. rewrite Hp. cbv zeta.
  assert (forall dir n, has_prefix (root_of prefix) n = true -> has_prefix (root_of prefix) (enter_if_exists fs dir n) = true) as He.
  { intros dir n (rest & ->)%has_prefix_spec. unfold enter_if_exists. case_match; apply has_prefix_spec; eexists; [by rewrite <- app_assoc|done]. }
  set (n1 := if pp_apref_ip parts then _ else _).
  assert (has_prefix (root_of prefix) n1 = true) as H1.
  { unfold n1. assert (has_prefix (root_of prefix) (root_of prefix) = true) by (apply has_prefix_spec; exists []; by rewrite app_nil_r). by case_match; [apply He|]. }
  set (n2 := if pp_apref_mac parts then _ else _). assert (has_prefix (root_of prefix) n2 = true) as H2.
  { unfold n2. destruct (pp_apref_mac parts); [|done]. by destruct (pp_client_mac parts); [apply He|]. }
  apply has_prefix_spec in H2 as (rest & H2). clearbody n2. subst n2. destruct (has_prefix [slash] _).
  - destruct (has_prefix (root_of prefix ++ rest) _) eqn:E; apply has_prefix_spec; [|eexists; by rewrite <- app_assoc].
    apply has_prefix_spec in E as (r & ->). eexists. by rewrite <- app_assoc.
  - apply has_prefix_spec. eexists. by rewrite <- app_assoc.
Qed.
Lemma absolute_path fs raw parts : pp_prefix parts = None -> has_prefix [slash] (build_tftp_path fs raw parts) = true.
Proof. intros Hp. unfold build_tftp_path. rewrite Hp. cbv zeta. destruct (has_prefix [slash] (normalize_filename (pp_lowercase parts) raw)) eqn:E; [done|]. apply has_prefix_spec. by eexists. Qed.

Lemma as_u32_nonneg x : 0 <= as_u32 x.
Proof. unfold as_u32. by apply Z.mod_pos_bound. Qed.
Lemma clamp_blocksize_nonneg v v4 mtu sz : 0 <= v -> 0 <= clamp_blocksize v v4 mtu sz.
Proof.
  intros Hv. unfold clamp_blocksize. cbv zeta. pose proof (as_u32_nonneg (as_u32 sz - 4)).
  set (v1 := if v <? 1 then 1 else v). assert (0 <= v1) by (unfold v1; case_match; lia).
  set (v2 := if _ <? v1 then _ else v1). assert (0 <= v2) by (unfold v2; case_match; lia). clearbody v2.
  destruct mtu as [m|]; [|done]. destruct (negb _); [|done]. case_match; [apply as_u32_nonneg|done].
Qed.
Lemma request_blocksize_nonneg options a v4 mtu nb sz : 0 <= ro_blocksize (parse_request_options options a v4 mtu nb sz).
Proof.
  unfold parse_request_options. assert (0 <= ro_blocksize default_options) as Hd by done. revert Hd. generalize default_options.
  induction options as [|[k v] options IH]; intros o Ho; [done|]. cbn [fold_left]. apply IH. unfold request_option. cbv zeta.
  destruct (_ && _); [apply clamp_blocksize_nonneg, as_u32_nonneg|]. destruct (_ && _); [done|]. destruct (bool_decide _); [done|]. by destruct (_ && _).
Qed.

Section Runtime.
Context {O : TransferOrder} (c : TftpConfig) (content : FileId -> list u8).

(** The files do not change, and opening one tells its length. *)
Record env_ok (env : World) : Prop := {
  eo_stable : stable content (en_fs env);
  eo_open : forall path m, fs_open (en_fs env) path = Opened (Ok m) -> md_len m = zlen (content (md_id m));
}.

(** The name of a file the server may open. *)
Definition rooted (name : str) : Prop :=
  match tc_prefix c with
  | Some prefix => has_prefix (root_of prefix) name = true /\ contains_str (bs "/../") name = false
  | None => has_prefix [slash] name = true
  end.

Record runtime_ok (rt : TftpRuntime) : Prop := {
  ru_files : files_ok content (rt_files rt);
  ru_rooted : forall r f, rt_files rt !! r = Some f -> rooted (tf_filename f);
  ru_transfers : forall id t, rt_transfers rt !! id = Some t -> id < rt_next_id rt /\ transfer_ok content (rt_files rt) t;
  ru_count : Z.of_nat (size (rt_transfers rt)) <= effective_max c;
}.

Definition extends (files files' : Files) : Prop :=
  forall r f, files !! r = Some f -> exists f', files' !! r = Some f' /\ tf_id f' = tf_id f /\ tf_filename f' = tf_filename f.
Lemma extends_names files files' : same_names files files' -> extends files files'.
Proof. intros Hn r f. by apply lookup_names. Qed.
Lemma extends_trans f1 f2 f3 : extends f1 f2 -> extends f2 f3 -> extends f1 f3.
Proof. intros H1 H2 r f Hf. destruct (H1 r f Hf) as (f' & Hf' & <- & <-). by apply H2. Qed.
Lemma transfer_ok_ext files files' t : extends files files' -> transfer_ok content files t -> transfer_ok content files' t.
Proof. intros Hn [Hnum (f & Hf & Hc)]. split; [done|]. destruct (Hn _ _ Hf) as (f' & Hf' & Hi & _). exists f'. by rewrite Hi. Qed.
Lemma exact_ext files files' s p : extends files files' -> exact content files s p -> exact content files' s p.
Proof. intros Hn He Ho. destruct (He Ho) as (f & Hf & Hk). destruct (Hn _ _ Hf) as (f' & Hf' & Hi & _). exists f'. by rewrite Hi. Qed.

(** A data packet that goes out comes from a transfer of the table. *)
Definition from_table (rt rt' : TftpRuntime) (x : Sent) : Prop :=
  opcode_of (s_bytes x) = opcode_u16 DataOp -> exists id t f, (rt_transfers rt !! id = Some t \/ rt_transfers rt' !! id = Some t) /\
    s_to x = ss_peer (t_session t) /\ rt_files rt' !! ss_file (t_session t) = Some f /\
    (netascii t = false -> exists k, 1 <= k /\ s_bytes x = build_data (as_u16 k) (chunk (blocksize t) k (content (tf_id f)))).
Lemma from_table_ok rt rt' id t x : (rt_transfers rt !! id = Some t \/ rt_transfers rt' !! id = Some t) ->
  sent_ok content (rt_files rt') (t_session t) x -> from_table rt rt' x.
Proof. intros Ht [Hp He] Ho. destruct (He Ho) as (f & Hf & Hk). by exists id, t, f. Qed.
Lemma not_data_table rt rt' x : opcode_of (s_bytes x) <> 3 -> from_table rt rt' x.
Proof. by intros Hx ?. Qed.

Definition put_table (b : bool) (id : Z) (t : TftpTransfer) (files : Files) (rt : TftpRuntime) : TftpRuntime :=
  mkRuntime (if b then delete id (rt_transfers rt) else <[id := t]> (rt_transfers rt)) (rt_next_id rt) files.
Lemma put_table_ok b id t0 t files sent rt : runtime_ok rt -> rt_transfers rt !! id = Some t0 -> sends content (rt_files rt) t0 files t sent ->
  runtime_ok (put_table b id t files rt).
Proof.
  intros [Hf Hr Ht Hc] Hid [F N Ok S P]. pose proof (extends_names _ _ N) as Hx. split; cbn.
  - done.
  - intros r f Hrf. assert (exists f0, rt_files rt !! r = Some f0 /\ tf_filename f0 = tf_filename f) as (f0 & Hf0 & <-); [|by eapply Hr].
    specialize (N r). rewrite Hrf in N. destruct (rt_files rt !! r) as [f0|]; [|done]. injection N as ? ?. by exists f0.
  - intros id' t'. destruct b; intros Hl.
    + apply lookup_delete_Some in Hl as [_ Hl]. destruct (Ht _ _ Hl). split; [done|by eapply transfer_ok_ext].
    + apply lookup_insert_Some in Hl as [[<- <-]|[_ Hl]]; [by destruct (Ht _ _ Hid)|]. destruct (Ht _ _ Hl). split; [done|by eapply transfer_ok_ext].
  - destruct b.
    + rewrite map_size_delete, Hid. lia.
    + by rewrite map_size_insert, Hid.
Qed.
Lemma not_data_reply rt rt' peer source i code msg : Forall (from_table rt rt') [mkSent peer source i (tftp_err_packet code msg)].
Proof. apply Forall_singleton, not_data_table. by destruct code. Qed.

Record opened (files : Files) (r : nat) (files' : Files) : Prop := {
  od_extends : extends files files';
  od_ok : files_ok content files';
  od_rooted : forall r f, files' !! r = Some f -> rooted (tf_filename f);
  od_file : exists f, files' !! r = Some f;
}.
Lemma share_file_ok files shared meta name : files_ok content files -> (forall r f, files !! r = Some f -> rooted (tf_filename f)) ->
  rooted name -> md_len meta = zlen (content (md_id meta)) ->
  opened files (fst (share_file files shared meta name)) (snd (share_file files shared meta name)).
Proof.
  intros Hf Hr Hn Hl. unfold share_file. destruct (List.find _ shared) as [r|] eqn:E; cbn [fst snd].
  - apply find_some in E as [_ E]. destruct (files !! r) as [f|] eqn:Er; [|done]. split; [intros ? ? ?; by eexists|done|done|by exists f].
  - assert (files !! fresh (dom files) = None) as Hfr by (apply not_elem_of_dom, is_fresh). split.
    + intros r f Hrf. exists f. rewrite lookup_insert_ne; [done|]. intros <-. congruence.
    + apply files_ok_insert; [done|]. by split.
    + intros r f. rewrite lookup_insert_Some. intros [[_ <-]|[_ Hrf]]; [done|by eapply Hr].
    + eexists. apply lookup_insert_eq.
Qed.

Lemma request_path_rooted env filename client : tc_prefix c = None \/ contains_str (bs "/../") (request_path env c filename client) = false ->
  rooted (request_path env c filename client).
Proof.
  unfold rooted, request_path. destruct (tc_prefix c) as [p|] eqn:Ep; intros H.
  - destruct H as [H|H]; [done|]. split; [by apply root_prefix_path|done].
  - by apply absolute_path.
Qed.
Lemma open_ok env files shared r files' filename client : env_ok env -> files_ok content files ->
  (forall r f, files !! r = Some f -> rooted (tf_filename f)) ->
  open_tftp_file (en_fs env) (request_path env c filename client) (negb (bool_decide (tc_prefix c = None))) (tc_secure c) shared files = Ok (r, files') ->
  opened files r files'.
Proof.
  intros He Hf Hr. unfold open_tftp_file. destruct (_ && _) eqn:Ed; [done|].
  assert (rooted (request_path env c filename client)) as Hroot.
  { apply request_path_rooted. apply andb_false_iff in Ed as [Ed|Ed]; [left|by right]. by apply negb_false_iff, bool_decide_eq_true in Ed. }
  destruct (fs_open (en_fs env) _) as [| |e|[meta|e]] eqn:Eo; try done. pose proof (eo_open _ He _ _ Eo) as Hl.
  pose proof (share_file_ok files shared meta _ Hf Hr Hroot Hl) as Hs.
  assert (Ok (A := nat * Files) (E := TftpOpenError) (share_file files shared meta (request_path env c filename client)) = Ok (r, files') -> opened files r files') as Hok
    by (intros [= Hsh]; by rewrite Hsh in Hs).
  destruct (fs_euid _ =? 0).
  - destruct (Z.land _ _ =? 0); [discriminate|exact Hok].
  - destruct (tc_secure c && _); [discriminate|exact Hok].
Qed.

Lemma start_ok env s files res files' t : env_ok env -> files_ok content files -> (exists f, files !! ss_file s = Some f) -> 0 <= ro_blocksize (ss_options s) ->
  start_transfer env s files = Val (res, files', t) -> exists b, res = Ok b /\
  same_names files files' /\ files_ok content files' /\ transfer_ok content files' t /\ t_session t = s /\ exact content files' s (packet_of b).
Proof.
  intros He Hf [f Hs] Hb. unfold start_transfer. cbv zeta. set (t0 := mkTransfer s _ _ _ _ _ _ _ _ _ _ _ _).
  assert (transfer_ok content files t0) as Hok.
  { split; [|exists f; split; [done|]; intros _ off d; unfold t0; cbn; by destruct (any_option_negotiated _)].
    unfold t0, blocksize. cbn [t_session t_block t_lastack t_offset t_expansion]. destruct (any_option_negotiated _); cbn; split_and!; lia || done. }
  destruct (get_block_any content (en_fs env) files t0 (eo_stable _ He) Hf Hok) as (b & f1 & t1 & -> & [G1 G2 G3 G4 G5]). intros [= <- <- <-].
  exists b. split_and!; [done..|by destruct G4|done].
Qed.

Definition step_ok (rt rt' : TftpRuntime) (sent : list Sent) : Prop := runtime_ok rt' /\ Forall (from_table rt rt') sent.
Lemma step_quiet rt files : runtime_ok rt -> files_ok content files -> (forall r f, files !! r = Some f -> rooted (tf_filename f)) ->
  extends (rt_files rt) files -> runtime_ok (mkRuntime (rt_transfers rt) (rt_next_id rt) files).
Proof.
  intros [_ _ Ht Hc] Hf Hr Hx. split; [done..| |done]. intros id t Hl. destruct (Ht _ _ Hl). split; [done|by eapply transfer_ok_ext].
Qed.
Lemma same_names_rooted files files' : same_names files files' -> (forall r f, files !! r = Some f -> rooted (tf_filename f)) ->
  forall r f, files' !! r = Some f -> rooted (tf_filename f).
Proof. intros N Hr r f Hf. destruct (lookup_names files' files r f) as (f' & H & _ & <-); [intros r0; by rewrite (N r0)|done|by eapply Hr]. Qed.
(** A new transfer. *)
Lemma add_table_ok rt files files' t : runtime_ok rt -> opened (rt_files rt) (ss_file (t_session t)) files ->
  same_names files files' -> files_ok content files' -> transfer_ok content files' t -> Z.of_nat (size (rt_transfers rt)) < effective_max c ->
  runtime_ok (mkRuntime (<[rt_next_id rt := t]> (rt_transfers rt)) (rt_next_id rt + 1) files').
Proof.
  intros [_ _ Ht _] [Hx _ Hr _] Hn Hf Hok Hs. split; cbn; [done|by eapply same_names_rooted| |].
  - intros id t'. rewrite lookup_insert_Some. intros [[<- <-]|[_ Hl]]; [split; [lia|done]|]. destruct (Ht _ _ Hl). split; [lia|].
    eapply transfer_ok_ext; [|done]. eapply extends_trans; [exact Hx|by apply extends_names].
  - rewrite map_size_insert_None; [lia|]. destruct (_ !! rt_next_id rt) as [t'|] eqn:E; [|done]. destruct (Ht _ _ E). lia.
Qed.

Lemma serve_request_ok env l m source filename ascii options rt rt' sent : env_ok env -> runtime_ok rt ->
  serve_request c env l m source filename ascii options rt = Val (rt', sent) -> step_ok rt rt' sent.
Proof.
  intros He Hrt. unfold serve_request. destruct (resolve_request_interface env l m) as [iface_name iface_mtu]. cbv zeta.
  destruct (match iface_name with Some _ => _ | None => _ end); [intros [= <- <-]; by split|].
  destruct (open_tftp_file _ _ _ _ _ _) as [[file files]|e] eqn:Eo.
  2: { by destruct e; intros [= <- <-]; (split; [done|apply not_data_reply]). }
  apply open_ok in Eo as Hop; [|done|apply Hrt..]. pose proof Hop as [Hx Hf Hr [f Hfile]].
  destruct (Z.leb_spec (effective_max c) (Z.of_nat (size (rt_transfers rt)))); [intros [= <- <-]; split; [by apply step_quiet|constructor]|].
  set (s := mkSession _ _ _ _ _ _ _). destruct (start_transfer env s files) as [[[res f1] t]|] eqn:Es; [|done].
  apply start_ok in Es as (b & -> & Hn & Hf1 & Hok & Est & Hex); [|done|done|by exists f|apply request_blocksize_nonneg].
  assert (forall pkt, packet_of b = pkt -> step_ok rt (mkRuntime (<[rt_next_id rt := t]> (rt_transfers rt)) (rt_next_id rt + 1) f1) [send_packet t pkt]) as Hadd.
  { intros pkt <-. split; [eapply add_table_ok; [done|by rewrite Est|done..]|]. apply Forall_singleton.
    apply (from_table_ok _ _ (rt_next_id rt) t); [right; apply lookup_insert_eq|]. split; [done|by rewrite Est]. }
  destruct b; [intros [= <- <-]; by apply Hadd..|]. intros [= <- <-]. split; [|constructor].
  apply step_quiet; [done..|by eapply same_names_rooted|]. eapply extends_trans; [exact Hx|by apply extends_names].
Qed.

Lemma handle_new_request_ok env l m data rt rt' sent : env_ok env -> runtime_ok rt ->
  handle_new_request c env l m data rt = Val (rt', sent) -> step_ok rt rt' sent.
Proof.
  intros He Hrt. assert (forall rt1 s1, Val (rt, []) = Val (rt1, s1) -> step_ok rt rt1 s1) as Hno by (intros rt1 s1 [= <- <-]; by split).
  assert (forall peer source i code msg rt1 s1, Val (rt, [mkSent peer source i (tftp_err_packet code msg)]) = Val (rt1, s1) -> step_ok rt rt1 s1) as Herr
    by (intros peer source i code msg rt1 s1 [= <- <-]; split; [done|apply not_data_reply]).
  unfold handle_new_request. cbv zeta. destruct (_ || _); [by apply Hno|]. destruct (_ && _); [by apply Hno|].
  destruct (_ =? _); [by eapply Herr|]. destruct (parse_rrq data) as [[[[filename mode] options]|]|]; [|by apply Hno|done].
  destruct (_ =? _)%nat; [by eapply Herr|]. destruct (eq_ignore_ascii_case _ _); [by apply serve_request_ok|].
  destruct (eq_ignore_ascii_case _ _); [by apply serve_request_ok|by eapply Herr].
Qed.

Lemma transfer_packet_ok env id t data rt rt' sent : env_ok env -> runtime_ok rt -> rt_transfers rt !! id = Some t ->
  transfer_packet env id t data rt = Val (rt', sent) -> step_ok rt rt' sent.
Proof.
  intros He Hrt Hid. unfold transfer_packet. destruct (process_transfer_packet _ _ _ _ _) as [[[[b files] t'] sent1]|] eqn:E; [|done].
  apply (process_ok content) in E; [|apply He|apply Hrt|by eapply ru_transfers]. intros [= <- <-].
  split; [exact (put_table_ok b id t t' files sent1 rt Hrt Hid E)|]. eapply Forall_impl; [apply E|]. intros x Hx.
  by apply (from_table_ok _ _ id t); [left|].
Qed.

Lemma drop_transfer_ok rt id : runtime_ok rt -> runtime_ok (mkRuntime (delete id (rt_transfers rt)) (rt_next_id rt) (rt_files rt)).
Proof.
  intros [Hf Hr Ht Hc]. split; [done..| |].
  - intros id' t Hl. cbn in Hl. apply lookup_delete_Some in Hl as [_ Hl]. by apply Ht.
  - cbn. rewrite map_size_delete. cbn in Hc. destruct (rt_transfers rt !! id) as [t|]; [|done]. eapply Z.le_trans; [|exact Hc]. apply inj_le, Nat.le_pred_l.
Qed.
Lemma handle_listener_datagram_ok env l m data rt rt' sent : env_ok env -> runtime_ok rt ->
  handle_listener_datagram c env l m data rt = Val (rt', sent) -> step_ok rt rt' sent.
Proof.
  intros He Hrt. unfold handle_listener_datagram. destruct (_ && _); [|by apply handle_new_request_ok].
  destruct (List.find _ _) as [[id t]|] eqn:Ef.
  - apply find_some in Ef as [Hin _]. apply list_elem_of_In in Hin. rewrite transfer_order_perm in Hin. apply elem_of_map_to_list in Hin.
    destruct (_ =? _); [|by apply transfer_packet_ok].
    intros [H1 H2]%handle_new_request_ok; [|done|by apply drop_transfer_ok]. split; [done|].
    eapply Forall_impl; [exact H2|]. intros x Hx Ho. destruct (Hx Ho) as (id' & t' & f & Hor & Hrest). exists id', t', f.
    split; [|done]. destruct Hor as [Hl|Hl]; [|by right]. cbn in Hl. apply lookup_delete_Some in Hl as [_ Hl]. by left.
  - destruct (_ <=? _); [intros [= <- <-]; by split|by apply handle_new_request_ok].
Qed.

Lemma sweep_loop_ok env l : env_ok env -> forall rt rt' sent, runtime_ok rt -> NoDup l.*1 ->
  (forall id t, (id, t) ∈ l -> rt_transfers rt !! id = Some t) -> sweep_loop env l rt = Val (rt', sent) ->
  runtime_ok rt' /\ extends (rt_files rt) (rt_files rt') /\
  Forall (fun x => exists id t, (id, t) ∈ l /\ sent_ok content (rt_files rt') (t_session t) x) sent.
Proof.
  intros He. induction l as [|[id t] l IH]; intros rt rt' sent Hrt Hnd Hl; cbn [sweep_loop].
  { intros [= <- <-]. split_and!; [done|intros r f Hf; by exists f|constructor]. }
  destruct (sweep_transfer env (rt_files rt) t) as [[[[b files] t'] sent1]|] eqn:E; [|done]. cbv beta iota.
  apply NoDup_cons in Hnd as [Hni Hnd]. assert (rt_transfers rt !! id = Some t) as Hid by (apply Hl; left).
  apply (sweep_transfer_ok content) in E; [|apply He|apply Hrt|by eapply ru_transfers]. pose proof (put_table_ok b id t t' files sent1 rt Hrt Hid E) as Hrt1.
  destruct (sweep_loop _ _ _) as [[rt2 later]|] eqn:E2; [|done]. intros [= <- <-]. apply IH in E2 as (H1 & H2 & H3); [|done|done|].
  - split_and!; [done|eapply extends_trans; [apply extends_names, E|exact H2]|]. apply Forall_app. split.
    + eapply Forall_impl; [apply E|]. intros x [Hp Hx]. exists id, t. split; [left|]. split; [done|]. eapply exact_ext; [exact H2|done].
    + eapply Forall_impl; [exact H3|]. intros x (id' & t'' & Hin & Hx). exists id', t''. by split; [right|].
  - intros id' t'' Hin. assert (id <> id') as Hne by (intros <-; apply Hni; apply list_elem_of_fmap; by exists (id, t'')).
    cbn. destruct b; [rewrite lookup_delete_ne by done|rewrite lookup_insert_ne by done]; apply Hl; by right.
Qed.
Lemma sweep_transfers_ok env rt rt' sent : env_ok env -> runtime_ok rt -> sweep_transfers env rt = Val (rt', sent) -> step_ok rt rt' sent.
Proof.
  intros He Hrt. unfold sweep_transfers.
  assert (forall id t, (id, t) ∈ transfer_order (rt_transfers rt) -> rt_transfers rt !! id = Some t) as Hin.
  { intros id t Hin. rewrite transfer_order_perm in Hin. by apply elem_of_map_to_list in Hin. }
  intros (H1 & H2 & H3)%sweep_loop_ok; [|done|done| |exact Hin].
  - split; [done|]. eapply Forall_impl; [exact H3|]. intros x (id & t & Hl & Hx). apply (from_table_ok _ _ id t); [left; by apply Hin|done].
  - rewrite transfer_order_perm. apply NoDup_fst_map_to_list.
Qed.

Lemma tftp_event_ok env ev rt rt' sent : env_ok env -> runtime_ok rt -> tftp_event c env ev rt = Val (rt', sent) -> step_ok rt rt' sent.
Proof.
  intros He Hrt. destruct ev as [l m data|id peer data|]; cbn [tftp_event]; [by apply handle_listener_datagram_ok| |by apply sweep_transfers_ok].
  destruct (rt_transfers rt !! id) as [t|] eqn:E; [|intros [= <- <-]; by split].
  destruct (negb _); [|by apply transfer_packet_ok]. intros [= <- <-]. split; [done|apply not_data_reply].
Qed.

(** Runs of the server from its start. *)
Inductive reachable : TftpRuntime -> list Sent -> Prop :=
| reachable_start : reachable runtime_new []
| reachable_step rt trace env ev rt' sent : reachable rt trace -> env_ok env -> tftp_event c env ev rt = Val (rt', sent) ->
    reachable rt' (trace ++ sent).

Lemma effective_max_pos : 0 < effective_max c.
Proof. unfold effective_max. destruct (Z.ltb_spec 0 (tc_max_transfers c)); [done|unfold TFTP_MAX_CONNECTIONS_DEFAULT; lia]. Qed.
Lemma runtime_new_ok : runtime_ok runtime_new.
Proof. pose proof effective_max_pos as Hm. split; [done..|]. unfold runtime_new. cbn [rt_transfers]. rewrite map_size_empty. lia. Qed.
Lemma server_state_ok rt trace : reachable rt trace -> runtime_ok rt.
Proof. induction 1 as [|rt trace env ev rt' sent _ IH He Hev]; [apply runtime_new_ok|]. by apply tftp_event_ok in Hev as [? _]. Qed.
End Runtime.

(** ** The claims *)

(** C24: In every reachable state of the server there are no more transfers than the
    limit, every transfer's file is open, and every open file lies within the
    configured root and has the size its content has. *)
Theorem tftp_runtime_invariant `{O : TransferOrder} c content rt trace : reachable c content rt trace ->
  Z.of_nat (size (rt_transfers rt)) <= effective_max c /\
  (forall id t, rt_transfers rt !! id = Some t -> id < rt_next_id rt /\ exists f, rt_files rt !! ss_file (t_session t) = Some f) /\
  (forall r f, rt_files rt !! r = Some f -> rooted c (tf_filename f) /\ tf_size f = zlen (content (tf_id f)) /\ tf_fdpos f = tf_posn f).
Proof.
  intros [Hf Hr Ht Hc]%server_state_ok. split_and!; [done| |].
  - intros id t Hl. destruct (Ht _ _ Hl) as [Hid [_ (f & Hf' & _)]]. split; [done|by exists f].
  - intros r f Hl. split; [by eapply Hr|]. by destruct (Hf _ _ Hl).
Qed.

(** C18: Whatever the clients send and in whatever order, every data packet the
    server sends goes to the peer of one of its transfers and its file is an
    open file within the root; for an octet transfer it is exactly one block of
    that file under its own number. *)
Theorem tftp_data_exact `{O : TransferOrder} c content rt trace env ev rt' sent x :
  reachable c content rt trace -> env_ok content env -> tftp_event c env ev rt = Val (rt', sent) -> x ∈ sent ->
  opcode_of (s_bytes x) = opcode_u16 DataOp ->
  exists id t f, (rt_transfers rt !! id = Some t \/ rt_transfers rt' !! id = Some t) /\ s_to x = ss_peer (t_session t) /\
    rt_files rt' !! ss_file (t_session t) = Some f /\ rooted c (tf_filename f) /\
    (netascii t = false -> exists k, 1 <= k /\ s_bytes x = build_data (as_u16 k) (chunk (blocksize t) k (content (tf_id f)))).
Proof.
  intros Hr He Hev Hx Ho. apply server_state_ok in Hr. apply (tftp_event_ok c content) in Hev as [Hok Hs]; [|done..].
  rewrite Forall_forall in Hs. destruct (Hs _ Hx Ho) as (id & t & f & H1 & H2 & H3 & H4). exists id, t, f. split_and!; [done..| |done].
  by apply (ru_rooted _ _ _ Hok) in H3.
Qed.

(** ** A server with one file *)

Module Example.
#[local] Instance map_order : TransferOrder := {| transfer_order := map_to_list; transfer_order_perm := fun m => reflexivity _ |}.
Definition text : list u8 := bs "a" ++ [newline; newline] ++ bs "bc".
Definition content (id : FileId) : list u8 := text.
Definition disk : FileSystem :=
  mkFs (fun _ => false) (fun _ => Opened (Ok (mkMeta (1, 2) 420 0 (zlen text)))) 0 (fun _ _ => None)
    (fun id pos n => Ok (take n (drop (Z.to_nat pos) (content id)))).
Definition world (now : Z) : World := mkWorld disk now (fun _ _ => Bound) (fun _ => None) (fun _ => None).
Definition config : TftpConfig := mkTftpConfig (Some (bs "/srv")) false false false false false false 0 0 0 0 [] 4096.
Definition client : MySockAddr := SV4 0x0a000002 1024.
Definition listener : TftpListenerHandle := mkListener (SV4 0x0a000001 69) None None.
Definition request : list u8 := to_be 2 1 ++ bs "f" ++ [Byte.x00] ++ bs "octet" ++ [Byte.x00].
Definition ask : TftpEvent := Listener listener (mkRecv client None 0) request.

Lemma disk_stable : stable content disk.
Proof. by split. Qed.
Lemma world_ok now : env_ok content (world now).
Proof. split; [apply disk_stable|]. by intros path m [= <-]. Qed.

Definition asked : outcome (TftpRuntime * list Sent) := tftp_event config (world 0) ask runtime_new.
Definition asked_state : TftpRuntime := match asked with Val (rt, _) => rt | Panic => runtime_new end.
Definition asked_sent : list Sent := match asked with Val (_, sent) => sent | Panic => [] end.
Lemma asked_eq : tftp_event config (world 0) ask runtime_new = Val (asked_state, asked_sent).
Proof. vm_compute. reflexivity. Qed.

Lemma tftp_runtime_invariant_witness : size (rt_transfers asked_state) = 1%nat /\ Z.of_nat (size (rt_transfers asked_state)) <= effective_max config.
Proof.
  split; [by vm_compute|]. refine (proj1 (tftp_runtime_invariant config content asked_state ([] ++ asked_sent) _)).
  eapply (reachable_step config content runtime_new [] (world 0) ask); [constructor|apply world_ok|exact asked_eq].
Defined.
Lemma tftp_data_exact_witness : exists id t k, rt_transfers asked_state !! id = Some t /\ 1 <= k /\
  build_data 1 text = build_data (as_u16 k) (chunk (blocksize t) k text).
Proof.
  destruct (tftp_data_exact config content runtime_new [] (world 0) ask asked_state asked_sent
    (mkSent client (V4 0x0a000001) 0 (build_data 1 text))) as (id & t & f & [Ht|Ht] & H1 & H2 & H3 & H4);
    [constructor|apply world_ok|exact asked_eq|vm_compute; left|by vm_compute|done|].
  assert (netascii t = false) as Hn.
  { assert (bool_decide (map_Forall (fun _ t => netascii t = false) (rt_transfers asked_state)) = true) as E by (vm_compute; reflexivity).
    apply bool_decide_eq_true in E. by apply (E id). }
  destruct (H4 Hn) as (k & Hk & Hx). by exists id, t, k.
Defined.
End Example.
