(* ===== verification/TftpDownload.v ===== *)
(** * A whole download

    A client that acknowledges the last block it has received, in order, gets
    every block of the file, or of the converted file for netascii, whatever
    the number of blocks: block numbers wrap around on the wire. *)

From Stdlib Require Import ZArith Lia String.
From stdpp Require Import base numbers list option gmap sets.
From S2P Require Import Prelude Types StdText Tftp TftpServer TftpSpec.

#[local] Open Scope Z_scope.

(** ** The client *)

(** The number of the block it waits for, not reduced to 16 bits, and what it
    has received. *)
Record Client : Type := mkClient { cl_next : Z; cl_data : list u8 }.
Definition client_receive (cl : Client) (p : list u8) : Client :=
  match parse_data p with
  | Ok (b, d) => if b =? as_u16 (cl_next cl) then mkClient (cl_next cl + 1) (cl_data cl ++ d) else cl
  | Err _ => cl
  end.
(** Its acknowledgements, at the given times, until the server ends the
    transfer. *)
Fixpoint download (fs : FileSystem) (times : list Z) (files : Files) (t : TftpTransfer) (cl : Client) : outcome (bool * Client) :=
  match times with
  | [] => Val (false, cl)
  | now :: times =>
    let# (finished, files, t, sent) := process_transfer_packet fs now files t (build_ack (as_u16 (cl_next cl - 1))) in
    let cl := fold_left client_receive (s_bytes <$> sent) cl in
    if finished then Val (true, cl) else download fs times files t cl
  end.

(** ** Packets *)

Lemma opcode_be (n : Z) rest : 0 <= n < 65536 -> of_be (take 2 (to_be 2 n ++ rest)) = n.
Proof. intros Hn. rewrite take_app_length' by (by rewrite length_to_be). by rewrite of_be_to_be_small. Qed.
Lemma drop_be k (n : Z) rest : drop (2 + k) (to_be 2 n ++ rest) = drop k rest.
Proof. by rewrite <- (length_to_be 2 n), drop_app_add. Qed.

Lemma parse_build_data b d : 0 <= b < 65536 -> parse_data (build_data b d) = Ok (b, d).
Proof.
  intros Hb. unfold parse_data. assert ((length (build_data b d) <? 4)%nat = false) as ->.
  { apply Nat.ltb_ge. unfold build_data. rewrite !length_app, !length_to_be. lia. }
  unfold build_data. rewrite opcode_be by done. rewrite Z.eqb_refl. cbn [negb].
  change 4%nat with (2 + 2)%nat. rewrite !(drop_be 2), (drop_be 0). change 2%nat with (2 + 0)%nat at 2. rewrite (drop_be 0), !drop_0. by rewrite opcode_be.
Qed.

(** The halves of a block number. *)
Lemma next_hi a b : 0 <= a <= b -> b <= a + 16384 -> b < 4294967295 -> next_block_hi (b mod 65536) (a mod 65536) (a / 65536) = Val (b / 65536).
Proof.
  intros Hab Hd Hb. pose proof (Z.div_mod a 65536) as Ea. pose proof (Z.div_mod b 65536) as Eb. specialize (Ea ltac:(done)). specialize (Eb ltac:(done)).
  pose proof (Z.mod_pos_bound a 65536) as Ha'. pose proof (Z.mod_pos_bound b 65536) as Hb'. specialize (Ha' ltac:(done)). specialize (Hb' ltac:(done)).
  set (ah := a / 65536) in *. set (al := a mod 65536) in *. set (bh := b / 65536) in *. set (bl := b mod 65536) in *.
  assert (bh = ah \/ bh = ah + 1) as Hh by lia. assert (0 <= ah < 65536) by lia. unfold next_block_hi, succ32.
  destruct (Z.leb_spec bl 16384), (Z.leb_spec 49152 al); cbn [andb].
  1: rewrite (proj2 (Z.eqb_neq _ _)) by lia; f_equal; lia.
  all: destruct (Z.leb_spec 49152 bl), (Z.leb_spec al 16384); cbn [andb]; try (f_equal; lia).
  all: destruct (Z.eqb_spec ah 0); cbn [negb]; f_equal; lia.
Qed.
Lemma join_hi b : 0 <= b < 4294967296 -> as_u32 (Z.shiftl (b / 65536) 16) + b mod 65536 = b.
Proof.
  intros Hb. unfold as_u32. rewrite Z.shiftl_mul_pow2 by done. change (2 ^ 16) with 65536. pose proof (Z.div_mod b 65536 ltac:(done)) as Eb.
  pose proof (Z.mod_pos_bound b 65536 ltac:(done)). rewrite Z.mod_small by lia. lia.
Qed.

Section Download.
Context (content : FileId -> list u8) (fs : FileSystem) (Hst : stable content fs).

(** ** A window *)

(** The bytes of a transfer, the packet of block [i], and the number of blocks. *)
Definition bytes_of (ss : Session) (s : list u8) : list u8 := stream (ss_netascii ss) s.
Definition block_sent (ss : Session) (s : list u8) (i : Z) : Sent :=
  send_packet_to ss (ss_peer ss) (build_data (as_u16 i) (chunk (ro_blocksize (ss_options ss)) i (bytes_of ss s))).
Definition last_block (ss : Session) (s : list u8) : Z := zlen (bytes_of ss s) / ro_blocksize (ss_options ss) + 1.

Lemma last_block_spec (t : TftpTransfer) s k : 0 < blocksize t ->
  ((k - 1) * blocksize t <=? zlen (stream (netascii t) s)) = (k <=? last_block (t_session t) s).
Proof.
  intros Hb. unfold last_block, bytes_of, blocksize, netascii in *. set (n := zlen _). apply eq_true_iff_eq. rewrite !Z.leb_le. split.
  - intros H. assert (k - 1 <= n / ro_blocksize (ss_options (t_session t))); [|lia]. apply Z.div_le_lower_bound; lia.
  - intros H. transitivity (n / ro_blocksize (ss_options (t_session t)) * ro_blocksize (ss_options (t_session t))); [apply Z.mul_le_mono_nonneg_r; lia|].
    rewrite Z.mul_comm. by apply Z.mul_div_le.
Qed.

(** A window from block [j], of which [m] blocks are sent. *)
Record window_sent (files : Files) (t : TftpTransfer) (s : list u8) (n : nat) (j m : Z) (files' : Files) (t' : TftpTransfer) : Prop := {
  ws_files : files_ok content files';
  ws_names : same_names files files';
  ws_session : t_session t' = t_session t /\ t_lastack t' = t_lastack t /\ t_ackprev t' = t_ackprev t /\ t_block_hi t' = t_block_hi t;
  ws_ascii : netascii t = true -> t_offset t' = t_offset t /\ t_lastcarrylf t' = t_lastcarrylf t;
  ws_block : t_block t' = j + m;
  ws_cached : cached t' s;
  ws_expands : netascii t = true -> 0 < m -> expands t' s (chunk (blocksize t) j (crlf false s));
  ws_none : n = 0%nat -> t' = t;
}.
Definition count (n : nat) (last j : Z) : Z := Z.max 0 (Z.min (Z.of_nat n) (last - j + 1)).

Lemma got_window files t s n j f files1 t1 files2 t2 : 0 < blocksize t -> s = content (tf_id f) -> got_block content fs files t j f files1 t1 ->
  (netascii t = true -> n = 0%nat) -> t_block t = j -> j <= last_block (t_session t) s ->
  window_sent files1 (put_block (j + 1) t1) s n (j + 1) (count n (last_block (t_session t) s) (j + 1)) files2 t2 ->
  window_sent files t s (S n) j (count (S n) (last_block (t_session t) s) j) files2 t2.
Proof.
  intros Hb -> [_ _ Hn (E1 & E2 & E3 & E4 & E5 & E6 & E7 & E8 & E9 & E10) Hc Hx] Hz Ht Hj [W1 W2 (W3 & W4 & W5 & W6) W7 W8 W9 W10 W11]. cbn in *.
  assert (netascii t = true -> t2 = put_block (j + 1) t1) as Hz' by auto. split.
  - done.
  - by eapply same_names_trans.
  - split_and!; congruence.
  - intros Ha. rewrite (Hz' Ha). cbn. auto.
  - rewrite W8. unfold count. lia.
  - done.
  - intros Ha Hm. rewrite (Hz' Ha). apply (Hx Ha). apply Z.leb_le. pose proof (last_block_spec t (content (tf_id f)) j Hb) as He.
    rewrite Ha in He. cbn [stream] in He. rewrite He. by apply Z.leb_le.
  - done.
Qed.

Lemma send_window_ok s n : forall first files t j f, files_ok content files -> files !! ss_file (t_session t) = Some f -> s = content (tf_id f) ->
  0 < blocksize t -> 1 <= j -> t_block t = j -> cached t s -> (n <> 0%nat -> positioned t j s) -> (netascii t = true -> (n <= 1)%nat) ->
  last_block (t_session t) s < 4294967294 -> let m := count n (last_block (t_session t) s) j in exists files' t',
  send_blocks n first fs files t = Val (first && (last_block (t_session t) s <? j) && negb (n =? 0)%nat, false, files', t',
    block_sent (t_session t) s <$> seqZ j m) /\ window_sent files t s n j m files' t'.
Proof.
  induction n as [|n IH]; intros first files t j f Hf Hr Hs Hb Hj Ht Hc Hp Ha Hl; cbv zeta.
  { exists files, t. unfold count. rewrite Z.max_l by lia. cbn [send_blocks]. rewrite andb_false_r. split; [done|].
    split; [done|apply same_names_refl|done|done|lia|done|lia|done]. }
  destruct (get_block_spec content fs files t j f Hst Hf Hr Hb Hj Ht) as (files1 & t1 & Hg); [by subst s|subst s; by apply Hp|].
  cbn [send_blocks]. rewrite (gb_result _ _ _ _ _ _ _ _ Hg). cbv beta iota. unfold block_result. rewrite <- Hs, last_block_spec by done.
  pose proof (gb_session _ _ _ _ _ _ _ _ Hg) as (E1 & E2 & E3 & E4 & E5 & E6 & E7 & E8 & E9 & E10).
  destruct (Z.leb_spec j (last_block (t_session t) s)) as [Hle|Hgt].
  2: { exists files1, t1. unfold count. rewrite Z.max_l by lia. rewrite (proj2 (Z.ltb_lt _ _)), !andb_true_r by done. split; [done|].
    destruct Hg. split; [done|done|split_and!; congruence|auto|lia|by subst s|lia|lia]. }
  assert (succ32 (t_block t1) = Val (j + 1)) as -> by (unfold succ32; rewrite (proj2 (Z.eqb_neq _ _)) by lia; by rewrite E5, Ht).
  destruct (lookup_names _ _ _ _ (gb_names _ _ _ _ _ _ _ _ Hg) Hr) as (f1 & Hr1 & Hi & _).
  destruct (IH false files1 (put_block (j + 1) t1) (j + 1) f1) as (files' & t' & Hsend & Hw).
  - apply Hg.
  - cbn. by rewrite E1.
  - by rewrite Hi.
  - unfold blocksize in *. cbn. by rewrite E1.
  - lia.
  - done.
  - subst s. apply Hg.
  - intros Hn Ha'. exfalso. assert (netascii t = true) by (unfold netascii in *; cbn in Ha'; by rewrite E1 in Ha'). specialize (Ha ltac:(done)). lia.
  - intros Ha'. assert (netascii t = true) by (unfold netascii in *; cbn in Ha'; by rewrite E1 in Ha'). specialize (Ha ltac:(done)). lia.
  - cbn. by rewrite E1.
  - cbn in Hsend, Hw. rewrite E1 in Hsend, Hw. rewrite Hsend. cbv beta iota. exists files', t'. rewrite (proj2 (Z.ltb_ge _ _)) by lia. rewrite andb_false_r. cbn [andb].
    split; [|eapply got_window; [..|exact Hw]; try done; intros Ha'; specialize (Ha Ha'); lia].
    do 2 f_equal. replace (count (S n) (last_block (t_session t) s) j) with (Z.succ (count n (last_block (t_session t) s) (j + 1))) by (unfold count; lia).
    rewrite (seqZ_cons j) by (unfold count; lia). rewrite Z.pred_succ. cbn [fmap list_fmap]. f_equal.
    unfold block_sent, send_packet, bytes_of, blocksize, netascii. by rewrite E1, Ht.
Qed.

(** ** An acknowledgement *)

(** A netascii transfer moves behind the block it stands at. *)
Lemma advance t t' k s : 1 <= k -> netascii t = true -> 2 <= blocksize t -> cached t s -> positioned t k s -> (k - 1) * blocksize t <= zlen (crlf false s) ->
  expands t s (chunk (blocksize t) k (crlf false s)) -> t_session t' = t_session t -> t_offset t' = t_offset t + (blocksize t - t_expansion t) ->
  t_lastcarrylf t' = t_carrylf t -> t_prefetch t' = t_prefetch t -> cached t' s /\ positioned t' (k + 1) s.
Proof.
  intros Hk1 Ha Hb Hc Hp Hk Hx Es Eo El Ep. destruct (Hp Ha) as (Ho & H1 & _). destruct (H1 Hk) as [Hz Hcr].
  destruct (netascii_block s (Z.to_nat (t_offset t)) (t_lastcarrylf t) (Z.to_nat (blocksize t))) as (e & c & He & Hle & Hfull & Hend); [lia|].
  unfold expands in Hx. rewrite He in Hx. injection Hx as _ Hex Hca.
  pose proof (emit_half (Z.to_nat (blocksize t)) (t_lastcarrylf t) (take (Z.to_nat (blocksize t)) (drop (Z.to_nat (t_offset t)) s))) as Hh.
  rewrite netascii_expand_emit in He by (rewrite length_take; lia). destruct (emit _ _ _) as [[o e'] c']. injection He as _ He _. apply Nat2Z.inj in He. subst e'.
  assert (blocksize t' = blocksize t /\ netascii t' = true) as [Eb Ea] by (unfold blocksize, netascii in *; by rewrite Es). split.
  - intros off d Hpf. rewrite Ep in Hpf. destruct (Hc _ _ Hpf) as [? Hc']. rewrite Ha in Hc'. rewrite Ea. split; [done|]. destruct Hc' as [Hle' _]. split; [lia|]. intros ->. lia.
  - intros _. rewrite Eb, El, Eo, <- Hca, <- Hex. split; [lia|]. replace (k + 1 - 1) with (k - 1 + 1) by lia. rewrite Z.mul_add_distr_r, Z.mul_1_l.
    rewrite Hcr in Hfull, Hend. rewrite !length_drop in *. unfold zlen in *.
    assert (0 <= (k - 1) * blocksize t) as Hp0 by nia. set (p := (k - 1) * blocksize t) in *. clearbody p. split; intros Hd.
    + destruct Hfull as [Hfull ?]; [lia|]. rewrite drop_drop in Hfull. split; [lia|].
      replace (Z.to_nat (t_offset t + _)) with (Z.to_nat (t_offset t) + (Z.to_nat (blocksize t) - e))%nat by lia. rewrite <- Hfull. f_equal. lia.
    + lia.
Qed.

(** The transfer waits for the acknowledgement of block [k - 1]; the last one
    was that of block [a]. *)
Record waiting (t : TftpTransfer) (s : list u8) (a k : Z) : Prop := {
  wt_block : t_lastack t <= k - 1 <= t_block t;
  wt_prev : t_ackprev t = a mod 65536 /\ t_block_hi t = a / 65536;
  wt_near : 0 <= a <= k - 1 /\ k - 1 <= a + 16384;
  wt_cached : cached t s;
  wt_first : k = 1 -> positioned t 1 s;
  wt_later : k <> 1 -> netascii t = true -> positioned t (k - 1) s /\ (k - 1 - 1) * blocksize t <= zlen (crlf false s) /\
    expands t s (chunk (blocksize t) (k - 1) (crlf false s));
}.

Lemma handle_build_ack t b now : 0 <= b < 65536 -> handle_tftp_packet t (build_ack b) now =
  let# hi := next_block_hi b (t_ackprev t) (t_block_hi t) in
  let block := as_u32 (Z.shiftl hi 16) + b in
  if (t_lastack t <=? block) && (block <=? t_block t) then
    let# lastack := succ32 block in
    let moves := netascii t && negb (block =? 0) in
    Val (AckAdvance lastack,
         mkTransfer (t_session t) 0 (Some now) now (t_block t) lastack b hi
           (if moves then t_offset t + (blocksize t - t_expansion t) else t_offset t) (t_expansion t) (t_carrylf t)
           (if moves then t_carrylf t else t_lastcarrylf t) (t_prefetch t))
  else
    Val (AckIgnored,
         mkTransfer (t_session t) (t_backoff t) (t_start t) (t_retransmit t) (t_block t) (t_lastack t) b hi
           (t_offset t) (t_expansion t) (t_carrylf t) (t_lastcarrylf t) (t_prefetch t)).
Proof.
  intros Hb. unfold handle_tftp_packet. assert ((length (build_ack b) <? 4)%nat = false) as ->.
  { unfold build_ack. by rewrite length_app, !length_to_be. }
  unfold build_ack. cbv zeta. rewrite opcode_be by done. change (drop 2) with (drop (A := u8) (2 + 0)). rewrite drop_be, drop_0.
  rewrite <- (app_nil_r (to_be 2 b)). rewrite opcode_be by done. done.
Qed.

Lemma ack_ok t s a k now : waiting t s a k -> 1 <= k < 4294967295 -> (netascii t = true -> 2 <= blocksize t) ->
  exists t', handle_tftp_packet t (build_ack (as_u16 (k - 1))) now = Val (AckAdvance k, t') /\ t_session t' = t_session t /\ t_lastack t' = k /\
    t_ackprev t' = (k - 1) mod 65536 /\ t_block_hi t' = (k - 1) / 65536 /\ cached t' s /\ positioned t' k s.
Proof.
  intros [Hbl [Hpr Hhi] [Ha Hn] Hc H1 H2] Hk Hb. unfold as_u16. rewrite handle_build_ack by (by apply Z.mod_pos_bound). rewrite Hpr, Hhi.
  rewrite next_hi by lia. cbv beta iota zeta. rewrite join_hi by lia. rewrite !(proj2 (Z.leb_le _ _)) by lia. cbn [andb].
  unfold succ32. rewrite (proj2 (Z.eqb_neq _ _)) by lia. eexists. split; [f_equal; f_equal; f_equal; lia|]. cbn [t_session t_lastack t_ackprev t_block_hi].
  split_and!; [done|lia|done|done|..]; destruct (Z.eqb_spec (k - 1) 0) as [E|E]; cbn [negb]; rewrite ?andb_false_r, ?andb_true_r; [done| | |].
  - destruct (netascii t) eqn:Ea; [|by apply (cached_same t)]. destruct (H2 ltac:(lia) eq_refl) as (P1 & P2 & P3). eapply (advance t _ (k - 1)); auto; lia.
  - assert (k = 1) as -> by lia. by apply H1.
  - destruct (netascii t) eqn:Ea; [|by intros Hx; unfold netascii in *; cbn in Hx; congruence].
    destruct (H2 ltac:(lia) eq_refl) as (P1 & P2 & P3). replace k with (k - 1 + 1) by lia. eapply (advance t _ (k - 1)); auto; lia.
Qed.

(** ** A round *)

Lemma positioned_same t t' k s : t_session t' = t_session t -> (netascii t = true -> t_offset t' = t_offset t /\ t_lastcarrylf t' = t_lastcarrylf t) ->
  positioned t k s -> positioned t' k s.
Proof.
  intros Es Eo Hp Ha. assert (netascii t = true) as Ha0 by (unfold netascii in *; by rewrite <- Es). destruct (Eo Ha0) as [E1 E2].
  specialize (Hp Ha0). unfold blocksize in *. by rewrite Es, E1, E2.
Qed.

(** After the window the next block is read ahead. *)
Lemma read_ahead files t s k m f : files_ok content files -> files !! ss_file (t_session t) = Some f -> s = content (tf_id f) -> 0 < blocksize t ->
  1 <= k -> 0 < m -> t_block t = k + m -> cached t s -> positioned t k s -> k <= last_block (t_session t) s ->
  exists res files' t', get_block fs files t = Val (Ok res, files', t') /\ files_ok content files' /\ same_names files files' /\
    same_session t t' /\ cached t' s /\ (netascii t = true -> expands t' s (chunk (blocksize t) k (crlf false s))).
Proof.
  intros Hf Hr -> Hb Hk Hm Ht Hc Hp Hl. destruct (netascii t) eqn:Ha.
  - destruct (get_block_ascii content fs files t k f Hst Hf Hr Hb) as (f' & t' & [Hg H1 H2 H3 H4 H5]); [lia|done..|].
    eexists _, f', t'. split; [exact Hg|]. split_and!; [done..|]. intros _. apply H5; [done|]. apply Z.leb_le.
    pose proof (last_block_spec t (content (tf_id f)) k Hb) as E. rewrite Ha in E. cbn [stream] in E. rewrite E. by apply Z.leb_le.
  - destruct (get_block_octet content fs files t (k + m) f Hst Hf Hr) as (f' & t' & [Hg H1 H2 H3 H4 H5]); [lia|lia|done..|].
    eexists _, f', t'. split; [exact Hg|]. split_and!; [done..|discriminate].
Qed.

(** What a session that delivers has agreed on. *)
Record agreed (ss : Session) (s : list u8) : Prop := {
  ag_block : (if ss_netascii ss then 2 else 1) <= ro_blocksize (ss_options ss);
  ag_window : 1 <= ro_windowsize (ss_options ss) <= 16384 /\ (ss_netascii ss = true -> ro_windowsize (ss_options ss) = 1);
  ag_length : last_block ss s < 4294967294;
}.

Record round (files : Files) (t : TftpTransfer) (s : list u8) (k m : Z) (files' : Files) (t' : TftpTransfer) : Prop := {
  rd_files : files_ok content files';
  rd_names : same_names files files';
  rd_session : t_session t' = t_session t;
  rd_waiting : k <= last_block (t_session t) s -> waiting t' s (k - 1) (k + m);
}.

Lemma round_waiting t1 t2 t s w k files files1 : agreed (t_session t) s -> 1 <= k <= last_block (t_session t) s -> w = Z.to_nat (windowsize t) ->
  t_session t1 = t_session t -> t_lastack t1 = k -> t_ackprev t1 = (k - 1) mod 65536 -> t_block_hi t1 = (k - 1) / 65536 -> positioned t1 k s ->
  window_sent files (put_block k (schedule_retransmit t1)) s w k (count w (last_block (t_session t) s) k) files1 t2 ->
  forall t3, same_session t2 t3 -> cached t3 s -> (netascii t2 = true -> expands t3 s (chunk (blocksize t2) k (crlf false s))) ->
  t_session t3 = t_session t /\ waiting t3 s (k - 1) (k + count w (last_block (t_session t) s) k).
Proof.
  intros [Hb [Hw Hw1] Hl] Hk -> E1 E2 E3 E4 Hp [_ _ (W1 & W2 & W3 & W4) W5 W6 W7 W8 _] t3 (S1 & S2 & S3 & S4 & S5 & S6 & S7 & S8 & S9 & S10) Hc Hx.
  cbn in *. set (m := count _ _ _) in *. assert (1 <= m <= windowsize t) as Hm by (unfold m, count, windowsize in *; lia).
  assert (netascii t2 = ss_netascii (t_session t) /\ netascii t3 = ss_netascii (t_session t) /\ blocksize t3 = blocksize t2 /\
    netascii t1 = ss_netascii (t_session t)) as (A2 & A3 & B3 & A1) by (unfold netascii, blocksize in *; by rewrite S1, W1, E1).
  split; [congruence|]. unfold windowsize in Hm. split.
  - rewrite S6, W2, S5, W6. lia.
  - rewrite S7, W3, S8, W4. done.
  - lia.
  - done.
  - intros Hone. lia.
  - rewrite A3. intros _ Ha. assert (m = 1) as Hm1 by (specialize (Hw1 Ha); lia). rewrite Hm1, B3. replace (k + 1 - 1) with k by lia. split_and!.
    + apply (positioned_same t1); [congruence| |done]. intros Ha1. rewrite S9, S10 by congruence. by apply W5.
    + pose proof (last_block_spec t3 s k) as H. rewrite A3, Ha, B3, S1, W1, E1 in H. cbn [stream] in H. apply Z.leb_le. rewrite H; [apply Z.leb_le; lia|].
      unfold blocksize. rewrite W1, E1. rewrite Ha in Hb. lia.
    + apply Hx. congruence.
Qed.

Lemma process_round files t s a k f now : files_ok content files -> files !! ss_file (t_session t) = Some f -> s = content (tf_id f) ->
  agreed (t_session t) s -> waiting t s a k -> 1 <= k <= last_block (t_session t) s + 1 ->
  exists files' t', let m := count (Z.to_nat (windowsize t)) (last_block (t_session t) s) k in
  process_transfer_packet fs now files t (build_ack (as_u16 (k - 1)))
    = Val (last_block (t_session t) s <? k, files', t', block_sent (t_session t) s <$> seqZ k m) /\ round files t s k m files' t'.
Proof.
  intros Hf Hr Hs Hag Hwt Hk. pose proof (ag_block _ _ Hag) as Hb. pose proof (ag_window _ _ Hag) as [Hw Hw1]. pose proof (ag_length _ _ Hag) as Hl.
  destruct (ack_ok t s a k now Hwt) as (t1 & Hh & E1 & E2 & E3 & E4 & Hc & Hp); [lia|intros Ha; unfold netascii, blocksize in *; by rewrite Ha in Hb|].
  unfold process_transfer_packet. rewrite Hh. cbv beta iota. unfold send_next, send_window. cbv zeta. set (t0 := put_block _ _).
  assert (t_block t0 = k /\ windowsize t0 = windowsize t) as [-> ->] by (unfold t0, windowsize; cbn; by rewrite E1, E2).
  rewrite (proj2 (Z.eqb_neq k 0)) by lia. cbn [negb]. assert (t_session t0 = t_session t) as Es0 by exact E1.
  assert (blocksize t0 = ro_blocksize (ss_options (t_session t)) /\ netascii t0 = ss_netascii (t_session t)) as [Eb0 Ea0]
    by (unfold blocksize, netascii; by rewrite Es0).
  destruct (send_window_ok s (Z.to_nat (windowsize t)) true files t0 k f) as (files1 & t2 & Hsend & Hwin).
  { exact Hf. } { by rewrite Es0. } { exact Hs. } { rewrite Eb0. destruct (ss_netascii _); lia. } { lia. } { exact E2. } { exact Hc. } { intros _. by apply (positioned_same t1). }
  { rewrite Ea0. intros Ha. unfold windowsize. rewrite Hw1 by done. done. } { by rewrite Es0. }
  rewrite Es0 in Hsend, Hwin. rewrite Hsend. cbv beta iota zeta. assert (Z.to_nat (windowsize t) <> 0%nat) as Hw0 by (unfold windowsize; lia).
  rewrite (proj2 (Nat.eqb_neq _ _) Hw0), andb_true_r. cbn [andb]. pose proof Hwin as [V1 V2 (V3 & _) V4 V5 V6 _ _].
  assert (t_session t2 = t_session t) as Es2 by (rewrite <- E1; exact V3).
  destruct (Z.ltb_spec (last_block (t_session t) s) k) as [Hd|Hd]; [exists files1, t2; split; [done|]; split; [done..|lia]|].
  destruct (lookup_names _ _ _ _ V2 Hr) as (f2 & Hr2 & Hi2 & _).
  destruct (read_ahead files1 t2 s k (count (Z.to_nat (windowsize t)) (last_block (t_session t) s) k) f2)
    as (res & files2 & t3 & Hg & G1 & G2 & G3 & G4 & G5).
  { exact V1. } { by rewrite Es2. } { by rewrite Hi2. } { unfold blocksize. rewrite Es2. destruct (ss_netascii _); lia. } { lia. } { unfold count, windowsize in *. lia. }
  { exact V5. } { exact V6. } { apply (positioned_same t0); [done|done|]. by apply (positioned_same t1). } { by rewrite Es2. }
  rewrite Hg. cbv beta iota. exists files2, t3. split; [done|].
  destruct (round_waiting t1 t2 t s (Z.to_nat (windowsize t)) k files files1 Hag (conj (proj1 Hk) Hd) eq_refl E1 E2 E3 E4 Hp) with (t3 := t3) as [R1 R2]; [|done..|].
  { assert (put_block k (schedule_retransmit t1) = t0) as -> by (unfold t0; by rewrite E2). exact Hwin. } split; [done|by eapply same_names_trans|done|done].
Qed.

(** ** The rounds of a download *)

Definition received (ss : Session) (s : list u8) (k : Z) : Client :=
  mkClient k (take (Z.to_nat ((k - 1) * ro_blocksize (ss_options ss))) (bytes_of ss s)).
Lemma receive_blocks ss s (n : nat) : 0 <= ro_blocksize (ss_options ss) -> forall k, 1 <= k ->
  fold_left client_receive (s_bytes <$> (block_sent ss s <$> seqZ k (Z.of_nat n))) (received ss s k) = received ss s (k + Z.of_nat n).
Proof.
  intros Hb. induction n as [|n IH]; intros k Hk; [by rewrite Z.add_0_r|]. rewrite seqZ_cons by lia. cbn [fmap list_fmap fold_left].
  replace (Z.pred (Z.of_nat (S n))) with (Z.of_nat n) by lia. replace (k + Z.of_nat (S n)) with (Z.succ k + Z.of_nat n) by lia. rewrite <- IH by lia. f_equal.
  unfold client_receive. cbn [s_bytes block_sent send_packet_to]. rewrite parse_build_data by (by apply Z.mod_pos_bound). cbn [received cl_next cl_data]. rewrite Z.eqb_refl.
  unfold received, chunk. f_equal. rewrite take_take_drop. f_equal.
  rewrite <- Z2Nat.inj_add; [f_equal; lia|apply Z.mul_nonneg_nonneg; lia|done].
Qed.

Lemma download_ok s : forall times files t a k f, files_ok content files -> files !! ss_file (t_session t) = Some f -> s = content (tf_id f) ->
  agreed (t_session t) s -> waiting t s a k -> 1 <= k <= last_block (t_session t) s + 1 ->
  last_block (t_session t) s + 2 - k <= Z.of_nat (length times) ->
  download fs times files t (received (t_session t) s k) = Val (true, received (t_session t) s (last_block (t_session t) s + 1)).
Proof.
  induction times as [|now times IH]; intros files t a k f Hf Hr Hs Hag Hwt Hk Hl; cbn [length] in Hl; [lia|].
  destruct (process_round files t s a k f now Hf Hr Hs Hag Hwt Hk) as (files1 & t1 & Hp & [R1 R2 R3 R4]). cbv zeta in Hp.
  cbn [download]. change (cl_next (received (t_session t) s k)) with k. rewrite Hp. cbv beta iota zeta.
  pose proof (ag_block _ _ Hag) as Hb. pose proof (ag_window _ _ Hag) as [Hw _].
  set (m := count _ _ _) in *. assert (0 <= m) as Hm by (unfold m, count; lia). rewrite <- (Z2Nat.id m) by done.
  rewrite receive_blocks by (destruct (ss_netascii _); lia). rewrite (Z2Nat.id m) by done. destruct (Z.ltb_spec (last_block (t_session t) s) k) as [Hd|Hd].
  - do 3 f_equal. unfold m, count. lia.
  - destruct (lookup_names _ _ _ _ R2 Hr) as (f1 & Hr1 & Hi & _). specialize (R4 Hd).
    assert (1 <= m <= last_block (t_session t) s - k + 1) as Hm1 by (unfold m, count, windowsize in *; lia). clearbody m.
    rewrite <- R3 at 1. rewrite (IH files1 t1 (k - 1) (k + m) f1); rewrite ?R3, ?Hi; auto; lia.
Qed.

Lemma received_all ss s : 0 < ro_blocksize (ss_options ss) -> cl_data (received ss s (last_block ss s + 1)) = bytes_of ss s.
Proof.
  intros Hb. apply take_ge. unfold last_block. set (b := ro_blocksize _) in *. unfold zlen.
  pose proof (Z.div_mod (Z.of_nat (length (bytes_of ss s))) b) as E. pose proof (Z.mod_pos_bound (Z.of_nat (length (bytes_of ss s))) b Hb). nia.
Qed.
Lemma received_none ss s : received ss s 1 = mkClient 1 [].
Proof. unfold received. by rewrite Z.sub_diag, Z.mul_0_l. Qed.

(** ** The first packet *)

Lemma start_waiting env ss files f : en_fs env = fs -> files_ok content files -> files !! ss_file ss = Some f -> agreed ss (content (tf_id f)) ->
  exists p files' t k, start_transfer env ss files = Val (Ok p, files', t) /\ files_ok content files' /\ same_names files files' /\ t_session t = ss /\
    waiting t (content (tf_id f)) 0 k /\ 1 <= k <= last_block ss (content (tf_id f)) + 1 /\
    client_receive (mkClient 1 []) (packet_of p) = received ss (content (tf_id f)) k.
Proof.
  intros Hfs Hf Hr Hag. unfold start_transfer. rewrite Hfs. cbv zeta. set (s := content (tf_id f)). set (t0 := mkTransfer ss _ _ _ _ _ _ _ _ _ _ _ _).
  pose proof (ag_block _ _ Hag) as Hb. assert (0 < ro_blocksize (ss_options ss)) as Hb0 by (destruct (ss_netascii ss); lia).
  assert (1 <= last_block ss s) as Hl1 by (unfold last_block; pose proof (Z.div_pos (zlen (bytes_of ss s)) (ro_blocksize (ss_options ss))); unfold zlen in *; lia).
  assert (t_offset t0 = 0 /\ t_lastcarrylf t0 = false /\ t_prefetch t0 = None /\ t_ackprev t0 = 0 /\ t_block_hi t0 = 0 /\ t_lastack t0 = t_block t0)
    as (Eo & El & Ep & Ea & Eh & Ela) by (unfold t0; by destruct (any_option_negotiated _)).
  assert (positioned t0 1 s) as Hp by (intros _; rewrite Eo, El; unfold zlen; split_and!; [done|intros _; split; [lia|done]|lia]).
  assert (cached t0 s) as Hc by (intros off d; by rewrite Ep).
  destruct (any_option_negotiated (ss_options ss)) eqn:En.
  - assert (t_block t0 = 0) as Eb by done. unfold get_block. rewrite Eb. cbn [Z.eqb].
    eexists _, files, t0, 1. split; [done|]. split_and!; [done|apply same_names_refl|done| |lia|lia|].
    + split; [lia|done|lia|done|done|done].
    + rewrite received_none. unfold client_receive. cbn [packet_of]. unfold parse_data, build_oack. cbv zeta. destruct (_ <? _)%nat; [done|]. rewrite opcode_be by done. reflexivity.
  - assert (t_block t0 = 1) as Eb by done.
    destruct (get_block_spec content fs files t0 1 f Hst Hf Hr Hb0) as (files1 & t1 & [Hg H1 H2 H3 H4 H5]); [done..|]. destruct H3 as (S1 & S2 & S3 & S4 & S5 & S6 & S7 & S8 & S9 & S10).
    assert (block_result t0 1 s = Data (build_data (as_u16 1) (chunk (blocksize t0) 1 (stream (netascii t0) s)))) as Er.
    { unfold block_result. rewrite Eb. rewrite (proj2 (Z.leb_le _ _)); [done|unfold zlen; lia]. }
    rewrite Hg. fold s. rewrite Er. eexists _, files1, t1, 2. split; [done|]. split_and!; [done|done|done| |lia|lia|].
    + split; [lia|by rewrite S7, S8, Ea, Eh|lia|done|lia|]. intros _ Ha. assert (netascii t0 = true) as Ha0 by (unfold netascii in *; by rewrite <- S1).
      replace (2 - 1) with 1 by lia. change ((1 - 1) * blocksize t1) with 0. split_and!; [by apply (positioned_same t0); [|intros _; auto|]|unfold zlen; lia|].
      assert (blocksize t1 = blocksize t0) as -> by (unfold blocksize; by rewrite S1). apply H5; [done|]. change ((1 - 1) * blocksize t0) with 0. unfold zlen. lia.
    + cbn [packet_of]. pose proof (receive_blocks ss s 1) as Hrb. specialize (Hrb ltac:(lia) 1 ltac:(lia)). rewrite received_none in Hrb. exact Hrb.
Qed.
End Download.

(** ** The theorem *)

Lemma request_windowsize options a v4 mtu nb sz : let o := parse_request_options options a v4 mtu nb sz in
  1 <= ro_windowsize o <= TFTP_MAX_WINDOW /\ (a = true -> ro_windowsize o = 1).
Proof.
  cbv zeta. unfold parse_request_options.
  assert (1 <= ro_windowsize default_options <= TFTP_MAX_WINDOW /\ (a = true -> ro_windowsize default_options = 1)) as Hd by done.
  revert Hd. generalize default_options. induction options as [|[k v] options IH]; intros o Ho; [done|]. cbn [fold_left]. apply IH. unfold request_option. cbv zeta.
  destruct (_ && _); [done|]. destruct (_ && _); [done|]. destruct (bool_decide _); [done|]. destruct (_ && negb a) eqn:E; [|done].
  apply andb_true_iff in E as [_ E]. destruct a; [done|]. split; [|done]. cbn [put_windowsize ro_windowsize].
  set (x := if _ <? 1 then 1 else _). assert (1 <= x) by (unfold x; case_match; lia). unfold TFTP_MAX_WINDOW in *. destruct (Z.ltb_spec 32 x); lia.
Qed.

(** C17: A client that acknowledges what it receives gets the whole file, whatever
    window the server agrees to, and across wraps of the block number on the
    wire. In octet mode that holds for every block size the server agrees to; in
    netascii mode for every one of at least two bytes, since a transfer with
    blocks of one byte, to which the server agrees too, never gets past a line
    feed ([netascii_stuck]). The file stays as it is during the transfer and
    reading it does not fail, it takes fewer than 2^32 - 2 blocks, and the client
    acknowledges at least once for every block. *)
Theorem tftp_download_complete content env ss files f options v4 mtu nb sz times :
  stable content (en_fs env) -> files_ok content files -> files !! ss_file ss = Some f ->
  ss_options ss = parse_request_options options (ss_netascii ss) v4 mtu nb sz ->
  (if ss_netascii ss then 2 else 1) <= ro_blocksize (ss_options ss) ->
  last_block ss (content (tf_id f)) < 4294967294 ->
  last_block ss (content (tf_id f)) + 1 <= Z.of_nat (length times) ->
  exists p files' t cl, start_transfer env ss files = Val (Ok p, files', t) /\
    download (en_fs env) times files' t (client_receive (mkClient 1 []) (packet_of p)) = Val (true, cl) /\
    cl_data cl = stream (ss_netascii ss) (content (tf_id f)).
Proof.
  intros Hst Hf Hr Ho Hb Hl Ht. destruct (request_windowsize options (ss_netascii ss) v4 mtu nb sz) as [Hw Hw1]. rewrite <- Ho in *.
  unfold TFTP_MAX_WINDOW in Hw. assert (agreed ss (content (tf_id f))) as Hag by (split; [done|split; [lia|done]|done]).
  destruct (start_waiting content (en_fs env) Hst env ss files f eq_refl Hf Hr Hag) as (p & files' & t & k & Hs & H1 & H2 & H3 & H4 & H5 & H6).
  destruct (lookup_names _ _ _ _ H2 Hr) as (f' & Hr' & Hi & _).
  exists p, files', t, (received ss (content (tf_id f)) (last_block ss (content (tf_id f)) + 1)). split; [done|]. split.
  - rewrite H6. rewrite <- H3 in *. by apply (download_ok content (en_fs env) Hst _ times files' t 0 k f'); rewrite ?Hi; auto; lia.
  - rewrite received_all; [done|]. destruct (ss_netascii ss); lia.
Qed.

(** ** Examples *)

Module Example.
Import TftpSpec.Example.
Definition ascii_options (size : str) : RequestOptions :=
  parse_request_options [(bs "blksize", size)] true true None false 4096.
Definition session (size : str) : Session := mkSession client (V4 0x0a000001) 0 false 0 true (ascii_options size).
Definition store : gmap nat TftpFile := {[ 0%nat := mkFile (1, 2) (zlen text) (bs "/srv/f") 0 0 ]}.
Lemma store_ok : files_ok content store.
Proof. intros r f Hl. unfold store in Hl. apply lookup_singleton_Some in Hl as [_ <-]. by split. Qed.

Lemma tftp_download_complete_witness : exists p files' t cl, start_transfer (world 0) (session (bs "2")) store = Val (Ok p, files', t) /\
  download disk [1; 2; 3; 4; 5] files' t (client_receive (mkClient 1 []) (packet_of p)) = Val (true, cl) /\
  cl_data cl = bs "a" ++ [CR; newline; CR; newline] ++ bs "bc".
Proof.
  apply (tftp_download_complete content (world 0) (session (bs "2")) store (mkFile (1, 2) (zlen text) (bs "/srv/f") 0 0)
    [(bs "blksize", bs "2")] true None false 4096 [1; 2; 3; 4; 5]);
    [apply disk_stable|apply store_ok|by vm_compute|done|by vm_compute..].
Defined.

(** With one byte a block a netascii transfer never gets past its first line
    feed: the CR is sent again and again. *)
Example netascii_stuck : exists p files' t, start_transfer (world 0) (session (bs "1")) store = Val (Ok p, files', t) /\
  download disk (replicate 40 1) files' t (mkClient 1 []) = Val (false, mkClient 41 (bs "a" ++ replicate 39 CR)).
Proof. eexists _, _, _. split; [vm_compute; reflexivity|]. vm_compute. reflexivity. Qed.

(** A read that fails behind the start of its block leaves the position of the
    file elsewhere than remembered, and the next read takes other bytes. *)
Definition flaky : FileSystem :=
  mkFs (fun _ => false) (fun _ => OpenNotFound) 0 (fun _ _ => None)
    (fun id pos n => if (pos =? 2) && (n =? 2)%nat then Err (bs "I/O error", 3) else Ok (take n (drop (Z.to_nat pos) (content id)))).
Example stale_position : let f := mkFile (1, 2) (zlen text) (bs "/srv/f") 0 0 in
  let '(failed, f) := read_file flaky f 2 2 in
  failed = Err (bs "I/O error") /\ fst (read_file flaky f 0 1) = Ok (take 1 (drop 3 text)) /\ take 1 (drop 3 text) <> take 1 text.
Proof. vm_compute. by split_and!. Qed.
End Example.
