(* ===== verification/Crypto.v ===== *)
(** * Keys and signatures: src/src/crypto.rs

    Which algorithms are known, how the bytes of a key are read and how a key
    is paired with an algorithm. What the cryptographic crates compute is a
    parameter, [CryptoLib]. *)

From Stdlib Require Import ZArith Lia String.
From stdpp Require Import base numbers list option.
From S2P Require Import Prelude.

#[local] Open Scope Z_scope.

Inductive DnssecAlgorithm : Type := RsaSha1 | RsaSha256 | RsaSha512 | EcdsaP256 | EcdsaP384 | Ed25519 | Ed448.

Inductive CryptoError : Type :=
| UnsupportedAlgorithm (v : Z)
| KeyAlgorithmMismatch (requested : DnssecAlgorithm)
| InvalidKey
| InvalidSignature
| VerificationFailed.

Definition DnssecAlgorithm_as (a : DnssecAlgorithm) : Z :=
  match a with RsaSha1 => 5 | RsaSha256 => 8 | RsaSha512 => 10 | EcdsaP256 => 13 | EcdsaP384 => 14 | Ed25519 => 15 | Ed448 => 16 end.
Definition DnssecAlgorithm_try_from (v : Z) : result DnssecAlgorithm CryptoError :=
  match v with
  | 5 => Ok RsaSha1 | 8 => Ok RsaSha256 | 10 => Ok RsaSha512 | 13 => Ok EcdsaP256 | 14 => Ok EcdsaP384
  | 15 => Ok Ed25519 | 16 => Ok Ed448
  | _ => Err (UnsupportedAlgorithm v)
  end.

(** The digests a signature is made over. *)
Inductive SigHash : Type := HashSha1 | HashSha256 | HashSha512.

(** The crates: digests; keys from a modulus and an exponent or from the bytes
    of a point; whether bytes are a signature, and whether it is one of the
    data under the key. *)
Class CryptoLib : Type := {
  sha1 : list u8 -> list u8;
  sha256 : list u8 -> list u8;
  sha384 : list u8 -> list u8;
  RsaPublicKey : Type;
  rsa_new : Z -> Z -> option RsaPublicKey;
  rsa_sig_ok : list u8 -> bool;
  rsa_verify : SigHash -> RsaPublicKey -> list u8 -> list u8 -> bool;
  P256Key : Type;
  p256_from_sec1 : list u8 -> option P256Key;
  p256_sig_ok : list u8 -> bool;
  p256_verify : P256Key -> list u8 -> list u8 -> bool;
  P384Key : Type;
  p384_from_sec1 : list u8 -> option P384Key;
  p384_sig_ok : list u8 -> bool;
  p384_verify : P384Key -> list u8 -> list u8 -> bool;
  Ed25519Key : Type;
  ed25519_from_bytes : list u8 -> option Ed25519Key;
  ed25519_verify : Ed25519Key -> list u8 -> list u8 -> bool;
}.

Section Crypto.
Context `{CryptoLib}.

(** The variants of [DnssecPublicKey]. *)
Inductive DnssecPublicKey : Type :=
| KeyRsaSha256 (k : RsaPublicKey)
| KeyRsaSha512 (k : RsaPublicKey)
| KeyEcdsaP256 (k : P256Key)
| KeyEcdsaP384 (k : P384Key)
| KeyEd25519 (k : Ed25519Key).

Definition parse_rsa_key (key_data : list u8) : result RsaPublicKey CryptoError :=
  match key_data with
  | [] => Err InvalidKey
  | b :: tail =>
    let? (exp_len, rest) :=
      (if u8z b =? 0 then
         if (length key_data <? 3)%nat then Err InvalidKey else Ok (Z.to_nat (of_be (take 2 tail)), drop 2 tail)
       else Ok (Z.to_nat (u8z b), tail)) in
    if (length rest <? exp_len)%nat then Err InvalidKey
    else
      let e_bytes := take exp_len rest in
      let n_bytes := drop exp_len rest in
      if (length n_bytes =? 0)%nat then Err InvalidKey
      else ok_or (rsa_new (of_be n_bytes) (of_be e_bytes)) InvalidKey
  end.

Definition parse_dnskey (algorithm : Z) (key_data : list u8) : result DnssecPublicKey CryptoError :=
  let? a := DnssecAlgorithm_try_from algorithm in
  match a with
  | RsaSha1 | RsaSha256 => let? key := parse_rsa_key key_data in Ok (KeyRsaSha256 key)
  | RsaSha512 => let? key := parse_rsa_key key_data in Ok (KeyRsaSha512 key)
  | EcdsaP256 =>
    if negb (length key_data =? 64)%nat then Err InvalidKey
    else let? key := ok_or (p256_from_sec1 (Byte.x04 :: key_data)) InvalidKey in Ok (KeyEcdsaP256 key)
  | EcdsaP384 =>
    if negb (length key_data =? 96)%nat then Err InvalidKey
    else let? key := ok_or (p384_from_sec1 (Byte.x04 :: key_data)) InvalidKey in Ok (KeyEcdsaP384 key)
  | Ed25519 =>
    if negb (length key_data =? 32)%nat then Err InvalidKey
    else let? key := ok_or (ed25519_from_bytes key_data) InvalidKey in Ok (KeyEd25519 key)
  | Ed448 => Err (UnsupportedAlgorithm algorithm)
  end.

(** A signature that can be read either verifies or is an error. *)
Definition verified_if (sig_ok verifies : bool) : result bool CryptoError :=
  if negb sig_ok then Err InvalidSignature else if verifies then Ok true else Err VerificationFailed.

Definition verify_sig (data sig : list u8) (key : DnssecPublicKey) (algorithm : DnssecAlgorithm) : result bool CryptoError :=
  match key, algorithm with
  | KeyRsaSha256 k, RsaSha256 => verified_if (rsa_sig_ok sig) (rsa_verify HashSha256 k data sig)
  | KeyRsaSha256 k, RsaSha1 => verified_if (rsa_sig_ok sig) (rsa_verify HashSha1 k data sig)
  | KeyRsaSha512 k, RsaSha512 => verified_if (rsa_sig_ok sig) (rsa_verify HashSha512 k data sig)
  | KeyEcdsaP256 k, EcdsaP256 =>
    if negb (length sig =? 64)%nat then Err InvalidSignature else verified_if (p256_sig_ok sig) (p256_verify k data sig)
  | KeyEcdsaP384 k, EcdsaP384 =>
    if negb (length sig =? 96)%nat then Err InvalidSignature else verified_if (p384_sig_ok sig) (p384_verify k data sig)
  | KeyEd25519 k, Ed25519 =>
    if negb (length sig =? 64)%nat then Err InvalidSignature else verified_if true (ed25519_verify k data sig)
  | _, Ed448 => Err (UnsupportedAlgorithm (DnssecAlgorithm_as algorithm))
  | _, _ => Err (KeyAlgorithmMismatch algorithm)
  end.
End Crypto.

(** ** What is supported *)

Definition ds_digest_name (digest : Z) : option string :=
  match digest with 1 => Some "sha1"%string | 2 => Some "sha256"%string | 4 => Some "sha384"%string | _ => None end.
Definition algo_digest_name (algo : Z) : option string :=
  match algo with
  | 5 => Some "sha1"%string | 7 => Some "sha1"%string | 8 => Some "sha256"%string | 10 => Some "sha512"%string
  | 13 => Some "sha256"%string | 14 => Some "sha384"%string | 15 => Some "null_hash"%string
  | _ => None
  end.
Definition nsec3_digest_name (digest : Z) : option string := match digest with 1 => Some "sha1"%string | _ => None end.
Definition algo_supported (algo : Z) : bool := negb (bool_decide (algo_digest_name algo = None)).
Definition ds_digest_supported (digest : Z) : bool := negb (bool_decide (ds_digest_name digest = None)).

(** ** Facts *)

(** A key read for an algorithm is never refused for being of another one, and
    its size is that of the algorithm. *)
Lemma parsed_key_matches `{CryptoLib} algorithm a key_data key data sig :
  parse_dnskey algorithm key_data = Ok key -> DnssecAlgorithm_try_from algorithm = Ok a ->
  a <> Ed448 /\ verify_sig data sig key a <> Err (KeyAlgorithmMismatch a) /\ verify_sig data sig key a <> Ok false.
Proof.
  intros Hp Ha. unfold parse_dnskey in Hp. rewrite Ha in Hp. assert (forall x y, verified_if x y <> Err (KeyAlgorithmMismatch a) /\ verified_if x y <> Ok false) as Hv
    by (intros [] []; done).
  destruct a; repeat (case_match; try done); simplify_eq; split_and!; try done; cbn [verify_sig]; repeat (case_match; try done); apply Hv.
Qed.

(** Algorithm 7 counts as supported, but no signature of it can be checked. *)
Example rsasha1_nsec3_unusable : algo_supported 7 = true /\ DnssecAlgorithm_try_from 7 = Err (UnsupportedAlgorithm 7).
Proof. by split. Qed.
