(* ===== verification/Dnssec.v ===== *)
(** * DNSSEC records and signatures: src/src/dnssec.rs, first part

    The wire form of the records, key tags, DS digests, canonical order, the
    bytes a signature covers and the validation of one RRset. The state of
    trust is in [DnssecChain], what it guarantees in [DnssecSpec]. *)

From Stdlib Require Import ZArith Lia String.
From stdpp Require Import base numbers list option.
From S2P Require Import Prelude Rfc1035 Crypto.

#[local] Open Scope Z_scope.

Inductive DnssecError : Type := RdataTooShort | InvalidSignerName | UnsupportedAlgorithmError (v : Z).

(** ** Names on the wire *)

(** The labels of a name, and the bytes they take. *)
Fixpoint wire_labels (fuel : nat) (buf : list u8) : result (list str * nat) DnssecError :=
  match fuel, buf with
  | O, _ | _, [] => Err RdataTooShort
  | S f, b :: rest =>
    let len := Z.to_nat (u8z b) in
    if (len =? 0)%nat then Ok ([], 1%nat)
    else if (63 <? len)%nat then Err InvalidSignerName
    else if (length rest <? len)%nat then Err RdataTooShort
    else if utf8_valid (take len rest) then
      let? (labels, n) := wire_labels f (drop len rest) in Ok (take len rest :: labels, (1 + len + n)%nat)
    else Err InvalidSignerName
  end.
Definition parse_wire_name (buf : list u8) : result (str * nat) DnssecError :=
  let? (labels, n) := wire_labels (S (length buf)) buf in Ok (join [dot] labels, n).

Definition wire_label (label : str) : list u8 := z8 (Z.of_nat (length label)) :: label.
Definition name_to_wire (name : str) : option (list u8) :=
  let labels := split_on dot (trim_end dot name) in
  if existsb (fun l => (63 <? length l)%nat) labels then None else Some (mjoin (wire_label <$> labels) ++ [Byte.x00]).

Definition count_labels (name : str) : Z :=
  match name with
  | [] => 0
  | b :: _ =>
    let dots := Z.of_nat (length (List.filter (fun c => bool_decide (c = dot)) name)) in
    if decide (b = dot) then dots else dots + 1
  end.

(** ** Records *)

Record RrsigData : Type := mkRrsig {
  rs_type_covered : Z; rs_algorithm : Z; rs_labels : Z; rs_orig_ttl : Z; rs_sig_expiry : Z; rs_sig_inception : Z; rs_key_tag : Z;
  rs_signer_name : str; rs_signature : list u8 }.
Definition be_at (rdata : list u8) (i n : nat) : Z := of_be (take n (drop i rdata)).
Definition parse_rrsig_rdata (rdata : list u8) : result RrsigData DnssecError :=
  if (length rdata <? 18)%nat then Err RdataTooShort
  else
    let? (signer_name, name_len) := parse_wire_name (drop 18 rdata) in
    Ok (mkRrsig (be_at rdata 0 2) (be_at rdata 2 1) (be_at rdata 3 1) (be_at rdata 4 4) (be_at rdata 8 4) (be_at rdata 12 4) (be_at rdata 16 2)
          signer_name (drop (18 + name_len) rdata)).

Record DnskeyData : Type := mkDnskey { dk_flags : Z; dk_protocol : Z; dk_algorithm : Z; dk_public_key : list u8 }.
Definition parse_dnskey_rdata (rdata : list u8) : result DnskeyData DnssecError :=
  if (length rdata <? 4)%nat then Err RdataTooShort
  else Ok (mkDnskey (be_at rdata 0 2) (be_at rdata 2 1) (be_at rdata 3 1) (drop 4 rdata)).

(** Bytes of even index count 256-fold; [ac] does not overflow below 64 KiB. *)
Fixpoint tag_sum (even : bool) (ac : Z) (bytes : list u8) : Z :=
  match bytes with
  | [] => ac
  | b :: rest => tag_sum (negb even) (ac + (if even then Z.shiftl (u8z b) 8 else u8z b)) rest
  end.
Definition tag_fold (ac : Z) : Z := Z.land (ac + Z.land (Z.shiftr ac 16) 65535) 65535.
Definition compute_key_tag (rdata : list u8) : Z := tag_fold (tag_sum true 0 rdata).
Definition dnskey_keytag (alg flags : Z) (key : list u8) : Z :=
  if alg =? 1 then
    if (4 <=? length key)%nat then be_at key (length key - 4) 2 else 0
  else tag_fold (tag_sum true (flags + 0x300 + alg) key).

Record DsData : Type := mkDsData { ds_key_tag : Z; ds_algorithm : Z; ds_digest_type : Z; ds_digest : list u8 }.
Definition parse_ds_rdata (rdata : list u8) : result DsData DnssecError :=
  if (length rdata <? 4)%nat then Err RdataTooShort
  else Ok (mkDsData (be_at rdata 0 2) (be_at rdata 2 1) (be_at rdata 3 1) (drop 4 rdata)).

Definition ds_matches_dnskey `{CryptoLib} (ds : DsData) (dnskey_rdata : list u8) (owner_name : str) : bool :=
  match name_to_wire owner_name with
  | None => false
  | Some wire =>
    match ds_digest_type ds with
    | 1 => bool_decide (sha1 (wire ++ dnskey_rdata) = ds_digest ds)
    | 2 => bool_decide (sha256 (wire ++ dnskey_rdata) = ds_digest ds)
    | 4 => bool_decide (sha384 (wire ++ dnskey_rdata) = ds_digest ds)
    | _ => false
    end
  end.

(** ** Arithmetic *)

Inductive SerialCmp : Type := SerialEqual | SerialLess | SerialGreater | SerialUndefined.
Definition serial_compare_32 (s1 s2 : Z) : SerialCmp :=
  if s1 =? s2 then SerialEqual
  else
    let half := 2147483648 in
    let lt := ((s1 <? s2) && (as_u32 (s2 - s1) <? half)) || ((s2 <? s1) && (half <? as_u32 (s1 - s2))) in
    let gt := ((s1 <? s2) && (half <? as_u32 (s2 - s1))) || ((s2 <? s1) && (as_u32 (s1 - s2) <? half)) in
    if lt then SerialLess else if gt then SerialGreater else SerialUndefined.

(** Whether the work limit is exceeded, and the counter after it. *)
Definition dec_counter (counter : Z) : bool * Z := if counter =? 0 then (true, counter) else (false, counter - 1).

Definition base32_val (b : u8) : option Z :=
  let z := u8z b in
  if (48 <=? z) && (z <=? 57) then Some (z - 48)
  else if (97 <=? z) && (z <=? 118) then Some (z - 97 + 10)
  else if (65 <=? z) && (z <=? 86) then Some (z - 65 + 10)
  else None.
(** The bits accumulated, how many, and the bytes that are complete. *)
Record BitAcc : Type := mkAcc { ba_oc : Z; ba_on : Z; ba_out : list u8 }.
Definition push_bit (val : Z) (a : BitAcc) (i : Z) : BitAcc :=
  let oc := as_u32 (Z.shiftl (ba_oc a) 1) in
  let oc := if Z.testbit val i then Z.lor oc 1 else oc in
  let on := ba_on a + 1 in
  if Z.land on 7 =? 0 then mkAcc 0 on (ba_out a ++ [z8 oc]) else mkAcc oc on (ba_out a).
Fixpoint base32_loop (input : str) (a : BitAcc) : option BitAcc :=
  match input with
  | [] => Some a
  | b :: rest => if decide (b = dot) then Some a else let! val := base32_val b in base32_loop rest (fold_left (push_bit val) [4; 3; 2; 1; 0] a)
  end.
Definition base32_decode (input : str) : option (list u8) :=
  let! a := base32_loop input (mkAcc 0 0 []) in if Z.land (ba_on a) 7 =? 0 then Some (ba_out a) else None.

Fixpoint hash_rounds (hash_fn : list u8 -> list u8) (salt : list u8) (n : nat) (digest : list u8) : list u8 :=
  match n with O => digest | S n => hash_rounds hash_fn salt n (hash_fn (digest ++ salt)) end.
Definition hash_name (name : str) (salt : list u8) (iterations : Z) (hash_fn : list u8 -> list u8) : option (list u8) :=
  let! wire := name_to_wire name in Some (hash_rounds hash_fn salt (Z.to_nat iterations) (hash_fn (wire ++ salt))).

(** ** The canonical order *)

(** [Ord] of vectors and of byte vectors. *)
Fixpoint lex {A} (cmp : A -> A -> comparison) (a b : list A) : comparison :=
  match a, b with
  | [], [] => Eq
  | [], _ => Lt
  | _, [] => Gt
  | x :: a, y :: b => match cmp x y with Eq => lex cmp a b | c => c end
  end.
Definition cmp_bytes : list u8 -> list u8 -> comparison := lex (fun x y => u8z x ?= u8z y).

(** A pass of the bubble sort over what follows [x]; whether it swapped. *)
Fixpoint sort_pass (x : DnsRr) (rest : list DnsRr) : list DnsRr * bool :=
  match rest with
  | [] => ([x], false)
  | y :: rest =>
    match cmp_bytes (rdata x) (rdata y) with
    | Gt => let '(l, _) := sort_pass x rest in (y :: l, true)
    | Eq => sort_pass x rest
    | Lt => let '(l, swapped) := sort_pass y rest in (x :: l, swapped)
    end
  end.
Fixpoint sort_loop (fuel : nat) (rrset : list DnsRr) : list DnsRr :=
  match fuel with
  | O => rrset
  | S f =>
    match rrset with
    | [] => []
    | x :: rest => let '(l, swapped) := sort_pass x rest in if swapped then sort_loop f l else l
    end
  end.
(** Every pass that swaps removes an inversion. *)
Definition sort_rrset (rrset : list DnsRr) : list DnsRr := sort_loop (S (length rrset * length rrset)) rrset.

(** The labels, last first, without case. *)
Definition canonical_labels (name : str) : list str := to_ascii_lowercase <$> rev (split_on dot (trim_end dot name)).
Definition cmp_labels : list str -> list str -> comparison := lex cmp_bytes.
Definition hostname_cmp (a b : str) : comparison := cmp_labels (canonical_labels a) (canonical_labels b).

(** ** RRsets *)

Definition T_RRSIG : Z := 46.

(** Whether a signer may sign for a name; both in lower case. *)
Definition encloses (signer name : str) : bool :=
  (length signer =? 0)%nat || bool_decide (name = signer) || negb (bool_decide (strip_suffix ([dot] ++ signer) name = None)).

Definition covers `{UnicodeTables} (name : str) (rrtype : Z) (rr : DnsRr) : bool :=
  (rtype rr =? T_RRSIG) && (18 <=? length (rdata rr))%nat && (be_at (rdata rr) 0 2 =? rrtype) &&
  match parse_wire_name (drop 18 (rdata rr)) with Ok (signer, _) => encloses (to_lowercase signer) (to_lowercase name) | Err _ => false end.
Definition of_owner `{UnicodeTables} (name : str) (rrclass : Z) (rr : DnsRr) : bool :=
  bool_decide (to_lowercase (r_name rr) = to_lowercase name) && (class rr =? rrclass).
Definition explore_rrset `{UnicodeTables} (records : list DnsRr) (name : str) (rrclass rrtype : Z) : list DnsRr * list DnsRr :=
  let own := List.filter (of_owner name rrclass) records in
  (List.filter (fun rr => rtype rr =? rrtype) own, List.filter (fun rr => negb (rtype rr =? rrtype) && covers name rrtype rr) own).

Inductive RrsetValidation : Type :=
| RrsetSecure (ttl key_tag : Z)
| RrsetNeedKey (signer : str) (key_tag : Z)
| RrsetBogus (msg : str)
| RrsetNoSignatures.

(** The least TTL, [u32::MAX] without records. *)
Definition rr_ttl (rrset : list DnsRr) : Z := fold_right (fun r acc => Z.min (ttl r) acc) 4294967295 rrset.

(** The name a signature was made for: a wildcard when it has fewer labels. *)
Definition signed_owner (name : str) (labels : Z) : str :=
  let name_labels := count_labels name in
  if labels <? name_labels then bs "*." ++ join [dot] (drop (Z.to_nat (name_labels - labels)) (split_on dot name)) else name.

Definition signed_rr (wire_owner : list u8) (rrtype rrclass : Z) (orig_ttl : list u8) (rr : DnsRr) : list u8 :=
  wire_owner ++ to_be 2 rrtype ++ to_be 2 rrclass ++ orig_ttl ++ to_be 2 (as_u16 (Z.of_nat (length (rdata rr)))) ++ rdata rr.
Definition signer_of (rdata : list u8) : str := match parse_wire_name (drop 18 rdata) with Ok (n, _) => n | Err _ => [] end.

(** The bytes a signature covers, and the signature. *)
Definition signed_data (rdata : list u8) (sorted : list DnsRr) (name : str) (rrtype rrclass : Z) : option (list u8 * list u8) :=
  let! wire_signer := name_to_wire (signer_of rdata) in
  let! wire_owner := name_to_wire (signed_owner name (be_at rdata 3 1)) in
  let sig_start := (18 + length wire_signer)%nat in
  if (length rdata <=? sig_start)%nat then None
  else Some (take 18 rdata ++ wire_signer ++ mjoin (signed_rr wire_owner rrtype rrclass (take 4 (drop 4 rdata)) <$> sorted), drop sig_start rdata).

Section Validate.
Context `{UnicodeTables} `{CryptoLib}.

(** One signature; [None] when the next one is tried. *)
Definition try_rrsig (sorted : list DnsRr) (name : str) (rrtype rrclass now_ts : Z) (dnskey_rdata : option (list u8)) (rd : list u8) : option RrsetValidation :=
  if (length rd <? 18)%nat then None
  else
    let orig_ttl := be_at rd 4 4 in
    let sig_expiry := be_at rd 8 4 in
    let key_tag := be_at rd 16 2 in
    if now_ts <? be_at rd 12 4 then None
    else if sig_expiry <? now_ts then None
    else if count_labels name <? be_at rd 3 1 then None
    else match dnskey_rdata with
    | None => Some (RrsetNeedKey (signer_of rd) key_tag)
    | Some key =>
      let! algorithm := ok (DnssecAlgorithm_try_from (be_at rd 2 1)) in
      let! (data, signature) := signed_data rd sorted name rrtype rrclass in
      let! dnskey := ok (parse_dnskey_rdata key) in
      let! pubkey := ok (parse_dnskey (be_at rd 2 1) (dk_public_key dnskey)) in
      match verify_sig data signature pubkey algorithm with
      | Ok true => Some (RrsetSecure (Z.min (Z.min (rr_ttl sorted) orig_ttl) (Z.max 0 (sig_expiry - now_ts))) key_tag)
      | _ => None
      end
    end.
Fixpoint try_rrsigs (sorted rrsigs : list DnsRr) (name : str) (rrtype rrclass now_ts : Z) (dnskey_rdata : option (list u8)) (counter : Z)
  : RrsetValidation * Z :=
  match rrsigs with
  | [] => (RrsetBogus (bs "no valid signatures found"), counter)
  | sig :: rest =>
    let '(exceeded, counter) := dec_counter counter in
    if exceeded then (RrsetBogus (bs "no valid signatures found"), counter)
    else match try_rrsig sorted name rrtype rrclass now_ts dnskey_rdata (rdata sig) with
         | Some r => (r, counter)
         | None => try_rrsigs sorted rest name rrtype rrclass now_ts dnskey_rdata counter
         end
  end.
Definition validate_rrset (rrset_in rrsigs : list DnsRr) (name : str) (rrtype rrclass now_ts : Z) (dnskey_rdata : option (list u8)) (counter : Z)
  : RrsetValidation * Z :=
  match rrsigs with
  | [] => (RrsetNoSignatures, counter)
  | _ => try_rrsigs (sort_rrset rrset_in) rrsigs name rrtype rrclass now_ts dnskey_rdata counter
  end.
End Validate.

(** ** Failure flags *)

Definition DNSSEC_FAIL_UPSTREAM : Z := 2 ^ 0.
Definition DNSSEC_FAIL_NYV : Z := 2 ^ 1.
Definition DNSSEC_FAIL_EXP : Z := 2 ^ 2.
Definition DNSSEC_FAIL_NOKEYSUP : Z := 2 ^ 3.
Definition DNSSEC_FAIL_NOZONE : Z := 2 ^ 4.
Definition DNSSEC_FAIL_NOKEY : Z := 2 ^ 5.
Definition DNSSEC_FAIL_NODSSUP : Z := 2 ^ 6.
Definition DNSSEC_FAIL_NSEC3_ITERS : Z := 2 ^ 7.
Definition DNSSEC_FAIL_NONSEC : Z := 2 ^ 8.
Definition DNSSEC_FAIL_INDET : Z := 2 ^ 9.
Definition DNSSEC_FAIL_NOSIG : Z := 2 ^ 10.
Definition DNSSEC_FAIL_BADPACKET : Z := 2 ^ 11.
Definition DNSSEC_FAIL_WORK : Z := 2 ^ 12.

Definition EDE_UNSET : Z := 0.
Definition EDE_US_SERVFAIL : Z := 23.
Definition EDE_SIG_NYV : Z := 8.
Definition EDE_SIG_EXP : Z := 7.
Definition EDE_USUPDNSKEY : Z := 11.
Definition EDE_NO_ZONEKEY : Z := 9.
Definition EDE_NO_DNSKEY : Z := 10.
Definition EDE_USUPDS : Z := 12.
Definition EDE_UNS_NS3_ITER : Z := 27.
Definition EDE_NO_NSEC : Z := 14.
Definition EDE_DNSSEC_IND : Z := 13.
Definition EDE_NO_RRSIG : Z := 15.

Definition errflags_to_ede (status : Z) : Z :=
  let has_flag flag := negb (Z.land status flag =? 0) in
  if has_flag DNSSEC_FAIL_UPSTREAM then EDE_US_SERVFAIL
  else if has_flag DNSSEC_FAIL_NYV then EDE_SIG_NYV
  else if has_flag DNSSEC_FAIL_EXP then EDE_SIG_EXP
  else if has_flag DNSSEC_FAIL_NOKEYSUP then EDE_USUPDNSKEY
  else if has_flag DNSSEC_FAIL_NOZONE then EDE_NO_ZONEKEY
  else if has_flag DNSSEC_FAIL_NOKEY then EDE_NO_DNSKEY
  else if has_flag DNSSEC_FAIL_NODSSUP then EDE_USUPDS
  else if has_flag DNSSEC_FAIL_NSEC3_ITERS then EDE_UNS_NS3_ITER
  else if has_flag DNSSEC_FAIL_NONSEC then EDE_NO_NSEC
  else if has_flag DNSSEC_FAIL_INDET then EDE_DNSSEC_IND
  else if has_flag DNSSEC_FAIL_NOSIG then EDE_NO_RRSIG
  else EDE_UNSET.

(** ** Type bitmaps *)

(** Blocks of a window number, a length and that many bytes. *)
Fixpoint bitmap_loop (fuel : nat) (bitmap : list u8) (window_wanted : Z) (offset : nat) (mask : Z) : bool :=
  match fuel, bitmap with
  | S f, window :: len :: rest =>
    let bm_len := Z.to_nat (u8z len) in
    if (length rest <? bm_len)%nat then false
    else if u8z window =? window_wanted then
      match take bm_len rest !! offset with Some b => negb (Z.land (u8z b) mask =? 0) | None => false end
    else bitmap_loop f (drop bm_len rest) window_wanted offset mask
  | _, _ => false
  end.
Definition type_in_bitmap (bitmap : list u8) (rr_type : Z) : bool :=
  bitmap_loop (length bitmap) bitmap (Z.shiftr rr_type 8) (Z.to_nat (Z.shiftr (Z.land rr_type 255) 3)) (Z.shiftr 128 (Z.land rr_type 7)).

(** ** Queries for keys *)

Definition dnssec_generate_query (name : str) (qclass qtype id : Z) : list u8 :=
  to_be 2 id ++ [Byte.x01; Byte.x00] ++ to_be 2 1 ++ to_be 2 0 ++ to_be 2 0 ++ to_be 2 0 ++
  mjoin (wire_label <$> List.filter (fun l => negb (length l =? 0)%nat) (split_on dot (trim_end dot name))) ++ [Byte.x00] ++
  to_be 2 qtype ++ to_be 2 qclass.

(** ** Clocks *)

Inductive TimestampSetup : Type := NotConfigured | ClockSane | ClockNotYetSane.
Definition setup_timestamp (timestamp_file_mtime : option Z) (now : Z) : TimestampSetup :=
  match timestamp_file_mtime with
  | None => NotConfigured
  | Some mtime => if mtime <=? now then ClockSane else ClockNotYetSane
  end.
Definition timestamp_clock_now_sane (timestamp_file_mtime now : Z) : bool := timestamp_file_mtime <=? now.
Definition is_check_date (has_timestamp_file back_to_the_future no_time_check : bool) : bool :=
  if has_timestamp_file then back_to_the_future else negb no_time_check.
Definition check_signature_time (inception expiration now : Z) : bool :=
  (as_u32 (now - inception) <? 0x80000000) && (as_u32 (expiration - now) <? 0x80000000).

(** ** Canonical RDATA *)

(** Numbers of bytes; 0 is a name and -1 the rest. *)
Definition for_type (rr_type : Z) : list Z :=
  match rr_type with
  | 1 => [-1] | 2 | 5 | 12 => [0] | 6 => [0; 0; -1] | 15 => [2; 0] | 28 => [-1] | 33 => [6; 0] | 46 => [18; 0; -1]
  | _ => [-1]
  end.
(** A name in lower case, and what follows it. *)
Fixpoint lower_name (fuel : nat) (rdata : list u8) : option (list u8 * list u8) :=
  match fuel, rdata with
  | S f, b :: rest =>
    let label_len := Z.to_nat (u8z b) in
    if (label_len =? 0)%nat then Some ([b], rest)
    else if 0xc0 <=? u8z b then None
    else if (length rest <? label_len)%nat then None
    else let! (name, rest') := lower_name f (drop label_len rest) in Some (b :: to_ascii_lowercase (take label_len rest) ++ name, rest')
  | _, _ => None
  end.
Fixpoint canonical_fields (fields : list Z) (rdata : list u8) : option (list u8) :=
  match fields with
  | [] => Some []
  | field :: fields =>
    if field =? -1 then Some rdata
    else if field =? 0 then
      let! (name, rest) := lower_name (length rdata) rdata in let! tail := canonical_fields fields rest in Some (name ++ tail)
    else
      let n := Z.to_nat field in
      if (length rdata <? n)%nat then None
      else let! tail := canonical_fields fields (drop n rdata) in Some (take n rdata ++ tail)
  end.
Definition canonicalize_rdata (rdata : list u8) (rr_type : Z) : option (list u8) := canonical_fields (for_type rr_type) rdata.
