(* ===== verification/DnssecChain.v ===== *)
(** * The chain of trust: src/src/dnssec.rs, second part

    The store of DS records and keys, the status of a zone, proofs that a name
    or type does not exist, and the validation of replies to DNSKEY, DS and
    other queries. The work limit is threaded as a counter. *)

From Stdlib Require Import ZArith Lia String.
From stdpp Require Import base numbers list option gmap.
From S2P Require Import Prelude Rfc1035 Crypto Dnssec.

#[local] Open Scope Z_scope.

Inductive StatCode : Type :=
| StatSecure | StatInsecure | StatBogus
| StatNeedKey (name : str) (class : Z)
| StatNeedDs (name : str) (class : Z)
| StatAbandoned.
Record ValidateStatus : Type := mkStatus { vs_code : StatCode; vs_fail : Z }.
Definition secure : ValidateStatus := mkStatus StatSecure 0.
Definition insecure : ValidateStatus := mkStatus StatInsecure 0.
Definition bogus (fail : Z) : ValidateStatus := mkStatus StatBogus fail.
Definition need_key (name : str) (class : Z) : ValidateStatus := mkStatus (StatNeedKey name class) 0.
Definition need_ds (name : str) (class : Z) : ValidateStatus := mkStatus (StatNeedDs name class) 0.
Definition abandoned : ValidateStatus := mkStatus StatAbandoned 0.
Definition is_secure (s : ValidateStatus) : bool := match vs_code s with StatSecure => true | _ => false end.

(** ** The store *)

Definition norm_name (name : str) : str := to_ascii_lowercase (trim_end dot name).

Inductive DsState : Type := DsPositive (entries : list (DsData * Z)) | NegInsecure | NegNotZoneCut.
Record DnssecCache : Type := mkTrust { tr_ds : gmap str DsState; tr_dnskey : gmap str (list (list u8 * Z)) }.
Definition dnssec_cache_new : DnssecCache := mkTrust ∅ ∅.

Definition put_ds (name : str) (s : DsState) (c : DnssecCache) : DnssecCache := mkTrust (<[norm_name name := s]> (tr_ds c)) (tr_dnskey c).
Definition find_ds (c : DnssecCache) (name : str) : option DsState := tr_ds c !! norm_name name.
Definition insert_trust_anchor (name : str) (ds : DsData) (class : Z) (c : DnssecCache) : DnssecCache :=
  put_ds name (match find_ds c name with Some (DsPositive v) => DsPositive (v ++ [(ds, class)]) | _ => DsPositive [(ds, class)] end) c.
Definition insert_ds_positive (name : str) (entries : list (DsData * Z)) : DnssecCache -> DnssecCache := put_ds name (DsPositive entries).
Definition insert_ds_neg_insecure (name : str) : DnssecCache -> DnssecCache := put_ds name NegInsecure.
Definition insert_ds_neg_not_zone_cut (name : str) : DnssecCache -> DnssecCache := put_ds name NegNotZoneCut.
Definition insert_dnskey (name : str) (rdata : list u8) (class : Z) (c : DnssecCache) : DnssecCache :=
  mkTrust (tr_ds c) (<[norm_name name := default [] (tr_dnskey c !! norm_name name) ++ [(rdata, class)]]> (tr_dnskey c)).
Definition find_dnskeys (c : DnssecCache) (name : str) (class : Z) : list (list u8) :=
  fst <$> List.filter (fun e => snd e =? class) (default [] (tr_dnskey c !! norm_name name)).

(** ** The status of a zone *)

(** The suffixes of a name, the root first. *)
Definition dns_suffixes (name : str) : list str :=
  let name := norm_name name in
  match name with
  | [] => [[]]
  | _ => let labels := split_on dot name in [] :: ((fun i => join [dot] (drop i labels)) <$> rev (seq 0 (length labels)))
  end.
Definition ds_entry_supported (ds : DsData) : bool := ds_digest_supported (ds_digest_type ds) && algo_supported (ds_algorithm ds).

(** The last suffix with a DS entry, the root if there is none. *)
Definition trust_start (c : DnssecCache) (suffixes : list str) : nat :=
  default O (List.find (fun i => negb (bool_decide (mbind (find_ds c) (suffixes !! i) = None))) (rev (seq 0 (length suffixes)))).
Fixpoint walk_down (c : DnssecCache) (class : Z) (suffixes : list str) : ValidateStatus :=
  match suffixes with
  | [] => secure
  | suf :: rest =>
    match find_ds c suf with
    | None => need_ds suf class
    | Some NegInsecure => insecure
    | Some NegNotZoneCut => walk_down c class rest
    | Some (DsPositive entries) =>
      if existsb (fun e => (snd e =? class) && ds_entry_supported (fst e)) entries then walk_down c class rest else insecure
    end
  end.
Definition zone_status (name : str) (class : Z) (c : DnssecCache) : ValidateStatus :=
  let suffixes := dns_suffixes name in walk_down c class (drop (trust_start c suffixes) suffixes).

(** ** Keys *)

Definition T_DNSKEY : Z := 48.

Section Chain.
Context `{UnicodeTables} `{CryptoLib}.

(** The DS entries for one key: [Some true] when the RRset is validated,
    [Some false] when the work limit is reached; the flags and the counter. *)
Fixpoint try_ds_entries (rrset rrsigs : list DnsRr) (name : str) (class now_ts : Z) (key_rdata : list u8) (key : DnskeyData) (keytag : Z)
    (entries : list (DsData * Z)) (fail counter : Z) : option bool * Z * Z :=
  match entries with
  | [] => (None, fail, counter)
  | (ds, ds_class) :: rest =>
    let next := try_ds_entries rrset rrsigs name class now_ts key_rdata key keytag rest in
    if negb (ds_class =? class) then next fail counter
    else if negb (ds_digest_supported (ds_digest_type ds)) then next fail counter
    else
      let fail := Z.ldiff fail DNSSEC_FAIL_NODSSUP in
      if negb (ds_algorithm ds =? dk_algorithm key) || negb (ds_key_tag ds =? keytag) then next fail counter
      else
        let '(exceeded, counter) := dec_counter counter in
        if exceeded then (Some false, fail, counter)
        else if negb (ds_matches_dnskey ds key_rdata name) then next fail counter
        else
          let '(r, counter) := validate_rrset rrset rrsigs name T_DNSKEY class now_ts (Some key_rdata) counter in
          match r with RrsetSecure _ _ => (Some true, fail, counter) | _ => next fail counter end
  end.

Definition zone_key (key : DnskeyData) : bool := (dk_protocol key =? 3) && negb (Z.land (dk_flags key) 0x0100 =? 0).
Fixpoint try_keys (rrset rrsigs : list DnsRr) (name : str) (class now_ts : Z) (entries : list (DsData * Z)) (keys : list DnsRr) (fail counter : Z)
  : option bool * Z * Z :=
  match keys with
  | [] => (None, fail, counter)
  | key_rr :: rest =>
    match parse_dnskey_rdata (rdata key_rr) with
    | Err _ => try_keys rrset rrsigs name class now_ts entries rest fail counter
    | Ok key =>
      if negb (zone_key key) then try_keys rrset rrsigs name class now_ts entries rest fail counter
      else
        let fail := Z.ldiff fail DNSSEC_FAIL_NOZONE in
        let '(r, fail, counter) :=
          try_ds_entries rrset rrsigs name class now_ts (rdata key_rr) key (compute_key_tag (rdata key_rr)) entries fail counter in
        match r with
        | Some _ => (r, fail, counter)
        | None => try_keys rrset rrsigs name class now_ts entries rest fail counter
        end
    end
  end.

(** The keys of a validated RRset are stored, those of protocol 3. *)
Definition store_keys (name : str) (class : Z) (rrset : list DnsRr) (c : DnssecCache) : DnssecCache :=
  fold_left (fun c k => match parse_dnskey_rdata (rdata k) with
                        | Ok kd => if dk_protocol kd =? 3 then insert_dnskey name (rdata k) class c else c
                        | Err _ => c
                        end) rrset c.

Definition dnssec_validate_by_ds (records : list DnsRr) (name : str) (class now_ts : Z) (c : DnssecCache) (counter : Z)
  : ValidateStatus * DnssecCache * Z :=
  let '(rrset, rrsigs) := explore_rrset records name class T_DNSKEY in
  if (length rrset =? 0)%nat then (bogus DNSSEC_FAIL_NOKEY, c, counter)
  else if (length rrsigs =? 0)%nat then (bogus DNSSEC_FAIL_NOSIG, c, counter)
  else match find_ds c name with
  | None => (need_ds (norm_name name) class, c, counter)
  | Some s =>
    let entries := match s with DsPositive entries => entries | _ => [] end in
    let '(r, fail, counter) := try_keys rrset rrsigs name class now_ts entries rrset (Z.lor DNSSEC_FAIL_NODSSUP DNSSEC_FAIL_NOZONE) counter in
    match r with
    | Some true => (secure, store_keys name class rrset c, counter)
    | Some false => (abandoned, c, counter)
    | None => (bogus (Z.lor fail DNSSEC_FAIL_NOKEY), c, counter)
    end
  end.
End Chain.

(** ** NSEC *)

Definition T_NS : Z := 2.
Definition T_CNAME : Z := 5.
Definition T_SOA : Z := 6.
Definition T_DNAME : Z := 39.
Definition T_NSEC : Z := 47.
Definition T_NSEC3 : Z := 50.
Definition T_DS : Z := 43.
Definition DEFAULT_NSEC3_ITERS_LIMIT : Z := 150.

Record ParsedNsec : Type := mkNsec { ns_owner : str; ns_next : str; ns_bitmap : list u8; ns_sig_labels : Z }.
Definition parse_nsec_rdata (rdata : list u8) : option (str * list u8) :=
  let! (next, len) := ok (parse_wire_name rdata) in Some (next, drop len rdata).

(** The owner of an NSEC record: the wildcard it was expanded from, if any. *)
Definition nsec_owner (nsec : ParsedNsec) : str :=
  let name_labels := count_labels (ns_owner nsec) in
  if ns_sig_labels nsec <? name_labels then
    bs "*." ++ join [dot] (drop (Z.to_nat (name_labels - ns_sig_labels nsec)) (split_on dot (ns_owner nsec)))
  else ns_owner nsec.

Definition is_less (c : comparison) : bool := match c with Lt => true | _ => false end.

(** What the bitmap of the owner itself says of a type; whether an NS record
    is excluded. *)
Definition bitmap_says (bitmap : list u8) (qtype name_labels : Z) (nons : bool) : bool * bool :=
  let ns := negb (length bitmap =? 0)%nat && type_in_bitmap bitmap T_NS in
  let nons := if ns then false else nons in
  if negb (length bitmap =? 0)%nat && type_in_bitmap bitmap T_CNAME then (false, nons)
  else if negb (length bitmap =? 0)%nat && negb (name_labels =? 0) && (qtype =? T_DS) && type_in_bitmap bitmap T_SOA then (false, nons)
  else (negb (type_in_bitmap bitmap qtype), nons).

Fixpoint nsec_loop `{UnicodeTables} (nsecs : list ParsedNsec) (name : str) (qtype : Z) (nons : bool) : result unit Z * bool :=
  match nsecs with
  | [] => (Err DNSSEC_FAIL_NONSEC, nons)
  | nsec :: rest =>
    let owner := nsec_owner nsec in
    let next := ns_next nsec in
    if type_in_bitmap (ns_bitmap nsec) T_DNAME && is_subdomain name owner then (Err DNSSEC_FAIL_NONSEC, nons)
    else match hostname_cmp owner name with
    | Eq =>
      if (qtype =? T_NSEC) || (qtype =? T_RRSIG) then (Ok tt, nons)
      else let '(absent, nons) := bitmap_says (ns_bitmap nsec) qtype (count_labels (ns_owner nsec)) nons in
           (if absent then Ok tt else Err DNSSEC_FAIL_NONSEC, nons)
    | Lt =>
      if negb (is_less (hostname_cmp next name)) || negb (is_less (hostname_cmp owner next)) then (Ok tt, nons) else nsec_loop rest name qtype nons
    | Gt =>
      if negb (is_less (hostname_cmp owner next)) && negb (is_less (hostname_cmp next name)) then (Ok tt, nons) else nsec_loop rest name qtype nons
    end
  end.
Definition prove_non_existence_nsec `{UnicodeTables} (nsecs : list ParsedNsec) (name : str) (qtype : Z) : result unit Z * bool :=
  nsec_loop nsecs name qtype true.

(** ** NSEC3 *)

Record ParsedNsec3 : Type := mkNsec3 { n3_owner_hash : list u8; n3_next_hashed : list u8; n3_flags : Z; n3_bitmap : list u8 }.
Record ParsedNsec3Raw : Type := mkNsec3Raw {
  nr_algo : Z; nr_flags : Z; nr_iterations : Z; nr_salt : list u8; nr_owner_hash : list u8; nr_next_hashed : list u8; nr_bitmap : list u8 }.

(** The fields of the RDATA, the owner hash being given. *)
Definition parse_nsec3_rdata (owner_hash : list u8) (rdata : list u8) : option ParsedNsec3Raw :=
  if (length rdata <? 5)%nat then None
  else
    let salt_len := Z.to_nat (be_at rdata 4 1) in
    if (length rdata <? 5 + salt_len + 1)%nat then None
    else
      let hash_len := Z.to_nat (be_at rdata (5 + salt_len) 1) in
      let pos := (5 + salt_len + 1)%nat in
      if (length rdata <? pos + hash_len)%nat then None
      else Some (mkNsec3Raw (be_at rdata 0 1) (be_at rdata 1 1) (be_at rdata 2 2) (take salt_len (drop 5 rdata)) owner_hash
                   (take hash_len (drop pos rdata)) (drop (pos + hash_len) rdata)).

(** Whether a digest is shown not to exist, and [nons]. *)
Fixpoint check_nsec3_coverage (digest : list u8) (qtype : Z) (nsec3s : list ParsedNsec3) (nons : bool) (name_labels : Z) : bool * bool :=
  match nsec3s with
  | [] => (false, nons)
  | n :: rest =>
    if negb (length (n3_owner_hash n) =? length digest)%nat || negb (length (n3_next_hashed n) =? length digest)%nat then
      check_nsec3_coverage digest qtype rest nons name_labels
    else
      let opted := if negb (Z.land (n3_flags n) 1 =? 0) then false else nons in
      match cmp_bytes (n3_owner_hash n) digest with
      | Eq => bitmap_says (n3_bitmap n) qtype name_labels nons
      | Lt =>
        if negb (is_less (cmp_bytes (n3_next_hashed n) digest)) || negb (is_less (cmp_bytes (n3_owner_hash n) (n3_next_hashed n))) then (true, opted)
        else check_nsec3_coverage digest qtype rest nons name_labels
      | Gt =>
        if negb (is_less (cmp_bytes (n3_owner_hash n) (n3_next_hashed n))) && negb (is_less (cmp_bytes (n3_next_hashed n) digest)) then (true, opted)
        else check_nsec3_coverage digest qtype rest nons name_labels
      end
  end.

(** The parameters of the first record with a known digest, and the records
    that have the same. *)
Definition same_params (chosen r : ParsedNsec3Raw) : bool :=
  (nr_algo r =? nr_algo chosen) && ((nr_flags r =? 0) || (nr_flags r =? 1)) && (nr_iterations r =? nr_iterations chosen) &&
  bool_decide (nr_salt r = nr_salt chosen).
Definition prune (chosen : ParsedNsec3Raw) (raw : list ParsedNsec3Raw) : list ParsedNsec3 :=
  (fun r => mkNsec3 (nr_owner_hash r) (nr_next_hashed r) (nr_flags r) (nr_bitmap r)) <$> List.filter (same_params chosen) raw.

Section Nsec3.
Context `{CryptoLib}.

(** A digest within the work limit. *)
Definition counted_hash (chosen : ParsedNsec3Raw) (name : str) (counter : Z) : result (list u8) Z * Z :=
  let '(exceeded, counter) := dec_counter counter in
  if exceeded then (Err DNSSEC_FAIL_WORK, counter)
  else (ok_or (hash_name name (nr_salt chosen) (nr_iterations chosen) sha1) DNSSEC_FAIL_NONSEC, counter).

(** The walk to the closest encloser: the name below it, when it is found. *)
Fixpoint closest_encloser (fuel : nat) (chosen : ParsedNsec3Raw) (pruned : list ParsedNsec3) (wild_offset stripped : nat) (candidate : str)
    (next_closest : option str) (counter : Z) : result (option str) Z * Z :=
  match fuel with
  | O => (Ok None, counter)
  | S f =>
    if negb (wild_offset =? 0)%nat && (stripped =? wild_offset)%nat then (Ok None, counter)
    else
      let '(r, counter) := counted_hash chosen candidate counter in
      match r with
      | Err e => (Err e, counter)
      | Ok digest =>
        if existsb (fun n => bool_decide (n3_owner_hash n = digest)) pruned then (Ok next_closest, counter)
        else match split_once dot candidate with
             | Some (_, rest) => closest_encloser f chosen pruned wild_offset (S stripped) rest (Some candidate) counter
             | None => (Ok None, counter)
             end
      end
  end.

Definition covered (chosen : ParsedNsec3Raw) (pruned : list ParsedNsec3) (name : str) (qtype counter : Z) : result unit Z * Z :=
  let '(r, counter) := counted_hash chosen name counter in
  match r with
  | Err e => (Err e, counter)
  | Ok digest => (if fst (check_nsec3_coverage digest qtype pruned false 1) then Ok tt else Err DNSSEC_FAIL_NONSEC, counter)
  end.

Definition prove_encloser (chosen : ParsedNsec3Raw) (pruned : list ParsedNsec3) (name : str) (qtype : Z) (wild_offset : nat) (counter : Z)
  : result unit Z * Z :=
  let candidate := norm_name name in
  let '(r, counter) := closest_encloser (S (length candidate)) chosen pruned wild_offset 0 candidate None counter in
  match r with
  | Err e => (Err e, counter)
  | Ok None => (Err DNSSEC_FAIL_NONSEC, counter)
  | Ok (Some next_closest) =>
    let '(r, counter) := covered chosen pruned next_closest qtype counter in
    match r with
    | Err e => (Err e, counter)
    | Ok _ =>
      if (wild_offset =? 0)%nat then
        match split_once dot next_closest with
        | None => (Err DNSSEC_FAIL_NONSEC, counter)
        | Some (_, rest) =>
          if (length rest =? 0)%nat then (Err DNSSEC_FAIL_NONSEC, counter) else covered chosen pruned (bs "*." ++ rest) qtype counter
        end
      else (Ok tt, counter)
    end
  end.

Definition prove_non_existence_nsec3 (raw : list ParsedNsec3Raw) (name : str) (qtype : Z) (wild_offset : nat) (counter iters_limit : Z)
  : result unit Z * bool * Z :=
  match List.find (fun r => negb (bool_decide (nsec3_digest_name (nr_algo r) = None))) raw with
  | None => (Err DNSSEC_FAIL_NONSEC, true, counter)
  | Some chosen =>
    if iters_limit <? nr_iterations chosen then (Err DNSSEC_FAIL_NSEC3_ITERS, true, counter)
    else
      let pruned := prune chosen raw in
      let '(r, counter) := counted_hash chosen name counter in
      match r with
      | Err e => (Err e, true, counter)
      | Ok digest =>
        let '(absent, nons) := check_nsec3_coverage digest qtype pruned true (count_labels name) in
        if absent then (Ok tt, nons, counter)
        else let '(r, counter) := prove_encloser chosen pruned name qtype wild_offset counter in (r, nons, counter)
      end
  end.
End Nsec3.

(** ** Either *)

(** The label count the signatures of an NSEC record agree on. *)
Fixpoint nsec_sig_labels (sigs : list DnsRr) (found : option Z) : result (option Z) Z :=
  match sigs with
  | [] => Ok found
  | sig :: rest =>
    if (length (rdata sig) <? 18)%nat then Err DNSSEC_FAIL_BADPACKET
    else if negb (be_at (rdata sig) 0 2 =? T_NSEC) then nsec_sig_labels rest found
    else
      let labels := be_at (rdata sig) 3 1 in
      match found with
      | Some l => if negb (l =? labels) then Err DNSSEC_FAIL_NONSEC else nsec_sig_labels rest found
      | None => nsec_sig_labels rest (Some labels)
      end
  end.
Fixpoint parse_nsecs (authority : list DnsRr) (qclass : Z) (nsec_rrs : list DnsRr) : result (list ParsedNsec) Z :=
  match nsec_rrs with
  | [] => Ok []
  | rr :: rest =>
    match parse_nsec_rdata (rdata rr) with
    | None => Err DNSSEC_FAIL_BADPACKET
    | Some (next, bitmap) =>
      let? found := nsec_sig_labels
        (List.filter (fun s => (rtype s =? T_RRSIG) && (class s =? qclass) && eq_ignore_ascii_case (r_name s) (r_name rr)) authority) None in
      match found with
      | None => Err DNSSEC_FAIL_NONSEC
      | Some labels => let? parsed := parse_nsecs authority qclass rest in Ok (mkNsec (r_name rr) next bitmap labels :: parsed)
      end
    end
  end.
Fixpoint parse_nsec3s (nsec3_rrs : list DnsRr) : result (list ParsedNsec3Raw) Z :=
  match nsec3_rrs with
  | [] => Ok []
  | rr :: rest =>
    let? owner_hash := ok_or (base32_decode (r_name rr)) DNSSEC_FAIL_BADPACKET in
    let? fields := ok_or (parse_nsec3_rdata owner_hash (rdata rr)) DNSSEC_FAIL_BADPACKET in
    let? raw := parse_nsec3s rest in Ok (fields :: raw)
  end.

(** [nons] keeps its value where no proof is tried. *)
Definition prove_non_existence `{UnicodeTables} `{CryptoLib} (authority : list DnsRr) (name : str) (qtype qclass : Z) (wild_offset : nat)
    (nons : bool) (counter iters_limit : Z) : result unit Z * bool * Z :=
  let nsec_rrs := List.filter (fun r => (rtype r =? T_NSEC) && (class r =? qclass)) authority in
  let nsec3_rrs := List.filter (fun r => (rtype r =? T_NSEC3) && (class r =? qclass)) authority in
  match nsec_rrs, nsec3_rrs with
  | _ :: _, _ :: _ => (Err DNSSEC_FAIL_NONSEC, nons, counter)
  | _ :: _, [] =>
    match parse_nsecs authority qclass nsec_rrs with
    | Err e => (Err e, nons, counter)
    | Ok parsed => let '(r, nons) := prove_non_existence_nsec parsed name qtype in (r, nons, counter)
    end
  | [], _ :: _ =>
    match parse_nsec3s nsec3_rrs with
    | Err e => (Err e, nons, counter)
    | Ok raw => prove_non_existence_nsec3 raw name qtype wild_offset counter iters_limit
    end
  | [], [] => (Err DNSSEC_FAIL_NONSEC, nons, counter)
  end.

(** ** Replies *)

Definition RCODE_NOERROR : Z := 0.
Definition RCODE_SERVFAIL : Z := 2.
Definition RCODE_NXDOMAIN : Z := 3.
Definition T_ANY : Z := 255.

Definition has_rr (rrs : list DnsRr) (name : str) (t c : Z) : bool :=
  existsb (fun r => bool_decide (norm_name (r_name r) = name) && (rtype r =? t) && (class r =? c)) rrs.

(** The chase of CNAME records from [target]: where it ends and whether there
    is an answer. Every name is visited once. *)
Fixpoint chase (fuel : nat) (answer : list DnsRr) (qtype qclass : Z) (visited : list str) (target : str) : str * bool :=
  match fuel with
  | O => (target, false)
  | S f =>
    if bool_decide (target ∈ visited) then (target, false)
    else if has_rr answer target qtype qclass then (target, true)
    else
      match List.find (fun r => bool_decide (norm_name (r_name r) = target) && (rtype r =? T_CNAME) && (class r =? qclass)) answer with
      | None => (target, false)
      | Some rr =>
        match parse_wire_name (rdata rr) with
        | Ok (next, _) => chase f answer qtype qclass (target :: visited) (norm_name next)
        | Err _ => (target, false)
        end
      end
  end.
(** A visited name is the first or the target of a record, so that two rounds
    more than there are records are enough. *)
Definition find_target (answer : list DnsRr) (qname : str) (qtype qclass : Z) : str * bool :=
  let target := norm_name qname in
  if negb (qtype =? T_CNAME) && negb (qtype =? T_ANY) then chase (length answer + 2) answer qtype qclass [] target
  else (target, existsb (fun r => bool_decide (norm_name (r_name r) = target) && (class r =? qclass) && ((qtype =? T_ANY) || (rtype r =? qtype))) answer).

(** The one signer of an RRset. *)
Fixpoint one_signer (rrsigs : list DnsRr) (signer : option str) : result (option str) Z :=
  match rrsigs with
  | [] => Ok signer
  | sig :: rest =>
    if (length (rdata sig) <? 18)%nat then Err DNSSEC_FAIL_BADPACKET
    else match parse_wire_name (drop 18 (rdata sig)) with
    | Err _ => Err DNSSEC_FAIL_BADPACKET
    | Ok (s, _) =>
      match signer with
      | None => one_signer rest (Some s)
      | Some existing => if negb (eq_ignore_ascii_case existing s) then Err DNSSEC_FAIL_NOSIG else one_signer rest signer
      end
    end
  end.

Section Reply.
Context `{UnicodeTables} `{CryptoLib}.

Fixpoint any_key_validates (rrset rrsigs : list DnsRr) (rr : DnsRr) (now_ts : Z) (keys : list (list u8)) (counter : Z) : bool * Z :=
  match keys with
  | [] => (false, counter)
  | key :: rest =>
    let '(r, counter) := validate_rrset rrset rrsigs (r_name rr) (rtype rr) (class rr) now_ts (Some key) counter in
    match r with RrsetSecure _ _ => (true, counter) | _ => any_key_validates rrset rrsigs rr now_ts rest counter end
  end.

(** What one RRset means for the reply: a final status, or whether it leaves
    the reply insecure. *)
Inductive RrsetVerdict : Type := Final (s : ValidateStatus) | Unsigned_ok | Downgrade | Validated.

Definition check_rrset (answer combined : list DnsRr) (now_ts : Z) (c : DnssecCache) (check_unsigned ds_mode : bool) (rr : DnsRr) (counter : Z)
  : RrsetVerdict * Z :=
  let in_answer := has_rr answer (norm_name (r_name rr)) (rtype rr) (class rr) in
  let '(rrset, rrsigs) := explore_rrset combined (r_name rr) (class rr) (rtype rr) in
  let unsigned := (length rrsigs =? 0)%nat in
  if unsigned && ((rtype rr =? T_NSEC) || (rtype rr =? T_NSEC3)) then (Final (bogus DNSSEC_FAIL_NOSIG), counter)
  else if unsigned && (ds_mode && negb in_answer) then (Unsigned_ok, counter)
  else if unsigned && (negb check_unsigned || negb in_answer) then (Downgrade, counter)
  else match one_signer rrsigs None with
  | Err e => (Final (bogus e), counter)
  | Ok signer =>
    let zone_name := default (r_name rr) signer in
    let zs := zone_status zone_name (class rr) c in
    match vs_code zs with
    | StatInsecure => (Downgrade, counter)
    | StatSecure =>
      match find_dnskeys c zone_name (class rr) with
      | [] => (Final (need_key zone_name (class rr)), counter)
      | keys =>
        let '(valid, counter) := any_key_validates rrset rrsigs rr now_ts keys counter in
        (if valid then Validated else Final (bogus DNSSEC_FAIL_NOKEY), counter)
      end
    | _ => (Final zs, counter)
    end
  end.

Definition rr_key (rr : DnsRr) : str * Z * Z := (norm_name (r_name rr), rtype rr, class rr).
Fixpoint check_rrsets (answer combined : list DnsRr) (now_ts : Z) (c : DnssecCache) (check_unsigned ds_mode : bool)
    (rrs : list DnsRr) (seen : list (str * Z * Z)) (secure_flag : ValidateStatus) (counter : Z) : (ValidateStatus + ValidateStatus) * Z :=
  match rrs with
  | [] => (inr secure_flag, counter)
  | rr :: rest =>
    if rtype rr =? T_RRSIG then check_rrsets answer combined now_ts c check_unsigned ds_mode rest seen secure_flag counter
    else if bool_decide (rr_key rr ∈ seen) then check_rrsets answer combined now_ts c check_unsigned ds_mode rest seen secure_flag counter
    else
      let '(v, counter) := check_rrset answer combined now_ts c check_unsigned ds_mode rr counter in
      let next flag := check_rrsets answer combined now_ts c check_unsigned ds_mode rest (rr_key rr :: seen) flag counter in
      match v with
      | Final s => (inl s, counter)
      | Unsigned_ok | Validated => next secure_flag
      | Downgrade => next insecure
      end
  end.

(** [nons] is given in DS-reply mode; it keeps its value where no proof is
    tried. *)
Definition dnssec_validate_reply (answer authority : list DnsRr) (qname : str) (qtype qclass rcode now_ts : Z) (c : DnssecCache) (counter : Z)
    (check_unsigned : bool) (nons : option bool) (iters_limit : Z) : ValidateStatus * bool * Z :=
  let nons0 := default true nons in
  if rcode =? RCODE_SERVFAIL then (bogus DNSSEC_FAIL_UPSTREAM, nons0, counter)
  else if negb (rcode =? RCODE_NXDOMAIN) && negb (rcode =? RCODE_NOERROR) then (insecure, nons0, counter)
  else if qtype =? T_RRSIG then (insecure, nons0, counter)
  else
    let '(target, answered) := find_target answer qname qtype qclass in
    let combined := answer ++ authority in
    let '(r, counter) :=
      check_rrsets answer combined now_ts c check_unsigned (negb (bool_decide (nons = None))) combined [] secure counter in
    match r with
    | inl s => (s, nons0, counter)
    | inr secure_flag =>
      if answered then (secure_flag, nons0, counter)
      else
        let '(rc_nsec, nons, counter) := prove_non_existence authority target qtype qclass 0 nons0 counter iters_limit in
        match rc_nsec with
        | Ok _ => (secure_flag, nons, counter)
        | Err fail =>
          if negb (Z.land fail (Z.lor DNSSEC_FAIL_NONSEC DNSSEC_FAIL_NSEC3_ITERS) =? 0) then
            let zs := zone_status target qclass c in
            (if is_secure zs then bogus fail else zs, nons, counter)
          else (bogus fail, nons, counter)
        end
    end.

(** The DS records of an answer that can be used. *)
Definition usable_ds (answer : list DnsRr) (class_ : Z) : list (DsData * Z) :=
  omap (fun rr => let! ds := ok (parse_ds_rdata (rdata rr)) in if ds_entry_supported ds then Some (ds, class_) else None)
    (List.filter (fun r => (rtype r =? T_DS) && (class r =? class_)) answer).

Definition cache_ds (answer : list DnsRr) (name : str) (class_ : Z) (servfail neganswer nons : bool) (c : DnssecCache) : DnssecCache :=
  let entries := usable_ds answer class_ in
  if negb servfail && negb neganswer && negb (length entries =? 0)%nat then insert_ds_positive name entries c
  else if servfail || nons then insert_ds_neg_not_zone_cut name c
  else insert_ds_neg_insecure name c.

Definition dnssec_validate_ds (answer authority : list DnsRr) (name : str) (class_ rcode now_ts : Z) (c : DnssecCache) (counter iters_limit : Z)
  : ValidateStatus * DnssecCache * Z :=
  let servfail := rcode =? RCODE_SERVFAIL in
  let neganswer := negb (existsb (fun r => (rtype r =? T_DS) && (class r =? class_)) answer) in
  if servfail then (secure, cache_ds answer name class_ true neganswer false c, counter)
  else
    let '(rc, nons, counter) :=
      dnssec_validate_reply answer authority name T_DS class_ rcode now_ts c counter false (Some false) iters_limit in
    let store := (secure, cache_ds answer name class_ false neganswer nons c, counter) in
    match vs_code rc with
    | StatInsecure => if neganswer then store else (bogus DNSSEC_FAIL_INDET, c, counter)
    | StatNeedKey needed _ => if bool_decide (norm_name needed = norm_name name) then (bogus 0, c, counter) else (rc, c, counter)
    | StatSecure => store
    | _ => (rc, c, counter)
    end.
End Reply.
