(* ===== verification/DnssecSpec.v ===== *)
(** * What DNSSEC validation guarantees

    A chain of trust: a reply that is judged secure is signed, RRset by RRset,
    by keys that a chain of DS records leads to from the configured anchors.
    Proofs of non-existence, the canonical orders, key tags and base32. *)

From Stdlib Require Import ZArith Lia String.
From stdpp Require Import base numbers list option gmap.
From S2P Require Import Prelude Rfc1035 Crypto Dnssec DnssecChain.

#[local] Open Scope Z_scope.

(** ** Names *)

Lemma trim_start_lower s : trim_start dot (to_ascii_lowercase s) = to_ascii_lowercase (trim_start dot s).
Proof.
  induction s as [|b s IH]; [done|]. unfold to_ascii_lowercase in *. cbn [fmap list_fmap trim_start].
  destruct (decide (lower8 b = dot)) as [E|E], (decide (b = dot)) as [E'|E']; try done.
  - by apply (proj1 (lower8_dot b)) in E.
  - by apply (proj2 (lower8_dot b)) in E'.
Qed.
Lemma trim_end_lower s : trim_end dot (to_ascii_lowercase s) = to_ascii_lowercase (trim_end dot s).
Proof.
  assert (forall l, rev (to_ascii_lowercase l) = to_ascii_lowercase (rev l)) as Hr by (intros l; symmetry; apply map_rev).
  unfold trim_end. by rewrite Hr, trim_start_lower, Hr.
Qed.
Lemma norm_name_lower a b : to_ascii_lowercase a = to_ascii_lowercase b -> norm_name a = norm_name b.
Proof. intros E. unfold norm_name. by rewrite <- !trim_end_lower, E. Qed.

(** ASCII, and no empty label at the end. *)
Definition plain_name (name : str) : Prop := is_ascii name /\ trim_end dot name = name.
Lemma plain_same `{UnicodeTables} a b : plain_name a -> plain_name b -> norm_name a = norm_name b -> to_lowercase a = to_lowercase b.
Proof. intros [Ha Ta] [Hb Tb] E. unfold norm_name in E. rewrite Ta, Tb in E. by rewrite !to_lowercase_ascii. Qed.

(** ** One RRset *)

Section Sound.
Context `{UnicodeTables} `{CryptoLib}.

(** A signature of the RRset at [now] under a key. *)
Definition signature_ok (now : Z) (name : str) (rrtype rrclass : Z) (rrset : list DnsRr) (sig key : list u8) : Prop :=
  (18 <= length sig)%nat /\ be_at sig 12 4 <= now <= be_at sig 8 4 /\ be_at sig 3 1 <= count_labels name /\
  exists a data signature dk pk, DnssecAlgorithm_try_from (be_at sig 2 1) = Ok a /\
    signed_data sig (sort_rrset rrset) name rrtype rrclass = Some (data, signature) /\
    parse_dnskey_rdata key = Ok dk /\ parse_dnskey (be_at sig 2 1) (dk_public_key dk) = Ok pk /\ verify_sig data signature pk a = Ok true.

Lemma try_rrsig_sound rrset name t k now key sig ttl_ tag :
  try_rrsig (sort_rrset rrset) name t k now (Some key) sig = Some (RrsetSecure ttl_ tag) ->
  signature_ok now name t k rrset sig key /\ tag = be_at sig 16 2 /\
  ttl_ <= be_at sig 4 4 /\ ttl_ <= be_at sig 8 4 - now /\ ttl_ <= rr_ttl (sort_rrset rrset).
Proof.
  unfold try_rrsig. destruct (Nat.ltb_spec (length sig) 18) as [|Hl]; [done|]. cbv zeta.
  destruct (Z.ltb_spec now (be_at sig 12 4)); [done|]. destruct (Z.ltb_spec (be_at sig 8 4) now); [done|].
  destruct (Z.ltb_spec (count_labels name) (be_at sig 3 1)); [done|].
  destruct (DnssecAlgorithm_try_from (be_at sig 2 1)) as [a|] eqn:Ea; [|done]. cbn [ok].
  destruct (signed_data sig _ _ _ _) as [[data signature]|] eqn:Ed; [|done]. destruct (parse_dnskey_rdata key) as [dk|] eqn:Ek; [|done]. cbn [ok].
  destruct (parse_dnskey _ _) as [pk|] eqn:Ep; [|done]. cbn [ok]. destruct (verify_sig _ _ _ _) as [[]|] eqn:Ev; [|done..]. intros [= <- <-].
  split; [|lia]. split_and!; [done..|]. by exists a, data, signature, dk, pk.
Qed.

Lemma try_rrsigs_sound rrset rrsigs name t k now key ttl_ tag : forall counter counter',
  try_rrsigs (sort_rrset rrset) rrsigs name t k now (Some key) counter = (RrsetSecure ttl_ tag, counter') ->
  exists sig, sig ∈ rrsigs /\ signature_ok now name t k rrset (rdata sig) key.
Proof.
  induction rrsigs as [|sig rest IH]; intros counter counter'; cbn [try_rrsigs]; [done|].
  destruct (dec_counter counter) as [[] c1]; [done|]. destruct (try_rrsig _ _ _ _ _ _ _) as [r|] eqn:E.
  - intros [= -> <-]. apply try_rrsig_sound in E as [Hs _]. exists sig. split; [left|done].
  - intros Hr. destruct (IH _ _ Hr) as (sig' & Hin & Hs). exists sig'. split; [by right|done].
Qed.
Lemma validate_rrset_sound rrset rrsigs name t k now key counter ttl_ tag counter' :
  validate_rrset rrset rrsigs name t k now (Some key) counter = (RrsetSecure ttl_ tag, counter') ->
  exists sig, sig ∈ rrsigs /\ signature_ok now name t k rrset (rdata sig) key.
Proof. unfold validate_rrset. destruct rrsigs; [done|]. apply try_rrsigs_sound. Qed.

(** ** Trust *)

(** A covering signature of the RRset of an owner and type among records. *)
Definition signed_by (now : Z) (records : list DnsRr) (name : str) (class_ type_ : Z) (sig : DnsRr) (key : list u8) : Prop :=
  let '(rrset, rrsigs) := explore_rrset records name class_ type_ in
  sig ∈ rrsigs /\ signature_ok now name type_ class_ rrset (rdata sig) key.

Context (anchor : str -> Z -> DsData -> Prop).

(** DS data of a name and keys of a zone, names being normalised: anchors, and
    what is signed with trusted keys; a key is trusted with the whole RRset one
    of whose zone keys a trusted DS record identifies. *)
Inductive trusted_ds : str -> Z -> DsData -> Prop :=
| ds_anchor name class_ ds : anchor name class_ ds -> trusted_ds name class_ ds
| ds_signed now records name class_ rr sig key ds : rr ∈ fst (explore_rrset records name class_ T_DS) -> parse_ds_rdata (rdata rr) = Ok ds ->
    signed_by now records name class_ T_DS sig key -> trusted_key (norm_name (signer_of (rdata sig))) class_ key ->
    trusted_ds (norm_name name) class_ ds
with trusted_key : str -> Z -> list u8 -> Prop :=
| key_identified now records name class_ ds key0 dk sig key :
    trusted_ds (norm_name name) class_ ds -> key0 ∈ rdata <$> fst (explore_rrset records name class_ T_DNSKEY) ->
    parse_dnskey_rdata key0 = Ok dk -> zone_key dk = true -> ds_matches_dnskey ds key0 name = true ->
    signed_by now records name class_ T_DNSKEY sig key0 -> key ∈ rdata <$> fst (explore_rrset records name class_ T_DNSKEY) ->
    trusted_key (norm_name name) class_ key.

Record store_ok (c : DnssecCache) : Prop := {
  so_ds : forall name entries ds class_, tr_ds c !! name = Some (DsPositive entries) -> (ds, class_) ∈ entries -> trusted_ds name class_ ds;
  so_key : forall name keys key class_, tr_dnskey c !! name = Some keys -> (key, class_) ∈ keys -> trusted_key name class_ key;
}.

Lemma find_dnskeys_trusted c name class_ key : store_ok c -> key ∈ find_dnskeys c name class_ -> trusted_key (norm_name name) class_ key.
Proof.
  intros [_ Hk]. unfold find_dnskeys. intros ([k cl] & -> & Hin)%list_elem_of_fmap. apply list_elem_of_In, filter_In in Hin as [Hin E].
  apply Z.eqb_eq in E. cbn in E. subst cl. apply list_elem_of_In in Hin. destruct (tr_dnskey c !! norm_name name) as [l|] eqn:El; [|by apply elem_of_nil in Hin].
  by eapply Hk.
Qed.

(** *** Keys *)

Lemma try_ds_entries_sound rrset rrsigs name class_ now kr key tag entries : forall fail counter fail' counter',
  try_ds_entries rrset rrsigs name class_ now kr key tag entries fail counter = (Some true, fail', counter') ->
  exists ds sig, (ds, class_) ∈ entries /\ ds_matches_dnskey ds kr name = true /\ sig ∈ rrsigs /\ signature_ok now name T_DNSKEY class_ rrset (rdata sig) kr.
Proof.
  induction entries as [|[ds dcl] rest IH]; intros fail counter fail' counter'; cbn [try_ds_entries]; [done|]. cbv zeta.
  assert (forall f c, try_ds_entries rrset rrsigs name class_ now kr key tag rest f c = (Some true, fail', counter') ->
    exists ds' sig, (ds', class_) ∈ (ds, dcl) :: rest /\ ds_matches_dnskey ds' kr name = true /\ sig ∈ rrsigs /\
      signature_ok now name T_DNSKEY class_ rrset (rdata sig) kr) as Hnext.
  { intros f c E. destruct (IH _ _ _ _ E) as (ds' & sig & Hin & Hrest). exists ds', sig. split; [by right|done]. }
  destruct (Z.eqb_spec dcl class_) as [->|]; [|apply Hnext]. cbn [negb]. destruct (negb (ds_digest_supported _)); [apply Hnext|].
  destruct (_ || _); [apply Hnext|]. destruct (dec_counter counter) as [[] c1]; [done|].
  destruct (ds_matches_dnskey ds kr name) eqn:Em; [|apply Hnext]. cbn [negb].
  destruct (validate_rrset _ _ _ _ _ _ _ _) as [r c2] eqn:Ev. destruct r; try apply Hnext. intros _.
  apply validate_rrset_sound in Ev as (sig & Hin & Hs). exists ds, sig. split_and!; [left|done..].
Qed.
Lemma try_keys_sound rrset rrsigs name class_ now entries keys : forall fail counter fail' counter',
  try_keys rrset rrsigs name class_ now entries keys fail counter = (Some true, fail', counter') ->
  exists key_rr dk ds sig, key_rr ∈ keys /\ parse_dnskey_rdata (rdata key_rr) = Ok dk /\ zone_key dk = true /\ (ds, class_) ∈ entries /\
    ds_matches_dnskey ds (rdata key_rr) name = true /\ sig ∈ rrsigs /\ signature_ok now name T_DNSKEY class_ rrset (rdata sig) (rdata key_rr).
Proof.
  induction keys as [|key_rr rest IH]; intros fail counter fail' counter'; cbn [try_keys]; [done|].
  assert (forall f c, try_keys rrset rrsigs name class_ now entries rest f c = (Some true, fail', counter') ->
    exists kr dk ds sig, kr ∈ key_rr :: rest /\ parse_dnskey_rdata (rdata kr) = Ok dk /\ zone_key dk = true /\ (ds, class_) ∈ entries /\
    ds_matches_dnskey ds (rdata kr) name = true /\ sig ∈ rrsigs /\ signature_ok now name T_DNSKEY class_ rrset (rdata sig) (rdata kr)) as Hnext.
  { intros f c E. destruct (IH _ _ _ _ E) as (kr & dk & ds & sig & Hin & Hrest). exists kr, dk, ds, sig. split; [by right|done]. }
  destruct (parse_dnskey_rdata (rdata key_rr)) as [dk|] eqn:Ek; [|apply Hnext]. destruct (zone_key dk) eqn:Ez; [|apply Hnext]. cbn [negb].
  destruct (try_ds_entries _ _ _ _ _ _ _ _ _ _ _) as [[r f1] c1] eqn:E. destruct r as [b|]; [|apply Hnext]. intros [= -> <- <-].
  apply try_ds_entries_sound in E as (ds & sig & H1 & H2 & H3 & H4). exists key_rr, dk, ds, sig. split_and!; [left|done..].
Qed.

Lemma store_keys_spec name class_ rrset : forall c, tr_ds (store_keys name class_ rrset c) = tr_ds c /\
  forall n keys key cl, tr_dnskey (store_keys name class_ rrset c) !! n = Some keys -> (key, cl) ∈ keys ->
    (exists keys0, tr_dnskey c !! n = Some keys0 /\ (key, cl) ∈ keys0) \/ (n = norm_name name /\ cl = class_ /\ key ∈ rdata <$> rrset).
Proof.
  induction rrset as [|k rrset IH]; intros c; [split; [done|]; intros; left; by eexists|]. unfold store_keys in *. cbn [fold_left].
  set (c1 := match parse_dnskey_rdata (rdata k) with Ok _ => _ | Err _ => _ end). destruct (IH c1) as [Hd Hk].
  assert (c1 = c \/ c1 = insert_dnskey name (rdata k) class_ c) as Hc1 by (unfold c1; destruct (parse_dnskey_rdata _) as [kd|]; [destruct (_ =? 3); auto|auto]).
  split; [rewrite Hd; by destruct Hc1 as [-> | ->]|]. intros n keys key cl Hl Hin. destruct (Hk _ _ _ _ Hl Hin) as [(k0 & Hl0 & Hin0)|(-> & -> & Hr)].
  - destruct Hc1 as [E|E]; rewrite E in Hl0; [left; by eexists|]. cbn in Hl0. apply lookup_insert_Some in Hl0 as [[<- <-]|[_ Hl0]]; [|left; by eexists].
    apply elem_of_app in Hin0 as [Hin0|Hin0].
    + left. destruct (tr_dnskey c !! norm_name name) as [l|]; [by eexists|by apply elem_of_nil in Hin0].
    + apply list_elem_of_singleton in Hin0 as [= -> ->]. right. split_and!; [done|done|left].
  - right. split_and!; [done|done|by right].
Qed.

Lemma by_ds_ok records name class_ now c counter st c' counter' : store_ok c ->
  dnssec_validate_by_ds records name class_ now c counter = (st, c', counter') -> store_ok c'.
Proof.
  intros Hc. unfold dnssec_validate_by_ds. destruct (explore_rrset records name class_ T_DNSKEY) as [rrset rrsigs] eqn:Ee.
  destruct (_ =? 0)%nat; [by intros [= <- <- <-]|]. destruct (_ =? 0)%nat; [by intros [= <- <- <-]|].
  destruct (find_ds c name) as [s|] eqn:Ef; [|by intros [= <- <- <-]]. cbv zeta.
  destruct (try_keys _ _ _ _ _ _ _ _ _) as [[r fail] c1] eqn:E. destruct r as [[]|]; [|by intros [= <- <- <-]..]. intros [= <- <- <-].
  apply try_keys_sound in E as (kr & dk & ds & sig & H1 & H2 & H3 & H4 & H5 & H6 & H7). destruct Hc as [Hds Hkeys].
  assert (trusted_ds (norm_name name) class_ ds) as Htd.
  { destruct s as [entries| |]; [|by apply elem_of_nil in H4..]. by eapply Hds. }
  destruct (store_keys_spec name class_ rrset c) as [Hd Hk]. split; [rewrite Hd; exact Hds|].
  intros n keys key cl Hl Hin. destruct (Hk _ _ _ _ Hl Hin) as [(k0 & Hl0 & Hin0)|(-> & -> & Hr)]; [by eapply Hkeys|].
  eapply (key_identified now records name class_ ds (rdata kr) dk sig key); rewrite ?Ee; cbn [fst]; [done| |done..| |done].
  - apply list_elem_of_fmap. by exists kr.
  - unfold signed_by. rewrite Ee. done.
Qed.

(** *** Replies *)

Lemma any_key_sound rrset rrsigs rr now keys : forall counter counter', any_key_validates rrset rrsigs rr now keys counter = (true, counter') ->
  exists key sig, key ∈ keys /\ sig ∈ rrsigs /\ signature_ok now (r_name rr) (rtype rr) (class rr) rrset (rdata sig) key.
Proof.
  induction keys as [|key keys IH]; intros counter counter'; cbn [any_key_validates]; [done|].
  destruct (validate_rrset _ _ _ _ _ _ _ _) as [r c1] eqn:E. assert (any_key_validates rrset rrsigs rr now keys c1 = (true, counter') ->
    exists k sig, k ∈ key :: keys /\ sig ∈ rrsigs /\ signature_ok now (r_name rr) (rtype rr) (class rr) rrset (rdata sig) k) as Hnext.
  { intros Ha. destruct (IH _ _ Ha) as (k & sig & Hin & Hrest). exists k, sig. split; [by right|done]. }
  destruct r; [|apply Hnext..]. intros _. apply validate_rrset_sound in E as (sig & Hin & Hs). exists key, sig. split_and!; [left|done..].
Qed.

Lemma one_signer_same rrsigs : forall z0 z, one_signer rrsigs z0 = Ok z ->
  (forall s, z0 = Some s -> exists s', z = Some s' /\ norm_name s = norm_name s') /\
  forall sig, sig ∈ rrsigs -> exists s, z = Some s /\ norm_name (signer_of (rdata sig)) = norm_name s.
Proof.
  induction rrsigs as [|sig rest IH]; intros z0 z; cbn [one_signer].
  { intros [= <-]. split; [intros s ->; by exists s|by intros sig ?%elem_of_nil]. }
  destruct (_ <? _)%nat; [done|]. unfold signer_of. destruct (parse_wire_name (drop 18 (rdata sig))) as [[s n]|] eqn:Ep; [|done].
  destruct z0 as [s0|].
  - destruct (eq_ignore_ascii_case s0 s) eqn:Eq; [|done]. cbn [negb]. intros Hr. destruct (IH _ _ Hr) as [H1 H2]. split; [done|].
    destruct (H1 s0 eq_refl) as (s' & -> & E). intros sig' [->|Hin]%elem_of_cons; [|by apply H2]. rewrite Ep. exists s'. split; [done|].
    apply eq_ignore_ascii_case_true in Eq. rewrite <- E. symmetry. by apply norm_name_lower.
  - intros Hr. destruct (IH _ _ Hr) as [H1 H2]. split; [done|]. destruct (H1 s eq_refl) as (s' & -> & E).
    intros sig' [->|Hin]%elem_of_cons; [|by apply H2]. rewrite Ep. by exists s'.
Qed.

(** A record is in a validated RRset: its own, up to the case of the name. *)
Definition validated (now : Z) (combined : list DnsRr) (rr : DnsRr) : Prop :=
  exists name sig key, norm_name name = norm_name (r_name rr) /\ rr ∈ fst (explore_rrset combined name (class rr) (rtype rr)) /\
    signed_by now combined name (class rr) (rtype rr) sig key /\ trusted_key (norm_name (signer_of (rdata sig))) (class rr) key.

(** The RRset of a record that is judged valid. *)
Lemma check_rrset_sound answer combined now c cu dm rr counter counter' : store_ok c ->
  check_rrset answer combined now c cu dm rr counter = (Validated, counter') ->
  exists sig key, signed_by now combined (r_name rr) (class rr) (rtype rr) sig key /\ trusted_key (norm_name (signer_of (rdata sig))) (class rr) key.
Proof.
  intros Hc. unfold check_rrset. cbv zeta. destruct (explore_rrset combined (r_name rr) (class rr) (rtype rr)) as [rrset rrsigs] eqn:Ee.
  destruct (_ && _); [done|]. destruct (_ && _); [done|]. destruct (_ && _); [done|].
  destruct (one_signer rrsigs None) as [signer|] eqn:Eo; [|done]. destruct (vs_code _); try done.
  destruct (find_dnskeys c (default (r_name rr) signer) (class rr)) as [|k0 keys] eqn:Ek; [done|]. rewrite <- Ek.
  destruct (any_key_validates _ _ _ _ _ _) as [[] c1] eqn:Ea; [|done]. intros [= <-].
  apply any_key_sound in Ea as (key & sig & Hk & Hs & Hok). exists sig, key. split; [unfold signed_by; by rewrite Ee|].
  apply one_signer_same in Eo as [_ Hall]. destruct (Hall sig Hs) as (s & -> & ->). by apply (find_dnskeys_trusted c s).
Qed.
Lemma check_rrset_final answer combined now c cu dm rr counter s counter' :
  check_rrset answer combined now c cu dm rr counter = (Final s, counter') -> vs_code s <> StatSecure.
Proof.
  unfold check_rrset. cbv zeta. destruct (explore_rrset _ _ _ _) as [rrset rrsigs]. destruct (_ && _); [by intros [= <- <-]|].
  destruct (_ && _); [done|]. destruct (_ && _); [done|]. destruct (one_signer rrsigs None) as [signer|]; [|by intros [= <- <-]].
  destruct (vs_code _) eqn:Ez; try (intros [= <- <-]; congruence).
  destruct (find_dnskeys _ _ _) as [|k0 keys]; [by intros [= <- <-]|]. destruct (any_key_validates _ _ _ _ _ _) as [[] c1]; [done|by intros [= <- <-]].
Qed.
Lemma check_rrset_skip answer combined now c cu dm rr counter counter' :
  check_rrset answer combined now c cu dm rr counter = (Unsigned_ok, counter') ->
  dm = true /\ has_rr answer (norm_name (r_name rr)) (rtype rr) (class rr) = false.
Proof.
  unfold check_rrset. cbv zeta. destruct (explore_rrset _ _ _ _) as [rrset rrsigs]. set (unsigned := (length rrsigs =? 0)%nat).
  destruct (unsigned && ((_ =? _) || _)); [done|]. destruct (unsigned && (dm && _)) eqn:E.
  { intros _. apply andb_true_iff in E as [_ [-> E]%andb_true_iff]. split; [done|]. by apply negb_true_iff in E. }
  destruct (unsigned && (negb cu || _)); [done|]. destruct (one_signer rrsigs None) as [signer|]; [|done]. destruct (vs_code _); try done.
  destruct (find_dnskeys _ _ _); [done|]. by destruct (any_key_validates _ _ _ _ _ _) as [[] c1].
Qed.

Lemma check_rrsets_insecure answer combined now c cu dm rrs : forall seen counter r counter',
  check_rrsets answer combined now c cu dm rrs seen insecure counter = (inr r, counter') -> r = insecure.
Proof.
  induction rrs as [|rr rrs IH]; intros seen counter r counter'; cbn [check_rrsets]; [by intros [= <- <-]|].
  destruct (_ =? _); [apply IH|]. destruct (bool_decide _); [apply IH|]. cbv zeta. destruct (check_rrset _ _ _ _ _ _ _ _) as [[] c1]; [done|apply IH..].
Qed.
Lemma check_rrsets_flag answer combined now c cu dm rrs : forall seen flag counter r counter',
  check_rrsets answer combined now c cu dm rrs seen flag counter = (inr r, counter') -> r = flag \/ r = insecure.
Proof.
  induction rrs as [|rr rrs IH]; intros seen flag counter r counter'; cbn [check_rrsets]; [intros [= <- <-]; by left|].
  destruct (_ =? _); [apply IH|]. destruct (bool_decide _); [apply IH|]. cbv zeta.
  destruct (check_rrset _ _ _ _ _ _ _ _) as [[] c1]; [done|apply IH|intros E; apply IH in E; tauto|apply IH].
Qed.
Lemma check_rrsets_final answer combined now c cu dm rrs : forall seen flag counter s counter',
  check_rrsets answer combined now c cu dm rrs seen flag counter = (inl s, counter') -> vs_code s <> StatSecure.
Proof.
  induction rrs as [|rr rrs IH]; intros seen flag counter s counter'; cbn [check_rrsets]; [done|].
  destruct (_ =? _); [apply IH|]. destruct (bool_decide _); [apply IH|]. cbv zeta.
  destruct (check_rrset _ _ _ _ _ _ _ _) as [v c1] eqn:E. destruct v; [|apply IH..]. intros [= -> <-]. by eapply check_rrset_final.
Qed.

(** Every record has been looked at under its key. *)
Lemma check_rrsets_sound answer combined now c cu dm rrs : forall seen counter counter',
  check_rrsets answer combined now c cu dm rrs seen secure counter = (inr secure, counter') -> forall rr, rr ∈ rrs -> rtype rr <> T_RRSIG ->
  rr_key rr ∈ seen \/ exists rr' n n' v, rr' ∈ rrs /\ rr_key rr' = rr_key rr /\ check_rrset answer combined now c cu dm rr' n = (v, n') /\
    (v = Validated \/ v = Unsigned_ok).
Proof.
  induction rrs as [|r rrs IH]; intros seen counter counter' Hr rr Hin Ht; [by apply elem_of_nil in Hin|]. cbn [check_rrsets] in Hr.
  assert (forall seen' n, check_rrsets answer combined now c cu dm rrs seen' secure n = (inr secure, counter') -> rr ∈ rrs -> rr_key rr ∈ seen' \/
    exists rr' n n' v, rr' ∈ r :: rrs /\ rr_key rr' = rr_key rr /\ check_rrset answer combined now c cu dm rr' n = (v, n') /\ (v = Validated \/ v = Unsigned_ok)) as Hrest.
  { intros seen' n E Hin'. destruct (IH _ _ _ E rr Hin' Ht) as [Hs|(rr' & n1 & n2 & v & H1 & H2)]; [by left|right].
    exists rr', n1, n2, v. split; [by right|done]. }
  destruct (Z.eqb_spec (rtype r) T_RRSIG) as [E|E].
  { apply elem_of_cons in Hin as [->|Hin]; [done|by eapply Hrest]. }
  destruct (bool_decide (rr_key r ∈ seen)) eqn:Eb.
  { apply bool_decide_eq_true in Eb. apply elem_of_cons in Hin as [->|Hin]; [by left|by eapply Hrest]. }
  cbv zeta in Hr. destruct (check_rrset answer combined now c cu dm r counter) as [v c1] eqn:Ev.
  assert (v = Validated \/ v = Unsigned_ok) as Hv.
  { destruct v; auto; [discriminate|]. apply check_rrsets_insecure in Hr. discriminate. }
  assert (check_rrsets answer combined now c cu dm rrs (rr_key r :: seen) secure c1 = (inr secure, counter')) as Hr' by (by destruct Hv as [-> | ->]).
  assert (exists rr' n n' v, rr' ∈ r :: rrs /\ rr_key rr' = rr_key r /\ check_rrset answer combined now c cu dm rr' n = (v, n') /\
    (v = Validated \/ v = Unsigned_ok)) as Hthis by (exists r, counter, c1, v; split_and!; [left|done..]).
  apply elem_of_cons in Hin as [->|Hin]; [by right|]. destruct (Hrest _ _ Hr' Hin) as [Hs|?]; [|by right].
  apply elem_of_cons in Hs as [Hs|Hs]; [right; by rewrite Hs|by left].
Qed.

Lemma explore_lower records a b class_ type_ : to_lowercase a = to_lowercase b -> explore_rrset records a class_ type_ = explore_rrset records b class_ type_.
Proof. intros E. unfold explore_rrset, of_owner, covers. by rewrite E. Qed.
Lemma in_explored records rr : rr ∈ records -> rr ∈ fst (explore_rrset records (r_name rr) (class rr) (rtype rr)).
Proof.
  intros Hin. unfold explore_rrset. cbn [fst]. apply list_elem_of_In, filter_In. split; [|by apply Z.eqb_eq].
  apply filter_In. split; [by apply list_elem_of_In|]. unfold of_owner. by rewrite bool_decide_true, Z.eqb_refl.
Qed.

Definition plain (rr : DnsRr) : Prop := plain_name (r_name rr).
Lemma validated_alike answer combined now c cu dm rr rr' n n' : store_ok c -> Forall plain combined -> rr ∈ combined -> rr' ∈ combined ->
  rr_key rr' = rr_key rr -> check_rrset answer combined now c cu dm rr' n = (Validated, n') -> validated now combined rr.
Proof.
  intros Hc Hp Hin Hin' [= En Et Ek] Hv. rewrite Forall_forall in Hp.
  apply check_rrset_sound in Hv as (sig & key & Hs & Hk); [|done]. exists (r_name rr'), sig, key. rewrite Et, Ek in *. split_and!; [done| |done..].
  rewrite (explore_lower combined (r_name rr') (r_name rr)); [by apply in_explored|]. apply plain_same; [by apply Hp..|done].
Qed.

Lemma reply_secure answer authority qname qtype qclass rcode now c counter cu nons lim s nons' counter' :
  dnssec_validate_reply answer authority qname qtype qclass rcode now c counter cu nons lim = (s, nons', counter') -> vs_code s = StatSecure ->
  exists n n', check_rrsets answer (answer ++ authority) now c cu (negb (bool_decide (nons = None))) (answer ++ authority) [] secure n = (inr secure, n').
Proof.
  unfold dnssec_validate_reply. destruct (_ =? _); [by intros [= <- <- <-]|]. destruct (_ && _); [by intros [= <- <- <-]|].
  destruct (_ =? _); [by intros [= <- <- <-]|]. destruct (find_target answer qname qtype qclass) as [target answered]. cbv zeta.
  destruct (check_rrsets _ _ _ _ _ _ _ _ _ _) as [[s1|flag] c1] eqn:E.
  { intros [= <- <- <-] Hs. by apply check_rrsets_final in E. }
  assert (vs_code flag = StatSecure -> exists n n', check_rrsets answer (answer ++ authority) now c cu (negb (bool_decide (nons = None))) (answer ++ authority) [] secure n = (inr secure, n')) as Hflag.
  { intros Hf. exists counter, c1. rewrite E. by destruct (check_rrsets_flag _ _ _ _ _ _ _ _ _ _ _ _ E) as [-> | ->]. }
  destruct answered; [by intros [= <- <- <-]|]. destruct (prove_non_existence _ _ _ _ _ _ _ _) as [[[u|fail] nn] c2]; [by intros [= <- <- <-]|].
  cbv zeta. destruct (negb (Z.land _ _ =? 0)); [|by intros [= <- <- <-]]. unfold is_secure. destruct (vs_code (zone_status target qclass c)) eqn:Ez; intros [= <- <- <-]; by rewrite ?Ez.
Qed.

Lemma reply_validated answer authority qname qtype qclass rcode now c counter cu nons lim s nons' counter' rr : store_ok c ->
  Forall plain (answer ++ authority) ->
  dnssec_validate_reply answer authority qname qtype qclass rcode now c counter cu nons lim = (s, nons', counter') -> vs_code s = StatSecure ->
  rr ∈ answer ++ authority -> rtype rr <> T_RRSIG -> nons = None \/ rr ∈ answer -> validated now (answer ++ authority) rr.
Proof.
  intros Hc Hp Hr Hs Hin Ht Hm. apply reply_secure in Hr as (n & n' & Hr); [|done].
  destruct (check_rrsets_sound _ _ _ _ _ _ _ _ _ _ Hr rr Hin Ht) as [Hno|(rr' & n1 & n2 & v & Hin' & Hkey & Hv & [-> | ->])]; [by apply elem_of_nil in Hno| |].
  - by eapply validated_alike.
  - exfalso. apply check_rrset_skip in Hv as [Hdm Hno]. apply negb_true_iff, bool_decide_eq_false in Hdm. destruct Hm as [|Hm]; [done|].
    injection Hkey as En Et Ek. apply not_true_iff_false in Hno. apply Hno. unfold has_rr. apply existsb_exists. exists rr.
    split; [by apply list_elem_of_In|]. rewrite En, Et, Ek, bool_decide_true, !Z.eqb_refl by done. done.
Qed.

(** The DS records of an answer are those of the name asked for. *)
Definition own_ds (answer : list DnsRr) (name : str) : Prop :=
  forall rr, rr ∈ answer -> rtype rr = T_DS -> norm_name (r_name rr) = norm_name name.

Lemma usable_ds_spec answer class_ ds cl : (ds, cl) ∈ usable_ds answer class_ -> cl = class_ /\ exists rr, rr ∈ answer /\ rtype rr = T_DS /\ class rr = class_ /\
  parse_ds_rdata (rdata rr) = Ok ds.
Proof.
  unfold usable_ds. intros (rr & Hin & Hx)%list_elem_of_omap. apply list_elem_of_In, filter_In in Hin as [Hin E].
  apply andb_true_iff in E as [E1%Z.eqb_eq E2%Z.eqb_eq]. apply list_elem_of_In in Hin. destruct (parse_ds_rdata (rdata rr)) as [d|] eqn:Ed; [|done]. cbn in Hx.
  destruct (ds_entry_supported d); [|done]. injection Hx as <- <-. split; [done|]. by exists rr.
Qed.
Lemma put_ds_ok name st c : store_ok c -> (forall entries ds cl, st = DsPositive entries -> (ds, cl) ∈ entries -> trusted_ds (norm_name name) cl ds) ->
  store_ok (put_ds name st c).
Proof.
  intros [Hd Hk] Hst. split; [|exact Hk]. intros n entries ds cl Hl Hin. cbn in Hl. apply lookup_insert_Some in Hl as [[<- E]|[_ Hl]]; [by eapply Hst|by eapply Hd].
Qed.
Lemma validate_ds_ok answer authority name class_ rcode now c counter lim st c' counter' : store_ok c -> Forall plain (answer ++ authority) ->
  own_ds answer name -> dnssec_validate_ds answer authority name class_ rcode now c counter lim = (st, c', counter') -> store_ok c'.
Proof.
  intros Hc Hp Ho. unfold dnssec_validate_ds. set (neg := negb (existsb _ answer)).
  assert (forall servfail nons, (forall rr, neg = false -> servfail = false -> rr ∈ answer -> rtype rr = T_DS -> validated now (answer ++ authority) rr) ->
    store_ok (cache_ds answer name class_ servfail neg nons c)) as Hstore.
  { intros servfail nons Hv. unfold cache_ds. cbv zeta.
    destruct (negb servfail && negb neg && _) eqn:E; [|destruct (_ || _); by apply put_ds_ok]. apply put_ds_ok; [done|].
    intros entries ds cl [= <-] (-> & rr & Hin & Ht & Hk & Hpd)%usable_ds_spec.
    apply andb_true_iff in E as [[E1%negb_true_iff E2%negb_true_iff]%andb_true_iff _].
    destruct (Hv rr E2 E1 Hin Ht) as (nm & sig & key & Hn & Hrr & Hs & Hkey). rewrite Ht, Hk in *. rewrite <- (Ho rr Hin Ht), <- Hn. by eapply ds_signed. }
  destruct (rcode =? RCODE_SERVFAIL); [intros [= <- <- <-]; by apply Hstore|]. cbv zeta.
  destruct (dnssec_validate_reply _ _ _ _ _ _ _ _ _ _ _ _) as [[rc nons] c1] eqn:Er.
  destruct (vs_code rc) eqn:Ec; try (by intros [= <- <- <-]).
  - intros [= <- <- <-]. apply Hstore. intros rr _ _ Hin Ht. eapply reply_validated; [done..|exact Er|done|apply elem_of_app; by left|by rewrite Ht|by right].
  - destruct neg eqn:En; intros [= <- <- <-]; [|done]. by apply Hstore.
  - by destruct (bool_decide _); intros [= <- <- <-].
Qed.

(** Stores that replies to DNSKEY and DS queries lead to from [c0]. *)
Inductive store_reachable (c0 : DnssecCache) : DnssecCache -> Prop :=
| sr_start : store_reachable c0 c0
| sr_keys c records name class_ now counter st c' counter' : store_reachable c0 c ->
    dnssec_validate_by_ds records name class_ now c counter = (st, c', counter') -> store_reachable c0 c'
| sr_ds c answer authority name class_ rcode now counter lim st c' counter' : store_reachable c0 c -> Forall plain (answer ++ authority) ->
    own_ds answer name -> dnssec_validate_ds answer authority name class_ rcode now c counter lim = (st, c', counter') -> store_reachable c0 c'.
Lemma store_reachable_ok c0 c : store_ok c0 -> store_reachable c0 c -> store_ok c.
Proof. intros Hok0. induction 1; [done|by eapply by_ds_ok|by eapply validate_ds_ok]. Qed.
End Sound.

(** The anchors a store starts with. *)
Definition anchors_of (c0 : DnssecCache) (name : str) (class_ : Z) (ds : DsData) : Prop :=
  exists entries, tr_ds c0 !! name = Some (DsPositive entries) /\ (ds, class_) ∈ entries.
Lemma anchors_ok `{UnicodeTables} `{CryptoLib} c0 : tr_dnskey c0 = ∅ -> store_ok (anchors_of c0) c0.
Proof.
  intros Hk. split.
  - intros name entries ds cl Hl Hin. apply ds_anchor. by exists entries.
  - intros name keys key cl Hl. rewrite Hk in Hl. by apply lookup_empty_Some in Hl.
Qed.

(** C12: A reply that is judged secure by the strict check, the one without a
    list of names to leave unsigned, is signed: every record that is not itself a
    signature is in an RRset that a covering signature of its owner verifies,
    within its period, under a key of the signer that a chain of DS records and
    keys leads to from the anchors. The store is one that any sequence of DNSKEY
    and DS replies has led to from the anchors, and there are two conditions on
    what the replies hold, both needed. The names of the reply and of the DS
    replies are ASCII and do not end in a dot: a record whose last label ends in
    a dot passes without a signature ([trailing_dot_unvalidated]). And the DS
    records of a DS reply are those of the name asked for: the ones of another
    name are taken for its own ([stray_ds_trusted]), so that a zone whose DS
    records are signed could vouch for another. Keys, DNSKEY replies and
    signatures are not restricted. *)
Theorem dnssec_chain_of_trust `{UnicodeTables} `{CryptoLib} c0 c answer authority qname qtype qclass rcode now counter cu lim s nons counter' rr :
  tr_dnskey c0 = ∅ -> store_reachable c0 c -> Forall plain (answer ++ authority) ->
  dnssec_validate_reply answer authority qname qtype qclass rcode now c counter cu None lim = (s, nons, counter') -> is_secure s = true ->
  rr ∈ answer ++ authority -> rtype rr <> T_RRSIG -> validated (anchors_of c0) now (answer ++ authority) rr.
Proof.
  intros Hk Hc Hp Hr Hs Hin Ht. eapply reply_validated; [eapply store_reachable_ok; [by apply anchors_ok|exact Hc]|done|exact Hr| |done..|by left].
  unfold is_secure in Hs. by destruct (vs_code s).
Qed.

(** ** A zone with toy signatures *)

Module Example.
#[local] Existing Instance ascii_tables.
(** Digests are their input; a signature starts with the key and the end of the
    data, backwards. *)
Definition toy_sign (key data : list u8) : list u8 := take 64 (key ++ rev data ++ replicate 64 Byte.x00).
#[local] Instance toy : CryptoLib := {|
  sha1 x := x; sha256 x := x; sha384 x := x;
  RsaPublicKey := unit; rsa_new _ _ := None; rsa_sig_ok _ := false; rsa_verify _ _ _ _ := false;
  P256Key := unit; p256_from_sec1 _ := None; p256_sig_ok _ := false; p256_verify _ _ _ := false;
  P384Key := unit; p384_from_sec1 _ := None; p384_sig_ok _ := false; p384_verify _ _ _ := false;
  Ed25519Key := list u8; ed25519_from_bytes k := Some k; ed25519_verify k data sig := bool_decide (sig = toy_sign k data) |}.

Definition secret : list u8 := replicate 32 Byte.x07.
Definition dnskey : list u8 := to_be 2 257 ++ [Byte.x03; Byte.x0f] ++ secret.
Definition ds_data (owner : str) : list u8 := to_be 2 (compute_key_tag dnskey) ++ [Byte.x0f; Byte.x02] ++ default [] (name_to_wire owner) ++ dnskey.
Definition rec (name : str) (t : Z) (data : list u8) : DnsRr := mkRr name t 1 3600 data.
(** The signature of an RRset by zone [t]. *)
Definition sign (name : str) (t : Z) (rrset : list DnsRr) : DnsRr :=
  let header := to_be 2 t ++ [Byte.x0f; z8 (count_labels name)] ++ to_be 4 3600 ++ to_be 4 2000 ++ to_be 4 1000 ++ to_be 2 (compute_key_tag dnskey) ++
                default [] (name_to_wire (bs "t")) in
  let data := match signed_data (header ++ [Byte.x00]) (sort_rrset rrset) name t 1 with Some (data, _) => data | None => [] end in
  rec name T_RRSIG (header ++ toy_sign secret data).
Definition signed (name : str) (t : Z) (data : list u8) : list DnsRr := [rec name t data; sign name t [rec name t data]].

Definition anchored : DnssecCache :=
  match parse_ds_rdata (ds_data (bs "t")) with Ok ds => insert_trust_anchor (bs "t") ds 1 dnssec_cache_new | Err _ => dnssec_cache_new end.
Definition with_key : DnssecCache := snd (fst (dnssec_validate_by_ds (signed (bs "t") T_DNSKEY dnskey) (bs "t") 1 1500 anchored 20)).
Lemma with_key_reachable : store_reachable anchored with_key.
Proof.
  eapply (sr_keys anchored anchored (signed (bs "t") T_DNSKEY dnskey) (bs "t") 1 1500 20 _ with_key); [constructor|]. vm_compute. reflexivity.
Qed.

Definition address : list u8 := [Byte.x0a; Byte.x00; Byte.x00; Byte.x01].
Lemma dnssec_chain_of_trust_witness : validated (anchors_of anchored) 1500 (signed (bs "w.t") 1 address ++ []) (rec (bs "w.t") 1 address).
Proof.
  eapply (dnssec_chain_of_trust anchored with_key (signed (bs "w.t") 1 address) [] (bs "w.t") 1 1 0 1500 20 true 150 secure true _);
    [reflexivity|apply with_key_reachable| |vm_compute; reflexivity|reflexivity|left|done].
  apply (bool_decide_unpack (Forall plain (signed (bs "w.t") 1 address ++ []))). vm_compute. exact I.
Defined.

(** A reply with an error code makes a zone unsigned, whoever sent it. *)
Example refused_is_unsigned c name class_ now counter lim :
  dnssec_validate_ds [] [] name class_ 5 now c counter lim = (secure, insert_ds_neg_insecure name c, counter).
Proof. reflexivity. Qed.
Example refused_downgrades : vs_code (zone_status (bs "t") 1 with_key) = StatSecure /\
  vs_code (zone_status (bs "w.t") 1 (insert_ds_neg_insecure (bs "w.t") with_key)) = StatInsecure.
Proof. vm_compute. by split. Qed.

(** The DS records of another name in the answer become those of the name
    asked for. *)
Definition two_ds : list DnsRr := signed (bs "v.t") T_DS (ds_data (bs "v.t")) ++ signed (bs "e.t") T_DS (ds_data (bs "e.t")).
Example stray_ds_trusted : exists c entry other, dnssec_validate_ds two_ds [] (bs "v.t") 1 0 1500 with_key 20 150 = (secure, c, 18) /\
  find_ds c (bs "v.t") = Some (DsPositive [entry; (other, 1)]) /\ parse_ds_rdata (ds_data (bs "e.t")) = Ok other.
Proof. eexists _, _, _. vm_compute. by split_and!. Qed.

(** A label that ends in a dot hides a record from validation. *)
Example trailing_dot_unvalidated :
  fst (fst (dnssec_validate_reply (signed (bs "w.t") 1 address ++ [rec (bs "w.t.") 1 (bs "fake")]) [] (bs "w.t") 1 1 0 1500 with_key 20 true None 150)) = secure.
Proof. vm_compute. reflexivity. Qed.

(** An owner in upper case is signed in lower case, and is refused. *)
Example upper_case_bogus :
  fst (fst (dnssec_validate_reply [rec (bs "W.t") 1 address; rec (bs "W.t") T_RRSIG (rdata (sign (bs "w.t") 1 [rec (bs "w.t") 1 address]))] []
    (bs "w.t") 1 1 0 1500 with_key 20 true None 150)) = bogus DNSSEC_FAIL_NOKEY.
Proof. vm_compute. reflexivity. Qed.
End Example.
