(* ===== verification/DnssecOrder.v ===== *)
(** * Canonical orders and encodings of DNSSEC

    Names and RDATA are totally ordered, an RRset has one canonical form
    whatever order it came in, key tags and base32 agree with their
    definitions, and a proof of non-existence by NSEC is true of every zone that
    its records are truthful about. *)

From Stdlib Require Import ZArith Lia String Sorted.
From stdpp Require Import base numbers list option sorting.
From S2P Require Import Prelude Rfc1035 Crypto Dnssec DnssecChain.

#[local] Open Scope Z_scope.

(** ** Total orders *)

Record total_cmp {A} (cmp : A -> A -> comparison) : Prop := {
  tc_eq : forall x y, cmp x y = Eq <-> x = y;
  tc_opp : forall x y, cmp y x = CompOpp (cmp x y);
  tc_trans : forall x y z, cmp x y = Lt -> cmp y z = Lt -> cmp x z = Lt;
}.

Lemma lex_total {A} (cmp : A -> A -> comparison) : total_cmp cmp -> total_cmp (lex cmp).
Proof.
  intros [Heq Hopp Htr]. split.
  - induction x as [|x a IH]; intros [|y b]; cbn [lex]; [done..|]. destruct (cmp x y) eqn:E.
    + apply Heq in E as ->. rewrite IH. split; [by intros ->|by intros [= ->]].
    + split; [done|]. intros [= -> ->]. by rewrite (proj2 (Heq y y)) in E.
    + split; [done|]. intros [= -> ->]. by rewrite (proj2 (Heq y y)) in E.
  - induction x as [|x a IH]; intros [|y b]; cbn [lex]; [done..|]. rewrite (Hopp x y). destruct (cmp x y); cbn [CompOpp]; [apply IH|done..].
  - induction x as [|x a IH]; intros [|y b] [|z c]; cbn [lex]; try done. destruct (cmp x y) eqn:E1; [| |done].
    + apply Heq in E1 as ->. destruct (cmp y z) eqn:E2; [by apply IH|done..].
    + intros _. destruct (cmp y z) eqn:E2; [|by rewrite (Htr x y z)|done]. apply Heq in E2 as ->. by rewrite E1.
Qed.
Lemma cmp_bytes_total : total_cmp cmp_bytes.
Proof.
  apply lex_total. split.
  - intros x y. rewrite Z.compare_eq_iff. split; [apply u8z_inj|by intros ->].
  - intros x y. apply Z.compare_antisym.
  - intros x y z. rewrite !Z.compare_lt_iff. lia.
Qed.
Lemma cmp_labels_total : total_cmp cmp_labels.
Proof. apply lex_total, cmp_bytes_total. Qed.
Lemma cmp_bytes_refl x : cmp_bytes x x = Eq.
Proof. by apply (tc_eq _ cmp_bytes_total). Qed.

(** ** The bubble sort *)

Definition rd_lt (x y : DnsRr) : Prop := cmp_bytes (rdata x) (rdata y) = Lt.
#[local] Instance rd_lt_trans : Transitive rd_lt.
Proof. intros x y z. apply (tc_trans _ cmp_bytes_total). Qed.

(** Records that are greater and come first. *)
Definition greater (x y : DnsRr) : nat := match cmp_bytes (rdata x) (rdata y) with Gt => 1 | _ => 0 end.
Fixpoint above (x : DnsRr) (l : list DnsRr) : nat := match l with [] => 0 | y :: l => greater x y + above x l end.
Fixpoint inversions (l : list DnsRr) : nat := match l with [] => 0 | x :: l => above x l + inversions l end.

Lemma sort_pass_above z rest : forall x, (above z (fst (sort_pass x rest)) <= above z (x :: rest))%nat.
Proof.
  induction rest as [|y rest IH]; intros x; cbn [sort_pass]; [done|]. cbn [above] in *. destruct (cmp_bytes (rdata x) (rdata y)).
  - specialize (IH x). lia.
  - specialize (IH y). destruct (sort_pass y rest) as [l b]. cbn in *. lia.
  - specialize (IH x). destruct (sort_pass x rest) as [l b]. cbn in *. lia.
Qed.
Lemma sort_pass_inversions rest : forall x, let '(l, swapped) := sort_pass x rest in
  (inversions l + (if swapped then 1 else 0) <= inversions (x :: rest))%nat.
Proof.
  induction rest as [|y rest IH]; intros x; cbn [sort_pass]; [done|]. destruct (cmp_bytes (rdata x) (rdata y)) eqn:E.
  - specialize (IH x). destruct (sort_pass x rest) as [l b]. cbn [inversions above] in *. lia.
  - specialize (IH y). pose proof (sort_pass_above x rest y) as Ha. destruct (sort_pass y rest) as [l b]. cbn [inversions above fst] in *. lia.
  - specialize (IH x). pose proof (sort_pass_above y rest x) as Ha. destruct (sort_pass x rest) as [l b]. cbn [inversions above fst] in *.
    unfold greater in *. rewrite E in *. rewrite (tc_opp _ cmp_bytes_total (rdata x)), E in Ha. cbn in Ha. destruct b; lia.
Qed.
Lemma above_length x l : (above x l <= length l)%nat.
Proof. induction l as [|y l IH]; cbn; [done|]. unfold greater. case_match; lia. Qed.
Lemma inversions_length l : (inversions l <= length l * length l)%nat.
Proof. induction l as [|x l IH]; cbn [inversions length]; [done|]. pose proof (above_length x l). nia. Qed.

(** A pass keeps the set of RDATA, and one that does not swap leaves it sorted. *)
Lemma sort_pass_data rest : forall x d, d ∈ rdata <$> fst (sort_pass x rest) <-> d ∈ rdata <$> x :: rest.
Proof.
  induction rest as [|y rest IH]; intros x d; cbn [sort_pass]; [done|]. destruct (cmp_bytes (rdata x) (rdata y)) eqn:E.
  - apply (proj1 (tc_eq _ cmp_bytes_total _ _)) in E. rewrite IH, !fmap_cons, !elem_of_cons, E. tauto.
  - specialize (IH y d). destruct (sort_pass y rest) as [l b]. cbn [fst] in *. rewrite !fmap_cons, !elem_of_cons in *. tauto.
  - specialize (IH x d). destruct (sort_pass x rest) as [l b]. cbn [fst] in *. rewrite !fmap_cons, !elem_of_cons in *. tauto.
Qed.
Lemma sort_pass_incl rest : forall x r, r ∈ fst (sort_pass x rest) -> r ∈ x :: rest.
Proof.
  induction rest as [|y rest IH]; intros x r; cbn [sort_pass]; [done|]. destruct (cmp_bytes (rdata x) (rdata y)).
  - intros Hr%IH. apply elem_of_cons in Hr. rewrite !elem_of_cons. tauto.
  - specialize (IH y r). destruct (sort_pass y rest) as [l b]. cbn [fst] in *. rewrite !elem_of_cons in *. tauto.
  - specialize (IH x r). destruct (sort_pass x rest) as [l b]. cbn [fst] in *. rewrite !elem_of_cons in *. tauto.
Qed.
Lemma sort_pass_sorted rest : forall x l, sort_pass x rest = (l, false) -> Sorted rd_lt l /\ exists y l', l = y :: l' /\ rdata y = rdata x.
Proof.
  induction rest as [|y rest IH]; intros x l; cbn [sort_pass].
  { intros [= <-]. split; [by repeat constructor|by eexists _, _]. }
  destruct (cmp_bytes (rdata x) (rdata y)) eqn:E; [apply IH| |by destruct (sort_pass x rest)].
  destruct (sort_pass y rest) as [l1 b] eqn:Ep. intros [= <- ->]. destruct (IH _ _ Ep) as (Hs & z & l' & -> & Hz).
  split; [|by eexists _, _]. constructor; [done|]. constructor. unfold rd_lt. by rewrite Hz.
Qed.

Lemma sort_loop_spec fuel : forall l, (inversions l < fuel)%nat ->
  StronglySorted rd_lt (sort_loop fuel l) /\ (forall d, d ∈ rdata <$> sort_loop fuel l <-> d ∈ rdata <$> l) /\ (forall r, r ∈ sort_loop fuel l -> r ∈ l).
Proof.
  induction fuel as [|fuel IH]; intros l Hf; [lia|]. cbn [sort_loop]. destruct l as [|x rest]; [split; [constructor|done]|].
  pose proof (sort_pass_inversions rest x) as Hi. pose proof (sort_pass_data rest x) as Hd. pose proof (sort_pass_incl rest x) as Hn.
  destruct (sort_pass x rest) as [l swapped] eqn:Ep. cbn [fst] in *. destruct swapped.
  - destruct (IH l) as (H1 & H2 & H3); [lia|]. split; [done|]. split; [intros d; by rewrite H2|auto].
  - split; [|done]. apply Sorted_StronglySorted; [apply _|]. by apply sort_pass_sorted in Ep as [? _].
Qed.
Lemma sort_rrset_spec l : StronglySorted rd_lt (sort_rrset l) /\ (forall d, d ∈ rdata <$> sort_rrset l <-> d ∈ rdata <$> l) /\
  (forall r, r ∈ sort_rrset l -> r ∈ l).
Proof. apply sort_loop_spec. pose proof (inversions_length l). lia. Qed.

(** The canonical form of an RRset: its distinct RDATA in strictly ascending
    order, taken from its records, and the same for every RRset with the same
    RDATA. The passes always end. *)
Theorem sort_rrset_canonical l : StronglySorted rd_lt (sort_rrset l) /\ (forall r, r ∈ sort_rrset l -> r ∈ l) /\
  (forall d, d ∈ rdata <$> sort_rrset l <-> d ∈ rdata <$> l) /\
  (forall l', (forall d, d ∈ rdata <$> l <-> d ∈ rdata <$> l') -> rdata <$> sort_rrset l = rdata <$> sort_rrset l').
Proof.
  destruct (sort_rrset_spec l) as (H1 & H2 & H3). split_and!; [done..|]. intros l' Hd. destruct (sort_rrset_spec l') as (H1' & H2' & _).
  assert (forall k, StronglySorted rd_lt k -> StronglySorted (fun a b => cmp_bytes a b = Lt) (rdata <$> k)) as Hm.
  { intros k. induction 1 as [|r k Hk IH Hall]; [constructor|]. constructor; [done|]. by apply Forall_fmap. }
  apply Hm in H1, H1'. apply (StronglySorted_unique_strong (fun a b => cmp_bytes a b = Lt)); [|done..|].
  - intros x y _ _ Hxy Hyx. rewrite (tc_opp _ cmp_bytes_total x), Hxy in Hyx. done.
  - assert (forall k, StronglySorted (fun a b : list u8 => cmp_bytes a b = Lt) k -> NoDup k) as Hnd.
    { intros k. induction 1 as [|r k Hk IH Hall]; constructor; [|done]. intros Hin. rewrite Forall_forall in Hall. specialize (Hall _ Hin). by rewrite cmp_bytes_refl in Hall. }
    apply NoDup_Permutation; [by apply Hnd..|]. intros d. by rewrite H2, H2'.
Qed.

(** ** Names *)

(** The canonical order of names is total: names are equal when their labels
    are, without case, it turns round when the names are swapped, and it is
    transitive. *)
Theorem hostname_cmp_order a b c :
  (hostname_cmp a b = Eq <-> canonical_labels a = canonical_labels b) /\ hostname_cmp b a = CompOpp (hostname_cmp a b) /\
  (hostname_cmp a b = Lt -> hostname_cmp b c = Lt -> hostname_cmp a c = Lt).
Proof. destruct cmp_labels_total as [H1 H2 H3]. split_and!; [apply H1|apply H2|apply H3]. Qed.

(** ** Proofs by NSEC *)

(** A zone as the types that exist at each name, in canonical form. *)
Definition zone_types : Type := list (list u8) -> Z -> Prop.
(** Strictly between two names of the canonical order, around the end of the
    zone where the second is not behind the first. *)
Definition between (o m n : list (list u8)) : Prop :=
  if is_less (cmp_labels o n) then cmp_labels o m = Lt /\ cmp_labels m n = Lt else cmp_labels o m = Lt \/ cmp_labels m n = Lt.
(** What RFC 4034 has an NSEC record say: the types of its owner, and that
    nothing in the zone is between the owner and the next name. *)
Record truthful (zone : zone_types) (nsec : ParsedNsec) : Prop := {
  tr_types : forall t, type_in_bitmap (ns_bitmap nsec) t = false -> ~ zone (canonical_labels (nsec_owner nsec)) t;
  tr_gap : forall m t, between (canonical_labels (nsec_owner nsec)) m (canonical_labels (ns_next nsec)) -> ~ zone m t;
}.

Lemma is_less_false c : negb (is_less c) = true <-> c <> Lt.
Proof. by destruct c. Qed.
Lemma bitmap_says_true bitmap qtype labels nons nons' : bitmap_says bitmap qtype labels nons = (true, nons') ->
  type_in_bitmap bitmap qtype = false /\ type_in_bitmap bitmap T_CNAME = false.
Proof.
  unfold bitmap_says. cbv zeta. destruct (negb (length bitmap =? 0)%nat) eqn:El; cbn [andb].
  - destruct (type_in_bitmap bitmap T_CNAME); [done|]. destruct (_ && _); [done|]. intros [= H _]. by apply negb_true_iff in H.
  - apply negb_false_iff, Nat.eqb_eq in El. destruct bitmap; [done|done].
Qed.

Lemma cmp_flip x y : cmp_labels x y <> Lt -> y <> x -> cmp_labels y x = Lt.
Proof.
  intros H Hne. rewrite (tc_opp _ cmp_labels_total x y). destruct (cmp_labels x y) eqn:E; [|done|done].
  apply (tc_eq _ cmp_labels_total) in E. congruence.
Qed.
(** The two cases in which the code takes a record to cover a name. *)
Lemma covers_between o m n : cmp_labels o m = Lt -> cmp_labels n m <> Lt \/ cmp_labels o n <> Lt -> m <> n -> between o m n.
Proof.
  intros Ho Hc Hne. unfold between. destruct (cmp_labels o n) eqn:E; cbn [is_less]; [by left| |by left].
  destruct Hc as [Hc|Hc]; [|done]. split; [done|]. by apply cmp_flip.
Qed.
Lemma wraps_between o m n : cmp_labels o n <> Lt -> cmp_labels n m <> Lt -> m <> n -> between o m n.
Proof. intros Ho Hc Hne. unfold between. destruct (cmp_labels o n) eqn:E; cbn [is_less]; [|done|]; right; by apply cmp_flip. Qed.

(** C26: What NSEC records prove is true. Take any zone about which the records
    are truthful: an owner has no type its bitmap leaves out, and no name of
    the zone lies strictly between an owner and its next name, around the end
    of the zone for the last one. If the records prove that the name or the
    type does not exist, then the zone has at that name neither the type nor an
    alias. Two cases are excluded and are true of the code: a name that is the
    next name of one of the records, which exists and is denied, and
    the types NSEC and RRSIG, for which any record of the name is enough. Of
    names outside the zone the records are about nothing is said. *)
Theorem nsec_denial_sound `{UnicodeTables} (zone : zone_types) nsecs name qtype nons :
  Forall (truthful zone) nsecs -> Forall (fun nsec => canonical_labels name <> canonical_labels (ns_next nsec)) nsecs ->
  qtype <> T_NSEC -> qtype <> T_RRSIG -> prove_non_existence_nsec nsecs name qtype = (Ok tt, nons) ->
  ~ zone (canonical_labels name) qtype /\ ~ zone (canonical_labels name) T_CNAME.
Proof.
  intros Ht Hn Hq1 Hq2. unfold prove_non_existence_nsec. generalize true.
  induction Ht as [|nsec rest Hx _ IH]; intros b; cbn [nsec_loop]; [done|]. cbv zeta. apply Forall_cons in Hn as [Hne Hn]. specialize (IH Hn).
  destruct (_ && _); [done|]. destruct (hostname_cmp (nsec_owner nsec) name) eqn:Ec.
  - rewrite (proj2 (Z.eqb_neq qtype T_NSEC)), (proj2 (Z.eqb_neq qtype T_RRSIG)) by done. cbn [orb].
    destruct (bitmap_says _ _ _ _) as [[] n1] eqn:Eb; [|done]. intros _. apply bitmap_says_true in Eb as [Hb Hc].
    apply (tc_eq _ cmp_labels_total) in Ec. rewrite <- Ec. split; by apply Hx.
  - destruct (_ || _) eqn:E; [|apply IH]. intros _. rewrite orb_true_iff, !is_less_false in E.
    split; apply (tr_gap _ _ Hx), covers_between; done.
  - destruct (_ && _) eqn:E; [|apply IH]. intros _. rewrite andb_true_iff, !is_less_false in E. destruct E.
    split; apply (tr_gap _ _ Hx), wraps_between; done.
Qed.

(** ** Key tags *)

Lemma tag_sum_add bytes : forall even ac k, tag_sum even (ac + k) bytes = k + tag_sum even ac bytes.
Proof. induction bytes as [|b bytes IH]; intros even ac k; cbn [tag_sum]; [lia|]. rewrite <- IH. f_equal. lia. Qed.
(** The two ways to compute the tag of a key of protocol 3 agree. *)
Theorem key_tags_agree rd dk : parse_dnskey_rdata rd = Ok dk -> dk_protocol dk = 3 -> dk_algorithm dk <> 1 ->
  dnskey_keytag (dk_algorithm dk) (dk_flags dk) (dk_public_key dk) = compute_key_tag rd.
Proof.
  unfold parse_dnskey_rdata. destruct (Nat.ltb_spec (length rd) 4) as [|Hl]; [done|]. intros [= <-]. cbn [dk_protocol dk_algorithm dk_flags dk_public_key].
  destruct rd as [|a [|b [|c [|d rd]]]]; cbn [length] in Hl; try lia. unfold be_at. cbn [drop take]. rewrite !take_0. intros Hp Ha.
  unfold of_be in *. cbn [fold_left] in *. unfold dnskey_keytag. rewrite (proj2 (Z.eqb_neq _ _)) by done. unfold compute_key_tag. f_equal.
  cbn [tag_sum negb]. f_equal. rewrite !Z.shiftl_mul_pow2 by done. change (2 ^ 8) with 256. lia.
Qed.

(** ** Base32 *)

(** The bits of a byte, and five bits as a digit. *)
Definition bits_of (w : nat) (z : Z) : list bool := (fun i => Z.testbit z (Z.of_nat i)) <$> rev (seq 0 w).
Definition bits_val (l : list bool) : Z := fold_left (fun acc (b : bool) => 2 * acc + if b then 1 else 0) l 0.
Definition base32_digit (v : Z) : u8 := z8 (if v <? 10 then 48 + v else 87 + v).
Fixpoint digits_of (bits : list bool) : str :=
  match bits with
  | a :: b :: c :: d :: e :: rest => base32_digit (bits_val [a; b; c; d; e]) :: digits_of rest
  | _ => []
  end.
Definition base32_encode (bytes : list u8) : str := digits_of (mjoin ((fun b => bits_of 8 (u8z b)) <$> bytes)).

Definition push (a : BitAcc) (b : bool) : BitAcc := push_bit (if b then 1 else 0) a 0.
Lemma push_testbit val a i : push_bit val a i = push a (Z.testbit val i).
Proof. unfold push, push_bit. by destruct (Z.testbit val i). Qed.
Lemma push_bits val a : fold_left (push_bit val) [4; 3; 2; 1; 0] a = fold_left push (bits_of 5 val) a.
Proof. unfold bits_of. cbn [fmap list_fmap fold_left rev seq app]. by rewrite !push_testbit. Qed.
Lemma digit_ok a b c d e : base32_val (base32_digit (bits_val [a; b; c; d; e])) = Some (bits_val [a; b; c; d; e]) /\
  bits_of 5 (bits_val [a; b; c; d; e]) = [a; b; c; d; e] /\ base32_digit (bits_val [a; b; c; d; e]) <> dot.
Proof. by destruct a, b, c, d, e. Qed.

(** Decoding digits is pushing their bits, as long as they are whole digits. *)
Lemma base32_loop_digits rest n : rest = [] \/ head rest = Some dot -> forall bits a, (length bits = 5 * n)%nat ->
  base32_loop (digits_of bits ++ rest) a = Some (fold_left push bits a).
Proof.
  intros Hr. induction n as [|n IH]; intros bits a Hl.
  { destruct bits; [|done]. cbn. destruct Hr as [->|Hr]; [done|]. destruct rest as [|b rest]; [done|]. injection Hr as ->. cbn. by rewrite decide_True. }
  destruct bits as [|b1 [|b2 [|b3 [|b4 [|b5 bits]]]]]; cbn [length] in Hl; try lia. destruct (digit_ok b1 b2 b3 b4 b5) as (H1 & H2 & H3).
  cbn [digits_of app base32_loop]. rewrite decide_False by done. rewrite H1, push_bits, H2, IH by lia. done.
Qed.
(** Eight bits make a byte. *)
Lemma push_byte b on out : on mod 8 = 0 -> fold_left push (bits_of 8 (u8z b)) (mkAcc 0 on out) = mkAcc 0 (on + 8) (out ++ [b]).
Proof.
  intros Ho. assert (forall k, 0 < k < 8 -> (Z.land (on + k) 7 =? 0) = false) as Hk.
  { intros k Hk. apply Z.eqb_neq. rewrite land_7, Z.add_mod, Ho, Z.add_0_l, Z.mod_mod, Z.mod_small by lia. lia. }
  assert (forall oc k c, 0 < k < 8 -> push (mkAcc oc (on + k - 1) out) c = mkAcc (if c then Z.lor (as_u32 (Z.shiftl oc 1)) 1 else as_u32 (Z.shiftl oc 1)) (on + k) out) as Hp.
  { intros oc k c Hk'. unfold push, push_bit. cbn [ba_oc ba_on ba_out]. replace (on + k - 1 + 1) with (on + k) by lia. rewrite Hk by done. by destruct c. }
  assert (forall oc c, push (mkAcc oc (on + 7) out) c = mkAcc 0 (on + 8) (out ++ [z8 (if c then Z.lor (as_u32 (Z.shiftl oc 1)) 1 else as_u32 (Z.shiftl oc 1))])) as Hp8.
  { intros oc c. unfold push, push_bit. cbn [ba_oc ba_on ba_out]. replace (on + 7 + 1) with (on + 8) by lia.
    assert ((Z.land (on + 8) 7 =? 0) = true) as ->; [|by destruct c]. apply Z.eqb_eq. rewrite land_7, Z.add_mod, Ho by done. done. }
  unfold bits_of. cbn [fmap list_fmap fold_left rev seq app].
  pose proof (Hp 0 1) as E1. replace (on + 1 - 1) with on in E1 by lia. rewrite E1 by lia.
  pose proof (fun oc => Hp oc 2) as E2. replace (on + 2 - 1) with (on + 1) in E2 by lia. rewrite E2 by lia.
  pose proof (fun oc => Hp oc 3) as E3. replace (on + 3 - 1) with (on + 2) in E3 by lia. rewrite E3 by lia.
  pose proof (fun oc => Hp oc 4) as E4. replace (on + 4 - 1) with (on + 3) in E4 by lia. rewrite E4 by lia.
  pose proof (fun oc => Hp oc 5) as E5. replace (on + 5 - 1) with (on + 4) in E5 by lia. rewrite E5 by lia.
  pose proof (fun oc => Hp oc 6) as E6. replace (on + 6 - 1) with (on + 5) in E6 by lia. rewrite E6 by lia.
  pose proof (fun oc => Hp oc 7) as E7. replace (on + 7 - 1) with (on + 6) in E7 by lia. rewrite E7 by lia.
  rewrite Hp8. do 3 f_equal. clear. by byte_cases b.
Qed.
Lemma push_bytes bytes : forall on out, on mod 8 = 0 ->
  fold_left push (mjoin ((fun b => bits_of 8 (u8z b)) <$> bytes)) (mkAcc 0 on out) = mkAcc 0 (on + 8 * Z.of_nat (length bytes)) (out ++ bytes).
Proof.
  induction bytes as [|b bytes IH]; intros on out Ho; cbn [fmap list_fmap mjoin list_join].
  - cbn. by rewrite Z.add_0_r, app_nil_r.
  - rewrite fold_left_app, push_byte by done. rewrite IH by (rewrite Z.add_mod, Ho by done; done). rewrite <- app_assoc. cbn [length]. f_equal. lia.
Qed.

(** Decoding gives back the bytes that were encoded, five to eight digits, and
    stops at the first dot, as in the first label of an NSEC3 owner. *)
Theorem base32_roundtrip n bytes rest : (length bytes = 5 * n)%nat -> rest = [] \/ head rest = Some dot ->
  base32_decode (base32_encode bytes ++ rest) = Some bytes.
Proof.
  intros Hl Hr. unfold base32_decode, base32_encode. rewrite (base32_loop_digits rest (8 * n)); [|done|].
  - rewrite push_bytes by done. cbn [ba_on ba_out]. by rewrite land_7, Z.add_0_l, Z.mul_comm, Z.mod_mul.
  - assert (forall l : list u8, length (mjoin ((fun b => bits_of 8 (u8z b)) <$> l)) = (8 * length l)%nat) as Hlen.
    { intros l. induction l as [|b l IH]; [done|]. change (length (bits_of 8 (u8z b) ++ mjoin ((fun b => bits_of 8 (u8z b)) <$> l)) = (8 * S (length l))%nat). rewrite length_app, IH. cbn. lia. }
    rewrite Hlen, Hl. lia.
Qed.

(** ** Examples *)

(** A zone of two names with addresses, and the record at the first. *)
Definition two_names : zone_types := fun n t => t = 1 /\ (n = canonical_labels (bs "a.t") \/ n = canonical_labels (bs "c.t")).
Definition first_nsec : ParsedNsec := mkNsec (bs "a.t") (bs "c.t") [Byte.x00; Byte.x01; Byte.x40] 2.
Lemma first_truthful : truthful two_names first_nsec.
Proof.
  split.
  - intros t Ht [-> _]. by vm_compute in Ht.
  - intros m t Hb [_ [-> | ->]]; by vm_compute in Hb; destruct Hb.
Qed.
Lemma nsec_denial_sound_witness : ~ two_names (canonical_labels (bs "b.t")) 1 /\ ~ two_names (canonical_labels (bs "b.t")) T_CNAME.
Proof.
  apply (nsec_denial_sound (H := ascii_tables) two_names [first_nsec] (bs "b.t") 1 true);
    [by apply Forall_singleton, first_truthful|by apply Forall_singleton|done|done|vm_compute; reflexivity].
Defined.
Lemma key_tags_agree_witness : dnskey_keytag 8 257 (bs "key") = compute_key_tag (to_be 2 257 ++ to_be 1 3 ++ to_be 1 8 ++ bs "key").
Proof.
  apply (key_tags_agree (to_be 2 257 ++ to_be 1 3 ++ to_be 1 8 ++ bs "key") (mkDnskey 257 3 8 (bs "key"))); [vm_compute; reflexivity|reflexivity|cbn; lia].
Defined.
Lemma base32_roundtrip_witness : base32_decode (base32_encode (bs "hello") ++ bs ".example") = Some (bs "hello").
Proof. apply (base32_roundtrip 1); [reflexivity|by right]. Defined.

(** The next name of an NSEC record exists, but the record is taken as proof
    that it does not. *)
Example next_name_denied : prove_non_existence_nsec (H := ascii_tables) [mkNsec (bs "a.t") (bs "b.t") [] 2] (bs "b.t") 1 = (Ok tt, true).
Proof. vm_compute. reflexivity. Qed.
(** A record of one zone denies names of another. *)
Example foreign_zone_denied : prove_non_existence_nsec (H := ascii_tables) [mkNsec (bs "evil.t") (bs "z.u") [] 2] (bs "victim.u") 1 = (Ok tt, true).
Proof. vm_compute. reflexivity. Qed.
(** An NS record at the name clears [nons]. *)
Example nons_with_ns : prove_non_existence_nsec (H := ascii_tables) [mkNsec (bs "a.t") (bs "b.t") [Byte.x00; Byte.x01; Byte.x20] 2] (bs "a.t") 1 = (Ok tt, false).
Proof. vm_compute. reflexivity. Qed.
(** The root is two zero bytes on the wire instead of one. *)
Example root_name_wire : name_to_wire (bs ".") = Some [Byte.x00; Byte.x00].
Proof. reflexivity. Qed.

(** ** The chase of CNAME records *)

(** The first name and the targets of the records. *)
Definition chase_names (answer : list DnsRr) (target : str) : list str :=
  target :: ((fun rr => match parse_wire_name (rdata rr) with Ok (n, _) => norm_name n | Err _ => [] end) <$> answer).
Lemma chase_enough names answer qtype qclass : forall fuel k visited target,
  (forall rr n l, rr ∈ answer -> parse_wire_name (rdata rr) = Ok (n, l) -> norm_name n ∈ names) ->
  NoDup visited -> visited ⊆ names -> target ∈ names -> (length names < fuel + length visited)%nat ->
  chase (fuel + k) answer qtype qclass visited target = chase fuel answer qtype qclass visited target.
Proof.
  induction fuel as [|fuel IH]; intros k visited target Hn Hv Hi Ht Hl.
  { assert (length visited <= length names)%nat; [|lia]. apply submseteq_length, NoDup_submseteq; [done|]. intros x Hx. by apply Hi. }
  cbn [chase Nat.add]. destruct (bool_decide (target ∈ visited)) eqn:Eb; [done|]. apply bool_decide_eq_false in Eb.
  destruct (has_rr _ _ _ _); [done|]. destruct (List.find _ answer) as [rr|] eqn:Ef; [|done].
  destruct (parse_wire_name (rdata rr)) as [[n l]|] eqn:Ep; [|done]. apply find_some in Ef as [Hin _]. apply list_elem_of_In in Hin. apply IH.
  - done.
  - by constructor.
  - intros x [->|Hx]%elem_of_cons; [done|by apply Hi].
  - by eapply Hn.
  - cbn [length]. lia.
Qed.
(** The chase ends, also round a cycle: more rounds than two more than there
    are records change nothing. *)
Theorem chase_terminates answer qtype qclass target k :
  chase (length answer + 2 + k) answer qtype qclass [] target = chase (length answer + 2) answer qtype qclass [] target.
Proof.
  apply (chase_enough (chase_names answer target)).
  - intros rr n l Hin Hp. unfold chase_names. right. apply list_elem_of_fmap. exists rr. by rewrite Hp.
  - constructor.
  - by intros x ?%elem_of_nil.
  - left.
  - unfold chase_names. cbn [length]. rewrite length_fmap. lia.
Qed.
