(* ===== verification/LocalAnswer.v ===== *)
(** * Local answers: src/src/rfc1035.rs

    The answers the daemon gives from its configuration and its cache. A stage
    of [answer_request] takes the answer so far and adds its records; the name
    changes only in the first one, which follows the aliases. The cache is
    threaded through because a lookup drops expired records and counts. The
    query log is left out. A name cut inside a character panics. *)

From Stdlib Require Import ZArith Lia String.
From stdpp Require Import base numbers list option sets.
From S2P Require Import Prelude ByteCursor DnsProtocol Rfc1035 Types Arpa Lru Metrics Cache StdText Server DomainMatch Records Domain.

#[local] Open Scope Z_scope.

(** [LocalConfig], without the options of the log. *)
Record LocalConfig : Type := mkLocal {
  lc_local_ttl : Z; lc_edns_pktsz : Z; lc_txt : list TxtRecord; lc_rr : list TxtRecord; lc_mx : list MxSrvRecord;
  lc_ptr : list PtrRecord; lc_hosts : list HostRecord; lc_cnames : list CnameRec; lc_naptr : list Naptr;
  lc_int_names : list InterfaceName; lc_nodots_local : bool; lc_synth : list CondDomain;
  lc_address_servers : ServerArray; lc_address_list : list Server; lc_literal_domains : list str; lc_cachesize : Z }.

Definition F_RCODE : Z := 2 ^ 29.

(** The bits of a reply to a query. *)
Definition as_reply (h : DnsHeader) : DnsHeader :=
  let h := with_hb3 h (z8 (Z.lor (Z.land (u8z (hb3 h)) (not8 (Z.lor HB3_AA HB3_TC))) HB3_QR)) in
  with_counts (with_hb4 h (z8 (Z.lor (Z.land (u8z (hb4 h)) (not8 HB4_AD)) HB4_RA))) (qdcount h) 0 0 0.
Definition set_aa (on : bool) (h : DnsHeader) : DnsHeader :=
  with_hb3 h (z8 (if on then Z.lor (u8z (hb3 h)) HB3_AA else Z.land (u8z (hb3 h)) (not8 HB3_AA))).

Definition setup_reply (h : DnsHeader) (flags : Z) : DnsHeader :=
  let h := as_reply h in
  if flags =? F_NOERR then set_rcode h (z8 0)
  else if flags =? F_NXDOMAIN then set_rcode h (z8 3)
  else if flags =? F_RCODE then set_rcode h (z8 4)
  else if has flags (F_IPV4 ∣∣ F_IPV6) then set_aa true (set_rcode h (z8 0))
  else set_rcode h (z8 5).

(** [domains.iter().any(..)], where the comparison cuts the name. *)
Fixpoint domain_matches_any_suffix (name : str) (domains : list str) : outcome bool :=
  match domains with
  | [] => Val false
  | d :: rest =>
    if (length d =? 0)%nat || (length name <? length d)%nat then domain_matches_any_suffix name rest
    else
      let start := (length name - length d)%nat in
      let# suffix := str_from name start in
      if eq_ignore_ascii_case suffix d && ((length name =? length d)%nat || bool_decide (name !! (start - 1)%nat = Some dot))
      then Val true else domain_matches_any_suffix name rest
  end.

(** ** Statistics *)

Definition TXT_STAT_CACHESIZE : Z := 1.
Definition TXT_STAT_INSERTS : Z := 2.
Definition TXT_STAT_EVICTIONS : Z := 3.
Definition TXT_STAT_MISSES : Z := 4.
Definition TXT_STAT_HITS : Z := 5.
Definition cache_make_stat (stat cachesize inserts evictions misses hits : Z) : option (list u8) :=
  let! text := (if stat =? TXT_STAT_CACHESIZE then Some (fmt_i cachesize)
    else if stat =? TXT_STAT_INSERTS then Some (fmt_u inserts)
    else if stat =? TXT_STAT_EVICTIONS then Some (fmt_u evictions)
    else if stat =? TXT_STAT_MISSES then Some (fmt_u misses)
    else if stat =? TXT_STAT_HITS then Some (fmt_u hits) else None) in
  let text := take 255 text in
  Some (z8 (Z.of_nat (length text)) :: text).

(** ** The answer so far *)

Record Found : Type := mkFound { fd_answers : list DnsRr; fd_ans : bool; fd_nxdomain : bool; fd_auth : bool }.
Definition nothing : Found := mkFound [] false false false.
(** Records that answer the question, from the configuration or not. *)
Definition with_rrs (auth : bool) (rrs : list DnsRr) (f : Found) : Found :=
  if (length rrs =? 0)%nat then f else mkFound (fd_answers f ++ rrs) true (fd_nxdomain f) (fd_auth f || auth).
Definition with_negative (nx : bool) (f : Found) : Found := mkFound (fd_answers f) true (fd_nxdomain f || nx) (fd_auth f).
Definition in_rr (name : str) (t ttl : Z) (rdata : list u8) : DnsRr := mkRr name t 1 ttl rdata.

Section Local.
Context `{UnicodeTables} {L : Lru CacheKey CacheRecord} (cfg : LocalConfig) (now : Instant).

Definition same_name (name : str) (other : str) : bool := bool_decide (to_lowercase other = name).

(** A cached alias: its target, and the record. *)
Definition cached_cname (o : option CacheRecord) : option (str * CacheRecord) :=
  let! r := o in
  match cr_addr r with Some (Cname c) => let! t := target_name c in Some (t, r) | _ => None end.

(** The hops of [resolve_cname_chain]: the name reached, the aliases passed,
    whether they answer the question, whether the name does not exist. *)
Fixpoint resolve_cname_chain (hops : nat) (name : str) (qtype : Z) (rrs : list DnsRr) (ans : bool) (c : DnsCache)
  : str * list DnsRr * bool * bool * DnsCache :=
  match hops with
  | O => (name, rrs, ans, false, c)
  | S hops =>
    match List.find (fun a => same_name name (cn_alias a)) (lc_cnames cfg) with
    | Some a =>
      let rrs := rrs ++ [in_rr name 5 (lc_local_ttl cfg) (write_name [] (cn_target a))] in
      let name := to_lowercase (cn_target a) in
      if qtype =? 5 then (name, rrs, true, false, c) else resolve_cname_chain hops name qtype rrs true c
    | None =>
      let '(o, c) := lookup_by_name name F_CNAME now c in
      match cached_cname o with
      | Some (target, r) =>
        let rrs := rrs ++ [in_rr name 5 (Cache.crec_ttl r now) (write_name [] target)] in
        let name := to_lowercase target in
        if qtype =? 5 then (name, rrs, true, false, c) else resolve_cname_chain hops name qtype rrs ans c
      | None =>
        let '(o, c) := lookup_by_name name (F_NXDOMAIN ∣∣ F_NEG) now c in
        match o with
        | Some _ => (name, rrs, true, true, c)
        | None => (name, rrs, ans, false, c)
        end
      end
    end
  end.
Definition CNAME_HOPS : nat := 16.

Definition cname_part (name : str) (qtype qclass : Z) (c : DnsCache) : str * Found * DnsCache :=
  if qclass =? 1 then
    let '(name, rrs, ans, nx, c) := resolve_cname_chain CNAME_HOPS name qtype [] false c in
    (name, mkFound rrs ans nx false, c)
  else (name, nothing, c).

(** Is a type asked for, alone or among all? *)
Definition asks (qtype t : Z) : bool := (qtype =? t) || (qtype =? 255).

Definition txt_rr (m : Counters) (name : str) (t : TxtRecord) : option DnsRr :=
  if negb (txt_stat t =? 0) then
    let count k := default 0 (get_metric k m) in
    let! rd := cache_make_stat (txt_stat t) (lc_cachesize cfg) (count DnsCacheInserted) (count DnsCacheLiveFreed)
                 (count DnsQueriesForwarded) (count DnsLocalAnswered) in
    Some (mkRr name 16 (txt_class t) 0 rd)
  else Some (mkRr name 16 (txt_class t) (lc_local_ttl cfg) (txt_txt t)).
(** A matching record answers even when it has nothing to say. *)
Definition txt_part (m : Counters) (name : str) (qtype qclass : Z) (f : Found) : Found :=
  if asks qtype 16 then
    let matching := List.filter (fun t => (txt_class t =? qclass) && same_name name (txt_name t)) (lc_txt cfg) in
    let rrs := omap (txt_rr m name) matching in
    mkFound (fd_answers f ++ rrs) (fd_ans f || negb (length matching =? 0)%nat) (fd_nxdomain f) (fd_auth f || negb (length rrs =? 0)%nat)
  else f.

Definition answer_chaos_bind_fallback (qclass : Z) (name : str) (ans : bool) : bool * bool :=
  if (qclass =? 3) && negb ans && (is_subdomain (bs "bind") name || is_subdomain (bs "server") name) then (true, true) else (false, ans).

Definition rr_part (name : str) (qtype : Z) : Found -> Found :=
  with_rrs true ((fun t => in_rr name (txt_class t) (lc_local_ttl cfg) (txt_txt t)) <$>
    List.filter (fun t => same_name name (txt_name t) && ((txt_class t =? qtype) || (qtype =? 255))) (lc_rr cfg)).

(** ** Reverse lookups *)

Definition host_has (addr : AllAddr) (h : HostRecord) : bool :=
  match addr with
  | Addr4 a => bool_decide (hr_addr4 h = Some a)
  | Addr6 a => bool_decide (hr_addr6 h = Some a)
  | _ => false
  end.
Definition host_records_find_by_addr (addr : AllAddr) : option str :=
  let! h := List.find (host_has addr) (lc_hosts cfg) in head (hr_names h).
Definition synth_ptr (addr : AllAddr) : option str :=
  match addr with
  | Addr4 a => rev_synth_ipv4 a (lc_synth cfg)
  | Addr6 a => rev_synth_ipv6 a (lc_synth cfg)
  | _ => None
  end.
Definition ptr_rr (name : str) (ttl : Z) (target : str) : DnsRr := in_rr name 12 ttl (write_name [] target).

Definition ptr_part (name : str) (qtype : Z) (f : Found) (c : DnsCache) : Found * DnsCache :=
  if asks qtype 12 then
    match List.filter (fun p => same_name name (ptr_name p)) (lc_ptr cfg) with
    | [] =>
      match in_arpa_name_2_addr name with
      | None => (f, c)
      | Some addr =>
        match host_records_find_by_addr addr with
        | Some host => (with_rrs true [ptr_rr name (lc_local_ttl cfg) host] f, c)
        | None =>
          let '(o, c) := lookup_by_addr addr now c in
          match o with
          | Some r =>
            (if has (cr_flags r) F_NXDOMAIN then with_negative true f
             else with_rrs false [ptr_rr name (Cache.crec_ttl r now) (cr_name r)] f, c)
          | None =>
            (match synth_ptr addr with
             | Some host => with_rrs true [ptr_rr name (lc_local_ttl cfg) host] f
             | None => f
             end, c)
          end
        end
      end
    | ps => (with_rrs true ((fun p => ptr_rr name (lc_local_ttl cfg) (ptr_ptr p)) <$> ps) f, c)
    end
  else (f, c).

(** ** Addresses *)

Definition addr_rdata (v6 : bool) (a : Z) : list u8 := if v6 then octets6 a else octets4 a.
Definition addr_type (v6 : bool) : Z := if v6 then 28 else 1.
Definition addr_rr (v6 : bool) (name : str) (ttl a : Z) : DnsRr := in_rr name (addr_type v6) ttl (addr_rdata v6 a).

Definition host_rrs (name : str) (qtype : Z) (h : HostRecord) : list DnsRr :=
  if existsb (same_name name) (hr_names h) then
    (if asks qtype 1 then addr_rr false name (lc_local_ttl cfg) <$> option_list (hr_addr4 h) else []) ++
    (if asks qtype 28 then addr_rr true name (lc_local_ttl cfg) <$> option_list (hr_addr6 h) else [])
  else [].
Definition addr_of (v6 : bool) (o : option AllAddr) : option Z :=
  match o, v6 with Some (Addr4 a), false => Some a | Some (Addr6 a), true => Some a | _, _ => None end.
Definition synth_addr (v6 : bool) (name : str) : outcome (option Z) :=
  if v6 then synthesize_ipv6 name (lc_synth cfg) else synthesize_ipv4 name (lc_synth cfg).
(** One family: a cached record, or a synthesised one when nothing is cached. *)
Definition family_part (v6 : bool) (name : str) (f : Found) (c : DnsCache) : outcome (Found * DnsCache) :=
  let '(o, c) := lookup_forward name (if v6 then F_IPV6 else F_IPV4) now c in
  match o with
  | Some r =>
    Val (if has (cr_flags r) F_NEG then with_negative (has (cr_flags r) F_NXDOMAIN) f
         else match addr_of v6 (cr_addr r) with
              | Some a => with_rrs false [addr_rr v6 name (Cache.crec_ttl r now) a] f
              | None => f
              end, c)
  | None =>
    let# o := synth_addr v6 name in
    Val (with_rrs true (addr_rr v6 name (lc_local_ttl cfg) <$> option_list o) f, c)
  end.
Definition addr_part (name : str) (qtype : Z) (f : Found) (c : DnsCache) : outcome (Found * DnsCache) :=
  if asks qtype 1 || asks qtype 28 then
    match mjoin (host_rrs name qtype <$> lc_hosts cfg) with
    | [] =>
      let# (f, c) := (if asks qtype 1 then family_part false name f c else Val (f, c)) in
      if asks qtype 28 then family_part true name f c else Val (f, c)
    | rrs => Val (with_rrs true rrs f, c)
    end
  else Val (f, c).

(** ** Other configured records *)

Definition owned {A} (name_of : A -> str) (name : str) (l : list A) : list A := List.filter (fun x => same_name name (name_of x)) l.
Definition mx_part (name : str) (qtype : Z) : Found -> Found :=
  with_rrs true (if asks qtype 15 then
    (fun r => in_rr name 15 (lc_local_ttl cfg) (write_name (to_be 2 (mx_priority r)) (mx_target r))) <$>
      List.filter (fun r => negb (mx_is_srv r)) (owned mx_name name (lc_mx cfg)) else []).
Definition srv_part (name : str) (qtype : Z) : Found -> Found :=
  with_rrs true (if asks qtype 33 then
    (fun r => in_rr name 33 (lc_local_ttl cfg)
       (write_name (to_be 2 (mx_priority r) ++ to_be 2 (mx_weight r) ++ to_be 2 (mx_srv_port r)) (mx_target r))) <$>
      List.filter mx_is_srv (owned mx_name name (lc_mx cfg)) else []).
Definition counted_string (s : str) : list u8 := z8 (Z.of_nat (length s)) :: s.
Definition naptr_part (name : str) (qtype : Z) : Found -> Found :=
  with_rrs true (if asks qtype 35 then
    (fun n => in_rr name 35 (lc_local_ttl cfg)
       (write_name (to_be 2 (na_order n) ++ to_be 2 (na_pref n) ++ counted_string (na_flags n) ++ counted_string (na_services n)
                    ++ counted_string (na_regexp n)) (na_replace n))) <$> owned na_name name (lc_naptr cfg) else []).

(** ** Names the daemon keeps to itself *)

Definition check_for_local_domain (name : str) (c : DnsCache) : outcome bool :=
  let any {A} (name_of : A -> str) (l : list A) := existsb (fun x => is_subdomain name (name_of x)) l in
  if any na_name (lc_naptr cfg) || any mx_name (lc_mx cfg) || any txt_name (lc_txt cfg) || any in_name (lc_int_names cfg)
     || any ptr_name (lc_ptr cfg) || cache_find_non_terminal name now c
  then Val true
  else
    let# v4 := synthesize_ipv4 name (lc_synth cfg) in
    match v4 with
    | Some _ => Val true
    | None => let# v6 := synthesize_ipv6 name (lc_synth cfg) in Val (negb (bool_decide (v6 = None)))
    end.

Definition gotname (qtype : Z) : Z := (if asks qtype 1 then F_IPV4 else 0) ∣∣ (if asks qtype 28 then F_IPV6 else 0).
(** The local domains are asked about only when nothing else decides. *)
Definition local_flags (first : nat) (name : str) (c : DnsCache) : outcome Z :=
  if is_local_answer (lc_address_servers cfg) first false =? F_NXDOMAIN then
    let# known := check_for_local_domain name c in Val (is_local_answer (lc_address_servers cfg) first known)
  else Val (is_local_answer (lc_address_servers cfg) first false).

Definition has_opt (query : DnsPacket) : bool := existsb (fun rr => rtype rr =? 41) (additional query).
Definition size_budget (query : DnsPacket) : nat :=
  if has_opt query then Z.to_nat (lc_edns_pktsz cfg) else PACKETSZ.
Definition empty_reply (query : DnsPacket) : DnsPacket := mkPacket (as_reply (header query)) (questions query) [] [] [].
Definition rrs_size (rrs : list DnsRr) : nat := length (fold_left write_rr rrs []).

(** The addresses of a literal domain go out together or not at all. *)
Definition literal_rrs (query : DnsPacket) (rrs : list DnsRr) (f : Found) : Found * bool :=
  let truncated := (size_budget query <? length (write (empty_reply query)) + rrs_size rrs)%nat in
  (mkFound (if truncated then fd_answers f else fd_answers f ++ rrs) true (fd_nxdomain f) true, truncated).
Definition literal_part (query : DnsPacket) (name : str) (qtype : Z) (f : Found) (c : DnsCache) : outcome (Found * bool) :=
  if fd_ans f then Val (f, false)
  else
    let# range := lookup (lc_address_servers cfg) name (gotname qtype) in
    match range with
    | None => Val (f, false)
    | Some (first, last) =>
      let# flags := local_flags first name c in
      Val (if has flags F_NXDOMAIN then (with_negative true f, false)
           else if has flags F_NOERR then (with_negative false f, false)
           else if has flags (F_IPV4 ∣∣ F_IPV6) then
             literal_rrs query (make_local_answer (lc_address_servers cfg) (lc_address_list cfg) first last
               (Z.land flags (gotname qtype)) name (lc_local_ttl cfg)) f
           else (f, false))
    end.

Definition nodots_part (name : str) (qtype : Z) (f : Found) (c : DnsCache) : outcome Found :=
  if negb (fd_ans f) && lc_nodots_local cfg && (asks qtype 1 || asks qtype 28) && negb (bool_decide (dot ∈ name)) && negb (bool_decide (name = []))
  then
    let# known := check_for_local_domain name c in
    Val (mkFound (fd_answers f) true (negb known) (fd_auth f))
  else Val f.
Definition literal_domain_part (name : str) (f : Found) : outcome Found :=
  if fd_ans f then Val f
  else
    let# hit := domain_matches_any_suffix name (lc_literal_domains cfg) in
    Val (if hit then mkFound (fd_answers f) true true (fd_auth f) else f).

(** ** The reply *)

Definition EDNS_DO : Z := 0x8000.
Definition reply_opt (edns_pktsz : Z) (query : DnsPacket) : list DnsRr :=
  match List.find (fun rr => rtype rr =? 41) (additional query) with
  | Some opt => [mkRr [] 41 edns_pktsz (Z.land (ttl opt) EDNS_DO) []]
  | None => []
  end.
Definition reply_code (notimp : bool) (f : Found) (h : DnsHeader) : DnsHeader :=
  if notimp then set_aa false (set_rcode h (z8 4))
  else if fd_nxdomain f then set_aa false (set_rcode h (z8 3))
  else if fd_auth f then set_rcode (set_aa true h) (z8 0)
  else set_rcode (set_aa false h) (z8 0).
Definition finish_local (query : DnsPacket) (notimp truncated : bool) (f : Found) : DnsPacket :=
  let h := as_reply (header query) in
  let h := with_counts h (qdcount h) (as_u16 (Z.of_nat (length (fd_answers f)))) (nscount h) (as_u16 (Z.of_nat (length (reply_opt (lc_edns_pktsz cfg) query)))) in
  let h := reply_code notimp f h in
  let h := with_hb3 h (z8 (Z.lor (u8z (hb3 h)) HB3_QR)) in
  let h := with_hb4 h (z8 (Z.lor (u8z (hb4 h)) HB4_RA)) in
  let h := if truncated then with_hb3 h (z8 (Z.lor (u8z (hb3 h)) HB3_TC)) else h in
  mkPacket h (questions query) (fd_answers f) [] (reply_opt (lc_edns_pktsz cfg) query).

(** The stages for class IN alone. *)
Definition in_part (name : str) (qtype : Z) (f : Found) (c : DnsCache) : outcome (Found * DnsCache) :=
  let '(f, c) := ptr_part name qtype (rr_part name qtype f) c in
  let# (f, c) := addr_part name qtype f c in
  Val (naptr_part name qtype (srv_part name qtype (mx_part name qtype f)), c).
(** The name the answer is about, what was found for it, the fallback for
    CHAOS and whether the literal addresses did not fit. *)
Definition find_answer (query : DnsPacket) (q : DnsQuestion) (m : Counters) (c : DnsCache) : outcome (str * Found * bool * bool * DnsCache) :=
  let t := qtype q in
  let '(name, f, c) := cname_part (to_lowercase (q_name q)) t (qclass q) c in
  let f := txt_part m name t (qclass q) f in
  let '(notimp, ans) := answer_chaos_bind_fallback (qclass q) name (fd_ans f) in
  let f := mkFound (fd_answers f) ans (fd_nxdomain f) (fd_auth f) in
  let# (f, c) := (if qclass q =? 1 then in_part name t f c else Val (f, c)) in
  let# (f, truncated) := literal_part query name t f c in
  let# f := nodots_part name t f c in
  let# f := literal_domain_part name f in
  Val (name, f, notimp, truncated, c).

Definition one_question (query : DnsPacket) : option DnsQuestion :=
  match questions query with
  | [q] =>
    if (length (answers query) =? 0)%nat && (length (authority query) =? 0)%nat && (opcode (header query) =? 0)
       && ((qclass q =? 1) || (qclass q =? 3)) then Some q else None
  | _ => None
  end.
(** [None] is for the query to be forwarded. *)
Definition answer_request (query : DnsPacket) (w : World) : outcome (option DnsPacket * World) :=
  match one_question query with
  | None => Val (None, w)
  | Some q =>
    let# r := find_answer query q (metrics w) (cache w) in
    let '(_, f, notimp, truncated, c) := r in
    Val (if fd_ans f then Some (finish_local query notimp truncated f) else None, mkWorld c (metrics w))
  end.
End Local.
