(* ===== verification/LocalSpec.v ===== *)
(** * What the local answers promise

    Every record of an answer comes from the configuration or from a record of
    the cache that is alive, the aliases form a chain from the question to the
    name of the other records, and answering leaves what the cache has to say
    as it is. *)

From Stdlib Require Import ZArith Lia String.
From stdpp Require Import base numbers list option sets.
From S2P Require Import Prelude ByteCursor DnsProtocol Rfc1035 Types Arpa Lru Metrics Cache StdText Server DomainMatch Records Domain LocalAnswer.

#[local] Open Scope Z_scope.
Create HintDb local.

(** The aliases passed on the way from one name to another. *)
Fixpoint alias_chain `{UnicodeTables} (from : str) (aliases : list DnsRr) (to : str) : Prop :=
  match aliases with
  | [] => from = to
  | rr :: rest => r_name rr = from /\ rtype rr = 5 /\ class rr = 1 /\
                  exists target, rdata rr = write_name [] target /\ alias_chain (to_lowercase target) rest to
  end.

Section Spec.
Context `{UnicodeTables} {L : Lru CacheKey CacheRecord} (cfg : LocalConfig) (now : Instant) (m : Counters) (c0 : DnsCache).
Hypothesis c0_wf : wf c0.

(** A record of the configuration for the name. *)
Inductive configured (name : str) : DnsRr -> Prop :=
| conf_cname a : a ∈ lc_cnames cfg -> to_lowercase (cn_alias a) = name ->
  configured name (in_rr name 5 (lc_local_ttl cfg) (write_name [] (cn_target a)))
| conf_txt t rr : t ∈ lc_txt cfg -> to_lowercase (txt_name t) = name -> txt_rr cfg m name t = Some rr -> configured name rr
| conf_rr t : t ∈ lc_rr cfg -> to_lowercase (txt_name t) = name -> configured name (in_rr name (txt_class t) (lc_local_ttl cfg) (txt_txt t))
| conf_ptr p : p ∈ lc_ptr cfg -> to_lowercase (ptr_name p) = name -> configured name (LocalAnswer.ptr_rr name (lc_local_ttl cfg) (ptr_ptr p))
| conf_host_ptr addr h host : in_arpa_name_2_addr name = Some addr -> h ∈ lc_hosts cfg -> host_has addr h = true ->
  head (hr_names h) = Some host -> configured name (LocalAnswer.ptr_rr name (lc_local_ttl cfg) host)
| conf_synth_ptr addr host : in_arpa_name_2_addr name = Some addr -> synth_ptr cfg addr = Some host ->
  configured name (LocalAnswer.ptr_rr name (lc_local_ttl cfg) host)
| conf_host (v6 : bool) a h n : h ∈ lc_hosts cfg -> n ∈ hr_names h -> to_lowercase n = name ->
  (if v6 then hr_addr6 h else hr_addr4 h) = Some a -> configured name (addr_rr v6 name (lc_local_ttl cfg) a)
| conf_synth v6 a : synth_addr cfg v6 name = Val (Some a) -> configured name (addr_rr v6 name (lc_local_ttl cfg) a)
| conf_mx r : r ∈ lc_mx cfg -> mx_is_srv r = false -> to_lowercase (mx_name r) = name ->
  configured name (in_rr name 15 (lc_local_ttl cfg) (write_name (to_be 2 (mx_priority r)) (mx_target r)))
| conf_srv r : r ∈ lc_mx cfg -> mx_is_srv r = true -> to_lowercase (mx_name r) = name ->
  configured name (in_rr name 33 (lc_local_ttl cfg) (write_name (to_be 2 (mx_priority r) ++ to_be 2 (mx_weight r) ++ to_be 2 (mx_srv_port r)) (mx_target r)))
| conf_naptr n rd : n ∈ lc_naptr cfg -> to_lowercase (na_name n) = name -> configured name (in_rr name 35 (lc_local_ttl cfg) rd)
| conf_literal wanted first last flags rr : lookup (lc_address_servers cfg) name wanted = Val (Some (first, last)) ->
  rr ∈ make_local_answer (lc_address_servers cfg) (lc_address_list cfg) first last flags name (lc_local_ttl cfg) -> configured name rr.

(** The record the cache holds under a key, unless it has expired. *)
Notation live k := (live_at now (look k c0)).
(** A record of the cache for the name. *)
Inductive from_cache (name : str) : DnsRr -> Prop :=
| cache_cname r c target : live (key_for name F_CNAME) = Some r -> cr_addr r = Some (Cname c) -> target_name c = Some target ->
  from_cache name (in_rr name 5 (Cache.crec_ttl r now) (write_name [] target))
| cache_ptr k r addr : live k = Some r -> in_arpa_name_2_addr name = Some addr -> addr_matches (cr_addr r) addr = true ->
  has (cr_flags r) F_NXDOMAIN = false -> from_cache name (LocalAnswer.ptr_rr name (Cache.crec_ttl r now) (cr_name r))
| cache_addr k r v6 a : live k = Some r -> to_lowercase (cr_name r) = to_lowercase name -> has (cr_flags r) F_NEG = false ->
  addr_of v6 (cr_addr r) = Some a -> from_cache name (addr_rr v6 name (Cache.crec_ttl r now) a).

Definition sourced (name : str) (rr : DnsRr) : Prop := r_name rr = name /\ (configured name rr \/ from_cache name rr).
#[local] Hint Constructors configured from_cache : local.

(** ** What the cache says stays the same *)

Definition same_view (c : DnsCache) : Prop := forall k, live_at now (look k c) = live k.

Lemma live_not_expired k c r : live_at now (look k c) = Some r -> look k c = Some r /\ record_is_expired r now = false.
Proof. unfold live_at. destruct (look k c) as [r'|]; [|done]. destruct (record_is_expired r' now) eqn:E; [done|]. intros [= ->]. done. Qed.

Lemma view_by_name name flags c : same_view c -> same_view (snd (lookup_by_name name flags now c)).
Proof.
  intros Hv k. destruct (lookup_by_name_spec name flags now c) as (Ho & Hl & _). rewrite Hl, <- Hv. case_decide; [subst k|done].
  rewrite Ho. destruct (live_at now (look (key_for name flags) c)) as [r|] eqn:E; [|done]. apply live_not_expired in E as [_ Hx]. cbn. by rewrite Hx.
Qed.
Lemma view_sub c c' : (forall k r, look k c' = Some r -> look k c = Some r) ->
  (forall k r, look k c = Some r -> record_is_expired r now = false -> look k c' = Some r) -> same_view c -> same_view c'.
Proof.
  intros H1 H2 Hv k. rewrite <- Hv. destruct (look k c') as [r|] eqn:E; [by rewrite (H1 _ _ E)|].
  destruct (look k c) as [r|] eqn:E'; [|done]. cbn. destruct (record_is_expired r now) eqn:Hx; [done|]. by rewrite (H2 _ _ E' Hx) in E.
Qed.
Lemma view_forward name flags c : same_view c -> same_view (snd (lookup_forward name flags now c)).
Proof. intros Hv. destruct (lookup_forward_spec name flags now c) as (_ & _ & H1 & H2 & _). by eapply view_sub. Qed.
Lemma look_expire_old k c : look k (expire_old now c) = live_at now (look k c).
Proof. exact (look_pop_where (fun r => record_is_expired r now) k c). Qed.
Lemma view_by_addr addr c : same_view c -> same_view (snd (lookup_by_addr addr now c)).
Proof.
  intros Hv k. rewrite <- Hv. unfold lookup_by_addr. case_match; rewrite ?look_get; cbn [snd].
  all: change (look k (bump ?x _ _ _ _)) with (look k x); rewrite look_expire_old; destruct (look k c) as [r|]; [|done]; cbn.
  all: by destruct (record_is_expired r now) eqn:E; cbn; rewrite ?E.
Qed.
Lemma by_addr_found addr c r : same_view c -> fst (lookup_by_addr addr now c) = Some r ->
  exists k, live k = Some r /\ addr_matches (cr_addr r) addr = true.
Proof.
  intros Hv. unfold lookup_by_addr. destruct (List.find _ _) as [[k r']|] eqn:E; cbn [fmap option_fmap option_map fst]; [|done].
  apply find_some in E as [Hin Hm]. cbn [snd] in Hm. rewrite get_fst. change (look k (bump ?x _ _ _ _)) with (look k x).
  apply list_elem_of_In, (elem_assoc k r') in Hin; [|apply lru_nodup]. change (look k (expire_old now c) = Some r') in Hin.
  rewrite Hin. intros [= <-]. exists k. split; [|done]. by rewrite <- Hv, <- look_expire_old.
Qed.
Lemma live_name k name flags r : k = key_for name flags -> live k = Some r -> to_lowercase (cr_name r) = to_lowercase name.
Proof. intros -> [Hl _]%live_not_expired. apply look_key in Hl; [|done]. by injection Hl. Qed.

(** ** The stages *)

(** Whatever lookups preserve holds of the cache after every stage. *)
Variable P : DnsCache -> Prop.
Hypothesis P_start : P c0.
Hypothesis P_view : forall c, P c -> same_view c.
Hypothesis P_by_name : forall name flags c, P c -> P (snd (lookup_by_name name flags now c)).
Hypothesis P_forward : forall name flags c, P c -> P (snd (lookup_forward name flags now c)).
Hypothesis P_by_addr : forall addr c, P c -> P (snd (lookup_by_addr addr now c)).

Definition all_sourced (name : str) (rrs : list DnsRr) : Prop := Forall (sourced name) rrs.
(** The stage adds records for the name. *)
Definition grows (name : str) (f f' : Found) : Prop := exists rrs, fd_answers f' = fd_answers f ++ rrs /\ all_sourced name rrs.
Lemma grows_same name f f' : fd_answers f' = fd_answers f -> grows name f f'.
Proof. intros E. exists []. split; [by rewrite E, app_nil_r|constructor]. Qed.
Lemma grows_trans name f1 f2 f3 : grows name f1 f2 -> grows name f2 f3 -> grows name f1 f3.
Proof. intros (a & E1 & Ha) (b & E2 & Hb). exists (a ++ b). split; [by rewrite E2, E1, app_assoc|by apply Forall_app]. Qed.
Lemma grows_rrs name auth rrs f : all_sourced name rrs -> grows name f (with_rrs auth rrs f).
Proof. intros Hr. unfold with_rrs. destruct rrs; [by apply grows_same|]. by eexists. Qed.
Lemma all_fmap {A} name (g : A -> DnsRr) l : (forall x, x ∈ l -> sourced name (g x)) -> all_sourced name (g <$> l).
Proof. intros Hg. apply Forall_fmap, Forall_forall. exact Hg. Qed.
Lemma in_rr_configured name rr : r_name rr = name -> configured name rr -> sourced name rr.
Proof. by split; [|left]. Qed.
Lemma in_rr_cached name rr : r_name rr = name -> from_cache name rr -> sourced name rr.
Proof. by split; [|right]. Qed.
Lemma one_sourced name rr : sourced name rr -> all_sourced name [rr].
Proof. intros Hr. by constructor. Qed.
Lemma owned_spec {A} (name_of : A -> str) name l x : x ∈ owned name_of name l -> x ∈ l /\ to_lowercase (name_of x) = name.
Proof. unfold owned, same_name. intros [Hx Hn]%list_elem_of_In%filter_In. apply bool_decide_eq_true in Hn. by rewrite list_elem_of_In. Qed.

Lemma txt_part_grows name t k f : grows name f (txt_part cfg m name t k f).
Proof.
  unfold txt_part. case_match; [|by apply grows_same]. eexists. split; [done|]. apply Forall_forall. intros rr.
  intros (x & Hx & Hr)%list_elem_of_omap. apply list_elem_of_In, filter_In in Hx as [Hx [_ Hn]%andb_true_iff].
  apply bool_decide_eq_true in Hn. apply in_rr_configured; [|eapply conf_txt; [by apply list_elem_of_In|done|exact Hr]].
  unfold txt_rr in Hr. case_match; [|by injection Hr as <-]. destruct (cache_make_stat _ _ _ _ _ _); [|done]. by injection Hr as <-.
Qed.
Lemma rr_part_grows name t f : grows name f (rr_part cfg name t f).
Proof.
  apply grows_rrs, all_fmap. intros x [Hx [Hn _]%andb_true_iff]%list_elem_of_In%filter_In. apply bool_decide_eq_true in Hn.
  apply in_rr_configured; [done|]. apply list_elem_of_In in Hx. auto with local.
Qed.
Lemma mx_part_grows name t f : grows name f (mx_part cfg name t f).
Proof.
  apply grows_rrs. case_match; [|constructor]. apply all_fmap. intros x [Hx Hs]%list_elem_of_In%filter_In.
  apply list_elem_of_In, owned_spec in Hx as [Hx Hn]. apply in_rr_configured; [done|]. apply negb_true_iff in Hs. auto with local.
Qed.
Lemma srv_part_grows name t f : grows name f (srv_part cfg name t f).
Proof.
  apply grows_rrs. case_match; [|constructor]. apply all_fmap. intros x [Hx Hs]%list_elem_of_In%filter_In.
  apply list_elem_of_In, owned_spec in Hx as [Hx Hn]. apply in_rr_configured; [done|]. auto with local.
Qed.
Lemma naptr_part_grows name t f : grows name f (naptr_part cfg name t f).
Proof.
  apply grows_rrs. case_match; [|constructor]. apply all_fmap. intros x [Hx Hn]%owned_spec. apply in_rr_configured; [done|]. eauto with local.
Qed.

Lemma host_find_spec addr host : host_records_find_by_addr cfg addr = Some host ->
  exists h, h ∈ lc_hosts cfg /\ host_has addr h = true /\ head (hr_names h) = Some host.
Proof. unfold host_records_find_by_addr. destruct (List.find _ _) as [h|] eqn:E; [|done]. apply find_some in E as [Hh Ha]. intros Hd. exists h. by rewrite list_elem_of_In. Qed.
Lemma ptr_part_grows name t f c : P c ->
  grows name f (fst (ptr_part cfg now name t f c)) /\ P (snd (ptr_part cfg now name t f c)).
Proof.
  intros Hv. unfold ptr_part. case_match; [|split; [by apply grows_same|done]].
  destruct (List.filter _ (lc_ptr cfg)) as [|p ps] eqn:E.
  2:{ split; [|done]. apply grows_rrs, all_fmap. intros x Hx. rewrite <- E in Hx. apply list_elem_of_In, filter_In in Hx as [Hx Hn].
      apply bool_decide_eq_true in Hn. apply in_rr_configured; [done|]. apply list_elem_of_In in Hx. auto with local. }
  destruct (in_arpa_name_2_addr name) as [addr|] eqn:Ea; [|split; [by apply grows_same|done]].
  destruct (host_records_find_by_addr cfg addr) as [host|] eqn:Eh.
  { split; [|done]. apply host_find_spec in Eh as (h & Hh & Hm & Hn). apply grows_rrs, one_sourced, in_rr_configured; [done|]. eauto with local. }
  pose proof (by_addr_found addr c) as Hf. pose proof (P_by_addr addr c Hv) as Hv'.
  destruct (lookup_by_addr addr now c) as [[r|] c'] eqn:El; cbn [fst snd] in *; (split; [|done]).
  - destruct (Hf r (P_view c Hv) eq_refl) as (k & Hk & Hm). destruct (has (cr_flags r) F_NXDOMAIN) eqn:Ex; [by apply grows_same|].
    apply grows_rrs, one_sourced, in_rr_cached; [done|]. eauto with local.
  - destruct (synth_ptr cfg addr) as [host|] eqn:Es; [|by apply grows_same]. apply grows_rrs, one_sourced, in_rr_configured; [done|]. eauto with local.
Qed.

Lemma host_rrs_sourced name t h : h ∈ lc_hosts cfg -> all_sourced name (host_rrs cfg name t h).
Proof.
  intros Hh. unfold host_rrs. destruct (existsb _ _) eqn:E; [|constructor]. apply existsb_exists in E as (n & Hn & Hl).
  apply bool_decide_eq_true in Hl. apply list_elem_of_In in Hn.
  apply Forall_app. split; (case_match; [|constructor]); apply all_fmap; intros a Ha; apply in_rr_configured; try done.
  - eapply (conf_host name false a h n); [done..|]. destruct (hr_addr4 h); [|by apply elem_of_nil in Ha]. by apply list_elem_of_singleton in Ha as ->.
  - eapply (conf_host name true a h n); [done..|]. destruct (hr_addr6 h); [|by apply elem_of_nil in Ha]. by apply list_elem_of_singleton in Ha as ->.
Qed.
Lemma family_part_grows v6 name f c f' c' : P c -> family_part cfg now v6 name f c = Val (f', c') -> grows name f f' /\ P c'.
Proof.
  intros Hv. unfold family_part. set (fl := if v6 then F_IPV6 else F_IPV4).
  destruct (lookup_forward_spec name fl now c) as (Ho & Hn & _). pose proof (P_forward name fl c Hv) as Hv'.
  destruct (lookup_forward name fl now c) as [[r|] c1]; cbn [fst snd] in *.
  - intros [= <- <-]. split; [|done]. destruct (has (cr_flags r) F_NEG) eqn:En; [by apply grows_same|].
    destruct (addr_of v6 (cr_addr r)) as [a|] eqn:Ea; [|by apply grows_same]. apply grows_rrs, one_sourced, in_rr_cached; [done|].
    assert (exists k, live k = Some r /\ exists g, k = key_for name g) as (k & Hk & g & Eg).
    { rewrite !(P_view c Hv) in Ho. destruct (live (key_for name fl)) as [r1|] eqn:El; [injection Ho as ->; by eauto|]. rewrite Hn in Ho. by eauto. }
    apply (cache_addr name k r v6 a); [done| |done..]. by apply (live_name k name g).
  - destruct (synth_addr cfg v6 name) as [o|] eqn:Es; [|done]. intros [= <- <-]. split; [|done].
    apply grows_rrs. destruct o as [a|]; [|constructor]. apply one_sourced, in_rr_configured; [done|]. auto with local.
Qed.
Lemma addr_part_grows name t f c f' c' : P c -> addr_part cfg now name t f c = Val (f', c') -> grows name f f' /\ P c'.
Proof.
  intros Hv. unfold addr_part. destruct (asks t 1 || asks t 28); [|intros [= <- <-]; split; [by apply grows_same|done]].
  destruct (mjoin _) as [|rr rrs] eqn:E.
  - destruct (asks t 1).
    + destruct (family_part cfg now false name f c) as [[f1 c1]|] eqn:E1; [|done]. apply family_part_grows in E1 as [Hg Hv1]; [|done].
      destruct (asks t 28); [|intros [= <- <-]; done]. intros [Hg' Hv2]%family_part_grows; [|done]. split; [by eapply grows_trans|done].
    + destruct (asks t 28); [|intros [= <- <-]; split; [by apply grows_same|done]]. by apply family_part_grows.
  - intros [= <- <-]. split; [|done]. apply grows_rrs. rewrite <- E. clear E. unfold all_sourced.
    assert (forall l, (forall h, h ∈ l -> h ∈ lc_hosts cfg) -> Forall (sourced name) (mjoin (host_rrs cfg name t <$> l))) as Hall.
    { intros l. induction l as [|h l IH]; intros Hl; [constructor|]. cbn. apply Forall_app. split; [apply host_rrs_sourced, Hl; left|].
      apply IH. intros x Hx. apply Hl. by right. }
    by apply Hall.
Qed.
Lemma in_part_grows name t f c f' c' : P c -> in_part cfg now name t f c = Val (f', c') -> grows name f f' /\ P c'.
Proof.
  intros Hv. unfold in_part. destruct (ptr_part_grows name t (rr_part cfg name t f) c Hv) as [Hg Hv1].
  destruct (ptr_part cfg now name t (rr_part cfg name t f) c) as [f1 c1]. cbn [fst snd] in *.
  destruct (addr_part cfg now name t f1 c1) as [[f2 c2]|] eqn:E; [|done]. apply addr_part_grows in E as [Hg2 Hv2]; [|done].
  intros [= <- <-]. split; [|done].
  repeat (eapply grows_trans; [|first [apply naptr_part_grows|apply srv_part_grows|apply mx_part_grows|exact Hg2|exact Hg]]). apply rr_part_grows.
Qed.

Lemma literal_names name rr first last flags : rr ∈ make_local_answer (lc_address_servers cfg) (lc_address_list cfg) first last flags name (lc_local_ttl cfg) ->
  r_name rr = name.
Proof.
  unfold make_local_answer. cbv zeta. intros [Hr|Hr]%elem_of_app; (case_match; [|by apply elem_of_nil in Hr]);
    apply list_elem_of_omap in Hr as (i & _ & Hi); repeat case_match; try done; by injection Hi as <-.
Qed.
Lemma literal_part_grows query name t f c f' tr : literal_part cfg now query name t f c = Val (f', tr) -> grows name f f'.
Proof.
  unfold literal_part. destruct (fd_ans f); [intros [= <- <-]; by apply grows_same|].
  destruct (lookup _ _ _) as [[[first last]|]|] eqn:El; [|intros [= <- <-]; by apply grows_same|done].
  destruct (local_flags cfg now first name c) as [fl|]; [|done].
  destruct (has fl F_NXDOMAIN); [intros [= <- <-]; by apply grows_same|]. destruct (has fl F_NOERR); [intros [= <- <-]; by apply grows_same|].
  destruct (has fl _); [|intros [= <- <-]; by apply grows_same]. unfold literal_rrs. intros [= <- <-]. case_match; [by apply grows_same|].
  eexists. split; [done|]. apply Forall_forall. intros rr Hr. apply in_rr_configured; [by eapply literal_names|]. by eapply conf_literal.
Qed.
Lemma nodots_grows name t f c f' : nodots_part cfg now name t f c = Val f' -> grows name f f'.
Proof.
  unfold nodots_part. destruct (_ && negb (bool_decide (name = []))); [|intros [= <-]; by apply grows_same].
  destruct (check_for_local_domain _ _ _ _); [|done]. intros [= <-]. by apply grows_same.
Qed.
Lemma literal_domain_grows name f f' : literal_domain_part cfg name f = Val f' -> grows name f f'.
Proof.
  unfold literal_domain_part. destruct (fd_ans f); [intros [= <-]; by apply grows_same|].
  destruct (domain_matches_any_suffix _ _) as [hit|]; [|done]. intros [= <-]. destruct hit; by apply grows_same.
Qed.

(** ** The aliases *)

(** Aliases that lead from one name to another, each with its source. *)
Fixpoint sourced_chain (from : str) (aliases : list DnsRr) (to : str) : Prop :=
  match aliases with
  | [] => from = to
  | rr :: rest => sourced from rr /\ rtype rr = 5 /\ class rr = 1 /\
                  exists target, rdata rr = write_name [] target /\ sourced_chain (to_lowercase target) rest to
  end.
Lemma sourced_chain_alias from aliases to : sourced_chain from aliases to ->
  alias_chain from aliases to /\ Forall (fun rr => sourced (r_name rr) rr) aliases.
Proof.
  revert from. induction aliases as [|rr rest IH]; intros from; [done|]. cbn. intros ([Hn Hs] & Ht & Hc & target & Hd & Hr).
  apply IH in Hr as [Ha Hf]. split; [by eauto 10|]. constructor; [|done]. by rewrite Hn.
Qed.
(** The chain with the aliases still to come in front. *)
Lemma chain_snoc from aliases to target ttl : sourced_chain from aliases to -> sourced to (in_rr to 5 ttl (write_name [] target)) ->
  sourced_chain from (aliases ++ [in_rr to 5 ttl (write_name [] target)]) (to_lowercase target).
Proof.
  revert from. induction aliases as [|rr rest IH]; intros from; cbn.
  - intros <- Hs. split_and!; [done..|]. by exists target.
  - intros (Hs & Ht & Hc & tg & Hd & Hr) Hn. split_and!; [done..|]. exists tg. split; [done|]. by apply IH.
Qed.

Lemma resolve_chain hops from name t rrs ans c name' rrs' ans' nx c' : P c -> sourced_chain from rrs name ->
  resolve_cname_chain cfg now hops name t rrs ans c = (name', rrs', ans', nx, c') ->
  sourced_chain from rrs' name' /\ (length rrs' <= length rrs + hops)%nat /\ P c'.
Proof.
  revert name rrs ans c. induction hops as [|hops IH]; intros name rrs ans c Hv Hc; cbn [resolve_cname_chain].
  { intros [= <- <- <- <- <-]. split_and!; [done|lia|done]. }
  destruct (List.find _ (lc_cnames cfg)) as [a|] eqn:Ef.
  - apply find_some in Ef as [Ha Hn]. apply bool_decide_eq_true in Hn. apply list_elem_of_In in Ha.
    assert (sourced name (in_rr name 5 (lc_local_ttl cfg) (write_name [] (cn_target a)))) as Hs by (apply in_rr_configured; auto with local).
    pose proof (chain_snoc _ _ _ _ _ Hc Hs) as Hc'. destruct (t =? 5).
    + intros [= <- <- <- <- <-]. rewrite length_app. cbn [length]. split_and!; [done|lia|done].
    + intros Hr. apply IH in Hr; [|done..]. rewrite length_app in Hr. cbn [length] in Hr. split_and!; [apply Hr|lia|apply Hr].
  - pose proof (lookup_by_name_fst name F_CNAME now c) as Ho. pose proof (P_by_name name F_CNAME c Hv) as Hv1.
    destruct (lookup_by_name name F_CNAME now c) as [o c1]. cbn [fst snd] in *. rewrite (P_view c Hv) in Ho.
    destruct (cached_cname o) as [[target r]|] eqn:Eo.
    + unfold cached_cname in Eo. destruct o as [r0|]; [|done]. destruct (cr_addr r0) as [[]|] eqn:Ea; try done.
      destruct (target_name c2) as [tg|] eqn:Et; [|done]. injection Eo as -> ->.
      assert (sourced name (in_rr name 5 (Cache.crec_ttl r now) (write_name [] target))) as Hs.
      { apply in_rr_cached; [done|]. by eapply cache_cname. }
      pose proof (chain_snoc _ _ _ _ _ Hc Hs) as Hc'. destruct (t =? 5).
      * intros [= <- <- <- <- <-]. rewrite length_app. cbn [length]. split_and!; [done|lia|done].
      * intros Hr. apply IH in Hr; [|done..]. rewrite length_app in Hr. cbn [length] in Hr. split_and!; [apply Hr|lia|apply Hr].
    + pose proof (P_by_name name (F_NXDOMAIN ∣∣ F_NEG) c1 Hv1) as Hv2. destruct (lookup_by_name name _ now c1) as [[r|] c2];
        intros [= <- <- <- <- <-]; (split_and!; [done|lia|done]).
Qed.

Lemma cname_part_spec name t k name' f c' : cname_part cfg now name t k c0 = (name', f, c') ->
  sourced_chain name (fd_answers f) name' /\ (length (fd_answers f) <= 16)%nat /\ P c'.
Proof.
  unfold cname_part. destruct (k =? 1).
  - destruct (resolve_cname_chain cfg now CNAME_HOPS name t [] false c0) as [[[[n rrs] ans] nx] c1] eqn:E. intros [= <- <- <-].
    by apply (resolve_chain _ name) in E.
  - intros [= <- <- <-]. cbn. split_and!; [done|lia|done].
Qed.
(** What was found: aliases from the question to a name, and records of that name. *)
Lemma find_answer_spec query q name f notimp tr c' : find_answer cfg now query q m c0 = Val (name, f, notimp, tr, c') ->
  P c' /\ exists aliases rest, fd_answers f = aliases ++ rest /\ (length aliases <= 16)%nat /\
    sourced_chain (to_lowercase (q_name q)) aliases name /\ all_sourced name rest.
Proof.
  unfold find_answer. destruct (cname_part _ _ _ _ _ _) as [[n f1] c1] eqn:E1. apply cname_part_spec in E1 as (Hch & Hlen & Hv1).
  destruct (answer_chaos_bind_fallback _ _ _) as [ni an]. set (f2 := mkFound _ an _ _).
  assert (grows n f1 f2) as Hg2.
  { eapply grows_trans; [apply (txt_part_grows n (qtype q) (qclass q))|by apply grows_same]. }
  destruct (if qclass q =? 1 then _ else _) as [[f3 c3]|] eqn:E3; [|done].
  assert (grows n f2 f3 /\ P c3) as [Hg3 Hv3].
  { destruct (qclass q =? 1); [by apply in_part_grows in E3|]. injection E3 as <- <-. split; [by apply grows_same|done]. }
  destruct (literal_part cfg now query n (qtype q) f3 c3) as [[f4 tr']|] eqn:E4; [|done]. apply literal_part_grows in E4.
  destruct (nodots_part _ _ _ _ _ _) as [f5|] eqn:E5; [|done]. apply nodots_grows in E5.
  destruct (literal_domain_part _ _ _) as [f6|] eqn:E6; [|done]. apply literal_domain_grows in E6. intros [= <- <- <- <- <-].
  split; [done|]. assert (grows n f1 f6) as (rest & Er & Hr) by (repeat (eapply grows_trans; [eassumption|]); by apply grows_same).
  by exists (fd_answers f1), rest.
Qed.
End Spec.

(** Answering changes the cache by lookups only. *)
Lemma answer_request_keeps `{UnicodeTables} {L : Lru CacheKey CacheRecord} cfg now query w o w' (P : DnsCache -> Prop) :
  wf (cache w) -> P (cache w) -> (forall name flags c, P c -> P (snd (lookup_by_name name flags now c))) ->
  (forall name flags c, P c -> P (snd (lookup_forward name flags now c))) -> (forall addr c, P c -> P (snd (lookup_by_addr addr now c))) ->
  answer_request cfg now query w = Val (o, w') -> metrics w' = metrics w /\ P (cache w').
Proof.
  intros Hw HP H1 H2 H3. unfold answer_request. destruct (one_question query) as [q|]; [|intros [= <- <-]; done].
  destruct (find_answer _ _ _ _ _ _) as [[[[[name f] notimp] tr] c']|] eqn:E; [|done]. intros [= <- <-]. split; [done|].
  apply (find_answer_spec cfg now (metrics w) (cache w) Hw (fun c => same_view now (cache w) c /\ P c)) in E as [[_ HP'] _]; [exact HP'|..].
  - by split; [intros k|].
  - by intros c [Hc _].
  - intros name' flags c [Hc Hp]. split; [by apply view_by_name|by apply H1].
  - intros name' flags c [Hc Hp]. split; [by apply view_forward|by apply H2].
  - intros addr c [Hc Hp]. split; [by apply view_by_addr|by apply H3].
Qed.

(** C6: A local answer is made of records of the configuration and of live records
    of the cache, with the remaining time to live; its aliases lead, in at most
    sixteen hops, from the name asked for to the owner of all other records.
    Answered or not, every live record stays in the cache and nothing is
    added. *)
Theorem local_answer_sound `{UnicodeTables} {L : Lru CacheKey CacheRecord} cfg now query w o w' :
  wf (cache w) -> answer_request cfg now query w = Val (o, w') ->
  metrics w' = metrics w /\ (forall k, live_at now (look k (cache w')) = live_at now (look k (cache w))) /\
  forall p, o = Some p -> exists q name aliases rest, questions query = [q] /\ answers p = aliases ++ rest /\ (length aliases <= 16)%nat /\
    alias_chain (to_lowercase (q_name q)) aliases name /\ Forall (fun rr => r_name rr = name) rest /\
    Forall (fun rr => configured cfg (metrics w) (r_name rr) rr \/ from_cache now (cache w) (r_name rr) rr) (answers p).
Proof.
  intros Hw. unfold answer_request, one_question. destruct (questions query) as [|q [|q' qs]] eqn:Eq; try (intros [= <- <-]; done).
  destruct (_ && ((qclass q =? 1) || (qclass q =? 3))); [|intros [= <- <-]; done].
  destruct (find_answer _ _ _ _ _ _) as [[[[[name f] notimp] tr] c']|] eqn:E; [|done]. intros [= <- <-].
  apply (find_answer_spec cfg now (metrics w) (cache w) Hw (same_view now (cache w))) in E as (Hv & aliases & rest & Ea & Hl & Hch & Hr);
    auto using view_by_name, view_forward, view_by_addr; [|by intros k]. split_and!; [done|exact Hv|]. intros p Hp.
  destruct (fd_ans f); [|done]. injection Hp as <-. exists q, name, aliases, rest. apply sourced_chain_alias in Hch as [Hch Hs].
  split_and!; [done..| | ].
  - eapply Forall_impl; [exact Hr|]. by intros rr [Hn _].
  - cbn [finish_local answers]. rewrite Ea. apply Forall_app. split; (eapply Forall_impl; [eassumption|]); intros rr [Hn Hs']; by rewrite ?Hn.
Qed.

(** ** The form of a reply *)

Definition bit (b : u8) (mask : Z) : bool := negb (Z.land (u8z b) mask =? 0).
(** The two bytes of flags of a reply. *)
Definition reply_hb3 (aa truncated : bool) (b : u8) : u8 :=
  let b := z8 (Z.lor (Z.land (u8z b) (not8 (Z.lor HB3_AA HB3_TC))) HB3_QR) in
  let b := z8 (if aa then Z.lor (u8z b) HB3_AA else Z.land (u8z b) (not8 HB3_AA)) in
  let b := z8 (Z.lor (u8z b) HB3_QR) in
  if truncated then z8 (Z.lor (u8z b) HB3_TC) else b.
Definition reply_hb4 (code : Z) (b : u8) : u8 :=
  let h := as_reply (mkHeader 0 Byte.x00 b 0 0 0 0) in
  z8 (Z.lor (u8z (hb4 (set_rcode h (z8 code)))) HB4_RA).

Definition hb3_ok (aa truncated : bool) (b : u8) : bool :=
  let r := reply_hb3 aa truncated b in
  bit r HB3_QR && eqb (bit r HB3_AA) aa && eqb (bit r HB3_TC) truncated && eqb (bit r HB3_RD) (bit b HB3_RD)
  && (Z.land (u8z r) HB3_OPCODE =? Z.land (u8z b) HB3_OPCODE).
Definition hb4_ok (code : Z) (b : u8) : bool :=
  let r := reply_hb4 code b in
  bit r HB4_RA && negb (bit r HB4_AD) && eqb (bit r HB4_CD) (bit b HB4_CD) && (Z.land (u8z r) HB4_RCODE =? code).
Lemma hb3_all aa truncated b : hb3_ok aa truncated b = true.
Proof. apply (byte_forall (hb3_ok aa truncated)). destruct aa, truncated; by vm_compute. Qed.
Lemma hb4_all code b : code = 0 \/ code = 3 \/ code = 4 -> hb4_ok code b = true.
Proof. intros Hc. apply (byte_forall (hb4_ok code)). destruct Hc as [-> |[-> | ->]]; by vm_compute. Qed.

(** The frame of a reply: identifier, question and bits of the query, the
    flags of an answer, one of three codes, counts and the EDNS0 record. *)
Record local_form (cfg : LocalConfig) (query p : DnsPacket) : Prop := {
  lf_id : id (header p) = id (header query);
  lf_sections : questions p = questions query /\ authority p = [] /\ additional p = reply_opt (lc_edns_pktsz cfg) query;
  lf_counts : qdcount (header p) = qdcount (header query) /\ ancount (header p) = as_u16 (Z.of_nat (length (answers p))) /\
    nscount (header p) = 0 /\ arcount (header p) = as_u16 (Z.of_nat (length (additional p)));
  lf_reply : bit (hb3 (header p)) HB3_QR = true /\ bit (hb4 (header p)) HB4_RA = true /\ bit (hb4 (header p)) HB4_AD = false;
  lf_copied : opcode (header p) = opcode (header query) /\ bit (hb3 (header p)) HB3_RD = bit (hb3 (header query)) HB3_RD /\
    bit (hb4 (header p)) HB4_CD = bit (hb4 (header query)) HB4_CD;
  lf_code : rcode (header p) = 0 \/ rcode (header p) = 3 \/ rcode (header p) = 4;
  lf_aa : bit (hb3 (header p)) HB3_AA = true -> rcode (header p) = 0 }.

Definition code_of (notimp : bool) (f : Found) : Z := if notimp then 4 else if fd_nxdomain f then 3 else 0.
Definition aa_of (notimp : bool) (f : Found) : bool := negb notimp && negb (fd_nxdomain f) && fd_auth f.
Lemma finish_hb cfg query notimp truncated f :
  hb3 (header (finish_local cfg query notimp truncated f)) = reply_hb3 (aa_of notimp f) truncated (hb3 (header query)) /\
  hb4 (header (finish_local cfg query notimp truncated f)) = reply_hb4 (code_of notimp f) (hb4 (header query)).
Proof.
  unfold finish_local, reply_code, aa_of, code_of. destruct notimp; [by destruct truncated|].
  destruct (fd_nxdomain f); [by destruct truncated|]. destruct (fd_auth f); by destruct truncated.
Qed.
Lemma finish_form cfg query notimp truncated f : local_form cfg query (finish_local cfg query notimp truncated f).
Proof.
  destruct (finish_hb cfg query notimp truncated f) as [E3 E4]. set (p := finish_local _ _ _ _ _) in *.
  assert (id (header p) = id (header query) /\ qdcount (header p) = qdcount (header query) /\
    ancount (header p) = as_u16 (Z.of_nat (length (answers p))) /\ nscount (header p) = 0 /\
    arcount (header p) = as_u16 (Z.of_nat (length (additional p)))) as (H1 & H2 & H3 & H4 & H5).
  { subst p. unfold finish_local, reply_code. destruct notimp, (fd_nxdomain f), (fd_auth f), truncated; done. }
  pose proof (hb3_all (aa_of notimp f) truncated (hb3 (header query))) as B3.
  assert (code_of notimp f = 0 \/ code_of notimp f = 3 \/ code_of notimp f = 4) as Hc.
  { unfold code_of. destruct notimp; [by right; right|]. destruct (fd_nxdomain f); [by right; left|by left]. }
  pose proof (hb4_all (code_of notimp f) (hb4 (header query)) Hc) as B4.
  unfold hb3_ok, hb4_ok in B3, B4. cbv zeta in B3, B4. rewrite <- E3 in B3. rewrite <- E4 in B4.
  apply andb_true_iff in B3 as [[[[Q A%eqb_prop]%andb_true_iff T%eqb_prop]%andb_true_iff D%eqb_prop]%andb_true_iff O%Z.eqb_eq].
  apply andb_true_iff in B4 as [[[R N%negb_true_iff]%andb_true_iff C%eqb_prop]%andb_true_iff K%Z.eqb_eq].
  split; [done|done|done|done| | |].
  - split_and!; [|done..]. unfold opcode. by rewrite O.
  - unfold rcode. rewrite K. done.
  - unfold rcode. rewrite K, A. unfold aa_of, code_of. by destruct notimp, (fd_nxdomain f).
Qed.

(** A reply has the identifier, the question, the operation and the RD and CD
    bits of the query, is marked as a reply of a recursive server, never as
    validated, has code 0, 3 or 4 and is authoritative only without an error;
    its counts are those of its sections and an EDNS0 record answers one. *)
Theorem local_reply_form `{UnicodeTables} {L : Lru CacheKey CacheRecord} cfg now query w p w' :
  answer_request cfg now query w = Val (Some p, w') -> local_form cfg query p.
Proof.
  unfold answer_request. destruct (one_question query) as [q|]; [|done].
  destruct (find_answer _ _ _ _ _ _) as [[[[[name f] notimp] tr] c']|]; [|done]. intros [= Hp _].
  destruct (fd_ans f); [|done]. injection Hp as <-. apply finish_form.
Qed.

(** ** Addresses from the cache *)

Section Served.
Context `{UnicodeTables} {L : Lru CacheKey CacheRecord} (cfg : LocalConfig) (now : Instant).

Lemma forward_live name flags c r : live_at now (look (key_for name flags) c) = Some r -> fst (lookup_forward name flags now c) = Some r.
Proof. intros Hl. destruct (lookup_forward_spec name flags now c) as (-> & _). by rewrite Hl. Qed.
Lemma no_alias hops name t c : Forall (fun a => to_lowercase (cn_alias a) <> name) (lc_cnames cfg) ->
  live_at now (look (key_for name F_CNAME) c) = None -> live_at now (look (key_for name (F_NXDOMAIN ∣∣ F_NEG)) c) = None ->
  exists c', resolve_cname_chain cfg now (S hops) name t [] false c = (name, [], false, false, c') /\
    forall k, live_at now (look k c') = live_at now (look k c).
Proof.
  intros Ha Hc Hn. cbn [resolve_cname_chain].
  assert (List.find (fun a => same_name name (cn_alias a)) (lc_cnames cfg) = None) as ->.
  { destruct (List.find _ _) as [a|] eqn:E; [|done]. apply find_some in E as [Hin He]. apply bool_decide_eq_true in He.
    rewrite Forall_forall in Ha. by destruct (Ha a ltac:(by apply list_elem_of_In)). }
  pose proof (lookup_by_name_fst name F_CNAME now c) as E1. pose proof (view_by_name now c name F_CNAME c ltac:(by intros k)) as V1.
  destruct (lookup_by_name name F_CNAME now c) as [o1 c1]. cbn [fst snd] in *. rewrite Hc in E1. subst o1. cbn [cached_cname].
  pose proof (lookup_by_name_fst name (F_NXDOMAIN ∣∣ F_NEG) now c1) as E2. pose proof (view_by_name now c name (F_NXDOMAIN ∣∣ F_NEG) c1 V1) as V2.
  destruct (lookup_by_name name _ now c1) as [o2 c2]. cbn [fst snd] in *. rewrite V1, Hn in E2. subst o2. by exists c2.
Qed.
Lemma no_hosts name t : Forall (fun h => existsb (same_name name) (hr_names h) = false) (lc_hosts cfg) -> mjoin (host_rrs cfg name t <$> lc_hosts cfg) = [].
Proof. induction 1 as [|h hs Hh _ IH]; [done|]. cbn. unfold host_rrs at 1. by rewrite Hh. Qed.
Lemma asks_other t u : t <> u -> t <> 255 -> asks t u = false.
Proof. intros H1 H2. unfold asks. by rewrite (proj2 (Z.eqb_neq _ _) H1), (proj2 (Z.eqb_neq _ _) H2). Qed.

(** The IN stages for a single family whose address is in the cache. *)
Lemma in_part_served (v6 : bool) name f c r a : Forall (fun h => existsb (same_name name) (hr_names h) = false) (lc_hosts cfg) ->
  live_at now (look (key_for name (if v6 then F_IPV6 else F_IPV4)) c) = Some r -> has (cr_flags r) F_NEG = false -> addr_of v6 (cr_addr r) = Some a ->
  exists f' c', in_part cfg now name (addr_type v6) f c = Val (f', c') /\ fd_ans f' = true /\ fd_nxdomain f' = fd_nxdomain f /\
    addr_rr v6 name (Cache.crec_ttl r now) a ∈ fd_answers f'.
Proof.
  intros Hh Hl Hn Ha. unfold in_part. assert (forall t, t <> 1 -> t <> 28 -> asks (addr_type v6) t = false) as Hx.
  { intros t H1 H2. apply asks_other; destruct v6; cbn [addr_type]; congruence. }
  unfold ptr_part. rewrite (Hx 12) by done. unfold addr_part. rewrite no_hosts by done.
  set (f0 := rr_part cfg name (addr_type v6) f). assert (fd_nxdomain f0 = fd_nxdomain f) as E0 by (unfold f0, rr_part, with_rrs; by destruct (length _ =? 0)%nat).
  assert (exists c', family_part cfg now v6 name f0 c = Val (with_rrs false [addr_rr v6 name (Cache.crec_ttl r now) a] f0, c')) as (c' & Hf).
  { unfold family_part. pose proof (forward_live name _ c r Hl) as Hfst. destruct (lookup_forward _ _ _ _) as [o c']. cbn [fst] in Hfst. subst o.
    rewrite Hn, Ha. by exists c'. }
  assert (forall g, mx_part cfg name (addr_type v6) g = g /\ srv_part cfg name (addr_type v6) g = g /\ naptr_part cfg name (addr_type v6) g = g) as Hno.
  { intros g. unfold mx_part, srv_part, naptr_part. rewrite (Hx 15), (Hx 33), (Hx 35) by done. done. }
  set (f1 := with_rrs false _ f0) in *. exists f1, c'. destruct v6; unfold asks; cbn [addr_type Z.eqb Pos.eqb orb]; rewrite Hf.
  all: cbn [addr_type] in Hno; destruct (Hno f1) as (-> & -> & ->); split_and!; [done|done|done|].
  all: unfold f1, with_rrs; cbn [length Nat.eqb fd_answers]; apply elem_of_app; right; by left.
Qed.
End Served.

(** C19: An address the cache holds alive for the name asked for answers the query
    at once, with its remaining time to live, when no alias, no denial and no
    host record stand before it. *)
Theorem cached_address_served `{UnicodeTables} {L : Lru CacheKey CacheRecord} cfg now query q w (v6 : bool) r a :
  one_question query = Some q -> qclass q = 1 -> qtype q = addr_type v6 ->
  let name := to_lowercase (q_name q) in
  let live k := live_at now (look k (cache w)) in
  Forall (fun c => to_lowercase (cn_alias c) <> name) (lc_cnames cfg) ->
  Forall (fun h => existsb (same_name name) (hr_names h) = false) (lc_hosts cfg) ->
  live (key_for name F_CNAME) = None -> live (key_for name (F_NXDOMAIN ∣∣ F_NEG)) = None ->
  live (key_for name (if v6 then F_IPV6 else F_IPV4)) = Some r -> has (cr_flags r) F_NEG = false -> addr_of v6 (cr_addr r) = Some a ->
  exists p w', answer_request cfg now query w = Val (Some p, w') /\ rcode (header p) = 0 /\
    addr_rr v6 name (Cache.crec_ttl r now) a ∈ answers p.
Proof.
  intros Hq Hk Ht name live Hcn Hho Hc Hn Hl Hneg Ha. unfold live in Hc, Hn, Hl. clear live. unfold answer_request. rewrite Hq. unfold find_answer. rewrite Hk, Ht. fold name.
  destruct (no_alias cfg now 15 name (addr_type v6) (cache w) Hcn Hc Hn) as (c1 & E1 & V1).
  unfold cname_part, CNAME_HOPS. rewrite E1. clear E1. cbn [Z.eqb Pos.eqb].
  unfold txt_part. rewrite asks_other by (by destruct v6). unfold answer_chaos_bind_fallback. cbn [Z.eqb Pos.eqb andb].
  set (f0 := mkFound _ _ _ _). rewrite <- (V1 (key_for name _)) in Hl.
  destruct (in_part_served cfg now v6 name f0 c1 r a Hho Hl Hneg Ha) as (f & c2 & -> & Hans & Hnx & Hin).
  unfold literal_part. rewrite Hans. unfold nodots_part. rewrite Hans. cbn [negb andb]. unfold literal_domain_part. rewrite ?Hans. cbv beta iota. rewrite ?Hans.
  do 2 eexists. split; [reflexivity|]. split; [|exact Hin].
  unfold rcode. rewrite (proj2 (finish_hb cfg query false false f)). unfold code_of. rewrite Hnx. cbn [f0 fd_nxdomain nothing].
  pose proof (hb4_all 0 (hb4 (header query)) ltac:(by left)) as B. unfold hb4_ok in B. by apply andb_true_iff in B as [_ B%Z.eqb_eq].
Qed.

(** ** Concrete runs *)

Module Example.
#[local] Existing Instance ascii_tables.
#[local] Existing Instance list_lru.

Definition host : HostRecord := mkHost 0 0 [bs "GW.lan"] (Some 3232235777) None.
Definition blocked : Server :=
  mkServer LITERAL_ADDRESS (bs "ads.example") (SV4 0 53) (SV4 0 0) [] 0 0 0 0 0 0 0 None 0 (-1) 0 0 (-1) 0.
Definition literal : Server :=
  mkServer (Z.lor LITERAL_ADDRESS ADDR4) (bs "pinned.example") (SV4 167772161 53) (SV4 0 0) [] 0 0 0 0 0 0 0 None 0 (-1) 0 0 (-1) 0.
Definition config : LocalConfig :=
  mkLocal 60 1232 [mkTxt (bs "note.lan") (bs "hi") 1 0; mkTxt (bs "cachesize.bind") [] 3 1] [] [] [] [host]
    [mkCnameRec 0 0 (bs "www.lan") (bs "gw.lan")] [] [] true [] (build [] [blocked; literal]) [blocked; literal] [bs "corp"] 150.
(** A reply from upstream that the cache keeps for a minute. *)
Definition upstream_a (name : str) (ip ttl : Z) : CacheRecord := mkRec name (F_FORWARD ∣∣ F_IPV4) ttl (add_secs 0 ttl) (Some (Addr4 ip)) None UID_NONE.
Definition world : Cache.World := Cache.insert (upstream_a (bs "cached.test") 16909060 60) (Cache.mkWorld (with_ttl_limits 8 0 0) COUNTERS).
Definition ask (name : str) (t class : Z) (extra : list DnsRr) : DnsPacket :=
  mkPacket (mkHeader 7 (z8 1) (z8 0x30) 1 0 0 0) [mkQuestion name t class] [] [] extra.
Definition edns : DnsRr := mkRr [] 41 4096 0x8001 [].
Definition reply_to (query : DnsPacket) (now : Instant) : option DnsPacket :=
  match answer_request config now query world with Val (Some p, _) => Some p | _ => None end.
Definition show (o : option DnsPacket) : option (Z * list (Z * Z * list Z)) :=
  option_map (fun p => (rcode (header p), (fun r => (rtype r, ttl r, u8z <$> rdata r)) <$> answers p)) o.

(** An alias to a host, a cached address half a minute later, the same after it
    expired, a blocked and a pinned domain, a name without dots, a domain never
    forwarded, and a statistic. *)
Example answers_of_all_kinds :
  show (reply_to (ask (bs "WWW.lan") 1 1 []) 0) = Some (0, [(5, 60, [2; 103; 119; 3; 108; 97; 110; 0]); (1, 60, [192; 168; 1; 1])]) /\
  show (reply_to (ask (bs "Cached.Test") 1 1 []) (add_secs 0 30)) = Some (0, [(1, 30, [1; 2; 3; 4])]) /\
  show (reply_to (ask (bs "cached.test") 1 1 []) (add_secs 0 60)) = None /\
  show (reply_to (ask (bs "x.ads.example") 1 1 []) 0) = Some (3, []) /\
  show (reply_to (ask (bs "pinned.example") 1 1 [edns]) 0) = Some (0, [(1, 60, [10; 0; 0; 1])]) /\
  show (reply_to (ask (bs "printer") 28 1 []) 0) = Some (3, []) /\
  show (reply_to (ask (bs "mail.corp") 15 1 []) 0) = Some (3, []) /\
  show (reply_to (ask (bs "cachesize.bind") 16 3 []) 0) = Some (0, [(16, 0, [3; 49; 53; 48])]).
Proof. vm_compute. split_and!; reflexivity. Qed.
Definition pinned_reply : DnsPacket := default (ask [] 1 1 []) (reply_to (ask (bs "pinned.example") 1 1 [edns]) 0).
Definition pinned_world : Cache.World :=
  match answer_request config 0 (ask (bs "pinned.example") 1 1 [edns]) world with Val (_, w) => w | Panic => world end.

Lemma local_answer_sound_witness : exists q name aliases rest,
  questions (ask (bs "pinned.example") 1 1 [edns]) = [q] /\ answers pinned_reply = aliases ++ rest /\ (length aliases <= 16)%nat /\
  alias_chain (to_lowercase (q_name q)) aliases name /\ Forall (fun rr => r_name rr = name) rest /\
  Forall (fun rr => configured config (metrics world) (r_name rr) rr \/ from_cache 0 (cache world) (r_name rr) rr) (answers pinned_reply).
Proof.
  apply (local_answer_sound config 0 (ask (bs "pinned.example") 1 1 [edns]) world (Some pinned_reply) pinned_world); [|vm_compute; reflexivity|reflexivity].
  apply wf_insert, wf_new.
Defined.
Lemma local_reply_form_witness : local_form config (ask (bs "pinned.example") 1 1 [edns]) pinned_reply.
Proof. apply (local_reply_form config 0 (ask (bs "pinned.example") 1 1 [edns]) world pinned_reply pinned_world). vm_compute. reflexivity. Defined.
Lemma cached_address_served_witness :
  exists p w', answer_request config 30000000000 (ask (bs "Cached.test") 1 1 []) world = Val (Some p, w') /\ rcode (header p) = 0 /\
    addr_rr false (to_lowercase (bs "Cached.test")) (Cache.crec_ttl (upstream_a (bs "cached.test") 16909060 60) 30000000000) 16909060 ∈ answers p.
Proof.
  apply (cached_address_served config 30000000000 (ask (bs "Cached.test") 1 1 []) (mkQuestion (bs "Cached.test") 1 1) world false
    (upstream_a (bs "cached.test") 16909060 60) 16909060); try (vm_compute; reflexivity).
  - repeat constructor. vm_compute. discriminate.
  - repeat constructor.
Defined.

(** The budget for the addresses of a pinned domain leaves out the aliases that
    lead to it, so that a reply without EDNS0 exceeds 512 bytes. *)
Definition long_name (b : string) : str := join [dot] [concat (replicate 60 (bs b)); concat (replicate 60 (bs b)); bs "pinned.example"].
Definition alias (from to : str) : CacheRecord :=
  mkRec from (F_FORWARD ∣∣ F_CNAME) 60 (add_secs 0 60) (Some (Cname (mkCname true (Some to) UID_NONE))) None UID_NONE.
Definition aliased : Cache.World :=
  Cache.insert (alias (long_name "a") (long_name "b")) (Cache.insert (alias (long_name "b") (long_name "c")) (Cache.mkWorld (with_ttl_limits 8 0 0) COUNTERS)).
Example literal_reply_oversized : match answer_request config 0 (ask (long_name "a") 1 1 []) aliased with
  | Val (Some p, _) => length (answers p) = 3%nat /\ bit (hb3 (header p)) HB3_TC = false /\ (512 <? length (write p))%nat = true
  | _ => False end.
Proof. by vm_compute. Qed.
(** The suffix is cut inside the two bytes of a character. *)
Example literal_domain_panics : domain_matches_any_suffix (z8 <$> [195; 169; 97]) [bs "ab"] = Panic.
Proof. by vm_compute. Qed.
End Example.
