(* ===== verification/ReplyTools.v ===== *)
(** * Treatment of replies: src/src/rfc1035.rs

    Bogus addresses, rewriting of addresses, trimming of packets,
    what is reported of a reply, and encoding a name with escapes. *)

From Stdlib Require Import ZArith Lia String.
From stdpp Require Import base numbers list option sets.
From S2P Require Import Prelude ByteCursor DnsProtocol Rfc1035 Types Lru Metrics Cache StdText Pattern Edns0 Forward Records Domain LocalAnswer.

#[local] Open Scope Z_scope.

(** ** Bogus addresses *)

Definition bogus_record `{UnicodeTables} (name : str) (ttl : Z) (now : Instant) : CacheRecord :=
  mkRec (to_lowercase name) (F_FORWARD ∣∣ F_NEG ∣∣ F_NXDOMAIN) ttl (add_secs now ttl) None None UID_NONE.
Definition check_for_bogus_wildcard `{UnicodeTables} {L : Lru CacheKey CacheRecord} (packet : DnsPacket) (now : Instant)
    (bogus_addrs : list BogusAddr) (w : Cache.World) : bool * Cache.World :=
  match find_bad_address packet bogus_addrs with
  | None => (false, w)
  | Some (name, ttl) => (true, snd (really_insert (bogus_record name ttl now) now w))
  end.
(** ** Rewriting addresses *)

Definition doctor_matches (ip : Z) (d : Doctor) : bool :=
  if do_end d =? 0 then Z.land ip (do_mask d) =? Z.land (do_in d) (do_mask d)
  else (do_in d <=? ip) && (ip <=? do_end d).
Definition doctored (ip : Z) (d : Doctor) : Z := Z.lor (Z.land ip (not32 (do_mask d))) (Z.land (do_out d) (do_mask d)).
Definition doctor_rr (doctors : list Doctor) (rr : DnsRr) : option DnsRr :=
  if negb (class rr =? 1) || negb (rtype rr =? 1) || (length (rdata rr) <? 4)%nat then None
  else
    let ip := of_be (take 4 (rdata rr)) in
    let! d := List.find (doctor_matches ip) doctors in
    Some (mkRr (r_name rr) (rtype rr) (class rr) (ttl rr) (to_be 4 (doctored ip d) ++ drop 4 (rdata rr))).
Definition do_doctor (p : DnsPacket) (doctors : list Doctor) : bool * DnsPacket :=
  if (length doctors =? 0)%nat then (false, p)
  else
    let done := existsb (fun rr => negb (bool_decide (doctor_rr doctors rr = None))) (answers p) in
    (done, mkPacket (if done then set_aa false (header p) else header p) (questions p)
             ((fun rr => default rr (doctor_rr doctors rr)) <$> answers p) (authority p) (additional p)).

(** ** Trimming *)

(** The end of the last record, when there is one for every count. *)
Definition packet_end (pkt : list u8) : option nat :=
  let count i := Z.to_nat (be16_at pkt i) in
  let! off := ok (skip_questions pkt 12 (count 4%nat)) in
  ok (skip_rrs pkt off (count 6%nat + count 8%nat + count 10%nat)).
Definition resize_packet (pkt : list u8) (edns_opt : option (list u8)) : list u8 :=
  if (length pkt <? 12)%nat then pkt
  else
    match packet_end pkt with
    | None => pkt
    | Some off =>
      match edns_opt with
      | Some opt => if be16_at pkt 10 =? 0 then set_arcount (take off pkt ++ opt) 1 else take off pkt
      | None => take off pkt
      end
    end.

(** ** What is said about a reply *)

Definition safe_name (name : str) : bool := forallb (fun b => (0x20 <=? u8z b) && (u8z b <? 0x7f)) name.
(** The bytes before the first that is neither a space nor printable. *)
Fixpoint printable_prefix (s : list u8) : str :=
  match s with
  | b :: rest => if (0x20 <=? u8z b) && (u8z b <? 0x7f) then b :: printable_prefix rest else []
  | [] => []
  end.
Fixpoint txt_strings (fuel : nat) (data : list u8) : option (list str) :=
  match fuel, data with
  | _, [] => Some []
  | O, _ => None
  | S f, n :: rest =>
    let len := Z.to_nat (u8z n) in
    if (length rest <? len)%nat then None
    else let! strings := txt_strings f (drop len rest) in Some (printable_prefix (take len rest) :: strings)
  end.
Definition parse_txt_record (data : list u8) : option (list str) := txt_strings (length data) data.
Definition log_txt (rd : list u8) : bool := negb (bool_decide (parse_txt_record rd = None)).

Record ReportedAddress : Type := mkReported { ra_name : str; ra_resolved : str; ra_ttl : Z }.
Definition mark_matches (mark allowlist_mask : Z) (al : Allowlist) : bool := al_mark al =? Z.land (Z.land mark allowlist_mask) (al_mask al).
(** The records up to the first that is malformed. *)
Fixpoint report_rrs (rrs : list DnsRr) : list ReportedAddress :=
  match rrs with
  | [] => []
  | rr :: rest =>
    let report (text : str) := if safe_name (r_name rr) then [mkReported (r_name rr) text (ttl rr)] else [] in
    if negb (class rr =? 1) then report_rrs rest
    else if rtype rr =? 5 then
      match extract_name (rdata rr) 0 with
      | Ok (target, _) => (if safe_name target then report target else []) ++ report_rrs rest
      | Err _ => []
      end
    else if rtype rr =? 1 then
      if (length (rdata rr) =? 4)%nat then report (fmt_ipv4 (of_be (rdata rr))) ++ report_rrs rest else []
    else if rtype rr =? 28 then
      if (length (rdata rr) =? 16)%nat then report (fmt_ipv6 (of_be (rdata rr))) ++ report_rrs rest else []
    else report_rrs rest
  end.
Definition allows_all (mark allowlist_mask : Z) (al : Allowlist) : bool :=
  mark_matches mark allowlist_mask al && bool_decide (bs "*" ∈ al_patterns al).
Definition report_addresses (packet : DnsPacket) (mark : Z) (allowlists : list Allowlist) (allowlist_mask : Z) : list ReportedAddress :=
  if negb (rcode (header packet) =? 0) then []
  else if existsb (allows_all mark allowlist_mask) allowlists then []
  else report_rrs (answers packet).

Definition pattern_allows (name pattern : str) : bool :=
  bool_decide (pattern = bs "*") || (is_valid_dns_name name && is_dns_name_matching_pattern name pattern).
Definition is_query_allowed_for_mark (mark : Z) (name : str) (allowlists : list Allowlist) (allowlist_mask : Z) : bool :=
  existsb (fun al => mark_matches mark allowlist_mask al && existsb (pattern_allows name) (al_patterns al)) allowlists.

(** ** Times to live *)

(** [x as i64] for a [u64]. *)
Definition as_i64 (z : Z) : Z := if z <? 2 ^ 63 then z else z - 2 ^ 64.

Definition crec_isstale (ttd : Z) (immortal : bool) (now : Z) : bool := negb immortal && (ttd <? now).
Definition crec_ttl (ttd now flags max_ttl local_ttl : Z) : Z :=
  let ttl := if now <=? ttd then as_i64 (ttd - now) else -1 in
  if has flags F_DHCP then
    if negb (has flags F_IMMORTAL) && (0 <=? ttl) && (as_u32 ttl <? local_ttl) then as_u32 ttl else local_ttl
  else if has flags F_IMMORTAL then as_u32 ttd
  else if ttl <? 0 then 0
  else if (max_ttl =? 0) || (as_u32 ttl <? max_ttl) then as_u32 ttl
  else max_ttl.

(** ** Names with escapes *)

Definition NAME_ESCAPE : u8 := Byte.x01.
(** A label, behind its length; the limit of the buffer is checked after every
    character. Adding to the length of a label of 255 bytes overflows. *)
Definition over_limit (limit : option nat) (len : nat) : bool := match limit with Some l => (l <? len)%nat | None => false end.
Fixpoint escape_label (base : nat) (label : str) (out : list u8) (len : Z) (limit : option nat) : outcome (list u8 * Z * bool) :=
  match label with
  | [] => Val (out, len, true)
  | b :: rest =>
    if negb (bool_decide (b = NAME_ESCAPE)) && (len =? 255) then Panic
    else
      let '(out, len) := if decide (b = NAME_ESCAPE) then (out ++ [NAME_ESCAPE; z8 (u8z b + 1)], Z.min 255 (len + 2)) else (out ++ [b], len + 1) in
      if over_limit limit (base + 1 + length out)%nat then Val (out, len, false) else escape_label base rest out len limit
  end.
Fixpoint escape_labels (labels : list str) (buf : list u8) (limit : option nat) : outcome (list u8 * bool) :=
  match labels with
  | [] => Val (buf, true)
  | [] :: rest => escape_labels rest buf limit
  | label :: rest =>
    if over_limit limit (S (length buf)) then Val (buf ++ [Byte.x00], false)
    else
      let# r := escape_label (length buf) label [] 0 limit in
      let '(out, len, fits) := r in
      if (fits : bool) then escape_labels rest (buf ++ z8 len :: out) limit else Val (buf ++ Byte.x00 :: out, false)
  end.
Definition do_rfc1035_name (buf : list u8) (name : str) (limit : option nat) : outcome (list u8 * bool) := escape_labels (split_on dot name) buf limit.

(** ** Trimming a packet *)

Lemma counts_at p post : packet_ok p ->
  let pkt := enc_packet p ++ post in
  be16_at pkt 4 = Z.of_nat (length (questions p)) /\ be16_at pkt 6 = Z.of_nat (length (answers p)) /\
  be16_at pkt 8 = Z.of_nat (length (authority p)) /\ be16_at pkt 10 = Z.of_nat (length (additional p)).
Proof.
  intros [_ _ _ _ _ (H1 & H2 & H3 & H4)]. cbv zeta. unfold enc_packet. rewrite <- !app_assoc.
  set (body := concat _ ++ _). unfold to_bytes. cbn [header fix_counts with_counts id hb3 hb4 qdcount ancount nscount arcount].
  set (a := to_be 2 (id (header p)) ++ [hb3 (header p)] ++ [hb4 (header p)]).
  assert (length a = 4%nat) as Ha by (unfold a; by rewrite !length_app, length_to_be).
  split_and!.
  - eapply (be_at_mid 2 a); [unfold a; by rewrite <- !app_assoc|by rewrite Ha|lia].
  - eapply (be_at_mid 2 (a ++ to_be 2 (Z.of_nat (length (questions p))))); [unfold a; by rewrite <- !app_assoc|rewrite length_app, length_to_be; lia|lia].
  - eapply (be_at_mid 2 (a ++ to_be 2 (Z.of_nat (length (questions p))) ++ to_be 2 (Z.of_nat (length (answers p)))));
      [unfold a; by rewrite <- !app_assoc|rewrite !length_app, !length_to_be; lia|lia].
  - eapply (be_at_mid 2 (a ++ to_be 2 (Z.of_nat (length (questions p))) ++ to_be 2 (Z.of_nat (length (answers p))) ++ to_be 2 (Z.of_nat (length (authority p)))));
      [unfold a; by rewrite <- !app_assoc|rewrite !length_app, !length_to_be; lia|lia].
Qed.

Lemma skip_rrs_app pkt off n k : skip_rrs pkt off (n + k) = let? off := skip_rrs pkt off n in skip_rrs pkt off k.
Proof.
  revert off. induction n as [|n IH]; intros off; [done|]. cbn [Nat.add skip_rrs]. destruct (skip_name pkt off); [|done].
  destruct (_ <? _)%nat; [done|]. cbv zeta. destruct (_ <? _)%nat; [done|]. apply IH.
Qed.
Lemma packet_end_enc p post : packet_ok p -> fits (enc_packet p ++ post) -> packet_end (enc_packet p ++ post) = Some (length (enc_packet p)).
Proof.
  intros Hp Hf. unfold packet_end. cbv zeta. destruct (counts_at p post Hp) as (-> & -> & -> & ->). rewrite !Nat2Z.id. destruct Hp as [_ Hq Ha Hn Hr _].
  unfold enc_packet in *. rewrite <- (length_to_bytes (header (fix_counts p))). set (hd := to_bytes (header (fix_counts p))) in *.
  rewrite <- !app_assoc in *. rewrite skip_questions_enc by done. cbn [ok]. rewrite !skip_rrs_app.
  rewrite (app_assoc hd) in *. rewrite skip_rrs_enc by done.
  rewrite (app_assoc (hd ++ _)) in *. rewrite skip_rrs_enc by done.
  rewrite (app_assoc ((hd ++ _) ++ _)) in *. rewrite skip_rrs_enc by done. cbn [ok]. by rewrite <- !app_assoc.
Qed.

(** What follows the records of a packet is cut off; the EDNS0 record is put
    behind a packet that has no additional records, and counted. *)
Theorem resize_packet_exact p post opt : packet_ok p -> fits (enc_packet p ++ post) ->
  resize_packet (enc_packet p ++ post) None = enc_packet p /\
  (additional p = [] -> resize_packet (enc_packet p ++ post) (Some (enc_rr opt)) = enc_packet (with_additional p [opt])) /\
  (additional p <> [] -> resize_packet (enc_packet p ++ post) (Some (enc_rr opt)) = enc_packet p).
Proof.
  intros Hp Hf. unfold resize_packet. destruct (counts_at p post Hp) as (_ & _ & _ & ->). rewrite packet_end_enc by done.
  assert (12 <= length (enc_packet p))%nat as Hl by (unfold enc_packet; rewrite length_app, length_to_bytes; lia).
  rewrite (proj2 (Nat.ltb_ge _ _)) by (rewrite length_app; lia). rewrite take_app_length. split_and!; [done| |].
  - intros Ea. rewrite Ea. cbn [length Z.of_nat Z.eqb]. rewrite enc_packet_split, Ea. cbn [fmap list_fmap concat].
    rewrite app_nil_r. rewrite <- (set_arcount_enc p [opt]) by done. cbn [fmap list_fmap concat]. by rewrite app_nil_r.
  - intros Ea. destruct (additional p) eqn:E; [done|]. by rewrite (proj2 (Z.eqb_neq _ _)) by (cbn [length]; lia).
Qed.

(** A reply with one address, three stray bytes behind it, and the EDNS0 record
    to be put in their place. *)
Module Example.
Definition packet : DnsPacket :=
  mkPacket (mkHeader 7 Byte.x81 Byte.x80 1 1 0 0) [mkQuestion (bs "a.example") 1 1] [mkRr (bs "a.example") 1 1 60 (to_be 4 167772161)] [] [].
Definition edns : DnsRr := mkRr [] 41 1232 0 [].
Definition stray : list u8 := [Byte.x00; Byte.x29; Byte.xff].

Lemma packet_readable : packet_ok packet.
Proof. split; [vm_compute; intuition discriminate| | | | |cbn; lia]; repeat constructor; vm_compute; intuition (discriminate || lia). Qed.
Lemma resize_packet_exact_witness :
  packet_ok packet /\ resize_packet (enc_packet packet ++ stray) (Some (enc_rr edns)) = enc_packet (with_additional packet [edns]).
Proof.
  split; [apply packet_readable|]. apply (resize_packet_exact packet stray edns packet_readable); [|reflexivity].
  apply Z.ltb_lt. vm_compute. reflexivity.
Defined.
End Example.
