(* ===== verification/ReplyPath.v ===== *)
(** * The path of a query and of its reply: src/src/forward.rs

    The two events of the forwarding loop, from the datagram that arrives to
    the datagrams that leave: a query is refused, answered from local data or
    forwarded, a reply from upstream is checked, rewritten, cached and sent to
    the clients that wait for it. Both work on the engine and on the cache,
    which share the metric counters. Sending, logging and the kernel's sets are
    I/O: what is sent and what is put into a set is part of the result. *)

From Stdlib Require Import ZArith Lia String.
From stdpp Require Import base numbers list option gmap sets.
From S2P Require Import Prelude ByteCursor DnsProtocol Rfc1035 Types Arpa Lru Metrics Cache Extract Server LoopDetect HashQuestions Edns0 RrFilter FrecTable Forward Records Domain LocalAnswer ReplyTools.

#[local] Open Scope Z_scope.

(** ** Extended errors *)

(** [Ede], in the numbering of the source. *)
Inductive Ede : Type :=
| UsServFail | Unset | Other | UsupDnskey | UsupDs | Stale | Forged | DnssecInd | DnssecBogus | SigExp | SigNyv | NoDnskey | NoRrsig
| NoZonekey | NoNsec | CachedErr | NotReady | Blocked | Censored | Filtered | Prohibited | StaleNxd | EdeNotAuth | NotSup | NoAuth
| Neterr | InvalidData | SigEBV | TooEarly | UnsNs3Iter | UnablePolicy | Synthesized.
#[global] Instance Ede_eq_dec : EqDecision Ede.
Proof. solve_decision. Defined.
Definition ALL_EDES : list Ede :=
  [UsServFail; Unset; Other; UsupDnskey; UsupDs; Stale; Forged; DnssecInd; DnssecBogus; SigExp; SigNyv; NoDnskey; NoRrsig;
   NoZonekey; NoNsec; CachedErr; NotReady; Blocked; Censored; Filtered; Prohibited; StaleNxd; EdeNotAuth; NotSup; NoAuth;
   Neterr; InvalidData; SigEBV; TooEarly; UnsNs3Iter; UnablePolicy; Synthesized].
Definition Ede_as (e : Ede) : Z := match list_find (e =.) ALL_EDES with Some (i, _) => Z.of_nat i - 2 | None => -1 end.
Definition EDNS0_OPTION_EDE : Z := 15.

(** ** Configuration *)

(** What the relay reads of the configuration, beside what the engine reads. *)
Record RelayConfig : Type := mkRelayConfig {
  rc_local : LocalConfig; rc_max_ttl : Z; rc_neg_ttl : Z; rc_no_neg_cache : bool; rc_check_rebind : bool; rc_local_rebind_ok : bool;
  rc_no_rebind : list str; rc_bogus_addr : list BogusAddr; rc_filter_rr : list Z; rc_cache_rr : list Z; rc_dnssec_valid : bool;
  rc_dnssec_proxy : bool; rc_ipsets : list Ipsets; rc_nftsets : list Ipsets; rc_cmark_alst_en : bool; rc_allowlists : list Allowlist;
  rc_allowlist_mask : Z; rc_client_subnet : bool; rc_add_subnet4 : option AddSubnetOpt; rc_add_subnet6 : option AddSubnetOpt;
  rc_loop_detect : bool }.

Fixpoint domain_no_rebind (domain : str) (no_rebind : list str) : outcome bool :=
  match no_rebind with
  | [] => Val false
  | rbd :: rest =>
    let dlen := length domain in
    let tlen := length rbd in
    if (tlen =? 0)%nat then if bool_decide (dot ∈ domain) then domain_no_rebind domain rest else Val true
    else if (tlen <=? dlen)%nat then
      let start := (dlen - tlen)%nat in
      let# suffix := str_from domain start in
      if eq_ignore_ascii_case suffix rbd && ((dlen =? tlen)%nat || bool_decide (domain !! pred start = Some dot))
      then Val true else domain_no_rebind domain rest
    else domain_no_rebind domain rest
  end.

(** Whether the name is spared is only asked when the check is on. *)
Definition extract_config (cfg : RelayConfig) (qname : str) : outcome ExtractConfig :=
  let# check := (if rc_check_rebind cfg then let# spared := domain_no_rebind qname (rc_no_rebind cfg) in Val (negb spared) else Val false) in
  Val (mkExtractConfig (rc_max_ttl cfg) (rc_neg_ttl cfg) check (rc_local_rebind_ok cfg) (rc_no_neg_cache cfg) false
         (rc_cache_rr cfg) (rc_ipsets cfg) (rc_nftsets cfg)).

Definition mark_admits_query (cfg : RelayConfig) (mark : option Z) (name : str) : bool :=
  if negb (rc_cmark_alst_en cfg) then true
  else match mark with
  | Some mark =>
    if has mark (rc_allowlist_mask cfg) then is_query_allowed_for_mark mark name (rc_allowlists cfg) (rc_allowlist_mask cfg) else true
  | None => true
  end.

(** ** Rewriting bytes of a packet *)

(** [pkt[i] = f(pkt[i])]. *)
Definition at_byte (i : nat) (f : Z -> Z) (pkt : list u8) : list u8 := alter (fun b => z8 (f (u8z b))) i pkt.
(** [pkt[i..i + n].copy_from_slice(bytes)]. *)
Definition patch (i : nat) (bytes pkt : list u8) : list u8 := take i pkt ++ bytes ++ drop (i + length bytes) pkt.
Definition in_header (f : list u8 -> list u8) (pkt : list u8) : list u8 := if (12 <=? length pkt)%nat then f pkt else pkt.
Definition clear_authoritative : list u8 -> list u8 := in_header (at_byte 2 (fun b => Z.land b (not8 HB3_AA))).
Definition set_recursion_available : list u8 -> list u8 := in_header (at_byte 3 (fun b => Z.lor b HB4_RA)).
Definition set_rcode_at (rcode : Z) : list u8 -> list u8 := in_header (at_byte 3 (fun b => Z.lor (Z.land b 0xF0) (Z.land rcode 0x0F))).

Definition strip_records (parsed : DnsPacket) (code : Z) : list u8 :=
  let additional := List.filter (fun rr => rtype rr =? 41) (additional parsed) in
  let h := with_counts (header parsed) (qdcount (header parsed)) 0 0 (as_u16 (Z.of_nat (length additional))) in
  write (mkPacket (set_rcode h (z8 code)) (questions parsed) [] [] additional).

Definition opt_sizep (pkt : list u8) (opt_offset : nat) : option nat :=
  let! pos := ok (skip_name pkt opt_offset) in
  if (pos + 10 <=? length pkt)%nat then Some (pos + 2)%nat else None.

Definition ede_option (ede : Ede) : Edns0Option := mkOpt EDNS0_OPTION_EDE (to_be 2 (as_u16 (Ede_as ede))).
Definition attach_ede (pkt : list u8) (ede : Ede) : outcome (option (list u8)) :=
  match find_pseudoheader pkt with
  | None => Val None
  | Some info =>
    let options := List.filter (fun o => negb (o_code o =? EDNS0_OPTION_EDE)) (i_options info) ++ [ede_option ede] in
    let# r := add_pseudoheader pkt (i_udp_size info) (i_flags info) options in Val (ok r)
  end.

Definition make_refused_answer (query : list u8) (edns_pktsz : Z) : option (list u8) :=
  let! parsed := ok (parse query) in
  Some (write (mkPacket (setup_reply (header parsed) 0) (questions parsed) [] [] (reply_opt edns_pktsz parsed))).

(** The client's side of a query, as kept with it. *)
Record ReplyContext : Type := mkContext {
  cx_has_pheader : bool; cx_ad_question : bool; cx_do_question : bool; cx_checking_disabled : bool; cx_query_source : option IpAddr }.
Definition from_flags (flags : Z) : ReplyContext :=
  mkContext (has flags FREC_HAS_PHEADER) (has flags FREC_AD_QUESTION) (has flags FREC_DO_QUESTION) (has flags FREC_CHECKING_DISABLED) None.
Definition with_source (src : option IpAddr) (c : ReplyContext) : ReplyContext :=
  mkContext (cx_has_pheader c) (cx_ad_question c) (cx_do_question c) (cx_checking_disabled c) src.

(** ** Replies *)

(** The addresses for the kernel's sets: ipset hits and nftset hits. *)
Notation Hits := (list IpsetHit * list IpsetHit)%type.
Definition no_hits : Hits := ([], []).

Section Path.
Context `{UnicodeTables} `{Hasher} {L : Lru CacheKey CacheRecord} (rc : RelayConfig).

(** The packet is replaced where the outcome calls for it. *)
Definition after_extraction (parsed : DnsPacket) (pkt : list u8) (o : ExtractOutcome) : Ede * list u8 :=
  match x_result o with
  | Cached => (Unset, pkt)
  | RebindBlocked => (Blocked, strip_records parsed (rcode (header parsed)))
  | BadPacket => (Other, strip_records parsed 2)
  end.
Definition cache_upstream_reply (pkt : list u8) (now : Instant) (w : Cache.World) : outcome (Ede * list u8 * Hits * Cache.World) :=
  match parse pkt with
  | Err _ => Val (Other, in_header (fun p => set_rcode_at 2 (patch 6 (replicate 6 Byte.x00) p)) pkt, no_hits, w)
  | Ok parsed =>
    match questions parsed with
    | [] => Val (Unset, pkt, no_hits, w)
    | question :: _ =>
      let qname := to_lowercase (q_name question) in
      let '(bogus, w') := if rcode (header parsed) =? 3 then (false, w) else check_for_bogus_wildcard parsed now (rc_bogus_addr rc) w in
      if (bogus : bool) then Val (Blocked, clear_authoritative (strip_records parsed 3), no_hits, w')
      else
        let# cfg := extract_config rc qname in
        let# r := cache_reply pkt now cfg w' in
        let '(o, w') := r in
        let '(ede, pkt) := after_extraction parsed pkt o in
        Val (ede, pkt, (ipset_hits o, nftset_hits o), w')
    end
  end.

(** The pseudoheader: [None] to discard the reply; whether there still is one. *)
Definition fix_pseudoheader (pkt : list u8) (ctx : ReplyContext) : option (list u8 * bool * Z) :=
  match find_pseudoheader pkt with
  | None => Some (pkt, false, 0)
  | Some info =>
    if rc_client_subnet rc && negb (check_source pkt (cx_query_source ctx) (rc_add_subnet4 rc) (rc_add_subnet6 rc)) then None
    else if negb (cx_has_pheader ctx) then
      Some (match filter_rr_types pkt [41] with Ok p => p | Err _ => pkt end, false, i_ext_rcode info)
    else
      match opt_sizep pkt (i_offset info) with
      | None => Some (pkt, false, i_ext_rcode info)
      | Some sizep =>
        let pkt := patch sizep (to_be 2 (lc_edns_pktsz (rc_local rc))) pkt in
        let pkt := if rc_dnssec_valid rc && negb (cx_do_question ctx)
                   then patch (sizep + 4) (to_be 2 (Z.land (be16_at pkt (sizep + 4)) (65535 - 0x8000))) pkt else pkt in
        Some (pkt, true, i_ext_rcode info)
      end
  end.

Definition filter_answer (ede : Ede) (pkt : list u8) : Ede * list u8 :=
  if (12 <=? length pkt)%nat && (Z.land (u8_at pkt 3) 0x0F =? 0) && negb (length (rc_filter_rr rc) =? 0)%nat then
    match filter_configured_rr_types pkt (rc_filter_rr rc) with
    | Ok (filtered, removed) => if (0 <? removed)%nat then (Filtered, filtered) else (ede, pkt)
    | Err _ => (ede, pkt)
    end
  else (ede, pkt).
Definition strip_dnssec (ctx : ReplyContext) (pkt : list u8) : list u8 :=
  if rc_dnssec_valid rc && negb (cx_do_question ctx)
  then match strip_dnssec_if_not_requested pkt with Ok p => p | Err _ => pkt end else pkt.
Definition with_ede (has_pheader : bool) (ede : Ede) (pkt : list u8) : outcome (list u8) :=
  if has_pheader && negb (bool_decide (ede = Unset)) then let# r := attach_ede pkt ede in Val (default pkt r) else Val pkt.
(** The header of every reply: the client's CD bit, no AD of ours, RA. *)
Definition restore_cd (ctx : ReplyContext) (pkt : list u8) : list u8 :=
  at_byte 3 (fun b => if cx_checking_disabled ctx then Z.lor b HB4_CD else Z.land b (not8 HB4_CD)) pkt.
Definition own_bits (pkt : list u8) : list u8 :=
  set_recursion_available (if rc_dnssec_proxy rc then pkt else at_byte 3 (fun b => Z.land b (not8 HB4_AD)) pkt).

(** Is the reply to be delivered, and as what? *)
Definition process_reply (pkt : list u8) (now : Instant) (ctx : ReplyContext) (w : Cache.World)
  : outcome (bool * list u8 * Hits * Cache.World) :=
  if (length pkt <? DNS_HEADER_LEN)%nat then Val (true, pkt, no_hits, w)
  else
    let pkt := restore_cd ctx pkt in
    match fix_pseudoheader pkt ctx with
    | None => Val (false, pkt, no_hits, w)
    | Some (pkt, has_pheader, ext_rcode) =>
      let pkt := own_bits pkt in
      let code := Z.lor (Z.land (u8_at pkt 3) 0x0F) (Z.shiftl ext_rcode 4) in
      if negb (Z.land (Z.shiftr (u8_at pkt 2) 3) 0x0F =? 0) || (negb (code =? 0) && negb (code =? 3)) then Val (true, pkt, no_hits, w)
      else
        let# r := (if is_truncated pkt then Val (Unset, pkt, no_hits, w)
                   else
                     let# r := cache_upstream_reply pkt now w in
                     let '(ede, pkt, hits, w) := r in
                     let '(ede, pkt) := filter_answer ede pkt in Val (ede, pkt, hits, w)) in
        let '(ede, pkt, hits, w) := r in
        let# pkt := with_ede has_pheader ede (strip_dnssec ctx pkt) in
        Val (true, pkt, hits, w)
    end.

(** ** The two events *)

(** The state the events share; the metric counters are the engine's. *)
Record Dns : Type := mkDns { dn_engine : ForwardEngine; dn_cache : DnsCache }.
Definition world_of (d : Dns) : Cache.World := Cache.mkWorld (dn_cache d) (counters (dn_engine d)).
Definition with_counts_of (g : Counters) (e : ForwardEngine) : ForwardEngine :=
  mkEngine (config e) (table e) (upstream_order e) (rfd_pool e) (loop_servers e) g.
Definition with_world (w : Cache.World) (d : Dns) : Dns := mkDns (with_counts_of (metrics w) (dn_engine d)) (cache w).
Definition with_loops (l : list Server) (e : ForwardEngine) : ForwardEngine :=
  mkEngine (config e) (table e) (upstream_order e) (rfd_pool e) l (counters e).

(** A datagram to a client, from a listener. *)
Record Sending : Type := mkSending { sd_packet : list u8; sd_to : MySockAddr; sd_listener : Z }.

(** A datagram on a listener: the client, the local address, whether the
    interface it came in on is served, and the mark of the connection. *)
Record Arrival : Type := mkArrival {
  ar_packet : list u8; ar_src : MySockAddr; ar_listener : Z; ar_dest : option IpAddr; ar_accepted : bool; ar_mark : option Z }.

Definition answer_locally (pkt : list u8) (now : Instant) (w : Cache.World) : outcome (option (list u8) * Cache.World) :=
  match parse pkt with
  | Err _ => Val (None, w)
  | Ok query => let# r := answer_request (rc_local rc) now query w in let '(reply, w) := r in Val (option_map write reply, w)
  end.
Definition loop_probe (pkt : list u8) (e : ForwardEngine) : bool * ForwardEngine :=
  if rc_loop_detect rc then
    match extract_request pkt with
    | Some (name, t) => let '(hit, l) := detect_loop name (RrType_as t) (loop_servers e) in (hit, with_loops l e)
    | None => (false, e)
    end
  else (false, e).
Definition is_query (pkt : list u8) : bool := (12 <=? length pkt)%nat && (Z.land (u8_at pkt 2) 0x80 =? 0).
Definition refusal (a : Arrival) : list Sending :=
  match make_refused_answer (ar_packet a) (lc_edns_pktsz (rc_local rc)) with
  | Some wire => [mkSending wire (ar_src a) (ar_listener a)]
  | None => []
  end.
Definition count_local (d : Dns) : Dns := mkDns (with_counts_of (inc_metric DnsLocalAnswered (counters (dn_engine d))) (dn_engine d)) (dn_cache d).

(** [None] when the identifiers drawn are used up. *)
Definition handle_incoming_query (env : Env) (a : Arrival) (d : Dns) : outcome (option (list Sending * Dns)) :=
  if negb (ar_accepted a) || negb (is_query (ar_packet a)) then Val (Some ([], d))
  else
    let '(probe, e) := loop_probe (ar_packet a) (dn_engine d) in
    let d := mkDns e (dn_cache d) in
    if (probe : bool) then Val (Some ([], d))
    else if rc_cmark_alst_en rc && negb (mark_admits_query rc (ar_mark a) (query_name_lower (ar_packet a))) then Val (Some (refusal a, d))
    else
      let# r := answer_locally (ar_packet a) (env_now env) (world_of d) in
      let '(reply, w) := r in
      let d := with_world w d in
      match reply with
      | Some wire => Val (Some ([mkSending wire (ar_src a) (ar_listener a)], count_local d))
      | None =>
        let# r := forward_query env (ar_packet a) (ar_src a) (ar_listener a) (ar_dest a) (dn_engine d) in
        match r with
        | None => Val None
        | Some (out, e) =>
          Val (Some (match out with Refused_ => refusal a | _ => [] end, mkDns e (dn_cache d)))
        end
      end.

(** One reply for each client that waits, under its own identifier. *)
Fixpoint send_all (listeners : Z) (pkt : list u8) (targets : list ReplyTarget) : list Sending :=
  match targets with
  | [] => []
  | t :: rest =>
    let pkt := patch_id pkt (rt_orig_id t) in
    mkSending pkt (rt_client t) (if rt_listener t <? listeners then rt_listener t else 0) :: send_all listeners pkt rest
  end.
Definition handle_upstream_reply (env : Env) (listeners : Z) (pkt : list u8) (from : MySockAddr) (arrived_on : nat) (d : Dns)
  : outcome (list Sending * Hits * Dns) :=
  let# r := accept_reply env pkt from arrived_on (dn_engine d) in
  let '(act, e) := r in
  let d := mkDns e (dn_cache d) in
  match act with
  | Deliver targets flags =>
    let ctx := with_source ((fun t => sock_ip (rt_client t)) <$> head targets) (from_flags flags) in
    let# r := process_reply pkt (env_now env) ctx (world_of d) in
    let '(deliver, pkt, hits, w) := r in
    let d := with_world w d in
    Val (if (deliver : bool) then send_all listeners pkt targets else [], hits, d)
  | Retried | Ignore => Val ([], no_hits, d)
  end.
End Path.
