(* ===== verification/ReplySpec.v ===== *)
(** * What the path of a query and of its reply promises

    Over every sequence of queries, replies, expiries and reloads, the books of
    the forwarding engine and of the cache stay right. A datagram that answers
    no query in flight has no effect, what is delivered goes to the clients of
    the query it answers, and the header of every reply is the relay's own. *)

From Stdlib Require Import ZArith Lia String.
From stdpp Require Import base numbers list option gmap sets relations.
From S2P Require Import Prelude ByteCursor DnsProtocol Rfc1035 Types Lru Metrics Cache Extract Server LoopDetect HashQuestions Edns0 RrFilter FrecTable Forward Records Domain LocalAnswer LocalSpec ReplyTools ReplyPath.

#[local] Open Scope Z_scope.

(** ** Events *)

Section Invariant.
Context `{UnicodeTables} `{Hasher} {L : Lru CacheKey CacheRecord}.
Implicit Types (e : ForwardEngine) (d : Dns) (w : Cache.World).

(** An event of the main loop, under the configuration of the moment. *)
Inductive dns_step : Dns -> Dns -> Prop :=
| DnsQuery rc env a d out d' : handle_incoming_query rc env a d = Val (Some (out, d')) -> dns_step d d'
| DnsReply rc env n pkt from arrived d out hits d' :
    handle_upstream_reply rc env n pkt from arrived d = Val (out, hits, d') -> dns_step d d'
| DnsExpire now d n e' : expire_queries now (dn_engine d) = (n, e') -> dns_step d (mkDns e' (dn_cache d))
| DnsReload cfg loops d : dns_step d (mkDns (refresh_config cfg loops (dn_engine d)) (dn_cache d)).

(** ** The counters *)

(** The engine counts the queries it forwards, nothing else. *)
Definition ticked e e' : Prop := counters e' = counters e \/ counters e' = inc_metric DnsQueriesForwarded (counters e).
Lemma ticked_refl e : ticked e e.
Proof. by left. Qed.
Lemma ticked_same e1 e2 e3 : counters e2 = counters e1 -> ticked e2 e3 -> ticked e1 e3.
Proof. unfold ticked. by intros ->. Qed.
Lemma counters_release e : counters (release_rfds e) = counters e.
Proof. unfold release_rfds. destruct (take_released_rfds _). by case_bool. Qed.
Lemma counters_send env idx srv e : counters (snd (send_upstream env idx srv e)) = counters e.
Proof. unfold send_upstream. repeat case_match; done. Qed.
Lemma counters_complete idx e : counters (snd (complete idx e)) = counters e.
Proof. unfold complete. destruct (match _ with Some _ => _ | None => _ end). cbn [snd]. by rewrite counters_release. Qed.
Lemma resend_ticked env idx srv e : ticked e (snd (resend env idx srv e)).
Proof.
  unfold resend. destruct srv as [srv|]; [|apply ticked_refl]. pose proof (counters_send env idx srv e) as E.
  destruct (send_upstream env idx srv e) as [[] e2]; cbn in *; unfold ticked; cbn; rewrite E; tauto.
Qed.
Lemma join_ticked env idx oid client listener e : ticked e (snd (join_in_flight env idx oid client listener e)).
Proof.
  unfold join_in_flight. destruct (_ !! idx) as [f|]; [|apply ticked_refl]. case_bool; [apply resend_ticked|].
  destruct (add_src _ _ _) as [[] t]; cbn [negb].
  - case_bool; [by left|]. exact (ticked_same e (set_table t e) _ eq_refl (resend_ticked env idx _ _)).
  - case_bool; left; cbn [snd]; rewrite ?counters_release; done.
Qed.
Lemma forward_query_ticked env pkt client listener dst e out e' :
  forward_query env pkt client listener dst e = Val (Some (out, e')) -> ticked e e'.
Proof.
  unfold forward_query. case_bool; [intros [= _ <-]; by left|]. destruct (hash_questions pkt); [|intros [= _ <-]; by left].
  destruct (lookup_frec_by_question _ _ _ _) as [i|]; [intros [= E]; pose proof (join_ticked env i (be16_at pkt 0) client listener e) as J; by rewrite E in J|].
  case_bool; [intros [= _ <-]; by left|]. destruct (candidate_servers e pkt); [|done].
  destruct (next_server _ _ _); [|intros [= _ <-]; by left]. destruct (get_new_frec _ _ _ _) as [[idx|] t];
    [|intros [= _ <-]; left; cbn [snd]; by rewrite counters_release].
  destruct (get_id _ _); [|done]. destruct (with_client_mac _ _ _ _); [|done].
  destruct (_ !! idx) as [f|]; [|intros [= _ <-]; left; cbn [snd]; by rewrite counters_release].
  match goal with |- context [send_upstream ?a ?b ?c ?x] => pose proof (counters_send a b c x) as E; destruct (send_upstream a b c x) as [[] e3] end;
    (assert (counters e3 = counters e) as E' by (cbn [snd] in E; rewrite E; exact (counters_release (set_table t e))));
    intros [= _ <-]; unfold ticked; cbn [counters count_forwarded]; rewrite ?counters_release; cbn [counters set_table]; rewrite E'; tauto.
Qed.
Lemma accept_reply_ticked env reply from arrived e act e' :
  accept_reply env reply from arrived e = Val (act, e') -> ticked e e'.
Proof.
  unfold accept_reply. destruct (validate_reply _ _ _ _ _) as [idx|]; [|intros [= _ <-]; by left]. case_bool; [intros [= _ <-]; by left|].
  assert (forall x, counters x = counters e -> Val (complete idx x) = Val (act, e') -> ticked e e') as Hc.
  { intros x E [= F]. left. pose proof (counters_complete idx x) as C. rewrite F in C. cbn in C. congruence. }
  case_bool; [|by apply Hc]. destruct (next_untried_server idx e) as [[s|]|]; [|by apply Hc|done].
  match goal with |- context [send_upstream ?a ?b ?c ?x] => pose proof (counters_send a b c x) as E; destruct (send_upstream a b c x) as [[] e3] end;
    cbn in E; (assert (counters e3 = counters e) as E' by (rewrite E; by case_match)); [intros [= _ <-]; right; cbn; by rewrite E'|by apply Hc].
Qed.

(** ** The cache *)

Lemma inv_counters n mn mx c g g' : Cache.inv n mn mx (mkWorld c g) ->
  get_metric DnsCacheInserted g' = get_metric DnsCacheInserted g -> get_metric DnsCacheLiveFreed g' = get_metric DnsCacheLiveFreed g ->
  Cache.inv n mn mx (mkWorld c g').
Proof. intros (? & ? & ? & ? & Hi & Hf) E1 E2. unfold Cache.inv, counted. cbn in *. by rewrite E1, E2. Qed.
Lemma ticked_inv n mn mx c e e' : ticked e e' -> Cache.inv n mn mx (mkWorld c (counters e)) -> Cache.inv n mn mx (mkWorld c (counters e')).
Proof. intros [-> | ->] Hi; [done|]. eapply inv_counters; [exact Hi|by apply get_inc_ne..]. Qed.
Lemma inv_really r now n mn mx w : Cache.inv n mn mx w -> Cache.inv n mn mx (snd (really_insert r now w)).
Proof. intros Hw. unfold really_insert. repeat case_match; simpl; try done. by apply inv_insert. Qed.
Lemma inv_transaction l now n mn mx w : Cache.inv n mn mx w -> Cache.inv n mn mx (snd (transaction l now w)).
Proof.
  intros Hw. unfold transaction.
  assert (quiet (fun c => stage_all l now (start_insert c))) as Hq.
  { apply (quiet_compose start_insert (stage_all l now)); [apply quiet_chain|]. clear.
    induction l as [|r l IH]; [apply quiet_id|]. apply (quiet_compose _ (stage_all l now) (quiet_stage r now) IH). }
  pose proof (quiet_inv _ _ _ _ _ Hq Hw) as H1.
  unfold end_insert. case_bool; simpl; [|apply inv_commit]; by apply (quiet_inv (set_chain [] false)); [apply quiet_chain|].
Qed.
Lemma inv_extract p now cfg n mn mx w o w' : extract_addresses p now cfg w = Val (o, w') -> Cache.inv n mn mx w -> Cache.inv n mn mx w'.
Proof.
  intros [[_ ->]|[_ [->|(fwd & staged & _ & ->)]]]%extract_inv Hw; [done..|]. rewrite commit_staged_eq. case_bool; [done|].
  by apply inv_transaction.
Qed.
Lemma inv_local cfg now n mn mx query w o w' : answer_request cfg now query w = Val (o, w') -> Cache.inv n mn mx w -> Cache.inv n mn mx w'.
Proof.
  intros Ha Hw. pose (P := fun c => Cache.inv n mn mx (mkWorld c (metrics w))).
  assert (forall f, quiet f -> forall c, P c -> P (f c)) as Hq by (intros f Hf c Hc; by apply (quiet_inv f n mn mx (mkWorld c (metrics w)))).
  destruct (answer_request_keeps cfg now query w o w' P) as [Em HP]; [apply Hw|by destruct w|..]; try done.
  - intros name flags. apply (Hq (fun c => snd (lookup_by_name name flags now c))), quiet_lookup_by_name.
  - intros name flags. apply (Hq (fun c => snd (lookup_forward name flags now c))), quiet_lookup_forward.
  - intros addr. apply (Hq (fun c => snd (lookup_by_addr addr now c))), quiet_lookup_by_addr.
  - destruct w'; cbn in *. by subst.
Qed.
Lemma inv_upstream rc pkt now n mn mx w ede pkt' hits w' : cache_upstream_reply rc pkt now w = Val (ede, pkt', hits, w') ->
  Cache.inv n mn mx w -> Cache.inv n mn mx w'.
Proof.
  unfold cache_upstream_reply. destruct (parse pkt) as [p|] eqn:Ep; [|by intros [= _ _ _ <-]].
  destruct (questions p) as [|q qs]; [by intros [= _ _ _ <-]|].
  destruct (if rcode (header p) =? 3 then _ else _) as [bogus w1] eqn:Eb. intros Hr Hw.
  assert (Cache.inv n mn mx w1) as H1.
  { revert Eb. case_bool; [by intros [= _ <-]|]. unfold check_for_bogus_wildcard.
    destruct (find_bad_address _ _) as [[a t]|]; intros [= _ <-]; [by apply inv_really|done]. }
  revert Hr. destruct bogus; [by intros [= _ _ _ <-]|]. destruct (extract_config rc _) as [cfg|]; [|done].
  unfold cache_reply. rewrite Ep. destruct (extract_addresses p now cfg w1) as [[o w2]|] eqn:Ex; [|done].
  destruct (after_extraction p pkt o) as [ed pk]. intros [= _ _ _ <-]. by eapply inv_extract.
Qed.
Lemma inv_process rc pkt now ctx n mn mx w deliver pkt' hits w' : process_reply rc pkt now ctx w = Val (deliver, pkt', hits, w') ->
  Cache.inv n mn mx w -> Cache.inv n mn mx w'.
Proof.
  unfold process_reply. case_bool; [by intros [= _ _ _ <-]|]. destruct (fix_pseudoheader _ _ _) as [[[p1 hp] ext]|]; [|by intros [= _ _ _ <-]].
  case_bool; [by intros [= _ _ _ <-]|]. destruct (is_truncated _).
  { destruct (with_ede _ _ _) as [p2|]; [|done]. by intros [= _ _ _ <-]. }
  destruct (cache_upstream_reply _ _ _ _) as [[[[ede p2] h2] w2]|] eqn:E; [|done].
  destruct (filter_answer rc ede p2) as [ede' p3]. destruct (with_ede _ _ _) as [p4|]; [|done].
  intros [= _ _ _ <-] Hw. by eapply inv_upstream.
Qed.

(** ** The books *)

(** The engine is consistent and so is the cache, by the engine's counters. *)
Record dns_ok (n : nat) (mn mx : Z) d : Prop := {
  do_engine : engine_ok (dn_engine d);
  do_cache : Cache.inv n mn mx (world_of d);
}.

Lemma dns_ok_world n mn mx d w : dns_ok n mn mx d -> Cache.inv n mn mx w -> dns_ok n mn mx (with_world w d).
Proof. intros [[? ? ?] _] Hw. split; [by split|]. by destruct w. Qed.
Lemma dns_ok_engine n mn mx d e : dns_ok n mn mx d -> engine_ok e -> ticked (dn_engine d) e -> dns_ok n mn mx (mkDns e (dn_cache d)).
Proof. intros [_ Hi] He Ht. split; [done|]. by apply (ticked_inv _ _ _ _ (dn_engine d)). Qed.
Lemma dns_ok_local n mn mx d : dns_ok n mn mx d -> dns_ok n mn mx (count_local d).
Proof.
  intros [[? ? ?] Hi]. split; [by split|]. unfold world_of, count_local. cbn.
  eapply inv_counters; [exact Hi|by apply get_inc_ne..].
Qed.
Lemma loop_probe_ok rc pkt e b e' : loop_probe rc pkt e = (b, e') -> engine_ok e -> engine_ok e' /\ counters e' = counters e.
Proof.
  intros Hp [? ? ?]. unfold loop_probe in Hp. repeat case_match; injection Hp as _ <-; (split; [by split|done]).
Qed.

Lemma dns_query_ok rc env a d out d' n mn mx : handle_incoming_query rc env a d = Val (Some (out, d')) ->
  dns_ok n mn mx d -> dns_ok n mn mx d'.
Proof.
  unfold handle_incoming_query. case_bool; [by intros [= _ <-]|].
  destruct (loop_probe rc (ar_packet a) (dn_engine d)) as [probe e] eqn:El. intros Hr Hd.
  destruct (loop_probe_ok _ _ _ _ _ El (do_engine _ _ _ _ Hd)) as [He Ec].
  assert (dns_ok n mn mx (mkDns e (dn_cache d))) as H1 by (apply dns_ok_engine; [done..|by left]). revert Hr.
  destruct probe; [by intros [= _ <-]|]. case_bool; [by intros [= _ <-]|].
  destruct (answer_locally _ _ _ _) as [[reply w]|] eqn:Ea; [|done].
  assert (Cache.inv n mn mx w) as Hw.
  { unfold answer_locally in Ea. destruct (parse _) as [q|]; [|injection Ea as _ <-; apply H1].
    destruct (answer_request _ _ _ _) as [[o w1]|] eqn:Er; [|done]. injection Ea as _ <-. eapply inv_local; [exact Er|apply H1]. }
  pose proof (dns_ok_world _ _ _ _ _ H1 Hw) as H2.
  destruct reply as [wire|]; [intros [= _ <-]; by apply dns_ok_local|].
  destruct (forward_query _ _ _ _ _ _) as [[[o e2]|]|] eqn:Ef; [|done..]. intros [= _ <-].
  apply (dns_ok_engine _ _ _ _ e2 H2); [|by eapply forward_query_ticked]. eapply forward_query_ok; [apply H2|exact Ef].
Qed.

Lemma dns_reply_ok rc env k pkt from arrived d out hits d' n mn mx :
  handle_upstream_reply rc env k pkt from arrived d = Val (out, hits, d') -> dns_ok n mn mx d -> dns_ok n mn mx d'.
Proof.
  unfold handle_upstream_reply. destruct (accept_reply _ _ _ _ _) as [[act e]|] eqn:Ea; [|done]. intros Hr Hd.
  assert (dns_ok n mn mx (mkDns e (dn_cache d))) as H1.
  { apply dns_ok_engine; [done| |by eapply accept_reply_ticked]. apply (accept_reply_spec _ _ _ _ _ _ _ (do_engine _ _ _ _ Hd) Ea). }
  revert Hr. destruct act as [targets flags| |]; [|by intros [= _ _ <-]..].
  destruct (process_reply _ _ _ _ _) as [[[[deliver p] h] w]|] eqn:Ep; [|done]. intros [= _ _ <-].
  apply dns_ok_world; [done|]. eapply inv_process; [exact Ep|apply H1].
Qed.

Lemma dns_step_ok n mn mx d d' : dns_step d d' -> dns_ok n mn mx d -> dns_ok n mn mx d'.
Proof.
  destruct 1 as [rc env a d out d' Hs|rc env k pkt from arrived d out hits d' Hs|now d k e' Hs|cfg loops d].
  - by eapply dns_query_ok.
  - by eapply dns_reply_ok.
  - intros Hd. apply dns_ok_engine; [done|eapply step_ok; [apply Hd|by eapply StepExpire]|].
    unfold expire_queries in Hs. destruct (expire_old _ _ _). injection Hs as _ <-. left. exact (counters_release (set_table _ (dn_engine d))).
  - intros Hd. apply dns_ok_engine; [done|eapply step_ok; [apply Hd|apply StepReload]|by left].
Qed.

Lemma inv_len n mn mx w : Cache.inv n mn mx w -> (len (cache w) <= n)%nat.
Proof. intros (Hw & <- & _). unfold len. rewrite lru_len_iter. apply (wf_size _ Hw). Qed.

(** C1: Over every sequence of queries, replies, expiries and reloads, from an
    empty start and whatever the outside world sends, answers and draws: no two
    queries in flight share an identifier, sockets and waiting clients are
    counted exactly, and the cache, into which the replies go and from which
    the queries are answered, stays within its size, holds each record under
    its own key, and agrees with the metrics the engine counts in as well. *)
Theorem dns_loop_invariant cfg ftabsize limit fds loops n mn mx d :
  rtc dns_step (mkDns (engine_new cfg ftabsize limit fds loops COUNTERS) (with_ttl_limits n mn mx)) d ->
  engine_ok (dn_engine d) /\ Cache.inv n mn mx (world_of d).
Proof.
  intros Hr. assert (dns_ok n mn mx d) as [? ?]; [|done].
  assert (dns_ok n mn mx (mkDns (engine_new cfg ftabsize limit fds loops COUNTERS) (with_ttl_limits n mn mx))) as H1
    by (split; [apply engine_new_ok|split; [apply wf_new|done]]).
  revert H1. induction Hr as [|d1 d2 d3 Hs _ IH]; [done|]. intros H1. by eapply IH, dns_step_ok.
Qed.
End Invariant.

(** ** The header of a reply *)

(** The flags RA, AD and CD of a packet, in its fourth byte. *)
Definition flag_nibble (pkt : list u8) : Z := Z.land (u8_at pkt 3) 0xF0.
(** A change of a packet after its header, of its counts or of its code. *)
Definition keeps_flags (p q : list u8) : Prop :=
  (12 <= length p)%nat -> (12 <= length q)%nat /\ flag_nibble q = flag_nibble p.

Lemma keeps_refl p : keeps_flags p p.
Proof. done. Qed.
Lemma keeps_trans p q r : keeps_flags p q -> keeps_flags q r -> keeps_flags p r.
Proof. intros H1 H2 Hp. destruct (H1 Hp) as [Hq <-]. exact (H2 Hq). Qed.
Lemma keeps_lookup p q : ((12 <= length p)%nat -> (12 <= length q)%nat /\ q !! 3%nat = p !! 3%nat) -> keeps_flags p q.
Proof.
  intros Hk Hp. destruct (Hk Hp) as [Hq E]. split; [done|]. destruct (lookup_lt_is_Some_2 p 3) as [b Eb]; [lia|].
  unfold flag_nibble. rewrite (u8_at_lookup p 3 b Eb), (u8_at_lookup q 3 b); [done|by rewrite E].
Qed.
Lemma keeps_take p x n : (12 <= n)%nat -> keeps_flags p (take n p ++ x).
Proof.
  intros Hn. apply keeps_lookup. intros Hp. rewrite length_app, length_take. split; [lia|].
  rewrite lookup_app_l by (rewrite length_take; lia). by rewrite lookup_take_lt by lia.
Qed.
Lemma keeps_app p x : keeps_flags p (p ++ x).
Proof. apply keeps_lookup. intros Hp. rewrite length_app. split; [lia|]. by rewrite lookup_app_l by lia. Qed.
Lemma keeps_insert p i b : i <> 3%nat -> keeps_flags p (<[i:=b]> p).
Proof. intros Hi. apply keeps_lookup. intros Hp. rewrite list.length_insert. split; [done|]. by rewrite list_lookup_insert_ne. Qed.
Lemma keeps_set_arcount p n : keeps_flags p (set_arcount p n).
Proof. unfold set_arcount. eapply keeps_trans; [by apply (keeps_insert _ 10)|by apply keeps_insert]. Qed.
Lemma keeps_put_be16 p i n : (4 <= i)%nat -> keeps_flags p (put_be16 p i n).
Proof. intros Hi. unfold put_be16. eapply keeps_trans; [apply (keeps_insert _ i); lia|apply keeps_insert; lia]. Qed.
Lemma keeps_patch p i bytes : (12 <= i)%nat -> keeps_flags p (patch i bytes p).
Proof. intros Hi. by apply keeps_take. Qed.
Lemma keeps_patch_header p i bytes : (4 <= i)%nat -> (i + length bytes <= 12)%nat -> keeps_flags p (patch i bytes p).
Proof.
  intros Hi Hb. apply keeps_lookup. intros Hp. unfold patch. rewrite !length_app, length_take, length_drop. split; [lia|].
  by rewrite lookup_app_l, lookup_take_lt by (rewrite ?length_take; lia).
Qed.

(** *** The pseudo record *)

Lemma skip_rrs_ge count : forall pkt off o, skip_rrs pkt off count = Ok o -> (off <= o)%nat.
Proof.
  induction count as [|n IH]; intros pkt off o; cbn [skip_rrs]; [intros [= <-]; lia|].
  destruct (skip_name pkt off) as [o1|] eqn:E; [|done]. apply skip_name_ge in E.
  destruct (_ <? _)%nat; [done|]. destruct (_ <? _)%nat; [done|]. intros H%IH. lia.
Qed.
Lemma find_opt_ge n : forall pkt off info, find_opt pkt off n = Some info -> (off <= i_offset info)%nat.
Proof.
  induction n as [|n IH]; intros pkt off info; cbn [find_opt]; [done|].
  destruct (skip_name pkt off) as [o1|] eqn:E; [|done]. apply skip_name_ge in E. cbn [ok].
  destruct (_ <? _)%nat; [done|]. destruct (_ <? _)%nat; [done|]. destruct (_ =? _); [|intros H%IH; lia].
  destruct (parse_opt_options _); [|done]. cbn [ok]. intros [= <-]. cbn. lia.
Qed.
Lemma pseudoheader_after_header pkt info : find_pseudoheader pkt = Some info -> (12 <= i_offset info)%nat.
Proof.
  unfold find_pseudoheader. destruct (from_bytes pkt); [|done].
  destruct (skip_questions _ _ _) as [o1|] eqn:E1; [|done]. apply skip_questions_ge in E1. cbn [ok].
  destruct (skip_rrs pkt o1 _) as [o2|] eqn:E2; [|done]. apply skip_rrs_ge in E2. cbn [ok].
  destruct (skip_rrs pkt o2 _) as [o3|] eqn:E3; [|done]. apply skip_rrs_ge in E3. cbn [ok]. intros H%find_opt_ge. lia.
Qed.
Lemma keeps_pseudoheader pkt udp flags options out : add_pseudoheader pkt udp flags options = Val (Ok out) -> keeps_flags pkt out.
Proof.
  assert (forall base, append_opt base udp flags options = Val (Ok out) -> keeps_flags base out) as Ha.
  { intros base. unfold append_opt. destruct (from_bytes _); [|done]. destruct (_ =? _); [done|]. intros [= <-].
    eapply keeps_trans; [apply keeps_app|apply keeps_set_arcount]. }
  unfold add_pseudoheader. destruct (from_bytes pkt); [|done]. destruct (find_pseudoheader pkt) as [info|] eqn:Ef; [|apply Ha].
  destruct (strip_opt pkt info) as [base|] eqn:Es; [|done]. intros Hb%Ha. eapply keeps_trans; [|exact Hb].
  unfold strip_opt in Es. destruct (skip_name _ _) as [o|]; [|done]. destruct (_ <? _)%nat; [done|].
  destruct (_ <? _)%nat; [done|]. destruct (from_bytes pkt); [|done]. injection Es as <-.
  eapply keeps_trans; [|apply keeps_set_arcount]. apply keeps_take. by eapply pseudoheader_after_header.
Qed.
Lemma keeps_attach pkt ede r : attach_ede pkt ede = Val (Some r) -> keeps_flags pkt r.
Proof.
  unfold attach_ede. destruct (find_pseudoheader pkt) as [info|]; [|done].
  destruct (add_pseudoheader _ _ _ _) as [[out|]|] eqn:E; [|done..]. intros [= <-]. by eapply keeps_pseudoheader.
Qed.

(** *** The filters *)

Section Filters.
Context (el : Elided) (fx : bool).

Lemma name_head fuel : forall pkt pos q o, (12 <= pos)%nat -> check_name_loop fuel pkt pos el fx = Some (Some (q, o)) ->
  (12 <= o)%nat /\ take 12 q = take 12 pkt /\ length q = length pkt.
Proof.
  induction fuel as [|f IH]; intros pkt pos q o Hpos; cbn [check_name_loop]; [done|]. destruct (pkt !! pos) as [b|]; [|done].
  destruct (_ =? 0xC0).
  - destruct (_ <? _)%nat; [done|]. destruct (shift_offset _ _) as [s|]; [|done]. intros [= <- <-]. split; [lia|].
    destruct fx; [|done]. rewrite length_put_pointer. split; [|done]. unfold put_pointer. by rewrite !take_insert_ge by lia.
  - destruct (_ =? 0x80); [done|]. destruct (_ =? 0x40).
    + destruct (_ || _); [done|]. destruct (_ <? _)%nat; [done|]. apply IH. lia.
    + destruct (_ <? _)%nat; [done|]. destruct (_ =? 0)%nat; [intros [= <- <-]; split; [lia|done]|]. apply IH. lia.
Qed.
Lemma check_name_head pkt pos q o : (12 <= pos)%nat -> check_name pkt pos el fx = Some (q, o) ->
  (12 <= o)%nat /\ take 12 q = take 12 pkt /\ length q = length pkt.
Proof.
  intros Hpos. unfold check_name. destruct (check_name_loop _ _ _ _ _) as [r|] eqn:E; [|done]. intros ->. by eapply name_head.
Qed.
Lemma rdata_head desc : forall pkt pos q, (12 <= pos)%nat -> check_rdata desc pkt pos el fx = Some q ->
  take 12 q = take 12 pkt /\ length q = length pkt.
Proof.
  induction desc as [|s desc IH]; intros pkt pos q Hpos; cbn [check_rdata]; [by intros [= <-]|].
  destruct (_ =? 0)%nat; [|destruct (_ <? _)%nat; [done|apply IH; lia]].
  destruct (check_name pkt pos el fx) as [[p1 o1]|] eqn:E; [|done]. apply check_name_head in E as (Ho & <- & <-); [|done]. by apply IH.
Qed.
Lemma rrs_head total : forall pkt pos q, (12 <= pos)%nat -> check_rrs total pkt pos el fx = Some q ->
  take 12 q = take 12 pkt /\ length q = length pkt.
Proof.
  induction total as [|n IH]; intros pkt pos q Hpos; cbn [check_rrs]; [by intros [= <-]|].
  destruct (skip_name pkt pos) as [p1|] eqn:Es; [|done]. apply skip_name_ge in Es. cbn [ok]. destruct (_ <? _)%nat; [done|].
  destruct (if starts_elided el pos then _ else _) as [p2|] eqn:E; [|done].
  assert (take 12 p2 = take 12 pkt /\ length p2 = length pkt) as [<- <-].
  { destruct (starts_elided el pos); [by injection E as <-|]. unfold check_rr in E.
    destruct (check_name pkt pos el fx) as [[p3 o3]|] eqn:E3; [|done]. apply check_name_head in E3 as (_ & <- & <-); [|done].
    destruct (_ =? 1); [eapply rdata_head, E; lia|by injection E as <-]. }
  destruct (_ <? _)%nat; [done|]. apply IH. lia.
Qed.
Lemma pass_head qd total : forall pkt q, check_pass qd total pkt el fx = Some q -> take 12 q = take 12 pkt /\ length q = length pkt.
Proof.
  unfold check_pass. assert (12 <= 12)%nat as Hp by lia. revert Hp. generalize 12%nat at 2 3 as p.
  induction qd as [|n IH]; intros p Hp pkt q; cbn [check_questions]; [by apply rrs_head|].
  destruct (check_name pkt p el fx) as [[p1 o1]|] eqn:E; [|done]. apply check_name_head in E as (Ho & <- & <-); [|done]. apply IH. lia.
Qed.
End Filters.

Lemma keeps_filter pkt decide out n : filter_with pkt decide = Ok (out, n) -> keeps_flags pkt out.
Proof.
  unfold filter_with. destruct (from_bytes pkt) as [hdr|] eqn:Eh; [|done]. cbn [ok_or].
  destruct (negb _); [by intros [= <- _]|]. destruct (skip_questions_to _ _ _) as [p0|] eqn:E0; [|done]. apply skip_questions_ge in E0.
  destruct (read_question pkt) as [q|]; [|done]. destruct (choose _ _ _ _ _ _ _ _ _ _) as [[el [[a b] c]]|] eqn:Ec; [|done].
  destruct (Nat.eqb_spec (length el) 0) as [|Hn]; [by intros [= <- _]|].
  destruct (check_pass _ _ pkt el false) as [w1|] eqn:E1; [|by intros [= <- _]].
  destruct (check_pass _ _ w1 el true) as [work|] eqn:E2; intros [= <- _]; [|done].
  destruct (choose_elided_ok _ _ _ _ _ _ _ _ _ _ _ _ (E0 : elided_ok 12 [] p0) (or_intror eq_refl) E0 Ec) as [->|Hel]; [done|].
  apply pass_head in E1 as [T1 L1], E2 as [T2 L2].
  eapply keeps_trans; [|eapply keeps_trans; [|eapply keeps_trans]]; [|apply (keeps_put_be16 _ 6); lia|apply (keeps_put_be16 _ 8); lia|apply keeps_put_be16; lia].
  destruct el as [|[s t] el]; [done|]. cbn [compact]. destruct Hel as (H1 & _). rewrite Nat.sub_0_r, drop_0.
  eapply keeps_trans; [|by apply keeps_take]. apply keeps_lookup. intros Hp. split; [lia|].
  rewrite <- (lookup_take_lt work 12), <- (lookup_take_lt pkt 12) by lia. congruence.
Qed.

(** *** The codes *)

Lemma prefix_put b x : b `prefix_of` put_slice b x.
Proof. by exists x. Qed.
Lemma write_name_prefix b n : b `prefix_of` write_name b n.
Proof.
  unfold write_name. destruct (base.decide (_ = [])); [apply prefix_put|]. etrans; [|apply prefix_put].
  generalize (split_on dot (if base.decide (n = [dot]) then [] else n)) as ls. intros ls. revert b.
  induction ls as [|l ls IH]; intros b; [done|]. cbn [fold_left]. etrans; [|apply IH]. unfold write_label. by etrans; apply prefix_put.
Qed.
Lemma fold_prefix {A} (w : list u8 -> A -> list u8) l : (forall b x, b `prefix_of` w b x) -> forall b, b `prefix_of` fold_left w l b.
Proof. intros Hw. induction l as [|x l IH]; intros b; [done|]. cbn [fold_left]. etrans; [apply Hw|apply IH]. Qed.
Lemma write_rr_prefix b rr : b `prefix_of` write_rr b rr.
Proof. unfold write_rr. do 5 (etrans; [|apply prefix_put]). apply write_name_prefix. Qed.
Lemma write_question_prefix b q : b `prefix_of` write_question b q.
Proof. unfold write_question. do 2 (etrans; [|apply prefix_put]). apply write_name_prefix. Qed.
Lemma write_flags p : (12 <= length (write p))%nat /\ flag_nibble (write p) = Z.land (u8z (hb4 (header p))) 0xF0.
Proof.
  assert (exists h rest, write p = to_bytes h ++ rest /\ hb4 h = hb4 (header p)) as (h & rest & -> & <-).
  { unfold write. set (h := with_counts _ _ _ _ _). cbn zeta.
    assert (to_bytes h `prefix_of` fold_left write_rr (additional p) (fold_left write_rr (authority p) (fold_left write_rr (answers p)
      (fold_left write_question (questions p) (put_slice [] (to_bytes h)))))) as [rest E].
    { do 3 (etrans; [|apply fold_prefix, write_rr_prefix]). etrans; [|apply fold_prefix, write_question_prefix]. done. }
    by exists h, rest. }
  split; [rewrite length_app, length_to_bytes; lia|]. unfold flag_nibble. by rewrite (u8_at_lookup _ 3 (hb4 h)).
Qed.
Lemma flags_set_rcode h c : u8z c < 16 -> Z.land (u8z (hb4 (set_rcode h c))) 0xF0 = Z.land (u8z (hb4 h)) 0xF0.
Proof.
  intros Hc. unfold set_rcode, with_hb4. cbn [hb4]. revert Hc. generalize (hb4 h) as b. intros b Hc.
  pose proof (byte_forall2 (fun b c => implb (u8z c <? 16) (Z.land (u8z (z8 (Z.lor (Z.land (u8z b) (not8 HB4_RCODE)) (u8z c)))) 0xF0 =? Z.land (u8z b) 0xF0))
    ltac:(vm_compute; reflexivity) b c) as E. cbn beta in E. rewrite (proj2 (Z.ltb_lt _ _) Hc) in E.
  cbn [implb] in E. by apply Z.eqb_eq.
Qed.
Lemma parse_header pkt p : parse pkt = Ok p -> from_bytes pkt = Some (header p).
Proof.
  unfold parse. destruct (from_bytes pkt) as [h|]; [|done]. cbn [ok_or].
  do 4 (destruct (parse_many _ _ _) as [[? ?]|]; [|done]). by intros [= <-].
Qed.
Lemma header_nibble pkt h : from_bytes pkt = Some h -> flag_nibble pkt = Z.land (u8z (hb4 h)) 0xF0.
Proof. do 12 (destruct pkt as [|? pkt]; [done|]). intros [= <-]. unfold flag_nibble. by erewrite (u8_at_lookup _ 3) by reflexivity. Qed.
Lemma keeps_strip pkt p code : parse pkt = Ok p -> 0 <= code < 16 -> keeps_flags pkt (strip_records p code).
Proof.
  intros Hp%parse_header Hc _. unfold strip_records. match goal with |- context [write ?x] => destruct (write_flags x) as [Hl E] end.
  split; [exact Hl|]. rewrite E. cbn [header]. rewrite flags_set_rcode by (rewrite u8z_z8_small; lia). symmetry. exact (header_nibble _ _ Hp).
Qed.

(** *** The path of a reply *)

Lemma at_byte_nibble f pkt : (12 <= length pkt)%nat ->
  (12 <= length (at_byte 3 f pkt))%nat /\ u8_at (at_byte 3 f pkt) 3 = u8z (z8 (f (u8_at pkt 3))).
Proof.
  intros Hp. unfold at_byte. rewrite length_alter. split; [done|]. destruct (lookup_lt_is_Some_2 pkt 3) as [b Eb]; [lia|].
  erewrite (u8_at_lookup (alter _ _ _) 3) by (rewrite list_lookup_alter_eq, Eb; reflexivity). by rewrite (u8_at_lookup pkt 3 b).
Qed.
(** Storing a code. *)
Lemma keeps_code f pkt : (forall b : u8, Z.land (u8z (z8 (f (u8z b)))) 0xF0 = Z.land (u8z b) 0xF0) -> keeps_flags pkt (at_byte 3 f pkt).
Proof.
  intros Hf Hp. destruct (at_byte_nibble f pkt Hp) as [Hl E]. split; [done|]. unfold flag_nibble. rewrite E.
  destruct (lookup_lt_is_Some_2 pkt 3) as [b Eb]; [lia|]. by rewrite (u8_at_lookup pkt 3 b).
Qed.
Lemma keeps_aa f pkt : keeps_flags pkt (at_byte 2 f pkt).
Proof. apply keeps_lookup. intros Hp. unfold at_byte. rewrite length_alter. split; [done|]. by rewrite list_lookup_alter_ne. Qed.
Lemma keeps_header f pkt : (forall p, keeps_flags p (f p)) -> keeps_flags pkt (in_header f pkt).
Proof. intros Hf. unfold in_header. case_bool; [apply Hf|done]. Qed.

Section ReplyHeader.
Context `{UnicodeTables} {L : Lru CacheKey CacheRecord} (rc : RelayConfig).

Lemma keeps_upstream pkt now w ede q hits w' : cache_upstream_reply rc pkt now w = Val (ede, q, hits, w') -> keeps_flags pkt q.
Proof.
  unfold cache_upstream_reply. destruct (parse pkt) as [p|] eqn:Ep.
  2: { intros [= _ <- _ _]. apply keeps_header. intros p. eapply keeps_trans; [|apply keeps_header; intros p'; apply keeps_code].
    - apply keeps_patch_header; cbn; lia.
    - intros b. apply Z.eqb_eq. revert b. apply byte_forall. by vm_compute. }
  assert (0 <= rcode (header p) < 16) as Hr.
  { unfold rcode. change HB4_RCODE with (Z.ones 4). rewrite Z.land_ones by lia. apply Z.mod_pos_bound. lia. }
  destruct (questions p) as [|q0 qs]; [by intros [= _ <- _ _]|]. destruct (if rcode (header p) =? 3 then _ else _) as [bogus w1].
  destruct bogus.
  { intros [= _ <- _ _]. eapply keeps_trans; [by apply (keeps_strip pkt p 3)|]. apply keeps_header. intros. apply keeps_aa. }
  destruct (extract_config rc _) as [cfg|]; [|done]. destruct (cache_reply _ _ _ _) as [[o w2]|]; [|done].
  destruct (after_extraction p pkt o) as [ed pk] eqn:Ea. intros [= _ <- _ _]. unfold after_extraction in Ea.
  destruct (x_result o); injection Ea as _ <-; [done|by apply keeps_strip..].
Qed.
Lemma keeps_rr_types pkt types out : filter_rr_types pkt types = Ok out -> keeps_flags pkt out.
Proof.
  unfold filter_rr_types. repeat case_bool; [done|by intros [= <-]|]. destruct (from_bytes pkt); [|done]. cbn [ok_or].
  destruct (filter_with _ _) as [[o n]|] eqn:E; [|done]. intros [= <-]. by eapply keeps_filter.
Qed.
Lemma keeps_answer ede pkt ede' q : filter_answer rc ede pkt = (ede', q) -> keeps_flags pkt q.
Proof.
  unfold filter_answer. case_bool; [|by intros [= _ <-]].
  destruct (filter_configured_rr_types _ _) as [[o n]|] eqn:E; [|by intros [= _ <-]]. case_bool; intros [= _ <-]; [|done].
  unfold filter_configured_rr_types in E. repeat case_bool; [done|by injection E as <- _|].
  destruct (from_bytes pkt); [|done]. cbn [ok_or] in E. by eapply keeps_filter.
Qed.
Lemma keeps_dnssec ctx pkt : keeps_flags pkt (strip_dnssec rc ctx pkt).
Proof.
  unfold strip_dnssec. case_bool; [|done]. destruct (strip_dnssec_if_not_requested pkt) as [o|] eqn:E; [|done].
  unfold strip_dnssec_if_not_requested in E. destruct (match find_pseudoheader pkt with Some _ => _ | None => _ end); [by injection E as <-|].
  destruct (from_bytes pkt); [|done]. cbn [ok_or] in E. destruct (filter_with _ _) as [[p n]|] eqn:Ef; [|done]. injection E as <-. by eapply keeps_filter.
Qed.
Lemma keeps_ede hp ede pkt q : with_ede hp ede pkt = Val q -> keeps_flags pkt q.
Proof.
  unfold with_ede. case_bool; [|by intros [= <-]]. destruct (attach_ede pkt ede) as [[r|]|] eqn:E; [|by intros [= <-]|done].
  intros [= <-]. by eapply keeps_attach.
Qed.
Lemma keeps_pheader pkt ctx q hp ext : fix_pseudoheader rc pkt ctx = Some (q, hp, ext) -> keeps_flags pkt q.
Proof.
  unfold fix_pseudoheader. destruct (find_pseudoheader pkt) as [info|] eqn:Ei; [|by intros [= <- _ _]]. case_bool; [done|].
  case_bool; [intros [= <- _ _]; destruct (filter_rr_types pkt [41]) eqn:E; [by eapply keeps_rr_types|done]|].
  destruct (opt_sizep pkt (i_offset info)) as [sp|] eqn:Eo; [|by intros [= <- _ _]].
  assert (12 <= sp)%nat as Hs.
  { apply pseudoheader_after_header in Ei. unfold opt_sizep in Eo. destruct (skip_name _ _) as [o|] eqn:En; [|done].
    apply skip_name_ge in En. cbn [ok] in Eo. destruct (_ <=? _)%nat; [|done]. injection Eo as <-. lia. }
  intros [= <- _ _]. eapply keeps_trans; [by apply (keeps_patch _ sp)|]. case_bool; [|done]. apply keeps_patch. lia.
Qed.

Lemma has_nibble x m : Z.land 0xF0 m = m -> has (Z.land x 0xF0) m = has x m.
Proof. intros E. unfold has. by rewrite <- Z.land_assoc, E. Qed.
Lemma has_flags q p m : flag_nibble q = flag_nibble p -> Z.land 0xF0 m = m -> has (u8_at q 3) m = has (u8_at p 3) m.
Proof. intros E Em. rewrite <- (has_nibble (u8_at q 3)), <- (has_nibble (u8_at p 3)) by done. unfold flag_nibble in E. by rewrite E. Qed.

(** The flags of the relay's own: RA is set, CD is as the client's and AD is
    clear unless validation is left to the servers. *)
Definition own_flags (ctx : ReplyContext) (q : list u8) : Prop :=
  (12 <= length q)%nat /\ has (u8_at q 3) HB4_RA = true /\ has (u8_at q 3) HB4_CD = cx_checking_disabled ctx /\
  (rc_dnssec_proxy rc = false -> has (u8_at q 3) HB4_AD = false).

Lemma own_flags_keeps ctx p q : keeps_flags p q -> own_flags ctx p -> own_flags ctx q.
Proof. intros Hk (Hl & H1 & H2 & H3). destruct (Hk Hl) as [Hq E]. unfold own_flags. rewrite !(has_flags q p) by done. done. Qed.
Lemma restore_cd_spec ctx pkt : (12 <= length pkt)%nat ->
  (12 <= length (restore_cd ctx pkt))%nat /\ has (u8_at (restore_cd ctx pkt) 3) HB4_CD = cx_checking_disabled ctx.
Proof.
  intros Hp. destruct (at_byte_nibble (fun b => if cx_checking_disabled ctx then Z.lor b HB4_CD else Z.land b (not8 HB4_CD)) pkt Hp) as [Hl E].
  split; [exact Hl|]. unfold restore_cd. rewrite E. destruct (lookup_lt_is_Some_2 pkt 3) as [b Eb]; [lia|]. rewrite (u8_at_lookup pkt 3 b Eb).
  apply eqb_prop. clear Eb E. destruct (cx_checking_disabled ctx); revert b; apply byte_forall; by vm_compute.
Qed.
Lemma own_bits_spec ctx pkt : (12 <= length pkt)%nat -> has (u8_at pkt 3) HB4_CD = cx_checking_disabled ctx -> own_flags ctx (own_bits rc pkt).
Proof.
  intros Hp Hcd. unfold own_bits, set_recursion_available.
  set (p1 := if rc_dnssec_proxy rc then pkt else _).
  assert ((12 <= length p1)%nat /\ has (u8_at p1 3) HB4_CD = cx_checking_disabled ctx /\ (rc_dnssec_proxy rc = false -> has (u8_at p1 3) HB4_AD = false))
    as (H1 & H2 & H3).
  { unfold p1. destruct (rc_dnssec_proxy rc); [done|]. destruct (at_byte_nibble (fun b => Z.land b (not8 HB4_AD)) pkt Hp) as [Hl E].
    rewrite E, <- Hcd. split; [exact Hl|]. destruct (lookup_lt_is_Some_2 pkt 3) as [b Eb]; [lia|]. rewrite (u8_at_lookup pkt 3 b Eb).
    split; [apply eqb_prop|intros _; apply negb_true_iff]; clear; revert b; apply byte_forall; by vm_compute. }
  unfold in_header. rewrite (proj2 (Nat.leb_le _ _) H1). destruct (at_byte_nibble (fun b => Z.lor b HB4_RA) p1 H1) as [Hl E].
  unfold own_flags. rewrite E, <- H2. split; [exact Hl|]. destruct (lookup_lt_is_Some_2 p1 3) as [b Eb]; [lia|].
  rewrite (u8_at_lookup p1 3 b Eb) in *. split; [|split; [apply eqb_prop|intros Hx; rewrite <- (H3 Hx); apply eqb_prop]];
    clear; revert b; apply byte_forall; by vm_compute.
Qed.
Lemma process_flags pkt now ctx w q hits w' : process_reply rc pkt now ctx w = Val (true, q, hits, w') -> (12 <= length pkt)%nat -> own_flags ctx q.
Proof.
  unfold process_reply. intros Hr Hp. revert Hr. destruct (Nat.ltb_spec (length pkt) DNS_HEADER_LEN) as [Hx|_]; [unfold DNS_HEADER_LEN in Hx; lia|].
  destruct (restore_cd_spec ctx pkt Hp) as [Hl Hcd]. destruct (fix_pseudoheader _ _ _) as [[[p1 hp] ext]|] eqn:E1; [|done].
  destruct (keeps_pheader _ _ _ _ _ E1 Hl) as [Hl1 F1].
  assert (own_flags ctx (own_bits rc p1)) as Hown by (apply own_bits_spec; [done|by rewrite (has_flags _ _ _ F1)]).
  set (p2 := own_bits rc p1) in *. case_bool; [by intros [= <- _ _]|].
  destruct (is_truncated p2).
  { destruct (with_ede _ _ _) as [p3|] eqn:E3; [|done]. intros [= <- _ _]. eapply own_flags_keeps; [|exact Hown].
    eapply keeps_trans; [apply keeps_dnssec|by eapply keeps_ede]. }
  destruct (cache_upstream_reply _ _ _ _) as [[[[ede p3] h2] w2]|] eqn:Eu; [|done].
  destruct (filter_answer rc ede p3) as [ede' p4] eqn:Ef. destruct (with_ede _ _ _) as [p5|] eqn:E5; [|done]. intros [= <- _ _].
  eapply own_flags_keeps; [|exact Hown]. eapply keeps_trans; [by eapply keeps_upstream|]. eapply keeps_trans; [by eapply keeps_answer|].
  eapply keeps_trans; [apply keeps_dnssec|by eapply keeps_ede].
Qed.
End ReplyHeader.

(** ** Who gets a reply *)

Lemma keeps_patch_id pkt n : keeps_flags pkt (patch_id pkt n).
Proof. unfold patch_id. case_bool; [done|]. eapply keeps_trans; [apply (keeps_insert _ 0); lia|apply keeps_insert; lia]. Qed.
Lemma patch_id_id pkt n : (2 <= length pkt)%nat -> take 2 (patch_id pkt n) = to_be 2 n.
Proof. intros Hp. unfold patch_id. rewrite (proj2 (Nat.ltb_ge _ _)) by lia. by destruct pkt as [|a [|b pkt]]; cbn in Hp; [lia..|]. Qed.
(** What is sent, is one target's. *)
Lemma send_all_spec n pkt targets s : s ∈ send_all n pkt targets -> (12 <= length pkt)%nat ->
  exists t, t ∈ targets /\ sd_to s = rt_client t /\ take 2 (sd_packet s) = to_be 2 (rt_orig_id t) /\ keeps_flags pkt (sd_packet s).
Proof.
  revert pkt. induction targets as [|t ts IH]; intros pkt; [by intros ?%not_elem_of_nil|].
  cbn [send_all]. intros [-> |Hs]%elem_of_cons Hp.
  - exists t. split; [by left|]. split; [done|]. split; [apply patch_id_id; lia|apply keeps_patch_id].
  - destruct (keeps_patch_id pkt (rt_orig_id t) Hp) as [Hl _]. destruct (IH _ Hs Hl) as (t' & Ht & H1 & H2 & H3).
    exists t'. split; [by right|]. split; [done|]. split; [done|]. eapply keeps_trans; [apply keeps_patch_id|exact H3].
Qed.
Lemma targets_of_spec f t : t ∈ targets_of f -> exists x, x ∈ srcs f /\ source x = Some (rt_client t) /\ rt_orig_id t = orig_id x.
Proof.
  unfold targets_of. intros (x & Hx & E)%list_elem_of_omap. exists x. split; [done|]. destruct (source x); [|done]. injection E as <-. done.
Qed.

(** C4: A datagram that is not the valid reply to a query in flight changes
    nothing and nothing is sent for it. What is sent for one that is, goes to
    clients of the query it answers only, to each under the identifier the
    client used, and its header carries the relay's own flags: RA is set, CD is
    what the client asked for, and AD is clear unless validation is left to the
    servers. *)
Theorem upstream_reply_effects `{UnicodeTables} `{Hasher} {L : Lru CacheKey CacheRecord} rc env n pkt from arrived d out hits d' :
  engine_ok (dn_engine d) -> handle_upstream_reply rc env n pkt from arrived d = Val (out, hits, d') ->
  (validate_reply (env_now env) pkt from arrived (dn_engine d) = None -> out = [] /\ hits = no_hits /\ d' = d) /\
  (forall s, s ∈ out -> exists idx f x,
     validate_reply (env_now env) pkt from arrived (dn_engine d) = Some idx /\ frecs (table (dn_engine d)) !! idx = Some f /\
     x ∈ srcs f /\ source x = Some (sd_to s) /\ take 2 (sd_packet s) = to_be 2 (orig_id x) /\
     own_flags rc (from_flags (fflags f)) (sd_packet s)).
Proof.
  intros Hok Hr. split.
  - intros Hv. revert Hr. unfold handle_upstream_reply, accept_reply. rewrite Hv. intros [= <- <- <-]. by destruct d.
  - intros s Hs. revert Hr. unfold handle_upstream_reply. destruct (accept_reply _ _ _ _ _) as [[act e]|] eqn:Ea; [|done].
    destruct (accept_reply_spec _ _ _ _ _ _ _ Hok Ea) as [_ [[-> _]|(idx & f & Hv & Hi & He)]].
    + intros [= <- _ _]. by apply not_elem_of_nil in Hs.
    + destruct act as [targets flags| |]; [|intros [= <- _ _]; by apply not_elem_of_nil in Hs..].
      destruct He as (-> & -> & _). destruct (process_reply _ _ _ _ _) as [[[[dl q] h] w]|] eqn:Ep; [|done].
      intros [= <- _ _]. destruct dl; [|by apply not_elem_of_nil in Hs].
      assert (12 <= length pkt)%nat as Hp.
      { unfold validate_reply in Hv. destruct (Nat.ltb_spec (length pkt) 12); [done|lia]. }
      pose proof (process_flags _ _ _ _ _ _ _ _ Ep Hp) as Hq.
      destruct (send_all_spec _ _ _ _ Hs (proj1 Hq)) as (t & Ht & E1 & E2 & Hk).
      destruct (targets_of_spec _ _ Ht) as (x & Hx & Ex & Eo). exists idx, f, x. rewrite E1, E2, Eo.
      split_and!; try done. exact (own_flags_keeps _ _ _ _ Hk Hq).
Qed.

(** ** A run *)

Module Example.
#[local] Existing Instance ascii_tables.
#[local] Existing Instance trace_hasher.
#[local] Existing Instance list_lru.

Definition relay : RelayConfig :=
  mkRelayConfig LocalSpec.Example.config 0 0 false true false [] [] [] [] false false [] [] false [] 0 false None None false.
Definition start : Dns := mkDns Forward.Example.start (with_ttl_limits 8 0 0).
Definition env (now : Z) : Env := Forward.Example.env now [0; 4242].
Definition from_client (id : Z) : Arrival :=
  mkArrival (patch_id Forward.Example.query id) Forward.Example.client 3 None true None.
(** An address for the name, with AD set. *)
Definition answer_with (ip : Z) : list u8 :=
  write (mkPacket (mkHeader 4242 Byte.x81 (z8 0xA0) 0 0 0 0) [Forward.Example.question_] [mkRr (bs "a.example") 1 1 60 (to_be 4 ip)] [] []).
Definition upstream : MySockAddr := SV4 134744072 53.

Definition asked : Dns := match handle_incoming_query relay (env 0) (from_client 7) start with Val (Some (_, d)) => d | _ => start end.
Definition deliver (ip : Z) : list Sending * Dns :=
  match handle_upstream_reply relay (env 1000000) 4 (answer_with ip) upstream 0 asked with Val (out, _, d) => (out, d) | Panic => ([], start) end.
Definition answered : Dns := snd (deliver 1572395042).
Definition again : list Sending * Dns :=
  match handle_incoming_query relay (env 30000000000) (from_client 9) answered with Val (Some r) => r | _ => ([], start) end.
Definition summary (s : Sending) : option (Z * Z * list (Z * Z * list Z)) :=
  match parse (sd_packet s) with
  | Ok p => Some (id (header p), u8z (hb4 (header p)), (fun r => (rtype r, ttl r, u8z <$> rdata r)) <$> answers p)
  | Err _ => None
  end.

(** The query is forwarded, the reply delivered under the client's identifier
    without AD, the same question half a minute later answered from the cache;
    a private address is stripped from the reply. *)
Example a_run :
  (dn_engine asked = Forward.Example.after_query) /\
  summary <$> fst (deliver 1572395042) = [Some (7, 0x80, [(1, 60, [93; 184; 216; 34])])] /\
  summary <$> fst again = [Some (9, 0x80, [(1, 30, [93; 184; 216; 34])])] /\
  summary <$> fst (deliver 3232235777) = [Some (7, 0x80, [])].
Proof. vm_compute. split_and!; reflexivity. Qed.

Lemma asking : exists out, handle_incoming_query relay (env 0) (from_client 7) start = Val (Some (out, asked)).
Proof. eexists. vm_compute. reflexivity. Qed.
Lemma answering : handle_upstream_reply relay (env 1000000) 4 (answer_with 1572395042) upstream 0 asked
  = Val (fst (deliver 1572395042), no_hits, answered).
Proof. vm_compute. reflexivity. Qed.

Lemma dns_loop_invariant_witness : rtc dns_step start answered /\ len (dn_cache answered) = 1%nat /\ (len (cache (world_of answered)) <= 8)%nat.
Proof.
  assert (rtc dns_step start answered) as Hr.
  { destruct asking as [out Ha]. eapply rtc_l; [eapply DnsQuery, Ha|]. apply rtc_once. eapply DnsReply, answering. }
  split; [exact Hr|]. split; [vm_compute; reflexivity|].
  apply (inv_len 8 0 0 (world_of answered)). apply (dns_loop_invariant Forward.Example.cfg 4 1 100 [] 8 0 0 answered). exact Hr.
Defined.

Lemma upstream_reply_effects_witness : Forall (fun s => exists idx f x,
  frecs (table (dn_engine asked)) !! idx = Some f /\ x ∈ srcs f /\ source x = Some (sd_to s) /\
  take 2 (sd_packet s) = to_be 2 (orig_id x) /\ has (u8_at (sd_packet s) 3) HB4_AD = false) (fst (deliver 1572395042)).
Proof.
  assert (engine_ok (dn_engine asked)) as Hok.
  { rewrite (proj1 a_run). apply (reachable_ok Forward.Example.cfg 4 1 100 [] COUNTERS). apply rtc_once. eapply StepQuery, Forward.Example.forwarded. }
  apply Forall_forall. intros s Hs. destruct (upstream_reply_effects _ _ _ _ _ _ _ _ _ _ Hok answering) as [_ Heff].
  destruct (Heff s Hs) as (idx & f & x & _ & H1 & H2 & H3 & H4 & (_ & _ & _ & Had)).
  exists idx, f, x. exact (conj H1 (conj H2 (conj H3 (conj H4 (Had eq_refl))))).
Defined.
End Example.
