(* ===== verification/Rfc3315.v ===== *)
(** * DHCPv6 messages: src/src/dhcp6_protocol/mod.rs and src/src/rfc3315.rs

    Messages as lists of options, the option scanners over raw bytes, the
    simple replies, relay messages, identity associations, lifetimes, and the
    text of the log lines. *)

From Stdlib Require Import ZArith Lia String.
From stdpp Require Import base numbers list option.
From S2P Require Import Prelude ByteCursor Types Util StdText DhcpTypes Edns0.

#[local] Open Scope Z_scope.

(** ** Message types and options *)

Inductive Dhcp6MsgType : Type :=
| Solicit | Advertise | Request | Confirm | Renew | Rebind | Reply | Release | Decline | Reconfigure | InfoReq | RelayForw | RelayRepl.
#[global] Instance Dhcp6MsgType_eq_dec : EqDecision Dhcp6MsgType.
Proof. solve_decision. Defined.
Definition ALL_MSG_TYPES : list Dhcp6MsgType :=
  [Solicit; Advertise; Request; Confirm; Renew; Rebind; Reply; Release; Decline; Reconfigure; InfoReq; RelayForw; RelayRepl].
(** [t as u8]. *)
Definition Dhcp6MsgType_as (t : Dhcp6MsgType) : Z :=
  match t with
  | Solicit => 1 | Advertise => 2 | Request => 3 | Confirm => 4 | Renew => 5 | Rebind => 6 | Reply => 7 | Release => 8
  | Decline => 9 | Reconfigure => 10 | InfoReq => 11 | RelayForw => 12 | RelayRepl => 13
  end.
Definition Dhcp6MsgType_from_u8 (v : Z) : option Dhcp6MsgType :=
  if v =? 1 then Some Solicit else if v =? 2 then Some Advertise else if v =? 3 then Some Request
  else if v =? 4 then Some Confirm else if v =? 5 then Some Renew else if v =? 6 then Some Rebind
  else if v =? 7 then Some Reply else if v =? 8 then Some Release else if v =? 9 then Some Decline
  else if v =? 10 then Some Reconfigure else if v =? 11 then Some InfoReq else if v =? 12 then Some RelayForw
  else if v =? 13 then Some RelayRepl else None.

Definition DHCPV6_SERVER_PORT : Z := 547.
Definition DHCPV6_CLIENT_PORT : Z := 546.
Definition OPTION6_CLIENT_ID : Z := 1.
Definition OPTION6_SERVER_ID : Z := 2.
Definition OPTION6_IA_NA : Z := 3.
Definition OPTION6_IA_TA : Z := 4.
Definition OPTION6_IAADDR : Z := 5.
Definition OPTION6_PREFERENCE : Z := 7.
Definition OPTION6_RELAY_MSG : Z := 9.
Definition OPTION6_STATUS_CODE : Z := 13.
Definition OPTION6_RAPID_COMMIT : Z := 14.

(** ** Messages *)

Record Dhcp6Option : Type := mkOption6 { o6_code : Z; o6_data : list u8 }.
(** The message of rfc3315.rs, with its options parsed. *)
Record Dhcp6Message : Type := mkMessage6 { m6_type : Dhcp6MsgType; m6_txn : list u8; m6_options : list Dhcp6Option }.
Inductive Dhcp6Error : Type := TooShort | InvalidMsgType (b : Z) | MalformedOption.

(** [while !c.is_empty()]; every option takes at least four bytes. *)
Fixpoint parse_options6 (fuel : nat) (c : ByteCursor) (options : list Dhcp6Option) : result (list Dhcp6Option) Dhcp6Error :=
  match fuel with
  | O => Err MalformedOption
  | S fuel =>
    if Cursor.is_empty c then Ok options
    else
      let? (code, c) := ok_or (Cursor.read_u16_be c) MalformedOption in
      let? (len, c) := ok_or (Cursor.read_u16_be c) MalformedOption in
      let? (data, c) := ok_or (Cursor.read_slice c (Z.to_nat len)) MalformedOption in
      parse_options6 fuel c (options ++ [mkOption6 code data])
  end.
Definition parse_message6 (pkt : list u8) : result Dhcp6Message Dhcp6Error :=
  match pkt with
  | b :: x1 :: x2 :: x3 :: _ =>
    match Dhcp6MsgType_from_u8 (u8z b) with
    | None => Err (InvalidMsgType (u8z b))
    | Some t => let? options := parse_options6 (S (length pkt)) (Cursor.at_ pkt 4) [] in Ok (mkMessage6 t [x1; x2; x3] options)
    end
  | _ => Err TooShort
  end.

Definition enc_option6 (o : Dhcp6Option) : list u8 := to_be 2 (o6_code o) ++ to_be 2 (as_u16 (Z.of_nat (length (o6_data o)))) ++ o6_data o.
Definition write_message6 (m : Dhcp6Message) : list u8 :=
  z8 (Dhcp6MsgType_as (m6_type m)) :: m6_txn m ++ concat (enc_option6 <$> m6_options m).
Definition find_parsed6 (opts : list Dhcp6Option) (code : Z) : option Dhcp6Option := List.find (fun o => o6_code o =? code) opts.

(** ** Lifetimes and status *)

(** Preferred and valid lifetime, T1 and T2; [preferred * 4] can overflow. *)
Definition calculate_times (lease_time : Z) : outcome (Z * Z * Z * Z) :=
  if lease_time =? 0xFFFFFFFF then Val (0xFFFFFFFF, 0xFFFFFFFF, 0xFFFFFFFF, 0xFFFFFFFF)
  else if 4294967295 <? lease_time * 4 then Panic
  else Val (lease_time, lease_time, lease_time / 2, lease_time * 4 / 5).

Definition STATUS_SUCCESS : Z := 0.
Definition STATUS_UNSPEC_FAIL : Z := 1.
Definition STATUS_NO_ADDRS_AVAIL : Z := 2.
Definition STATUS_NO_BINDING : Z := 3.
Definition STATUS_NOT_ON_LINK : Z := 4.
Definition STATUS_USE_MULTICAST : Z := 5.
Definition build_status_code (code : Z) (message : str) : list u8 := to_be 2 code ++ message.
Definition status_success : Dhcp6Option := mkOption6 OPTION6_STATUS_CODE [Byte.x00; Byte.x00].

(** ** Simple replies *)

Definition build_ia_na (iaid : list u8) (addr : Ipv6Addr) (lease_time : Z) : outcome Dhcp6Option :=
  let# (preferred_lt, valid_lt, t1, t2) := calculate_times lease_time in
  let iaaddr_data := octets6 addr ++ to_be 4 preferred_lt ++ to_be 4 valid_lt in
  Val (mkOption6 OPTION6_IA_NA (iaid ++ to_be 4 t1 ++ to_be 4 t2 ++ to_be 2 OPTION6_IAADDR
         ++ to_be 2 (as_u16 (Z.of_nat (length iaaddr_data))) ++ iaaddr_data)).
(** The client's identifier of its association, zeros by default. *)
Definition iaid_of (options : list Dhcp6Option) : list u8 :=
  match find_parsed6 options OPTION6_IA_NA with
  | Some ia => if (4 <=? length (o6_data ia))%nat then take 4 (o6_data ia) else replicate 4 Byte.x00
  | None => replicate 4 Byte.x00
  end.
Definition client_id_of (options : list Dhcp6Option) : Dhcp6Option := default (mkOption6 OPTION6_CLIENT_ID []) (find_parsed6 options OPTION6_CLIENT_ID).
Definition simple_reply (t : Dhcp6MsgType) (m : Dhcp6Message) (server_duid : list u8) (addr : Ipv6Addr) (lease_time : Z) : outcome Dhcp6Message :=
  let# ia := build_ia_na (iaid_of (m6_options m)) addr lease_time in
  Val (mkMessage6 t (m6_txn m) [client_id_of (m6_options m); mkOption6 OPTION6_SERVER_ID server_duid; ia; status_success]).
Definition handle_solicit := simple_reply Advertise.
Definition handle_request6 := simple_reply Reply.

(** ** Options in raw bytes *)

(** Every option that is passed takes at least four bytes. *)
Fixpoint opt6_find_loop (fuel : nat) (opts : list u8) (search : Z) (minsize : nat) : option (list u8) :=
  match fuel with
  | O => None
  | S fuel =>
    let c := Cursor.new opts in
    let! (code, c) := Cursor.read_u16_be c in
    let! (len, _) := Cursor.read_u16_be c in
    let len := Z.to_nat len in
    if (length opts <? 4 + len)%nat then None
    else if (code =? search) && (minsize <=? len)%nat then Some (take (4 + len) opts)
    else opt6_find_loop fuel (drop (4 + len) opts) search minsize
  end.
Definition opt6_find (opts : list u8) (search : Z) (minsize : nat) : option (list u8) := opt6_find_loop (S (length opts)) opts search minsize.

Definition opt6_next (opts : list u8) : option (list u8) :=
  let! c := Cursor.advance (Cursor.new opts) 2 in
  let! (len, _) := Cursor.read_u16_be c in
  let next := (4 + Z.to_nat len)%nat in
  if (length opts <=? next)%nat then None else Some (drop next opts).

Definition opt6_uint (opt : list u8) (offset size : nat) : Z :=
  if (size =? 0)%nat || (4 <? size)%nat || (length opt <? offset + size)%nat then 0
  else fold_left (fun result b => Z.lor (as_u32 (Z.shiftl result 8)) (u8z b)) (take size (drop offset opt)) 0.
Definition opt6_type (opt : list u8) : Z := as_u16 (opt6_uint opt 0 2).
Definition opt6_len (opt : list u8) : nat := Z.to_nat (opt6_uint opt 2 2).
(** All that follows the header, the next options too. *)
Definition opt6_data (opt : list u8) : list u8 := drop 4 opt.

(** ** Relays *)

Inductive Dhcp6ReplyResult : Type := ClientReply (data : list u8) | RelayReply (data : list u8) | Drop.

Definition dhcp6_reply_validate (data : list u8) (multicast_dest : bool) : result Dhcp6MsgType str :=
  match data with
  | b :: _ =>
    if (length data <=? 4)%nat then Err (bs "packet too short")
    else
      let? t := ok_or (Dhcp6MsgType_from_u8 (u8z b)) (bs "unknown message type") in
      if negb (bool_decide (t = RelayForw)) && negb multicast_dest then Err (bs "non-relay request must be multicast") else Ok t
  | [] => Err (bs "packet too short")
  end.

Record Dhcp6Relay : Type := mkRelay6 { y6_type : Z; y6_hops : Z; y6_link : Ipv6Addr; y6_peer : Ipv6Addr; y6_options : list u8 }.
Definition parse_relay_msg (data : list u8) : result Dhcp6Relay Dhcp6Error :=
  if (length data <? 34)%nat then Err TooShort
  else Ok (mkRelay6 (u8_at data 0) (u8_at data 1) (of_be (take 16 (drop 2 data))) (of_be (take 16 (drop 18 data))) (drop 34 data)).
Definition build_relay_reply (hop_count : Z) (link_addr peer_addr : Ipv6Addr) (inner_reply : list u8) : list u8 :=
  [z8 13; z8 hop_count] ++ octets6 link_addr ++ octets6 peer_addr ++ to_be 2 OPTION6_RELAY_MSG
  ++ to_be 2 (as_u16 (Z.of_nat (length inner_reply))) ++ inner_reply.

(** [while i + 4 <= opts.len()]: the value of the first option with the code;
    every option that is passed takes at least four bytes. *)
Fixpoint scan_options (fuel : nat) (opts : list u8) (code : Z) (i : nat) : option (list u8) :=
  match fuel with
  | O => None
  | S fuel =>
    if (i + 4 <=? length opts)%nat then
      let len := Z.to_nat (be16_at opts (i + 2)) in
      if (length opts <? i + 4 + len)%nat then None
      else if be16_at opts i =? code then Some (take len (drop (i + 4) opts))
      else scan_options fuel opts code (i + 4 + len)
    else None
  end.
Definition extract_relay_inner (relay : Dhcp6Relay) : option (list u8) := scan_options (S (length (y6_options relay))) (y6_options relay) OPTION6_RELAY_MSG 0.

(** ** Identity associations *)

Definition IA_NA : Z := 3.
Definition IA_TA : Z := 4.
Definition check_ia (ia_type : Z) (opt_data : list u8) : option (Z * Z) :=
  if ia_type =? IA_NA then if (length opt_data <? 12)%nat then None else Some (be32_at opt_data 0, IA_NA)
  else if ia_type =? IA_TA then if (length opt_data <? 4)%nat then None else Some (be32_at opt_data 0, IA_TA)
  else None.
Definition build_ia (iaid t1 t2 : Z) : list u8 := to_be 4 iaid ++ to_be 4 t1 ++ to_be 4 t2.
Definition end_ia (buf : list u8) (t1 t2 : Z) (fuzz : bool) : list u8 :=
  if (length buf <? 12)%nat then buf
  else
    let '(t1_val, t2_val) := if fuzz && (20 <? t1) && (20 <? t2) then (t1 - t1 / 20, t2 - t2 / 20) else (t1, t2) in
    take 4 buf ++ to_be 4 t1_val ++ to_be 4 t2_val ++ drop 12 buf.

(** ** Log lines *)

(** [{n:3}]: at least three characters wide. *)
Definition fmt_pad3 (n : Z) : str := replicate (3 - length (fmt_u n)) space ++ fmt_u n.
(** [from_utf8(b).unwrap_or("")]. *)
Definition utf8_or_empty (b : list u8) : str := if utf8_valid b then b else [].

(** The name and details of an option, and the options within. *)
Definition describe6 (cursor : list u8) : str * str * option (list u8) :=
  let t := opt6_type cursor in
  let data := opt6_data cursor in
  let after n := if (n <? length data)%nat then Some (drop n data) else None in
  if t =? OPTION6_IA_NA then
    (bs "ia-na", bs "IAID=" ++ fmt_u (opt6_uint cursor 4 4) ++ bs " T1=" ++ fmt_u (opt6_uint cursor 8 4) ++ bs " T2=" ++ fmt_u (opt6_uint cursor 12 4), after 12%nat)
  else if t =? OPTION6_IA_TA then (bs "ia-ta", bs "IAID=" ++ fmt_u (opt6_uint cursor 4 4), after 4%nat)
  else if t =? OPTION6_IAADDR then
    let addr := if (16 <=? length data)%nat then of_be (take 16 data) else 0 in
    (bs "iaaddr", fmt_ipv6 addr ++ bs " PL=" ++ fmt_u (opt6_uint cursor 20 4) ++ bs " VL=" ++ fmt_u (opt6_uint cursor 24 4), after 24%nat)
  else if t =? OPTION6_STATUS_CODE then (bs "status", fmt_u (opt6_uint cursor 4 2) ++ bs " " ++ utf8_or_empty (drop 2 data), None)
  else (bs "unknown", fmt_u (Z.of_nat (opt6_len cursor)) ++ bs " bytes", None).

(** A line for every option; the options within and the next one are both in
    less than what follows the header. *)
Fixpoint log6_loop (fuel : nat) (cursor : list u8) (xid : Z) (nest : bool) : list str :=
  match fuel with
  | O => []
  | S fuel =>
    if (length cursor <? 4)%nat then []
    else
      let '(optname, detail, within) := describe6 cursor in
      let line := fmt_u xid ++ bs " " ++ bs (if nest then "nest" else "sent") ++ bs " size:" ++ fmt_pad3 (Z.of_nat (opt6_len cursor))
        ++ bs " option:" ++ fmt_pad3 (opt6_type cursor) ++ bs " " ++ optname ++ bs "  " ++ detail in
      line :: match within with Some sub => log6_loop fuel sub xid true | None => [] end
           ++ match opt6_next cursor with Some next => log6_loop fuel next xid nest | None => [] end
  end.
Definition log6_opts (opts : list u8) (xid : Z) (nest : bool) : list str := log6_loop (S (length opts)) opts xid nest.

Definition log6_packet (xid : Z) (msg_type iface : str) (clid : list u8) (addr : option Ipv6Addr) (extra : option str) (log_opts : bool) : str :=
  let clid_display := join (bs ":") ((fun b => fmt_hex 2 (u8z b)) <$> take 100 clid) in
  let addr_str := match addr with Some a => fmt_ipv6 a ++ bs " " | None => [] end in
  (if log_opts then fmt_u xid ++ bs " " else []) ++ msg_type ++ bs "(" ++ iface ++ bs ") " ++ addr_str ++ clid_display ++ bs " " ++ default [] extra.
Definition log6_quiet (log_opts quiet : bool) (xid : Z) (msg_type iface : str) (clid : list u8) (addr : option Ipv6Addr) (extra : option str) : option str :=
  if log_opts || negb quiet then Some (log6_packet xid msg_type iface clid addr extra log_opts) else None.
