(* ===== verification/Dhcp6.v ===== *)
(** * The DHCPv6 server: src/src/dhcp6.rs

    The handlers of the client messages over the lease database, the choice of
    an address, the ranges in force on an interface, and the identifiers of the
    server. The socket and the neighbour table are I/O; what a handler reads of
    the clock is a parameter. Log lines are left out. *)

From Stdlib Require Import ZArith Lia String.
From stdpp Require Import base numbers list option gmap.
From S2P Require Import Prelude ByteCursor Types Util StdText DhcpTypes DhcpCommon Lease LeaseFile Edns0 Rfc3315.

#[local] Open Scope Z_scope.

(** ** Messages *)

Record Dhcp6Packet : Type := mkPacket6 { p6_type : Dhcp6MsgType; p6_xid : Z; p6_options : list u8 }.
Record Dhcp6RelayMsg : Type := mkRelayMsg6 { r6_type : Dhcp6MsgType; r6_hops : Z; r6_link : Ipv6Addr; r6_peer : Ipv6Addr; r6_options : list u8 }.

Definition parse_dhcp6_packet (data : list u8) : result Dhcp6Packet (option Dhcp6RelayMsg) :=
  match data with
  | b :: x1 :: x2 :: x3 :: options =>
    match Dhcp6MsgType_from_u8 (u8z b) with
    | None => Err None
    | Some t =>
      if bool_decide (t = RelayForw) || bool_decide (t = RelayRepl) then
        if (length data <? 34)%nat then Err None
        else Err (Some (mkRelayMsg6 t (u8_at data 1) (of_be (take 16 (drop 2 data))) (of_be (take 16 (drop 18 data))) (drop 34 data)))
      else Ok (mkPacket6 t (of_be [Byte.x00; x1; x2; x3]) options)
    end
  | _ => Err None
  end.
Definition find_option6 (options : list u8) (code : Z) : option (list u8) := scan_options (S (length options)) options code 0.

Record Dhcp6Reply : Type := mkReply6 { rp_type : Dhcp6MsgType; rp_xid : Z; rp_options : list u8 }.
Definition to_wire6 (r : Dhcp6Reply) : list u8 :=
  [z8 (Dhcp6MsgType_as (rp_type r)); z8 (Z.land (Z.shiftr (rp_xid r) 16) 0xFF); z8 (Z.land (Z.shiftr (rp_xid r) 8) 0xFF); z8 (Z.land (rp_xid r) 0xFF)]
  ++ rp_options r.

(** ** Parts of a reply *)

Definition build_option6 (code : Z) (data : list u8) : list u8 := to_be 2 code ++ to_be 2 (as_u16 (Z.of_nat (length data))) ++ data.
Definition iaaddr_suboption (addr : Ipv6Addr) (preferred valid : Z) : list u8 :=
  build_option6 OPTION6_IAADDR (octets6 addr ++ to_be 4 preferred ++ to_be 4 valid).
Definition status_option (code : Z) (message : str) : list u8 := build_option6 OPTION6_STATUS_CODE (build_status_code code message).
Definition build_ia_na_option (iaid : list u8) (t1 t2 : Z) (suboption : list u8) : list u8 :=
  build_option6 OPTION6_IA_NA (iaid ++ to_be 4 t1 ++ to_be 4 t2 ++ suboption).

Definition extract_client_id (pkt : Dhcp6Packet) : list u8 := default [] (find_option6 (p6_options pkt) OPTION6_CLIENT_ID).
Definition extract_ia (pkt : Dhcp6Packet) : option (list u8 * Z) :=
  let! ia_data := find_option6 (p6_options pkt) OPTION6_IA_NA in
  if (length ia_data <? 4)%nat then None else Some (ia_data, be32_at ia_data 0).
Definition ia_na_first_addr (ia_data : list u8) : option Ipv6Addr :=
  if (length ia_data <=? 12)%nat then None
  else
    let! iaaddr := find_option6 (drop 12 ia_data) OPTION6_IAADDR in
    let! bytes := slice iaaddr 0 16 in
    Some (of_be bytes).

(** ** Addresses and ranges *)

(** The low and high 64 bits. *)
Definition addr6part (addr : Ipv6Addr) : Z := of_be (drop 8 (octets6 addr)).
Definition addr6_with_host (base : Ipv6Addr) (host : Z) : Ipv6Addr := of_be (take 8 (octets6 base) ++ to_be 8 host).

Fixpoint same_net_bytes (a b : list u8) (remaining : Z) : bool :=
  match a, b with
  | x :: a, y :: b =>
    if remaining =? 0 then true
    else if 8 <=? remaining then if bool_decide (x = y) then same_net_bytes a b (remaining - 8) else false
    else
      let mask := u8z (z8 (Z.shiftl 0xFF (8 - remaining))) in
      Z.land (u8z x) mask =? Z.land (u8z y) mask
  | _, _ => true
  end.
(** [prefix_len as usize] of a negative number is huge. *)
Definition is_same_net6 (a b : Ipv6Addr) (prefix_len : Z) : bool := same_net_bytes (octets6 a) (octets6 b) (as_u64 prefix_len).

Definition address6_available (contexts : list DhcpContext) (addr : Ipv6Addr) : bool :=
  existsb (fun ctx => negb (has (cx_flags ctx) (ContextFlags.STATIC ∣∣ ContextFlags.RA_STATELESS)) && is_same_net6 (cx_start6 ctx) addr (cx_prefix ctx)
                      && (addr6part (cx_start6 ctx) <=? addr6part addr) && (addr6part addr <=? addr6part (cx_end6 ctx))) contexts.
Definition address6_valid (contexts : list DhcpContext) (addr : Ipv6Addr) : bool :=
  existsb (fun ctx => is_same_net6 (cx_start6 ctx) addr (cx_prefix ctx)) contexts.
Definition config_find_by_address6 (configs : list DhcpConfig) (addr : Ipv6Addr) : bool :=
  existsb (fun config => has (cf_flags config) ConfigFlags.ADDR6
    && existsb (fun a6 => match a6 with Addr6 v6 => is_same_net6 v6 addr 128 | _ => false end) (cf_addr6 config)) configs.

Definition context_for_addr (contexts : list DhcpContext) (addr : Ipv6Addr) : option DhcpContext :=
  List.find (fun c => is_same_net6 (cx_start6 c) addr (cx_prefix c)) contexts.
Definition compute_times_for_addr (contexts : list DhcpContext) (addr : Ipv6Addr) : outcome (Z * Z * Z * Z) :=
  calculate_times (match context_for_addr contexts addr with Some c => cx_lease_time c | None => 3600 end).

(** ** Allocation *)

Definition sdbm_step (j : Z) (b : u8) : Z := as_u64 (as_u64 (as_u64 (u8z b + as_u64 (Z.shiftl j 6)) + as_u64 (Z.shiftl j 16)) - j).
Definition sdbm_hash64 (clid : list u8) (iaid : Z) : Z := fold_left sdbm_step clid iaid.
Definition hash_to_addr6 (hash epoch start_low end_low : Z) : Z :=
  let range := as_u64 (as_u64 (end_low - start_low) + 1) in
  let offset := as_u64 (hash + epoch) in
  if range =? 0 then as_u64 (start_low + offset) else as_u64 (start_low + offset mod range).

(** At most [p] steps, until one gives a result. *)
Fixpoint iter_until {S R} (p : positive) (f : S -> S + R) (s : S) : S + R :=
  match p with
  | xH => f s
  | xO p => match iter_until p f s with inl s => iter_until p f s | r => r end
  | xI p => match f s with
            | inl s => match iter_until p f s with inl s => iter_until p f s | r => r end
            | r => r
            end
  end.

(** One address of the scan: the result is the address to take, or that the
    scan is back at its start. *)
Definition scan_step (contexts : list DhcpContext) (ctx : DhcpContext) (in_use : Ipv6Addr -> bool) (start_addr addr : Z) : Z + option Ipv6Addr :=
  let candidate := addr6_with_host (cx_start6 ctx) addr in
  if negb (existsb (fun d => addr6part (cx_local6 d) =? addr) contexts) && negb (in_use candidate) then inr (Some candidate)
  else
    let addr := if addr =? addr6part (cx_end6 ctx) then addr6part (cx_start6 ctx) else as_u64 (addr + 1) in
    if addr =? start_addr then inr None else inl addr.
(** The scan comes back after as many steps as the range has addresses, of
    which there are at most [2 ^ 64]. *)
Definition scan_range6 (contexts : list DhcpContext) (ctx : DhcpContext) (in_use : Ipv6Addr -> bool) (hash : Z) : option Ipv6Addr :=
  let start_addr := hash_to_addr6 hash (cx_addr_epoch ctx) (addr6part (cx_start6 ctx)) (addr6part (cx_end6 ctx)) in
  match iter_until 18446744073709551616 (scan_step contexts ctx in_use start_addr) start_addr with inr r => r | inl _ => None end.
Definition allocates_from (netids : list DhcpNetid) (ctx : DhcpContext) : bool :=
  negb (has (cx_flags ctx) (ContextFlags.DEPRECATE ∣∣ ContextFlags.STATIC ∣∣ ContextFlags.RA_STATELESS ∣∣ ContextFlags.USED))
  && ((length (cx_filter ctx) =? 0)%nat || match_netid (cx_filter ctx) netids).
Fixpoint allocate_in (chain contexts : list DhcpContext) (netids : list DhcpNetid) (in_use : Ipv6Addr -> bool) (hash : Z) : option Ipv6Addr :=
  match chain with
  | [] => None
  | ctx :: rest =>
    if negb (allocates_from netids ctx) then allocate_in rest contexts netids in_use hash
    else match scan_range6 contexts ctx in_use hash with
         | Some addr => Some addr
         | None => allocate_in rest contexts netids in_use hash
         end
  end.
Definition address6_allocate (contexts : list DhcpContext) (clid : list u8) (iaid : Z) (netids : list DhcpNetid) (in_use : Ipv6Addr -> bool) : option Ipv6Addr :=
  allocate_in contexts contexts netids in_use (sdbm_hash64 clid iaid).

(** ** Handlers *)

Section Server.
Context `{HashOrder}.

(** What the handlers share: [Dhcp6RequestContext] without the database, which
    they pass on. *)
Record Dhcp6RequestContext : Type := mkReqCtx {
  rx_contexts : list DhcpContext; rx_configs : list DhcpConfig; rx_authoritative : bool; rx_now_secs : Z }.

Definition addr_in_use (db : LeaseDb) (configs : list DhcpConfig) (addr : Ipv6Addr) : bool :=
  bool_decide (is_Some (find_v6_by_addr addr db)) || config_find_by_address6 configs addr.
Definition check_address (db : LeaseDb) (clid : list u8) (iaid : Z) (addr : Ipv6Addr) : bool :=
  match find_v6_by_addr addr db with
  | None => true
  | Some l => bool_decide (dl_clid l = Some clid) && (dl_iaid l =? iaid)
  end.
(** Is the address still in a range or on the link? *)
Definition plausible (contexts : list DhcpContext) (addr : Ipv6Addr) : bool := address6_available contexts addr || address6_valid contexts addr.

(** That the database can be full is not noticed. *)
Definition persist_lease (db : LeaseDb) (clid : list u8) (iaid : Z) (addr : Ipv6Addr) (contexts : list DhcpContext) (now_secs : Z)
  : outcome (Z * Z * Z * Z * LeaseDb) :=
  let# (preferred, valid, t1, t2) := compute_times_for_addr contexts addr in
  let# expires := (if valid =? 0xFFFFFFFF then Val None
                   else let# t := unix_time (Z.min 18446744073709551615 (now_secs + valid)) in Val (Some t)) in
  Val (preferred, valid, t1, t2, default db (bind_v6 addr clid iaid LeaseFlags.NA expires db)).

Definition select_address_for_ia (contexts : list DhcpContext) (configs : list DhcpConfig) (db : LeaseDb) (client_id : list u8) (iaid : Z)
    (requested : option Ipv6Addr) : option Ipv6Addr :=
  let fresh := address6_allocate contexts client_id iaid [] (addr_in_use db configs) in
  let known := match find_v6_by_client_iaid client_id iaid db with
               | Some l => if address6_available contexts (dl_addr6 l) then Some (dl_addr6 l) else fresh
               | None => fresh
               end in
  match requested with
  | Some r => if address6_valid contexts r && address6_available contexts r && check_address db client_id iaid r then Some r else known
  | None => known
  end.

(** The client's and the server's identifiers open every reply. *)
Definition ids_options (duid client_id : list u8) : list u8 := build_option6 OPTION6_CLIENT_ID client_id ++ build_option6 OPTION6_SERVER_ID duid.
Definition no_addresses : list u8 := status_option STATUS_NO_ADDRS_AVAIL (bs "no addresses available").
Definition success : list u8 := status_option STATUS_SUCCESS (bs "success").

Definition no_ia_reply (reply_type : Dhcp6MsgType) (xid : Z) (duid client_id : list u8) : Dhcp6Reply :=
  mkReply6 reply_type xid (ids_options duid client_id ++ no_addresses).

Definition build_solicit_style_reply (xid : Z) (duid client_id : list u8) (iaid : Z) (ctx : Dhcp6RequestContext) (db : LeaseDb)
    (addr : option Ipv6Addr) (persist : bool) (reply_type : Dhcp6MsgType) (include_rapid_commit_opt : bool) : outcome (Dhcp6Reply * LeaseDb) :=
  let# (preferred, valid, t1, t2, db) :=
    match addr with
    | Some a =>
      if persist then persist_lease db client_id iaid a (rx_contexts ctx) (rx_now_secs ctx)
      else let# (preferred, valid, t1, t2) := compute_times_for_addr (rx_contexts ctx) a in Val (preferred, valid, t1, t2, db)
    | None => Val (0, 0, 0, 0, db)
    end in
  let ia_sub := match addr with
                | Some a => iaaddr_suboption a preferred valid
                | None => status_option STATUS_NO_ADDRS_AVAIL (bs "address unavailable")
                end in
  let options := ids_options duid client_id ++ (if include_rapid_commit_opt then build_option6 OPTION6_RAPID_COMMIT [] else [])
    ++ build_ia_na_option (to_be 4 iaid) t1 t2 ia_sub
    ++ match addr with
       | Some _ => success ++ build_option6 OPTION6_PREFERENCE [z8 (if rx_authoritative ctx then 255 else 0)]
       | None => no_addresses
       end in
  Val (mkReply6 reply_type xid options, db).

Definition dispatch_solicit (pkt : Dhcp6Packet) (duid : list u8) (ctx : Dhcp6RequestContext) (db : LeaseDb) : outcome (option Dhcp6Reply * LeaseDb) :=
  let client_id := extract_client_id pkt in
  let rapid_commit := bool_decide (is_Some (find_option6 (p6_options pkt) OPTION6_RAPID_COMMIT)) in
  let reply_type := if rapid_commit then Reply else Advertise in
  match extract_ia pkt with
  | None => Val (Some (no_ia_reply reply_type (p6_xid pkt) duid client_id), db)
  | Some (ia_data, iaid) =>
    let addr := select_address_for_ia (rx_contexts ctx) (rx_configs ctx) db client_id iaid (ia_na_first_addr ia_data) in
    let# (reply, db) := build_solicit_style_reply (p6_xid pkt) duid client_id iaid ctx db addr rapid_commit reply_type rapid_commit in
    Val (Some reply, db)
  end.

(** Is the address requested granted, or what is the status? *)
Definition request_verdict (ctx : Dhcp6RequestContext) (db : LeaseDb) (client_id : list u8) (iaid : Z) (req_addr : Ipv6Addr) : option (Z * str) :=
  let on_link := address6_valid (rx_contexts ctx) req_addr in
  let dynamic := address6_available (rx_contexts ctx) req_addr in
  if dynamic || on_link then
    if negb dynamic && negb (config_find_by_address6 (rx_configs ctx) req_addr) then Some (STATUS_NO_ADDRS_AVAIL, bs "address unavailable")
    else if negb (check_address db client_id iaid req_addr) then Some (STATUS_UNSPEC_FAIL, bs "address in use")
    else None
  else Some (STATUS_NOT_ON_LINK, bs "not on link").
Definition dispatch_request (pkt : Dhcp6Packet) (duid : list u8) (ctx : Dhcp6RequestContext) (db : LeaseDb) : outcome (option Dhcp6Reply * LeaseDb) :=
  let client_id := extract_client_id pkt in
  match extract_ia pkt with
  | None => Val (Some (no_ia_reply Reply (p6_xid pkt) duid client_id), db)
  | Some (ia_data, iaid) =>
    match ia_na_first_addr ia_data with
    | None =>
      let addr := select_address_for_ia (rx_contexts ctx) (rx_configs ctx) db client_id iaid None in
      let# (reply, db) := build_solicit_style_reply (p6_xid pkt) duid client_id iaid ctx db addr true Reply false in
      Val (Some reply, db)
    | Some req_addr =>
      let reply ia top := Some (mkReply6 Reply (p6_xid pkt) (ids_options duid client_id ++ ia ++ top)) in
      match request_verdict ctx db client_id iaid req_addr with
      | None =>
        let# (preferred, valid, t1, t2, db) := persist_lease db client_id iaid req_addr (rx_contexts ctx) (rx_now_secs ctx) in
        Val (reply (build_ia_na_option (to_be 4 iaid) t1 t2 (iaaddr_suboption req_addr preferred valid)) success, db)
      | Some (code, msg) => Val (reply (build_ia_na_option (to_be 4 iaid) 0 0 (status_option code msg)) no_addresses, db)
      end
    end
  end.

Definition dispatch_renew_rebind (pkt : Dhcp6Packet) (duid : list u8) (ctx : Dhcp6RequestContext) (is_rebind : bool) (db : LeaseDb)
  : outcome (option Dhcp6Reply * LeaseDb) :=
  let client_id := extract_client_id pkt in
  match extract_ia pkt with
  | None => Val (None, db)
  | Some (ia_data, iaid) =>
    match ia_na_first_addr ia_data with
    | None => Val (None, db)
    | Some addr =>
      let reply ia top := Some (mkReply6 Reply (p6_xid pkt) (ids_options duid client_id ++ ia ++ top)) in
      let grant :=
        let# (preferred, valid, t1, t2, db) := persist_lease db client_id iaid addr (rx_contexts ctx) (rx_now_secs ctx) in
        Val (reply (build_ia_na_option (to_be 4 iaid) t1 t2 (iaaddr_suboption addr preferred valid)) success, db) in
      if bool_decide (find_v6_by_clid_iaid client_id iaid addr db = None) then
        if is_rebind && rx_authoritative ctx && plausible (rx_contexts ctx) addr then grant
        else Val (reply (build_ia_na_option (to_be 4 iaid) 0 0 (status_option STATUS_NO_BINDING (bs "no binding found")))
                    (if is_rebind then no_addresses else []), db)
      else if negb (plausible (rx_contexts ctx) addr) then
        Val (reply (build_ia_na_option (to_be 4 iaid) 0 0 (iaaddr_suboption addr 0 0)) success, db)
      else grant
    end
  end.

Definition dispatch_confirm (pkt : Dhcp6Packet) (duid : list u8) (contexts : list DhcpContext) : option Dhcp6Reply :=
  let! (ia_data, _) := extract_ia pkt in
  let! addr := ia_na_first_addr ia_data in
  Some (mkReply6 Reply (p6_xid pkt) (ids_options duid (extract_client_id pkt)
    ++ (if address6_valid contexts addr then status_option STATUS_SUCCESS (bs "all addresses still on link")
        else status_option STATUS_NOT_ON_LINK (bs "confirm failed")))).

Definition dispatch_release_or_decline (pkt : Dhcp6Packet) (duid : list u8) (is_decline : bool) (db : LeaseDb) : option Dhcp6Reply * LeaseDb :=
  let client_id := extract_client_id pkt in
  let '(ia, db) := match extract_ia pkt with
    | None => ([], db)
    | Some (ia_data, iaid) =>
      match ia_na_first_addr ia_data with
      | None => ([], db)
      | Some addr =>
        let '(removed, db) := remove_v6_by_clid_iaid_addr client_id iaid addr db in
        (if (removed : bool) then [] else build_ia_na_option (to_be 4 iaid) 0 0 (status_option STATUS_NO_BINDING (bs "no binding found")), db)
      end
    end in
  (Some (mkReply6 Reply (p6_xid pkt) (ids_options duid client_id ++ ia
     ++ status_option STATUS_SUCCESS (bs (if is_decline then "success" else "release received")))), db).

Definition dispatch_inforeq (pkt : Dhcp6Packet) (duid : list u8) : option Dhcp6Reply :=
  if bool_decide (is_Some (find_option6 (p6_options pkt) OPTION6_IA_NA)) || bool_decide (is_Some (find_option6 (p6_options pkt) OPTION6_IA_TA)) then None
  else Some (mkReply6 Reply (p6_xid pkt) (ids_options duid (extract_client_id pkt))).

Definition dispatch_dhcp6 (pkt : Dhcp6Packet) (duid : list u8) (ctx : Dhcp6RequestContext) (db : LeaseDb) : outcome (option Dhcp6Reply * LeaseDb) :=
  match p6_type pkt with
  | Solicit => dispatch_solicit pkt duid ctx db
  | Request => dispatch_request pkt duid ctx db
  | Renew => dispatch_renew_rebind pkt duid ctx false db
  | Rebind => dispatch_renew_rebind pkt duid ctx true db
  | Confirm => Val (dispatch_confirm pkt duid (rx_contexts ctx), db)
  | Release => Val (dispatch_release_or_decline pkt duid false db)
  | Decline => Val (dispatch_release_or_decline pkt duid true db)
  | InfoReq => Val (dispatch_inforeq pkt duid, db)
  | RelayForw | RelayRepl | Advertise | Reply | Reconfigure => Val (None, db)
  end.
End Server.

(** [ff02::1]. *)
Definition ALL_NODES : Ipv6Addr := 0xff02 * 2 ^ 112 + 1.
Definition dhcp6_reply_dest (src : MySockAddr) (port_override : option Z) : MySockAddr :=
  let port := default DHCPV6_CLIENT_PORT port_override in
  match src with
  | SV6 ip _ _ scope_id => SV6 ip port 0 scope_id
  | SV4 _ _ => SV6 ALL_NODES port 0 0
  end.

(** ** Ranges and interfaces *)

(** The first 16 bits of an address. *)
Definition segment0 (addr : Ipv6Addr) : Z := of_be (take 2 (octets6 addr)).
Definition is_link_local_v6 (addr : Ipv6Addr) : bool := Z.land (segment0 addr) 0xffc0 =? 0xfe80.
Definition is_ula_v6 (addr : Ipv6Addr) : bool := Z.land (segment0 addr) 0xfe00 =? 0xfc00.
Inductive Addr6Class : Type := Loopback | LinkLocal | Ula | Multicast | Global.
#[global] Instance Addr6Class_eq_dec : EqDecision Addr6Class.
Proof. solve_decision. Defined.
Definition classify_addr6 (addr : Ipv6Addr) : Addr6Class :=
  if addr =? 1 then Loopback
  else if is_link_local_v6 addr then LinkLocal
  else if Z.shiftr (segment0 addr) 8 =? 0xff then Multicast
  else if is_ula_v6 addr then Ula else Global.

Record LiveAddr6 : Type := mkLive { lv_addr : Ipv6Addr; lv_prefix : Z; lv_if_index : Z; lv_preferred : Z; lv_valid : Z; lv_deprecated : bool }.
(** An address that never takes part in matching. *)
Definition unmatchable (live : LiveAddr6) : bool := bool_decide (classify_addr6 (lv_addr live) ∈ [Loopback; LinkLocal; Multicast]).
(** The address lies in the range's prefix and is no narrower. *)
Definition covers_range (live : LiveAddr6) (ctx : DhcpContext) : bool :=
  (lv_prefix live <=? cx_prefix ctx) && is_same_net6 (lv_addr live) (cx_start6 ctx) (cx_prefix ctx) && is_same_net6 (lv_addr live) (cx_end6 ctx) (cx_prefix ctx).
Definition on_interface (live : LiveAddr6) (valid preferred : Z) (c : DhcpContext) : DhcpContext :=
  mkContext (cx_lease_time c) (cx_addr_epoch c) (cx_netmask c) (cx_broadcast c) (cx_local c) (cx_router c) (cx_start c) (cx_end c) (cx_flags c)
    (cx_netid c) (cx_filter c) (cx_start6 c) (cx_end6 c) (lv_addr live) (cx_prefix c) (lv_if_index live) valid preferred (cx_ra_time c)
    (cx_ra_short_period_start c) (cx_saved_valid c) (cx_address_lost_time c).

(** Behind all entries with a longer preferred lifetime. *)
Fixpoint insert_preferred (m : DhcpContext) (current : list DhcpContext) : list DhcpContext :=
  match current with
  | [] => [m]
  | c :: rest => if cx_preferred c <=? cx_preferred m then m :: current else c :: insert_preferred m rest
  end.
(** The range as it is in force with the address, if it is. *)
Definition matched_context (live : LiveAddr6) (ctx : DhcpContext) : option DhcpContext :=
  if negb (has (cx_flags ctx) ContextFlags.DHCP) || has (cx_flags ctx) (ContextFlags.TEMPLATE ∣∣ ContextFlags.OLD) || negb (covers_range live ctx) then None
  else
    let '(preferred, valid) := if negb (has (cx_flags ctx) ContextFlags.CONSTRUCTED) then (0xffffffff, 0xffffffff)
                               else (if lv_deprecated live then 0 else lv_preferred live, lv_valid live) in
    Some (on_interface live valid (if has (cx_flags ctx) ContextFlags.DEPRECATE then 0 else preferred) ctx).
Definition complete_context6 (live : LiveAddr6) (contexts : list DhcpContext) : list DhcpContext :=
  if unmatchable live then []
  else fold_left (fun current ctx => match matched_context live ctx with Some m => insert_preferred m current | None => current end) contexts [].

Definition construct_one (live : LiveAddr6) (ctx : DhcpContext) : DhcpContext :=
  if has (cx_flags ctx) (ContextFlags.TEMPLATE ∣∣ ContextFlags.CONSTRUCTED) || negb (covers_range live ctx) then ctx
  else on_interface live (cx_valid ctx) (cx_preferred ctx) ctx.
Definition dhcp_construct_contexts (live_addrs : list LiveAddr6) (contexts : list DhcpContext) : list DhcpContext :=
  fold_left (fun contexts live => if unmatchable live then contexts else construct_one live <$> contexts) live_addrs contexts.

(** ** The server's identifier *)

Definition DUID_LLT : Z := 1.
Definition DUID_EN : Z := 2.
Definition DUID_LL : Z := 3.
Definition DUID_EPOCH_OFFSET : Z := 946684800.
Definition build_duid_en (enterprise : Z) (id : list u8) : list u8 := to_be 2 DUID_EN ++ to_be 4 enterprise ++ id.
Definition build_duid_llt (hw_type : Z) (mac : list u8) (time_secs : Z) : list u8 := to_be 2 DUID_LLT ++ to_be 2 hw_type ++ to_be 4 time_secs ++ mac.
Definition build_duid_ll (hw_type : Z) (mac : list u8) : list u8 := to_be 2 DUID_LL ++ to_be 2 hw_type ++ mac.
Record DuidMacSource : Type := mkMacSource { ms_hw_type : Z; ms_mac : list u8 }.
(** From the configured identifier and enterprise, or from an interface. *)
Definition make_duid (duid_config : option (list u8)) (duid_enterprise : Z) (mac_source : option DuidMacSource) (use_llt : bool) (now_secs : Z)
  : result (list u8) str :=
  let none := Err (bs "Cannot create DHCPv6 server DUID: no interface with a usable MAC address") in
  match duid_config with
  | Some id => Ok (build_duid_en duid_enterprise id)
  | None =>
    match mac_source with
    | None => none
    | Some src =>
      if 256 <=? ms_hw_type src then none
      else Ok (if use_llt then build_duid_llt (ms_hw_type src) (ms_mac src) (as_u32 (Z.max 0 (now_secs - DUID_EPOCH_OFFSET)))
               else build_duid_ll (ms_hw_type src) (ms_mac src))
    end
  end.
