(* ===== verification/Dhcp6Alloc.v ===== *)
(** * The addresses of the DHCPv6 server

    What the networks of src/src/dhcp6.rs are, and that the scan of
    [address6_allocate] is exactly a search of the ranges. *)

From Stdlib Require Import ZArith Lia String.
From stdpp Require Import base numbers list option.
From S2P Require Import Prelude ByteCursor Types DhcpTypes DhcpCommon Edns0 Dhcp6.

#[local] Open Scope Z_scope.

(** ** Networks *)

Lemma of_be_cons b xs : of_be (b :: xs) = u8z b * 256 ^ Z.of_nat (length xs) + of_be xs.
Proof.
  induction xs as [|x xs IH] using rev_ind; [cbn; lia|]. rewrite app_comm_cons, !of_be_app, IH, length_app, Nat2Z.inj_add, Z.pow_add_r by lia. cbn [length].
  lia.
Qed.

Lemma mask_top r b : 0 < r < 8 -> Z.land (u8z b) (u8z (z8 (Z.shiftl 0xFF (8 - r)))) = u8z b / 2 ^ (8 - r) * 2 ^ (8 - r).
Proof.
  intros Hr. apply Z.eqb_eq. revert b. apply byte_forall.
  assert (r = 1 \/ r = 2 \/ r = 3 \/ r = 4 \/ r = 5 \/ r = 6 \/ r = 7) as H by lia.
  by repeat destruct H as [->|H]; subst; vm_compute.
Qed.

Lemma div_join x X m d : 0 < d -> 0 <= X -> (x * (m * d) + X) / d = x * m + X / d.
Proof. intros Hd HX. replace (x * (m * d) + X) with (X + (x * m) * d) by lia. rewrite Z.div_add by lia. lia. Qed.

Lemma same_net_bytes_spec xs : forall ys r, length ys = length xs -> 0 <= r <= 8 * Z.of_nat (length xs) ->
  let d := 2 ^ (8 * Z.of_nat (length xs) - r) in same_net_bytes xs ys r = true <-> of_be xs / d = of_be ys / d.
Proof.
  induction xs as [|x xs IH]; intros [|y ys] r Hl Hr; try discriminate; [done|]. injection Hl as Hl. cbn [length] in *. cbv zeta.
  set (n := Z.of_nat (length xs)) in *. replace (Z.of_nat (S (length xs))) with (n + 1) in * by lia.
  pose proof (of_be_range xs) as Hx. pose proof (of_be_range ys) as Hy. rewrite Hl in Hy. fold n in Hx, Hy.
  pose proof (u8z_range x) as Hbx. pose proof (u8z_range y) as Hby.
  assert (256 ^ n = 2 ^ (8 * n)) as E256 by (rewrite (Z.pow_mul_r 2 8) by lia; done).
  rewrite !of_be_cons, Hl. fold n. cbn [same_net_bytes]. rewrite E256 in *.
  destruct (r =? 0) eqn:Hr0.
  { apply Z.eqb_eq in Hr0 as ->. replace (8 * (n + 1) - 0) with (8 + 8 * n) by lia. rewrite Z.pow_add_r by lia. change (2 ^ 8) with 256.
    split; [|done]. intros _. rewrite !Z.div_small by nia. done. }
  apply Z.eqb_neq in Hr0. destruct (8 <=? r) eqn:Hr8.
  - apply Z.leb_le in Hr8. replace (8 * (n + 1) - r) with (8 * n - (r - 8)) by lia.
    assert (2 ^ (8 * n) = 2 ^ (r - 8) * 2 ^ (8 * n - (r - 8))) as E by (rewrite <- Z.pow_add_r by lia; f_equal; lia).
    specialize (IH ys (r - 8) Hl ltac:(lia)). cbv zeta in IH. set (d := 2 ^ (8 * n - (r - 8))) in *. set (m := 2 ^ (r - 8)) in *.
    assert (0 < d) by (apply Z.pow_pos_nonneg; lia). assert (0 < m) by (apply Z.pow_pos_nonneg; lia).
    rewrite E, !div_join by lia.
    assert (0 <= of_be xs / d < m) by (split; [apply Z.div_pos; lia|apply Z.div_lt_upper_bound; lia]).
    assert (0 <= of_be ys / d < m) by (split; [apply Z.div_pos; lia|apply Z.div_lt_upper_bound; lia]).
    case_bool_decide as Hxy; [subst y; rewrite IH; lia|]. split; [done|]. intros He. destruct Hxy. apply u8z_inj. nia.
  - apply Z.leb_gt in Hr8. rewrite Z.eqb_eq, !mask_top by lia. replace (8 * (n + 1) - r) with (8 * n + (8 - r)) by lia.
    rewrite Z.pow_add_r by lia. assert (0 < 2 ^ (8 * n)) by (apply Z.pow_pos_nonneg; lia). assert (0 < 2 ^ (8 - r)) by (apply Z.pow_pos_nonneg; lia).
    rewrite <- !Z.div_div, !Z.div_add_l, !(Z.div_small _ (2 ^ (8 * n))), !Z.add_0_r by lia. nia.
Qed.

Lemma is_same_net6_div a b p : ip6_ok a -> ip6_ok b -> 0 <= p <= 128 ->
  is_same_net6 a b p = true <-> a / 2 ^ (128 - p) = b / 2 ^ (128 - p).
Proof.
  intros Ha Hb Hp. unfold is_same_net6, as_u64. rewrite Z.mod_small by lia.
  rewrite (same_net_bytes_spec (octets6 a)) by (rewrite !length_octets6; lia). rewrite length_octets6. change (8 * Z.of_nat 16) with 128.
  by rewrite !octets6_of.
Qed.

(** ** The two halves of an address *)

Lemma length_halves a h : length (take 8 (octets6 a) ++ to_be 8 h) = 16%nat.
Proof. by rewrite length_app, length_take, length_octets6, length_to_be. Qed.
Lemma octets_with_host a h : octets6 (addr6_with_host a h) = take 8 (octets6 a) ++ to_be 8 h.
Proof. unfold octets6 at 1, addr6_with_host. by rewrite <- (length_halves a h), to_be_of_be. Qed.
Lemma addr6part_with_host a h : 0 <= h < 2 ^ 64 -> addr6part (addr6_with_host a h) = h.
Proof.
  intros Hh. unfold addr6part. rewrite octets_with_host, drop_app_length' by (by rewrite length_take, length_octets6).
  by apply of_be_to_be_small.
Qed.
Lemma addr6part_range a : 0 <= addr6part a < 2 ^ 64.
Proof. unfold addr6part. pose proof (of_be_range (drop 8 (octets6 a))) as H. by rewrite length_drop, length_octets6 in H. Qed.
Lemma addr6_split a : addr6_with_host a (addr6part a) = of_be (octets6 a).
Proof.
  unfold addr6_with_host, addr6part. pose proof (to_be_of_be (drop 8 (octets6 a))) as E. rewrite length_drop, length_octets6 in E.
  change (16 - 8)%nat with 8%nat in E. by rewrite E, take_drop.
Qed.
(** The network of an address keeps its upper half. *)
Lemma with_host_div a h : ip6_ok a -> 0 <= h < 2 ^ 64 -> addr6_with_host a h = a / 2 ^ 64 * 2 ^ 64 + h.
Proof.
  intros Ha Hh. unfold addr6_with_host. rewrite of_be_app2, length_to_be, (of_be_to_be_small 8) by done. change (256 ^ Z.of_nat 8) with (2 ^ 64).
  do 2 f_equal. pose proof (octets6_of a Ha) as E. rewrite <- (take_drop 8 (octets6 a)), of_be_app2, length_drop, length_octets6 in E.
  change (256 ^ Z.of_nat (16 - 8)) with (2 ^ 64) in E. fold (addr6part a) in E. pose proof (addr6part_range a).
  rewrite <- E at 2. rewrite Z.div_add_l by done. rewrite (Z.div_small (addr6part a)); lia.
Qed.

(** ** The scan *)

Fixpoint iter_nat {S R} (n : nat) (f : S -> S + R) (s : S) : S + R :=
  match n with
  | O => inl s
  | Datatypes.S n => match f s with inl s => iter_nat n f s | r => r end
  end.
Lemma iter_nat_add {S R} m n (f : S -> S + R) s :
  iter_nat (m + n) f s = match iter_nat m f s with inl s => iter_nat n f s | r => r end.
Proof. revert s. induction m as [|m IH]; intros s; [done|]. cbn. by destruct (f s). Qed.
Lemma iter_until_nat {S R} p (f : S -> S + R) s : iter_until p f s = iter_nat (Pos.to_nat p) f s.
Proof.
  revert s. induction p as [p IH|p IH|]; intros s; cbn [iter_until].
  - rewrite Pos2Nat.inj_xI. cbn [iter_nat]. destruct (f s) as [s'|]; [|done]. replace (2 * Pos.to_nat p)%nat with (Pos.to_nat p + Pos.to_nat p)%nat by lia.
    rewrite iter_nat_add, IH. by destruct (iter_nat _ f s').
  - rewrite Pos2Nat.inj_xO. replace (2 * Pos.to_nat p)%nat with (Pos.to_nat p + Pos.to_nat p)%nat by lia.
    rewrite iter_nat_add, IH. by destruct (iter_nat _ f s).
  - change (Pos.to_nat 1) with 1%nat. cbn. by destruct (f s).
Qed.

(** A host part a scan takes. *)
Definition takes (contexts : list DhcpContext) (ctx : DhcpContext) (in_use : Ipv6Addr -> bool) (h : Z) : bool :=
  negb (existsb (fun d => addr6part (cx_local6 d) =? h) contexts) && negb (in_use (addr6_with_host (cx_start6 ctx) h)).

Section Scan.
Context (contexts : list DhcpContext) (ctx : DhcpContext) (in_use : Ipv6Addr -> bool).
Let s := addr6part (cx_start6 ctx).
Let e := addr6part (cx_end6 ctx).
Let size := e - s + 1.
Context (s0 : Z) (Hse : s <= e) (H0 : s <= s0 <= e).

(** Where the scan is after [k] steps. *)
Definition place (k : Z) : Z := s + (s0 - s + k) mod size.

Lemma place_range k : s <= place k <= e.
Proof using Hse. unfold place. pose proof (Z.mod_pos_bound (s0 - s + k) size). unfold size in *. lia. Qed.
Lemma place_0 : place 0 = s0.
Proof using Hse H0. unfold place. rewrite Z.mod_small; unfold size; lia. Qed.
Lemma place_S k : place (k + 1) = if place k =? e then s else as_u64 (place k + 1).
Proof using Hse.
  pose proof (place_range k) as Hr. pose proof (addr6part_range (cx_end6 ctx)) as He. fold e in He.
  pose proof (addr6part_range (cx_start6 ctx)) as Hs. fold s in Hs.
  unfold place, size in *. replace (s0 - s + (k + 1)) with (s0 - s + k + 1) by lia.
  set (z := s0 - s + k) in *. rewrite <- Zplus_mod_idemp_l. pose proof (Z.mod_pos_bound z (e - s + 1)). destruct (_ =? e) eqn:E.
  - apply Z.eqb_eq in E. replace (z mod (e - s + 1) + 1) with (e - s + 1) by lia. rewrite Z.mod_same; lia.
  - apply Z.eqb_neq in E. unfold as_u64. rewrite (Z.mod_small (_ + 1)), (Z.mod_small (s + _ + 1)); lia.
Qed.
Lemma place_start k : 0 <= k < size -> place k = s0 -> k = 0.
Proof using Hse H0.
  intros Hk E. rewrite <- place_0 in E. unfold place in E. assert ((s0 - s + k) mod size = (s0 - s + 0) mod size) as E' by lia.
  rewrite Z.add_0_r, (Z.mod_small (s0 - s)) in E' by (unfold size; lia). pose proof (Z.div_mod (s0 - s + k) size ltac:(lia)) as Hd. rewrite E' in Hd.
  set (q := (s0 - s + k) / size) in *. assert (k = size * q) as E2 by lia. assert (q < 1) by nia. assert (0 <= q) by nia. assert (q = 0) as E3 by lia. by rewrite E2, E3, Z.mul_0_r.
Qed.
Lemma place_size : place size = s0.
Proof using Hse H0. rewrite <- place_0. unfold place. replace (s0 - s + size) with (s0 - s + 0 + 1 * size) by lia. rewrite Z.mod_add; [done|]. unfold size. lia. Qed.
Lemma place_onto h : s <= h <= e -> exists k, 0 <= k < size /\ place k = h.
Proof using Hse.
  intros Hh. exists ((h - s0) mod size). split; [apply Z.mod_pos_bound; unfold size; lia|]. unfold place.
  rewrite Zplus_mod_idemp_r. replace (s0 - s + (h - s0)) with (h - s) by lia. rewrite Z.mod_small; unfold size; lia.
Qed.

Lemma scan_step_place k : scan_step contexts ctx in_use s0 (place k) =
  if takes contexts ctx in_use (place k) then inr (Some (addr6_with_host (cx_start6 ctx) (place k)))
  else if place (k + 1) =? s0 then inr None else inl (place (k + 1)).
Proof using Hse. unfold scan_step, takes. fold s e. rewrite <- place_S. by destruct (_ && _). Qed.

(** From the [k]th place on. *)
Lemma scan_from n k : 0 <= k < size -> size - k <= Z.of_nat n ->
  exists r, iter_nat n (scan_step contexts ctx in_use s0) (place k) = inr r /\
    match r with
    | Some a => exists j, k <= j < size /\ a = addr6_with_host (cx_start6 ctx) (place j) /\ takes contexts ctx in_use (place j) = true
                          /\ forall i, k <= i < j -> takes contexts ctx in_use (place i) = false
    | None => forall j, k <= j < size -> takes contexts ctx in_use (place j) = false
    end.
Proof using Hse H0.
  revert k. induction n as [|n IH]; intros k Hk Hn; [lia|]. cbn [iter_nat]. rewrite scan_step_place.
  destruct (takes contexts ctx in_use (place k)) eqn:Et.
  { eexists. split; [done|]. exists k. split_and!; [lia..|done|done|]. intros i Hi. lia. }
  destruct (place (k + 1) =? s0) eqn:E0.
  - apply Z.eqb_eq in E0. eexists. split; [done|]. intros j Hj. assert (j = k) as ->; [|done].
    destruct (decide (k + 1 < size)) as [Hlt|]; [|lia]. apply place_start in E0; lia.
  - apply Z.eqb_neq in E0. destruct (decide (k + 1 = size)) as [E|]; [by rewrite E, place_size in E0|].
    destruct (IH (k + 1)) as (r & Hr & Hspec); [lia..|]. exists r. split; [done|]. destruct r as [a|].
    + destruct Hspec as (j & Hj & -> & Ht & Hb). exists j. split_and!; [lia..|done|done|]. intros i Hi.
      destruct (decide (i = k)) as [->|]; [done|]. apply Hb. lia.
    + intros j Hj. destruct (decide (j = k)) as [->|]; [done|]. apply Hspec. lia.
Qed.
End Scan.

Lemma hash_in_range hash epoch s e : 0 <= s <= e -> e < 2 ^ 64 -> s <= hash_to_addr6 hash epoch s e <= e.
Proof.
  intros Hs He. unfold hash_to_addr6. assert (as_u64 (e - s) = e - s) as -> by (unfold as_u64; apply Z.mod_small; lia).
  destruct (as_u64 (e - s + 1) =? 0) eqn:E.
  - apply Z.eqb_eq in E. unfold as_u64 in E. assert (e - s + 1 = 2 ^ 64).
    { destruct (decide (e - s + 1 = 18446744073709551616)) as [H|]; [by rewrite H|]. rewrite Z.mod_small in E; lia. }
    unfold as_u64. pose proof (Z.mod_pos_bound (s + (hash + epoch) mod 18446744073709551616) 18446744073709551616). lia.
  - apply Z.eqb_neq in E. assert (as_u64 (e - s + 1) = e - s + 1) as E'.
    { unfold as_u64 in *. destruct (decide (e - s + 1 = 18446744073709551616)) as [H|]; [by rewrite H in E|]. apply Z.mod_small. lia. }
    rewrite E'. pose proof (Z.mod_pos_bound (as_u64 (hash + epoch)) (e - s + 1) ltac:(lia)) as Hb. set (o := _ mod (e - s + 1)) in *. unfold as_u64. rewrite Z.mod_small; lia.
Qed.

(** The scan of a range is a search of all its addresses. *)
Lemma scan_range6_spec contexts ctx in_use hash : addr6part (cx_start6 ctx) <= addr6part (cx_end6 ctx) ->
  match scan_range6 contexts ctx in_use hash with
  | Some a => exists h, addr6part (cx_start6 ctx) <= h <= addr6part (cx_end6 ctx) /\ a = addr6_with_host (cx_start6 ctx) h /\ takes contexts ctx in_use h = true
  | None => forall h, addr6part (cx_start6 ctx) <= h <= addr6part (cx_end6 ctx) -> takes contexts ctx in_use h = false
  end.
Proof.
  intros Hse. pose proof (addr6part_range (cx_start6 ctx)) as Hs. pose proof (addr6part_range (cx_end6 ctx)) as He. unfold scan_range6. rewrite iter_until_nat.
  set (s0 := hash_to_addr6 _ _ _ _). assert (addr6part (cx_start6 ctx) <= s0 <= addr6part (cx_end6 ctx)) as H0 by (apply hash_in_range; lia).
  assert (addr6part (cx_end6 ctx) - addr6part (cx_start6 ctx) + 1 - 0 <= Z.of_nat (Pos.to_nat 18446744073709551616)) as Hn.
  { rewrite positive_nat_Z. lia. }
  destruct (scan_from contexts ctx in_use s0 Hse H0 (Pos.to_nat 18446744073709551616) 0 ltac:(lia) Hn) as (r & Hr & Hspec).
  rewrite (place_0 ctx s0 Hse H0) in Hr. rewrite Hr. destruct r as [a|].
  - destruct Hspec as (j & Hj & -> & Ht & _). exists (place ctx s0 j). split_and!; [by apply place_range..|done|done].
  - intros h Hh. destruct (place_onto ctx s0 Hse h Hh) as (k & Hk & <-). apply Hspec. lia.
Qed.

(** ** Allocation over all ranges *)


(** An allocated address is in the range as the other tests see it. *)
Lemma in_range_available contexts ctx h : ctx ∈ contexts -> has (cx_flags ctx) (ContextFlags.STATIC ∣∣ ContextFlags.RA_STATELESS) = false ->
  addr6part (cx_start6 ctx) <= h <= addr6part (cx_end6 ctx) -> ip6_ok (cx_start6 ctx) -> 0 <= cx_prefix ctx <= 64 ->
  address6_available contexts (addr6_with_host (cx_start6 ctx) h) = true.
Proof.
  intros Hin Hf Hh Hok Hp. pose proof (addr6part_range (cx_start6 ctx)). pose proof (addr6part_range (cx_end6 ctx)).
  unfold address6_available. apply existsb_exists. exists ctx. split; [by apply list_elem_of_In|].
  rewrite Hf, addr6part_with_host, !(proj2 (Z.leb_le _ _)) by lia. cbn [negb andb]. rewrite !andb_true_r.
  set (b := addr6_with_host _ _). assert (b = cx_start6 ctx / 2 ^ 64 * 2 ^ 64 + h) as Eb by (apply with_host_div; lia || done).
  unfold ip6_ok in Hok. assert (0 <= cx_start6 ctx / 2 ^ 64 < 2 ^ 64) by (split; [by apply Z.div_pos; lia|apply Z.div_lt_upper_bound; lia]).
  apply is_same_net6_div; [done|unfold ip6_ok; lia|lia|].
  replace (128 - cx_prefix ctx) with (64 + (64 - cx_prefix ctx)) by lia. rewrite Z.pow_add_r, <- !Z.div_div by (try apply Z.pow_pos_nonneg; lia).
  f_equal. rewrite Eb, Z.div_add_l, (Z.div_small h) by lia. lia.
Qed.

Lemma allocates_dynamic netids c : allocates_from netids c = true -> has (cx_flags c) (ContextFlags.STATIC ∣∣ ContextFlags.RA_STATELESS) = false.
Proof.
  unfold allocates_from. rewrite andb_true_iff, negb_true_iff, !has_lor, !orb_false_iff. intros [[[[_ Hs] Hr] _] _].
  by rewrite Hs, Hr.
Qed.

(** The range has no address left. *)
Definition exhausted (contexts : list DhcpContext) (in_use : Ipv6Addr -> bool) (c : DhcpContext) : Prop :=
  forall h, addr6part (cx_start6 c) <= h <= addr6part (cx_end6 c) ->
    in_use (addr6_with_host (cx_start6 c) h) = true \/ exists d, d ∈ contexts /\ addr6part (cx_local6 d) = h.

Lemma takes_true contexts ctx in_use h : takes contexts ctx in_use h = true <->
  in_use (addr6_with_host (cx_start6 ctx) h) = false /\ forall d, d ∈ contexts -> addr6part (cx_local6 d) <> h.
Proof.
  unfold takes. rewrite andb_true_iff, !negb_true_iff. split.
  - intros [H1 H2]. split; [done|]. intros d Hd E. apply not_true_iff_false in H1. apply H1, existsb_exists. exists d.
    split; [by apply list_elem_of_In|by apply Z.eqb_eq].
  - intros [H1 H2]. split; [|done]. apply not_true_iff_false. intros (d & Hd & E)%existsb_exists. apply (H2 d); [by apply list_elem_of_In|by apply Z.eqb_eq].
Qed.
Lemma takes_false contexts ctx in_use h : takes contexts ctx in_use h = false ->
  in_use (addr6_with_host (cx_start6 ctx) h) = true \/ exists d, d ∈ contexts /\ addr6part (cx_local6 d) = h.
Proof.
  unfold takes. rewrite andb_false_iff, !negb_false_iff. intros [(d & Hd & E)%existsb_exists|H]; [right|by left]. exists d.
  split; [by apply list_elem_of_In|by apply Z.eqb_eq].
Qed.

Lemma allocate_in_spec chain contexts netids in_use hash :
  (forall c, c ∈ chain -> addr6part (cx_start6 c) <= addr6part (cx_end6 c)) ->
  match allocate_in chain contexts netids in_use hash with
  | Some a => exists before c after h, chain = before ++ c :: after /\ allocates_from netids c = true
      /\ addr6part (cx_start6 c) <= h <= addr6part (cx_end6 c) /\ a = addr6_with_host (cx_start6 c) h /\ takes contexts c in_use h = true
      /\ forall c', c' ∈ before -> allocates_from netids c' = true -> exhausted contexts in_use c'
  | None => forall c, c ∈ chain -> allocates_from netids c = true -> exhausted contexts in_use c
  end.
Proof.
  induction chain as [|c chain IH]; intros Hord; cbn [allocate_in]; [by intros c ?%elem_of_nil|].
  assert (forall c', c' ∈ chain -> addr6part (cx_start6 c') <= addr6part (cx_end6 c')) as Hord' by (intros c' ?; apply Hord; by right).
  specialize (IH Hord'). pose proof (scan_range6_spec contexts c in_use hash (Hord c ltac:(by left))) as Hs.
  assert ((allocates_from netids c = true -> exhausted contexts in_use c) ->
    match allocate_in chain contexts netids in_use hash with
    | Some a => exists before c0 after h, c :: chain = before ++ c0 :: after /\ allocates_from netids c0 = true
        /\ addr6part (cx_start6 c0) <= h <= addr6part (cx_end6 c0) /\ a = addr6_with_host (cx_start6 c0) h /\ takes contexts c0 in_use h = true
        /\ forall c', c' ∈ before -> allocates_from netids c' = true -> exhausted contexts in_use c'
    | None => forall c0, c0 ∈ c :: chain -> allocates_from netids c0 = true -> exhausted contexts in_use c0
    end) as Hskip.
  { intros Hc. destruct (allocate_in chain _ _ _ _) as [a|].
    - destruct IH as (before & c0 & after & h & -> & Ha & Hh & -> & Ht & Hb). exists (c :: before), c0, after, h.
      split_and!; [done..|lia|lia|done|done|]. by intros c' [->|Hin]%elem_of_cons; [|apply Hb].
    - by intros c0 [->|Hin]%elem_of_cons; [|apply IH]. }
  destruct (allocates_from netids c) eqn:Ea; cbn [negb]; [|by apply Hskip].
  destruct (scan_range6 _ _ _ _) as [a|].
  - destruct Hs as (h & Hh & -> & Ht). exists [], c, chain, h. split_and!; [done..|lia|lia|done|done|]. by intros c' ?%elem_of_nil.
  - apply Hskip. intros _ h Hh. by apply takes_false, Hs.
Qed.

(** C29: the choice of a DHCPv6 address is exact, and it terminates on ranges of
    up to 2^64 addresses. An address is chosen from the first range that serves
    the client and has one left; it lies in the range, is not in use and not the
    host part of the server's own address there, and the tests of later messages
    find it available. No address is chosen only when every address of every
    range that serves the client is in use or the server's own. *)
Theorem dhcp6_allocation_exact contexts clid iaid netids in_use :
  (forall c, c ∈ contexts -> addr6part (cx_start6 c) <= addr6part (cx_end6 c)) ->
  match address6_allocate contexts clid iaid netids in_use with
  | Some a => exists before c after h, contexts = before ++ c :: after /\ allocates_from netids c = true
      /\ addr6part (cx_start6 c) <= h <= addr6part (cx_end6 c) /\ a = addr6_with_host (cx_start6 c) h
      /\ in_use a = false /\ (forall d, d ∈ contexts -> addr6part (cx_local6 d) <> addr6part a)
      /\ (forall c', c' ∈ before -> allocates_from netids c' = true -> exhausted contexts in_use c')
      /\ (ip6_ok (cx_start6 c) -> 0 <= cx_prefix c <= 64 -> address6_available contexts a = true)
  | None => forall c, c ∈ contexts -> allocates_from netids c = true -> exhausted contexts in_use c
  end.
Proof.
  intros Hord. pose proof (allocate_in_spec contexts contexts netids in_use (sdbm_hash64 clid iaid) Hord) as H. unfold address6_allocate.
  destruct (allocate_in _ _ _ _ _) as [a|]; [|exact H].
  destruct H as (before & c & after & h & E & Ha & Hh & -> & [Hu Hl]%takes_true & Hb). exists before, c, after, h.
  pose proof (addr6part_range (cx_start6 c)). pose proof (addr6part_range (cx_end6 c)).
  split_and!; [done..|lia|lia|done|done| |done|].
  - by rewrite addr6part_with_host by lia.
  - intros Hok Hp. apply (in_range_available contexts c h); [rewrite E; apply elem_of_app; right; left|by eapply allocates_dynamic|done..].
Qed.

(** A range of three addresses, of which one is left. *)
Definition ex_context6 : DhcpContext :=
  mkContext 3600 0 0 0 0 0 0 0 (ContextFlags.DHCP ∣∣ ContextFlags.V6) (mkNetid []) [] (0x20010db8 * 2 ^ 96 + 16) (0x20010db8 * 2 ^ 96 + 18) (0x20010db8 * 2 ^ 96 + 1)
    64 0 0 0 0 0 0 0.
Lemma dhcp6_allocation_exact_witness :
  let in_use a := negb (a =? 0x20010db8 * 2 ^ 96 + 18) in
  address6_allocate [ex_context6] [Byte.x01] 7 [] in_use = Some (0x20010db8 * 2 ^ 96 + 18) /\
  exists h, 16 <= h <= 18 /\ 0x20010db8 * 2 ^ 96 + 18 = addr6_with_host (cx_start6 ex_context6) h.
Proof.
  intros in_use. assert (address6_allocate [ex_context6] [Byte.x01] 7 [] in_use = Some (0x20010db8 * 2 ^ 96 + 18)) as E by by vm_compute.
  split; [exact E|]. pose proof (dhcp6_allocation_exact [ex_context6] [Byte.x01] 7 [] in_use) as H. rewrite E in H.
  destruct H as (before & c & after & h & Hc & _ & Hh & Ha & _).
  - intros c ->%list_elem_of_singleton. by vm_compute.
  - exists h. destruct before as [|? [|]]; try discriminate Hc. injection Hc as <- _. split; [exact Hh|exact Ha].
Defined.
