(* ===== verification/Dhcp6Wire.v ===== *)
(** * DHCPv6 messages on the wire

    The option lists of src/src/rfc3315.rs and the scanners over raw bytes of
    src/src/dhcp6.rs read the same messages. *)

From Stdlib Require Import ZArith Lia String.
From stdpp Require Import base numbers list option.
From S2P Require Import Prelude ByteCursor Types Util DhcpTypes Edns0 Rfc3315 Dhcp6.

#[local] Open Scope Z_scope.

(** What an option can hold. *)
Definition opt6_ok (o : Dhcp6Option) : Prop := 0 <= o6_code o < 65536 /\ Z.of_nat (length (o6_data o)) < 65536.
Definition message6_ok (m : Dhcp6Message) : Prop := length (m6_txn m) = 3%nat /\ Forall opt6_ok (m6_options m).
Definition enc_options6 (opts : list Dhcp6Option) : list u8 := concat (enc_option6 <$> opts).

Create HintDb dhcp6.

Lemma build_enc code data : build_option6 code data = enc_option6 (mkOption6 code data).
Proof. done. Qed.
Lemma enc_options6_cons o opts : enc_options6 (o :: opts) = enc_option6 o ++ enc_options6 opts.
Proof. done. Qed.
Lemma enc_options6_app a b : enc_options6 (a ++ b) = enc_options6 a ++ enc_options6 b.
Proof. unfold enc_options6. by rewrite fmap_app, concat_app. Qed.
Lemma length_enc_option6 o : length (enc_option6 o) = (4 + length (o6_data o))%nat.
Proof. unfold enc_option6. rewrite !length_app, !length_to_be. lia. Qed.
Lemma enc_options6_long opts : (length opts <= length (enc_options6 opts))%nat.
Proof. induction opts as [|o opts IH]; [done|]. rewrite enc_options6_cons, length_app, length_enc_option6. cbn. lia. Qed.
Lemma enc_opt_len o : opt6_ok o -> as_u16 (Z.of_nat (length (o6_data o))) = Z.of_nat (length (o6_data o)).
Proof. intros [_ H]. apply Z.mod_small. lia. Qed.

(** ** The parser *)

Lemma to_be_len n xs : length xs = n -> to_be n (of_be xs) = xs.
Proof. intros <-. apply to_be_of_be. Qed.

Lemma parse_options6_enc opts : forall fuel pre acc, Forall opt6_ok opts -> (length opts < fuel)%nat -> fits (pre ++ enc_options6 opts) ->
  parse_options6 fuel (mkCursor (pre ++ enc_options6 opts) (length pre)) acc = Ok (acc ++ opts).
Proof.
  induction opts as [|o opts IH]; intros [|fuel] pre acc Hok Hfuel Hfit; cbn [length] in Hfuel; try lia.
  { cbn. unfold Cursor.is_empty. cbn. rewrite !app_nil_r, Nat.leb_refl. done. }
  apply Forall_cons_1 in Hok as [Ho Hok]. pose proof (enc_opt_len o Ho) as El. destruct o as [code data]. destruct Ho as [Hc Hd]. cbn [o6_code o6_data] in *.
  cbn [parse_options6]. unfold Cursor.is_empty. cbn [buf pos].
  rewrite enc_options6_cons in Hfit |- *. rewrite (proj2 (Nat.leb_gt _ _)) by (rewrite !length_app, length_enc_option6; cbn; lia).
  set (rest := enc_options6 opts) in *. unfold enc_option6 in *. cbn [o6_code o6_data] in *. rewrite El in Hfit |- *. rewrite <- !app_assoc in Hfit |- *.
  rewrite (read_u16_mid pre code) by done. cbn [ok_or].
  rewrite (app_assoc pre (to_be 2 code)) in Hfit |- *. replace (length pre + 2)%nat with (length (pre ++ to_be 2 code)) by (rewrite length_app, length_to_be; lia).
  rewrite read_u16_mid by (lia || done). cbn [ok_or]. rewrite Nat2Z.id. rewrite (app_assoc (pre ++ to_be 2 code)) in Hfit |- *.
  replace (length (pre ++ to_be 2 code) + 2)%nat with (length ((pre ++ to_be 2 code) ++ to_be 2 (Z.of_nat (length data)))) by (rewrite !length_app, !length_to_be; lia).
  rewrite read_slice_mid by done. cbn [ok_or]. rewrite <- length_app. rewrite (app_assoc (_ ++ _)) in Hfit |- *.
  rewrite IH by (done || lia). by rewrite <- app_assoc.
Qed.

Lemma parse_options6_inv fuel : forall c acc opts, (pos c <= length (buf c))%nat -> parse_options6 fuel c acc = Ok opts ->
  exists new, opts = acc ++ new /\ Forall opt6_ok new /\ drop (pos c) (buf c) = enc_options6 new.
Proof.
  induction fuel as [|fuel IH]; intros c acc opts Hp H; [done|]. cbn [parse_options6] in H.
  unfold Cursor.is_empty in H. destruct (_ <=? _)%nat eqn:Ee.
  { apply Nat.leb_le in Ee. injection H as <-. exists []. rewrite app_nil_r. split_and!; [done..|]. by apply drop_ge. }
  unfold Cursor.read_u16_be in H. destruct (Cursor.read_slice c 2) as [[b1 c1]|] eqn:E1; [|done]. cbn in H.
  destruct (Cursor.read_slice c1 2) as [[b2 c2]|] eqn:E2; [|done]. cbn in H.
  destruct (Cursor.read_slice c2 _) as [[data c3]|] eqn:E3; [|done]. cbn in H.
  apply read_slice_inv in E1 as (-> & L1 & -> & B1), E2 as (-> & L2 & -> & B2), E3 as (-> & L3 & -> & B3). cbn [buf pos] in *.
  set (len := Z.to_nat (of_be (take 2 (drop (pos c + 2) (buf c))))) in *.
  apply IH in H as (new & -> & Hok & E); [|done]. cbn [buf pos] in *.
  set (b := buf c) in *. set (p := pos c) in *. pose proof (of_be_range (take 2 (drop p b))) as R1. pose proof (of_be_range (take 2 (drop (p + 2) b))) as R2.
  rewrite L1 in R1. rewrite L2 in R2. change (256 ^ Z.of_nat 2) with 65536 in *.
  exists (mkOption6 (of_be (take 2 (drop p b))) (take len (drop (p + 2 + 2) b)) :: new). split_and!.
  - by rewrite <- app_assoc.
  - constructor; [|done]. split; cbn [o6_code o6_data]; [done|]. rewrite L3. unfold len. lia.
  - rewrite enc_options6_cons. unfold enc_option6. cbn [o6_code o6_data]. rewrite L3. unfold as_u16. rewrite Z.mod_small by lia.
    unfold len at 1. rewrite Z2Nat.id by lia. rewrite (to_be_len 2 _ L1), (to_be_len 2 _ L2), <- E.
    rewrite <- (take_drop 2 (drop p b)) at 1. rewrite drop_drop, <- app_assoc. f_equal. rewrite <- app_assoc.
    rewrite <- (take_drop 2 (drop (p + 2) b)) at 1. f_equal. rewrite drop_drop.
    rewrite <- (take_drop len (drop (p + 2 + 2) b)) at 1. by rewrite drop_drop.
Qed.

(** ** The scanners *)


Lemma scan_enc opts code : forall fuel pre, Forall opt6_ok opts -> (length opts < fuel)%nat ->
  scan_options fuel (pre ++ enc_options6 opts) code (length pre) = o6_data <$> find_parsed6 opts code.
Proof.
  induction opts as [|o opts IH]; intros [|fuel] pre Hok Hfuel; cbn [length] in Hfuel; try lia.
  { cbn [scan_options]. rewrite (proj2 (Nat.leb_gt _ _)); [done|]. rewrite length_app. cbn. lia. }
  apply Forall_cons_1 in Hok as [Ho Hok]. pose proof (enc_opt_len o Ho) as El. destruct o as [c data]. destruct Ho as [Hc Hd]. cbn [o6_code o6_data] in *.
  cbn [scan_options]. rewrite enc_options6_cons. pose proof (length_enc_option6 (mkOption6 c data)) as Le. cbn [o6_data] in Le.
  rewrite (proj2 (Nat.leb_le _ _)) by (rewrite !length_app, Le; lia).
  unfold enc_option6 in *. cbn [o6_code o6_data] in *. rewrite El in *. rewrite <- !app_assoc.
  assert (be16_at (pre ++ to_be 2 c ++ to_be 2 (Z.of_nat (length data)) ++ data ++ enc_options6 opts) (length pre + 2) = Z.of_nat (length data)) as ->.
  { rewrite app_assoc. replace (length pre + 2)%nat with (length (pre ++ to_be 2 c)) by (rewrite length_app, length_to_be; lia). apply be16_mid. split; lia. }
  rewrite be16_mid by done. rewrite Nat2Z.id.
  rewrite (proj2 (Nat.ltb_ge _ _)) by (rewrite !length_app, !length_to_be; lia).
  unfold find_parsed6. cbn [List.find o6_code]. destruct (c =? code) eqn:Ec.
  - cbn [fmap option_fmap option_map o6_data]. f_equal. rewrite (app_assoc pre (to_be 2 c)), (app_assoc (pre ++ to_be 2 c)).
    rewrite drop_app_length' by (rewrite !length_app, !length_to_be; lia). by rewrite take_app_length.
  - fold (find_parsed6 opts code). rewrite <- (IH fuel (pre ++ to_be 2 c ++ to_be 2 (Z.of_nat (length data)) ++ data)) by (done || lia).
    rewrite <- !app_assoc. f_equal. rewrite !length_app, !length_to_be. lia.
Qed.

(** Finding an option among the bytes is finding it in the list. *)
Lemma find_encoded opts code : Forall opt6_ok opts -> find_option6 (enc_options6 opts) code = o6_data <$> find_parsed6 opts code.
Proof. intros Hok. apply (scan_enc opts code _ [] Hok). pose proof (enc_options6_long opts). lia. Qed.

Lemma find_parsed6_app a b code : find_parsed6 (a ++ b) code = match find_parsed6 a code with Some o => Some o | None => find_parsed6 b code end.
Proof. unfold find_parsed6. induction a as [|o a IH]; [done|]. cbn. by destruct (_ =? _). Qed.

Lemma msg_type6_roundtrip t : Dhcp6MsgType_from_u8 (u8z (z8 (Dhcp6MsgType_as t))) = Some t.
Proof. by destruct t. Qed.
Lemma msg_type_inv b t : Dhcp6MsgType_from_u8 (u8z b) = Some t -> z8 (Dhcp6MsgType_as t) = b.
Proof. by destruct b; intros [= <-]. Qed.

Lemma parse_write_message6 m : message6_ok m -> fits (write_message6 m) -> parse_message6 (write_message6 m) = Ok m.
Proof.
  intros [Ht Hok] Hfit. destruct m as [t txn opts]. cbn [m6_txn m6_options] in *. destruct txn as [|x1 [|x2 [|x3 [|]]]]; try discriminate Ht.
  unfold write_message6 in *. cbn [m6_type m6_txn m6_options app] in *. fold (enc_options6 opts) in *. unfold parse_message6. rewrite msg_type6_roundtrip.
  change (Cursor.at_ _ 4) with (mkCursor ([z8 (Dhcp6MsgType_as t); x1; x2; x3] ++ enc_options6 opts) (length [z8 (Dhcp6MsgType_as t); x1; x2; x3])).
  rewrite parse_options6_enc; [done|done| |done]. pose proof (enc_options6_long opts). cbn [length]. lia.
Qed.

(** C31: the parser and the writer of DHCPv6 messages are inverse to each other:
    the parser accepts exactly the bytes the writer makes of a message whose
    options fit their length fields, and returns that message. On every packet
    it accepts, the scan of the raw bytes by the server's handlers finds for
    each code exactly the value of the first option of the parsed list. *)
Theorem dhcp6_message_bijection pkt : fits pkt ->
  (forall m, parse_message6 pkt = Ok m <-> message6_ok m /\ write_message6 m = pkt) /\
  (forall m code, parse_message6 pkt = Ok m -> find_option6 (drop 4 pkt) code = o6_data <$> find_parsed6 (m6_options m) code).
Proof.
  intros Hfit. assert (forall m, parse_message6 pkt = Ok m -> message6_ok m /\ write_message6 m = pkt) as Hdec.
  { intros m H. destruct pkt as [|b [|x1 [|x2 [|x3 rest]]]]; try discriminate H. unfold parse_message6 in H.
    destruct (Dhcp6MsgType_from_u8 (u8z b)) as [t|] eqn:Et; [|done]. set (fuel := S _) in H. clearbody fuel.
    destruct (parse_options6 fuel _ []) as [opts|] eqn:Eo; [|done]. injection H as <-.
    apply parse_options6_inv in Eo as (new & -> & Hok & E); [|cbn; lia]. cbn [buf pos Cursor.at_ app drop] in E.
    rewrite app_nil_l in *. cbn [app] in *. split; [done|]. unfold write_message6. cbn [m6_type m6_txn m6_options]. rewrite (msg_type_inv b t Et). cbn [app]. fold (enc_options6 new). by rewrite <- E. }
  split.
  - intros m. split; [apply Hdec|]. intros [Hm <-]. by apply parse_write_message6.
  - intros m code [[Ht Hok] <-]%Hdec. rewrite <- find_encoded by done. destruct m as [t txn opts]. cbn [m6_txn] in Ht.
    destruct txn as [|x1 [|x2 [|x3 [|]]]]; try discriminate Ht. done.
Qed.

Lemma dhcp6_message_bijection_witness :
  let pkt := [Byte.x01; Byte.x0a; Byte.x0b; Byte.x0c; Byte.x00; Byte.x01; Byte.x00; Byte.x02; Byte.xaa; Byte.xbb; Byte.x00; Byte.x0e; Byte.x00; Byte.x00] in
  fits pkt /\ message6_ok (mkMessage6 Solicit [Byte.x0a; Byte.x0b; Byte.x0c] [mkOption6 1 [Byte.xaa; Byte.xbb]; mkOption6 14 []]).
Proof.
  intros pkt. assert (fits pkt) as Hf by by vm_compute. split; [exact Hf|].
  apply (proj1 (dhcp6_message_bijection pkt Hf) (mkMessage6 Solicit [Byte.x0a; Byte.x0b; Byte.x0c] [mkOption6 1 [Byte.xaa; Byte.xbb]; mkOption6 14 []])).
  reflexivity.
Defined.
