(* ===== verification/Dhcp6Spec.v ===== *)
(** * What the DHCPv6 server promises

    The handlers of src/src/dhcp6.rs seen from the client and from the lease
    database: the shape of a reply, what it grants, and what becomes of the
    leases. *)

From Stdlib Require Import ZArith Lia String.
From stdpp Require Import base numbers list option gmap.
From S2P Require Import Prelude ByteCursor Types Util DhcpTypes DhcpCommon Edns0 Lease LeaseFile Rfc3315 Dhcp6 Dhcp6Alloc Dhcp6Wire.

#[local] Open Scope Z_scope.

(** ** DHCPv6 leases of the database *)

Section Db.
Context `{Hord : HashOrder}.

Definition v6_at (a : Ipv6Addr) (l : DhcpLease) : bool := is_v6 l && (dl_addr6 l =? a).

(** No address is in two DHCPv6 leases. *)
Record v6_ok (db : LeaseDb) : Prop := {
  v6_unique : forall k1 k2 l1 l2 a, leases db !! k1 = Some l1 -> leases db !! k2 = Some l2 -> v6_at a l1 = true -> v6_at a l2 = true -> k1 = k2;
  v6_typed : forall k l, leases db !! k = Some l -> ip6_ok (dl_addr6 l);
}.

(** Any DHCPv6 lease of the address is the client's for this association. *)
Definition mine (c : list u8) (iaid : Z) (a : Ipv6Addr) (db : LeaseDb) : Prop :=
  forall k l, leases db !! k = Some l -> v6_at a l = true -> dl_clid l = Some c /\ dl_iaid l = iaid.

Lemma find_values_Some (p : DhcpLease -> bool) (m : gmap Key DhcpLease) l : List.find p (values m) = Some l -> p l = true /\ exists k, m !! k = Some l.
Proof. intros [Hin Hp]%find_some. split; [done|]. by apply elem_values, list_elem_of_In. Qed.
Lemma find_values_None (p : DhcpLease -> bool) (m : gmap Key DhcpLease) : List.find p (values m) = None <-> forall k l, m !! k = Some l -> p l = false.
Proof.
  split.
  - intros H k l Hl. apply (find_none _ _ H), list_elem_of_In, elem_values. by exists k.
  - intros H. destruct (List.find p _) as [l|] eqn:E; [|done]. apply find_values_Some in E as [Hp [k Hk]]. by rewrite (H k l Hk) in Hp.
Qed.

Lemma by_addr_Some a db l : find_v6_by_addr a db = Some l -> v6_at a l = true /\ exists k, leases db !! k = Some l.
Proof. apply find_values_Some. Qed.
Lemma by_addr_None a db : find_v6_by_addr a db = None <-> forall k l, leases db !! k = Some l -> v6_at a l = false.
Proof. apply find_values_None. Qed.
Lemma by_addr_unique a db k l : v6_ok db -> leases db !! k = Some l -> v6_at a l = true -> find_v6_by_addr a db = Some l.
Proof.
  intros Hok Hl Ha. destruct (find_v6_by_addr a db) as [l'|] eqn:E.
  - apply by_addr_Some in E as [Ha' [k' Hk']]. rewrite (v6_unique _ Hok k k' l l' a) in Hl by done. congruence.
  - rewrite by_addr_None in E. by rewrite (E k l Hl) in Ha.
Qed.

Lemma check_address_mine db c iaid a : v6_ok db -> check_address db c iaid a = true -> mine c iaid a db.
Proof.
  intros Hok Hc k l Hl Ha. unfold check_address in Hc. rewrite (by_addr_unique a db k l Hok Hl Ha) in Hc.
  by apply andb_true_iff in Hc as [?%bool_decide_eq_true ?%Z.eqb_eq].
Qed.
Lemma unused_mine db c iaid a : find_v6_by_addr a db = None -> mine c iaid a db.
Proof. rewrite by_addr_None. intros H k l Hl. by rewrite (H k l Hl). Qed.
Lemma held_mine db c iaid k l : v6_ok db -> leases db !! k = Some l -> is_v6 l = true -> dl_clid l = Some c -> dl_iaid l = iaid ->
  mine c iaid (dl_addr6 l) db.
Proof.
  intros Hok Hl Hv Hc Hi k' l' Hl' Ha. rewrite (v6_unique _ Hok k' k l' l (dl_addr6 l)) in Hl'; [by simplify_eq|done..|].
  unfold v6_at. by rewrite Hv, Z.eqb_refl.
Qed.

(** The lease of [a] is the client's and nothing else is changed, except that
    another lease with its key makes room. *)
Definition bound (a : Ipv6Addr) (c : list u8) (iaid : Z) (e : option SystemTime) (db db' : LeaseDb) : Prop :=
  exists l', dl_clid l' = Some c /\ dl_iaid l' = iaid /\ dl_expires l' = e /\ v6_at a l' = true /\
    (dl_slaac_address l' = [] \/ exists k l, leases db !! k = Some l /\ dl_slaac_address l' = dl_slaac_address l) /\
    leases db' !! lease_key l' = Some l' /\
    forall k l, k <> lease_key l' -> (leases db' !! k = Some l <-> leases db !! k = Some l /\ v6_at a l = false).

Lemma insert_raw_leases k l db : leases (insert_raw k l db) = <[k := l]> (leases db).
Proof. by rewrite insert_raw_eq. Qed.

Lemma bind_v6_spec a c iaid e db : v6_ok db ->
  match bind_v6 a c iaid LeaseFlags.NA e db with
  | None => find_v6_by_addr a db = None /\ (max_leases db <= size (leases db))%nat
  | Some db' => bound a c iaid e db db'
  end.
Proof.
  intros Hok. unfold bind_v6. fold (v6_at a).
  assert (forall p, find_key p db = None -> forall k l, leases db !! k = Some l -> p l = false) as Hnone.
  { intros p H k l Hl. apply (find_none _ _ H (k, l)). apply list_elem_of_In. rewrite iter_order_perm. by apply elem_of_map_to_list. }
  change (fun l : DhcpLease => is_v6 l && (dl_addr6 l =? a)) with (v6_at a). destruct (find_key (v6_at a) db) as [[k l]|] eqn:E.
  - apply find_key_Some in E as [Hl Ha]. set (l' := set_dl_expires _ _). exists l'. split_and!; [done..|right; by exists k, l| |].
    + cbn [leases with_dirty]. by rewrite insert_raw_leases, lookup_insert_eq.
    + intros k0 l0 Hk0. cbn [leases with_dirty]. rewrite insert_raw_leases, lookup_insert_ne by done. cbn [leases with_leases].
      rewrite lookup_delete_Some. split.
      * intros [Hne Hl0]. split; [done|]. apply not_true_iff_false. intros Ha0. by destruct (v6_unique _ Hok k k0 l l0 a Hl Hl0 Ha Ha0).
      * intros [Hl0 Ha0]. split; [|done]. intros ->. simplify_eq. congruence.
  - specialize (Hnone _ E). destruct (_ <=? _)%nat eqn:Es; [split; [by apply by_addr_None|by apply Nat.leb_le]|].
    set (l' := set_dl_expires _ _). exists l'. split_and!; [done..| |by left| |].
    + unfold v6_at. by rewrite Z.eqb_refl.
    + cbn [leases with_dirty]. by rewrite insert_raw_leases, lookup_insert_eq.
    + intros k0 l0 Hk0. cbn [leases with_dirty]. rewrite insert_raw_leases, lookup_insert_ne by done. split; [|by intros []].
      intros Hl0. split; [done|by apply (Hnone k0)].
Qed.

Lemma bound_ok a c iaid e db db' : v6_ok db -> ip6_ok a -> bound a c iaid e db db' -> v6_ok db'.
Proof.
  intros [Hu Ht] Ha (l' & _ & _ & _ & Hv & _ & Hl' & Hf). split.
  - intros k1 k2 l1 l2 b H1 H2 A1 A2. destruct (decide (k1 = lease_key l')) as [->|N1], (decide (k2 = lease_key l')) as [->|N2]; [done|..].
    + assert (l1 = l') as -> by congruence. apply Hf in H2 as [_ H2]; [|done]. exfalso. unfold v6_at in *.
      apply andb_true_iff in Hv as [Hv E1%Z.eqb_eq], A1 as [_ E2%Z.eqb_eq]. congruence.
    + assert (l2 = l') as -> by congruence. apply Hf in H1 as [_ H1]; [|done]. exfalso. unfold v6_at in *.
      apply andb_true_iff in Hv as [Hv E1%Z.eqb_eq], A2 as [_ E2%Z.eqb_eq]. congruence.
    + apply Hf in H1 as [H1 _], H2 as [H2 _]; [|done..]. by apply (Hu k1 k2 l1 l2 b).
  - intros k l Hl. destruct (decide (k = lease_key l')) as [->|N].
    + assert (l = l') as -> by congruence. by apply andb_true_iff in Hv as [_ ->%Z.eqb_eq].
    + apply Hf in Hl as [Hl _]; [|done]. by apply (Ht k).
Qed.

Lemma bound_found a c iaid e db db' : v6_ok db' -> bound a c iaid e db db' ->
  exists l, find_v6_by_addr a db' = Some l /\ dl_clid l = Some c /\ dl_iaid l = iaid /\ dl_expires l = e.
Proof. intros Hok (l' & Hc & Hi & He & Hv & _ & Hl' & _). exists l'. split_and!; [by apply (by_addr_unique a db' (lease_key l'))|done..]. Qed.

(** What is left of the leases, and what is new: a lease stays, or may be gone,
    or the client's lease takes its place; and a lease that was not there before
    is the client's. *)
Definition spared (c : list u8) (gone : DhcpLease -> Prop) (db db' : LeaseDb) : Prop :=
  (forall k l, leases db !! k = Some l -> leases db' !! k = Some l \/ gone l \/ exists l', leases db' !! k = Some l' /\ dl_clid l' = Some c) /\
  (forall k l, leases db' !! k = Some l -> leases db !! k = Some l \/ dl_clid l = Some c).
Lemma spared_refl c gone db : spared c gone db db.
Proof. split; intros k l Hl; by left. Qed.
Lemma spared_mono c (gone gone' : DhcpLease -> Prop) db db' :
  (forall k l, leases db !! k = Some l -> gone l -> gone' l) -> spared c gone db db' -> spared c gone' db db'.
Proof.
  intros Hg [Hold Hnew]. split; [|exact Hnew]. intros k l Hl. destruct (Hold k l Hl) as [?|[?|?]]; [by left|right; left; by eapply Hg|by right; right].
Qed.

Lemma bound_spared a c iaid e db db' : bound a c iaid e db db' -> spared c (fun l => v6_at a l = true) db db'.
Proof.
  intros (l' & Hc & _ & _ & _ & _ & Hl' & Hf). split; intros k l Hl; destruct (decide (k = lease_key l')) as [->|N].
  - right; right; by exists l'.
  - destruct (v6_at a l) eqn:E; [by right; left|]. left. by apply Hf.
  - right. congruence.
  - left. by apply Hf in Hl as [Hl _].
Qed.

Lemma remove_v6_spec c iaid a db db' b : remove_v6_by_clid_iaid_addr c iaid a db = (b, db') ->
  leases db' ⊆ leases db /\ spared c (fun l => dl_clid l = Some c) db db'.
Proof.
  unfold remove_v6_by_clid_iaid_addr. destruct (find_key _ db) as [[k l]|] eqn:E; intros [= <- <-]; [|split; [done|apply spared_refl]].
  apply find_key_Some in E as [Hl Hp]. apply andb_true_iff in Hp as [_ Hc%bool_decide_eq_true]. cbn [leases with_dirty with_leases].
  split; [apply delete_subseteq|]. split; intros k0 l0 Hl0; cbn [leases with_dirty with_leases] in *.
  - destruct (decide (k0 = k)) as [->|]; [right; left; congruence|]. left. by rewrite lookup_delete_ne.
  - left. by apply lookup_delete_Some in Hl0 as [_ ?].
Qed.
Lemma v6_ok_subset db db' : leases db' ⊆ leases db -> v6_ok db -> v6_ok db'.
Proof. intros Hs [Hu Ht]. split; eauto using lookup_weaken. Qed.
End Db.

(** ** The association of a reply *)

(** What a reply says of the client's association: nothing, a status, or an
    address with its lifetimes, which may be promised for good. *)
Inductive deed : Type :=
| Silent
| Refused (iaid code : Z) (msg : str)
| Given (granted : bool) (iaid : Z) (a : Ipv6Addr) (preferred valid t1 t2 : Z).

Definition status_opt (code : Z) (msg : str) : Dhcp6Option := mkOption6 OPTION6_STATUS_CODE (build_status_code code msg).
Definition addr_opt (a : Ipv6Addr) (p v : Z) : Dhcp6Option := mkOption6 OPTION6_IAADDR (octets6 a ++ to_be 4 p ++ to_be 4 v).
Definition ia_opt (iaid t1 t2 : Z) (sub : Dhcp6Option) : Dhcp6Option :=
  mkOption6 OPTION6_IA_NA (to_be 4 iaid ++ to_be 4 t1 ++ to_be 4 t2 ++ enc_option6 sub).
Definition ia_of (d : deed) : list Dhcp6Option :=
  match d with
  | Silent => []
  | Refused iaid code msg => [ia_opt iaid 0 0 (status_opt code msg)]
  | Given _ iaid a p v t1 t2 => [ia_opt iaid t1 t2 (addr_opt a p v)]
  end.

(** An option beside the identifiers and the association. *)
Definition side_opt (o : Dhcp6Option) : bool :=
  bool_decide (o6_code o ∈ [OPTION6_STATUS_CODE; OPTION6_PREFERENCE; OPTION6_RAPID_COMMIT]) && (Z.of_nat (length (o6_data o)) <? 100).

Definition deed_short (d : deed) : bool := match d with Refused _ _ msg => Z.of_nat (length msg) <? 100 | _ => true end.

(** The options of a reply. *)
Record reply_shape (pkt : Dhcp6Packet) (duid : list u8) (d : deed) (r : Dhcp6Reply) : Prop := {
  rs_xid : rp_xid r = p6_xid pkt;
  rs_short : deed_short d = true;
  rs_options : exists before after, forallb side_opt (before ++ after) = true /\
    rp_options r = enc_options6 ([mkOption6 OPTION6_CLIENT_ID (extract_client_id pkt); mkOption6 OPTION6_SERVER_ID duid] ++ before ++ ia_of d ++ after);
}.

Lemma enc_one o : enc_options6 [o] = enc_option6 o.
Proof. apply app_nil_r. Qed.
Lemma ids_enc duid c : ids_options duid c = enc_options6 [mkOption6 OPTION6_CLIENT_ID c; mkOption6 OPTION6_SERVER_ID duid].
Proof. unfold ids_options. by rewrite enc_options6_cons, enc_one. Qed.
Lemma shape_intro pkt duid d r before after : rp_xid r = p6_xid pkt -> deed_short d = true -> forallb side_opt (before ++ after) = true ->
  rp_options r = ids_options duid (extract_client_id pkt) ++ enc_options6 (before ++ ia_of d ++ after) -> reply_shape pkt duid d r.
Proof. intros Hx Hd Hs He. split; [done..|]. exists before, after. split; [done|]. by rewrite He, ids_enc, <- enc_options6_app. Qed.

Lemma status_enc code msg : status_option code msg = enc_options6 [status_opt code msg].
Proof. by rewrite enc_one. Qed.
Lemma given_enc g iaid a p v t1 t2 : build_ia_na_option (to_be 4 iaid) t1 t2 (iaaddr_suboption a p v) = enc_options6 (ia_of (Given g iaid a p v t1 t2)).
Proof. symmetry. apply enc_one. Qed.
Lemma refused_enc iaid code msg : build_ia_na_option (to_be 4 iaid) 0 0 (status_option code msg) = enc_options6 (ia_of (Refused iaid code msg)).
Proof. symmetry. apply enc_one. Qed.
Lemma plain_enc code data : build_option6 code data = enc_options6 [mkOption6 code data].
Proof. by rewrite enc_one. Qed.

Lemma of_be_ip6 xs : length xs = 16%nat -> ip6_ok (of_be xs).
Proof. intros E. pose proof (of_be_range xs) as H. by rewrite E in H. Qed.
Lemma first_addr_ok ia a : ia_na_first_addr ia = Some a -> ip6_ok a.
Proof.
  unfold ia_na_first_addr. case_match; [done|]. destruct (find_option6 _ _) as [o|]; [|done]. cbn. destruct (slice o 0 16) as [b|] eqn:E; [|done].
  intros [= <-]. apply of_be_ip6. exact (slice_length _ _ _ _ E).
Qed.
Lemma with_host_ok a h : ip6_ok (addr6_with_host a h).
Proof. apply of_be_ip6, length_halves. Qed.

(** An address of the scan is free, whatever the range. *)
Lemma iter_nat_stop {S R} n (f : S -> S + R) s r : iter_nat n f s = inr r -> exists s', f s' = inr r.
Proof.
  revert s. induction n as [|n IH]; intros s H; [done|]. cbn in H. destruct (f s) as [s'|r'] eqn:E; [by apply (IH s')|]. exists s. congruence.
Qed.
Lemma iter_until_stop {S R} p (f : S -> S + R) s r : iter_until p f s = inr r -> exists s', f s' = inr r.
Proof. rewrite iter_until_nat. apply iter_nat_stop. Qed.
Lemma scan_free contexts c in_use hash a : scan_range6 contexts c in_use hash = Some a -> in_use a = false /\ ip6_ok a.
Proof.
  unfold scan_range6. generalize 18446744073709551616%positive as p. intros p. destruct (iter_until _ _ _) as [|r] eqn:Ei; [done|].
  apply iter_until_stop in Ei as [s' Hs]. intros ->. unfold scan_step in Hs. destruct (negb _ && negb _) eqn:Et.
  - injection Hs as <-. apply andb_true_iff in Et as [_ Et%negb_true_iff]. split; [done|apply with_host_ok].
  - cbv zeta in Hs. by destruct (_ =? hash_to_addr6 _ _ _ _).
Qed.
Lemma allocated_free contexts clid iaid netids in_use a : address6_allocate contexts clid iaid netids in_use = Some a -> in_use a = false /\ ip6_ok a.
Proof.
  unfold address6_allocate. generalize contexts at 1 as chain. generalize (sdbm_hash64 clid iaid) as hash. intros hash chain.
  induction chain as [|c chain IH]; cbn [allocate_in]; [done|]. destruct (negb (allocates_from netids c)); [done|].
  destruct (scan_range6 contexts c in_use hash) as [b|] eqn:E; [|done]. intros [= <-]. by apply scan_free in E.
Qed.

(** ** The handlers *)

Section Handlers.
Context `{Hord : HashOrder}.

(** Whoever has a lease of the address, it is the client's; the server that
    is told to be the only one skips the test for the address of a Rebind. *)
Definition rebound (pkt : Dhcp6Packet) (ctx : Dhcp6RequestContext) (a : Ipv6Addr) : Prop :=
  p6_type pkt = Rebind /\ rx_authoritative ctx = true /\ exists ia iaid, extract_ia pkt = Some (ia, iaid) /\ ia_na_first_addr ia = Some a.
Definition rightful (pkt : Dhcp6Packet) (ctx : Dhcp6RequestContext) (iaid : Z) (a : Ipv6Addr) (db : LeaseDb) : Prop :=
  mine (extract_client_id pkt) iaid a db \/ rebound pkt ctx a.

Inductive effect (pkt : Dhcp6Packet) (ctx : Dhcp6RequestContext) (db : LeaseDb) : deed -> LeaseDb -> Prop :=
| EffNone d : (forall iaid a p v t1 t2, d = Given true iaid a p v t1 t2 -> v = 0) -> effect pkt ctx db d db
| EffGrant iaid a p v t1 t2 db' : ip6_ok a -> rightful pkt ctx iaid a db ->
    persist_lease db (extract_client_id pkt) iaid a (rx_contexts ctx) (rx_now_secs ctx) = Val (p, v, t1, t2, db') ->
    effect pkt ctx db (Given true iaid a p v t1 t2) db'
| EffRemove d iaid a b db' : p6_type pkt = Release \/ p6_type pkt = Decline -> ia_of d = [] \/ (exists code msg, d = Refused iaid code msg) ->
    remove_v6_by_clid_iaid_addr (extract_client_id pkt) iaid a db = (b, db') -> effect pkt ctx db d db'.

(** A handler's answer: its options, what it grants and what it does. *)
Definition answers (pkt : Dhcp6Packet) (duid : list u8) (ctx : Dhcp6RequestContext) (db : LeaseDb) (r : Dhcp6Reply) (db' : LeaseDb) : Prop :=
  exists d, reply_shape pkt duid d r /\ effect pkt ctx db d db' /\
    (rp_type r = Reply \/ rp_type r = Advertise /\ p6_type pkt = Solicit /\ db' = db) /\
    match d with
    | Silent => True
    | Refused iaid _ _ => exists ia, extract_ia pkt = Some (ia, iaid)
    | Given g iaid a p v t1 t2 => (exists ia, extract_ia pkt = Some (ia, iaid)) /\ ip6_ok a /\ (rp_type r = Reply -> g = true)
    end.

Lemma val_pair {A B} (a a' : A) (b b' : B) : Val (a, b) = Val (a', b') -> a = a' /\ b = b'.
Proof. by intros [= -> ->]. Qed.

Lemma selected_mine contexts configs db c iaid requested a : v6_ok db -> (forall r, requested = Some r -> ip6_ok r) ->
  select_address_for_ia contexts configs db c iaid requested = Some a -> mine c iaid a db /\ ip6_ok a.
Proof.
  intros Hok Hr. unfold select_address_for_ia. cbv zeta.
  assert (forall b, address6_allocate contexts c iaid [] (addr_in_use db configs) = Some b -> mine c iaid b db /\ ip6_ok b) as Hfresh.
  { intros b [Hb Hi]%allocated_free. split; [|done]. apply orb_false_iff in Hb as [Hb%bool_decide_eq_false _]. apply unused_mine.
    by destruct (find_v6_by_addr b db); [destruct Hb; eexists|]. }
  assert (forall b, match find_v6_by_client_iaid c iaid db with
               | Some l => if address6_available contexts (dl_addr6 l) then Some (dl_addr6 l) else address6_allocate contexts c iaid [] (addr_in_use db configs)
               | None => address6_allocate contexts c iaid [] (addr_in_use db configs)
               end = Some b -> mine c iaid b db /\ ip6_ok b) as Hknown.
  { intros b. destruct (find_v6_by_client_iaid c iaid db) as [l|] eqn:E; [|apply Hfresh]. destruct (address6_available _ _); [|apply Hfresh]. intros [= <-].
    apply find_values_Some in E as [Hp [k Hk]]. apply andb_true_iff in Hp as [[Hv Hi%Z.eqb_eq]%andb_true_iff Hc%bool_decide_eq_true].
    split; [by apply (held_mine db c iaid k l)|by apply (v6_typed _ Hok k)]. }
  destruct requested as [r|]; [|apply Hknown]. destruct (_ && _ && _) eqn:E; [|apply Hknown]. intros [= <-].
  apply andb_true_iff in E as [_ E]. split; [by apply check_address_mine|by apply Hr].
Qed.

Lemma solicit_style_answers pkt duid ctx db ia iaid addr persist t rapid r db' :
  extract_ia pkt = Some (ia, iaid) -> (forall a, addr = Some a -> mine (extract_client_id pkt) iaid a db /\ ip6_ok a) ->
  (persist = true /\ t = Reply \/ persist = false /\ t = Advertise /\ p6_type pkt = Solicit) ->
  build_solicit_style_reply (p6_xid pkt) duid (extract_client_id pkt) iaid ctx db addr persist t rapid = Val (r, db') -> answers pkt duid ctx db r db'.
Proof.
  intros Hia Ha Ht. unfold build_solicit_style_reply. set (c := extract_client_id pkt) in *.
  set (before := if rapid then [mkOption6 OPTION6_RAPID_COMMIT []] else []).
  assert ((if rapid then build_option6 OPTION6_RAPID_COMMIT [] else []) = enc_options6 before) as Eb by (by destruct rapid; rewrite ?plain_enc).
  assert (forallb side_opt before = true) as Hb by (by destruct rapid).
  destruct addr as [a|].
  - destruct (Ha a eq_refl) as [Hm Hok]. set (pref := mkOption6 OPTION6_PREFERENCE [z8 (if rx_authoritative ctx then 255 else 0)]).
    assert (forall g p v t1 t2, reply_shape pkt duid (Given g iaid a p v t1 t2) (mkReply6 t (p6_xid pkt) (ids_options duid c
        ++ (if rapid then build_option6 OPTION6_RAPID_COMMIT [] else []) ++ build_ia_na_option (to_be 4 iaid) t1 t2 (iaaddr_suboption a p v)
        ++ success ++ build_option6 OPTION6_PREFERENCE [z8 (if rx_authoritative ctx then 255 else 0)]))) as Hshape.
    { intros g p v t1 t2. apply (shape_intro _ _ _ _ before [status_opt STATUS_SUCCESS (bs "success"); pref]); [done|done|by rewrite forallb_app, Hb|].
      cbn [rp_options]. rewrite Eb, (given_enc g). unfold success. rewrite status_enc, plain_enc, !enc_options6_app, <- enc_options6_app. done. }
    destruct Ht as [[-> ->]|(-> & -> & Hs)].
    + destruct (persist_lease _ _ _ _ _ _) as [[[[[p v] t1] t2] db1]|] eqn:E; [|done]. intros [= <- <-].
      exists (Given true iaid a p v t1 t2). split_and!; [apply Hshape|by constructor; [|left|]|by left|by exists ia|done|done].
    + destruct (compute_times_for_addr _ _) as [[[[p v] t1] t2]|] eqn:E; [|done]. intros [= <- <-].
      exists (Given false iaid a p v t1 t2). split_and!; [apply Hshape|by constructor|by right|by exists ia|done|done].
  - intros [<- <-]%val_pair. exists (Refused iaid STATUS_NO_ADDRS_AVAIL (bs "address unavailable")). split_and!; [|by constructor| |by exists ia].
    + apply (shape_intro _ _ _ _ before [status_opt STATUS_NO_ADDRS_AVAIL (bs "no addresses available")]); [done|done|by rewrite forallb_app, Hb|].
      cbn [rp_options]. rewrite Eb, refused_enc. unfold no_addresses. rewrite status_enc, !enc_options6_app. done.
    + destruct Ht as [[_ ->]|(_ & -> & ?)]; [by left|by right].
Qed.

(** An answer without association data that leaves the leases alone. *)
Lemma silent_answers pkt duid ctx db t after r : rp_type r = t -> t = Reply \/ t = Advertise /\ p6_type pkt = Solicit -> rp_xid r = p6_xid pkt ->
  forallb side_opt after = true -> rp_options r = ids_options duid (extract_client_id pkt) ++ enc_options6 after -> answers pkt duid ctx db r db.
Proof.
  intros Ht Ht' Hx Hs He. exists Silent. split_and!; [by apply (shape_intro _ _ _ _ [] after)|by constructor| |done].
  rewrite Ht. destruct Ht' as [?|[? ?]]; [by left|by right].
Qed.
Lemma no_ia_answers pkt duid ctx db t : t = Reply \/ t = Advertise /\ p6_type pkt = Solicit ->
  answers pkt duid ctx db (no_ia_reply t (p6_xid pkt) duid (extract_client_id pkt)) db.
Proof.
  intros Ht. apply (silent_answers _ _ _ _ t [status_opt STATUS_NO_ADDRS_AVAIL (bs "no addresses available")]); [done..|].
  unfold no_ia_reply, no_addresses. cbn [rp_options]. by rewrite status_enc.
Qed.

Lemma solicit_answers pkt duid ctx db r db' : v6_ok db -> p6_type pkt = Solicit ->
  dispatch_solicit pkt duid ctx db = Val (r, db') -> exists reply, r = Some reply /\ answers pkt duid ctx db reply db'.
Proof.
  intros Hok Ht. unfold dispatch_solicit. set (rapid := bool_decide _). clearbody rapid.
  assert ((if rapid then Reply else Advertise) = Reply \/ (if rapid then Reply else Advertise) = Advertise /\ p6_type pkt = Solicit) as Htype
    by (destruct rapid; auto).
  destruct (extract_ia pkt) as [[ia iaid]|] eqn:Eia.
  - set (addr := select_address_for_ia _ _ _ _ _ _). destruct (build_solicit_style_reply _ _ _ _ _ _ _ _ _ _) as [[reply db1]|] eqn:E; [|done].
    intros [<- <-]%val_pair. exists reply. split; [done|]. apply (solicit_style_answers _ _ _ _ ia iaid addr rapid _ rapid) in E; [done..| |].
    + intros a. apply selected_mine; [done|]. intros r. apply first_addr_ok.
    + destruct rapid; auto.
  - intros [<- <-]%val_pair. eexists. split; [done|]. by apply no_ia_answers.
Qed.

(** The answers to an address the client names. *)
Definition named_reply (pkt : Dhcp6Packet) (duid : list u8) (ia top : list u8) : option Dhcp6Reply :=
  Some (mkReply6 Reply (p6_xid pkt) (ids_options duid (extract_client_id pkt) ++ ia ++ top)).
Lemma given_answers pkt duid ctx db ia iaid a r db' : extract_ia pkt = Some (ia, iaid) -> ip6_ok a -> rightful pkt ctx iaid a db ->
  (let# (p, v, t1, t2, db) := persist_lease db (extract_client_id pkt) iaid a (rx_contexts ctx) (rx_now_secs ctx) in
   Val (named_reply pkt duid (build_ia_na_option (to_be 4 iaid) t1 t2 (iaaddr_suboption a p v)) success, db)) = Val (r, db') ->
  exists reply, r = Some reply /\ answers pkt duid ctx db reply db'.
Proof.
  intros Hia Ha Hr. destruct (persist_lease _ _ _ _ _ _) as [[[[[p v] t1] t2] db1]|] eqn:E; [|done]. intros [<- <-]%val_pair.
  eexists. split; [done|]. exists (Given true iaid a p v t1 t2). split_and!; [|by constructor|by left|by exists ia|done|done].
  apply (shape_intro _ _ _ _ [] [status_opt STATUS_SUCCESS (bs "success")]); [done..|]. cbn [rp_options app]. rewrite (given_enc true). unfold success.
  by rewrite status_enc, enc_options6_app.
Qed.
Lemma refused_answers pkt duid ctx db ia iaid code msg top after : extract_ia pkt = Some (ia, iaid) -> (Z.of_nat (length msg) <? 100) = true ->
  forallb side_opt after = true -> top = enc_options6 after -> exists reply, named_reply pkt duid (build_ia_na_option (to_be 4 iaid) 0 0 (status_option code msg)) top = Some reply
    /\ answers pkt duid ctx db reply db.
Proof.
  intros Hia Hm Hs ->. eexists. split; [done|]. exists (Refused iaid code msg). split_and!; [|by constructor|by left|by exists ia].
  apply (shape_intro _ _ _ _ [] after); [done..|]. cbn [rp_options app]. by rewrite refused_enc, enc_options6_app.
Qed.

Lemma verdict_short ctx db c iaid a code msg : request_verdict ctx db c iaid a = Some (code, msg) -> (Z.of_nat (length msg) <? 100) = true.
Proof. unfold request_verdict. repeat case_match; by intros [= <- <-]. Qed.
Lemma request_answers pkt duid ctx db r db' : v6_ok db ->
  dispatch_request pkt duid ctx db = Val (r, db') -> exists reply, r = Some reply /\ answers pkt duid ctx db reply db'.
Proof.
  intros Hok. unfold dispatch_request. cbv zeta. destruct (extract_ia pkt) as [[ia iaid]|] eqn:Eia.
  2: { intros [<- <-]%val_pair. eexists. split; [done|]. apply no_ia_answers. by left. }
  destruct (ia_na_first_addr ia) as [a|] eqn:Ea.
  - destruct (request_verdict _ _ _ _ _) as [[code msg]|] eqn:Ev.
    + intros [<- <-]%val_pair. apply (refused_answers _ _ _ _ ia iaid _ _ _ [status_opt STATUS_NO_ADDRS_AVAIL (bs "no addresses available")]);
        [done|by apply verdict_short in Ev|done|apply status_enc].
    + apply (given_answers _ _ _ _ ia); [done|by apply first_addr_ok in Ea|]. left. unfold request_verdict in Ev. cbv zeta in Ev.
      destruct (_ || _); [|done]. destruct (_ && _); [done|]. destruct (check_address _ _ _ _) eqn:Ec; [|done]. by apply check_address_mine.
  - set (addr := select_address_for_ia _ _ _ _ _ _). destruct (build_solicit_style_reply _ _ _ _ _ _ _ _ _ _) as [[reply db1]|] eqn:E; [|done].
    intros [<- <-]%val_pair. exists reply. split; [done|]. apply (solicit_style_answers _ _ _ _ ia iaid addr true _ false) in E; [done..| |by left].
    intros a. by apply selected_mine.
Qed.

Lemma by_clid_mine db c iaid a : v6_ok db -> find_v6_by_clid_iaid c iaid a db <> None -> mine c iaid a db.
Proof.
  intros Hok H. destruct (find_v6_by_clid_iaid c iaid a db) as [l|] eqn:E; [|done]. apply find_values_Some in E as [Hp [k Hk]].
  apply andb_true_iff in Hp as [[[Hv Hi%Z.eqb_eq]%andb_true_iff <-%Z.eqb_eq]%andb_true_iff Hc%bool_decide_eq_true]. by apply (held_mine db c iaid k l).
Qed.

Lemma renew_answers pkt duid ctx db rebind r db' : v6_ok db -> (rebind = true -> p6_type pkt = Rebind) ->
  dispatch_renew_rebind pkt duid ctx rebind db = Val (r, db') -> r = None /\ db' = db \/ exists reply, r = Some reply /\ answers pkt duid ctx db reply db'.
Proof.
  intros Hok Ht. unfold dispatch_renew_rebind. cbv zeta. destruct (extract_ia pkt) as [[ia iaid]|] eqn:Eia; [|intros [<- <-]%val_pair; by left].
  destruct (ia_na_first_addr ia) as [a|] eqn:Ea; [|intros [<- <-]%val_pair; by left]. intros H. right. revert H.
  apply first_addr_ok in Ea as Ha. case_bool_decide as Hl.
  - destruct (rebind && _ && _) eqn:Eg.
    + apply andb_true_iff in Eg as [[Hr Hau]%andb_true_iff _]. apply (given_answers _ _ _ _ ia); [done..|]. right. split_and!; [by apply Ht|done|by exists ia, iaid].
    + intros [<- <-]%val_pair. apply (refused_answers _ _ _ _ ia iaid _ _ _ (if rebind then [status_opt STATUS_NO_ADDRS_AVAIL (bs "no addresses available")] else []));
        [done|done|by destruct rebind|]. destruct rebind; [apply status_enc|done].
  - destruct (negb (plausible _ _)).
    + intros [<- <-]%val_pair. eexists. split; [done|]. exists (Given true iaid a 0 0 0 0).
      split_and!; [|apply EffNone; by intros ?????? [=]|by left|by exists ia|done|done].
      apply (shape_intro _ _ _ _ [] [status_opt STATUS_SUCCESS (bs "success")]); [done..|]. cbn [rp_options app]. rewrite (given_enc true). unfold success.
      by rewrite status_enc, enc_options6_app.
    + apply (given_answers _ _ _ _ ia); [done..|]. left. by apply by_clid_mine.
Qed.

Lemma confirm_answers pkt duid ctx db reply : dispatch_confirm pkt duid (rx_contexts ctx) = Some reply -> answers pkt duid ctx db reply db.
Proof.
  unfold dispatch_confirm. destruct (extract_ia pkt) as [[ia iaid]|]; [|done]. cbv beta iota. destruct (ia_na_first_addr ia) as [a|]; [|done].
  intros E%(inj Some). subst reply.
  apply (silent_answers _ _ _ _ Reply [if address6_valid (rx_contexts ctx) a then status_opt STATUS_SUCCESS (bs "all addresses still on link")
    else status_opt STATUS_NOT_ON_LINK (bs "confirm failed")]); [done|by left|done|by destruct (address6_valid _ _)|].
  cbn [rp_options]. destruct (address6_valid _ _); by rewrite status_enc.
Qed.
Lemma inforeq_answers pkt duid ctx db reply : dispatch_inforeq pkt duid = Some reply -> answers pkt duid ctx db reply db.
Proof.
  unfold dispatch_inforeq. case_match; [done|]. intros E%(inj Some). subst reply.
  apply (silent_answers _ _ _ _ Reply []); [done|by left|done..|]. by rewrite app_nil_r.
Qed.
Lemma release_answers pkt duid ctx db decline r db' : p6_type pkt = Release \/ p6_type pkt = Decline ->
  dispatch_release_or_decline pkt duid decline db = (r, db') -> exists reply, r = Some reply /\ answers pkt duid ctx db reply db'.
Proof.
  intros Ht. unfold dispatch_release_or_decline. cbv zeta.
  set (top := status_opt STATUS_SUCCESS (bs (if decline then "success" else "release received"))).
  assert (forallb side_opt [top] = true) as Htop by (by destruct decline). rewrite (status_enc STATUS_SUCCESS). fold top. clearbody top.
  assert (exists reply, Some (mkReply6 Reply (p6_xid pkt) (ids_options duid (extract_client_id pkt) ++ [] ++ enc_options6 [top])) = Some reply
    /\ answers pkt duid ctx db reply db) as Hnone.
  { eexists. split; [done|]. apply (silent_answers _ _ _ _ Reply [top]); [done|by left|done..]. }
  destruct (extract_ia pkt) as [[ia iaid]|] eqn:Eia; [|by intros [<- <-]%pair_eq].
  destruct (ia_na_first_addr ia) as [a|] eqn:Ea; [|by intros [<- <-]%pair_eq].
  destruct (remove_v6_by_clid_iaid_addr _ _ _ _) as [b db1] eqn:Er. intros [<- <-]%pair_eq. eexists. split; [done|]. destruct b.
  - exists Silent. split_and!; [by apply (shape_intro _ _ _ _ [] [top])|apply (EffRemove _ _ _ _ iaid a true); [done|by left|done]|by left|done].
  - exists (Refused iaid STATUS_NO_BINDING (bs "no binding found")). split_and!; [|apply (EffRemove _ _ _ _ iaid a false); [done|right; by do 2 eexists|done]|by left|by exists ia].
    apply (shape_intro _ _ _ _ [] [top]); [done..|]. cbn [rp_options app]. by rewrite refused_enc, enc_options6_app.
Qed.

(** Every packet is dropped or answered. *)
Lemma dispatch_answers pkt duid ctx db r db' : v6_ok db -> dispatch_dhcp6 pkt duid ctx db = Val (r, db') ->
  r = None /\ db' = db \/ exists reply, r = Some reply /\ answers pkt duid ctx db reply db'.
Proof.
  intros Hok. unfold dispatch_dhcp6. destruct (p6_type pkt) eqn:Et; try (intros [<- <-]%val_pair; by left).
  - intros H. right. by apply solicit_answers.
  - intros H. right. by apply request_answers.
  - intros [<- <-]%val_pair. destruct (dispatch_confirm _ _ _) as [reply|] eqn:E; [right|by left]. exists reply. split; [done|by apply confirm_answers].
  - by apply renew_answers.
  - by apply renew_answers.
  - intros [= H]. right. apply (release_answers pkt duid ctx db false); [by left|done].
  - intros [= H]. right. apply (release_answers pkt duid ctx db true); [by right|done].
  - intros [<- <-]%val_pair. destruct (dispatch_inforeq _ _) as [reply|] eqn:E; [right|by left]. exists reply. split; [done|by apply inforeq_answers].
Qed.
End Handlers.

(** ** Effects on the database *)

Section Effects.
Context `{Hord : HashOrder}.

(** The expiry a lease gets. *)
Definition expiry (now_secs valid : Z) : outcome (option SystemTime) :=
  if valid =? 0xFFFFFFFF then Val None else let# t := unix_time (Z.min 18446744073709551615 (now_secs + valid)) in Val (Some t).

Lemma persist_spec db c iaid a contexts now p v t1 t2 db' : v6_ok db ->
  persist_lease db c iaid a contexts now = Val (p, v, t1, t2, db') ->
  compute_times_for_addr contexts a = Val (p, v, t1, t2) /\ rtc lease_step db db' /\
  exists e, expiry now v = Val e /\
    (bound a c iaid e db db' \/ db' = db /\ find_v6_by_addr a db = None /\ (max_leases db <= size (leases db))%nat).
Proof.
  intros Hok. unfold persist_lease. destruct (compute_times_for_addr contexts a) as [[[[p0 v0] t10] t20]|]; [|done]. fold (expiry now v0).
  destruct (expiry now v0) as [e|] eqn:Ee; [|done]. intros [= -> -> -> -> <-]. split; [done|].
  pose proof (bind_v6_spec a c iaid e db Hok) as Hb. destruct (bind_v6 _ _ _ _ _ db) as [db1|] eqn:E; cbn [default].
  - split; [apply rtc_once; by eapply StepBind6|]. exists e. split; [done|by left].
  - split; [done|]. exists e. split; [done|by right].
Qed.

(** Whose leases a packet may end. *)
Definition may_end (pkt : Dhcp6Packet) (ctx : Dhcp6RequestContext) (l : DhcpLease) : Prop :=
  dl_clid l = Some (extract_client_id pkt) \/ exists a, rebound pkt ctx a /\ v6_at a l = true.
Lemma effect_spec pkt ctx db d db' : v6_ok db -> effect pkt ctx db d db' ->
  rtc lease_step db db' /\ v6_ok db' /\ spared (extract_client_id pkt) (may_end pkt ctx) db db'.
Proof.
  intros Hok [d' Hd|iaid a p v t1 t2 db1 Ha Hr Hp|d' iaid a b db1 Ht Hd Hr].
  - split_and!; [done..|]. apply spared_refl.
  - destruct (persist_spec _ _ _ _ _ _ _ _ _ _ _ Hok Hp) as (_ & Hrun & e & _ & Hb). split; [done|]. destruct Hb as [Hb|(-> & _)]; [|split; [done|apply spared_refl]].
    split; [by apply (bound_ok a _ _ _ _ _ Hok Ha Hb)|]. eapply spared_mono, bound_spared, Hb. intros k l Hl Hg.
    destruct Hr as [Hm|Hr]; [left; by apply (Hm k l)|right; by exists a].
  - destruct (remove_v6_spec _ _ _ _ _ _ Hr) as [Hs Hf]. split_and!.
    + apply rtc_once. pose proof (StepRemove6 db (extract_client_id pkt) iaid a) as S. by rewrite Hr in S.
    + by apply (v6_ok_subset db).
    + eapply spared_mono, Hf. intros k l _ Hc. by left.
Qed.

Lemma db_empty_v6 n : v6_ok (db_empty n).
Proof. split; cbn; [by intros k1 k2 l1 l2 a ?%lookup_empty_Some|by intros k l ?%lookup_empty_Some]. Qed.

(** The server handles a packet. *)
Definition serve_step (db db' : LeaseDb) : Prop := exists pkt duid ctx r, dispatch_dhcp6 pkt duid ctx db = Val (r, db').
Lemma serve_step_ok db db' : v6_ok db -> serve_step db db' -> v6_ok db' /\ rtc lease_step db db'.
Proof.
  intros Hok (pkt & duid & ctx & r & H). apply dispatch_answers in H as [[_ ->]|(reply & _ & d & _ & He & _)]; [done| |done].
  by destruct (effect_spec _ _ _ _ _ Hok He) as (? & ? & _).
Qed.
Lemma serve_steps_ok db db' : v6_ok db -> rtc serve_step db db' -> v6_ok db' /\ rtc lease_step db db'.
Proof.
  intros Hok Hr. revert Hok. induction Hr as [x|x y z Hs _ IH]; intros Hok; [done|]. destruct (serve_step_ok _ _ Hok Hs) as [Hok' Hl].
  destruct (IH Hok') as [? ?]. split; [done|by etrans].
Qed.

(** C21: the DHCPv6 server uses the lease database as it is meant to be used.
    Whatever packets it has handled since it started with an empty database, the
    database was reached by the database's own operations (so that its invariant
    holds), and no address is in two DHCPv6 leases. The next packet changes
    nothing when it is dropped or answered with an Advertise. Otherwise every
    lease that is new or changed is the client's own, and every lease stays as it
    was, with three exceptions: the client's own leases; the lease whose key the
    client's lease takes; and, when the packet is a Rebind and the server has
    been told that it is authoritative, the lease of another client at the
    address that is rebound, which passes to the client
    ([dhcp6_rebind_takes_over]). *)
Theorem dhcp6_refines_leases n db : rtc serve_step (db_empty n) db ->
  rtc lease_step (db_empty n) db /\
  (forall k1 k2 l1 l2, leases db !! k1 = Some l1 -> leases db !! k2 = Some l2 -> Lease.is_v6 l1 = true -> Lease.is_v6 l2 = true ->
     dl_addr6 l1 = dl_addr6 l2 -> k1 = k2) /\
  forall pkt duid ctx r db', dispatch_dhcp6 pkt duid ctx db = Val (r, db') ->
    (r = None -> db' = db) /\ (forall reply, r = Some reply -> rp_type reply = Advertise -> db' = db) /\
    spared (extract_client_id pkt) (may_end pkt ctx) db db'.
Proof.
  intros Hr. destruct (serve_steps_ok _ _ (db_empty_v6 n) Hr) as [Hok Hl]. split_and!; [done|..].
  - intros k1 k2 l1 l2 H1 H2 V1 V2 E. apply (v6_unique _ Hok k1 k2 l1 l2 (dl_addr6 l1) H1 H2); unfold v6_at; rewrite ?V1, ?V2, ?E; apply Z.eqb_refl.
  - intros pkt duid ctx r db' H. apply dispatch_answers in H as [[-> ->]|(reply & -> & d & _ & He & Ht & _)]; [split_and!; [done..|apply spared_refl]| |done].
    split_and!; [done| |by apply (effect_spec _ _ _ _ _ Hok He)]. intros reply' [= <-] Ha. destruct Ht as [Ht|(_ & _ & ?)]; [congruence|done].
Qed.
End Effects.

(** ** Replies as clients read them *)

(** The association of a reply: its identifier, the address, the valid
    lifetime. *)
Definition granted6 (options : list u8) : option (Z * Ipv6Addr * Z) :=
  let! ia := find_option6 options OPTION6_IA_NA in
  let! sub := find_option6 (drop 12 ia) OPTION6_IAADDR in
  let! bytes := slice sub 0 16 in
  Some (be32_at ia 0, of_be bytes, be32_at sub 20).

Lemma scan_length fuel opts code i v : scan_options fuel opts code i = Some v -> Z.of_nat (length v) < 65536.
Proof.
  revert i. induction fuel as [|fuel IH]; intros i H; [done|]. cbn [scan_options] in H. cbv zeta in H. destruct (_ <=? _)%nat; [|done].
  destruct (_ <? _)%nat; [done|]. destruct (_ =? _); [|by apply IH in H]. injection H as <-. rewrite length_take.
  unfold be16_at. set (xs := take 2 _). pose proof (of_be_range xs) as Hr. assert (256 ^ Z.of_nat (length xs) <= 256 ^ 2).
  { apply Z.pow_le_mono_r; [done|]. unfold xs. rewrite length_take. lia. }
  lia.
Qed.
Lemma client_id_short pkt : Z.of_nat (length (extract_client_id pkt)) < 65536.
Proof. unfold extract_client_id, find_option6. destruct (scan_options _ _ _ _) as [v|] eqn:E; [|done]. by apply scan_length in E. Qed.

Lemma side_opt_ok o : side_opt o = true -> opt6_ok o /\ o6_code o <> OPTION6_IA_NA.
Proof.
  unfold side_opt. intros [Hc%bool_decide_eq_true Hl%Z.ltb_lt]%andb_true_iff. split; [split; [|lia]|].
  - by repeat (apply elem_of_cons in Hc as [->|Hc]); [..|apply elem_of_nil in Hc].
  - intros E. rewrite E in Hc. by vm_compute in Hc; repeat (apply elem_of_cons in Hc as [?|Hc]; [done|]); apply elem_of_nil in Hc.
Qed.

Lemma deed_ok d : deed_short d = true -> Forall opt6_ok (ia_of d).
Proof.
  intros Hs. destruct d as [|iaid code msg|g iaid a p v t1 t2]; [done|..]; apply Forall_singleton; (split; [done|]); cbn [ia_opt o6_data];
    rewrite !length_app, !length_to_be, length_enc_option6; cbn [status_opt addr_opt o6_data].
  - apply Z.ltb_lt in Hs. unfold build_status_code. rewrite length_app, length_to_be. lia.
  - rewrite !length_app, length_octets6, !length_to_be. lia.
Qed.
Lemma sides_ok l : forallb side_opt l = true -> Forall opt6_ok l /\ find_parsed6 l OPTION6_IA_NA = None.
Proof.
  intros H. assert (Forall (fun o => opt6_ok o /\ o6_code o <> OPTION6_IA_NA) l) as Hl.
  { apply Forall_forall. intros o Ho. apply side_opt_ok. rewrite forallb_forall in H. by apply H, list_elem_of_In. }
  split; [by eapply Forall_impl; [exact Hl|intros o []]|]. clear H. induction Hl as [|o l [_ Ho] _ IH]; [done|]. unfold find_parsed6. cbn [List.find].
  by rewrite (proj2 (Z.eqb_neq _ _) Ho).
Qed.

Lemma ia_sub_find iaid t1 t2 o code : opt6_ok o ->
  find_option6 (drop 12 (o6_data (ia_opt iaid t1 t2 o))) code = if o6_code o =? code then Some (o6_data o) else None.
Proof.
  intros Ho. cbn [ia_opt o6_data]. rewrite !app_assoc, drop_app_length' by (by rewrite !length_app, !length_to_be).
  rewrite <- enc_one, find_encoded by (by apply Forall_singleton). unfold find_parsed6. cbn [List.find]. by destruct (_ =? _).
Qed.

Section Replies.
Context (pkt : Dhcp6Packet) (duid : list u8) (Hduid : Z.of_nat (length duid) < 65536).

(** The options of a shaped reply, each of which fits. *)
Lemma shape_options d r : reply_shape pkt duid d r -> exists before after, forallb side_opt (before ++ after) = true /\
  rp_options r = enc_options6 ([mkOption6 OPTION6_CLIENT_ID (extract_client_id pkt); mkOption6 OPTION6_SERVER_ID duid] ++ before ++ ia_of d ++ after) /\
  Forall opt6_ok ([mkOption6 OPTION6_CLIENT_ID (extract_client_id pkt); mkOption6 OPTION6_SERVER_ID duid] ++ before ++ ia_of d ++ after).
Proof using Hduid.
  intros [_ Hs (before & after & Hb & He)]. exists before, after. split_and!; [done..|]. rewrite forallb_app in Hb. apply andb_true_iff in Hb as [Hb Ha].
  pose proof (client_id_short pkt). repeat apply Forall_app_2; [| | |].
  - repeat apply List.Forall_cons; [by split|by split|apply List.Forall_nil].
  - by apply sides_ok.
  - by apply deed_ok.
  - by apply sides_ok.
Qed.

Lemma shape_ia d r : reply_shape pkt duid d r -> find_option6 (rp_options r) OPTION6_IA_NA = o6_data <$> head (ia_of d).
Proof using Hduid.
  intros (before & after & Hb & -> & Hok)%shape_options. rewrite find_encoded by done. rewrite forallb_app in Hb. apply andb_true_iff in Hb as [Hb Ha].
  f_equal. cbn [app]. unfold find_parsed6. cbn [List.find o6_code]. change (OPTION6_CLIENT_ID =? OPTION6_IA_NA) with false.
  change (OPTION6_SERVER_ID =? OPTION6_IA_NA) with false. cbn iota. fold (find_parsed6 (before ++ ia_of d ++ after) OPTION6_IA_NA).
  rewrite !find_parsed6_app, (proj2 (sides_ok before Hb)), (proj2 (sides_ok after Ha)). by destruct d.
Qed.

(** What the client reads is what the deed says. *)
Lemma shape_granted d r : reply_shape pkt duid d r ->
  granted6 (rp_options r) = match d with
    | Given _ iaid a p v t1 t2 => Some (iaid mod 2 ^ 32, a mod 2 ^ 128, v mod 2 ^ 32)
    | _ => None
    end.
Proof using Hduid.
  intros Hs. unfold granted6. rewrite (shape_ia d r Hs). destruct Hs as [_ Hshort _]. pose proof (deed_ok d Hshort) as Hd.
  destruct d as [|iaid code msg|g iaid a p v t1 t2]; [done|..]; cbn [ia_of head fmap option_fmap option_map] in *; apply Forall_singleton in Hd as [_ Hd];
    cbn [ia_opt o6_data] in Hd; rewrite !length_app, length_enc_option6, !length_to_be in Hd.
  - rewrite ia_sub_find by (split; [done|lia]). done.
  - rewrite ia_sub_find by (split; [done|lia]). cbn [status_opt addr_opt o6_code o6_data]. change (OPTION6_IAADDR =? OPTION6_IAADDR) with true. cbn iota.
    rewrite (proj2 (slice_Some _ 0 16 (octets6 a))).
    2: { split; [rewrite !length_app, length_octets6; lia|]. rewrite drop_0, take_app_length'; [done|by rewrite length_octets6]. }
    do 2 f_equal; [f_equal|].
    + unfold be32_at, ia_opt. cbn [o6_data]. rewrite drop_0, take_app_length' by (by rewrite length_to_be). apply of_be_to_be.
    + apply of_be_to_be.
    + unfold be32_at. rewrite app_assoc, drop_app_length' by (by rewrite length_app, length_octets6, length_to_be).
      rewrite (take_ge (to_be 4 v)) by (by rewrite length_to_be). apply of_be_to_be.
Qed.
End Replies.

(** ** The promises *)

Lemma extract_ia_inv pkt ia iaid : extract_ia pkt = Some (ia, iaid) ->
  find_option6 (p6_options pkt) OPTION6_IA_NA = Some ia /\ (4 <= length ia)%nat /\ iaid = be32_at ia 0 /\ 0 <= iaid < 2 ^ 32.
Proof.
  unfold extract_ia. destruct (find_option6 _ _) as [d|]; [|done]. destruct (Nat.ltb_spec (length d) 4) as [|E]; [done|]. intros [= <- <-].
  split_and!; [done|done|done|..]; unfold be32_at; pose proof (of_be_range (take 4 (drop 0 d))) as H; rewrite length_take, drop_0 in H;
    replace (Nat.min 4 (length d)) with 4%nat in H by lia; apply H.
Qed.

(** The lifetimes of a range fit a message. *)
Definition times_ok (contexts : list DhcpContext) : Prop := forall c, c ∈ contexts -> 0 <= cx_lease_time c < 2 ^ 32.
Definition range_lease_time (contexts : list DhcpContext) (a : Ipv6Addr) : Z :=
  match context_for_addr contexts a with Some c => cx_lease_time c | None => 3600 end.
Lemma lease_time_range contexts a : times_ok contexts -> 0 <= range_lease_time contexts a < 2 ^ 32.
Proof.
  intros H. unfold range_lease_time. destruct (context_for_addr contexts a) as [c|] eqn:E; [|done]. apply find_some in E as [Hc _]. by apply H, list_elem_of_In.
Qed.
Lemma compute_times_valid contexts a p v t1 t2 : times_ok contexts -> compute_times_for_addr contexts a = Val (p, v, t1, t2) -> v = range_lease_time contexts a.
Proof.
  intros Ht. unfold compute_times_for_addr. fold (range_lease_time contexts a). unfold calculate_times. destruct (_ =? _) eqn:E; [apply Z.eqb_eq in E|].
  - intros [= _ <- _ _]. done.
  - destruct (_ <? _); [done|]. intros [= _ <- _ _]. done.
Qed.

Lemma xid_bytes x : 0 <= x -> to_be 3 x = [z8 (Z.land (Z.shiftr x 16) 0xFF); z8 (Z.land (Z.shiftr x 8) 0xFF); z8 (Z.land x 0xFF)].
Proof.
  intros Hx. change 0xFF with (Z.ones 8). rewrite !Z.land_ones, !Z.shiftr_div_pow2 by lia. cbn [to_be app]. rewrite Z.div_div by lia.
  assert (forall z, z8 (z mod 2 ^ 8) = z8 z) as Hz by (intros z; apply z8_congr, Z.mod_mod; lia). by rewrite !Hz.
Qed.

Section Promises.
Context `{Hord : HashOrder}.

(** C8: an address the DHCPv6 server grants is the client's. When a Reply gives
    an address with a lifetime, the association is the one the client asked for,
    the lifetime is the lease time of the address's range, no one else had a
    lease of the address (unless the packet is a Rebind to a server that has been
    told it is authoritative), and afterwards the database finds the lease under
    the address with the client's identifier, its association and the expiry that
    follows from the lifetime. The one exception is a full database that has no
    lease of the address yet. *)
Theorem dhcp6_grant_backed pkt duid ctx db r db' iaid a valid : v6_ok db -> times_ok (rx_contexts ctx) -> Z.of_nat (length duid) < 65536 ->
  dispatch_dhcp6 pkt duid ctx db = Val (Some r, db') -> rp_type r = Reply -> granted6 (rp_options r) = Some (iaid, a, valid) -> valid <> 0 ->
  let client := extract_client_id pkt in
  (exists ia, extract_ia pkt = Some (ia, iaid)) /\ valid = range_lease_time (rx_contexts ctx) a /\
  ((forall k l, leases db !! k = Some l -> Lease.is_v6 l = true -> dl_addr6 l = a -> dl_clid l = Some client /\ dl_iaid l = iaid)
    \/ p6_type pkt = Rebind /\ rx_authoritative ctx = true) /\
  ((exists l, find_v6_by_addr a db' = Some l /\ dl_clid l = Some client /\ dl_iaid l = iaid /\ expiry (rx_now_secs ctx) valid = Val (dl_expires l))
    \/ db' = db /\ find_v6_by_addr a db = None /\ (max_leases db <= size (leases db))%nat).
Proof.
  intros Hok Ht Hd H Hr Hg Hv client. apply dispatch_answers in H as [[? _]|(reply & [= <-] & d & Hs & He & _ & Hx)]; [done| |done].
  rewrite (shape_granted pkt duid Hd d r Hs) in Hg. destruct d as [| |g i b p v t1 t2]; [done..|]. destruct Hx as ([ia Hia] & Hb & Hgr).
  destruct (extract_ia_inv _ _ _ Hia) as (_ & _ & _ & Hi). rewrite (Z.mod_small i), (Z.mod_small b) in Hg by done. injection Hg as -> -> <-.
  rewrite (Hgr Hr) in He. inversion He as [? H0 |? ? ? ? ? ? ? Ha Hm Hp|? ? ? ? ? _ Hno _]; subst.
  - by rewrite (H0 _ _ _ _ _ _ eq_refl) in Hv.
  - destruct (persist_spec _ _ _ _ _ _ _ _ _ _ _ Hok Hp) as (Hc & _ & e & Hexp & Hb').
    pose proof (compute_times_valid _ _ _ _ _ _ Ht Hc) as ->. pose proof (lease_time_range (rx_contexts ctx) a Ht).
    rewrite (Z.mod_small (range_lease_time _ _)) in * by done. split_and!; [by exists ia|done|..].
    + destruct Hm as [Hm|(? & ? & _)]; [left|by right]. intros k l Hl Hv6 Ea. apply (Hm k l Hl). unfold v6_at. by rewrite Hv6, Ea, Z.eqb_refl.
    + destruct Hb' as [Hb'|?]; [left|by right]. destruct (bound_found _ _ _ _ _ _ (bound_ok _ _ _ _ _ _ Hok Ha Hb') Hb') as (l & Hl & Hcl & Hil & <-).
      by exists l.
  - by destruct Hno as [?|(? & ? & ?)].
Qed.

(** C30: the replies of the DHCPv6 server are well-formed messages that echo the
    client. Each one parses with the client's transaction identifier, starts with
    the client's and the server's identifier, and holds besides them only status,
    preference and rapid-commit options and an association with the identifier of
    the client's own. It is an Advertise only for a Solicit, and a Reply
    otherwise. *)
Theorem dhcp6_reply_wellformed pkt duid ctx db r db' : v6_ok db -> Z.of_nat (length duid) < 65536 -> 0 <= p6_xid pkt < 2 ^ 24 ->
  dispatch_dhcp6 pkt duid ctx db = Val (Some r, db') -> fits (to_wire6 r) ->
  (rp_type r = Reply \/ rp_type r = Advertise /\ p6_type pkt = Solicit) /\
  exists opts, parse_message6 (to_wire6 r) = Ok (mkMessage6 (rp_type r) (to_be 3 (p6_xid pkt))
      (mkOption6 OPTION6_CLIENT_ID (extract_client_id pkt) :: mkOption6 OPTION6_SERVER_ID duid :: opts)) /\
    forall o, o ∈ opts -> o6_code o ∈ [OPTION6_STATUS_CODE; OPTION6_PREFERENCE; OPTION6_RAPID_COMMIT] \/
      o6_code o = OPTION6_IA_NA /\ exists ia, find_option6 (p6_options pkt) OPTION6_IA_NA = Some ia /\ take 4 (o6_data o) = take 4 ia.
Proof.
  intros Hok Hd Hxid H Hfit. apply dispatch_answers in H as [[? _]|(reply & [= <-] & d & Hs & _ & Ht & Hx)]; [done| |done]. split.
  { destruct Ht as [?|(? & ? & _)]; [by left|by right]. }
  destruct (shape_options pkt duid Hd d r Hs) as (before & after & Hb & He & Hopts). exists (before ++ ia_of d ++ after). split.
  - assert (to_wire6 r = write_message6 (mkMessage6 (rp_type r) (to_be 3 (p6_xid pkt)) ([mkOption6 OPTION6_CLIENT_ID (extract_client_id pkt);
      mkOption6 OPTION6_SERVER_ID duid] ++ before ++ ia_of d ++ after))) as Ew.
    { unfold to_wire6, write_message6. cbn [m6_type m6_txn m6_options]. by rewrite He, (rs_xid _ _ _ _ Hs), (xid_bytes _ (proj1 Hxid)). }
    rewrite Ew in *. apply parse_write_message6; [|done]. split; [done|exact Hopts].
  - rewrite forallb_app in Hb. apply andb_true_iff in Hb as [Hb Ha].
    assert (forall l o, forallb side_opt l = true -> o ∈ l -> o6_code o ∈ [OPTION6_STATUS_CODE; OPTION6_PREFERENCE; OPTION6_RAPID_COMMIT]) as Hside.
    { intros l o Hl Ho. rewrite forallb_forall in Hl. apply list_elem_of_In, Hl in Ho. by apply andb_true_iff in Ho as [?%bool_decide_eq_true _]. }
    assert (forall iaid t1 t2 sub, (exists ia, extract_ia pkt = Some (ia, iaid)) -> exists ia, find_option6 (p6_options pkt) OPTION6_IA_NA = Some ia
      /\ take 4 (o6_data (ia_opt iaid t1 t2 sub)) = take 4 ia) as Hecho.
    { intros iaid t1 t2 sub [ia (Hf & Hl & -> & _)%extract_ia_inv]. exists ia. split; [done|]. cbn [ia_opt o6_data].
      rewrite take_app_length' by (by rewrite length_to_be). unfold be32_at. rewrite drop_0. apply to_be_len. rewrite length_take. lia. }
    intros o [Ho|[Ho|Ho]%elem_of_app]%elem_of_app; [left; by apply (Hside before)| |left; by apply (Hside after)].
    right. destruct d as [|iaid code msg|g iaid a p v t1 t2]; [by apply elem_of_nil in Ho|apply list_elem_of_singleton in Ho as ->..]; (split; [done|]).
    + by apply Hecho.
    + apply Hecho, Hx.
Qed.
End Promises.

(** ** Examples *)

Definition ex_duid : list u8 := [Byte.x00; Byte.x03; Byte.x00; Byte.x01; Byte.xaa].
Definition ex_a6 : Ipv6Addr := 0x20010db8 * 2 ^ 96 + 17.
(** A message of the client [c] that names an address for its association. *)
Definition ex_packet (t : Dhcp6MsgType) (c : list u8) (iaid : Z) (a : Ipv6Addr) : Dhcp6Packet :=
  mkPacket6 t 0x0a0b0c (enc_options6 [mkOption6 OPTION6_CLIENT_ID c; ia_opt iaid 0 0 (addr_opt a 0 0)]).
Definition ex_server (authoritative : bool) : Dhcp6RequestContext := mkReqCtx [ex_context6] [] authoritative 1000.
Definition ex_serve (authoritative : bool) (pkt : Dhcp6Packet) (db : LeaseDb) : outcome (option Dhcp6Reply * LeaseDb) :=
  dispatch_dhcp6 (H := list_order) pkt ex_duid (ex_server authoritative) db.
Definition reply_of (o : outcome (option Dhcp6Reply * LeaseDb)) : Dhcp6Reply :=
  match o with Val (Some r, _) => r | _ => mkReply6 Solicit 0 [] end.
Definition db_of (o : outcome (option Dhcp6Reply * LeaseDb)) : LeaseDb := match o with Val (_, db) => db | Panic => db_empty 0 end.
(** Client 1 has asked for the address. *)
Definition ex_db6 : LeaseDb := db_of (ex_serve false (ex_packet Request [Byte.x01] 7 ex_a6) (db_empty 3)).

Lemma ex_times : times_ok [ex_context6].
Proof. by intros c ->%list_elem_of_singleton. Qed.
Lemma ex_request : ex_serve false (ex_packet Request [Byte.x01] 7 ex_a6) (db_empty 3) = Val (Some (reply_of (ex_serve false (ex_packet Request [Byte.x01] 7 ex_a6) (db_empty 3))), ex_db6).
Proof. by vm_compute. Qed.

Lemma dhcp6_grant_backed_witness : exists l, find_v6_by_addr (H := list_order) ex_a6 ex_db6 = Some l /\ dl_clid l = Some [Byte.x01] /\ dl_iaid l = 7.
Proof.
  destruct (dhcp6_grant_backed (Hord := list_order) (ex_packet Request [Byte.x01] 7 ex_a6) ex_duid (ex_server false) (db_empty 3) _ ex_db6 7 ex_a6 3600
    (db_empty_v6 3) ex_times ltac:(by vm_compute) ex_request ltac:(by vm_compute) ltac:(by vm_compute) ltac:(done)) as (_ & _ & _ & [Hl|(_ & _ & Hfull)]).
  - destruct Hl as (l & Hl & Hc & Hi & _). exists l. split_and!; [exact Hl|exact Hc|exact Hi].
  - exfalso. vm_compute in Hfull. lia.
Defined.

Lemma dhcp6_reply_wellformed_witness : exists m, parse_message6 (to_wire6 (reply_of (ex_serve false (ex_packet Request [Byte.x01] 7 ex_a6) (db_empty 3)))) = Ok m.
Proof.
  destruct (dhcp6_reply_wellformed (Hord := list_order) (ex_packet Request [Byte.x01] 7 ex_a6) ex_duid (ex_server false) (db_empty 3) _ ex_db6
    (db_empty_v6 3) ltac:(by vm_compute) ltac:(done) ex_request ltac:(by vm_compute)) as (_ & opts & H & _).
  eexists. exact H.
Defined.

Lemma dhcp6_refines_leases_witness : rtc (lease_step (Hord := list_order)) (db_empty 3) ex_db6 /\ size (leases ex_db6) = 1%nat.
Proof.
  split; [|by vm_compute]. apply (dhcp6_refines_leases (Hord := list_order) 3 ex_db6). apply rtc_once.
  eexists _, _, _, _. exact ex_request.
Defined.

(** A full database: the client is told it has the address, and nothing is
    recorded. *)
Example dhcp6_full_database_unnoticed :
  let o := ex_serve false (ex_packet Request [Byte.x01] 7 ex_a6) (db_empty 0) in
  granted6 (rp_options (reply_of o)) = Some (7, ex_a6, 3600) /\ rp_type (reply_of o) = Reply /\ db_of o = db_empty 0.
Proof. split_and!; by vm_compute. Qed.

(** The client's second association takes the place of its first one. *)
Example dhcp6_second_association_evicts :
  let db := db_of (ex_serve false (ex_packet Request [Byte.x01] 8 (ex_a6 + 1)) ex_db6) in
  find_v6_by_addr (H := list_order) ex_a6 ex_db6 <> None /\ find_v6_by_addr (H := list_order) ex_a6 db = None /\ size (leases db) = 1%nat.
Proof. split_and!; by vm_compute. Qed.

(** A Rebind of another client takes the lease away from its holder. *)
Example dhcp6_rebind_takes_over :
  let o := ex_serve true (ex_packet Rebind [Byte.x02] 9 ex_a6) ex_db6 in
  granted6 (rp_options (reply_of o)) = Some (9, ex_a6, 3600) /\
  (dl_clid <$> find_v6_by_addr (H := list_order) ex_a6 ex_db6) = Some (Some [Byte.x01]) /\
  (dl_clid <$> find_v6_by_addr (H := list_order) ex_a6 (db_of o)) = Some (Some [Byte.x02]).
Proof. split_and!; by vm_compute. Qed.

(** A lease time of more than thirty-four years cannot be served. *)
Example dhcp6_long_lease_panics : calculate_times (2 ^ 30) = Panic /\ calculate_times (2 ^ 30 - 1) = Val (1073741823, 1073741823, 536870911, 858993458).
Proof. by split; vm_compute. Qed.

(** The option after an association is logged twice. *)
Example log6_opts_repeats :
  length (log6_opts (enc_options6 [ia_opt 7 0 0 (status_opt 0 (bs "success")); status_opt 0 (bs "success")]) 1 false) = 4%nat.
Proof. by vm_compute. Qed.
