(* ===== verification/Slaac.v ===== *)
(** * SLAAC addresses of leases: src/src/slaac.rs

    Interface identifiers from hardware addresses, the addresses a lease's host
    gives itself, and the probes that find out which of them are in use, with
    the operations of src/src/lease.rs that apply them to the database. The raw
    socket and the random numbers are parameters. *)

From Stdlib Require Import ZArith Lia String.
From stdpp Require Import base numbers list option gmap.
From S2P Require Import Prelude Types DhcpTypes DhcpCommon Edns0 Lease.

#[local] Open Scope Z_scope.

(** ** Interface identifiers *)

(** The byte with the universal bit flipped. *)
Definition flip_universal (b : u8) : u8 := z8 (Z.lxor (u8z b) 2).
Definition eui64_from_mac (mac : list u8) : list u8 :=
  match mac with
  | [m0; m1; m2; m3; m4; m5] => [flip_universal m0; m1; m2; z8 0xFF; z8 0xFE; m3; m4; m5]
  | _ => []
  end.

(** The [i]th byte of the address. *)
Definition slaac_byte (pfx eui : list u8) (pfx_bytes pfx_bits : nat) (i : nat) : u8 :=
  let at_ (l : list u8) n := default Byte.x00 (l !! n) in
  let host_start := (pfx_bytes + if (0 <? pfx_bits) then 1 else 0)%nat in
  if (i <? pfx_bytes)%nat then at_ pfx i
  else if (0 <? pfx_bits)%nat && (i =? pfx_bytes)%nat then
    let mask := u8z (z8 (Z.shiftl 0xFF (8 - Z.of_nat pfx_bits))) in
    let src_eui := if (pfx_bytes <? 8)%nat then at_ eui pfx_bytes else Byte.x00 in
    z8 (Z.lor (Z.land (u8z (at_ pfx pfx_bytes)) mask) (Z.land (u8z src_eui) (255 - mask)))
  else if (host_start <=? i)%nat && (8 <=? i)%nat then at_ eui (i - 8)%nat
  else Byte.x00.
Definition slaac_address (prefix : Ipv6Addr) (prefix_len : Z) (mac : list u8) : Ipv6Addr :=
  let eui := eui64_from_mac mac in
  of_be (slaac_byte (octets6 prefix) eui (Z.to_nat (prefix_len / 8)) (Z.to_nat (prefix_len mod 8)) <$> seq 0 16).

(** ** The addresses of a lease *)

Definition ARPHRD_ETHER : Z := 1.
Definition ARPHRD_IEEE802 : Z := 6.
Definition ARPHRD_IEEE1394 : Z := 24.
Definition ARPHRD_EUI64 : Z := 27.

(** [id[0] ^= 0x02]. *)
Definition flip_first (id : list u8) : list u8 := match id with b :: rest => flip_universal b :: rest | [] => [] end.
Definition derive_slaac_host_id (lease : DhcpLease) : option (list u8) :=
  if (dl_hwaddr_len lease =? 6)%nat && ((dl_hwaddr_type lease =? ARPHRD_ETHER) || (dl_hwaddr_type lease =? ARPHRD_IEEE802)) then
    Some (eui64_from_mac (take 6 (dl_hwaddr lease)))
  else if (dl_hwaddr_len lease =? 8)%nat && (dl_hwaddr_type lease =? ARPHRD_EUI64) then Some (flip_first (take 8 (dl_hwaddr lease)))
  else
    let! clid := dl_clid lease in
    match clid with
    | b :: id => if (length clid =? 9)%nat && (u8z b =? ARPHRD_EUI64) && (dl_hwaddr_type lease =? ARPHRD_IEEE1394) then Some (flip_first id) else None
    | [] => None
    end.

(** Leases whose host may have addresses of its own. *)
Definition slaac_eligible (lease : DhcpLease) : bool :=
  flag_contains (dl_flags lease) LeaseFlags.HAVE_HWADDR && negb (has (dl_flags lease) (LeaseFlags.TA ∣∣ LeaseFlags.NA))
  && negb (dl_last_interface lease =? 0) && bool_decide (is_Some (dl_hostname lease)).
(** The address of the host in a range, if names are wanted there. *)
Definition slaac_candidate (lease : DhcpLease) (ctx : DhcpContext) : option Ipv6Addr :=
  if negb (flag_contains (cx_flags ctx) ContextFlags.RA_NAME) || flag_contains (cx_flags ctx) ContextFlags.OLD then None
  else if negb (dl_last_interface lease =? cx_if_index ctx) then None
  else let! host_id := derive_slaac_host_id lease in Some (of_be (take 8 (octets6 (cx_start6 ctx)) ++ host_id)).

(** [old.iter().position(..)] and [old.remove(idx)]. *)
Fixpoint take_entry (addr : Ipv6Addr) (old : list SlaacAddress) : option (SlaacAddress * list SlaacAddress) :=
  match old with
  | [] => None
  | s :: old =>
    if sl_addr s =? addr then Some (s, old)
    else let! (e, old) := take_entry addr old in Some (e, s :: old)
  end.

(** What the loop over the ranges carries: the old entries left, the new ones,
    whether names have changed, and the ranges to be advertised. *)
Record SlaacWalk : Type := mkWalk { wk_old : list SlaacAddress; wk_new : list SlaacAddress; wk_dirty : bool; wk_started : list DhcpContext }.
Definition slaac_visit (now : SystemTime) (force : bool) (lease : DhcpLease) (w : SlaacWalk) (ctx : DhcpContext) : SlaacWalk :=
  match slaac_candidate lease ctx with
  | None => w
  | Some addr =>
    match take_entry addr (wk_old w) with
    | Some (existing, old) =>
      let entry := if force then mkSlaac (sl_addr existing) (Some now) 1 else existing in
      mkWalk old (wk_new w ++ [entry]) (wk_dirty w || force) (wk_started w)
    | None => mkWalk (wk_old w) (wk_new w ++ [mkSlaac addr (Some now) 1]) (wk_dirty w) (wk_started w ++ [ctx])
    end
  end.
(** The lease, whether names have changed, and the ranges passed to
    [ra_start_unsolicited]. *)
Definition slaac_add_addrs (now : SystemTime) (force : bool) (contexts : list DhcpContext) (lease : DhcpLease) : DhcpLease * bool * list DhcpContext :=
  if negb (slaac_eligible lease) then (lease, false, [])
  else
    let w := fold_left (slaac_visit now force lease) contexts (mkWalk (dl_slaac_address lease) [] false []) in
    (set_dl_slaac_address (wk_new w) lease, wk_dirty w || negb (length (wk_old w) =? 0)%nat, wk_started w).

(** ** Probes *)

Definition ICMP6_ECHO_REQUEST : Z := 128.
Definition ICMP6_ECHO_REPLY : Z := 129.
Definition EHOSTUNREACH : Z := 113.

Definition build_ping_packet (ping_id seq : Z) : list u8 := [z8 ICMP6_ECHO_REQUEST; z8 0; z8 0; z8 0] ++ to_be 2 ping_id ++ to_be 2 seq.
Definition parse_ping_packet (data : list u8) : option (Z * Z * Z * Z) :=
  if (length data <? 8)%nat then None else Some (u8_at data 0, u8_at data 1, be16_at data 4, be16_at data 6).

Section Probing.
(** The [n]th random number, and what the [n]th packet sent meets: an error
    may have a number of the system. *)
Context (rand16 : nat -> Z) (send : nat -> Ipv6Addr -> list u8 -> result unit (option Z)).

Record Tick : Type := mkTick { tk_rands : nat; tk_sent : list (Ipv6Addr * list u8); tk_next : option SystemTime }.

(** [1u64 << (backoff - 1)] needs a shift below 64. *)
Definition probe_delay (backoff : Z) (n : nat) : outcome (Z * nat) :=
  if (backoff - 1 <? 0) || (64 <=? backoff - 1) then Panic
  else
    let delay_secs := as_u64 (Z.shiftl 1 (backoff - 1)) + rand16 n / 21785 in
    if 4 <? backoff then Val (delay_secs + rand16 (S n) / 4000, S (S n)) else Val (delay_secs, S n).

(** A probe that is due. *)
Definition probe_due (ping_time : SystemTime) (ping_id : Z) (s : SlaacAddress) (t : Tick) : outcome (SlaacAddress * Tick) :=
  let packet := build_ping_packet ping_id (as_u16 (sl_backoff s)) in
  let result := send (length (tk_sent t)) (sl_addr s) packet in
  let t := mkTick (tk_rands t) (tk_sent t ++ [(sl_addr s, packet)]) (tk_next t) in
  let unreachable := match result with Err (Some errno) => errno =? EHOSTUNREACH | _ => false end in
  if unreachable && (sl_backoff s =? 12) then Val (mkSlaac (sl_addr s) None (sl_backoff s), t)
  else
    let# (delay_secs, n) := probe_delay (sl_backoff s) (tk_rands t) in
    Val (mkSlaac (sl_addr s) (Some (ping_time + delay_secs * 1000000000)) (if sl_backoff s <? 12 then sl_backoff s + 1 else sl_backoff s),
         mkTick n (tk_sent t) (tk_next t)).
(** The earlier of the event known and the next probe. *)
Definition earliest (next_event ping_time : option SystemTime) : option SystemTime :=
  match ping_time with
  | None => next_event
  | Some pt => match next_event with Some ne => if pt <=? ne then Some pt else next_event | None => Some pt end
  end.
Definition probe (now : SystemTime) (ping_id : Z) (s : SlaacAddress) (t : Tick) : outcome (SlaacAddress * Tick) :=
  if sl_backoff s =? 0 then Val (s, t)
  else match sl_ping_time s with
  | None => Val (s, t)
  | Some ping_time =>
    let# (s, t) := (if ping_time <=? now then probe_due ping_time ping_id s t else Val (s, t)) in
    Val (s, mkTick (tk_rands t) (tk_sent t) (earliest (tk_next t) (sl_ping_time s)))
  end.
Fixpoint probe_addresses (now : SystemTime) (ping_id : Z) (l : list SlaacAddress) (t : Tick) : outcome (list SlaacAddress * Tick) :=
  match l with
  | [] => Val ([], t)
  | s :: l =>
    let# (s, t) := probe now ping_id s t in
    let# (l, t) := probe_addresses now ping_id l t in
    Val (s :: l, t)
  end.
Fixpoint probe_leases (now : SystemTime) (ping_id : Z) (ls : list (Key * DhcpLease)) (t : Tick) : outcome (list (Key * DhcpLease) * Tick) :=
  match ls with
  | [] => Val ([], t)
  | (k, lease) :: ls =>
    let# (addrs, t) := probe_addresses now ping_id (dl_slaac_address lease) t in
    let# (ls, t) := probe_leases now ping_id ls t in
    Val ((k, set_dl_slaac_address addrs lease) :: ls, t)
  end.
(** The leases, what was sent, and when to wake up next. *)
Definition periodic_slaac (now : SystemTime) (contexts : list DhcpContext) (ls : list (Key * DhcpLease)) (ping_id : Z)
  : outcome (list (Key * DhcpLease) * list (Ipv6Addr * list u8) * option SystemTime) :=
  if existsb (fun c => flag_contains (cx_flags c) ContextFlags.RA_NAME && negb (flag_contains (cx_flags c) ContextFlags.OLD)) contexts then
    let# (ls, t) := probe_leases now ping_id ls (mkTick 0 [] None) in
    Val (ls, tk_sent t, tk_next t)
  else Val (ls, [], None).
End Probing.

(** The type of the message is not looked at. *)
Definition answers_probe (sender : Ipv6Addr) (s : SlaacAddress) : bool := negb (sl_backoff s =? 0) && (sl_addr s =? sender).
Definition confirm_address (sender : Ipv6Addr) (s : SlaacAddress) : SlaacAddress :=
  if answers_probe sender s then mkSlaac (sl_addr s) (sl_ping_time s) 0 else s.
Definition slaac_ping_reply (sender : Ipv6Addr) (packet : list u8) (ping_id : Z) (lease : DhcpLease) : bool * DhcpLease :=
  match parse_ping_packet packet with
  | Some (_, _, identifier, _) =>
    if identifier =? ping_id then
      (existsb (answers_probe sender) (dl_slaac_address lease), set_dl_slaac_address (confirm_address sender <$> dl_slaac_address lease) lease)
    else (false, lease)
  | None => (false, lease)
  end.

(** ** On the database: src/src/lease.rs *)

Section Database.
Context `{HashOrder}.

(** The ranges the callback is told of come with the database. *)
Definition refresh_slaac (now : SystemTime) (contexts : list DhcpContext) (force : bool) (db : LeaseDb) : list DhcpContext * LeaseDb :=
  let visit := slaac_add_addrs now force contexts in
  (mjoin ((fun l => snd (visit l)) <$> values (leases db)),
   with_dirty false (existsb (fun l => snd (fst (visit l))) (values (leases db))) (with_leases ((fun l => fst (fst (visit l))) <$> leases db) db)).
Definition tick_slaac (rand16 : nat -> Z) (send : nat -> Ipv6Addr -> list u8 -> result unit (option Z)) (now : SystemTime) (contexts : list DhcpContext)
    (ping_id : Z) (db : LeaseDb) : outcome (list (Ipv6Addr * list u8) * option SystemTime * LeaseDb) :=
  let# (ls, sent, next) := periodic_slaac rand16 send now contexts (iter_order (leases db)) ping_id in
  Val (sent, next, with_leases (list_to_map ls) db).
Definition confirm_slaac_ping (sender : Ipv6Addr) (packet : list u8) (ping_id : Z) (db : LeaseDb) : LeaseDb :=
  let reply := slaac_ping_reply sender packet ping_id in
  with_dirty false (existsb (fun l => fst (reply l)) (values (leases db))) (with_leases ((fun l => snd (reply l)) <$> leases db) db).
End Database.
