(* ===== verification/SlaacSpec.v ===== *)
(** * What SLAAC bookkeeping promises

    A refresh gives a lease exactly the addresses its ranges call for and is
    stable; a tick probes exactly what is due and wakes up in time. *)

From Stdlib Require Import ZArith Lia String.
From stdpp Require Import base numbers list option gmap.
From S2P Require Import Prelude Types DhcpTypes DhcpCommon Edns0 Lease Slaac.

#[local] Open Scope Z_scope.

(** ** Refreshing *)

#[local] Instance SlaacAddress_eq_dec : EqDecision SlaacAddress.
Proof. solve_decision. Defined.

Lemma take_entry_Some addr old e rest : take_entry addr old = Some (e, rest) ->
  exists pre post, old = pre ++ e :: post /\ rest = pre ++ post /\ sl_addr e = addr.
Proof.
  revert e rest. induction old as [|s old IH]; intros e rest H; [done|]. cbn in H. destruct (sl_addr s =? addr) eqn:E.
  - injection H as <- <-. exists [], old. split_and!; [done..|by apply Z.eqb_eq].
  - destruct (take_entry addr old) as [[e' rest']|]; [|done]. injection H as <- <-. destruct (IH _ _ eq_refl) as (pre & post & -> & -> & Ha).
    by exists (s :: pre), post.
Qed.
Lemma take_entry_None addr old : take_entry addr old = None -> addr ∉ sl_addr <$> old.
Proof.
  induction old as [|s old IH]; intros H; [by intros ?%elem_of_nil|]. cbn in H. destruct (sl_addr s =? addr) eqn:E; [done|].
  destruct (take_entry addr old) as [[]|]; [done|]. apply Z.eqb_neq in E. cbn. intros [->|Hin]%elem_of_cons; [done|by apply IH].
Qed.

Section Refresh.
Context (now : SystemTime) (force : bool) (lease : DhcpLease) (old0 : list SlaacAddress).
Let visit := slaac_visit now force lease.
Let cand := slaac_candidate lease.

(** An entry after a visit: kept, or to be probed at once. *)
Definition entry_ok (e : SlaacAddress) : Prop := force = false /\ e ∈ old0 \/ sl_ping_time e = Some now /\ sl_backoff e = 1.

Lemma visits_addrs ctxs w : sl_addr <$> wk_new (fold_left visit ctxs w) = (sl_addr <$> wk_new w) ++ omap cand ctxs.
Proof using.
  revert w. induction ctxs as [|c ctxs IH]; intros w; cbn; [by rewrite app_nil_r|]. rewrite IH. unfold visit, slaac_visit. fold cand.
  destruct (cand c) as [a|] eqn:E; [|done]. destruct (take_entry a (wk_old w)) as [[e old]|] eqn:Et; cbn [wk_new].
  - apply take_entry_Some in Et as (_ & _ & _ & _ & <-). rewrite fmap_app, <- app_assoc. by destruct force.
  - by rewrite fmap_app, <- app_assoc.
Qed.

Lemma visits_entries ctxs w : (forall e, e ∈ wk_old w -> e ∈ old0) -> Forall entry_ok (wk_new w) -> Forall entry_ok (wk_new (fold_left visit ctxs w)).
Proof using.
  revert w. induction ctxs as [|c ctxs IH]; intros w Ho Hn; [done|]. cbn. apply IH; unfold visit, slaac_visit; fold cand.
  - destruct (cand c) as [a|]; [|done]. destruct (take_entry a (wk_old w)) as [[e old]|] eqn:Et; [|done]. cbn [wk_old].
    apply take_entry_Some in Et as (pre & post & E & -> & _). intros x Hx. apply Ho. rewrite E. apply elem_of_app in Hx as [?|?]; apply elem_of_app; [by left|right; by right].
  - destruct (cand c) as [a|]; [|done]. destruct (take_entry a (wk_old w)) as [[e old]|] eqn:Et; cbn [wk_new]; apply Forall_app; (split; [done|]); apply Forall_singleton.
    + apply take_entry_Some in Et as (pre & post & E & -> & _). destruct force eqn:Ef; [by right|left]. split; [done|]. apply Ho. rewrite E. apply elem_of_app. right. by left.
    + by right.
Qed.

(** Entries of the old list stay until their turn. *)
Lemma visits_kept e ctxs w : force = false -> NoDup (sl_addr <$> wk_old w) -> e ∈ wk_old w ->
  sl_addr e ∈ omap cand ctxs -> e ∈ wk_new (fold_left visit ctxs w).
Proof using.
  intros Hf. assert (forall ctxs w, e ∈ wk_new w -> e ∈ wk_new (fold_left visit ctxs w)) as Hstay.
  { intros cs. induction cs as [|c cs IH]; intros v Hin; [done|]. cbn. apply IH. unfold visit, slaac_visit. fold cand. destruct (cand c); [|done].
    destruct (take_entry _ _) as [[]|]; cbn [wk_new]; apply elem_of_app; by left. }
  revert w. induction ctxs as [|c ctxs IH]; intros w Hnd Hin Hc; [by apply elem_of_nil in Hc|]. cbn in Hc |- *.
  unfold visit at 2, slaac_visit. fold cand. destruct (cand c) as [a|] eqn:Ec; [|by apply IH].
  destruct (take_entry a (wk_old w)) as [[e' old]|] eqn:Et.
  - apply take_entry_Some in Et as (pre & post & E & -> & Ha). rewrite E in Hin, Hnd. destruct (decide (e' = e)) as [->|Hne].
    + apply Hstay. cbn [wk_new]. rewrite Hf. apply elem_of_app. right. by left.
    + rewrite fmap_app in Hnd. cbn in Hnd. apply NoDup_app in Hnd as (N1 & N2 & N3). apply NoDup_cons in N3 as [N3 N4].
      assert (e ∈ pre ++ post) as Hin' by (apply elem_of_app; apply elem_of_app in Hin as [?|[?|?]%elem_of_cons]; [by left|by destruct Hne|by right]).
      assert (sl_addr e <> a) as Hea.
      { rewrite <- Ha. intros Heq. apply elem_of_app in Hin' as [Hp|Hp].
        - apply (N2 (sl_addr e)); [by apply list_elem_of_fmap_2|]. rewrite Heq. by left.
        - apply N3. rewrite <- Heq. by apply list_elem_of_fmap_2. }
      apply elem_of_cons in Hc as [?|Hc]; [done|]. apply IH; cbn [wk_old]; [|done..].
      rewrite fmap_app. apply NoDup_app. split_and!; [done| |done]. intros x Hx Hx'. apply (N2 x Hx). by right.
  - apply take_entry_None in Et. apply elem_of_cons in Hc as [<-|Hc]; [by destruct Et; apply list_elem_of_fmap_2|]. by apply IH.
Qed.

(** With the entries in the order of the ranges, each visit takes the head. *)
Lemma visits_stable ctxs rest w : force = false -> sl_addr <$> wk_old w = omap cand ctxs ++ rest ->
  let w' := fold_left visit ctxs w in
  wk_old w' = drop (length (omap cand ctxs)) (wk_old w) /\ wk_new w' = wk_new w ++ take (length (omap cand ctxs)) (wk_old w)
  /\ wk_dirty w' = wk_dirty w /\ wk_started w' = wk_started w.
Proof using.
  intros Hf. revert w. induction ctxs as [|c ctxs IH]; intros w E; cbn in *; [by rewrite drop_0, app_nil_r|].
  unfold visit at 2 4 6 8, slaac_visit. fold cand. destruct (cand c) as [a|]; [|by apply IH]. destruct (wk_old w) as [|s old] eqn:Ew; [done|]. cbn in E.
  injection E as Ea E. cbn [take_entry]. rewrite (proj2 (Z.eqb_eq _ _) Ea). rewrite Hf.
  destruct (IH (mkWalk old (wk_new w ++ [s]) (wk_dirty w || false) (wk_started w)) E) as (A & B & C & D). cbn [wk_old wk_new wk_dirty wk_started] in *.
  rewrite A, B, C, D. split_and!; [done|by rewrite <- app_assoc|apply orb_false_r|done].
Qed.
End Refresh.

Lemma eligible_slaac v l : slaac_eligible (set_dl_slaac_address v l) = slaac_eligible l.
Proof. done. Qed.

(** A refresh gives a lease exactly the addresses the ranges call for, in
    their order. An entry is one the lease had, unchanged, unless a recheck is
    forced or it is new, when it is to be probed at once; entries with an address
    that is still called for are all kept, with the state of their probes. A
    further refresh with the same ranges changes nothing: no probe starts over,
    no names are published again, and no advertisement is asked for. *)
Theorem slaac_refresh_exact now force ctxs lease lease' dirty started : slaac_eligible lease = true ->
  slaac_add_addrs now force ctxs lease = (lease', dirty, started) ->
  (sl_addr <$> dl_slaac_address lease') = omap (slaac_candidate lease) ctxs /\
  Forall (entry_ok now force (dl_slaac_address lease)) (dl_slaac_address lease') /\
  (force = false -> NoDup (sl_addr <$> dl_slaac_address lease) ->
     forall e, e ∈ dl_slaac_address lease -> sl_addr e ∈ omap (slaac_candidate lease) ctxs -> e ∈ dl_slaac_address lease') /\
  (exists addrs, lease' = set_dl_slaac_address addrs lease) /\
  forall later, slaac_add_addrs later false ctxs lease' = (lease', false, []).
Proof.
  intros He H. unfold slaac_add_addrs in H. rewrite He in H. cbn [negb] in H. set (w0 := mkWalk (dl_slaac_address lease) [] false []) in *.
  set (w := fold_left _ ctxs w0) in H. injection H as <- <- <-.
  pose proof (visits_addrs now force lease ctxs w0) as Ha. fold w in Ha. cbn [w0 wk_new fmap list_fmap app] in Ha.
  assert (dl_slaac_address (set_dl_slaac_address (wk_new w) lease) = wk_new w) as Ew by done. split_and!.
  - by rewrite Ew.
  - rewrite Ew. by apply visits_entries.
  - intros Hf Hnd e Hin Hc. rewrite Ew. by apply visits_kept.
  - by eexists.
  - intros later. unfold slaac_add_addrs. rewrite eligible_slaac, He. cbn [negb]. rewrite Ew. set (w1 := mkWalk (wk_new w) [] false []).
    destruct (visits_stable later false (set_dl_slaac_address (wk_new w) lease) ctxs [] w1 eq_refl) as (A & B & C & D).
    { cbn [w1 wk_old]. by rewrite app_nil_r. }
    cbn [w1 wk_old wk_new wk_dirty wk_started app] in *. rewrite A, B, C, D.
    assert (length (omap (slaac_candidate (set_dl_slaac_address (wk_new w) lease)) ctxs) = length (wk_new w)) as El.
    { change (slaac_candidate (set_dl_slaac_address (wk_new w) lease)) with (slaac_candidate lease). by rewrite <- Ha, length_fmap. }
    by rewrite El, firstn_all, drop_all.
Qed.

(** ** Ticks *)

(** Probing goes on until the twelfth probe. *)
Definition slaac_ok (s : SlaacAddress) : Prop := 0 <= sl_backoff s <= 12.
Definition due (now : SystemTime) (s : SlaacAddress) : bool :=
  negb (sl_backoff s =? 0) && match sl_ping_time s with Some pt => pt <=? now | None => false end.
(** The probe of an address, which numbers the probes. *)
Definition probe_of (ping_id : Z) (s : SlaacAddress) : Ipv6Addr * list u8 := (sl_addr s, build_ping_packet ping_id (sl_backoff s)).
Definition pending_probe (s : SlaacAddress) : option SystemTime := if sl_backoff s =? 0 then None else sl_ping_time s.

(** What a tick does to an address: a probe that was due is repeated after about
    twice the time, or given up after the twelfth. *)
Definition probed (now : SystemTime) (s s' : SlaacAddress) : Prop :=
  if due now s then
    sl_addr s' = sl_addr s /\
    (sl_backoff s = 12 /\ sl_backoff s' = 12 /\ sl_ping_time s' = None \/
     sl_backoff s' = Z.min 12 (sl_backoff s + 1) /\
     exists pt d, sl_ping_time s = Some pt /\ sl_ping_time s' = Some (pt + d * 1000000000) /\ 2 ^ (sl_backoff s - 1) <= d <= 2 ^ (sl_backoff s - 1) + 19)
  else s' = s.

Section Tick.
Context (rand16 : nat -> Z) (send : nat -> Ipv6Addr -> list u8 -> result unit (option Z)) (Hrand : forall n, 0 <= rand16 n < 65536).
Context (now : SystemTime) (ping_id : Z).

Definition earliest_of (next : option SystemTime) (l : list SlaacAddress) : option SystemTime :=
  fold_left (fun next pt => earliest next (Some pt)) (omap pending_probe l) next.

Lemma probe_delay_ok b n : 1 <= b <= 12 -> exists d n', probe_delay rand16 b n = Val (d, n') /\ 2 ^ (b - 1) <= d <= 2 ^ (b - 1) + 19.
Proof using Hrand.
  intros Hb. unfold probe_delay. rewrite (proj2 (Z.ltb_ge _ _)), (proj2 (Z.leb_gt _ _)) by lia. cbn [orb].
  assert (as_u64 (Z.shiftl 1 (b - 1)) = 2 ^ (b - 1)) as ->.
  { rewrite Z.shiftl_mul_pow2 by lia. unfold as_u64. assert (2 ^ (b - 1) <= 2 ^ 11) by (apply Z.pow_le_mono_r; lia).
    assert (0 < 2 ^ (b - 1)) by (apply Z.pow_pos_nonneg; lia). rewrite Z.mod_small; lia. }
  pose proof (Hrand n) as H1. pose proof (Hrand (S n)) as H2.
  assert (0 <= rand16 n / 21785 < 4) by (split; [apply Z.div_pos; lia|apply Z.div_lt_upper_bound; lia]).
  assert (0 <= rand16 (S n) / 4000 < 17) by (split; [apply Z.div_pos; lia|apply Z.div_lt_upper_bound; lia]).
  destruct (4 <? b); (do 2 eexists; split; [done|lia]).
Qed.

Lemma slaac_probe_spec s t : slaac_ok s -> exists s' t', probe rand16 send now ping_id s t = Val (s', t') /\ probed now s s' /\ slaac_ok s' /\
  tk_sent t' = tk_sent t ++ (if due now s then [probe_of ping_id s] else []) /\ tk_next t' = earliest_of (tk_next t) [s'].
Proof using Hrand.
  unfold slaac_ok. intros Hok. destruct s as [a p b]. cbn [sl_backoff] in Hok. unfold probe, probed, due, earliest_of. cbn [sl_backoff sl_ping_time sl_addr].
  destruct (Z.eqb_spec b 0) as [->|Hb]; cbn [negb andb].
  { do 2 eexists. split; [done|]. rewrite app_nil_r. cbn. split_and!; done. }
  destruct p as [pt|]; [|do 2 eexists; split; [done|]; rewrite app_nil_r; cbn; unfold pending_probe; cbn; rewrite (proj2 (Z.eqb_neq _ _) Hb); split_and!; done || lia].
  destruct (pt <=? now) eqn:Ed; cbn [andb].
  - assert (as_u16 b = b) as Eb by (unfold as_u16; apply Z.mod_small; lia). unfold probe_due. cbn [sl_backoff sl_ping_time sl_addr]. rewrite Eb. cbv zeta.
    set (unreachable := match send _ _ _ with Err (Some errno) => _ | _ => false end). destruct (unreachable && (b =? 12)) eqn:Eu.
    + apply andb_true_iff in Eu as [_ ->%Z.eqb_eq]. do 2 eexists. split; [done|]. cbn. split_and!; [done|by left|done..].
    + destruct (probe_delay_ok b (tk_rands t)) as (d & n' & Ep & Hd); [lia|]. cbn [tk_rands]. rewrite Ep. do 2 eexists. split; [done|].
      assert ((if b <? 12 then b + 1 else b) = Z.min 12 (b + 1)) as Em by (destruct (Z.ltb_spec b 12); lia).
      cbn [sl_addr sl_backoff sl_ping_time tk_sent tk_next]. rewrite Em. split_and!; [done| |lia|lia|done|].
      * right. split; [done|]. by exists pt, d.
      * cbn. unfold pending_probe. cbn [sl_backoff sl_ping_time]. rewrite (proj2 (Z.eqb_neq _ _)) by lia. done.
  - do 2 eexists. split; [done|]. rewrite app_nil_r. cbn. unfold pending_probe. cbn. rewrite (proj2 (Z.eqb_neq _ _) Hb). split_and!; done || lia.
Qed.

Lemma earliest_of_app n a b : earliest_of n (a ++ b) = earliest_of (earliest_of n a) b.
Proof using. unfold earliest_of. by rewrite omap_app, fold_left_app. Qed.

Lemma probe_addresses_spec l t : Forall slaac_ok l -> exists l' t', probe_addresses rand16 send now ping_id l t = Val (l', t') /\
  Forall2 (probed now) l l' /\ Forall slaac_ok l' /\ tk_sent t' = tk_sent t ++ (probe_of ping_id <$> List.filter (due now) l) /\ tk_next t' = earliest_of (tk_next t) l'.
Proof using Hrand.
  intros Hok. revert t. induction Hok as [|s l Hs _ IH]; intros t; cbn [probe_addresses].
  - exists [], t. cbn. by rewrite app_nil_r.
  - destruct (slaac_probe_spec s t Hs) as (s' & t1 & -> & Hp & Hs' & Es & En). destruct (IH t1) as (l' & t2 & -> & Hl & Hl' & Es' & En').
    exists (s' :: l'), t2. split; [done|]. split_and!; [by constructor|by constructor| |].
    + rewrite Es', Es, <- app_assoc. f_equal. cbn [List.filter]. by destruct (due now s).
    + rewrite En', En. change (s' :: l') with ([s'] ++ l'). by rewrite earliest_of_app.
Qed.

(** The addresses of all leases. *)
Definition all_slaac (ls : list (Key * DhcpLease)) : list SlaacAddress := mjoin ((fun kl => dl_slaac_address kl.2) <$> ls).
(** Nothing of a lease but its addresses changes. *)
Definition ticked (kl kl' : Key * DhcpLease) : Prop :=
  kl'.1 = kl.1 /\ exists addrs, kl'.2 = set_dl_slaac_address addrs kl.2 /\ Forall2 (probed now) (dl_slaac_address kl.2) addrs.

Lemma probe_leases_spec ls t : Forall slaac_ok (all_slaac ls) -> exists ls' t', probe_leases rand16 send now ping_id ls t = Val (ls', t') /\
  Forall2 ticked ls ls' /\ Forall slaac_ok (all_slaac ls') /\ tk_sent t' = tk_sent t ++ (probe_of ping_id <$> List.filter (due now) (all_slaac ls)) /\
  tk_next t' = earliest_of (tk_next t) (all_slaac ls').
Proof using Hrand.
  revert t. induction ls as [|[k l] ls IH]; intros t Hok; cbn [probe_leases].
  - exists [], t. cbn. by rewrite app_nil_r.
  - unfold all_slaac in Hok. cbn in Hok. apply Forall_app in Hok as [Hl Hls].
    destruct (probe_addresses_spec (dl_slaac_address l) t Hl) as (addrs & t1 & -> & Hp & Ha & Es & En).
    destruct (IH t1 Hls) as (ls' & t2 & -> & Ht & Hls' & Es' & En'). do 2 eexists. split; [done|]. split_and!.
    + constructor; [|done]. split; [done|]. by exists addrs.
    + unfold all_slaac. cbn. by apply Forall_app.
    + rewrite Es', Es, <- app_assoc. f_equal. unfold all_slaac. cbn. fold (all_slaac ls). by rewrite List.filter_app, fmap_app.
    + rewrite En', En. change (all_slaac ((k, set_dl_slaac_address addrs l) :: ls')) with (addrs ++ all_slaac ls'). by rewrite earliest_of_app.
Qed.

Lemma earliest_of_cons n s l : earliest_of n (s :: l) = earliest_of (match pending_probe s with Some x => earliest n (Some x) | None => n end) l.
Proof using. unfold earliest_of. cbn [omap list_omap]. by destruct (pending_probe s). Qed.
Lemma earliest_of_spec n l : match earliest_of n l with
  | Some e => (n = Some e \/ exists s, s ∈ l /\ pending_probe s = Some e) /\ (forall x, n = Some x -> e <= x) /\ forall s x, s ∈ l -> pending_probe s = Some x -> e <= x
  | None => n = None /\ forall s, s ∈ l -> pending_probe s = None
  end.
Proof using.
  revert n. induction l as [|s l IH]; intros n.
  { cbn. destruct n; [|split; [done|by intros ? ?%elem_of_nil]]. split_and!; [by left|intros ? [= ->]; lia|by intros ?? ?%elem_of_nil]. }
  rewrite earliest_of_cons. destruct (pending_probe s) as [x|] eqn:Ep.
  - specialize (IH (earliest n (Some x))).
    assert (exists m, earliest n (Some x) = Some m /\ (n = Some m \/ m = x) /\ m <= x /\ forall y, n = Some y -> m <= y) as (m & Em & Hm & Hx & Hy).
    { destruct n as [y|]; cbn; [|exists x; split_and!; [done|by right|lia|done]]. destruct (x <=? y) eqn:E.
      - exists x. apply Z.leb_le in E. split_and!; [done|by right|lia|by intros ? [= <-]].
      - exists y. apply Z.leb_gt in E. split_and!; [done|by left|lia|intros ? [= <-]; lia]. }
    rewrite Em in *. destruct (earliest_of (Some m) l) as [e|]; [|by destruct IH]. destruct IH as (I1 & I2 & I3). specialize (I2 m eq_refl). split_and!.
    + destruct I1 as [[= <-]|(s' & ? & ?)]; [destruct Hm as [?| ->]; [by left|right; exists s; split; [by left|done]]|right; exists s'; split; [by right|done]].
    + intros y E. specialize (Hy y E). lia.
    + intros s' y [->|Hin]%elem_of_cons E; [|by apply (I3 s')]. rewrite Ep in E. injection E as <-. lia.
  - specialize (IH n). destruct (earliest_of n l) as [e|].
    + destruct IH as (I1 & I2 & I3). split_and!; [|done|].
      * destruct I1 as [?|(s' & ? & ?)]; [by left|right; exists s'; split; [by right|done]].
      * intros s' y [->|Hin]%elem_of_cons E; [congruence|by apply (I3 s')].
    + destruct IH as [-> I]. split; [done|]. by intros s' [->|Hin]%elem_of_cons; [|apply I].
Qed.
End Tick.

(** C32: a tick of SLAAC probing does exactly what is due. When a range wants
    names, it completes for every set of leases, sends one echo request to each
    address whose probe is due, numbered by its place in the series, and changes
    nothing but the probes: an address that was due is probed again after about
    twice the time (at least 2^(n-1) seconds after the nth probe) or is given up
    after the twelfth. The wake-up time is the earliest probe that is then
    outstanding, and there is none only when none is outstanding. *)
Theorem slaac_tick_exact rand16 send now contexts ls ping_id : (forall n, 0 <= rand16 n < 65536) ->
  (exists c, c ∈ contexts /\ flag_contains (cx_flags c) ContextFlags.RA_NAME = true /\ flag_contains (cx_flags c) ContextFlags.OLD = false) ->
  Forall slaac_ok (all_slaac ls) ->
  exists ls' next, periodic_slaac rand16 send now contexts ls ping_id = Val (ls', probe_of ping_id <$> List.filter (due now) (all_slaac ls), next) /\
    Forall2 (ticked now) ls ls' /\ Forall slaac_ok (all_slaac ls') /\
    match next with
    | Some e => (exists s, s ∈ all_slaac ls' /\ pending_probe s = Some e) /\ forall s x, s ∈ all_slaac ls' -> pending_probe s = Some x -> e <= x
    | None => forall s, s ∈ all_slaac ls' -> pending_probe s = None
    end.
Proof.
  intros Hrand (c & Hc & H1 & H2) Hok. unfold periodic_slaac.
  assert (existsb (fun c => flag_contains (cx_flags c) ContextFlags.RA_NAME && negb (flag_contains (cx_flags c) ContextFlags.OLD)) contexts = true) as ->.
  { apply existsb_exists. exists c. split; [by apply list_elem_of_In|]. by rewrite H1, H2. }
  destruct (probe_leases_spec rand16 send Hrand now ping_id ls (mkTick 0 [] None) Hok) as (ls' & t' & -> & Ht & Hls & -> & ->).
  cbn [tk_next tk_sent app]. do 2 eexists. split; [done|]. split_and!; [done..|]. pose proof (earliest_of_spec None (all_slaac ls')) as H.
  destruct (earliest_of None (all_slaac ls')) as [e|]; [|by destruct H]. destruct H as ([?|H] & _ & H'); [done|by split].
Qed.

(** ** Examples *)

Definition ex_ra_context : DhcpContext :=
  mkContext 3600 0 0 0 0 0 0 0 (ContextFlags.RA_NAME ∣∣ ContextFlags.V6) (mkNetid []) [] (0x20010db8 * 2 ^ 96) (0x20010db8 * 2 ^ 96 + 255) 0 64 2 0 0 0 0 0 0.
Definition ex_host : DhcpLease :=
  set_dl_last_interface 2 (set_dl_hostname (Some (bs "printer")) (set_dl_hwaddr_type 1 (set_dl_hwaddr_len 6
    (set_dl_hwaddr (padded16 [Byte.x00; Byte.x60; Byte.x97; Byte.x00; Byte.x28; Byte.x4c]) (set_dl_flags LeaseFlags.HAVE_HWADDR lease_default))))).
Definition ex_slaac_addr : Ipv6Addr := 0x20010db8000000000260_97fffe00284c.

Lemma slaac_refresh_exact_witness :
  let '(lease, dirty, started) := slaac_add_addrs 1000 false [ex_ra_context] ex_host in
  (sl_addr <$> dl_slaac_address lease) = [ex_slaac_addr] /\ slaac_add_addrs 2000 false [ex_ra_context] lease = (lease, false, []).
Proof.
  destruct (slaac_add_addrs 1000 false [ex_ra_context] ex_host) as [[lease dirty] started] eqn:E.
  destruct (slaac_refresh_exact 1000 false [ex_ra_context] ex_host lease dirty started ltac:(by vm_compute) E) as (H1 & _ & _ & _ & H2).
  split; [|exact (H2 2000)]. rewrite H1. by vm_compute.
Defined.

Lemma slaac_tick_exact_witness :
  let lease := set_dl_slaac_address [mkSlaac ex_slaac_addr (Some 1000) 1; mkSlaac (ex_slaac_addr + 1) (Some 1000) 0] ex_host in
  exists ls next, periodic_slaac (fun _ => 0) (fun _ _ _ => Ok tt) 5000 [ex_ra_context] [([], lease)] 42 =
    Val (ls, [(ex_slaac_addr, build_ping_packet 42 1)], next).
Proof.
  intros lease. destruct (slaac_tick_exact (fun _ => 0) (fun _ _ _ => Ok tt) 5000 [ex_ra_context] [([], lease)] 42) as (ls & next & H & _).
  - done.
  - exists ex_ra_context. split; [by left|]. by split; vm_compute.
  - by repeat constructor.
  - exists ls, next. exact H.
Defined.

(** The type of a message is not looked at: an echo request of the host confirms
    the address like an echo reply. *)
Example slaac_confirmed_by_request :
  let lease := set_dl_slaac_address [mkSlaac ex_slaac_addr (Some 1000) 3] ex_host in
  slaac_ping_reply ex_slaac_addr (build_ping_packet 42 1) 42 lease = (true, set_dl_slaac_address [mkSlaac ex_slaac_addr (Some 1000) 0] lease).
Proof. by vm_compute. Qed.
