(* ===== verification/Dhcp6Loop.v ===== *)
(** * The loop of the DHCPv6 server: [run_dhcp6_loop] of src/src/dhcp6.rs

    The three events the loop waits for, on the database they share, and that
    every sequence of them is handled. The sockets and the clock are the
    events. *)

From Stdlib Require Import ZArith Lia String.
From stdpp Require Import base numbers list option gmap.
From S2P Require Import Prelude ByteCursor Types Util DhcpTypes DhcpCommon Edns0 Lease LeaseFile Rfc3315 Dhcp6 Dhcp6Alloc Dhcp6Wire Dhcp6Spec Slaac SlaacSpec.

#[local] Open Scope Z_scope.

(** The arguments of the loop and the identifier of its probes. *)
Record Dhcp6Loop : Type := mkLoop6 {
  l6_duid : list u8; l6_contexts : list DhcpContext; l6_configs : list DhcpConfig; l6_authoritative : bool;
  l6_port : option Z; l6_ping_id : Z }.

(** A datagram with the time of the clock, the tick of the probes, which need a
    raw socket, with its random numbers and what becomes of what it sends, and
    a message of the raw socket. *)
Inductive Event6 : Type :=
| Datagram6 (data : list u8) (src : MySockAddr) (now_secs : Z) (now : SystemTime)
| ProbeTick (now : SystemTime) (rand16 : nat -> Z) (send : nat -> Ipv6Addr -> list u8 -> result unit (option Z))
| Icmp6 (data : list u8) (sender : Ipv6Addr).

(** What goes out: replies, and probes over the raw socket. *)
Inductive Sent6 : Type := Reply6 (dest : MySockAddr) (data : list u8) | Probe6 (dest : Ipv6Addr) (data : list u8).

Section Loop.
Context `{Hord : HashOrder}.

Definition dhcp6_event (cfg : Dhcp6Loop) (e : Event6) (db : LeaseDb) : outcome (list Sent6 * LeaseDb) :=
  match e with
  | Datagram6 data src now_secs now =>
    match parse_dhcp6_packet data with
    | Err _ => Val ([], db)
    | Ok pkt =>
      let# (reply, db) := dispatch_dhcp6 pkt (l6_duid cfg) (mkReqCtx (l6_contexts cfg) (l6_configs cfg) (l6_authoritative cfg) now_secs) db in
      let '(_, db) := refresh_slaac now (l6_contexts cfg) false db in
      Val (match reply with Some r => [Reply6 (dhcp6_reply_dest src (l6_port cfg)) (to_wire6 r)] | None => [] end, db)
    end
  | ProbeTick now rand16 send =>
    let# (sent, _, db) := tick_slaac rand16 send now (l6_contexts cfg) (l6_ping_id cfg) db in
    Val ((fun '(a, p) => Probe6 a p) <$> sent, db)
  | Icmp6 data sender => Val ([], confirm_slaac_ping sender data (l6_ping_id cfg) db)
  end.
Fixpoint run_dhcp6_loop (cfg : Dhcp6Loop) (events : list Event6) (db : LeaseDb) : outcome (list Sent6 * LeaseDb) :=
  match events with
  | [] => Val ([], db)
  | e :: events =>
    let# (sent, db) := dhcp6_event cfg e db in
    let# (rest, db) := run_dhcp6_loop cfg events db in
    Val (sent ++ rest, db)
  end.

(** ** The invariant *)

Definition slaac_leases_ok (db : LeaseDb) : Prop := forall k l, leases db !! k = Some l -> Forall slaac_ok (dl_slaac_address l).
Record loop_ok (db : LeaseDb) : Prop := { lo_db : db_ok db; lo_v6 : v6_ok db; lo_slaac : slaac_leases_ok db }.

(** Only the addresses of hosts change, key by key. *)
Lemma readdressed_ok db m (g : Key -> DhcpLease -> list SlaacAddress) file dns : (forall k, m !! k = (fun l => set_dl_slaac_address (g k l) l) <$> leases db !! k) ->
  (forall k l, leases db !! k = Some l -> Forall slaac_ok (g k l)) -> loop_ok db -> loop_ok (with_dirty file dns (with_leases m db)).
Proof.
  intros Hm Hg [H1 [Hu Ht] H3]. split; cbn.
  - apply dirty_ok. apply (map_ok db (fun k l => set_dl_slaac_address (g k l) l)); [done| |done]. intros k l. by split_and!; [..|left].
  - assert (forall k l', m !! k = Some l' -> exists l, leases db !! k = Some l /\ dl_addr6 l' = dl_addr6 l /\ Lease.is_v6 l' = Lease.is_v6 l) as Hinv.
    { intros k l' Hl'. rewrite Hm in Hl'. destruct (leases db !! k) as [l|]; [|done]. injection Hl' as <-. by exists l. }
    split; cbn [leases with_dirty with_leases].
    + intros k1 k2 l1 l2 a E1 E2 V1 V2. destruct (Hinv _ _ E1) as (m1 & F1 & A1 & B1), (Hinv _ _ E2) as (m2 & F2 & A2 & B2).
      unfold v6_at in *. rewrite A1, B1 in V1. rewrite A2, B2 in V2. by apply (Hu k1 k2 m1 m2 a).
    + intros k l' Hl'. destruct (Hinv _ _ Hl') as (l & F & -> & _). by apply (Ht k).
  - intros k l' Hl'. cbn [leases with_dirty with_leases] in Hl'. rewrite Hm in Hl'. destruct (leases db !! k) as [l|] eqn:E; [|done]. injection Hl' as <-.
    by apply Hg.
Qed.

Lemma confirmed_ok sender l : Forall slaac_ok l -> Forall slaac_ok (confirm_address sender <$> l).
Proof. intros H. apply Forall_fmap. eapply Forall_impl; [exact H|]. intros s Hs. cbn. unfold confirm_address, slaac_ok in *. by case_match; cbn. Qed.
Lemma confirm_ok sender data id db : loop_ok db -> loop_ok (confirm_slaac_ping sender data id db).
Proof.
  intros Hok. unfold confirm_slaac_ping, slaac_ping_reply.
  set (hit := match parse_ping_packet data with Some (_, _, i, _) => i =? id | None => false end).
  apply (readdressed_ok db _ (fun _ l => if hit then confirm_address sender <$> dl_slaac_address l else dl_slaac_address l)); [| |done].
  - intros k. rewrite lookup_fmap. destruct (leases db !! k) as [l|]; [|done]. cbn. f_equal. unfold hit.
    destruct (parse_ping_packet data) as [[[[? ?] i] ?]|]; [destruct (i =? id)|]; by destruct l.
  - intros k l Hl. pose proof (lo_slaac _ Hok k l Hl). destruct hit; [by apply confirmed_ok|done].
Qed.

Lemma added_ok now force ctxs l : Forall slaac_ok (dl_slaac_address l) -> exists addrs,
  fst (fst (slaac_add_addrs now force ctxs l)) = set_dl_slaac_address addrs l /\ Forall slaac_ok addrs.
Proof.
  intros Hok. unfold slaac_add_addrs. destruct (slaac_eligible l); cbn [negb fst]; [|exists (dl_slaac_address l); by destruct l].
  eexists. split; [done|]. eapply Forall_impl; [by apply (visits_entries now force l (dl_slaac_address l) ctxs (mkWalk (dl_slaac_address l) [] false []))|].
  intros e [[_ He]|[_ Hb]]; [by apply (proj1 (Forall_forall _ _) Hok)|]. unfold slaac_ok. lia.
Qed.
Lemma refresh_ok now ctxs force db : loop_ok db -> loop_ok (snd (refresh_slaac now ctxs force db)).
Proof.
  intros Hok. unfold refresh_slaac. cbn [snd].
  apply (readdressed_ok db _ (fun _ l => dl_slaac_address (fst (fst (slaac_add_addrs now force ctxs l))))); [| |done].
  - intros k. rewrite lookup_fmap. destruct (leases db !! k) as [l|] eqn:E; [|done]. cbn. f_equal.
    destruct (added_ok now force ctxs l (lo_slaac _ Hok k l E)) as (addrs & -> & _). done.
  - intros k l Hl. destruct (added_ok now force ctxs l (lo_slaac _ Hok k l Hl)) as (addrs & -> & Ha). exact Ha.
Qed.

(** A list of leases changed in place is a map changed in place. *)
Lemma ticked_lookup (now : SystemTime) (m : gmap Key DhcpLease) (ls' : list (Key * DhcpLease)) (k : Key) : Forall2 (ticked now) (iter_order m) ls' ->
  (list_to_map ls' : gmap Key DhcpLease) !! k =
    (fun l => set_dl_slaac_address (default [] (dl_slaac_address <$> (list_to_map ls' : gmap Key DhcpLease) !! k)) l) <$> m !! k.
Proof.
  intros Ht. assert (m = list_to_map (iter_order m)) as Em.
  { rewrite (list_to_map_proper (iter_order m) (map_to_list m)); [by rewrite list_to_map_to_list| |apply iter_order_perm].
    rewrite iter_order_perm. apply NoDup_fst_map_to_list. }
  assert (forall ls, Forall2 (ticked now) ls ls' -> (list_to_map ls' : gmap Key DhcpLease) !! k =
    (fun l => set_dl_slaac_address (default [] (dl_slaac_address <$> (list_to_map ls' : gmap Key DhcpLease) !! k)) l) <$> (list_to_map ls : gmap Key DhcpLease) !! k) as H.
  { clear. intros ls Ht. induction Ht as [|[k1 l1] [k2 l2] ls ls' [Hk (addrs & Hl & _)] _ IH]; [by cbn; rewrite !lookup_empty|]. cbn [fst snd] in *. subst k2 l2. cbn [list_to_map foldr].
    destruct (decide (k1 = k)) as [->|Hne]; [by rewrite !lookup_insert_eq|]. by rewrite !lookup_insert_ne by done. }
  rewrite (H (iter_order m) Ht) at 1. by rewrite <- Em.
Qed.

(** What is asked of the arguments and of the clock: lease times that
    [calculate_times] can multiply, or the infinite one, and seconds far from
    the end of the type. *)
Definition servable (lease_time : Z) : Prop := 0 <= lease_time < 2 ^ 30 \/ lease_time = 0xFFFFFFFF.
Definition servable_ranges (ctxs : list DhcpContext) : Prop := forall c, c ∈ ctxs -> servable (cx_lease_time c).
Definition loop_config_ok (cfg : Dhcp6Loop) : Prop := servable_ranges (l6_contexts cfg).
Definition event_ok (e : Event6) : Prop :=
  match e with
  | Datagram6 _ _ now_secs _ => 0 <= now_secs < 2 ^ 62
  | ProbeTick _ rand16 _ => forall n, 0 <= rand16 n < 65536
  | Icmp6 _ _ => True
  end.

Lemma dirty_false db : with_dirty false false db = db.
Proof. destruct db. unfold with_dirty. cbn. by rewrite !orb_false_r. Qed.
Lemma tick_ok rand16 send now ctxs id db : (forall n, 0 <= rand16 n < 65536) -> loop_ok db ->
  exists sent next db', tick_slaac rand16 send now ctxs id db = Val (sent, next, db') /\ loop_ok db'.
Proof.
  intros Hr Hok. unfold tick_slaac, periodic_slaac. pose proof (lo_slaac _ Hok) as Hs.
  assert (Forall slaac_ok (all_slaac (iter_order (leases db)))) as Ha.
  { apply Forall_forall. intros s (l & Hs' & Hl)%list_elem_of_join. apply list_elem_of_fmap in Hl as ([k lease] & -> & Hk). rewrite iter_order_perm in Hk.
    apply elem_of_map_to_list in Hk. by apply (proj1 (Forall_forall _ _) (Hs k lease Hk)). }
  destruct (existsb _ ctxs).
  - destruct (probe_leases_spec rand16 send Hr now id (iter_order (leases db)) (mkTick 0 [] None) Ha) as (ls' & t' & -> & Ht & Hls & _ & _).
    do 3 eexists. split; [done|]. rewrite <- dirty_false. apply (readdressed_ok db _ (fun k _ => default [] (dl_slaac_address <$> (list_to_map ls' : gmap Key DhcpLease) !! k)) false false); [|
      |done].
    + intros k. by apply (ticked_lookup now).
    + intros k l _. destruct ((list_to_map ls' : gmap Key DhcpLease) !! k) as [l'|] eqn:E; [|by constructor]. cbn. apply elem_of_list_to_map_2 in E.
      apply Forall_forall. intros s Hin. apply (proj1 (Forall_forall _ _) Hls). apply list_elem_of_join. exists (dl_slaac_address l'). split; [done|].
      apply list_elem_of_fmap. by exists (k, l').
  - do 3 eexists. split; [done|]. assert (list_to_map (iter_order (leases db)) = leases db) as ->.
    { rewrite (list_to_map_proper (iter_order (leases db)) (map_to_list (leases db))); [apply list_to_map_to_list| |apply iter_order_perm].
      rewrite iter_order_perm. apply NoDup_fst_map_to_list. }
    by destruct db.
Qed.

(** No handler panics. *)
Lemma times_total ctxs a : servable_ranges ctxs ->
  exists p v t1 t2, compute_times_for_addr ctxs a = Val (p, v, t1, t2) /\ 0 <= v < 2 ^ 32.
Proof using.
  intros Hc. unfold compute_times_for_addr.
  assert (servable (match context_for_addr ctxs a with Some c => cx_lease_time c | None => 3600 end)) as Ht.
  { destruct (context_for_addr ctxs a) as [c|] eqn:E; [|by left]. apply find_some in E as [Hin _]. by apply Hc, list_elem_of_In. }
  set (t := match context_for_addr ctxs a with Some c => _ | None => _ end) in *. unfold calculate_times.
  destruct Ht as [Ht | ->]; [|by do 4 eexists]. rewrite (proj2 (Z.eqb_neq t _)), (proj2 (Z.ltb_ge _ (t * 4))) by lia. do 4 eexists. split; [done|lia].
Qed.
Lemma persist_total db c iaid a ctxs now_secs : servable_ranges ctxs -> 0 <= now_secs < 2 ^ 62 ->
  exists x, persist_lease db c iaid a ctxs now_secs = Val x.
Proof using.
  intros Hc Hn. destruct (times_total ctxs a Hc) as (p & v & t1 & t2 & E & Hv). unfold persist_lease. rewrite E. unfold unix_time.
  rewrite (proj2 (Z.ltb_lt _ (2 ^ 63))) by lia. destruct (_ =? _); by eexists.
Qed.
Lemma solicit_style_total xid duid c iaid ctx db addr persist t rapid : servable_ranges (rx_contexts ctx) ->
  0 <= rx_now_secs ctx < 2 ^ 62 -> exists r, build_solicit_style_reply xid duid c iaid ctx db addr persist t rapid = Val r.
Proof using.
  intros Hc Hn. unfold build_solicit_style_reply. destruct addr as [a|]; [|by eexists]. destruct persist.
  - destruct (persist_total db c iaid a _ _ Hc Hn) as [[[[[p v] t1] t2] db'] ->]. by eexists.
  - destruct (times_total _ a Hc) as (p & v & t1 & t2 & -> & _). by eexists.
Qed.
Lemma dispatch_total pkt duid ctx db : servable_ranges (rx_contexts ctx) -> 0 <= rx_now_secs ctx < 2 ^ 62 ->
  exists r, dispatch_dhcp6 pkt duid ctx db = Val r.
Proof using.
  intros Hc Hn. unfold dispatch_dhcp6.
  assert (forall rebind, exists r, dispatch_renew_rebind pkt duid ctx rebind db = Val r) as Hrenew.
  { intros rebind. unfold dispatch_renew_rebind. cbv zeta. destruct (extract_ia pkt) as [[ia iaid]|]; [|by eexists]. destruct (ia_na_first_addr ia) as [a|]; [|by eexists].
    destruct (persist_total db (extract_client_id pkt) iaid a _ _ Hc Hn) as [[[[[p v] t1] t2] db'] ->]. repeat case_match; by eexists. }
  destruct (p6_type pkt); try (by eexists); try apply Hrenew.
  - unfold dispatch_solicit. destruct (extract_ia pkt) as [[ia iaid]|]; [|by eexists]. cbv zeta.
    destruct (solicit_style_total (p6_xid pkt) duid (extract_client_id pkt) iaid ctx db (select_address_for_ia (rx_contexts ctx) (rx_configs ctx) db (extract_client_id pkt) iaid (ia_na_first_addr ia))
      (bool_decide (is_Some (find_option6 (p6_options pkt) OPTION6_RAPID_COMMIT))) (if bool_decide (is_Some (find_option6 (p6_options pkt) OPTION6_RAPID_COMMIT)) then Reply else Advertise)
      (bool_decide (is_Some (find_option6 (p6_options pkt) OPTION6_RAPID_COMMIT))) Hc Hn) as [[r db'] ->]. by eexists.
  - unfold dispatch_request. cbv zeta. destruct (extract_ia pkt) as [[ia iaid]|]; [|by eexists]. destruct (ia_na_first_addr ia) as [a|].
    + destruct (request_verdict _ _ _ _ _) as [[code msg]|]; [by eexists|].
      destruct (persist_total db (extract_client_id pkt) iaid a _ _ Hc Hn) as [[[[[p v] t1] t2] db'] ->]. by eexists.
    + destruct (solicit_style_total (p6_xid pkt) duid (extract_client_id pkt) iaid ctx db (select_address_for_ia (rx_contexts ctx) (rx_configs ctx) db (extract_client_id pkt) iaid None)
        true Reply false Hc Hn) as [[r db'] ->]. by eexists.
Qed.

Lemma steps_db_ok db db' : rtc lease_step db db' -> db_ok db -> db_ok db'.
Proof using. induction 1 as [|x y z Hs _ IH]; [done|]. intros Hok. apply IH. by apply (lease_step_ok x). Qed.
Lemma effect_loop_ok pkt ctx db d db' : loop_ok db -> effect pkt ctx db d db' -> loop_ok db'.
Proof using.
  intros [H1 H2 H3] He. destruct (effect_spec _ _ _ _ _ H2 He) as (Hr & Hv & _). split; [by apply (steps_db_ok db)|done|].
  destruct He as [d' _|iaid a p v t1 t2 db1 _ _ Hp|d' iaid a b db1 _ _ Hrm]; [done|..].
  - destruct (persist_spec _ _ _ _ _ _ _ _ _ _ _ H2 Hp) as (_ & _ & e & _ & [Hb|(-> & _)]); [|done].
    destruct Hb as (l' & _ & _ & _ & _ & Hsl & Hl' & Hf). intros k l Hl. destruct (decide (k = lease_key l')) as [->|N].
    + assert (l = l') as -> by congruence. destruct Hsl as [-> |(k0 & l0 & Hl0 & ->)]; [by constructor|by apply (H3 k0)].
    + apply Hf in Hl as [Hl _]; [|done]. by apply (H3 k).
  - destruct (remove_v6_spec _ _ _ _ _ _ Hrm) as [Hs _]. intros k l Hl. apply (H3 k l). by apply (lookup_weaken (leases db1)).
Qed.

(** What an event sends. *)
Definition sent_for (cfg : Dhcp6Loop) (e : Event6) (s : Sent6) : Prop :=
  match s with
  | Reply6 dest _ => exists data src now_secs now, e = Datagram6 data src now_secs now /\ dest = dhcp6_reply_dest src (l6_port cfg)
  | Probe6 _ _ => exists now rand16 send, e = ProbeTick now rand16 send
  end.

Lemma event_total cfg e db : loop_config_ok cfg -> event_ok e -> loop_ok db ->
  exists sent db', dhcp6_event cfg e db = Val (sent, db') /\ loop_ok db' /\ Forall (sent_for cfg e) sent.
Proof using.
  intros Hc He Hok. destruct e as [data src now_secs now|now rand16 send|data sender]; cbn [dhcp6_event event_ok] in *.
  - destruct (parse_dhcp6_packet data) as [pkt|]; [|by do 2 eexists].
    set (ctx := mkReqCtx _ _ _ now_secs). destruct (dispatch_total pkt (l6_duid cfg) ctx db Hc He) as [[r db1] E]. rewrite E.
    assert (loop_ok db1) as Hok1.
    { apply dispatch_answers in E as [[_ ->]|(reply & _ & d & _ & Hd & _)]; [done|by apply effect_loop_ok in Hd|by destruct Hok]. }
    pose proof (refresh_ok now (l6_contexts cfg) false db1 Hok1) as Hr. destruct (refresh_slaac _ _ _ db1) as [started db2]. do 2 eexists. split; [done|]. split; [done|].
    destruct r as [r|]; [|done]. apply Forall_singleton. by exists data, src, now_secs, now.
  - destruct (tick_ok rand16 send now (l6_contexts cfg) (l6_ping_id cfg) db He Hok) as (sent & next & db' & -> & Hok'). do 2 eexists. split; [done|]. split; [done|].
    apply Forall_fmap, Forall_forall. intros [a p] _. by exists now, rand16, send.
  - do 2 eexists. split; [done|]. split; [by apply confirm_ok|done].
Qed.

(** C22: the DHCPv6 loop runs for ever, as long as every range has a lease time
    below 2^30 seconds or the infinite one ([dhcp6_long_lease_panics] shows what
    the times between do) and the clock is below 2^62 seconds. Whatever datagrams
    and ICMPv6 messages arrive, well formed or not, and whenever the probes are
    due, no event makes it fail; the database keeps its invariant, no address is
    leased twice, and the probes stay within their bounds. Everything it sends is
    a reply to the sender of a datagram, at the client port, or a probe of a
    tick. *)
Theorem dhcp6_loop_total cfg events db : loop_config_ok cfg -> Forall event_ok events -> loop_ok db ->
  exists sent db', run_dhcp6_loop cfg events db = Val (sent, db') /\ loop_ok db' /\ Forall (fun s => exists e, e ∈ events /\ sent_for cfg e s) sent.
Proof using.
  intros Hc He. revert db. induction He as [|e events He _ IH]; intros db Hok; [by do 2 eexists|]. cbn [run_dhcp6_loop].
  destruct (event_total cfg e db Hc He Hok) as (sent & db1 & -> & Hok1 & Hs). destruct (IH db1 Hok1) as (rest & db2 & -> & Hok2 & Hr).
  do 2 eexists. split; [done|]. split; [done|]. apply Forall_app. split.
  - eapply Forall_impl; [exact Hs|]. intros s Hsent. exists e. split; [by left|done].
  - eapply Forall_impl; [exact Hr|]. intros s (e' & Hin & Hsent). exists e'. split; [by right|done].
Qed.
End Loop.

Lemma db_empty_loop n : loop_ok (db_empty n).
Proof. split; [apply db_empty_ok|apply db_empty_v6|]. intros k l. cbn. by rewrite lookup_empty. Qed.

Definition ex_loop : Dhcp6Loop := mkLoop6 ex_duid [ex_context6] [] false None 42.
Lemma dhcp6_loop_total_witness :
  exists sent db, run_dhcp6_loop (Hord := list_order) ex_loop
    [Datagram6 [Byte.x01] (SV6 1 546 0 2) 1000 0; Datagram6 [Byte.x01; Byte.x00; Byte.x00; Byte.x01] (SV6 1 546 0 2) 1000 0] (db_empty 3) = Val (sent, db)
    /\ loop_ok db.
Proof.
  destruct (dhcp6_loop_total (Hord := list_order) ex_loop
    [Datagram6 [Byte.x01] (SV6 1 546 0 2) 1000 0; Datagram6 [Byte.x01; Byte.x00; Byte.x00; Byte.x01] (SV6 1 546 0 2) 1000 0] (db_empty 3)) as (sent & db & H & Hok & _).
  - intros c ->%list_elem_of_singleton. by left.
  - by repeat constructor.
  - apply db_empty_loop.
  - exists sent, db. by split.
Defined.
