(* ===== verification/Radv.v ===== *)
(** * Router advertisements: src/src/radv.rs and src/src/radv_protocol/mod.rs

    The messages on the wire, the parameters of an interface, the content of an
    advertisement and its timers. The raw socket, the kernel's names of
    interfaces and random numbers are parameters. *)

From Stdlib Require Import ZArith Lia String.
From stdpp Require Import base numbers list option.
From S2P Require Import Prelude ByteCursor Types StdText Util DhcpTypes Records Edns0 Dhcp6.

#[local] Open Scope Z_scope.

Definition ICMPV6_RA : Z := 134.
Definition ND_ROUTER_SOLICIT : Z := 133.
Definition RA_FLAG_MANAGED : Z := 0x80.
Definition RA_FLAG_OTHER : Z := 0x40.
Definition RA_FLAG_PRIO_MASK : Z := 0x18.
Definition PREFIX_FLAG_ONLINK : Z := 0x80.
Definition PREFIX_FLAG_AUTONOMOUS : Z := 0x40.
Definition PREFIX_FLAG_ROUTER : Z := 0x20.
Definition ICMP6_OPT_SOURCE_MAC : Z := 1.
Definition ICMP6_OPT_PREFIX : Z := 3.
Definition ICMP6_OPT_MTU : Z := 5.
Definition ICMP6_OPT_ADV_INTERVAL : Z := 7.
Definition ICMP6_OPT_RDNSS : Z := 25.

(** ** Messages *)

Record RaPrefix : Type := mkRaPrefix {
  pf_prefix : Ipv6Addr; pf_len : Z; pf_on_link : bool; pf_autonomous : bool; pf_router : bool; pf_valid : Z; pf_preferred : Z }.
Record RouterAdvertisement : Type := mkRa {
  ra_hop_limit : Z; ra_managed : bool; ra_other : bool; ra_prio : Z; ra_router_lt : Z; ra_prefixes : list RaPrefix;
  ra_dns_servers : list Ipv6Addr; ra_rdnss_lifetime : Z; ra_adv_interval_ms : option Z; ra_mtu : option Z; ra_source_lla : option (list u8) }.
Inductive RadvError : Type := RaTooShort | InvalidType (t : Z).

Definition bit (b : bool) (flag : Z) : Z := if b then flag else 0.
(** Type, length in units of eight bytes and [data], with [add_lla]'s zeros. *)
Definition add_lla (mac : list u8) : list u8 :=
  let total := (2 + length mac)%nat in
  let padded := ((total + 7) / 8 * 8)%nat in
  [z8 ICMP6_OPT_SOURCE_MAC; z8 (Z.of_nat (padded / 8))] ++ mac ++ replicate (padded - total) Byte.x00.
Definition prefix_option (p : RaPrefix) : list u8 :=
  [z8 ICMP6_OPT_PREFIX; z8 4; z8 (pf_len p);
   z8 (Z.lor (Z.lor (bit (pf_on_link p) PREFIX_FLAG_ONLINK) (bit (pf_autonomous p) PREFIX_FLAG_AUTONOMOUS)) (bit (pf_router p) PREFIX_FLAG_ROUTER))]
  ++ to_be 4 (pf_valid p) ++ to_be 4 (pf_preferred p) ++ to_be 4 0 ++ octets6 (pf_prefix p).
Definition word_option (t value : Z) : list u8 := [z8 t; z8 1] ++ to_be 2 0 ++ to_be 4 value.
(** [1u8 + 2 * len as u8] overflows from 128 servers on. *)
Definition rdnss_option (servers : list Ipv6Addr) (lifetime : Z) : outcome (list u8) :=
  let n := u8z (z8 (Z.of_nat (length servers))) in
  if 255 <? 1 + 2 * n then Panic
  else Val ([z8 ICMP6_OPT_RDNSS; z8 (1 + 2 * n)] ++ to_be 2 0 ++ to_be 4 lifetime ++ concat (octets6 <$> servers)).

Definition ra_header (ra : RouterAdvertisement) : list u8 :=
  [z8 ICMPV6_RA; z8 0] ++ to_be 2 0 ++ [z8 (ra_hop_limit ra);
   z8 (Z.lor (Z.lor (Z.land (ra_prio ra) RA_FLAG_PRIO_MASK) (bit (ra_managed ra) RA_FLAG_MANAGED)) (bit (ra_other ra) RA_FLAG_OTHER))]
  ++ to_be 2 (ra_router_lt ra) ++ to_be 4 0 ++ to_be 4 0.
Definition build_ra (ra : RouterAdvertisement) : outcome (list u8) :=
  let# rdnss := (if (length (ra_dns_servers ra) =? 0)%nat then Val [] else rdnss_option (ra_dns_servers ra) (ra_rdnss_lifetime ra)) in
  Val (ra_header ra ++ concat (prefix_option <$> ra_prefixes ra)
    ++ match ra_adv_interval_ms ra with Some ms => word_option ICMP6_OPT_ADV_INTERVAL ms | None => [] end
    ++ match ra_mtu ra with Some mtu => if 0 <? mtu then word_option ICMP6_OPT_MTU mtu else [] | None => [] end
    ++ match ra_source_lla ra with Some mac => add_lla mac | None => [] end
    ++ rdnss).

(** [while let Some(addr_bytes) = oc.read_slice(16)]. *)
Fixpoint read_servers (fuel : nat) (c : ByteCursor) (servers : list Ipv6Addr) : list Ipv6Addr :=
  match fuel with
  | O => servers
  | S fuel => match Cursor.read_slice c 16 with Some (b, c) => read_servers fuel c (servers ++ [of_be b]) | None => servers end
  end.
(** One option, of which the cursor has given the bytes after the length. *)
Definition ra_option (t : Z) (data : list u8) (ra : RouterAdvertisement) : result RouterAdvertisement RadvError :=
  let with_ servers lifetime prefixes interval mtu lla :=
    mkRa (ra_hop_limit ra) (ra_managed ra) (ra_other ra) (ra_prio ra) (ra_router_lt ra) prefixes servers lifetime interval mtu lla in
  if t =? ICMP6_OPT_PREFIX then
    if (length data <? 30)%nat then Err RaTooShort
    else
      let flags := u8_at data 1 in
      let p := mkRaPrefix (of_be (take 16 (drop 14 data))) (u8_at data 0) (has flags PREFIX_FLAG_ONLINK) (has flags PREFIX_FLAG_AUTONOMOUS)
                 (has flags PREFIX_FLAG_ROUTER) (be32_at data 2) (be32_at data 6) in
      Ok (with_ (ra_dns_servers ra) (ra_rdnss_lifetime ra) (ra_prefixes ra ++ [p]) (ra_adv_interval_ms ra) (ra_mtu ra) (ra_source_lla ra))
  else if t =? ICMP6_OPT_RDNSS then
    if (length data <? 6)%nat then Err RaTooShort
    else Ok (with_ (read_servers (length data) (Cursor.at_ data 6) (ra_dns_servers ra)) (be32_at data 2) (ra_prefixes ra) (ra_adv_interval_ms ra) (ra_mtu ra)
               (ra_source_lla ra))
  else if t =? ICMP6_OPT_ADV_INTERVAL then
    Ok (with_ (ra_dns_servers ra) (ra_rdnss_lifetime ra) (ra_prefixes ra) (if (6 <=? length data)%nat then Some (be32_at data 2) else ra_adv_interval_ms ra)
          (ra_mtu ra) (ra_source_lla ra))
  else if t =? ICMP6_OPT_MTU then
    Ok (with_ (ra_dns_servers ra) (ra_rdnss_lifetime ra) (ra_prefixes ra) (ra_adv_interval_ms ra)
          (if (6 <=? length data)%nat then Some (be32_at data 2) else ra_mtu ra) (ra_source_lla ra))
  else if t =? ICMP6_OPT_SOURCE_MAC then
    Ok (with_ (ra_dns_servers ra) (ra_rdnss_lifetime ra) (ra_prefixes ra) (ra_adv_interval_ms ra) (ra_mtu ra) (Some data))
  else Ok ra.
(** [while !c.is_empty()]; every option takes at least eight bytes. *)
Fixpoint parse_ra_options (fuel : nat) (c : ByteCursor) (ra : RouterAdvertisement) : result RouterAdvertisement RadvError :=
  match fuel with
  | O => Err RaTooShort
  | S fuel =>
    if Cursor.is_empty c then Ok ra
    else
      let? (t, c) := ok_or (Cursor.read_u8 c) RaTooShort in
      let? (len, c) := ok_or (Cursor.read_u8 c) RaTooShort in
      let opt_len := (Z.to_nat (u8z len) * 8)%nat in
      if (opt_len =? 0)%nat then Err RaTooShort
      else
        let? (data, c) := ok_or (Cursor.read_slice c (opt_len - 2)) RaTooShort in
        let? ra := ra_option (u8z t) data ra in
        parse_ra_options fuel c ra
  end.
Definition parse_ra (data : list u8) : result RouterAdvertisement RadvError :=
  if (length data <? 16)%nat then Err RaTooShort
  else if negb (u8_at data 0 =? ICMPV6_RA) then Err (InvalidType (u8_at data 0))
  else
    let flags := u8_at data 5 in
    parse_ra_options (length data) (Cursor.at_ data 16)
      (mkRa (u8_at data 4) (has flags RA_FLAG_MANAGED) (has flags RA_FLAG_OTHER) (Z.land flags RA_FLAG_PRIO_MASK) (be16_at data 6) [] [] 0 None None None).

(** The last source address option of a solicitation; [None] is a malformed
    option. *)
Fixpoint rs_options (fuel : nat) (data : list u8) (mac : option (list u8)) (pos rem : nat) : option (option (list u8)) :=
  match fuel with
  | O => None
  | S fuel =>
    if (2 <=? rem)%nat then
      let opt_sz := (Z.to_nat (u8_at data (pos + 1)) * 8)%nat in
      if (opt_sz =? 0)%nat || (rem <? opt_sz)%nat then None
      else
        let mac := if u8_at data pos =? ICMP6_OPT_SOURCE_MAC then Some (take (opt_sz - 2) (drop (pos + 2) data)) else mac in
        rs_options fuel data mac (pos + opt_sz) (rem - opt_sz)
    else Some mac
  end.
Definition parse_rs_source_mac (data : list u8) : option (option (list u8)) :=
  if (length data <? 8)%nat then Some None else rs_options (length data) data None 8 (length data - 8).

(** ** Interfaces *)

(** [--ra-param]. *)
Record RaInterface : Type := mkRaInterface { ri_name : str; ri_mtu_name : option str; ri_interval : Z; ri_lifetime : Z; ri_prio : Z; ri_mtu : Z }.
(** [--bridge-interface]. *)
Record DhcpBridge : Type := mkBridge { br_iface : str; br_aliases : list str }.

Definition IF_NAMESIZE : nat := 16.
Definition IFACE_V6 : Z := 2 ^ 2.
Definition blocked_by_dhcp_except (iface_name : str) (dhcp_except : list Iname) : bool :=
  existsb (fun e => flag_contains (ina_flags e) IFACE_V6 && match ina_name e with Some n => wildcard_match n iface_name | None => false end) dhcp_except.
Definition find_bridge_for_alias (bridges : list DhcpBridge) (arrival_iface : str) : option DhcpBridge :=
  List.find (fun b => existsb (fun a => wildcard_matchn a arrival_iface IF_NAMESIZE) (br_aliases b)) bridges.
Definition bridge_alias_targets (bridge : DhcpBridge) (live_ifaces : list (str * Z)) : list (str * Z) :=
  List.filter (fun '(name, _) => existsb (fun a => wildcard_matchn a name IF_NAMESIZE) (br_aliases bridge)) live_ifaces.

Definition find_iface_param (ra_interfaces : list RaInterface) (iface : str) : option RaInterface :=
  List.find (fun p => wildcard_match (ri_name p) iface) ra_interfaces.
Definition calc_interval (ra : option RaInterface) : Z :=
  match ra with
  | Some p => if ri_interval p =? 0 then 600 else Z.max 4 (Z.min 1800 (ri_interval p))
  | None => 600
  end.
Definition calc_lifetime (ra : option RaInterface) : Z :=
  let interval := calc_interval ra in
  match ra with
  | Some p =>
    if ri_lifetime p =? -1 then 3 * interval
    else as_u32 (if (ri_lifetime p <? interval) && negb (ri_lifetime p =? 0) then interval
                 else if 9000 <? ri_lifetime p then 9000 else ri_lifetime p)
  | None => 3 * interval
  end.
Definition calc_prio (ra : option RaInterface) : Z := match ra with Some p => as_u32 (ri_prio p) | None => 0 end.
