(* ===== verification/RadvServer.v ===== *)
(** * When and what to advertise: the scheduling of src/src/radv.rs

    The timers of the ranges, the prefixes of an advertisement from the live
    addresses and the ranges, and the scan for the advertisements that are due.
    Seconds of the clock are far from the end of their type. *)

From Stdlib Require Import ZArith Lia String.
From stdpp Require Import base numbers list option.
From S2P Require Import Prelude Types StdText DhcpTypes Records Dhcp6 Radv.

#[local] Open Scope Z_scope.

(** What advertising writes to a range. *)
Definition with_ra (flags ra_time short_start saved_valid : Z) (c : DhcpContext) : DhcpContext :=
  mkContext (cx_lease_time c) (cx_addr_epoch c) (cx_netmask c) (cx_broadcast c) (cx_local c) (cx_router c) (cx_start c) (cx_end c) flags
    (cx_netid c) (cx_filter c) (cx_start6 c) (cx_end6 c) (cx_local6 c) (cx_prefix c) (cx_if_index c) (cx_valid c) (cx_preferred c) ra_time
    short_start saved_valid (cx_address_lost_time c).
Definition with_ra_time (t : Z) (c : DhcpContext) : DhcpContext := with_ra (cx_flags c) t (cx_ra_short_period_start c) (cx_saved_valid c) c.
Definition with_ra_flags (f : Z) (c : DhcpContext) : DhcpContext := with_ra f (cx_ra_time c) (cx_ra_short_period_start c) (cx_saved_valid c) c.

(** ** Timers *)

(** In seconds. *)
Definition new_timeout (elapsed_since_start adv_interval rand_val : Z) : Z :=
  if elapsed_since_start <? 60 then 5 + rand_val * 15 / 65536
  else
    let interval := if adv_interval =? 0 then 600 else adv_interval in
    let range := interval / 4 in
    interval * 3 / 4 + (if 0 <? range then rand_val * range / 65536 else 0).
Definition new_timeout_context (adv_interval now rand_val : Z) (c : DhcpContext) : DhcpContext :=
  with_ra_time (now + new_timeout (Z.max 0 (now - cx_ra_short_period_start c)) adv_interval rand_val) c.

(** The [n]th range that is not a template takes the [n]th random number. *)
Fixpoint ra_start_unsolicited_all (contexts : list DhcpContext) (now : Z) (rand16 : nat -> Z) (n : nat) : list DhcpContext :=
  match contexts with
  | [] => []
  | c :: rest =>
    if flag_contains (cx_flags c) ContextFlags.TEMPLATE then c :: ra_start_unsolicited_all rest now rand16 n
    else with_ra (cx_flags c) (now + rand16 n / 13000) now (cx_saved_valid c) c :: ra_start_unsolicited_all rest now rand16 (S n)
  end.
Definition ra_start_unsolicited_one (now : Z) (c : DhcpContext) : DhcpContext := with_ra (cx_flags c) (now + 1) now (cx_saved_valid c) c.

(** ** Prefixes *)

Record RaParam : Type := mkRaParam {
  rm_managed : bool; rm_other : bool; rm_first : bool; rm_adv_router : bool; rm_found_context : bool;
  rm_link_local : Ipv6Addr; rm_link_global : Ipv6Addr; rm_ula : Ipv6Addr;
  rm_glob_pref_time : Z; rm_link_pref_time : Z; rm_ula_pref_time : Z; rm_adv_interval : Z; rm_prio : Z }.
Definition ra_param (adv_interval prio : Z) : RaParam := mkRaParam false false true false false 0 0 0 0 0 0 adv_interval prio.
Definition set_rm_modes (managed other first adv_router found : bool) (p : RaParam) : RaParam :=
  mkRaParam managed other first adv_router found (rm_link_local p) (rm_link_global p) (rm_ula p) (rm_glob_pref_time p) (rm_link_pref_time p)
    (rm_ula_pref_time p) (rm_adv_interval p) (rm_prio p).
Definition set_rm_link (a : Ipv6Addr) (t : Z) (p : RaParam) : RaParam :=
  mkRaParam (rm_managed p) (rm_other p) (rm_first p) (rm_adv_router p) (rm_found_context p) a (rm_link_global p) (rm_ula p) (rm_glob_pref_time p) t
    (rm_ula_pref_time p) (rm_adv_interval p) (rm_prio p).
Definition set_rm_ula (a : Ipv6Addr) (t : Z) (p : RaParam) : RaParam :=
  mkRaParam (rm_managed p) (rm_other p) (rm_first p) (rm_adv_router p) (rm_found_context p) (rm_link_local p) (rm_link_global p) a (rm_glob_pref_time p)
    (rm_link_pref_time p) t (rm_adv_interval p) (rm_prio p).
Definition set_rm_global (a : Ipv6Addr) (t : Z) (p : RaParam) : RaParam :=
  mkRaParam (rm_managed p) (rm_other p) (rm_first p) (rm_adv_router p) (rm_found_context p) (rm_link_local p) a (rm_ula p) t (rm_link_pref_time p)
    (rm_ula_pref_time p) (rm_adv_interval p) (rm_prio p).

Definition zero_host_part (addr : Ipv6Addr) (prefix_len : Z) : Ipv6Addr :=
  let part := Types.addr6part addr in
  let mask := if 128 <=? prefix_len then 0 else if prefix_len <=? 64 then 2 ^ 64 - 1 else Z.shiftl 1 (128 - prefix_len) - 1 in
  setaddr6part addr (Z.ldiff part mask).

(** What one address learns from the ranges. *)
Record AddrWalk : Type := mkAddrWalk {
  aw_real_prefix : Z; aw_do_slaac : bool; aw_deprecate : bool; aw_constructed : bool; aw_adv_router : bool; aw_off_link : bool; aw_time : Z }.
Definition aw_start : AddrWalk := mkAddrWalk 0 false false false false false 0xffffffff.
Definition ra_covers (addr : LiveAddr6) (c : DhcpContext) : bool :=
  negb (has (cx_flags c) (ContextFlags.TEMPLATE ∣∣ ContextFlags.OLD)) && covers_range addr c.
Definition visit_range (addr : LiveAddr6) (opt_ra : bool) (c : DhcpContext) (p : RaParam) (w : AddrWalk) : DhcpContext * RaParam * AddrWalk :=
  if negb (ra_covers addr c) then (c, p, w)
  else
    let c := with_ra (cx_flags c) (cx_ra_time c) (cx_ra_short_period_start c) (lv_valid addr) c in
    let f := flag_contains (cx_flags c) in
    if negb (f ContextFlags.RA) && negb opt_ra then (c, p, w)
    else
      let '(managed, other) := if f ContextFlags.RA then (rm_managed p || (f ContextFlags.DHCP && negb (f ContextFlags.RA_STATELESS)), rm_other p || f ContextFlags.DHCP)
                               else (true, true) in
      let router := f ContextFlags.RA_ROUTER in
      let time := if f ContextFlags.SETLEASE && (cx_lease_time c <? aw_time w) then Z.max (cx_lease_time c) (3 * rm_adv_interval p) else aw_time w in
      let fresh := negb (f ContextFlags.RA_DONE) in
      let c' := if fresh then with_ra (flag_add (cx_flags c) ContextFlags.RA_DONE) (if rm_first p then cx_ra_time c else 0) (cx_ra_short_period_start c) (cx_saved_valid c) c
                else c in
      let prefix := u8z (z8 (cx_prefix c)) in
      (c', set_rm_modes managed other false (rm_adv_router p || router) true p,
       mkAddrWalk (if router || fresh then prefix else aw_real_prefix w) (aw_do_slaac w || f ContextFlags.RA) (aw_deprecate w || f ContextFlags.DEPRECATE)
         (aw_constructed w || f ContextFlags.CONSTRUCTED) (aw_adv_router w || router) (if fresh then f ContextFlags.RA_OFF_LINK else aw_off_link w) time).
Fixpoint visit_ranges (addr : LiveAddr6) (opt_ra : bool) (contexts : list DhcpContext) (p : RaParam) (w : AddrWalk) : list DhcpContext * RaParam * AddrWalk :=
  match contexts with
  | [] => ([], p, w)
  | c :: rest =>
    let '(c, p, w) := visit_range addr opt_ra c p w in
    let '(rest, p, w) := visit_ranges addr opt_ra rest p w in
    (c :: rest, p, w)
  end.

(** The lifetimes advertised for an address. *)
Definition prefix_lifetimes (addr : LiveAddr6) (w : AddrWalk) : Z * Z :=
  let cap time v := if negb (aw_constructed w) || (time <? v) then time else v in
  (cap (aw_time w) (lv_valid addr), cap (if aw_deprecate w then 0 else aw_time w) (if lv_deprecated addr then 0 else lv_preferred addr)).
Definition add_prefix_for_addr (addr : LiveAddr6) (target_if_index : Z) (opt_ra : bool) (p : RaParam) (contexts : list DhcpContext)
  : option RaPrefix * RaParam * list DhcpContext :=
  if negb (lv_if_index addr =? target_if_index) then (None, p, contexts)
  else if is_link_local_v6 (lv_addr addr) then
    (None, if rm_link_pref_time p <? lv_preferred addr then set_rm_link (lv_addr addr) (lv_preferred addr) p else p, contexts)
  else if bool_decide (classify_addr6 (lv_addr addr) ∈ [Loopback; Multicast]) then (None, p, contexts)
  else
    let '(contexts, p, w) := visit_ranges addr opt_ra contexts p aw_start in
    let '(valid, preferred) := prefix_lifetimes addr w in
    let p := if is_ula_v6 (lv_addr addr) then if rm_ula_pref_time p <? preferred then set_rm_ula (lv_addr addr) preferred p else p
             else if rm_glob_pref_time p <? preferred then set_rm_global (lv_addr addr) preferred p else p in
    if aw_real_prefix w =? 0 then (None, p, contexts)
    else
      let prefix := if aw_adv_router w then lv_addr addr else zero_host_part (lv_addr addr) (aw_real_prefix w) in
      (Some (mkRaPrefix prefix (aw_real_prefix w) (negb (aw_off_link w)) (aw_do_slaac w) (aw_adv_router w) valid preferred), p, contexts).
Fixpoint add_prefixes (live_addrs : list LiveAddr6) (target_if_index : Z) (opt_ra : bool) (p : RaParam) (contexts : list DhcpContext)
  : list RaPrefix * RaParam * list DhcpContext :=
  match live_addrs with
  | [] => ([], p, contexts)
  | addr :: rest =>
    let '(o, p, contexts) := add_prefix_for_addr addr target_if_index opt_ra p contexts in
    let '(prefixes, p, contexts) := add_prefixes rest target_if_index opt_ra p contexts in
    (match o with Some x => x :: prefixes | None => prefixes end, p, contexts)
  end.

(** ** Advertisements *)

Record RaBuildParams : Type := mkRaBuild {
  rb_now : Z; rb_if_index : Z; rb_iface_name : str; rb_opt_ra : bool; rb_is_dns_server : bool; rb_hop_limit : Z; rb_mtu : option Z;
  rb_mac : option (list u8) }.

(** A range whose address is gone: dropped when its lifetime is over, advertised
    without preference until then. *)
Definition drain_old (params : RaBuildParams) (c : DhcpContext) (p : RaParam) : option (DhcpContext * RaPrefix * RaParam) :=
  let old := as_u32 (Z.max 0 (rb_now params - cx_address_lost_time c)) in
  if cx_saved_valid c <? old then None
  else
    let f := flag_contains (cx_flags c) in
    let do_slaac := f ContextFlags.RA in
    let '(managed, other) := if do_slaac then (rm_managed p || (f ContextFlags.DHCP && negb (f ContextFlags.RA_STATELESS)), rm_other p || f ContextFlags.DHCP)
                             else if rb_opt_ra params then (true, true) else (rm_managed p, rm_other p) in
    let prefix_len := u8z (z8 (cx_prefix c)) in
    Some (c, mkRaPrefix (zero_host_part (cx_start6 c) prefix_len) prefix_len (negb (f ContextFlags.RA_OFF_LINK)) do_slaac false
               (Z.max 0 (cx_saved_valid c - old)) 0,
          set_rm_modes managed other (rm_first p) (rm_adv_router p) (rm_found_context p) p).
Definition is_drained (params : RaBuildParams) (c : DhcpContext) : bool :=
  (as_u32 (cx_if_index c) =? rb_if_index params) && flag_contains (cx_flags c) ContextFlags.OLD.
Fixpoint drain_ranges (params : RaBuildParams) (contexts : list DhcpContext) (p : RaParam) : list DhcpContext * list RaPrefix * RaParam :=
  match contexts with
  | [] => ([], [], p)
  | c :: rest =>
    if is_drained params c then
      match drain_old params c p with
      | None => drain_ranges params rest p
      | Some (c, x, p) => let '(kept, prefixes, p) := drain_ranges params rest p in (c :: kept, x :: prefixes, p)
      end
    else let '(kept, prefixes, p) := drain_ranges params rest p in (c :: kept, prefixes, p)
  end.

(** The lowest of the preferred times that are set. *)
Definition min_pref_time (p : RaParam) : Z :=
  let lower t m := if negb (t =? 0) && (t <? m) then t else m in
  lower (rm_link_pref_time p) (lower (rm_ula_pref_time p) (lower (rm_glob_pref_time p) 0xffffffff)).

Definition build_ra_for_interface (params : RaBuildParams) (live_addrs : list LiveAddr6) (contexts : list DhcpContext) (ra_interfaces : list RaInterface)
  : option RouterAdvertisement * list DhcpContext :=
  let iface_cfg := find_iface_param ra_interfaces (rb_iface_name params) in
  let contexts := (fun c => with_ra_flags (flag_del (cx_flags c) ContextFlags.RA_DONE) c) <$> contexts in
  let '(prefixes, p, contexts) := add_prefixes live_addrs (rb_if_index params) (rb_opt_ra params) (ra_param (calc_interval iface_cfg) (calc_prio iface_cfg)) contexts in
  if rm_link_pref_time p =? 0 then (None, contexts)
  else
    let '(contexts, drained, p) := drain_ranges params contexts p in
    let old_prefix := negb (length drained =? 0)%nat in
    if negb old_prefix && negb (rm_found_context p) then (None, contexts)
    else
      let router_lt := if old_prefix && negb (rm_found_context p) then 0 else as_u16 (calc_lifetime iface_cfg) in
      let '(servers, lifetime) := if rb_is_dns_server params then ([rm_link_local p], min_pref_time p) else ([], 0) in
      (Some (mkRa (rb_hop_limit params) (rm_managed p) (rm_other p) (u8z (z8 (rm_prio p))) router_lt (prefixes ++ drained) servers lifetime
               (if rm_adv_router p then Some (1000 * calc_interval iface_cfg) else None) (rb_mtu params) (rb_mac params)), contexts).

(** ** The scan of the timers *)

Record LiveIface6 : Type := mkLiveIface { lf_if_index : Z; lf_name : str; lf_addr : Ipv6Addr; lf_prefix : Z; lf_tentative : bool }.
Record RaSendTarget : Type := mkTarget { tg_if_index : Z; tg_name : str }.

(** The first range that is due, or the next event. *)
Fixpoint scan_timers (now : Z) (i : nat) (next_event : option Z) (contexts : list DhcpContext) : nat + option Z :=
  match contexts with
  | [] => inr next_event
  | c :: rest =>
    if cx_ra_time c =? 0 then scan_timers now (S i) next_event rest
    else if cx_ra_time c <=? now then inl i
    else scan_timers now (S i) (Some match next_event with Some n => if n <=? cx_ra_time c then n else cx_ra_time c | None => cx_ra_time c end) rest
  end.

Section Periodic.
(** The [n]th random number, the kernel's name of an interface, and the
    interfaces the configuration allows. *)
Context (now : Z) (live_ifaces : list LiveIface6) (ra_interfaces : list RaInterface) (dhcp_except : list Iname).
Context (rand16 : nat -> Z) (resolve_stale_name : Z -> option str) (iface_allowed : str -> bool).

Definition may_send (name : str) : bool := iface_allowed name && negb (blocked_by_dhcp_except name dhcp_except).
(** The interface has an address of the range. *)
Definition suits (iface : LiveIface6) (c : DhcpContext) : bool :=
  (lf_prefix iface <=? cx_prefix c) && is_same_net6 (lf_addr iface) (cx_start6 c) (cx_prefix c) && is_same_net6 (lf_addr iface) (cx_end6 c) (cx_prefix c).
Definition reschedule (name : str) (n : nat) (c : DhcpContext) : DhcpContext :=
  new_timeout_context (calc_interval (find_iface_param ra_interfaces name)) now (rand16 n) c.

(** The timer of the [idx]th range, the [n]th random number being the next. *)
Definition handle_timer (idx : nat) (c : DhcpContext) (contexts : list DhcpContext) (n : nat) : list DhcpContext * option RaSendTarget * nat :=
  if flag_contains (cx_flags c) ContextFlags.OLD && negb (cx_if_index c =? 0) then
    let if_index := as_u32 (cx_if_index c) in
    match resolve_stale_name if_index with
    | Some name => (<[idx := reschedule name n c]> contexts, Some (mkTarget if_index name), S n)
    | None => (<[idx := with_ra_time 0 c]> contexts, None, n)
    end
  else
    match List.find (fun iface => may_send (lf_name iface) && suits iface c) live_ifaces with
    | Some iface =>
      let served := imap (fun j other => if (j =? idx)%nat then reschedule (lf_name iface) n c
                                         else if suits iface other then with_ra_time 0 other else other) contexts in
      (served, if lf_tentative iface then None else Some (mkTarget (lf_if_index iface) (lf_name iface)), S n)
    | None => (<[idx := with_ra_time 0 c]> contexts, None, n)
    end.
(** [loop]: every round leaves one range fewer that is due. *)
Fixpoint periodic_loop (fuel : nat) (contexts : list DhcpContext) (n : nat) (targets : list RaSendTarget)
  : option (list DhcpContext * list RaSendTarget * option Z) :=
  match fuel with
  | O => None
  | S fuel =>
    match scan_timers now 0 None contexts with
    | inr next_event => Some (contexts, targets, next_event)
    | inl idx =>
      match contexts !! idx with
      | None => None
      | Some c =>
        let '(contexts, target, n) := handle_timer idx c contexts n in
        periodic_loop fuel contexts n (targets ++ match target with Some t => if may_send (tg_name t) then [t] else [] | None => [] end)
      end
    end
  end.
Definition periodic_ra (contexts : list DhcpContext) : option (list DhcpContext * list RaSendTarget * option Z) :=
  periodic_loop (S (length contexts)) contexts 0 [].
End Periodic.
