(* ===== verification/RadvSpec.v ===== *)
(** * What router advertisements promise

    The messages read back as they were built, the scan of the timers leaves
    none due and sends what is due, and what is advertised is in force. *)

From Stdlib Require Import ZArith Lia String.
From stdpp Require Import base numbers list option.
From S2P Require Import Prelude ByteCursor Types StdText Util DhcpTypes Records Edns0 Dhcp6 Dhcp6Alloc Radv RadvServer.

#[local] Open Scope Z_scope.

(** ** Options on the wire *)

(** An option: its type and the bytes after its length, which make it a
    multiple of eight bytes long. *)
Record RaOption : Type := mkRaOption { ro_type : Z; ro_data : list u8 }.
Definition enc_ra_option (o : RaOption) : list u8 := [z8 (ro_type o); z8 ((2 + Z.of_nat (length (ro_data o))) / 8)] ++ ro_data o.
Definition ra_option_ok (o : RaOption) : Prop :=
  0 <= ro_type o < 256 /\ exists n, (1 <= n <= 255)%nat /\ (2 + length (ro_data o) = 8 * n)%nat.
Definition enc_ra_options (l : list RaOption) : list u8 := concat (enc_ra_option <$> l).
Fixpoint apply_ra_options (l : list RaOption) (ra : RouterAdvertisement) : result RouterAdvertisement RadvError :=
  match l with
  | [] => Ok ra
  | o :: l => let? ra := ra_option (ro_type o) (ro_data o) ra in apply_ra_options l ra
  end.

Lemma parse_ra_options_enc l : forall fuel pre ra, Forall ra_option_ok l -> (length l < fuel)%nat -> fits (pre ++ enc_ra_options l) ->
  parse_ra_options fuel (mkCursor (pre ++ enc_ra_options l) (length pre)) ra = apply_ra_options l ra.
Proof.
  induction l as [|o l IH]; intros [|fuel] pre ra Hok Hfuel Hfit; cbn [length] in Hfuel; try lia.
  { cbn. unfold Cursor.is_empty. cbn. by rewrite app_nil_r, Nat.leb_refl. }
  apply Forall_cons_1 in Hok as [(Ht & n & Hn & Hd) Hok]. destruct o as [t data]. cbn [ro_type ro_data] in *.
  assert ((2 + Z.of_nat (length data)) / 8 = Z.of_nat n) as En.
  { replace (2 + Z.of_nat (length data)) with (Z.of_nat n * 8) by lia. apply Z.div_mul. lia. }
  cbn [parse_ra_options apply_ra_options]. unfold enc_ra_options in *. cbn [fmap list_fmap concat] in *. fold (enc_ra_options l) in *.
  set (rest := enc_ra_options l) in *. unfold enc_ra_option in *. cbn [ro_type ro_data] in *. rewrite En in *. rewrite <- app_assoc in *.
  change ([z8 t; z8 (Z.of_nat n)] ++ data ++ rest) with (z8 t :: z8 (Z.of_nat n) :: data ++ rest) in *.
  unfold Cursor.is_empty. cbn [buf pos]. rewrite (proj2 (Nat.leb_gt _ _)) by (rewrite length_app; cbn; lia).
  rewrite read_u8_mid. cbn [ok_or]. rewrite (cons_middle (z8 t) pre) in *. rewrite (app_assoc pre) in *.
  replace (S (length pre)) with (length (pre ++ [z8 t])) by (rewrite length_app; cbn; lia). rewrite read_u8_mid. cbn [ok_or].
  rewrite u8z_z8_small by lia. rewrite Nat2Z.id. rewrite (proj2 (Nat.eqb_neq (n * 8) 0)) by lia. replace (n * 8 - 2)%nat with (length data) by lia.
  rewrite (cons_middle (z8 (Z.of_nat n))) in *. rewrite (app_assoc (pre ++ [z8 t])) in *.
  replace (S (length (pre ++ [z8 t]))) with (length ((pre ++ [z8 t]) ++ [z8 (Z.of_nat n)])) by (rewrite !length_app; cbn; lia).
  rewrite read_slice_mid by done. cbn [ok_or]. rewrite u8z_z8_small by lia. destruct (ra_option t data ra) as [ra'|]; [|done].
  rewrite <- length_app. rewrite (app_assoc (_ ++ _)) in *. apply IH; [done|lia|done].
Qed.

(** ** The options of an advertisement *)

Definition prefix_data (p : RaPrefix) : list u8 :=
  [z8 (pf_len p); z8 (Z.lor (Z.lor (bit (pf_on_link p) PREFIX_FLAG_ONLINK) (bit (pf_autonomous p) PREFIX_FLAG_AUTONOMOUS)) (bit (pf_router p) PREFIX_FLAG_ROUTER))]
  ++ to_be 4 (pf_valid p) ++ to_be 4 (pf_preferred p) ++ to_be 4 0 ++ octets6 (pf_prefix p).
Definition word_data (v : Z) : list u8 := to_be 2 0 ++ to_be 4 v.
Definition rdnss_data (servers : list Ipv6Addr) (lifetime : Z) : list u8 := to_be 2 0 ++ to_be 4 lifetime ++ concat (octets6 <$> servers).

Definition u32_ok (z : Z) : Prop := 0 <= z < 2 ^ 32.
Record prefix_ok (p : RaPrefix) : Prop := { pk_prefix : ip6_ok (pf_prefix p); pk_len : 0 <= pf_len p < 256; pk_valid : u32_ok (pf_valid p); pk_pref : u32_ok (pf_preferred p) }.
(** What an advertisement can hold; the source address fills its option. *)
Record ra_ok (ra : RouterAdvertisement) : Prop := {
  rk_hop : 0 <= ra_hop_limit ra < 256;
  rk_prio : Z.land (ra_prio ra) RA_FLAG_PRIO_MASK = ra_prio ra;
  rk_lt : 0 <= ra_router_lt ra < 2 ^ 16;
  rk_prefixes : Forall prefix_ok (ra_prefixes ra);
  rk_servers : Forall ip6_ok (ra_dns_servers ra) /\ (length (ra_dns_servers ra) <= 127)%nat;
  rk_rdnss : u32_ok (ra_rdnss_lifetime ra) /\ (ra_dns_servers ra = [] -> ra_rdnss_lifetime ra = 0);
  rk_interval : forall ms, ra_adv_interval_ms ra = Some ms -> u32_ok ms;
  rk_mtu : forall m, ra_mtu ra = Some m -> u32_ok m /\ 0 < m;
  rk_lla : forall mac, ra_source_lla ra = Some mac -> exists n, (n < 255)%nat /\ length mac = (8 * n + 6)%nat;
}.

Definition ra_options (ra : RouterAdvertisement) : list RaOption :=
  ((fun p => mkRaOption ICMP6_OPT_PREFIX (prefix_data p)) <$> ra_prefixes ra)
  ++ match ra_adv_interval_ms ra with Some ms => [mkRaOption ICMP6_OPT_ADV_INTERVAL (word_data ms)] | None => [] end
  ++ match ra_mtu ra with Some m => [mkRaOption ICMP6_OPT_MTU (word_data m)] | None => [] end
  ++ match ra_source_lla ra with Some mac => [mkRaOption ICMP6_OPT_SOURCE_MAC mac] | None => [] end
  ++ match ra_dns_servers ra with [] => [] | _ => [mkRaOption ICMP6_OPT_RDNSS (rdnss_data (ra_dns_servers ra) (ra_rdnss_lifetime ra))] end.

Lemma length_prefix_data p : length (prefix_data p) = 30%nat.
Proof. unfold prefix_data. by rewrite !length_app, !length_to_be, length_octets6. Qed.
Lemma length_rdnss_data servers lt : length (rdnss_data servers lt) = (6 + 16 * length servers)%nat.
Proof.
  assert (length (concat (octets6 <$> servers)) = (16 * length servers)%nat) as E.
  { induction servers as [|s l IH]; [done|]. cbn [fmap list_fmap concat]. rewrite length_app, length_octets6, IH. cbn [length]. lia. }
  unfold rdnss_data. rewrite !length_app, !length_to_be, E. lia.
Qed.

Lemma ra_options_ok ra : ra_ok ra -> Forall ra_option_ok (ra_options ra).
Proof.
  intros Hok. unfold ra_options. repeat apply Forall_app_2.
  - apply Forall_fmap, Forall_forall. intros p _. split; [done|]. exists 4%nat. cbn [ro_data]. rewrite length_prefix_data. lia.
  - destruct (ra_adv_interval_ms ra); [|done]. apply Forall_singleton. split; [done|]. exists 1%nat. cbn [ro_data]. unfold word_data. rewrite length_app, !length_to_be. lia.
  - destruct (ra_mtu ra); [|done]. apply Forall_singleton. split; [done|]. exists 1%nat. cbn [ro_data]. unfold word_data. rewrite length_app, !length_to_be. lia.
  - destruct (ra_source_lla ra) as [mac|] eqn:E; [|done]. destruct (rk_lla _ Hok mac E) as (n & Hn & Hl). apply Forall_singleton. split; [done|]. exists (S n). cbn [ro_data]. lia.
  - pose proof (proj2 (rk_servers _ Hok)) as Hs. destruct (ra_dns_servers ra) as [|s l]; [done|]. apply Forall_singleton. split; [done|].
    exists (1 + 2 * length (s :: l))%nat. cbn [ro_data]. rewrite length_rdnss_data. lia.
Qed.

Lemma prefix_enc p : prefix_option p = enc_ra_option (mkRaOption ICMP6_OPT_PREFIX (prefix_data p)).
Proof. unfold enc_ra_option. cbn [ro_data ro_type]. by rewrite length_prefix_data. Qed.
Lemma lla_enc mac n : length mac = (8 * n + 6)%nat -> add_lla mac = enc_ra_option (mkRaOption ICMP6_OPT_SOURCE_MAC mac).
Proof.
  intros Hl. unfold add_lla, enc_ra_option. cbn [ro_data ro_type]. rewrite Hl.
  assert (((2 + (8 * n + 6) + 7) / 8)%nat = S n) as E by (symmetry; apply (Nat.div_unique _ 8 (S n) 7); lia). rewrite E.
  replace (S n * 8 - (2 + (8 * n + 6)))%nat with 0%nat by lia. rewrite Nat.div_mul, app_nil_r by done. do 3 f_equal.
  replace (2 + Z.of_nat (8 * n + 6)) with (Z.of_nat (S n) * 8) by lia. by rewrite Z.div_mul.
Qed.

Lemma build_ra_enc ra : ra_ok ra -> build_ra ra = Val (ra_header ra ++ enc_ra_options (ra_options ra)).
Proof.
  intros Hok. unfold build_ra.
  assert ((if (length (ra_dns_servers ra) =? 0)%nat then Val [] else rdnss_option (ra_dns_servers ra) (ra_rdnss_lifetime ra)) =
    Val (enc_ra_options match ra_dns_servers ra with [] => [] | _ => [mkRaOption ICMP6_OPT_RDNSS (rdnss_data (ra_dns_servers ra) (ra_rdnss_lifetime ra))] end)) as ->.
  { pose proof (proj2 (rk_servers _ Hok)) as Hs. destruct (ra_dns_servers ra) as [|s l]; [done|]. cbn [length Nat.eqb]. unfold rdnss_option.
    rewrite u8z_z8_small, (proj2 (Z.ltb_ge 255 _)) by lia. f_equal. unfold enc_ra_options. cbn [fmap list_fmap concat]. rewrite app_nil_r.
    unfold enc_ra_option. cbn [ro_type ro_data]. rewrite length_rdnss_data. cbn [app]. do 3 f_equal.
    replace (2 + Z.of_nat (6 + 16 * length (s :: l))) with ((1 + 2 * Z.of_nat (length (s :: l))) * 8) by lia. by rewrite Z.div_mul. }
  f_equal. f_equal. unfold ra_options, enc_ra_options. rewrite !fmap_app, !concat_app. f_equal; [|f_equal; [|f_equal; [|f_equal]]].
  - induction (ra_prefixes ra) as [|p l IH]; [done|]. cbn [fmap list_fmap concat]. rewrite prefix_enc. f_equal. exact IH.
  - destruct (ra_adv_interval_ms ra); [|done]. cbn [fmap list_fmap concat]. by rewrite app_nil_r.
  - destruct (ra_mtu ra) as [m|] eqn:E; [|done]. destruct (rk_mtu _ Hok m E) as [_ Hm]. rewrite (proj2 (Z.ltb_lt 0 m) Hm). cbn [fmap list_fmap concat]. by rewrite app_nil_r.
  - destruct (ra_source_lla ra) as [mac|] eqn:E; [|done]. destruct (rk_lla _ Hok mac E) as (n & _ & Hl). cbn [fmap list_fmap concat]. rewrite app_nil_r.
    by apply (lla_enc mac n).
Qed.

(** ** Reading them *)

Definition set_prefixes (l : list RaPrefix) (ra : RouterAdvertisement) : RouterAdvertisement :=
  mkRa (ra_hop_limit ra) (ra_managed ra) (ra_other ra) (ra_prio ra) (ra_router_lt ra) l (ra_dns_servers ra) (ra_rdnss_lifetime ra) (ra_adv_interval_ms ra)
    (ra_mtu ra) (ra_source_lla ra).

Lemma be32_mid pre z rest : 0 <= z < 2 ^ 32 -> be32_at (pre ++ to_be 4 z ++ rest) (length pre) = z.
Proof. intros Hz. unfold be32_at. rewrite drop_app_length, take_app_length' by (by rewrite length_to_be). by apply of_be_to_be_small. Qed.
Lemma flag_bits on auto router : let f := u8z (z8 (Z.lor (Z.lor (bit on PREFIX_FLAG_ONLINK) (bit auto PREFIX_FLAG_AUTONOMOUS)) (bit router PREFIX_FLAG_ROUTER))) in
  has f PREFIX_FLAG_ONLINK = on /\ has f PREFIX_FLAG_AUTONOMOUS = auto /\ has f PREFIX_FLAG_ROUTER = router.
Proof. destruct on, auto, router; by vm_compute. Qed.
Lemma u8_at_cons b rest : u8_at (b :: rest) 0 = u8z b.
Proof. done. Qed.
Lemma u8_at_cons2 a b rest : u8_at (a :: b :: rest) 1 = u8z b.
Proof. done. Qed.

Lemma ra_option_prefix p ra : prefix_ok p -> ra_option ICMP6_OPT_PREFIX (prefix_data p) ra = Ok (set_prefixes (ra_prefixes ra ++ [p]) ra).
Proof.
  intros [H1 H2 H3 H4]. unfold ra_option. rewrite length_prefix_data. change (ICMP6_OPT_PREFIX =? ICMP6_OPT_PREFIX) with true. cbn iota zeta. f_equal. unfold set_prefixes.
  do 3 f_equal. unfold prefix_data. set (fl := z8 (Z.lor _ _)). cbn [app].
  rewrite u8_at_cons, u8_at_cons2, u8z_z8_small by done. destruct (flag_bits (pf_on_link p) (pf_autonomous p) (pf_router p)) as (E1 & E2 & E3). fold fl in E1, E2, E3. rewrite E1, E2, E3.
  assert (be32_at (z8 (pf_len p) :: fl :: to_be 4 (pf_valid p) ++ to_be 4 (pf_preferred p) ++ to_be 4 0 ++ octets6 (pf_prefix p)) 2 = pf_valid p) as ->
    by (by apply (be32_mid [z8 (pf_len p); fl])).
  assert (be32_at (z8 (pf_len p) :: fl :: to_be 4 (pf_valid p) ++ to_be 4 (pf_preferred p) ++ to_be 4 0 ++ octets6 (pf_prefix p)) 6 = pf_preferred p) as ->.
  { pose proof (be32_mid ([z8 (pf_len p); fl] ++ to_be 4 (pf_valid p)) (pf_preferred p) (to_be 4 0 ++ octets6 (pf_prefix p)) H4) as E.
    by rewrite length_app, length_to_be, <- app_assoc in E. }
  assert (drop 14 (z8 (pf_len p) :: fl :: to_be 4 (pf_valid p) ++ to_be 4 (pf_preferred p) ++ to_be 4 0 ++ octets6 (pf_prefix p)) = octets6 (pf_prefix p)) as ->.
  { cbn [drop skipn]. rewrite !app_assoc. apply drop_app_length'. by rewrite !length_app, !length_to_be. }
  rewrite take_ge by (by rewrite length_octets6). rewrite octets6_of by done. by destruct p.
Qed.

Lemma word_value v : u32_ok v -> be32_at (word_data v) 2 = v.
Proof. intros Hv. pose proof (be32_mid (to_be 2 0) v [] Hv) as E. rewrite app_nil_r, length_to_be in E. exact E. Qed.
Lemma length_word_data v : length (word_data v) = 6%nat.
Proof. unfold word_data. by rewrite length_app, !length_to_be. Qed.

Lemma read_servers_enc servers : forall fuel pre acc, Forall ip6_ok servers -> (length servers < fuel)%nat -> fits (pre ++ concat (octets6 <$> servers)) ->
  read_servers fuel (mkCursor (pre ++ concat (octets6 <$> servers)) (length pre)) acc = acc ++ servers.
Proof.
  induction servers as [|s servers IH]; intros [|fuel] pre acc Hok Hfuel Hfit; cbn [length] in Hfuel; try lia.
  { cbn [read_servers]. rewrite read_slice_fail; [by rewrite app_nil_r|]. cbn. rewrite app_nil_r. lia. }
  apply Forall_cons_1 in Hok as [Hs Hok]. cbn [fmap list_fmap concat] in *. cbn [read_servers].
  pose proof (read_slice_mid pre (octets6 s) (concat (octets6 <$> servers)) Hfit) as E. rewrite length_octets6 in E. rewrite E. rewrite octets6_of by done.
  replace (length pre + 16)%nat with (length (pre ++ octets6 s)) by (by rewrite length_app, length_octets6). rewrite app_assoc in *.
  rewrite IH by (done || lia). by rewrite <- app_assoc.
Qed.

Lemma ra_option_rdnss servers lt ra : Forall ip6_ok servers -> (length servers <= 127)%nat -> u32_ok lt ->
  ra_option ICMP6_OPT_RDNSS (rdnss_data servers lt) ra =
  Ok (mkRa (ra_hop_limit ra) (ra_managed ra) (ra_other ra) (ra_prio ra) (ra_router_lt ra) (ra_prefixes ra) (ra_dns_servers ra ++ servers) lt (ra_adv_interval_ms ra)
        (ra_mtu ra) (ra_source_lla ra)).
Proof.
  intros Hs Hl Hlt. unfold ra_option. rewrite length_rdnss_data. change (ICMP6_OPT_RDNSS =? ICMP6_OPT_PREFIX) with false. change (ICMP6_OPT_RDNSS =? ICMP6_OPT_RDNSS) with true.
  cbn iota zeta. rewrite (proj2 (Nat.ltb_ge _ 6)) by lia. f_equal. f_equal.
  - pose proof (read_servers_enc servers (6 + 16 * length servers) (to_be 2 0 ++ to_be 4 lt) (ra_dns_servers ra) Hs ltac:(lia)) as E.
    rewrite <- app_assoc in E. rewrite length_app, !length_to_be in E. apply E. unfold fits. fold (rdnss_data servers lt). rewrite length_rdnss_data.
    assert (Z.of_nat (6 + 16 * length servers) < 2 ^ 32) by lia. unfold usize_bound. lia.
  - unfold rdnss_data. pose proof (be32_mid (to_be 2 0) lt (concat (octets6 <$> servers)) Hlt) as E. by rewrite length_to_be in E.
Qed.

Lemma apply_prefixes l rest ra : Forall prefix_ok l ->
  apply_ra_options (((fun p => mkRaOption ICMP6_OPT_PREFIX (prefix_data p)) <$> l) ++ rest) ra = apply_ra_options rest (set_prefixes (ra_prefixes ra ++ l) ra).
Proof.
  intros Hl. revert ra. induction Hl as [|p l Hp _ IH]; intros ra; cbn [fmap list_fmap app].
  - rewrite app_nil_r. by destruct ra.
  - cbn [apply_ra_options ro_type ro_data]. rewrite ra_option_prefix by done. rewrite IH. unfold set_prefixes at 2. cbn [ra_prefixes]. by rewrite <- app_assoc.
Qed.

Lemma apply_app a b ra : apply_ra_options (a ++ b) ra = let? ra := apply_ra_options a ra in apply_ra_options b ra.
Proof. revert ra. induction a as [|o a IH]; intros ra; [done|]. cbn [app apply_ra_options]. destruct (ra_option _ _ _); [apply IH|done]. Qed.

(** The optional parts, one by one. *)
Lemma apply_interval hop man oth prio lt pfx i : (forall ms, i = Some ms -> u32_ok ms) ->
  apply_ra_options match i with Some ms => [mkRaOption ICMP6_OPT_ADV_INTERVAL (word_data ms)] | None => [] end (mkRa hop man oth prio lt pfx [] 0 None None None)
  = Ok (mkRa hop man oth prio lt pfx [] 0 i None None).
Proof. intros Hi. destruct i as [ms|]; [|done]. rewrite <- (word_value ms (Hi ms eq_refl)) at 2. done. Qed.
Lemma apply_mtu hop man oth prio lt pfx i m : (forall x, m = Some x -> u32_ok x) ->
  apply_ra_options match m with Some x => [mkRaOption ICMP6_OPT_MTU (word_data x)] | None => [] end (mkRa hop man oth prio lt pfx [] 0 i None None)
  = Ok (mkRa hop man oth prio lt pfx [] 0 i m None).
Proof. intros Hi. destruct m as [x|]; [|done]. rewrite <- (word_value x (Hi x eq_refl)) at 2. done. Qed.
Lemma apply_lla hop man oth prio lt pfx i m l :
  apply_ra_options match l with Some mac => [mkRaOption ICMP6_OPT_SOURCE_MAC mac] | None => [] end (mkRa hop man oth prio lt pfx [] 0 i m None)
  = Ok (mkRa hop man oth prio lt pfx [] 0 i m l).
Proof. by destruct l. Qed.
Lemma apply_rdnss hop man oth prio lt pfx i m l servers rl : Forall ip6_ok servers -> (length servers <= 127)%nat -> u32_ok rl -> (servers = [] -> rl = 0) ->
  apply_ra_options match servers with [] => [] | _ => [mkRaOption ICMP6_OPT_RDNSS (rdnss_data servers rl)] end (mkRa hop man oth prio lt pfx [] 0 i m l)
  = Ok (mkRa hop man oth prio lt pfx servers rl i m l).
Proof.
  intros Hs Hn Hl Hz. destruct servers as [|s servers]; [by rewrite (Hz eq_refl)|]. cbn [apply_ra_options ro_type ro_data]. by rewrite ra_option_rdnss.
Qed.

Lemma apply_own_options ra : ra_ok ra ->
  apply_ra_options (ra_options ra) (mkRa (ra_hop_limit ra) (ra_managed ra) (ra_other ra) (ra_prio ra) (ra_router_lt ra) [] [] 0 None None None) = Ok ra.
Proof.
  intros [_ _ _ Hp [Hs Hn] [Hlt Hz] Hi Hm _]. unfold ra_options. rewrite apply_prefixes by done. unfold set_prefixes.
  cbn [ra_prefixes app ra_hop_limit ra_managed ra_other ra_prio ra_router_lt ra_dns_servers ra_rdnss_lifetime ra_adv_interval_ms ra_mtu ra_source_lla].
  rewrite apply_app, apply_interval by done. rewrite apply_app, apply_mtu by (intros x Hx; by apply Hm). rewrite apply_app, apply_lla, apply_rdnss by done. by destruct ra.
Qed.

Definition ra_flags (ra : RouterAdvertisement) : Z :=
  Z.lor (Z.lor (Z.land (ra_prio ra) RA_FLAG_PRIO_MASK) (bit (ra_managed ra) RA_FLAG_MANAGED)) (bit (ra_other ra) RA_FLAG_OTHER).
Lemma ra_flags_read ra : Z.land (ra_prio ra) RA_FLAG_PRIO_MASK = ra_prio ra ->
  let f := u8z (z8 (ra_flags ra)) in has f RA_FLAG_MANAGED = ra_managed ra /\ has f RA_FLAG_OTHER = ra_other ra /\ Z.land f RA_FLAG_PRIO_MASK = ra_prio ra.
Proof.
  intros Hp. unfold ra_flags. revert Hp. generalize (ra_prio ra), (ra_managed ra), (ra_other ra). intros p man oth Hp.
  assert (p = 0 \/ p = 8 \/ p = 16 \/ p = 24) as H.
  { rewrite <- Hp. change RA_FLAG_PRIO_MASK with (Z.land (Z.ones 5) 24). rewrite Z.land_assoc, Z.land_ones by done.
    pose proof (Z.mod_pos_bound p (2 ^ 5) eq_refl) as Hr. revert Hr. generalize (p mod 2 ^ 5). clear. intros q Hq.
    assert (q ∈ seqZ 0 32) as Hin by (apply elem_of_seqZ; lia). vm_compute in Hin.
    repeat (apply elem_of_cons in Hin as [->|Hin]; [vm_compute; tauto|]). by apply not_elem_of_nil in Hin. }
  destruct H as [-> |[-> |[-> | ->]]], man, oth; by vm_compute.
Qed.
Lemma ra_header_reads ra rest : 0 <= ra_hop_limit ra < 256 -> 0 <= ra_router_lt ra < 2 ^ 16 -> let data := ra_header ra ++ rest in
  u8_at data 0 = ICMPV6_RA /\ u8_at data 4 = ra_hop_limit ra /\ u8_at data 5 = u8z (z8 (ra_flags ra)) /\ be16_at data 6 = ra_router_lt ra.
Proof.
  intros Hh Hl data. subst data. unfold ra_header. fold (ra_flags ra). rewrite <- !app_assoc.
  change (to_be 2 0) with [Byte.x00; Byte.x00]. cbn [app]. split_and!; [done| |done|].
  - unfold u8_at. cbn [nth]. by apply u8z_z8_small.
  - exact (be16_mid [_; _; _; _; _; _] (ra_router_lt ra) _ Hl).
Qed.
Lemma length_enc_ra_options l : (length l <= length (enc_ra_options l))%nat.
Proof.
  unfold enc_ra_options. induction l as [|o l IH]; [done|]. cbn [fmap list_fmap concat]. rewrite length_app. unfold enc_ra_option at 1. cbn [app length]. lia.
Qed.

(** C33: a router advertisement is read back as it was built: for every
    advertisement that fits its fields, building succeeds, and parsing the bytes
    gives the advertisement again, with every prefix, lifetime, server and
    option. *)
Theorem router_advertisement_roundtrip ra : ra_ok ra ->
  exists data, build_ra ra = Val data /\ (fits data -> parse_ra data = Ok ra).
Proof.
  intros Hok. rewrite (build_ra_enc ra Hok). eexists. split; [done|]. intros Hfit.
  pose proof (rk_hop _ Hok) as Hh. pose proof (rk_lt _ Hok) as Hl. pose proof (rk_prio _ Hok) as Hp.
  set (opts := enc_ra_options (ra_options ra)) in *. unfold parse_ra.
  assert (length (ra_header ra) = 16%nat) as Elen by (unfold ra_header; rewrite !length_app, !length_to_be; done).
  rewrite (proj2 (Nat.ltb_ge _ 16)) by (rewrite length_app; lia).
  destruct (ra_header_reads ra opts Hh Hl) as (-> & -> & -> & ->). destruct (ra_flags_read ra Hp) as (E1 & E2 & E3). cbv beta iota zeta. rewrite E1, E2, E3.
  change (negb (ICMPV6_RA =? ICMPV6_RA)) with false. cbv iota. unfold Cursor.at_. rewrite <- Elen. unfold opts.
  rewrite parse_ra_options_enc; [by apply apply_own_options|by apply ra_options_ok| |done].
  rewrite length_app, Elen. pose proof (length_enc_ra_options (ra_options ra)). lia.
Qed.

(** An advertisement with a prefix, a name server and the source address. *)
Definition sample_ra : RouterAdvertisement :=
  mkRa 64 true false 8 1800 [mkRaPrefix (0x20010db8 * 2 ^ 96) 64 true true false 7200 3600] [0xfe80 * 2 ^ 112 + 1] 600 (Some 600000) (Some 1500)
    (Some (replicate 6 Byte.x02)).
Lemma sample_ra_ok : ra_ok sample_ra.
Proof.
  split; unfold u32_ok; cbn [sample_ra ra_hop_limit ra_prio ra_router_lt ra_prefixes ra_dns_servers ra_rdnss_lifetime ra_adv_interval_ms ra_mtu ra_source_lla].
  - lia.
  - done.
  - lia.
  - apply Forall_singleton. split; cbv [pf_prefix pf_len pf_valid pf_preferred ip6_ok u32_ok]; lia.
  - split; [|cbn; lia]. apply Forall_singleton. unfold ip6_ok. lia.
  - split; [lia|done].
  - intros ms E. apply (inj Some) in E. lia.
  - intros m E. apply (inj Some) in E. lia.
  - intros mac E. apply (inj Some) in E. subst mac. exists 0%nat. split; [lia|done].
Qed.
Lemma router_advertisement_roundtrip_witness :
  ra_ok sample_ra /\ exists data, build_ra sample_ra = Val data /\ (fits data -> parse_ra data = Ok sample_ra).
Proof. split; [exact sample_ra_ok | apply (router_advertisement_roundtrip sample_ra sample_ra_ok)]. Defined.

(** A pattern that is only the start of a name, or longer than it, matches the
    name: the comparison stops at the end of the shorter of the two. *)
Example wildcard_matchn_prefix :
  wildcard_matchn (bs "br") (bs "br0") IF_NAMESIZE = true /\ wildcard_matchn (bs "br0-lan") (bs "br0") IF_NAMESIZE = true /\
  wildcard_match (bs "br") (bs "br0") = false /\ wildcard_match (bs "br0-lan") (bs "br0") = false.
Proof. by vm_compute. Qed.
