(* ===== verification/RadvTimers.v ===== *)
(** * The scan of the advertisement timers

    [periodic_ra] ends, leaves no timer due, sends nothing on an interface it
    may not use, and serves every range that is due. *)

From Stdlib Require Import ZArith Lia String.
From stdpp Require Import base numbers list option.
From S2P Require Import Prelude Types StdText DhcpTypes Records Dhcp6 Radv RadvServer.

#[local] Open Scope Z_scope.

Definition timer_due (now : Z) (c : DhcpContext) : bool := negb (cx_ra_time c =? 0) && (cx_ra_time c <=? now).
Definition due_count (now : Z) (l : list DhcpContext) : nat := length (List.filter (timer_due now) l).
(** The same range with another timer. *)
Definition retimed (c c' : DhcpContext) : Prop := c' = with_ra_time (cx_ra_time c') c.

Lemma retimed_refl c : retimed c c.
Proof. by destruct c. Qed.
Lemma retimed_with t c : retimed c (with_ra_time t c).
Proof. done. Qed.
Lemma retimed_trans c d e : retimed c d -> retimed d e -> retimed c e.
Proof. unfold retimed. intros Hd He. rewrite He. rewrite Hd. done. Qed.
#[global] Instance retimed_preorder : PreOrder retimed.
Proof. split; [exact retimed_refl | exact retimed_trans]. Qed.
Lemma retimed_suits iface c c' : retimed c c' -> suits iface c' = suits iface c.
Proof. intros ->. done. Qed.
Lemma retimed_stale c c' : retimed c c' -> cx_flags c' = cx_flags c /\ cx_if_index c' = cx_if_index c.
Proof. intros ->. done. Qed.

(** ** The scan *)

Lemma scan_due now l : forall i next idx, scan_timers now i next l = inl idx ->
  exists k c, idx = (i + k)%nat /\ l !! k = Some c /\ timer_due now c = true.
Proof.
  induction l as [|c l IH]; intros i next idx; cbn [scan_timers]; [done|]. unfold timer_due.
  destruct (cx_ra_time c =? 0) eqn:E0; [|destruct (cx_ra_time c <=? now) eqn:E1].
  - intros H. destruct (IH _ _ _ H) as (k & d & -> & Hk & Hd). exists (S k), d. split; [lia|done].
  - intros [= <-]. exists 0%nat, c. rewrite E0, E1. split; [lia|done].
  - intros H. destruct (IH _ _ _ H) as (k & d & -> & Hk & Hd). exists (S k), d. split; [lia|done].
Qed.

(** [t] is the first of the timers in [l], when one is set. *)
Definition earliest_timer (l : list DhcpContext) (t : option Z) : Prop :=
  match t with
  | None => Forall (fun c => cx_ra_time c = 0) l
  | Some t => Exists (fun c => cx_ra_time c = t) l /\ t <> 0 /\ Forall (fun c => cx_ra_time c = 0 \/ t <= cx_ra_time c) l
  end.
Lemma earliest_snoc l c next : earliest_timer l next -> cx_ra_time c <> 0 ->
  earliest_timer (l ++ [c]) (Some match next with Some n => if n <=? cx_ra_time c then n else cx_ra_time c | None => cx_ra_time c end).
Proof.
  intros H Hc. destruct next as [n|]; cbn [earliest_timer] in *.
  - destruct H as (He & Hn & Hf). destruct (Z.leb_spec n (cx_ra_time c)).
    + split; [apply Exists_app; by left|]. split; [done|]. apply Forall_app_2; [done|]. apply Forall_singleton. by right.
    + split; [apply Exists_app; right; by apply Exists_cons_hd|]. split; [done|]. apply Forall_app_2; [|apply Forall_singleton; by right].
      revert Hf. apply Forall_impl. cbn. lia.
  - split; [apply Exists_app; right; by apply Exists_cons_hd|]. split; [done|]. apply Forall_app_2; [|apply Forall_singleton; by right].
    revert H. apply Forall_impl. cbn. lia.
Qed.
Lemma scan_idle now l : forall i pre next r, earliest_timer pre next -> Forall (fun c => timer_due now c = false) pre -> scan_timers now i next l = inr r ->
  earliest_timer (pre ++ l) r /\ Forall (fun c => timer_due now c = false) (pre ++ l).
Proof.
  induction l as [|c l IH]; intros i pre next r Hpre Hdue; cbn [scan_timers]; [intros [= <-]; by rewrite app_nil_r|].
  destruct (Z.eqb_spec (cx_ra_time c) 0) as [E0|E0]; [|destruct (cx_ra_time c <=? now) eqn:E1; [done|]]; intros H; rewrite (cons_middle c pre l), app_assoc;
    (eapply IH; [| |exact H]; [|apply Forall_app_2; [done|]; apply Forall_singleton; unfold timer_due]).
  - destruct next as [n|]; cbn [earliest_timer] in *.
    + destruct Hpre as (He & Hn & Hf). split; [apply Exists_app; by left|]. split; [done|]. apply Forall_app_2; [done|]. apply Forall_singleton. by left.
    + apply Forall_app_2; [done|]. by apply Forall_singleton.
  - by rewrite E0.
  - by apply earliest_snoc.
  - rewrite E1. apply andb_false_r.
Qed.

(** ** The measure *)

Lemma due_count_le now l l' : Forall2 (fun c c' => timer_due now c' = true -> timer_due now c = true) l l' -> (due_count now l' <= due_count now l)%nat.
Proof.
  unfold due_count. induction 1 as [|c c' l l' H _ IH]; [done|]. cbn [List.filter].
  destruct (timer_due now c'); [rewrite H by done|destruct (timer_due now c)]; cbn [length]; lia.
Qed.
Lemma due_count_lt now l l' i c c' : Forall2 (fun c c' => timer_due now c' = true -> timer_due now c = true) l l' ->
  l !! i = Some c -> timer_due now c = true -> l' !! i = Some c' -> timer_due now c' = false -> (due_count now l' < due_count now l)%nat.
Proof.
  intros H. revert i. induction H as [|d d' l l' Hd H IH]; intros [|i]; cbn; try done; intros Hc Hdue Hc' Hdue'.
  - simplify_eq. pose proof (due_count_le now l l' H). unfold due_count in *. cbn [List.filter]. rewrite Hdue, Hdue'. cbn [length]. lia.
  - pose proof (IH i Hc Hdue Hc' Hdue'). unfold due_count in *. cbn [List.filter].
    destruct (timer_due now d'); [rewrite Hd by done|destruct (timer_due now d)]; cbn [length]; lia.
Qed.
Lemma due_count_length now l : (due_count now l <= length l)%nat.
Proof. unfold due_count. apply List.filter_length_le. Qed.

Section Scan.
Context (now : Z) (live_ifaces : list LiveIface6) (ra_interfaces : list RaInterface) (dhcp_except : list Iname).
Context (rand16 : nat -> Z) (resolve_stale_name : Z -> option str) (iface_allowed : str -> bool).
Hypothesis Hrand : forall n, 0 <= rand16 n < 65536.

#[local] Notation may_send := (may_send dhcp_except iface_allowed).
#[local] Notation reschedule := (reschedule now ra_interfaces rand16).
#[local] Notation handle_timer := (handle_timer now live_ifaces ra_interfaces dhcp_except rand16 resolve_stale_name iface_allowed).
#[local] Notation periodic_loop := (periodic_loop now live_ifaces ra_interfaces dhcp_except rand16 resolve_stale_name iface_allowed).

(** Its address is gone, so that the kernel is asked for its interface. *)
Definition stale (c : DhcpContext) : bool := flag_contains (cx_flags c) ContextFlags.OLD && negb (cx_if_index c =? 0).
(** Some permitted interface has an address of the range. *)
Definition servable (c : DhcpContext) : Prop := exists iface, iface ∈ live_ifaces /\ may_send (lf_name iface) = true /\ suits iface c = true.
(** None of them is still being checked for duplicates. *)
Definition settled (c : DhcpContext) : Prop := forall iface, iface ∈ live_ifaces -> may_send (lf_name iface) = true -> suits iface c = true -> lf_tentative iface = false.
(** [t] serves [c]. *)
Definition serves (t : RaSendTarget) (c : DhcpContext) : Prop :=
  exists iface, iface ∈ live_ifaces /\ t = mkTarget (lf_if_index iface) (lf_name iface) /\ suits iface c = true /\ lf_tentative iface = false.
(** [t] has a reason: [c] was due, and is served or was lost on that interface. *)
Definition earned (t : RaSendTarget) (c : DhcpContext) : Prop :=
  timer_due now c = true /\ may_send (tg_name t) = true /\
  if stale c then tg_if_index t = as_u32 (cx_if_index c) /\ resolve_stale_name (tg_if_index t) = Some (tg_name t) else serves t c.

Lemma reschedule_later name n c : now < cx_ra_time (reschedule name n c).
Proof using Hrand.
  change (now < now + new_timeout (Z.max 0 (now - cx_ra_short_period_start c)) (calc_interval (find_iface_param ra_interfaces name)) (rand16 n)).
  assert (4 <= calc_interval (find_iface_param ra_interfaces name)) as Hi.
  { unfold calc_interval. destruct (find_iface_param _ _) as [p|]; [destruct (Z.eqb_spec (ri_interval p) 0)|]; lia. }
  pose proof (Hrand n) as Hr. revert Hi Hr. generalize (calc_interval (find_iface_param ra_interfaces name)), (rand16 n), (Z.max 0 (now - cx_ra_short_period_start c)).
  intros. enough (0 < new_timeout z1 z z0) by lia. unfold new_timeout. assert (forall r, 0 <= r -> 0 <= z0 * r / 65536) as Hd by (intros; apply Z.div_pos; nia).
  destruct (z1 <? 60).
  { pose proof (Hd 15). lia. }
  destruct (Z.eqb_spec z 0); [lia|].
  assert (3 <= z * 3 / 4) by (apply Z.div_le_lower_bound; lia). destruct (Z.ltb_spec 0 (z / 4)); [pose proof (Hd (z / 4))|]; lia.
Qed.
Lemma rescheduled_not_due name n c : timer_due now (reschedule name n c) = false.
Proof using Hrand. pose proof (reschedule_later name n c). unfold timer_due. rewrite (proj2 (Z.leb_gt _ _)) by done. apply andb_false_r. Qed.
Lemma zeroed_not_due c : timer_due now (with_ra_time 0 c) = false.
Proof using . done. Qed.

(** What handling the timer of [idx] does. *)
Record handled (idx : nat) (l l' : list DhcpContext) (sent : list RaSendTarget) : Prop := {
  hd_retimed : Forall2 retimed l l';
  hd_due : Forall2 (fun c c' => timer_due now c' = true -> timer_due now c = true) l l';
  hd_here : exists c', l' !! idx = Some c' /\ timer_due now c' = false;
  hd_sent : forall t, t ∈ sent -> exists c, c ∈ l /\ earned t c;
  hd_served : forall i c c', l !! i = Some c -> l' !! i = Some c' -> timer_due now c = true -> timer_due now c' = false -> stale c = false -> servable c -> settled c ->
    exists t, t ∈ sent /\ serves t c;
}.

Lemma handled_insert idx l c c' sent : l !! idx = Some c -> retimed c c' -> timer_due now c = true -> timer_due now c' = false ->
  (forall t, t ∈ sent -> earned t c) -> (stale c = false -> servable c -> False) -> handled idx l (<[idx := c']> l) sent.
Proof using .
  intros Hc Hr Hd Hd' Hs Hn. assert (idx < length l)%nat as Hlt by (by eapply lookup_lt_Some).
  assert (forall R : DhcpContext -> DhcpContext -> Prop, (forall d, R d d) -> R c c' -> Forall2 R l (<[idx:=c']> l)) as Hins.
  { intros R Hrefl HR. apply Forall2_same_length_lookup_2; [by rewrite list.length_insert|]. intros j d d' Hj Hj'.
    destruct (decide (idx = j)) as [<-|Hne]; [rewrite list_lookup_insert_eq in Hj' by done|rewrite list_lookup_insert_ne in Hj' by done]; simplify_eq; auto. }
  split.
  - apply Hins; [apply retimed_refl|done].
  - apply Hins; [auto|congruence].
  - exists c'. by rewrite list_lookup_insert_eq.
  - intros t Ht. exists c. split; [by eapply list_elem_of_lookup_2|auto].
  - intros i d d' Hi Hi' Hdue Hdue' Hst Hsv _. destruct (decide (idx = i)) as [<-|Hne].
    + simplify_eq. by destruct Hn.
    + rewrite list_lookup_insert_ne in Hi' by done. congruence.
Qed.

Lemma find_servable c : match List.find (fun iface => may_send (lf_name iface) && suits iface c) live_ifaces with
  | Some iface => iface ∈ live_ifaces /\ may_send (lf_name iface) = true /\ suits iface c = true
  | None => ~ servable c
  end.
Proof using .
  destruct (List.find _ _) as [iface|] eqn:E.
  - apply List.find_some in E as [Hin H]. apply andb_prop in H as [H1 H2]. split; [by apply list_elem_of_In|done].
  - intros (iface & Hin & H1 & H2). apply list_elem_of_In in Hin. pose proof (List.find_none _ _ E iface Hin) as H. cbn in H. by rewrite H1, H2 in H.
Qed.
(** The interface found serves its range, and takes the timers of its other
    ranges. *)
Lemma handled_found idx iface l c n : l !! idx = Some c -> timer_due now c = true -> stale c = false ->
  iface ∈ live_ifaces -> may_send (lf_name iface) = true -> suits iface c = true ->
  handled idx l (imap (fun j other => if (j =? idx)%nat then reschedule (lf_name iface) n c else if suits iface other then with_ra_time 0 other else other) l)
    (if lf_tentative iface then [] else [mkTarget (lf_if_index iface) (lf_name iface)]).
Proof using Hrand.
  intros Hc Hd Hst Hin Hok Hsuit. set (f := fun j other => if (j =? idx)%nat then _ else _).
  assert (forall j d, l !! j = Some d -> retimed d (f j d) /\ (timer_due now (f j d) = true -> timer_due now d = true)) as Hf.
  { intros j d Hj. unfold f. destruct (Nat.eqb_spec j idx) as [->|_]; [|by destruct (suits iface d)]. simplify_eq. split; [done|]. by rewrite rescheduled_not_due. }
  assert (forall R : DhcpContext -> DhcpContext -> Prop, (forall j d, l !! j = Some d -> R d (f j d)) -> Forall2 R l (imap f l)) as Hall.
  { intros R HR. apply Forall2_same_length_lookup_2; [by rewrite length_imap|]. intros j d d' Hj. rewrite list_lookup_imap, Hj. cbn. intros [= <-]. by apply HR. }
  split.
  - apply Hall. intros j d Hj. by apply Hf.
  - apply Hall. intros j d Hj. by apply Hf.
  - rewrite list_lookup_imap, Hc. cbn [fmap option_fmap option_map]. eexists. split; [done|]. unfold f. rewrite Nat.eqb_refl. by apply rescheduled_not_due.
  - intros t Ht. destruct (lf_tentative iface) eqn:Et; [by apply not_elem_of_nil in Ht|]. apply list_elem_of_singleton in Ht as ->.
    exists c. split; [by eapply list_elem_of_lookup_2|]. split; [done|]. split; [done|]. rewrite Hst. by exists iface.
  - intros i d d' Hi Hi' Hdue Hdue' _ Hsv Hset. rewrite list_lookup_imap, Hi in Hi'. cbn in Hi'. apply (inj Some) in Hi'. subst d'.
    assert (suits iface d = true) as Hsd.
    { unfold f in Hdue'. destruct (Nat.eqb_spec i idx) as [->|Hne]; [congruence|]. destruct (suits iface d); [done|congruence]. }
    pose proof (Hset iface Hin Hok Hsd) as Ht. rewrite Ht. exists (mkTarget (lf_if_index iface) (lf_name iface)). split; [by apply list_elem_of_singleton|]. by exists iface.
Qed.

Definition permitted_targets (t : option RaSendTarget) : list RaSendTarget := match t with Some t => if may_send (tg_name t) then [t] else [] | None => [] end.
Lemma permitted_target t : may_send (tg_name t) = true -> permitted_targets (Some t) = [t].
Proof using . intros H. cbn [permitted_targets]. by rewrite H. Qed.

Lemma handle_timer_handled idx l c n : l !! idx = Some c -> timer_due now c = true ->
  let '(l', t, _) := handle_timer idx c l n in handled idx l l' (permitted_targets t).
Proof using Hrand.
  intros Hc Hd. unfold RadvServer.handle_timer. fold (stale c). destruct (stale c) eqn:Hst.
  - destruct (resolve_stale_name _) as [name|] eqn:Hn.
    + apply (handled_insert idx l c); [done|done|done|by apply rescheduled_not_due| |by rewrite Hst]. cbn [permitted_targets tg_name].
      intros t Ht. destruct (may_send name) eqn:Hm; [|by apply not_elem_of_nil in Ht]. apply list_elem_of_singleton in Ht as ->. split; [done|]. split; [done|]. by rewrite Hst.
    + apply (handled_insert idx l c); [done|done|done|done| |by rewrite Hst]. intros t Ht. by apply not_elem_of_nil in Ht.
  - pose proof (find_servable c) as Hf. destruct (List.find _ _) as [iface|].
    + destruct Hf as (Hin & Hm & Hs). pose proof (handled_found idx iface l c n Hc Hd Hst Hin Hm Hs) as H. destruct (lf_tentative iface); [exact H|].
      by rewrite permitted_target.
    + apply (handled_insert idx l c); [done|done|done|done| |done]. intros t Ht. by apply not_elem_of_nil in Ht.
Qed.

(** What the scan has done when it ends. *)
Record scan_done (l l' : list DhcpContext) (sent : list RaSendTarget) (next : option Z) : Prop := {
  sd_retimed : Forall2 retimed l l';
  sd_idle : Forall (fun c => timer_due now c = false) l';
  sd_next : earliest_timer l' next;
  sd_sent : forall t, t ∈ sent -> exists c, c ∈ l /\ earned t c;
  sd_served : forall c, c ∈ l -> timer_due now c = true -> stale c = false -> servable c -> settled c -> exists t, t ∈ sent /\ serves t c;
}.

Lemma retimed_same c c' : retimed c c' ->
  stale c' = stale c /\ (servable c -> servable c') /\ (settled c -> settled c') /\ (forall t, serves t c' -> serves t c).
Proof using . by intros ->. Qed.
Lemma retimed_earned t c c' : retimed c c' -> (timer_due now c' = true -> timer_due now c = true) -> earned t c' -> earned t c.
Proof using .
  intros Hr Hd (H1 & H2 & H3). split; [by apply Hd|]. split; [done|]. destruct (retimed_same c c' Hr) as (Est & _ & _ & Hs). rewrite Est in H3.
  destruct (retimed_stale c c' Hr) as [_ Ei]. rewrite Ei in H3. destruct (stale c); [done|by apply Hs].
Qed.

Lemma scan_done_step idx l l1 l2 s1 s2 next : handled idx l l1 s1 -> scan_done l1 l2 s2 next -> scan_done l l2 (s1 ++ s2) next.
Proof using .
  intros [Hr1 Hd1 _ Hs1 Hv1] [Hr2 Hi2 Hn2 Hs2 Hv2]. split; [|done|done| |].
  - by etransitivity.
  - intros t [Ht|Ht]%elem_of_app; [by apply Hs1|]. destruct (Hs2 t Ht) as (c1 & [i Hi]%list_elem_of_lookup & He).
    destruct (Forall2_lookup_r _ _ _ _ _ Hr1 Hi) as (c & Hc & Hr). exists c. split; [by eapply list_elem_of_lookup_2|].
    apply (retimed_earned t c c1); [done| |done]. exact (Forall2_lookup_lr _ _ _ _ _ _ Hd1 Hc Hi).
  - intros c [i Hi]%list_elem_of_lookup Hdue Hst Hsv Hse. destruct (Forall2_lookup_l _ _ _ _ _ Hr1 Hi) as (c1 & Hi1 & Hr).
    destruct (retimed_same c c1 Hr) as (Est & Esv & Ese & Es). destruct (timer_due now c1) eqn:Hdue1.
    + destruct (Hv2 c1) as (t & Ht & Hts); [by eapply list_elem_of_lookup_2|done|congruence|by apply Esv|by apply Ese|].
      exists t. split; [apply elem_of_app; by right|by apply Es].
    + destruct (Hv1 i c c1 Hi Hi1 Hdue Hdue1 Hst Hsv Hse) as (t & Ht & Hts). exists t. split; [apply elem_of_app; by left|done].
Qed.

Lemma scan_done_idle l next : scan_timers now 0 None l = inr next -> scan_done l l [] next.
Proof using .
  intros Hs. destruct (scan_idle now l 0 [] None next) as [He Hi]; [by apply Forall_nil|by apply Forall_nil|done|]. cbn [app] in *. split; [|done|done| |].
  - apply Forall2_same_length_lookup_2; [done|]. intros. simplify_eq. apply retimed_refl.
  - intros t Ht. by apply not_elem_of_nil in Ht.
  - intros c [i Hc]%list_elem_of_lookup Hdue. pose proof (Forall_lookup_1 _ _ _ _ Hi Hc) as H. cbn in H. congruence.
Qed.

Lemma periodic_loop_done fuel : forall l n sent0, (due_count now l < fuel)%nat ->
  exists l' sent next, periodic_loop fuel l n sent0 = Some (l', sent0 ++ sent, next) /\ scan_done l l' sent next.
Proof using Hrand.
  induction fuel as [|fuel IH]; intros l n sent0 Hfuel; [lia|]. cbn [RadvServer.periodic_loop]. destruct (scan_timers now 0 None l) as [idx|next] eqn:Hs.
  - destruct (scan_due _ _ _ _ _ Hs) as (k & c & -> & Hc & Hd). cbn [Nat.add]. rewrite Hc. pose proof (handle_timer_handled k l c n Hc Hd) as H.
    destruct (handle_timer k c l n) as [[l1 t] n1]. fold (permitted_targets t).
    destruct (hd_here _ _ _ _ H) as (c' & Hc' & Hd'). pose proof (due_count_lt now l l1 k c c' (hd_due _ _ _ _ H) Hc Hd Hc' Hd').
    destruct (IH l1 n1 (sent0 ++ permitted_targets t)) as (l2 & s2 & next & -> & Hdone); [lia|].
    exists l2, (permitted_targets t ++ s2), next. rewrite <- app_assoc. split; [done|]. by eapply scan_done_step.
  - exists l, [], next. rewrite app_nil_r. split; [done|by apply scan_done_idle].
Qed.
End Scan.

(** C9: the scan of the advertisement timers ends and misses nothing. Whatever
    the ranges, the interfaces, the configuration and the random numbers, the
    loop ends within one round more than there are ranges; only timers have
    changed; no timer is left due, and the next event is the first of those
    set. Every advertisement goes out on an interface that is allowed and not
    excepted, and for a range that was due: the interface has an address of the
    range, or is the one the lost address was on. Every range that was due and
    has a permitted interface is served, unless one of its interfaces still
    checks its address for duplicates. *)
Theorem radv_timers_exact now live_ifaces ra_interfaces dhcp_except rand16 resolve_stale_name iface_allowed contexts :
  (forall n, 0 <= rand16 n < 65536) ->
  exists contexts' targets next,
    periodic_ra now live_ifaces ra_interfaces dhcp_except rand16 resolve_stale_name iface_allowed contexts = Some (contexts', targets, next) /\
    scan_done now live_ifaces dhcp_except resolve_stale_name iface_allowed contexts contexts' targets next.
Proof.
  intros Hrand. unfold periodic_ra. pose proof (due_count_length now contexts).
  destruct (periodic_loop_done now live_ifaces ra_interfaces dhcp_except rand16 resolve_stale_name iface_allowed Hrand (S (length contexts)) contexts 0 [])
    as (l & sent & next & E & H'); [lia|].
  by exists l, sent, next.
Qed.

(** Two ranges on one interface, both due: one advertisement for the two. *)
Definition sample_range (n : Z) : DhcpContext :=
  mkContext 3600 0 0 0 0 0 0 0 ContextFlags.RA (mkNetid []) [] (n * 2 ^ 64) (n * 2 ^ 64 + 255) 0 64 0 0 0 900 0 0 0.
Lemma radv_timers_exact_witness :
  (forall n : nat, 0 <= (fun _ : nat => 7) n < 65536) /\
  exists contexts' targets next,
    periodic_ra 1000 [mkLiveIface 5 (bs "eth0") (5 * 2 ^ 64 + 1) 64 false] [] [] (fun _ => 7) (fun _ => None) (fun _ => true) [sample_range 5; sample_range 6; sample_range 5]
      = Some (contexts', targets, next) /\
    scan_done 1000 [mkLiveIface 5 (bs "eth0") (5 * 2 ^ 64 + 1) 64 false] [] (fun _ => None) (fun _ => true) [sample_range 5; sample_range 6; sample_range 5]
      contexts' targets next.
Proof. split; [lia | apply radv_timers_exact; lia]. Defined.
Example radv_one_advertisement_per_link :
  (fun '(_, targets, next) => (targets, next)) <$>
    periodic_ra 1000 [mkLiveIface 5 (bs "eth0") (5 * 2 ^ 64 + 1) 64 false] [] [] (fun _ => 7) (fun _ => None) (fun _ => true) [sample_range 5; sample_range 6; sample_range 5]
  = Some ([mkTarget 5 (bs "eth0")], Some 1450).
Proof. vm_compute. reflexivity. Qed.
