(* ===== verification/RecordSet.v ===== *)
(** * Updating one field of a record

    [d <| f := v |>] is the record [d] with [v] in its field [f], and
    [d <| f ::= g |>] applies [g] to the field. The updater of a field is found
    from the record's eta expansion, given once as an instance of [Settable];
    it reduces to the constructor applied to the fields. *)

From stdpp Require Import base.

Class Settable (R : Type) : Type := eta : R -> R.
Arguments eta {R} {_} _.

(** The function that replaces [proj] in the eta expansion. *)
Ltac field_setter T R proj :=
  let inst := constr:(ltac:(typeclasses eauto) : Settable R) in
  let e := eval cbv beta delta [eta] in (@eta R inst) in
  let e := eval hnf in e in
  match eval pattern proj in e with
  | ?set _ => let s := constr:(fun (g : T -> T) => set (fun r => g (proj r))) in
              let s := eval cbv beta in s in
              exact s
  end.
Class FieldSetter {R T : Type} (proj : R -> T) : Type := update_field : (T -> T) -> R -> R.
Arguments update_field {R T} proj {_} _ _.
#[global] Hint Extern 1 (@FieldSetter ?R ?T ?proj) => field_setter T R proj : typeclass_instances.

Declare Scope record_scope.
Delimit Scope record_scope with record.
Notation "d <| f ::= g |>" := (update_field f g d) (at level 12, f at next level, left associativity) : record_scope.
Notation "d <| f := v |>" := (update_field f (fun _ => v) d) (at level 12, f at next level, left associativity) : record_scope.
#[global] Open Scope record_scope.
