(* ===== verification/ConfigText.v ===== *)
(** * Configuration text: the text layer of src/src/option.rs

    Lines, numbers, names and addresses of the configuration, its errors, the
    reader of files with their inclusions, and the small helpers at the end of
    the source file. The file system is an interface; the message of an input
    error is its text. *)

From Stdlib Require Import ZArith Lia String.
From stdpp Require Import base numbers list option sorting.
From S2P Require Import Prelude Types StdText.

#[local] Open Scope Z_scope.

Definition comma : u8 := Byte.x2c.
Definition slash : u8 := Byte.x2f.
Definition hash : u8 := Byte.x23.
Definition at_sign : u8 := Byte.x40.
Definition star : u8 := Byte.x2a.
Definition minus : u8 := Byte.x2d.

(** ** Text of the standard library *)

Definition strip_prefix (p s : str) : option str := if has_prefix p s then Some (drop (length p) s) else None.
Definition ends_with (p s : str) : bool := match strip_suffix p s with Some _ => true | None => false end.
Definition contains_byte (c : u8) (s : str) : bool := existsb (fun b => bool_decide (b = c)) s.
(** [s.rfind(c)] and [s.rsplit_once(c)] for an ASCII character. *)
Definition rsplit_once (c : u8) (s : str) : option (str * str) :=
  match split_once c (rev s) with Some (a, b) => Some (rev b, rev a) | None => None end.
(** [s.split(c).next().unwrap_or(s)]. *)
Definition before_byte (c : u8) (s : str) : str := default s (split_on c s !! 0%nat).
Definition upper8 (b : u8) : u8 := if in_rng 97 122 b then z8 (u8z b - 32) else b.
Definition to_ascii_uppercase (s : str) : str := upper8 <$> s.

Definition parse_u16 : str -> option Z := parse_uint dec_digit 10 65535.
(** [iN::from_str_radix]: a sign, at least one digit, and no overflow. *)
Definition parse_int (digit : u8 -> option Z) (radix min max : Z) (s : str) : option Z :=
  match s with
  | b :: (_ :: _ as digits) => if decide (b = minus) then Z.opp <$> parse_digits digit radix (- min) 0 digits else parse_uint digit radix max s
  | [b] => if decide (b = minus) then None else parse_uint digit radix max s
  | [] => None
  end.
Definition parse_i32 : str -> option Z := parse_int dec_digit 10 (- 2 ^ 31) (2 ^ 31 - 1).
Definition parse_i64 (digit : u8 -> option Z) (radix : Z) : str -> option Z := parse_int digit radix (- 2 ^ 63) (2 ^ 63 - 1).
Definition parse_ip (s : str) : option IpAddr :=
  match parse_ipv4 s with Some a => Some (V4 a) | None => V6 <$> parse_ipv6 s end.
(** [chunks(n)]. *)
Fixpoint chunks (fuel n : nat) (l : list u8) : list (list u8) :=
  match fuel with
  | O => []
  | S fuel => match l with [] => [] | _ => take n l :: chunks fuel n (drop n l) end
  end.

(** ** Lines and errors *)

Record ConfigLine : Type := mkLine { cl_key : str; cl_value : option str; cl_file : str; cl_line : nat }.
Inductive ConfigError : Type :=
| UnknownOption (key file : str) (line : nat)
| MissingValue (key file : str) (line : nat)
| InvalidValue (value key file : str) (line : nat) (reason : str)
| Io (message : str).
Definition invalid_value (file : str) (line : nat) (key val reason : str) : ConfigError := InvalidValue val key file line reason.
Definition invalid_value_for (cl : ConfigLine) (key val reason : str) : ConfigError := invalid_value (cl_file cl) (cl_line cl) key val reason.
Notation cfg A := (result A ConfigError).
(** A parser that may also panic, and [?] for it. *)
Notation pcfg A := (outcome (cfg A)).
Notation "'let%' x ':=' e 'in' k" :=
  (match e with Val (Ok x) => k | Val (Err err) => Val (Err err) | Panic => Panic end)
  (at level 10, x pattern, e at level 100, k at level 200)
  : rust_scope.
Notation fail e := (Val (Err e)) (only parsing).
Notation done_ a := (Val (Ok a)) (only parsing).

(** [fn require_value]. *)
Definition require_value (cl : ConfigLine) (opt : str) : cfg str := ok_or (cl_value cl) (MissingValue opt (cl_file cl) (cl_line cl)).
Definition require_no_value (cl : ConfigLine) (opt : str) : cfg unit :=
  match cl_value cl with Some value => Err (invalid_value_for cl opt value (bs "unexpected value")) | None => Ok tt end.

(** [?] in a loop that collects. *)
Fixpoint try_map {A B} (f : A -> cfg B) (l : list A) : cfg (list B) :=
  match l with
  | [] => Ok []
  | x :: l => let? y := f x in let? ys := try_map f l in Ok (y :: ys)
  end.

Definition split_csv (value : str) : list str := trim <$> split_on comma value.
Definition part (parts : list str) (i : nat) : str := default [] (parts !! i).
Definition any_empty (parts : list str) : bool := existsb (fun p => (length p =? 0)%nat) parts.
Definition expected (field : str) : str := bs "expected a valid " ++ field.

(** ** Reading a file *)

(** [std::fs::read_to_string], which fails on text that is not UTF-8, and
    [std::fs::read_dir], of which the code keeps the names that are UTF-8. *)
Class FileSystem : Type := { read_to_string : str -> result str str; read_dir : str -> result (list str) str }.

Definition MAX_DEPTH : nat := 10.
(** The key and the value of a line, and [None] for a line that is skipped. *)
Definition split_line (raw : str) : option (str * option str) :=
  let trimmed := trim raw in
  if (length trimmed =? 0)%nat || has_prefix (bs "#") trimmed then None
  else
    let '(key, value) := match split_once Byte.x3d trimmed with Some (k, v) => (trim k, Some (trim v)) | None => (trimmed, None) end in
    if (length key =? 0)%nat then None else Some (key, value).

Section Reading.
Context `{FileSystem}.

(** [include path] reads a [conf-file] one level deeper; there is none at the
    greatest depth. *)
Fixpoint config_lines (include : option (str -> cfg (list ConfigLine))) (filename : str) (lineno : nat) (ls : list str) : cfg (list ConfigLine) :=
  match ls with
  | [] => Ok []
  | raw :: ls =>
    match split_line raw with
    | None => config_lines include filename (S lineno) ls
    | Some (key, value) =>
      let? here := (if bool_decide (key = bs "conf-file") then
                      match include with
                      | None => Err (invalid_value filename lineno (bs "conf-file") (default [] value) (bs "maximum conf-file inclusion depth exceeded"))
                      | Some include => let? path := ok_or value (MissingValue (bs "conf-file") filename lineno) in include path
                      end
                    else Ok [mkLine key value filename lineno]) in
      let? rest := config_lines include filename (S lineno) ls in
      Ok (here ++ rest)
    end
  end.
(** [levels] is [MAX_DEPTH - depth]. *)
Fixpoint parse_config_text_depth (levels : nat) (text filename : str) : cfg (list ConfigLine) :=
  let include := match levels with
                 | O => None
                 | S levels => Some (fun path => match read_to_string path with
                                                 | Ok included => parse_config_text_depth levels included path
                                                 | Err e => Err (Io e)
                                                 end)
                 end in
  config_lines include filename 1 (lines text).
Definition parse_config_text (text filename : str) : cfg (list ConfigLine) := parse_config_text_depth MAX_DEPTH text filename.
End Reading.

(** ** Tokens *)

Definition trim_trailing_dots (s : str) : str := trim_end dot s.
Definition label_ok (label : str) : bool :=
  negb ((length label =? 0)%nat || (63 <? length label)%nat) && negb (has_prefix (bs "-") label || ends_with (bs "-") label).
Definition canonicalise_opt (s : str) : option str :=
  if (length s =? 0)%nat then Some []
  else
    let trimmed := trim_trailing_dots (to_ascii_lowercase s) in
    if forallb label_ok (split_on dot trimmed) then Some trimmed else None.

Definition parse_domain_token (token key : str) (cl : ConfigLine) : cfg str :=
  ok_or (let! s := canonicalise_opt token in if (length s =? 0)%nat then None else Some s)
    (invalid_value_for cl key token (bs "expected a valid domain name")).
Definition number_token (parse : str -> option Z) (token key : str) (cl : ConfigLine) (field : str) : cfg Z :=
  ok_or (parse token) (invalid_value_for cl key token (expected field)).
Definition parse_u16_token : str -> str -> ConfigLine -> str -> cfg Z := number_token parse_u16.
Definition parse_u32_token : str -> str -> ConfigLine -> str -> cfg Z := number_token parse_u32.
Definition parse_i32_token : str -> str -> ConfigLine -> str -> cfg Z := number_token parse_i32.
(** [-value] overflows for the least [i64], which two signs can give. *)
Definition parse_i32_base0_token (token key : str) (cl : ConfigLine) (field : str) : outcome (cfg Z) :=
  let token := trim token in
  let bad reason := Val (Err (invalid_value_for cl key token reason)) in
  if (length token =? 0)%nat then bad (expected field)
  else
    let '(negative, unsigned) := match strip_prefix (bs "-") token with Some rest => (true, rest) | None => (false, token) end in
    let hex := match strip_prefix (bs "0x") unsigned with Some rest => Some rest | None => strip_prefix (bs "0X") unsigned end in
    let digits := default unsigned hex in
    if (length digits =? 0)%nat then bad (expected field)
    else
      match (match hex with Some _ => parse_i64 hex_digit 16 digits | None => parse_i64 dec_digit 10 digits end) with
      | None => bad (expected field)
      | Some value =>
        if negative && (value =? - 2 ^ 63) then Panic
        else
          let signed := if (negative : bool) then - value else value in
          if (- 2 ^ 31 <=? signed) && (signed <? 2 ^ 31) then Val (Ok signed) else bad (field ++ bs " out of range")
      end.
(** [u8::from_str_radix(pair, 16)] takes a sign; a pair of bytes that is not
    text is an error too. *)
Definition parse_hex_pair (pair : list u8) : option u8 := if utf8_valid pair then z8 <$> parse_hex_u8 pair else None.
Definition parse_hex_bytes (token key : str) (cl : ConfigLine) (field : str) : cfg (list u8) :=
  let hex := trim token in
  if negb (length hex mod 2 =? 0)%nat then Err (invalid_value_for cl key token (field ++ bs " must contain an even number of hex digits"))
  else ok_or (mapM parse_hex_pair (chunks (length hex) 2 hex)) (invalid_value_for cl key token (bs "expected a hexadecimal " ++ field)).

(** An address with a port, of which a source is ignored. *)
Definition parse_addr_port (v : str) : result (IpAddr * Z) str :=
  let '(addr_and_at, port_str) := match split_once hash v with Some (a, p) => (a, Some p) | None => (v, None) end in
  let? ip := ok_or (parse_ip (before_byte at_sign addr_and_at)) (bs "expected an IP address") in
  let? port := match port_str with Some ps => ok_or (parse_u16 (before_byte at_sign ps)) (bs "expected a port number") | None => Ok 53 end in
  Ok (ip, port).
Definition sock_of (ip : IpAddr) (port : Z) : MySockAddr := match ip with V4 a => SV4 a port | V6 a => SV6 a port 0 0 end.
Definition parse_mysockaddr (s : str) : result MySockAddr str :=
  let? (addr_str, port) := match rsplit_once hash s with
                           | Some (a, p) => let? port := ok_or (parse_u16 p) (bs "bad port in '" ++ s ++ bs "'") in Ok (a, port)
                           | None => Ok (s, 0)
                           end in
  let? ip := ok_or (parse_ip addr_str) (bs "bad address '" ++ addr_str ++ bs "'") in
  Ok (sock_of ip port).

(** ** Metacharacters *)

Definition META : list u8 :=
  [Byte.x00] ++ bs "123456 " ++ [Byte.x08; Byte.x09; Byte.x0a] ++ bs "78" ++ [Byte.x0d] ++ bs "90abcdefABCDE" ++ [Byte.x1b] ++ bs "F:,.".
Definition hide_meta (c : u8) : u8 := match find_byte c META with Some i => z8 (Z.of_nat i) | None => c end.
Definition unhide_meta (c : u8) : u8 := default c (META !! Z.to_nat (u8z c)).
Definition unhide_metas (data : list u8) : list u8 := unhide_meta <$> data.

(** ** Splitting and checking *)

Definition trim_end_ws (s : str) : str := rev (trim_back_rev (rev s)).
Definition split_chr (s : str) (c : u8) : option (str * str) := let! (a, b) := split_once c s in Some (trim_end_ws a, trim_front b).
Definition split (s : str) : option (str * str) := split_chr s comma.
Definition is_ascii_digit (b : u8) : bool := in_rng 48 57 b.
Definition is_all_ascii_digits (s : str) : bool := forallb is_ascii_digit s.
Definition numeric_check (s : str) : bool := negb (length s =? 0)%nat && is_all_ascii_digits s.
Definition atoi_check (s : str) : option Z := if numeric_check s then parse_i32 s else None.
Definition strtoul_check (s : str) : option Z := if numeric_check s then parse_u32 s else None.
Definition atoi_check16 (s : str) : option Z := let! v := atoi_check s in if (v <? 0) || (0xFFFF <? v) then None else Some v.
Definition atoi_check8 (s : str) : option Z := let! v := atoi_check s in if (v <? 0) || (0xFF <? v) then None else Some v.

(** ** Reverse zones *)

(** The digits from place [msize] down to the first, the [msize]th of which
    counts: with a remainder it is part of the name. *)
Definition rev_labels (digit : nat -> Z) (rem : Z) (msize i : nat) (fmt : Z -> str) : list str :=
  (fun j => fmt (digit j + (if (j =? msize)%nat then Z.of_nat i else 0))) <$> rev (seq 0 (if rem =? 0 then msize else S msize)).
Definition clear_bits (octets : list u8) (at_ : nat) (bits : Z) : list u8 := alter (fun b => z8 (Z.ldiff (u8z b) (2 ^ bits - 1))) at_ octets.
Definition octet_at (octets : list u8) (j : nat) : Z := u8z (nth j octets Byte.x00).
Definition domain_rev4 (addr : Ipv4Addr) (prefix_len : Z) : result (list str) str :=
  if negb ((1 <=? prefix_len) && (prefix_len <=? 32)) then Err (bs "bad IPv4 prefix length")
  else
    let rem := Z.land prefix_len 7 in
    let octets := clear_bits (octets4 addr) (3 - Z.to_nat (Z.shiftr (32 - prefix_len) 3)) (Z.land (32 - prefix_len) 7) in
    let count := if rem =? 0 then 1%nat else Z.to_nat (2 ^ (8 - rem)) in
    let msize := Z.to_nat (prefix_len / 8) in
    Ok ((fun i => join (bs ".") (rev_labels (octet_at octets) rem msize i fmt_u ++ [bs "in-addr.arpa"])) <$> seq 0 count).
Definition nibble_at (octets : list u8) (j : nat) : Z :=
  let byte := octet_at octets (j / 2) in if Nat.odd j then Z.land byte 0x0f else Z.shiftr byte 4.
Definition domain_rev6 (addr : Ipv6Addr) (prefix_len : Z) : result (list str) str :=
  if negb ((1 <=? prefix_len) && (prefix_len <=? 128)) then Err (bs "bad IPv6 prefix length")
  else
    let rem := Z.land prefix_len 3 in
    let octets := clear_bits (octets6 addr) (15 - Z.to_nat (Z.shiftr (128 - prefix_len) 3)) (Z.land (128 - prefix_len) 7) in
    let count := if rem =? 0 then 1%nat else Z.to_nat (2 ^ (4 - rem)) in
    let msize := Z.to_nat (prefix_len / 4) in
    Ok ((fun i => join (bs ".") (rev_labels (nibble_at octets) rem msize i (fmt_x 1) ++ [bs "ip6.arpa"])) <$> seq 0 count).

(** ** Tags *)

Definition is_tag_prefix (arg : str) : bool := has_prefix (bs "net:") arg || has_prefix (bs "tag:") arg.
Definition set_prefix (arg : str) : str := default arg (strip_prefix (bs "set:") arg).
(** [&s[n..]] panics past the end and inside a character. *)
Definition cut (s : str) (n : nat) : outcome str := if (n <=? length s)%nat && is_char_boundary s n then Val (drop n s) else Panic.
Fixpoint dhcp_tags_loop (fuel : nat) (tags : list str) (remaining : str) : outcome (list str * str) :=
  match fuel with
  | O => Val (tags, remaining)
  | S fuel =>
    if is_tag_prefix remaining then
      match split remaining with
      | Some (before, after) => let# tag := cut before 4 in dhcp_tags_loop fuel (tags ++ [tag]) after
      | None => let# tag := cut remaining 4 in Val (tags ++ [tag], [])
      end
    else Val (tags, remaining)
  end.
(** Every round takes a tag away. *)
Definition dhcp_tags (input : str) : outcome (list str * str) := dhcp_tags_loop (S (length input)) [] input.

(** ** Names of files *)

Definition file_filter (filename : str) : bool :=
  negb (length filename =? 0)%nat && negb (ends_with (bs "~") filename)
  && negb (has_prefix (bs "#") filename && ends_with (bs "#") filename) && negb (has_prefix (bs ".") filename).
