(* ===== verification/Daemon.v ===== *)
(** * The configuration state: [Daemon] of src/src/types/daemon.rs

    The option bits of src/src/types/constants.rs, the data of
    src/src/types/network.rs that the configuration fills, and the daemon with
    its defaults. The fields are those the configuration reads or writes, in the
    build with the default features, [dnssec] and [conntrack]; sockets, clocks
    and the state of the services are elsewhere. *)

From Stdlib Require Import ZArith Lia String.
From stdpp Require Import base numbers list option.
From S2P Require Import Prelude Types Records DhcpTypes RecordSet.
From S2P Require Server Domain DhcpCommon Radv Forward Extract.

#[local] Open Scope Z_scope.

(** ** Option bits *)

Inductive DaemonOption : Type :=
  | Boguspriv | Filter | Log | Selfmx | NoHosts | NoPoll | Debug | Order | NoResolv | Expand | Localmx | NoNeg
  | NodotsLocal | Nowild | Ethers | ResolvDomain | NoFork | Authoritative | Localise | Dbus | DhcpFqdn | NoPing
  | LeaseRo | AllServers | Reload | LocalRebind | TftpSecure | TftpNoblock | LogOpts | TftpAprefIp | NoOverride
  | NoRebind | AddMac | DnssecProxy | ConsecAddr | Conntrack | FqdnUpdate | Ra | TftpLc | Cleverbind | Tftp
  | ClientSubnet | QuietDhcp | QuietDhcp6 | QuietRa | DnssecValid | DnssecTime | DnssecDebug | DnssecIgnNs
  | LocalService | LoopDetect | Extralog | TftpNoFail | ScriptArp | MacB64 | MacHex | TftpAprefMac
  | RapidCommit | Ubus | IgnoreClid | SinglePort | LeaseRenew | LogDebug | Umbrella | UmbrellaDevid
  | CmarkAlstEn | QuietTftp | StripEcs | StripMac | Norr | NoIdent | CacheRr | LocalhostService | LogProto
  | No0x20 | Do0x20 | AuthLog | Leasequery | LogOnlyFailed | LogMalloc.
#[global] Instance DaemonOption_eq_dec : EqDecision DaemonOption.
Proof. solve_decision. Defined.
(** In the order of their bits. *)
Definition ALL_OPTIONS : list DaemonOption :=
  [Boguspriv; Filter; Log; Selfmx; NoHosts; NoPoll; Debug; Order; NoResolv; Expand; Localmx; NoNeg; 
   NodotsLocal; Nowild; Ethers; ResolvDomain; NoFork; Authoritative; Localise; Dbus; DhcpFqdn; NoPing; LeaseRo; 
   AllServers; Reload; LocalRebind; TftpSecure; TftpNoblock; LogOpts; TftpAprefIp; NoOverride; NoRebind; 
   AddMac; DnssecProxy; ConsecAddr; Conntrack; FqdnUpdate; Ra; TftpLc; Cleverbind; Tftp; ClientSubnet; 
   QuietDhcp; QuietDhcp6; QuietRa; DnssecValid; DnssecTime; DnssecDebug; DnssecIgnNs; LocalService; LoopDetect; 
   Extralog; TftpNoFail; ScriptArp; MacB64; MacHex; TftpAprefMac; RapidCommit; Ubus; IgnoreClid; SinglePort; 
   LeaseRenew; LogDebug; Umbrella; UmbrellaDevid; CmarkAlstEn; QuietTftp; StripEcs; StripMac; Norr; NoIdent; 
   CacheRr; LocalhostService; LogProto; No0x20; Do0x20; AuthLog; Leasequery; LogOnlyFailed; LogMalloc].
Definition option_index (o : DaemonOption) : nat :=
  match o with
  | Boguspriv => 0 | Filter => 1 | Log => 2 | Selfmx => 3 | NoHosts => 4 | NoPoll => 5 | Debug => 6 | Order => 7
  | NoResolv => 8 | Expand => 9 | Localmx => 10 | NoNeg => 11 | NodotsLocal => 12 | Nowild => 13 | Ethers => 14
  | ResolvDomain => 15 | NoFork => 16 | Authoritative => 17 | Localise => 18 | Dbus => 19 | DhcpFqdn => 20
  | NoPing => 21 | LeaseRo => 22 | AllServers => 23 | Reload => 24 | LocalRebind => 25 | TftpSecure => 26
  | TftpNoblock => 27 | LogOpts => 28 | TftpAprefIp => 29 | NoOverride => 30 | NoRebind => 31 | AddMac => 32
  | DnssecProxy => 33 | ConsecAddr => 34 | Conntrack => 35 | FqdnUpdate => 36 | Ra => 37 | TftpLc => 38
  | Cleverbind => 39 | Tftp => 40 | ClientSubnet => 41 | QuietDhcp => 42 | QuietDhcp6 => 43 | QuietRa => 44
  | DnssecValid => 45 | DnssecTime => 46 | DnssecDebug => 47 | DnssecIgnNs => 48 | LocalService => 49 | LoopDetect => 50
  | Extralog => 51 | TftpNoFail => 52 | ScriptArp => 53 | MacB64 => 54 | MacHex => 55 | TftpAprefMac => 56
  | RapidCommit => 57 | Ubus => 58 | IgnoreClid => 59 | SinglePort => 60 | LeaseRenew => 61 | LogDebug => 62
  | Umbrella => 63 | UmbrellaDevid => 64 | CmarkAlstEn => 65 | QuietTftp => 66 | StripEcs => 67 | StripMac => 68
  | Norr => 69 | NoIdent => 70 | CacheRr => 71 | LocalhostService => 72 | LogProto => 73 | No0x20 => 74 | Do0x20 => 75
  | AuthLog => 76 | Leasequery => 77 | LogOnlyFailed => 78 | LogMalloc => 79
  end%nat.

Definition OPT_BOGUSPRIV : DaemonOption := Boguspriv.
Definition OPT_FILTER : DaemonOption := Filter.
Definition OPT_LOG : DaemonOption := Log.
Definition OPT_SELFMX : DaemonOption := Selfmx.
Definition OPT_NO_HOSTS : DaemonOption := NoHosts.
Definition OPT_NO_POLL : DaemonOption := NoPoll.
Definition OPT_DEBUG : DaemonOption := Debug.
Definition OPT_ORDER : DaemonOption := Order.
Definition OPT_NO_RESOLV : DaemonOption := NoResolv.
Definition OPT_EXPAND : DaemonOption := Expand.
Definition OPT_LOCALMX : DaemonOption := Localmx.
Definition OPT_NO_NEG : DaemonOption := NoNeg.
Definition OPT_NODOTS_LOCAL : DaemonOption := NodotsLocal.
Definition OPT_NOWILD : DaemonOption := Nowild.
Definition OPT_ETHERS : DaemonOption := Ethers.
Definition OPT_RESOLV_DOMAIN : DaemonOption := ResolvDomain.
Definition OPT_NO_FORK : DaemonOption := NoFork.
Definition OPT_AUTHORITATIVE : DaemonOption := Authoritative.
Definition OPT_LOCALISE : DaemonOption := Localise.
Definition OPT_DBUS : DaemonOption := Dbus.
Definition OPT_DHCP_FQDN : DaemonOption := DhcpFqdn.
Definition OPT_NO_PING : DaemonOption := NoPing.
Definition OPT_LEASE_RO : DaemonOption := LeaseRo.
Definition OPT_ALL_SERVERS : DaemonOption := AllServers.
Definition OPT_RELOAD : DaemonOption := Reload.
Definition OPT_LOCAL_REBIND : DaemonOption := LocalRebind.
Definition OPT_TFTP_SECURE : DaemonOption := TftpSecure.
Definition OPT_TFTP_NOBLOCK : DaemonOption := TftpNoblock.
Definition OPT_LOG_OPTS : DaemonOption := LogOpts.
Definition OPT_TFTP_APREF_IP : DaemonOption := TftpAprefIp.
Definition OPT_NO_OVERRIDE : DaemonOption := NoOverride.
Definition OPT_NO_REBIND : DaemonOption := NoRebind.
Definition OPT_ADD_MAC : DaemonOption := AddMac.
Definition OPT_DNSSEC_PROXY : DaemonOption := DnssecProxy.
Definition OPT_CONSEC_ADDR : DaemonOption := ConsecAddr.
Definition OPT_CONNTRACK : DaemonOption := Conntrack.
Definition OPT_FQDN_UPDATE : DaemonOption := FqdnUpdate.
Definition OPT_RA : DaemonOption := Ra.
Definition OPT_TFTP_LC : DaemonOption := TftpLc.
Definition OPT_CLEVERBIND : DaemonOption := Cleverbind.
Definition OPT_TFTP : DaemonOption := Tftp.
Definition OPT_CLIENT_SUBNET : DaemonOption := ClientSubnet.
Definition OPT_QUIET_DHCP : DaemonOption := QuietDhcp.
Definition OPT_QUIET_DHCP6 : DaemonOption := QuietDhcp6.
Definition OPT_QUIET_RA : DaemonOption := QuietRa.
Definition OPT_DNSSEC_VALID : DaemonOption := DnssecValid.
Definition OPT_DNSSEC_TIME : DaemonOption := DnssecTime.
Definition OPT_DNSSEC_DEBUG : DaemonOption := DnssecDebug.
Definition OPT_DNSSEC_IGN_NS : DaemonOption := DnssecIgnNs.
Definition OPT_LOCAL_SERVICE : DaemonOption := LocalService.
Definition OPT_LOOP_DETECT : DaemonOption := LoopDetect.
Definition OPT_EXTRALOG : DaemonOption := Extralog.
Definition OPT_TFTP_NO_FAIL : DaemonOption := TftpNoFail.
Definition OPT_SCRIPT_ARP : DaemonOption := ScriptArp.
Definition OPT_MAC_B64 : DaemonOption := MacB64.
Definition OPT_MAC_HEX : DaemonOption := MacHex.
Definition OPT_TFTP_APREF_MAC : DaemonOption := TftpAprefMac.
Definition OPT_RAPID_COMMIT : DaemonOption := RapidCommit.
Definition OPT_UBUS : DaemonOption := Ubus.
Definition OPT_IGNORE_CLID : DaemonOption := IgnoreClid.
Definition OPT_SINGLE_PORT : DaemonOption := SinglePort.
Definition OPT_LEASE_RENEW : DaemonOption := LeaseRenew.
Definition OPT_LOG_DEBUG : DaemonOption := LogDebug.
Definition OPT_UMBRELLA : DaemonOption := Umbrella.
Definition OPT_UMBRELLA_DEVID : DaemonOption := UmbrellaDevid.
Definition OPT_CMARK_ALST_EN : DaemonOption := CmarkAlstEn.
Definition OPT_QUIET_TFTP : DaemonOption := QuietTftp.
Definition OPT_STRIP_ECS : DaemonOption := StripEcs.
Definition OPT_STRIP_MAC : DaemonOption := StripMac.
Definition OPT_NORR : DaemonOption := Norr.
Definition OPT_NO_IDENT : DaemonOption := NoIdent.
Definition OPT_CACHE_RR : DaemonOption := CacheRr.
Definition OPT_LOCALHOST_SERVICE : DaemonOption := LocalhostService.
Definition OPT_LOG_PROTO : DaemonOption := LogProto.
Definition OPT_NO_0X20 : DaemonOption := No0x20.
Definition OPT_DO_0X20 : DaemonOption := Do0x20.
Definition OPT_AUTH_LOG : DaemonOption := AuthLog.
Definition OPT_LEASEQUERY : DaemonOption := Leasequery.
Definition OPT_LOG_ONLY_FAILED : DaemonOption := LogOnlyFailed.
Definition OPT_LOG_MALLOC : DaemonOption := LogMalloc.

Definition OPTION_SIZE : nat := 3.
Definition CHUSER : str := bs "nobody".
Definition RUNFILE : str := bs "/var/run/dnsmasq.pid".
Definition DNSSEC_LIMIT_SIG_FAIL : Z := 20.
Definition DNSSEC_LIMIT_CRYPTO : Z := 200.
Definition DNSSEC_LIMIT_WORK : Z := 40.
Definition DNSSEC_LIMIT_NSEC3_ITERS : Z := 150.
Definition LIMIT_MAX : nat := 4.
Definition EDNS_PKTSZ : Z := 4096.

(** ** Data of the configuration *)

Definition IFACE_V4 : Z := 2 ^ 1.
Record MySubnet : Type := mkSubnet { ms_addr : MySockAddr; ms_addr_used : bool; ms_mask : Z }.
Record Resolvc : Type := mkResolvc { rv_is_default : bool; rv_logged : bool; rv_mtime : Z; rv_ino : Z; rv_name : str; rv_wd : Z; rv_file : option str }.
Module DynDirFlags.
Definition DIR : Z := 2 ^ 0.
Definition INACTIVE : Z := 2 ^ 1.
Definition HOSTS : Z := 2 ^ 3.
Definition DHCP_HST : Z := 2 ^ 4.
Definition DHCP_OPT : Z := 2 ^ 5.
Definition ZONES : Z := 2 ^ 6.
Definition NETWORKS : Z := 2 ^ 7.
End DynDirFlags.
Record HostsFile : Type := mkHostsFile { hf_flags : Z; hf_fname : str; hf_index : Z }.
Record DynDir : Type := mkDynDir { dd_files : list HostsFile; dd_flags : Z; dd_dname : str; dd_wd : Z }.
Record SharedNetwork : Type := mkShared {
  sn_if_index : Z; sn_is6 : bool; sn_match_addr : Ipv4Addr; sn_shared_addr : Ipv4Addr; sn_match_addr6 : Ipv6Addr; sn_shared_addr6 : Ipv6Addr }.
Definition shared_default : SharedNetwork := mkShared 0 false 0 0 0 0.
Record DsConfig : Type := mkDsConfig { dc_name : str; dc_digest : list u8; dc_class : Z; dc_algo : Z; dc_keytag : Z; dc_digest_type : Z }.
Record PxeService : Type := mkPxe {
  px_csa : Z; px_boot_type : Z; px_menu : str; px_basename : option str; px_sname : option str; px_server : Ipv4Addr; px_netid : list DhcpNetid }.
(** A list of tags is a [DhcpNetidList], a string a [DhcpPxeVendor], a number an
    [RrList] and a domain a [RebindDomain]: structures of one field. *)

(** The data of the files of the zone directories, and of the network
    directories: src/src/zones_d.rs, src/src/networks_d.rs. *)
Record ZonesDRecords : Type := mkZonesD {
  zd_host_records : list HostRecord; zd_cnames : list CnameRec; zd_txt_records : list TxtRecord; zd_mx_records : list MxSrvRecord;
  zd_naptr_records : list Naptr; zd_ptr_records : list PtrRecord; zd_address_server_list : list Server.Server }.
#[global] Instance ZonesDRecords_settable : Settable ZonesDRecords := fun z =>
  mkZonesD (zd_host_records z) (zd_cnames z) (zd_txt_records z) (zd_mx_records z) (zd_naptr_records z) (zd_ptr_records z)
    (zd_address_server_list z).
Definition zones_d_empty : ZonesDRecords := mkZonesD [] [] [] [] [] [] [].
Record NetworksDRecords : Type := mkNetworksD {
  nd_contexts : list DhcpContext; nd_relay4 : list DhcpRelay; nd_configs : list DhcpConfig; nd_dhcp_opts : list DhcpOpt }.
#[global] Instance NetworksDRecords_settable : Settable NetworksDRecords := fun n =>
  mkNetworksD (nd_contexts n) (nd_relay4 n) (nd_configs n) (nd_dhcp_opts n).
Definition networks_d_empty : NetworksDRecords := mkNetworksD [] [] [] [].

(** ** The daemon *)

Record Daemon : Type := mkDaemon {
  d_options : list Z; d_resolv_files : list Resolvc; d_servers_file : option str; d_servers : list Server.Server; d_no_rebind : list str;
  d_synth_domains : list Domain.CondDomain; d_cond_domain : list Domain.CondDomain; d_bridges : list Radv.DhcpBridge;
  d_shared_networks : list SharedNetwork; d_mxnames : list MxSrvRecord; d_naptr : list Naptr; d_txt : list TxtRecord; d_rr : list TxtRecord;
  d_ptr : list PtrRecord; d_host_records : list HostRecord; d_cnames : list CnameRec; d_auth_zones : list AuthZone;
  d_int_names : list InterfaceName; d_bogus_addr : list Forward.BogusAddr; d_ignore_addr : list Forward.BogusAddr;
  d_leasequery_addr : list Forward.BogusAddr; d_doctors : list Doctor; d_rrlist_cache : list Z; d_rrlist_filter : list Z;
  d_if_names : list Iname; d_if_addrs : list Iname; d_if_except : list Iname; d_dhcp_except : list Iname; d_auth_peers : list Iname;
  d_auth_interfaces : list Iname; d_tftp_interfaces : list Iname; d_ipsets : list Extract.Ipsets; d_nftsets : list Extract.Ipsets;
  d_allowlists : list Allowlist; d_allowlist_mask : Z; d_port : Z; d_query_port : Z; d_min_port : Z; d_max_port : Z; d_local_ttl : Z;
  d_neg_ttl : Z; d_max_ttl : Z; d_min_cache_ttl : Z; d_max_cache_ttl : Z; d_auth_ttl : Z; d_cachesize : Z; d_ftabsize : Z;
  d_cache_max_expiry : Z; d_fast_retry_time : Z; d_fast_retry_timeout : Z; d_edns_pktsz : Z; d_log_fac : option Z; d_log_file : option str;
  d_max_logs : Z; d_username : option str; d_groupname : option str; d_scriptuser : option str; d_luascript : option str;
  d_authserver : option str; d_hostmaster : option str; d_secondary_forward_servers : list str; d_domain_suffix : option str;
  d_runfile : option str; d_lease_change_command : option str; d_lease_file : option str; d_dns_client_id : option str;
  d_mxtarget : option str; d_umbrella_org : Z; d_umbrella_asset : Z; d_umbrella_device : list u8; d_add_subnet4 : option MySubnet;
  d_add_subnet6 : option MySubnet; d_addn_hosts : list HostsFile; d_dhcp_hosts_file : list HostsFile; d_dhcp_opts_file : list HostsFile;
  d_dynamic_dirs : list DynDir; d_soa_sn : Z; d_soa_refresh : Z; d_soa_retry : Z; d_soa_expiry : Z; d_host_index : Z; d_max_procs : Z;
  d_randport_limit : Z; d_dhcp : list DhcpContext; d_dhcp_conf : list DhcpConfig; d_dhcp_opts : list DhcpOpt;
  d_dhcp_vendors : list DhcpVendorRule; d_dhcp_userclasses : list DhcpUserClassRule; d_dhcp_macs : list DhcpMacRule;
  d_dhcp_relay_ids : list DhcpRelayIdRule; d_dhcp_reply_delays : list DhcpReplyDelay; d_boot_config : list DhcpBoot;
  d_tag_if : list DhcpCommon.TagIf; d_dhcp_match : list DhcpOpt; d_dhcp_name_match : list DhcpMatchName; d_dhcp_ttl : Z; d_use_dhcp_ttl : Z;
  d_dhcp_max : Z; d_dhcp_server_port : Z; d_dhcp_client_port : Z; d_relay4 : list DhcpRelay; d_dhcp_pxe_vendors : list str;
  d_pxe_services : list PxeService; d_enable_pxe : bool; d_pxe_boottype_next : Z; d_dhcp_ignore : list (list DhcpNetid);
  d_dhcp_ignore_names : list (list DhcpNetid); d_dhcp_gen_names : list (list DhcpNetid); d_force_broadcast : list (list DhcpNetid);
  d_bootp_dynamic : list (list DhcpNetid); d_override_relays : list Ipv4Addr; d_dhcp_override : bool; d_dhcp6 : list DhcpContext;
  d_relay6 : list DhcpRelay; d_ra_interfaces : list Radv.RaInterface; d_duid_config : option (list u8); d_duid_enterprise : Z;
  d_doing_ra : bool; d_ds : list DsConfig; d_dnssec_limits : list Z; d_timestamp_file : option str; d_tftp_prefix : option str;
  d_tftp_max : Z; d_tftp_mtu : Z; d_start_tftp_port : Z; d_end_tftp_port : Z; d_dump_file : option str; d_dump_mask : Z;
  d_zones_d : ZonesDRecords;
}.
#[global] Instance Daemon_settable : Settable Daemon := fun d =>
  mkDaemon
    (d_options d) (d_resolv_files d) (d_servers_file d) (d_servers d) (d_no_rebind d) (d_synth_domains d) (d_cond_domain d) (d_bridges d)
    (d_shared_networks d) (d_mxnames d) (d_naptr d) (d_txt d) (d_rr d) (d_ptr d) (d_host_records d) (d_cnames d) (d_auth_zones d)
    (d_int_names d) (d_bogus_addr d) (d_ignore_addr d) (d_leasequery_addr d) (d_doctors d) (d_rrlist_cache d) (d_rrlist_filter d)
    (d_if_names d) (d_if_addrs d) (d_if_except d) (d_dhcp_except d) (d_auth_peers d) (d_auth_interfaces d) (d_tftp_interfaces d)
    (d_ipsets d) (d_nftsets d) (d_allowlists d) (d_allowlist_mask d) (d_port d) (d_query_port d) (d_min_port d) (d_max_port d)
    (d_local_ttl d) (d_neg_ttl d) (d_max_ttl d) (d_min_cache_ttl d) (d_max_cache_ttl d) (d_auth_ttl d) (d_cachesize d) (d_ftabsize d)
    (d_cache_max_expiry d) (d_fast_retry_time d) (d_fast_retry_timeout d) (d_edns_pktsz d) (d_log_fac d) (d_log_file d) (d_max_logs d)
    (d_username d) (d_groupname d) (d_scriptuser d) (d_luascript d) (d_authserver d) (d_hostmaster d) (d_secondary_forward_servers d)
    (d_domain_suffix d) (d_runfile d) (d_lease_change_command d) (d_lease_file d) (d_dns_client_id d) (d_mxtarget d) (d_umbrella_org d)
    (d_umbrella_asset d) (d_umbrella_device d) (d_add_subnet4 d) (d_add_subnet6 d) (d_addn_hosts d) (d_dhcp_hosts_file d)
    (d_dhcp_opts_file d) (d_dynamic_dirs d) (d_soa_sn d) (d_soa_refresh d) (d_soa_retry d) (d_soa_expiry d) (d_host_index d) (d_max_procs d)
    (d_randport_limit d) (d_dhcp d) (d_dhcp_conf d) (d_dhcp_opts d) (d_dhcp_vendors d) (d_dhcp_userclasses d) (d_dhcp_macs d)
    (d_dhcp_relay_ids d) (d_dhcp_reply_delays d) (d_boot_config d) (d_tag_if d) (d_dhcp_match d) (d_dhcp_name_match d) (d_dhcp_ttl d)
    (d_use_dhcp_ttl d) (d_dhcp_max d) (d_dhcp_server_port d) (d_dhcp_client_port d) (d_relay4 d) (d_dhcp_pxe_vendors d) (d_pxe_services d)
    (d_enable_pxe d) (d_pxe_boottype_next d) (d_dhcp_ignore d) (d_dhcp_ignore_names d) (d_dhcp_gen_names d) (d_force_broadcast d)
    (d_bootp_dynamic d) (d_override_relays d) (d_dhcp_override d) (d_dhcp6 d) (d_relay6 d) (d_ra_interfaces d) (d_duid_config d)
    (d_duid_enterprise d) (d_doing_ra d) (d_ds d) (d_dnssec_limits d) (d_timestamp_file d) (d_tftp_prefix d) (d_tftp_max d) (d_tftp_mtu d)
    (d_start_tftp_port d) (d_end_tftp_port d) (d_dump_file d) (d_dump_mask d) (d_zones_d d).
Definition daemon_default : Daemon :=
  mkDaemon
    (replicate OPTION_SIZE 0) [] None [] [] [] [] [] [] [] [] [] [] [] [] [] [] [] [] [] [] [] [] [] [] [] [] [] [] [] [] [] [] [] 0 53 0
    1024 65535 0 0 0 0 0 600 150 150 (-1) 0 0 EDNS_PKTSZ None None 5 None None None None None None [] None None None None None None 0 0
    (replicate 8 Byte.x00) None None [] [] [] [] 0 1200 180 1209600 0 0 1 [] [] [] [] [] [] [] [] [] [] [] [] 0 0 1000 67 68 [] [] [] false
    32768 [] [] [] [] [] [] false [] [] [] None 0 false []
    [DNSSEC_LIMIT_SIG_FAIL; DNSSEC_LIMIT_CRYPTO; DNSSEC_LIMIT_WORK; DNSSEC_LIMIT_NSEC3_ITERS] None None 0 0 0 0 None (-1) zones_d_empty.

(** The words of 32 bits. *)
Definition option_bool (opt : DaemonOption) (d : Daemon) : bool :=
  let i := option_index opt in Z.testbit (nth (i / 32) (d_options d) 0) (Z.of_nat (i mod 32)).
Definition set_option (opt : DaemonOption) (d : Daemon) : Daemon :=
  let i := option_index opt in d <| d_options ::= alter (fun w => Z.lor w (2 ^ Z.of_nat (i mod 32))) (i / 32)%nat |>.
Definition clear_option (opt : DaemonOption) (d : Daemon) : Daemon :=
  let i := option_index opt in d <| d_options ::= alter (fun w => Z.ldiff w (2 ^ Z.of_nat (i mod 32))) (i / 32)%nat |>.

(** The bits are independent of each other. *)
Lemma index_of_option o : ALL_OPTIONS !! option_index o = Some o.
Proof. by destruct o. Qed.
Lemma option_index_inj a b : option_index a = option_index b -> a = b.
Proof. intros E. pose proof (index_of_option a) as Ha. rewrite E, index_of_option in Ha. by simplify_eq. Qed.
Definition options_ok (d : Daemon) : Prop := length (d_options d) = OPTION_SIZE.
Lemma option_index_bound o : (option_index o < 32 * OPTION_SIZE)%nat.
Proof. unfold OPTION_SIZE. destruct o; cbn; lia. Qed.
Lemma nth_alter (f : Z -> Z) i j (l : list Z) : (i < length l)%nat -> nth j (alter f i l) 0 = if (j =? i)%nat then f (nth j l 0) else nth j l 0.
Proof.
  intros Hi. rewrite !nth_lookup. destruct (Nat.eqb_spec j i) as [->|Hne].
  - rewrite list_lookup_alter_eq. destruct (lookup_lt_is_Some_2 l i Hi) as [x ->]. done.
  - by rewrite list_lookup_alter_ne.
Qed.
Lemma option_bit f g (Hf : forall w k n, 0 <= k -> 0 <= n -> Z.testbit (f w (2 ^ k)) n = g (Z.testbit w n) (k =? n)) o o' d : options_ok d ->
  option_bool o' (d <| d_options ::= alter (fun w => f w (2 ^ Z.of_nat (option_index o mod 32))) (option_index o / 32)%nat |>) =
  if (option_index o' / 32 =? option_index o / 32)%nat then g (option_bool o' d) (bool_decide (o' = o)) else option_bool o' d.
Proof.
  intros Hok. unfold option_bool. change (d_options (d <| d_options ::= ?f |>)) with (f (d_options d)). rewrite nth_alter.
  2:{ rewrite Hok. apply Nat.Div0.div_lt_upper_bound, option_index_bound. }
  destruct (Nat.eqb_spec (option_index o' / 32) (option_index o / 32)) as [E|E]; [|done]. rewrite Hf by lia. f_equal.
  case_bool_decide as Ho; [subst; apply Z.eqb_refl|]. apply Z.eqb_neq. intros Hm. apply Ho, option_index_inj.
  rewrite (Nat.div_mod_eq (option_index o') 32), (Nat.div_mod_eq (option_index o) 32). lia.
Qed.
Lemma same_word o o' : (option_index o' / 32 =? option_index o / 32)%nat = false -> bool_decide (o' = o) = false.
Proof. intros E. apply bool_decide_eq_false. intros ->. by rewrite Nat.eqb_refl in E. Qed.
Lemma set_option_get o o' d : options_ok d -> option_bool o' (set_option o d) = option_bool o' d || bool_decide (o' = o).
Proof.
  intros Hok. unfold set_option. rewrite (option_bit Z.lor orb); [|intros; by rewrite Z.lor_spec, Z.pow2_bits_eqb|done].
  destruct (_ =? _)%nat eqn:E; [done|]. rewrite same_word by done. by rewrite orb_false_r.
Qed.
Lemma clear_option_get o o' d : options_ok d -> option_bool o' (clear_option o d) = option_bool o' d && negb (bool_decide (o' = o)).
Proof.
  intros Hok. unfold clear_option. rewrite (option_bit Z.ldiff (fun a b => a && negb b)); [|intros; by rewrite Z.ldiff_spec, Z.pow2_bits_eqb|done].
  destruct (_ =? _)%nat eqn:E; [done|]. rewrite same_word by done. by rewrite andb_true_r.
Qed.
Lemma set_option_ok o d : options_ok d -> options_ok (set_option o d).
Proof. unfold options_ok, set_option. cbn. by rewrite length_alter. Qed.
Lemma clear_option_ok o d : options_ok d -> options_ok (clear_option o d).
Proof. unfold options_ok, clear_option. cbn. by rewrite length_alter. Qed.
