(* ===== verification/ConfigDns.v ===== *)
(** * DNS directives: the record and server parsers of src/src/option.rs

    One function per directive, from the text of its value; those that write to
    the daemon return it. An error ends the loading of the configuration, so
    that what was written before it is not kept. The index of an interface and
    the random identifiers of servers are parameters. *)

From Stdlib Require Import ZArith Lia String.
From stdpp Require Import base numbers list option.
From S2P Require Import Prelude Types StdText Records Server RecordSet Daemon ConfigText.
From S2P Require Domain Radv Forward Extract.

#[local] Open Scope Z_scope.

#[global] Instance CondDomain_settable : Settable Domain.CondDomain := fun c =>
  Domain.mkCondDomain (Domain.cd_domain c) (Domain.cd_prefix c) (Domain.cd_interface c) (Domain.cd_al c) (Domain.cd_start c) (Domain.cd_end c)
    (Domain.cd_start6 c) (Domain.cd_end6 c) (Domain.cd_is6 c) (Domain.cd_indexed c) (Domain.cd_prefixlen c).

(** ** Servers *)

(** The identifier is random. *)
Definition new_server (flags : Z) (domain : str) (addr source_addr : MySockAddr) (uid : Z) : Server :=
  mkServer flags domain addr source_addr [] 0 0 0 0 0 0 0 None 0 (-1) 0 (-1) 0 uid.
Definition dummy_addr : MySockAddr := SV4 0 0.
(** One server for each domain; the [i]th takes the [i]th random number. *)
Definition servers_for (rand : nat -> Z) (flags : Z) (domains : list str) (addr : MySockAddr) : list Server :=
  imap (fun i d => new_server flags d addr dummy_addr (rand i)) domains.
Definition family_flag (ip : IpAddr) : Z := match ip with V4 _ => ADDR4 | V6 _ => ADDR6 end.

(** The domains before the last slash, and what follows it. *)
Definition split_domains (v : str) : list str * str :=
  if has_prefix [slash] v then
    let parts := split_on slash (trim_start slash v) in
    let domains := List.filter (fun d => negb (length d =? 0)%nat) (take (length parts - 1) parts) in
    ((fun d => if bool_decide (d = [hash]) then [] else d) <$> domains, match rsplit_once slash v with Some (_, a) => a | None => v end)
  else ([], v).
Definition or_any (domains : list str) : list str := match domains with [] => [[]] | _ => domains end.
Definition build_server_or_address_entries (rand : nat -> Z) (key v : str) (cl : ConfigLine) : cfg (list Server) :=
  let '(domains, addr_part) := split_domains v in
  if (length addr_part =? 0)%nat then Ok (servers_for rand LITERAL_ADDRESS (or_any domains) dummy_addr)
  else if bool_decide (key = bs "address") && bool_decide (addr_part = [hash]) then
    Ok (servers_for rand (Z.lor ALL_ZEROS LITERAL_ADDRESS) (or_any domains) dummy_addr)
  else
    let '(addr_and_at, port_str) := match split_once hash addr_part with Some (a, p) => (a, Some p) | None => (addr_part, None) end in
    let addr_str := before_byte at_sign addr_and_at in
    let? ip := ok_or (parse_ip addr_str) (invalid_value_for cl key addr_str (bs "expected an IP address")) in
    let? port := match port_str with
                 | Some ps => let ps := before_byte at_sign ps in ok_or (parse_u16 ps) (invalid_value_for cl key ps (bs "expected a port number"))
                 | None => Ok 53
                 end in
    let flags := if bool_decide (key = bs "address") then Z.lor (family_flag ip) LITERAL_ADDRESS else family_flag ip in
    Ok (servers_for rand flags (or_any domains) (sock_of ip port)).

(** [r.map_err(|e| invalid_value_for(cl, key, orig, e))]. *)
Definition or_invalid {A} (cl : ConfigLine) (key orig : str) (r : result A str) : cfg A :=
  match r with Ok x => Ok x | Err e => Err (invalid_value_for cl key orig e) end.
(** The random numbers of the daemon's next servers. *)
Definition next_uids (rand : nat -> Z) (d : Daemon) : nat -> Z := fun i => rand (length (d_servers d) + i)%nat.
Definition push_domain_servers (rand : nat -> Z) (d : Daemon) (domains : list str) (server_part : option str) (cl : ConfigLine) (key orig : str) : cfg Daemon :=
  match server_part with
  | None => Ok (d <| d_servers ::= (fun l => l ++ servers_for (next_uids rand d) LITERAL_ADDRESS domains dummy_addr) |>)
  | Some s =>
    let? (ip, port) := or_invalid cl key orig (parse_addr_port s) in
    Ok (d <| d_servers ::= (fun l => l ++ servers_for (next_uids rand d) (family_flag ip) domains (sock_of ip port)) |>)
  end.
Definition parse_rev_server (rand : nat -> Z) (d : Daemon) (v : str) (cl : ConfigLine) : cfg Daemon :=
  let key := bs "rev-server" in
  let parts := splitn 2 comma v in
  let net_part := part parts 0 in
  let? (net_addr_str, size_opt) := match split_once slash net_part with
                                   | Some (addr, size) => let? n := ok_or (parse_u32 size) (invalid_value_for cl key v (bs "bad prefix length")) in Ok (addr, Some n)
                                   | None => Ok (net_part, None)
                                   end in
  let? domains := match parse_ipv4 net_addr_str with
                  | Some addr4 => or_invalid cl key v (domain_rev4 addr4 (default 32 size_opt))
                  | None => match parse_ipv6 net_addr_str with
                            | Some addr6 => or_invalid cl key v (domain_rev6 addr6 (default 128 size_opt))
                            | None => Err (invalid_value_for cl key v (bs "expected an IPv4 or IPv6 address"))
                            end
                  end in
  push_domain_servers rand d domains (parts !! 1%nat) cl key v.

(** ** Domains of ranges *)

Definition cond_domain_of (domain : str) : Domain.CondDomain := Domain.mkCondDomain domain None None [] 0 0 0 0 false false 0.
(** The network of an address with a prefix length. *)
Definition cidr_domain (cd : Domain.CondDomain) (net_part size_str v key : str) (cl : ConfigLine) : cfg Domain.CondDomain :=
  let bad := Err (invalid_value_for cl key v (bs "bad prefix length")) in
  let? size := ok_or (parse_u32 size_str) (invalid_value_for cl key v (bs "bad prefix length")) in
  match parse_ipv4 net_part with
  | Some addr4 =>
    if negb ((1 <=? size) && (size <=? 32)) then bad
    else
      let mask := 2 ^ (32 - size) - 1 in
      let start := Z.ldiff addr4 mask in
      Ok (cd <| Domain.cd_is6 := false |> <| Domain.cd_start := start |> <| Domain.cd_end := Z.lor start mask |>)
  | None =>
    match parse_ipv6 net_part with
    | Some addr6 =>
      if negb ((1 <=? size) && (size <=? 128)) then bad
      else
        let addrpart := Domain.ipv6_low64 addr6 in
        let mask := if size <=? 64 then 2 ^ 64 - 1 else 2 ^ (128 - size) - 1 in
        Ok (cd <| Domain.cd_is6 := true |> <| Domain.cd_prefixlen := size |>
               <| Domain.cd_start6 := Domain.ipv6_set_low64 addr6 (Z.ldiff addrpart mask) |>
               <| Domain.cd_end6 := Domain.ipv6_set_low64 addr6 (Z.lor addrpart mask) |>)
    | None => Err (invalid_value_for cl key v (bs "expected an IPv4 or IPv6 address"))
    end
  end.
(** A start and an end, with [other] for what is no address. *)
Definition range_domain (cd : Domain.CondDomain) (start_str : str) (end_str : option str) (v key : str) (cl : ConfigLine) (other : cfg Domain.CondDomain)
  : cfg Domain.CondDomain :=
  let end_of {A} (parse : str -> option A) (start : A) (reason : string) : cfg A :=
    match end_str with
    | None | Some [] => Ok start
    | Some e => ok_or (parse e) (invalid_value_for cl key v (bs reason))
    end in
  match parse_ipv4 start_str with
  | Some start4 =>
    let? end4 := end_of parse_ipv4 start4 "expected an IPv4 address"%string in
    Ok (cd <| Domain.cd_is6 := false |> <| Domain.cd_start := start4 |> <| Domain.cd_end := end4 |>)
  | None =>
    match parse_ipv6 start_str with
    | Some start6 =>
      let? end6 := end_of parse_ipv6 start6 "expected an IPv6 address"%string in
      Ok (cd <| Domain.cd_is6 := true |> <| Domain.cd_start6 := start6 |> <| Domain.cd_end6 := end6 |>)
    | None => other
    end
  end.

Definition parse_domain (d : Daemon) (v : str) (cl : ConfigLine) : cfg Daemon :=
  let key := bs "domain" in
  let parts := splitn 2 comma v in
  let domain := trim (part parts 0) in
  if (length domain =? 0)%nat then Err (invalid_value_for cl key v (bs "missing domain"))
  else match parts !! 1%nat with
  | None => Ok (if bool_decide (domain = [hash]) then set_option OPT_RESOLV_DOMAIN d else d <| d_domain_suffix := Some domain |>)
  | Some rest =>
    let? cd := match split_once slash rest with
               | Some (net_part, tail) =>
                 let tail_parts := splitn 2 comma tail in
                 let? cd := cidr_domain (cond_domain_of domain) net_part (part tail_parts 0) v key cl in
                 match tail_parts !! 1%nat with
                 | Some l => if bool_decide (l = bs "local") then Ok cd else Err (invalid_value_for cl key v (bs "expected 'local'"))
                 | None => Ok cd
                 end
               | None =>
                 let range_parts := splitn 3 comma rest in
                 let start_str := part range_parts 0 in
                 range_domain (cond_domain_of domain) start_str (range_parts !! 1%nat) v key cl
                   (Ok (cond_domain_of domain <| Domain.cd_interface := Some start_str |>))
               end in
    Ok (d <| d_cond_domain ::= (fun l => l ++ [cd]) |>)
  end.

(** A star at the end of the prefix asks for indexed names. *)
Definition indexed_domain (cd : Domain.CondDomain) (v key : str) (cl : ConfigLine) : cfg Domain.CondDomain :=
  match (let! p := Domain.cd_prefix cd in strip_suffix [star] p) with
  | None => Ok cd
  | Some stripped =>
    if Domain.cd_is6 cd && (Domain.cd_prefixlen cd <? 64) then Err (invalid_value_for cl key v (bs "prefix length too small"))
    else Ok (cd <| Domain.cd_indexed := true |> <| Domain.cd_prefix := Some stripped |>)
  end.
Definition with_prefix (p : option str) (cd : Domain.CondDomain) : Domain.CondDomain :=
  match p with Some p => cd <| Domain.cd_prefix := Some p |> | None => cd end.
Definition parse_synth_domain (d : Daemon) (v : str) (cl : ConfigLine) : cfg Daemon :=
  let key := bs "synth-domain" in
  let parts := splitn 2 comma v in
  let domain := trim (part parts 0) in
  if (length domain =? 0)%nat then Err (invalid_value_for cl key v (bs "missing domain"))
  else
    let? rest := ok_or (parts !! 1%nat) (invalid_value_for cl key v (bs "missing address range")) in
    let? cd := match split_once slash rest with
               | Some (net_part, tail) =>
                 let tail_parts := splitn 2 comma tail in
                 let? cd := cidr_domain (cond_domain_of domain) net_part (part tail_parts 0) v key cl in
                 Ok (with_prefix (tail_parts !! 1%nat) cd)
               | None =>
                 let range_parts := splitn 3 comma rest in
                 let? cd := range_domain (cond_domain_of domain) (part range_parts 0) (range_parts !! 1%nat) v key cl
                              (Err (invalid_value_for cl key v (bs "expected an IPv4 or IPv6 address"))) in
                 Ok (with_prefix (range_parts !! 2%nat) cd)
               end in
    let? cd := indexed_domain cd v key cl in
    Ok (d <| d_synth_domains ::= (fun l => l ++ [cd]) |>).

(** ** Umbrella, bridges, advertisements, shared networks *)

Definition is_ascii_hexdigit (b : u8) : bool := match hex_digit b with Some _ => true | None => false end.
Definition umbrella_part (cl : ConfigLine) (d : Daemon) (p : str) : cfg Daemon :=
  let key := bs "umbrella" in
  match strip_prefix (bs "deviceid:") p with
  | Some hex =>
    if negb (length hex =? 16)%nat || negb (forallb is_ascii_hexdigit hex) then Err (invalid_value_for cl key p (bs "deviceid must be 16 hex characters"))
    else Ok (set_option OPT_UMBRELLA_DEVID (d <| d_umbrella_device := default [] (mapM parse_hex_pair (chunks 8 2 hex)) |>))
  | None =>
    match strip_prefix (bs "orgid:") p with
    | Some n => let? n := ok_or (parse_u32 n) (invalid_value_for cl key p (bs "expected an integer orgid")) in Ok (d <| d_umbrella_org := n |>)
    | None =>
      match strip_prefix (bs "assetid:") p with
      | Some n => let? n := ok_or (parse_u32 n) (invalid_value_for cl key p (bs "expected an integer assetid")) in Ok (d <| d_umbrella_asset := n |>)
      | None => Err (invalid_value_for cl key p (bs "expected deviceid:/orgid:/assetid:"))
      end
    end
  end.
(** A loop over parts that may fail. *)
Fixpoint try_fold {A S} (f : S -> A -> cfg S) (s : S) (l : list A) : cfg S :=
  match l with [] => Ok s | x :: l => let? s := f s x in try_fold f s l end.
Definition parse_umbrella (d : Daemon) (v : str) (cl : ConfigLine) : cfg Daemon := try_fold (umbrella_part cl) d (split_on comma v).

Definition BRIDGE_IF_NAMESIZE : nat := 16.
Fixpoint add_aliases (iface : str) (aliases : list str) (bridges : list Radv.DhcpBridge) : list Radv.DhcpBridge :=
  match bridges with
  | [] => [Radv.mkBridge iface aliases]
  | b :: rest =>
    if bool_decide (Radv.br_iface b = iface) then Radv.mkBridge iface (Radv.br_aliases b ++ aliases) :: rest
    else b :: add_aliases iface aliases rest
  end.
Definition parse_bridge_interface (d : Daemon) (v : str) (cl : ConfigLine) : cfg Daemon :=
  let bad := Err (invalid_value_for cl (bs "bridge-interface") v (bs "bad bridge-interface")) in
  let parts := splitn 2 comma v in
  let iface := trim (part parts 0) in
  match parts !! 1%nat with
  | None => bad
  | Some rest =>
    if (length iface =? 0)%nat || (BRIDGE_IF_NAMESIZE - 1 <? length iface)%nat then bad
    else
      let aliases := List.filter (fun a => negb (length a =? 0)%nat && (length a <? BRIDGE_IF_NAMESIZE)%nat) (trim <$> split_on comma rest) in
      Ok (d <| d_bridges ::= add_aliases iface aliases |>)
  end.

(** The parts of [ra-param] in turn. *)
Definition ra_param_mtu (bad : ConfigError) (next : list str) : cfg (option str * Z * list str) :=
  match next with
  | rest :: tail =>
    if (4 <=? length rest)%nat && eq_ignore_ascii_case (take 4 rest) (bs "mtu:") then
      let val := drop 4 rest in
      if eq_ignore_ascii_case val (bs "off") then Ok (None, -1, tail)
      else if is_all_ascii_digits val then
        let? n := ok_or (parse_i32 val) bad in
        if n <? 1280 then Err bad else Ok (None, n, tail)
      else Ok (Some val, 0, tail)
    else Ok (None, 0, next)
  | [] => Ok (None, 0, next)
  end.
Definition ra_param_prio (next : list str) : Z * list str :=
  match next with
  | rest :: tail => if eq_ignore_ascii_case rest (bs "low") then (0x18, tail) else if eq_ignore_ascii_case rest (bs "high") then (0x08, tail) else (0, next)
  | [] => (0, next)
  end.
Definition digits_i32 (bad : ConfigError) (s : str) : cfg Z := if is_all_ascii_digits s then ok_or (parse_i32 s) bad else Err bad.
Definition parse_ra_param (d : Daemon) (v : str) (cl : ConfigLine) : cfg Daemon :=
  let bad := invalid_value_for cl (bs "ra-param") v (bs "bad RA-params") in
  match split_csv v with
  | (_ :: _) as name :: next =>
    let? (mtu_name, mtu, next) := ra_param_mtu bad next in
    let '(prio, next) := ra_param_prio next in
    match next with
    | [] => Err bad
    | interval_str :: next =>
      let? interval := digits_i32 bad interval_str in
      let? lifetime := match next with lifetime_str :: _ => digits_i32 bad lifetime_str | [] => Ok (-1) end in
      Ok (d <| d_ra_interfaces ::= (fun l => l ++ [Radv.mkRaInterface name mtu_name interval lifetime prio mtu]) |>)
    end
  | _ => Err bad
  end.

Definition parse_shared_network (nametoindex : str -> Z) (d : Daemon) (v : str) (cl : ConfigLine) : cfg Daemon :=
  let invalid := invalid_value_for cl (bs "shared-network") v in
  let parts := splitn 2 comma v in
  let first := trim (part parts 0) in
  let? second := ok_or (trim <$> parts !! 1%nat) (invalid (bs "bad shared-network")) in
  let by_index (sn : SharedNetwork) : cfg SharedNetwork :=
    if nametoindex first =? 0 then Err (invalid (bs "bad shared-network"))
    else Ok (mkShared (nametoindex first) (sn_is6 sn) (sn_match_addr sn) (sn_shared_addr sn) (sn_match_addr6 sn) (sn_shared_addr6 sn)) in
  if (length second =? 0)%nat then Err (invalid (bs "bad shared-network"))
  else
    let? sn := match parse_ipv4 second with
               | Some shared4 => match parse_ipv4 first with Some match4 => Ok (mkShared 0 false match4 shared4 0 0) | None => by_index (mkShared 0 false 0 shared4 0 0) end
               | None =>
                 match parse_ipv6 second with
                 | Some shared6 => match parse_ipv6 first with Some match6 => Ok (mkShared 0 true 0 0 match6 shared6) | None => by_index (mkShared 0 true 0 0 0 shared6) end
                 | None => Err (invalid (bs "expected an IPv4 or IPv6 address"))
                 end
               end in
    Ok (d <| d_shared_networks ::= (fun l => l ++ [sn]) |>).
