(* ===== verification/ConfigRecords.v ===== *)
(** * Record directives: the parsers of configured data of src/src/option.rs

    Hosts, aliases, mail exchangers, services, raw records, trust anchors,
    authoritative zones, sets and filters: each from the text of its value, with
    its errors. *)

From Stdlib Require Import ZArith Lia String.
From stdpp Require Import base numbers list option.
From S2P Require Import Prelude Types StdText Records RecordSet Daemon ConfigText ConfigDns.
From S2P Require Forward Extract.

#[local] Open Scope Z_scope.

(** ** Files, TFTP *)

Definition make_hosts_file (d : Daemon) (fname : str) : HostsFile * Daemon :=
  (mkHostsFile 0 fname (as_u32 (d_host_index d)), d <| d_host_index ::= Z.add 1 |>).
Definition make_dynamic_dir (dname : str) (flags : Z) : DynDir := mkDynDir [] flags dname (-1).
Definition parse_tftp_interfaces (value : str) (cl : ConfigLine) : cfg (list Iname) :=
  try_map (fun p => if (length p =? 0)%nat then Err (invalid_value_for cl (bs "enable-tftp") value (bs "expected interface name"))
                    else Ok (mkIname (Some p) None (Z.lor IFACE_V4 Radv.IFACE_V6))) (split_csv value).
Definition parse_tftp_port_range (value : str) (cl : ConfigLine) : cfg (Z * Z) :=
  let key := bs "tftp-port-range" in
  match split_csv value with
  | [p0; p1] =>
    if any_empty [p0; p1] then Err (invalid_value_for cl key value (bs "expected start,end"))
    else
      let? start := parse_u16_token p0 key cl (bs "TFTP port") in
      let? end_ := parse_u16_token p1 key cl (bs "TFTP port") in
      Ok (if end_ <? start then (end_, start) else (start, end_))
  | _ => Err (invalid_value_for cl key value (bs "expected start,end"))
  end.

(** ** Authoritative server *)

Definition parse_auth_soa (d : Daemon) (value : str) (cl : ConfigLine) : cfg Daemon :=
  let key := bs "auth-soa" in
  let parts := split_csv value in
  if (length parts =? 0)%nat || (5 <? length parts)%nat || any_empty parts then
    Err (invalid_value_for cl key value (bs "expected serial[,hostmaster[,refresh[,retry[,expiry]]]]"))
  else
    let? sn := parse_u32_token (part parts 0) key cl (bs "SOA serial") in
    let d := d <| d_soa_sn := sn |> in
    let d := match parts !! 1%nat with Some h => d <| d_hostmaster := Some (Domain.replace_byte at_sign dot h) |> | None => d end in
    let? d := match parts !! 2%nat with Some p => let? n := parse_u32_token p key cl (bs "SOA refresh") in Ok (d <| d_soa_refresh := n |>) | None => Ok d end in
    let? d := match parts !! 3%nat with Some p => let? n := parse_u32_token p key cl (bs "SOA retry") in Ok (d <| d_soa_retry := n |>) | None => Ok d end in
    match parts !! 4%nat with Some p => let? n := parse_u32_token p key cl (bs "SOA expiry") in Ok (d <| d_soa_expiry := n |>) | None => Ok d end.
Definition parse_auth_peers (value : str) (cl : ConfigLine) : cfg (list Iname) :=
  let key := bs "auth-peer" in
  try_map (fun token =>
    if (length token =? 0)%nat then Err (invalid_value_for cl key value (bs "empty peer address"))
    else let? ip := ok_or (parse_ip token) (invalid_value_for cl key token (bs "expected an IPv4 or IPv6 address")) in Ok (mkIname None (Some (sock_of ip 0)) 0))
    (split_csv value).
Definition parse_interface_family (token key : str) (cl : ConfigLine) : cfg (str * option Z) :=
  match rsplit_once slash token with
  | Some (intr, family) =>
    if (length intr =? 0)%nat then Err (invalid_value_for cl key token (bs "expected an interface name"))
    else if bool_decide (family = bs "4") then Ok (intr, Some 4)
    else if bool_decide (family = bs "6") then Ok (intr, Some 6)
    else Err (invalid_value_for cl key token (bs "expected interface suffix /4 or /6"))
  | None => Ok (token, None)
  end.
Definition parse_auth_server_interface (token : str) (cl : ConfigLine) : cfg Iname :=
  match parse_ip token with
  | Some ip => Ok (mkIname None (Some (sock_of ip 0)) 0)
  | None =>
    let? (name, family) := parse_interface_family token (bs "auth-server") cl in
    Ok (match family with
        | Some f => if f =? 4 then mkIname (Some name) (Some (SV4 0 0)) IFACE_V4 else mkIname (Some name) (Some (SV6 0 0 0 0)) Radv.IFACE_V6
        | None => mkIname (Some name) None 0
        end)
  end.
Definition parse_auth_server (value : str) (cl : ConfigLine) : cfg (str * list Iname) :=
  let key := bs "auth-server" in
  match split_csv value with
  | (_ :: _) as domain :: tokens =>
    let? authserver := parse_domain_token domain key cl in
    let? interfaces := try_map (fun token => if (length token =? 0)%nat then Err (invalid_value_for cl key value (bs "empty auth-server field"))
                                             else parse_auth_server_interface token cl) tokens in
    Ok (authserver, interfaces)
  | _ => Err (invalid_value_for cl key value (bs "expected domain[,interface|ip-address...]"))
  end.
Definition parse_auth_sec_servers (value : str) (cl : ConfigLine) : cfg (list str) :=
  let key := bs "auth-sec-servers" in
  try_map (fun token => if (length token =? 0)%nat then Err (invalid_value_for cl key value (bs "empty secondary server")) else parse_domain_token token key cl)
    (split_csv value).

(** ** DNSSEC limits, client subnets *)

Fixpoint set_limits (parts : list str) (idx : nat) (cl : ConfigLine) (limits : list Z) : cfg (list Z) :=
  match parts with
  | [] => Ok limits
  | p :: parts =>
    let? val := parse_i32_token p (bs "dnssec-limits") cl (bs "DNSSEC limit") in
    set_limits parts (S idx) cl (if val =? 0 then limits else <[idx := val]> limits)
  end.
Definition parse_dnssec_limits (value : str) (cl : ConfigLine) (limits : list Z) : cfg (list Z) :=
  let parts := split_csv value in
  if (length parts =? 0)%nat || (LIMIT_MAX <? length parts)%nat || any_empty parts then
    Err (invalid_value_for cl (bs "dnssec-limits") value (bs "expected up to four comma-separated DNSSEC limits"))
  else set_limits parts 0 cl limits.
Definition parse_add_subnet_part (token : str) (ipv6_slot : bool) (cl : ConfigLine) : cfg MySubnet :=
  let key := bs "add-subnet" in
  let? (addr, mask_part) := match split_once slash token with
                            | Some (addr_part, mask_part) =>
                              match parse_mysockaddr (trim addr_part) with
                              | Ok a => Ok (Some a, trim mask_part)
                              | Err _ => Err (invalid_value_for cl key token (bs "expected a valid subnet address"))
                              end
                            | None => Ok (None, trim token)
                            end in
  let? mask := parse_i32_token mask_part key cl (bs "subnet prefix length") in
  let v6 := match addr with Some (SV6 _ _ _ _) => true | Some (SV4 _ _) => false | None => ipv6_slot end in
  if negb ((0 <=? mask) && (mask <=? if v6 then 128 else 32)) then Err (invalid_value_for cl key token (bs "subnet prefix length out of range"))
  else
    let default_addr := if ipv6_slot then SV6 0 0 0 0 else SV4 0 0 in
    Ok (mkSubnet (default default_addr addr) (match addr with Some _ => true | None => false end) mask).
Definition parse_add_subnet (value : str) (cl : ConfigLine) : cfg (MySubnet * option MySubnet) :=
  let bad := Err (invalid_value_for cl (bs "add-subnet") value (bs "expected [address/]IPv4-prefix[, [address/]IPv6-prefix]")) in
  let parts := split_csv value in
  if any_empty parts then bad
  else match parts with
  | [p4] => let? s4 := parse_add_subnet_part p4 false cl in Ok (s4, None)
  | [p4; p6] => let? s4 := parse_add_subnet_part p4 false cl in let? s6 := parse_add_subnet_part p6 true cl in Ok (s4, Some s6)
  | _ => bad
  end.

(** ** Records *)

Definition optional_u32 (parts : list str) (i : nat) (default : Z) (key : str) (cl : ConfigLine) (field : str) : cfg Z :=
  match parts !! i with Some p => parse_u32_token p key cl field | None => Ok default end.
Definition parse_mx_host (value : str) (cl : ConfigLine) : cfg MxSrvRecord :=
  let key := bs "mx-host" in
  let parts := split_csv value in
  if (length parts =? 0)%nat || (3 <? length parts)%nat then Err (invalid_value_for cl key value (bs "expected name[,target[,priority]]"))
  else
    let? name := parse_domain_token (part parts 0) key cl in
    let? target := match parts !! 1%nat with Some p => parse_domain_token p key cl | None => Ok [] end in
    let? priority := optional_u32 parts 2 1 key cl (bs "MX priority") in
    Ok (mkMxSrv name target false 0 priority 0 0).
Definition parse_srv_host (value : str) (cl : ConfigLine) : cfg MxSrvRecord :=
  let key := bs "srv-host" in
  let parts := split_csv value in
  if (length parts <? 3)%nat || (5 <? length parts)%nat then Err (invalid_value_for cl key value (bs "expected name,target,port[,priority[,weight]]"))
  else
    let? name := parse_domain_token (part parts 0) key cl in
    let? target := parse_domain_token (part parts 1) key cl in
    let? srv_port := parse_u16_token (part parts 2) key cl (bs "SRV port") in
    let? priority := optional_u32 parts 3 0 key cl (bs "SRV priority") in
    let? weight := optional_u32 parts 4 0 key cl (bs "SRV weight") in
    Ok (mkMxSrv name target true srv_port priority weight 0).
Definition txt_piece (piece : list u8) : list u8 := z8 (Z.of_nat (length piece)) :: piece.
Definition encode_txt_chunk (chunk : str) : list u8 := match chunk with [] => [Byte.x00] | _ => concat (txt_piece <$> chunks (length chunk) 255 chunk) end.
Definition encode_txt_record_chunks (l : list str) : list u8 := match l with [] => [Byte.x00] | _ => concat (encode_txt_chunk <$> l) end.
Definition parse_txt_record (value : str) (cl : ConfigLine) : cfg TxtRecord :=
  let key := bs "txt-record" in
  match split_csv value with
  | (_ :: _) as name :: texts => let? name := parse_domain_token name key cl in Ok (mkTxt name (encode_txt_record_chunks texts) 1 0)
  | _ => Err (invalid_value_for cl key value (bs "expected name[,text...]"))
  end.
Definition parse_ptr_record (value : str) (cl : ConfigLine) : cfg PtrRecord :=
  let key := bs "ptr-record" in
  match split_csv value with
  | [p0; p1] => let? name := parse_domain_token p0 key cl in let? target := parse_domain_token p1 key cl in Ok (mkPtr name target)
  | _ => Err (invalid_value_for cl key value (bs "expected name,target"))
  end.

(** One field of a host record, by what it parses as. *)
Definition host_field (value : str) (cl : ConfigLine) (h : HostRecord) (p : str) : cfg HostRecord :=
  let invalid val reason := Err (invalid_value_for cl (bs "host-record") val reason) in
  if (length p =? 0)%nat then invalid value (bs "empty host-record field")
  else match parse_ipv4 p with
  | Some ip4 => match hr_addr4 h with Some _ => invalid p (bs "duplicate IPv4 address") | None => Ok (mkHost (hr_ttl h) 0 (hr_names h) (Some ip4) (hr_addr6 h)) end
  | None =>
    match parse_ipv6 p with
    | Some ip6 => match hr_addr6 h with Some _ => invalid p (bs "duplicate IPv6 address") | None => Ok (mkHost (hr_ttl h) 0 (hr_names h) (hr_addr4 h) (Some ip6)) end
    | None =>
      match parse_i32 p with
      | Some ttl => if negb (hr_ttl h =? -1) then invalid p (bs "duplicate TTL") else Ok (mkHost ttl 0 (hr_names h) (hr_addr4 h) (hr_addr6 h))
      | None => let? name := parse_domain_token p (bs "host-record") cl in Ok (mkHost (hr_ttl h) 0 (hr_names h ++ [name]) (hr_addr4 h) (hr_addr6 h))
      end
    end
  end.
Definition parse_host_record (value : str) (cl : ConfigLine) : cfg HostRecord :=
  let invalid reason := Err (invalid_value_for cl (bs "host-record") value reason) in
  let parts := split_csv value in
  if (length parts <? 2)%nat then invalid (bs "expected name[,name...],ip4|ip6[,ip4|ip6][,ttl]")
  else
    let? h := try_fold (host_field value cl) (mkHost (-1) 0 [] None None) parts in
    match hr_names h with
    | [] => invalid (bs "host-record requires at least one name")
    | _ => match hr_addr4 h, hr_addr6 h with None, None => invalid (bs "host-record requires at least one IP address") | _, _ => Ok h end
    end.

Definition IN4 : Z := 1.
Definition IN6 : Z := 2.
Definition INP4 : Z := 4.
Definition INP6 : Z := 8.
(** The addresses before the interface. *)
Fixpoint interface_protos (key : str) (cl : ConfigLine) (flags : Z) (p4 : option Ipv4Addr) (p6 : option Ipv6Addr) (parts : list str)
  : cfg (Z * option Ipv4Addr * option Ipv6Addr * list str) :=
  match parts with
  | p :: (_ :: _) as rest =>
    match parse_ipv4 p with
    | Some ip4 => match p4 with Some _ => Err (invalid_value_for cl key p (bs "duplicate IPv4 address")) | None => interface_protos key cl (Z.lor flags INP4) (Some ip4) p6 rest end
    | None =>
      match parse_ipv6 p with
      | Some ip6 => match p6 with Some _ => Err (invalid_value_for cl key p (bs "duplicate IPv6 address")) | None => interface_protos key cl (Z.lor flags INP6) p4 (Some ip6) rest end
      | None => Ok (flags, p4, p6, parts)
      end
    end
  | _ => Ok (flags, p4, p6, parts)
  end.
Definition parse_interface_name (value : str) (cl : ConfigLine) (dynamic : bool) : cfg InterfaceName :=
  let key := if dynamic then bs "dynamic-host" else bs "interface-name" in
  let parts := split_csv value in
  if (length parts <? 2)%nat || any_empty parts then
    Err (invalid_value_for cl key value (if dynamic then bs "expected name,[IPv4],[IPv6],interface" else bs "expected name,interface[/4|/6]"))
  else
    let? name := parse_domain_token (part parts 0) key cl in
    let? (flags, proto4, proto6, rest) := interface_protos key cl (Z.lor IN4 IN6) None None (tail parts) in
    match rest with
    | [p] =>
      let? (intr, family) := parse_interface_family p key cl in
      let flags := match family with Some f => if f =? 4 then Z.ldiff flags IN6 else Z.ldiff flags IN4 | None => flags end in
      let protos := negb (Z.land flags (Z.lor INP4 INP6) =? 0) in
      let? flags := if dynamic then
                      if negb protos then Err (invalid_value_for cl key value (bs "dynamic-host requires an IPv4 or IPv6 address"))
                      else match family with
                           | Some _ => Err (invalid_value_for cl key p (bs "dynamic-host interface cannot use /4 or /6"))
                           | None => Ok (Z.ldiff flags (Z.lor IN4 IN6))
                           end
                    else if protos then Err (invalid_value_for cl key value (bs "interface-name does not accept address fields"))
                    else Ok flags in
      Ok (mkIntName name intr flags proto4 proto6 [])
    | _ => Err (invalid_value_for cl key value (bs "unexpected field"))
    end.

(** The aliases so far, and those of earlier directives. *)
Fixpoint cname_aliases (cl : ConfigLine) (existing : list CnameRec) (ttl : Z) (target : str) (aliases : list str) (out : list CnameRec) : cfg (list CnameRec) :=
  match aliases with
  | [] => Ok out
  | p :: aliases =>
    let? alias := parse_domain_token p (bs "cname") cl in
    if existsb (fun c => eq_ignore_ascii_case (cn_alias c) alias) existing || existsb (fun c => eq_ignore_ascii_case (cn_alias c) alias) out then
      Err (invalid_value_for cl (bs "cname") p (bs "duplicate CNAME"))
    else cname_aliases cl existing ttl target aliases (out ++ [mkCnameRec ttl 0 alias target])
  end.
Definition parse_cname_records (value : str) (cl : ConfigLine) (existing : list CnameRec) : cfg (list CnameRec) :=
  let parts := split_csv value in
  if (length parts <? 2)%nat then Err (invalid_value_for cl (bs "cname") value (bs "expected alias[,alias...],target[,ttl]"))
  else
    let last_ttl := if (3 <=? length parts)%nat then let! l := parts !! (length parts - 1)%nat in parse_i32 l else None in
    let '(target_idx, ttl) := match last_ttl with Some ttl => ((length parts - 2)%nat, ttl) | None => ((length parts - 1)%nat, -1) end in
    let? target := parse_domain_token (part parts target_idx) (bs "cname") cl in
    cname_aliases cl existing ttl target (take target_idx parts) [].

Definition parse_naptr_record (value : str) (cl : ConfigLine) : cfg Naptr :=
  let key := bs "naptr-record" in
  match split_csv value with
  | [p0; p1; p2; p3; p4; p5; p6] =>
    let? name := parse_domain_token p0 key cl in
    let? order := parse_u32_token p1 key cl (bs "NAPTR order") in
    let? pref := parse_u32_token p2 key cl (bs "NAPTR preference") in
    let? replace := parse_domain_token p6 key cl in
    Ok (mkNaptr name replace p5 p4 p3 order pref)
  | _ => Err (invalid_value_for cl key value (bs "expected name,order,pref,flags,services,regexp,replace"))
  end.

(** The names of record types. *)
Definition RR_TYPE_NAMES : list (string * Z) :=
  [("A", 1); ("NS", 2); ("CNAME", 5); ("SOA", 6); ("PTR", 12); ("MX", 15); ("TXT", 16); ("AAAA", 28); ("SRV", 33); ("NAPTR", 35); ("DS", 43);
   ("DNSKEY", 48); ("CAA", 257); ("ANY", 255)]%string.
Definition parse_rr_type (token key : str) (cl : ConfigLine) : cfg Z :=
  match parse_u16 token with
  | Some rrtype => Ok rrtype
  | None => ok_or (snd <$> List.find (fun '(n, _) => bool_decide (to_ascii_uppercase token = bs n)) RR_TYPE_NAMES)
              (invalid_value_for cl key token (bs "unknown RR type"))
  end.
Definition parse_dns_rr (value : str) (cl : ConfigLine) : cfg TxtRecord :=
  let key := bs "dns-rr" in
  let parts := split_csv value in
  if (length parts <? 2)%nat || (3 <? length parts)%nat then Err (invalid_value_for cl key value (bs "expected name,type[,hex-data]"))
  else
    let? rrtype := parse_rr_type (part parts 1) key cl in
    let? data := match parts !! 2%nat with Some p => parse_hex_bytes p key cl (bs "RDATA") | None => Ok [] end in
    let? name := parse_domain_token (part parts 0) key cl in
    Ok (mkTxt name data rrtype 0).
Definition parse_caa_record (value : str) (cl : ConfigLine) : cfg TxtRecord :=
  let key := bs "caa-record" in
  match split_csv value with
  | [p0; p1; tag; v] =>
    let? flags := ok_or (parse_u8 p1) (invalid_value_for cl key p1 (bs "expected CAA flags in range 0-255")) in
    if (length tag =? 0)%nat || (255 <? length tag)%nat then Err (invalid_value_for cl key tag (bs "CAA tag length must be 1-255"))
    else
      let? name := parse_domain_token p0 key cl in
      Ok (mkTxt name ([z8 flags; z8 (Z.of_nat (length tag))] ++ tag ++ v) 257 0)
  | _ => Err (invalid_value_for cl key value (bs "expected name,flags,tag,value"))
  end.
Definition parse_rrlist (value : str) (cl : ConfigLine) (key : str) : cfg (list Z) :=
  try_map (fun token => if (length token =? 0)%nat then Err (invalid_value_for cl key value (bs "empty RR type")) else parse_rr_type token key cl)
    (split_csv value).
Definition parse_trust_anchor (value : str) (cl : ConfigLine) : cfg DsConfig :=
  let key := bs "trust-anchor" in
  match split_csv value with
  | [p0; p1; p2; p3; p4] =>
    let? name := parse_domain_token p0 key cl in
    let? keytag := parse_i32_token p1 key cl (bs "DNSSEC key tag") in
    let? algo := parse_i32_token p2 key cl (bs "DNSSEC algorithm") in
    let? digest_type := parse_i32_token p3 key cl (bs "DNSSEC digest type") in
    let? digest := parse_hex_bytes p4 key cl (bs "digest") in
    Ok (mkDsConfig name digest 1 algo keytag digest_type)
  | _ => Err (invalid_value_for cl key value (bs "expected name,keytag,algo,digest_type,digest_hex"))
  end.

(** ** Addresses with a prefix length *)

(** The text before a slash, and the trimmed text after it. *)
Definition addr_prefix (token : str) : str * option str :=
  match split_once slash token with Some (a, p) => (trim a, Some (trim p)) | None => (trim token, None) end.
Definition prefix_or (p : option str) (default : Z) (key : str) (cl : ConfigLine) (field : str) : cfg Z :=
  match p with Some p => parse_i32_token p key cl field | None => Ok default end.
Definition parse_bogus_addr (value : str) (cl : ConfigLine) (key : str) : cfg Forward.BogusAddr :=
  let '(addr_part, prefix_part) := addr_prefix value in
  if (length addr_part =? 0)%nat then Err (invalid_value_for cl key value (bs "expected an IP address"))
  else
    let? ip := ok_or (parse_ip addr_part) (invalid_value_for cl key value (bs "expected an IP address")) in
    match ip with
    | V4 v4 =>
      let? prefix := prefix_or prefix_part 32 key cl (bs "IPv4 prefix length") in
      if negb ((0 <=? prefix) && (prefix <=? 32)) then Err (invalid_value_for cl key value (bs "IPv4 prefix length must be 0-32"))
      else Ok (Forward.mkBogus false prefix (Addr4 v4))
    | V6 v6 =>
      let? prefix := prefix_or prefix_part 128 key cl (bs "IPv6 prefix length") in
      if negb ((0 <=? prefix) && (prefix <=? 128)) then Err (invalid_value_for cl key value (bs "IPv6 prefix length must be 0-128"))
      else Ok (Forward.mkBogus true prefix (Addr6 v6))
    end.
Definition parse_rebind_domains (value : str) (cl : ConfigLine) : cfg (list str) :=
  let key := bs "rebind-domain-ok" in
  try_map (fun raw => if (length raw =? 0)%nat then Err (invalid_value_for cl key value (bs "empty domain in rebind-domain-ok")) else parse_domain_token raw key cl)
    (split_csv value).

Definition parse_auth_zone_addr (token : str) (cl : ConfigLine) : cfg Addrlist :=
  let key := bs "auth-zone" in
  let '(addr_part, prefix_part) := addr_prefix token in
  match parse_ipv4 addr_part with
  | Some v4 => let? prefixlen := prefix_or prefix_part 24 key cl (bs "IPv4 prefix length") in Ok (mkAddrlist (Addr4 v4) ADDRLIST_LITERAL prefixlen None)
  | None =>
    match parse_ipv6 addr_part with
    | Some v6 =>
      let? prefixlen := prefix_or prefix_part 64 key cl (bs "IPv6 prefix length") in
      Ok (mkAddrlist (Addr6 v6) (Z.lor ADDRLIST_LITERAL ADDRLIST_IPV6) prefixlen None)
    | None => Err (invalid_value_for cl key token (bs "expected an IP subnet or interface name"))
    end
  end.
Definition AUTH6 : Z := 1.
Definition AUTH4 : Z := 2.
Definition parse_auth_zone_interface (token : str) (cl : ConfigLine) : cfg AuthNameEntry :=
  let invalid reason := invalid_value_for cl (bs "auth-zone") token reason in
  let? (name, flags) := match rsplit_once slash token with
                        | Some (name, family) =>
                          if bool_decide (trim family = bs "4") then Ok (trim name, Z.ldiff (Z.lor AUTH4 AUTH6) AUTH6)
                          else if bool_decide (trim family = bs "6") then Ok (trim name, Z.ldiff (Z.lor AUTH4 AUTH6) AUTH4)
                          else Err (invalid (bs "interface family suffix must be /4 or /6"))
                        | None => Ok (trim token, Z.lor AUTH4 AUTH6)
                        end in
  if (length name =? 0)%nat then Err (invalid (bs "expected an interface name")) else Ok (mkAuthName name flags).
Definition auth_zone_field (value : str) (cl : ConfigLine) (zone : AuthZone) (token : str) : cfg AuthZone :=
  let key := bs "auth-zone" in
  if (length token =? 0)%nat then Err (invalid_value_for cl key value (bs "empty auth-zone field"))
  else
    let '(is_exclude, body) := match strip_prefix (bs "exclude:") token with Some rest => (true, rest) | None => (false, token) end in
    match parse_auth_zone_addr body cl with
    | Ok addr => Ok (if (is_exclude : bool) then mkAuthZone (az_domain zone) (az_interface_names zone) (az_subnet zone) (az_exclude zone ++ [addr])
                     else mkAuthZone (az_domain zone) (az_interface_names zone) (az_subnet zone ++ [addr]) (az_exclude zone))
    | Err _ =>
      if is_exclude then Err (invalid_value_for cl key token (bs "exclude: requires an IP/prefix subnet"))
      else let? i := parse_auth_zone_interface body cl in Ok (mkAuthZone (az_domain zone) (az_interface_names zone ++ [i]) (az_subnet zone) (az_exclude zone))
    end.
Definition parse_auth_zone (value : str) (cl : ConfigLine) : cfg AuthZone :=
  match split_csv value with
  | (_ :: _) as domain :: tokens =>
    let? domain := parse_domain_token domain (bs "auth-zone") cl in
    try_fold (auth_zone_field value cl) (mkAuthZone domain [] [] []) tokens
  | _ => Err (invalid_value_for cl (bs "auth-zone") value (bs "expected zone domain"))
  end.

(** ** Sets and address rewriting *)

Definition parse_ipset_family (value : str) (cl : ConfigLine) (directive : str) (hash_to_space : bool) : cfg (list Extract.Ipsets) :=
  let invalid reason := invalid_value_for cl directive value reason in
  if negb (has_prefix [slash] value) then Err (invalid (bs "expected /domain[/domain...]/set[,set...]"))
  else
    let? (domains_part, sets_part) := ok_or (rsplit_once slash (trim_start slash value)) (invalid (bs "expected domains followed by one or more set names")) in
    if (length domains_part =? 0)%nat || (length (trim sets_part) =? 0)%nat then Err (invalid (bs "expected domains followed by one or more set names"))
    else
      let set_names := (fun s => if hash_to_space then Domain.replace_byte hash space s else s) <$>
                       List.filter (fun s => negb (length s =? 0)%nat) (trim <$> split_csv sets_part) in
      if (length set_names =? 0)%nat then Err (invalid (bs "expected at least one set name"))
      else
        let? out := try_map (fun domain => let? d := parse_domain_token domain directive cl in Ok (Extract.mkIpsets set_names d))
                      (List.filter (fun d => negb (length (trim d) =? 0)%nat) (split_on slash domains_part)) in
        if (length out =? 0)%nat then Err (invalid (bs "expected at least one domain")) else Ok out.
Definition parse_ipset (value : str) (cl : ConfigLine) : cfg (list Extract.Ipsets) := parse_ipset_family value cl (bs "ipset") false.
Definition parse_nftset (value : str) (cl : ConfigLine) : cfg (list Extract.Ipsets) := parse_ipset_family value cl (bs "nftset") true.

Definition ip4_token (token shown : str) (cl : ConfigLine) (reason : str) : cfg Ipv4Addr := ok_or (parse_ipv4 token) (invalid_value_for cl (bs "alias") shown reason).
Definition parse_alias (value : str) (cl : ConfigLine) : cfg Doctor :=
  let parts := split_csv value in
  if negb ((length parts =? 2)%nat || (length parts =? 3)%nat) then Err (invalid_value_for cl (bs "alias") value (bs "expected old-ip|start-end,new-ip[,mask]"))
  else
    let p0 := part parts 0 in
    let? (in_addr, end_addr) := match split_once minus p0 with
                                | Some (start, end_) =>
                                  let? s := ip4_token (trim start) p0 cl (bs "expected a valid IPv4 range start") in
                                  let? e := ip4_token (trim end_) p0 cl (bs "expected a valid IPv4 range end") in
                                  Ok (s, e)
                                | None => let? s := ip4_token p0 p0 cl (bs "expected a valid IPv4 address") in Ok (s, 0)
                                end in
    let? out_addr := ip4_token (part parts 1) (part parts 1) cl (bs "expected a valid translated IPv4 address") in
    let? mask := match parts !! 2%nat with Some p => ip4_token p p cl (bs "expected a valid IPv4 netmask") | None => Ok (2 ^ 32 - 1) end in
    Ok (mkDoctor in_addr end_addr out_addr mask).
