(* ===== verification/DhcpOptTab.v ===== *)
(** * DHCP options by name: the tables of src/src/dhcp_common.rs

    The names, numbers and kinds of options, their values as text, and the lines
    that describe ranges and relays in the log. *)

From Stdlib Require Import ZArith Lia String.
From stdpp Require Import base numbers list option.
From S2P Require Import Prelude Types StdText Util DhcpTypes.

#[local] Open Scope Z_scope.

Definition OT_ADDR_LIST : Z := 0x8000.
Definition OT_RFC1035_NAME : Z := 0x4000.
Definition OT_INTERNAL : Z := 0x2000.
Definition OT_NAME : Z := 0x1000.
Definition OT_CSTRING : Z := 0x0800.
Definition OT_DEC : Z := 0x0400.
Definition OT_TIME : Z := 0x0200.
Record DhcpOptEntry : Type := mkEntry { oe_name : string; oe_val : Z; oe_size : Z }.

Definition OPTTAB : list DhcpOptEntry :=
  [mkEntry "netmask" 1 OT_ADDR_LIST; mkEntry "time-offset" 2 4; mkEntry "router" 3 OT_ADDR_LIST; mkEntry "dns-server" 6 OT_ADDR_LIST;
   mkEntry "log-server" 7 OT_ADDR_LIST; mkEntry "lpr-server" 9 OT_ADDR_LIST; mkEntry "hostname" 12 (Z.lor OT_INTERNAL OT_NAME);
   mkEntry "boot-file-size" 13 (Z.lor 2 OT_DEC); mkEntry "domain-name" 15 OT_NAME; mkEntry "swap-server" 16 OT_ADDR_LIST;
   mkEntry "root-path" 17 OT_NAME; mkEntry "extension-path" 18 OT_NAME; mkEntry "ip-forward-enable" 19 1; mkEntry "non-local-source-routing" 20 1;
   mkEntry "policy-filter" 21 OT_ADDR_LIST; mkEntry "max-datagram-reassembly" 22 (Z.lor 2 OT_DEC); mkEntry "default-ttl" 23 (Z.lor 1 OT_DEC);
   mkEntry "mtu" 26 (Z.lor 2 OT_DEC); mkEntry "all-subnets-local" 27 1; mkEntry "broadcast" 28 (Z.lor OT_INTERNAL OT_ADDR_LIST);
   mkEntry "router-discovery" 31 1; mkEntry "router-solicitation" 32 OT_ADDR_LIST; mkEntry "static-route" 33 OT_ADDR_LIST;
   mkEntry "trailer-encapsulation" 34 1; mkEntry "arp-timeout" 35 (Z.lor 4 OT_DEC); mkEntry "ethernet-encap" 36 1; mkEntry "tcp-ttl" 37 1;
   mkEntry "tcp-keepalive" 38 (Z.lor 4 OT_DEC); mkEntry "nis-domain" 40 OT_NAME; mkEntry "nis-server" 41 OT_ADDR_LIST;
   mkEntry "ntp-server" 42 OT_ADDR_LIST; mkEntry "vendor-encap" 43 OT_INTERNAL; mkEntry "netbios-ns" 44 OT_ADDR_LIST;
   mkEntry "netbios-dd" 45 OT_ADDR_LIST; mkEntry "netbios-nodetype" 46 1; mkEntry "netbios-scope" 47 0; mkEntry "x-windows-fs" 48 OT_ADDR_LIST;
   mkEntry "x-windows-dm" 49 OT_ADDR_LIST; mkEntry "requested-address" 50 (Z.lor OT_INTERNAL OT_ADDR_LIST);
   mkEntry "lease-time" 51 (Z.lor OT_INTERNAL OT_TIME); mkEntry "option-overload" 52 OT_INTERNAL;
   mkEntry "message-type" 53 (Z.lor OT_INTERNAL OT_DEC); mkEntry "server-identifier" 54 (Z.lor OT_INTERNAL OT_ADDR_LIST);
   mkEntry "parameter-request" 55 OT_INTERNAL; mkEntry "message" 56 OT_INTERNAL; mkEntry "max-message-size" 57 OT_INTERNAL; mkEntry "T1" 58 OT_TIME;
   mkEntry "T2" 59 OT_TIME; mkEntry "vendor-class" 60 0; mkEntry "client-id" 61 OT_INTERNAL; mkEntry "nis+-domain" 64 OT_NAME;
   mkEntry "nis+-server" 65 OT_ADDR_LIST; mkEntry "tftp-server" 66 OT_NAME; mkEntry "bootfile-name" 67 OT_NAME;
   mkEntry "mobile-ip-home" 68 OT_ADDR_LIST; mkEntry "smtp-server" 69 OT_ADDR_LIST; mkEntry "pop3-server" 70 OT_ADDR_LIST;
   mkEntry "nntp-server" 71 OT_ADDR_LIST; mkEntry "irc-server" 74 OT_ADDR_LIST; mkEntry "user-class" 77 0; mkEntry "rapid-commit" 80 0;
   mkEntry "FQDN" 81 OT_INTERNAL; mkEntry "agent-info" 82 OT_INTERNAL; mkEntry "last-transaction" 91 (Z.lor 4 OT_TIME);
   mkEntry "associated-ip" 92 OT_ADDR_LIST; mkEntry "client-arch" 93 (Z.lor 2 OT_DEC); mkEntry "client-interface-id" 94 0;
   mkEntry "client-machine-id" 97 0; mkEntry "posix-timezone" 100 OT_NAME; mkEntry "tzdb-timezone" 101 OT_NAME;
   mkEntry "ipv6-only" 108 (Z.lor 4 OT_DEC); mkEntry "captive-portal" 114 OT_NAME; mkEntry "subnet-select" 118 OT_INTERNAL;
   mkEntry "domain-search" 119 OT_RFC1035_NAME; mkEntry "sip-server" 120 0; mkEntry "classless-static-route" 121 0; mkEntry "vendor-id-encap" 125 0;
   mkEntry "tftp-server-address" 150 OT_ADDR_LIST; mkEntry "server-ip-address" 255 OT_ADDR_LIST]%string.

Definition OPTTAB6 : list DhcpOptEntry :=
  [mkEntry "client-id" 1 OT_INTERNAL; mkEntry "server-id" 2 OT_INTERNAL; mkEntry "ia-na" 3 OT_INTERNAL; mkEntry "ia-ta" 4 OT_INTERNAL;
   mkEntry "iaaddr" 5 OT_INTERNAL; mkEntry "oro" 6 OT_INTERNAL; mkEntry "preference" 7 (Z.lor OT_INTERNAL OT_DEC); mkEntry "unicast" 12 OT_INTERNAL;
   mkEntry "status" 13 OT_INTERNAL; mkEntry "rapid-commit" 14 OT_INTERNAL; mkEntry "user-class" 15 (Z.lor OT_INTERNAL OT_CSTRING);
   mkEntry "vendor-class" 16 (Z.lor OT_INTERNAL OT_CSTRING); mkEntry "vendor-opts" 17 OT_INTERNAL; mkEntry "sip-server-domain" 21 OT_RFC1035_NAME;
   mkEntry "sip-server" 22 OT_ADDR_LIST; mkEntry "dns-server" 23 OT_ADDR_LIST; mkEntry "domain-search" 24 OT_RFC1035_NAME;
   mkEntry "nis-server" 27 OT_ADDR_LIST; mkEntry "nis+-server" 28 OT_ADDR_LIST; mkEntry "nis-domain" 29 OT_RFC1035_NAME;
   mkEntry "nis+-domain" 30 OT_RFC1035_NAME; mkEntry "sntp-server" 31 OT_ADDR_LIST; mkEntry "information-refresh-time" 32 OT_TIME;
   mkEntry "FQDN" 39 (Z.lor OT_INTERNAL OT_RFC1035_NAME); mkEntry "posix-timezone" 41 OT_NAME; mkEntry "tzdb-timezone" 42 OT_NAME;
   mkEntry "ntp-server" 56 0; mkEntry "bootfile-url" 59 OT_NAME; mkEntry "bootfile-param" 60 OT_CSTRING; mkEntry "captive-portal" 103 OT_NAME]%string.

Section Tables.
Context (is_v6 : bool).
Definition opt_table : list DhcpOptEntry := if is_v6 then OPTTAB6 else OPTTAB.
Definition opt_entry (val : Z) : option DhcpOptEntry := List.find (fun e => oe_val e =? val) opt_table.
Definition lookup_dhcp_opt (name : str) : option Z := oe_val <$> List.find (fun e => eq_ignore_ascii_case (bs (oe_name e)) name) opt_table.
Definition lookup_dhcp_len (val : Z) : Z := match opt_entry val with Some e => Z.ldiff (oe_size e) OT_DEC | None => 0 end.
Definition display_opts : list (Z * string) :=
  (fun e => (oe_val e, oe_name e)) <$> List.filter (fun e => Z.land (oe_size e) OT_INTERNAL =? 0) opt_table.
End Tables.

(** ** Values as text *)

(** The last four bytes. *)
Definition decode_be_u32 (val : list u8) : Z := of_be (drop (length val - 4) val).
Definition format_time (secs : Z) : str :=
  if secs =? 0 then bs "0s"
  else
    let field n unit_ := if 0 <? n then [fmt_u n ++ bs unit_] else [] in
    join (bs " ") (field (secs / 3600) "h"%string ++ field (secs mod 3600 / 60) "m"%string ++ field (secs mod 60) "s"%string).
(** The whole pieces of [n] bytes. *)
Fixpoint whole_chunks (fuel n : nat) (l : list u8) : list (list u8) :=
  match fuel with
  | O => []
  | S fuel => if (n <=? length l)%nat then take n l :: whole_chunks fuel n (drop n l) else []
  end.
Definition is_printable (b : u8) : bool := in_rng 33 126 b || bool_decide (b = space).
Definition fmt_hex_bytes (l : list u8) : str := join (bs ":") ((fun b => fmt_hex 2 (u8z b)) <$> l).
Definition format_hex_truncate (val : list u8) : str := if (14 <? length val)%nat then fmt_hex_bytes (take 14 val) ++ bs "..." else fmt_hex_bytes val.
(** [None] is a label past the end. *)
Fixpoint decode_labels (fuel : nat) (val : list u8) (names : list str) : option (list str) :=
  match fuel with
  | O => None
  | S fuel =>
    match val with
    | [] => Some names
    | l :: rest =>
      let len := Z.to_nat (u8z l) in
      if (len =? 0)%nat then Some names
      else if (length rest <? len)%nat then None
      else decode_labels fuel (drop len rest) (names ++ [utf8_lossy (take len rest)])
    end
  end.
Definition decode_rfc1035_names (val : list u8) : option str := join (bs ".") <$> decode_labels (S (length val)) val [].
Fixpoint cstrings (fuel : nat) (val : list u8) (strings : list str) : list str :=
  match fuel with
  | O => strings
  | S fuel =>
    match val with
    | a :: b :: rest =>
      let len := Z.to_nat (of_be [a; b]) in
      if (length rest <? len)%nat then strings else cstrings fuel (drop len rest) (strings ++ [utf8_lossy (take len rest)])
    | _ => strings
    end
  end.
Definition decode_cstring (val : list u8) : str := join (bs ", ") (cstrings (S (length val)) val []).

(** By the kind of the option, in the order of the checks. *)
Definition format_value (is_v6 : bool) (size_flags : Z) (val : list u8) : str :=
  let f := has size_flags in
  let addr_len := if is_v6 then 16%nat else 4%nat in
  if f OT_ADDR_LIST && (addr_len <=? length val)%nat then
    join (bs ", ") ((fun c => if is_v6 then fmt_ipv6 (of_be c) else fmt_ipv4 (of_be c)) <$> whole_chunks (length val) addr_len val)
  else
    let simple :=
      if f OT_NAME then List.filter is_printable val
      else if f OT_DEC then fmt_u (decode_be_u32 val)
      else if f OT_TIME then format_time (decode_be_u32 val)
      else format_hex_truncate val in
    if is_v6 then
      match (if f OT_RFC1035_NAME then decode_rfc1035_names val else None) with
      | Some decoded => decoded
      | None => if f OT_CSTRING then decode_cstring val else simple
      end
    else simple.
Definition option_string_ex (is_v6 : bool) (opt : Z) (val : list u8) : string * option str :=
  let entry := opt_entry is_v6 opt in
  let name := match entry with Some e => oe_name e | None => ""%string end in
  match val with
  | [] => (name, None)
  | _ => (name, Some (format_value is_v6 (match entry with Some e => oe_size e | None => 0 end) val))
  end.
Definition option_string (is_v6 : bool) (opt : Z) (val : list u8) : str := default [] (snd (option_string_ex is_v6 opt val)).

(** ** Lines of the log *)

Definition subnet6_str (addr : Ipv6Addr) : str := fmt_ipv6 (Z.shiftl (Z.shiftr addr 64) 64).
Definition log_context (is_v6 : bool) (ctx : DhcpContext) (opt_ra : bool) : list str :=
  let f := flag_contains (cx_flags ctx) in
  let family_str := if is_v6 then bs "DHCPv6" else bs "DHCP" in
  let namebuff := if is_v6 && f ContextFlags.DEPRECATE then bs ", prefix deprecated" else bs ", lease time " ++ prettyprint_time (cx_lease_time ctx) in
  let end_ := if is_v6 then fmt_ipv6 (cx_end6 ctx) else fmt_ipv4 (cx_end ctx) in
  let start := if is_v6 then fmt_ipv6 (cx_start6 ctx) else fmt_ipv4 (cx_start ctx) in
  let range :=
    if negb (f ContextFlags.OLD) && (f ContextFlags.DHCP || negb is_v6) then
      [family_str ++ (if is_v6 && f ContextFlags.RA_STATELESS then bs " stateless on " ++ subnet6_str (cx_start6 ctx)
                      else if f ContextFlags.STATIC then bs ", static leases only on " ++ end_ ++ namebuff
                      else if f ContextFlags.PROXY then bs ", proxy on subnet " ++ end_
                      else bs ", IP range " ++ start ++ bs " -- " ++ end_ ++ namebuff)]
    else [] in
  let addrbuff := subnet6_str (cx_start6 ctx) in
  range
  ++ (if is_v6 && f ContextFlags.RA_NAME && negb (f ContextFlags.OLD) then [bs "DHCPv4-derived IPv6 names on " ++ addrbuff] else [])
  ++ (if is_v6 && (f ContextFlags.RA || (opt_ra && f ContextFlags.DHCP)) then [bs "router advertisement on " ++ addrbuff] else []).
Definition all_addr_str (addr : AllAddr) : str := match addr with Addr4 a => fmt_ipv4 a | Addr6 a => fmt_ipv6 a | _ => bs "unknown" end.
Definition log_relay (is_v6 : bool) (relay : DhcpRelay) : str :=
  let local_str := all_addr_str (ry_local_addr relay) in
  let default_port := if is_v6 then 547 else 67 in
  let server_str := all_addr_str (ry_server_addr relay) ++ (if ry_port relay =? default_port then [] else bs "#" ++ fmt_i (ry_port relay)) in
  let broadcast := match ry_server_addr relay with
                   | Addr6 a => is_v6 && (a =? 0xff050000000000000000000000010003)
                   | Addr4 a => negb is_v6 && (a =? 0)
                   | _ => false
                   end in
  match ry_interface relay with
  | Some iface =>
    if broadcast then bs "DHCP relay from " ++ local_str ++ bs " via " ++ iface
    else (if ry_split_mode relay =? 0 then bs "DHCP relay from " else bs "DHCP split-relay from ") ++ local_str ++ bs " to " ++ server_str ++ bs " via " ++ iface
  | None => bs "DHCP relay from " ++ local_str ++ bs " to " ++ server_str
  end.
(** The tags, each once. *)
Definition log_tags (netids : list DhcpNetid) : option str :=
  match netids with
  | [] => None
  | _ => Some (join (bs ", ") (fold_left (fun acc n => if bool_decide (net n ∈ acc) then acc else acc ++ [net n]) netids []))
  end.
