(* ===== verification/ConfigDhcp.v ===== *)
(** * DHCP directives: the parsers of DHCP configuration of src/src/option.rs

    Ranges, hosts, tag rules, options, boot entries, relays and boot services:
    each from the text of its value, with its errors and panics. *)

From Stdlib Require Import ZArith Lia String.
From stdpp Require Import base numbers list option.
From S2P Require Import Prelude Types StdText DhcpTypes DhcpOptTab RecordSet Daemon ConfigText ConfigDns.
From S2P Require DhcpCommon Rfc3315 Util ReplyTools.

#[local] Open Scope Z_scope.

(** ** Tags *)

(** The rest after the first of the prefixes that fits. *)
Fixpoint strip_any (ps : list string) (s : str) : option str :=
  match ps with
  | [] => None
  | p :: ps => match strip_prefix (bs p) s with Some r => Some r | None => strip_any ps s end
  end.
Definition no_tag (cl : ConfigLine) (key part : str) : ConfigError := invalid_value_for cl key part (bs "expected tag name").
(** The loop that takes tags off the front of the parts. *)
Fixpoint leading_tags (prefixes : list string) (cl : ConfigLine) (key : str) (parts : list str) : cfg (list DhcpNetid * list str) :=
  match parts with
  | [] => Ok ([], [])
  | p :: rest =>
    match strip_any prefixes p with
    | Some [] => Err (no_tag cl key p)
    | Some tag => let? (tags, rest) := leading_tags prefixes cl key rest in Ok (mkNetid tag :: tags, rest)
    | None => Ok ([], parts)
    end
  end.
Definition parse_dhcp_netid_list (value : str) (cl : ConfigLine) (key : str) : cfg (list DhcpNetid) :=
  try_map (fun p => if (length p =? 0)%nat then Err (invalid_value_for cl key value (bs "empty tag field"))
                    else Ok (mkNetid (if is_tag_prefix p then drop 4 p else p))) (split_on comma value).

(** The tag of a rule: [set:] before [tag:], then trimmed. *)
Definition rule_tag (cl : ConfigLine) (key p : str) : cfg DhcpNetid :=
  let tag := trim (default p (strip_any ["set:"; "tag:"]%string p)) in
  if (length tag =? 0)%nat then Err (invalid_value_for cl key p (bs "expected a tag name")) else Ok (mkNetid tag).
(** The two parts of a rule. *)
Definition rule_parts (value : str) (cl : ConfigLine) (key reason : str) : cfg (DhcpNetid * str) :=
  match split_csv value with
  | [p; q] => let? tag := rule_tag cl key p in Ok (tag, q)
  | _ => Err (invalid_value_for cl key value reason)
  end.
Definition nonempty_part (q value : str) (cl : ConfigLine) (key reason : str) : cfg str :=
  if (length q =? 0)%nat then Err (invalid_value_for cl key value reason) else Ok q.

Definition parse_dhcp_vendor (value : str) (cl : ConfigLine) : cfg DhcpVendorRule :=
  let key := bs "dhcp-vendorclass" in
  let? (tag, q) := rule_parts value cl key (bs "expected tag,vendor-class") in
  let? q := nonempty_part q value cl key (bs "expected a vendor-class match string") in
  Ok (mkVendorRule tag q).
Definition parse_dhcp_userclass (value : str) (cl : ConfigLine) : cfg DhcpUserClassRule :=
  let key := bs "dhcp-userclass" in
  let? (tag, q) := rule_parts value cl key (bs "expected tag,user-class") in
  let? q := nonempty_part q value cl key (bs "expected a user-class match string") in
  Ok (mkUserRule tag q).
Definition parse_dhcp_name_match (value : str) (cl : ConfigLine) : cfg DhcpMatchName :=
  let key := bs "dhcp-name-match" in
  let? (tag, q) := rule_parts value cl key (bs "expected tag,name") in
  let? q := nonempty_part q value cl key (bs "expected a match string") in
  Ok (match strip_suffix (bs "*") q with Some stripped => mkNameRule tag stripped true | None => mkNameRule tag q false end).

(** Both lists end up in the reverse order of the text. *)
Fixpoint tag_if_parts (bad : ConfigError) (parts : list str) (tag set_ : list DhcpNetid) : cfg (list DhcpNetid * list DhcpNetid) :=
  match parts with
  | [] => Ok (tag, set_)
  | p :: parts =>
    if (length p <? 5)%nat then Err bad
    else match strip_prefix (bs "set:") p with
         | Some name => tag_if_parts bad parts tag (mkNetid name :: set_)
         | None => match strip_prefix (bs "tag:") p with
                   | Some name => tag_if_parts bad parts (mkNetid name :: tag) set_
                   | None => Err bad
                   end
         end
  end.
Definition parse_tag_if (value : str) (cl : ConfigLine) : cfg DhcpCommon.TagIf :=
  let bad := invalid_value_for cl (bs "tag-if") value (bs "bad tag-if") in
  let? (tag, set_) := tag_if_parts bad (split_csv value) [] [] in
  match set_ with [] => Err bad | _ => Ok (DhcpCommon.mkTagIf tag set_) end.

(** ** Times and numbers *)

Definition saturating_mul_u32 (a b : Z) : Z := Z.min (a * b) (2 ^ 32 - 1).
Definition parse_lease_time (token : str) : option Z :=
  match List.rev token with
  | [] => None
  | b :: front =>
    let '(digits, multiplier) :=
      if bool_decide (lower8 b = Byte.x68) then (List.rev front, 3600)
      else if bool_decide (lower8 b = Byte.x6d) then (List.rev front, 60)
      else if bool_decide (lower8 b = Byte.x73) then (List.rev front, 1)
      else (token, 1) in
    (fun n => saturating_mul_u32 n multiplier) <$> parse_u32 digits
  end.
Definition parse_dhcp_host_time (token : str) : option Z :=
  if eq_ignore_ascii_case token (bs "infinite") then Some (2 ^ 32 - 1) else parse_lease_time token.
Definition ipv4_broadcast (start netmask : Ipv4Addr) : Ipv4Addr := Z.lor start (not32 netmask).
Definition looks_like_mac_pattern (value : str) : bool := contains_byte colon value.
Definition dhcp_option_code (name : str) : option Z := (fun v => v mod 256) <$> lookup_dhcp_opt false name.
Definition encode_u32_minimal (n : Z) : list u8 :=
  if n <=? 255 then [z8 n] else if n <=? 65535 then to_be 2 n else to_be 4 n.

(** ** Identifiers and hardware addresses *)

(** [parse_hex] without a maximum, and at least one byte. *)
Definition hex_or (value : str) (e : ConfigError) : pcfg (list u8) :=
  let# r := Util.parse_hex value None in
  Val (match r with Ok (b :: out, _) => Ok (b :: out) | _ => Err e end).
Definition parse_relay_id_data (value : str) (cl : ConfigLine) (key : str) : pcfg (list u8) :=
  if contains_byte colon value && forallb (fun b => bool_decide (b = colon) || is_ascii_hexdigit b) value then
    hex_or value (invalid_value_for cl key value (bs "invalid colon-separated hex relay id"))
  else done_ value.
Definition parse_client_id (value : str) (cl : ConfigLine) (key : str) : pcfg (list u8) :=
  if contains_byte colon value then hex_or value (invalid_value_for cl key value (bs "bad hex client-id")) else done_ value.
Definition parse_mac_type_prefix (value : str) : option (Z * str) :=
  match list_find (fun b => Util.is_hex_sep b = true) value with
  | None => Some (0, value)
  | Some (first_sep, b) =>
    if negb (bool_decide (b = minus)) || (first_sep =? 0)%nat then Some (0, value)
    else let! mac_type := parse_int hex_digit 16 (- 2 ^ 31) (2 ^ 31 - 1) (take first_sep value) in Some (mac_type, drop (S first_sep) value)
  end.
(** Copying more bytes than the array holds panics. *)
Definition parse_mac_pattern (value : str) (cl : ConfigLine) (key : str) : pcfg HwaddrConfig :=
  match parse_mac_type_prefix value with
  | None => fail (invalid_value_for cl key value (bs "invalid hardware type prefix"))
  | Some (mac_type, pattern) =>
    let bad := invalid_value_for cl key value (bs "expected MAC address pattern") in
    let# r := Util.parse_hex pattern (Some DHCP_CHADDR_MAX) in
    match r with
    | Err _ | Ok ([], _) => fail bad
    | Ok (bytes, wildcard_mask) =>
      if (length bytes <=? 16)%nat then
        done_ (mkHwaddr (bytes ++ replicate (16 - length bytes) Byte.x00) (Z.of_nat (length bytes)) mac_type wildcard_mask)
      else Panic
    end
  end.
Definition parse_dhcp_mac (value : str) (cl : ConfigLine) : pcfg DhcpMacRule :=
  let key := bs "dhcp-mac" in
  let% (tag, q) := Val (rule_parts value cl key (bs "expected tag,mac-address")) in
  let% hw := parse_mac_pattern q cl key in
  done_ (mkMacRule tag (hc_hwaddr hw) (hc_hwaddr_len hw) (hc_hwaddr_type hw) (hc_wildcard_mask hw)).
Definition parse_dhcp_relay_id (value : str) (cl : ConfigLine) (key : str) (subopt : u8) : pcfg DhcpRelayIdRule :=
  let% (tag, q) := Val (rule_parts value cl key (bs "expected tag,relay-id")) in
  let% data := parse_relay_id_data q cl key in
  done_ (mkRelayRule tag subopt data).

(** ** Ranges and hosts *)

Fixpoint range_tags (cl : ConfigLine) (parts : list str) (filter : list DhcpNetid) (netid : str) : cfg (list DhcpNetid * str * list str) :=
  let key := bs "dhcp-range" in
  match parts with
  | [] => Ok (filter, netid, [])
  | p :: rest =>
    match strip_any ["tag:"; "net:"]%string p with
    | Some [] => Err (no_tag cl key p)
    | Some tag => range_tags cl rest (filter ++ [mkNetid tag]) netid
    | None =>
      match strip_prefix (bs "set:") p with
      | Some [] => Err (no_tag cl key p)
      | Some tag => if negb (length netid =? 0)%nat then Err (invalid_value_for cl key p (bs "only one set tag is supported"))
                    else range_tags cl rest filter tag
      | None => Ok (filter, netid, parts)
      end
    end
  end.
(** The mask is the first address, and the default when that is the start. *)
Definition parse_dhcp_range (value : str) (cl : ConfigLine) : cfg DhcpContext :=
  let? (filter, netid, parts) := range_tags cl (split_csv value) [] [] in
  match omap parse_ipv4 parts with
  | (start :: end_ :: _) as ips =>
    let netmask := default 0xFFFFFF00 (let! ip := head ips in if negb (ip =? start) && negb (ip =? end_) then Some ip else None) in
    let lease_time := default 3600 (let! l := list.last parts in parse_lease_time l) in
    Ok (mkContext lease_time 0 netmask (ipv4_broadcast start netmask) UNSPECIFIED UNSPECIFIED start end_ ContextFlags.DHCP (mkNetid netid) filter
          0 0 0 0 0 0 0 0 0 0 0)
  | _ => Err (invalid_value_for cl (bs "dhcp-range") value (bs "expected at least start and end IPv4 addresses"))
  end.

#[global] Instance DhcpConfig_settable : Settable DhcpConfig := fun c =>
  mkConfigEntry (cf_flags c) (cf_clid c) (cf_hostname c) (cf_domain c) (cf_netid c) (cf_filter c) (cf_addr c) (cf_decline_time c)
    (cf_lease_time c) (cf_hwaddrs c) (cf_addr6 c).
Definition empty_host : DhcpConfig := mkConfigEntry 0 None None None [] [] UNSPECIFIED None 0 [] [].
(** What a part of a host entry is, in the order of the tests. *)
Definition host_part (value : str) (cl : ConfigLine) (config : DhcpConfig) (p : str) : pcfg DhcpConfig :=
  let key := bs "dhcp-host" in
  if (length p =? 0)%nat then fail (invalid_value_for cl key value (bs "empty field in dhcp-host"))
  else match strip_any ["tag:"; "net:"]%string p with
  | Some [] => fail (no_tag cl key p)
  | Some tag => done_ (config <| cf_filter ::= fun l => l ++ [mkNetid tag] |>)
  | None =>
  match strip_prefix (bs "set:") p with
  | Some [] => fail (no_tag cl key p)
  | Some tag => done_ (config <| cf_netid ::= fun l => l ++ [mkNetid tag] |>)
  | None =>
  match strip_prefix (bs "id:") p with
  | Some rest =>
    if bool_decide (rest = bs "*") then done_ (config <| cf_flags ::= fun f => flag_add f ConfigFlags.NOCLID |>)
    else let% id := parse_client_id rest cl key in
         done_ (config <| cf_clid := Some id |> <| cf_flags ::= fun f => flag_add f ConfigFlags.CLID |>)
  | None =>
  match parse_ipv4 p with
  | Some ip => done_ (config <| cf_addr := ip |> <| cf_flags ::= fun f => flag_add f ConfigFlags.ADDR |>)
  | None =>
  match parse_dhcp_host_time p with
  | Some t => done_ (config <| cf_lease_time := t |> <| cf_flags ::= fun f => flag_add f ConfigFlags.TIME |>)
  | None =>
    if eq_ignore_ascii_case p (bs "ignore") then done_ (config <| cf_flags ::= fun f => flag_add f ConfigFlags.DISABLE |>)
    else if looks_like_mac_pattern p then
      let% hw := parse_mac_pattern p cl key in done_ (config <| cf_hwaddrs ::= fun l => l ++ [hw] |>)
    else
      let% hostname := Val (parse_domain_token p key cl) in
      match cf_hostname config with
      | Some _ => fail (invalid_value_for cl key p (bs "DHCP host has multiple names"))
      | None => done_ (config <| cf_domain := snd <$> split_once dot hostname |> <| cf_hostname := Some hostname |>
                        <| cf_flags ::= fun f => flag_add f ConfigFlags.NAME |>)
      end
  end end end end end.
Fixpoint try_foldp {A S} (f : S -> A -> pcfg S) (s : S) (l : list A) : pcfg S :=
  match l with [] => done_ s | x :: l => let% s := f s x in try_foldp f s l end.
Definition parse_dhcp_host (value : str) (cl : ConfigLine) : pcfg DhcpConfig :=
  let% config := try_foldp (host_part value cl) empty_host (split_csv value) in
  if (length (cf_hwaddrs config) =? 0)%nat
     && negb (has (cf_flags config) (Z.lor ConfigFlags.CLID (Z.lor ConfigFlags.NOCLID ConfigFlags.NAME))) then
    fail (invalid_value_for cl (bs "dhcp-host") value (bs "dhcp-host requires a MAC, client id, id:*, or hostname"))
  else done_ config.

(** ** Options and boot entries *)

(** [Ipv4Addr] tokens, [RFC1035] names. *)
Fixpoint addr_list (cl : ConfigLine) (key : str) (tokens : list str) : cfg (list u8) :=
  match tokens with
  | [] => Ok []
  | t :: ts =>
    let? ip := ok_or (parse_ipv4 t) (invalid_value_for cl key t (bs "expected IPv4 address")) in
    let? rest := addr_list cl key ts in
    Ok (octets4 ip ++ rest)
  end.
Definition name_item (cl : ConfigLine) (key : str) (out : list u8) (t : str) : pcfg (list u8) :=
  let# (out, good) := ReplyTools.do_rfc1035_name out t None in
  if (good : bool) then done_ out else fail (invalid_value_for cl key t (bs "expected valid RFC1035 domain name")).
Definition fixed_int (cl : ConfigLine) (key t : str) (fixed_size : Z) : cfg (list u8) :=
  let? n := ok_or (parse_u32 t) (invalid_value_for cl key t (bs "expected unsigned integer")) in
  if fixed_size =? 1 then if n <=? 255 then Ok [z8 n] else Err (invalid_value_for cl key t (bs "value exceeds 8-bit width"))
  else if fixed_size =? 2 then if n <=? 65535 then Ok (to_be 2 n) else Err (invalid_value_for cl key t (bs "value exceeds 16-bit width"))
  else Ok (to_be 4 n).
Definition one_value (cl : ConfigLine) (key : str) (value_parts : list str) (reason : str) : cfg str :=
  match value_parts with [t] => Ok t | _ => Err (invalid_value_for cl key (join (bs ",") value_parts) reason) end.
Definition any_value (value_parts : list str) : bool * list u8 :=
  let token := join (bs ",") value_parts in
  match parse_ipv4 token with
  | Some ip => (false, octets4 ip)
  | None => match parse_u32 token with Some n => (false, encode_u32_minimal n) | None => (true, token) end
  end.
(** The value, and whether it is a string. *)
Definition parse_dhcp_option_value (value_parts : list str) (size_flags : Z) (key : str) (cl : ConfigLine) : pcfg (bool * list u8) :=
  let fixed_size := Z.ldiff size_flags (fold_right Z.lor 0 [OT_ADDR_LIST; OT_RFC1035_NAME; OT_INTERNAL; OT_NAME; OT_CSTRING; OT_DEC; OT_TIME]) in
  match value_parts with
  | [] => done_ (false, [])
  | _ =>
    if has size_flags OT_ADDR_LIST then let% out := Val (addr_list cl key value_parts) in done_ (false, out)
    else if has size_flags OT_RFC1035_NAME then let% out := try_foldp (name_item cl key) [] value_parts in done_ (false, out)
    else if has size_flags OT_TIME then
      let% t := Val (one_value cl key value_parts (bs "expected a single time value")) in
      let% secs := Val (ok_or (parse_lease_time t) (invalid_value_for cl key t (bs "expected DHCP time value"))) in
      done_ (false, to_be 4 secs)
    else if (fixed_size =? 1) || (fixed_size =? 2) || (fixed_size =? 4) then
      let% t := Val (one_value cl key value_parts (bs "expected a single integer value")) in
      let% encoded := Val (fixed_int cl key t fixed_size) in
      done_ (false, encoded)
    else done_ (any_value value_parts)
  end.

Record OptPrefix : Type := mkOptPrefix { op_flags : Z; op_netid : list DhcpNetid; op_encap : Z; op_vendor : option (list u8) }.
#[global] Instance OptPrefix_settable : Settable OptPrefix := fun s => mkOptPrefix (op_flags s) (op_netid s) (op_encap s) (op_vendor s).
Fixpoint option_prefixes (cl : ConfigLine) (key : str) (parts : list str) (s : OptPrefix) : cfg (OptPrefix * list str) :=
  match parts with
  | [] => Ok (s, [])
  | p :: rest =>
    match strip_any ["tag:"; "net:"; "set:"]%string p with
    | Some [] => Err (no_tag cl key p)
    | Some tag => option_prefixes cl key rest (s <| op_netid ::= fun l => l ++ [mkNetid tag] |>)
    | None =>
      match strip_prefix (bs "vendor:") p with
      | Some class =>
        if flag_contains (op_flags s) DhOptFlags.ENCAPSULATE then Err (invalid_value_for cl key p (bs "vendor: cannot be combined with encap:"))
        else option_prefixes cl key rest (s <| op_vendor := Some class |> <| op_flags ::= fun f => flag_add f DhOptFlags.VENDOR |>)
      | None =>
        match strip_prefix (bs "encap:") p with
        | Some n =>
          if flag_contains (op_flags s) DhOptFlags.VENDOR then Err (invalid_value_for cl key p (bs "encap: cannot be combined with vendor:"))
          else if flag_contains (op_flags s) DhOptFlags.PXE_OPT then
            Err (invalid_value_for cl key p (bs "encap: is not supported in dhcp-option-pxe"))
          else
            let? encap := parse_u16_token n key cl (bs "encapsulated option") in
            option_prefixes cl key rest (s <| op_encap := encap |> <| op_flags ::= fun f => flag_add f DhOptFlags.ENCAPSULATE |>)
        | None => if has_prefix (bs "vi-encap:") p then Err (invalid_value_for cl key p (bs "vi-encap is not implemented yet")) else Ok (s, parts)
        end
      end
    end
  end.
Definition option_number (cl : ConfigLine) (key opt_token : str) : cfg Z :=
  match strip_prefix (bs "option:") opt_token with
  | Some rest => ok_or (dhcp_option_code rest) (invalid_value_for cl key opt_token (bs "unknown DHCP option name"))
  | None =>
    if has_prefix (bs "option6:") opt_token then
      Err (invalid_value_for cl key opt_token (bs "DHCPv6 options are not implemented in this parser"))
    else ok_or (parse_u8 opt_token) (invalid_value_for cl key opt_token (bs "expected DHCP option number or option:name"))
  end.
Definition parse_dhcp_option (value : str) (cl : ConfigLine) (key : str) (extra_flags : Z) : pcfg DhcpOpt :=
  let% (s, parts) := Val (option_prefixes cl key (split_csv value) (mkOptPrefix extra_flags [] 0 None)) in
  match parts with
  | [] => fail (invalid_value_for cl key value (bs "expected option number or option:name"))
  | opt_token :: value_parts =>
    let% opt_num := Val (option_number cl key opt_token) in
    let% (string, val) := parse_dhcp_option_value value_parts (lookup_dhcp_len false opt_num) key cl in
    done_ (mkDhcpOpt opt_num (if (string : bool) then flag_add (op_flags s) DhOptFlags.STRING else op_flags s) (Some val) (op_netid s)
             (op_encap s) (op_vendor s))
  end.
Definition parse_dhcp_match (value : str) (cl : ConfigLine) : pcfg DhcpOpt :=
  let% opt := parse_dhcp_option value cl (bs "dhcp-match") DhOptFlags.MATCH in
  if has (o_flags opt) (Z.lor DhOptFlags.ENCAPSULATE DhOptFlags.VENDOR) || negb (length (o_netid opt) =? 1)%nat then
    fail (invalid_value_for cl (bs "dhcp-match") value (bs "illegal dhcp-match"))
  else done_ opt.

Definition filled (o : option str) : option str := let! s := o in if (length s =? 0)%nat then None else Some s.
Definition parse_dhcp_boot (value : str) (cl : ConfigLine) : cfg DhcpBoot :=
  let key := bs "dhcp-boot" in
  let tags := ["tag:"; "net:"; "set:"]%string in
  let? (netid, parts) := leading_tags tags cl key (split_csv value) in
  match filled (parts !! 0%nat) with
  | None => Err (invalid_value_for cl key value (bs "expected boot file name"))
  | Some file =>
    let? next_server := match filled (parts !! 2%nat) with
                        | Some s => ok_or (parse_ipv4 s) (invalid_value_for cl key s (bs "expected next-server IPv4 address"))
                        | None => Ok UNSPECIFIED
                        end in
    let netid := match netid, filled (parts !! 3%nat) with
                 | [], Some p => [mkNetid (default p (strip_any tags p))]
                 | _, _ => netid
                 end in
    Ok (mkBoot (Some file) (filled (parts !! 1%nat)) (filled (parts !! 2%nat)) next_server netid)
  end.

(** ** Boot services *)

Definition parse_pxe_prompt (value : str) (cl : ConfigLine) : cfg DhcpOpt :=
  let '(prompt, timeout) := match split_once comma value with Some (a, b) => (a, Some b) | None => (value, None) end in
  let? timeout := match filled timeout with
                  | None => Ok 255
                  | Some t => ok_or (parse_u8 t) (invalid_value_for cl (bs "pxe-prompt") value (bs "expected an integer timeout"))
                  end in
  Ok (mkDhcpOpt 10 (Z.lor DhOptFlags.VENDOR DhOptFlags.VENDOR_PXE) (Some (z8 timeout :: prompt)) [] 0 None).
Definition PXE_CSA_NAMES : list string :=
  ["x86PC"; "PC98"; "IA64_EFI"; "Alpha"; "Arc_x86"; "Intel_Lean_Client"; "IA32_EFI"; "x86-64_EFI"; "Xscale_EFI"; "BC_EFI"; "ARM32_EFI";
   "ARM64_EFI"]%string.
(** Numbering the services past 65535 panics. *)
Definition parse_pxe_service (d : Daemon) (value : str) (cl : ConfigLine) : pcfg (PxeService * Daemon) :=
  let bad := invalid_value_for cl (bs "pxe-service") value (bs "Bad pxe-service") in
  let# (tags, rest) := dhcp_tags value in
  let parts := split_csv rest in
  match parts with
  | p0 :: menu :: _ =>
    let% csa := Val (match list_find (fun n => eq_ignore_ascii_case (bs n) p0 = true) PXE_CSA_NAMES with
                     | Some (i, _) => Ok (Z.of_nat i)
                     | None => ok_or (parse_u16 p0) bad
                     end) in
    let# (boot_type, basename, d) :=
      match parts !! 2%nat with
      | None => Val (0, None, d)
      | Some bt => match parse_u16 bt with
                   | Some n => Val (n, None, d)
                   | None => if d_pxe_boottype_next d =? 65535 then Panic
                             else Val (d_pxe_boottype_next d, Some bt, d <| d_pxe_boottype_next ::= Z.add 1 |>)
                   end
      end in
    let '(server, sname) := match parts !! 3%nat with
                            | None => (UNSPECIFIED, None)
                            | Some s => match parse_ipv4 s with Some addr => (addr, None) | None => (UNSPECIFIED, Some s) end
                            end in
    done_ (mkPxe csa boot_type menu basename sname server (mkNetid <$> tags), d)
  | _ => fail bad
  end.

(** ** Relays, delays and ports *)

Inductive RelayEntry : Type := RelayV4 (r : DhcpRelay) | RelayV6 (r : DhcpRelay).
#[global] Instance DhcpRelay_settable : Settable DhcpRelay := fun r =>
  mkRelay (ry_local_addr r) (ry_server_addr r) (ry_uplink_addr r) (ry_interface r) (ry_iface_index r) (ry_port r) (ry_split_mode r)
    (ry_warned r) (ry_matchcount r).
Definition new_dhcp_relay (split_mode : bool) : DhcpRelay :=
  mkRelay (Addr4 UNSPECIFIED) (Addr4 UNSPECIFIED) (Addr4 UNSPECIFIED) None 0 0 (if split_mode then 1 else 0) 0 0.
Definition split_relay_port (token : str) : str * option str :=
  match split_once hash token with Some (addr, port) => (addr, Some port) | None => (token, None) end.
(** The port, the server and what names the interface; a second argument that is
    not an address is an interface, to which a third or a wildcard is wrong. *)
Definition relay_target (parse : str -> option AllAddr) (any : AllAddr) (default_port : Z) (two_val : str) (three : option str)
  : option (Z * AllAddr * option str) :=
  let '(server_part, port_part) := split_relay_port two_val in
  let port := default default_port (port_part ≫= parse_u16) in
  match parse server_part with
  | Some server => Some (port, server, three)
  | None => if bool_decide (is_Some three) || contains_byte star two_val then None else Some (port, any, Some server_part)
  end.
Definition ALL_SERVERS6 : Ipv6Addr := 0xff050000000000000000000000010003.
(** A split relay has a third argument, so its server is an address. *)
Definition relay4_entry (local4 : Ipv4Addr) (split_relay : bool) (two_val : str) (three : option str) : option DhcpRelay :=
  let! (port, server, three) := relay_target (fun s => Addr4 <$> parse_ipv4 s) (Addr4 UNSPECIFIED) DHCP_SERVER_PORT two_val three in
  let '(uplink, three) := match (if split_relay then three ≫= parse_ipv4 else None) with
                          | Some uplink4 => (uplink4, None)
                          | None => (UNSPECIFIED, three)
                          end in
  Some (new_dhcp_relay split_relay <| ry_local_addr := Addr4 local4 |> <| ry_port := port |> <| ry_server_addr := server |>
          <| ry_uplink_addr := Addr4 uplink |> <| ry_interface := three |>).
Definition relay6_entry (local6 : Ipv6Addr) (two_val : str) (three : option str) : option DhcpRelay :=
  let! (port, server, three) := relay_target (fun s => Addr6 <$> parse_ipv6 s) (Addr6 ALL_SERVERS6) Rfc3315.DHCPV6_SERVER_PORT two_val three in
  Some (new_dhcp_relay false <| ry_local_addr := Addr6 local6 |> <| ry_port := port |> <| ry_server_addr := server |> <| ry_interface := three |>).
Definition parse_dhcp_relay (value : str) (cl : ConfigLine) (split_relay : bool) : cfg RelayEntry :=
  let bad := invalid_value_for cl (if split_relay then bs "dhcp-split-relay" else bs "dhcp-relay") value (bs "Bad dhcp-relay") in
  let parts := split_csv value in
  if (3 <? length parts)%nat then Err bad
  else
    let arg := part parts 0 in
    let three := parts !! 2%nat in
    let two := if split_relay && match three with None => true | Some t => contains_byte star t end then None else parts !! 1%nat in
    ok_or (let! two_val := two in
           match parse_ipv4 arg with
           | Some local4 => RelayV4 <$> relay4_entry local4 split_relay two_val three
           | None =>
             if split_relay then None
             else let! local6 := parse_ipv6 arg in RelayV6 <$> relay6_entry local6 two_val three
           end) bad.

(** The last part is the delay. *)
Fixpoint delay_tags (cl : ConfigLine) (parts : list str) : cfg (list DhcpNetid * list str) :=
  match parts with
  | [] => Ok ([], [])
  | p :: rest =>
    match rest, strip_prefix (bs "tag:") p with
    | [], _ | _, None => Ok ([], parts)
    | _, Some [] => Err (no_tag cl (bs "dhcp-reply-delay") p)
    | _, Some tag => let? (filter, rest) := delay_tags cl rest in Ok (mkNetid tag :: filter, rest)
    end
  end.
Definition parse_dhcp_reply_delay (value : str) (cl : ConfigLine) : cfg DhcpReplyDelay :=
  let key := bs "dhcp-reply-delay" in
  let? (filter, rest) := delay_tags cl (split_csv value) in
  match rest with
  | [delay_str] =>
    let? delay_secs := ok_or (parse_u32 delay_str) (invalid_value_for cl key delay_str (bs "expected non-negative integer seconds")) in
    Ok (mkDelay delay_secs filter)
  | _ => Err (invalid_value_for cl key value (bs "expected [tag:<tag>,...],<integer>"))
  end.
Definition parse_dhcp_alternate_port (cl : ConfigLine) : cfg (Z * Z) :=
  let key := bs "dhcp-alternate-port" in
  let value := default [] (cl_value cl) in
  let port p := ok_or (parse_u16 p) (invalid_value_for cl key p (bs "expected a valid port number")) in
  if (length value =? 0)%nat then Ok (1067, 1068)
  else
    match split_csv value with
    | [p] =>
      let? server_port := port p in
      if server_port =? 65535 then Err (invalid_value_for cl key p (bs "server port too large to derive client port"))
      else Ok (server_port, server_port + 1)
    | [p; q] => let? server_port := port p in let? client_port := port q in Ok (server_port, client_port)
    | _ => Err (invalid_value_for cl key value (bs "expected [server[,client]]"))
    end.

(** ** What the text means *)

Definition cli_line_ : ConfigLine := mkLine [] None [] 0.
(** The names of a list of names run into each other. *)
Example domain_search_unterminated :
  parse_dhcp_option (bs "119,a.b,c.d") cli_line_ [] 0 = parse_dhcp_option (bs "119,a.b.c.d") cli_line_ [] 0.
Proof. by vm_compute. Qed.
(** The mask of a range is always that of a class C network. *)
Lemma range_mask value cl c : parse_dhcp_range value cl = Ok c -> cx_netmask c = 0xFFFFFF00.
Proof.
  unfold parse_dhcp_range. destruct (range_tags _ _ _ _) as [[[filter netid] parts]|]; [|done].
  destruct (omap parse_ipv4 parts) as [|start [|end_ ips]]; [done..|]. intros [= <-]. cbn. by rewrite Z.eqb_refl.
Qed.
