(* ===== verification/RevZones.v ===== *)
(** * Reverse zones: [domain_rev4] and [domain_rev6] of src/src/option.rs

    The zones of a network cover the reverse names of exactly its addresses.
    An address is the number its digits write, octets for IPv4 and nibbles for
    IPv6; a zone is the text of the first digits, last first. *)

From Stdlib Require Import ZArith Lia String.
From stdpp Require Import base numbers list option.
From S2P Require Import Prelude Types StdText Arpa ConfigText.

#[local] Open Scope Z_scope.

(** A name at or below a zone. *)
Definition covers (zone name : str) : Prop := name = zone \/ exists p, name = p ++ dot :: zone.

(** ** Labels *)

Definition dotted (tail : str) (ls : list str) : str := foldr (fun l t => l ++ dot :: t) tail ls.
Lemma dotted_app tail a b : dotted tail (a ++ b) = dotted (dotted tail b) a.
Proof. apply foldr_app. Qed.
Lemma dotted_join tail ls : join (bs ".") (ls ++ [tail]) = dotted tail ls.
Proof.
  induction ls as [|l ls IH]; [done|]. cbn [app dotted foldr]. rewrite join_cons by (by destruct ls). by rewrite IH.
Qed.
Lemma dotted_join_text tail ls : ls <> [] -> join [dot] ls ++ dot :: tail = dotted tail ls.
Proof.
  intros Hne. induction ls as [|l ls IH]; [done|]. destruct ls as [|l' ls]; [done|].
  rewrite join_cons by done. rewrite <- !app_assoc. cbn [app]. by rewrite IH.
Qed.
Lemma split_dotted tail ls : Forall (fun l => dot ∉ l) ls -> split_on dot (dotted tail ls) = ls ++ split_on dot tail.
Proof. induction 1 as [|l ls Hl _ IH]; [done|]. cbn [dotted foldr app]. rewrite split_app_sep by done. by rewrite <- IH. Qed.
Lemma split_app p z : split_on dot (p ++ dot :: z) = split_on dot p ++ split_on dot z.
Proof.
  pose proof (split_pieces_no_sep dot p) as Hf. pose proof (split_on_nonnil dot p) as Hne. rewrite <- (join_split dot p) at 1.
  rewrite dotted_join_text by done. by apply split_dotted.
Qed.
Lemma covers_labels tail ls ms : Forall (fun l => dot ∉ l) ls -> Forall (fun l => dot ∉ l) ms ->
  covers (dotted tail ls) (dotted tail ms) <-> exists k, ms = k ++ ls.
Proof.
  intros Hl Hm. split.
  - intros [E | [p E]]; apply (f_equal (split_on dot)) in E.
    + rewrite !split_dotted in E by done. apply app_inv_tail in E. by exists [].
    + rewrite split_app, !split_dotted, app_assoc in E by done. apply app_inv_tail in E. eauto.
  - intros [k ->]. rewrite dotted_app. destruct k as [|l k]; [by left|right]. exists (join [dot] (l :: k)).
    by rewrite dotted_join_text.
Qed.

(** ** Digits *)

Section Digits.
Context (w : Z) (n : nat).
Context (Hw : 0 < w).
#[local] Notation B := (2 ^ w).
Definition digit (x : Z) (j : nat) : Z := x / B ^ Z.of_nat (n - 1 - j) mod B.
Lemma B_pos : 0 < B.
Proof using Hw. apply Z.pow_pos_nonneg; lia. Qed.
Lemma quot_step x k : (k < n)%nat ->
  x / B ^ Z.of_nat (n - k) = x / B ^ Z.of_nat (n - S k) / B /\ digit x k = (x / B ^ Z.of_nat (n - S k)) mod B.
Proof using Hw.
  intros Hk. pose proof B_pos. unfold digit. replace (n - 1 - k)%nat with (n - S k)%nat by lia. split; [|done].
  rewrite Z.div_div by (try apply Z.pow_pos_nonneg; lia). f_equal. rewrite Z.mul_comm, <- Z.pow_succ_r by lia. f_equal. lia.
Qed.
Lemma quot_digit x k : (k < n)%nat -> x / B ^ Z.of_nat (n - S k) = B * (x / B ^ Z.of_nat (n - k)) + digit x k.
Proof using Hw. intros Hk. pose proof B_pos. destruct (quot_step x k Hk) as [-> ->]. apply Z.div_mod. lia. Qed.
Lemma low_mod q d : 0 <= d < B -> (B * q + d) mod B = d.
Proof using Hw. intros. rewrite Z.add_comm, Z.mul_comm, Z.mod_add by lia. by apply Z.mod_small. Qed.
Lemma low_div q d : 0 <= d < B -> (B * q + d) / B = q.
Proof using Hw. intros. rewrite Z.add_comm, Z.mul_comm, Z.div_add by lia. by rewrite Z.div_small. Qed.
Lemma digit_bound x j : 0 <= digit x j < B.
Proof using Hw. apply Z.mod_pos_bound, B_pos. Qed.
(** The first [k] digits are the quotient. *)
Lemma digits_eq x y k : (k <= n)%nat -> 0 <= x < B ^ Z.of_nat n -> 0 <= y < B ^ Z.of_nat n ->
  (forall j, (j < k)%nat -> digit x j = digit y j) <-> x / B ^ Z.of_nat (n - k) = y / B ^ Z.of_nat (n - k).
Proof using Hw.
  intros Hk Hx Hy. pose proof B_pos. induction k as [|k IH].
  { rewrite Nat.sub_0_r, !Z.div_small by done. split; [done|]. intros _ j. lia. }
  specialize (IH ltac:(lia)). rewrite (quot_digit x), (quot_digit y) by lia. split.
  - intros Hd. rewrite (proj1 IH), (Hd k) by (try lia; intros; apply Hd; lia). done.
  - intros E. pose proof (digit_bound x k). pose proof (digit_bound y k).
    assert (x / B ^ Z.of_nat (n - k) = y / B ^ Z.of_nat (n - k)) as Eq by nia. assert (digit x k = digit y k) by nia.
    intros j Hj. destruct (decide (j = k)) as [->|]; [done|]. apply (proj2 IH); [done|lia].
Qed.
(** Adding to the [m]th digit. *)
Lemma digits_add x m i j : (m < n)%nat -> (j <= m)%nat -> 0 <= i -> digit x m + i < B ->
  digit (x + i * B ^ Z.of_nat (n - S m)) j = digit x j + (if (j =? m)%nat then i else 0).
Proof using Hw.
  intros Hm Hj Hi Hs. pose proof B_pos. pose proof (digit_bound x m). assert (0 < B ^ Z.of_nat (n - S m)) by (apply Z.pow_pos_nonneg; lia).
  assert ((x + i * B ^ Z.of_nat (n - S m)) / B ^ Z.of_nat (n - S m) = x / B ^ Z.of_nat (n - S m) + i) as Eq by (apply Z.div_add; lia).
  destruct (Nat.eqb_spec j m) as [->|Hne].
  - rewrite !(proj2 (quot_step _ m Hm)), Eq. rewrite (quot_digit x m Hm), <- Z.add_assoc.
    by rewrite !low_mod by lia.
  - rewrite Z.add_0_r. unfold digit. replace (n - 1 - j)%nat with ((n - S m) + (m - j))%nat by lia.
    rewrite Nat2Z.inj_add, Z.pow_add_r by lia. rewrite <- !Z.div_div by (try apply Z.pow_pos_nonneg; lia). rewrite Eq.
    replace (B ^ Z.of_nat (m - j)) with (B * B ^ Z.of_nat (m - j - 1)) by (rewrite <- Z.pow_succ_r by lia; f_equal; lia).
    rewrite <- !Z.div_div by (try apply Z.pow_pos_nonneg; lia). do 2 f_equal. rewrite (quot_digit x m Hm), <- Z.add_assoc.
    by rewrite !low_div by lia.
Qed.

(** ** Zones *)

Context (fmt : Z -> str) (Hfmt : forall a b, 0 <= a < B -> 0 <= b < B -> fmt a = fmt b -> a = b) (Hdot : forall d, 0 <= d < B -> dot ∉ fmt d).
Definition labels (x : Z) (k : nat) : list str := (fun j => fmt (digit x j)) <$> rev (seq 0 k).
Lemma labels_no_dot x k : Forall (fun l => dot ∉ l) (labels x k).
Proof using Hw Hdot. unfold labels. apply Forall_fmap, Forall_true. intros j. apply Hdot, digit_bound. Qed.
Lemma labels_suffix x y k : (k <= n)%nat -> (exists p, labels x n = p ++ labels y k) <-> forall j, (j < k)%nat -> digit x j = digit y j.
Proof using Hw Hfmt.
  intros Hk. assert (labels x n = ((fun j => fmt (digit x j)) <$> rev (seq k (n - k))) ++ labels x k) as ->.
  { unfold labels. rewrite <- fmap_app, <- rev_app_distr. f_equal. f_equal. rewrite <- (seq_app k (n - k)). f_equal. lia. }
  split.
  - intros [p E]. apply app_inj_2 in E as [_ E]; [|unfold labels; by rewrite !length_fmap]. intros j Hj.
    unfold labels in E. apply Hfmt; try apply digit_bound.
    assert (j ∈ rev (seq 0 k)) as Hin by (apply list_elem_of_In; rewrite <- in_rev; apply in_seq; lia).
    apply list_elem_of_lookup in Hin as [i Hi]. apply (f_equal (fun l => l !! i)) in E. rewrite !list_lookup_fmap, Hi in E. by injection E.
  - intros Hd. eexists. f_equal. unfold labels. apply list_fmap_ext. intros i j Hi. f_equal. apply Hd.
    apply list_elem_of_lookup_2, list_elem_of_In, in_rev, in_seq in Hi. lia.
Qed.

Context (len : Z) (m : nat) (rem : Z) (Hlen : len = w * Z.of_nat m + rem) (Hrem : 0 <= rem < w) (Hn : len <= w * Z.of_nat n).
#[local] Notation P := (2 ^ (w * Z.of_nat n - len)).
Definition zone_count : nat := if rem =? 0 then 1%nat else Z.to_nat (2 ^ (w - rem)).
Definition zone_digits : nat := if rem =? 0 then m else S m.
Lemma zone_digits_le : (zone_digits <= n)%nat.
Proof using Hlen Hrem Hn Hw. unfold zone_digits. destruct (Z.eqb_spec rem 0); nia. Qed.
(** The zones of a network are the quotients that refine its own. *)
Lemma zone_scale : P = B ^ Z.of_nat (n - zone_digits) * Z.of_nat zone_count.
Proof using Hlen Hrem Hn Hw.
  pose proof zone_digits_le as Hle. unfold zone_count, zone_digits in *. rewrite <- Z.pow_mul_r by lia. destruct (Z.eqb_spec rem 0) as [->|Hr].
  - rewrite Z.mul_1_r. f_equal. nia.
  - rewrite Z2Nat.id by (apply Z.pow_nonneg; lia). rewrite <- Z.pow_add_r by nia. f_equal. nia.
Qed.
Lemma zone_count_pos : (0 < zone_count)%nat.
Proof using Hrem. clear Hlen Hn. unfold zone_count. destruct (Z.eqb_spec rem 0); [lia|]. pose proof (Z.pow_pos_nonneg 2 (w - rem)). lia. Qed.
Lemma whole_scale : exists u, 0 < u /\ B ^ Z.of_nat n = P * u.
Proof using Hlen Hrem Hn Hw.
  exists (2 ^ len). split; [apply Z.pow_pos_nonneg; nia|]. rewrite <- Z.pow_mul_r, <- Z.pow_add_r by nia. f_equal. lia.
Qed.
Definition base (net : Z) : Z := net - net mod P.
Lemma base_quot net : base net = P * (net / P).
Proof using Hn Hlen Hrem Hw. unfold base. assert (0 < P) by (apply Z.pow_pos_nonneg; lia). pose proof (Z.div_mod net P). lia. Qed.
Lemma zone_address net i : 0 <= net < B ^ Z.of_nat n -> (i < zone_count)%nat ->
  let y := base net + Z.of_nat i * B ^ Z.of_nat (n - zone_digits) in
  0 <= y < B ^ Z.of_nat n /\ y / B ^ Z.of_nat (n - zone_digits) = Z.of_nat zone_count * (net / P) + Z.of_nat i.
Proof using Hlen Hrem Hn Hw.
  intros Hnet Hi y. subst y. rewrite base_quot. destruct whole_scale as (u & Hu & Eu). pose proof zone_scale as Es.
  assert (0 < B ^ Z.of_nat (n - zone_digits)) as HC by (apply Z.pow_pos_nonneg; [apply B_pos|lia]). split.
  - assert (0 < P) as HP by (apply Z.pow_pos_nonneg; lia). assert (0 <= net / P < u) by (split; [apply Z.div_pos; lia|apply Z.div_lt_upper_bound; lia]).
    rewrite Eu. rewrite Es in *. nia.
  - rewrite Z.div_add by lia. f_equal. rewrite Es at 1. rewrite <- Z.mul_assoc, Z.mul_comm, Z.div_mul by lia. done.
Qed.
Lemma digit_room net i : 0 <= net < B ^ Z.of_nat n -> (i < zone_count)%nat -> rem <> 0 -> digit (base net) m + Z.of_nat i < B.
Proof using Hlen Hrem Hn Hw.
  intros Hnet Hi Hr. destruct (zone_address net 0 Hnet zone_count_pos) as [_ Hq]. cbn [Z.of_nat] in Hq. rewrite Z.mul_0_l, !Z.add_0_r in Hq.
  assert (m < n)%nat by nia. unfold zone_count, zone_digits in Hq, Hi. rewrite (proj2 (Z.eqb_neq _ _) Hr) in Hq, Hi.
  rewrite Z2Nat.id in Hq by (apply Z.pow_nonneg; lia). rewrite (proj2 (quot_step _ m ltac:(lia))), Hq.
  replace B with (2 ^ (w - rem) * 2 ^ rem) at 1 2 by (rewrite <- Z.pow_add_r by lia; f_equal; lia).
  assert (0 < 2 ^ (w - rem)) by (apply Z.pow_pos_nonneg; lia). assert (0 < 2 ^ rem) by (apply Z.pow_pos_nonneg; lia).
  rewrite Z.mul_mod_distr_l by lia. pose proof (Z.mod_pos_bound (net / P) (2 ^ rem) ltac:(lia)). nia.
Qed.
Lemma rev_labels_zone net i dig : 0 <= net < B ^ Z.of_nat n -> (i < zone_count)%nat ->
  (forall j, (j < zone_digits)%nat -> dig j = digit (base net) j) ->
  rev_labels dig rem m i fmt = labels (base net + Z.of_nat i * B ^ Z.of_nat (n - zone_digits)) zone_digits.
Proof using Hlen Hrem Hn Hw.
  intros Hnet Hi Hdig. pose proof (digit_room net i Hnet Hi) as Hroom. pose proof zone_digits_le as Hle. unfold rev_labels, labels.
  unfold zone_digits, zone_count in *. destruct (Z.eqb_spec rem 0) as [Er|Er].
  - assert (i = 0%nat) as -> by lia. rewrite Z.mul_0_l, Z.add_0_r. apply list_fmap_ext. intros ? j Hj.
    apply list_elem_of_lookup_2, list_elem_of_In, in_rev, in_seq in Hj. rewrite Hdig by lia.
    destruct (Nat.eqb_spec j m); [lia|]. by rewrite Z.add_0_r.
  - apply list_fmap_ext. intros ? j Hj. apply list_elem_of_lookup_2, list_elem_of_In, in_rev, in_seq in Hj. rewrite Hdig by lia.
    rewrite digits_add by (try done; try lia; auto). done.
Qed.
Lemma zones_cover net x dig tail : 0 <= net < B ^ Z.of_nat n -> 0 <= x < B ^ Z.of_nat n ->
  (forall j, (j < zone_digits)%nat -> dig j = digit (base net) j) ->
  (exists i, (i < zone_count)%nat /\ covers (dotted tail (rev_labels dig rem m i fmt)) (dotted tail (labels x n))) <-> x / P = net / P.
Proof using Hlen Hrem Hn Hw Hfmt Hdot.
  intros Hnet Hx Hdig. pose proof zone_digits_le as Hle. pose proof zone_count_pos as Hpos.
  assert (0 < B ^ Z.of_nat (n - zone_digits)) as HC by (apply Z.pow_pos_nonneg; [apply B_pos|lia]).
  assert (x / P = x / B ^ Z.of_nat (n - zone_digits) / Z.of_nat zone_count) as Ex by (rewrite Z.div_div by lia; f_equal; apply zone_scale).
  rewrite Ex. set (q := x / B ^ Z.of_nat (n - zone_digits)) in *.
  transitivity (exists i, (i < zone_count)%nat /\ q = Z.of_nat zone_count * (net / P) + Z.of_nat i).
  - split; intros (i & Hi & H); exists i; (split; [done|]); destruct (zone_address net i Hnet Hi) as [Hy Hq].
    all: rewrite (rev_labels_zone net i dig Hnet Hi Hdig), covers_labels, labels_suffix, digits_eq in * by (done || apply labels_no_dot).
    { exact (eq_trans H Hq). } exact (eq_trans H (eq_sym Hq)).
  - split.
    + intros (i & Hi & ->). symmetry. apply Z.div_unique with (r := Z.of_nat i); lia.
    + intros E. exists (Z.to_nat (q mod Z.of_nat zone_count)). pose proof (Z.mod_pos_bound q (Z.of_nat zone_count) ltac:(lia)).
      split; [lia|]. rewrite Z2Nat.id, <- E by lia. apply Z.div_mod. lia.
Qed.
End Digits.

(** ** Octets and nibbles *)

(** Clearing the low bits of the last octet that counts is the base of the
    network, as far as that octet. *)
Lemma mod_cut a b c : 0 < b -> 0 < c -> a mod (b * c) / b = a / b mod c.
Proof.
  intros Hb Hc. rewrite Z.rem_mul_r by lia. rewrite Z.add_comm, Z.mul_comm, Z.div_add_l by lia.
  rewrite (Z.div_small (a mod b)) by (by apply Z.mod_pos_bound). lia.
Qed.
Lemma cleared_octet b q : 0 <= b < 8 -> u8z (z8 (Z.ldiff (q mod 256) (2 ^ b - 1))) = (2 ^ b * (q / 2 ^ b)) mod 256.
Proof.
  intros Hb. assert (0 < 2 ^ b) by (apply Z.pow_pos_nonneg; lia). assert (0 < 2 ^ (8 - b)) by (apply Z.pow_pos_nonneg; lia).
  assert (256 = 2 ^ b * 2 ^ (8 - b)) as E by (rewrite <- Z.pow_add_r by lia; by replace (b + (8 - b)) with 8 by lia).
  replace (2 ^ b - 1) with (Z.ones b) by (rewrite Z.ones_equiv; lia). rewrite Z.ldiff_ones_r, Z.shiftl_mul_pow2, Z.shiftr_div_pow2 by lia.
  rewrite u8z_z8. rewrite E at 1 3. rewrite mod_cut, Z.mul_mod_distr_l by lia. rewrite Z.mul_comm, E, Z.mul_mod_distr_l by lia.
  by rewrite Z.mod_mod by lia.
Qed.

Section Cleared.
Context (nb : nat) (len : Z) (Hlen : 1 <= len <= 8 * Z.of_nat nb).
#[local] Notation low := (8 * Z.of_nat nb - len).
#[local] Notation at_ := (nb - 1 - Z.to_nat (low / 8))%nat.
Lemma cleared_digit net j : (j <= at_)%nat ->
  octet_at (clear_bits (to_be nb net) at_ (low mod 8)) j = (net - net mod 2 ^ low) / 256 ^ Z.of_nat (nb - 1 - j) mod 256.
Proof using Hlen.
  intros Hj. assert (0 <= low / 8 < Z.of_nat nb) as Hs by (split; [apply Z.div_pos; lia|apply Z.div_lt_upper_bound; lia]).
  pose proof (Z.mod_pos_bound low 8 ltac:(lia)) as Hb. assert (0 < 2 ^ low) as HP by (apply Z.pow_pos_nonneg; lia).
  assert (net - net mod 2 ^ low = 2 ^ low * (net / 2 ^ low)) as -> by (pose proof (Z.div_mod net (2 ^ low)); lia).
  unfold octet_at, clear_bits. rewrite nth_lookup. assert (0 < 256 ^ Z.of_nat (nb - 1 - j)) as H256 by (apply Z.pow_pos_nonneg; lia).
  destruct (decide (j = at_)) as [->|Hne].
  - destruct (lookup_lt_is_Some_2 (to_be nb net) at_) as [o Ho]; [rewrite length_to_be; lia|]. rewrite list_lookup_alter_eq, Ho. cbn [fmap option_fmap option_map default from_option id].
    pose proof (oct_to_be nb net at_ ltac:(lia)) as Eo. unfold oct in Eo. rewrite Ho in Eo. cbn [default from_option id] in Eo. rewrite Eo, cleared_octet by lia.
    replace (nb - 1 - at_)%nat with (Z.to_nat (low / 8)) by lia. rewrite Z2Nat.id by lia.
    assert (2 ^ low = 256 ^ (low / 8) * 2 ^ (low mod 8)) as E.
    { change 256 with (2 ^ 8). rewrite <- Z.pow_mul_r, <- Z.pow_add_r by lia. f_equal. apply Z.div_mod. lia. }
    rewrite E, <- Z.mul_assoc, (Z.mul_comm (256 ^ (low / 8))), Z.div_mul by (apply Z.pow_nonzero; lia).
    rewrite Z.div_div by (try apply Z.pow_nonzero; try apply Z.pow_pos_nonneg; lia). done.
  - rewrite list_lookup_alter_ne by done. pose proof (oct_to_be nb net j ltac:(lia)) as Eo. unfold oct in Eo.
    rewrite Eo. f_equal. assert (exists u, 0 < u /\ 256 ^ Z.of_nat (nb - 1 - j) = 2 ^ low * u) as (u & Hu & ->).
    { exists (2 ^ (8 * Z.of_nat (nb - 1 - j) - low)). assert (low <= 8 * Z.of_nat (nb - 1 - j)) by (pose proof (Z.div_mod low 8); lia).
      split; [apply Z.pow_pos_nonneg; lia|]. change 256 with (2 ^ 8). rewrite <- Z.pow_mul_r, <- Z.pow_add_r by lia. f_equal. lia. }
    rewrite Z.div_mul_cancel_l by lia. by rewrite Z.div_div by lia.
Qed.
End Cleared.

Definition nibble (x : Z) (j : nat) : Z := x / 16 ^ Z.of_nat (31 - j) mod 16.
Lemma nibble_of_octets o x j : (j < 32)%nat -> octet_at o (j / 2) = x / 256 ^ Z.of_nat (15 - j / 2) mod 256 -> nibble_at o j = nibble x j.
Proof.
  intros Hj E. unfold nibble_at, nibble. rewrite E. clear E. set (i := (j / 2)%nat). pose proof (Nat.div_mod_eq j 2) as Ej. fold i in Ej.
  assert (256 ^ Z.of_nat (15 - i) = 16 ^ Z.of_nat (30 - 2 * i)) as E.
  { change 256 with (16 ^ 2). rewrite <- Z.pow_mul_r by lia. f_equal. lia. }
  rewrite E. change 256 with (16 * 16). pose proof (Nat.mod_upper_bound j 2 ltac:(lia)). assert (Nat.odd j = Nat.odd (j mod 2)) as -> by (rewrite Ej at 1; by rewrite Nat.odd_add, Nat.odd_mul).
  assert (j mod 2 = 0 \/ j mod 2 = 1)%nat as [Hm | Hm] by lia; rewrite Hm in *; cbn [Nat.odd Nat.even negb].
  - rewrite Z.shiftr_div_pow2 by lia. change (2 ^ 4) with 16. rewrite mod_cut by lia. f_equal.
    rewrite Z.div_div by (try apply Z.pow_nonzero; lia). f_equal. rewrite Z.mul_comm, <- Z.pow_succ_r by lia. f_equal. lia.
  - change 0x0f with (Z.ones 4). rewrite Z.land_ones by lia. change (2 ^ 4) with 16. rewrite Z.rem_mul_r by lia.
    rewrite Z.mul_comm, Z.mod_add, Z.mod_mod by lia. do 3 f_equal. lia.
Qed.

(** ** The names of addresses as labels *)

Lemma fmt_octet z : 0 <= z < 256 -> parse_u8 (fmt_u z) = Some z /\ dot ∉ fmt_u z.
Proof. intros Hz. destruct (octet_text (z8 z)) as (E & Hd & _). rewrite u8z_z8_small in * by lia. done. Qed.
Lemma fmt_octet_inj a b : 0 <= a < 256 -> 0 <= b < 256 -> fmt_u a = fmt_u b -> a = b.
Proof. intros Ha Hb E. apply fmt_octet in Ha as [Ha _], Hb as [Hb _]. rewrite E in Ha. congruence. Qed.
Definition hex_digit_ok (z : Z) : bool := bool_decide (parse_hex_u8 (fmt_x 1 z) = Some z) && bool_decide (dot ∉ fmt_x 1 z) && bool_decide (fmt_x 1 z = [hex_char z]).
Lemma fmt_nibble z : 0 <= z < 16 -> parse_hex_u8 (fmt_x 1 z) = Some z /\ dot ∉ fmt_x 1 z /\ fmt_x 1 z = [hex_char z].
Proof.
  intros Hz. assert (forallb hex_digit_ok (seqZ 0 16) = true) as H by by vm_compute.
  rewrite forallb_forall in H. specialize (H z ltac:(apply list_elem_of_In, elem_of_seqZ; lia)).
  unfold hex_digit_ok in H. rewrite !andb_true_iff, !bool_decide_eq_true in H. tauto.
Qed.
Lemma fmt_nibble_inj a b : 0 <= a < 16 -> 0 <= b < 16 -> fmt_x 1 a = fmt_x 1 b -> a = b.
Proof. intros Ha Hb E. apply fmt_nibble in Ha as [Ha _], Hb as [Hb _]. rewrite E in Ha. congruence. Qed.

Lemma digit_octet a j : (j < 4)%nat -> digit 8 4 a j = oct (octets4 a) j.
Proof. intros Hj. unfold digit, octets4. by rewrite oct_to_be by lia. Qed.
Lemma ptr4_labels a : ipv4_ptr_name a = dotted (bs "in-addr.arpa") (labels 8 4 fmt_u a 4).
Proof.
  destruct (octets4_cases a) as (b0 & b1 & b2 & b3 & E). rewrite (ipv4_ptr_name_parts a b0 b1 b2 b3 E).
  change (bs ".in-addr.arpa") with (dot :: bs "in-addr.arpa"). rewrite dotted_join_text by done. f_equal.
  unfold labels. cbn [seq rev app fmap list_fmap]. rewrite !digit_octet by lia. by rewrite E.
Qed.
Lemma octets6_at a i : (i < 16)%nat -> octet_at (octets6 a) i = a / 256 ^ Z.of_nat (15 - i) mod 256.
Proof. intros Hi. unfold octet_at. rewrite nth_lookup. exact (oct_to_be 16 a i Hi). Qed.
Lemma nibbles_all o : length o = 16%nat -> nibbles o = nibble_at o <$> rev (seq 0 32).
Proof.
  intros Hl. do 16 (destruct o as [|? o]; [done|]). destruct o; [|done]. clear Hl. unfold nibbles, nibble_at, octet_at.
  cbn [rev app fmap list_fmap concat seq Nat.odd Nat.even negb Nat.div Nat.divmod nth fst].
  assert (forall b, Z.land (Z.shiftr (u8z b) 4) 0x0F = Z.shiftr (u8z b) 4) as Hs; [|by rewrite !Hs].
  intros c. apply Z.eqb_eq. by byte_cases c.
Qed.
Lemma ptr6_labels a : ipv6_ptr_name a = dotted (bs "ip6.arpa") (labels 4 32 (fmt_x 1) a 32).
Proof.
  rewrite ptr6_text. change (bs ".ip6.arpa") with (dot :: bs "ip6.arpa"). rewrite nibbles_all by apply length_octets6.
  rewrite dotted_join_text by done. f_equal. unfold labels. rewrite <- list_fmap_compose. apply list_fmap_ext.
  intros i j Hj. apply list_elem_of_lookup_2, list_elem_of_In, in_rev, in_seq in Hj. cbn [compose].
  pose proof (digit_bound 4 32 ltac:(lia) a j) as Hb. destruct (fmt_nibble _ Hb) as (_ & _ & ->). do 2 f_equal.
  rewrite (nibble_of_octets _ a j); [|lia|apply octets6_at, Nat.Div0.div_lt_upper_bound; lia].
  done.
Qed.

(** ** Properties *)

Lemma ok_zones {A} (f : nat -> A) (c : nat) (Q : A -> Prop) : (exists z, z ∈ (f <$> seq 0 c) /\ Q z) <-> exists i, (i < c)%nat /\ Q (f i).
Proof.
  split.
  - intros (z & Hz & HQ). apply list_elem_of_fmap in Hz as (i & -> & Hi). apply list_elem_of_In, in_seq in Hi. exists i. split; [lia|done].
  - intros (i & Hi & HQ). exists (f i). split; [|done]. apply list_elem_of_fmap_2, list_elem_of_In, in_seq. lia.
Qed.
Lemma land_3 x : Z.land x 3 = x mod 4.
Proof. exact (Z.land_ones x 2 ltac:(lia)). Qed.
Lemma rev4_cover net len a : ip4_ok net -> ip4_ok a -> 1 <= len <= 32 ->
  exists zones, domain_rev4 net len = Ok zones /\ ((exists z, z ∈ zones /\ covers z (ipv4_ptr_name a)) <-> in_cidr4 net len a).
Proof.
  intros Hnet Ha Hlen. unfold domain_rev4. rewrite (proj2 (Z.leb_le 1 len)), (proj2 (Z.leb_le len 32)) by lia. cbn [andb negb].
  eexists. split; [done|]. rewrite ok_zones, !land_7, Z.shiftr_div_pow2 by lia. change (2 ^ 3) with 8.
  pose proof (Z.mod_pos_bound len 8 ltac:(lia)) as Hr. pose proof (Z.div_mod len 8 ltac:(lia)) as Hd. assert (0 <= len / 8) by lia.
  setoid_rewrite dotted_join. rewrite ptr4_labels.
  apply (zones_cover 8 4 ltac:(lia) fmt_u fmt_octet_inj (fun d Hd => proj2 (fmt_octet d Hd)) len (Z.to_nat (len / 8)) (len mod 8)); try done; try lia.
  intros j Hj. unfold zone_digits in Hj. unfold octets4. pose proof (Z.div_mod (32 - len) 8 ltac:(lia)). pose proof (Z.mod_pos_bound (32 - len) 8 ltac:(lia)).
  refine (cleared_digit 4 len ltac:(lia) net j _). change (8 * Z.of_nat 4) with 32.
  destruct (Z.eqb_spec (len mod 8) 0); lia.
Qed.
Lemma rev6_cover net len a : ip6_ok net -> ip6_ok a -> 1 <= len <= 128 ->
  exists zones, domain_rev6 net len = Ok zones /\ ((exists z, z ∈ zones /\ covers z (ipv6_ptr_name a)) <-> in_cidr6 net len a).
Proof.
  intros Hnet Ha Hlen. unfold domain_rev6. rewrite (proj2 (Z.leb_le 1 len)), (proj2 (Z.leb_le len 128)) by lia. cbn [andb negb].
  eexists. split; [done|]. rewrite ok_zones, land_7, land_3, Z.shiftr_div_pow2 by lia. change (2 ^ 3) with 8.
  pose proof (Z.mod_pos_bound len 4 ltac:(lia)) as Hr. pose proof (Z.div_mod len 4 ltac:(lia)) as Hd. assert (0 <= len / 4) by lia.
  setoid_rewrite dotted_join. rewrite ptr6_labels.
  apply (zones_cover 4 32 ltac:(lia) (fmt_x 1) fmt_nibble_inj (fun d Hd => proj1 (proj2 (fmt_nibble d Hd))) len (Z.to_nat (len / 4)) (len mod 4)); try done; try lia.
  intros j Hj. unfold zone_digits in Hj. pose proof (Z.div_mod (128 - len) 8 ltac:(lia)). pose proof (Z.mod_pos_bound (128 - len) 8 ltac:(lia)).
  pose proof (Nat.div_mod_eq j 2). assert (j < 32)%nat by (destruct (Z.eqb_spec (len mod 4) 0); lia).
  rewrite (nibble_of_octets _ (base 4 32 len net) j); [|done|].
  - done.
  - unfold octets6. refine (cleared_digit 16 len ltac:(lia) net (j / 2) _). change (8 * Z.of_nat 16) with 128.
    destruct (Z.eqb_spec (len mod 4) 0); lia.
Qed.

Definition zones_exact (r : result (list str) str) (len bits : Z) (name : str) (member : Prop) : Prop :=
  match r with
  | Ok zones => 1 <= len <= bits /\ ((exists z, z ∈ zones /\ covers z name) <-> member)
  | Err _ => ~ (1 <= len <= bits)
  end.

(** C35: The reverse zones a [rev-server] or [domain] directive makes for a network
    [net/len] cover the PTR names of exactly the network's addresses: for every
    address of the family, some zone is the address's reverse name or a suffix
    of it at a dot if and only if the address and the network share their first
    [len] bits, also where the length splits an octet or a nibble. The zones
    exist for the lengths 1 to 32, and 1 to 128, and only for those. *)
Theorem reverse_zones_exact net4 len4 a4 net6 len6 a6 : ip4_ok net4 -> ip4_ok a4 -> ip6_ok net6 -> ip6_ok a6 ->
  zones_exact (domain_rev4 net4 len4) len4 32 (ipv4_ptr_name a4) (in_cidr4 net4 len4 a4) /\
  zones_exact (domain_rev6 net6 len6) len6 128 (ipv6_ptr_name a6) (in_cidr6 net6 len6 a6).
Proof.
  intros Hn4 Ha4 Hn6 Ha6. split.
  - destruct (decide (1 <= len4 <= 32)) as [Hl|Hl].
    + destruct (rev4_cover net4 len4 a4) as (zones & -> & H); done.
    + unfold domain_rev4. destruct (Z.leb_spec 1 len4), (Z.leb_spec len4 32); try done. lia.
  - destruct (decide (1 <= len6 <= 128)) as [Hl|Hl].
    + destruct (rev6_cover net6 len6 a6) as (zones & -> & H); done.
    + unfold domain_rev6. destruct (Z.leb_spec 1 len6), (Z.leb_spec len6 128); try done. lia.
Qed.
(** 10.0.0.0/20 and 10.0.15.1; 2001:db8::/35 and an address outside. *)
Lemma reverse_zones_exact_witness :
  zones_exact (domain_rev4 (10 * 2 ^ 24) 20) 20 32 (ipv4_ptr_name (10 * 2 ^ 24 + 15 * 256 + 1)) (in_cidr4 (10 * 2 ^ 24) 20 (10 * 2 ^ 24 + 15 * 256 + 1)) /\
  zones_exact (domain_rev6 (0x20010db8 * 2 ^ 96) 35) 35 128 (ipv6_ptr_name (0x20010db9 * 2 ^ 96)) (in_cidr6 (0x20010db8 * 2 ^ 96) 35 (0x20010db9 * 2 ^ 96)).
Proof. apply (reverse_zones_exact (10 * 2 ^ 24) 20 (10 * 2 ^ 24 + 15 * 256 + 1) (0x20010db8 * 2 ^ 96) 35 (0x20010db9 * 2 ^ 96)); split; by vm_compute. Defined.
Example rev4_octet_split : domain_rev4 (10 * 2 ^ 24 + 5) 30 =
  Ok [bs "4.0.0.10.in-addr.arpa"; bs "5.0.0.10.in-addr.arpa"; bs "6.0.0.10.in-addr.arpa"; bs "7.0.0.10.in-addr.arpa"].
Proof. by vm_compute. Qed.
