(* ===== verification/ConfigApply.v ===== *)
(** * Applying the configuration: the directives of src/src/option.rs

    [apply_line] finds the handler of a directive in the tables below, in the
    order of the source; what is in a directory of configuration files is a
    parameter of the table and is closed in [read_opts]. The state after an error
    is not observable: an error of the configuration is fatal.

    A handler takes the line and the daemon. [rand] are the identifiers of new
    servers, [nametoindex] and [gethostname] are the system's. *)

From Stdlib Require Import ZArith Lia String.
From stdpp Require Import base numbers list option sorting.
From S2P Require Import Prelude Types StdText Records DhcpTypes RecordSet Daemon ConfigText ConfigDns ConfigRecords ConfigDhcp.
From S2P Require DhcpCommon Radv Forward Extract Server.

#[local] Open Scope Z_scope.

Definition UPSTREAM_TIMEOUT_SECS : Z := 10.
Definition DEFAULT_FAST_RETRY_MS : Z := 1000.
Definition STALE_CACHE_EXPIRY_SECS : Z := 86400.
Definition DEFAULT_LEASEFILE : str := bs "/var/lib/misc/dnsmasq.leases".
Definition TFTP_MAX_CONNECTIONS_DEFAULT : Z := 50.
Definition SUBOPT_CIRCUIT_ID : u8 := z8 1.
Definition SUBOPT_SUBSCR_ID : u8 := z8 6.

(** The first entry of a table with the key. *)
Definition entry {A} (key : str) (l : list (string * A)) : option A := snd <$> List.find (fun e => bool_decide (bs (fst e) = key)) l.

(** [fn facility_by_name] of src/src/log.rs: the facility times 8. *)
Definition FACILITIES : list (string * Z) :=
  [("kern", 0); ("user", 1); ("mail", 2); ("daemon", 3); ("auth", 4); ("syslog", 5); ("lpr", 6); ("news", 7); ("uucp", 8); ("cron", 9);
   ("authpriv", 10); ("ftp", 11); ("local0", 16); ("local1", 17); ("local2", 18); ("local3", 19); ("local4", 20); ("local5", 21);
   ("local6", 22); ("local7", 23)]%string.
Definition facility_by_name (name : str) : option Z := Z.mul 8 <$> entry name FACILITIES.

(** ** Handlers *)

Definition handler : Type := ConfigLine -> Daemon -> pcfg Daemon.
Definition set_ (o : DaemonOption) : handler := fun _ d => done_ (set_option o d).
Definition sets (os : list DaemonOption) (d : Daemon) : Daemon := foldl (fun d o => set_option o d) d os.
(** [require_value(key)?], then the handler of the value. *)
Definition required (f : str -> handler) : handler := fun cl d => let% v := Val (require_value cl (cl_key cl)) in f v cl d.
Definition parsedp {A} (p : str -> ConfigLine -> pcfg A) (store : A -> Daemon -> Daemon) : handler :=
  required (fun v cl d => let% a := p v cl in done_ (store a d)).
Definition parsed {A} (p : str -> ConfigLine -> cfg A) (store : A -> Daemon -> Daemon) : handler := parsedp (fun v cl => Val (p v cl)) store.
Definition number (parse : str -> option Z) (reason : str) (store : Z -> Daemon -> Daemon) : handler :=
  parsed (fun v cl => ok_or (parse v) (invalid_value_for cl (cl_key cl) v reason)) store.
Definition token (parse : str -> str -> ConfigLine -> str -> cfg Z) (field : string) (store : Z -> Daemon -> Daemon) : handler :=
  parsed (fun v cl => parse v (cl_key cl) cl (bs field)) store.
Definition text (store : str -> Daemon -> Daemon) : handler := parsed (fun v _ => Ok v) store.
Definition updated (f : Daemon -> str -> ConfigLine -> cfg Daemon) : handler := required (fun v cl d => Val (f d v cl)).
Definition without_value (o : DaemonOption) : handler :=
  fun cl d => let% _ := Val (require_no_value cl (cl_key cl)) in done_ (set_option o d).
(** The options of the values; [None] is no value. *)
Definition choice (options : list (option string * list DaemonOption)) (reason : string) : handler := fun cl d =>
  match List.find (fun e => bool_decide (bs <$> fst e = cl_value cl)) options, cl_value cl with
  | Some (_, os), _ => done_ (sets os d)
  | None, Some v => fail (invalid_value_for cl (cl_key cl) v (bs reason))
  | None, None => done_ d
  end.
Definition empty_none (v : str) : option str := match v with [] => None | _ => Some v end.
(** [push] and [extend] of a [Vec]. *)
Definition push {A} (x : A) (l : list A) : list A := l ++ [x].
Definition extend {A} (xs l : list A) : list A := l ++ xs.
Definition iname (flags : Z) (v : str) : Iname := mkIname (Some v) None flags.

(** ** Options *)

Definition BOOLEANS : list (string * DaemonOption) :=
  [("no-resolv", OPT_NO_RESOLV); ("no-poll", OPT_NO_POLL); ("no-hosts", OPT_NO_HOSTS); ("bogus-priv", OPT_BOGUSPRIV);
   ("bogus-privv4", OPT_BOGUSPRIV); ("expand-hosts", OPT_EXPAND); ("filterwin2k", OPT_FILTER); ("filter-win2k", OPT_FILTER);
   ("localise-queries", OPT_LOCALISE); ("localize-queries", OPT_LOCALISE); ("log-dhcp", OPT_LOG_OPTS); ("no-negcache", OPT_NO_NEG);
   ("strict-order", OPT_ORDER); ("all-servers", OPT_ALL_SERVERS); ("reload-acl", OPT_RELOAD); ("no-rebind", OPT_NO_REBIND);
   ("no-daemon", OPT_DEBUG); ("keep-in-foreground", OPT_NO_FORK); ("bind-interfaces", OPT_NOWILD); ("selfmx", OPT_SELFMX);
   ("localmx", OPT_LOCALMX); ("authoritative", OPT_AUTHORITATIVE); ("dhcp-authoritative", OPT_AUTHORITATIVE); ("read-ethers", OPT_ETHERS);
   ("dhcp-no-override", OPT_NO_OVERRIDE); ("dhcp-sequential-ip", OPT_CONSEC_ADDR); ("dhcp-ignore-clid", OPT_IGNORE_CLID);
   ("dhcp-client-update", OPT_FQDN_UPDATE); ("dhcp-fqdn", OPT_DHCP_FQDN); ("enable-dbus", OPT_DBUS); ("no-ping", OPT_NO_PING);
   ("lease-ro", OPT_LEASE_RO); ("leasefile-ro", OPT_LEASE_RO); ("conntrack", OPT_CONNTRACK); ("quiet-dhcp", OPT_QUIET_DHCP);
   ("quiet-dhcp6", OPT_QUIET_DHCP6); ("quiet-ra", OPT_QUIET_RA); ("dnssec", OPT_DNSSEC_VALID); ("proxy-dnssec", OPT_DNSSEC_PROXY);
   ("dnssec-debug", OPT_DNSSEC_DEBUG); ("dnssec-no-timecheck", OPT_DNSSEC_TIME); ("enable-ra", OPT_RA); ("tftp-secure", OPT_TFTP_SECURE);
   ("tftp-no-blocksize", OPT_TFTP_NOBLOCK); ("tftp-lowercase", OPT_TFTP_LC); ("client-subnet", OPT_CLIENT_SUBNET);
   ("loop-detect", OPT_LOOP_DETECT); ("dns-loop-detect", OPT_LOOP_DETECT); ("script-arp", OPT_SCRIPT_ARP);
   ("script-on-renewal", OPT_LEASE_RENEW); ("rapid-commit", OPT_RAPID_COMMIT); ("dhcp-rapid-commit", OPT_RAPID_COMMIT);
   ("log-debug", OPT_LOG_DEBUG); ("quiet-tftp", OPT_QUIET_TFTP); ("no-ident", OPT_NO_IDENT); ("no-0x20-encode", OPT_NO_0X20);
   ("do-0x20-encode", OPT_DO_0X20); ("log-malloc", OPT_LOG_MALLOC); ("ubus", OPT_UBUS); ("enable-ubus", OPT_UBUS);
   ("domain-needed", OPT_NODOTS_LOCAL); ("clear-on-reload", OPT_RELOAD); ("stop-dns-rebind", OPT_NO_REBIND);
   ("rebind-localhost-ok", OPT_LOCAL_REBIND); ("no-round-robin", OPT_NORR); ("bind-dynamic", OPT_CLEVERBIND)]%string.
Definition boolean_handlers : list (string * handler) := (fun e => (fst e, set_ (snd e))) <$> BOOLEANS.

Definition log_queries : handler := fun cl d =>
  done_ (sets (OPT_LOG :: default [] (cl_value cl ≫= fun v => entry v
    [("extra", [OPT_EXTRALOG]); ("proto", [OPT_EXTRALOG; OPT_LOG_PROTO]); ("auth", [OPT_AUTH_LOG]); ("only_failed", [OPT_LOG_ONLY_FAILED])]%string)) d).
Definition enable_tftp : handler := fun cl d =>
  let d := set_option OPT_TFTP d in
  match cl_value cl with
  | None => done_ d
  | Some v => let% l := Val (parse_tftp_interfaces v cl) in done_ (d <| d_tftp_interfaces ::= extend l |>)
  end.
Definition umbrella : handler := fun cl d =>
  let d := set_option OPT_UMBRELLA d in
  match cl_value cl with None => done_ d | Some v => Val (parse_umbrella d v cl) end.
Definition option_handlers : list (string * handler) :=
  [("log-queries", log_queries); ("ra-param", updated parse_ra_param); ("enable-tftp", enable_tftp);
   ("tftp-no-fail", without_value OPT_TFTP_NO_FAIL); ("tftp-single-port", without_value OPT_SINGLE_PORT); ("umbrella", umbrella);
   ("local-service", choice [(None, [OPT_LOCAL_SERVICE]); (Some "net", [OPT_LOCAL_SERVICE]); (Some "host", [OPT_LOCALHOST_SERVICE])]
                       "expected net or host");
   ("add-mac", choice [(None, [OPT_ADD_MAC]); (Some "base64", [OPT_MAC_B64]); (Some "text", [OPT_MAC_HEX])] "expected base64 or text");
   ("strip-mac", without_value OPT_STRIP_MAC); ("strip-subnet", without_value OPT_STRIP_ECS);
   ("tftp-unique-root", choice [(None, [OPT_TFTP_APREF_IP]); (Some "ip", [OPT_TFTP_APREF_IP]); (Some "mac", [OPT_TFTP_APREF_MAC])]
                          "expected ip or mac");
   ("dnssec-check-unsigned", choice [(None, []); (Some "no", [OPT_DNSSEC_IGN_NS])] "expected no");
   ("no-rebind-localhost", fun _ d => done_ d); ("conf-script", required (fun _ _ d => done_ d))]%string.

(** ** Numbers *)

Definition port_number (store : Z -> Daemon -> Daemon) : handler := number parse_u16 (bs "expected a valid port number (0-65535)") store.
Definition unsigned (parse : str -> option Z) (store : Z -> Daemon -> Daemon) : handler := number parse (bs "expected an unsigned integer") store.
Definition cache_size (n : Z) : Z := Z.min (Z.max n 0) 5000000.
(** Without a value the line is skipped. *)
Definition local_ttl : handler := fun cl d =>
  match cl_value cl with None => done_ d | Some _ => unsigned parse_u32 (fun n d => d <| d_local_ttl := n |>) cl d end.
Definition fast_dns_retry : handler := fun cl d =>
  let key := bs "fast-dns-retry" in
  let d := d <| d_fast_retry_timeout := UPSTREAM_TIMEOUT_SECS |> in
  match cl_value cl with
  | None => done_ (d <| d_fast_retry_time := DEFAULT_FAST_RETRY_MS |>)
  | Some v =>
    let '(retry, timeout) := match split_once comma v with Some (a, b) => (a, Some b) | None => (v, None) end in
    let% retry_ms := Val (parse_i32_token retry key cl (bs "retry interval")) in
    if retry_ms <? 50 then fail (invalid_value_for cl key retry (bs "retry interval must be at least 50ms"))
    else
      let d := d <| d_fast_retry_time := retry_ms |> in
      match timeout with
      | None => done_ d
      | Some t => let% timeout_ms := Val (parse_i32_token t key cl (bs "retry timeout")) in
                  done_ (d <| d_fast_retry_timeout := Z.quot timeout_ms 1000 |>)
      end
  end.
Definition use_stale_cache : handler := fun cl d =>
  let key := bs "use-stale-cache" in
  let field := bs "stale cache maximum TTL excess" in
  let% max_expiry := Val (match cl_value cl with
                          | None => Ok STALE_CACHE_EXPIRY_SECS
                          | Some v =>
                            let? n := parse_i32_token v key cl field in
                            if n <? 0 then Err (invalid_value_for cl key v (field ++ bs " must be non-negative"))
                            else Ok (if n =? 0 then -1 else n)
                          end) in
  done_ (d <| d_cache_max_expiry := max_expiry |>).
Definition log_async : handler := fun cl d =>
  let% n := Val (ok_or (parse_i32 (default (bs "5") (cl_value cl)))
                   (invalid_value_for cl (bs "log-async") (default [] (cl_value cl)) (bs "expected an integer"))) in
  done_ (d <| d_max_logs := n |>).
Definition dumpmask : handler :=
  parsedp (fun v cl => parse_i32_base0_token v (bs "dumpmask") cl (bs "dump mask")) (fun n d => d <| d_dump_mask := n |>).
Definition port_limit : handler :=
  parsed (fun v cl => let key := bs "port-limit" in
                      let? limit := parse_i32_token v key cl (bs "port limit") in
                      if limit <? 1 then Err (invalid_value_for cl key v (bs "port limit must be at least 1")) else Ok limit)
    (fun n d => d <| d_randport_limit := n |>).
Definition dnssec_limits : handler :=
  updated (fun d v cl => let? limits := parse_dnssec_limits v cl (d_dnssec_limits d) in Ok (d <| d_dnssec_limits := limits |>)).
Definition number_handlers : list (string * handler) :=
  [("port", port_number (fun n d => d <| d_port := n |>)); ("query-port", port_number (fun n d => d <| d_query_port := n |>));
   ("min-port", port_number (fun n d => d <| d_min_port := n |>)); ("max-port", port_number (fun n d => d <| d_max_port := n |>));
   ("cache-size", number parse_i32 (bs "expected an integer") (fun n d => d <| d_cachesize := cache_size n |>));
   ("local-ttl", local_ttl); ("fast-dns-retry", fast_dns_retry); ("neg-ttl", unsigned parse_u32 (fun n d => d <| d_neg_ttl := n |>));
   ("max-ttl", unsigned parse_u32 (fun n d => d <| d_max_ttl := n |>));
   ("min-cache-ttl", unsigned parse_u32 (fun n d => d <| d_min_cache_ttl := n |>));
   ("max-cache-ttl", unsigned parse_u32 (fun n d => d <| d_max_cache_ttl := n |>));
   ("auth-ttl", token parse_u32_token "authoritative TTL" (fun n d => d <| d_auth_ttl := n |>));
   ("dhcp-ttl", token parse_u32_token "DHCP TTL" (fun n d => d <| d_dhcp_ttl := n |> <| d_use_dhcp_ttl := 1 |>));
   ("dnssec-limits", dnssec_limits); ("use-stale-cache", use_stale_cache);
   ("edns-packet-max", unsigned parse_u16 (fun n d => d <| d_edns_pktsz := n |>)); ("log-async", log_async); ("dumpmask", dumpmask);
   ("dns-forward-max", token parse_i32_token "maximum concurrent DNS queries" (fun n d => d <| d_ftabsize := n |>));
   ("max-tcp-connections", token parse_i32_token "maximum TCP connections" (fun n d => d <| d_max_procs := n |>));
   ("tftp-max", number parse_i32 (bs "expected an integer") (fun n d => d <| d_tftp_max := n |>));
   ("tftp-mtu", token parse_i32_token "TFTP MTU" (fun n d => d <| d_tftp_mtu := n |>));
   ("dhcp-lease-max", number parse_i32 (bs "expected an integer") (fun n d => d <| d_dhcp_max := n |>)); ("port-limit", port_limit)]%string.

(** ** Names, files and addresses *)

Definition log_facility : handler := required (fun v cl d =>
  let key := bs "log-facility" in
  if bool_decide (v = bs "journald") then fail (invalid_value_for cl key v (bs "journald logging requires the 'journald' feature"))
  else if contains_byte slash v || bool_decide (v = bs "-") || bool_decide (v = bs "stdout") then done_ (d <| d_log_file := Some v |>)
  else match facility_by_name v with
       | Some fac => done_ (d <| d_log_fac := Some fac |>)
       | None => fail (invalid_value_for cl key v (bs "bad log facility"))
       end).
Definition add_subnet : handler := fun cl d =>
  let d := set_option OPT_CLIENT_SUBNET d in
  match cl_value cl with
  | None => done_ d
  | Some v =>
    if (length (trim v) =? 0)%nat then done_ d
    else
      let% (subnet4, subnet6) := Val (parse_add_subnet v cl) in
      let d := d <| d_add_subnet4 := Some subnet4 |> in
      done_ (match subnet6 with Some s => d <| d_add_subnet6 := Some s |> | None => d end)
  end.
Definition dhcp_alternate_port : handler := fun cl d =>
  let% (server_port, client_port) := Val (parse_dhcp_alternate_port cl) in
  done_ (d <| d_dhcp_server_port := server_port |> <| d_dhcp_client_port := client_port |>).
Definition resolv_file (v : str) (d : Daemon) : Daemon := d <| d_resolv_files ::= push (mkResolvc false false 0 0 v (-1) None) |>.
Definition listen_address : handler :=
  parsed (fun v cl => ok_or (parse_ip v) (invalid_value_for cl (bs "listen-address") v (bs "expected an IP address")))
    (fun ip d => d <| d_if_addrs ::= push (mkIname None (Some (sock_of ip 0)) 0) |>).
Definition hosts_file (add : HostsFile -> Daemon -> Daemon) : handler :=
  text (fun v d => let '(f, d) := make_hosts_file d v in add f d).
Definition dynamic_dir (flags : Z) : handler := text (fun v d => d <| d_dynamic_dirs ::= push (make_dynamic_dir v flags) |>).
Definition auth_server (r : str * list Iname) (d : Daemon) : Daemon :=
  d <| d_authserver := Some (fst r) |> <| d_auth_interfaces ::= extend (snd r) |>.
Definition name_handlers : list (string * handler) :=
  [("auth-soa", updated parse_auth_soa); ("dnssec-timestamp", text (fun v d => d <| d_timestamp_file := Some v |>));
   ("domain", updated parse_domain); ("user", text (fun v d => d <| d_username := empty_none v |>));
   ("group", text (fun v d => d <| d_groupname := empty_none v |>)); ("dhcp-scriptuser", text (fun v d => d <| d_scriptuser := Some v |>));
   ("dhcp-script", text (fun v d => d <| d_lease_change_command := Some v |>)); ("dhcp-luascript", text (fun v d => d <| d_luascript := Some v |>));
   ("pid-file", text (fun v d => d <| d_runfile := empty_none v |>)); ("log-facility", log_facility)]%string.
Definition address_handlers : list (string * handler) :=
  [("dumpfile", text (fun v d => d <| d_dump_file := Some v |>)); ("add-cpe-id", text (fun v d => d <| d_dns_client_id := Some v |>));
   ("add-subnet", add_subnet); ("dhcp-alternate-port", dhcp_alternate_port); ("resolv-file", text resolv_file);
   ("servers-file", text (fun v d => d <| d_servers_file := Some v |>)); ("lease-file", text (fun v d => d <| d_lease_file := Some v |>));
   ("listen-address", listen_address);
   ("interface", text (fun v d => d <| d_if_names ::= push (iname 0 v) |>));
   ("except-interface", text (fun v d => d <| d_if_except ::= push (iname 0 v) |>))]%string.
Definition file_handlers : list (string * handler) :=
  [("addn-hosts", hosts_file (fun f d => d <| d_addn_hosts ::= push f |>));
   ("dhcp-hostsfile", hosts_file (fun f d => d <| d_dhcp_hosts_file ::= push f |>));
   ("dhcp-optsfile", hosts_file (fun f d => d <| d_dhcp_opts_file ::= push f |>));
   ("hostsdir", dynamic_dir DynDirFlags.HOSTS); ("addn-hosts-dir", dynamic_dir DynDirFlags.HOSTS); ("hosts-dir", dynamic_dir DynDirFlags.HOSTS);
   ("dhcp-hostsdir", dynamic_dir DynDirFlags.DHCP_HST); ("dhcp-optsdir", dynamic_dir DynDirFlags.DHCP_OPT);
   ("zones-dir", dynamic_dir DynDirFlags.ZONES); ("networks-dir", dynamic_dir DynDirFlags.NETWORKS);
   ("auth-server", parsed parse_auth_server auth_server);
   ("auth-sec-servers", parsed parse_auth_sec_servers (fun l d => d <| d_secondary_forward_servers ::= extend l |>));
   ("auth-peer", parsed parse_auth_peers (fun l d => d <| d_auth_peers ::= extend l |>));
   ("tftp-root", text (fun v d => d <| d_tftp_prefix := Some v |>));
   ("tftp-port-range", parsed parse_tftp_port_range (fun r d => d <| d_start_tftp_port := fst r |> <| d_end_tftp_port := snd r |>))]%string.
Definition interface_handlers : list (string * handler) :=
  [("no-dhcp-interface", text (fun v d => d <| d_dhcp_except ::= push (iname 0 v) |>));
   ("no-dhcpv4-interface", text (fun v d => d <| d_dhcp_except ::= push (iname IFACE_V4 v) |>));
   ("no-dhcpv6-interface", text (fun v d => d <| d_dhcp_except ::= push (iname Radv.IFACE_V6 v) |>))]%string.
Definition text_handlers : list (string * handler) := name_handlers ++ address_handlers ++ file_handlers ++ interface_handlers.

(** ** Records, servers and sets *)

Definition cname_ : handler :=
  updated (fun d v cl => let? cnames := parse_cname_records v cl (d_cnames d) in Ok (d <| d_cnames ::= extend cnames |>)).
Definition leasequery : handler := fun cl d =>
  let d := set_option OPT_LEASEQUERY d in
  match cl_value cl with
  | None => done_ d
  | Some v => let% a := Val (parse_bogus_addr v cl (bs "leasequery")) in done_ (d <| d_leasequery_addr ::= push a |>)
  end.
Definition allowlist_mask_value (v : str) (cl : ConfigLine) : cfg Z :=
  let key := bs "connmark-allowlist-enable" in
  let? mask := parse_u32_token v key cl (bs "allowlist mask") in
  if mask <? 1 then Err (invalid_value_for cl key v (bs "mask must be at least 1")) else Ok mask.
Definition connmark_allowlist_enable : handler := fun cl d =>
  let% mask := Val (match cl_value cl with None => Ok (2 ^ 32 - 1) | Some v => allowlist_mask_value v cl end) in
  done_ (set_option OPT_CMARK_ALST_EN d <| d_allowlist_mask := mask |>).
Definition connmark_allowlist (v : str) (cl : ConfigLine) : cfg Allowlist :=
  let key := bs "connmark-allowlist" in
  let parts := split_csv v in
  let '(mark_str, mask_str) := match split_once slash (part parts 0) with Some (m, k) => (m, Some k) | None => (part parts 0, None) end in
  let? mark := parse_u32_token mark_str key cl (bs "connmark mark") in
  if mark <? 1 then Err (invalid_value_for cl key v (bs "mark must be at least 1"))
  else
    let? mask := match mask_str with
                 | Some m =>
                   let? mask := parse_u32_token m key cl (bs "connmark mask") in
                   if mask <? 1 then Err (invalid_value_for cl key v (bs "mask must be at least 1")) else Ok mask
                 | None => Ok (2 ^ 32 - 1)
                 end in
    if negb (Z.land mark (not32 mask) =? 0) then Err (invalid_value_for cl key v (bs "mark must be a subset of mask"))
    else Ok (mkAllow mark mask (tail parts)).
Definition bogus (key : str) (v : str) (cl : ConfigLine) : cfg Forward.BogusAddr := parse_bogus_addr v cl key.
Definition rrlist (key : str) (v : str) (cl : ConfigLine) : cfg (list Z) := parse_rrlist v cl key.
Definition mx_target_token (v : str) (cl : ConfigLine) : cfg str := parse_domain_token v (bs "mx-target") cl.
Definition name_record_handlers : list (string * handler) :=
  [("mx-host", parsed parse_mx_host (fun r d => d <| d_mxnames ::= push r |>)); ("mx-target", parsed mx_target_token (fun v d => d <| d_mxtarget := Some v |>));
   ("srv-host", parsed parse_srv_host (fun r d => d <| d_mxnames ::= push r |>)); ("txt-record", parsed parse_txt_record (fun r d => d <| d_txt ::= push r |>));
   ("ptr-record", parsed parse_ptr_record (fun r d => d <| d_ptr ::= push r |>));
   ("host-record", parsed parse_host_record (fun r d => d <| d_host_records ::= push r |>));
   ("interface-name", parsed (fun v cl => parse_interface_name v cl false) (fun r d => d <| d_int_names ::= push r |>));
   ("dynamic-host", parsed (fun v cl => parse_interface_name v cl true) (fun r d => d <| d_int_names ::= push r |>));
   ("cname", cname_); ("naptr-record", parsed parse_naptr_record (fun r d => d <| d_naptr ::= push r |>));
   ("dns-rr", parsed parse_dns_rr (fun r d => d <| d_rr ::= push r |>)); ("caa-record", parsed parse_caa_record (fun r d => d <| d_rr ::= push r |>));
   ("trust-anchor", parsed parse_trust_anchor (fun r d => d <| d_ds ::= push r |>))]%string.
Definition set_handlers : list (string * handler) :=
  [("auth-zone", parsed parse_auth_zone (fun z d => d <| d_auth_zones ::= push z |>));
   ("ipset", parsed parse_ipset (fun l d => d <| d_ipsets ::= extend l |>)); ("nftset", parsed parse_nftset (fun l d => d <| d_nftsets ::= extend l |>));
   ("alias", parsed parse_alias (fun a d => d <| d_doctors ::= push a |>));
   ("bogus-nxdomain", parsed (bogus (bs "bogus-nxdomain")) (fun a d => d <| d_bogus_addr ::= push a |>));
   ("ignore-address", parsed (bogus (bs "ignore-address")) (fun a d => d <| d_ignore_addr ::= push a |>)); ("leasequery", leasequery);
   ("rebind-domain-ok", parsed parse_rebind_domains (fun l d => d <| d_no_rebind ::= extend l |>));
   ("connmark-allowlist-enable", connmark_allowlist_enable);
   ("connmark-allowlist", parsed connmark_allowlist (fun a d => d <| d_allowlists ::= push a |>))]%string.
Definition filter_handlers : list (string * handler) :=
  [("filter-A", fun _ d => done_ (d <| d_rrlist_filter ::= push 1 |>)); ("filter-AAAA", fun _ d => done_ (d <| d_rrlist_filter ::= push 28 |>));
   ("cache-rr", parsed (rrlist (bs "cache-rr")) (fun l d => d <| d_rrlist_cache ::= extend l |>));
   ("filter-rr", parsed (rrlist (bs "filter-rr")) (fun l d => d <| d_rrlist_filter ::= extend l |>))]%string.
Definition record_handlers : list (string * handler) := name_record_handlers ++ set_handlers ++ filter_handlers.

(** ** DHCP *)

Definition dhcp_option (key : str) (flags : Z) : handler :=
  parsedp (fun v cl => parse_dhcp_option v cl key flags) (fun o d => d <| d_dhcp_opts ::= push o |>).
Definition relay_id (key : str) (subopt : u8) : handler :=
  parsedp (fun v cl => parse_dhcp_relay_id v cl key subopt) (fun r d => d <| d_dhcp_relay_ids ::= push r |>).
(** An entry without tags is for every host. *)
Definition tag_gate (key : str) (store : list DhcpNetid -> Daemon -> Daemon) : handler := fun cl d =>
  let% l := Val (match cl_value cl with None => Ok [] | Some v => parse_dhcp_netid_list v cl key end) in done_ (store l d).
Definition dhcp_relay (split_relay : bool) : handler :=
  parsed (fun v cl => parse_dhcp_relay v cl split_relay)
    (fun r d => match r with RelayV4 r => d <| d_relay4 ::= push r |> | RelayV6 r => d <| d_relay6 ::= push r |> end).
Definition dhcp_duid (v : str) (cl : ConfigLine) : cfg (Z * list u8) :=
  let key := bs "dhcp-duid" in
  match split_csv v with
  | [p; q] =>
    let? enterprise := parse_u32_token p key cl (bs "DUID enterprise number") in
    let? id := parse_hex_bytes q key cl (bs "DUID") in
    Ok (enterprise, id)
  | _ => Err (invalid_value_for cl key v (bs "expected enterprise-number,hex-id"))
  end.
Definition proxy_addr (cl : ConfigLine) (d : Daemon) (p : str) : cfg Daemon :=
  if (length p =? 0)%nat then Ok d
  else let? addr := ok_or (parse_ipv4 p) (invalid_value_for cl (bs "dhcp-proxy") p (bs "bad dhcp-proxy address")) in
       Ok (d <| d_override_relays ::= push addr |>).
Definition dhcp_proxy : handler := fun cl d =>
  let d := d <| d_dhcp_override := true |> in
  match cl_value cl with None => done_ d | Some v => Val (try_fold (proxy_addr cl) d (split_on comma v)) end.
Definition pxe_vendors (v : str) (cl : ConfigLine) : cfg (list str) :=
  if any_empty (split_on comma v) then Err (invalid_value_for cl (bs "dhcp-pxe-vendor") v (bs "empty vendor string")) else Ok (split_on comma v).
Definition pxe_service : handler := required (fun v cl d =>
  let% (svc, d) := parse_pxe_service d v cl in done_ (d <| d_pxe_services ::= push svc |> <| d_enable_pxe := true |>)).
Definition range_handlers : list (string * handler) :=
  [("dhcp-range", parsed parse_dhcp_range (fun c d => d <| d_dhcp ::= push c |>));
   ("dhcp-host", parsedp parse_dhcp_host (fun c d => d <| d_dhcp_conf ::= push c |>));
   ("dhcp-option", dhcp_option (bs "dhcp-option") 0); ("dhcp-option-force", dhcp_option (bs "dhcp-option-force") DhOptFlags.FORCE);
   ("dhcp-option-pxe", dhcp_option (bs "dhcp-option-pxe") DhOptFlags.PXE_OPT);
   ("dhcp-boot", parsed parse_dhcp_boot (fun b d => d <| d_boot_config ::= push b |>));
   ("dhcp-leasefile", text (fun v d => d <| d_lease_file := Some v |>));
   ("dhcp-ignore", parsed (fun v cl => parse_dhcp_netid_list v cl (bs "dhcp-ignore")) (fun l d => d <| d_dhcp_ignore ::= push l |>));
   ("dhcp-ignore-names", tag_gate (bs "dhcp-ignore-names") (fun l d => d <| d_dhcp_ignore_names ::= push l |>));
   ("dhcp-generate-names", tag_gate (bs "dhcp-generate-names") (fun l d => d <| d_dhcp_gen_names ::= push l |>));
   ("dhcp-broadcast", tag_gate (bs "dhcp-broadcast") (fun l d => d <| d_force_broadcast ::= push l |>));
   ("bootp-dynamic", tag_gate (bs "bootp-dynamic") (fun l d => d <| d_bootp_dynamic ::= push l |>))]%string.
Definition match_handlers : list (string * handler) :=
  [("dhcp-vendorclass", parsed parse_dhcp_vendor (fun r d => d <| d_dhcp_vendors ::= push r |>));
   ("tag-if", parsed parse_tag_if (fun r d => d <| d_tag_if ::= push r |>));
   ("dhcp-match", parsedp parse_dhcp_match (fun o d => d <| d_dhcp_match ::= push o |>));
   ("dhcp-name-match", parsed parse_dhcp_name_match (fun r d => d <| d_dhcp_name_match ::= push r |>));
   ("dhcp-userclass", parsed parse_dhcp_userclass (fun r d => d <| d_dhcp_userclasses ::= push r |>));
   ("dhcp-circuitid", relay_id (bs "dhcp-circuitid") SUBOPT_CIRCUIT_ID); ("dhcp-subscrid", relay_id (bs "dhcp-subscrid") SUBOPT_SUBSCR_ID);
   ("dhcp-remoteid", relay_id (bs "dhcp-remoteid") SUBOPT_REMOTE_ID); ("dhcp-mac", parsedp parse_dhcp_mac (fun r d => d <| d_dhcp_macs ::= push r |>));
   ("dhcp-reply-delay", parsed parse_dhcp_reply_delay (fun r d => d <| d_dhcp_reply_delays ::= push r |>));
   ("dhcp-relay", dhcp_relay false); ("dhcp-split-relay", dhcp_relay true)]%string.
Definition pxe_handlers : list (string * handler) :=
  [("dhcp-duid", parsed dhcp_duid (fun r d => d <| d_duid_enterprise := fst r |> <| d_duid_config := Some (snd r) |>));
   ("dhcp-proxy", dhcp_proxy); ("dhcp-pxe-vendor", parsed pxe_vendors (fun l d => d <| d_dhcp_pxe_vendors ::= extend l |>));
   ("pxe-prompt", parsed parse_pxe_prompt (fun o d => d <| d_dhcp_opts ::= push o |> <| d_enable_pxe := true |>)); ("pxe-service", pxe_service)]%string.
Definition dhcp_handlers : list (string * handler) := range_handlers ++ match_handlers ++ pxe_handlers.

Section Apply.
Context (rand : nat -> Z) (nametoindex : str -> Z).

(** ** The directive *)

Definition server_entries : handler :=
  updated (fun d v cl => let? l := build_server_or_address_entries (next_uids rand d) (cl_key cl) v cl in Ok (d <| d_servers ::= extend l |>)).
Definition server_handlers : list (string * handler) :=
  [("server", server_entries); ("local", server_entries); ("address", server_entries); ("rev-server", updated (parse_rev_server rand));
   ("synth-domain", updated parse_synth_domain); ("bridge-interface", updated parse_bridge_interface);
   ("shared-network", updated (parse_shared_network nametoindex))]%string.
Definition HANDLERS (conf_dir : str -> Daemon -> pcfg Daemon) : list (string * handler) :=
  boolean_handlers ++ option_handlers ++ number_handlers ++ text_handlers ++ server_handlers ++ record_handlers ++ dhcp_handlers ++
  [("conf-dir"%string, required (fun v _ d => conf_dir v d))].
Definition apply_line (conf_dir : str -> Daemon -> pcfg Daemon) (d : Daemon) (cl : ConfigLine) : pcfg Daemon :=
  match entry (cl_key cl) (HANDLERS conf_dir) with
  | Some h => h cl d
  | None => fail (UnknownOption (cl_key cl) (cl_file cl) (cl_line cl))
  end.

(** ** Defaults that depend on the configuration *)

Definition apply_doing_ra_default (d : Daemon) : Daemon :=
  match d_dhcp6 d with
  | [] => d
  | _ => d <| d_doing_ra := option_bool OPT_RA d || existsb (fun c => flag_contains (cx_flags c) ContextFlags.RA) (d_dhcp6 d) |>
  end.
Definition apply_tftp_defaults (d : Daemon) : Daemon := if d_tftp_max d =? 0 then d <| d_tftp_max := TFTP_MAX_CONNECTIONS_DEFAULT |> else d.
Definition apply_dhcp_leasefile_default (d : Daemon) : Daemon :=
  match d_lease_file d with
  | Some _ => d
  | None => if negb (length (d_dhcp d) =? 0)%nat || negb (length (d_dhcp6 d) =? 0)%nat then d <| d_lease_file := Some DEFAULT_LEASEFILE |> else d
  end.
Definition apply_dnssec_fast_retry_defaults (d : Daemon) : Daemon :=
  if option_bool OPT_DNSSEC_VALID d && (d_fast_retry_time d =? 0) then
    d <| d_fast_retry_timeout := UPSTREAM_TIMEOUT_SECS |> <| d_fast_retry_time := DEFAULT_FAST_RETRY_MS |>
  else d.
(** [n as i32]. *)
Definition as_i32 (n : Z) : Z := (n + 2 ^ 31) mod 2 ^ 32 - 2 ^ 31.
#[global] Instance HostRecord_settable : Settable HostRecord := fun r => mkHost (hr_ttl r) (hr_flags r) (hr_names r) (hr_addr4 r) (hr_addr6 r).
#[global] Instance CnameRec_settable : Settable CnameRec := fun r => mkCnameRec (cn_ttl r) (cn_flag r) (cn_alias r) (cn_target r).
#[global] Instance MxSrvRecord_settable : Settable MxSrvRecord := fun r =>
  mkMxSrv (mx_name r) (mx_target r) (mx_is_srv r) (mx_srv_port r) (mx_priority r) (mx_weight r) (mx_offset r).
Definition apply_local_ttl_defaults (d : Daemon) : Daemon :=
  let ttl_of ttl := if ttl =? -1 then as_i32 (d_local_ttl d) else ttl in
  d <| d_host_records ::= fmap (fun h => h <| hr_ttl ::= ttl_of |>) |> <| d_cnames ::= fmap (fun c => c <| cn_ttl ::= ttl_of |>) |>.
Context (gethostname : option str).
(** [fn local_hostname_for_mx]: the system's name, lossily read. *)
Definition local_hostname_for_mx : option str := let! h := gethostname in let! s := canonicalise_opt h in filled (Some s).
Definition runtime_error (key reason : string) : ConfigError := invalid_value (bs "<runtime>") 0 (bs key) [] (bs reason).
Definition apply_mx_defaults (d : Daemon) : cfg Daemon :=
  if negb (option_bool OPT_LOCALMX d) && (length (d_mxnames d) =? 0)%nat && negb (bool_decide (is_Some (d_mxtarget d))) then Ok d
  else
    let? hostname := ok_or local_hostname_for_mx (runtime_error "mx-target" "failed to determine local hostname") in
    let named mx := negb (mx_is_srv mx) && eq_ignore_ascii_case (mx_name mx) hostname in
    let d := if (bool_decide (is_Some (d_mxtarget d)) || option_bool OPT_LOCALMX d) && negb (existsb named (d_mxnames d)) then
               d <| d_mxnames ::= push (mkMxSrv hostname [] false 0 1 0 0) |>
             else d in
    let target := default hostname (d_mxtarget d) in
    let fill mx := if negb (mx_is_srv mx) && (length (mx_target mx) =? 0)%nat then mx <| mx_target := target |> else mx in
    Ok (d <| d_mxtarget := Some target |> <| d_mxnames ::= fmap fill |>).
Definition apply_auth_defaults (d : Daemon) : Daemon :=
  match d_hostmaster d, d_authserver d with
  | None, Some authserver => d <| d_hostmaster := Some (bs "hostmaster." ++ authserver) |>
  | _, _ => d
  end.
Definition apply_local_service_defaults (d : Daemon) : Daemon :=
  if negb (length (d_if_names d) =? 0)%nat || negb (length (d_if_except d) =? 0)%nat || negb (length (d_if_addrs d) =? 0)%nat
     || bool_decide (is_Some (d_authserver d)) then clear_option OPT_LOCALHOST_SERVICE (clear_option OPT_LOCAL_SERVICE d)
  else if option_bool OPT_LOCALHOST_SERVICE d && negb (option_bool OPT_LOCAL_SERVICE d) then
    set_option OPT_NOWILD (d <| d_if_names ::= push (mkIname None None 0) |>)
  else d.
Definition validate_auth_config (d : Daemon) : cfg unit :=
  if negb (length (d_auth_zones d) =? 0)%nat && negb (bool_decide (is_Some (d_authserver d))) then
    Err (runtime_error "auth-server" "--auth-server required when an auth zone is defined")
  else Ok tt.
Definition normalize_config (d : Daemon) : cfg Daemon :=
  let d := apply_local_ttl_defaults (apply_dnssec_fast_retry_defaults d) in
  let? d := apply_mx_defaults d in
  let d := apply_tftp_defaults (apply_doing_ra_default (apply_dhcp_leasefile_default (apply_local_service_defaults (apply_auth_defaults d)))) in
  let? _ := validate_auth_config d in
  Ok d.

(** ** Files and directories *)

Context `{FileSystem}.
Definition apply_lines (conf_dir : str -> Daemon -> pcfg Daemon) (ls : list ConfigLine) (d : Daemon) : pcfg Daemon :=
  let% d := try_foldp (apply_line conf_dir) d ls in Val (normalize_config d).
(** The order of names. *)
Fixpoint name_leb (a b : str) : bool :=
  match a, b with
  | [], _ => true
  | _ :: _, [] => false
  | x :: a, y :: b => if u8z x <? u8z y then true else if u8z y <? u8z x then false else name_leb a b
  end.
Definition name_le (a b : str) : Prop := name_leb a b = true.
#[global] Instance name_le_dec : RelDecision name_le := fun a b => decide (name_leb a b = true).
Definition conf_file_name (name : str) : bool := negb (ends_with (bs "~") name) && (ends_with (bs ".conf") name || negb (contains_byte dot name)).
(** [Path::join] with a file name. *)
Definition join_path (dir name : str) : str :=
  if (length dir =? 0)%nat || ends_with (bs "/") dir then dir ++ name else dir ++ [slash] ++ name.
(** The paths of a directory that pass a filter, sorted. *)
Definition dir_files (keep : str -> bool) (dir : str) : cfg (list str) :=
  match read_dir dir with
  | Err e => Err (Io e)
  | Ok names => Ok (join_path dir <$> merge_sort name_le (List.filter keep names))
  end.
Definition read_opts_with (conf_dir : str -> Daemon -> pcfg Daemon) (d : Daemon) (path : str) : pcfg Daemon :=
  match read_to_string path with
  | Err e => fail (Io (path ++ bs ": " ++ e))
  | Ok t => let% ls := Val (parse_config_text t path) in apply_lines conf_dir ls d
  end.
(** A directory of configuration files may hold files that name directories:
    [stack] is how deep the calls may nest, and a call beyond overflows the
    stack. *)
Fixpoint load_conf_dir (stack : nat) (dir : str) (d : Daemon) : pcfg Daemon :=
  match stack with
  | O => Panic
  | S stack =>
    let% paths := Val (dir_files conf_file_name dir) in
    try_foldp (read_opts_with (load_conf_dir stack)) d paths
  end.
Definition read_opts (stack : nat) : Daemon -> str -> pcfg Daemon := read_opts_with (load_conf_dir stack).
Definition apply_config (stack : nat) : list ConfigLine -> Daemon -> pcfg Daemon := apply_lines (load_conf_dir stack).
Definition seed_startup_defaults (d : Daemon) : Daemon := d <| d_username := Some CHUSER |> <| d_runfile := Some RUNFILE |>.
Definition resolve_config (stack : nat) (ls : list ConfigLine) : pcfg Daemon := apply_config stack ls (seed_startup_defaults daemon_default).
End Apply.
