(* ===== verification/ConfigDirs.v ===== *)
(** * Watched configuration: zone, network and bank files, and the command line

    The directories of src/src/zones_d.rs and src/src/networks_d.rs with the
    directives src/src/option.rs allows in them, the host and option files of
    [reread_dhcp], and the command line as directives. *)

From Stdlib Require Import ZArith Lia String.
From stdpp Require Import base numbers list option sorting.
From S2P Require Import Prelude Types StdText Records DhcpTypes RecordSet Daemon ConfigText ConfigDns ConfigRecords ConfigDhcp ConfigApply.
From S2P Require Server.

#[local] Open Scope Z_scope.

(** ** Directives allowed in a zone or network file *)

Definition value_of {A} (p : str -> ConfigLine -> cfg A) (cl : ConfigLine) : cfg A := let? v := require_value cl (cl_key cl) in p v cl.
Definition value_ofp {A} (p : str -> ConfigLine -> pcfg A) (cl : ConfigLine) : pcfg A := let% v := Val (require_value cl (cl_key cl)) in p v cl.
Definition not_allowed (cl : ConfigLine) (reason : string) : ConfigError := invalid_value_for cl (cl_key cl) (default [] (cl_value cl)) (bs reason).
Inductive ZoneKey : Type := KHost | KCname | KTxt | KSrv | KMx | KNaptr | KPtr | KAddress.
Definition ZONE_KEYS : list (string * ZoneKey) :=
  [("host-record", KHost); ("cname", KCname); ("txt-record", KTxt); ("srv-host", KSrv); ("mx-host", KMx); ("naptr-record", KNaptr);
   ("ptr-record", KPtr); ("address", KAddress)]%string.
Definition zone_uids (rand : nat -> Z) (z : ZonesDRecords) : nat -> Z := fun i => rand (length (zd_address_server_list z) + i)%nat.
Definition apply_zone_directive (rand : nat -> Z) (z : ZonesDRecords) (cl : ConfigLine) : cfg ZonesDRecords :=
  match entry (cl_key cl) ZONE_KEYS with
  | Some KHost => let? r := value_of parse_host_record cl in Ok (z <| zd_host_records ::= push r |>)
  | Some KCname =>
    let? l := value_of (fun v cl => parse_cname_records v cl (zd_cnames z)) cl in Ok (z <| zd_cnames ::= extend l |>)
  | Some KTxt => let? r := value_of parse_txt_record cl in Ok (z <| zd_txt_records ::= push r |>)
  | Some KSrv => let? r := value_of parse_srv_host cl in Ok (z <| zd_mx_records ::= push r |>)
  | Some KMx => let? r := value_of parse_mx_host cl in Ok (z <| zd_mx_records ::= push r |>)
  | Some KNaptr => let? r := value_of parse_naptr_record cl in Ok (z <| zd_naptr_records ::= push r |>)
  | Some KPtr => let? r := value_of parse_ptr_record cl in Ok (z <| zd_ptr_records ::= push r |>)
  | Some KAddress =>
    let? l := value_of (build_server_or_address_entries (zone_uids rand z) (bs "address")) cl in
    Ok (z <| zd_address_server_list ::= extend l |>)
  | None => Err (not_allowed cl "directive is not allowed in a zones-dir file")
  end.

Inductive NetworkKey : Type := KRange | KRelay (split_relay : bool) | KDhcpHost | KOption.
Definition NETWORK_KEYS : list (string * NetworkKey) :=
  [("dhcp-range", KRange); ("dhcp-relay", KRelay false); ("dhcp-split-relay", KRelay true); ("dhcp-host", KDhcpHost); ("dhcp-option", KOption)]%string.
Definition network_relay (split_relay : bool) (v : str) (cl : ConfigLine) : cfg DhcpRelay :=
  let? r := parse_dhcp_relay v cl split_relay in
  match r with
  | RelayV4 r => Ok r
  | RelayV6 _ => Err (invalid_value_for cl (cl_key cl) v (bs "IPv6 relays are not supported in a networks-dir file"))
  end.
Definition apply_network_directive (n : NetworksDRecords) (cl : ConfigLine) : pcfg NetworksDRecords :=
  match entry (cl_key cl) NETWORK_KEYS with
  | Some KRange => let% c := Val (value_of parse_dhcp_range cl) in done_ (n <| nd_contexts ::= push c |>)
  | Some (KRelay split_relay) => let% r := Val (value_of (network_relay split_relay) cl) in done_ (n <| nd_relay4 ::= push r |>)
  | Some KDhcpHost => let% c := value_ofp parse_dhcp_host cl in done_ (n <| nd_configs ::= push c |>)
  | Some KOption => let% o := value_ofp (fun v cl => parse_dhcp_option v cl (bs "dhcp-option") 0) cl in done_ (n <| nd_dhcp_opts ::= push o |>)
  | None => fail (not_allowed cl "directive is not allowed in a networks-dir file")
  end.

(** ** The directories *)

Definition zones_extend (a b : ZonesDRecords) : ZonesDRecords :=
  mkZonesD (zd_host_records a ++ zd_host_records b) (zd_cnames a ++ zd_cnames b) (zd_txt_records a ++ zd_txt_records b)
    (zd_mx_records a ++ zd_mx_records b) (zd_naptr_records a ++ zd_naptr_records b) (zd_ptr_records a ++ zd_ptr_records b)
    (zd_address_server_list a ++ zd_address_server_list b).
Definition networks_extend (a b : NetworksDRecords) : NetworksDRecords :=
  mkNetworksD (nd_contexts a ++ nd_contexts b) (nd_relay4 a ++ nd_relay4 b) (nd_configs a ++ nd_configs b) (nd_dhcp_opts a ++ nd_dhcp_opts b).
(** [fn is_ignorable_filename] of src/src/inotify.rs. *)
Definition is_ignorable_filename (name : str) : bool :=
  (length name =? 0)%nat || has_prefix (bs ".") name || ends_with (bs "~") name
  || ((2 <=? length name)%nat && has_prefix (bs "#") name && ends_with (bs "#") name).

Section Directories.
Context `{FileSystem} (rand : nat -> Z).

Definition file_lines (path : str) : cfg (list ConfigLine) :=
  match read_to_string path with Err e => Err (Io (path ++ bs ": " ++ e)) | Ok t => parse_config_text t path end.
Definition parse_zone_file (path : str) : cfg ZonesDRecords :=
  let? ls := file_lines path in try_fold (apply_zone_directive rand) zones_d_empty ls.
Definition parse_network_file (path : str) : pcfg NetworksDRecords :=
  let% ls := Val (file_lines path) in try_foldp apply_network_directive networks_d_empty ls.
(** The files of a directory, and none of one that cannot be read. *)
Definition watched_files (dir : str) : list str :=
  match dir_files (fun n => negb (is_ignorable_filename n)) dir with Ok paths => paths | Err _ => [] end.
Definition dirs_of (flag : Z) (d : Daemon) : list str := dd_dname <$> List.filter (fun dd => flag_contains (dd_flags dd) flag) (d_dynamic_dirs d).
Definition add_zone_file (aggregate : ZonesDRecords) (path : str) : ZonesDRecords :=
  match parse_zone_file path with Ok records => zones_extend aggregate records | Err _ => aggregate end.
Definition rescan_zones_dirs (d : Daemon) : Daemon :=
  d <| d_zones_d := foldl add_zone_file zones_d_empty (dirs_of DynDirFlags.ZONES d ≫= watched_files) |>.
Fixpoint add_network_files (aggregate : NetworksDRecords) (paths : list str) : outcome NetworksDRecords :=
  match paths with
  | [] => Val aggregate
  | path :: paths =>
    let# r := parse_network_file path in
    add_network_files (match r with Ok records => networks_extend aggregate records | Err _ => aggregate end) paths
  end.
Definition networks_d_records (d : Daemon) : outcome NetworksDRecords :=
  add_network_files networks_d_empty (dirs_of DynDirFlags.NETWORKS d ≫= watched_files).

(** ** Host and option files *)

(** A bad line is skipped. *)
Fixpoint bank_lines {T} (parse_line : str -> ConfigLine -> pcfg T) (path key : str) (lineno : nat) (ls : list str) : outcome (list T) :=
  match ls with
  | [] => Val []
  | raw :: ls =>
    let line := trim raw in
    if (length line =? 0)%nat || has_prefix (bs "#") line then bank_lines parse_line path key (S lineno) ls
    else
      let# r := parse_line line (mkLine key (Some line) path lineno) in
      let# rest := bank_lines parse_line path key (S lineno) ls in
      Val (match r with Ok v => v :: rest | Err _ => rest end)
  end.
Definition read_dhcp_bank_file {T} (path key : str) (parse_line : str -> ConfigLine -> pcfg T) : outcome (list T) :=
  match read_to_string path with Err _ => Val [] | Ok t => bank_lines parse_line path key 1 (lines t) end.
Fixpoint bank_files {T} (key : str) (parse_line : str -> ConfigLine -> pcfg T) (files : list HostsFile) : outcome (list T) :=
  match files with
  | [] => Val []
  | hf :: files =>
    if flag_contains (hf_flags hf) DynDirFlags.INACTIVE then bank_files key parse_line files
    else
      let# here := read_dhcp_bank_file (hf_fname hf) key parse_line in
      let# rest := bank_files key parse_line files in
      Val (here ++ rest)
  end.
Definition bank_host (c : DhcpConfig) : DhcpConfig := c <| cf_flags ::= fun f => flag_add f ConfigFlags.BANK |>.
Definition bank_opt (o : DhcpOpt) : DhcpOpt := set_o_flags (flag_add (o_flags o) DhOptFlags.BANK) o.
Definition reread_dhcp (d : Daemon) : outcome Daemon :=
  let# hosts := bank_files (bs "dhcp-host") parse_dhcp_host (d_dhcp_hosts_file d) in
  let# opts := bank_files (bs "dhcp-option") (fun v cl => parse_dhcp_option v cl (bs "dhcp-option") 0) (d_dhcp_opts_file d) in
  Val (d <| d_dhcp_conf ::= fun l => List.filter (fun c => negb (flag_contains (cf_flags c) ConfigFlags.BANK)) l ++ (bank_host <$> hosts) |>
         <| d_dhcp_opts ::= fun l => List.filter (fun o => negb (flag_contains (o_flags o) DhOptFlags.BANK)) l ++ (bank_opt <$> opts) |>).
End Directories.

(** ** The command line *)

(** The arguments that become directives. *)
Record CliArgs : Type := mkCli {
  cli_port : option Z; cli_query_port : option Z; cli_min_port : option Z; cli_max_port : option Z; no_resolv : bool; no_poll : bool;
  no_hosts : bool; bogus_priv : bool; expand_hosts : bool; log_queries_flag : bool; no_negcache : bool; all_servers : bool; strict_order : bool;
  dnssec : bool; local_service : bool; no_rebind : bool; no_daemon : bool; keep_in_foreground : bool; bind_interfaces : bool;
  dnssec_debug : bool; cli_cache_size : option Z; cli_local_ttl : option Z; cli_neg_ttl : option Z; cli_max_ttl : option Z;
  cli_min_cache_ttl : option Z; cli_max_cache_ttl : option Z; cli_use_stale_cache : option Z; cli_edns_packet_max : option Z;
  cli_fast_dns_retry : option str; cli_domain : option str; cli_user : option str; cli_group : option str; cli_pid_file : option str;
  cli_log_facility : option str; cli_log_async : option Z; cli_servers_file : option str; cli_lease_file : option str;
  cli_dns_forward_max : option Z; cli_dhcp_alternate_port : option str; cli_resolv_file : list str; cli_interface : list str;
  cli_except_interface : list str; cli_listen_address : list str; cli_server : list str; cli_rev_server : list str;
  cli_synth_domain : list str; cli_bridge_interface : list str; cli_shared_network : list str;
}.
Definition cli_line (key : string) (value : option str) : ConfigLine := mkLine (bs key) value (bs "<cli>") 0.
Definition cli_flag (b : bool) (key : string) : list ConfigLine := if b then [cli_line key None] else [].
Definition cli_value (v : option str) (key : string) : list ConfigLine := match v with Some v => [cli_line key (Some v)] | None => [] end.
Definition cli_num (n : option Z) (key : string) : list ConfigLine := cli_value (fmt_i <$> n) key.
Definition cli_values (vs : list str) (key : string) : list ConfigLine := (fun v => cli_line key (Some v)) <$> vs.
Definition config_lines_from_cli (a : CliArgs) : list ConfigLine :=
  cli_num (cli_port a) "port" ++ cli_num (cli_query_port a) "query-port" ++ cli_num (cli_min_port a) "min-port" ++ cli_num (cli_max_port a) "max-port" ++
  cli_flag (no_resolv a) "no-resolv" ++ cli_flag (no_poll a) "no-poll" ++ cli_flag (no_hosts a) "no-hosts" ++
  cli_flag (bogus_priv a) "bogus-priv" ++ cli_flag (expand_hosts a) "expand-hosts" ++ cli_flag (log_queries_flag a) "log-queries" ++
  cli_flag (no_negcache a) "no-negcache" ++ cli_flag (all_servers a) "all-servers" ++ cli_flag (strict_order a) "strict-order" ++
  cli_flag (dnssec a) "dnssec" ++ cli_flag (local_service a) "local-service" ++ cli_flag (no_rebind a) "no-rebind" ++
  cli_flag (no_daemon a) "no-daemon" ++ cli_flag (keep_in_foreground a) "keep-in-foreground" ++
  cli_flag (bind_interfaces a) "bind-interfaces" ++ cli_flag (dnssec_debug a) "dnssec-debug" ++
  cli_num (cli_cache_size a) "cache-size" ++ cli_num (cli_local_ttl a) "local-ttl" ++ cli_num (cli_neg_ttl a) "neg-ttl" ++
  cli_num (cli_max_ttl a) "max-ttl" ++ cli_num (cli_min_cache_ttl a) "min-cache-ttl" ++ cli_num (cli_max_cache_ttl a) "max-cache-ttl" ++
  cli_num (cli_use_stale_cache a) "use-stale-cache" ++ cli_num (cli_edns_packet_max a) "edns-packet-max" ++
  cli_value (cli_fast_dns_retry a) "fast-dns-retry" ++ cli_value (cli_domain a) "domain" ++ cli_value (cli_user a) "user" ++
  cli_value (cli_group a) "group" ++ cli_value (cli_pid_file a) "pid-file" ++ cli_value (cli_log_facility a) "log-facility" ++
  cli_num (cli_log_async a) "log-async" ++ cli_value (cli_servers_file a) "servers-file" ++ cli_value (cli_lease_file a) "lease-file" ++
  cli_num (cli_dns_forward_max a) "dns-forward-max" ++ cli_value (cli_dhcp_alternate_port a) "dhcp-alternate-port" ++
  cli_values (cli_resolv_file a) "resolv-file" ++ cli_values (cli_interface a) "interface" ++
  cli_values (cli_except_interface a) "except-interface" ++ cli_values (cli_listen_address a) "listen-address" ++
  cli_values (cli_server a) "server" ++ cli_values (cli_rev_server a) "rev-server" ++ cli_values (cli_synth_domain a) "synth-domain" ++
  cli_values (cli_bridge_interface a) "bridge-interface" ++ cli_values (cli_shared_network a) "shared-network".
