(* ===== verification/ConfigSpec.v ===== *)
(** * Properties of the configuration

    What every configuration that is accepted has: numbers within their widths
    and bounds, records that can be answered, and the defaults that depend on
    other directives. The proof goes over the tables of handlers. *)

From Stdlib Require Import ZArith Lia String.
From stdpp Require Import base numbers list option.
From S2P Require Import Prelude Types StdText Records DhcpTypes RecordSet Daemon ConfigText ConfigDns ConfigRecords ConfigDhcp ConfigApply.
From S2P Require DhcpCommon Radv Forward Extract Server Domain.

#[local] Open Scope Z_scope.

(** ** Numbers read from text *)

Definition in_u16 (n : Z) : Prop := 0 <= n <= 65535.
Definition in_u32 (n : Z) : Prop := 0 <= n <= 4294967295.
Definition in_i32 (n : Z) : Prop := - 2 ^ 31 <= n <= 2 ^ 31 - 1.

Definition digit_ok (digit : u8 -> option Z) : Prop := forall b d, digit b = Some d -> 0 <= d.
Lemma dec_digit_ok : digit_ok dec_digit.
Proof. intros b d. unfold dec_digit, in_rng. case_match eqn:E; [|done]. intros [= <-]. apply andb_true_iff in E as [E _]. lia. Qed.
Lemma parse_digits_bound digit radix max acc s n : digit_ok digit -> 0 <= radix -> 0 <= acc <= max ->
  parse_digits digit radix max acc s = Some n -> 0 <= n <= max.
Proof.
  intros Hd Hr. revert acc. induction s as [|b s IH]; intros acc Ha; cbn [parse_digits]; [intros [= <-]; lia|].
  destruct (digit b) as [d|] eqn:Ed; [|done]. apply Hd in Ed. case_match eqn:E; [|done]. apply IH. apply Z.leb_le in E. nia.
Qed.
Lemma parse_uint_bound digit radix max s n : digit_ok digit -> 0 <= radix -> 0 <= max ->
  parse_uint digit radix max s = Some n -> 0 <= n <= max.
Proof.
  intros Hd Hr Hm. unfold parse_uint. destruct s as [|b [|c s]]; [done| |]; case_decide; try done; apply parse_digits_bound; (done || lia).
Qed.
Lemma parse_u16_bound s n : parse_u16 s = Some n -> in_u16 n.
Proof. apply parse_uint_bound; [apply dec_digit_ok|lia..]. Qed.
Lemma parse_u32_bound s n : parse_u32 s = Some n -> in_u32 n.
Proof. apply parse_uint_bound; [apply dec_digit_ok|lia..]. Qed.
Lemma parse_i32_bound s n : parse_i32 s = Some n -> in_i32 n.
Proof.
  unfold parse_i32, parse_int, in_i32. destruct s as [|b [|c s]]; [done| |]; case_decide; try done.
  1, 3: intros Hp; apply parse_uint_bound in Hp; [lia|apply dec_digit_ok|lia..].
  destruct (parse_digits _ _ _ _ _) as [m|] eqn:E; [|done]. intros [= <-]. apply parse_digits_bound in E; [lia|apply dec_digit_ok|lia..].
Qed.
Lemma ok_or_inv {A E} (o : option A) (e : E) x : ok_or o e = Ok x -> o = Some x.
Proof. destruct o; [by intros [= <-]|done]. Qed.
Lemma token_u16 t key cl field n : parse_u16_token t key cl field = Ok n -> in_u16 n.
Proof. intros H%ok_or_inv. by eapply parse_u16_bound. Qed.
Lemma token_u32 t key cl field n : parse_u32_token t key cl field = Ok n -> in_u32 n.
Proof. intros H%ok_or_inv. by eapply parse_u32_bound. Qed.
Lemma token_i32 t key cl field n : parse_i32_token t key cl field = Ok n -> in_i32 n.
Proof. intros H%ok_or_inv. by eapply parse_i32_bound. Qed.
Lemma base0_i32 t key cl field n : parse_i32_base0_token t key cl field = Val (Ok n) -> in_i32 n.
Proof.
  unfold parse_i32_base0_token. cbv zeta. intros Hp. repeat (case_match; try done).
  all: injection Hp as <-. all: unfold in_i32. all: match goal with H : (_ <=? _) && (_ <? _) = true |- _ => apply andb_true_iff in H; lia end.
Qed.
Lemma domain_token_nonempty t key cl s : parse_domain_token t key cl = Ok s -> s <> [].
Proof.
  intros H%ok_or_inv. destruct (canonicalise_opt t) as [r|]; [|done]. destruct r; [done|]. by injection H as <-.
Qed.
#[export] Hint Resolve parse_u16_bound parse_u32_bound parse_i32_bound token_u16 token_u32 token_i32 base0_i32 : config.

Lemma val_inj {A} (a b : A) : Val a = Val b -> a = b.
Proof. by intros [= ->]. Qed.
Lemma ok_inj {A E} (a b : A) : (Ok a : result A E) = Ok b -> a = b.
Proof. by intros [= ->]. Qed.

(** ** The invariant *)

Definition host_ok (h : HostRecord) : Prop := hr_names h <> [] /\ (is_Some (hr_addr4 h) \/ is_Some (hr_addr6 h)).
Definition mark_ok (a : Allowlist) : Prop := 1 <= al_mark a /\ in_u32 (al_mark a) /\ 1 <= al_mask a /\ in_u32 (al_mask a) /\ Z.land (al_mark a) (not32 (al_mask a)) = 0.
Definition cnames_ok (l : list CnameRec) : Prop := NoDup ((fun c => to_ascii_lowercase (cn_alias c)) <$> l).
Definition bits_ok (d : Daemon) : Prop := options_ok d /\ Forall in_u32 (d_options d).
Definition ports_ok (d : Daemon) : Prop :=
  in_u16 (d_port d) /\ in_u16 (d_query_port d) /\ in_u16 (d_min_port d) /\ in_u16 (d_max_port d) /\ in_u16 (d_edns_pktsz d) /\
  in_u16 (d_dhcp_server_port d) /\ in_u16 (d_dhcp_client_port d) /\ 0 <= d_start_tftp_port d <= d_end_tftp_port d /\ d_end_tftp_port d <= 65535.
Definition ttls_ok (d : Daemon) : Prop :=
  in_u32 (d_local_ttl d) /\ in_u32 (d_neg_ttl d) /\ in_u32 (d_max_ttl d) /\ in_u32 (d_min_cache_ttl d) /\ in_u32 (d_max_cache_ttl d) /\
  in_u32 (d_auth_ttl d) /\ in_u32 (d_dhcp_ttl d) /\ in_u32 (d_soa_sn d) /\ in_u32 (d_soa_refresh d) /\ in_u32 (d_soa_retry d) /\
  in_u32 (d_soa_expiry d).
Definition counts_ok (d : Daemon) : Prop :=
  0 <= d_cachesize d <= 5000000 /\ (d_cache_max_expiry d = -1 \/ 0 < d_cache_max_expiry d <= 2 ^ 31 - 1) /\
  (d_fast_retry_time d = 0 \/ 50 <= d_fast_retry_time d <= 2 ^ 31 - 1) /\ in_i32 (d_fast_retry_timeout d) /\ 1 <= d_randport_limit d <= 2 ^ 31 - 1 /\
  in_i32 (d_ftabsize d) /\ in_i32 (d_max_procs d) /\ in_i32 (d_max_logs d) /\ in_i32 (d_dump_mask d) /\ in_i32 (d_tftp_max d) /\
  in_i32 (d_tftp_mtu d) /\ in_i32 (d_dhcp_max d) /\ 32768 <= d_pxe_boottype_next d <= 65535.
Definition identity_ok (d : Daemon) : Prop :=
  in_u32 (d_umbrella_org d) /\ in_u32 (d_umbrella_asset d) /\ length (d_umbrella_device d) = 8%nat /\ in_u32 (d_duid_enterprise d).
Definition records_ok (d : Daemon) : Prop :=
  Forall host_ok (d_host_records d) /\ cnames_ok (d_cnames d) /\ (forall t, d_mxtarget d = Some t -> t <> []).
Definition limits_ok (d : Daemon) : Prop :=
  in_u32 (d_allowlist_mask d) /\ Forall mark_ok (d_allowlists d) /\ length (d_dnssec_limits d) = LIMIT_MAX /\ Forall in_i32 (d_dnssec_limits d).
Definition config_ok (d : Daemon) : Prop :=
  bits_ok d /\ ports_ok d /\ ttls_ok d /\ counts_ok d /\ identity_ok d /\ records_ok d /\ limits_ok d.
Definition handler_ok (h : handler) : Prop := forall cl d d', config_ok d -> h cl d = Val (Ok d') -> config_ok d'.
(** A store: to a field the invariant says nothing of, or to fields of some of
    the groups, whose parts are then solved one by one. *)
Ltac bounds := repeat match goal with
  | H : parse_u16 _ = Some _ |- _ => apply parse_u16_bound in H
  | H : parse_u32 _ = Some _ |- _ => apply parse_u32_bound in H
  | H : parse_i32 _ = Some _ |- _ => apply parse_i32_bound in H
  | H : ok_or _ _ = Ok _ |- _ => apply ok_or_inv in H
  | H : parse_u16_token _ _ _ _ = Ok _ |- _ => apply token_u16 in H
  | H : parse_u32_token _ _ _ _ = Ok _ |- _ => apply token_u32 in H
  | H : parse_i32_token _ _ _ _ = Ok _ |- _ => apply token_i32 in H
  | H : parse_i32_base0_token _ _ _ _ = Val (Ok _) |- _ => apply base0_i32 in H
  end.
Ltac leaf := first [assumption | cbn; solve [eauto with config] | cbn; unfold in_u16, in_u32, in_i32, UPSTREAM_TIMEOUT_SECS, DEFAULT_FAST_RETRY_MS, STALE_CACHE_EXPIRY_SECS, TFTP_MAX_CONNECTIONS_DEFAULT in *; lia | idtac].
Ltac group H := first [exact H | unfold bits_ok, ports_ok, ttls_ok, counts_ok, identity_ok, records_ok, limits_ok in *; destruct_and? H;
  repeat match goal with |- _ /\ _ => split end; leaf].
Ltac stored := match goal with
  | H : config_ok ?d |- config_ok _ =>
    first [exact H
          | bounds; let B := fresh in let P := fresh in let T := fresh in let C := fresh in let I := fresh in let R := fresh in let L := fresh in
            destruct H as (B & P & T & C & I & R & L);
            split; [group B | split; [group P | split; [group T | split; [group C | split; [group I | split; [group R | group L]]]]]]]
  end.
Lemma u32_bits w : in_u32 w <-> 0 <= w /\ forall i, 32 <= i -> Z.testbit w i = false.
Proof.
  unfold in_u32. change 4294967295 with (2 ^ 32 - 1). split.
  - intros H. split; [lia|]. intros i Hi. destruct (decide (w = 0)) as [->|]; [apply Z.bits_0|]. apply Z.bits_above_log2; [lia|].
    apply Z.log2_lt_pow2; [lia|]. pose proof (Z.pow_le_mono_r 2 32 i). lia.
  - intros [H0 H]. split; [done|]. destruct (decide (w = 0)) as [->|]; [lia|]. apply Z.lt_le_pred, Z.log2_lt_pow2; [lia|].
    destruct (Z.lt_ge_cases (Z.log2 w) 32) as [|Hl]; [done|]. specialize (H _ Hl). rewrite Z.bit_log2 in H by lia. done.
Qed.
Lemma word_set w i : in_u32 w -> in_u32 (Z.lor w (2 ^ Z.of_nat (i mod 32))).
Proof.
  rewrite !u32_bits. intros [H0 H]. pose proof (Nat.mod_upper_bound i 32 ltac:(lia)). split.
  - apply Z.lor_nonneg. split; [done|]. apply Z.pow_nonneg. lia.
  - intros j Hj. rewrite Z.lor_spec, H, Z.pow2_bits_false by lia. done.
Qed.
Lemma word_clear w i : in_u32 w -> in_u32 (Z.ldiff w (2 ^ Z.of_nat (i mod 32))).
Proof.
  rewrite !u32_bits. intros [H0 H]. split; [apply Z.ldiff_nonneg; by left|]. intros j Hj. by rewrite Z.ldiff_spec, H.
Qed.
Lemma set_option_in_ok o d : config_ok d -> config_ok (set_option o d).
Proof.
  intros [[Ho Hf] H]. split; [split|exact H]; [by apply set_option_ok|].
  apply Forall_alter; [done|]. intros w _. apply word_set.
Qed.
Lemma clear_option_in_ok o d : config_ok d -> config_ok (clear_option o d).
Proof.
  intros [[Ho Hf] H]. split; [split|exact H]; [by apply clear_option_ok|].
  apply Forall_alter; [done|]. intros w _. apply word_clear.
Qed.
Lemma sets_ok os d : config_ok d -> config_ok (sets os d).
Proof. revert d. induction os as [|o os IH]; intros d H; [done|]. apply IH. by apply set_option_in_ok. Qed.

(** ** Handlers *)

Lemma set_handler o : handler_ok (set_ o).
Proof. intros cl d d' H [= <-]. by apply set_option_in_ok. Qed.
Lemma required_handler f : (forall v, handler_ok (f v)) -> handler_ok (required f).
Proof. intros Hf cl d d' H. unfold required. destruct (require_value _ _); [|done]. by apply Hf. Qed.
Lemma parsedp_handler {A} (p : str -> ConfigLine -> pcfg A) store :
  (forall v cl a d, p v cl = Val (Ok a) -> config_ok d -> config_ok (store a d)) -> handler_ok (parsedp p store).
Proof.
  intros Hs. apply required_handler. intros v cl d d' H. destruct (p v cl) as [[a|]|] eqn:E; try done. intros [= <-]. by eapply Hs.
Qed.
Lemma parsed_handler {A} (p : str -> ConfigLine -> cfg A) store :
  (forall v cl a d, p v cl = Ok a -> config_ok d -> config_ok (store a d)) -> handler_ok (parsed p store).
Proof. intros Hs. apply parsedp_handler. intros v cl a d [= E]. by eapply Hs. Qed.
Lemma text_handler store : (forall v d, config_ok d -> config_ok (store v d)) -> handler_ok (text store).
Proof. intros Hs. apply parsed_handler. intros v cl a d _. apply Hs. Qed.
Lemma updated_handler f : (forall d v cl d', config_ok d -> f d v cl = Ok d' -> config_ok d') -> handler_ok (updated f).
Proof. intros Hf. apply required_handler. intros v cl d d' H [= E]. by eapply Hf. Qed.
Lemma without_value_handler o : handler_ok (without_value o).
Proof. intros cl d d' H. unfold without_value. destruct (require_no_value _ _); [|done]. intros [= <-]. by apply set_option_in_ok. Qed.
Lemma choice_handler options reason : handler_ok (choice options reason).
Proof.
  intros cl d d' H. unfold choice. destruct (List.find _ _) as [[? os]|].
  - intros [= <-]. by apply sets_ok.
  - destruct (cl_value cl); [done|]. by intros [= <-].
Qed.
Lemma number_handler parse reason store : (forall s n d, parse s = Some n -> config_ok d -> config_ok (store n d)) -> handler_ok (number parse reason store).
Proof. intros Hs. apply parsed_handler. intros v cl a d E%ok_or_inv. by eapply Hs. Qed.
Lemma token_handler parse field store :
  (forall t key cl f n d, parse t key cl f = Ok n -> config_ok d -> config_ok (store n d)) -> handler_ok (token parse field store).
Proof. intros Hs. apply parsed_handler. intros v cl a d E. by eapply Hs. Qed.
(** Take apart what a handler computed. *)
Ltac steps := repeat match goal with
  | |- Val (Ok _) = Val (Ok _) -> _ => let E := fresh in intros E; apply val_inj, ok_inj in E; try subst
  | |- Ok _ = Ok _ -> _ => let E := fresh in intros E; apply ok_inj in E; try subst
  | |- Val (Err _) = _ -> _ => done
  | |- Err _ = _ -> _ => done
  | |- Panic = _ -> _ => done
  | |- (match ?x with _ => _ end) = _ -> _ => let E := fresh in destruct x eqn:E
  | |- Val (match ?x with _ => _ end) = _ -> _ => let E := fresh in destruct x eqn:E
  end.
(** and what its parsers did. *)
Ltac parts := steps; repeat match goal with
  | H : Err _ = Ok _ |- _ => discriminate H
  | H : Val _ = Val _ |- _ => apply val_inj in H
  | H : Ok _ = Ok _ |- _ => apply ok_inj in H; try (first [subst | idtac])
  | H : (_, _) = (_, _) |- _ => apply pair_equal_spec in H; destruct H; try subst
  | H : (match ?x with _ => _ end) = Ok _ |- _ => let E := fresh in destruct x eqn:E
  end.
Ltac entries := repeat match goal with |- Forall _ [] => constructor | |- Forall _ (_ :: _) => constructor; [cbn [snd]|] end.
#[local] Hint Resolve set_handler without_value_handler choice_handler set_option_in_ok : config.

Lemma boolean_handlers_ok : Forall (fun e => handler_ok (snd e)) boolean_handlers.
Proof. apply Forall_fmap, Forall_true. intros [k o]. apply set_handler. Qed.
Lemma local_ttl_handler : handler_ok local_ttl.
Proof.
  intros cl d d' H. unfold local_ttl. destruct (cl_value cl); [|by intros [= <-]]. apply number_handler; [|done]. intros; stored.
Qed.
Lemma quot_i32 n : in_i32 n -> in_i32 (Z.quot n 1000).
Proof. unfold in_i32. intros [H1 H2]. Z.to_euclidean_division_equations. lia. Qed.
#[local] Hint Resolve quot_i32 : config.
Lemma fast_dns_retry_handler : handler_ok fast_dns_retry.
Proof. intros cl d d' H. unfold fast_dns_retry. steps. all: stored. Qed.
Lemma use_stale_cache_handler : handler_ok use_stale_cache.
Proof.
  intros cl d d' H. unfold use_stale_cache. parts; stored. all: cbn; repeat case_match; unfold in_i32, STALE_CACHE_EXPIRY_SECS in *; lia.
Qed.
Lemma log_async_handler : handler_ok log_async.
Proof. intros cl d d' H. unfold log_async. steps; stored. Qed.
Lemma dumpmask_handler : handler_ok dumpmask.
Proof. apply parsedp_handler. intros v cl n d E H. stored. Qed.
Lemma port_limit_handler : handler_ok port_limit.
Proof. apply parsed_handler. intros v cl n d. cbv zeta. parts. intros Hok. stored. Qed.
Lemma set_limits_ok parts idx cl l l' : Forall in_i32 l -> set_limits parts idx cl l = Ok l' -> length l' = length l /\ Forall in_i32 l'.
Proof.
  revert idx l. induction parts as [|p parts IH]; intros idx l Hl; cbn [set_limits]; [by intros [= <-]|].
  destruct (parse_i32_token _ _ _ _) as [n|] eqn:E; [|done]. apply token_i32 in E. intros Hs%IH.
  - destruct Hs as [-> ?]. split; [|done]. case_match; [done|apply list.length_insert].
  - case_match; [done|by apply Forall_insert].
Qed.
Lemma dnssec_limits_handler : handler_ok dnssec_limits.
Proof.
  apply updated_handler. intros d v cl d' H. unfold parse_dnssec_limits. parts. destruct H as (B & P & T & C & I & R & L1 & L2 & L3 & L4).
  match goal with E : set_limits _ _ _ _ = Ok _ |- _ => apply set_limits_ok in E as [El ?]; [|done] end.
  unfold config_ok. repeat (split; [assumption|]). split; [by rewrite <- L3|assumption].
Qed.
#[local] Hint Resolve local_ttl_handler fast_dns_retry_handler use_stale_cache_handler log_async_handler dumpmask_handler port_limit_handler
  dnssec_limits_handler : config.
Lemma number_handlers_ok : Forall (fun e => handler_ok (snd e)) number_handlers.
Proof.
  unfold number_handlers. entries; first [solve [eauto with config] | first [apply number_handler | apply token_handler]; intros; stored].
  all: cbn; unfold cache_size; lia.
Qed.

Lemma log_queries_handler : handler_ok log_queries.
Proof. intros cl d d' H. unfold log_queries. steps. by apply sets_ok. Qed.
Lemma enable_tftp_handler : handler_ok enable_tftp.
Proof.
  intros cl d d' H. unfold enable_tftp. apply (set_option_in_ok OPT_TFTP) in H. parts; [exact H|exact H].
Qed.
Lemma try_fold_ok {A} (f : Daemon -> A -> cfg Daemon) l d d' :
  (forall d x d', config_ok d -> f d x = Ok d' -> config_ok d') -> config_ok d -> try_fold f d l = Ok d' -> config_ok d'.
Proof.
  intros Hf. revert d. induction l as [|x l IH]; intros d H; cbn [try_fold]; [by intros [= <-]|].
  destruct (f d x) as [d1|] eqn:E; [|done]. apply IH. by eapply Hf.
Qed.
Lemma try_foldp_ok {A} (f : Daemon -> A -> pcfg Daemon) l d d' :
  (forall d x d', config_ok d -> f d x = Val (Ok d') -> config_ok d') -> config_ok d -> try_foldp f d l = Val (Ok d') -> config_ok d'.
Proof.
  intros Hf. revert d. induction l as [|x l IH]; intros d H; cbn [try_foldp]; [by intros [= <-]|].
  destruct (f d x) as [[d1|]|] eqn:E; [|done|done]. apply IH. by eapply Hf.
Qed.
Lemma hex_pair a b : implb (is_ascii_hexdigit a && is_ascii_hexdigit b) (bool_decide (is_Some (parse_hex_pair [a; b]))) = true.
Proof. revert a b. apply byte_forall2. by vm_compute. Qed.
Lemma hex_chunks n hex : length hex = (2 * n)%nat -> forallb is_ascii_hexdigit hex = true ->
  exists l, mapM parse_hex_pair (chunks n 2 hex) = Some l /\ length l = n.
Proof.
  revert hex. induction n as [|n IH]; intros hex Hl Hh; [by exists []|]. destruct hex as [|a [|b hex]]; try (cbn in Hl; lia).
  cbn [forallb] in Hh. rewrite !andb_true_iff in Hh. destruct Hh as (Ha & Hb & Hh). pose proof (hex_pair a b) as Hp. rewrite Ha, Hb in Hp.
  apply bool_decide_eq_true in Hp as [x Hx]. destruct (IH hex) as (l & E & <-); [cbn in Hl; lia|done|].
  exists (x :: l). split; [|done]. change (chunks (S (length l)) 2 (a :: b :: hex)) with ([a; b] :: chunks (length l) 2 hex).
  apply mapM_Some in E. apply mapM_Some. by constructor.
Qed.
Lemma umbrella_part_ok cl d p d' : config_ok d -> umbrella_part cl d p = Ok d' -> config_ok d'.
Proof.
  intros H. unfold umbrella_part. parts. 1: apply set_option_in_ok. all: stored.
  match goal with E : _ || _ = false |- _ => apply orb_false_iff in E as [El Eh] end. apply negb_false_iff in El, Eh. apply Nat.eqb_eq in El.
  edestruct (hex_chunks 8) as (bytes & Eb & Hb); [exact El|exact Eh|]. by rewrite Eb.
Qed.
Lemma umbrella_handler : handler_ok umbrella.
Proof.
  intros cl d d' H. unfold umbrella. apply (set_option_in_ok OPT_UMBRELLA) in H. parts; [|exact H]. intros E%val_inj. revert E.
  apply try_fold_ok; [|exact H]. intros. by eapply umbrella_part_ok.
Qed.
Lemma ra_param_handler : handler_ok (updated parse_ra_param).
Proof. apply updated_handler. intros d v cl d' H. unfold parse_ra_param. parts. all: exact H. Qed.
#[local] Hint Resolve log_queries_handler enable_tftp_handler umbrella_handler ra_param_handler : config.
Lemma option_handlers_ok : Forall (fun e => handler_ok (snd e)) option_handlers.
Proof.
  unfold option_handlers. entries; first [solve [eauto with config] | idtac].
  - intros cl d d' H. steps. exact H.
  - apply required_handler. intros v cl d d' H. steps. exact H.
Qed.

Lemma auth_soa_handler : handler_ok (updated parse_auth_soa).
Proof. apply updated_handler. intros d v cl d' H. unfold parse_auth_soa. parts. all: destruct (_ !! 1%nat); stored. Qed.
Lemma domain_handler : handler_ok (updated parse_domain).
Proof.
  apply updated_handler. intros d v cl d' H. unfold parse_domain. cbv zeta. parts; try exact H. case_match; [by apply set_option_in_ok|exact H].
Qed.
Lemma log_facility_handler : handler_ok log_facility.
Proof. apply required_handler. intros v cl d d' H. cbv zeta. parts. all: exact H. Qed.
Lemma add_subnet_handler : handler_ok add_subnet.
Proof.
  intros cl d d' H. unfold add_subnet. apply (set_option_in_ok OPT_CLIENT_SUBNET) in H. cbv zeta. parts; try exact H. case_match; exact H.
Qed.
Lemma alternate_port_handler : handler_ok dhcp_alternate_port.
Proof. intros cl d d' H. unfold dhcp_alternate_port, parse_dhcp_alternate_port. cbv zeta. parts. all: stored. Qed.
Lemma hosts_file_handler add : (forall f d, config_ok d -> config_ok (add f d)) -> handler_ok (hosts_file add).
Proof. intros Ha. apply text_handler. intros v d H. unfold make_hosts_file. apply Ha. exact H. Qed.
Lemma tftp_ports_handler : handler_ok (parsed parse_tftp_port_range (fun r d => d <| d_start_tftp_port := fst r |> <| d_end_tftp_port := snd r |>)).
Proof. apply parsed_handler. intros v cl r d. unfold parse_tftp_port_range. cbv zeta. parts; try subst. intros Hok. stored.
  all: cbn; case_match; cbn; unfold in_u16 in *; lia.
Qed.
#[local] Hint Resolve auth_soa_handler domain_handler log_facility_handler add_subnet_handler alternate_port_handler tftp_ports_handler : config.
Lemma text_handlers_ok : Forall (fun e => handler_ok (snd e)) text_handlers.
Proof.
  unfold text_handlers, name_handlers, address_handlers, file_handlers, interface_handlers. cbn [app]. entries; first [solve [eauto with config] | apply text_handler; intros ? ? H; exact H | apply hosts_file_handler; intros ? ? H; exact H
    | apply parsed_handler; intros ? ? ? ? ? H; exact H | idtac].
Qed.

Lemma push_domain_servers_ok rand d domains server cl key orig d' :
  config_ok d -> push_domain_servers rand d domains server cl key orig = Ok d' -> config_ok d'.
Proof. intros H. unfold push_domain_servers. parts. all: exact H. Qed.
Lemma server_handlers_ok rand nametoindex : Forall (fun e => handler_ok (snd e)) (server_handlers rand nametoindex).
Proof.
  unfold server_handlers. entries; apply updated_handler; intros d v cl d' H.
  1, 2, 3: parts; exact H.
  - unfold parse_rev_server. cbv zeta. parts. all: intros E; eapply push_domain_servers_ok; [exact H|exact E].
  - unfold parse_synth_domain. cbv zeta. parts. all: exact H.
  - unfold parse_bridge_interface. cbv zeta. parts. all: exact H.
  - unfold parse_shared_network. cbv zeta. parts. all: exact H.
Qed.

Lemma host_record_ok v cl h : parse_host_record v cl = Ok h -> host_ok h.
Proof.
  unfold parse_host_record. cbv zeta. parts; (split; [congruence|]).
  all: match goal with E : hr_addr4 _ = Some _ |- _ => rewrite E | E : hr_addr6 _ = Some _ |- _ => rewrite E end; eauto.
Qed.
Lemma cname_aliases_ok cl existing ttl target aliases out out' : cnames_ok (existing ++ out) ->
  cname_aliases cl existing ttl target aliases out = Ok out' -> cnames_ok (existing ++ out').
Proof.
  revert out. induction aliases as [|p aliases IH]; intros out Hok; cbn [cname_aliases]; [by intros [= <-]|].
  destruct (parse_domain_token _ _ _) as [alias|]; [|done]. rewrite <- existsb_app. case_match eqn:E; [done|]. apply IH.
  rewrite app_assoc. unfold cnames_ok. rewrite fmap_app. apply list.NoDup_app. split; [exact Hok|]. split; [|apply NoDup_singleton].
  intros x Hx Hin%list_elem_of_singleton. subst x. apply list_elem_of_fmap in Hx as (c & Hc & Hin). cbn in Hc.
  apply not_true_iff_false in E. apply E, existsb_exists. exists c. split; [by apply list_elem_of_In|].
  unfold eq_ignore_ascii_case. apply bool_decide_eq_true. by symmetry.
Qed.
Lemma cname_handler : handler_ok cname_.
Proof.
  apply updated_handler. intros d v cl d' H. unfold parse_cname_records. cbv zeta. parts.
  all: match goal with E : cname_aliases _ _ _ _ _ _ = Ok _ |- _ => apply cname_aliases_ok in E; [stored; exact E|] end.
  all: rewrite app_nil_r; apply H.
Qed.
Lemma leasequery_handler : handler_ok leasequery.
Proof. intros cl d d' H. unfold leasequery. apply (set_option_in_ok OPT_LEASEQUERY) in H. cbv zeta. parts. all: exact H. Qed.
Lemma allowlist_enable_handler : handler_ok connmark_allowlist_enable.
Proof.
  intros cl d d' H. unfold connmark_allowlist_enable, allowlist_mask_value. cbv zeta. parts.
  all: apply (set_option_in_ok OPT_CMARK_ALST_EN) in H. all: stored.
Qed.
Lemma allowlist_handler : handler_ok (parsed connmark_allowlist (fun a d => d <| d_allowlists ::= push a |>)).
Proof.
  apply parsed_handler. intros v cl a d. unfold connmark_allowlist. cbv zeta. parts; intros Hok; stored.
  all: apply Forall_app_2; [assumption|]; apply Forall_singleton; unfold mark_ok; cbn.
  all: repeat split; try assumption; unfold in_u32 in *; try lia.
Qed.
Lemma host_record_handler : handler_ok (parsed parse_host_record (fun r d => d <| d_host_records ::= push r |>)).
Proof.
  apply parsed_handler. intros v cl r d E%host_record_ok H. stored. apply Forall_app_2; [assumption|]. by apply Forall_singleton.
Qed.
Lemma mx_target_handler : handler_ok (parsed mx_target_token (fun v d => d <| d_mxtarget := Some v |>)).
Proof. apply parsed_handler. intros v cl t d E%domain_token_nonempty H. stored. cbn. by intros ? [= <-]. Qed.
#[local] Hint Resolve cname_handler leasequery_handler allowlist_enable_handler allowlist_handler host_record_handler mx_target_handler : config.
Lemma record_handlers_ok : Forall (fun e => handler_ok (snd e)) record_handlers.
Proof.
  unfold record_handlers, name_record_handlers, set_handlers, filter_handlers. cbn [app]. entries; first [solve [eauto with config] | apply parsed_handler; intros ? ? ? ? ? H; exact H | intros cl d d' H; steps; exact H].
Qed.

Lemma tag_gate_handler key store : (forall l d, config_ok d -> config_ok (store l d)) -> handler_ok (tag_gate key store).
Proof. intros Hs cl d d' H. unfold tag_gate. parts. all: by apply Hs. Qed.
Lemma dhcp_relay_handler b : handler_ok (dhcp_relay b).
Proof. apply parsed_handler. intros v cl [r|r] d _ H; exact H. Qed.
Lemma dhcp_duid_handler : handler_ok (parsed dhcp_duid (fun r d => d <| d_duid_enterprise := fst r |> <| d_duid_config := Some (snd r) |>)).
Proof. apply parsed_handler. intros v cl r d. unfold dhcp_duid. cbv zeta. parts. intros Hok. stored. Qed.
Lemma dhcp_proxy_handler : handler_ok dhcp_proxy.
Proof.
  intros cl d d' H. unfold dhcp_proxy. cbv zeta. parts; [|exact H]. intros E%val_inj. revert E. apply try_fold_ok; [|exact H].
  intros d1 p d2 H1. unfold proxy_addr. parts; exact H1.
Qed.
Lemma pxe_service_ok d v cl svc d' : config_ok d -> parse_pxe_service d v cl = Val (Ok (svc, d')) -> config_ok d'.
Proof.
  intros H. unfold parse_pxe_service. cbv zeta. intros E. repeat (case_match; try done).
  all: apply val_inj, ok_inj, pair_equal_spec in E as [_ E]; subst. all: repeat match goal with Hp : Val _ = Val _ |- _ => apply val_inj in Hp end.
  all: repeat match goal with Hp : (_, _) = (_, _) |- _ => apply pair_equal_spec in Hp as [? ?] end; subst. all: try exact H. all: stored.
Qed.
Lemma pxe_service_handler : handler_ok pxe_service.
Proof.
  apply required_handler. intros v cl d d' H. parts. match goal with E : parse_pxe_service _ _ _ = _ |- _ => apply pxe_service_ok in E; [exact E|done] end.
Qed.
#[local] Hint Resolve dhcp_relay_handler dhcp_duid_handler dhcp_proxy_handler pxe_service_handler : config.
Lemma dhcp_handlers_ok : Forall (fun e => handler_ok (snd e)) dhcp_handlers.
Proof.
  unfold dhcp_handlers, range_handlers, match_handlers, pxe_handlers. cbn [app]. entries; first [solve [eauto with config] | apply parsed_handler; intros ? ? ? ? ? H; exact H
    | apply parsedp_handler; intros ? ? ? ? ? H; exact H | apply tag_gate_handler; intros ? ? H; exact H].
Qed.

(** ** The whole configuration *)

Lemma entry_in {A} key (l : list (string * A)) x : entry key l = Some x -> exists k, In (k, x) l /\ bs k = key.
Proof.
  unfold entry. destruct (List.find _ l) as [[k y]|] eqn:E; [|done]. intros [= ->]. apply find_some in E as [Hin Hk].
  exists k. split; [done|]. by apply bool_decide_eq_true in Hk.
Qed.
Lemma handlers_ok rand nametoindex conf_dir : (forall v d d', config_ok d -> conf_dir v d = Val (Ok d') -> config_ok d') ->
  Forall (fun e => handler_ok (snd e)) (HANDLERS rand nametoindex conf_dir).
Proof.
  intros Hc. unfold HANDLERS. rewrite !Forall_app. split_and!.
  - apply boolean_handlers_ok.
  - apply option_handlers_ok.
  - apply number_handlers_ok.
  - apply text_handlers_ok.
  - apply server_handlers_ok.
  - apply record_handlers_ok.
  - apply dhcp_handlers_ok.
  - apply Forall_singleton. apply required_handler. intros v cl d d'. apply Hc.
Qed.
Lemma apply_line_ok rand nametoindex conf_dir cl d d' : (forall v d d', config_ok d -> conf_dir v d = Val (Ok d') -> config_ok d') ->
  config_ok d -> apply_line rand nametoindex conf_dir d cl = Val (Ok d') -> config_ok d'.
Proof.
  intros Hc H. unfold apply_line. destruct (entry _ _) as [h|] eqn:E; [|done]. apply entry_in in E as (k & Hin & _).
  pose proof (handlers_ok rand nametoindex conf_dir Hc) as Hf. rewrite Forall_forall in Hf. exact (Hf _ Hin cl d d' H).
Qed.

(** What the defaults establish. *)
Definition complete (d : Daemon) : Prop :=
  (d_auth_zones d <> [] -> is_Some (d_authserver d)) /\ d_tftp_max d <> 0 /\
  (d_dhcp d <> [] \/ d_dhcp6 d <> [] -> is_Some (d_lease_file d)) /\
  Forall (fun mx => mx_is_srv mx = false -> mx_target mx <> []) (d_mxnames d).
Lemma as_i32_bound n : in_i32 (as_i32 n).
Proof. unfold in_i32, as_i32. pose proof (Z.mod_pos_bound (n + 2 ^ 31) (2 ^ 32)). lia. Qed.
Lemma fast_retry_ok d : config_ok d -> config_ok (apply_dnssec_fast_retry_defaults d).
Proof. intros H. unfold apply_dnssec_fast_retry_defaults. case_match; [|exact H]. stored. Qed.
Lemma cnames_map f l : (forall c, cn_alias (f c) = cn_alias c) -> cnames_ok l -> cnames_ok (f <$> l).
Proof. intros Hf. unfold cnames_ok. rewrite <- list_fmap_compose. erewrite list_fmap_ext; [done|]. intros i c _. cbn. by rewrite Hf. Qed.
Lemma local_ttl_ok d : config_ok d -> config_ok (apply_local_ttl_defaults d).
Proof.
  intros H. unfold apply_local_ttl_defaults. cbv zeta. stored.
  - apply Forall_fmap. match goal with F : Forall host_ok _ |- _ => revert F end. apply Forall_impl. intros h Hh. exact Hh.
  - by apply cnames_map.
Qed.
Lemma local_service_ok d : config_ok d -> config_ok (apply_local_service_defaults d).
Proof.
  intros H. unfold apply_local_service_defaults. repeat case_match; [by repeat apply clear_option_in_ok| |exact H].
  apply set_option_in_ok. exact H.
Qed.
Lemma tail_ok d : config_ok d -> config_ok (apply_tftp_defaults (apply_doing_ra_default (apply_dhcp_leasefile_default (apply_local_service_defaults (apply_auth_defaults d))))).
Proof.
  intros H. assert (config_ok (apply_auth_defaults d)) as H1 by (unfold apply_auth_defaults; repeat case_match; exact H).
  apply local_service_ok in H1. clear H. revert H1. generalize (apply_local_service_defaults (apply_auth_defaults d)). clear d. intros d H.
  assert (config_ok (apply_dhcp_leasefile_default d)) as H1 by (unfold apply_dhcp_leasefile_default; repeat case_match; exact H).
  clear H. revert H1. generalize (apply_dhcp_leasefile_default d). clear d. intros d H.
  assert (config_ok (apply_doing_ra_default d)) as H1 by (unfold apply_doing_ra_default; repeat case_match; exact H).
  clear H. unfold apply_tftp_defaults. case_match; [|exact H1]. stored.
Qed.
Lemma hostname_nonempty h name : local_hostname_for_mx h = Some name -> name <> [].
Proof. unfold local_hostname_for_mx, filled. destruct h as [h|]; [|done]. destruct (canonicalise_opt h) as [[|]|]; try done. by intros [= <-]. Qed.
Lemma mx_ok h d d' : config_ok d -> apply_mx_defaults h d = Ok d' ->
  config_ok d' /\ Forall (fun mx => mx_is_srv mx = false -> mx_target mx <> []) (d_mxnames d').
Proof.
  intros H. unfold apply_mx_defaults. case_match eqn:E0.
  { intros ->%ok_inj. split; [exact H|]. rewrite !andb_true_iff, Nat.eqb_eq in E0. destruct E0 as [[_ ->%nil_length_inv] _]. constructor. }
  destruct (ok_or _ _) as [hostname|] eqn:E; [|done]. apply ok_or_inv, hostname_nonempty in E. cbv zeta. intros <-%ok_inj.
  assert (default hostname (d_mxtarget d) <> []) as Ht.
  { destruct (d_mxtarget d) eqn:Em; [|done]. destruct H as (_ & _ & _ & _ & _ & (_ & _ & Hm) & _). by apply Hm. }
  set (d1 := if _ && negb _ then _ else d). assert (config_ok d1) as H1 by (unfold d1; case_match; exact H).
  assert (d_mxtarget d1 = d_mxtarget d) as E1 by (unfold d1; case_match; done). rewrite E1. clearbody d1. clear H. split.
  - stored. cbn. by intros ? [= <-].
  - cbn. apply Forall_fmap, Forall_true. intros mx. cbn. case_match eqn:Em; cbn; [done|]. intros Hs. rewrite Hs in Em. cbn in Em. by destruct (mx_target mx).
Qed.
(** The last defaults keep the mail exchangers and the ranges. *)
Definition kept (d : Daemon) := (d_mxnames d, d_auth_zones d, d_authserver d, d_dhcp d, d_dhcp6 d).
Ltac keep f := unfold f; repeat case_match; done.
Lemma auth_kept d : kept (apply_auth_defaults d) = kept d.
Proof. keep apply_auth_defaults. Qed.
Lemma local_service_kept d : kept (apply_local_service_defaults d) = kept d.
Proof. keep apply_local_service_defaults. Qed.
Lemma lease_file_kept d : kept (apply_dhcp_leasefile_default d) = kept d.
Proof. keep apply_dhcp_leasefile_default. Qed.
Lemma lease_file_default d : d_dhcp d <> [] \/ d_dhcp6 d <> [] -> is_Some (d_lease_file (apply_dhcp_leasefile_default d)).
Proof.
  intros Hr. unfold apply_dhcp_leasefile_default. destruct (d_lease_file d) as [f|] eqn:E; [rewrite E; eauto|]. case_match eqn:E1; [cbn; eauto|].
  apply orb_false_iff in E1 as [E1 E2]. apply negb_false_iff, Nat.eqb_eq, nil_length_inv in E1, E2. rewrite E1, E2 in Hr. by destruct Hr.
Qed.
Lemma ra_kept d : kept (apply_doing_ra_default d) = kept d /\ d_lease_file (apply_doing_ra_default d) = d_lease_file d.
Proof. keep apply_doing_ra_default. Qed.
Lemma tftp_kept d : kept (apply_tftp_defaults d) = kept d /\ d_lease_file (apply_tftp_defaults d) = d_lease_file d /\ d_tftp_max (apply_tftp_defaults d) <> 0.
Proof. unfold apply_tftp_defaults. case_match eqn:E; [done|]. split; [done|]. split; [done|]. by apply Z.eqb_neq in E. Qed.
Lemma normalize_ok h d d' : config_ok d -> normalize_config h d = Ok d' -> config_ok d' /\ complete d'.
Proof.
  intros H. unfold normalize_config. cbv zeta. destruct (apply_mx_defaults _ _) as [d1|] eqn:E1; [|done].
  apply mx_ok in E1 as [H1 Hmx]; [|by apply local_ttl_ok, fast_retry_ok]. pose proof (tail_ok d1 H1) as Hok.
  set (d2 := apply_local_service_defaults (apply_auth_defaults d1)) in *. set (d3 := apply_dhcp_leasefile_default d2) in *.
  destruct (tftp_kept (apply_doing_ra_default d3)) as (Kt & Lt & Ht). destruct (ra_kept d3) as [Kr Lr].
  assert (kept (apply_tftp_defaults (apply_doing_ra_default d3)) = kept d1) as K.
  { rewrite Kt, Kr. unfold d3, d2. by rewrite lease_file_kept, local_service_kept, auth_kept. }
  assert (kept d2 = kept d1) as K2 by (unfold d2; by rewrite local_service_kept, auth_kept).
  set (r := apply_tftp_defaults (apply_doing_ra_default d3)) in *. clearbody r.
  destruct (validate_auth_config r) as [u|] eqn:E; [|done]. intros <-%ok_inj. unfold validate_auth_config in E.
  unfold kept in K, K2. repeat match goal with Hp : (_, _) = (_, _) |- _ => apply pair_equal_spec in Hp as [Hp ?] end.
  split; [done|]. split; [|split; [done|split; [|by rewrite K]]].
  - intros Hz. destruct (_ && _) eqn:E0 in E; [done|]. clear E. rename E0 into E. apply andb_false_iff in E as [E|E]; [apply negb_false_iff, Nat.eqb_eq, nil_length_inv in E; done|].
    apply negb_false_iff, bool_decide_eq_true in E. done.
  - intros Hr. rewrite Lt, Lr. apply lease_file_default. destruct Hr; [left|right]; congruence.
Qed.

Section Load.
Context (rand : nat -> Z) (nametoindex : str -> Z) (hostname : option str) `{FileSystem}.
Lemma apply_lines_ok conf_dir ls d d' : (forall v d d', config_ok d -> conf_dir v d = Val (Ok d') -> config_ok d') ->
  config_ok d -> apply_lines rand nametoindex hostname conf_dir ls d = Val (Ok d') -> config_ok d' /\ complete d'.
Proof.
  intros Hc Hd. unfold apply_lines. destruct (try_foldp _ _ _) as [[d1|]|] eqn:E; [|done|done].
  apply try_foldp_ok in E; [|intros ? ? ?; by apply apply_line_ok|done]. intros [= E1]. by apply normalize_ok in E1.
Qed.
Lemma load_conf_dir_ok stack v d d' : config_ok d -> load_conf_dir rand nametoindex hostname stack v d = Val (Ok d') -> config_ok d'.
Proof.
  revert v d d'. induction stack as [|stack IH]; intros v d d' Hd; cbn [load_conf_dir]; [done|].
  destruct (dir_files _ _) as [paths|]; [|done]. apply try_foldp_ok; [|done]. intros d1 path d2 H1. unfold read_opts_with.
  destruct (read_to_string path) as [t|]; [|done]. destruct (parse_config_text t path) as [ls|]; [|done].
  intros E. apply apply_lines_ok in E; [apply E|exact IH|done].
Qed.
End Load.
Lemma default_ok : config_ok daemon_default.
Proof.
  split; [split; [done|]; repeat constructor; by vm_compute|]. unfold ports_ok, ttls_ok, counts_ok, identity_ok, records_ok, limits_ok, in_u16, in_u32, in_i32. cbn.
  split_and!; try lia; try done; repeat constructor; unfold in_i32; try lia.
  all: by vm_compute.
Qed.
Lemma seeded_ok : config_ok (seed_startup_defaults daemon_default).
Proof. exact default_ok. Qed.

(** ** Properties *)

(** C10: A configuration that is accepted is well typed and complete. Whatever the
    lines of the file and of the command line, the files they include and the
    directories they name, the resulting daemon has every number within the
    width of its type and the bounds of its directive: the words of option
    bits, ports of 16 bits with the TFTP range in order, times to live and
    serial numbers of 32 bits, a cache of at most five million entries, retry
    intervals of at least 50 ms, at least one port per server, marks within
    their masks. Every host record has a name and an address, no two aliases
    are equal up to case, every mail exchanger has a target; authoritative
    zones have an authoritative server, DHCP has a lease file and TFTP a limit
    on transfers. The same holds after reading a file into a daemon that has
    the invariant. *)
Theorem config_invariant rand nametoindex hostname `{FileSystem} stack :
  (forall ls d, resolve_config rand nametoindex hostname stack ls = Val (Ok d) -> config_ok d /\ complete d) /\
  (forall d path d', config_ok d -> read_opts rand nametoindex hostname stack d path = Val (Ok d') -> config_ok d' /\ complete d').
Proof.
  split.
  - intros ls d. apply apply_lines_ok; [apply load_conf_dir_ok|apply seeded_ok].
  - intros d path d' Hd. unfold read_opts, read_opts_with. destruct (read_to_string path) as [t|]; [|done].
    destruct (parse_config_text t path) as [ls|]; [|done]. apply apply_lines_ok; [apply load_conf_dir_ok|done].
Qed.
(** A file that includes a directory and defines hosts, aliases and a range. *)
Definition example_files : FileSystem := {|
  read_to_string := fun p =>
    if bool_decide (p = bs "main.conf") then Ok (bs "port=5353
cache-size=99999999
conf-dir=conf.d
cname=www.lan,host.lan
dhcp-range=10.0.0.2,10.0.0.9
tftp-port-range=6000,5000
localmx")
    else if bool_decide (p = bs "conf.d/a.conf") then Ok (bs "host-record=host.lan,10.0.0.1
max-ttl=600")
    else Err (bs "not found");
  read_dir := fun d => if bool_decide (d = bs "conf.d") then Ok [bs "a.conf"; bs "b.conf~"] else Err (bs "not found") |}.
Lemma config_invariant_witness :
  exists d, @read_opts (fun _ => 7) (fun _ => 1) (Some (bs "box")) example_files 2 daemon_default (bs "main.conf") = Val (Ok d) /\
    (d_port d, d_cachesize d, d_start_tftp_port d, d_max_ttl d) = (5353, 5000000, 5000, 600) /\ config_ok d /\ complete d.
Proof.
  destruct (@read_opts (fun _ => 7) (fun _ => 1) (Some (bs "box")) example_files 2 daemon_default (bs "main.conf")) as [[d|]|] eqn:E;
    [|vm_compute in E; done..].
  exists d. split; [done|]. split; [|exact (proj2 (@config_invariant (fun _ => 7) (fun _ => 1) (Some (bs "box")) example_files 2) _ _ _ default_ok E)].
  revert E. vm_compute. by intros [= <-].
Defined.
