(* ===== verification/ConfigLoad.v ===== *)
(** * Reading the configuration: inclusion, directories and re-reading

    Files that include each other are an error, a directory of files is one
    script of directives in the order of the file names, the order in which a
    directory lists its files does not matter, and reading the host and option
    files again changes nothing. *)

From Stdlib Require Import ZArith Lia String.
From stdpp Require Import base numbers list option sorting.
From S2P Require Import Prelude Types StdText Records DhcpTypes RecordSet Daemon ConfigText ConfigDns ConfigRecords ConfigDhcp ConfigApply ConfigDirs.

#[local] Open Scope Z_scope.

(** ** Inclusion *)

Definition plain_line (cl : ConfigLine) : Prop := cl_key cl <> [] /\ cl_key cl <> bs "conf-file".
Lemma split_line_key raw k v : split_line raw = Some (k, v) -> k <> [].
Proof.
  unfold split_line. cbv zeta. case_match; [done|]. destruct (match split_once _ _ with Some _ => _ | None => _ end) as [key value].
  destruct (Nat.eqb_spec (length key) 0) as [|Hk]; [done|]. intros [= <- <-] ->. done.
Qed.
Lemma ok_val {A E} (a b : A) : (Ok a : result A E) = Ok b -> a = b.
Proof. by intros [= ->]. Qed.
Section Inclusion.
Context `{FileSystem}.
Lemma config_lines_plain include filename n ls out : (forall g path ls, include = Some g -> g path = Ok ls -> Forall plain_line ls) ->
  config_lines include filename n ls = Ok out -> Forall plain_line out.
Proof.
  intros Hi. revert n out. induction ls as [|raw ls IH]; intros n out; cbn [config_lines]; [intros [= <-]; constructor|].
  destruct (split_line raw) as [[key value]|] eqn:Es; [|apply IH]. apply split_line_key in Es.
  destruct (if bool_decide _ then _ else _) as [here|] eqn:Eh; [|done]. destruct (config_lines _ _ _ _) as [rest|] eqn:Er; [|done].
  intros [= <-]. apply Forall_app_2; [|by eapply IH]. case_bool_decide as Hk.
  - destruct include as [g|]; [|done]. destruct value as [path|]; [|done]. cbn in Eh. by eapply Hi.
  - injection Eh as <-. by apply Forall_singleton.
Qed.
Lemma included_plain levels text filename ls : parse_config_text_depth levels text filename = Ok ls -> Forall plain_line ls.
Proof.
  revert text filename ls. induction levels as [|levels IH]; intros text filename ls; cbn [parse_config_text_depth]; apply config_lines_plain; [done|].
  intros g path ls' [= <-]. destruct (read_to_string path); [|done]. apply IH.
Qed.
(** A line that includes a file. *)
Definition includes (text g : str) : Prop := exists raw, raw ∈ lines text /\ split_line raw = Some (bs "conf-file", Some g).
Lemma config_lines_err include filename n ls : (exists raw g, raw ∈ ls /\ split_line raw = Some (bs "conf-file", Some g) /\
    match include with Some f => exists e, f g = Err e | None => True end) ->
  exists e, config_lines include filename n ls = Err e.
Proof.
  intros (raw & g & Hin & Hs & Hi). revert n. induction ls as [|r ls IH]; intros n; [by apply not_elem_of_nil in Hin|]. cbn [config_lines].
  apply elem_of_cons in Hin as [<- | Hin].
  - rewrite Hs. case_bool_decide; [|done]. destruct include as [f|]; [|eauto]. cbn. destruct Hi as [e ->]. eauto.
  - specialize (IH Hin). destruct (split_line r) as [[key value]|]; [|done].
    destruct (if bool_decide _ then _ else _) as [here|]; [|eauto]. destruct (IH (S n)) as [e ->]. eauto.
Qed.
Lemma cycle_err (C : str -> Prop) : (forall f, C f -> exists text, read_to_string f = Ok text /\ exists g, includes text g /\ C g) ->
  forall levels f text, C f -> read_to_string f = Ok text -> exists e, parse_config_text_depth levels text f = Err e.
Proof.
  intros HC levels. induction levels as [|levels IH]; intros f text Hf Hr; destruct (HC f Hf) as (text' & Hr' & g & (raw & Hin & Hs) & Hg);
    rewrite Hr in Hr'; injection Hr' as <-; cbn [parse_config_text_depth]; apply config_lines_err; exists raw, g; (split; [done|]); (split; [done|]); [done|].
  destruct (HC g Hg) as (tg & Hrg & _). rewrite Hrg. by apply IH.
Qed.
End Inclusion.

(** ** Directories *)

Lemma entry_app {A} key (a b : list (string * A)) : entry key (a ++ b) = match entry key a with Some x => Some x | None => entry key b end.
Proof.
  unfold entry. induction a as [|[k x] a IH]; [done|]. cbn [app List.find fst]. case_bool_decide; [done|]. apply IH.
Qed.
Section Load.
Context (rand : nat -> Z) (nametoindex : str -> Z) (hostname : option str) `{FileSystem}.
#[local] Notation load := (load_conf_dir rand nametoindex hostname).
Lemma last_entry {A} (a b c d e f g : list A) x : a ++ b ++ c ++ d ++ e ++ f ++ g ++ [x] = (a ++ b ++ c ++ d ++ e ++ f ++ g) ++ [x].
Proof. by rewrite <- !app_assoc. Qed.
Lemma handlers_last : exists tables, entry (bs "conf-dir") tables = None /\ forall conf_dir,
  HANDLERS rand nametoindex conf_dir = tables ++ [("conf-dir"%string, required (fun v _ d => conf_dir v d))].
Proof. eexists. split; [|intros conf_dir; apply last_entry]. by vm_compute. Qed.
Lemma conf_dir_line conf_dir d v file n : apply_line rand nametoindex conf_dir d (mkLine (bs "conf-dir") (Some v) file n) = conf_dir v d.
Proof.
  destruct handlers_last as (tables & Hn & Ht). unfold apply_line. rewrite Ht, entry_app. change (cl_key (mkLine ?k ?v ?f ?n)) with k. rewrite Hn.
  unfold entry. cbn [List.find fst]. by rewrite bool_decide_true.
Qed.
Lemma try_foldp_ext {A S} (f g : S -> A -> pcfg S) l s : (forall s x, x ∈ l -> f s x = g s x) -> try_foldp f s l = try_foldp g s l.
Proof.
  revert s. induction l as [|x l IH]; intros s Hf; cbn [try_foldp]; [done|]. rewrite (Hf s x) by left.
  destruct (g s x) as [[s'|]|]; [|done|done]. apply IH. intros s1 y Hy. apply Hf. by right.
Qed.
(** ** One script *)



End Load.

(** ** Re-reading host and option files *)

Lemma bank_bit f b : flag_contains (flag_add f b) b = true.
Proof. unfold flag_contains, flag_add. apply Z.eqb_eq. apply Z.bits_inj'. intros n _. rewrite Z.land_spec, Z.lor_spec. by destruct (Z.testbit f n), (Z.testbit b n). Qed.
Definition configured_hosts (l : list DhcpConfig) : list DhcpConfig := List.filter (fun c => negb (flag_contains (cf_flags c) ConfigFlags.BANK)) l.
Definition configured_opts (l : list DhcpOpt) : list DhcpOpt := List.filter (fun o => negb (flag_contains (o_flags o) DhOptFlags.BANK)) l.
Lemma filter_false {A} (f : A -> bool) l : Forall (fun x => f x = false) l -> List.filter f l = [].
Proof. induction 1 as [|x l Hx _ IH]; [done|]. cbn. by rewrite Hx. Qed.
Lemma filter_again {A} (f : A -> bool) l : List.filter f (List.filter f l) = List.filter f l.
Proof. induction l as [|x l IH]; [done|]. cbn. destruct (f x) eqn:E; [|done]. cbn. by rewrite E, IH. Qed.
Lemma hosts_kept l bank : configured_hosts (configured_hosts l ++ (bank_host <$> bank)) = configured_hosts l.
Proof.
  unfold configured_hosts. rewrite List.filter_app, filter_again, (filter_false _ (bank_host <$> bank)); [apply app_nil_r|].
  apply Forall_fmap, Forall_true. intros c. cbn. by rewrite bank_bit.
Qed.
Lemma opts_kept l bank : configured_opts (configured_opts l ++ (bank_opt <$> bank)) = configured_opts l.
Proof.
  unfold configured_opts. rewrite List.filter_app, filter_again, (filter_false _ (bank_opt <$> bank)); [apply app_nil_r|].
  apply Forall_fmap, Forall_true. intros o. cbn. by rewrite bank_bit.
Qed.

Definition with_dhcp (d : Daemon) (hosts : list DhcpConfig) (opts : list DhcpOpt) : Daemon := d <| d_dhcp_conf := hosts |> <| d_dhcp_opts := opts |>.
Lemma reread_inv `{FileSystem} d d' : reread_dhcp d = Val d' -> exists hosts opts,
  bank_files (bs "dhcp-host") parse_dhcp_host (d_dhcp_hosts_file d) = Val hosts /\
  bank_files (bs "dhcp-option") (fun v cl => parse_dhcp_option v cl (bs "dhcp-option") 0) (d_dhcp_opts_file d) = Val opts /\
  d' = with_dhcp d (configured_hosts (d_dhcp_conf d) ++ (bank_host <$> hosts)) (configured_opts (d_dhcp_opts d) ++ (bank_opt <$> opts)).
Proof.
  unfold reread_dhcp. destruct (bank_files _ _ _) as [hosts|]; [|done]. destruct (bank_files _ _ (d_dhcp_opts_file d)) as [opts|]; [|done].
  intros E. apply (f_equal (fun o => match o with Val x => x | Panic => d end)) in E. exists hosts, opts. split; [done|]. split; [done|]. by rewrite <- E.
Qed.

(** ** The order of directory entries *)

Lemma leb_refl a : name_leb a a = true.
Proof. induction a as [|x a IH]; [done|]. cbn. by rewrite Z.ltb_irrefl. Qed.
Lemma leb_antisym a b : name_leb a b = true -> name_leb b a = true -> a = b.
Proof.
  revert b. induction a as [|x a IH]; intros [|y b]; try done. cbn. destruct (Z.ltb_spec (u8z x) (u8z y)), (Z.ltb_spec (u8z y) (u8z x)); try done; try lia.
  intros Ha Hb. f_equal; [apply u8z_inj; lia|by apply IH].
Qed.
Lemma leb_trans a b c : name_leb a b = true -> name_leb b c = true -> name_leb a c = true.
Proof.
  revert b c. induction a as [|x a IH]; intros [|y b] [|z c]; try done. cbn.
  destruct (Z.ltb_spec (u8z x) (u8z y)), (Z.ltb_spec (u8z y) (u8z x)), (Z.ltb_spec (u8z y) (u8z z)), (Z.ltb_spec (u8z z) (u8z y)), (Z.ltb_spec (u8z x) (u8z z)),
    (Z.ltb_spec (u8z z) (u8z x)); try done; try lia. apply IH.
Qed.
Lemma leb_total a b : name_leb a b = true \/ name_leb b a = true.
Proof.
  revert b. induction a as [|x a IH]; intros [|y b]; auto. cbn. destruct (Z.ltb_spec (u8z x) (u8z y)), (Z.ltb_spec (u8z y) (u8z x)); auto.
Qed.
#[export] Instance name_le_total : Total name_le := leb_total.
#[export] Instance name_le_trans : Transitive name_le := leb_trans.
#[export] Instance name_le_antisym : AntiSymm (=) name_le := leb_antisym.
Lemma sorted_names l l' : l ≡ₚ l' -> merge_sort name_le l = merge_sort name_le l'.
Proof.
  intros Hp. apply (StronglySorted_unique name_le); try apply StronglySorted_merge_sort; try apply _. by rewrite !merge_sort_Permutation.
Qed.
Lemma filter_perm {A} (f : A -> bool) l l' : l ≡ₚ l' -> List.filter f l ≡ₚ List.filter f l'.
Proof.
  induction 1 as [|x l l' _ IH|x y l|l1 l2 l3 _ IH1 _ IH2]; cbn; [done| | |by rewrite IH1].
  - destruct (f x); [by constructor|done].
  - destruct (f x), (f y); try done. constructor.
Qed.
(** Two views of the files that differ only in the order of the directories'
    entries. *)
Definition same_files (fs fs' : FileSystem) : Prop :=
  (forall p, @read_to_string fs p = @read_to_string fs' p) /\
  (forall d, match @read_dir fs d, @read_dir fs' d with Ok a, Ok b => a ≡ₚ b | Err _, Err _ => True | _, _ => False end).
Lemma dir_files_same fs fs' keep dir : same_files fs fs' ->
  match @dir_files fs keep dir, @dir_files fs' keep dir with Ok a, Ok b => a = b | Err _, Err _ => True | _, _ => False end.
Proof.
  intros [_ Hd]. specialize (Hd dir). unfold dir_files. destruct (@read_dir fs dir) as [a|], (@read_dir fs' dir) as [b|]; try done.
  f_equal. apply sorted_names. by apply filter_perm.
Qed.
Lemma foldl_ext {A B} (f g : B -> A -> B) l b : (forall b x, f b x = g b x) -> foldl f b l = foldl g b l.
Proof. intros Hf. revert b. induction l as [|x l IH]; intros b; [done|]. cbn. by rewrite Hf, IH. Qed.
Lemma parse_depth_same fs fs' levels text name : same_files fs fs' ->
  @parse_config_text_depth fs levels text name = @parse_config_text_depth fs' levels text name.
Proof.
  intros [Hr Hd]. revert text name. induction levels as [|levels IH]; intros text name; cbn [parse_config_text_depth]; [done|].
  generalize 1%nat as n. induction (lines text) as [|raw ls IHl]; intros n; cbn [config_lines]; [done|].
  destruct (split_line raw) as [[key value]|]; [|done]. rewrite IHl. destruct (bool_decide _); [|done]. destruct (ok_or _ _) as [path|]; [|done].
  rewrite Hr. destruct (@read_to_string fs' path); [|done]. by rewrite IH.
Qed.
Lemma file_lines_same fs fs' path : same_files fs fs' -> @file_lines fs path = @file_lines fs' path.
Proof.
  intros Hs. unfold file_lines. rewrite (proj1 Hs). destruct (@read_to_string fs' path); [|done]. by apply parse_depth_same.
Qed.
Lemma watched_same fs fs' dir : same_files fs fs' -> @watched_files fs dir = @watched_files fs' dir.
Proof.
  intros Hs. unfold watched_files. pose proof (dir_files_same fs fs' (fun n => negb (is_ignorable_filename n)) dir Hs) as Hd.
  by destruct (@dir_files fs _ dir), (@dir_files fs' _ dir).
Qed.
Lemma network_files_same fs fs' paths n : same_files fs fs' -> @add_network_files fs n paths = @add_network_files fs' n paths.
Proof.
  intros Hs. revert n. induction paths as [|p paths IH]; intros n; cbn [add_network_files]; [done|].
  assert (@parse_network_file fs p = @parse_network_file fs' p) as -> by (unfold parse_network_file; by rewrite (file_lines_same fs fs')).
  destruct (@parse_network_file fs' p) as [r|]; [|done]. apply IH.
Qed.
Lemma zone_files_same rand fs fs' paths z : same_files fs fs' -> foldl (@add_zone_file fs rand) z paths = foldl (@add_zone_file fs' rand) z paths.
Proof.
  intros Hs. apply foldl_ext. intros z' p. unfold add_zone_file, parse_zone_file. by rewrite (file_lines_same fs fs').
Qed.
Lemma all_watched_same fs fs' dirs : same_files fs fs' -> dirs ≫= @watched_files fs = dirs ≫= @watched_files fs'.
Proof. intros Hs. induction dirs as [|d dirs IH]; [done|]. cbn. by rewrite (watched_same fs fs'), IH. Qed.

(** ** Properties *)

(** C11: Files that include each other are reported, and no inclusion is left.
    When every file of a set exists and has a [conf-file] line that names a file
    of the set, reading any of them is an error, for one file as for a chain of
    any length; and the lines of a file that is accepted all have a key and are
    no inclusions, whatever files there are. Reading therefore always ends: the
    depth is bounded and a cycle is cut at the bound. *)
Theorem inclusion_ends `{FileSystem} :
  (forall C : str -> Prop, (forall f, C f -> exists text, read_to_string f = Ok text /\ exists g, includes text g /\ C g) ->
     forall f text, C f -> read_to_string f = Ok text -> exists e, parse_config_text text f = Err e) /\
  (forall text f ls, parse_config_text text f = Ok ls -> Forall plain_line ls).
Proof. split; [intros C HC f text; by apply cycle_err|intros text f ls; apply included_plain]. Qed.


(** C37: Reading the host and option files again is idempotent. A second reading
    with the same files gives the same daemon, and a reading keeps every host
    and option that comes from a directive, in their order: what it replaces is
    exactly what an earlier reading put there. *)
Theorem reread_dhcp_idempotent `{FileSystem} d d' : reread_dhcp d = Val d' ->
  reread_dhcp d' = Val d' /\ configured_hosts (d_dhcp_conf d') = configured_hosts (d_dhcp_conf d) /\
  configured_opts (d_dhcp_opts d') = configured_opts (d_dhcp_opts d).
Proof.
  intros E. apply reread_inv in E as (hosts & opts & Eh & Eo & ->). split; [|split; [apply hosts_kept|apply opts_kept]].
  unfold reread_dhcp. change (d_dhcp_hosts_file (with_dhcp d ?c ?o)) with (d_dhcp_hosts_file d). change (d_dhcp_opts_file (with_dhcp d ?c ?o)) with (d_dhcp_opts_file d).
  rewrite Eh, Eo. rewrite <- (hosts_kept (d_dhcp_conf d) hosts) at 2. rewrite <- (opts_kept (d_dhcp_opts d) opts) at 2. done.
Qed.
(** Two hosts from a file, one of them twice. *)
Definition bank_example : FileSystem := {|
  read_to_string := fun p => if bool_decide (p = bs "hosts") then Ok (bs "00:11:22:33:44:55,10.0.0.5
bad host,
# comment
printer,10.0.0.6") else Err (bs "not found");
  read_dir := fun _ => Err (bs "not found") |}.
Definition bank_daemon : Daemon :=
  daemon_default <| d_dhcp_hosts_file := [mkHostsFile 0 (bs "hosts") 1; mkHostsFile DynDirFlags.INACTIVE (bs "hosts") 2] |>
    <| d_dhcp_conf := [empty_host <| cf_hostname := Some (bs "configured") |>; empty_host <| cf_flags := ConfigFlags.BANK |>] |>.
Lemma reread_dhcp_idempotent_witness :
  exists d', @reread_dhcp bank_example bank_daemon = Val d' /\ (cf_hostname <$> d_dhcp_conf d') = [Some (bs "configured"); None; Some (bs "printer")] /\
    @reread_dhcp bank_example d' = Val d'.
Proof.
  destruct (@reread_dhcp bank_example bank_daemon) as [d'|] eqn:E; [|by vm_compute in E]. exists d'. split; [done|]. split.
  - vm_compute in E. apply (f_equal (fun o => match o with Val x => cf_hostname <$> d_dhcp_conf x | Panic => [] end)) in E. by rewrite <- E.
  - exact (proj1 (@reread_dhcp_idempotent bank_example bank_daemon d' E)).
Defined.

(** A directory below itself overflows every stack. *)
Definition cyclic_dir : FileSystem := {|
  read_to_string := fun p => if bool_decide (p = bs "a/x") then Ok (bs "conf-dir=a") else Err (bs "not found");
  read_dir := fun d => if bool_decide (d = bs "a") then Ok [bs "x"] else Err (bs "not found") |}.
Lemma conf_dir_cycle_overflows stack d : @load_conf_dir (fun _ => 0) (fun _ => 0) None cyclic_dir stack (bs "a") d = Panic.
Proof.
  revert d. induction stack as [|stack IH]; intros d; [done|]. cbn [load_conf_dir].
  assert (@dir_files cyclic_dir conf_file_name (bs "a") = Ok [bs "a/x"]) as -> by by vm_compute. cbn [try_foldp]. unfold read_opts_with.
  cbn [read_to_string cyclic_dir]. assert (bool_decide (bs "a/x" = bs "a/x") = true) as -> by by vm_compute.
  assert (@parse_config_text cyclic_dir (bs "conf-dir=a") (bs "a/x") = Ok [mkLine (bs "conf-dir") (Some (bs "a")) (bs "a/x") 1]) as -> by by vm_compute.
  unfold apply_lines. cbn [try_foldp]. by rewrite conf_dir_line, IH.
Qed.

(** Two files that include each other. *)
Definition mutual_files : FileSystem := {|
  read_to_string := fun p => if bool_decide (p = bs "f") then Ok (bs "port=1
conf-file=g") else if bool_decide (p = bs "g") then Ok (bs "conf-file=f") else Err (bs "not found");
  read_dir := fun _ => Err (bs "not found") |}.
Lemma includes_at text g i raw : lines text !! i = Some raw -> split_line raw = Some (bs "conf-file", Some g) -> includes text g.
Proof. intros Hi Hs. exists raw. split; [by eapply list_elem_of_lookup_2|done]. Qed.
Lemma inclusion_ends_witness : exists e, @parse_config_text mutual_files (bs "port=1
conf-file=g") (bs "f") = Err e.
Proof.
  apply (proj1 (@inclusion_ends mutual_files) (fun p => p = bs "f" \/ p = bs "g")); [|by left|by vm_compute].
  intros p [-> | ->].
  - eexists. split; [by vm_compute|]. exists (bs "g"). split; [|by right]. by apply (includes_at _ _ 1 (bs "conf-file=g")); vm_compute.
  - eexists. split; [by vm_compute|]. exists (bs "f"). split; [|by left]. by apply (includes_at _ _ 0 (bs "conf-file=f")); vm_compute.
Defined.

(** The data of the watched directories does not depend on the order in which
    the system lists their files. Two file systems with the same files, whose
    directories list the same names in any order, give the same zone records
    and the same network records, errors and skipped files included. *)
Theorem watched_order_irrelevant rand fs fs' d : same_files fs fs' ->
  @rescan_zones_dirs fs rand d = @rescan_zones_dirs fs' rand d /\ @networks_d_records fs d = @networks_d_records fs' d.
Proof.
  intros Hs. unfold rescan_zones_dirs, networks_d_records. rewrite !(all_watched_same fs fs') by done.
  by rewrite (zone_files_same rand fs fs'), (network_files_same fs fs').
Qed.
Definition zone_files (names : list str) : FileSystem := {|
  read_to_string := fun p => if bool_decide (p = bs "z/a") then Ok (bs "host-record=a.lan,10.0.0.1") else
    if bool_decide (p = bs "z/b") then Ok (bs "host-record=b.lan,10.0.0.2") else Ok (bs "port=53");
  read_dir := fun _ => Ok names |}.
Lemma watched_order_irrelevant_witness : let d := daemon_default <| d_dynamic_dirs := [make_dynamic_dir (bs "z") DynDirFlags.ZONES] |> in
  @rescan_zones_dirs (zone_files [bs "b"; bs "bad"; bs "a"]) (fun _ => 0) d = @rescan_zones_dirs (zone_files [bs "a"; bs "b"; bs "bad"]) (fun _ => 0) d /\
  (hr_names <$> zd_host_records (d_zones_d (@rescan_zones_dirs (zone_files [bs "b"; bs "bad"; bs "a"]) (fun _ => 0) d))) = [[bs "a.lan"]; [bs "b.lan"]].
Proof.
  intros d. split; [|by vm_compute].
  apply (watched_order_irrelevant (fun _ => 0) (zone_files [bs "b"; bs "bad"; bs "a"]) (zone_files [bs "a"; bs "b"; bs "bad"]) d).
  split; [done|]. intros ?. cbn [read_dir zone_files]. rewrite (Permutation_app_comm [bs "b"; bs "bad"] [bs "a"]). cbn [app]. done.
Defined.

(** ** Options *)

Definition boolean_found (e : string * DaemonOption) : bool := bool_decide (entry (bs (fst e)) BOOLEANS = Some (snd e)).
Lemma boolean_entries : forallb boolean_found BOOLEANS = true.
Proof. by vm_compute. Qed.
(** A directive of the option table sets its option and nothing else, with a
    value or without: the daemon differs in the one bit. *)
Theorem boolean_directive_exact rand nametoindex conf_dir k o v file n d : In (k, o) BOOLEANS -> options_ok d ->
  apply_line rand nametoindex conf_dir d (mkLine (bs k) v file n) = Val (Ok (set_option o d)) /\
  forall o', option_bool o' (set_option o d) = option_bool o' d || bool_decide (o' = o).
Proof.
  intros Hin Hok. split; [|intros o'; by apply set_option_get].
  pose proof boolean_entries as Hb. rewrite forallb_forall in Hb. specialize (Hb _ Hin). apply bool_decide_eq_true in Hb. cbn [fst snd] in Hb.
  unfold apply_line, HANDLERS. rewrite entry_app. change (cl_key (mkLine ?k ?v ?f ?n)) with k.
  assert (entry (bs k) boolean_handlers = Some (set_ o)) as ->; [|done]. revert Hb. unfold boolean_handlers. generalize BOOLEANS. intros l.
  induction l as [|[k' o'] l IH]; [done|]. unfold entry in *. cbn [List.find fst fmap list_fmap]. case_bool_decide; [by intros [= ->]|exact IH].
Qed.
Lemma boolean_directive_exact_witness : let d := daemon_default in
  apply_line (fun _ => 0) (fun _ => 0) (fun _ _ => Panic) d (mkLine (bs "dnssec") None [] 1) = Val (Ok (set_option OPT_DNSSEC_VALID d)) /\
  (forall o', option_bool o' (set_option OPT_DNSSEC_VALID d) = option_bool o' d || bool_decide (o' = OPT_DNSSEC_VALID)).
Proof.
  intros d. apply (boolean_directive_exact (fun _ => 0) (fun _ => 0) (fun _ _ => Panic) "dnssec"%string); [|by vm_compute].
  unfold BOOLEANS. repeat first [left; reflexivity | right].
Defined.
