(* ===== verification/Hosts.v ===== *)
(** * Hosts files and the records of the configuration in the cache

    The last part of src/src/cache.rs: a line of a hosts file as the forward and
    reverse records it stands for, the load and the reload of the files, and the
    aliases and host records of the configuration. What a reload leaves in the
    cache is the last line of every name and of every address. *)

From Stdlib Require Import ZArith Lia String.
From stdpp Require Import base numbers list option.
From S2P Require Import Prelude Types Arpa Lru Metrics Cache StdText Words RecordSet Records ConfigText.

#[local] Open Scope Z_scope.

(** An address and the names of a line, the first one canonical. *)
Record HostsEntry : Type := mkHosts { he_addr : IpAddr; he_names : list str }.
Definition hosts_line (line : str) : option HostsEntry :=
  let line := match split_once Byte.x23 line with Some (before, _) => before | None => line end in
  match split_whitespace (trim line) with
  | [] => None
  | ip_str :: parts =>
    let names := to_ascii_lowercase <$> parts in
    if (length names =? 0)%nat then None
    else match parse_ipv4 ip_str, parse_ipv6 ip_str with
         | Some a, _ => Some (mkHosts (V4 a) names)
         | None, Some a => Some (mkHosts (V6 a) names)
         | None, None => None
         end
  end.
Definition all_addr (a : IpAddr) : AllAddr := match a with V4 a => Addr4 a | V6 a => Addr6 a end.
Definition family (a : IpAddr) : Z := match a with V4 _ => F_IPV4 | V6 _ => F_IPV6 end.
Definition ptr_name (a : IpAddr) : str := match a with V4 a => ipv4_ptr_name a | V6 a => ipv6_ptr_name a end.
Definition hosts_expiry (ttl : Z) (now : Instant) : Instant := add_secs now (ttl + 3600).
Definition forward_record (ttl uid : Z) (now : Instant) (a : IpAddr) (name : str) : CacheRecord :=
  mkRec name (family a ∣∣ F_FORWARD ∣∣ F_HOSTS ∣∣ F_IMMORTAL) ttl (hosts_expiry ttl now) (Some (all_addr a)) None uid.
Definition reverse_record (ttl uid : Z) (now : Instant) (a : IpAddr) (name : str) : CacheRecord :=
  mkRec (ptr_name a) (family a ∣∣ F_REVERSE ∣∣ F_HOSTS ∣∣ F_IMMORTAL) ttl (hosts_expiry ttl now) (Some (all_addr a)) (Some name) uid.
Definition entry_records (ttl uid : Z) (now : Instant) (e : HostsEntry) : list CacheRecord :=
  (forward_record ttl uid now (he_addr e) <$> he_names e) ++ (reverse_record ttl uid now (he_addr e) <$> take 1 (he_names e)).

Section Hosts.
Context `{UnicodeTables} `{FileSystem} {L : Lru CacheKey CacheRecord}.

(** The records inserted are counted. *)
Definition parse_hosts_line (line : str) (ttl uid : Z) (now : Instant) (w : World) : nat * World :=
  match hosts_line line with
  | None => (0%nat, w)
  | Some e => let rs := entry_records ttl uid now e in (length rs, insert_all rs w)
  end.
(** The process-wide counter of identifiers beside the cache. *)
Record Loading : Type := mkLoading { ld_ctr : Z; ld_world : World }.
Definition take_uid (ctr : Z) : Z * Z := default (1, as_u32 2) (next_uid ctr).
(** The identifier and the count, and [None] for a file that cannot be read. *)
Definition load_hosts_file (path : str) (ttl : Z) (now : Instant) (s : Loading) : option (Z * nat) * Loading :=
  let '(uid, ctr) := take_uid (ld_ctr s) in
  match read_to_string path with
  | Err _ => (None, mkLoading ctr (ld_world s))
  | Ok text =>
    let '(total, w) := foldl (fun '(n, w) line => let '(k, w) := parse_hosts_line line ttl uid now w in ((n + k)%nat, w))
                         (0%nat, on_cache (register_record_source uid path) (ld_world s)) (lines text) in
    (Some (uid, total), mkLoading ctr w)
  end.
Definition load_more (ttl : Z) (now : Instant) (acc : nat * Loading) (path : str) : nat * Loading :=
  let '(loaded, s) := load_hosts_file path ttl now (snd acc) in
  ((match loaded with Some (_, n) => fst acc + n | None => fst acc end)%nat, s).
Definition reload_hosts (paths : list str) (ttl : Z) (now : Instant) (s : Loading) : nat * Loading :=
  foldl (load_more ttl now) (0%nat, mkLoading (ld_ctr s) (on_cache clear (ld_world s))) paths.

(** ** Records of the configuration *)

Definition config_ttl (ttl : Z) : Z := if ttl <? 0 then 0 else as_u32 ttl.
Definition cname_record (now : Instant) (c : CnameRec) : CacheRecord :=
  let ttl := config_ttl (cn_ttl c) in
  mkRec (cn_alias c) (F_FORWARD ∣∣ F_CNAME ∣∣ F_IMMORTAL ∣∣ F_CONFIG) ttl (hosts_expiry ttl now)
    (Some (Cname (mkCname true (Some (cn_target c)) UID_NONE))) None UID_NONE.
Definition insert_config_cnames (cnames : list CnameRec) (now : Instant) (w : World) : World :=
  insert_all (cname_record now <$> List.filter (fun c => negb (has_prefix (bs "*") (cn_alias c))) cnames) w.
Definition config_host (now : Instant) (ttl : Z) (a : IpAddr) (name : str) : list CacheRecord :=
  let r flags owner rdata := mkRec owner (F_HOSTS ∣∣ F_IMMORTAL ∣∣ flags ∣∣ F_CONFIG ∣∣ family a) ttl (hosts_expiry ttl now) (Some (all_addr a)) rdata UID_NONE in
  [r F_FORWARD name None; r F_REVERSE (ptr_name a) (Some name)].
Definition host_record_records (now : Instant) (hr : HostRecord) : list CacheRecord :=
  let ttl := config_ttl (hr_ttl hr) in
  hr_names hr ≫= fun name =>
    let name_lc := to_ascii_lowercase name in
    match hr_addr4 hr with Some a => config_host now ttl (V4 a) name_lc | None => [] end
    ++ match hr_addr6 hr with Some a => config_host now ttl (V6 a) name_lc | None => [] end.
Definition insert_host_records (host_records : list HostRecord) (now : Instant) (w : World) : World :=
  insert_all (host_records ≫= host_record_records now) w.
End Hosts.
