(* ===== verification/HostsSpec.v ===== *)
(** * What a reload of the hosts files leaves in the cache *)

From Stdlib Require Import ZArith Lia String.
From stdpp Require Import base numbers list option.
From S2P Require Import Prelude Types Arpa Lru Metrics Cache StdText Words RecordSet Records ConfigText ConfigSpec Hosts.

#[local] Open Scope Z_scope.

(** ** Addresses that are parsed fit their width *)

Definition ip_ok (a : IpAddr) : Prop := match a with V4 a => ip4_ok a | V6 a => ip6_ok a end.
Lemma hex_digit_bound : digit_ok hex_digit.
Proof. intros b d. unfold hex_digit, in_rng. repeat case_match; try done; intros [= <-]; lia. Qed.
Lemma read_number_bound digit radix n max z s v rest : digit_ok digit -> 0 <= radix -> 0 <= max ->
  read_number digit radix n max z s = Some (v, rest) -> 0 <= v <= max.
Proof.
  intros Hd Hr Hm. unfold read_number. destruct (span_digits digit s) as [ds r]. case_match; [done|].
  destruct (parse_digits digit radix max 0 ds) as [x|] eqn:E; [|done]. intros [= <- _]. eapply parse_digits_bound; [..|exact E]; (done || lia).
Qed.
Lemma read_sep_inv {A} c first (p : str -> option (A * str)) s r : read_sep c first p s = Some r -> exists s', p s' = Some r.
Proof. unfold read_sep. destruct first; [eauto|]. destruct s as [|b s]; [done|]. case_decide; [eauto|done]. Qed.
Lemma read_ipv4_bound s a rest : read_ipv4 s = Some (a, rest) -> ip4_ok a.
Proof.
  unfold read_ipv4, ip4_ok.
  destruct (read_sep dot true read_octet s) as [[o1 s1]|] eqn:E1; [|done].
  destruct (read_sep dot false read_octet s1) as [[o2 s2]|] eqn:E2; [|done].
  destruct (read_sep dot false read_octet s2) as [[o3 s3]|] eqn:E3; [|done].
  destruct (read_sep dot false read_octet s3) as [[o4 s4]|] eqn:E4; [|done]. intros [= <- _].
  repeat match goal with H : read_sep _ _ _ _ = Some _ |- _ => apply read_sep_inv in H as (? & H); apply read_number_bound in H; [|apply dec_digit_ok|lia..] end.
  lia.
Qed.
Definition group_ok (g : Z) : Prop := 0 <= g < 65536.
Lemma read_groups_bound n first s gs v4 rest : read_groups n first s = (gs, v4, rest) -> Forall group_ok gs /\ (length gs <= n)%nat.
Proof.
  revert first s gs v4 rest. induction n as [|n IH]; intros first s gs v4 rest; cbn [read_groups]; [intros [= <- _ _]; split; [constructor|done]|].
  destruct (if (n =? 0)%nat then None else read_sep colon first read_ipv4 s) as [[a s']|] eqn:E4.
  - intros [= <- _ _]. destruct (Nat.eqb_spec n 0) as [|Hn]; [done|]. apply read_sep_inv in E4 as (? & E4). apply read_ipv4_bound in E4.
    unfold ip4_ok in E4. split; [|cbn; lia]. repeat constructor; unfold group_ok; [apply Z.div_pos; lia|apply Z.div_lt_upper_bound; lia|apply Z.mod_pos_bound; lia..].
  - destruct (read_sep colon first (read_number hex_digit 16 4 65535 true) s) as [[g s']|] eqn:Eg; [|intros [= <- _ _]; split; [constructor|cbn; lia]].
    apply read_sep_inv in Eg as (? & Eg). apply read_number_bound in Eg; [|apply hex_digit_bound|lia..].
    destruct (read_groups n false s') as [[gs' v'] rest'] eqn:Er. intros [= <- _ _]. apply IH in Er as [H1 H2]. split; [constructor; [unfold group_ok; lia|done]|cbn; lia].
Qed.
Lemma of_groups_bound gs acc : Forall group_ok gs -> 0 <= acc -> 0 <= fold_left (fun acc g => acc * 65536 + g) gs acc < (acc + 1) * 65536 ^ Z.of_nat (length gs).
Proof.
  intros Hg. revert acc. induction Hg as [|g gs Hg Hgs IH]; intros acc Ha; [cbn; lia|]. unfold group_ok in Hg. cbn [fold_left length].
  destruct (IH (acc * 65536 + g)) as [H1 H2]; [lia|]. split; [done|]. eapply Z.lt_le_trans; [exact H2|].
  rewrite Nat2Z.inj_succ, Z.pow_succ_r by lia. pose proof (Z.pow_nonneg 65536 (Z.of_nat (length gs))). nia.
Qed.
Lemma of_groups_ok gs : Forall group_ok gs -> (length gs <= 8)%nat -> ip6_ok (of_groups gs).
Proof.
  intros Hg Hl. unfold ip6_ok, of_groups. destruct (of_groups_bound gs 0 Hg) as [H1 H2]; [done|]. split; [done|]. eapply Z.lt_le_trans; [exact H2|].
  change (2 ^ 128) with (65536 ^ 8). rewrite Z.mul_1_l. apply Z.pow_le_mono_r; lia.
Qed.
Lemma parse_ipv6_ok s a : parse_ipv6 s = Some a -> ip6_ok a.
Proof.
  unfold parse_ipv6. destruct (read_groups 8 true s) as [[hd v4] rest] eqn:E. apply read_groups_bound in E as [H1 H2].
  destruct (Nat.eqb_spec (length hd) 8) as [|Hh]; [destruct (length rest =? 0)%nat; [|done]; intros [= <-]; by apply of_groups_ok|].
  destruct v4; [done|]. destruct rest as [|c1 [|c2 rest]]; [done..|]. do 2 (case_decide; [|done]).
  destruct (read_groups (7 - length hd) true rest) as [[tl v] rest'] eqn:Et. apply read_groups_bound in Et as [H3 H4].
  destruct (length rest' =? 0)%nat; [|done]. intros [= <-]. apply of_groups_ok.
  - apply Forall_app. split; [done|]. apply Forall_app. split; [|done]. apply Forall_replicate. unfold group_ok. lia.
  - rewrite !length_app, length_replicate. lia.
Qed.
Lemma parse_ipv4_ok s a : parse_ipv4 s = Some a -> ip4_ok a.
Proof.
  unfold parse_ipv4, ip4_ok. destruct (length (split_on dot s) =? 4)%nat eqn:El; [|done]. apply Nat.eqb_eq in El.
  destruct (mapM parse_octet (split_on dot s)) as [os|] eqn:E; [|done]. intros [= <-]. apply mapM_Some, Forall2_length in E.
  pose proof (of_be_range os) as Hr. rewrite <- E, El in Hr. exact Hr.
Qed.
Lemma hosts_line_ok l e : hosts_line l = Some e -> ip_ok (he_addr e) /\ he_names e <> [].
Proof.
  unfold hosts_line. destruct (split_whitespace _) as [|ip parts]; [done|]. destruct parts as [|p parts]; [done|]. cbn [length fmap list_fmap Nat.eqb].
  destruct (parse_ipv4 ip) as [a|] eqn:E4; [intros [= <-]; split; [by eapply parse_ipv4_ok|done]|].
  destruct (parse_ipv6 ip) as [a|] eqn:E6; [|done]. intros [= <-]. split; [by eapply parse_ipv6_ok|done].
Qed.

(** ** The last record under a key *)

Section Last.
Context `{UnicodeTables} {L : Lru CacheKey CacheRecord}.
Definition last_with (k : CacheKey) (l : list CacheRecord) : option CacheRecord := list.last (List.filter (fun r => bool_decide (key_of r = k)) l).

Lemma last_with_snoc k l x : last_with k (l ++ [x]) = if decide (key_of x = k) then Some x else last_with k l.
Proof.
  unfold last_with. rewrite List.filter_app. cbn [List.filter]. case_decide as Hk.
  - rewrite bool_decide_true by done. by rewrite last_snoc.
  - rewrite bool_decide_false by done. by rewrite app_nil_r.
Qed.
Lemma last_with_app k l1 l2 : last_with k (l1 ++ l2) = match last_with k l2 with Some r => Some r | None => last_with k l1 end.
Proof. unfold last_with. rewrite List.filter_app, last_app. done. Qed.
Lemma last_with_key k l r : last_with k l = Some r -> key_of r = k /\ r ∈ l.
Proof.
  unfold last_with. intros Hl. apply last_Some_elem_of in Hl. rewrite list_elem_of_In, filter_In, bool_decide_eq_true in Hl.
  rewrite list_elem_of_In. tauto.
Qed.
Lemma insert_all_wf l w : wf (cache w) -> wf (cache (insert_all l w)) /\ max_size (cache (insert_all l w)) = max_size (cache w)
  /\ (length (entries (cache (insert_all l w))) <= length (entries (cache w)) + length l)%nat.
Proof.
  revert w. induction l as [|x l IH]; intros w Hw; [split; [done|split; [done|cbn; lia]]|]. cbn.
  destruct (IH (insert x w) (wf_insert x w Hw)) as (H1 & H2 & H3). destruct (insert_frame x w) as (F1 & _).
  pose proof (length_insert x w (wf_cap _ Hw)). unfold insert_all in *. split; [done|]. split; [congruence|lia].
Qed.
(** With room for all of them, the last record under a key is found. *)
Lemma insert_all_last l k w : wf (cache w) -> (length (entries (cache w)) + length l <= max_size (cache w))%nat ->
  look k (cache (insert_all l w)) = match last_with k l with Some r => Some r | None => look k (cache w) end.
Proof.
  intros Hw. induction l as [|x l IH] using rev_ind; intros Hr; [done|]. rewrite length_app in Hr. cbn in Hr.
  unfold insert_all. rewrite fold_left_app. fold (insert_all l w). cbn [fold_left]. rewrite last_with_snoc.
  destruct (insert_all_wf l w Hw) as (H1 & H2 & H3). case_decide as Hk; [subst k; apply look_insert_eq; lia|].
  destruct (look_insert_ne x (insert_all l w) k Hk) as [->|(_ & _ & Hf)]; [apply IH; lia|].
  rewrite (wf_cap _ H1), H2 in Hf. lia.
Qed.
Lemma last_with_bind {A} k (f : A -> list CacheRecord) l :
  last_with k (l ≫= f) = match list.last (List.filter (fun e => existsb (fun r => bool_decide (key_of r = k)) (f e)) l) with Some e => last_with k (f e) | None => None end.
Proof.
  induction l as [|e l IH] using rev_ind; [done|]. rewrite bind_app, last_with_app, List.filter_app, last_app. cbn [mbind list_bind List.filter].
  rewrite app_nil_r. destruct (existsb _ (f e)) eqn:E.
  - cbn. destruct (last_with k (f e)) eqn:Ew; [done|]. exfalso. apply existsb_exists in E as (r & Hin & Hk%bool_decide_eq_true).
    unfold last_with in Ew. apply last_None in Ew.
    assert (Hi : In r (List.filter (fun r => bool_decide (key_of r = k)) (f e))) by (apply filter_In; split; [done|by apply bool_decide_eq_true]).
    by rewrite Ew in Hi.
  - cbn. rewrite <- IH. destruct (last_with k (f e)) eqn:Ew; [|done]. exfalso. apply last_with_key in Ew as [Hk Hin].
    assert (existsb (fun r => bool_decide (key_of r = k)) (f e) = true); [|congruence]. apply existsb_exists. exists c.
    by rewrite <- list_elem_of_In, bool_decide_eq_true.
Qed.
End Last.

(** ** What a reload leaves *)

Section Served.
Context `{UnicodeTables} `{FileSystem} {L : Lru CacheKey CacheRecord}.

(** The lines of the files that can be read, in order, each with the
    identifier of its file. *)
Fixpoint loaded (paths : list str) (ctr : Z) : list (Z * HostsEntry) :=
  match paths with
  | [] => []
  | path :: paths =>
    let '(uid, ctr) := take_uid ctr in
    match read_to_string path with Ok text => pair uid <$> omap hosts_line (lines text) | Err _ => [] end ++ loaded paths ctr
  end.
Definition loaded_records (ttl : Z) (now : Instant) (l : list (Z * HostsEntry)) : list CacheRecord := l ≫= fun ue => entry_records ttl (fst ue) now (snd ue).

(** A world that the records [rs] were put into. *)
Definition filled (rs : list CacheRecord) (w w' : World) : Prop := wf (cache w) ->
  wf (cache w') /\ max_size (cache w') = max_size (cache w) /\ (length (entries (cache w')) <= length (entries (cache w)) + length rs)%nat /\
  ((length (entries (cache w)) + length rs <= max_size (cache w))%nat ->
   forall k, look k (cache w') = match last_with k rs with Some r => Some r | None => look k (cache w) end).
Lemma filled_app r1 r2 w w1 w2 : filled r1 w w1 -> filled r2 w1 w2 -> filled (r1 ++ r2) w w2.
Proof.
  intros F1 F2 Hw. destruct (F1 Hw) as (W1 & M1 & L1 & K1). destruct (F2 W1) as (W2 & M2 & L2 & K2). rewrite length_app. split_and!; [done|congruence|lia|].
  intros Hr k. rewrite K2, last_with_app by lia. destruct (last_with k r2); [done|]. apply K1. lia.
Qed.
Lemma filled_all rs w : filled rs w (insert_all rs w).
Proof. intros Hw. destruct (insert_all_wf rs w Hw) as (? & ? & ?). split_and!; [done..|]. intros Hr k. by apply insert_all_last. Qed.
Lemma filled_source uid path w : filled [] w (on_cache (register_record_source uid path) w).
Proof.
  intros Hw. unfold register_record_source. cbn [cache on_cache]. destruct (uid =? UID_NONE); cbn; split_and!; try done; try lia.
  - by apply wf_registry.
  - rewrite Nat.add_0_r. done.
Qed.

Lemma lines_loaded ttl uid now ls n w :
  let rs := loaded_records ttl now (pair uid <$> omap hosts_line ls) in
  foldl (fun '(n, w) line => let '(k, w) := parse_hosts_line line ttl uid now w in ((n + k)%nat, w)) (n, w) ls = ((n + length rs)%nat, insert_all rs w).
Proof.
  cbv zeta. revert n w. induction ls as [|l ls IH]; intros n w; [cbn; by rewrite Nat.add_0_r|]. cbn [foldl]. unfold parse_hosts_line. cbn [omap list_omap].
  destruct (hosts_line l) as [e|]; rewrite IH; [|by rewrite Nat.add_0_r]. cbn. rewrite length_app. unfold insert_all.
  rewrite fold_left_app. f_equal. unfold loaded_records. lia.
Qed.
Lemma load_spec ttl now path s :
  let uid := fst (take_uid (ld_ctr s)) in
  let rs := match read_to_string path with Ok text => loaded_records ttl now (pair uid <$> omap hosts_line (lines text)) | Err _ => [] end in
  forall n, exists w', load_more ttl now (n, s) path = ((n + length rs)%nat, mkLoading (snd (take_uid (ld_ctr s))) w') /\ filled rs (ld_world s) w'.
Proof.
  cbv zeta. intros n. unfold load_more, load_hosts_file. cbn [fst snd]. destruct (take_uid (ld_ctr s)) as [uid ctr]. cbn [fst snd].
  destruct (read_to_string path) as [text|].
  - rewrite lines_loaded. eexists. split; [done|]. apply (filled_app []) with (w1 := on_cache (register_record_source uid path) (ld_world s)); [apply filled_source|apply filled_all].
  - rewrite Nat.add_0_r. eexists. split; [done|]. intros Hw. cbn. split_and!; try done; lia.
Qed.
Lemma reload_spec ttl now paths : forall n s, exists s', foldl (load_more ttl now) (n, s) paths = ((n + length (loaded_records ttl now (loaded paths (ld_ctr s))))%nat, s') /\
  filled (loaded_records ttl now (loaded paths (ld_ctr s))) (ld_world s) (ld_world s').
Proof.
  induction paths as [|path paths IH]; intros n s; cbn [foldl loaded].
  - exists s. split; [by rewrite Nat.add_0_r|]. intros Hw. cbn. split_and!; try done; lia.
  - destruct (load_spec ttl now path s n) as (w' & -> & Hf). destruct (take_uid (ld_ctr s)) as [uid ctr]. cbn [fst snd] in *.
    destruct (IH (n + length (match read_to_string path with Ok text => loaded_records ttl now (pair uid <$> omap hosts_line (lines text)) | Err _ => [] end))%nat (mkLoading ctr w'))
      as (s' & -> & Hf'). exists s'. cbn [ld_ctr ld_world] in *.
    assert (loaded_records ttl now (match read_to_string path with Ok text => pair uid <$> omap hosts_line (lines text) | Err _ => [] end ++ loaded paths ctr) =
      match read_to_string path with Ok text => loaded_records ttl now (pair uid <$> omap hosts_line (lines text)) | Err _ => [] end ++ loaded_records ttl now (loaded paths ctr)) as ->.
    { unfold loaded_records. rewrite bind_app. by destruct (read_to_string path). }
    rewrite length_app. split; [f_equal; lia|]. by eapply filled_app.
Qed.

(** ** By name and by address *)

Definition names_host (name : str) (fam : Z) (ue : Z * HostsEntry) : bool :=
  (family (he_addr (snd ue)) =? fam) && existsb (fun n => bool_decide (to_lowercase n = to_lowercase name)) (he_names (snd ue)).
Definition at_address (a : IpAddr) (ue : Z * HostsEntry) : bool := bool_decide (he_addr (snd ue) = a).
Lemma forward_key ttl uid now a n : key_of (forward_record ttl uid now a n) = mkKeyOf (to_lowercase n) (family a).
Proof. unfold key_of. f_equal. by destruct a; vm_compute. Qed.
Lemma reverse_key ttl uid now a n : key_of (reverse_record ttl uid now a n) = mkKeyOf (to_lowercase (ptr_name a)) (family a ∣∣ F_REVERSE).
Proof. unfold key_of. f_equal. by destruct a; vm_compute. Qed.
Lemma family_forward a b : family a ∣∣ F_REVERSE <> family b.
Proof. by destruct a, b. Qed.
Lemma family_reverse a b : family a ∣∣ F_REVERSE = family b ∣∣ F_REVERSE -> family a = family b.
Proof. by destruct a, b. Qed.
Lemma ptr_name_inj a b : ip_ok a -> ip_ok b -> to_lowercase (ptr_name a) = to_lowercase (ptr_name b) -> a = b.
Proof.
  intros Ha Hb E. assert (in_arpa_name_2_addr (ptr_name a) = in_arpa_name_2_addr (ptr_name b)) as Hin by (unfold in_arpa_name_2_addr; by rewrite E).
  assert (forall x, ip_ok x -> in_arpa_name_2_addr (ptr_name x) = Some (all_addr x)) as Hp by (intros [x|x] Hx; [by apply in_arpa_ptr4|by apply in_arpa_ptr6]).
  rewrite !Hp in Hin by done. destruct a, b; cbn in Hin; congruence.
Qed.
Lemma existsb_ext {A} (f g : A -> bool) l : (forall x, x ∈ l -> f x = g x) -> existsb f l = existsb g l.
Proof. induction l as [|x l IH]; intros Hf; [done|]. cbn. rewrite (Hf x) by left. f_equal. apply IH. intros y Hy. apply Hf. by right. Qed.
Lemma filter_ext_elem {A} (f g : A -> bool) l : (forall x, x ∈ l -> f x = g x) -> List.filter f l = List.filter g l.
Proof. induction l as [|x l IH]; intros Hf; [done|]. cbn. rewrite (Hf x), IH; [done| |left]. intros y Hy. apply Hf. by right. Qed.
Lemma existsb_fmap {A B} (f : B -> bool) (g : A -> B) l : existsb f (g <$> l) = existsb (fun x => f (g x)) l.
Proof. induction l as [|x l IH]; [done|]. cbn. by rewrite <- IH. Qed.

Lemma existsb_false {A} (l : list A) : existsb (fun _ => false) l = false.
Proof. by induction l. Qed.

(** Which entries have a record under a key. *)
Lemma forward_at ttl uid now e name fam : (exists a, fam = family a) ->
  existsb (fun r => bool_decide (key_of r = mkKeyOf (to_lowercase name) fam)) (entry_records ttl uid now e) = names_host name fam (uid, e).
Proof.
  intros [a ->]. unfold entry_records, names_host. rewrite existsb_app, !existsb_fmap. cbn [snd].
  rewrite (existsb_ext _ (fun _ => false) (take 1 _)), (existsb_ext _ (fun n => bool_decide (to_lowercase n = to_lowercase name) && (family (he_addr e) =? family a)) (he_names e)).
  - rewrite existsb_false, orb_false_r. destruct (Z.eqb_spec (family (he_addr e)) (family a)) as [E|E]; cbn [andb].
    + apply existsb_ext. intros; by rewrite andb_true_r.
    + etrans; [apply existsb_ext|apply (existsb_false (he_names e))]. intros; by rewrite andb_false_r.
  - intros n _. rewrite forward_key. apply eq_true_iff_eq. rewrite andb_true_iff, !bool_decide_eq_true, Z.eqb_eq. split; [by intros [= -> ->]|by intros [-> ->]].
  - intros n _. rewrite reverse_key. apply bool_decide_eq_false. intros [= _ E]. by apply family_forward in E.
Qed.
Lemma reverse_at ttl uid now e a : ip_ok a -> ip_ok (he_addr e) -> he_names e <> [] ->
  existsb (fun r => bool_decide (key_of r = mkKeyOf (to_lowercase (ptr_name a)) (family a ∣∣ F_REVERSE))) (entry_records ttl uid now e) = at_address a (uid, e).
Proof.
  intros Ha He Hn. unfold entry_records, at_address. rewrite existsb_app, !existsb_fmap. cbn [snd].
  rewrite (existsb_ext _ (fun _ => false) (he_names e)), (existsb_ext _ (fun _ => bool_decide (he_addr e = a)) (take 1 (he_names e))).
  - destruct (he_names e) as [|x l]; [done|]. cbn. by rewrite orb_false_r, existsb_false.
  - intros n _. rewrite reverse_key. apply bool_decide_ext. split; [|by intros ->]. intros [= E _]. by apply ptr_name_inj.
  - intros n _. rewrite forward_key. apply bool_decide_eq_false. intros [= _ E]. symmetry in E. by apply family_forward in E.
Qed.
Lemma forward_value ttl uid now e name fam r : (exists a, fam = family a) ->
  last_with (mkKeyOf (to_lowercase name) fam) (entry_records ttl uid now e) = Some r -> cr_addr r = Some (all_addr (he_addr e)).
Proof.
  intros [a ->] [Hk Hin]%last_with_key. apply elem_of_app in Hin as [(n & -> & _)%list_elem_of_fmap|(n & -> & _)%list_elem_of_fmap]; [done|].
  rewrite reverse_key in Hk. injection Hk as _ Hk. by apply family_forward in Hk.
Qed.
Lemma reverse_value ttl uid now e a r :
  last_with (mkKeyOf (to_lowercase (ptr_name a)) (family a ∣∣ F_REVERSE)) (entry_records ttl uid now e) = Some r -> cr_rdata r = head (he_names e).
Proof.
  intros [Hk Hin]%last_with_key. apply elem_of_app in Hin as [(n & -> & _)%list_elem_of_fmap|(n & -> & Hn)%list_elem_of_fmap].
  - rewrite forward_key in Hk. injection Hk as _ Hk. symmetry in Hk. by apply family_forward in Hk.
  - destruct (he_names e) as [|x l]; [by apply elem_of_nil in Hn|]. cbn in Hn. by apply list_elem_of_singleton in Hn as ->.
Qed.
Lemma last_with_exists k l : existsb (fun r => bool_decide (key_of r = k)) l = true -> exists r, last_with k l = Some r.
Proof.
  intros Hl. destruct (last_with k l) as [r|] eqn:E; [by exists r|]. exfalso. unfold last_with in E. apply last_None in E.
  apply existsb_exists in Hl as (r & Hin & Hk). assert (In r (List.filter (fun r => bool_decide (key_of r = k)) l)) as Hf by by apply filter_In. by rewrite E in Hf.
Qed.
Lemma loaded_ok paths : forall ctr ue, ue ∈ loaded paths ctr -> ip_ok (he_addr (snd ue)) /\ he_names (snd ue) <> [].
Proof.
  induction paths as [|path paths IH]; intros ctr ue; cbn [loaded]; [by intros ?%elem_of_nil|]. destruct (take_uid ctr) as [uid ctr'].
  rewrite elem_of_app. intros [Hin|Hin]; [|by eapply IH]. destruct (read_to_string path) as [text|]; [|by apply elem_of_nil in Hin].
  apply list_elem_of_fmap in Hin as (e & -> & Hin). apply list_elem_of_omap in Hin as (l & _ & Hl). cbn. by eapply hosts_line_ok.
Qed.
(** The value the last entry with a record under the key gives. *)
Lemma last_value {V} (val : CacheRecord -> V) (fw : Z * HostsEntry -> V) ttl now k sel l :
  (forall ue, ue ∈ l -> existsb (fun r => bool_decide (key_of r = k)) (entry_records ttl (fst ue) now (snd ue)) = sel ue) ->
  (forall ue r, last_with k (entry_records ttl (fst ue) now (snd ue)) = Some r -> val r = fw ue) ->
  val <$> last_with k (loaded_records ttl now l) = fw <$> list.last (List.filter sel l).
Proof.
  intros Hs Hv. unfold loaded_records. rewrite last_with_bind, <- (filter_ext_elem _ _ l Hs). clear Hs.
  destruct (list.last _) as [ue|] eqn:El; [|done]. apply last_Some_elem_of in El. rewrite list_elem_of_In, filter_In in El. destruct El as [_ Hx].
  destruct (last_with_exists _ _ Hx) as [r Hr]. rewrite Hr. cbn. f_equal. by apply Hv.
Qed.

(** What a reload of the hosts files leaves, when the cache has room for it: it
    counts the records it made, and the cache holds nothing else. A name has
    the address of the last line, over all the files in order, that lists the
    name with an address of the family, and an address has the first name of
    the last line that starts with it. *)
Theorem reload_serves_last paths ttl now s :
  let lines := loaded paths (ld_ctr s) in
  wf (cache (ld_world s)) -> (length (loaded_records ttl now lines) <= max_size (cache (ld_world s)))%nat ->
  let '(n, s') := reload_hosts paths ttl now s in
  let found := fun name flags => look (mkKeyOf (to_lowercase name) flags) (cache (ld_world s')) in
  n = length (loaded_records ttl now lines) /\
  (forall k r, look k (cache (ld_world s')) = Some r -> r ∈ loaded_records ttl now lines) /\
  (forall name fam, fam = F_IPV4 \/ fam = F_IPV6 ->
     cr_addr <$> found name fam = (fun ue => Some (all_addr (he_addr (snd ue)))) <$> list.last (List.filter (names_host name fam) lines)) /\
  (forall a, ip_ok a ->
     cr_rdata <$> found (ptr_name a) (family a ∣∣ F_REVERSE) = (fun ue => head (he_names (snd ue))) <$> list.last (List.filter (at_address a) lines)).
Proof.
  cbv zeta. intros Hw Hr. unfold reload_hosts.
  destruct (reload_spec ttl now paths 0 (mkLoading (ld_ctr s) (on_cache clear (ld_world s)))) as (s' & -> & Hf). cbn [ld_ctr ld_world cache on_cache] in *.
  assert (wf (clear (cache (ld_world s)))) as Hc by (split; [cbn; rewrite lru_cap_clear; by apply wf_cap|unfold entries; cbn; rewrite lru_iter_clear; cbn; lia|unfold entries; cbn; by rewrite lru_iter_clear]).
  assert (entries (clear (cache (ld_world s))) = []) as He by apply lru_iter_clear.
  destruct (Hf Hc) as (_ & _ & _ & Hl). cbn [cache on_cache] in Hl. rewrite He in Hl. specialize (Hl Hr).
  assert (forall k, look k (cache (ld_world s')) = last_with k (loaded_records ttl now (loaded paths (ld_ctr s)))) as Hlook.
  { intros k. rewrite Hl. destruct (last_with k _); [done|]. unfold look. by rewrite He. }
  split_and!; [done|..].
  - intros k r. rewrite Hlook. by intros [_ ?]%last_with_key.
  - intros name fam Hfam. rewrite Hlook. assert (exists a, fam = family a) as Hex by (destruct Hfam as [-> | ->]; [by exists (V4 0)|by exists (V6 0)]).
    apply last_value; [intros [u e] _; by apply forward_at|intros [u e] r Hv; by eapply forward_value in Hv].
  - intros a Ha. rewrite Hlook. apply last_value; [intros [u e] Hin; apply loaded_ok in Hin as [? ?]; by apply reverse_at|intros [u e] r Hv; by eapply reverse_value in Hv].
Qed.
End Served.

(** Two lines for a name: the second address takes the place of the first. *)
Definition two_lines : FileSystem := {|
  read_to_string := fun p => if bool_decide (p = bs "hosts") then Ok (bs "10.0.0.1 a.test
10.0.0.2 A.test b.test # more
bad") else Err (bs "not found");
  read_dir := fun _ => Err (bs "not found") |}.
#[local] Existing Instance ascii_tables.
#[local] Existing Instance list_lru.
Example second_address_replaces :
  let '(n, s) := @reload_hosts ascii_tables two_lines list_lru [bs "hosts"; bs "absent"] 60 0 (mkLoading 1 (mkWorld (new 10) COUNTERS)) in
  let found name flags := look (mkKeyOf name flags) (cache (ld_world s)) in
  n = 5%nat /\ cr_addr <$> found (bs "a.test") F_IPV4 = Some (Some (Addr4 0x0A000002)) /\ cr_addr <$> found (bs "b.test") F_IPV4 = Some (Some (Addr4 0x0A000002)) /\
  cr_rdata <$> found (bs "1.0.0.10.in-addr.arpa") (F_IPV4 ∣∣ F_REVERSE) = Some (Some (bs "a.test")).
Proof. by vm_compute. Qed.
