(* ===== verification/Network.v ===== *)
(** * Interfaces and listeners: src/src/network.rs

    Which interfaces and addresses are served, by the filters of the
    configuration; the filter of the datagrams that arrive; listeners shared
    between interfaces; name servers of a resolv.conf file. Sockets and the
    kernel's list of interfaces are parameters. *)

From Stdlib Require Import ZArith Lia String.
From stdpp Require Import base numbers list option gmap countable.
From S2P Require Import Prelude Types StdText Words RecordSet DhcpTypes Records.
From S2P Require Arpa Dhcp6 Radv TftpServer Daemon.

#[local] Open Scope Z_scope.

(** ** Interfaces *)

Definition IFACE_LOOPBACK : Z := 0x8.
Record IfaceInfo : Type := mkIface {
  if_name : str; if_index : Z; if_addr : IpAddr; if_netmask : option IpAddr; if_flags : Z; if_label : option str; if_dad : bool; if_deprecated : bool }.
Definition is_loopback (i : IfaceInfo) : bool := has (if_flags i) IFACE_LOOPBACK.

Definition is_same_subnet (addr iface_addr netmask : Ipv4Addr) : bool := Z.land addr netmask =? Z.land iface_addr netmask.
Definition is_link_local_v4 (addr : Ipv4Addr) : bool := bool_decide (take 2 (octets4 addr) = [z8 169; z8 254]).
Definition is_ula_zero_v6 (addr : Ipv6Addr) : bool := bool_decide (octets6 addr = z8 0xfd :: replicate 15 (z8 0)).
Definition is_link_local_zero_v6 (addr : Ipv6Addr) : bool := bool_decide (octets6 addr = z8 0xfe :: z8 0x80 :: replicate 14 (z8 0)).

(** The one bits among the first [w]. *)
Definition count_ones (w : nat) (z : Z) : Z := Z.of_nat (length (List.filter (fun i => Z.testbit z (Z.of_nat i)) (seq 0 w))).
Definition netmask_to_prefix6 (mask : Ipv6Addr) : Z := count_ones 128 mask.
Definition enumerate_live_addrs6 (ifaces : list IfaceInfo) : list Dhcp6.LiveAddr6 :=
  omap (fun i => match if_addr i with
                 | V4 _ => None
                 | V6 addr => let prefix := match if_netmask i with Some (V6 mask) => netmask_to_prefix6 mask | _ => 128 end in
                              Some (Dhcp6.mkLive addr prefix (if_index i) 0xffffffff 0xffffffff false)
                 end) ifaces.
Definition parse_mac_addr_str (s : str) : option (list u8) :=
  let! bytes := mapM parse_hex_u8 (split_on Byte.x3a (trim s)) in
  let bytes := z8 <$> bytes in
  if (length bytes =? 0)%nat || forallb (fun b => u8z b =? 0) bytes then None else Some bytes.

(** ** The filter of the configuration *)

Record IfaceCheckConfig : Type := mkCheck { ck_allow : list str; ck_deny : list str; ck_addrs : list IpAddr; ck_unnamed_iface : bool }.
#[global] Instance IfaceCheckConfig_settable : Settable IfaceCheckConfig := fun c => mkCheck (ck_allow c) (ck_deny c) (ck_addrs c) (ck_unnamed_iface c).
Definition has_if_names (c : IfaceCheckConfig) : bool := ck_unnamed_iface c || negb (length (ck_allow c) =? 0)%nat.
Definition restricted (c : IfaceCheckConfig) : bool := has_if_names c || negb (length (ck_addrs c) =? 0)%nat.
Record IfaceCheckUsed : Type := mkUsed { us_names : list bool; us_addrs : list bool }.
Definition for_config (c : IfaceCheckConfig) : IfaceCheckUsed := mkUsed (replicate (length (ck_allow c)) false) (replicate (length (ck_addrs c)) false).
Definition named_in (patterns : list str) (name : str) : bool := existsb (TftpServer.iface_name_matches name) patterns.

(** [v.resize(n, false)], then the entries that match are set. *)
Definition mark_used {A} (f : A -> bool) (l : list A) (used : list bool) : list bool :=
  zip_with orb (resize (length l) false used) (f <$> l).
Definition iface_check_used (iface : IfaceInfo) (c : IfaceCheckConfig) (used : IfaceCheckUsed) : bool * IfaceCheckUsed :=
  let names := mark_used (fun p => restricted c && TftpServer.iface_name_matches (if_name iface) p) (ck_allow c) (us_names used) in
  let addrs := mark_used (fun a => restricted c && bool_decide (a = if_addr iface)) (ck_addrs c) (us_addrs used) in
  let match_addr := restricted c && bool_decide (if_addr iface ∈ ck_addrs c) in
  let ret := negb (restricted c) || named_in (ck_allow c) (if_name iface) || match_addr in
  (ret && (match_addr || negb (named_in (ck_deny c) (if_name iface))), mkUsed names addrs).
Definition iface_check (iface : IfaceInfo) (c : IfaceCheckConfig) : bool := fst (iface_check_used iface c (for_config c)).
Definition iface_check_name (name : str) (c : IfaceCheckConfig) : bool :=
  (negb (restricted c) || named_in (ck_allow c) name) && negb (named_in (ck_deny c) name).

(** ** Interfaces that are served *)

Record IfaceRecord : Type := mkIfaceRec {
  ir_name : str; ir_index : Z; ir_addr : IpAddr; ir_netmask : option Ipv4Addr; ir_prefix_len : Z; ir_loopback : bool; ir_dhcp4_ok : bool;
  ir_dhcp6_ok : bool; ir_tftp_ok : bool; ir_auth_dns : bool; ir_found : bool; ir_is_label : bool; ir_dad : bool }.
#[global] Instance IfaceRecord_settable : Settable IfaceRecord := fun r =>
  mkIfaceRec (ir_name r) (ir_index r) (ir_addr r) (ir_netmask r) (ir_prefix_len r) (ir_loopback r) (ir_dhcp4_ok r) (ir_dhcp6_ok r) (ir_tftp_ok r)
    (ir_auth_dns r) (ir_found r) (ir_is_label r) (ir_dad r).
Definition listen_addr (port : Z) (r : IfaceRecord) : MySockAddr :=
  match ir_addr r with
  | V4 a => SV4 a port
  | V6 a => SV6 a port 0 (if Dhcp6.is_link_local_v6 a then ir_index r else 0)
  end.
Definition loopback_exception (arrival_is_loopback : bool) (addr : IpAddr) (ifaces : list IfaceRecord) : bool :=
  arrival_is_loopback && existsb (fun r => bool_decide (ir_addr r = addr)) ifaces.

Record AuthInterface : Type := mkAuthIface { au_name : option str; au_addr : option IpAddr; au_flags : Z }.
(** A list of allowed names that no code reads is left out. *)
Record IfaceAllowedConfig : Type := mkAllowed { al_dhcp_except : list (str * Z); al_tftp_ifaces : list str; al_auth_interfaces : list AuthInterface }.
Definition family_ok (flags : Z) (addr : IpAddr) : bool :=
  if negb (has flags (Daemon.IFACE_V4 ∣∣ Radv.IFACE_V6)) then true
  else match addr with V4 _ => flag_contains flags Daemon.IFACE_V4 | V6 _ => flag_contains flags Radv.IFACE_V6 end.
Definition auth_entry_matches (name : str) (addr : IpAddr) (e : AuthInterface) : bool :=
  match au_name e with
  | Some ename => bool_decide (ename = name) && family_ok (au_flags e) addr
  | None => bool_decide (au_addr e = Some addr)
  end.
Definition auth_interface_match (name : str) (addr : IpAddr) (entries : list AuthInterface) : bool := existsb (auth_entry_matches name addr) entries.
Definition label_exception (index : Z) (addr : Ipv4Addr) (ifaces : list IfaceRecord) : bool :=
  existsb (fun r => (ir_index r =? index) && bool_decide (ir_addr r = V4 addr)) ifaces.

(** The services of an interface of one family, which has the bit [family] in
    the list of exceptions: DHCP and TFTP. *)
Definition services (name : str) (loopback auth_dns : bool) (family : Z) (a : IfaceAllowedConfig) : bool * bool :=
  if auth_dns then (false, false)
  else
    let except := List.filter (fun e => TftpServer.iface_name_matches name (fst e)) (al_dhcp_except a) in
    (negb loopback && negb (existsb (fun e => flag_contains (snd e) family) except),
     if negb (length except =? 0)%nat then false
     else if (length (al_tftp_ifaces a) =? 0)%nat then negb loopback
     else named_in (al_tftp_ifaces a) name).
(** The interface offered to the filter. *)
Definition candidate (name : str) (i : IfaceInfo) (netmask : option IpAddr) : IfaceInfo :=
  mkIface name (if_index i) (if_addr i) netmask (if is_loopback i then IFACE_LOOPBACK else 0) None false false.
Definition iface_allowed_v4 (i : IfaceInfo) (addr netmask : Ipv4Addr) (a : IfaceAllowedConfig) (c : IfaceCheckConfig) (used : IfaceCheckUsed)
  : option IfaceRecord * IfaceCheckUsed :=
  let name := if_name i in
  let effective_name := default name (if_label i) in
  let is_label := match if_label i with Some l => negb (bool_decide (l = name)) | None => false end in
  let auth_dns := auth_interface_match effective_name (V4 addr) (al_auth_interfaces a) in
  let '(ok, used) := iface_check_used (candidate effective_name i (Some (V4 netmask))) c used in
  if negb ok && negb auth_dns then (None, used)
  else
    let '(dhcp4_ok, tftp_ok) := services name (is_loopback i) auth_dns Daemon.IFACE_V4 a in
    (Some (mkIfaceRec name (if_index i) (V4 addr) (Some netmask) (count_ones 32 netmask) (is_loopback i) dhcp4_ok false tftp_ok auth_dns true is_label
             (if_dad i)), used).
Definition iface_allowed_v6 (i : IfaceInfo) (addr : Ipv6Addr) (prefix_len : Z) (a : IfaceAllowedConfig) (c : IfaceCheckConfig) (used : IfaceCheckUsed)
  : option IfaceRecord * IfaceCheckUsed :=
  let name := if_name i in
  let auth_dns := auth_interface_match name (V6 addr) (al_auth_interfaces a) in
  let '(ok, used) := iface_check_used (candidate name i None) c used in
  if negb ok && negb auth_dns then (None, used)
  else
    let '(dhcp6_ok, tftp_ok) := services name (is_loopback i) auth_dns Radv.IFACE_V6 a in
    (Some (mkIfaceRec name (if_index i) (V6 addr) None prefix_len (is_loopback i) false dhcp6_ok tftp_ok auth_dns true false (if_dad i)), used).

(** ** The enumeration *)

(** The records so far, the filter, to which loopback interfaces are added, and
    the entries of it that matched. *)
Record Enumeration : Type := mkEnum { en_interfaces : list IfaceRecord; en_check : IfaceCheckConfig; en_used : IfaceCheckUsed }.
Definition add_loopback (i : IfaceInfo) (e : Enumeration) : Enumeration :=
  let c := en_check e in
  if has_if_names c && is_loopback i && negb (bool_decide (if_name i ∈ ck_allow c)) then
    mkEnum (en_interfaces e) (c <| ck_allow ::= fun l => l ++ [if_name i] |>) (mkUsed (us_names (en_used e) ++ [true]) (us_addrs (en_used e)))
  else e.
Definition allow_iface (a : IfaceAllowedConfig) (i : IfaceInfo) (c : IfaceCheckConfig) (used : IfaceCheckUsed) : option IfaceRecord * IfaceCheckUsed :=
  match if_addr i with
  | V4 addr => iface_allowed_v4 i addr (match if_netmask i with Some (V4 m) => m | _ => 0 end) a c used
  | V6 addr => iface_allowed_v6 i addr (match if_netmask i with Some (V6 m) => count_ones 128 m | _ => 0 end) a c used
  end.
Definition enumerate_one (a : IfaceAllowedConfig) (e : Enumeration) (i : IfaceInfo) : Enumeration :=
  let e := add_loopback i e in
  if existsb (fun r => bool_decide (ir_addr r = if_addr i) && (ir_index r =? if_index i)) (en_interfaces e) then e
  else
    let '(record, used) := allow_iface a i (en_check e) (en_used e) in
    mkEnum (en_interfaces e ++ match record with Some r => [r] | None => [] end) (en_check e) used.
Definition enumerate_allowed_interfaces (a : IfaceAllowedConfig) (live : list IfaceInfo) (c : IfaceCheckConfig) : Enumeration :=
  foldl (enumerate_one a) (mkEnum [] c (for_config c)) live.
(** The entries that nothing matched. *)
Definition unmatched {A} (l : list A) (used : list bool) : list A := omap id (imap (fun i x => if default false (used !! i) then None else Some x) l).
Definition unmatched_names (e : Enumeration) (c : IfaceCheckConfig) : list str := unmatched (ck_allow c) (us_names (en_used e)).
Definition unmatched_addrs (e : Enumeration) (c : IfaceCheckConfig) : list IpAddr := unmatched (ck_addrs c) (us_addrs (en_used e)).

(** ** The filter of arriving datagrams *)

Record ArrivalFilter : Type := mkFilter { af_check : IfaceCheckConfig; af_allowed : IfaceAllowedConfig; af_interfaces : list IfaceRecord; af_cleverbind : bool }.
Definition is_unrestricted (f : ArrivalFilter) : bool := negb (restricted (af_check f)) && (length (ck_deny (af_check f)) =? 0)%nat.
(** [None] is a list the kernel does not give. *)
Definition refresh (live : option (list IfaceInfo)) (f : ArrivalFilter) : ArrivalFilter :=
  match live with
  | None => f
  | Some live =>
    let e := enumerate_allowed_interfaces (af_allowed f) live (af_check f) in
    mkFilter (en_check e) (af_allowed f) (en_interfaces e) (af_cleverbind f)
  end.
#[global] Instance MySockAddr_countable : Countable MySockAddr.
Proof.
  refine (inj_countable' (fun s => match s with SV4 a p => inl (a, p) | SV6 a p f c => inr (a, p, f, c) end)
            (fun x => match x with inl (a, p) => SV4 a p | inr (a, p, f, c) => SV6 a p f c end) _).
  by intros [].
Defined.
(** The addresses that appeared and those that are gone, in no order. *)
Definition diff_dynamic_interfaces (before after : list IfaceRecord) (port : Z) : gset MySockAddr * gset MySockAddr :=
  let b := list_to_set (listen_addr port <$> before) in
  let a := list_to_set (listen_addr port <$> after) in
  (a ∖ b, b ∖ a).
Definition refresh_dynamic (live : option (list IfaceInfo)) (port : Z) (f : ArrivalFilter) : gset MySockAddr * gset MySockAddr * ArrivalFilter :=
  if negb (af_cleverbind f) then (∅, ∅, f)
  else match live with
       | None => (∅, ∅, f)
       | Some _ => let f' := refresh live f in (diff_dynamic_interfaces (af_interfaces f) (af_interfaces f') port, f')
       end.
Definition accepts (indextoname : Z -> option str) (live : option (list IfaceInfo)) (if_index_ : Z) (dest : option IpAddr) (f : ArrivalFilter)
  : bool * ArrivalFilter :=
  if is_unrestricted f then (true, f)
  else match indextoname if_index_, dest with
  | Some name, Some dest =>
    if iface_check (mkIface name if_index_ dest None 0 None false false) (af_check f) then (true, f)
    else
      let f := if af_cleverbind f then f else refresh live f in
      let arrival_is_loopback := existsb (fun r => (ir_index r =? if_index_) && ir_loopback r) (af_interfaces f) in
      (loopback_exception arrival_is_loopback dest (af_interfaces f)
       || match dest with V4 v4 => label_exception if_index_ v4 (af_interfaces f) | V6 _ => false end, f)
  | _, _ => (false, f)
  end.
Definition clean_interfaces (l : list IfaceRecord) : nat * list IfaceRecord :=
  let kept := List.filter ir_found l in
  ((length l - length kept)%nat, (fun r => r <| ir_found := false |>) <$> kept).

(** ** Listeners *)

Inductive SockType : Type := Udp | Tcp.
(** What [make_sock] fails with. *)
Inductive SockError : Type := FamilyUnsupported | AddrNotAvailable | OtherError (message : str).
Record ListenerKinds : Type := mkKinds { k_udp : bool; k_tcp : bool; k_tftp : bool }.
Definition DEFAULT_KINDS : ListenerKinds := mkKinds true true false.
Definition UDP_ONLY : ListenerKinds := mkKinds true false false.
Definition set_port (a : MySockAddr) (port : Z) : MySockAddr := match a with SV4 ip _ => SV4 ip port | SV6 ip _ f s => SV6 ip port f s end.

Section Listeners.
(** [K] is the kernel's state, [Fd] a descriptor. *)
Context {K Fd : Type} (make_sock : MySockAddr -> SockType -> bool -> K -> result Fd SockError * K).

Record Listener : Type := mkListener {
  ls_addr : MySockAddr; ls_udp_fd : option Fd; ls_tcp_fd : option Fd; ls_tftp_fd : option Fd; ls_used : Z; ls_iface : option str }.
Definition bump_used (l : Listener) : Listener := mkListener (ls_addr l) (ls_udp_fd l) (ls_tcp_fd l) (ls_tftp_fd l) (ls_used l + 1) (ls_iface l).
Definition with_iface (n : str) (l : Listener) : Listener := mkListener (ls_addr l) (ls_udp_fd l) (ls_tcp_fd l) (ls_tftp_fd l) (ls_used l) (Some n).
(** Whether it was the last use, which closes the descriptors. *)
Definition release (l : Listener) : bool * Listener :=
  if 1 <? ls_used l then (false, mkListener (ls_addr l) (ls_udp_fd l) (ls_tcp_fd l) (ls_tftp_fd l) (ls_used l - 1) (ls_iface l))
  else (true, mkListener (ls_addr l) None None None (ls_used l) (ls_iface l)).

(** A socket that may be missing. *)
Definition open_sock (cleverbind nowild : bool) (want : bool) (addr : MySockAddr) (kind : SockType) (k : K) : result (option Fd) str * K :=
  if negb want then (Ok None, k)
  else match make_sock addr kind nowild k with
  | (Ok fd, k) => (Ok (Some fd), k)
  | (Err FamilyUnsupported, k) => (Ok None, k)
  | (Err AddrNotAvailable, k) => (if cleverbind then Ok None else Err (bs "address not available"), k)
  | (Err (OtherError m), k) => (Err m, k)
  end.
Definition create_listeners_checked (addr : MySockAddr) (kinds : ListenerKinds) (nowild cleverbind : bool) (k : K) : result (option Listener) str * K :=
  let '(udp, k) := open_sock cleverbind nowild (k_udp kinds) addr Udp k in
  match udp with
  | Err e => (Err e, k)
  | Ok udp =>
    let '(tcp, k) := open_sock cleverbind nowild (k_tcp kinds) addr Tcp k in
    match tcp with
    | Err e => (Err e, k)
    | Ok tcp =>
      let '(tftp, k) := open_sock cleverbind nowild (k_tftp kinds) (set_port addr 69) Udp k in
      match tftp with
      | Err e => (Err e, k)
      | Ok tftp =>
        match udp, tcp, tftp with
        | None, None, None => (Ok None, k)
        | _, _, _ => (Ok (Some (mkListener addr udp tcp tftp 1 None)), k)
        end
      end
    end
  end.
Fixpoint create_wildcard (addrs : list MySockAddr) (kinds : ListenerKinds) (k : K) : result (list Listener) str * K :=
  match addrs with
  | [] => (Ok [], k)
  | addr :: addrs =>
    match create_listeners_checked addr kinds false false k with
    | (Err e, k) => (Err e, k)
    | (Ok l, k) => match create_wildcard addrs kinds k with
                   | (Err e, k) => (Err e, k)
                   | (Ok ls, k) => (Ok (option_list l ++ ls), k)
                   end
    end
  end.
Definition create_wildcard_listeners_checked (port : Z) : ListenerKinds -> K -> result (list Listener) str * K :=
  create_wildcard [SV4 0 port; SV6 0 port 0 0].
(** The position of the listener of an address. *)
Definition find_listener (ls : list Listener) (addr : MySockAddr) : option nat := fst <$> list_find (fun l => ls_addr l = addr) ls.
Fixpoint create_bound_listeners_checked (ls : list Listener) (iface_addrs : list (MySockAddr * str)) (kinds : ListenerKinds) (nowild cleverbind : bool)
  (created : nat) (k : K) : result (nat * list Listener) str * K :=
  match iface_addrs with
  | [] => (Ok (created, ls), k)
  | (addr, name) :: rest =>
    match find_listener ls addr with
    | Some i => create_bound_listeners_checked (alter bump_used i ls) rest kinds nowild cleverbind created k
    | None =>
      match create_listeners_checked addr kinds nowild cleverbind k with
      | (Err e, k) => (Err e, k)
      | (Ok None, k) => create_bound_listeners_checked ls rest kinds nowild cleverbind created k
      | (Ok (Some l), k) => create_bound_listeners_checked (ls ++ [with_iface name l]) rest kinds nowild cleverbind (S created) k
      end
    end
  end.
End Listeners.
Arguments Listener : clear implicits.

(** ** Name servers of a file *)

Definition resolv_server (nametoindex : str -> Z) (dns_port : Z) (line : str) : option MySockAddr :=
  match split_whitespace (trim line) with
  | keyword :: addr_str :: _ =>
    if bool_decide (keyword = bs "nameserver") || bool_decide (keyword = bs "server") then
      let '(clean, scope) := match split_once Byte.x25 addr_str with Some (a, s) => (a, Some s) | None => (addr_str, None) end in
      match parse_ipv4 clean, parse_ipv6 clean with
      | Some a, _ => Some (SV4 a dns_port)
      | None, Some a => Some (SV6 a dns_port 0 (match scope with Some s => nametoindex s | None => 0 end))
      | None, None => None
      end
    else None
  | _ => None
  end.
Definition parse_resolv_conf (nametoindex : str -> Z) (text : str) (dns_port : Z) : list MySockAddr :=
  omap (resolv_server nametoindex dns_port) (lines text).

(** ** Warnings *)

Definition is_globally_routable (addr : IpAddr) : bool :=
  match addr with
  | V4 v4 =>
    let o i := u8z (nth i (octets4 v4) Byte.x00) in
    negb ((o 0%nat =? 10) || ((o 0%nat =? 172) && (Z.land (o 1%nat) 0xf0 =? 16)) || ((o 0%nat =? 192) && (o 1%nat =? 168)) || (o 0%nat =? 127) || (v4 =? 0))
  | V6 v6 =>
    let o i := u8z (nth i (octets6 v6) Byte.x00) in
    negb ((Z.land (o 0%nat) 0xfe =? 0xfc) || ((o 0%nat =? 0xfe) && (Z.land (o 1%nat) 0xc0 =? 0x80)) || (v6 =? 1) || (v6 =? 0))
  end.
Definition loud_warning (r : IfaceRecord) : option str :=
  match ir_auth_dns r, ir_addr r with
  | false, V4 v4 =>
    if Arpa.private_net v4 true then None
    else Some (bs "LOUD WARNING: listening on " ++ fmt_ipv4 v4 ++ bs " may accept requests via interfaces other than " ++ ir_name r)
  | _, _ => None
  end.
Definition warn_bound_listeners (interfaces : list IfaceRecord) : list str :=
  match omap loud_warning interfaces with
  | [] => []
  | warnings => warnings ++ [bs "LOUD WARNING: use --bind-dynamic rather than --bind-interfaces to avoid DNS amplification attacks via these interface(s)"]
  end.
Definition warn_wild_labels (interfaces : list IfaceRecord) : list str :=
  (fun r => bs "warning: using interface " ++ ir_name r ++ bs " instead") <$> List.filter (fun r => ir_found r && ir_is_label r) interfaces.
Definition warn_int_names (int_names : list InterfaceName) : list str :=
  (fun n => bs "warning: no addresses found for interface " ++ in_intr n) <$> List.filter (fun n => (length (in_addrs n) =? 0)%nat) int_names.
Definition is_dad_listeners (interfaces : list IfaceRecord) (bound : list MySockAddr) (nowild : bool) (port : Z) : bool :=
  nowild && existsb (fun r => ir_dad r && negb (bool_decide (listen_addr port r ∈ bound))) interfaces.
Definition sock_port (a : MySockAddr) : Z := match a with SV4 _ p | SV6 _ p _ _ => p end.
Definition validate_server_addr (addr : MySockAddr) : option string :=
  if sock_port addr =? 0 then Some "port is zero"%string
  else match sock_ip addr with
       | V4 a => if a =? 0 then Some "address is 0.0.0.0"%string else None
       | V6 a => if a =? 0 then Some "address is ::"%string else None
       end.
