(* ===== verification/NetworkSpec.v ===== *)
(** * What the interface filter serves

    The enumeration of the interfaces against the rule of the configuration,
    the entries that matched none, and the uses of shared listeners. *)

From Stdlib Require Import ZArith Lia String.
From stdpp Require Import base numbers list option gmap countable.
From S2P Require Import Prelude Types StdText RecordSet DhcpTypes Records Network.
From S2P Require TftpServer Daemon Radv.

#[local] Open Scope Z_scope.

(** ** The rule *)

Definition info_key (i : IfaceInfo) : IpAddr * Z := (if_addr i, if_index i).
Definition record_key (r : IfaceRecord) : IpAddr * Z := (ir_addr r, ir_index r).
(** The name the filter sees: the label of an IPv4 address. *)
Definition effective (i : IfaceInfo) : str := match if_addr i with V4 _ => default (if_name i) (if_label i) | V6 _ => if_name i end.
(** Loopback interfaces met so far are named when any interface is. *)
Definition as_loopback (c : IfaceCheckConfig) (seen : list IfaceInfo) (name : str) : bool :=
  has_if_names c && existsb (fun i => is_loopback i && TftpServer.iface_name_matches name (if_name i)) seen.
Definition filtered (c : IfaceCheckConfig) (seen : list IfaceInfo) (name : str) (addr : IpAddr) : bool :=
  let listed := bool_decide (addr ∈ ck_addrs c) in
  (negb (restricted c) || named_in (ck_allow c) name || as_loopback c seen name || listed) && (listed || negb (named_in (ck_deny c) name)).
Definition permitted (a : IfaceAllowedConfig) (c : IfaceCheckConfig) (seen : list IfaceInfo) (i : IfaceInfo) : bool :=
  filtered c seen (effective i) (if_addr i) || auth_interface_match (effective i) (if_addr i) (al_auth_interfaces a).

(** ** The filter widened by loopback interfaces *)

Definition widen (c : IfaceCheckConfig) (i : IfaceInfo) : IfaceCheckConfig :=
  if has_if_names c && is_loopback i && negb (bool_decide (if_name i ∈ ck_allow c)) then c <| ck_allow ::= fun l => l ++ [if_name i] |> else c.

Lemma add_loopback_check i e : en_check (add_loopback i e) = widen (en_check e) i.
Proof. unfold add_loopback, widen. by destruct (_ && _). Qed.
Lemma add_loopback_interfaces i e : en_interfaces (add_loopback i e) = en_interfaces e.
Proof. unfold add_loopback. by destruct (_ && _). Qed.
Lemma widen_fields c i : ck_addrs (widen c i) = ck_addrs c /\ ck_deny (widen c i) = ck_deny c /\ has_if_names (widen c i) = has_if_names c.
Proof.
  unfold widen. destruct (has_if_names c) eqn:E; [|done]. cbn [andb]. case_match; [|done]. cbn. repeat split.
  unfold has_if_names. cbn. rewrite length_app. cbn. rewrite Nat.add_comm. apply orb_true_r.
Qed.
Lemma named_in_app l1 l2 n : named_in (l1 ++ l2) n = named_in l1 n || named_in l2 n.
Proof. apply existsb_app. Qed.
Lemma named_in_elem l n p : p ∈ l -> TftpServer.iface_name_matches n p = true -> named_in l n = true.
Proof. intros H1 H2. apply existsb_exists. exists p. by rewrite <- list_elem_of_In. Qed.
Lemma widen_named c i n : named_in (ck_allow (widen c i)) n = named_in (ck_allow c) n || (has_if_names c && (is_loopback i && TftpServer.iface_name_matches n (if_name i))).
Proof.
  unfold widen. destruct (has_if_names c); [|by rewrite orb_false_r]. destruct (is_loopback i); [|by rewrite orb_false_r].
  cbn [andb]. case_bool_decide as Hin; cbn [negb].
  - destruct (TftpServer.iface_name_matches n (if_name i)) eqn:E; [|by rewrite orb_false_r]. by rewrite (named_in_elem _ _ _ Hin E).
  - change (ck_allow (c <| ck_allow ::= _ |>)) with (ck_allow c ++ [if_name i]). rewrite named_in_app. cbn. by rewrite orb_false_r.
Qed.
Lemma widen_all c l : let c' := foldl widen c l in
  ck_addrs c' = ck_addrs c /\ ck_deny c' = ck_deny c /\ has_if_names c' = has_if_names c
  /\ forall n, named_in (ck_allow c') n = named_in (ck_allow c) n || as_loopback c l n.
Proof.
  induction l as [|i l IH] using rev_ind; cbn.
  - repeat split. intro n. unfold as_loopback. cbn. by rewrite andb_false_r, orb_false_r.
  - rewrite foldl_app. cbn. destruct IH as (H1 & H2 & H3 & H4). destruct (widen_fields (foldl widen c l) i) as (W1 & W2 & W3).
    rewrite W1, W2, W3. repeat split; [done..|]. intro n. rewrite widen_named, H4, H3. unfold as_loopback.
    rewrite existsb_app. cbn. by rewrite orb_false_r, andb_orb_distrib_r, orb_assoc.
Qed.
Lemma restricted_widen c l : restricted (foldl widen c l) = restricted c.
Proof. destruct (widen_all c l) as (H1 & _ & H3 & _). unfold restricted. by rewrite H1, H3. Qed.

(** ** One interface *)

Lemma iface_check_used_spec i c used : fst (iface_check_used i c used) =
  (negb (restricted c) || named_in (ck_allow c) (if_name i) || bool_decide (if_addr i ∈ ck_addrs c))
  && (bool_decide (if_addr i ∈ ck_addrs c) || negb (named_in (ck_deny c) (if_name i))).
Proof.
  unfold iface_check_used. cbn [fst]. case_bool_decide as H; [|by rewrite andb_false_r].
  assert (R : restricted c = true).
  { unfold restricted. destruct (ck_addrs c); [by apply elem_of_nil in H|]. apply orb_true_r. }
  by rewrite R.
Qed.
Lemma check_permits a c l i used name : name = effective i ->
  (forall m, fst (iface_check_used (candidate name i m) (foldl widen c l) used) || auth_interface_match name (if_addr i) (al_auth_interfaces a) = permitted a c l i).
Proof.
  intros -> m. rewrite iface_check_used_spec, restricted_widen. destruct (widen_all c l) as (H1 & H2 & _ & H4). cbn. rewrite H1, H2, H4.
  unfold permitted, filtered. f_equal. f_equal. by rewrite !orb_assoc.
Qed.

(** A record stands for its interface: its key, and the services, none of which
    an interface that serves zones or (for DHCP) a loopback interface has. *)
Definition stands_for (a : IfaceAllowedConfig) (i : IfaceInfo) (r : IfaceRecord) : Prop :=
  record_key r = info_key i /\ ir_name r = if_name i /\ ir_loopback r = is_loopback i /\ ir_found r = true
  /\ ir_auth_dns r = auth_interface_match (effective i) (if_addr i) (al_auth_interfaces a)
  /\ (ir_dhcp4_ok r = true <-> (exists v4, if_addr i = V4 v4) /\ is_loopback i = false /\ ir_auth_dns r = false
        /\ forall p f, (p, f) ∈ al_dhcp_except a -> TftpServer.iface_name_matches (if_name i) p = true -> flag_contains f Daemon.IFACE_V4 = false)
  /\ (ir_dhcp6_ok r = true <-> (exists v6, if_addr i = V6 v6) /\ is_loopback i = false /\ ir_auth_dns r = false
        /\ forall p f, (p, f) ∈ al_dhcp_except a -> TftpServer.iface_name_matches (if_name i) p = true -> flag_contains f Radv.IFACE_V6 = false)
  /\ (ir_tftp_ok r = true <-> ir_auth_dns r = false /\ (forall p f, (p, f) ∈ al_dhcp_except a -> TftpServer.iface_name_matches (if_name i) p = false)
        /\ (if decide (al_tftp_ifaces a = []) then is_loopback i = false else named_in (al_tftp_ifaces a) (if_name i) = true)).
Lemma except_elem n a p f : (p, f) ∈ List.filter (fun e => TftpServer.iface_name_matches n (fst e)) (al_dhcp_except a)
  <-> (p, f) ∈ al_dhcp_except a /\ TftpServer.iface_name_matches n p = true.
Proof. rewrite !list_elem_of_In. apply filter_In. Qed.
Lemma services_dhcp n lo au fam a : fst (services n lo au fam a) = true <-> lo = false /\ au = false
  /\ forall p f, (p, f) ∈ al_dhcp_except a -> TftpServer.iface_name_matches n p = true -> flag_contains f fam = false.
Proof.
  unfold services. destruct au; cbn; [naive_solver|]. rewrite andb_true_iff, !negb_true_iff. split.
  - intros [-> H]. repeat split. intros p f H1 H2. destruct (flag_contains f fam) eqn:E; [|done].
    rewrite <- H. symmetry. apply existsb_exists. exists (p, f). rewrite <- list_elem_of_In, except_elem. done.
  - intros (-> & _ & H). split; [done|]. apply not_true_iff_false. rewrite existsb_exists. intros ([p f] & Hin & Hf).
    rewrite <- list_elem_of_In, except_elem in Hin. cbn in Hf, Hin. destruct Hin as [H1 H2]. rewrite (H p f H1 H2) in Hf. done.
Qed.
Lemma services_tftp n lo au fam a : snd (services n lo au fam a) = true <-> au = false /\ (forall p f, (p, f) ∈ al_dhcp_except a -> TftpServer.iface_name_matches n p = false)
  /\ (if decide (al_tftp_ifaces a = []) then lo = false else named_in (al_tftp_ifaces a) n = true).
Proof.
  unfold services. destruct au; cbn [snd]; [naive_solver|].
  assert (E : negb (length (List.filter (fun e => TftpServer.iface_name_matches n (fst e)) (al_dhcp_except a)) =? 0)%nat = false
    <-> forall p f, (p, f) ∈ al_dhcp_except a -> TftpServer.iface_name_matches n p = false).
  { rewrite negb_false_iff, Nat.eqb_eq, length_zero_iff_nil. split.
    - intros H p f Hin. destruct (TftpServer.iface_name_matches n p) eqn:E; [|done]. pose proof (proj2 (except_elem n a p f) (conj Hin E)) as Hf.
      rewrite H in Hf. by apply elem_of_nil in Hf.
    - intro H. destruct (List.filter _ _) as [|[p f] l] eqn:Ef; [done|]. exfalso.
      assert (Hin : (p, f) ∈ (p, f) :: l) by left. rewrite <- Ef, except_elem in Hin. destruct Hin as [H1 H2]. by rewrite (H p f) in H2. }
  destruct (negb _) eqn:En; cbn [snd].
  - split; [done|]. intros (_ & H & _). apply E in H. congruence.
  - pose proof (proj1 E eq_refl) as H. destruct (al_tftp_ifaces a) eqn:Et; cbn [length Nat.eqb].
    + rewrite decide_True by done. destruct lo; naive_solver.
    + rewrite decide_False by done. naive_solver.
Qed.
Lemma allow_iface_spec a c l i used :
  match fst (allow_iface a i (foldl widen c l) used) with Some r => permitted a c l i = true /\ stands_for a i r | None => permitted a c l i = false end.
Proof.
  unfold allow_iface, stands_for, record_key, info_key, effective. destruct (if_addr i) as [v4|v6] eqn:Ea.
  - unfold iface_allowed_v4. set (nm := match if_netmask i with Some (V4 m) => m | _ => 0 end).
    pose proof (check_permits a c l i used (default (if_name i) (if_label i))) as Hc. unfold effective in Hc. rewrite Ea in Hc.
    specialize (Hc eq_refl (Some (V4 nm))). destruct (iface_check_used _ _ _) as [ok used']. cbn [fst] in Hc.
    rewrite <- Hc. destruct ok, (auth_interface_match _ _ _) eqn:Eau; cbn [negb andb orb fst]; try done.
    all: match goal with |- context [services ?n ?lo ?au ?f ?a] => pose proof (services_dhcp n lo au f a) as Hd; pose proof (services_tftp n lo au f a) as Ht; destruct (services n lo au f a) end; cbn in *; naive_solver.
  - unfold iface_allowed_v6.
    pose proof (check_permits a c l i used (if_name i)) as Hc. unfold effective in Hc. rewrite Ea in Hc.
    specialize (Hc eq_refl None). destruct (iface_check_used _ _ _) as [ok used']. cbn [fst] in Hc.
    rewrite <- Hc. destruct ok, (auth_interface_match _ _ _) eqn:Eau; cbn [negb andb orb fst]; try done.
    all: match goal with |- context [services ?n ?lo ?au ?f ?a] => pose proof (services_dhcp n lo au f a) as Hd; pose proof (services_tftp n lo au f a) as Ht; destruct (services n lo au f a) end; cbn in *; naive_solver.
Qed.

(** ** The enumeration *)

Section Enumeration.
Context (a : IfaceAllowedConfig) (c : IfaceCheckConfig).
Notation enum l := (enumerate_allowed_interfaces a l c).

Lemma enum_snoc l i : enum (l ++ [i]) = enumerate_one a (enum l) i.
Proof. unfold enumerate_allowed_interfaces. by rewrite foldl_app. Qed.
Lemma enumerate_one_check e i : en_check (enumerate_one a e i) = widen (en_check e) i.
Proof. unfold enumerate_one. rewrite <- add_loopback_check. destruct (existsb _ _); [done|]. by destruct (allow_iface _ _ _ _). Qed.
Lemma enum_check l : en_check (enum l) = foldl widen c l.
Proof. induction l as [|i l IH] using rev_ind; [done|]. by rewrite enum_snoc, enumerate_one_check, IH, foldl_app. Qed.
Lemma recorded_key (l : list IfaceRecord) i : existsb (fun r => bool_decide (ir_addr r = if_addr i) && (ir_index r =? if_index i)) l = true <-> info_key i ∈ record_key <$> l.
Proof.
  rewrite existsb_exists, list_elem_of_fmap. split; intros (r & H1 & H2); exists r.
  - apply andb_true_iff in H2 as [H2%bool_decide_eq_true H3%Z.eqb_eq]. unfold info_key, record_key. rewrite list_elem_of_In. by rewrite H2, H3.
  - injection H1 as H1 H3. rewrite <- list_elem_of_In. rewrite H1, H3, Z.eqb_refl, bool_decide_true; done.
Qed.
(** What one interface adds. *)
Lemma enumerate_one_step e i l : en_check e = foldl widen c l ->
  let found := en_interfaces (enumerate_one a e i) in
  (found = en_interfaces e /\ (info_key i ∈ record_key <$> en_interfaces e \/ permitted a c (l ++ [i]) i = false))
  \/ exists r, found = en_interfaces e ++ [r] /\ info_key i ∉ record_key <$> en_interfaces e /\ permitted a c (l ++ [i]) i = true /\ stands_for a i r.
Proof.
  intro Hc. unfold enumerate_one. pose proof (add_loopback_interfaces i e) as Hi. pose proof (add_loopback_check i e) as Hk.
  assert (Hw : en_check (add_loopback i e) = foldl widen c (l ++ [i])) by (by rewrite Hk, Hc, foldl_app).
  set (e' := add_loopback i e) in *. destruct (existsb _ _) eqn:E.
  - rewrite recorded_key, Hi in E. left. auto.
  - assert (Hn : info_key i ∉ record_key <$> en_interfaces e) by (rewrite <- Hi, <- recorded_key; congruence).
    pose proof (allow_iface_spec a c (l ++ [i]) i (en_used e')) as Hs. rewrite <- Hw in Hs.
    destruct (allow_iface a i (en_check e') (en_used e')) as [[r|] used]; cbn in *; rewrite Hi.
    + right. exists r. destruct Hs. auto.
    + left. rewrite app_nil_r. auto.
Qed.

(** The records of an enumeration are exactly the addresses the
    configuration permits: no (address, interface) pair occurs twice; a pair
    is recorded if and only if a live interface has it that the name filter,
    the listen addresses, the loopback rule applied to the interfaces met so
    far, or an auth-server entry admits; and every record carries the
    services its interface may have, in particular no DHCP on loopback
    interfaces and neither DHCP nor TFTP on those that serve zones. *)
Theorem enumeration_exact live :
  NoDup (record_key <$> en_interfaces (enum live))
  /\ (forall k, k ∈ record_key <$> en_interfaces (enum live) <->
        exists seen i rest, live = seen ++ i :: rest /\ info_key i = k /\ permitted a c (seen ++ [i]) i = true)
  /\ (forall r, r ∈ en_interfaces (enum live) -> exists i, i ∈ live /\ stands_for a i r).
Proof.
  induction live as [|i l IH] using rev_ind.
  - split; [constructor|]. split; [|intros r []%elem_of_nil]. intro k. split; [intros []%elem_of_nil|].
    by intros ([] & ? & ? & ? & _).
  - rewrite enum_snoc. destruct IH as (ND & Hk & Hr).
    destruct (enumerate_one_step (enum l) i l (enum_check l)) as [(-> & Hno)|(r & -> & Hnew & Hp & Hs)].
    + split; [done|]. split; [|intros r (j & Hj & Hs)%Hr; exists j; split; [apply elem_of_app; auto|done]].
      intro k. rewrite Hk. split.
      * intros (seen & j & rest & -> & H1 & H2). exists seen, j, (rest ++ [i]). by rewrite <- app_assoc.
      * intros (seen & j & rest & Hl & <- & H2). destruct rest as [|x rest _] using rev_ind.
        -- apply app_inj_tail in Hl as [-> ->]. destruct Hno as [Hno|Hno]; [by apply Hk|congruence].
        -- rewrite app_comm_cons, app_assoc in Hl. apply app_inj_tail in Hl as [-> _]. by exists seen, j, rest.
    + rewrite fmap_app. split; [|split].
      * apply list.NoDup_app. split; [done|]. destruct Hs as [Hs _]. cbn. rewrite Hs. split; [|apply NoDup_singleton].
        intros k Hin ->%list_elem_of_singleton. done.
      * intro k. rewrite elem_of_app, Hk. cbn. rewrite list_elem_of_singleton. destruct Hs as [-> _]. split.
        -- intros [(seen & j & rest & -> & H1 & H2)| ->]; [exists seen, j, (rest ++ [i]); by rewrite <- app_assoc|by exists l, i, []].
        -- intros (seen & j & rest & Hl & <- & H2). destruct rest as [|x rest _] using rev_ind.
           ++ apply app_inj_tail in Hl as [-> ->]. by right.
           ++ rewrite app_comm_cons, app_assoc in Hl. apply app_inj_tail in Hl as [-> _]. left. by exists seen, j, rest.
      * intros r' [(j & Hj & Hs')%Hr|Hr']%elem_of_app; [exists j; split; [apply elem_of_app; auto|done]|].
        apply list_elem_of_singleton in Hr' as ->. exists i. split; [apply elem_of_app; right; by left|done].
Qed.

(** *** The entries that matched *)

Definition marked {A} (l : list A) (used : list bool) (f : A -> bool) : Prop := (length l <= length used)%nat /\ take (length l) used = f <$> l.
Lemma take_zip_orb (l : list bool) (m : list bool) n : take n (zip_with orb l m) = zip_with orb (take n l) (take n m).
Proof. revert l m. induction n as [|n IH]; intros [|x l] [|y m]; cbn; [done..|]. by rewrite IH. Qed.
Lemma mark_used_marked {A} (f g : A -> bool) (l l' : list A) used : length used = length l' -> take (length l) l' = l -> marked l used f ->
  marked l (mark_used g l' used) (fun x => f x || g x) /\ length (mark_used g l' used) = length l'.
Proof.
  intros Hu Hl [Hle Hm]. unfold mark_used, marked. rewrite resize_all_alt by done. rewrite length_zip_with, length_fmap, Hu, Nat.min_id.
  split; [split; [lia|]|done]. rewrite take_zip_orb, Hm, <- fmap_take, Hl, zip_with_fmap_l, zip_with_fmap_r. clear. induction l; cbn; congruence.
Qed.
Lemma unmatched_marked {A} (l : list A) used f : marked l used f -> unmatched l used = List.filter (fun x => negb (f x)) l.
Proof.
  unfold unmatched, marked. revert used. induction l as [|x l IH]; intros used [Hle H]; [done|]. destruct used as [|b used]; [done|].
  injection H as -> H. rewrite imap_cons. cbn. destruct (f x); cbn; (rewrite <- (IH used) by (split; [cbn in Hle; lia|done])); done.
Qed.
Lemma marked_ext {A} (l : list A) used f g : (forall x, x ∈ l -> f x = g x) -> marked l used f -> marked l used g.
Proof. intros H [H1 H2]. split; [done|]. rewrite H2. apply list_fmap_ext. intros i x Hx. apply H. by eapply list_elem_of_lookup_2. Qed.
Lemma marked_app {A} (l : list A) used f ext : marked l used f -> marked l (used ++ ext) f.
Proof. intros [H1 H2]. split; [rewrite length_app; lia|]. by rewrite take_app_le. Qed.
Lemma marked_start {A} (l : list A) : marked l (replicate (length l) false) (fun _ => false).
Proof. split; [by rewrite length_replicate|]. rewrite take_ge by by rewrite length_replicate. symmetry. apply const_fmap. done. Qed.
Lemma allow_iface_used i ck used : snd (allow_iface a i ck used) =
  mkUsed (mark_used (fun p => restricted ck && TftpServer.iface_name_matches (effective i) p) (ck_allow ck) (us_names used))
    (mark_used (fun x => restricted ck && bool_decide (x = if_addr i)) (ck_addrs ck) (us_addrs used)).
Proof.
  unfold allow_iface, effective. destruct (if_addr i) eqn:E; cbn.
  all: unfold iface_allowed_v4, iface_allowed_v6, iface_check_used; cbn; rewrite ?E; destruct (negb _ && _); [done|]; by destruct (services _ _ _ _ _).
Qed.
Lemma recorded_seen l k : k ∈ record_key <$> en_interfaces (enum l) -> k ∈ info_key <$> l.
Proof.
  induction l as [|i l IH] using rev_ind; [by intros []%elem_of_nil|]. rewrite enum_snoc, fmap_app, elem_of_app.
  destruct (enumerate_one_step (enum l) i l (enum_check l)) as [(-> & _)|(r & -> & _ & _ & Hs & _)]; [auto|].
  rewrite fmap_app, elem_of_app. cbn. rewrite Hs, !list_elem_of_singleton. intros [H|H]; auto.
Qed.

(** What the matched entries are after the interfaces [l]. *)
Definition used_inv (l : list IfaceInfo) (e : Enumeration) : Prop :=
  take (length (ck_allow c)) (ck_allow (en_check e)) = ck_allow c
  /\ length (us_names (en_used e)) = length (ck_allow (en_check e)) /\ length (us_addrs (en_used e)) = length (ck_addrs c)
  /\ marked (ck_allow c) (us_names (en_used e)) (fun p => existsb (fun i => TftpServer.iface_name_matches (effective i) p) l)
  /\ marked (ck_addrs c) (us_addrs (en_used e)) (fun x => existsb (fun i => bool_decide (x = if_addr i)) l).
Lemma add_loopback_used l e i : used_inv l e -> used_inv l (add_loopback i e).
Proof.
  intros (H1 & H2 & H3 & H4 & H5). unfold add_loopback. destruct (_ && _); [|done]. unfold used_inv. cbn. repeat split; try done.
  - rewrite take_app_le; [done|]. rewrite <- H1 at 1. rewrite length_take. lia.
  - rewrite !length_app, H2. done.
  - rewrite length_app. destruct H4 as [H4 _]. lia.
  - rewrite take_app_le by apply H4. apply H4.
  - apply H5.
  - apply H5.
Qed.
Lemma restricted_allow p : p ∈ ck_allow c -> restricted c = true.
Proof. unfold restricted, has_if_names. destruct (ck_allow c); [by intros []%elem_of_nil|]. intros _. cbn. by rewrite orb_true_r. Qed.
Lemma restricted_addrs x : x ∈ ck_addrs c -> restricted c = true.
Proof. unfold restricted. destruct (ck_addrs c); [by intros []%elem_of_nil|]. intros _. apply orb_true_r. Qed.
Lemma enum_used l : NoDup (info_key <$> l) -> used_inv l (enum l).
Proof.
  induction l as [|i l IH] using rev_ind; intro ND.
  - unfold used_inv. cbn. repeat split; try apply marked_start; [by apply take_ge|by rewrite length_replicate..].
  - rewrite fmap_app, list.NoDup_app in ND. destruct ND as (ND & Hnew & _). specialize (IH ND). rewrite enum_snoc. unfold enumerate_one.
    pose proof (add_loopback_used _ _ i IH) as Hu. pose proof (add_loopback_interfaces i (enum l)) as Hi. pose proof (add_loopback_check i (enum l)) as Hk.
    rewrite enum_check in Hk. set (e' := add_loopback i (enum l)) in *. rewrite Hi. destruct (existsb _ _) eqn:E.
    { rewrite recorded_key in E. apply recorded_seen in E. exfalso. apply (Hnew _ E). apply list_elem_of_singleton. done. }
    assert (Hw : en_check e' = foldl widen c (l ++ [i])) by by rewrite Hk, foldl_app.
    pose proof (allow_iface_used i (en_check e') (en_used e')) as Ha. destruct (allow_iface _ _ _ _) as [rec used]. cbn in Ha. subst used.
    destruct Hu as (H1 & H2 & H3 & H4 & H5). unfold used_inv. cbn. rewrite Hw in *. rewrite restricted_widen.
    destruct (widen_all c (l ++ [i])) as (W1 & _). rewrite W1.
    destruct (mark_used_marked _ (fun p => restricted c && TftpServer.iface_name_matches (effective i) p) (ck_allow c) _ _ H2 H1 H4) as [M1 M2].
    destruct (mark_used_marked _ (fun x => restricted c && bool_decide (x = if_addr i)) (ck_addrs c) (ck_addrs c) _ H3 (take_ge _ _ (le_n _)) H5) as [M3 M4].
    split; [done|]. split; [done|]. split; [done|]. split; (eapply marked_ext; [|eassumption]); intros x Hx; rewrite existsb_app; cbn.
    + by rewrite (restricted_allow x Hx), orb_false_r.
    + by rewrite (restricted_addrs x Hx), orb_false_r.
Qed.

(** The names and listen addresses reported as unknown, of which the
    daemon refuses to start with the first and binds the second, are exactly
    those of the configuration that no live interface matches: the loopback
    interfaces added on the way are never among them. *)
Theorem unmatched_exact live (ND : NoDup (info_key <$> live)) :
  unmatched_names (enum live) c = List.filter (fun p => negb (existsb (fun i => TftpServer.iface_name_matches (effective i) p) live)) (ck_allow c)
  /\ unmatched_addrs (enum live) c = List.filter (fun x => negb (existsb (fun i => bool_decide (x = if_addr i)) live)) (ck_addrs c).
Proof. destruct (enum_used live ND) as (_ & _ & _ & H1 & H2). split; by apply unmatched_marked. Qed.
End Enumeration.

(** ** Shared listeners *)

Section Listeners.
Context {K Fd : Type} (make_sock : MySockAddr -> SockType -> bool -> K -> result Fd SockError * K).
#[local] Notation bind_all := (create_bound_listeners_checked make_sock).
#[local] Notation Socks := (Network.Listener Fd).

(** The uses of an address, and how often it is asked for. *)
Definition uses (ls : list Socks) (addr : MySockAddr) : Z := default 0 (ls_used <$> List.find (fun l => bool_decide (ls_addr l = addr)) ls).
Definition asked (addr : MySockAddr) (l : list (MySockAddr * str)) : Z := Z.of_nat (length (List.filter (fun x => bool_decide (fst x = addr)) l)).
Lemma asked_cons addr x l : asked addr (x :: l) = (if bool_decide (fst x = addr) then 1 else 0) + asked addr l.
Proof. unfold asked. cbn [List.filter]. destruct (bool_decide _); cbn [length]; lia. Qed.
Lemma asked_nonneg addr l : 0 <= asked addr l.
Proof. unfold asked. lia. Qed.
Lemma bump_addrs i (ls : list Socks) : ls_addr <$> alter bump_used i ls = ls_addr <$> ls.
Proof. revert i. induction ls as [|x ls IH]; intros [|i]; [done..|]. unfold alter in *. cbn. f_equal. apply IH. Qed.
Lemma find_listener_Some (ls : list Socks) addr i : find_listener ls addr = Some i ->
  (forall b, uses (alter bump_used i ls) b = uses ls b + if bool_decide (addr = b) then 1 else 0) /\ exists l, ls !! i = Some l /\ ls_addr l = addr.
Proof.
  unfold find_listener. intros ([j l] & Hf & ->)%fmap_Some. cbn. apply list_find_Some in Hf as (Hl & Ha & Hmin). split; [|by exists l].
  intros b. unfold uses. revert j Hl Hmin. induction ls as [|x ls IH]; intros [|j] Hl Hmin; [done..| |]; cbn in *.
  - injection Hl as ->. rewrite Ha. case_bool_decide; cbn; [done|lia].
  - destruct (bool_decide (ls_addr x = b)) eqn:Ex; cbn.
    + apply bool_decide_eq_true in Ex. pose proof (Hmin 0%nat x eq_refl (Nat.lt_0_succ _)) as Hx. rewrite bool_decide_false by congruence. lia.
    + apply IH; [done|]. intros k y Hy Hk. by apply (Hmin (S k) y); [|lia].
Qed.
Lemma find_listener_None (ls : list Socks) addr : find_listener ls addr = None -> addr ∉ ls_addr <$> ls.
Proof.
  unfold find_listener. intros Hf Hin. apply list_elem_of_fmap in Hin as (l & -> & Hl). apply fmap_None, list_find_None in Hf.
  rewrite Forall_forall in Hf. apply (Hf l); [by rewrite <- list_elem_of_In|done].
Qed.
Lemma uses_snoc (ls : list Socks) l b : ls_addr l ∉ ls_addr <$> ls -> uses (ls ++ [l]) b = uses ls b + if bool_decide (ls_addr l = b) then ls_used l else 0.
Proof.
  unfold uses. induction ls as [|x ls IH]; cbn; intros Hn; [by case_bool_decide|]. apply not_elem_of_cons in Hn as [Hx Hn].
  destruct (bool_decide (ls_addr x = b)) eqn:E; [|by apply IH]. apply bool_decide_eq_true in E. cbn. rewrite bool_decide_false by congruence. lia.
Qed.
Lemma checked_listener addr kinds nowild clever k l k' : create_listeners_checked make_sock addr kinds nowild clever k = (Ok (Some l), k') -> ls_addr l = addr /\ ls_used l = 1.
Proof.
  unfold create_listeners_checked. destruct (open_sock _ _ _ _ addr Udp k) as [[udp|] k1]; [|done]. destruct (open_sock _ _ _ _ addr Tcp k1) as [[tcp|] k2]; [|done].
  destruct (open_sock _ _ _ _ _ Udp k2) as [[tftp|] k3]; [|done]. by destruct udp, tcp, tftp; intros [= <- _].
Qed.

(** Listeners are shared by address: however many interfaces ask for an
    address, and whatever the sockets answer, it has at most one listener, whose
    uses are between one and the number of interfaces that asked; the number
    returned is that of the listeners made. *)
Theorem listeners_shared iface_addrs kinds nowild clever : forall ls created k created' ls' k',
  NoDup (ls_addr <$> ls) -> bind_all ls iface_addrs kinds nowild clever created k = (Ok (created', ls'), k') ->
  NoDup (ls_addr <$> ls') /\ (created' + length ls = created + length ls')%nat /\
  forall addr, uses ls addr <= uses ls' addr <= uses ls addr + asked addr iface_addrs.
Proof.
  induction iface_addrs as [|[addr name] rest IH]; intros ls created k created' ls' k' Hn; cbn [create_bound_listeners_checked].
  { intros [= <- <- _]. split_and!; [done|lia|]. intros addr. unfold asked. cbn. lia. }
  destruct (find_listener ls addr) as [i|] eqn:Ef.
  - apply find_listener_Some in Ef as (Hu & _). intros Hr. apply IH in Hr as (H1 & H2 & H3); [|by rewrite bump_addrs]. rewrite length_alter in H2. split_and!; [done..|].
    intros b. specialize (H3 b). rewrite Hu in H3. rewrite asked_cons. cbn [fst]. destruct (bool_decide (addr = b)); lia.
  - apply find_listener_None in Ef. destruct (create_listeners_checked _ _ _ _ _ _) as [[[l|]|e] k1] eqn:Ec; [|intros Hr|done].
    + apply checked_listener in Ec as [Ea Eu]. intros Hr. apply IH in Hr as (H1 & H2 & H3).
      2: { rewrite fmap_app. apply list.NoDup_app. split_and!; [done| |apply NoDup_singleton]. intros b Hb ->%list_elem_of_singleton. cbn in Hb. by rewrite Ea in Hb. }
      rewrite length_app in H2. cbn [length] in H2. split_and!; [done|lia|]. intros b. specialize (H3 b). rewrite uses_snoc in H3 by by (cbn; rewrite Ea).
      cbn [with_iface ls_addr ls_used] in H3. rewrite Ea, Eu in H3. rewrite asked_cons. cbn [fst]. destruct (bool_decide (addr = b)); lia.
    + apply IH in Hr as (H1 & H2 & H3); [|done]. split_and!; [done..|]. intros b. specialize (H3 b). rewrite asked_cons. destruct (bool_decide _); lia.
Qed.

(** Releasing: the descriptors are closed by the last of the uses, and not
    before. *)
Fixpoint release_times (n : nat) (l : Socks) : bool * Socks :=
  match n with O => (false, l) | S n => let '(closed, l) := release l in if closed then (true, l) else release_times n l end.
Theorem released_last l n : 1 <= ls_used l -> Z.of_nat n < ls_used l ->
  let '(closed, l') := release_times n l in closed = false /\ ls_udp_fd l' = ls_udp_fd l /\ ls_tcp_fd l' = ls_tcp_fd l /\ ls_tftp_fd l' = ls_tftp_fd l /\
    (Z.of_nat (S n) = ls_used l -> fst (release l') = true).
Proof.
  revert l. induction n as [|n IH]; intros l Hu Hn; cbn [release_times].
  - split_and!; [done..|]. unfold release. intros E. by destruct (Z.ltb_spec 1 (ls_used l)); [lia|].
  - unfold release at 1. rewrite (proj2 (Z.ltb_lt _ _)) by lia. specialize (IH (mkListener (ls_addr l) (ls_udp_fd l) (ls_tcp_fd l) (ls_tftp_fd l) (ls_used l - 1) (ls_iface l))).
    cbn [ls_used ls_udp_fd ls_tcp_fd ls_tftp_fd] in IH. destruct (release_times n _) as [closed l']. destruct IH as (-> & H1 & H2 & H3 & H4); [lia..|].
    split_and!; [done..|]. intros E. apply H4. lia.
Qed.
End Listeners.
